(* ===== verification/_CoqProject ===== *)
-Q . S2P
Prelude.v
Contract.v
Threads.v
RedisLock.v
Redis.v
Breaker.v
RateLimit.v
Postgres.v
Demo.v
GoText.v
GoStrings.v
Idempotency.v
IdemProps.v
GoFloat.v
RateRedis.v
Money.v
Session.v
SessionProps.v
SessionRuns.v
Nonce.v
JobQueue.v
Webhook.v
WebhookProps.v
Ramp.v
RampProps.v
MobileMoney.v
MobileProps.v
CircleModel.v
CircleRepo.v
CirclePg.v
CircleService.v
CircleSpec.v
CircleInv.v
CircleProps.v
CircleSnapshot.v
CircleOutbox.v
Contribution.v
ContributionPg.v
Payout.v
PayoutPg.v
CircleTx.v
LedgerHistory.v
Processor.v
ProcessorProps.v
Indexer.v
IndexerProps.v
IndexerPg.v
Community.v
CommunityPg.v
CommunityProps.v
CommunityInv.v
Swap.v
SwapPg.v
SwapProps.v
SwapRuns.v
Incentives.v
IncentivesPg.v
IncentivesProps.v
IncentivesInv.v
IncentivesStreak.v
GovModel.v
Governance.v
GovSpec.v
GovProps.v
GovPg.v
User.v
UserNames.v
UserProps.v
UserRuns.v
Accounts.v
AccountProps.v
AccountRuns.v
Notification.v
NotificationProps.v
NotificationRuns.v
Hub.v
HubProps.v
Chat.v
ChatProps.v
