(* ===== verification/Prelude.v ===== *)
(** * Moistello backend: a verification development

    The program is a Go server for savings circles: a group whose members pay a
    contribution each round and one of whom receives the pool.  Its state lives in
    PostgreSQL, in Redis and on the Stellar chain; an indexer copies the events of
    the chain into the tables.  Each service of the program is written here as a
    shallow embedding of its Go source, over the storage it calls, and its theorems
    are about those definitions.

    ** How the code is embedded

    - A Go function that fails returns a [result]: a value, an error or a panic.  An
      error is a sentinel, a format string, a wrapped error or the code of a library.
    - A method whose calls the storage serializes is a computation [M W A := W ->
      result A * W] on a world [W]; the notations [let!] and [do!] are its early
      returns ([Prelude]).  Tables are [gmap]s, rows are records with the fields of
      the Go structures, an [int64] is a [Z] with its wrap-around written out
      ([wrap64]), [float64] is the executable IEEE 754 specification ([GoFloat]),
      [time.Time] is a number of nanoseconds and the zero time is [0].
    - A method that other requests, replicas or goroutines overlap is a [prog], a tree
      of atomic actions, run alone by [run] and in a pool, in any order, by
      [pool_step] ([Threads]); an environment may change the world between actions.
    - [time.Now], [uuid.New] and random bytes are arguments, or actions of the world.
    - A repository is a type class over [W], with a class of laws: a call does what
      its pure meaning says on the tables or fails and leaves them ([Contract]).  The
      services are proved against the laws; the PostgreSQL implementations discharge
      them over [Postgres], which has statements, constraints, transactions that a
      failed statement aborts, and a list of faults.  [Redis] is the keyspace with
      its expiry, the commands the program sends and a network that loses commands or
      replies.

    ** Parts, in the order of the files

    - [GoText], [GoStrings], [GoFloat]: the text, split and number functions of the
      Go standard library.  [Demo]: a concrete library of identifiers for witnesses.
    - [Money] (src/pkg/money): amounts in stroops.  Exact arithmetic or [ErrOverflow],
      the grammar of [FromString], its round trip with [String].
    - [RedisLock] (src/pkg/redis/lock.go): exclusion while the heartbeat is on time.
    - [Breaker] (src/pkg/stellar/circuitbreaker.go): what each state lets through,
      recovery.  [RateLimit] (src/internal/infrastructure/ratelimit): the limiter of
      the process, exact over its sliding window; [RateRedis] (the same and
      src/internal/api/middleware/ratelimit.go): the limiter over Redis, which counts
      attempts, and what a route answers in an outage.
    - [Idempotency], [IdemProps] (src/internal/api/middleware/idempotency.go): what
      stands behind an idempotency key runs once, and the answers that are replayed
      where they should not be.
    - [Session], [SessionProps], [SessionRuns]
      (src/internal/domain/auth/session, the handlers and the middleware of
      src/internal/api that use its keys): refresh tokens in Redis.  Every token minted is
      that of a login, a logout ends the user's sessions, and the runs in which a
      listing, a validation, a rotation or the sweep does not do what is meant.
      [Nonce] (src/internal/domain/auth/nonce, wallet_auth_handler.go): one login for
      each nonce, unless two overlap.
    - [User], [UserNames], [UserProps], [UserRuns] (src/internal/domain/user): the rows of
      users with their constraints, the repository and the service as programs that
      overlap; tables in order, deletion and restoration, the parts of a score, the names
      of users and where they collide.
    - [Accounts], [AccountProps], [AccountRuns]
      (src/internal/domain/verification, totp, the password functions and the handlers of
      registration, e-mail change, TOTP and profiles in src/internal/api/handler): every
      account stands on a code that was drawn for its e-mail, guesses are counted,
      recovery codes and passwords are accepted as they were given out, and the runs in
      which a password is replaced, a code used twice or an e-mail lost.
    - [Notification], [NotificationProps], [NotificationRuns]
      (src/internal/domain/notification, its handlers and notification_adapters.go):
      creation with its deliveries in the background, the digest buffer, which gives back
      once what it accepted, the rows as they are migrated, and the lists and marks.
    - [Hub], [HubProps] (src/internal/websocket, ws_handler.go): live connections and
      their rooms, the pumps, the events and their bridge between instances, the shutdown,
      as programs that overlap; indexes that agree, rooms the authorizer allowed, messages
      in their order, a shutdown that leaves nobody, and the runs in which an event comes
      twice, loses fields or reaches nobody.
    - [Chat], [ChatProps] (src/internal/domain/chat, chat_handler.go): keys and their
      bundles, conversations and messages over transactions that hold locks, wait and lose
      answers, and the X3DH handshake; a one-time prekey is handed out once, messages are
      numbered without gaps, both sides derive one key, a pair has one conversation, and
      the runs in which it has two, or in which a bundle is torn, stale or garbled.  A
      statement that waits for a lock is tried as often as its context has patience.
    - [Webhook], [WebhookProps] (src/webhook, its consumer in
      src/pkg/rabbitmq and its handlers): signatures, the exact fate of a delivery over a
      network that answers anything, the dispatcher as a scheduled system with its
      semaphore and shutdown.
    - [Ramp], [RampProps] (src/internal/domain/deposit, withdrawal, fx and
      the handlers deposit_handler.go and yellowcard_webhook_handler.go): deposits and
      withdrawals of fiat money as programs that overlap; every row was accepted by the
      provider, and its signed notifications decide the status of a row.
    - [MobileMoney], [MobileProps] (src/internal/domain/mobilemoney and its
      handlers): collections and payments over the API of a provider; a transaction
      stands on what the provider answered, and its key never asks again.
    - [CircleModel], [CircleRepo], [CirclePg], [CircleService], [CircleSpec],
      [CircleInv], [CircleProps] (src/internal/domain/circle): the rows and rules, the
      contract of the repository and its PostgreSQL implementation, every method of
      the service; the abstract steps of a circle and the refinement of every call to
      them, the status machine, the invariant of the tables, who may change a circle,
      the votes.  [CircleSnapshot] and [CircleOutbox]: the snapshot queries and the
      relay of events, which loses none and drains.
    - [Contribution], [ContributionPg], [Payout], [PayoutPg]
      (src/internal/domain/contribution, payout): records of payments over the circle
      service, each recorded once; what the chain was asked and what it answered
      decides whether a record is verified, unverified or refused.
    - [JobQueue] (src/pkg/jobqueue): both implementations of the queue, the life of a
      job, which every call of either follows, where the two agree, the end of a drain.
    - [LedgerHistory], [CircleTx], [Processor], [ProcessorProps], [Indexer],
      [IndexerProps], [IndexerPg] (src/internal/indexer): polling,
      reorganizations, the handlers of contract events and their transactional
      writes; events counted once, totals that agree with the recorded payments, a
      reconciliation that ends.
    - [Community], [CommunityPg], [CommunityProps], [CommunityInv]
      (src/internal/domain/community): who may change what, exact member counts.
    - [Swap], [SwapPg], [SwapProps], [SwapRuns] (src/internal/domain/swap): offers,
      their escrow on the chain and the sweeper, as programs that overlap; nobody
      moves one escrow twice, but for the runs that show how it happens.
    - [Incentives], [IncentivesPg], [IncentivesProps], [IncentivesInv],
      [IncentivesStreak] (src/internal/domain/incentives): grants
      given once, the life of a grant, streaks as runs of contributions.
    - [GovModel], [Governance], [GovSpec], [GovProps], [GovPg]
      (src/internal/domain/governance): proposals, votes, timelock and cancellation,
      on the repository and on the maps in memory, as one ledger.

    The parts meet as the code composes them: contributions and payouts call the
    circle service through a record of the operations they use, with laws that the
    circle service satisfies; the processor calls the repositories of circles,
    contributions, payouts, users and reputation; the sweeper runs under the lock;
    nonces, sessions and codes share one keyspace, and the handlers of src/internal/api
    that write those keys are modelled with them; the handlers of accounts call the user
    service inside their own programs ([plift]).

    ** Bounds and fuel

    [FromString] and the digit functions run on fuel that the length or the logarithm
    of their argument bounds.  [drainQueue] takes one more than the attempts the queue
    holds, and [drainQueue_terminates] says that this is enough.  [Reconcile] takes
    one more than the ledgers of a cycle ([Reconcile_terminates]).  The requests for
    a referral code try [maxReferralCodeAttempts] times, as the code does.  The limiters,
    the breaker and the sweeps recurse on their data and need no fuel.

    ** Parameters

    Code outside the repository is an argument: [UUIDLib] (identifiers and their text),
    [SessionLib], [NonceLib] and [HashLib] (hashes, signatures, encodings), [AccountLib] and
    [AccountJSON] (key derivation, one-time passwords, base64 and the records of pending
    registrations and e-mail changes, with [HashLaws], [Base64Laws], [CaseLaws] and
    [AccountJSONLaws] what is documented of them), [RecordJSON] (the
    records of idempotency keys), [RampLib] and [WebhookLib] (dates, decimal numbers and
    bodies of the fiat provider), [MPesaLib] (bodies of the mobile money API), [HMAC] and
    [EnvelopeJSON] (keyed hashes, bodies of queued deliveries), [ColumnLib] (NUMERIC and
    UUID columns), [JobColumns] (the columns of the table of jobs), [PgDialect] (whether
    the server accepts a locking aggregate, which PostgreSQL documents that it does
    not), [SnapshotSchema] (whether a migration has run), [NotificationSchema] (the check
    a migration puts on the types of notifications), [TextMatch], [RangeOrder], [MapRange],
    [NotificationRange] and [HubRange] (orders the language leaves open),
    [NotificationJSON] and [HubJSON] (bodies of queued notifications and of live events),
    [X25519Lib] (the curve, its signatures and the key derivation, with [X25519Laws]), [PgNumeric], [GoFloatConv],
    [PayloadCodec], [MapColumn], [MetadataJSON] and [IncentiveStore] (encodings of
    the driver).  A theorem that needs a law of a parameter has a witness over a
    concrete one.

    ** Not modelled

    Log lines, metrics and traces; contexts and their deadlines, except where a lost
    command stands for them; goroutines that only wait and tick; the text of log
    messages; the cryptography of tokens and signatures; Stellar transaction building;
    senders of e-mail, SMS and push messages; the routing and the decoding of HTTP
    requests, beyond the handlers named above; generated documentation, mocks and tests.
    The manifest lists every part of the program with its status.

    This file holds what all others share: outcomes, the error monad and its rules,
    machine integers, time, and lemmas on lists, options and maps. *)
From stdpp Require Export base numbers list strings gmap sorting fin_maps.
From stdpp Require Import options.

(** ** Outcomes of Go code

    A Go function that can fail returns [(T, error)]; it can also panic (a nil
    dereference, an index out of range).  An [error] value is one of:
    - a sentinel, a package variable made by [errors.New] and compared with [==];
    - the value of an [fmt.Errorf] without [%w], kept as its format string;
    - the value of an [fmt.Errorf] with [%w], which wraps another error;
    - an error made outside the repository (a driver, a context, a library),
      with its code, for example the SQLSTATE of a database error. *)
Inductive error :=
  | Sentinel (name : string)
  | Errorf (format : string)
  | Wrapf (format : string) (inner : error)
  | External (code : string).

Inductive result (A : Type) :=
  | Ok (a : A)
  | Err (e : error)
  | Panic.
Arguments Ok {A} _.
Arguments Err {A} _.
Arguments Panic {A}.

#[export] Instance error_eq_dec : EqDecision error.
Proof. solve_decision. Defined.

#[export] Instance result_eq_dec {A} `{EqDecision A} : EqDecision (result A).
Proof. solve_decision. Defined.

(** [errors.Is(err, target)] for a sentinel target: the chain of wrapped errors. *)
Fixpoint errors_Is (e target : error) : bool :=
  bool_decide (e = target) ||
  match e with
  | Wrapf _ inner => errors_Is inner target
  | _ => false
  end.

(** The shared sentinels of src/pkg/apperrors.  Two sentinels with one text are
    different values in Go: the name carries the package. *)
Definition apperrors_ErrNotFound := Sentinel "apperrors: resource not found".
Definition apperrors_ErrForbidden := Sentinel "apperrors: forbidden".
Definition apperrors_ErrInvalidInput := Sentinel "apperrors: invalid input".
Definition apperrors_ErrConflict := Sentinel "apperrors: resource already exists".

Definition is_ok {A} (r : result A) : bool :=
  match r with Ok _ => true | _ => false end.

Definition result_map {A B} (f : A -> B) (r : result A) : result B :=
  match r with
  | Ok a => Ok (f a)
  | Err e => Err e
  | Panic => Panic
  end.

Definition result_bind {A B} (r : result A) (k : A -> result B) : result B :=
  match r with
  | Ok a => k a
  | Err e => Err e
  | Panic => Panic
  end.

(** [if err != nil { return fmt.Errorf(format, err) }] *)
Definition wrap_err {A} (format : string) (r : result A) : result A :=
  match r with
  | Err e => Err (Wrapf format e)
  | _ => r
  end.

(** ** State and error monad

    An operation over a state [S] returns a result and the state it leaves.  The
    state of a failed operation is kept: Go does not undo the writes a function
    made before it returned an error. *)
Definition M (S A : Type) := S -> result A * S.

Definition gret {S A} (a : A) : M S A := fun s => (Ok a, s).
Definition gfail {S A} (e : error) : M S A := fun s => (Err e, s).
Definition gpanic {S A} : M S A := fun s => (Panic, s).
Definition glift {S A} (r : result A) : M S A := fun s => (r, s).
Definition gbind {S A B} (m : M S A) (k : A -> M S B) : M S B := fun s =>
  match m s with
  | (Ok a, s') => k a s'
  | (Err e, s') => (Err e, s')
  | (Panic, s') => (Panic, s')
  end.

(** [x, err := m()] with [err] inspected by the caller; a panic is not caught. *)
Definition gtry {S A B} (m : M S A) (k : A + error -> M S B) : M S B := fun s =>
  match m s with
  | (Ok a, s') => k (inl a) s'
  | (Err e, s') => k (inr e) s'
  | (Panic, s') => (Panic, s')
  end.

(** [if err := m(); err != nil { return fmt.Errorf(format, err) }] *)
Definition gwrap {S A} (format : string) (m : M S A) : M S A := fun s =>
  let '(r, s') := m s in (wrap_err format r, s').

(** [_ = m()]: the error is dropped, the effects stay. *)
Definition gignore {S A} (m : M S A) : M S unit := fun s =>
  match m s with
  | (Panic, s') => (Panic, s')
  | (_, s') => (Ok tt, s')
  end.

Definition gget {S} : M S S := fun s => (Ok s, s).
Definition gput {S} (s : S) : M S unit := fun _ => (Ok tt, s).
Definition gmodify {S} (f : S -> S) : M S unit := fun s => (Ok tt, f s).
Definition gguard {S} (b : bool) (e : error) : M S unit :=
  if b then gfail e else gret tt.

(** The dereference of a pointer. *)
Definition deref {S A} (p : option A) : M S A :=
  match p with Some a => gret a | None => gpanic end.

Declare Scope go_scope.
Delimit Scope go_scope with go.
Notation "'let!' x := m 'in' k" := (gbind m (fun x => k))
  (at level 10, x name, m at level 100, k at level 200) : go_scope.
Notation "'do!' m 'in' k" := (gbind m (fun _ => k))
  (at level 10, m at level 100, k at level 200) : go_scope.
Notation "'let?' x := r 'in' k" := (result_bind r (fun x => k))
  (at level 10, x name, r at level 100, k at level 200) : go_scope.

(** ** Machine integers

    [int] and [int64] are 64-bit two's complement on the platforms the backend
    is built for; arithmetic wraps. *)
Definition int64_min : Z := (-9223372036854775808)%Z.
Definition int64_max : Z := 9223372036854775807%Z.
Definition in_int64 (z : Z) : bool := (int64_min <=? z)%Z && (z <=? int64_max)%Z.
Definition wrap64 (z : Z) : Z :=
  ((z + 9223372036854775808) mod 18446744073709551616 - 9223372036854775808)%Z.
Definition clamp64 (z : Z) : Z :=
  if (z <? int64_min)%Z then int64_min
  else if (int64_max <? z)%Z then int64_max else z.

(** ** Time

    [time.Time] is a number of nanoseconds since the zero [time.Time];
    [time.Duration] is a signed 64-bit number of nanoseconds.  [t.Sub(u)]
    saturates at the bounds of a duration, as the standard library documents. *)
Abbreviation time := Z (only parsing).
Abbreviation duration := Z (only parsing).
Definition second : duration := 1000000000%Z.
Definition time_Sub (t u : time) : duration := clamp64 (t - u).
Definition time_Add (t : time) (d : duration) : time := (t + d)%Z.
Definition time_After (t u : time) : bool := (u <? t)%Z.
Definition time_Before (t u : time) : bool := (t <? u)%Z.
Definition time_IsZero (t : time) : bool := (t =? 0)%Z.

(** A UUID is the 128-bit number of its sixteen bytes; [uuid.Nil] is zero. *)
Abbreviation uuid := N (only parsing).
Definition uuid_Nil : uuid := 0%N.

(** [github.com/google/uuid] is a library of the program: parsing and printing
    are operations of the model. *)
Class UUIDLib := {
  uuid_Parse : string -> option uuid;
  uuid_String : uuid -> string;
}.

(** What the library documents and the code relies on. *)
Class UUIDLaws `{UUIDLib} : Prop := {
  uuid_Parse_String : forall u, uuid_Parse (uuid_String u) = Some u;
}.

(** ** Tactics and hints *)
Create HintDb go.
Create Rewrite HintDb go.

(** Unfold the monad in the goal and the hypotheses. *)
Ltac go_unfold :=
  cbv [gret gfail gpanic glift gbind gtry gwrap gignore gget gput gmodify gguard
       result_bind result_map wrap_err] in *.

(** Case analysis on the first [match] or [if] of a hypothesis. *)
Ltac go_case_in H :=
  match type of H with
  | context [match ?x with _ => _ end] =>
      lazymatch x with
      | context [match _ with _ => _ end] => fail
      | _ => destruct x eqn:?
      end
  end.

Ltac go_case :=
  match goal with
  | |- context [match ?x with _ => _ end] =>
      lazymatch x with
      | context [match _ with _ => _ end] => fail
      | _ => destruct x eqn:?
      end
  end.

(** Split a run of a monadic operation into its paths. *)
Ltac go_run H :=
  go_unfold; repeat (go_case_in H; simplify_eq/=); simplify_eq/=.

(** Turn boolean tests into propositions. *)
Ltac go_bool :=
  repeat match goal with
  | H : negb _ = true |- _ => apply negb_true_iff in H
  | H : negb _ = false |- _ => apply negb_false_iff in H
  | H : _ && _ = true |- _ => apply andb_true_iff in H; destruct H
  | H : _ || _ = false |- _ => apply orb_false_iff in H; destruct H
  | H : bool_decide _ = true |- _ => apply bool_decide_eq_true in H
  | H : bool_decide _ = false |- _ => apply bool_decide_eq_false in H
  | H : (_ <? _)%Z = true |- _ => apply Z.ltb_lt in H
  | H : (_ <? _)%Z = false |- _ => apply Z.ltb_ge in H
  | H : (_ <=? _)%Z = true |- _ => apply Z.leb_le in H
  | H : (_ <=? _)%Z = false |- _ => apply Z.leb_gt in H
  | H : (_ =? _)%N = true |- _ => apply N.eqb_eq in H
  | H : (_ =? _)%N = false |- _ => apply N.eqb_neq in H
  | H : ~ (_ <> _) |- _ => apply dec_stable in H
  | H : (_ =? _)%Z = true |- _ => apply Z.eqb_eq in H
  | H : (_ =? _)%Z = false |- _ => apply Z.eqb_neq in H
  end.

(** Open existentials and conjunctions. *)
Ltac go_ex :=
  repeat match goal with
  | E : exists _, _ |- _ => destruct E
  | E : _ /\ _ |- _ => destruct E
  end.

(** ** Integer lemmas *)
Lemma in_int64_spec z : in_int64 z = true <-> (int64_min <= z <= int64_max)%Z.
Proof. unfold in_int64. rewrite andb_true_iff, !Z.leb_le. done. Qed.

Lemma in_int64_false z : in_int64 z = false <-> (z < int64_min \/ int64_max < z)%Z.
Proof. unfold in_int64. rewrite andb_false_iff, !Z.leb_gt. done. Qed.

Lemma wrap64_id z : in_int64 z = true -> wrap64 z = z.
Proof.
  rewrite in_int64_spec. unfold wrap64, int64_min, int64_max. intros H.
  rewrite Z.mod_small; lia.
Qed.

Lemma wrap64_in z : in_int64 (wrap64 z) = true.
Proof.
  rewrite in_int64_spec. unfold wrap64, int64_min, int64_max.
  pose proof (Z.mod_pos_bound (z + 9223372036854775808) 18446744073709551616). lia.
Qed.

(** The wrapped value differs from the exact one by a multiple of [2^64]. *)
Lemma wrap64_eq z : exists k, (wrap64 z = z - k * 18446744073709551616)%Z.
Proof.
  exists ((z + 9223372036854775808) / 18446744073709551616)%Z. unfold wrap64.
  pose proof (Z.div_mod (z + 9223372036854775808) 18446744073709551616). lia.
Qed.

(** Reducing a term before a sum does not change the wrapped sum. *)
Lemma wrap64_add_l a b : wrap64 (wrap64 a + b) = wrap64 (a + b).
Proof.
  unfold wrap64. f_equal. set (x := (a + 9223372036854775808)%Z).
  replace (a + b + 9223372036854775808)%Z with (x + b)%Z by (unfold x; lia).
  rewrite <-(Z.add_mod_idemp_l x b) by lia. f_equal. lia.
Qed.

Lemma clamp64_id z : in_int64 z = true -> clamp64 z = z.
Proof.
  rewrite in_int64_spec. unfold clamp64. intros [??].
  destruct (Z.ltb_spec z int64_min), (Z.ltb_spec int64_max z); lia.
Qed.

Lemma clamp64_mono a b : (a <= b)%Z -> (clamp64 a <= clamp64 b)%Z.
Proof.
  unfold clamp64, int64_min, int64_max. intros.
  repeat case_match; go_bool; lia.
Qed.

#[export] Hint Rewrite wrap64_id using (assumption || lia) : go.
#[export] Hint Resolve wrap64_in : go.

(** ** Monad laws *)
Section monad.
Context {S : Type}.

Lemma gbind_ret {A B} (a : A) (k : A -> M S B) s : gbind (gret a) k s = k a s.
Proof. done. Qed.

Lemma gbind_assoc {A B C} (m : M S A) (k : A -> M S B) (h : B -> M S C) s :
  gbind (gbind m k) h s = gbind m (fun a => gbind (k a) h) s.
Proof. unfold gbind. destruct (m s) as [[]?]; done. Qed.

(** A successful sequence ran both of its halves successfully. *)
Lemma gbind_Ok_inv {A B} (m : M S A) (k : A -> M S B) s b s' :
  gbind m k s = (Ok b, s') -> exists a s1, m s = (Ok a, s1) /\ k a s1 = (Ok b, s').
Proof. unfold gbind. destruct (m s) as [[]?]; naive_solver. Qed.

Lemma gwrap_Ok {A} f (m : M S A) s a s' :
  gwrap f m s = (Ok a, s') <-> m s = (Ok a, s').
Proof. unfold gwrap. destruct (m s) as [[]?]; naive_solver. Qed.

Lemma gwrap_state {A} f (m : M S A) s : (gwrap f m s).2 = (m s).2.
Proof. unfold gwrap. by destruct (m s). Qed.
End monad.

Lemma errors_Is_refl e : errors_Is e e = true.
Proof. destruct e; cbn [errors_Is]; rewrite bool_decide_eq_true_2; done. Qed.

Lemma errors_Is_wrap f e t : errors_Is e t = true -> errors_Is (Wrapf f e) t = true.
Proof. intros H. cbn [errors_Is]. rewrite H. by rewrite orb_true_r. Qed.

(** ** Alteration of a map *)
Lemma alter_insert_row {K A} `{Countable K} (f : A -> A) (t : gmap K A) id r :
  t !! id = Some r -> alter f id t = <[id := f r]> t.
Proof.
  intros He. apply map_eq. intros k. destruct (decide (k = id)) as [->|].
  - by rewrite lookup_alter_eq, lookup_insert_eq, He.
  - by rewrite lookup_alter_ne, lookup_insert_ne.
Qed.

Lemma alter_missing {K A} `{Countable K} (f : A -> A) (t : gmap K A) id :
  t !! id = None -> alter f id t = t.
Proof. intros Hn. apply alter_id. intros a Ha. congruence. Qed.

(** ** The total of a measure over a map *)
Definition map_sum {K A} `{Countable K} (f : A -> nat) (m : gmap K A) : nat :=
  sum_list (f <$> (map_to_list m).*2).

Section map_sum.
Context {K A : Type} `{Countable K} (f : A -> nat).
Implicit Types m : gmap K A.

Lemma map_sum_insert m i a : m !! i = None -> map_sum f (<[i := a]> m) = f a + map_sum f m.
Proof. intros Hi. unfold map_sum. by rewrite map_to_list_insert by done. Qed.

Lemma map_sum_delete m i a : m !! i = Some a -> map_sum f m = f a + map_sum f (delete i m).
Proof. intros Hi. unfold map_sum. by rewrite <-(map_to_list_delete m i a) by done. Qed.

(** Replacing a value changes the total by the difference. *)
Lemma map_sum_replace m i a b :
  m !! i = Some a -> map_sum f (<[i := b]> m) + f a = map_sum f m + f b.
Proof.
  intros Hi. rewrite (map_sum_delete m i a Hi), <-(insert_delete_eq m i b).
  rewrite map_sum_insert by apply lookup_delete_eq. lia.
Qed.
End map_sum.

(** ** Weakest preconditions

    [wp m s Q] says that the run of [m] from [s] ends in a result and a state
    related by [Q]; the rules below follow the combinators of the monad. *)
Definition wp {S A} (m : M S A) (s : S) (Q : result A -> S -> Prop) : Prop :=
  Q (m s).1 (m s).2.

Section wp.
Context {S : Type}.
Implicit Types s : S.

Lemma wp_run {A} (m : M S A) s Q r s' : wp m s Q -> m s = (r, s') -> Q r s'.
Proof. unfold wp. intros H E. by rewrite E in H. Qed.

Lemma wp_of_run {A} (m : M S A) s (Q : result A -> S -> Prop) :
  (forall r s', m s = (r, s') -> Q r s') -> wp m s Q.
Proof. unfold wp. destruct (m s); eauto. Qed.

Lemma wp_mono {A} (m : M S A) s (P Q : result A -> S -> Prop) :
  wp m s P -> (forall r s', P r s' -> Q r s') -> wp m s Q.
Proof. unfold wp. eauto. Qed.

Lemma wp_bind {A B} (m : M S A) (k : A -> M S B) s Q :
  wp m s (λ r s', match r with
                  | Ok a => wp (k a) s' Q
                  | Err e => Q (Err e) s'
                  | Panic => Q Panic s'
                  end) ->
  wp (gbind m k) s Q.
Proof. unfold wp, gbind. by destruct (m s) as [[]?]. Qed.

Lemma wp_try {A B} (m : M S A) (k : A + error -> M S B) s Q :
  wp m s (λ r s', match r with
                  | Ok a => wp (k (inl a)) s' Q
                  | Err e => wp (k (inr e)) s' Q
                  | Panic => Q Panic s'
                  end) ->
  wp (gtry m k) s Q.
Proof. unfold wp, gtry. by destruct (m s) as [[]?]. Qed.

Lemma wp_wrap {A} f (m : M S A) s Q :
  wp m s (λ r s', Q (wrap_err f r) s') -> wp (gwrap f m) s Q.
Proof. unfold wp, gwrap. by destruct (m s) as [[]?]. Qed.

Lemma wp_ignore {A} (m : M S A) s Q :
  wp m s (λ r s', Q (match r with Panic => Panic | _ => Ok tt end) s') -> wp (gignore m) s Q.
Proof. unfold wp, gignore. by destruct (m s) as [[]?]. Qed.

Lemma wp_ret {A} (a : A) s (Q : result A -> S -> Prop) : Q (Ok a) s -> wp (gret a) s Q.
Proof. done. Qed.
Lemma wp_fail {A} e s (Q : result A -> S -> Prop) : Q (Err e) s -> wp (gfail e) s Q.
Proof. done. Qed.
Lemma wp_panic {A} s (Q : result A -> S -> Prop) : Q Panic s -> wp gpanic s Q.
Proof. done. Qed.
Lemma wp_lift {A} (r : result A) s Q : Q r s -> wp (glift r) s Q.
Proof. done. Qed.
Lemma wp_guard (b : bool) e s Q :
  (b = true -> Q (Err e) s) -> (b = false -> Q (Ok tt) s) -> wp (gguard b e) s Q.
Proof. destruct b; unfold gguard, wp; cbn; eauto. Qed.
(** A postcondition that holds of every failure follows from the continuation. *)
Lemma wp_bind_any {A B} (m : M S A) (k : A -> M S B) s (Q : result B -> S -> Prop) :
  (forall a s', wp (k a) s' Q) -> (forall e s', Q (Err e) s') -> (forall s', Q Panic s') ->
  wp (gbind m k) s Q.
Proof.
  intros Hk He Hp. apply wp_bind, wp_of_run. intros [a|e|] s' _; auto.
Qed.

Lemma wp_get s (Q : result S -> S -> Prop) : Q (Ok s) s -> wp gget s Q.
Proof. done. Qed.
Lemma wp_put s s' Q : Q (Ok tt) s' -> wp (gput s') s Q.
Proof. done. Qed.
Lemma wp_modify f s Q : Q (Ok tt) (f s) -> wp (gmodify f) s Q.
Proof. done. Qed.
End wp.

(** One rule of the weakest precondition, by the head of the program. *)
Ltac wp_rule :=
  lazymatch goal with
  | |- wp (gbind _ _) _ _ => apply wp_bind
  | |- wp (gtry _ _) _ _ => apply wp_try
  | |- wp (gwrap _ _) _ _ => apply wp_wrap
  | |- wp (gignore _) _ _ => apply wp_ignore
  | |- wp (gret _) _ _ => apply wp_ret
  | |- wp (gfail _) _ _ => apply wp_fail
  | |- wp gpanic _ _ => apply wp_panic
  | |- wp (glift _) _ _ => apply wp_lift
  | |- wp (gguard _ _) _ _ => apply wp_guard; intros ?; go_bool
  | |- wp (deref (Some _)) _ _ => apply wp_ret
  | |- wp (deref ?p) _ _ => unfold deref; destruct p eqn:?
  | |- wp gget _ _ => apply wp_get
  | |- wp (gput _) _ _ => apply wp_put
  | |- wp (gmodify _) _ _ => apply wp_modify
  | |- wp (if ?b then _ else _) _ _ => destruct b eqn:?
  | |- wp (match ?x with _ => _ end) _ _ => destruct x eqn:?
  end; cbn [wrap_err].

(** ** Rows changed in place, and rows looked for by their values *)
Section rows.
Context {K : Type} `{Countable K} {A : Type}.
Implicit Types m : gmap K A.
(** The row a query of one row finds. *)
Definition find_row (P : A -> bool) (m : gmap K A) : option A :=
  head (filter (λ a, P a = true) (map_to_list m).*2).
Lemma find_row_spec (P : A -> bool) (m : gmap K A) :
  match find_row P m with
  | Some a => exists id, m !! id = Some a /\ P a = true
  | None => forall id a, m !! id = Some a -> P a = false
  end.
Proof.
  unfold find_row. destruct (filter _ _) as [|a l] eqn:E; cbn.
  - intros id a Hid. destruct (P a) eqn:Ea; [|done]. assert (a ∈ filter (λ a, P a = true) (map_to_list m).*2) as Hin.
    { apply list_elem_of_filter. split; [done|]. apply list_elem_of_fmap. exists (id, a). split; [done|].
      by apply elem_of_map_to_list. }
    rewrite E in Hin. by apply not_elem_of_nil in Hin.
  - assert (a ∈ filter (λ a, P a = true) (map_to_list m).*2) as Hin by (rewrite E; by left).
    apply list_elem_of_filter in Hin as [Ha Hin]. apply list_elem_of_fmap in Hin as ([id a'] & -> & Hin).
    apply elem_of_map_to_list in Hin. by exists id.
Qed.
Lemma alter_some (f : A -> A) i j (m : gmap K A) a : alter f i m !! j = Some a ->
  exists b, m !! j = Some b /\ (a = b \/ a = f b).
Proof.
  destruct (decide (i = j)) as [->|Hne].
  - rewrite lookup_alter_eq. destruct (m !! j) as [b|]; [|done]. intros [= <-]. eauto.
  - rewrite lookup_alter_ne by done. eauto.
Qed.
Lemma no_conflict (P : A -> bool) (m : gmap K A) i a : existsb P (map_to_list m).*2 = false ->
  m !! i = Some a -> P a = false.
Proof.
  intros He Hi. destruct (P a) eqn:E; [|done]. assert (existsb P (map_to_list m).*2 = true) as Ht; [|congruence].
  apply existsb_exists. exists a. split; [|done]. apply list_elem_of_In, list_elem_of_fmap. exists (i, a).
  split; [done|]. by apply elem_of_map_to_list.
Qed.
Lemma alter_absent (f : A -> A) id (m : gmap K A) : m !! id = None -> alter f id m = m.
Proof.
  intros Hid. apply map_eq. intros j. destruct (decide (id = j)) as [->|]; [|by rewrite lookup_alter_ne].
  by rewrite lookup_alter_eq, Hid.
Qed.
Lemma alter_fmap (f g : A -> A) id a (m : gmap K A) : m !! id = Some a -> g a = f a ->
  (forall j b, j <> id -> m !! j = Some b -> g b = b) -> alter f id m = g <$> m.
Proof.
  intros Hid Hga Hg. apply map_eq. intros j. rewrite lookup_fmap. destruct (decide (id = j)) as [->|Hne].
  - rewrite lookup_alter_eq, Hid. cbn. by rewrite Hga.
  - rewrite lookup_alter_ne by done. destruct (m !! j) as [b|] eqn:Eb; cbn; [|done]. by rewrite (Hg j b).
Qed.
Lemma fmap_same (g : A -> A) (m : gmap K A) : (forall j b, m !! j = Some b -> g b = b) -> m = g <$> m.
Proof.
  intros Hg. apply map_eq. intros j. rewrite lookup_fmap. destruct (m !! j) as [b|] eqn:Eb; cbn; [|done]. by rewrite (Hg j b).
Qed.
End rows.
