(* ===== verification/Contract.v ===== *)
(** The contract between a service and the storage it calls: an operation on a
    world [W] has a pure meaning on the tables of type [T] it keeps, and either
    does what the meaning says or fails with an error of the infrastructure and
    no effect. *)
From S2P Require Export Prelude.
From stdpp Require Import options.
#[local] Set Default Proof Using "Type*".
Open Scope Z_scope.
Local Open Scope go_scope.

(** A pure meaning returns a result and the tables it leaves. *)
Definition meaning (T A : Type) := T -> result A * T.

Definition query {T A} (f : T -> A) : meaning T A := λ t, (Ok (f t), t).
Definition found {T A} (missing : error) (f : T -> option A) : meaning T (option A) := λ t,
  match f t with Some a => (Ok (Some a), t) | None => (Err missing, t) end.
Definition write {T} (check : T -> option error) (f : T -> T) : meaning T unit := λ t,
  match check t with Some e => (Err e, t) | None => (Ok tt, f t) end.

(** An error whose root was made by the database, the driver or the context. *)
Fixpoint infra (e : error) : bool :=
  match e with
  | External _ => true
  | Wrapf _ inner => infra inner
  | _ => false
  end.

(** The meaning [f] run on the tables of a world, or a failure without effect. *)
Definition implements {W T A} (tables_of : W -> T) (m : M W A) (f : meaning T A) : Prop :=
  forall w r w', m w = (r, w') ->
    (r, tables_of w') = f (tables_of w) \/
    (exists e, r = Err e /\ infra e = true) /\ tables_of w' = tables_of w.

(** A relation between the tables before a call, its result and the tables after. *)
Definition refines {W T A} (tables_of : W -> T) (m : M W A)
    (R : T -> result A -> T -> Prop) : Prop :=
  forall w r w', m w = (r, w') -> R (tables_of w) r (tables_of w').

(** A committed transaction has the effects of its body; any other outcome has
    none.  A body that succeeded may still fail to commit. *)
Definition atomic {T A} (R : T -> result A -> T -> Prop) (t : T) (r : result A) (t' : T) : Prop :=
  match r with
  | Ok _ => R t r t'
  | Err e => t' = t /\ ((exists t1, R t (Err e) t1) \/ infra e = true)
  | Panic => t' = t /\ exists t1, R t Panic t1
  end.

(** The interface of a transactor: the body runs inside a transaction. *)
Class Transactor (W : Type) := {
  WithTransaction : forall A, M W A -> M W A;
}.
Arguments WithTransaction {W _ A} fn.

(** ** Rules *)
Section rules.
Context {W T : Type} (tables_of : W -> T).

Lemma wp_implements {A} (m : M W A) f w (Q : result A -> W -> Prop) :
  implements tables_of m f ->
  (forall w', tables_of w' = (f (tables_of w)).2 -> Q (f (tables_of w)).1 w') ->
  (forall e w', infra e = true -> tables_of w' = tables_of w -> Q (Err e) w') ->
  wp m w Q.
Proof.
  intros Hm Hok Herr. apply wp_of_run. intros r w' E.
  destruct (Hm _ _ _ E) as [Heq|[(e & -> & He) Ht]]; [|by apply Herr].
  specialize (Hok w'). rewrite <-Heq in Hok. by apply Hok.
Qed.

Lemma wp_query {A} (m : M W A) f w (Q : result A -> W -> Prop) :
  implements tables_of m (query f) ->
  (forall w', tables_of w' = tables_of w -> Q (Ok (f (tables_of w))) w') ->
  (forall e w', infra e = true -> tables_of w' = tables_of w -> Q (Err e) w') ->
  wp m w Q.
Proof. intros Hm ??. by eapply wp_implements. Qed.

Lemma wp_found {A} (m : M W (option A)) missing f w (Q : result (option A) -> W -> Prop) :
  implements tables_of m (found missing f) ->
  (forall a w', f (tables_of w) = Some a -> tables_of w' = tables_of w -> Q (Ok (Some a)) w') ->
  (forall w', f (tables_of w) = None -> tables_of w' = tables_of w -> Q (Err missing) w') ->
  (forall e w', infra e = true -> tables_of w' = tables_of w -> Q (Err e) w') ->
  wp m w Q.
Proof.
  intros Hm Hs Hn He. eapply wp_implements; [done| |done]. unfold found.
  destruct (f (tables_of w)); eauto.
Qed.

Lemma wp_write (m : M W unit) check f w (Q : result unit -> W -> Prop) :
  implements tables_of m (write check f) ->
  (forall w', check (tables_of w) = None -> tables_of w' = f (tables_of w) -> Q (Ok tt) w') ->
  (forall e w', check (tables_of w) = Some e \/ infra e = true ->
     tables_of w' = tables_of w -> Q (Err e) w') ->
  wp m w Q.
Proof.
  intros Hm Hs He. eapply wp_implements; [done| |eauto]. unfold write.
  destruct (check (tables_of w)); eauto.
Qed.

Lemma wp_refines {A} (m : M W A) R w (Q : result A -> W -> Prop) :
  refines tables_of m R ->
  (forall r w', R (tables_of w) r (tables_of w') -> Q r w') -> wp m w Q.
Proof. intros Hm HQ. apply wp_of_run. intros r w' E. apply HQ. by apply Hm in E. Qed.
End rules.
