(* ===== verification/Threads.v ===== *)
(** Programs made of atomic actions, and pools of them that run side by side.

    A method of a service that other requests or other replicas may overlap is
    written as a [prog]: a tree of actions, each of which the database, the chain
    or another server carries out at once.  Run alone it is a computation of the
    monad of [Prelude]; in a pool, any thread may take the next action. *)
From S2P Require Export Prelude.
From stdpp Require Import options.
#[local] Set Default Proof Using "Type*".
Local Open Scope go_scope.

Inductive prog (E : Type -> Type) (A : Type) : Type :=
  | Done (r : result A)
  | Act {X : Type} (e : E X) (k : result X -> prog E A).
Arguments Done {E A} r.
Arguments Act {E A X} e k.

Section programs.
Context {E : Type -> Type}.

Definition act {X} (e : E X) : prog E X := Act e Done.
Definition pret {A} (a : A) : prog E A := Done (Ok a).
Definition pfail {A} (e : error) : prog E A := Done (Err e).

Fixpoint pbind {A B} (p : prog E A) (k : A -> prog E B) : prog E B :=
  match p with
  | Done (Ok a) => k a
  | Done (Err e) => Done (Err e)
  | Done Panic => Done Panic
  | Act e h => Act e (λ r, pbind (h r) k)
  end.

(** [x, err := p()] with [err] inspected by the caller. *)
Fixpoint ptry {A B} (p : prog E A) (k : A + error -> prog E B) : prog E B :=
  match p with
  | Done (Ok a) => k (inl a)
  | Done (Err e) => k (inr e)
  | Done Panic => Done Panic
  | Act e h => Act e (λ r, ptry (h r) k)
  end.

Fixpoint pwrap {A} (format : string) (p : prog E A) : prog E A :=
  match p with
  | Done r => Done (wrap_err format r)
  | Act e h => Act e (λ r, pwrap format (h r))
  end.

(** [_ = p()] *)
Definition pignore {A} (p : prog E A) : prog E unit := ptry p (λ _, pret tt).
Definition pguard (b : bool) (e : error) : prog E unit := if b then pfail e else pret tt.
Definition pderef {A} (o : option A) : prog E A :=
  match o with Some a => pret a | None => Done Panic end.

(** ** Alone *)
Context {W : Type} (h : forall X, E X -> M W X).

Fixpoint run {A} (p : prog E A) : M W A := λ w,
  match p with
  | Done r => (r, w)
  | Act e k => let '(r, w') := h _ e w in run (k r) w'
  end.

Lemma run_bind {A B} (p : prog E A) (k : A -> prog E B) w :
  run (pbind p k) w = gbind (run p) (λ a, run (k a)) w.
Proof.
  revert w. induction p as [[a|e|]|X e f IH]; intros w; [done..|].
  cbn. unfold gbind. cbn. destruct (h X e w) as [r w']. apply IH.
Qed.

Lemma run_try {A B} (p : prog E A) (k : A + error -> prog E B) w :
  run (ptry p k) w = gtry (run p) (λ a, run (k a)) w.
Proof.
  revert w. induction p as [[a|e|]|X e f IH]; intros w; [done..|].
  cbn. unfold gtry. cbn. destruct (h X e w) as [r w']. apply IH.
Qed.

Lemma run_wrap {A} format (p : prog E A) w : run (pwrap format p) w = gwrap format (run p) w.
Proof.
  revert w. induction p as [r|X e f IH]; intros w; [done|].
  cbn. unfold gwrap. cbn. destruct (h X e w) as [r w']. apply IH.
Qed.

Lemma wp_pbind {A B} (p : prog E A) (k : A -> prog E B) w (Q : result B -> W -> Prop) :
  wp (run p) w (λ r w', match r with
                        | Ok a => wp (run (k a)) w' Q
                        | Err e => Q (Err e) w'
                        | Panic => Q Panic w'
                        end) -> wp (run (pbind p k)) w Q.
Proof. intros Hp. apply (wp_bind (run p) (λ a, run (k a))) in Hp. unfold wp in *. by rewrite run_bind. Qed.
Lemma wp_ptry {A B} (p : prog E A) (k : A + error -> prog E B) w (Q : result B -> W -> Prop) :
  wp (run p) w (λ r w', match r with
                        | Ok a => wp (run (k (inl a))) w' Q
                        | Err e => wp (run (k (inr e))) w' Q
                        | Panic => Q Panic w'
                        end) -> wp (run (ptry p k)) w Q.
Proof. intros Hp. apply (wp_try (run p) (λ a, run (k a))) in Hp. unfold wp in *. by rewrite run_try. Qed.
Lemma wp_pwrap {A} format (p : prog E A) w (Q : result A -> W -> Prop) :
  wp (run p) w (λ r w', Q (wrap_err format r) w') -> wp (run (pwrap format p)) w Q.
Proof. intros Hp. apply wp_wrap in Hp. unfold wp in *. by rewrite run_wrap. Qed.
Lemma wp_act {X} (e : E X) w (Q : result X -> W -> Prop) : wp (h X e) w Q -> wp (run (act e)) w Q.
Proof. unfold wp. cbn. by destruct (h X e w). Qed.
Lemma wp_pguard b e w (Q : result unit -> W -> Prop) :
  (b = true -> Q (Err e) w) -> (b = false -> Q (Ok tt) w) -> wp (run (pguard b e)) w Q.
Proof. intros Ht Hf. destruct b; [by apply Ht|by apply Hf]. Qed.
Lemma wp_pderef {A} (o : option A) w (Q : result A -> W -> Prop) :
  (forall a, o = Some a -> Q (Ok a) w) -> (o = None -> Q Panic w) -> wp (run (pderef o)) w Q.
Proof. intros Hs Hn. destruct o; [by apply Hs|by apply Hn]. Qed.

(** ** Side by side

    A pool has a label for each thread.  A step is the next action of one thread,
    the start of a thread, or a change of the world by its environment. *)
Context {L : Type} (start : L -> prog E unit) (env : W -> W -> Prop).
Definition pool : Type := list (L * prog E unit).

Inductive pool_step : W * pool -> W * pool -> Prop :=
  | step_act w ps i l X (e : E X) k r w' :
      ps !! i = Some (l, Act e k) -> h X e w = (r, w') ->
      pool_step (w, ps) (w', <[i := (l, k r)]> ps)
  | step_start w ps l : pool_step (w, ps) (w, ps ++ [(l, start l)])
  | step_env w w' ps : env w w' -> pool_step (w, ps) (w', ps).

Definition reachable (w : W) (c : W * pool) : Prop := rtc pool_step (w, []) c.

(** An action keeps the labels. *)
Lemma pool_labels (ps : pool) i l p q : ps !! i = Some (l, p) -> (<[i := (l, q)]> ps).*1 = ps.*1.
Proof using Type. unfold pool in *. intros Hi. rewrite list_fmap_insert. apply list_insert_id. by rewrite list_lookup_fmap, Hi. Qed.

(** *** Schedules: the executable form *)
Inductive turn := Run (i : nat) | Start (l : L) | Env (w : W).
Definition schedule_step (ch : turn) (c : W * pool) : W * pool :=
  match ch with
  | Run i =>
      match c.2 !! i with
      | Some (l, Act e k) => let '(r, w') := h _ e c.1 in (w', <[i := (l, k r)]> c.2)
      | _ => c
      end
  | Start l => (c.1, c.2 ++ [(l, start l)])
  | Env w => (w, c.2)
  end.
Fixpoint schedule (chs : list turn) (c : W * pool) : W * pool :=
  match chs with
  | [] => c
  | ch :: chs => schedule chs (schedule_step ch c)
  end.

(** The changes of the environment a schedule makes are allowed. *)
Fixpoint env_ok (chs : list turn) (c : W * pool) : Prop :=
  match chs with
  | [] => True
  | ch :: chs => match ch with Env w => env c.1 w | _ => True end /\ env_ok chs (schedule_step ch c)
  end.

Lemma schedule_steps chs c : env_ok chs c -> rtc pool_step c (schedule chs c).
Proof.
  revert c. induction chs as [|ch chs IH]; intros c; [by constructor|]. intros [He Hok].
  cbn [schedule]. etrans; [|by apply IH]. destruct c as [w ps], ch as [i|l|w']; cbn [schedule_step fst snd].
  - destruct (ps !! i) as [[l [r|X e k]]|] eqn:Hi; [done| |done].
    destruct (h X e w) as [r w'] eqn:E1. apply rtc_once. by eapply step_act.
  - apply rtc_once, step_start.
  - by apply rtc_once, step_env.
Qed.

(** A schedule without changes of the environment. *)
Definition is_env (ch : turn) : bool := match ch with Env _ => true | _ => false end.
Lemma schedule_steps_closed chs c : existsb is_env chs = false -> rtc pool_step c (schedule chs c).
Proof.
  intros Hn. apply schedule_steps. revert c Hn. induction chs as [|ch chs IH]; intros c Hn; [done|].
  cbn in *. go_bool. split; [by destruct ch|by apply IH].
Qed.

(** A property of every thread and of the world that every step keeps. *)
Lemma reachable_ind (I : W * pool -> Prop) w c :
  I (w, []) -> (forall c c', I c -> pool_step c c' -> I c') -> reachable w c -> I c.
Proof.
  intros H0 Hs Hr. apply (rtc_ind_r (R := pool_step) I (w, [])); [done| |exact Hr]. intros c1 c2 _ Hstep HI. by eapply Hs.
Qed.
End programs.

(** ** The actions of a component among those of a larger one *)
Fixpoint plift {E1 E2 : Type -> Type} (f : forall X, E1 X -> E2 X) {A} (p : prog E1 A) : prog E2 A :=
  match p with
  | Done r => Done r
  | Act e k => Act (f _ e) (λ r, plift f (k r))
  end.

(** ** Programs typed by their actions

    [pre] is what an action must respect and [post] what its answer then says; a typed
    program respects [pre] at every action it may reach and ends in [Q]. *)
Section typing.
Context {E : Type -> Type} (pre : forall X, E X -> Prop) (post : forall X, E X -> result X -> Prop).

Fixpoint safe {A} (p : prog E A) (Q : result A -> Prop) : Prop :=
  match p with
  | Done r => Q r
  | Act e k => pre _ e /\ forall r, post _ e r -> safe (k r) Q
  end.

Lemma safe_mono {A} (p : prog E A) (P Q : result A -> Prop) :
  safe p P -> (forall r, P r -> Q r) -> safe p Q.
Proof.
  intros Hp HQ. induction p as [r|X e f IH]; cbn; [by apply HQ|].
  destruct Hp as [He Hf]. split; [done|]. intros r Hr. by apply IH, Hf.
Qed.
Lemma safe_pbind {A B} (p : prog E A) (k : A -> prog E B) (Q : result B -> Prop) :
  safe p (λ r, match r with Ok a => safe (k a) Q | Err e => Q (Err e) | Panic => Q Panic end) ->
  safe (pbind p k) Q.
Proof.
  intros Hp. induction p as [[a|e|]|X e f IH]; cbn; [done..|].
  destruct Hp as [He Hf]. split; [done|]. intros r Hr. by apply IH, Hf.
Qed.
Lemma safe_ptry {A B} (p : prog E A) (k : A + error -> prog E B) (Q : result B -> Prop) :
  safe p (λ r, match r with Ok a => safe (k (inl a)) Q | Err e => safe (k (inr e)) Q | Panic => Q Panic end) ->
  safe (ptry p k) Q.
Proof.
  intros Hp. induction p as [[a|e|]|X e f IH]; cbn; [done..|].
  destruct Hp as [He Hf]. split; [done|]. intros r Hr. by apply IH, Hf.
Qed.
Lemma safe_pwrap {A} format (p : prog E A) (Q : result A -> Prop) :
  safe p (λ r, Q (wrap_err format r)) -> safe (pwrap format p) Q.
Proof.
  intros Hp. induction p as [r|X e f IH]; cbn; [done|]. destruct Hp as [He Hf].
  split; [done|]. intros r Hr. by apply IH, Hf.
Qed.
Lemma safe_act {X} (e : E X) (Q : result X -> Prop) :
  pre _ e -> (forall r, post _ e r -> Q r) -> safe (act e) Q.
Proof. by split. Qed.
Lemma safe_pret {A} (a : A) (Q : result A -> Prop) : Q (Ok a) -> safe (pret a) Q.
Proof. done. Qed.
Lemma safe_pfail {A} e (Q : result A -> Prop) : Q (Err e) -> safe (pfail e) Q.
Proof. done. Qed.
(** A program whose outcome does not matter to what follows. *)
Lemma safe_pbind_any {A B} (p : prog E A) (k : A -> prog E B) (Q : result B -> Prop) :
  safe p (λ _, True) -> (forall a, safe (k a) Q) -> (forall e, Q (Err e)) -> Q Panic -> safe (pbind p k) Q.
Proof. intros Hp ???. apply safe_pbind. eapply safe_mono; [exact Hp|]. intros [] _; auto. Qed.
Lemma safe_pignore {A} (p : prog E A) : safe p (λ _, True) -> safe (pignore p) (λ _, True).
Proof. intros Hp. apply safe_ptry. eapply safe_mono; [exact Hp|]. by intros []. Qed.

(** An invariant the actions keep when [pre] is respected. *)
Context {W : Type} (h : forall X, E X -> M W X) (Inv : W -> Prop).
Hypothesis h_keeps : forall X (e : E X) w r w',
  h X e w = (r, w') -> Inv w -> pre _ e -> Inv w' /\ post _ e r.

Lemma run_safe {A} (p : prog E A) Q w : safe p Q -> Inv w -> Inv (run h p w).2 /\ Q (run h p w).1.
Proof.
  revert w. induction p as [r|X e f IH]; intros w Hp Hw; [done|]. destruct Hp as [He Hf]. cbn.
  destruct (h X e w) as [r w'] eqn:E1. destruct (h_keeps _ _ _ _ _ E1 Hw He) as [Hw' Hr]. by apply IH; [apply Hf|].
Qed.

Context {L : Type} (start : L -> prog E unit) (env : W -> W -> Prop) (allowed : L -> Prop).
Hypothesis env_keeps : forall w w', env w w' -> Inv w -> Inv w'.
Hypothesis start_safe : forall l, allowed l -> safe (start l) (λ _, True).

(** A pool whose labels are all allowed keeps the invariant and its threads typed. *)
Lemma pool_safe w c : Inv w -> reachable h start env w c -> Forall allowed c.2.*1 ->
  Inv c.1 /\ Forall (λ lp, safe lp.2 (λ _, True)) c.2.
Proof.
  intros H0 Hr. apply (reachable_ind h start env (λ c, Forall allowed c.2.*1 ->
    Inv c.1 /\ Forall (λ lp, safe lp.2 (λ _, True)) c.2) w c); [|clear c Hr|exact Hr].
  { intros _. split; [done|by constructor]. }
  intros c c' IH Hstep. destruct Hstep as [w1 ps i l X e k r w' Hi E1|w1 ps l|w1 w' ps He]; cbn in *.
  - rewrite (pool_labels ps i l _ (k r) Hi). intros Hl. destruct (IH Hl) as [Hw Hps].
    pose proof Hps as Hp. rewrite Forall_lookup in Hp. destruct (Hp _ _ Hi) as [Hpre Hk].
    destruct (h_keeps _ _ _ _ _ E1 Hw Hpre) as [Hw' Hpost]. split; [done|]. apply Forall_insert; [done|]. by apply Hk.
  - rewrite fmap_app, Forall_app. intros [Hl Hn]. destruct (IH Hl) as [Hw Hps]. split; [done|].
    apply Forall_app_2; [done|]. constructor; [|done]. apply start_safe. by apply Forall_cons in Hn as [? _].
  - intros Hl. destruct (IH Hl) as [Hw Hps]. split; [by eapply env_keeps|done].
Qed.
End typing.

(** With nothing asked of the actions, every program is typed. *)
Lemma any_safe {E : Type -> Type} {A} (p : prog E A) : safe (λ _ _, True) (λ _ _ _, True) p (λ _, True).
Proof. induction p as [r|X e k IH]; [done|]. by split. Qed.

Notation "'let*' x := m 'in' k" := (pbind m (fun x => k))
  (at level 10, x name, m at level 100, k at level 200) : go_scope.
Notation "'do*' m 'in' k" := (pbind m (fun _ => k))
  (at level 10, m at level 100, k at level 200) : go_scope.

(** ** Programs typed by stages

    Each thread has a stage, which its actions move: [pre] is what an action may be at a
    stage and [post] the stages it can lead to, given its answer.  The invariant of a
    pool relates the world to the stages of all its threads. *)
Section staging.
Context {E : Type -> Type} {S : Type} (pre : forall X, E X -> S -> Prop)
  (post : forall X, E X -> S -> result X -> S -> Prop).

Fixpoint staged {A} (s : S) (p : prog E A) (Q : S -> result A -> Prop) : Prop :=
  match p with
  | Done r => Q s r
  | Act e k => pre _ e s /\ forall r s', post _ e s r s' -> staged s' (k r) Q
  end.

Lemma staged_mono {A} s (p : prog E A) (P Q : S -> result A -> Prop) :
  staged s p P -> (forall s r, P s r -> Q s r) -> staged s p Q.
Proof.
  intros Hp HQ. revert s Hp. induction p as [r|X e f IH]; intros s Hp; cbn; [by apply HQ|].
  destruct Hp as [He Hf]. split; [done|]. intros r s' Hr. by apply IH, Hf.
Qed.
Lemma staged_bind {A B} s (p : prog E A) (k : A -> prog E B) (Q : S -> result B -> Prop) :
  staged s p (λ s r, match r with Ok a => staged s (k a) Q | Err e => Q s (Err e) | Panic => Q s Panic end) ->
  staged s (pbind p k) Q.
Proof.
  revert s. induction p as [[a|e|]|X e f IH]; intros s Hp; cbn; [done..|].
  destruct Hp as [He Hf]. split; [done|]. intros r s' Hr. by apply IH, Hf.
Qed.
Lemma staged_try {A B} s (p : prog E A) (k : A + error -> prog E B) (Q : S -> result B -> Prop) :
  staged s p (λ s r, match r with
                     | Ok a => staged s (k (inl a)) Q
                     | Err e => staged s (k (inr e)) Q
                     | Panic => Q s Panic
                     end) -> staged s (ptry p k) Q.
Proof.
  revert s. induction p as [[a|e|]|X e f IH]; intros s Hp; cbn; [done..|].
  destruct Hp as [He Hf]. split; [done|]. intros r s' Hr. by apply IH, Hf.
Qed.
Lemma staged_wrap {A} s format (p : prog E A) (Q : S -> result A -> Prop) :
  staged s p (λ s r, Q s (wrap_err format r)) -> staged s (pwrap format p) Q.
Proof.
  revert s. induction p as [r|X e f IH]; intros s Hp; cbn; [done|]. destruct Hp as [He Hf].
  split; [done|]. intros r s' Hr. by apply IH, Hf.
Qed.
Lemma staged_act {X} s (e : E X) (Q : S -> result X -> Prop) :
  pre _ e s -> (forall r s', post _ e s r s' -> Q s' r) -> staged s (act e) Q.
Proof. by split. Qed.
(** An action that keeps its stage. *)
Lemma staged_plain {X} s (e : E X) (Q : S -> result X -> Prop) :
  pre _ e s -> (forall r s', post _ e s r s' -> s' = s) -> (forall r, Q s r) -> staged s (act e) Q.
Proof. intros Hp Hs HQ. apply staged_act; [done|]. intros r s' Hr. rewrite (Hs r s' Hr). apply HQ. Qed.
Lemma staged_ignore {A} s (p : prog E A) (Q : S -> result unit -> Prop) :
  staged s p (λ s r, match r with Panic => Q s Panic | _ => Q s (Ok tt) end) -> staged s (pignore p) Q.
Proof. intros Hp. apply staged_try. eapply staged_mono; [exact Hp|]. by intros s' [a|e|]. Qed.

(** The actions of a component that keep the stage. *)
Lemma staged_plift {E1 : Type -> Type} (f : forall X, E1 X -> E X) (pre1 : forall X, E1 X -> Prop)
    (post1 : forall X, E1 X -> result X -> Prop) {A} s (p : prog E1 A) (Q : result A -> Prop) :
  (forall X (e : E1 X), pre1 _ e -> pre _ (f _ e) s) ->
  (forall X (e : E1 X) r s', pre1 _ e -> post _ (f _ e) s r s' -> s' = s /\ post1 _ e r) ->
  safe pre1 post1 p Q -> staged s (plift f p) (λ s' r, s' = s /\ Q r).
Proof.
  intros Hpre Hpost. induction p as [r|X e k IH]; cbn; [done|]. intros [He Hk]. split; [by apply Hpre|].
  intros r s' Hr. apply Hpost in Hr as [-> Hr]; [|done]. by apply IH, Hk.
Qed.

Context {W : Type} (h : forall X, E X -> M W X) (Inv : W -> list S -> Prop).
Hypothesis h_keeps : forall X (e : E X) w r w' ss i s,
  h X e w = (r, w') -> Inv w ss -> ss !! i = Some s -> pre _ e s ->
  exists s', post _ e s r s' /\ Inv w' (<[i := s']> ss).
Context {L : Type} (start : L -> prog E unit) (env : W -> W -> Prop) (s0 : L -> S).
Hypothesis env_keeps : forall w w' ss, env w w' -> Inv w ss -> Inv w' ss.
(** A stage may keep what it has of the label of its thread, and a thread end as its
    label says. *)
Lemma pool_staged_ends (ending : L -> S -> result unit -> Prop) (tag : S -> L -> Prop) w c :
  (forall w ss l, Inv w ss -> Inv w (ss ++ [s0 l])) -> (forall l, staged (s0 l) (start l) (ending l)) -> (forall l, tag (s0 l) l) ->
  (forall X (e : E X) s r s' l, post _ e s r s' -> tag s l -> tag s' l) ->
  Inv w [] -> reachable h start env w c ->
  exists ss, Inv c.1 ss /\ Forall2 (λ s lp, staged s lp.2 (ending lp.1) /\ tag s lp.1) ss c.2.
Proof.
  intros Hkeep Hstart Ht0 Ht H0. apply (reachable_ind h start env (λ c, exists ss, Inv c.1 ss /\
    Forall2 (λ s lp, staged s lp.2 (ending lp.1) /\ tag s lp.1) ss c.2)); [by exists []|].
  intros c1 c2 (ss & HI & Hss) Hstep.
  destruct Hstep as [w1 ps i l X e k r w' Hi E1|w1 ps l|w1 w' ps He]; cbn in *.
  - destruct (Forall2_lookup_r _ _ _ _ _ Hss Hi) as (s & Hs & [Hpre Hk] & Htag). cbn in Hpre, Hk, Htag.
    destruct (h_keeps _ _ _ _ _ _ _ _ E1 HI Hs Hpre) as (s' & Hpost & HI'). exists (<[i := s']> ss). split; [done|].
    apply Forall2_insert; [done|]. split; [by apply Hk|]. by eapply Ht.
  - exists (ss ++ [s0 l]). split; [by apply Hkeep|]. apply Forall2_app; [done|].
    constructor; [|done]. by split; [apply Hstart|].
  - exists ss. split; [by eapply env_keeps|done].
Qed.
Hypothesis start_staged : forall l, staged (s0 l) (start l) (λ _ _, True).
Hypothesis start_keeps : forall w ss l, Inv w ss -> Inv w (ss ++ [s0 l]).
Lemma pool_staged_tagged (tag : S -> L -> Prop) w c : (forall l, tag (s0 l) l) ->
  (forall X (e : E X) s r s' l, post _ e s r s' -> tag s l -> tag s' l) ->
  Inv w [] -> reachable h start env w c ->
  exists ss, Inv c.1 ss /\ Forall2 (λ s lp, staged s lp.2 (λ _ _, True) /\ tag s lp.1) ss c.2.
Proof. intros Ht0 Ht. by apply (pool_staged_ends (λ _ _ _, True)). Qed.
Lemma pool_staged w c : Inv w [] -> reachable h start env w c ->
  exists ss, Inv c.1 ss /\ Forall2 (λ s lp, staged s lp.2 (λ _ _, True)) ss c.2.
Proof.
  intros H0 Hr. destruct (pool_staged_tagged (λ _ _, True) w c) as (ss & HI & Hss); [done..|].
  exists ss. split; [done|]. eapply Forall2_impl; [exact Hss|]. by intros s lp [? _].
Qed.
End staging.
