(* ===== verification/RedisLock.v ===== *)
(** The single-flight lock (src/pkg/redis/lock.go): a key of Redis that holds the
    token of its owner, taken with SETNX, renewed and deleted by scripts that
    compare the token. *)
From S2P Require Export Prelude.
From stdpp Require Import options.
#[local] Set Default Proof Using "Type*".
Open Scope Z_scope.

Module redislock.

(** ** Redis: keys with a value and the time they expire *)
Abbreviation redis := (gmap string (string * time)) (only parsing).

(** [GET]: an expired key is absent. *)
Definition redis_GET (now : time) (key : string) (r : redis) : option string :=
  match r !! key with Some (v, e) => if now <? e then Some v else None | None => None end.
Definition redis_SetNX (now : time) (key value : string) (ttl : duration) (r : redis) : bool * redis :=
  match redis_GET now key r with
  | Some _ => (false, r)
  | None => (true, <[key := (value, now + ttl)]> r)
  end.

(** ** The scripts: the number they return and the keys they leave *)
Definition renewScript (now : time) (key token : string) (ttl : duration) (r : redis) : Z * redis :=
  if decide (redis_GET now key r = Some token) then (1, <[key := (token, now + ttl)]> r) else (0, r).
Definition releaseScript (now : time) (key token : string) (r : redis) : Z * redis :=
  if decide (redis_GET now key r = Some token) then (1, delete key r) else (0, r).

Definition DefaultLockTTL : duration := 5 * 60 * second.

(** A lock: without a client every acquisition succeeds. *)
Record Lock := { l_client : bool; l_key : string; l_ttl : duration; l_token : string }.
Definition NewLock (client : bool) (key : string) (ttl : duration) : Lock :=
  {| l_client := client; l_key := key; l_ttl := if ttl <=? 0 then DefaultLockTTL else ttl;
     l_token := "" |}.
Definition with_token (token : string) (l : Lock) : Lock :=
  {| l_client := l_client l; l_key := l_key l; l_ttl := l_ttl l; l_token := token |}.

(** The time to live of a renewal is sent in milliseconds. *)
Definition Milliseconds (d : duration) : Z := Z.quot d 1000000.
Definition renew_ttl (l : Lock) : duration := Milliseconds (l_ttl l) * 1000000.

(** What the network does to a command: [Some err] when it does not reach Redis. *)
Definition Acquire (now : time) (token : string + error) (fault : option error) (l : Lock) (r : redis) :
    result bool * (Lock * redis) :=
  if negb (l_client l) then (Ok true, (with_token "no-redis" l, r))
  else match token, fault with
       | inr err, _ => (Err err, (l, r))
       | inl _, Some err => (Err (Wrapf "acquiring lock %s: %w" err), (l, r))
       | inl token, None =>
           let '(acquired, r) := redis_SetNX now (l_key l) token (l_ttl l) r in
           if acquired then (Ok true, (with_token token l, r)) else (Ok false, (l, r))
       end.
Definition Release (now : time) (fault : option error) (l : Lock) (r : redis) : Lock * redis :=
  if negb (l_client l) || bool_decide (l_token l = ""%string) then (with_token "" l, r)
  else match fault with
       | Some _ => (with_token "" l, r)
       | None => (with_token "" l, (releaseScript now (l_key l) (l_token l) r).2)
       end.
(** One tick of the heartbeat. *)
Definition heartbeat (now : time) (fault : option error) (l : Lock) (r : redis) : redis :=
  match fault with
  | Some _ => r
  | None => (renewScript now (l_key l) (l_token l) (renew_ttl l) r).2
  end.

(** ** Many holders of one key

    An event is what one of the locks does at a time, with its fault. *)
Inductive lock_op :=
  | LAcquire (token : string) (fault : option error)
  | LRenew (fault : option error)
  | LRelease (fault : option error).

(** The state of a key's users: the keys of Redis, and the lock of each replica. *)
Definition lock_state : Type := redis * gmap nat Lock.
Definition lock_event : Type := time * nat * lock_op.

Definition lock_step (ev : lock_event) (s : lock_state) : lock_state :=
  let '(now, i, op) := ev in
  match s.2 !! i with
  | None => s
  | Some l =>
      match op with
      | LAcquire token fault =>
          let '(_, (l, r)) := Acquire now (inl token) fault l s.1 in (r, <[i := l]> s.2)
      | LRenew fault => (heartbeat now fault l s.1, s.2)
      | LRelease fault => let '(l, r) := Release now fault l s.1 in (r, <[i := l]> s.2)
      end
  end.
Fixpoint lock_run (evs : list lock_event) (s : lock_state) : lock_state :=
  match evs with [] => s | ev :: evs => lock_run evs (lock_step ev s) end.

(** Replica [i] holds [key]: its lock has a token and Redis keeps that token. *)
Definition holds (now : time) (key : string) (i : nat) (s : lock_state) : Prop :=
  exists l, s.2 !! i = Some l /\ l_key l = key /\ l_token l <> ""%string /\
    redis_GET now key s.1 = Some (l_token l).

Section exclusion.
Variables (key : string) (ttl : duration) (i : nat) (token : string).

(** The other replicas' tokens are their own; the holder neither releases nor
    acquires again. *)
Definition others (ev : lock_event) : Prop :=
  let '(_, j, op) := ev in
  match op with
  | LAcquire t _ => j <> i /\ t <> token /\ t <> ""%string
  | LRelease _ => j <> i
  | LRenew _ => True
  end.

(** The heartbeat is on time: no event comes after the key expired, where a
    renewal that reaches Redis moves the expiry. *)
Fixpoint on_time (expires : time) (evs : list lock_event) : Prop :=
  match evs with
  | [] => True
  | (now, j, op) :: evs =>
      now < expires /\
      on_time (match op with LRenew None => if decide (j = i) then now + ttl else expires
                           | _ => expires end) evs
  end.

Record held_by (expires : time) (s : lock_state) : Prop := {
  hb_token : token <> ""%string;
  hb_key : s.1 !! key = Some (token, expires);
  hb_locks : map_Forall (λ j l, l_client l = true /\ l_key l = key /\ renew_ttl l = ttl /\
    (j = i \/ l_token l <> token)) s.2;
  hb_mine : exists l, s.2 !! i = Some l /\ l_token l = token;
}.
Lemma held_GET now expires s : held_by expires s -> now < expires -> redis_GET now key s.1 = Some token.
Proof.
  intros Hb Ht. unfold redis_GET. rewrite (hb_key _ _ Hb). by destruct (Z.ltb_spec now expires); [|lia].
Qed.

(** Whoever asks for the key while it has not expired does not get it. *)
Lemma held_acquire now expires s j l t fault :
  held_by expires s -> now < expires -> s.2 !! j = Some l ->
  exists a, Acquire now (inl t) fault l s.1 = (a, (l, s.1)) /\ a <> Ok true.
Proof.
  intros Hb Ht Hl. destruct (hb_locks _ _ Hb j l Hl) as (Hc & Hk & _ & _). unfold Acquire.
  rewrite Hc, Hk. cbn. destruct fault as [err|]; [by eexists|].
  unfold redis_SetNX. rewrite (held_GET _ _ _ Hb Ht). by eexists.
Qed.

Lemma held_locks_insert expires r ls j l l' :
  held_by expires (r, ls) -> ls !! j = Some l -> l_client l' = l_client l -> l_key l' = l_key l ->
  l_ttl l' = l_ttl l -> (l_token l' = l_token l \/ (j <> i /\ l_token l' <> token)) ->
  held_by expires (r, <[j := l']> ls).
Proof.
  intros [Hne0 Hk Hls (l0 & H0 & Ht0)] Hl Hc Hkey Httl Htok. destruct (Hls j l Hl) as (Hc' & Hk' & Hr & Ho).
  split; [done|done| |].
  - apply map_Forall_insert_2; [|done]. unfold renew_ttl in *. rewrite Hc, Hkey, Httl. split_and!; [done..|].
    destruct Htok as [->|[_ ?]]; [done|by right].
  - cbn in *. destruct (decide (j = i)) as [->|Hne].
    + exists l'. rewrite lookup_insert_eq. split; [done|]. destruct Htok as [->|[? _]]; [congruence|done].
    + exists l0. by rewrite lookup_insert_ne.
Qed.

Lemma held_step ev evs expires s :
  held_by expires s -> others ev -> on_time expires (ev :: evs) ->
  exists expires', held_by expires' (lock_step ev s) /\ on_time expires' evs.
Proof.
  destruct ev as [[now j] op], s as [r ls]. cbn [on_time lock_step fst snd]. intros Hb Ho [Ht Hot].
  destruct (ls !! j) as [l|] eqn:Hl.
  2: { exists expires. split; [done|]. destruct op as [| [err|] |]; try done. case_decide; [|done]. subst j.
       destruct (hb_mine _ _ Hb) as (l & Hi & _). cbn in Hi. congruence. }
  destruct (hb_locks _ _ Hb j l Hl) as (Hc & Hk & Hr & Htok). destruct op as [t fault|fault|fault]; cbn in Ho.
  - destruct (held_acquire now expires (r, ls) j l t fault Hb Ht Hl) as (a & E & _). cbn in E. rewrite E.
    exists expires. split; [|done]. eapply held_locks_insert; try done. by left.
  - unfold heartbeat. destruct fault as [err|]; [by exists expires|]. unfold renewScript. rewrite Hk, Hr.
    pose proof (held_GET _ _ _ Hb Ht) as Hget. cbn in Hget. rewrite Hget.
    destruct (decide (j = i)) as [->|Hne].
    + destruct (hb_mine _ _ Hb) as (l' & Hi & Hmine). cbn in Hi. rewrite Hl in Hi. injection Hi as <-.
      rewrite decide_True by congruence. rewrite Hmine.
      exists (now + ttl). split; [|done]. destruct Hb as [H1 _ H2 H3]. split; [done|by apply lookup_insert_eq|done|done].
    + destruct Htok as [->|Htok]; [done|]. rewrite decide_False by congruence. by exists expires.
  - exists expires. split; [|done]. destruct Htok as [->|Htok]; [done|]. unfold Release. rewrite Hc.
    pose proof (hb_token _ _ Hb) as Hne.
    assert (held_by expires (r, <[j := with_token "" l]> ls)) as Hw.
    { eapply held_locks_insert; try done. right. by split. }
    cbn [negb orb]. case_bool_decide; [done|]. destruct fault; [done|]. cbn.
    unfold releaseScript. rewrite Hk. pose proof (held_GET _ _ _ Hb Ht) as Hget. cbn in Hget.
    rewrite Hget, decide_False by congruence. done.
Qed.

(** C11: While the heartbeat of the holder is on time, the key keeps its token: no
    other replica gets the lock, whatever the others try and whichever commands
    do not reach Redis, and no other replica's release takes it away. *)
Theorem lock_exclusive evs expires s :
  held_by expires s -> Forall others evs -> on_time expires evs ->
  exists expires', held_by expires' (lock_run evs s) /\
    forall now j, now < expires' ->
      (holds now key j (lock_run evs s) -> j = i) /\
      forall l t fault, (lock_run evs s).2 !! j = Some l ->
        (Acquire now (inl t) fault l (lock_run evs s).1).1 <> Ok true.
Proof.
  revert expires s. induction evs as [|ev evs IH]; intros expires s Hb Ho Ht.
  - exists expires. split; [done|]. cbn. intros now j Hnow. split.
    + intros (l & Hl & _ & Hne & Hg). rewrite (held_GET _ _ _ Hb Hnow) in Hg. injection Hg as Hg.
      destruct (hb_locks _ _ Hb j l Hl) as (_ & _ & _ & [?|?]); congruence.
    + intros l t fault Hl. by destruct (held_acquire now expires s j l t fault Hb Hnow Hl) as (a & -> & Ha).
  - apply Forall_cons in Ho as [Ho Hos]. destruct (held_step ev evs expires s Hb Ho Ht) as (e' & Hb' & Ht').
    by apply (IH e').
Qed.
End exclusion.

(** A key nobody renewed is free again once it expired: a crashed holder blocks the
    job for the time to live at most. *)
Lemma expired_lock_taken now token l r v e :
  l_client l = true -> r !! l_key l = Some (v, e) -> e <= now ->
  Acquire now (inl token) None l r =
    (Ok true, (with_token token l, <[l_key l := (token, now + l_ttl l)]> r)).
Proof.
  intros Hc Hk He. unfold Acquire, redis_SetNX, redis_GET. rewrite Hc, Hk. cbn.
  by destruct (Z.ltb_spec now e); [lia|].
Qed.

(** ** Three replicas of one job *)
Definition demo_lock : Lock := NewLock true "lock:swap-sweep" (3 * second).
Definition demo_locks : lock_state := (∅, list_to_map [(0%nat, demo_lock); (1%nat, demo_lock); (2%nat, demo_lock)]).
Definition demo_held : lock_state := lock_step (0, 1%nat, LAcquire "b" None) demo_locks.
Definition demo_lock_events : list lock_event :=
  [(second, 0%nat, LAcquire "a" None); (2 * second, 1%nat, LRenew None);
   (3 * second, 2%nat, LAcquire "c" (Some (External "timeout"))); (4 * second, 0%nat, LRelease None)]%string.

Lemma lock_exclusive_witness :
  exists expires', held_by "lock:swap-sweep" (3 * second) 1 "b" expires' (lock_run demo_lock_events demo_held) /\
    forall now j, now < expires' ->
      (holds now "lock:swap-sweep" j (lock_run demo_lock_events demo_held) -> j = 1%nat) /\
      forall l t fault, (lock_run demo_lock_events demo_held).2 !! j = Some l ->
        (Acquire now (inl t) fault l (lock_run demo_lock_events demo_held).1).1 <> Ok true.
Proof.
  apply (lock_exclusive "lock:swap-sweep" (3 * second) 1 "b" demo_lock_events (3 * second) demo_held).
  - split; [done|by vm_compute| |by eexists].
    replace demo_held.2 with (list_to_map (M := gmap nat Lock)
      [(0%nat, demo_lock); (1%nat, with_token "b" demo_lock); (2%nat, demo_lock)]) by (by vm_compute).
    intros j l Hl. apply elem_of_list_to_map_2 in Hl. apply list_elem_of_In in Hl.
    destruct Hl as [[= <- <-]|[[= <- <-]|[[= <- <-]|[]]]]; vm_compute; split_and!; try done; by (left + right).
  - repeat constructor; done.
  - by vm_compute.
Defined.
End redislock.
