(* ===== verification/Redis.v ===== *)
(** Redis as the services of the program use it: a keyspace of strings, sets and
    sorted sets with the times they expire, commands carried out one at a time, and
    a network that loses commands or replies.

    Redis is not code of the repository: the commands below are the documented
    meaning of those the program sends through [go-redis].  An expired key is absent
    to every command. *)
From S2P Require Export Threads.
From stdpp Require Import options.
#[local] Set Default Proof Using "Type*".
Open Scope Z_scope.
Local Open Scope go_scope.

Module redis.

Inductive value :=
  | RString (s : string)
  | RSet (m : gset string)
  | RZset (m : gmap string Z).
Record entry := { e_val : value; e_exp : option time }.
Abbreviation keyspace := (gmap string entry) (only parsing).

Definition alive (now : time) (e : entry) : bool :=
  match e_exp e with Some t => now <? t | None => true end.
(** What a command sees of a key. *)
Definition view (now : time) (k : string) (ks : keyspace) : option entry :=
  match ks !! k with Some e => if alive now e then Some e else None | None => None end.

(** The time to live [go-redis] sends: [SET] in milliseconds (or whole seconds),
    [EXPIRE] in seconds.  [TTL] answers in seconds, to the nearest; [-2] and [-1] stand
    for no key and no expiry.  A score is the integer its [float64] is, and the sum
    of [INCRBYFLOAT] is the server's. *)
Definition millisecond : duration := 1000000.
Definition px (d : duration) : duration :=
  if (0 <? d) && (d <? millisecond) then millisecond else d / millisecond * millisecond.
Definition ex (d : duration) : duration :=
  if (0 <? d) && (d <? second) then second else Z.quot d second * second.

Inductive cmd : Type -> Type :=
  | GET (k : string) : cmd (option string)
  | SET (k v : string) (ttl : duration) : cmd unit
  | SETNX (k v : string) (ttl : duration) : cmd bool
  | DEL (ks : list string) : cmd unit
  | EXISTS (k : string) : cmd Z
  | EXPIRE (k : string) (ttl : duration) : cmd bool
  | TTL (k : string) : cmd duration
  | SADD (k m : string) : cmd unit
  | SREM (k : string) (ms : list string) : cmd unit
  | SMEMBERS (k : string) : cmd (list string)
  | SCARD (k : string) : cmd Z
  | SISMEMBER (k m : string) : cmd bool
  | HGETALL (k : string) : cmd (list (string * string))
  | KEYS (prefix : string) : cmd (list string)
  | ZREMRANGEBYSCORE (k : string) (max : Z) : cmd unit
  | ZADD (k : string) (score : Z) (member : string) : cmd unit
  | ZCARD (k : string) : cmd Z
  | INCRBYFLOAT (k : string) (add : option string -> string + error) : cmd unit
  | DELEQ (k v : string) : cmd unit.

Definition WRONGTYPE := External "WRONGTYPE".

(** A command on a set: a missing key is the empty set, and a set that becomes empty
    is removed. *)
Definition as_set (now : time) (k : string) (ks : keyspace) : result (gset string) :=
  match view now k ks with
  | None => Ok ∅
  | Some e => match e_val e with RSet m => Ok m | _ => Err WRONGTYPE end
  end.
Definition as_zset (now : time) (k : string) (ks : keyspace) : result (gmap string Z) :=
  match view now k ks with
  | None => Ok ∅
  | Some e => match e_val e with RZset m => Ok m | _ => Err WRONGTYPE end
  end.
(** Keep the expiry of a key that was there. *)
Definition put (now : time) (k : string) (v : value) (ks : keyspace) : keyspace :=
  <[k := {| e_val := v; e_exp := match view now k ks with Some e => e_exp e | None => None end |}]> ks.
Definition put_set (now : time) (k : string) (m : gset string) (ks : keyspace) : keyspace :=
  if decide (m = ∅) then delete k ks else put now k (RSet m) ks.
Definition put_zset (now : time) (k : string) (m : gmap string Z) (ks : keyspace) : keyspace :=
  if decide (m = ∅) then delete k ks else put now k (RZset m) ks.

Definition set_string (now : time) (k v : string) (ttl : duration) (ks : keyspace) : keyspace :=
  <[k := {| e_val := RString v; e_exp := if ttl <=? 0 then None else Some (now + px ttl) |}]> ks.

Definition update {A} (r : result A) (ks : keyspace) (f : A -> keyspace) : result unit * keyspace :=
  match r with Ok a => (Ok tt, f a) | Err e => (Err e, ks) | Panic => (Panic, ks) end.

Definition exec {X} (now : time) (c : cmd X) (ks : keyspace) : result X * keyspace :=
  match c in cmd X return result X * keyspace with
  | GET k =>
      (match view now k ks with
       | None => Ok None
       | Some e => match e_val e with RString s => Ok (Some s) | _ => Err WRONGTYPE end
       end, ks)
  | SET k v ttl => (Ok tt, set_string now k v ttl ks)
  | SETNX k v ttl =>
      match view now k ks with Some _ => (Ok false, ks) | None => (Ok true, set_string now k v ttl ks) end
  | DEL l => (Ok tt, foldr delete ks l)
  | EXISTS k => (Ok (match view now k ks with Some _ => 1 | None => 0 end), ks)
  | EXPIRE k ttl =>
      match view now k ks with
      | None => (Ok false, ks)
      | Some e => (Ok true, if ex ttl <=? 0 then delete k ks
                            else <[k := {| e_val := e_val e; e_exp := Some (now + ex ttl) |}]> ks)
      end
  | TTL k =>
      (Ok (match view now k ks with
           | None => -2
           | Some e => match e_exp e with
                       | Some t => ((t - now) / millisecond + 500) / 1000 * second
                       | None => -1
                       end
           end), ks)
  | SADD k m => update (as_set now k ks) ks (λ s, put_set now k ({[m]} ∪ s) ks)
  | SREM k ms => update (as_set now k ks) ks (λ s, put_set now k (s ∖ list_to_set ms) ks)
  | SMEMBERS k => (result_map elements (as_set now k ks), ks)
  | SCARD k => (result_map (λ s, Z.of_nat (size s)) (as_set now k ks), ks)
  | SISMEMBER k m => (result_map (λ s, bool_decide (m ∈ s)) (as_set now k ks), ks)
  | HGETALL k => (match view now k ks with None => Ok [] | Some _ => Err WRONGTYPE end, ks)
  | KEYS p => (Ok (filter (λ k, String.prefix p k = true) (map_to_list (filter (λ ke, alive now ke.2 = true) ks)).*1), ks)
  | ZREMRANGEBYSCORE k max =>
      update (as_zset now k ks) ks (λ z, put_zset now k (filter (λ me, max < me.2) z) ks)
  | ZADD k score m => update (as_zset now k ks) ks (λ z, put_zset now k (<[m := score]> z) ks)
  | ZCARD k => (result_map (λ z, Z.of_nat (size z)) (as_zset now k ks), ks)
  | INCRBYFLOAT k add =>
      let write old := match add old with inl s => (Ok tt, put now k (RString s) ks) | inr err => (Err err, ks) end in
      match view now k ks with
      | None => write None
      | Some e => match e_val e with RString s => write (Some s) | _ => (Err WRONGTYPE, ks) end
      end
  | DELEQ k v =>
      match view now k ks with
      | None => (Ok tt, ks)
      | Some e => match e_val e with
                  | RString s => (Ok tt, if decide (s = v) then delete k ks else ks)
                  | _ => (Err WRONGTYPE, ks)
                  end
      end
  end.

(** ** Actions of the services

    [MULTI] carries out its commands as one; its error is the first of theirs.  The
    clock and the random bytes of the process are read by actions as well. *)
Inductive any_cmd :=
  | Any {X : Type} (c : cmd X).
Inductive redisE : Type -> Type :=
  | Cmd {X : Type} (c : cmd X) : redisE X
  | MULTI (cs : list any_cmd) : redisE unit
  | Now : redisE time
  | Rand : redisE string.

(** What the network does to a command: nothing, losing it, or losing its reply. *)
Inductive fault := Lost (err : error) | ReplyLost (err : error).
Record world := {
  rw_now : time;
  rw_keys : keyspace;
  rw_net : list (duration * option fault);   (** of the next commands: delay and fault *)
  rw_rand : list (string + error);
}.
Definition with_keys (ks : keyspace) (w : world) : world :=
  {| rw_now := rw_now w; rw_keys := ks; rw_net := rw_net w; rw_rand := rw_rand w |}.

(** The next command arrives after its delay. *)
Definition arrive (w : world) : option fault * world :=
  match rw_net w with
  | [] => (None, w)
  | (d, f) :: net =>
      (f, {| rw_now := rw_now w + Z.max 0 d; rw_keys := rw_keys w; rw_net := net; rw_rand := rw_rand w |})
  end.

Fixpoint exec_all (now : time) (cs : list any_cmd) (ks : keyspace) : result unit * keyspace :=
  match cs with
  | [] => (Ok tt, ks)
  | Any c :: cs =>
      let '(r, ks) := exec now c ks in
      let '(rs, ks) := exec_all now cs ks in
      (match r with Ok _ => rs | Err e => Err e | Panic => Panic end, ks)
  end.

Definition on_server {X} (f : time -> keyspace -> result X * keyspace) : M world X := λ w,
  let '(fl, w) := arrive w in
  match fl with
  | Some (Lost err) => (Err err, w)
  | Some (ReplyLost err) => (Err err, with_keys (f (rw_now w) (rw_keys w)).2 w)
  | None => let '(r, ks) := f (rw_now w) (rw_keys w) in (r, with_keys ks w)
  end.

Definition perform (X : Type) (e : redisE X) : M world X :=
  match e in redisE X return M world X with
  | Cmd c => on_server (λ now, exec now c)
  | MULTI cs => on_server (λ now, exec_all now cs)
  | Now => λ w, (Ok (rw_now w), w)
  | Rand => λ w,
      match rw_rand w with
      | [] => (Err (External "entropy"), w)
      | r :: rs =>
          (match r with inl s => Ok s | inr e => Err e end,
           {| rw_now := rw_now w; rw_keys := rw_keys w; rw_net := rw_net w; rw_rand := rs |})
      end
  end.

(** A network that carries the next commands at once. *)
Definition prompt (w : world) : Prop := Forall (λ f, f.1 <= 0) (rw_net w).

(** A command is lost, or carried out at some time after it was sent. *)
Lemma on_server_spec {X} (f : time -> keyspace -> result X * keyspace) w r w' :
  on_server f w = (r, w') ->
  rw_now w <= rw_now w' /\ (prompt w -> rw_now w' = rw_now w /\ prompt w') /\
  ((rw_keys w' = rw_keys w /\ exists e, r = Err e) \/
   (rw_keys w' = (f (rw_now w') (rw_keys w)).2 /\
    (r = (f (rw_now w') (rw_keys w)).1 \/ exists e, r = Err e))).
Proof.
  unfold on_server, arrive. intros E.
  assert (forall w1, rw_now w <= rw_now w1 -> rw_keys w1 = rw_keys w ->
    (prompt w -> rw_now w1 = rw_now w /\ prompt w1) ->
    (let '(r, ks) := f (rw_now w1) (rw_keys w1) in (r, with_keys ks w1)) = (r, w') ->
    rw_now w <= rw_now w' /\ (prompt w -> rw_now w' = rw_now w /\ prompt w') /\
    ((rw_keys w' = rw_keys w /\ exists e, r = Err e) \/
     (rw_keys w' = (f (rw_now w') (rw_keys w)).2 /\
      (r = (f (rw_now w') (rw_keys w)).1 \/ exists e, r = Err e)))) as Hrun.
  { intros w1 Hle -> Hp E1. destruct (f (rw_now w1) (rw_keys w)) as [r1 ks] eqn:Ef.
    injection E1 as <- <-. cbn. rewrite Ef. split; [done|]. split; [done|]. right. auto. }
  unfold prompt in *. destruct (rw_net w) as [|[d fl] net] eqn:En.
  { apply (Hrun w); [lia|done|by rewrite En|done]. }
  assert (Forall (λ f, f.1 <= 0) ((d, fl) :: net) -> rw_now w + Z.max 0 d = rw_now w /\ Forall (λ f, f.1 <= 0) net) as Hpr.
  { intros Hp. apply Forall_cons in Hp as [Hd Hp]. cbn in Hd. split; [lia|done]. }
  destruct fl as [[err|err]|].
  - injection E as <- <-. cbn. split; [lia|]. split; [done|]. left. split; [done|by eexists].
  - injection E as <- <-. cbn. split; [lia|]. split; [done|]. right. split; [done|right; by eexists].
  - refine (Hrun _ _ _ _ E); [cbn; lia|done|done].
Qed.

(** ** What commands do to a key *)
Lemma view_insert_eq now k e ks : view now k (<[k := e]> ks) = if alive now e then Some e else None.
Proof. unfold view. by rewrite lookup_insert_eq. Qed.
Lemma view_insert_ne now k k' e ks : k <> k' -> view now k' (<[k := e]> ks) = view now k' ks.
Proof. intros. unfold view. by rewrite lookup_insert_ne. Qed.
Lemma view_delete_eq now k ks : view now k (delete k ks) = None.
Proof. unfold view. by rewrite lookup_delete_eq. Qed.
Lemma view_delete_ne now k k' ks : k <> k' -> view now k' (delete k ks) = view now k' ks.
Proof. intros. unfold view. by rewrite lookup_delete_ne. Qed.

(** A key that is there was there, with the same value, at an earlier time. *)
Lemma view_earlier now now' k ks e : now <= now' -> view now' k ks = Some e -> view now k ks = Some e.
Proof.
  unfold view, alive. intros Hle. destruct (ks !! k) as [e0|]; [|done].
  destruct (e_exp e0) as [t|]; [|done]. destruct (Z.ltb_spec now' t); [|done]. intros [= <-].
  by destruct (Z.ltb_spec now t); [|lia].
Qed.
Lemma view_gone now now' k ks : now <= now' -> view now k ks = None -> view now' k ks = None.
Proof.
  intros Hle Hn. destruct (view now' k ks) as [e|] eqn:E; [|done].
  by rewrite (view_earlier _ _ _ _ _ Hle E) in Hn.
Qed.

Lemma foldr_delete_lookup (l : list string) (ks : gmap string entry) k :
  foldr delete ks l !! k = if decide (k ∈ l) then None else ks !! k.
Proof.
  induction l as [|a l IH]; cbn.
  { by rewrite decide_False by apply not_elem_of_nil. }
  destruct (decide (a = k)) as [->|].
  - rewrite lookup_delete_eq, decide_True by (left; done). done.
  - rewrite lookup_delete_ne, IH by done. destruct (decide (k ∈ l)).
    + by rewrite decide_True by (by right).
    + by rewrite decide_False by (by rewrite elem_of_cons; intros [?|?]).
Qed.

(** The keys a command may write. *)
Definition writes {X} (c : cmd X) : list string :=
  match c with
  | SET k _ _ | SETNX k _ _ | EXPIRE k _ | SADD k _ | SREM k _ | ZREMRANGEBYSCORE k _
  | ZADD k _ _ | INCRBYFLOAT k _ | DELEQ k _ => [k]
  | DEL l => l
  | _ => []
  end.
Lemma exec_frame {X} now (c : cmd X) ks k : k ∉ writes c -> (exec now c ks).2 !! k = ks !! k.
Proof.
  assert (forall k' v, k <> k' -> put now k' v ks !! k = ks !! k) as Hput.
  { intros k' v Hne. unfold put. by rewrite lookup_insert_ne. }
  destruct c; cbn [writes]; intros Hk; rewrite ?not_elem_of_cons in Hk; cbn; try done;
    unfold set_string, update, put_set, put_zset; try (destruct Hk as [Hk _]);
    repeat (case_match; cbn); rewrite ?lookup_insert_ne, ?lookup_delete_ne by done; try done; try by apply Hput.
  rewrite foldr_delete_lookup. by rewrite decide_False.
Qed.

(** No command panics. *)
Lemma exec_no_panic {X} now (c : cmd X) ks : (exec now c ks).1 <> Panic.
Proof.
  destruct c; cbn; unfold update, as_set, as_zset; repeat (case_match; cbn); by simplify_eq.
Qed.
Lemma exec_all_no_panic now cs ks : (exec_all now cs ks).1 <> Panic.
Proof.
  revert ks. induction cs as [|[X c] cs IH]; intros ks; [done|]. cbn. pose proof (exec_no_panic now c ks) as Hc.
  destruct (exec now c ks) as [r ks1]. specialize (IH ks1). destruct (exec_all now cs ks1). by destruct r.
Qed.
Lemma perform_no_panic {X} (e : redisE X) w : (perform X e w).1 <> Panic.
Proof.
  assert (forall Y (f : time -> keyspace -> result Y * keyspace), (forall now ks, (f now ks).1 <> Panic) ->
    (on_server f w).1 <> Panic) as Hs.
  { intros Y f Hf. unfold on_server. destruct (arrive w) as [[[err|err]|] w1]; [done..|].
    specialize (Hf (rw_now w1) (rw_keys w1)). by destruct (f (rw_now w1) (rw_keys w1)). }
  destruct e as [Y c|cs| |]; cbn; [apply Hs; intros; apply exec_no_panic|apply Hs; intros; apply exec_all_no_panic|done|].
  by destruct (rw_rand w) as [|[] rs].
Qed.
End redis.
