(* ===== verification/Breaker.v ===== *)
(** The circuit breaker in front of Horizon (src/pkg/stellar/circuitbreaker.go):
    it counts the failures of the calls it lets through, rejects calls while the
    provider fails, and probes it again after a time. *)
From S2P Require Export Prelude.
From stdpp Require Import options.
#[local] Set Default Proof Using "Type*".
Open Scope Z_scope.
Local Open Scope go_scope.

Module breaker.

Inductive CircuitState := CircuitClosed | CircuitOpen | CircuitHalfOpen.
#[export] Instance CircuitState_eq_dec : EqDecision CircuitState.
Proof. solve_decision. Defined.
Definition CircuitState_String (s : CircuitState) : string :=
  match s with
  | CircuitClosed => "closed"
  | CircuitOpen => "open"
  | CircuitHalfOpen => "half-open"
  end.

Record CircuitBreakerConfig := {
  FailureThreshold : Z;
  SuccessThreshold : Z;
  OpenTimeout : duration;
  HalfOpenMaxReqs : Z;
}.
Definition DefaultCircuitBreakerConfig : CircuitBreakerConfig :=
  {| FailureThreshold := 5; SuccessThreshold := 2; OpenTimeout := 30 * second; HalfOpenMaxReqs := 3 |}.

(** The zero [time.Time] is [0]. *)
Record CircuitBreaker := {
  config : CircuitBreakerConfig;
  state : CircuitState;
  failures : Z;
  successes : Z;
  halfOpenReqs : Z;
  lastFailureTime : time;
  lastStateChange : time;
}.
Definition NewCircuitBreaker (config : CircuitBreakerConfig) : CircuitBreaker :=
  {| config := config; state := CircuitClosed; failures := 0; successes := 0; halfOpenReqs := 0;
     lastFailureTime := 0; lastStateChange := 0 |}.

Definition with_failures (n : Z) (cb : CircuitBreaker) : CircuitBreaker :=
  {| config := config cb; state := state cb; failures := n; successes := successes cb;
     halfOpenReqs := halfOpenReqs cb; lastFailureTime := lastFailureTime cb;
     lastStateChange := lastStateChange cb |}.
Definition with_successes (n : Z) (cb : CircuitBreaker) : CircuitBreaker :=
  {| config := config cb; state := state cb; failures := failures cb; successes := n;
     halfOpenReqs := halfOpenReqs cb; lastFailureTime := lastFailureTime cb;
     lastStateChange := lastStateChange cb |}.
Definition with_halfOpenReqs (n : Z) (cb : CircuitBreaker) : CircuitBreaker :=
  {| config := config cb; state := state cb; failures := failures cb; successes := successes cb;
     halfOpenReqs := n; lastFailureTime := lastFailureTime cb; lastStateChange := lastStateChange cb |}.
Definition with_lastFailureTime (t : time) (cb : CircuitBreaker) : CircuitBreaker :=
  {| config := config cb; state := state cb; failures := failures cb; successes := successes cb;
     halfOpenReqs := halfOpenReqs cb; lastFailureTime := t; lastStateChange := lastStateChange cb |}.

Definition transitionTo (now : time) (s : CircuitState) (cb : CircuitBreaker) : CircuitBreaker :=
  {| config := config cb; state := s;
     failures := match s with CircuitClosed => 0 | _ => failures cb end;
     successes := match s with CircuitHalfOpen => 0 | _ => successes cb end;
     halfOpenReqs := match s with CircuitHalfOpen => 0 | _ => halfOpenReqs cb end;
     lastFailureTime := lastFailureTime cb; lastStateChange := now |}.

Definition ErrOpen := Errorf "circuit breaker [%s] is OPEN (failing fast)".
Definition ErrHalfOpen := Errorf "circuit breaker [%s] is HALF-OPEN at max requests".

(** The two critical sections of a call; the counters are [int]. *)
Definition beforeRequest (now : time) (cb : CircuitBreaker) : result unit * CircuitBreaker :=
  match state cb with
  | CircuitClosed => (Ok tt, cb)
  | CircuitOpen =>
      if OpenTimeout (config cb) <? time_Sub now (lastStateChange cb)
      then (Ok tt, transitionTo now CircuitHalfOpen cb)
      else (Err ErrOpen, cb)
  | CircuitHalfOpen =>
      if HalfOpenMaxReqs (config cb) <=? halfOpenReqs cb then (Err ErrHalfOpen, cb)
      else (Ok tt, with_halfOpenReqs (wrap64 (halfOpenReqs cb + 1)) cb)
  end.

Definition afterRequest (now : time) (failed : bool) (cb : CircuitBreaker) : CircuitBreaker :=
  let cb := if failed then with_lastFailureTime now cb else cb in
  match state cb with
  | CircuitClosed =>
      if failed then
        let cb := with_failures (wrap64 (failures cb + 1)) cb in
        if FailureThreshold (config cb) <=? failures cb then transitionTo now CircuitOpen cb else cb
      else with_failures 0 cb
  | CircuitHalfOpen =>
      if failed then transitionTo now CircuitOpen cb
      else
        let cb := with_successes (wrap64 (successes cb + 1)) cb in
        if SuccessThreshold (config cb) <=? successes cb then transitionTo now CircuitClosed cb else cb
  | CircuitOpen => cb
  end.

Definition Reset_ (cb : CircuitBreaker) : CircuitBreaker :=
  {| config := config cb; state := CircuitClosed; failures := 0; successes := 0; halfOpenReqs := 0;
     lastFailureTime := 0; lastStateChange := lastStateChange cb |}.

(** ** A call through the breaker

    The world the call runs in has a clock; a panic of the call is not caught, and
    its result is then never reported. *)
Section calls.
Context {W : Type} (clock : W -> time).

Definition locked {A} (f : time -> CircuitBreaker -> result A * CircuitBreaker) :
    M (CircuitBreaker * W) A := λ '(cb, w), let '(r, cb) := f (clock w) cb in (r, (cb, w)).
Definition through {A} (fn : M W A) : M (CircuitBreaker * W) A := λ '(cb, w),
  let '(r, w) := fn w in (r, (cb, w)).

Definition ExecuteWithResult {A} (fn : M W A) : M (CircuitBreaker * W) A :=
  do! locked beforeRequest in
  gtry (through fn) (λ r,
    do! locked (λ now cb, (Ok tt, afterRequest now (match r with inl _ => false | inr _ => true end) cb)) in
    match r with inl a => gret a | inr err => gfail err end).
Definition Execute (fn : M W unit) : M (CircuitBreaker * W) unit := ExecuteWithResult fn.
End calls.

(** ** The critical sections of many calls, in any order

    [admitted] counts the calls let through since the state last changed. *)
Inductive event := Before (now : time) | After (now : time) (failed : bool).
Definition step (ev : event) (cb : CircuitBreaker) : CircuitBreaker :=
  match ev with
  | Before now => (beforeRequest now cb).2
  | After now failed => afterRequest now failed cb
  end.
Definition lets_through (ev : event) (cb : CircuitBreaker) : bool :=
  match ev with Before now => is_ok (beforeRequest now cb).1 | After _ _ => false end.
Definition admitted_step (ev : event) (c : CircuitBreaker * Z) : CircuitBreaker * Z :=
  let cb := step ev c.1 in
  (cb, (if decide (state cb = state c.1) then c.2 else 0) + (if lets_through ev c.1 then 1 else 0)).
Definition run_events (evs : list event) (c : CircuitBreaker * Z) : CircuitBreaker * Z :=
  fold_left (λ c ev, admitted_step ev c) evs c.

(** The configurations whose thresholds are numbers of calls. *)
Definition cfg_ok (cfg : CircuitBreakerConfig) : Prop :=
  1 <= FailureThreshold cfg <= int64_max /\ 1 <= SuccessThreshold cfg <= int64_max /\
  0 <= HalfOpenMaxReqs cfg <= int64_max.

(** What the counters say in each state. *)
Record breaker_ok (c : CircuitBreaker * Z) : Prop := {
  bo_closed : state c.1 = CircuitClosed -> 0 <= failures c.1 < FailureThreshold (config c.1);
  bo_open : state c.1 = CircuitOpen -> c.2 = 0;
  bo_half : state c.1 = CircuitHalfOpen ->
    0 <= halfOpenReqs c.1 <= HalfOpenMaxReqs (config c.1) /\
    0 <= successes c.1 < SuccessThreshold (config c.1) /\ c.2 = halfOpenReqs c.1 + 1;
}.

Lemma step_config ev cb : config (step ev cb) = config cb.
Proof.
  destruct ev as [now|now failed]; cbn; unfold beforeRequest, afterRequest.
  - by repeat case_match.
  - destruct failed; cbn; by repeat (case_match; cbn).
Qed.

Lemma wrap64_count n : 0 <= n < int64_max -> wrap64 (n + 1) = n + 1.
Proof. intros. apply wrap64_id, in_int64_spec. unfold int64_min, int64_max in *. lia. Qed.

Ltac counters := intros; try discriminate; repeat match goal with
  | H : ?s = ?s -> _ |- _ => specialize (H eq_refl) end;
  rewrite ?decide_True, ?decide_False by done; lia.
Lemma breaker_ok_step ev c : cfg_ok (config c.1) -> breaker_ok c -> breaker_ok (admitted_step ev c).
Proof.
  destruct c as [[[F S O Mx] s f g h lf lc] n]. intros (HF & HS & HM) [Hc Ho Hh].
  unfold admitted_step; cbn in *.
  destruct ev as [now|now failed]; destruct s; cbn in *.
  - by constructor; cbn; counters.
  - specialize (Ho eq_refl). destruct (O <? _) eqn:E; cbn; constructor; cbn; counters.
  - destruct (Hh eq_refl) as ([??] & [??] & ?). destruct (Z.leb_spec Mx h) as [Hle|Hlt]; cbn.
    + constructor; cbn; counters.
    + rewrite wrap64_count by lia. constructor; cbn; counters.
  - specialize (Hc eq_refl). destruct failed; cbn.
    + rewrite wrap64_count by lia. destruct (Z.leb_spec F (f + 1)); constructor; cbn; counters.
    + constructor; cbn; counters.
  - specialize (Ho eq_refl). destruct failed; cbn; constructor; cbn; counters.
  - destruct (Hh eq_refl) as ([??] & [??] & ?). destruct failed; cbn.
    + constructor; cbn; counters.
    + rewrite wrap64_count by lia. destruct (Z.leb_spec S (g + 1)); constructor; cbn; counters.
Qed.

Lemma run_events_ok evs c : cfg_ok (config c.1) -> breaker_ok c -> breaker_ok (run_events evs c).
Proof.
  revert c. induction evs as [|ev evs IH]; intros c Hcfg Hok; [done|]. cbn.
  apply IH; [cbn; by rewrite step_config|by apply breaker_ok_step].
Qed.
Lemma run_events_config evs c : config (run_events evs c).1 = config c.1.
Proof. revert c. induction evs as [|ev evs IH]; intros c; [done|]. cbn. rewrite IH. cbn. apply step_config. Qed.

(** C23: However calls overlap and whatever they end with, from a new breaker whose
    thresholds are numbers of calls: an open breaker has let nothing through since it
    opened and goes on rejecting until its timeout is over; a half-open one lets through
    at most [HalfOpenMaxReqs + 1] calls, the one that found the timeout over included,
    before it closes or opens again; a closed one has counted fewer failures in a row
    than its threshold. *)
Theorem breaker_gate cfg evs : cfg_ok cfg ->
  let c := run_events evs (NewCircuitBreaker cfg, 0) in
  match state c.1 with
  | CircuitClosed => 0 <= failures c.1 < FailureThreshold cfg
  | CircuitOpen =>
      c.2 = 0 /\ forall now, beforeRequest now c.1 = (Err ErrOpen, c.1) \/
        (OpenTimeout cfg < time_Sub now (lastStateChange c.1) /\
         beforeRequest now c.1 = (Ok tt, transitionTo now CircuitHalfOpen c.1))
  | CircuitHalfOpen =>
      1 <= c.2 <= HalfOpenMaxReqs cfg + 1 /\
      forall now, c.2 = HalfOpenMaxReqs cfg + 1 -> beforeRequest now c.1 = (Err ErrHalfOpen, c.1)
  end.
Proof.
  intros Hcfg c. assert (breaker_ok c) as [Hc Ho Hh].
  { apply run_events_ok; [done|]. destruct Hcfg. constructor; cbn; counters. }
  assert (config c.1 = cfg) as Hcf by apply run_events_config. rewrite Hcf in *.
  destruct (state c.1) eqn:Hs.
  - by apply Hc.
  - split; [by apply Ho|]. intros now. unfold beforeRequest. rewrite Hs, Hcf.
    destruct (Z.ltb_spec (OpenTimeout cfg) (time_Sub now (lastStateChange c.1))); auto.
  - destruct (Hh eq_refl) as ([??] & _ & ->). split; [lia|]. intros now Hn. unfold beforeRequest.
    rewrite Hs, Hcf. by destruct (Z.leb_spec (HalfOpenMaxReqs cfg) (halfOpenReqs c.1)); [|lia].
Qed.

(** Five failures open the breaker; after thirty seconds four probes pass and a fifth
    does not. *)
Definition probes : list event :=
  replicate 5 (After 10 true) ++ [Before (11 + 30 * second); Before (12 + 30 * second);
    Before (13 + 30 * second); Before (14 + 30 * second); Before (15 + 30 * second)].
Definition probed : CircuitBreaker * Z := run_events probes (NewCircuitBreaker DefaultCircuitBreakerConfig, 0).
Lemma breaker_gate_witness :
  cfg_ok DefaultCircuitBreakerConfig /\ state probed.1 = CircuitHalfOpen /\ probed.2 = 4 /\
  1 <= probed.2 <= HalfOpenMaxReqs DefaultCircuitBreakerConfig + 1.
Proof.
  assert (cfg_ok DefaultCircuitBreakerConfig) as Hc by (unfold cfg_ok, int64_max; cbn; lia).
  assert (state probed.1 = CircuitHalfOpen) as Hs by (vm_compute; reflexivity).
  split; [done|]. split; [done|]. split; [vm_compute; reflexivity|].
  pose proof (breaker_gate DefaultCircuitBreakerConfig probes Hc) as Hg. cbv zeta in Hg.
  fold probed in Hg. rewrite Hs in Hg. exact (proj1 Hg).
Defined.

(** ** Recovery *)
Section recovery.
Context {W : Type} (clock : W -> time).

Fixpoint repeat_call {A} (n : nat) (m : M (CircuitBreaker * W) A) : M (CircuitBreaker * W) unit :=
  match n with O => gret tt | S n => do! m in repeat_call n m end.

Section provider.
Variables (fn : M W unit).
(** The provider is back, and the clock does not run backwards. *)
Hypothesis fn_succeeds : forall w, exists w', fn w = (Ok tt, w').

Lemma half_open_probe cb w :
  state cb = CircuitHalfOpen -> cfg_ok (config cb) -> halfOpenReqs cb < HalfOpenMaxReqs (config cb) ->
  0 <= halfOpenReqs cb -> 0 <= successes cb < SuccessThreshold (config cb) ->
  exists cb' w', Execute clock fn (cb, w) = (Ok tt, (cb', w')) /\ config cb' = config cb /\
    (if decide (successes cb + 1 = SuccessThreshold (config cb)) then state cb' = CircuitClosed /\ failures cb' = 0
     else state cb' = CircuitHalfOpen /\ successes cb' = successes cb + 1 /\
          halfOpenReqs cb' = halfOpenReqs cb + 1).
Proof.
  intros Hs (? & ? & ?) ???. unfold Execute, ExecuteWithResult, gbind, gtry, locked, through, beforeRequest.
  rewrite Hs. destruct (Z.leb_spec (HalfOpenMaxReqs (config cb)) (halfOpenReqs cb)); [lia|]. cbn.
  destruct (fn_succeeds w) as [w' ->]. unfold afterRequest. cbn. rewrite Hs. cbn.
  rewrite !wrap64_count by lia. destruct (Z.leb_spec (SuccessThreshold (config cb)) (successes cb + 1)); cbn;
    do 2 eexists; (split; [done|]); (split; [done|]); by case_decide; try lia; cbn.
Qed.

Lemma half_open_closes n cb w :
  state cb = CircuitHalfOpen -> cfg_ok (config cb) -> 0 <= halfOpenReqs cb -> 0 <= successes cb ->
  successes cb + Z.of_nat (S n) = SuccessThreshold (config cb) ->
  halfOpenReqs cb + Z.of_nat (S n) <= HalfOpenMaxReqs (config cb) ->
  exists cb' w', repeat_call (S n) (Execute clock fn) (cb, w) = (Ok tt, (cb', w')) /\
    state cb' = CircuitClosed /\ failures cb' = 0.
Proof.
  revert cb w. induction n as [|n IH]; intros cb w Hs Hcfg ????.
  - destruct (half_open_probe cb w) as (cb' & w' & E & _ & Hd); try done; try lia.
    rewrite decide_True in Hd by lia. exists cb', w'. cbn. unfold gbind. rewrite E. by split.
  - destruct (half_open_probe cb w) as (cb' & w' & E & Hcf & Hd); try done; try lia.
    rewrite decide_False in Hd by lia. destruct Hd as (? & ? & ?).
    destruct (IH cb' w') as (cb2 & w2 & E2 & ?); rewrite ?Hcf; try done; try lia.
    exists cb2, w2. split; [|done]. change (repeat_call (S (S n)) (Execute clock fn))
      with (do! Execute clock fn in repeat_call (S n) (Execute clock fn)). unfold gbind at 1. by rewrite E.
Qed.
End provider.

(** When the provider is back, an open breaker recovers by itself: once its timeout
    is over, [SuccessThreshold] calls are let through in a row, all succeed, and the
    breaker is closed with no failure counted, provided the threshold is at most
    [HalfOpenMaxReqs + 1]. *)
Theorem breaker_recovers (fn : M W unit) cb w :
  (forall w, exists w', fn w = (Ok tt, w')) -> cfg_ok (config cb) -> state cb = CircuitOpen ->
  SuccessThreshold (config cb) <= HalfOpenMaxReqs (config cb) + 1 ->
  OpenTimeout (config cb) < time_Sub (clock w) (lastStateChange cb) ->
  exists cb' w',
    repeat_call (Z.to_nat (SuccessThreshold (config cb))) (Execute clock fn) (cb, w) = (Ok tt, (cb', w')) /\
    state cb' = CircuitClosed /\ failures cb' = 0.
Proof.
  intros Hfn Hcfg Hs Hth Ht. pose proof Hcfg as (HF & HS & HM).
  destruct (Z.to_nat (SuccessThreshold (config cb))) as [|n] eqn:En; [lia|].
  assert (exists cb1 w1, Execute clock fn (cb, w) = (Ok tt, (cb1, w1)) /\ config cb1 = config cb /\
    (if decide (n = O) then state cb1 = CircuitClosed /\ failures cb1 = 0
     else state cb1 = CircuitHalfOpen /\ successes cb1 = 1 /\ halfOpenReqs cb1 = 0))
    as (cb1 & w1 & E & Hcf & Hd).
  { unfold Execute, ExecuteWithResult, gbind, gtry, locked, through, beforeRequest. rewrite Hs.
    destruct (Z.ltb_spec (OpenTimeout (config cb)) (time_Sub (clock w) (lastStateChange cb))); [|lia]. cbn.
    destruct (Hfn w) as [w' ->]. unfold afterRequest. cbn.
    change (wrap64 (0 + 1)) with 1.
    destruct (Z.leb_spec (SuccessThreshold (config cb)) 1) as [Hle|Hgt]; cbn; do 2 eexists; (split; [done|]); (split; [done|]);
      case_decide; try lia; done. }
  destruct n as [|n]; [exists cb1, w1; cbn; unfold gbind; by rewrite E|].
  rewrite decide_False in Hd by done. destruct Hd as (? & ? & ?).
  destruct (half_open_closes fn Hfn n cb1 w1) as (cb2 & w2 & E2 & ?); rewrite ?Hcf; try done; try lia.
  exists cb2, w2. split; [|done]. change (repeat_call (S (S n)) (Execute clock fn))
    with (do! Execute clock fn in repeat_call (S n) (Execute clock fn)). unfold gbind at 1. by rewrite E.
Qed.
End recovery.

(** The default breaker after five failed calls; the clock is the world. *)
Definition opened : CircuitBreaker :=
  (run_events (replicate 5 (After 10 true)) (NewCircuitBreaker DefaultCircuitBreakerConfig, 0)).1.
Definition tick : M Z unit := λ now, (Ok tt, now + second).
Lemma breaker_recovers_witness :
  exists cb' w', repeat_call 2 (Execute id tick) (opened, 40 * second) = (Ok tt, (cb', w')) /\
    state cb' = CircuitClosed /\ failures cb' = 0.
Proof.
  apply (breaker_recovers id tick opened (40 * second)).
  - intros w. by eexists.
  - change (config opened) with DefaultCircuitBreakerConfig. unfold cfg_ok, int64_max. cbn. lia.
  - vm_compute. done.
  - change (config opened) with DefaultCircuitBreakerConfig. cbn. lia.
  - vm_compute. done.
Defined.

(** ** A probe that panics is never reported

    Its place is not given back: when every place is gone the breaker rejects all
    calls, at any time, until it is reset. *)
Lemma half_open_wedged cb evs c :
  state cb = CircuitHalfOpen -> HalfOpenMaxReqs (config cb) <= halfOpenReqs cb ->
  Forall (λ ev, match ev with Before _ => True | After _ _ => False end) evs ->
  (run_events evs (cb, c)).1 = cb /\ Forall (λ ev, lets_through ev cb = false) evs.
Proof.
  intros Hs Hle Hb. revert c. induction Hb as [|[now|] evs Hev _ IH]; intros c; [done| |done].
  assert (beforeRequest now cb = (Err ErrHalfOpen, cb)) as E.
  { unfold beforeRequest. rewrite Hs. by destruct (Z.leb_spec (HalfOpenMaxReqs (config cb)) (halfOpenReqs cb)); [|lia]. }
  cbn. unfold admitted_step. cbn. rewrite E. cbn. rewrite decide_True by done.
  destruct (IH (c + 0)) as [E1 E2]. split; [exact E1|]. constructor; [|exact E2]. cbn. by rewrite E.
Qed.

(** Two slow calls of the closed breaker that succeed after it half-opened close it,
    and no probe has ended. *)
Lemma stale_successes_close :
  state (run_events ([Before 1; Before 2] ++ replicate 5 (After 10 true) ++
    [Before (11 + 30 * second); After (12 + 30 * second) false; After (13 + 30 * second) false])
    (NewCircuitBreaker DefaultCircuitBreakerConfig, 0)).1 = CircuitClosed.
Proof. by vm_compute. Qed.
End breaker.
