(* ===== verification/RateLimit.v ===== *)
(** The sliding-window rate limiter of the process
    (src/internal/infrastructure/ratelimit): the fallback when Redis is out. *)
From S2P Require Export Prelude.
From stdpp Require Import options.
#[local] Set Default Proof Using "Type*".
Open Scope Z_scope.
Local Open Scope go_scope.

Module ratelimit.

(** ** The limiter of the process *)
Module memory.
Abbreviation limiter := (gmap string (list time)) (only parsing).

Record verdict := { v_allowed : bool; v_remaining : Z; v_ttl : duration }.

Definition recent_of (cutoff : time) (l : list time) : list time :=
  filter (λ t, time_After t cutoff = true) l.

Definition Check_ (now : time) (key : string) (maxRequests : Z) (window : duration) (l : limiter) :
    verdict * limiter :=
  let cutoff := time_Add now (- window) in
  let recent := recent_of cutoff (default [] (l !! key)) in
  let l := <[key := recent]> l in
  if maxRequests <=? Z.of_nat (length recent) then
    match recent with
    | first :: _ =>
        let ttl := time_Sub (time_Add first window) now in
        ({| v_allowed := false; v_remaining := 0; v_ttl := if ttl <? 0 then 0 else ttl |}, l)
    | [] => ({| v_allowed := false; v_remaining := 0; v_ttl := window |}, l)
    end
  else
    let l := <[key := recent ++ [now]]> l in
    let remaining := maxRequests - Z.of_nat (length (recent ++ [now])) in
    ({| v_allowed := true; v_remaining := if remaining <? 0 then 0 else remaining; v_ttl := window |}, l).

(** Every key has its limit and its window; a call is a time and a key. *)
Section runs.
Variables (limits : string -> Z * duration).

Definition check_call (c : time * string) (l : limiter) : verdict * limiter :=
  Check_ c.1 c.2 (limits c.2).1 (limits c.2).2 l.
(** The calls and whether they were allowed, the last first. *)
Fixpoint run_checks (calls : list (time * string)) (log : list (time * string * bool)) (l : limiter) :
    list (time * string * bool) * limiter :=
  match calls with
  | [] => (log, l)
  | c :: calls => let '(v, l) := check_call c l in run_checks calls ((c, v_allowed v) :: log) l
  end.

(** The times at which [key] was let through, the last first. *)
Definition admitted (key : string) (log : list (time * string * bool)) : list time :=
  (λ e, e.1.1) <$> filter (λ e : time * string * bool, e.1.2 = key /\ e.2 = true) log.
End runs.

(** The elements of [ts] after [a], and how many are after [a] and not after [b]. *)
Definition after (a : time) (ts : list time) : list time := filter (λ t, (a < t)%Z) ts.
Definition count_in (a b : time) (ts : list time) : nat := length (filter (λ t, (a < t <= b)%Z) ts).

Lemma admitted_cons c b key log :
  admitted key ((c, b) :: log) = (if decide (c.2 = key /\ b = true) then [c.1] else []) ++ admitted key log.
Proof. unfold admitted. rewrite filter_cons. cbn. by case_decide. Qed.
Lemma count_in_cons a b t ts :
  count_in a b (t :: ts) = ((if decide (a < t <= b)%Z then 1 else 0) + count_in a b ts)%nat.
Proof. unfold count_in. rewrite filter_cons. by case_decide. Qed.
Lemma count_in_after now a b ts : a <= b -> Forall (λ t, t <= now) ts ->
  (count_in b now ts <= length (after a ts))%nat /\ length (after b ts) = count_in b now ts.
Proof.
  intros Hab. induction 1 as [|t ts Ht _ [IH1 IH2]]; [by unfold count_in, after|].
  rewrite count_in_cons. unfold after in *. rewrite !filter_cons. repeat case_decide; cbn; lia.
Qed.
Lemma count_in_sub now a b w ts : now - w <= a -> Forall (λ t, t <= now) ts ->
  (count_in a b ts <= count_in (now - w) now ts)%nat.
Proof.
  intros Ha. induction 1 as [|t ts Ht _ IH]; [done|]. rewrite !count_in_cons. repeat case_decide; lia.
Qed.
Lemma after_drops a b ts : a < b -> b ∈ ts -> (length (after b ts) < length (after a ts))%nat.
Proof.
  intros Hab Hb. induction ts as [|t ts IH]; [by apply not_elem_of_nil in Hb|].
  assert (length (after b ts) <= length (after a ts))%nat as Hle.
  { clear -Hab. induction ts as [|t ts IH]; [done|]. unfold after in *. rewrite !filter_cons. repeat case_decide; cbn; lia. }
  unfold after in *. rewrite !filter_cons. apply elem_of_cons in Hb as [<-|Hb].
  - rewrite decide_False by lia. rewrite decide_True by lia. cbn. lia.
  - specialize (IH Hb). repeat case_decide; cbn; lia.
Qed.
Lemma recent_reverse cutoff cut ts : cut <= cutoff ->
  recent_of cutoff (reverse (after cut ts)) = reverse (after cutoff ts).
Proof.
  intros Hc. unfold recent_of, time_After, after. rewrite <-!filter_reverse, list_filter_filter.
  apply list_filter_iff. intros t. rewrite Z.ltb_lt. lia.
Qed.

Section exact.
Variables (limits : string -> Z * duration).
Hypothesis windows : forall key, 0 < (limits key).2 <= int64_max.

(** What the limiter keeps of a key: the admissions after a cutoff that no later
    call reaches back over. *)
Definition keeps (now : time) (l : gmap string (list time)) (log : list (time * string * bool)) : Prop :=
  forall key, Forall (λ t, t <= now) (admitted key log) /\
    (forall a, Z.of_nat (count_in a (a + (limits key).2) (admitted key log)) <= Z.max 0 (limits key).1) /\
    exists cut, cut <= now - (limits key).2 /\ default [] (l !! key) = reverse (after cut (admitted key log)).

(** What a call sees and decides. *)
Lemma check_spec now key now0 l log : keeps now0 l log -> now0 <= now ->
  let recent := recent_of (now - (limits key).2) (default [] (l !! key)) in
  recent = reverse (after (now - (limits key).2) (admitted key log)) /\
  length recent = count_in (now - (limits key).2) now (admitted key log) /\
  v_allowed (check_call limits (now, key) l).1
    = bool_decide (Z.of_nat (count_in (now - (limits key).2) now (admitted key log)) < (limits key).1) /\
  (check_call limits (now, key) l).2 =
    <[key := recent ++ (if v_allowed (check_call limits (now, key) l).1 then [now] else [])]> l.
Proof.
  intros Hk Hle recent. destruct (Hk key) as (Hp & _ & cut & Hcut & Hl).
  assert (recent = reverse (after (now - (limits key).2) (admitted key log))) as Hr.
  { unfold recent. rewrite Hl. apply recent_reverse. lia. }
  assert (length recent = count_in (now - (limits key).2) now (admitted key log)) as Hn.
  { rewrite Hr, length_reverse. apply (count_in_after now (now - (limits key).2)); [lia|].
    eapply Forall_impl; [exact Hp|]. cbn. lia. }
  split; [done|]. split; [done|]. unfold check_call, Check_. cbn [fst snd].
  change (time_Add now (- (limits key).2)) with (now - (limits key).2). fold recent. rewrite <-Hn.
  destruct (Z.leb_spec (limits key).1 (Z.of_nat (length recent))) as [Hge|Hlt].
  - rewrite bool_decide_eq_false_2 by lia. destruct recent; cbn; by rewrite ?app_nil_r.
  - rewrite bool_decide_eq_true_2 by lia. cbn. by rewrite insert_insert_eq.
Qed.

(** A refusal of a key that has a limit tells the time its oldest admission leaves
    the window. *)
Lemma refused_ttl now key l v l' :
  check_call limits (now, key) l = (v, l') -> v_allowed v = false -> 0 < (limits key).1 ->
  exists first, first ∈ recent_of (now - (limits key).2) (default [] (l !! key)) /\
    v_ttl v = Z.max 0 (time_Sub (first + (limits key).2) now).
Proof.
  unfold check_call, Check_. cbn [fst snd].
  change (time_Add now (- (limits key).2)) with (now - (limits key).2).
  destruct (recent_of _ _) as [|first rest]; cbn [length];
    (destruct (_ <=? _) eqn:?; go_bool; [|by intros [= <- _]]); intros [= <- _] _ Hpos.
  - lia.
  - exists first. split; [by left|]. cbn [v_ttl]. change (time_Add first (limits key).2) with (first + (limits key).2).
    destruct (Z.ltb_spec (time_Sub (first + (limits key).2) now) 0); lia.
Qed.

Lemma keeps_step now key now0 l log : keeps now0 l log -> now0 <= now ->
  keeps now (check_call limits (now, key) l).2
    ((now, key, v_allowed (check_call limits (now, key) l).1) :: log).
Proof.
  intros Hk Hle k. destruct (check_spec now key now0 l log Hk Hle) as (Hr & _ & Hal & Hl).
  rewrite Hl, admitted_cons. cbn [fst snd]. destruct (Hk k) as (Hp & Hb & cut & Hcut & Hd).
  assert (Forall (λ t, t <= now) (admitted k log)) as Hp'.
  { eapply Forall_impl; [exact Hp|]. cbn. lia. }
  destruct (decide (key = k)) as [->|Hne].
  - rewrite lookup_insert_eq. cbn [default]. rewrite Hr.
    destruct (v_allowed _) eqn:Ha.
    + rewrite decide_True by done. symmetry in Hal. apply bool_decide_eq_true in Hal.
      split; [by constructor; [lia|]|]. split.
      * intros a. cbn [app]. rewrite count_in_cons. specialize (Hb a). case_decide; [|lia].
        pose proof (count_in_sub now a (a + (limits k).2) (limits k).2 (admitted k log)) as Hs.
        specialize (Hs ltac:(lia) Hp'). lia.
      * exists (now - (limits k).2). split; [lia|]. unfold after. cbn [app]. rewrite filter_cons.
        rewrite decide_True; [by rewrite reverse_cons|]. pose proof (windows k). lia.
    + rewrite decide_False by (by intros [_ ?]). rewrite app_nil_r. cbn [app].
      split; [done|]. split; [done|]. exists (now - (limits k).2). split; [lia|done].
  - rewrite lookup_insert_ne by done. rewrite decide_False by (by intros [? _]). cbn [app].
    split; [done|]. split; [done|]. exists cut. split; [lia|done].
Qed.

Lemma run_keeps calls now0 log l : keeps now0 l log -> StronglySorted Z.le (now0 :: calls.*1) ->
  exists now, keeps now (run_checks limits calls log l).2 (run_checks limits calls log l).1 /\
    (forall t, now0 <= t -> Forall (λ u, u <= t) calls.*1 -> now <= t).
Proof.
  revert now0 log l. induction calls as [|[now key] calls IH]; intros now0 log l Hk Hs; [by exists now0|].
  cbn [run_checks]. apply StronglySorted_inv in Hs as [Hs Hle]. apply Forall_cons in Hle as [Hle _].
  pose proof (keeps_step now key now0 l log Hk Hle) as Hk'.
  destruct (check_call limits (now, key) l) as [v l'] eqn:E. cbn [fst snd] in Hk'.
  destruct (IH now _ _ Hk' Hs) as (n & Hn & Hmax). exists n. split; [done|].
  intros t _ Ht. apply Forall_cons in Ht as [? ?]. by apply Hmax.
Qed.

Lemma run_keeps_from_empty calls now : StronglySorted Z.le (calls.*1 ++ [now]) ->
  exists now0, keeps now0 (run_checks limits calls [] ∅).2 (run_checks limits calls [] ∅).1 /\ now0 <= now.
Proof.
  intros Hs. assert (forall t, keeps t ∅ []) as H0.
  { intros t k. split; [by constructor|]. split.
    { intros a. change (count_in a (a + (limits k).2) (admitted k [])) with O. lia. }
    eexists. split; [reflexivity|]. by rewrite lookup_empty. }
  apply StronglySorted_app in Hs as (Hle & Hs & _).
  destruct calls as [|[t key] calls]; [by exists now|].
  destruct (run_keeps ((t, key) :: calls) t [] ∅) as (n & Hn & Hmax); [done| |].
  - constructor; [done|]. cbn in *. apply StronglySorted_inv in Hs as [_ ?]. by constructor.
  - exists n. split; [done|]. apply Hmax; [apply Hle; [by left|by apply list_elem_of_singleton]|].
    apply Forall_forall. intros u Hu. apply Hle; [done|by apply list_elem_of_singleton].
Qed.

(** C24: Whatever calls were made, at times that do not go back: no stretch of time as
    long as a key's window holds more than its limit of admitted calls; the next call is
    admitted exactly when fewer than the limit were admitted in the window before it;
    and a refused call that comes again at the time the limiter told it is admitted. *)
Theorem limiter_exact calls key now : StronglySorted Z.le (calls.*1 ++ [now]) ->
  let '(log, l) := run_checks limits calls [] ∅ in
  let '(v, l') := check_call limits (now, key) l in
  (forall k a, Z.of_nat (count_in a (a + (limits k).2) (admitted k log)) <= Z.max 0 (limits k).1) /\
  v_allowed v = bool_decide (Z.of_nat (count_in (now - (limits key).2) now (admitted key log)) < (limits key).1) /\
  (v_allowed v = false -> 0 < (limits key).1 ->
   0 < v_ttl v <= (limits key).2 /\ v_allowed (check_call limits (now + v_ttl v, key) l').1 = true).
Proof.
  intros Hs. destruct (run_keeps_from_empty calls now Hs) as (now0 & Hk & Hle).
  destruct (run_checks limits calls [] ∅) as [log l]. cbn [fst snd] in Hk.
  destruct (check_spec now key now0 l log Hk Hle) as (Hr & Hn & Hal & Hl).
  pose proof (keeps_step now key now0 l log Hk Hle) as Hk'.
  destruct (check_call limits (now, key) l) as [v l'] eqn:E. cbn [fst snd] in *.
  split; [intros k a; apply (Hk k)|]. split; [done|]. intros Hv Hpos.
  destruct (refused_ttl now key l v l' E Hv Hpos) as (first & Hin & Httl).
  rewrite Hr in Hin. rewrite elem_of_reverse in Hin. pose proof Hin as Hin'.
  apply list_elem_of_filter in Hin' as [Hgt Hadm]. destruct (Hk key) as (Hp & Hb & _).
  pose proof Hp as Hp2. rewrite Forall_forall in Hp2. specialize (Hp2 _ Hadm). cbn in Hp2.
  pose proof (windows key) as Hw. unfold time_Sub in Httl.
  rewrite clamp64_id in Httl by (apply in_int64_spec; unfold int64_min; lia).
  split; [lia|]. destruct (check_spec (now + v_ttl v) key now l' _ Hk' ltac:(lia)) as (_ & _ & -> & _).
  rewrite admitted_cons, Hv. cbn [snd]. rewrite decide_False by (by intros [_ ?]). cbn [app].
  replace (now + v_ttl v - (limits key).2) with first by lia. apply bool_decide_eq_true.
  assert (Forall (λ t, t <= now + v_ttl v) (admitted key log)) as Hp'.
  { eapply Forall_impl; [exact Hp|]. cbn. lia. }
  destruct (count_in_after _ first first _ ltac:(lia) Hp') as [_ <-].
  assert (b := after_drops (now - (limits key).2) first (admitted key log) Hgt Hadm).
  rewrite <-(length_reverse (after (now - _) _)), <-Hr, Hn in b. specialize (Hb (now - (limits key).2)).
  replace (now - (limits key).2 + (limits key).2) with now in Hb by lia.
  apply Nat2Z.inj_lt in b. lia.
Qed.
End exact.

(** Two calls a minute: the third is refused, and comes back after 58 seconds. *)
Definition two_a_minute (key : string) : Z * duration := (2, 60 * second).
Definition two_calls : list (time * string) := [(second, "a"); (2 * second, "a")]%string.
Lemma limiter_exact_witness :
  v_allowed (check_call two_a_minute (3 * second, "a"%string) (run_checks two_a_minute two_calls [] ∅).2).1 = false /\
  let '(log, l) := run_checks two_a_minute two_calls [] ∅ in
  let '(v, l') := check_call two_a_minute (3 * second, "a"%string) l in
  (forall k a, Z.of_nat (count_in a (a + 60 * second) (admitted k log)) <= 2) /\
  (v_allowed v = false -> v_allowed (check_call two_a_minute (3 * second + v_ttl v, "a"%string) l').1 = true).
Proof.
  split; [vm_compute; reflexivity|].
  assert (forall key, 0 < (two_a_minute key).2 <= int64_max) as Hw.
  { intros key. unfold int64_max, second. cbn. unfold second. lia. }
  assert (StronglySorted Z.le (two_calls.*1 ++ [3 * second])) as Hs.
  { cbn. repeat (constructor; [|repeat (constructor; unfold second; try lia)]). constructor. }
  pose proof (limiter_exact two_a_minute Hw two_calls "a"%string (3 * second) Hs) as Ht.
  destruct (run_checks two_a_minute two_calls [] ∅) as [log l].
  destruct (check_call two_a_minute (3 * second, "a"%string) l) as [v l'].
  destruct Ht as (Hb & _ & Hr). split; [exact Hb|]. intros Hv. apply Hr; [exact Hv|]. cbn. lia.
Defined.
End memory.
End ratelimit.
