(* ===== verification/Postgres.v ===== *)
(** A PostgreSQL connection over tables of type [T], as the repositories of the
    program use it: statements, constraints, transactions.

    A connection sees the tables, is inside a transaction or not, and meets a
    list of faults: the error codes the server or the driver gives to the next
    statements.  PostgreSQL refuses every statement of a transaction after one
    of its statements failed, until the rollback.  The rounding of the column
    types ([NUMERIC], microsecond time stamps) is not modelled here; where it matters to
    a component, its file says what its columns do ([JobQueue], [Ramp], [MobileMoney]). *)
From S2P Require Export Contract.
From stdpp Require Import options.
Open Scope Z_scope.
Local Open Scope go_scope.

(** What a statement can fail with, beside the constraints below. *)
Inductive pg_fault :=
  | connection_failure | query_canceled | serialization_failure | deadlock_detected
  | foreign_key_violation | numeric_value_out_of_range | string_data_right_truncation
  | context_canceled.
Definition fault_code (f : pg_fault) : string :=
  match f with
  | connection_failure => "08006" | query_canceled => "57014"
  | serialization_failure => "40001" | deadlock_detected => "40P01"
  | foreign_key_violation => "23503" | numeric_value_out_of_range => "22003"
  | string_data_right_truncation => "22001" | context_canceled => "context canceled"
  end.

Section connection.
Context {T : Type}.

Record PgState := {
  pg_tables : T;
  pg_tx : option bool;  (** in a transaction; [Some true] after a failed statement *)
  pg_faults : list (option pg_fault);
}.

Definition pg_fail {A} (code : string) (faults : list (option pg_fault)) : M PgState A := λ s,
  (Err (External code),
   {| pg_tables := pg_tables s;
      pg_tx := match pg_tx s with Some _ => Some true | None => None end;
      pg_faults := faults |}).

(** One statement: it gives rows and new tables, or the SQLSTATE of an error. *)
Definition pg_exec {A} (q : T -> (A * T) + string) : M PgState A := λ s,
  match pg_tx s with
  | Some true => pg_fail "25P02" (pg_faults s) s
  | _ =>
      match pg_faults s with
      | Some fault :: faults => pg_fail (fault_code fault) faults s
      | faults =>
          match q (pg_tables s) with
          | inl (a, t) => (Ok a, {| pg_tables := t; pg_tx := pg_tx s; pg_faults := tail faults |})
          | inr code => pg_fail code (tail faults) s
          end
      end
  end.

Definition pg_select {A} (q : T -> A) : M PgState A := pg_exec (λ t, inl (q t, t)).

(** [QueryRowxContext] followed by [Scan]. *)
Definition sql_ErrNoRows := Sentinel "sql: no rows in result set".
Definition pg_row {A} (q : T -> option A) : M PgState A :=
  let! r := pg_select q in
  match r with Some a => gret a | None => gfail sql_ErrNoRows end.

(** [ExecContext] of an [INSERT]: a constraint gives an error code. *)
Definition pg_insert (check : T -> option string) (f : T -> T) : M PgState unit :=
  pg_exec (λ t, match check t with Some code => inr code | None => inl (tt, f t) end).

(** [ExecContext] of an [UPDATE ... WHERE]: the number of affected rows. *)
Definition pg_update (check : T -> option string) (hit : T -> bool)
    (f : T -> T) : M PgState Z :=
  pg_exec (λ t, if hit t
                then match check t with Some code => inr code | None => inl (1, f t) end
                else inl (0, t)).

Definition isUniqueViolationPg (err : error) : bool := bool_decide (err = External "23505").

(** [if err != nil { if isUniqueViolationPg(err) { return conflict }; return wrapped }] *)
Definition or_conflict (conflict : error) (format : string) (m : M PgState unit) :
    M PgState unit :=
  gtry m (λ r,
    match r with
    | inl _ => gret tt
    | inr err => gfail (if isUniqueViolationPg err then conflict else Wrapf format err)
    end).

(** [if rows == 0 { return missing }] *)
Definition or_missing (missing : error) (m : M PgState Z) : M PgState unit :=
  let! rows := m in if rows =? 0 then gfail missing else gret tt.

(** ** The transactor

    [BeginTxx], the body, then [Rollback] or [Commit].  A failed commit leaves
    nothing; [Commit] of a transaction with a failed statement rolls back and
    returns an error.  A connection lost after the server committed is not
    modelled. *)
Definition pg_leave (t : T) (s : PgState) : PgState :=
  {| pg_tables := t; pg_tx := None; pg_faults := pg_faults s |}.

Definition pg_commit (saved : T) : M PgState unit := λ s,
  match pg_tx s, pg_faults s with
  | Some true, _ => (Err (External "25P02"), pg_leave saved s)
  | _, Some fault :: faults =>
      (Err (External (fault_code fault)), {| pg_tables := saved; pg_tx := None; pg_faults := faults |})
  | _, faults =>
      (Ok tt, {| pg_tables := pg_tables s; pg_tx := None; pg_faults := tail faults |})
  end.

Definition pg_begin : M PgState unit := λ s,
  match pg_faults s with
  | Some fault :: faults =>
      (Err (External (fault_code fault)),
       {| pg_tables := pg_tables s; pg_tx := pg_tx s; pg_faults := faults |})
  | faults =>
      (Ok tt, {| pg_tables := pg_tables s; pg_tx := Some false; pg_faults := tail faults |})
  end.

(** What the caller makes of an error of [BeginTxx] or [Commit]. *)
Definition tx_error (format : option string) (e : error) : error :=
  match format with Some f => Wrapf f e | None => e end.

Definition pg_in_tx {A} (begin commit : option string) (fn : M PgState A) : M PgState A := λ s,
  match pg_begin s with
  | (Ok _, s1) =>
      match fn s1 with
      | (Ok a, s2) =>
          match pg_commit (pg_tables s1) s2 with
          | (Ok _, s3) => (Ok a, s3)
          | (Err e, s3) => (Err (tx_error commit e), s3)
          | (Panic, s3) => (Panic, s3)
          end
      | (r, s2) => (r, pg_leave (pg_tables s1) s2)
      end
  | (Err e, s1) => (Err (tx_error begin e), s1)
  | (Panic, s1) => (Panic, s1)
  end.

Definition pg_WithTransaction {A} (fn : M PgState A) : M PgState A := pg_in_tx None None fn.

(** ** The laws hold *)

(** A statement either runs on the tables or fails with a code and no effect. *)
Lemma pg_exec_cases {A} (q : T -> (A * T) + string) s r s' :
  pg_exec q s = (r, s') ->
  (exists a t, q (pg_tables s) = inl (a, t) /\ r = Ok a /\ pg_tables s' = t) \/
  (exists code, q (pg_tables s) = inr code /\ r = Err (External code) /\
     pg_tables s' = pg_tables s) \/
  (exists code, code <> "23505"%string /\ r = Err (External code) /\
     pg_tables s' = pg_tables s).
Proof.
  assert (forall f, fault_code f <> "23505"%string) as Hf by (by intros []).
  unfold pg_exec, pg_fail. intros H.
  repeat case_match; simplify_eq/=; first
    [ left; do 2 eexists; split_and!; reflexivity
    | right; left; eexists; split_and!; reflexivity
    | right; right; eexists; split_and!; [|reflexivity..]; done ].
Qed.

End connection.
Arguments PgState T : clear implicits.

#[export] Instance pgTransactor {T} : Transactor (PgState T) := {
  WithTransaction := @pg_WithTransaction T;
}.

(** The helpers of a repository that [pg_law] unfolds. *)
Create HintDb pg.

(** Run an operation made of one statement and compare it with its meaning. *)
Ltac pg_law :=
  let H := fresh in let E := fresh in
  intros w r w' H;
  cbv [pg_row pg_select pg_insert pg_update or_conflict or_missing
       gbind gtry gwrap gret gfail wrap_err isUniqueViolationPg] in H;
  autounfold with pg in H;
  cbv [pg_row pg_select gbind gtry gwrap gret gfail wrap_err] in H;
  match type of H with
  | context [pg_exec ?q w] =>
      destruct (pg_exec q w) as [rq sq] eqn:E; apply pg_exec_cases in E
  end;
  destruct E as [(a & t & E & -> & <-)|[(code & E & -> & Et)|(code & Hne & -> & Et)]];
  cbv [query found write] in *;
  repeat (case_match || case_bool_decide || case_decide); simplify_eq/=;
  first [ left; congruence | right; split; [eexists; split; reflexivity|assumption] | exfalso; congruence ].

Section laws.
Context {T : Type}.

(** Every query without a condition of its own. *)
Lemma pg_select_law {A} (q : T -> A) : implements pg_tables (pg_select q) (query q).
Proof. pg_law. Qed.

Lemma pg_wrapped_select_law {A} format (q : T -> A) :
  implements pg_tables (gwrap format (pg_select q)) (query q).
Proof. pg_law. Qed.

(** Rules of the weakest precondition for one statement. *)
Lemma wp_pg_exec {A} (q : T -> (A * T) + string) w (Q : result A -> PgState T -> Prop) :
  (forall a t w', q (pg_tables w) = inl (a, t) -> pg_tables w' = t -> Q (Ok a) w') ->
  (forall code w', pg_tables w' = pg_tables w -> Q (Err (External code)) w') ->
  wp (pg_exec q) w Q.
Proof.
  intros Hok Herr. apply wp_of_run. intros r w' E.
  apply pg_exec_cases in E as [(a & t & Hq & -> & Ht)|[(code & _ & -> & Ht)|(code & _ & -> & Ht)]];
    eauto.
Qed.

Lemma wp_pg_select {A} (q : T -> A) w (Q : result A -> PgState T -> Prop) :
  (forall w', pg_tables w' = pg_tables w -> Q (Ok (q (pg_tables w))) w') ->
  (forall code w', pg_tables w' = pg_tables w -> Q (Err (External code)) w') ->
  wp (pg_select q) w Q.
Proof.
  intros Hok Herr. apply wp_pg_exec; [|done]. intros a t w' [= <- <-] Hw. auto.
Qed.

Lemma wp_pg_row {A} (q : T -> option A) w (Q : result A -> PgState T -> Prop) :
  (forall a w', q (pg_tables w) = Some a -> pg_tables w' = pg_tables w -> Q (Ok a) w') ->
  (forall w', q (pg_tables w) = None -> pg_tables w' = pg_tables w ->
     Q (Err sql_ErrNoRows) w') ->
  (forall code w', pg_tables w' = pg_tables w -> Q (Err (External code)) w') ->
  wp (pg_row q) w Q.
Proof.
  intros Hs Hn He. unfold pg_row. apply wp_bind, wp_pg_select; [|eauto]. intros w' Hw.
  destruct (q (pg_tables w)) eqn:E; [by apply Hs|by apply Hn].
Qed.

Lemma wp_pg_update check hit f w (Q : result Z -> PgState T -> Prop) :
  (forall w', hit (pg_tables w) = true -> check (pg_tables w) = None ->
     pg_tables w' = f (pg_tables w) -> Q (Ok 1) w') ->
  (forall w', hit (pg_tables w) = false -> pg_tables w' = pg_tables w -> Q (Ok 0) w') ->
  (forall code w', pg_tables w' = pg_tables w -> Q (Err (External code)) w') ->
  wp (pg_update check hit f) w Q.
Proof.
  intros Hh Hn He. unfold pg_update. apply wp_pg_exec; [|done]. intros a t w' Hq Hw.
  repeat case_match; simplify_eq; eauto.
Qed.

Lemma wp_pg_insert check f w (Q : result unit -> PgState T -> Prop) :
  (forall w', check (pg_tables w) = None -> pg_tables w' = f (pg_tables w) -> Q (Ok tt) w') ->
  (forall code w', pg_tables w' = pg_tables w -> Q (Err (External code)) w') ->
  wp (pg_insert check f) w Q.
Proof.
  intros Hok He. unfold pg_insert. apply wp_pg_exec; [|done]. intros [] t w' Hq Hw.
  repeat case_match; simplify_eq; eauto.
Qed.

Lemma pg_commit_cases (saved : T) s r s' :
  pg_commit saved s = (r, s') ->
  (r = Ok tt /\ pg_tables s' = pg_tables s) \/
  ((exists e, r = Err e /\ infra e = true) /\ pg_tables s' = saved).
Proof.
  unfold pg_commit, pg_leave. intros.
  repeat case_match; simplify_eq/=; first [ by left | right; by eauto ].
Qed.

Lemma pg_begin_cases (s : PgState T) r s' :
  pg_begin s = (r, s') ->
  pg_tables s' = pg_tables s /\ (r = Ok tt \/ exists e, r = Err e /\ infra e = true).
Proof. unfold pg_begin. intros. repeat case_match; simplify_eq/=; eauto. Qed.

Lemma infra_tx_error format e : infra (tx_error format e) = infra e.
Proof. by destruct format. Qed.

Lemma pg_in_tx_law begin commit A (fn : M (PgState T) A) R :
  refines pg_tables fn R -> refines pg_tables (pg_in_tx begin commit fn) (atomic R).
Proof.
  intros Hfn s r s'. unfold pg_in_tx.
  destruct (pg_begin s) as [rb s1] eqn:Eb. apply pg_begin_cases in Eb as [Et Hb].
  destruct Hb as [->|(e & -> & He)];
    [|intros [= <- <-]; cbn; split; [done|]; right; by rewrite infra_tx_error].
  destruct (fn s1) as [rf s2] eqn:Ef. apply Hfn in Ef. rewrite Et in Ef.
  destruct rf as [a|e|]; cbn; [|by intros [= <- <-]; cbn; eauto..].
  destruct (pg_commit (pg_tables s1) s2) as [rc s3] eqn:Ec.
  apply pg_commit_cases in Ec as [[-> Ec]|[(e & -> & He) Ec]]; intros [= <- <-]; cbn.
  - by rewrite Ec.
  - rewrite Ec, infra_tx_error. eauto.
Qed.

Lemma pg_WithTransaction_law A (fn : M (PgState T) A) R :
  refines pg_tables fn R -> refines pg_tables (pg_WithTransaction fn) (atomic R).
Proof. apply pg_in_tx_law. Qed.

End laws.
