(* ===== verification/Demo.v ===== *)
(** A concrete library of identifiers, for the witnesses of the development:
    identifiers are written in unary. *)
From S2P Require Export Postgres.
From stdpp Require Import options.
Open Scope Z_scope.
Local Open Scope go_scope.

Fixpoint unary (n : nat) : string :=
  match n with O => "" | S n => ("x" ++ unary n)%string end.

#[export] Instance demo_uuid : UUIDLib := {
  uuid_Parse s := Some (N.of_nat (String.length s));
  uuid_String u := unary (N.to_nat u);
}.

#[export] Instance demo_uuid_laws : UUIDLaws.
Proof.
  assert (forall n, String.length (unary n) = n) as Hn.
  { induction n as [|n IH]; [done|]. change (S (String.length (unary n)) = S n). by rewrite IH. }
  split. intros u. cbn. by rewrite Hn, N2Nat.id.
Qed.

(** A connection whose statements all succeed. *)
Definition connection {T} (t : T) : PgState T :=
  {| pg_tables := t; pg_tx := None; pg_faults := [] |}.
