(* ===== verification/GoText.v ===== *)
(** Text of the Go standard library the backend uses: byte strings,
    [strings.TrimSpace], decimal digits of [math/big] and [strconv]. *)
From S2P Require Export Prelude.
From stdpp Require Import options.
From Stdlib Require Import Ascii.
Open Scope Z_scope.

(** A Go string is a sequence of bytes; parsing works on the list of them. *)
Abbreviation bytes := (list ascii) (only parsing).

Definition byte_of (n : nat) : ascii := ascii_of_nat n.
Definition code (c : ascii) : Z := Z.of_N (N_of_ascii c).

(** ** [strings.TrimSpace]

    The UTF-8 encodings of the runes of [unicode.IsSpace]. *)
Definition go_spaces : list bytes :=
  ((λ n, [byte_of n]) <$> [9; 10; 11; 12; 13; 32])%nat
  ++ [ [byte_of 194; byte_of 133]; [byte_of 194; byte_of 160];
       [byte_of 225; byte_of 154; byte_of 128] ]
  ++ ((λ n, [byte_of 226; byte_of 128; byte_of n])
        <$> [128; 129; 130; 131; 132; 133; 134; 135; 136; 137; 138; 168; 169; 175])%nat
  ++ [ [byte_of 226; byte_of 129; byte_of 159]; [byte_of 227; byte_of 128; byte_of 128] ].

Fixpoint strip_prefix (p s : bytes) : option bytes :=
  match p, s with
  | [], _ => Some s
  | a :: p', b :: s' => if decide (a = b) then strip_prefix p' s' else None
  | _ :: _, [] => None
  end.

(** The rest of [s] after one space of [sp], if [s] starts with one. *)
Fixpoint strip_one (sp : list bytes) (s : bytes) : option bytes :=
  match sp with
  | [] => None
  | p :: sp' => match strip_prefix p s with Some r => Some r | None => strip_one sp' s end
  end.

Fixpoint trim_with (fuel : nat) (sp : list bytes) (s : bytes) : bytes :=
  match fuel with
  | O => s
  | S f => match strip_one sp s with Some r => trim_with f sp r | None => s end
  end.

Definition trim_left (s : bytes) : bytes := trim_with (length s) go_spaces s.
Definition trim_right (s : bytes) : bytes :=
  reverse (trim_with (length s) (reverse <$> go_spaces) (reverse s)).
Definition TrimSpace (s : bytes) : bytes := trim_right (trim_left s).

(** ** Decimal digits *)
Definition is_digit (c : ascii) : bool := (48 <=? code c) && (code c <=? 57).
Definition digit_val (c : ascii) : Z := code c - 48.
Definition digit_char (d : Z) : ascii := ascii_of_N (Z.to_N (48 + d)).

Definition dec_value (l : bytes) : Z :=
  fold_left (λ acc c, acc * 10 + digit_val c) l 0.

Fixpoint dec_digits_aux (fuel : nat) (n : Z) (acc : bytes) : bytes :=
  match fuel with
  | O => acc
  | S f => if n <? 10 then digit_char n :: acc
           else dec_digits_aux f (n / 10) (digit_char (n mod 10) :: acc)
  end.

(** [big.Int.String] of a number that is not negative: no leading zero. *)
Definition dec_digits (n : Z) : bytes := dec_digits_aux (S (Z.to_nat (Z.log2 n))) n [].

Definition zero_char : ascii := "0"%char.
Definition zeros (n : nat) : bytes := replicate n zero_char.

(** Left-pad with zeros to [w] characters. *)
Definition pad_zeros (w : nat) (l : bytes) : bytes := zeros (w - length l) ++ l.

(** [strings.TrimLeft] with the cutset of the single character zero. *)
Fixpoint trim_zeros (l : bytes) : bytes :=
  match l with
  | c :: r => if decide (c = zero_char) then trim_zeros r else l
  | [] => []
  end.

(** [strings.IndexByte] split: the bytes before and after the first [c]. *)
Fixpoint split_byte (c : ascii) (l : bytes) : option (bytes * bytes) :=
  match l with
  | [] => None
  | b :: r => if decide (b = c) then Some ([], r)
              else match split_byte c r with
                   | Some (x, y) => Some (b :: x, y)
                   | None => None
                   end
  end.

(** ** Lemmas on digits *)
Lemma digit_char_code d : 0 <= d <= 9 -> code (digit_char d) = 48 + d.
Proof.
  intros. unfold code, digit_char. rewrite N_ascii_embedding; [lia|].
  change 256%N with (Z.to_N 256). apply Z2N.inj_lt; lia.
Qed.

Lemma digit_char_val d : 0 <= d <= 9 -> digit_val (digit_char d) = d.
Proof. intros. unfold digit_val. rewrite digit_char_code; lia. Qed.

Lemma digit_char_is_digit d : 0 <= d <= 9 -> is_digit (digit_char d) = true.
Proof.
  intros. unfold is_digit. rewrite digit_char_code by done.
  rewrite andb_true_iff, !Z.leb_le. lia.
Qed.

Lemma digit_val_bounds c : is_digit c = true -> 0 <= digit_val c <= 9.
Proof. unfold is_digit, digit_val. intros. go_bool. lia. Qed.

Lemma dec_value_acc l a :
  fold_left (λ acc c, acc * 10 + digit_val c) l a
  = a * 10 ^ Z.of_nat (length l) + dec_value l.
Proof.
  unfold dec_value. revert a. induction l as [|c l IH]; intros a; cbn [fold_left length].
  { rewrite Z.pow_0_r. lia. }
  rewrite IH, (IH (0 * 10 + _)), Nat2Z.inj_succ, Z.pow_succ_r by lia. ring.
Qed.

Lemma dec_value_app a b :
  dec_value (a ++ b) = dec_value a * 10 ^ Z.of_nat (length b) + dec_value b.
Proof. unfold dec_value at 1. by rewrite fold_left_app, dec_value_acc. Qed.

Lemma dec_value_cons c l :
  dec_value (c :: l) = digit_val c * 10 ^ Z.of_nat (length l) + dec_value l.
Proof. apply (dec_value_app [c]). Qed.

Lemma dec_value_zeros n : dec_value (zeros n) = 0.
Proof. induction n as [|n IH]; [done|]. unfold zeros in *. cbn [replicate]. by rewrite dec_value_cons, IH. Qed.

Lemma dec_value_pad w l : dec_value (pad_zeros w l) = dec_value l.
Proof. unfold pad_zeros. rewrite dec_value_app, dec_value_zeros. ring. Qed.

Lemma dec_value_trim_zeros l : dec_value (trim_zeros l) = dec_value l.
Proof.
  induction l as [|c l IH]; [done|]. cbn [trim_zeros].
  destruct (decide (c = zero_char)) as [->|]; [|done]. rewrite IH, dec_value_cons.
  change (digit_val zero_char) with 0. ring.
Qed.

Lemma dec_value_nonneg l : forallb is_digit l = true -> 0 <= dec_value l.
Proof.
  induction l as [|c l IH]; [done|]. cbn [forallb]. intros. go_bool.
  rewrite dec_value_cons. pose proof (digit_val_bounds c ltac:(done)).
  specialize (IH ltac:(done)). pose proof (Z.pow_nonneg 10 (Z.of_nat (length l))). nia.
Qed.

Lemma dec_value_bound l :
  forallb is_digit l = true -> dec_value l < 10 ^ Z.of_nat (length l).
Proof.
  induction l as [|c l IH]; [done|]. cbn [forallb length]. intros. go_bool.
  rewrite dec_value_cons, Nat2Z.inj_succ, Z.pow_succ_r by lia.
  pose proof (digit_val_bounds c ltac:(done)). specialize (IH ltac:(done)).
  pose proof (Z.pow_nonneg 10 (Z.of_nat (length l))). nia.
Qed.

Lemma forallb_zeros n : forallb is_digit (zeros n) = true.
Proof. by induction n. Qed.

Lemma forallb_pad w l :
  forallb is_digit l = true -> forallb is_digit (pad_zeros w l) = true.
Proof. intros. unfold pad_zeros. by rewrite forallb_app, forallb_zeros. Qed.

Lemma length_pad_zeros w l : (length l <= w)%nat -> length (pad_zeros w l) = w.
Proof. intros. unfold pad_zeros, zeros. rewrite length_app, length_replicate. lia. Qed.

Lemma trim_zeros_digits l :
  forallb is_digit l = true -> forallb is_digit (trim_zeros l) = true.
Proof.
  induction l as [|c l IH]; [done|]. cbn [trim_zeros forallb]. intros.
  destruct (decide (c = zero_char)); go_bool; auto. cbn [forallb]. by rewrite H, H0.
Qed.

(** ** Lemmas on printed numbers *)
Lemma log2_div10 n : 10 <= n -> Z.log2 (n / 10) <= Z.log2 n - 1.
Proof.
  intros. assert (n / 10 <= n / 2) as Hle by (apply Z.div_le_compat_l; lia).
  apply Z.log2_le_mono in Hle. rewrite <- Z.div2_div in Hle.
  pose proof (Z.log2_shiftr n 1 ltac:(lia)) as Hs.
  change (Z.shiftr n 1) with (Z.div2 n) in Hs.
  pose proof (Z.log2_le_mono 2 n ltac:(lia)) as Hn. change (Z.log2 2) with 1 in Hn. lia.
Qed.

Section dec_digits.
(** Every property of a printed number is proved by the same induction on the
    fuel, which the logarithm bounds. *)
Lemma dec_digits_aux_value f n acc :
  0 <= n -> Z.log2 n < Z.of_nat f ->
  dec_value (dec_digits_aux f n acc)
  = n * 10 ^ Z.of_nat (length acc) + dec_value acc.
Proof.
  revert n acc. induction f as [|f IH]; intros n acc Hn Hf.
  { pose proof (Z.log2_nonneg n). lia. }
  cbn [dec_digits_aux]. destruct (Z.ltb_spec n 10) as [Hlt|Hge].
  - rewrite dec_value_cons, digit_char_val by lia. done.
  - pose proof (log2_div10 n Hge). pose proof (Z.mod_pos_bound n 10 ltac:(lia)).
    pose proof (Z.div_mod n 10 ltac:(lia)).
    rewrite IH by (try apply Z.div_pos; lia).
    rewrite dec_value_cons, digit_char_val by lia. cbn [length].
    rewrite Nat2Z.inj_succ, Z.pow_succ_r by lia. nia.
Qed.

Lemma dec_digits_aux_digits f n acc :
  0 <= n -> forallb is_digit acc = true ->
  forallb is_digit (dec_digits_aux f n acc) = true.
Proof.
  revert n acc. induction f as [|f IH]; intros n acc Hn Ha; [done|].
  cbn [dec_digits_aux]. pose proof (Z.mod_pos_bound n 10 ltac:(lia)).
  destruct (Z.ltb_spec n 10).
  - cbn [forallb]. rewrite digit_char_is_digit by lia. done.
  - apply IH; [apply Z.div_pos; lia|]. cbn [forallb].
    rewrite digit_char_is_digit by lia. done.
Qed.

Lemma dec_digits_aux_length f n acc k :
  0 <= n < 10 ^ Z.of_nat k -> (1 <= k)%nat ->
  (length (dec_digits_aux f n acc) <= k + length acc)%nat.
Proof.
  revert n acc k. induction f as [|f IH]; intros n acc k Hn Hk; [cbn; lia|].
  cbn [dec_digits_aux]. destruct (Z.ltb_spec n 10); [cbn; lia|].
  destruct k as [|[|k]]; [lia|cbn in Hn; lia|].
  specialize (IH (n / 10) (digit_char (n mod 10) :: acc) (S k)).
  cbn [length] in IH. etransitivity; [apply IH|]; [|lia..]. split.
  - apply Z.div_pos; lia.
  - apply Z.div_lt_upper_bound; [lia|].
    rewrite (Nat2Z.inj_succ (S k)), Z.pow_succ_r in Hn by lia. lia.
Qed.

Lemma dec_digits_aux_nonnil f n acc :
  f <> O -> dec_digits_aux f n acc <> [].
Proof.
  revert n acc. induction f as [|f IH]; intros n acc Hf; [done|].
  cbn [dec_digits_aux]. destruct (n <? 10); [done|].
  destruct f; [done|]. by apply IH.
Qed.
End dec_digits.

Lemma dec_digits_value n : 0 <= n -> dec_value (dec_digits n) = n.
Proof.
  intros. unfold dec_digits. pose proof (Z.log2_nonneg n).
  rewrite dec_digits_aux_value by lia. cbn. lia.
Qed.

Lemma dec_digits_digits n : 0 <= n -> forallb is_digit (dec_digits n) = true.
Proof. intros. by apply dec_digits_aux_digits. Qed.

Lemma dec_digits_length n k :
  0 <= n < 10 ^ Z.of_nat k -> (1 <= k)%nat -> (length (dec_digits n) <= k)%nat.
Proof.
  intros. unfold dec_digits.
  pose proof (dec_digits_aux_length (S (Z.to_nat (Z.log2 n))) n [] k). cbn in *. lia.
Qed.

Lemma dec_digits_nonnil n : dec_digits n <> [].
Proof. by apply dec_digits_aux_nonnil. Qed.

#[export] Hint Resolve dec_digits_digits forallb_pad forallb_zeros dec_digits_nonnil
  trim_zeros_digits : go.
#[export] Hint Rewrite dec_value_pad dec_value_trim_zeros dec_value_zeros : go.

(** ** Lemmas on splitting and trimming *)
Lemma digit_not_byte c l :
  is_digit c = false -> forallb is_digit l = true -> split_byte c l = None.
Proof.
  intros Hc. induction l as [|b l IH]; [done|]. cbn [forallb split_byte]. intros. go_bool.
  destruct (decide (b = c)) as [->|]; [congruence|]. by rewrite IH.
Qed.

Lemma split_byte_app c x y :
  split_byte c x = None -> split_byte c (x ++ c :: y) = Some (x, y).
Proof.
  induction x as [|b x IH]; cbn [app split_byte].
  { intros _. by rewrite decide_True. }
  destruct (decide (b = c)); [done|]. destruct (split_byte c x) as [[??]|]; [done|].
  intros _. by rewrite IH.
Qed.

Lemma split_byte_Some c l x y :
  split_byte c l = Some (x, y) -> l = x ++ c :: y /\ split_byte c x = None.
Proof.
  revert x. induction l as [|b l IH]; intros x; cbn [split_byte]; [done|].
  destruct (decide (b = c)) as [->|]; [intros [= <- <-]; done|].
  destruct (split_byte c l) as [[x' y']|] eqn:Hs; [|done]. intros [= <- <-].
  destruct (IH x' eq_refl) as [-> Hx]. split; [done|]. cbn.
  rewrite decide_False by done. by rewrite Hx.
Qed.

(** A byte that starts no space stops the trimming. *)
Lemma trim_with_stop f sp s : strip_one sp s = None -> trim_with f sp s = s.
Proof. intros H. destruct f; cbn; [done|]. by rewrite H. Qed.

Lemma strip_one_head sp c s :
  forallb (λ p, match p with b :: _ => negb (bool_decide (b = c)) | [] => false end) sp = true ->
  strip_one sp (c :: s) = None.
Proof.
  induction sp as [|p sp IH]; [done|]. cbn [forallb strip_one]. intros. go_bool.
  destruct p as [|b p]; [done|]. go_bool. cbn [strip_prefix].
  rewrite decide_False by done. by apply IH.
Qed.
