(* ===== verification/GoStrings.v ===== *)
(** Strings of the Go standard library on which the services keep their state in
    Redis: [strings.Split], [strings.SplitN], [%d], [strconv.ParseInt]. *)
From S2P Require Export GoText.
From stdpp Require Import options.
From Stdlib Require Import Ascii.
Open Scope Z_scope.

(** [strings.Cut] at a byte. *)
Fixpoint str_cut (c : ascii) (s : string) : option (string * string) :=
  match s with
  | EmptyString => None
  | String a r => if decide (a = c) then Some (EmptyString, r)
                  else match str_cut c r with Some (x, y) => Some (String a x, y) | None => None end
  end.
(** [strings.Split(s, sep)] for a separator of one byte: never empty. *)
Fixpoint str_split (c : ascii) (s : string) : list string :=
  match s with
  | EmptyString => [EmptyString]
  | String a r => if decide (a = c) then EmptyString :: str_split c r
                  else match str_split c r with h :: t => String a h :: t | [] => [] end
  end.
(** [strings.SplitN(s, sep, n + 1)]. *)
Fixpoint str_splitN (n : nat) (c : ascii) (s : string) : list string :=
  match n with
  | O => [s]
  | S n => match str_cut c s with Some (x, y) => x :: str_splitN n c y | None => [s] end
  end.

Definition has_byte (c : ascii) (s : string) : bool := existsb (λ a, bool_decide (a = c)) (String.list_ascii_of_string s).

(** [%d] of an integer. *)
Definition fmt_d (n : Z) : string :=
  if n <? 0 then String "-" (String.string_of_list_ascii (dec_digits (- n)))
  else String.string_of_list_ascii (dec_digits n).

(** [strconv.ParseInt(s, 10, 64)]: an optional sign and digits. *)
Definition ParseInt (s : string) : Z + error :=
  let '(neg, l) :=
    match String.list_ascii_of_string s with
    | c :: r => if decide (c = "-"%char) then (true, r) else if decide (c = "+"%char) then (false, r)
                else (false, c :: r)
    | [] => (false, [])
    end in
  match l with
  | [] => inr (External "strconv.ErrSyntax")
  | _ => if forallb is_digit l then
           let n := if neg then - dec_value l else dec_value l in
           if in_int64 n then inl n else inr (External "strconv.ErrRange")
         else inr (External "strconv.ErrSyntax")
  end.

(** The characters of a text in UTF-8: its bytes that do not continue one. *)
Definition char_length (s : string) : Z :=
  Z.of_nat (length (filter (λ c, ~ (128 <= code c < 192)) (String.list_ascii_of_string s))).

(** [strings.TrimSpace] of a string. *)
Definition str_TrimSpace (s : string) : string :=
  String.string_of_list_ascii (TrimSpace (String.list_ascii_of_string s)).

(** [Time.Unix] and [Time.UnixNano]: the time since 1970, the second in an [int64]. *)
Definition unix_epoch : Z := 62135596800.
Definition time_Unix (t : time) : Z := t / second - unix_epoch.
Definition time_UnixNano (t : time) : Z := wrap64 (t - unix_epoch * second).

(** ** Lemmas *)
Lemma str_app_nil s : (EmptyString ++ s)%string = s.
Proof. done. Qed.
Lemma str_app_cons x a s : (String x a ++ s)%string = String x (a ++ s).
Proof. done. Qed.
Lemma list_ascii_of_app (a b : string) :
  String.list_ascii_of_string (a ++ b) =
  (String.list_ascii_of_string a ++ String.list_ascii_of_string b)%list.
Proof. induction a as [|x a IH]; [done|]. rewrite str_app_cons. cbn. by f_equal. Qed.
Lemma has_byte_app c a b : has_byte c (a ++ b) = has_byte c a || has_byte c b.
Proof.
  unfold has_byte. by rewrite list_ascii_of_app, existsb_app.
Qed.
Lemma has_byte_cons c x s : has_byte c (String x s) = bool_decide (x = c) || has_byte c s.
Proof. done. Qed.

Lemma str_cut_app c a b : has_byte c a = false -> str_cut c (a ++ String c b) = Some (a, b).
Proof.
  induction a as [|x a IH]; rewrite ?str_app_nil, ?str_app_cons; intros Hn; [by cbn; rewrite decide_True|].
  rewrite has_byte_cons in Hn. go_bool. cbn. rewrite decide_False by done. by rewrite IH.
Qed.
Lemma str_cut_None c s : has_byte c s = false -> str_cut c s = None.
Proof.
  induction s as [|x s IH]; [done|]. rewrite has_byte_cons. intros Hn. go_bool.
  cbn. rewrite decide_False by done. by rewrite IH.
Qed.

Lemma str_split_nonnil c s : str_split c s <> [].
Proof. induction s as [|x s IH]; cbn; [done|]. case_decide; [done|]. by destruct (str_split c s). Qed.
Lemma str_split_one c s : has_byte c s = false -> str_split c s = [s].
Proof.
  induction s as [|x s IH]; [done|]. rewrite has_byte_cons. intros Hn. go_bool.
  cbn. rewrite decide_False by done. by rewrite IH.
Qed.
(** A separator splits what is before it from what is after it. *)
Lemma str_split_app c a b : str_split c (a ++ String c b) = (str_split c a ++ str_split c b)%list.
Proof.
  induction a as [|x a IH]; rewrite ?str_app_nil, ?str_app_cons; cbn; [by rewrite decide_True|]. case_decide; [by rewrite IH|].
  rewrite IH. by destruct (str_split c a) eqn:E; [by apply str_split_nonnil in E|].
Qed.
Lemma str_split_last c a b : last (str_split c (a ++ String c b)) = last (str_split c b).
Proof.
  rewrite str_split_app, last_app. destruct (last (str_split c b)) eqn:E; [done|].
  apply last_None in E. by apply str_split_nonnil in E.
Qed.
Lemma str_split_head c a b : has_byte c a = false -> head (str_split c (a ++ String c b)) = Some a.
Proof. intros Hn. by rewrite str_split_app, str_split_one. Qed.

(** [ParseInt] reads no byte but digits and a sign. *)
Lemma ParseInt_bytes s n c : ParseInt s = inl n -> has_byte c s = true ->
  is_digit c = true \/ c = "-"%char \/ c = "+"%char.
Proof.
  unfold ParseInt, has_byte. intros Hp Hc. apply existsb_exists in Hc as (x & Hx & E).
  apply bool_decide_eq_true in E as ->. apply list_elem_of_In in Hx.
  destruct (String.list_ascii_of_string s) as [|a r]; [done|]. apply elem_of_cons in Hx.
  assert (forall l, c ∈ l -> forallb is_digit l = true -> is_digit c = true) as Hd.
  { intros l Hl Hf. rewrite forallb_forall in Hf. apply Hf. by apply list_elem_of_In. }
  repeat case_decide; subst; repeat case_match; simplify_eq; destruct Hx as [->|Hx]; auto; left;
    (eapply Hd; [|eassumption]); rewrite ?elem_of_cons; auto; by apply elem_of_cons.
Qed.

Lemma fmt_d_inj a b : 0 <= a -> 0 <= b -> fmt_d a = fmt_d b -> a = b.
Proof.
  intros Ha Hb. unfold fmt_d. destruct (Z.ltb_spec a 0), (Z.ltb_spec b 0); try lia. intros E.
  apply (f_equal String.list_ascii_of_string) in E. rewrite !String.list_ascii_of_string_of_list_ascii in E.
  by rewrite <-(dec_digits_value a), <-(dec_digits_value b), E.
Qed.
