(* ===== verification/Idempotency.v ===== *)
(** Requests sent again (src/internal/api/middleware/idempotency.go): a key of Redis
    claimed by the first request that carries it, which runs the handler; the others are
    answered with what the handler answered. *)
From S2P Require Export Redis GoStrings.
From stdpp Require Import options.
#[local] Set Default Proof Using "Type*".
Open Scope Z_scope.
Local Open Scope go_scope.

Module idempotency.
Import redis.

Definition defaultIdempotencyTTL : duration := 24 * 3600 * second.
Definition idempotencyProcessing : string := "processing".
(** The record that is stored is the response. *)
Record idempotencyRecord := { StatusCode : Z; Body : string; ContentType : string }.

(** The encoding of a record by the standard library; a record is text when its content
    type is valid UTF-8. *)
Class RecordJSON := {
  json_Marshal : idempotencyRecord -> string + error;
  json_Unmarshal : string -> idempotencyRecord + error;
  text : idempotencyRecord -> bool;
}.
Class RecordJSONLaws `{RecordJSON} : Prop := {
  marshal_round r : text r = true -> exists p, json_Marshal r = inl p /\ json_Unmarshal p = inl r /\ p <> idempotencyProcessing;
}.

Record request := {
  rq_UserID : string;
  rq_Method : string;
  rq_FullPath : string;      (** the pattern of the route *)
  rq_IdempotencyKey : string;
  rq_XIdempotencyKey : string;
  rq_payload : string;       (** everything else of the request *)
}.
Definition IdempotencyKeyHeader (r : request) : string :=
  let key := str_TrimSpace (rq_IdempotencyKey r) in
  if decide (key = "")%string then str_TrimSpace (rq_XIdempotencyKey r) else key.
Definition redisKey (r : request) : string :=
  let scope := if decide (rq_UserID r = "")%string then "anon"%string else rq_UserID r in
  "idempotency:" ++ scope ++ ":" ++ rq_Method r ++ " " ++ rq_FullPath r ++ ":" ++ IdempotencyKeyHeader r.

(** A request acts on Redis, runs the handlers behind the middleware, whose response is
    written as they run and which may panic, and writes the answers of the middleware. *)
Inductive answer := Replayed (r : idempotencyRecord) | Refused (status : Z).
Inductive idemE : Type -> Type :=
  | Redis {X : Type} (e : redisE X) : idemE X
  | Next (r : request) : idemE idempotencyRecord
  | Respond (r : request) (a : answer) : idemE unit.
Abbreviation idem := (prog idemE).
Definition cmd_ {X} (c : cmd X) : idem X := act (Redis (Cmd c)).

Section middleware.
Context `{RecordJSON}.

(** [tryReplay]: the cached response, if there is one. *)
Definition replay_of (record : idempotencyRecord) : idempotencyRecord :=
  {| StatusCode := StatusCode record; Body := Body record;
     ContentType := if decide (ContentType record = "")%string then "application/json; charset=utf-8"
                    else ContentType record |}.
Definition tryReplay (key : string) : idem (option idempotencyRecord) :=
  ptry (cmd_ (GET key)) (λ r,
    match r with
    | inl (Some cached) =>
        if decide (cached = idempotencyProcessing) then pret None
        else match json_Unmarshal cached with inl record => pret (Some (replay_of record)) | inr _ => pret None end
    | _ => pret None
    end).

Definition IdempotencyMiddleware (next : idem idempotencyRecord) (r : request) : idem unit :=
  if decide (IdempotencyKeyHeader r = "")%string then pignore next
  else
    let key := redisKey r in
    ptry (cmd_ (SETNX key idempotencyProcessing defaultIdempotencyTTL)) (λ s,
      match s with
      | inr _ => act (Respond r (Refused 503))
      | inl false =>
          let* replayed := tryReplay key in
          act (Respond r (match replayed with Some record => Replayed record | None => Refused 409 end))
      | inl true =>
          let* record := next in
          match json_Marshal record with
          | inr _ => pignore (cmd_ (DEL [key]))
          | inl payload => pignore (cmd_ (SET key payload defaultIdempotencyTTL))
          end
      end).

(** The routes that move money ask for a key. *)
Definition RequireIdempotencyKey (next : idem idempotencyRecord) (r : request) : idem idempotencyRecord :=
  if decide (IdempotencyKeyHeader r = "")%string then
    do* act (Respond r (Refused 400)) in
    pret {| StatusCode := 400; Body := ""; ContentType := "application/json; charset=utf-8" |}
  else next.
Definition serve (required : bool) (r : request) : idem unit :=
  let next := act (Next r) in
  IdempotencyMiddleware (if required then RequireIdempotencyKey next r else next) r.

(** ** The world: the runs of the handlers and the answers of the middleware *)
Record iworld := {
  iw_redis : world;
  iw_handlers : list (result idempotencyRecord);   (** of the next runs *)
  iw_runs : list (request * result idempotencyRecord);
  iw_answers : list (request * answer);
}.
Definition perform_idem (X : Type) (e : idemE X) : M iworld X :=
  match e in idemE X return M iworld X with
  | Redis e => λ w,
      let '(r, rw) := perform _ e (iw_redis w) in
      (r, {| iw_redis := rw; iw_handlers := iw_handlers w; iw_runs := iw_runs w; iw_answers := iw_answers w |})
  | Next q => λ w,
      let '(r, rest) := match iw_handlers w with r :: rest => (r, rest) | [] => (Panic, []) end in
      (r, {| iw_redis := iw_redis w; iw_handlers := rest; iw_runs := (q, r) :: iw_runs w; iw_answers := iw_answers w |})
  | Respond q a => λ w,
      (Ok tt, {| iw_redis := iw_redis w; iw_handlers := iw_handlers w; iw_runs := iw_runs w;
                 iw_answers := (q, a) :: iw_answers w |})
  end.
End middleware.
End idempotency.
