(* ===== verification/IdemProps.v ===== *)
(** What a key promises for a day: one run of the handlers, and its response for every
    request that is answered later. *)
From S2P Require Export Idempotency.
From stdpp Require Import options.
#[local] Set Default Proof Using "Type*".
Open Scope Z_scope.
Local Open Scope go_scope.

Module idemprops.
Import redis idempotency.

Definition is_idem (k : string) : Prop := String.prefix "idempotency:" k = true.
Lemma redisKey_idem q : is_idem (redisKey q).
Proof. unfold redisKey, is_idem. rewrite !str_app_cons. cbn. by destruct (_ ++ _)%string. Qed.
(** The request carries the key that Redis keeps under [K]. *)
Definition keyed (K : string) (q : request) : Prop := IdempotencyKeyHeader q <> ""%string /\ redisKey q = K.
#[export] Instance keyed_dec K q : Decision (keyed K q).
Proof. unfold keyed. apply _. Defined.

(** A request is before or after its claim, or knows the response of the run. *)
Inductive stage := Idle | Holds (K : string) | Knows (K : string) (record : idempotencyRecord).
#[export] Instance record_eq_dec : EqDecision idempotencyRecord.
Proof. solve_decision. Defined.
#[export] Instance stage_eq_dec : EqDecision stage.
Proof. solve_decision. Defined.

Section promise.
Context `{RecordJSON} {HJ : RecordJSONLaws}.

Definition pre_cmd {X} (c : cmd X) (s : stage) : Prop :=
  match c with
  | SETNX k v ttl => s = Idle /\ is_idem k /\ v = idempotencyProcessing /\ ttl = defaultIdempotencyTTL
  | GET k => s = Idle /\ is_idem k
  | SET k v ttl => exists record, s = Knows k record /\ is_idem k /\ json_Unmarshal v = inl record /\
                                  v <> idempotencyProcessing /\ ttl = defaultIdempotencyTTL
  | _ => False
  end.
Definition post_cmd {X} (c : cmd X) (s : stage) : result X -> stage -> Prop :=
  match c in cmd X return result X -> stage -> Prop with
  | SETNX k _ _ => λ r s', s' = match r with Ok true => Holds k | _ => Idle end
  | GET k => λ r s',
      match r with
      | Ok (Some v) => if decide (v = idempotencyProcessing) then s' = s
                       else exists record, json_Unmarshal v = inl record /\ s' = Knows k record
      | _ => s' = s
      end
  | _ => λ _ s', s' = s
  end.
Definition pre (X : Type) (e : idemE X) (s : stage) : Prop :=
  match e with
  | Redis (Cmd c) => pre_cmd c s
  | Redis _ => False
  | Next q => IdempotencyKeyHeader q = ""%string \/ s = Holds (redisKey q)
  | Respond q (Replayed r) => exists record, s = Knows (redisKey q) record /\ r = replay_of record
  | Respond _ (Refused _) => True
  end.
Definition post (X : Type) (e : idemE X) (s : stage) : result X -> stage -> Prop :=
  match e in idemE X return result X -> stage -> Prop with
  | Redis e => match e in redisE X return result X -> stage -> Prop with Cmd c => post_cmd c s | _ => λ _ s', s' = s end
  | Next q => λ r s',
      if decide (IdempotencyKeyHeader q = "")%string then s' = s
      else match r with Ok record => text record = true /\ s' = Knows (redisKey q) record | _ => s' = Idle end
  | Respond _ _ => λ _ s', s' = s
  end.

(** Every request is typed. *)
Lemma replay_staged k (Q : stage -> result (option idempotencyRecord) -> Prop) : is_idem k ->
  (forall record, Q (Knows k record) (Ok (Some (replay_of record)))) -> (forall s r, r = Ok None \/ r = Panic -> Q s r) ->
  staged pre post Idle (tryReplay k) Q.
Proof.
  intros Hk HQ HN. unfold tryReplay. apply staged_try, staged_act; [done|].
  intros [[v|]|e|] s' Hs; cbn in Hs |- *; [|apply HN; auto..].
  destruct (decide (v = idempotencyProcessing)); [apply HN; auto|]. destruct Hs as (record & -> & ->). apply HQ.
Qed.
Lemma middleware_staged next q :
  (IdempotencyKeyHeader q = ""%string -> staged pre post Idle next (λ _ _, True)) ->
  (IdempotencyKeyHeader q <> ""%string -> staged pre post (Holds (redisKey q)) next
    (λ s r, match r with Ok record => text record = true /\ s = Knows (redisKey q) record | _ => True end)) ->
  staged pre post Idle (IdempotencyMiddleware next q) (λ _ _, True).
Proof.
  intros He Hn. unfold IdempotencyMiddleware. case_decide as Hk.
  { apply staged_ignore. eapply staged_mono; [by apply He|]. by intros s [a|e|] _. }
  pose proof (redisKey_idem q) as Hi. apply staged_try, staged_act; [done|].
  intros [[]|e|] s' ->; [|apply staged_bind, replay_staged|by apply staged_act|done]; try done.
  - apply staged_bind. eapply staged_mono; [by apply Hn|]. intros s [record|e|]; [|done..]. intros [Ht ->].
    destruct (marshal_round record Ht) as (p & -> & Hu & Hp). apply staged_ignore, staged_act; [by exists record|].
    by intros [] s' _.
  - intros record. apply staged_act; [by exists record|done].
  - intros s r [->| ->]; [by apply staged_act|done].
Qed.
Lemma next_staged q (Q : stage -> result idempotencyRecord -> Prop) s :
  IdempotencyKeyHeader q = ""%string \/ s = Holds (redisKey q) ->
  (forall r s', post _ (Next q) s r s' -> Q s' r) -> staged pre post s (act (Next q)) Q.
Proof. intros Hp HQ. by apply staged_act. Qed.
Lemma serve_staged required q : staged pre post Idle (serve required q) (λ _ _, True).
Proof.
  unfold serve. apply middleware_staged.
  - intros He. destruct required; [|by apply next_staged; [left|]].
    unfold RequireIdempotencyKey. rewrite decide_True by done. apply staged_bind, staged_act; [done|by intros [] ? _].
  - intros Hk. assert (staged pre post (Holds (redisKey q)) (act (Next q))
      (λ s r, match r with Ok record => text record = true /\ s = Knows (redisKey q) record | _ => True end)) as Hn.
    { apply next_staged; [by right|]. intros r s'. cbn [post]. rewrite decide_False by done. by destruct r. }
    destruct required; [|done]. unfold RequireIdempotencyKey. by rewrite decide_False.
Qed.
(** ** The invariant

    [t_end] is a day after the first request. *)
Variables (t_end : time).
Definition runs_of (K : string) (w : iworld) : list (request * result idempotencyRecord) :=
  filter (λ qr, keyed K qr.1) (iw_runs w).
Definition holders (K : string) (ss : list stage) : nat := length (filter (λ s, s = Holds K) ss).
Definition ran (K : string) (record : idempotencyRecord) (w : iworld) : Prop :=
  exists q, keyed K q /\ (q, Ok record) ∈ iw_runs w.
Definition texts (l : list (result idempotencyRecord)) : Prop :=
  Forall (λ r, match r with Ok record => text record = true | _ => True end) l.

Record Inv (w : iworld) (ss : list stage) : Prop := {
  inv_time : t_end - defaultIdempotencyTTL <= rw_now (iw_redis w) < t_end;
  inv_prompt : prompt (iw_redis w);
  inv_texts : texts (iw_handlers w);
  inv_once K : is_idem K ->
    (holders K ss + length (runs_of K w) <= if decide (rw_keys (iw_redis w) !! K = None) then 0 else 1)%nat;
  inv_kept K e : is_idem K -> rw_keys (iw_redis w) !! K = Some e ->
    (exists t, e_exp e = Some t /\ t_end <= t) /\
    exists v, e_val e = RString v /\
      (v = idempotencyProcessing \/ exists record, json_Unmarshal v = inl record /\ ran K record w);
  inv_knows K record : Knows K record ∈ ss -> ran K record w;
  inv_answers q r : (q, Replayed r) ∈ iw_answers w -> exists record, r = replay_of record /\ ran (redisKey q) record w;
}.

Lemma holders_app K ss s : holders K (ss ++ [s]) = (holders K ss + if decide (s = Holds K) then 1 else 0)%nat.
Proof. unfold holders. rewrite filter_app, length_app, filter_cons, filter_nil. by destruct (decide (s = Holds K)). Qed.
Lemma holders_insert K ss i s s' : ss !! i = Some s ->
  (holders K (<[i := s']> ss) + (if decide (s = Holds K) then 1 else 0) = holders K ss + if decide (s' = Holds K) then 1 else 0)%nat.
Proof.
  unfold holders. revert i. induction ss as [|a ss IH]; intros [|i]; [done..| |].
  - intros [= ->]. change (<[0%nat := s']> (s :: ss)) with (s' :: ss). rewrite !filter_cons. destruct (decide (s = Holds K)), (decide (s' = Holds K)); cbn; lia.
  - intros Hi. change (<[S i := s']> (a :: ss)) with (a :: <[i := s']> ss). rewrite !filter_cons. specialize (IH i Hi). destruct (decide (a = Holds K)); cbn; lia.
Qed.
Lemma knows_insert K record (ss : list stage) (i : nat) s' : Knows K record ∈ <[i := s']> ss ->
  Knows K record ∈ ss \/ s' = Knows K record.
Proof.
  intros (j & Hj)%list_elem_of_lookup_1. apply list_lookup_insert_Some in Hj as [(_ & -> & _)|[_ Hj]]; [by right|].
  left. by eapply list_elem_of_lookup_2.
Qed.

Lemma view_kept w ss K : Inv w ss -> is_idem K -> view (rw_now (iw_redis w)) K (rw_keys (iw_redis w)) = rw_keys (iw_redis w) !! K.
Proof.
  intros HI HK. unfold view. destruct (rw_keys (iw_redis w) !! K) as [e|] eqn:E; [|done].
  destruct (inv_kept _ _ HI K e HK E) as [(t & Ht & Hle) _]. unfold alive. rewrite Ht.
  pose proof (inv_time _ _ HI). by destruct (Z.ltb_spec (rw_now (iw_redis w)) t); [|lia].
Qed.

(** A step that keeps the keys and the logs, and moves one stage. *)
Lemma Inv_move w ss i s s' rw : Inv w ss -> ss !! i = Some s ->
  rw_now rw = rw_now (iw_redis w) -> prompt rw -> rw_keys rw = rw_keys (iw_redis w) ->
  (forall K, s' <> Holds K) -> (forall K record, s' = Knows K record -> ran K record w) ->
  Inv {| iw_redis := rw; iw_handlers := iw_handlers w; iw_runs := iw_runs w; iw_answers := iw_answers w |} (<[i := s']> ss).
Proof.
  intros HI Hi Hnow Hp Hk Hh Hkn. destruct HI as [Ht _ Hx Ho Hkp Hks Ha]. split; cbn; rewrite ?Hnow, ?Hk; try done.
  - intros K HK. specialize (Ho K HK). pose proof (holders_insert K ss i s s' Hi) as Hl.
    rewrite (decide_False (P := s' = Holds K)) in Hl by done. unfold runs_of in *. cbn. lia.
  - intros K record [Hin|E]%knows_insert; [by apply Hks|by apply Hkn].
Qed.

Definition with_redis (w : iworld) (rw : world) : iworld :=
  {| iw_redis := rw; iw_handlers := iw_handlers w; iw_runs := iw_runs w; iw_answers := iw_answers w |}.
Definition kept_entry (v : string) (now : time) : entry :=
  {| e_val := RString v; e_exp := Some (now + px defaultIdempotencyTTL) |}.
Lemma px_day : px defaultIdempotencyTTL = defaultIdempotencyTTL.
Proof. reflexivity. Qed.

(** Writing a key: the marker of a new claim, or the response its holder got. *)
Lemma Inv_write w ss i s s' k v rw : Inv w ss -> ss !! i = Some s -> is_idem k ->
  rw_now rw = rw_now (iw_redis w) -> prompt rw ->
  rw_keys rw = <[k := kept_entry v (rw_now (iw_redis w))]> (rw_keys (iw_redis w)) ->
  (v = idempotencyProcessing \/ exists record, json_Unmarshal v = inl record /\ ran k record w) ->
  (s' = Idle \/ s' = s \/ s' = Holds k /\ rw_keys (iw_redis w) !! k = None) -> (forall K, s <> Holds K) ->
  Inv (with_redis w rw) (<[i := s']> ss).
Proof.
  intros HI Hi Hk Hnow Hp Hkeys Hv Hs' Hs. pose proof HI as [Ht _ Hx Ho Hkp Hks Ha].
  split; cbn; rewrite ?Hnow, ?Hkeys; try done.
  - intros K HK. specialize (Ho K HK). pose proof (holders_insert K ss i s s' Hi) as Hl.
    rewrite (decide_False (P := s = Holds K)) in Hl by done. unfold runs_of in *. cbn.
    destruct (decide (k = K)) as [<-|Hne].
    + rewrite lookup_insert_eq, decide_False by done. destruct Hs' as [->|[->|[-> Hn]]].
      * rewrite decide_False in Hl by done. case_decide; lia.
      * rewrite decide_False in Hl by done. case_decide; lia.
      * rewrite decide_True in Hl by done. rewrite decide_True in Ho by done. lia.
    + rewrite lookup_insert_ne by done. rewrite (decide_False (P := s' = Holds K)) in Hl; [lia|].
      destruct Hs' as [->|[->|[-> _]]]; [done|done|]. by intros [= ->].
  - intros K e HK. destruct (decide (k = K)) as [<-|Hne].
    + rewrite lookup_insert_eq. intros [= <-]. split; [|exists v; done]. eexists. split; [done|]. rewrite px_day. lia.
    + rewrite lookup_insert_ne by done. intros He. by apply Hkp.
  - intros K record [Hin|E]%knows_insert; [by apply Hks|]. apply Hks. destruct Hs' as [->|[->|[-> _]]]; [done| |done].
    subst s. by eapply list_elem_of_lookup_2.
Qed.

Lemma step_cmd {X} (c : cmd X) w r rw' ss i s : perform X (Cmd c) (iw_redis w) = (r, rw') ->
  Inv w ss -> ss !! i = Some s -> pre_cmd c s ->
  exists s', post_cmd c s r s' /\ Inv (with_redis w rw') (<[i := s']> ss).
Proof.
  intros E HI Hi Hpre. cbn in E. apply on_server_spec in E as (_ & Hp & Hr).
  destruct (Hp (inv_prompt _ _ HI)) as [Hnow Hprompt]. rewrite Hnow in Hr. clear Hp.
  destruct c; cbn in Hpre; try done.
  - destruct Hpre as [-> Hk]. cbn in Hr. rewrite (view_kept w ss) in Hr by done.
    assert (rw_keys rw' = rw_keys (iw_redis w)) as Hkeys by tauto.
    assert (forall s', (forall K, s' <> Holds K) -> (forall K record, s' = Knows K record -> ran K record w) ->
      Inv (with_redis w rw') (<[i := s']> ss)) as Hmove by (intros; by eapply Inv_move).
    assert (r = (match rw_keys (iw_redis w) !! k with
                 | None => Ok None
                 | Some e => match e_val e with RString v => Ok (Some v) | _ => Err WRONGTYPE end
                 end) \/ exists e, r = Err e) as [->|[e ->]] by tauto; [|exists Idle; by split; [|apply Hmove]].
    destruct (rw_keys (iw_redis w) !! k) as [e|] eqn:Ee; [|exists Idle; by split; [|apply Hmove]].
    destruct (inv_kept _ _ HI k e Hk Ee) as (_ & v & Hv & Hval). rewrite Hv. cbn.
    destruct (decide (v = idempotencyProcessing)) as [->|Hne]; [exists Idle; by split; [|apply Hmove]|].
    destruct Hval as [?|(record & Hu & Hran)]; [done|]. exists (Knows k record). split; [by exists record|].
    apply Hmove; [done|]. by intros K record' [= <- <-].
  - destruct Hpre as (record & -> & Hk & Hu & Hv & ->). cbn in Hr. exists (Knows k record). split; [done|].
    assert (ran k record w) as Hran by (eapply inv_knows; [done|]; by eapply list_elem_of_lookup_2).
    destruct Hr as [[Hkeys _]|[Hkeys _]].
    + eapply Inv_move; try done. by intros K record' [= <- <-].
    + eapply Inv_write; try done; [right; by exists record|by right; left].
  - destruct Hpre as (-> & Hk & -> & ->). cbn in Hr. rewrite (view_kept w ss) in Hr by done.
    assert (forall r', (rw_keys rw' = rw_keys (iw_redis w)) -> r' = Idle -> Inv (with_redis w rw') (<[i := r']> ss)) as Hmove
      by (intros r' ? ->; by eapply Inv_move).
    destruct (rw_keys (iw_redis w) !! k) as [e|] eqn:Ee; cbn in Hr.
    + exists Idle. split; [|apply Hmove; tauto]. destruct Hr as [[_ [? ->]]|[_ [->|[? ->]]]]; done.
    + destruct Hr as [[Hkeys [? ->]]|[Hkeys Hr]]; [exists Idle; by split; [|apply Hmove]|].
      destruct Hr as [->|[? ->]]; [exists (Holds k)|exists Idle]; (split; [done|]);
        eapply Inv_write; try done; auto.
Qed.

Lemma step_next q w r w' ss i s : perform_idem _ (Next q) w = (r, w') ->
  Inv w ss -> ss !! i = Some s -> pre _ (Next q) s -> exists s', post _ (Next q) s r s' /\ Inv w' (<[i := s']> ss).
Proof.
  intros E HI Hi Hpre. pose proof HI as [Ht Hp Hx Ho Hkp Hks Ha]. cbn in E.
  assert (exists rest, w' = {| iw_redis := iw_redis w; iw_handlers := rest; iw_runs := (q, r) :: iw_runs w;
    iw_answers := iw_answers w |} /\ texts rest /\ match r with Ok record => text record = true | _ => True end) as (rest & -> & Hrest & Hr).
  { destruct (iw_handlers w) as [|r0 rest]; injection E as <- <-; eexists; (split; [done|]); [done|].
    apply Forall_cons in Hx. tauto. }
  clear E. set (s' := if decide (IdempotencyKeyHeader q = ""%string) then s
                      else match r with Ok record => Knows (redisKey q) record | _ => Idle end).
  exists s'. split; [unfold s'; cbn [post]; case_decide; [done|by destruct r]|].
  assert (forall K, ~ keyed K q \/ s = Holds K /\ s' <> Holds K /\ keyed K q) as Hcase.
  { intros K. destruct (decide (keyed K q)) as [[Hk <-]|]; [right|by left]. destruct Hpre as [|Hs]; [done|].
    split; [done|]. split; [|done]. unfold s'. rewrite decide_False by done. by destruct r. }
  assert (forall K record, ran K record w -> ran K record {| iw_redis := iw_redis w; iw_handlers := rest;
    iw_runs := (q, r) :: iw_runs w; iw_answers := iw_answers w |}) as Hran.
  { intros K record (q' & Hq & Hin). exists q'. split; [done|]. by right. }
  split; cbn [iw_redis iw_handlers iw_answers]; try done.
  - intros K HK. specialize (Ho K HK). pose proof (holders_insert K ss i s s' Hi) as Hl.
    unfold runs_of in *. cbn [iw_runs]. rewrite filter_cons. destruct (Hcase K) as [Hn|(Hs & Hs' & Hq)].
    + rewrite decide_False by done. assert (s' = Holds K -> s = Holds K) as Himp.
      { unfold s'. destruct (decide (IdempotencyKeyHeader q = ""%string)); [done|]. by destruct r. }
      destruct (decide (s' = Holds K)), (decide (s = Holds K)); try tauto; lia.
    + rewrite (decide_True (P := keyed K _)) by done. cbn [length].
      rewrite (decide_True (P := s = Holds K)) in Hl by done. rewrite (decide_False (P := s' = Holds K)) in Hl by done. lia.
  - intros K e HK He. destruct (Hkp K e HK He) as (Hexp & v & Hv & Hval). split; [done|]. exists v. split; [done|].
    destruct Hval as [|(record & Hu & Hr')]; [by left|right; exists record; auto].
  - intros K record [Hin|E]%knows_insert; [by apply Hran, Hks|]. unfold s' in E. case_decide as Hk.
    + apply Hran, Hks. subst s. by eapply list_elem_of_lookup_2.
    + destruct r as [record'|e|]; [|done..]. injection E as <- <-. exists q. split; [done|by left].
  - intros q' r' Hin. destruct (Ha q' r' Hin) as (record & -> & Hr'). exists record. auto.
Qed.

Lemma step_keeps X (e : idemE X) w r w' ss i s : perform_idem X e w = (r, w') -> Inv w ss -> ss !! i = Some s -> pre X e s ->
  exists s', post X e s r s' /\ Inv w' (<[i := s']> ss).
Proof.
  intros E HI Hi Hpre. destruct e as [X e|q|q a].
  - destruct e as [X c|cs| |]; [|done..]. cbn [perform_idem] in E.
    destruct (perform X (Cmd c) (iw_redis w)) as [r0 rw] eqn:Er. injection E as <- <-.
    exact (step_cmd c w r0 rw ss i s Er HI Hi Hpre).
  - by eapply step_next.
  - injection E as <- <-. exists s. split; [done|]. rewrite list_insert_id by done. pose proof HI as [Ht Hp Hx Ho Hkp Hks Ha].
    split; cbn; try done. intros q' r' [[= <- <-]|Hin]%elem_of_cons; [|by apply Ha].
    destruct Hpre as (record & -> & ->). exists record. split; [done|]. apply Hks. by eapply list_elem_of_lookup_2.
Qed.
(** The rest of the world does not touch the keys nor the logs, and the clock stays
    before [t_end]. *)
Definition env (w w' : iworld) : Prop :=
  rw_now (iw_redis w) <= rw_now (iw_redis w') < t_end /\ prompt (iw_redis w') /\ texts (iw_handlers w') /\
  (forall K, is_idem K -> rw_keys (iw_redis w') !! K = rw_keys (iw_redis w) !! K) /\
  iw_runs w' = iw_runs w /\ iw_answers w' = iw_answers w.
Lemma idem_env_keeps w w' ss : env w w' -> Inv w ss -> Inv w' ss.
Proof.
  intros (Ht & Hp & Hx & Hk & Hr & Ha) HI. destruct HI as [Ht0 _ _ Ho Hkp Hks Han]. unfold runs_of, ran in *.
  split; rewrite ?Hr, ?Ha; try done; [lia| | | |].
  - intros K HK. rewrite Hk by done. unfold runs_of. rewrite Hr. by apply Ho.
  - intros K e HK. rewrite Hk by done. unfold ran. rewrite Hr. by apply Hkp.
  - intros K record Hin. unfold ran. rewrite Hr. by apply Hks.
  - intros q r Hin. unfold ran. rewrite Hr. by apply Han.
Qed.
End promise.

Section runs.
Context `{RecordJSON} {HJ : RecordJSONLaws}.
Definition start (l : bool * request) : idem unit := serve l.1 l.2.
Definition fresh (w : iworld) : Prop :=
  prompt (iw_redis w) /\ texts (iw_handlers w) /\ (forall K, is_idem K -> rw_keys (iw_redis w) !! K = None) /\
  iw_runs w = [] /\ iw_answers w = [].

(** *** Requests that run while Redis answers *)
Definition quiet (w : iworld) : Prop := rw_net (iw_redis w) = [].
Definition answered (q : request) (a : answer) (w : iworld) : iworld :=
  {| iw_redis := iw_redis w; iw_handlers := iw_handlers w; iw_runs := iw_runs w; iw_answers := (q, a) :: iw_answers w |}.
(** Every request with the key is answered with the response, and runs no handler. *)
Definition replays (K : string) (record : idempotencyRecord) (w : iworld) : Prop :=
  forall required q, keyed K q ->
    run perform_idem (serve required q) w = (Ok tt, answered q (Replayed (replay_of record)) w).

Lemma wp_quiet {X} (c : cmd X) w (Q : result X -> iworld -> Prop) : quiet w ->
  (let '(r, ks) := exec (rw_now (iw_redis w)) c (rw_keys (iw_redis w)) in
   Q r (with_redis w (with_keys ks (iw_redis w)))) ->
  wp (run perform_idem (cmd_ c)) w Q.
Proof.
  unfold quiet, wp, cmd_, act. cbn. unfold on_server, arrive. intros ->.
  by destruct (exec _ c _) as [r ks].
Qed.
Lemma wp_next q w r rest (Q : result idempotencyRecord -> iworld -> Prop) : iw_handlers w = r :: rest ->
  Q r {| iw_redis := iw_redis w; iw_handlers := rest; iw_runs := (q, r) :: iw_runs w; iw_answers := iw_answers w |} ->
  wp (run perform_idem (act (Next q))) w Q.
Proof. intros Hh HQ. apply wp_act. unfold wp. cbn. by rewrite Hh. Qed.
Lemma with_same_keys w : with_redis w (with_keys (rw_keys (iw_redis w)) (iw_redis w)) = w.
Proof. by destruct w as [[] ? ? ?]. Qed.

Lemma stored_replays K record w e v : quiet w -> view (rw_now (iw_redis w)) K (rw_keys (iw_redis w)) = Some e ->
  e_val e = RString v -> v <> idempotencyProcessing -> json_Unmarshal v = inl record -> replays K record w.
Proof.
  intros Hq He Hv Hne Hu required q [Hk <-]. rewrite (surjective_pairing (run _ _ w)).
  refine (_ : wp (run perform_idem (serve required q)) w (λ r w', (r, w') = _)).
  unfold serve, IdempotencyMiddleware. rewrite decide_False by done.
  apply wp_ptry, wp_quiet; [done|]. cbn [exec]. rewrite He, with_same_keys.
  apply wp_pbind, wp_ptry, wp_quiet; [done|]. cbn [exec]. rewrite He, Hv, with_same_keys, decide_False by done.
  by rewrite Hu.
Qed.

(** The first request with a key runs the handlers behind it and leaves their response
    under the key, for the day. *)
Lemma first_stores required q record rest w : quiet w -> IdempotencyKeyHeader q <> ""%string -> text record = true ->
  rw_keys (iw_redis w) !! redisKey q = None -> iw_handlers w = Ok record :: rest ->
  exists v, v <> idempotencyProcessing /\ json_Unmarshal v = inl record /\
    wp (run perform_idem (serve required q)) w (λ _ w2,
      iw_runs w2 = (q, Ok record) :: iw_runs w /\ iw_answers w2 = iw_answers w /\
      rw_keys (iw_redis w2) !! redisKey q = Some (kept_entry v (rw_now (iw_redis w)))).
Proof.
  intros Hq Hk Ht Hn Hh. destruct (marshal_round record Ht) as (v & Hm & Hu & Hv). exists v. split_and!; [done..|].
  unfold serve.
  assert ((if required then RequireIdempotencyKey (act (Next q)) q else act (Next q)) = act (Next q)) as ->.
  { destruct required; [|done]. unfold RequireIdempotencyKey. by rewrite decide_False. }
  unfold IdempotencyMiddleware. rewrite decide_False by done.
  apply wp_ptry, wp_quiet; [done|]. cbn [exec]. unfold view. rewrite Hn.
  apply wp_pbind, (wp_next q _ (Ok record) rest); [done|]. rewrite Hm. apply wp_ptry, wp_quiet; [done|]. cbn. split_and!; [done..|].
  apply lookup_insert_eq.
Qed.

(** C25: For a day, however requests overlap and whatever is lost between them and Redis:
    the handlers behind a key run at most once, whatever they answer, and a request that
    is given a response without running them is given the one of that run (the others
    are refused).  A key that holds a response answers with it every request that reaches
    Redis; and the first request that reaches Redis with a key nobody claimed runs the
    handlers, stores their response, and every request with the key that reaches Redis
    within the day is answered with it. *)
Theorem key_runs_once w c q : fresh w ->
  reachable perform_idem start (env (rw_now (iw_redis w) + defaultIdempotencyTTL)) w c ->
  let K := redisKey q in
  (length (runs_of K c.1) <= 1)%nat /\
  (forall r, (q, Replayed r) ∈ iw_answers c.1 -> exists record, r = replay_of record /\ ran K record c.1) /\
  (forall e, quiet c.1 -> rw_keys (iw_redis c.1) !! K = Some e -> e_val e <> RString idempotencyProcessing ->
     exists record, ran K record c.1 /\ replays K record c.1) /\
  (forall required record rest, quiet c.1 -> IdempotencyKeyHeader q <> ""%string -> text record = true ->
     rw_keys (iw_redis c.1) !! K = None -> iw_handlers c.1 = Ok record :: rest ->
     let w2 := (run perform_idem (serve required q) c.1).2 in
     runs_of K w2 = [(q, Ok record)] /\ iw_answers w2 = iw_answers c.1 /\
     forall w3, quiet w3 -> rw_keys (iw_redis w3) !! K = rw_keys (iw_redis w2) !! K ->
       rw_now (iw_redis w3) < rw_now (iw_redis c.1) + defaultIdempotencyTTL -> replays K record w3).
Proof.
  intros (Hp & Hx & Hk & Hr & Ha) Hreach. set (t_end := rw_now (iw_redis w) + defaultIdempotencyTTL) in *.
  assert (Inv t_end w []) as H0'.
  { split; try done.
    - unfold t_end, defaultIdempotencyTTL, second in *. lia.
    - intros K HK. unfold runs_of. rewrite Hr, Hk by done. cbn. lia.
    - intros K e HK. by rewrite Hk.
    - by intros K record ?%not_elem_of_nil.
    - intros q' r'. rewrite Ha. by intros ?%not_elem_of_nil. }
  destruct (pool_staged pre post perform_idem (Inv t_end) (step_keeps t_end) start (env t_end) (λ _, Idle)
    (idem_env_keeps t_end) (λ l, serve_staged l.1 l.2)) with (w := w) (c := c) as (ss & HI & _); [|done..|].
  { intros w' ss _ HI. destruct HI as [Ht Hp' Hx' Ho Hkp Hks Han]. split; try done.
    - intros K HK. rewrite holders_app. rewrite decide_False by done. specialize (Ho K HK). lia.
    - intros K record [Hin|Hin]%elem_of_app; [by apply Hks|]. by apply list_elem_of_singleton in Hin. }
  pose proof (inv_once _ _ _ HI (redisKey q) (redisKey_idem q)) as Ho. intros K.
  split; [case_decide; unfold K; lia|]. split; [intros r Hin; by apply (inv_answers _ _ _ HI)|]. split.
  - intros e Hq He Hne. destruct (inv_kept _ _ _ HI K e (redisKey_idem q) He) as (_ & v & Hv & Hval).
    rewrite Hv in Hne. destruct Hval as [->|(record & Hu & Hran)]; [done|]. exists record. split; [done|].
    eapply (stored_replays K record c.1 e v); [done| |done| |done]; [|congruence].
    by rewrite (view_kept t_end _ ss) by (done || apply redisKey_idem).
  - intros required record rest Hq Hkey Ht Hn Hh.
    destruct (first_stores required q record rest c.1 Hq Hkey Ht Hn Hh) as (v & Hv & Hu & Hruns & Hans & Hkept).
    intros w2. fold w2 in Hruns, Hans, Hkept. split_and!; [|done|].
    + unfold K in *. rewrite decide_True in Ho by done. unfold runs_of in *. rewrite Hruns, filter_cons.
      rewrite decide_True by (split; [done|done]). f_equal. apply length_zero_iff_nil. lia.
    + intros w3 Hq3 Hk3 Hlt. fold K in Hkept. rewrite Hkept in Hk3.
      eapply (stored_replays K record w3 (kept_entry v (rw_now (iw_redis c.1))) v); [done| |done..]. unfold view. rewrite Hk3. unfold alive, kept_entry. cbn [e_exp].
      rewrite px_day. by destruct (Z.ltb_spec (rw_now (iw_redis w3)) (rw_now (iw_redis c.1) + defaultIdempotencyTTL)); [|lia].
Qed.
End runs.

(** ** Over a concrete encoding of two responses *)
Definition created : idempotencyRecord := {| StatusCode := 201; Body := "{}"; ContentType := "" |}.
Definition limited : idempotencyRecord := {| StatusCode := 429; Body := "{}"; ContentType := "application/json" |}.
#[local] Instance demo_json : RecordJSON := {
  json_Marshal r := inl (if decide (r = created) then "created" else "limited")%string;
  json_Unmarshal s := if decide (s = "created")%string then inl created
                      else if decide (s = "limited")%string then inl limited else inr (External "json");
  text r := bool_decide (r = created \/ r = limited);
}.
#[local] Instance demo_json_laws : RecordJSONLaws.
Proof.
  split. intros r Hr. apply bool_decide_eq_true in Hr. cbn. destruct Hr as [->| ->].
  - by exists "created"%string.
  - by exists "limited"%string.
Qed.
Definition demo_request (payload : string) : request :=
  {| rq_UserID := "7"; rq_Method := "POST"; rq_FullPath := "/v1/circles/:id/contribute"; rq_IdempotencyKey := " k1 ";
     rq_XIdempotencyKey := ""; rq_payload := payload |}.
Definition demo_world (handlers : list (result idempotencyRecord)) (net : list (duration * option fault)) : iworld :=
  {| iw_redis := {| rw_now := 0; rw_keys := ∅; rw_net := net; rw_rand := [] |}; iw_handlers := handlers;
     iw_runs := []; iw_answers := [] |}.
Definition request_of (payload : string) : turn (L := bool * request) (W := iworld) := Start (true, demo_request payload).
(** The second request comes while the first runs, the third after it. *)
Definition resubmitted : list turn :=
  [request_of "a"; Run 0; Run 0; request_of "a"; Run 1; Run 1; Run 1; Run 0; request_of "a"; Run 2; Run 2; Run 2].
Lemma key_runs_once_witness :
  iw_answers (schedule perform_idem start resubmitted (demo_world [Ok created] [], [])).1 =
    [(demo_request "a", Replayed (replay_of created)); (demo_request "a", Refused 409)] /\
  (length (runs_of (redisKey (demo_request "a")) (schedule perform_idem start resubmitted (demo_world [Ok created] [], [])).1) <= 1)%nat.
Proof.
  split; [vm_compute; reflexivity|].
  refine (proj1 (key_runs_once (demo_world [Ok created] []) _ (demo_request "a") _ _)).
  - split; [constructor|]. split; [by repeat constructor|]. by split.
  - apply (schedule_steps_closed perform_idem start _ resubmitted). reflexivity.
Defined.

(** Another circle: the key is kept under the pattern of the route, so the request is
    answered with the response of the first circle and does nothing. *)
Lemma other_circle_replayed :
  (schedule perform_idem start [request_of "circle A"; Run 0; Run 0; Run 0; request_of "circle B"; Run 1; Run 1; Run 1]
     (demo_world [Ok created; Ok created] [], [])).1.(iw_answers) = [(demo_request "circle B", Replayed (replay_of created))].
Proof. vm_compute. reflexivity. Qed.
(** A refusal of the rate limiter behind the key is kept for the day as well. *)
Lemma refusal_replayed :
  (schedule perform_idem start [request_of "a"; Run 0; Run 0; Run 0; request_of "a"; Run 1; Run 1; Run 1]
     (demo_world [Ok limited; Ok created] [], [])).1.(iw_answers) = [(demo_request "a", Replayed (replay_of limited))].
Proof. vm_compute. reflexivity. Qed.
(** A handler that panics, or a claim whose reply is lost, leaves the key claimed. *)
Lemma panic_keeps_claim :
  (schedule perform_idem start [request_of "a"; Run 0; Run 0; Run 0; request_of "a"; Run 1; Run 1; Run 1]
     (demo_world [Panic; Ok created] [], [])).1.(iw_answers) = [(demo_request "a", Refused 409)].
Proof. vm_compute. reflexivity. Qed.
Lemma lost_claim_stuck :
  (schedule perform_idem start [request_of "a"; Run 0; Run 0; Run 0; request_of "a"; Run 1; Run 1; Run 1]
     (demo_world [Ok created] [(0, Some (ReplyLost (External "eof")))], [])).1.(iw_answers) =
  [(demo_request "a", Refused 409); (demo_request "a", Refused 503)].
Proof. vm_compute. reflexivity. Qed.
End idemprops.
