(* ===== verification/GoFloat.v ===== *)
(** [float64] of the Go language and the parts of [math] and [strconv] the
    backend applies to it: IEEE 754 binary64 through the executable
    specification of the Rocq core library (no primitive floats). *)
From S2P Require Export Prelude GoText.
From Corelib Require Export SpecFloat.
From stdpp Require Import options.
From Stdlib Require Import Ascii.
Open Scope Z_scope.

Abbreviation float64 := spec_float (only parsing).

#[export] Instance spec_float_eq_dec : EqDecision spec_float.
Proof. solve_decision. Defined.

(** Well-formed values: a finite float has a canonical mantissa and exponent. *)
Definition f64_valid (f : float64) : bool := valid_binary 53 1024 f.

Definition f64_zero : float64 := S754_zero false.
(** [float64(n)] of an integer: rounded to nearest, ties to even. *)
Definition f64_of_Z (n : Z) : float64 := binary_normalize 53 1024 n 0 false.
Definition f64_add : float64 -> float64 -> float64 := SFadd 53 1024.
Definition f64_sub : float64 -> float64 -> float64 := SFsub 53 1024.
Definition f64_mul : float64 -> float64 -> float64 := SFmul 53 1024.
Definition f64_div : float64 -> float64 -> float64 := SFdiv 53 1024.
(** The comparisons [<] and [>] of Go: false when an operand is NaN. *)
Definition f64_lt (x y : float64) : bool := SFltb x y.
Definition f64_gt (x y : float64) : bool := SFltb y x.
Definition f64_le (x y : float64) : bool := SFleb x y.
Definition f64_eq (x y : float64) : bool := SFeqb x y.

Definition math_IsNaN (f : float64) : bool :=
  match f with S754_nan => true | _ => false end.
Definition math_IsInf (f : float64) : bool :=
  match f with S754_infinity _ => true | _ => false end.
Definition math_Abs : float64 -> float64 := SFabs.

(** ** Exact rational value of a finite float, scaled

    [f64_scaled f n d] rounds [|f| * n / d] with the given rounding of a
    quotient of two integers; [n] and [d] are positive. *)
Definition div_half_even (num den : Z) : Z :=
  let q := num / den in
  let r := num mod den in
  if 2 * r <? den then q
  else if den <? 2 * r then q + 1
  else if Z.even q then q else q + 1.

Definition div_half_up (num den : Z) : Z := (2 * num + den) / (2 * den).

Definition mant_num (m : positive) (e : Z) : Z := Z.pos m * 2 ^ Z.max 0 e.
Definition mant_den (e : Z) : Z := 2 ^ Z.max 0 (- e).

(** [math.Round]: to the nearest integer, half away from zero.  The result is
    an integer of at most 53 bits or the argument itself, so it is exact; the
    sign of a zero result is the sign of the argument. *)
Definition math_Round (f : float64) : float64 :=
  match f with
  | S754_finite s m e =>
      if 0 <=? e then f
      else binary_normalize 53 1024
             (cond_Zopp s (div_half_up (Z.pos m) (mant_den e))) 0 s
  | _ => f
  end.

(** Truncation toward zero of a finite float. *)
Definition f64_trunc (f : float64) : Z :=
  match f with
  | S754_finite s m e => cond_Zopp s (mant_num m e / mant_den e)
  | _ => 0
  end.

(** [float64(n)] of an integer: the nearest number of 53 significant bits, ties to
    even, which is an integer again. *)
Definition f64_unit (n : Z) : Z := 2 ^ Z.max 0 (Z.log2 (Z.abs n) - 52).
Definition f64_of_int (n : Z) : Z :=
  Z.sgn n * (div_half_even (Z.abs n) (f64_unit n) * f64_unit n).

(** Conversion of a float to [int64]: truncation when the result fits; the
    language leaves the other conversions to the implementation. *)
Class GoFloatConv := { f64_to_int64_out : float64 -> Z }.

Definition f64_to_int64 `{GoFloatConv} (f : float64) : Z :=
  match f with
  | S754_nan | S754_infinity _ => f64_to_int64_out f
  | _ => if in_int64 (f64_trunc f) then f64_trunc f else f64_to_int64_out f
  end.

(** ** [strconv.FormatFloat] with format f and a fixed number of decimals

    The decimal expansion is exact and is rounded once, ties to even; the sign
    is printed when the sign bit is set, also for a zero. *)
Definition format_scaled (prec : nat) (s : bool) (n : Z) : bytes :=
  (if s then ["-"%char] else [])
  ++ dec_digits (n / 10 ^ Z.of_nat prec)
  ++ "."%char :: pad_zeros prec (dec_digits (n mod 10 ^ Z.of_nat prec)).

Definition FormatFloat (f : float64) (prec : nat) : bytes :=
  match f with
  | S754_zero s => format_scaled prec s 0
  | S754_finite s m e =>
      format_scaled prec s
        (div_half_even (mant_num m e * 10 ^ Z.of_nat prec) (mant_den e))
  | S754_infinity s => (if s then "-"%char else "+"%char) :: ["I"; "n"; "f"]%char
  | S754_nan => ["N"; "a"; "N"]%char
  end.

(** ** Lemmas *)
Lemma mant_den_pos e : 0 < mant_den e.
Proof. apply Z.pow_pos_nonneg; lia. Qed.

Lemma mant_num_pos m e : 0 < mant_num m e.
Proof.
  unfold mant_num. pose proof (Z.pow_pos_nonneg 2 (Z.max 0 e) ltac:(lia) ltac:(lia)). nia.
Qed.

Lemma div_half_even_spec num den :
  0 < den ->
  Z.abs (2 * (num - div_half_even num den * den)) <= den /\
  (Z.abs (2 * (num - div_half_even num den * den)) = den ->
     Z.even (div_half_even num den) = true).
Proof.
  intros Hd. pose proof (Z.div_mod num den ltac:(lia)) as Hq.
  pose proof (Z.mod_pos_bound num den Hd) as Hr. unfold div_half_even.
  set (q := num / den) in *. set (r := num mod den) in *.
  destruct (Z.ltb_spec (2 * r) den), (Z.ltb_spec den (2 * r)); try lia.
  destruct (Z.even q) eqn:He; split; try nia; intros _; [done|].
  rewrite Z.add_1_r, Z.even_succ, <- Z.negb_even. by rewrite He.
Qed.

Lemma div_half_even_nonneg num den : 0 <= num -> 0 < den -> 0 <= div_half_even num den.
Proof.
  intros. pose proof (Z.div_pos num den ltac:(lia) ltac:(lia)). unfold div_half_even.
  repeat case_match; lia.
Qed.

Lemma div_half_even_exact k den : 0 < den -> div_half_even (k * den) den = k.
Proof.
  intros. unfold div_half_even. rewrite Z.div_mul, Z.mod_mul by lia.
  destruct (Z.ltb_spec (2 * 0) den); lia.
Qed.

Lemma div_half_up_spec num den :
  0 < den -> - den <= 2 * (num - div_half_up num den * den) < den.
Proof.
  intros. unfold div_half_up.
  pose proof (Z.div_mod (2 * num + den) (2 * den) ltac:(lia)).
  pose proof (Z.mod_pos_bound (2 * num + den) (2 * den) ltac:(lia)). lia.
Qed.

Lemma f64_lt_irrefl x : f64_lt x x = false.
Proof.
  unfold f64_lt, SFltb, SFcompare. destruct x as [[]|[]| |[] m e]; try done;
  rewrite Z.compare_refl, Pos.compare_cont_refl; done.
Qed.

Lemma div_half_even_mono a b den : 0 < den -> a <= b -> div_half_even a den <= div_half_even b den.
Proof.
  intros Hd Hab. destruct (decide (a = b)) as [->|Hne]; [done|].
  destruct (div_half_even_spec a den Hd) as [Ha _]. destruct (div_half_even_spec b den Hd) as [Hb _]. nia.
Qed.

Lemma f64_unit_pos n : 0 < f64_unit n.
Proof. unfold f64_unit. apply Z.pow_pos_nonneg; lia. Qed.
(** Rounding keeps a positive number between the powers of two around it. *)
Lemma f64_of_int_binade n : 0 < n ->
  2 ^ Z.log2 n <= f64_of_int n <= 2 ^ (Z.log2 n + 1).
Proof.
  intros Hn. unfold f64_of_int. rewrite Z.sgn_pos, Z.mul_1_l by done.
  pose proof (f64_unit_pos n) as Hu. destruct (Z.log2_spec n Hn) as [Hl Hh].
  rewrite Z.abs_eq by lia. unfold f64_unit in *. rewrite Z.abs_eq in * by lia.
  set (e := Z.max 0 (Z.log2 n - 52)) in *. set (q := div_half_even n (2 ^ e)).
  assert (forall k, e <= k -> exists c, 2 ^ k = c * 2 ^ e) as Hc.
  { intros k Hk. exists (2 ^ (k - e)). rewrite <-Z.pow_add_r by lia. f_equal. lia. }
  pose proof (Z.log2_nonneg n). destruct (Hc (Z.log2 n)) as [c1 E1]; [lia|].
  destruct (Hc (Z.log2 n + 1)) as [c2 E2]; [lia|]. rewrite Z.add_1_r in E2 |- *. rewrite E1, E2.
  split; apply Z.mul_le_mono_nonneg_r; try lia; unfold q.
  - rewrite <-(div_half_even_exact c1 (2 ^ e) Hu). apply div_half_even_mono; lia.
  - rewrite <-(div_half_even_exact c2 (2 ^ e) Hu). apply div_half_even_mono; lia.
Qed.
Lemma f64_of_int_mono a b : 0 <= a <= b -> f64_of_int a <= f64_of_int b.
Proof.
  intros [Ha Hab]. destruct (decide (a = 0)) as [->|Hne].
  { unfold f64_of_int at 1. cbn [Z.sgn]. destruct (decide (b = 0)) as [->|]; [done|].
    pose proof (f64_of_int_binade b ltac:(lia)) as [Hb _]. pose proof (Z.pow_nonneg 2 (Z.log2 b)). lia. }
  destruct (Z.eq_dec (Z.log2 a) (Z.log2 b)) as [E|Hl].
  - unfold f64_of_int, f64_unit. rewrite !Z.sgn_pos, !Z.abs_eq, E by lia.
    pose proof (Z.pow_pos_nonneg 2 (Z.max 0 (Z.log2 b - 52)) ltac:(lia) ltac:(lia)) as Hu.
    pose proof (div_half_even_mono a b _ Hu Hab). nia.
  - pose proof (Z.log2_le_mono a b Hab). pose proof (f64_of_int_binade a ltac:(lia)) as [_ H1].
    pose proof (f64_of_int_binade b ltac:(lia)) as [H2 _].
    pose proof (Z.pow_le_mono_r 2 (Z.log2 a + 1) (Z.log2 b)). lia.
Qed.
