(* ===== verification/RateRedis.v ===== *)
(** The rate limiter over Redis (src/internal/infrastructure/ratelimit/redis.go and
    src/internal/api/middleware/ratelimit.go): a sorted set of the times of the calls of
    a key, and the policy for the time Redis is out. *)
From S2P Require Export Redis RateLimit GoStrings GoFloat.
From stdpp Require Import options.
#[local] Set Default Proof Using "Type*".
Open Scope Z_scope.
Local Open Scope go_scope.

Module ratelimitredis.
Import redis ratelimit.memory.

(** A request acts on Redis and on the limiter of its process. *)
Inductive rateE : Type -> Type :=
  | Redis {X : Type} (e : redisE X) : rateE X
  | InMemory_Check (key : string) (maxRequests : Z) (window : duration) : rateE verdict.
Abbreviation rate := (prog rateE).
Record rworld := { rt_redis : world; rt_memory : gmap string (list time) }.
Definition perform_rate (X : Type) (e : rateE X) : M rworld X :=
  match e in rateE X return M rworld X with
  | Redis e => λ w,
      let '(r, rw) := perform _ e (rt_redis w) in (r, {| rt_redis := rw; rt_memory := rt_memory w |})
  | InMemory_Check key maxRequests window => λ w,
      let '(v, l) := Check_ (rw_now (rt_redis w)) key maxRequests window (rt_memory w) in
      (Ok v, {| rt_redis := rt_redis w; rt_memory := l |})
  end.
Definition cmd_ {X} (c : cmd X) : rate X := act (Redis (Cmd c)).
Definition time_Now : rate time := act (Redis Now).

Definition errRedisUnavailable := Sentinel "rate limiter: Redis unavailable".
Definition limiter_key (key : string) : string := "ratelimit:" ++ key.

(** The pipeline of a check: its commands are sent one after the other, and its error
    is the first of theirs.  The answer is the size of the set. *)
Definition pipeline (redisKey : string) (now : Z) (window : duration) : rate (Z + error) :=
  let windowStart := wrap64 (now - window) in
  ptry (cmd_ (ZREMRANGEBYSCORE redisKey (f64_of_int windowStart))) (λ r1,
  ptry (cmd_ (ZADD redisKey (f64_of_int now) (fmt_d now))) (λ r2,
  ptry (cmd_ (ZCARD redisKey)) (λ r3,
  ptry (cmd_ (EXPIRE redisKey window)) (λ r4,
    pret match r1, r2, r3, r4 with
         | inr err, _, _, _ | _, inr err, _, _ | _, _, inr err, _ | _, _, _, inr err => inr err
         | inl _, inl _, inl count, inl _ => inl count
         end)))).
Definition sliding (failed : error -> error) (key : string) (limit : Z) (window : duration) :
    rate (bool * Z * duration) :=
  let redisKey := limiter_key key in
  let* now := time_Now in
  let* results := pipeline redisKey (time_UnixNano now) window in
  match results with
  | inr err => pfail (failed err)
  | inl count =>
      if limit <? count then
        ptry (cmd_ (TTL redisKey)) (λ r,
          pret (false, 0, match r with
                          | inl ttl => if ttl <? 0 then window else ttl
                          | inr _ => window
                          end))
      else pret (true, wrap64 (limit - count), window)
  end.

Definition slidingWindowRedis : string -> Z -> duration -> rate (bool * Z * duration) :=
  sliding (Wrapf "checking sliding window rate limit: %w").
Definition Check_redis (key : string) (maxRequests : Z) (window : duration) : rate (bool * duration) :=
  let* r := slidingWindowRedis key maxRequests window in pret (r.1.1, r.2).
Definition Reset_ (key : string) : rate unit :=
  pwrap "resetting rate limit: %w" (cmd_ (DEL [limiter_key key])).
Definition checkLimitWithWindow : string -> Z -> duration -> rate (bool * Z * duration) :=
  sliding (λ _, errRedisUnavailable).

(** ** The middleware *)
Record RateLimitConfig := { Global : Z; Authenticated : Z; Auth : Z; FailClosed : bool }.
Definition zero_config : RateLimitConfig := {| Global := 0; Authenticated := 0; Auth := 0; FailClosed := false |}.
Inductive rateLimitPolicy := policyDefault | policyFailClosed | policyFailOpen.
Record rateLimitOptions := { policy : rateLimitPolicy; limits : option RateLimitConfig }.
Abbreviation RateLimitOption := (rateLimitOptions -> rateLimitOptions) (only parsing).
Definition WithFailClosed : RateLimitOption := λ o, {| policy := policyFailClosed; limits := limits o |}.
Definition WithFailOpen : RateLimitOption := λ o, {| policy := policyFailOpen; limits := limits o |}.
(** The limits in force when the request arrives. *)
Definition WithLiveLimits (live : RateLimitConfig) : RateLimitOption :=
  λ o, {| policy := policy o; limits := Some live |}.
Definition options_of (opts : list (rateLimitOptions -> rateLimitOptions)) : rateLimitOptions :=
  fold_left (λ o opt, opt o) opts {| policy := policyDefault; limits := None |}.
Definition currentLimits (cfg : RateLimitConfig) (opts : list (rateLimitOptions -> rateLimitOptions)) : RateLimitConfig :=
  match limits (options_of opts) with Some l => l | None => cfg end.
Definition resolveFailClosed (cfg : RateLimitConfig) (opts : list (rateLimitOptions -> rateLimitOptions)) : bool :=
  match policy (options_of opts) with
  | policyFailClosed => true
  | policyFailOpen => false
  | policyDefault => FailClosed cfg
  end.

(** What the middleware answers with its headers: the request goes on, or the status
    of the refusal and the seconds after which to try again. *)
Record headers := { h_Limit : Z; h_Remaining : Z; h_Reset : Z }.
Inductive outcome := Next (h : headers) | Refused (status retryAfter : Z) (h : headers).
Definition passes (o : outcome) : bool := match o with Next _ => true | _ => false end.
Definition setRateLimitHeaders (limit remaining : Z) (ttl : duration) : rate headers :=
  let* now := time_Now in
  pret {| h_Limit := limit; h_Remaining := remaining; h_Reset := time_Unix (time_Add now ttl) |}.
Definition enforceRateLimit (key : string) (limit : Z) (window : duration) (failClosed : bool) : rate outcome :=
  let answer (allowed : bool) (remaining : Z) (ttl : duration) :=
    let* h := setRateLimitHeaders limit remaining ttl in
    pret (if allowed then Next h else Refused 429 (Z.quot ttl second) h) in
  ptry (checkLimitWithWindow key limit window) (λ r,
    match r with
    | inl (allowed, remaining, ttl) => answer allowed remaining ttl
    | inr _ =>
        if failClosed then
          let* h := setRateLimitHeaders limit 0 window in
          pret (Refused 503 (Z.quot window second) h)
        else
          let* v := act (InMemory_Check key limit window) in
          answer (v_allowed v) (v_remaining v) (v_ttl v)
    end).

Definition minute : duration := 60 * second.
Definition RateLimitMiddleware (cfg : RateLimitConfig) (opts : list (rateLimitOptions -> rateLimitOptions))
    (clientIP : string) (userID : option string) : rate outcome :=
  let live := currentLimits cfg opts in
  let '(key, limit) := match userID with
                       | Some u => (("ratelimit:u:" ++ u)%string, Authenticated live)
                       | None => (("ratelimit:g:" ++ clientIP)%string, Global live)
                       end in
  enforceRateLimit key limit minute (resolveFailClosed cfg opts).
Definition AuthRateLimitMiddleware (cfg : RateLimitConfig) (opts : list (rateLimitOptions -> rateLimitOptions))
    (clientIP : string) : rate outcome :=
  enforceRateLimit ("ratelimit:a:" ++ clientIP)%string (Auth (currentLimits cfg opts)) minute
    (resolveFailClosed cfg (opts ++ [WithFailClosed])).
Definition PerResourceRateLimitMiddleware (resource : string) (limit : Z) (window : duration)
    (opts : list (rateLimitOptions -> rateLimitOptions)) (clientIP : string) : rate outcome :=
  enforceRateLimit ("ratelimit:r:" ++ resource ++ ":" ++ clientIP)%string limit window
    (resolveFailClosed zero_config opts).
Definition perResource (resource : string) (limit windowSeconds : Z) (clientIP : string) : rate outcome :=
  PerResourceRateLimitMiddleware resource limit (wrap64 (windowSeconds * second)) [WithFailClosed] clientIP.

(** The address and then the account, when the request names one. *)
Definition PasswordResetRateLimitMiddleware (ipLimit accountLimit windowSeconds : Z) (clientIP email account : string) :
    rate outcome :=
  let window := if windowSeconds <=? 0 then 15 * 60 * second else wrap64 (windowSeconds * second) in
  let ipLimit := if ipLimit <=? 0 then 5 else ipLimit in
  let accountLimit := if accountLimit <=? 0 then 3 else accountLimit in
  let* o := enforceRateLimit ("pwreset:ip:" ++ clientIP)%string ipLimit window true in
  if negb (passes o) then pret o
  else
    let account := if decide (email = "")%string then account else email in
    if decide (account = "")%string then pret o
    else enforceRateLimit ("pwreset:account:" ++ account)%string accountLimit window true.

(** ** Proofs *)
Definition calm (w : rworld) : Prop := rw_net (rt_redis w) = [].
Abbreviation keys w := (rw_keys (rt_redis w)) (only parsing).
Abbreviation clock w := (rw_now (rt_redis w)) (only parsing).
Definition with_redis (w : rworld) (ks : gmap string entry) : rworld :=
  {| rt_redis := with_keys ks (rt_redis w); rt_memory := rt_memory w |}.
Lemma rate_wp_cmd {X} (c : cmd X) w (Q : result X -> rworld -> Prop) : calm w ->
  Q (exec (clock w) c (keys w)).1 (with_redis w (exec (clock w) c (keys w)).2) ->
  wp (run perform_rate (cmd_ c)) w Q.
Proof.
  unfold calm, wp. intros Hn HQ. cbn. unfold on_server, arrive. rewrite Hn.
  by destruct (exec (clock w) c (keys w)).
Qed.
Lemma rate_wp_now w (Q : result time -> rworld -> Prop) : Q (Ok (clock w)) w -> wp (run perform_rate time_Now) w Q.
Proof. by destruct w as [[]]. Qed.

(** *** One check on a server that answers *)
Lemma as_zset_put now k z ks e : as_zset now k (<[k := {| e_val := RZset z; e_exp := e |}]> ks) =
  if alive now {| e_val := RZset z; e_exp := e |} then Ok z else Ok ∅.
Proof. unfold as_zset. rewrite view_insert_eq. by destruct (alive _ _). Qed.
Lemma put_alive now k z ks : exists e, put now k (RZset z) ks = <[k := {| e_val := RZset z; e_exp := e |}]> ks /\
  alive now {| e_val := RZset z; e_exp := e |} = true.
Proof.
  unfold put. eexists. split; [done|]. unfold view, alive. cbn.
  destruct (ks !! k) as [[v [t|]]|]; cbn; [|done..]. destruct (now <? t) eqn:E; cbn; by rewrite ?E.
Qed.
Lemma put_zset_alive now k z ks : z <> ∅ -> exists e,
  put_zset now k z ks = <[k := {| e_val := RZset z; e_exp := e |}]> ks /\ alive now {| e_val := RZset z; e_exp := e |} = true.
Proof. intros Hz. unfold put_zset. rewrite decide_False by done. apply put_alive. Qed.
Lemma as_zset_put_zset now k z ks : as_zset now k (put_zset now k z ks) = Ok z.
Proof.
  unfold put_zset. case_decide as Hz.
  - subst. unfold as_zset. by rewrite view_delete_eq.
  - destruct (put_alive now k z ks) as (e & -> & He). by rewrite as_zset_put, He.
Qed.
Lemma put_zset_ne now k k' z ks : k <> k' -> put_zset now k z ks !! k' = ks !! k'.
Proof. intros Hn. unfold put_zset, put. case_decide; by rewrite ?lookup_delete_ne, ?lookup_insert_ne by done. Qed.

(** The set after a check at [now], given the set before it. *)
Definition checked (now : Z) (window : duration) (z : gmap string Z) : gmap string Z :=
  <[fmt_d now := f64_of_int now]> (filter (λ me, f64_of_int (wrap64 (now - window)) < me.2) z).
Lemma pipeline_run k now window w z : calm w -> as_zset (clock w) k (keys w) = Ok z -> 0 < ex window ->
  wp (run perform_rate (pipeline k now window)) w (λ r w', calm w' /\ clock w' = clock w /\
    r = Ok (inl (Z.of_nat (size (checked now window z)))) /\
    keys w' !! k = Some {| e_val := RZset (checked now window z); e_exp := Some (clock w + ex window) |} /\
    forall k', k' <> k -> keys w' !! k' = keys w !! k').
Proof.
  intros Hn Hz Hw. unfold pipeline.
  apply wp_ptry, rate_wp_cmd; [done|]. cbn [exec]. rewrite Hz. cbn [update fst snd].
  apply wp_ptry, rate_wp_cmd; [done|]. cbn [exec with_redis rt_redis with_keys rw_keys rw_now]. rewrite as_zset_put_zset. cbn [update fst snd].
  apply wp_ptry, rate_wp_cmd; [done|]. cbn [exec with_redis rt_redis with_keys rw_keys rw_now fst snd].
  rewrite as_zset_put_zset. cbn [result_map]. fold (checked now window z).
  apply wp_ptry, rate_wp_cmd; [done|]. cbn [exec with_redis rt_redis with_keys rw_keys rw_now].
  match goal with |- context [put_zset ?n ?k (checked now window z) ?ks] =>
    destruct (put_zset_alive n k (checked now window z) ks (insert_non_empty _ _ _)) as (e & -> & He) end. unfold view. rewrite lookup_insert_eq, He. cbn [fst snd].
  destruct (Z.leb_spec (ex window) 0); [lia|]. split; [done|]. split; [done|]. split; [done|].
  cbn. split; [by rewrite lookup_insert_eq|]. intros k' Hk'. rewrite !lookup_insert_ne by done. by apply put_zset_ne.
Qed.

(** *** Calls one after the other *)
Section exact.
Variables (limits : string -> Z * duration).
(** Windows of whole seconds; times between 1970 and 2262. *)
Hypothesis windows : forall key, second <= (limits key).2 /\ (limits key).2 mod second = 0.
Definition epoch : time := unix_epoch * second.
Definition sane (key : string) (t : time) : Prop := (limits key).2 <= t - epoch <= int64_max.

Definition at_time (t : time) (w : rworld) : rworld :=
  {| rt_redis := {| rw_now := t; rw_keys := keys w; rw_net := rw_net (rt_redis w); rw_rand := rw_rand (rt_redis w) |};
     rt_memory := rt_memory w |}.
Definition allows {A} (r : result (bool * Z * A)) : bool := match r with Ok (b, _, _) => b | _ => false end.
Definition redis_call (c : time * string) : M rworld (bool * Z * duration) := λ w,
  run perform_rate (slidingWindowRedis c.2 (limits c.2).1 (limits c.2).2) (at_time c.1 w).
Fixpoint run_calls (calls : list (time * string)) (log : list (time * string * bool)) (w : rworld) :
    list (time * string * bool) * rworld :=
  match calls with
  | [] => (log, w)
  | c :: calls => let '(r, w) := redis_call c w in run_calls calls ((c, allows r) :: log) w
  end.
(** The times of all the calls of a key, refused ones included. *)
Definition attempts (key : string) (log : list (time * string * bool)) : list time :=
  (λ e, e.1.1) <$> filter (λ e : time * string * bool, e.1.2 = key) log.
(** A time as a score, which is a [float64]. *)
Definition score (t : time) : Z := f64_of_int (t - epoch).
Definition scored_after (c : Z) (ts : list time) : list time := filter (λ t, c < score t) ts.

Lemma attempts_cons c b key log :
  attempts key ((c, b) :: log) = (if decide (c.2 = key) then [c.1] else []) ++ attempts key log.
Proof. unfold attempts. rewrite filter_cons. cbn. by case_decide. Qed.
Lemma admitted_attempts P Q `{!forall t, Decision (P t)} `{!forall t, Decision (Q t)} key log :
  (forall t, P t -> Q t) -> (length (filter P (admitted key log)) <= length (filter Q (attempts key log)))%nat.
Proof.
  intros HPQ. induction log as [|[[t k] b] log IH]; [done|].
  rewrite admitted_cons, attempts_cons. cbn [fst snd].
  destruct (decide (k = key /\ b = true)) as [[-> ->]|Hk].
  2: destruct (decide (k = key)); [|done].
  all: cbn [app].
  - rewrite decide_True by done. cbn [app]. rewrite !filter_cons. destruct (decide (P t)), (decide (Q t)); cbn; try lia. exfalso. auto.
  - rewrite filter_cons. destruct (decide (Q t)); cbn; lia.
Qed.

Definition stamps (ts : list time) : gmap string Z := list_to_map ((λ t, (fmt_d (t - epoch), score t)) <$> ts).
Definition late (c : Z) (z : gmap string Z) : gmap string Z := filter (λ me, c < me.2) z.

Lemma stamp_inj s t : 0 <= s - epoch -> 0 <= t - epoch -> fmt_d (s - epoch) = fmt_d (t - epoch) -> s = t.
Proof. intros Hs Ht E. apply fmt_d_inj in E; lia. Qed.
Lemma stamps_lookup ts m s : Forall (λ t, 0 <= t - epoch) ts ->
  stamps ts !! m = Some s <-> exists t, t ∈ ts /\ m = fmt_d (t - epoch) /\ s = score t.
Proof.
  intros Hts. unfold stamps. induction Hts as [|t ts Ht Hts IH]; cbn.
  { rewrite lookup_empty. split; [done|]. intros (t & Ht & _). by apply not_elem_of_nil in Ht. }
  rewrite lookup_insert_Some, IH. split.
  - intros [[<- <-]|[Hne (t' & Ht' & -> & ->)]]; [exists t|exists t']; rewrite elem_of_cons; auto.
  - intros (t' & [->|Ht']%elem_of_cons & -> & ->); [by left|].
    destruct (decide (t = t')) as [->|Hne]; [by left|]. right. split; [|by exists t'].
    intros E. apply Hne. eapply stamp_inj; [done| |exact E]. by eapply (proj1 (Forall_forall _ _) Hts).
Qed.
Lemma size_late c ts : Forall (λ t, 0 <= t - epoch) ts -> NoDup ts ->
  size (late c (stamps ts)) = length (scored_after c ts).
Proof.
  intros Hts Hnd. induction Hnd as [|t ts Hn Hnd IH]; [done|].
  apply Forall_cons in Hts as [Ht Hts]. specialize (IH Hts).
  change (stamps (t :: ts)) with (<[fmt_d (t - epoch) := score t]> (stamps ts)).
  unfold late, scored_after in *. rewrite filter_cons.
  assert (stamps ts !! fmt_d (t - epoch) = None) as Hnone.
  { destruct (stamps ts !! fmt_d (t - epoch)) as [s|] eqn:E; [|done].
    apply stamps_lookup in E as (t' & Ht' & E & _); [|done]. apply stamp_inj in E as <-; [done..|].
    by eapply (proj1 (Forall_forall _ _) Hts). }
  destruct (decide (c < score t)).
  - rewrite map_filter_insert_True by done. cbn. rewrite map_size_insert_None, IH; [done|].
    by rewrite map_lookup_filter_None; left.
  - rewrite map_filter_insert_False, delete_id by done. by rewrite IH.
Qed.

(** The set of a key is its attempts, but for those no later call looks at. *)
Definition cutoff (key : string) (t : time) : Z := score (t - (limits key).2).
Record tracks (T : time) (log : list (time * string * bool)) (w : rworld) : Prop := {
  tr_calm : calm w;
  tr_times key : Forall (λ t, 0 <= t - epoch /\ t <= T) (attempts key log);
  tr_nodup key : NoDup (attempts key log);
  tr_set key t : T <= t -> sane key t -> exists z, as_zset t (limiter_key key) (keys w) = Ok z /\
    late (cutoff key t) z = late (cutoff key t) (stamps (attempts key log));
  tr_bound key a : 0 <= a - epoch ->
    Z.of_nat (length (filter (λ t, score a < score t /\ t <= a + (limits key).2) (admitted key log)))
      <= Z.max 0 (limits key).1;
}.

Lemma score_mono s t : 0 <= s - epoch -> s <= t -> score s <= score t.
Proof. intros. apply f64_of_int_mono. lia. Qed.
Lemma second_pos : 0 < second.
Proof. done. Qed.
Lemma window_pos key : 0 < (limits key).2.
Proof. pose proof (windows key). pose proof second_pos. lia. Qed.
Lemma cutoff_mono key s t : sane key s -> s <= t -> cutoff key s <= cutoff key t.
Proof. intros [? ?] ?. apply score_mono; lia. Qed.
Lemma UnixNano_sane key t : sane key t -> time_UnixNano t = t - epoch.
Proof.
  intros [? ?]. pose proof (window_pos key). unfold time_UnixNano. apply wrap64_id. rewrite in_int64_spec.
  unfold int64_min, int64_max, epoch in *. lia.
Qed.
Lemma start_sane key t : sane key t -> wrap64 (t - epoch - (limits key).2) = t - (limits key).2 - epoch.
Proof.
  intros [? ?]. pose proof (window_pos key). rewrite wrap64_id; [lia|]. rewrite in_int64_spec.
  unfold int64_min, int64_max in *. lia.
Qed.
Lemma ex_window key : ex (limits key).2 = (limits key).2.
Proof.
  destruct (windows key) as [Hs Hm]. pose proof second_pos. unfold ex.
  destruct (Z.ltb_spec (limits key).2 second); [lia|]. rewrite andb_false_r.
  rewrite Z.quot_div_nonneg by lia. pose proof (Z.div_mod (limits key).2 second). lia.
Qed.
Lemma attempts_fresh T log w key t : tracks T log w -> T < t -> t ∉ attempts key log.
Proof. intros Ht Hlt Hin. eapply (proj1 (Forall_forall _ _) (tr_times _ _ _ Ht key)) in Hin. lia. Qed.
Lemma attempts_epoch T log w key : tracks T log w -> Forall (λ t, 0 <= t - epoch) (attempts key log).
Proof. intros Ht. eapply Forall_impl; [exact (tr_times _ _ _ Ht key)|]. cbn. tauto. Qed.

Definition counted (key : string) (t : time) (log : list (time * string * bool)) : Z :=
  Z.of_nat (length (scored_after (cutoff key t) (attempts key log))) + 1.
(** The set of [key] after a call at [t]. *)
Definition after_call (key : string) (t : time) (log : list (time * string * bool)) : gmap string Z :=
  <[fmt_d (t - epoch) := score t]> (late (cutoff key t) (stamps (attempts key log))).
Lemma after_call_size T log w key t : tracks T log w -> T < t -> sane key t ->
  Z.of_nat (size (after_call key t log)) = counted key t log.
Proof.
  intros Ht Hlt Hs. pose proof (attempts_epoch _ _ _ key Ht) as He. pose proof (window_pos key).
  unfold after_call, counted. rewrite map_size_insert_None.
  { rewrite size_late; [lia|done|exact (tr_nodup _ _ _ Ht key)]. }
  apply map_lookup_filter_None. left. apply eq_None_not_Some. intros [s E].
  apply stamps_lookup in E as (t' & Ht' & E & _); [|done]. destruct Hs.
  assert (t' = t) as ->; [|by eapply attempts_fresh in Ht'].
  symmetry. eapply stamp_inj; [lia| |exact E]. by eapply (proj1 (Forall_forall _ _) He).
Qed.
Lemma call_run T log w key t : tracks T log w -> T < t -> sane key t ->
  wp (redis_call (t, key)) w (λ r w', calm w' /\
    (allows r = (counted key t log <=? (limits key).1)) /\
    keys w' !! limiter_key key = Some {| e_val := RZset (after_call key t log); e_exp := Some (t + (limits key).2) |} /\
    forall k, k <> limiter_key key -> keys w' !! k = keys w !! k).
Proof.
  intros Ht Hlt Hs. destruct (tr_set _ _ _ Ht key t) as (z & Hz & Hl); [lia|done|].
  match goal with |- wp _ _ ?Q =>
    change (wp (run perform_rate (slidingWindowRedis key (limits key).1 (limits key).2)) (at_time t w) Q) end.
  unfold slidingWindowRedis, sliding. set (w1 := at_time t w). assert (calm w1) as Hc by exact (tr_calm _ _ _ Ht).
  apply wp_pbind, rate_wp_now. cbn [w1 at_time rt_redis rw_now]. fold w1. rewrite (UnixNano_sane key) by done.
  apply wp_pbind. eapply wp_mono; [apply (pipeline_run _ _ _ w1 z Hc Hz); rewrite ex_window; apply window_pos|].
  intros r w' (Hc' & Hk & -> & Hset & Hother). cbn beta iota.
  assert (checked (t - epoch) (limits key).2 z = after_call key t log) as Hch.
  { unfold checked, after_call. rewrite start_sane by done. fold (score (t - (limits key).2)).
    fold (cutoff key t). by rewrite <-Hl. }
  rewrite Hch in Hset |- *. rewrite (after_call_size T log w) by done. rewrite ex_window in Hset.
  destruct (Z.ltb_spec (limits key).1 (counted key t log)) as [Hgt|Hle].
  - apply wp_ptry, rate_wp_cmd; [done|]. cbn [exec fst snd]. split; [exact Hc'|].
    split; [symmetry; apply Z.leb_gt; lia|]. split; [exact Hset|]. intros k Hne. by apply Hother.
  - split; [exact Hc'|]. split; [symmetry; apply Z.leb_le; lia|]. split; [exact Hset|]. intros k Hne. by apply Hother.
Qed.

Lemma late_late c c' z : c <= c' -> late c' (late c z) = late c' z.
Proof.
  intros Hc. apply map_eq. intros m. apply option_eq. intros s. unfold late.
  rewrite !map_lookup_filter_Some. cbn. split; [tauto|]. intros [? ?]. repeat split; [done|lia|done].
Qed.
Lemma late_insert c m s z z' : late c z = late c z' -> late c (<[m := s]> z) = late c (<[m := s]> z').
Proof.
  unfold late. intros E. apply map_eq. intros i. apply (f_equal (lookup i)) in E. apply option_eq. intros x.
  pose proof (f_equal (λ o, o = Some x) E) as E'. cbn in E'.
  assert (filter (λ me : string * Z, c < me.2) z !! i = Some x <-> filter (λ me : string * Z, c < me.2) z' !! i = Some x) as Ei
    by (by rewrite E). rewrite !map_lookup_filter_Some in *. rewrite !lookup_insert_Some. tauto.
Qed.
Lemma late_stamps_none key t ts : sane key t -> Forall (λ s, 0 <= s - epoch /\ s <= t - (limits key).2) ts ->
  late (cutoff key t) (stamps ts) = ∅.
Proof.
  intros Hs Hts. apply map_empty. intros m. apply map_lookup_filter_None. right. intros s E. cbn.
  apply stamps_lookup in E as (t' & Ht' & _ & ->); [|eapply Forall_impl; [exact Hts|]; cbn; tauto].
  pose proof (proj1 (Forall_forall _ _) Hts t' Ht') as [H0' H1']. pose proof (score_mono t' (t - (limits key).2) H0' H1').
  unfold cutoff. lia.
Qed.
Lemma attempts_other c b key log : c.2 <> key -> attempts key ((c, b) :: log) = attempts key log.
Proof. intros Hn. rewrite attempts_cons, decide_False by done. done. Qed.
Lemma attempts_same t b key log : attempts key (((t, key), b) :: log) = t :: attempts key log.
Proof. rewrite attempts_cons. cbn [fst snd]. by rewrite decide_True. Qed.

Lemma set_after_call T log w key t t' b : tracks T log w -> T < t -> sane key t -> t <= t' -> sane key t' ->
  forall ks, ks !! limiter_key key = Some {| e_val := RZset (after_call key t log); e_exp := Some (t + (limits key).2) |} ->
  exists z, as_zset t' (limiter_key key) ks = Ok z /\
    late (cutoff key t') z = late (cutoff key t') (stamps (attempts key (((t, key), b) :: log))).
Proof.
  intros Ht Hlt Hs Hle Hs' ks Hk. rewrite attempts_same. set (S := stamps (t :: attempts key log)).
  unfold as_zset, view, alive. rewrite Hk. cbn [e_exp e_val].
  destruct (Z.ltb_spec t' (t + (limits key).2)) as [Hal|Hdead]; eexists; split; [done| |done|].
  - change S with (<[fmt_d (t - epoch) := score t]> (stamps (attempts key log))).
    unfold after_call. apply late_insert, late_late. by apply cutoff_mono.
  - unfold S. rewrite late_stamps_none; [by unfold late; rewrite map_filter_empty|done|]. destruct Hs. pose proof (window_pos key).
    constructor; [lia|]. eapply Forall_impl; [exact (tr_times _ _ _ Ht key)|]. cbn. lia.
Qed.

Lemma admitted_bound T log w key t : tracks T log w -> T < t -> sane key t ->
  forall a, 0 <= a - epoch ->
  Z.of_nat (length (filter (λ t, score a < score t /\ t <= a + (limits key).2)
    (admitted key (((t, key), counted key t log <=? (limits key).1) :: log)))) <= Z.max 0 (limits key).1.
Proof.
  intros Ht Hlt Hs a Ha. rewrite admitted_cons. cbn [fst snd]. pose proof (tr_bound _ _ _ Ht key a Ha) as IH.
  destruct (Z.leb_spec (counted key t log) (limits key).1) as [Hle|]; cbn; [|by rewrite decide_False by (by intros [])].
  rewrite decide_True by done. cbn [app]. rewrite filter_cons.
  destruct (decide (score a < score t /\ t <= a + (limits key).2)) as [[_ Hta]|]; [|done]. cbn [length].
  assert (cutoff key t <= score a) as Hca by (destruct Hs; apply score_mono; lia).
  pose proof (admitted_attempts (λ t, score a < score t /\ t <= a + (limits key).2) (λ s, cutoff key t < score s) key log
    ltac:(intros s [? _]; lia)) as Hsub. unfold counted, scored_after in Hle. lia.
Qed.

Lemma call_tracks T log w key t : tracks T log w -> T < t -> sane key t ->
  let '(r, w') := redis_call (t, key) w in
  allows r = (counted key t log <=? (limits key).1) /\ tracks t (((t, key), allows r) :: log) w'.
Proof.
  intros Ht Hlt Hs. pose proof (call_run T log w key t Ht Hlt Hs) as Hrun. unfold wp in Hrun.
  destruct (redis_call (t, key) w) as [r w']. destruct Hrun as (Hc & Hr & Hset & Hother). cbn [fst snd] in *.
  split; [done|]. rewrite Hr. destruct Hs as [Hs1 Hs2]. pose proof (window_pos key) as Hw. split; [done|..].
  - intros k. destruct (decide (key = k)) as [<-|Hne].
    + rewrite attempts_same. constructor; [lia|]. eapply Forall_impl; [exact (tr_times _ _ _ Ht key)|]. cbn. lia.
    + rewrite attempts_other by done. eapply Forall_impl; [exact (tr_times _ _ _ Ht k)|]. cbn. lia.
  - intros k. destruct (decide (key = k)) as [<-|Hne].
    + rewrite attempts_same. constructor; [by eapply attempts_fresh|exact (tr_nodup _ _ _ Ht key)].
    + rewrite attempts_other by done. exact (tr_nodup _ _ _ Ht k).
  - intros k t' Hle Hs'. destruct (decide (key = k)) as [<-|Hne].
    + by eapply set_after_call.
    + rewrite attempts_other by done. destruct (tr_set _ _ _ Ht k t' ltac:(lia) Hs') as (z & Hz & Hl). exists z. split; [|done].
      rewrite <-Hz. unfold as_zset, view. rewrite Hother; [done|]. intros E. by apply (inj (String.append "ratelimit:")) in E.
  - intros k a Ha. destruct (decide (key = k)) as [<-|Hne]; [by eapply admitted_bound|].
    rewrite admitted_cons, decide_False by (by intros [? _]). exact (tr_bound _ _ _ Ht k a Ha).
Qed.

Lemma calls_track calls T log w now : tracks T log w ->
  StronglySorted Z.lt (T :: calls.*1 ++ [now]) -> Forall (λ c, sane c.2 c.1) calls ->
  exists T', T' < now /\ tracks T' (run_calls calls log w).1 (run_calls calls log w).2.
Proof.
  revert T log w. induction calls as [|[t key] calls IH]; intros T log w Ht Hs Hc.
  { exists T. split; [|done]. apply StronglySorted_inv in Hs as [_ Hs]. by apply Forall_cons in Hs as [? _]. }
  apply Forall_cons in Hc as [Hk Hc]. apply StronglySorted_inv in Hs as [Hs Hlt]. apply Forall_cons in Hlt as [Hlt _].
  cbn in Hlt. cbn [run_calls]. pose proof (call_tracks T log w key t Ht Hlt Hk) as Hstep.
  destruct (redis_call (t, key) w) as [r w']. destruct Hstep as [_ Ht']. by eapply IH.
Qed.
Lemma tracks_start w T : calm w -> keys w = ∅ -> tracks T [] w.
Proof.
  intros Hc Hk. split; [done|constructor|constructor| |].
  - intros key t _ _. exists ∅. rewrite Hk. done.
  - intros key a _. cbn. lia.
Qed.

(** C26: Over a server that answers every command, for calls made one after the other at
    increasing nanoseconds with windows of whole seconds: the limiter counts every
    attempt, refused ones too, so the next call is let through exactly when it and the
    attempts of its key in the window before it are at most the limit; hence no stretch
    of time as long as the window holds more admitted calls than the limit.  Times are
    compared as the server compares them, by scores rounded to [float64]. *)
Theorem redis_limiter_counts_attempts calls w key now : calm w -> keys w = ∅ ->
  StronglySorted Z.lt (calls.*1 ++ [now]) -> Forall (λ c, sane c.2 c.1) calls -> sane key now ->
  let '(log, w') := run_calls calls [] w in
  allows (redis_call (now, key) w').1 =
    bool_decide (Z.of_nat (length (scored_after (score (now - (limits key).2)) (attempts key log))) + 1 <= (limits key).1) /\
  forall k a, 0 <= a - epoch ->
    Z.of_nat (length (filter (λ t, score a < score t /\ t <= a + (limits k).2) (admitted k log))) <= Z.max 0 (limits k).1.
Proof.
  intros Hc Hk Hs Hsane Hnow.
  set (T0 := match calls with [] => now - 1 | c :: _ => c.1 - 1 end).
  assert (StronglySorted Z.lt (T0 :: calls.*1 ++ [now])) as Hs'.
  { constructor; [done|]. unfold T0. destruct calls as [|c calls]; cbn in *; [constructor; [lia|constructor]|].
    apply StronglySorted_inv in Hs as [_ Hs]. constructor; [lia|]. eapply Forall_impl; [exact Hs|]. cbn. lia. }
  destruct (calls_track calls T0 [] w now (tracks_start w T0 Hc Hk) Hs' Hsane) as (T & HT & Ht).
  destruct (run_calls calls [] w) as [log w']. cbn in Ht. split.
  - pose proof (call_tracks T log w' key now Ht HT Hnow) as Hstep. destruct (redis_call (now, key) w') as [r w''].
    destruct Hstep as [Hr _]. change (allows (r, w'').1) with (allows r). rewrite Hr. unfold counted, cutoff.
    case_bool_decide; [by apply Z.leb_le|apply Z.leb_gt; lia].
  - intros k a Ha. exact (tr_bound _ _ _ Ht k a Ha).
Qed.
End exact.

(** A minute of two calls: the third is refused, and since refused calls count, a
    caller that goes on trying every twenty seconds is refused for ever. *)
Definition start_world : rworld :=
  {| rt_redis := {| rw_now := 0; rw_keys := ∅; rw_net := []; rw_rand := [] |}; rt_memory := ∅ |}.
Definition day0 : time := epoch + 3600 * second.
Definition every_twenty (n : nat) : list (time * string) :=
  (λ i, (day0 + Z.of_nat i * 20 * second, "a"%string)) <$> seq 0 n.
Definition two_limits (key : string) : Z * duration := (2, 60 * second).
Lemma two_windows key : second <= (two_limits key).2 /\ (two_limits key).2 mod second = 0.
Proof. by split; vm_compute. Qed.

Lemma redis_limiter_counts_attempts_witness :
  allows (redis_call two_limits (day0 + 60 * second, "a"%string) (run_calls two_limits (every_twenty 3) [] start_world).2).1 = false /\
  forall a, 0 <= a - epoch ->
    Z.of_nat (length (filter (λ t, score a < score t /\ t <= a + 60 * second)
      (admitted "a" (run_calls two_limits (every_twenty 3) [] start_world).1))) <= 2.
Proof.
  assert (StronglySorted Z.lt ((every_twenty 3).*1 ++ [day0 + 60 * second])) as Hs.
  { cbn. repeat (constructor; [|repeat (constructor; unfold second; try lia)]). constructor. }
  assert (Forall (λ c, sane two_limits c.2 c.1) (every_twenty 3)) as Hc.
  { repeat constructor; vm_compute; discriminate. }
  pose proof (redis_limiter_counts_attempts two_limits two_windows (every_twenty 3) start_world "a"%string (day0 + 60 * second)
    eq_refl eq_refl Hs Hc ltac:(split; vm_compute; discriminate)) as Ht.
  split; [vm_compute; reflexivity|].
  destruct (run_calls two_limits (every_twenty 3) [] start_world) as [log w]. exact (proj2 Ht "a"%string).
Defined.

Lemma persistent_caller_starves :
  admitted "a" (run_calls two_limits (every_twenty 30) [] start_world).1 = [day0 + 20 * second; day0].
Proof. vm_compute. reflexivity. Qed.

(** A member of the set is the nanosecond of a call: two calls of the same nanosecond
    count as one, so three are let through where the limit is two. *)
Lemma same_instant_counts_once :
  admitted "a" (run_calls two_limits [(day0, "a"%string); (day0, "a"%string); (day0 + second, "a"%string)] [] start_world).1
    = [day0 + second; day0; day0].
Proof. vm_compute. reflexivity. Qed.

(** *** Redis out *)
Definition out (w : rworld) : Prop := exists d e net, rw_net (rt_redis w) = (d, Some (Lost e)) :: net.
Definition refusal (o : result outcome) : option Z := match o with Ok (Refused status _ _) => Some status | _ => None end.

Lemma pignored {X} (c : cmd X) (k : X + error -> rate (Z + error)) w (Q : result (Z + error) -> rworld -> Prop) :
  (forall x w', rt_memory w' = rt_memory w -> wp (run perform_rate (k x)) w' Q) ->
  wp (run perform_rate (ptry (cmd_ c) k)) w Q.
Proof.
  intros Hk. apply wp_ptry. unfold wp at 1. cbn. pose proof (perform_no_panic (Cmd c) (rt_redis w)) as Hp. cbn in Hp.
  destruct (on_server _ (rt_redis w)) as [[x|e|] rw]; cbn in *; [by apply Hk..|done].
Qed.
Lemma wp_lost {X} (c : cmd X) w (Q : result X -> rworld -> Prop) : out w ->
  (forall e w', rt_memory w' = rt_memory w -> Q (Err e) w') -> wp (run perform_rate (cmd_ c)) w Q.
Proof. intros (d & e & net & Hn) HQ. unfold wp. cbn. unfold on_server, arrive. rewrite Hn. by apply HQ. Qed.
Lemma out_fails key limit window w : out w ->
  wp (run perform_rate (checkLimitWithWindow key limit window)) w
    (λ r w', r = Err errRedisUnavailable /\ rt_memory w' = rt_memory w).
Proof.
  intros Hout. unfold checkLimitWithWindow, sliding. apply wp_pbind, rate_wp_now, wp_pbind.
  unfold pipeline. apply wp_ptry, wp_lost; [done|]. intros err w1 E1. cbn beta iota.
  apply (pignored (ZADD _ _ _)). intros r2 w2 E2. apply (pignored (ZCARD _)). intros r3 w3 E3.
  apply (pignored (EXPIRE _ _)). intros r4 w4 E4. split; [done|]. cbn. by rewrite E4, E3, E2.
Qed.

(** The routes the router limits, their buckets, and which refuse while Redis is out. *)
Inductive route :=
  | OnGlobal (clientIP : string) (userID : option string)
  | OnAuth (clientIP : string)
  | OnResource (resource : string) (limit : Z) (window : duration) (clientIP : string)
  | OnRouterResource (resource : string) (limit windowSeconds : Z) (clientIP : string)
  | OnPasswordReset (ipLimit accountLimit windowSeconds : Z) (clientIP email account : string).
Section policy.
Variables (cfg : RateLimitConfig) (opts : list (rateLimitOptions -> rateLimitOptions)).
Definition limited (rt : route) : rate outcome :=
  match rt with
  | OnGlobal ip u => RateLimitMiddleware cfg opts ip u
  | OnAuth ip => AuthRateLimitMiddleware cfg opts ip
  | OnResource r l win ip => PerResourceRateLimitMiddleware r l win opts ip
  | OnRouterResource r l secs ip => perResource r l secs ip
  | OnPasswordReset il al secs ip e a => PasswordResetRateLimitMiddleware il al secs ip e a
  end.
Definition bucket (rt : route) : string * Z * duration :=
  match rt with
  | OnGlobal _ (Some u) => ("ratelimit:u:" ++ u, Authenticated (currentLimits cfg opts), minute)%string
  | OnGlobal ip None => ("ratelimit:g:" ++ ip, Global (currentLimits cfg opts), minute)%string
  | OnResource r l win ip => ("ratelimit:r:" ++ r ++ ":" ++ ip, l, win)%string
  | _ => (EmptyString, 0, 0)
  end.
Definition closed (rt : route) : bool :=
  match rt with
  | OnGlobal _ _ => resolveFailClosed cfg opts
  | OnResource _ _ _ _ => resolveFailClosed zero_config opts
  | _ => true
  end.

Lemma wp_memory key limit window w (Q : result verdict -> rworld -> Prop) :
  Q (Ok (Check_ (clock w) key limit window (rt_memory w)).1)
    {| rt_redis := rt_redis w; rt_memory := (Check_ (clock w) key limit window (rt_memory w)).2 |} ->
  wp (run perform_rate (act (InMemory_Check key limit window))) w Q.
Proof. unfold wp. cbn. by destruct (Check_ (clock w) key limit window (rt_memory w)). Qed.
Lemma auth_closed : resolveFailClosed cfg (opts ++ [WithFailClosed]) = true.
Proof. unfold resolveFailClosed, options_of. by rewrite fold_left_app. Qed.
Lemma enforce_out key limit window failClosed w : out w ->
  wp (run perform_rate (enforceRateLimit key limit window failClosed)) w (λ o w',
    if failClosed then refusal o = Some 503 /\ passes (default (Next {| h_Limit := 0; h_Remaining := 0; h_Reset := 0 |})
      match o with Ok o => Some o | _ => None end) = false /\ rt_memory w' = rt_memory w
    else exists now, let '(v, l) := Check_ now key limit window (rt_memory w) in
      rt_memory w' = l /\ refusal o = if v_allowed v then None else Some 429).
Proof.
  intros Hout. unfold enforceRateLimit. apply wp_ptry.
  eapply wp_mono; [by apply out_fails|]. intros r w' [-> Hm]. cbn beta iota.
  destruct failClosed.
  - apply wp_pbind, wp_pbind, rate_wp_now. by split.
  - destruct (Check_ (clock w') key limit window (rt_memory w)) as [v l] eqn:E.
    apply wp_pbind, wp_memory. rewrite Hm, E. cbn [fst snd].
    apply wp_pbind, wp_pbind, rate_wp_now. exists (clock w'). rewrite E. by destruct (v_allowed v).
Qed.

(** While Redis is out, a route that is to fail closed (the auth routes, those the
    router limits by resource and the reset of a password, whatever the options) answers
    503 and asks no other limiter; any other answers what the limiter of the process
    says of its bucket. *)
Theorem outage_policy rt w : out w ->
  let '(o, w') := run perform_rate (limited rt) w in
  if closed rt then refusal o = Some 503 /\ rt_memory w' = rt_memory w
  else let '(key, limit, window) := bucket rt in
    exists now, let '(v, l) := Check_ now key limit window (rt_memory w) in
    rt_memory w' = l /\ refusal o = if v_allowed v then None else Some 429.
Proof.
  intros Hout.
  assert (forall key limit window, wp (run perform_rate (enforceRateLimit key limit window true)) w
    (λ o w', refusal o = Some 503 /\ rt_memory w' = rt_memory w)) as Hclosed.
  { intros key limit window. eapply wp_mono; [by apply (enforce_out key limit window true)|]. cbn. tauto. }
  assert (forall (p : rate outcome) (P : result outcome -> rworld -> Prop), wp (run perform_rate p) w P ->
    let '(o, w') := run perform_rate p w in P o w') as Hwp.
  { intros p P. unfold wp. by destruct (run perform_rate p w). }
  destruct rt as [ip [u|]|ip|r l win ip|r l secs ip|il al secs ip e a]; cbn [closed limited bucket].
  1, 2: apply Hwp; unfold RateLimitMiddleware; pose proof (λ k l, enforce_out k l minute (resolveFailClosed cfg opts) w Hout) as He;
    destruct (resolveFailClosed cfg opts); [apply Hclosed|apply He].
  - apply Hwp. unfold AuthRateLimitMiddleware. rewrite auth_closed. apply Hclosed.
  - apply Hwp. unfold PerResourceRateLimitMiddleware.
    pose proof (λ k, enforce_out k l win (resolveFailClosed zero_config opts) w Hout) as He.
    destruct (resolveFailClosed zero_config opts); [apply Hclosed|apply He].
  - apply Hwp. apply Hclosed.
  - apply Hwp. unfold PasswordResetRateLimitMiddleware. apply wp_pbind.
    eapply wp_mono; [by apply (enforce_out _ _ _ true)|]. cbn. intros [[h|st ra h]|err|] w' (Hr & Hp & Hm); try done.
Qed.
End policy.

(** A process that is to fail open, over a server that is out: the first request of an
    address passes, a request for an auth route does not. *)
Definition out_world : rworld :=
  {| rt_redis := {| rw_now := day0; rw_keys := ∅; rw_net := [(0, Some (Lost (External "dial")))]; rw_rand := [] |};
     rt_memory := ∅ |}.
Definition open_config : RateLimitConfig := {| Global := 1; Authenticated := 1; Auth := 1; FailClosed := false |}.
Lemma outage_policy_witness :
  refusal (run perform_rate (limited open_config [WithFailOpen] (OnAuth "10.0.0.1")) out_world).1 = Some 503 /\
  refusal (run perform_rate (limited open_config [] (OnGlobal "10.0.0.1" None)) out_world).1 = None.
Proof.
  assert (out out_world) as Hout by (eexists _, _, _; reflexivity). split; [|vm_compute; reflexivity].
  pose proof (outage_policy open_config [WithFailOpen] (OnAuth "10.0.0.1"%string) out_world Hout) as Ht.
  destruct (run perform_rate _ out_world) as [o w']. exact (proj1 Ht).
Defined.
(** The option of the auth routes to fail open is lost; the resources' default is to fail
    open. *)
Lemma auth_ignores_fail_open cfg : resolveFailClosed cfg ([WithFailOpen] ++ [WithFailClosed]) = true.
Proof. done. Qed.
Lemma resource_fails_open_by_default : resolveFailClosed zero_config [] = false.
Proof. done. Qed.
End ratelimitredis.
