(* ===== verification/Money.v ===== *)
(** Fixed-point amounts: the package [money] (src/pkg/money/money.go).  Its
    state is one [int64] of stroops; [Module money] holds its type, one
    definition per function and the specification of the text it reads. *)
From S2P Require Export GoFloat.
From stdpp Require Import options.
From Stdlib Require Import Ascii.
Open Scope Z_scope.
Local Open Scope go_scope.

Module money.

Definition Precision : nat := 7.
Definition StroopsPerUnit : Z := 10000000.

Definition ErrOverflow : error := Sentinel "money: arithmetic overflow".
Definition ErrInvalidAmount : error := Sentinel "money: invalid amount".
Definition ErrDivideByZero : error := Sentinel "money: divide by zero".

Record Money := FromStroops { stroops : Z }.

Definition Zero : Money := FromStroops 0.
Definition Stroops (m : Money) : Z := stroops m.

(** Every value of the Go type. *)
Definition valid (m : Money) : Prop := in_int64 (stroops m) = true.

(** [fromBig]: [Cmp] with the bounds, then [Int64]. *)
Definition fromBig (v : Z) : result Money :=
  if (int64_max <? v) || (v <? int64_min) then Err ErrOverflow
  else Ok (FromStroops v).

Definition allDigits (s : bytes) : bool :=
  match s with [] => false | _ => forallb is_digit s end.

(** [new(big.Int).SetString(digits, 10)] on text without sign or separators. *)
Definition big_SetString (digits : bytes) : option Z :=
  if allDigits digits then Some (dec_value digits) else None.

Definition invalid (format : string) : result Money := Err (Wrapf format ErrInvalidAmount).

(** The part of [FromString] after the sign. *)
Definition FromString_unsigned (negative : bool) (s : bytes) : result Money :=
  if decide (s = []) then invalid "%w: %q" else
  let '(intPart, fracPart) :=
    match split_byte "."%char s with Some (a, b) => (a, b) | None => (s, []) end in
  if decide (intPart = [] /\ fracPart = []) then invalid "%w: %q" else
  let intPart := if decide (intPart = []) then [zero_char] else intPart in
  if bool_decide (Precision < length fracPart)%nat
  then invalid "%w: %q has more than %d decimal places" else
  if negb (allDigits intPart)
     || (negb (bool_decide (fracPart = [])) && negb (allDigits fracPart))
  then invalid "%w: %q" else
  let fracPart := fracPart ++ zeros (Precision - length fracPart) in
  let digits := trim_zeros (intPart ++ fracPart) in
  if decide (digits = []) then Ok Zero else
  match big_SetString digits with
  | None => invalid "%w: %q"
  | Some v => fromBig (if negative then - v else v)
  end.

Definition FromString (s : bytes) : result Money :=
  let s := TrimSpace s in
  match s with
  | [] => invalid "%w: empty string"
  | c :: r =>
      let negative := bool_decide (c = "-"%char) in
      FromString_unsigned negative (if negative then r else s)
  end.

(** [MustFromString] panics on the texts [FromString] rejects. *)
Definition MustFromString (s : bytes) : result Money :=
  match FromString s with Err _ => Panic | r => r end.

Definition FromFloat64 (f : float64) : result Money :=
  if math_IsNaN f || math_IsInf f then invalid "%w: %v"
  else FromString (FormatFloat f Precision).

Definition MustFromFloat64 (f : float64) : result Money :=
  match FromFloat64 f with Err _ => Panic | r => r end.

Definition Float64 (m : Money) : float64 :=
  f64_div (f64_of_Z (stroops m)) (f64_of_Z StroopsPerUnit).

Definition String (m : Money) : bytes :=
  let value := stroops m in
  let sign := if value <? 0 then ["-"%char] else [] in
  let value := if value <? 0 then Z.abs value else value in
  let whole := Z.quot value StroopsPerUnit in
  let frac := Z.rem value StroopsPerUnit in
  let fracText := dec_digits frac in
  let fracText :=
    if bool_decide (length fracText < Precision)%nat
    then zeros (Precision - length fracText) ++ fracText else fracText in
  sign ++ dec_digits whole ++ "."%char :: fracText.

Definition IsZero (m : Money) : bool := stroops m =? 0.
Definition IsNegative (m : Money) : bool := stroops m <? 0.
Definition IsPositive (m : Money) : bool := 0 <? stroops m.

Definition Cmp (m o : Money) : Z :=
  if stroops m <? stroops o then -1
  else if stroops o <? stroops m then 1 else 0.

Definition Equal (m o : Money) : bool := stroops m =? stroops o.

Definition Neg (m : Money) : result Money :=
  if stroops m =? int64_min then Err ErrOverflow
  else Ok (FromStroops (wrap64 (- stroops m))).

Definition Add (m o : Money) : result Money :=
  let sum := wrap64 (stroops m + stroops o) in
  if ((0 <? stroops o) && (sum <? stroops m)) || ((stroops o <? 0) && (stroops m <? sum))
  then Err ErrOverflow else Ok (FromStroops sum).

Definition Sub (m o : Money) : result Money :=
  let diff := wrap64 (stroops m - stroops o) in
  if ((stroops o <? 0) && (diff <? stroops m)) || ((0 <? stroops o) && (stroops m <? diff))
  then Err ErrOverflow else Ok (FromStroops diff).

Definition MulInt (m : Money) (n : Z) : result Money := fromBig (stroops m * n).

(** [roundDiv]: [QuoRem] truncates toward zero; the remainder then decides. *)
Definition roundDiv (num den : Z) : Z :=
  let quo := Z.quot num den in
  let rem := Z.rem num den in
  let twice := Z.abs (rem * 2) in
  if Z.abs den <=? twice then
    if xorb (num <? 0) (den <? 0) then quo - 1 else quo + 1
  else quo.

Definition MulDiv (m : Money) (num den : Z) : result Money :=
  if den =? 0 then Err ErrDivideByZero
  else fromBig (roundDiv (stroops m * num) den).

(** The percentage in millionths of a percent, as [Percent] computes it. *)
Definition percent_micro (percent : float64) : float64 :=
  math_Round (f64_mul percent (f64_of_Z 1000000)).

Definition Percent `{GoFloatConv} (m : Money) (percent : float64) : result Money :=
  if math_IsNaN percent || math_IsInf percent then invalid "%w: percent %v" else
  let micro := percent_micro percent in
  if f64_gt (math_Abs micro) (f64_of_Z int64_max) then Err ErrOverflow
  else MulDiv m (f64_to_int64 micro) 100000000.

Fixpoint Sum_from (total : Money) (amounts : list Money) : result Money :=
  match amounts with
  | [] => Ok total
  | a :: rest => let? total := Add total a in Sum_from total rest
  end.

Definition Sum (amounts : list Money) : result Money := Sum_from Zero amounts.

(** The dynamic types a database driver hands to [Scan]. *)
Inductive sql_value :=
  | SqlNil
  | SqlBytes (v : bytes)
  | SqlString (v : bytes)
  | SqlInt64 (v : Z)
  | SqlFloat64 (v : float64)
  | SqlOther.

(** [Scan] returns the new value of the receiver. *)
Definition Scan (src : sql_value) : result Money :=
  match src with
  | SqlNil => Ok Zero
  | SqlBytes v => FromString v
  | SqlString v => FromString v
  | SqlInt64 v => Ok (FromStroops v)
  | SqlFloat64 v => FromFloat64 v
  | SqlOther => invalid "%w: cannot scan %T into Money"
  end.

Definition Value (m : Money) : sql_value := SqlString (String m).
Definition MarshalJSON (m : Money) : bytes := String m.

(** ** Specification of the accepted text

    An optional sign, digits, an optional point and at most seven digits, with
    at least one digit; its value in stroops is exact. *)
Inductive amount_text : bytes -> Z -> Prop :=
  | amount_text_intro (neg dot : bool) (ip fp : bytes) :
      forallb is_digit ip = true -> forallb is_digit fp = true ->
      ip ++ fp <> [] -> (length fp <= Precision)%nat ->
      (dot = false -> fp = []) ->
      amount_text
        ((if neg then ["-"%char] else []) ++ ip ++ (if dot then "."%char :: fp else []))
        ((if neg then -1 else 1)
         * (dec_value ip * 10 ^ Z.of_nat Precision
            + dec_value fp * 10 ^ Z.of_nat (Precision - length fp))).

(** [half_away_div num den q]: [q] is the integer nearest to [num / den], and
    the one away from zero when two are equally near. *)
Definition half_away_div (num den q : Z) : Prop :=
  2 * Z.abs (num - q * den) <= Z.abs den /\
  (2 * Z.abs (num - q * den) = Z.abs den -> Z.abs num < Z.abs (q * den)).

(** The exact total of a list of amounts. *)
Definition total (l : list Money) : Z := foldr (λ a acc, stroops a + acc) 0 l.

(** A percentage between 0 and 100 that [Percent] does not refuse. *)
Definition percent_ok `{GoFloatConv} (percent : float64) : bool :=
  negb (math_IsNaN percent || math_IsInf percent)
  && negb (f64_gt (math_Abs (percent_micro percent)) (f64_of_Z int64_max))
  && (0 <=? f64_to_int64 (percent_micro percent))
  && (f64_to_int64 (percent_micro percent) <=? 100000000).

End money.

Import money.

(** ** Integer arithmetic *)
Lemma fromBig_Ok v m : fromBig v = Ok m <-> in_int64 v = true /\ m = FromStroops v.
Proof.
  unfold fromBig. rewrite in_int64_spec. destruct ((int64_max <? v) || (v <? int64_min)) eqn:E.
  - split; [done|]. intros [? _]. apply orb_true_iff in E. rewrite !Z.ltb_lt in E. lia.
  - go_bool. split; [intros [= <-]; split; [lia|done]|]. by intros [_ ->].
Qed.

Lemma fromBig_Err v : in_int64 v = false -> fromBig v = Err ErrOverflow.
Proof.
  rewrite in_int64_false. unfold fromBig. intros.
  destruct (Z.ltb_spec int64_max v), (Z.ltb_spec v int64_min); cbn; try done; lia.
Qed.

(** [fromBig] decides on the range alone. *)
Lemma fromBig_eq v :
  fromBig v = if in_int64 v then Ok (FromStroops v) else Err ErrOverflow.
Proof.
  destruct (in_int64 v) eqn:E; [by apply fromBig_Ok|by apply fromBig_Err].
Qed.

Lemma fromBig_valid v m : fromBig v = Ok m -> valid m.
Proof. rewrite fromBig_Ok. intros [? ->]. done. Qed.

(** A wrapped sum of two [int64] is off by at most one turn. *)
Lemma wrap64_near z :
  2 * int64_min <= z <= - (2 * int64_min) ->
  wrap64 z = z \/ (z < int64_min /\ wrap64 z = z + 18446744073709551616)
  \/ (int64_max < z /\ wrap64 z = z - 18446744073709551616).
Proof.
  destruct (wrap64_eq z) as [k Hk]. pose proof (wrap64_in z) as Hin.
  rewrite in_int64_spec in Hin. unfold int64_min, int64_max in *. lia.
Qed.

(** The overflow test of [Add] and [Sub]: the wrapped sum moved the wrong way. *)
Lemma overflow_guard a d :
  in_int64 a = true -> int64_min <= d <= - int64_min ->
  (if ((0 <? d) && (wrap64 (a + d) <? a)) || ((d <? 0) && (a <? wrap64 (a + d)))
   then Err ErrOverflow else Ok (FromStroops (wrap64 (a + d)))) = fromBig (a + d).
Proof.
  intros Ha Hd. rewrite fromBig_eq. rewrite in_int64_spec in Ha.
  pose proof (wrap64_in (a + d)) as Hin.
  destruct (wrap64_near (a + d)) as [Hw|Hw]; [unfold int64_min, int64_max in *; lia| |].
  - rewrite Hw in *. rewrite Hin.
    destruct (Z.ltb_spec 0 d), (Z.ltb_spec (a + d) a), (Z.ltb_spec d 0),
      (Z.ltb_spec a (a + d)); cbn; try done; lia.
  - rewrite (proj2 (in_int64_false _)) by lia.
    unfold int64_min, int64_max in *.
    destruct (Z.ltb_spec 0 d), (Z.ltb_spec (wrap64 (a + d)) a), (Z.ltb_spec d 0),
      (Z.ltb_spec a (wrap64 (a + d))); cbn; try done; lia.
Qed.

Lemma valid_bounds m : valid m <-> int64_min <= stroops m <= int64_max.
Proof. apply in_int64_spec. Qed.

Lemma add_guard m o :
  valid m -> valid o -> Add m o = fromBig (stroops m + stroops o).
Proof.
  intros Hm Ho%valid_bounds. unfold Add. rewrite <- overflow_guard; [done..|].
  unfold int64_min, int64_max in *. lia.
Qed.

Lemma sub_guard m o :
  valid m -> valid o -> Sub m o = fromBig (stroops m - stroops o).
Proof.
  intros Hm Ho%valid_bounds. unfold Sub. rewrite <- Z.add_opp_r, <- overflow_guard;
    [|done|unfold int64_min, int64_max in *; lia].
  replace (0 <? - stroops o) with (stroops o <? 0) by lia.
  replace (- stroops o <? 0) with (0 <? stroops o) by lia. done.
Qed.

Lemma neg_guard m : valid m -> Neg m = fromBig (- stroops m).
Proof.
  intros Hm%valid_bounds. unfold Neg. rewrite fromBig_eq.
  destruct (Z.eqb_spec (stroops m) int64_min) as [E|E].
  - rewrite (proj2 (in_int64_false _)); [done|]. unfold int64_min, int64_max in *. lia.
  - assert (in_int64 (- stroops m) = true) as Hin.
    { rewrite in_int64_spec. unfold int64_min, int64_max in *. lia. }
    by rewrite Hin, wrap64_id.
Qed.

(** ** Rounding *)
Lemma rem_sign num den :
  den <> 0 -> (0 <= num -> 0 <= Z.rem num den) /\ (num < 0 -> Z.rem num den <= 0).
Proof.
  intros. split; intros; [by apply Z.rem_nonneg|apply Z.rem_nonpos; lia].
Qed.

Lemma roundDiv_half_away num den : den <> 0 -> half_away_div num den (roundDiv num den).
Proof.
  intros Hd. unfold half_away_div, roundDiv.
  pose proof (Z.quot_rem' num den) as Hq. pose proof (Z.rem_bound_abs num den Hd) as Hb.
  destruct (rem_sign num den Hd) as [Hp Hn].
  set (q := Z.quot num den) in *. set (r := Z.rem num den) in *.
  destruct (Z.leb_spec (Z.abs den) (Z.abs (r * 2))) as [Hle|Hlt]; [|lia].
  destruct (Z.ltb_spec num 0), (Z.ltb_spec den 0); cbn [xorb];
    rewrite ?Z.mul_add_distr_r, ?Z.mul_sub_distr_r; lia.
Qed.

Lemma mul_multiple q d : q * d <= - Z.abs d \/ q * d = 0 \/ Z.abs d <= q * d.
Proof.
  destruct (Z.abs_spec d) as [[? ->]|[? ->]];
    destruct (Z.lt_trichotomy q 0) as [|[->|]]; nia.
Qed.

Lemma half_away_unique num den q q' :
  den <> 0 -> half_away_div num den q -> half_away_div num den q' -> q = q'.
Proof.
  unfold half_away_div. intros Hd [H1 H2] [H3 H4].
  assert (Z.abs (q - q') * Z.abs den <= Z.abs den) as Hle.
  { rewrite <- Z.abs_mul, Z.mul_sub_distr_r. lia. }
  assert (Z.abs (q - q') <= 1) as Hone.
  { apply (Z.mul_le_mono_pos_r _ _ (Z.abs den)); [lia|]. by rewrite Z.mul_1_l. }
  destruct (Z.eq_dec q q') as [|Hne]; [done|].
  pose proof (mul_multiple q den).
  assert (q' = q + 1 \/ q' = q - 1) as [->| ->] by lia;
    rewrite ?Z.mul_add_distr_r, ?Z.mul_sub_distr_r in *; lia.
Qed.

Lemma roundDiv_unique num den q :
  den <> 0 -> half_away_div num den q -> roundDiv num den = q.
Proof. intros. eapply half_away_unique; eauto using roundDiv_half_away. Qed.

(** A share of at most the whole never exceeds it. *)
Lemma roundDiv_share a num den :
  0 <= a -> 0 <= num <= den -> 0 < den -> 0 <= roundDiv (a * num) den <= a.
Proof.
  intros Ha Hn Hd. destruct (roundDiv_half_away (a * num) den ltac:(lia)) as [H1 _].
  set (q := roundDiv (a * num) den) in *.
  assert (0 <= a * num <= a * den) by nia.
  split; apply Z.le_ngt; intros Hc.
  - assert (q * den <= - den) by nia. lia.
  - assert ((a + 1) * den <= q * den) by nia. lia.
Qed.

Lemma roundDiv_mono a b den : 0 < den -> a <= b -> roundDiv a den <= roundDiv b den.
Proof.
  intros Hd Hab. destruct (roundDiv_half_away a den ltac:(lia)) as [H1 H2].
  destruct (roundDiv_half_away b den ltac:(lia)) as [H3 H4].
  apply Z.le_ngt. intros Hc. set (p := roundDiv a den) in *. set (q := roundDiv b den) in *.
  assert (q * den + den <= p * den) by nia.
  pose proof (mul_multiple p den). pose proof (mul_multiple q den). lia.
Qed.

(** ** Reading text *)
Lemma allDigits_spec s : allDigits s = true <-> s <> [] /\ forallb is_digit s = true.
Proof. destruct s; cbn [allDigits]; [split; [done|by intros []]|]. split; [done|by intros []]. Qed.

Lemma allDigits_false s : s <> [] -> forallb is_digit s = false -> allDigits s = false.
Proof. by destruct s. Qed.

(** Zeros are dropped and the number read back; nothing else can happen to digits. *)
Lemma digits_to_money (neg : bool) ds :
  forallb is_digit ds = true ->
  (if decide (trim_zeros ds = []) then Ok Zero else
   match big_SetString (trim_zeros ds) with
   | None => invalid "%w: %q"
   | Some v => fromBig (if neg then - v else v)
   end) = fromBig (if neg then - dec_value ds else dec_value ds).
Proof.
  intros Hd. rewrite <- (dec_value_trim_zeros ds).
  destruct (decide (trim_zeros ds = [])) as [->|Hne]; [by destruct neg|].
  unfold big_SetString. rewrite (proj2 (allDigits_spec _)); [done|].
  split; [done|auto with go].
Qed.

Lemma dot_not_digit : is_digit "."%char = false.
Proof. done. Qed.

Lemma FromString_unsigned_text neg dot ip fp :
  forallb is_digit ip = true -> forallb is_digit fp = true ->
  ip ++ fp <> [] -> (length fp <= Precision)%nat -> (dot = false -> fp = []) ->
  FromString_unsigned neg (ip ++ (if dot then "."%char :: fp else []))
  = fromBig ((if neg then -1 else 1)
             * (dec_value ip * 10 ^ Z.of_nat Precision
                + dec_value fp * 10 ^ Z.of_nat (Precision - length fp))).
Proof.
  intros Hip Hfp Hne Hlen Hdot. unfold FromString_unsigned.
  rewrite decide_False by (destruct ip, dot; naive_solver).
  assert ((match split_byte "."%char (ip ++ (if dot then "."%char :: fp else [])) with
           | Some (a, b) => (a, b)
           | None => (ip ++ (if dot then "."%char :: fp else []), []) end) = (ip, fp)) as ->.
  { destruct dot; [rewrite split_byte_app; [done|]|rewrite Hdot, app_nil_r by done];
      rewrite digit_not_byte; auto using dot_not_digit. }
  rewrite decide_False by (intros [-> ->]; done).
  rewrite bool_decide_eq_false_2 by lia.
  set (ip' := if decide (ip = []) then [zero_char] else ip).
  assert (forallb is_digit ip' = true /\ ip' <> [] /\ dec_value ip' = dec_value ip)
    as (Hip' & Hne' & Hval) by (unfold ip'; destruct (decide (ip = [])) as [->|]; done).
  rewrite (proj2 (allDigits_spec ip')) by done.
  replace (negb (bool_decide (fp = [])) && negb (allDigits fp)) with false
    by (destruct fp; [done|]; cbn [allDigits]; rewrite Hfp; by rewrite andb_false_r).
  cbn [negb orb]. rewrite digits_to_money by (by rewrite !forallb_app, Hip', Hfp, forallb_zeros).
  rewrite !dec_value_app, dec_value_zeros, Hval, length_app. unfold zeros.
  rewrite length_replicate.
  replace (length fp + (Precision - length fp))%nat with Precision by lia.
  f_equal. destruct neg; ring.
Qed.

Lemma FromString_text s v : amount_text (TrimSpace s) v -> FromString s = fromBig v.
Proof.
  intros H. unfold FromString. inversion H as [neg dot ip fp Hip Hfp Hne Hlen Hdot Heq]. subst v.
  destruct neg; cbn [app] in *.
  { rewrite bool_decide_eq_true_2 by done. by rewrite FromString_unsigned_text. }
  rewrite <- (FromString_unsigned_text false dot ip fp) by done.
  destruct (ip ++ (if dot then _ else [])) as [|c r] eqn:E.
  { exfalso. destruct ip, dot; cbn in *; naive_solver. }
  rewrite bool_decide_eq_false_2; [done|]. intros ->.
  destruct ip as [|c' ip]; cbn in E; [destruct dot; naive_solver|].
  injection E as -> _. by cbn in Hip.
Qed.

(** Text of the wrong shape is refused as invalid, whatever its sign. *)
Lemma FromString_unsigned_cases neg s :
  (exists f, FromString_unsigned neg s = invalid f) \/
  (exists (dot : bool) ip fp, s = ip ++ (if dot then "."%char :: fp else []) /\
     forallb is_digit ip = true /\ forallb is_digit fp = true /\
     ip ++ fp <> [] /\ (length fp <= Precision)%nat /\ (dot = false -> fp = [])).
Proof.
  unfold FromString_unsigned. destruct (decide (s = [])); [eauto|].
  assert (exists (dot : bool) ip fp, s = ip ++ (if dot then "."%char :: fp else []) /\
            (dot = false -> fp = []) /\
            match split_byte "."%char s with Some (a, b) => (a, b) | None => (s, []) end
            = (ip, fp)) as (dot & ip & fp & Hs & Hdot & ->).
  { destruct (split_byte "."%char s) as [[a b]|] eqn:E.
    - apply split_byte_Some in E as [-> _]. by exists true, a, b.
    - exists false, s, []. by rewrite app_nil_r. }
  destruct (decide (ip = [] /\ fp = [])) as [|Hne]; [eauto|].
  case_bool_decide as Hlen; [eauto|].
  destruct (negb (allDigits _) || _) eqn:Hd; [eauto|].
  right. exists dot, ip, fp. go_bool. split_and!; try done; [| |intros [? ?]%app_eq_nil; by apply Hne|lia].
  - destruct (decide (ip = [])) as [->|]; [done|]. by apply allDigits_spec.
  - destruct fp; [done|]. match goal with H : _ && _ = false |- _ => rename H into Hf end.
    rewrite bool_decide_eq_false_2 in Hf by done. cbn [negb andb] in Hf. go_bool.
    by apply allDigits_spec.
Qed.

Lemma FromString_not_text s :
  (forall v, ~ amount_text (TrimSpace s) v) -> exists f, FromString s = invalid f.
Proof.
  intros Hno. unfold FromString. destruct (TrimSpace s) as [|c r] eqn:Ht; [eauto|].
  case_bool_decide as Hc.
  - subst c. destruct (FromString_unsigned_cases true r)
      as [|(dot & ip & fp & -> & ? & ? & ? & ? & ?)]; [done|].
    exfalso. eapply Hno. by apply (amount_text_intro true dot ip fp).
  - destruct (FromString_unsigned_cases false (c :: r))
      as [|(dot & ip & fp & Heq & ? & ? & ? & ? & ?)]; [done|].
    exfalso. eapply Hno. rewrite Heq. by apply (amount_text_intro false dot ip fp).
Qed.

(** ** Printed amounts *)
Definition text_char (c : ascii) : bool := is_digit c || bool_decide (c = "-"%char).

Lemma text_char_no_space c :
  text_char c = true ->
  forallb (λ p, match p with b :: _ => negb (bool_decide (b = c)) | [] => false end)
    go_spaces = true /\
  forallb (λ p, match p with b :: _ => negb (bool_decide (b = c)) | [] => false end)
    (reverse <$> go_spaces) = true.
Proof. destruct c as [[] [] [] [] [] [] [] []]; vm_compute; by try split. Qed.

Lemma TrimSpace_text c d l l' :
  c :: l = l' ++ [d] -> text_char c = true -> text_char d = true ->
  TrimSpace (c :: l) = c :: l.
Proof.
  intros Heq Hc Hd. unfold TrimSpace, trim_left, trim_right.
  rewrite (trim_with_stop _ go_spaces) by (apply strip_one_head; by apply text_char_no_space).
  rewrite Heq, reverse_snoc.
  rewrite trim_with_stop by (apply strip_one_head; by apply text_char_no_space).
  by rewrite <- reverse_snoc, reverse_involutive.
Qed.

Lemma forallb_last (l : bytes) d : forallb is_digit (l ++ [d]) = true -> is_digit d = true.
Proof. rewrite forallb_app. cbn. intros. go_bool. done. Qed.

(** The text [FormatFloat] and [String] produce: it reads back as its value. *)
Lemma FromString_scaled neg n :
  0 <= n -> FromString (format_scaled Precision neg n) = fromBig (if neg then - n else n).
Proof.
  intros Hn. change (10 ^ Z.of_nat Precision) with StroopsPerUnit in *.
  pose proof (Z.mod_pos_bound n StroopsPerUnit ltac:(done)) as Hm.
  pose proof (Z.div_pos n StroopsPerUnit ltac:(lia) ltac:(done)) as Hq.
  set (ip := dec_digits (n / StroopsPerUnit)).
  set (fp := pad_zeros Precision (dec_digits (n mod StroopsPerUnit))).
  assert (length fp = Precision) as Hlen.
  { apply length_pad_zeros, dec_digits_length; [done|]. unfold Precision. lia. }
  assert (forallb is_digit ip = true /\ forallb is_digit fp = true) as [Hip Hfp]
    by (unfold ip, fp; split; [|apply forallb_pad]; apply dec_digits_digits; lia).
  assert (ip <> []) as Hne by apply dec_digits_nonnil.
  assert (format_scaled Precision neg n
          = (if neg then ["-"%char] else []) ++ ip ++ "."%char :: fp) as -> by done.
  rewrite (FromString_text _ ((if neg then -1 else 1)
             * (dec_value ip * 10 ^ Z.of_nat Precision
                + dec_value fp * 10 ^ Z.of_nat (Precision - length fp)))).
  - rewrite Hlen, Nat.sub_diag. unfold ip, fp. autorewrite with go.
    rewrite !dec_digits_value by lia. f_equal.
    pose proof (Z.div_mod n StroopsPerUnit ltac:(done)).
    change (10 ^ Z.of_nat Precision) with StroopsPerUnit. destruct neg; lia.
  - destruct fp as [|f0 fp0] eqn:Efp; [done|].
    destruct (exists_last (l := f0 :: fp0)) as (fpi & d & Hfpd); [done|].
    assert (TrimSpace ((if neg then ["-"%char] else []) ++ ip ++ "."%char :: f0 :: fp0)
            = (if neg then ["-"%char] else []) ++ ip ++ "."%char :: f0 :: fp0) as ->.
    { destruct ip as [|i0 ip0] eqn:Eip; [done|]. rewrite Hfpd.
      assert (text_char d = true) as Hd.
      { unfold text_char. erewrite forallb_last; [done|]. by rewrite <- Hfpd. }
      assert (text_char i0 = true) as Hi.
      { unfold text_char. cbn [forallb] in Hip. go_bool. by rewrite H. }
      destruct neg; cbn [app].
      - apply (TrimSpace_text _ d _ ("-"%char :: i0 :: ip0 ++ "."%char :: fpi)); [|done..].
        cbn [app]. by rewrite <- app_assoc.
      - apply (TrimSpace_text _ d _ (i0 :: ip0 ++ "."%char :: fpi)); [|done..].
        cbn [app]. by rewrite <- app_assoc. }
    rewrite <- Efp in *.
    apply (amount_text_intro neg true ip fp); try done.
    + by destruct ip.
    + by rewrite Hlen.
Qed.

Lemma String_scaled m : String m = format_scaled Precision (stroops m <? 0) (Z.abs (stroops m)).
Proof.
  unfold String, format_scaled, pad_zeros. change (10 ^ Z.of_nat Precision) with StroopsPerUnit.
  assert ((if stroops m <? 0 then Z.abs (stroops m) else stroops m) = Z.abs (stroops m)) as ->.
  { destruct (Z.ltb_spec (stroops m) 0); lia. }
  rewrite Z.quot_div_nonneg, Z.rem_mod_nonneg by (unfold StroopsPerUnit; lia).
  case_bool_decide as Hl; [done|].
  by replace (Precision - length (dec_digits (Z.abs (stroops m) mod StroopsPerUnit)))%nat
    with O by lia.
Qed.

Lemma FromString_String m : FromString (String m) = fromBig (stroops m).
Proof.
  rewrite String_scaled, FromString_scaled by lia. f_equal.
  destruct (Z.ltb_spec (stroops m) 0); lia.
Qed.

Lemma FromFloat64_no_panic f : FromFloat64 f <> Panic.
Proof.
  unfold FromFloat64, FromString, FromString_unsigned, fromBig, invalid.
  repeat case_match; done.
Qed.

Lemma FromFloat64_finite s m e :
  FromFloat64 (S754_finite s m e)
  = fromBig (cond_Zopp s (div_half_even (mant_num m e * 10 ^ Z.of_nat Precision) (mant_den e))).
Proof.
  unfold FromFloat64, FormatFloat. cbn [math_IsNaN math_IsInf orb].
  pose proof (mant_num_pos m e). pose proof (mant_den_pos e).
  rewrite FromString_scaled; [by destruct s|]. apply div_half_even_nonneg; [|done].
  apply Z.mul_nonneg_nonneg; [lia|]. by apply Z.pow_nonneg.
Qed.

Lemma Sum_from_Ok acc l t :
  Forall valid l -> valid acc ->
  Sum_from acc l = Ok t <->
  stroops t = stroops acc + total l /\
  (forall k, in_int64 (stroops acc + total (take k l)) = true).
Proof.
  intros Hl. revert acc. induction Hl as [|a l Ha Hl IH]; intros acc Hacc; cbn [Sum_from total foldr].
  - split.
    + intros [= <-]. split; [lia|]. intros []; cbn; by rewrite Z.add_0_r.
    + intros [Ht _]. destruct acc, t; cbn in *. do 2 f_equal. lia.
  - rewrite add_guard, fromBig_eq by done.
    destruct (in_int64 (stroops acc + stroops a)) eqn:E; cbn [result_bind].
    + rewrite IH by done. cbn [stroops]. rewrite Z.add_assoc. split; intros [-> Hk];
        (split; [done|]); intros k.
      * destruct k as [|k]; cbn; [by rewrite Z.add_0_r|]. by rewrite Z.add_assoc.
      * specialize (Hk (S k)). cbn in Hk. by rewrite Z.add_assoc in Hk.
    + split; [done|]. intros [_ Hk]. specialize (Hk 1%nat). cbn in Hk.
      rewrite take_0 in Hk. cbn in Hk. rewrite Z.add_0_r, E in Hk. done.
Qed.

(** ** Theorems *)

(** C39: reading back the canonical text of any [int64] amount gives the amount:
    the form written to NUMERIC columns and JSON loses nothing, at the bounds
    of the range included. *)
Theorem FromString_roundtrip m : valid m -> FromString (String m) = Ok m.
Proof. intros Hm. rewrite FromString_String. destruct m. by apply fromBig_Ok. Qed.

Lemma FromString_roundtrip_witness :
  valid (FromStroops int64_min) /\
  FromString (String (FromStroops int64_min)) = Ok (FromStroops int64_min).
Proof. split; [done|]. apply (FromString_roundtrip (FromStroops int64_min)). reflexivity. Defined.

(** [FromString] succeeds exactly on the texts of the documented grammar
    (after trimming spaces) whose exact value in stroops fits [int64], and then
    returns that value; a text of the grammar that does not fit is an overflow,
    every other text is an invalid amount. *)
Theorem FromString_spec s :
  (forall m, FromString s = Ok m <->
     amount_text (TrimSpace s) (stroops m) /\ in_int64 (stroops m) = true) /\
  (forall v, amount_text (TrimSpace s) v -> in_int64 v = false ->
     FromString s = Err ErrOverflow) /\
  ((forall v, ~ amount_text (TrimSpace s) v) ->
     exists e, FromString s = Err e /\ errors_Is e ErrInvalidAmount = true).
Proof.
  split_and!.
  - intros m. split.
    + intros Hm. assert (~ forall v, ~ amount_text (TrimSpace s) v) as Hyes.
      { intros Hno. destruct (FromString_not_text s Hno) as [f Hf]. by rewrite Hf in Hm. }
      unfold FromString in Hm. destruct (TrimSpace s) as [|c r] eqn:Ht; [done|].
      set (neg := bool_decide (c = "-"%char)) in *.
      destruct (FromString_unsigned_cases neg (if neg then r else c :: r))
        as [[f Hf]|(dot & ip & fp & Hs & ? & ? & ? & ? & ?)]; [by rewrite Hf in Hm|].
      assert (amount_text (c :: r) (stroops m) /\ in_int64 (stroops m) = true); [|done].
      rewrite Hs, FromString_unsigned_text, fromBig_Ok in Hm by done.
      destruct Hm as [Hin ->]. split; [|done].
      assert (c :: r = (if neg then ["-"%char] else [])
              ++ ip ++ (if dot then "."%char :: fp else [])) as ->; [|by constructor].
      rewrite <- Hs. unfold neg. by case_bool_decide as Hc; [subst c|].
    + intros [Ht Hin]. rewrite (FromString_text _ _ Ht). destruct m. by apply fromBig_Ok.
  - intros v Ht Hv. rewrite (FromString_text _ _ Ht). by apply fromBig_Err.
  - intros Hno. destruct (FromString_not_text s Hno) as [f Hf]. exists (Wrapf f ErrInvalidAmount).
    split; [done|]. apply errors_Is_wrap, errors_Is_refl.
Qed.

(** C38: [Add], [Sub], [Neg] and [MulInt] detect overflow exactly: on [int64] amounts they
    return the mathematical result when it fits and [ErrOverflow] when it does
    not, although the first three compute with wrapping machine arithmetic. *)
Theorem arithmetic_exact m o :
  valid m -> valid o ->
  Add m o = (if in_int64 (stroops m + stroops o)
             then Ok (FromStroops (stroops m + stroops o)) else Err ErrOverflow) /\
  Sub m o = (if in_int64 (stroops m - stroops o)
             then Ok (FromStroops (stroops m - stroops o)) else Err ErrOverflow) /\
  Neg m = (if in_int64 (- stroops m)
           then Ok (FromStroops (- stroops m)) else Err ErrOverflow) /\
  forall n, in_int64 n = true ->
    MulInt m n = (if in_int64 (stroops m * n)
                  then Ok (FromStroops (stroops m * n)) else Err ErrOverflow).
Proof.
  intros Hm Ho. rewrite add_guard, sub_guard, neg_guard by done. rewrite !fromBig_eq.
  split_and!; [done..|]. intros n _. apply fromBig_eq.
Qed.

Lemma arithmetic_exact_witness :
  Add (FromStroops int64_max) (FromStroops 1) = Err ErrOverflow /\
  Sub (FromStroops int64_max) (FromStroops 1) = Ok (FromStroops 9223372036854775806) /\
  MulInt (FromStroops int64_max) (-1) = Ok (FromStroops (- int64_max)).
Proof.
  destruct (arithmetic_exact (FromStroops int64_max) (FromStroops 1) eq_refl eq_refl)
    as (Ha & Hs & _ & Hm). split; [exact Ha|split; [exact Hs|exact (Hm (-1) eq_refl)]].
Defined.

(** [MulDiv] returns the integer nearest to [m * num / den], the one away
    from zero on a tie, exactly when the divisor is not zero and the rounded
    value fits [int64]; the product itself cannot overflow. *)
Theorem MulDiv_nearest m num den r :
  MulDiv m num den = Ok r <->
  den <> 0 /\ half_away_div (stroops m * num) den (stroops r) /\ valid r.
Proof.
  unfold MulDiv. destruct (Z.eqb_spec den 0) as [->|Hd]; [split; [done|by intros []]|].
  rewrite fromBig_Ok. unfold valid. split.
  - intros [Hin ->]. cbn. eauto using roundDiv_half_away.
  - intros (_ & Hh & Hv). rewrite (roundDiv_unique _ _ (stroops r)) by done.
    split; [done|by destruct r].
Qed.

(** [FromFloat64] of a finite float returns the stroop nearest to its exact
    binary value, the even one on a tie, or [ErrOverflow] when that stroop does
    not fit; no other rounding happens on the way through the decimal text. *)
Theorem FromFloat64_nearest s m e :
  exists q,
    2 * Z.abs (mant_num m e * StroopsPerUnit - q * mant_den e) <= mant_den e /\
    (2 * Z.abs (mant_num m e * StroopsPerUnit - q * mant_den e) = mant_den e ->
     Z.even q = true) /\
    FromFloat64 (S754_finite s m e)
    = (if in_int64 (cond_Zopp s q) then Ok (FromStroops (cond_Zopp s q)) else Err ErrOverflow).
Proof.
  exists (div_half_even (mant_num m e * StroopsPerUnit) (mant_den e)).
  destruct (div_half_even_spec (mant_num m e * StroopsPerUnit) (mant_den e) (mant_den_pos e)).
  split_and!; [lia| |]; [intros; match goal with H : _ -> _ |- _ => apply H end; lia|].
  by rewrite FromFloat64_finite, fromBig_eq.
Qed.

(** a float half way between two stroops is rounded to the even one, so the
    documented rounding away from zero does not hold: 1/256 is 39062.5 stroops,
    [FromFloat64] gives 39062 and the nearest away from zero is 39063. *)
Theorem FromFloat64_tie_not_away :
  exists f, f = f64_div (f64_of_Z 1) (f64_of_Z 256) /\
    FromFloat64 f = Ok (FromStroops 39062) /\
    half_away_div (1 * StroopsPerUnit) 256 39063 /\
    ~ half_away_div (1 * StroopsPerUnit) 256 39062.
Proof.
  exists (f64_div (f64_of_Z 1) (f64_of_Z 256)). unfold half_away_div.
  split_and!; [done|by vm_compute|vm_compute; done|vm_compute; done|].
  vm_compute. intros [_ H]. discriminate (H eq_refl).
Qed.

(** [Sum] succeeds exactly when every partial sum fits [int64], and then
    returns the exact total. *)
Theorem Sum_exact l t :
  Forall valid l ->
  Sum l = Ok t <-> stroops t = total l /\ (forall k, in_int64 (total (take k l)) = true).
Proof. intros Hl. unfold Sum. by rewrite Sum_from_Ok. Qed.

Lemma Sum_exact_witness :
  Forall valid [FromStroops 5; FromStroops (-2)] /\
  stroops (FromStroops 3) = total [FromStroops 5; FromStroops (-2)].
Proof.
  assert (Forall valid [FromStroops 5; FromStroops (-2)]) as H
    by (repeat constructor).
  split; [exact H|]. by apply (Sum_exact _ (FromStroops 3) H).
Defined.

(** a percentage between 0 and 100 of a non-negative amount never fails and
    never exceeds the amount: a fee computed by [Percent] can always be paid out
    of what it is charged on. *)
Theorem Percent_share `{GoFloatConv} m percent :
  valid m -> 0 <= stroops m -> percent_ok percent = true ->
  exists r, Percent m percent = Ok r /\ 0 <= stroops r <= stroops m /\
    half_away_div (stroops m * f64_to_int64 (percent_micro percent)) 100000000 (stroops r).
Proof.
  intros Hm%valid_bounds Hpos Hp. unfold percent_ok in Hp. go_bool.
  unfold Percent.
  repeat match goal with H : ?x = false |- context [?x] => rewrite H end. cbn [orb].
  set (micro := f64_to_int64 (percent_micro percent)) in *.
  pose proof (roundDiv_share (stroops m) micro 100000000 ltac:(lia) ltac:(lia) ltac:(lia)).
  exists (FromStroops (roundDiv (stroops m * micro) 100000000)).
  split_and!; try (cbn; lia); [|by apply roundDiv_half_away].
  unfold MulDiv. cbn [Z.eqb]. apply fromBig_Ok. split; [|done]. apply in_int64_spec. unfold int64_min, int64_max in *. lia.
Qed.

(** The conversion used by the witnesses: what amd64 gives for a float outside
    the range of [int64]. *)
Definition amd64_conv : GoFloatConv := {| f64_to_int64_out := λ _, int64_min |}.

Lemma Percent_share_witness :
  exists r, Percent (H := amd64_conv) (FromStroops 1000000001) (f64_div (f64_of_Z 5) (f64_of_Z 2))
            = Ok r /\ stroops r = 25000000.
Proof.
  destruct (Percent_share (H := amd64_conv) (FromStroops 1000000001)
              (f64_div (f64_of_Z 5) (f64_of_Z 2)) eq_refl ltac:(vm_compute; discriminate) eq_refl)
    as (r & Hr & _).
  exists r. split; [exact Hr|]. vm_compute in Hr. injection Hr as <-. reflexivity.
Defined.
