(* ===== verification/Session.v ===== *)
(** Sessions (src/internal/domain/auth/session/service.go): a refresh token is a key
    of Redis under its hash; a set for each user lists the hashes.  The handlers that
    end sessions (src/internal/api/handler/session_handler.go) and the block lists
    (src/internal/api/middleware/token_blocklist.go) work on the same keys. *)
From S2P Require Export Redis GoStrings.
From stdpp Require Import options.
From Stdlib Require Import Ascii.
#[local] Set Default Proof Using "Type*".
Open Scope Z_scope.
Local Open Scope go_scope.

(** What the identifier library documents: the canonical text is 36 hexadecimal digits
    and dashes, [Parse] reads texts of four lengths, the longest after "urn:uuid:". *)
Definition hex_or_dash (c : ascii) : bool :=
  is_digit c || ((97 <=? code c) && (code c <=? 102)) || bool_decide (c = "-"%char).
Class UUIDText `{UUIDLib} : Prop := {
  uuid_String_text u : (u < 2 ^ 128)%N ->
    String.length (uuid_String u) = 36%nat /\ uuid_Parse (uuid_String u) = Some u /\
    forallb hex_or_dash (String.list_ascii_of_string (uuid_String u)) = true;
  uuid_Parse_text s u : uuid_Parse s = Some u ->
    (u < 2 ^ 128)%N /\ (String.length s ∈ [32; 36; 38]%nat \/
      (String.length s = 45%nat /\ head (String.list_ascii_of_string s) ∈ [Some "u"; Some "U"]%char));
}.

Module session.
Import redis.

Record TokenPair := { AccessToken : string; RefreshToken : string; CSRFToken : string }.
Record SessionInfo := { si_ID : string; si_DeviceInfo : string; si_LastActive : string; si_IsCurrent : bool }.

Definition ErrTokenExpired := Sentinel "session: token expired".

(** The actions of the service: commands, and the signing of an access token by the
    token service. *)
Inductive sessE : Type -> Type :=
  | Redis {X : Type} (e : redisE X) : sessE X
  | GenerateToken (userID : uuid) (wallet role : string) (ttl : duration) : sessE string.
Abbreviation sess := (prog sessE) (only parsing).
Definition cmd_ {X} (c : cmd X) : sess X := act (Redis (Cmd c)).
Definition time_Now : sess time := act (Redis Now).
Definition rand_Read : sess string := act (Redis Rand).

(** [sha256Hash] and the layout of a time are functions of libraries. *)
Class SessionLib := {
  sha256Hash : string -> string;
  Format_RFC3339 : Z -> string;
}.

Definition pipe : ascii := "|".
Definition session_key (hash : string) : string := "session:" ++ hash.
Definition csrf_key (hash : string) : string := "csrf:" ++ hash.
Definition userSessionsKey (userID : string) : string := "user:sessions:" ++ userID.
Definition blocklistKey (userID : string) : string := "refresh:blocklist:" ++ userID.
Definition token_blocklistKey (hash : string) : string := "token:blocklist:" ++ hash.

(** [fmt.Sprintf] of four fields between bars: user, device, time, role. *)
Definition session_data (userID deviceInfo : string) (ts : Z) (role : string) : string :=
  userID ++ String pipe (deviceInfo ++ String pipe (fmt_d ts ++ String pipe role)).

Definition SessionRole (data : string) : string :=
  match last (str_split pipe data) with
  | Some l => if decide (l = "user" \/ l = "admin")%string then l else "user"
  | None => "user"
  end.

Section service.
Context `{UUIDLib, SessionLib}.

Section operations.
Variables (refreshTTL : duration).

Definition Create (userID : uuid) (role : string) (sessionTTL : duration) (deviceInfo : string) :
    sess TokenPair :=
  let role := if decide (role = "")%string then "user"%string else role in
  let* accessToken := pwrap "generating access token: %w" (act (GenerateToken userID "" role sessionTTL)) in
  let* refreshToken := pwrap "generating refresh token: %w" rand_Read in
  let tokenHash := sha256Hash refreshToken in
  let* csrfToken := pwrap "generating CSRF token: %w" rand_Read in
  let userIDStr := uuid_String userID in
  let* now := time_Now in
  let sessionData := session_data userIDStr deviceInfo (time_Unix now) role in
  let sessionKey := session_key tokenHash in
  let csrfKey := csrf_key (sha256Hash accessToken) in
  ptry (act (Redis (MULTI
    [Any (SET sessionKey sessionData refreshTTL); Any (SET csrfKey csrfToken sessionTTL);
     Any (SADD (userSessionsKey userIDStr) tokenHash); Any (EXPIRE (userSessionsKey userIDStr) sessionTTL)])))
    (λ r, match r with
          | inr err =>
              do* pignore (cmd_ (DEL [sessionKey; csrfKey])) in
              do* pignore (cmd_ (SREM (userSessionsKey userIDStr) [tokenHash])) in
              pfail (Wrapf "storing session and CSRF in redis: %w" err)
          | inl _ =>
              pret {| AccessToken := accessToken; RefreshToken := refreshToken; CSRFToken := csrfToken |}
          end).

(** The value of a session, or the error of [Get]. *)
Definition get_session (key : string) : sess string :=
  let* data := pwrap "retrieving session from redis: %w" (cmd_ (GET key)) in
  match data with None => pfail ErrTokenExpired | Some data => pret data end.
(** Refuse and delete a session whose user is on the block list. *)
Definition check_blocklist (userIDStr key : string) : sess unit :=
  ptry (cmd_ (EXISTS (blocklistKey userIDStr))) (λ r,
    match r with
    | inr _ => pfail (Errorf "session validation error")
    | inl blocklisted =>
        if 0 <? blocklisted then
          do* pignore (cmd_ (DEL [key])) in
          pfail (Errorf "session revoked")
        else pret tt
    end).
Definition parse_user (userIDStr : string) : sess uuid :=
  match uuid_Parse userIDStr with
  | Some uid => pret uid
  | None => pfail (Wrapf "parsing session user ID: %w" (External "uuid"))
  end.

Definition Validate (refreshToken : string) : sess uuid :=
  let key := session_key (sha256Hash refreshToken) in
  let* userIDStr := get_session key in
  do* check_blocklist userIDStr key in
  parse_user userIDStr.

Definition graceTTL : duration := 60 * second.
Definition Refresh (refreshToken : string) (accessTTL : duration) : sess TokenPair :=
  let key := session_key (sha256Hash refreshToken) in
  let* data := get_session key in
  let userIDStr := default EmptyString (head (str_split pipe data)) in
  let role := SessionRole data in
  do* check_blocklist userIDStr key in
  let* uid := parse_user userIDStr in
  let* newPair := pwrap "creating new session: %w" (Create uid role accessTTL "") in
  do* pignore (cmd_ (EXPIRE key graceTTL)) in
  pret newPair.

Definition session_info (currentTokenHash hash data : string) : SessionInfo :=
  let parts := str_splitN 2 pipe data in
  {| si_ID := hash;
     si_DeviceInfo := default EmptyString (parts !! 1%nat);
     si_LastActive := match parts !! 2%nat with
                      | Some p => match ParseInt p with inl ts => Format_RFC3339 ts | inr _ => EmptyString end
                      | None => EmptyString
                      end;
     si_IsCurrent := bool_decide (hash = currentTokenHash) |}.
Fixpoint list_loop (currentTokenHash : string) (hashes : list string) (sessions : list SessionInfo) :
    sess (list SessionInfo) :=
  match hashes with
  | [] => pret sessions
  | hash :: hashes =>
      ptry (cmd_ (GET (session_key hash))) (λ r,
        match r with
        | inl (Some data) => list_loop currentTokenHash hashes (sessions ++ [session_info currentTokenHash hash data])
        | _ => list_loop currentTokenHash hashes sessions
        end)
  end.
Definition List_ (userID currentTokenHash : string) : sess (list SessionInfo) :=
  let* hashes := pwrap "listing sessions: %w" (cmd_ (SMEMBERS (userSessionsKey userID))) in
  list_loop currentTokenHash hashes [].

Definition Revoke (userID sessionHash : string) : sess unit :=
  do* pignore (cmd_ (DEL [session_key sessionHash])) in
  pignore (cmd_ (SREM (userSessionsKey userID) [sessionHash])).

Fixpoint revoke_loop (currentHash : string) (hashes : list string) : sess unit :=
  match hashes with
  | [] => pret tt
  | hash :: hashes =>
      if decide (hash = currentHash) then revoke_loop currentHash hashes
      else do* pignore (cmd_ (DEL [session_key hash])) in revoke_loop currentHash hashes
  end.
Definition RevokeAll (userID currentHash : string) : sess unit :=
  let* hashes := pwrap "listing sessions for revoke: %w" (cmd_ (SMEMBERS (userSessionsKey userID))) in
  do* revoke_loop currentHash hashes in
  do* pignore (cmd_ (DEL [userSessionsKey userID])) in
  if decide (currentHash = "")%string then pret tt
  else
    do* pignore (cmd_ (SADD (userSessionsKey userID) currentHash)) in
    pignore (cmd_ (EXPIRE (userSessionsKey userID) refreshTTL)).
End operations.

(** ** The handlers that end sessions *)
Definition BlocklistToken (token : string) (expiresAt : time) : sess unit :=
  let* now := time_Now in
  let ttl := time_Sub expiresAt now in
  if ttl <=? 0 then pret tt
  else pignore (cmd_ (SET (token_blocklistKey (sha256Hash token)) "revoked" ttl)).
Definition BlocklistUserRefreshTokens (userID : string) : sess unit :=
  pignore (cmd_ (SET (blocklistKey userID) "revoked" (7 * 24 * 3600 * second))).

(** A pipeline sends its commands one by one; its error is dropped. *)
Fixpoint del_sessions (hashes : list string) : sess unit :=
  match hashes with
  | [] => pret tt
  | hash :: hashes => do* pignore (cmd_ (DEL [session_key hash])) in del_sessions hashes
  end.
(** [Logout] with a client of Redis: the expiry is that of the access token, [None]
    when it cannot be read; the refresh token is that of the body, or empty. *)
Definition Logout (token : string) (expiry : option time) (userID refreshToken : string) : sess unit :=
  do* match expiry with Some t => BlocklistToken token t | None => pret tt end in
  do* (if decide (userID = "")%string then pret tt
       else
         do* ptry (cmd_ (SMEMBERS (userSessionsKey userID))) (λ r,
               match r with
               | inl hashes =>
                   do* del_sessions hashes in
                   pignore (cmd_ (DEL [userSessionsKey userID]))
               | inr _ => pret tt
               end) in
         BlocklistUserRefreshTokens userID) in
  if decide (refreshToken = "")%string then pret tt
  else pignore (cmd_ (DEL [session_key (sha256Hash refreshToken)])).

Definition RevokeSessionByID (userID sessionID : string) : sess unit :=
  if decide (sessionID = "")%string then pret tt
  else
    do* pignore (cmd_ (DEL [session_key sessionID])) in
    if decide (userID = "")%string then pret tt
    else pignore (cmd_ (SREM (userSessionsKey userID) [sessionID])).

(** [RevokeDeviceSession]: [false] is the answer that the session is not the user's. *)
Definition RevokeDeviceSession (userID sessionID : string) : sess bool :=
  if decide (sessionID = "" \/ userID = "")%string then pret false
  else
    ptry (cmd_ (SISMEMBER (userSessionsKey userID) sessionID)) (λ r,
      match r with
      | inl true =>
          do* pignore (cmd_ (DEL [session_key sessionID])) in
          do* pignore (cmd_ (SREM (userSessionsKey userID) [sessionID])) in
          pret true
      | _ => pret false
      end).

(** [ListSessions] of the handler reads the sessions as hashes. *)
Fixpoint hgetall_loop (hashes : list string) (sessions : list string) : sess (list string) :=
  match hashes with
  | [] => pret sessions
  | hash :: hashes =>
      ptry (cmd_ (HGETALL (session_key hash))) (λ r,
        match r with
        | inl (_ :: _) => hgetall_loop hashes (sessions ++ [hash])
        | _ => hgetall_loop hashes sessions
        end)
  end.
Definition ListSessions (userID : string) : sess (list string) :=
  ptry (cmd_ (SMEMBERS (userSessionsKey userID))) (λ r,
    match r with inl hashes => hgetall_loop hashes [] | inr _ => pret [] end).

(** The middleware in front of every authenticated route, and of the refresh route:
    the status of the refusal. *)
Definition blocklisted (hash : string) : sess (option Z) :=
  ptry (cmd_ (EXISTS (token_blocklistKey hash))) (λ r,
    match r with
    | inr _ => pret (Some 503)
    | inl n => pret (if 0 <? n then Some 401 else None)
    end).
Definition TokenBlocklistMiddleware (bearer : option string) : sess (option Z) :=
  match bearer with
  | Some token => if decide (token = "")%string then pret None else blocklisted (sha256Hash token)
  | None => pret None
  end.

(** The two tokens of [CSRFTokenValidator]: [None] lets the request through. *)
Definition CSRFTokenValidator (safe upgrade : bool) (requestToken : string) (authorization bearer : option string) :
    sess (option Z) :=
  if safe && negb upgrade then pret None
  else if decide (requestToken = "")%string then pret (Some 403)
  else match authorization, bearer with
       | None, _ => pret (Some 401)
       | Some _, None => pret (Some 401)
       | Some _, Some token =>
           if (String.length token <? 32)%nat then pret (Some 401)
           else ptry (cmd_ (GET (csrf_key (sha256Hash token)))) (λ r,
             match r with
             | inl None => pret (Some 403)
             | inr _ => pret (Some 503)
             | inl (Some expected) => pret (if decide (requestToken = expected) then None else Some 403)
             end)
       end.
End service.
End session.

(** * The sweep of the session indexes (src/internal/domain/auth/session/cleanup.go):
    one replica at a time drops the hashes whose sessions have expired. *)
Module cleaner.
Import redis session.

Definition cleanupLockKey : string := "lock:session-cleanup".
Definition cleanupLockTTL : duration := 5 * 60 * second.
Definition DefaultCleanupInterval : duration := 5 * 60 * second.
Definition userSessionsPrefix : string := "user:sessions:".

Record CleanupStats := {
  SetsScanned : Z;
  DanglingMembers : Z;
  EmptySetsRemoved : Z;
  RowsDeleted : Z;
}.
Definition no_stats : CleanupStats :=
  {| SetsScanned := 0; DanglingMembers := 0; EmptySetsRemoved := 0; RowsDeleted := 0 |}.
Definition count_set (removed : Z) (emptied : bool) (s : CleanupStats) : CleanupStats :=
  {| SetsScanned := SetsScanned s + 1; DanglingMembers := DanglingMembers s + removed;
     EmptySetsRemoved := EmptySetsRemoved s + (if emptied then 1 else 0); RowsDeleted := RowsDeleted s |}.
Definition with_rows (n : Z) (s : CleanupStats) : CleanupStats :=
  {| SetsScanned := SetsScanned s; DanglingMembers := DanglingMembers s;
     EmptySetsRemoved := EmptySetsRemoved s; RowsDeleted := n |}.

(** The interval and jitter [NewCleaner] keeps. *)
Definition NewCleaner (interval jitter : duration) : duration * duration :=
  (if interval <=? 0 then DefaultCleanupInterval else interval, if jitter <? 0 then 0 else jitter).

(** The members whose session is gone, asked one by one. *)
Fixpoint dangling_of (hashes : list string) : sess (list string) :=
  match hashes with
  | [] => pret []
  | hash :: hashes =>
      let* n := cmd_ (EXISTS (session_key hash)) in
      let* rest := dangling_of hashes in
      pret (if n =? 0 then hash :: rest else rest)
  end.

(** [pruneSet]: how many members it removed, and whether it removed the set.  An error
    after the removal keeps the count, which [sweep] does not use. *)
Definition pruneSet (key : string) : sess (Z * bool) :=
  let* hashes := pwrap "listing members of %s: %w" (cmd_ (SMEMBERS key)) in
  match hashes with
  | [] => pret (0, true)
  | _ =>
      let* dangling := pwrap "checking session keys for %s: %w" (dangling_of hashes) in
      match dangling with
      | [] => pret (0, false)
      | _ =>
          do* pwrap "removing expired members from %s: %w" (cmd_ (SREM key dangling)) in
          let* size := pwrap "sizing %s: %w" (cmd_ (SCARD key)) in
          if 0 <? size then pret (Z.of_nat (length dangling), false)
          else
            do* pwrap "deleting empty session set %s: %w" (cmd_ (DEL [key])) in
            pret (Z.of_nat (length dangling), true)
      end
  end.

Fixpoint prune_all (sets : list string) (stats : CleanupStats) : sess CleanupStats :=
  match sets with
  | [] => pret stats
  | key :: sets =>
      let* r := pruneSet key in
      prune_all sets (count_set r.1 r.2 stats)
  end.

(** The cursor loop of [SCAN] gives every key that is there during the whole scan; the
    store of legacy rows is [None] where the deployment has none. *)
Definition sweep (store : option (sess Z)) : sess CleanupStats :=
  let* sets := pwrap "scanning session index sets: %w" (cmd_ (KEYS userSessionsPrefix)) in
  let* stats := prune_all sets no_stats in
  match store with
  | None => pret stats
  | Some deleteExpired => let* deleted := deleteExpired in pret (with_rows deleted stats)
  end.

(** [RunOnce]: the lock is released whatever the sweep ends with; [false] means that
    another replica holds it. *)
Definition RunOnce (store : option (sess Z)) : sess (CleanupStats * bool) :=
  let* token := pwrap "generating cleanup lock token: %w" rand_Read in
  let* acquired := pwrap "acquiring session cleanup lock: %w" (cmd_ (SETNX cleanupLockKey token cleanupLockTTL)) in
  if negb acquired then pret (no_stats, false)
  else
    ptry (sweep store) (λ r,
      do* pignore (cmd_ (DELEQ cleanupLockKey token)) in
      match r with inl stats => pret (stats, true) | inr err => pfail err end).
End cleaner.
