(* ===== verification/SessionProps.v ===== *)
(** What sessions guarantee while calls overlap: every session and every token minted
    is that of a login. *)
From S2P Require Export Session.
From stdpp Require Import options.
From Stdlib Require Import Ascii.
#[local] Set Default Proof Using "Type*".
Open Scope Z_scope.
Local Open Scope go_scope.

Module sessionprops.
Import redis session cleaner.

(** The world of the service: Redis, the answers of the token service, and the access
    tokens it signed. *)
Record sworld := {
  sw_redis : world;
  sw_tokens : list (string + error);
  sw_minted : list (uuid * string);
}.
Definition perform_sess (X : Type) (e : sessE X) : M sworld X :=
  match e in sessE X return M sworld X with
  | Redis e => λ w, let '(r, rw) := redis.perform _ e (sw_redis w) in
      (r, {| sw_redis := rw; sw_tokens := sw_tokens w; sw_minted := sw_minted w |})
  | GenerateToken u _ role _ => λ w,
      match sw_tokens w with
      | [] => (Err (External "signing"), w)
      | inr err :: ts => (Err err, {| sw_redis := sw_redis w; sw_tokens := ts; sw_minted := sw_minted w |})
      | inl t :: ts =>
          (Ok t, {| sw_redis := sw_redis w; sw_tokens := ts; sw_minted := (u, role) :: sw_minted w |})
      end
  end.
(** The environment: time passes, random bytes and signatures come. *)
Definition env (w w' : sworld) : Prop :=
  rw_now (sw_redis w) <= rw_now (sw_redis w') /\ rw_keys (sw_redis w') = rw_keys (sw_redis w) /\
  sw_minted w' = sw_minted w.

(** The calls of the routes. *)
Inductive call :=
  | CCreate (userID : uuid) (role : string) (ttl : duration) (deviceInfo : string)
  | CValidate (token : string)
  | CRefresh (token : string) (accessTTL : duration)
  | CList (userID hash : string)
  | CRevoke (userID hash : string)
  | CRevokeAll (userID hash : string)
  | CLogout (token : string) (expiry : option time) (userID refreshToken : string)
  | CRevokeByID (userID hash : string)
  | CRevokeDevice (userID hash : string)
  | CListSessions (userID : string)
  | CTokenBlocklist (bearer : option string)
  | CCSRF (safe upgrade : bool) (requestToken : string) (authorization bearer : option string)
  | CClean.

Section props.
Context `{UUIDLib, !UUIDText, SessionLib}.
Variables (refreshTTL : duration).

Definition start (c : call) : sess unit :=
  match c with
  | CCreate u role ttl dev => pignore (Create refreshTTL u role ttl dev)
  | CValidate t => pignore (Validate t)
  | CRefresh t ttl => pignore (Refresh refreshTTL t ttl)
  | CList u h => pignore (List_ u h)
  | CRevoke u h => Revoke u h
  | CRevokeAll u h => RevokeAll refreshTTL u h
  | CLogout t e u r => Logout t e u r
  | CRevokeByID u h => RevokeSessionByID u h
  | CRevokeDevice u h => pignore (RevokeDeviceSession u h)
  | CListSessions u => pignore (ListSessions u)
  | CTokenBlocklist b => pignore (TokenBlocklistMiddleware b)
  | CCSRF s up t a b => pignore (CSRFTokenValidator s up t a b)
  | CClean => pignore (RunOnce None)
  end.

(** ** The fields of a session *)
Lemma text_no_pipe u : (u < 2 ^ 128)%N -> has_byte pipe (uuid_String u) = false.
Proof.
  intros Hu. destruct (uuid_String_text u Hu) as (_ & _ & Hf). unfold has_byte.
  apply not_true_is_false. intros Hx. apply existsb_exists in Hx as (c & Hc & E).
  apply bool_decide_eq_true in E as ->. rewrite forallb_forall in Hf. specialize (Hf _ Hc). by vm_compute in Hf.
Qed.
Lemma session_data_user u dev ts role : (u < 2 ^ 128)%N ->
  head (str_split pipe (session_data (uuid_String u) dev ts role)) = Some (uuid_String u).
Proof. intros Hu. by apply str_split_head, text_no_pipe. Qed.
Lemma session_data_role user dev ts role :
  SessionRole (session_data user dev ts role) = SessionRole role.
Proof. unfold SessionRole, session_data. by rewrite !str_split_last. Qed.
Lemma SessionRole_values data : SessionRole data = "user"%string \/ SessionRole data = "admin"%string.
Proof. unfold SessionRole. destruct (last _); [|by left]. case_decide; [done|by left]. Qed.
Lemma SessionRole_twice role : SessionRole (SessionRole role) = SessionRole role.
Proof. by destruct (SessionRole_values role) as [->| ->]. Qed.

(** ** Every token is that of a login

    [logins] are the users and roles for which sessions were created by a login; a
    token may be minted for the role of the login, or for what is read back of it. *)
(** The block list keeps a user for seven days. *)
Definition block_ttl : duration := 7 * 24 * 3600 * second.
Definition role_or_user (role : string) : string := if decide (role = "")%string then "user"%string else role.
Section logins.
Variables (logins : uuid -> string -> Prop) (blocked : uuid -> Prop).
Hypothesis logins_text : forall u role, logins u role -> (u < 2 ^ 128)%N.

Definition grant (u : uuid) (r : string) : Prop :=
  exists role, logins u role /\ (r = role_or_user role \/ r = SessionRole (role_or_user role)).
Definition granted_data (d : string) : Prop :=
  exists u dev ts r, d = session_data (uuid_String u) dev ts r /\ grant u r.
Definition is_session (k : string) : Prop := exists h, k = session_key h.

Definition keys_granted (ks : gmap string entry) : Prop :=
  forall k e, ks !! k = Some e -> is_session k -> exists d, e_val e = RString d /\ granted_data d.

(** What a command must respect, and what its answer then says.  The entry of a
    [blocked] user in the block list is written only to be set again. *)
Definition cmd_pre {X} (c : cmd X) : Prop :=
  match c with
  | SET k v ttl => (is_session k -> granted_data v) /\
      (forall u, blocked u -> k = blocklistKey (uuid_String u) -> px ttl = block_ttl /\ 0 < ttl)
  | _ => forall u, blocked u -> blocklistKey (uuid_String u) ∉ writes c
  end /\
  match c with
  | SETNX k v _ => is_session k -> granted_data v
  | SADD k _ | ZADD k _ _ | INCRBYFLOAT k _ => ~ is_session k
  | _ => True
  end.
Definition pre (X : Type) (e : sessE X) : Prop :=
  match e with
  | Redis (Cmd c) => cmd_pre c
  | Redis (MULTI cs) => Forall (λ a, match a with Any c => cmd_pre c end) cs
  | Redis _ => True
  | GenerateToken u _ role _ => grant u role /\ ~ blocked u
  end.
Definition cmd_post {X} (c : cmd X) : result X -> Prop :=
  match c in cmd X return result X -> Prop with
  | GET k => λ r, forall d, r = Ok (Some d) -> is_session k -> granted_data d
  | EXISTS k => λ r, forall u n, blocked u -> k = blocklistKey (uuid_String u) -> r = Ok n -> 0 < n
  | KEYS p => λ r, forall l, r = Ok l -> Forall (λ k, String.prefix p k = true) l
  | _ => λ _, True
  end.
Definition post (X : Type) (e : sessE X) : result X -> Prop :=
  match e in sessE X return result X -> Prop with
  | Redis e => match e in redisE X return result X -> Prop with Cmd c => cmd_post c | _ => λ _, True end
  | GenerateToken _ _ _ _ => λ _, True
  end.
Abbreviation typed p Q := (safe pre post p Q) (only parsing).
Abbreviation harmless p := (safe pre post p (λ _, True)) (only parsing).

Lemma safe_cmd {X} (c : cmd X) (Q : result X -> Prop) :
  cmd_pre c -> (forall r, cmd_post c r -> Q r) -> typed (cmd_ c) Q.
Proof. by split. Qed.

(** One rule of [safe], by the head of the program. *)
Ltac cmd_side :=
  unfold cmd_pre; cbn [writes]; repeat match goal with |- _ /\ _ => split end; intros;
  repeat match goal with
  | H : is_session _ |- _ => destruct H as [? H]
  | |- ~ _ => intros ?
  | H : _ ∈ _ :: _ |- _ => apply elem_of_cons in H as [H|H]
  | H : _ ∈ [] |- _ => by apply not_elem_of_nil in H
  end; lazymatch goal with
       | |- px (7 * 24 * 3600 * second) = _ => vm_compute; reflexivity
       | |- 0 < 7 * 24 * 3600 * second => unfold second; lia
       | |- _ => first [done | discriminate | idtac]
       end.
Ltac safe_rule :=
  lazymatch goal with
  | |- safe _ _ (pbind _ _) _ => apply safe_pbind
  | |- safe _ _ (ptry _ _) _ => apply safe_ptry
  | |- safe _ _ (pignore _) _ => apply safe_ptry
  | |- safe _ _ (pwrap _ _) _ => apply safe_pwrap
  | |- safe _ _ (cmd_ _) _ => apply safe_cmd; [cmd_side|let r := fresh "r" in let Hr := fresh "Hr" in intros r Hr; cbn in Hr; destruct r]
  | |- safe _ _ rand_Read _ => apply safe_act; [exact I|let r := fresh "r" in intros r _; destruct r]
  | |- safe _ _ time_Now _ => apply safe_act; [exact I|let r := fresh "r" in intros r _; destruct r]
  | |- safe _ _ (pret _) _ => apply safe_pret
  | |- safe _ _ (pfail _) _ => apply safe_pfail
  | |- safe _ _ (if ?b then _ else _) _ => destruct b eqn:?
  | |- safe _ _ (match ?x with _ => _ end) _ => destruct x eqn:?
  end; cbv beta iota; cbn [wrap_err].
Ltac safe_run := try done; repeat (safe_rule; try done).

Lemma Create_safe u role ttl dev (Q : result TokenPair -> Prop) :
  grant u (role_or_user role) -> ~ blocked u -> (forall r, Q r) -> typed (Create refreshTTL u role ttl dev) Q.
Proof.
  intros Hg Hb HQ. unfold Create. fold (role_or_user role). safe_rule. safe_rule.
  apply safe_act; [by split|]. intros [t|e|] _; cbn [wrap_err]; auto.
  repeat (safe_rule; auto). apply safe_act.
  - repeat (constructor; [cmd_side|]); [|by constructor].
    by exists u, dev, (time_Unix a1), (role_or_user role).
  - intros [[]|e|] _; auto; repeat (safe_rule; auto).
Qed.

(** The block list stops the sessions of a blocked user. *)
Lemma check_blocklist_typed user h :
  typed (check_blocklist user (session_key h)) (λ r, r = Ok tt -> forall u, user = uuid_String u -> ~ blocked u).
Proof.
  unfold check_blocklist. safe_rule. apply safe_cmd; [cmd_side|]. intros [n|e|] Hn; [| |done]; cbv beta iota.
  - destruct (Z.ltb_spec 0 n) as [Hlt|Hge]; [by safe_run|]. apply safe_pret. intros _ u -> Hb.
    specialize (Hn u n Hb eq_refl eq_refl). lia.
  - by apply safe_pfail.
Qed.

Lemma length_app (a b : string) : String.length (a ++ b) = (String.length a + String.length b)%nat.
Proof. induction a as [|x a IH]; [done|]. rewrite str_app_cons. cbn. by rewrite IH. Qed.
Lemma fmt_d_nonempty n : (1 <= String.length (fmt_d n))%nat.
Proof.
  unfold fmt_d. pose proof (dec_digits_nonnil n). generalize (dec_digits (- n)). intros l.
  destruct (n <? 0); [cbn; lia|]. destruct (dec_digits n); [done|]. cbn. lia.
Qed.
Lemma grant_nonempty u r : grant u r -> (1 <= String.length r)%nat.
Proof.
  intros (role & _ & [->| ->]).
  - unfold role_or_user. case_decide as Hr; [cbn; lia|]. destruct role; [done|cbn; lia].
  - by destruct (SessionRole_values (role_or_user role)) as [->| ->]; cbn; lia.
Qed.
(** The fields of a session are not the text of an identifier. *)
Lemma session_not_uuid d : granted_data d -> uuid_Parse d = None.
Proof.
  intros (u & dev & ts & r & -> & Hg). destruct (uuid_Parse _) as [v|] eqn:E; [|done]. exfalso.
  assert (u < 2 ^ 128)%N as Hu by (destruct Hg as (role & Hl & _); by eapply logins_text).
  destruct (uuid_String_text u Hu) as (Hlen & _ & Hf). destruct (uuid_Parse_text _ _ E) as [_ [Hin|[Hl Hh]]].
  - unfold session_data in Hin. rewrite !length_app in Hin. cbn in Hin. rewrite !length_app in Hin. cbn in Hin.
    rewrite !length_app in Hin. cbn in Hin. rewrite Hlen in Hin. rewrite !elem_of_cons in Hin.
    pose proof (fmt_d_nonempty ts). pose proof (grant_nonempty _ _ Hg). destruct Hin as [?|[?|[?|Hin]]]; [lia..|by apply not_elem_of_nil in Hin].
  - unfold session_data in Hh. rewrite list_ascii_of_app in Hh.
    destruct (String.list_ascii_of_string (uuid_String u)) as [|x l] eqn:El.
    { destruct (uuid_String u); [done|discriminate El]. }
    cbn in Hh, Hf. apply andb_true_iff in Hf as [Hf _]. rewrite !elem_of_cons in Hh.
    destruct Hh as [[= ->]|[[= ->]|Hh]]; [by vm_compute in Hf..|by apply not_elem_of_nil in Hh].
Qed.

Lemma Validate_typed token : typed (Validate token) (λ r, forall uid, r <> Ok uid).
Proof.
  unfold Validate, get_session. do 4 (safe_rule; try done). destruct a as [d|]; [|done].
  specialize (Hr d eq_refl ltac:(by eexists)). apply safe_pret. cbv beta iota.
  apply safe_pbind. eapply safe_mono; [apply check_blocklist_typed|]. intros [?|e|] _; [|done..].
  unfold parse_user. by rewrite (session_not_uuid _ Hr).
Qed.

Lemma grant_again u r : grant u r -> grant u (SessionRole r) /\ role_or_user (SessionRole r) = SessionRole r.
Proof.
  intros (role & Hl & Hr). split.
  - exists role. split; [done|]. right. destruct Hr as [->| ->]; [done|apply SessionRole_twice].
  - unfold role_or_user. by destruct (SessionRole_values r) as [->| ->].
Qed.

Lemma Refresh_harmless t ttl : harmless (Refresh refreshTTL t ttl).
Proof.
  unfold Refresh, get_session. safe_rule. safe_rule. safe_rule. apply safe_cmd; [cmd_side|].
  intros [[d|]|e|] Hd; cbn [wrap_err]; try done. cbn in Hd.
  destruct (Hd d eq_refl) as (u & dev & ts & r & -> & Hg); [by eexists|].
  assert (u < 2 ^ 128)%N as Hu by (destruct Hg as (role & Hl & _); by eapply logins_text).
  apply safe_pret. cbv beta iota. rewrite session_data_user, session_data_role by done. cbn [from_option]. change (id (uuid_String u)) with (uuid_String u).
  apply safe_pbind. eapply safe_mono; [apply check_blocklist_typed|]. intros [[]|e|] Hb; [|done..].
  specialize (Hb eq_refl u eq_refl).
  unfold parse_user. destruct (uuid_String_text u Hu) as (_ & -> & _). apply safe_pbind, safe_pret. cbv beta iota.
  destruct (grant_again u r Hg) as [Hg' Hr'].
  apply safe_pbind, safe_pwrap, Create_safe; [by rewrite Hr'|done|]. intros [p|e|]; cbn [wrap_err]; try done. safe_run.
Qed.

Lemma list_loop_harmless h hashes l : harmless (list_loop h hashes l).
Proof.
  revert l. induction hashes as [|k hashes IH]; intros l; cbn [list_loop]; safe_run.
Qed.
Lemma revoke_loop_harmless h hashes : harmless (revoke_loop h hashes).
Proof. induction hashes as [|k hashes IH]; cbn [revoke_loop]; safe_run. Qed.
Lemma del_sessions_harmless hashes : harmless (del_sessions hashes).
Proof. induction hashes as [|k hashes IH]; cbn [del_sessions]; safe_run. Qed.
Lemma hgetall_loop_harmless hashes l : harmless (hgetall_loop hashes l).
Proof. revert l. induction hashes as [|k hashes IH]; intros l; cbn [hgetall_loop]; safe_run. Qed.
Lemma dangling_of_harmless hashes : harmless (dangling_of hashes).
Proof.
  induction hashes as [|k hashes IH]; cbn [dangling_of]; [done|]. safe_rule. safe_rule; try done.
  apply safe_pbind_any; [exact IH| |done|done]. intros rest. by safe_run.
Qed.

Lemma pruneSet_harmless key : String.prefix userSessionsPrefix key = true -> harmless (pruneSet key).
Proof.
  intros Hp. assert (forall u, blocklistKey u <> key) as Hk by (intros u <-; discriminate Hp).
  unfold pruneSet. do 3 (safe_rule; try done). destruct a as [|h hashes]; [done|].
  apply safe_pbind, safe_pwrap. eapply safe_mono; [apply dangling_of_harmless|].
  intros [[|d dangling]|e|] _; cbv beta iota; cbn [wrap_err]; try done.
  safe_run; by eapply Hk.
Qed.
Lemma prune_all_harmless sets stats :
  Forall (λ k, String.prefix userSessionsPrefix k = true) sets -> harmless (prune_all sets stats).
Proof.
  intros Hs. revert stats. induction Hs as [|k sets Hk _ IH]; intros stats; cbn [prune_all]; [done|].
  apply safe_pbind_any; [by apply pruneSet_harmless|auto|done|done].
Qed.
Lemma sweep_harmless : harmless (sweep None).
Proof.
  unfold sweep. do 3 (safe_rule; try done). apply safe_pbind. eapply safe_mono; [by apply prune_all_harmless, Hr|].
  intros [stats|e|] _; by safe_run.
Qed.
Lemma RunOnce_harmless : harmless (RunOnce None).
Proof.
  unfold RunOnce. do 6 (safe_rule; try done). safe_rule; [done|]. apply safe_ptry.
  eapply safe_mono; [apply sweep_harmless|]. intros [stats|e|] _; cbv beta iota; safe_run.
Qed.

(** The calls of a pool: logins of users that are not blocked, and any other call. *)
Definition allowed (c : call) : Prop :=
  match c with CCreate u role _ _ => logins u role /\ ~ blocked u | _ => True end.
Lemma start_harmless c : allowed c -> harmless (start c).
Proof.
  destruct c; intros Hc; cbn [start]; try apply safe_pignore.
  - destruct Hc as [Hc Hb]. apply Create_safe; [|done|done]. exists role. auto.
  - eapply safe_mono; [apply Validate_typed|done].
  - apply Refresh_harmless.
  - unfold List_. do 3 (safe_rule; try done). apply list_loop_harmless.
  - unfold Revoke. safe_run.
  - unfold RevokeAll. do 3 (safe_rule; try done). apply safe_pbind_any; [apply revoke_loop_harmless| |done|done].
    intros _. safe_run.
  - unfold Logout, BlocklistToken, BlocklistUserRefreshTokens.
    apply safe_pbind_any; [destruct expiry; by safe_run| |done|done]. intros _.
    apply safe_pbind_any; [| |done|done].
    + safe_rule; [by safe_run|]. apply safe_pbind_any; [|intros _; by safe_run|done|done].
      do 2 (safe_rule; try done). apply safe_pbind_any; [apply del_sessions_harmless| |done|done].
      intros _. by safe_run.
    + intros _. safe_run.
  - unfold RevokeSessionByID. safe_run.
  - unfold RevokeDeviceSession. safe_run.
  - unfold ListSessions. do 2 (safe_rule; try done). apply hgetall_loop_harmless.
  - unfold TokenBlocklistMiddleware, blocklisted. safe_run.
  - unfold CSRFTokenValidator. safe_run.
  - apply RunOnce_harmless.
Qed.

(** ** What the actions do to the sessions *)
Lemma keys_granted_insert ks k e : keys_granted ks ->
  (is_session k -> exists d, e_val e = RString d /\ granted_data d) -> keys_granted (<[k := e]> ks).
Proof.
  intros Hk He k' e' Hl Hs. destruct (decide (k = k')) as [->|Hne].
  - rewrite lookup_insert_eq in Hl. injection Hl as <-. auto.
  - rewrite lookup_insert_ne in Hl by done. eauto.
Qed.
Lemma keys_granted_delete ks k : keys_granted ks -> keys_granted (delete k ks).
Proof. intros Hk k' e' Hl Hs. apply lookup_delete_Some in Hl as [_ Hl]. eauto. Qed.
Lemma keys_granted_view now ks k e : keys_granted ks -> view now k ks = Some e -> is_session k ->
  exists d, e_val e = RString d /\ granted_data d.
Proof.
  unfold view. intros Hk Hv Hs. destruct (ks !! k) as [e0|] eqn:E; [|done].
  destruct (alive now e0); [|done]. injection Hv as <-. eauto.
Qed.
(** A session is not a set: a command on one fails. *)
Lemma session_not_set now ks k : keys_granted ks -> is_session k ->
  as_set now k ks = Ok ∅ /\ view now k ks = None \/ as_set now k ks = Err WRONGTYPE.
Proof.
  intros Hk Hs. unfold as_set. destruct (view now k ks) as [e|] eqn:E; [|by left].
  destruct (keys_granted_view _ _ _ _ Hk E Hs) as (d & -> & _). by right.
Qed.
Lemma session_not_zset now ks k : keys_granted ks -> is_session k ->
  as_zset now k ks = Ok ∅ \/ as_zset now k ks = Err WRONGTYPE.
Proof.
  intros Hk Hs. unfold as_zset. destruct (view now k ks) as [e|] eqn:E; [|by left].
  destruct (keys_granted_view _ _ _ _ Hk E Hs) as (d & -> & _). by right.
Qed.

Lemma foldr_delete_granted l ks : keys_granted ks -> keys_granted (foldr delete ks l).
Proof. intros Hk. induction l as [|k l IH]; [done|]. cbn. by apply keys_granted_delete. Qed.
Lemma set_string_granted now k v ttl ks :
  keys_granted ks -> (is_session k -> granted_data v) -> keys_granted (set_string now k v ttl ks).
Proof. intros Hk Hv. apply keys_granted_insert; [done|]. intros Hs. exists v. auto. Qed.

Lemma exec_granted {X} now (c : cmd X) ks :
  keys_granted ks -> cmd_pre c -> keys_granted (exec now c ks).2.
Proof.
  intros Hk [Hc1 Hc2]. destruct c; cbn [exec fst snd] in *; unfold update; try done.
  - apply set_string_granted; [done|apply Hc1].
  - case_match; [done|]. by apply set_string_granted.
  - by apply foldr_delete_granted.
  - destruct (view now k ks) as [e|] eqn:E; [|done]. cbn [snd].
    destruct (ex ttl <=? 0); [by apply keys_granted_delete|].
    apply keys_granted_insert; [done|]. intros Hs. exact (keys_granted_view _ _ _ _ Hk E Hs).
  - destruct (as_set now k ks) as [s| |]; [|done..]. cbn [snd]. unfold put_set, put.
    case_decide; [by apply keys_granted_delete|]. apply keys_granted_insert; [done|]. intros Hs. by destruct (Hc2 Hs).
  - destruct (as_set now k ks) as [m| |] eqn:E; [|done..]. cbn [snd]. unfold put_set, put.
    case_decide as Hm; [by apply keys_granted_delete|]. apply keys_granted_insert; [done|]. intros Hs.
    destruct (session_not_set now ks k Hk Hs) as [[E' _]|E']; rewrite E' in E; simplify_eq.
    exfalso. apply Hm, elem_of_equiv_empty_L. intros x Hx. apply elem_of_difference in Hx as [Hx _].
    by apply not_elem_of_empty in Hx.
  - destruct (as_zset now k ks) as [m| |] eqn:E; [|done..]. cbn [snd]. unfold put_zset, put.
    case_decide as Hm; [by apply keys_granted_delete|]. apply keys_granted_insert; [done|]. intros Hs.
    destruct (session_not_zset now ks k Hk Hs) as [E'|E']; rewrite E' in E; by simplify_eq.
  - destruct (as_zset now k ks) as [s| |]; [|done..]. cbn [snd]. unfold put_zset, put.
    case_decide; [by apply keys_granted_delete|]. apply keys_granted_insert; [done|]. intros Hs. by destruct (Hc2 Hs).
  - unfold put. repeat (case_match; cbn [snd]); try done; (apply keys_granted_insert; [done|]); intros Hs; by destruct (Hc2 Hs).
  - case_match; [|done]. case_match; try done. cbn [snd]. case_decide; [by apply keys_granted_delete|done].
Qed.
Lemma exec_GET_granted now k ks : keys_granted ks -> cmd_post (GET k) (exec now (GET k) ks).1.
Proof.
  intros Hk d Hd Hs. cbn in Hd. destruct (view now k ks) as [e|] eqn:E; [|done].
  destruct (keys_granted_view _ _ _ _ Hk E Hs) as (d' & Hd' & Hg). rewrite Hd' in Hd. by injection Hd as <-.
Qed.
Lemma exec_KEYS_prefix now p ks : cmd_post (KEYS p) (exec now (KEYS p) ks).1.
Proof. intros l [= <-]. apply Forall_forall. intros k Hk. by apply list_elem_of_filter in Hk as [? _]. Qed.

(** ** The entry of a blocked user in the block list *)
Section until.
Variables (t_end : time).

Definition kept_until (ks : gmap string entry) (u : uuid) : Prop :=
  exists e, ks !! blocklistKey (uuid_String u) = Some e /\
    (e_exp e = None \/ exists t, e_exp e = Some t /\ t_end <= t).
Lemma kept_view now ks u : now < t_end -> kept_until ks u ->
  exists e, view now (blocklistKey (uuid_String u)) ks = Some e.
Proof.
  intros Ht (e & He & Hexp). unfold view, alive. rewrite He.
  destruct Hexp as [->|(t & -> & Hle)]; [by eexists|]. destruct (Z.ltb_spec now t); [by eexists|lia].
Qed.

Lemma exec_kept {X} now (c : cmd X) ks u : blocked u -> cmd_pre c -> t_end <= now + block_ttl ->
  kept_until ks u -> kept_until (exec now c ks).2 u.
Proof.
  intros Hb [Hc _] Hle Hk.
  assert (blocklistKey (uuid_String u) ∉ writes c -> kept_until (exec now c ks).2 u) as Hframe.
  { intros Hn. unfold kept_until. by rewrite exec_frame. }
  destruct c; try (apply Hframe; by apply Hc).
  destruct (decide (k = blocklistKey (uuid_String u))) as [->|Hne].
  - destruct Hc as [_ Hc]. destruct (Hc u Hb eq_refl) as [Hpx Hpos]. cbn. unfold set_string. rewrite Hpx.
    destruct (Z.leb_spec ttl 0); [lia|]. eexists. split; [apply lookup_insert_eq|]. right. by eexists.
  - apply Hframe. cbn. intros Hin. apply list_elem_of_singleton in Hin. congruence.
Qed.

Definition locked (w : world) (u : uuid) : Prop :=
  rw_now w < t_end /\ t_end <= rw_now w + block_ttl /\ prompt w /\ kept_until (rw_keys w) u.
Definition Inv (w : sworld) : Prop :=
  keys_granted (rw_keys (sw_redis w)) /\ Forall (λ m, grant m.1 m.2 /\ ~ blocked m.1) (sw_minted w) /\
  (forall u, blocked u -> locked (sw_redis w) u).

(** Commands sent one by one, or as one, keep the entry and the sessions. *)
Lemma exec_all_keeps now cs ks : Forall (λ a, match a with Any c => cmd_pre c end) cs ->
  keys_granted ks -> keys_granted (exec_all now cs ks).2 /\
  (forall u, blocked u -> t_end <= now + block_ttl -> kept_until ks u -> kept_until (exec_all now cs ks).2 u).
Proof.
  intros Hcs. revert ks. induction Hcs as [|[X c] cs Hc _ IH]; intros ks Hk; [done|]. cbn.
  pose proof (exec_granted now c ks Hk Hc) as Hk'. pose proof (λ u Hb Hle, exec_kept now c ks u Hb Hc Hle) as Hu.
  destruct (exec now c ks) as [r ks1]. cbn [fst snd] in *. destruct (IH ks1 Hk') as [IH1 IH2].
  destruct (exec_all now cs ks1) as [rs ks2]. cbn [fst snd] in *. split; [done|]. intros u Hb Hle Hkept. auto.
Qed.

Lemma server_keeps {X} (f : time -> gmap string entry -> result X * gmap string entry) rw r rw' :
  on_server f rw = (r, rw') -> keys_granted (rw_keys rw) -> (forall u, blocked u -> locked rw u) ->
  (forall now, keys_granted (f now (rw_keys rw)).2 /\
    forall u, blocked u -> t_end <= now + block_ttl -> kept_until (rw_keys rw) u -> kept_until (f now (rw_keys rw)).2 u) ->
  keys_granted (rw_keys rw') /\ (forall u, blocked u -> locked rw' u) /\
  (r = (f (rw_now rw') (rw_keys rw)).1 \/ exists e, r = Err e).
Proof.
  intros E Hk Hb Hf. destruct (on_server_spec _ _ _ _ E) as (Hle & Hp & Hcase). destruct (Hf (rw_now rw')) as [Hf1 Hf2].
  split; [destruct Hcase as [[-> _]|[-> _]]; done|]. split.
  - intros u Hu. destruct (Hb u Hu) as (H1' & H2' & H3' & H4'). destruct (Hp H3') as [Hnow Hp'].
    unfold locked. rewrite Hnow in *. split_and!; [done..|].
    destruct Hcase as [[-> _]|[-> _]]; [done|]. by apply Hf2.
  - destruct Hcase as [[_ ?]|[_ ?]]; auto.
Qed.

Lemma perform_keeps X (e : sessE X) w r w' :
  perform_sess X e w = (r, w') -> Inv w -> pre _ e -> Inv w' /\ post _ e r.
Proof.
  intros E (Hk & Hm & Hb) Hpre. destruct e as [X e|u wal role ttl]; cbn in E.
  - destruct (redis.perform X e (sw_redis w)) as [r1 rw] eqn:E1. injection E as -> <-. unfold Inv. cbn [sw_redis sw_minted].
    destruct e as [X c|cs| |]; cbn in E1, Hpre.
    + destruct (server_keeps _ _ _ _ E1 Hk Hb) as (Hk' & Hb' & Hr).
      { intros now. split; [by apply exec_granted|]. intros u ???. by apply exec_kept. }
      split; [done|]. cbn [post]. destruct Hr as [->|[err ->]]; [|by destruct c].
      destruct c; try done; [by apply exec_GET_granted| |apply exec_KEYS_prefix].
      intros u n Hu -> Hn. destruct (Hb' u Hu) as (Ht & _). destruct (Hb u Hu) as (_ & _ & _ & Hkept).
      destruct (kept_view _ _ _ Ht Hkept) as [e He]. cbn in Hn. rewrite He in Hn. injection Hn as <-. lia.
    + destruct (server_keeps _ _ _ _ E1 Hk Hb) as (Hk' & Hb' & Hr); [|done]. intros now. by apply exec_all_keeps.
    + by injection E1 as <- <-.
    + destruct (rw_rand (sw_redis w)) as [|[s|err] rs]; injection E1 as <- <-; done.
  - unfold Inv in *. destruct (sw_tokens w) as [|[t|err] ts]; injection E as <- <-; cbn [sw_redis sw_minted]; [done| |done].
    split; [|done]. split; [done|]. split; [|done]. by constructor.
Qed.

Lemma env_keeps w w' : env w w' ->
  (forall u, blocked u -> rw_now (sw_redis w') < t_end /\ prompt (sw_redis w')) -> Inv w -> Inv w'.
Proof.
  intros (Hle & Hks & Hmin) Hu (Hk & Hm & Hb). unfold Inv. rewrite Hks, Hmin. split; [done|]. split; [done|].
  intros u Hbu. destruct (Hb u Hbu) as (? & ? & _ & ?), (Hu u Hbu). unfold locked. rewrite Hks. split_and!; [done|lia|done..].
Qed.
End until.
End logins.

(** The logins of a pool. *)
Definition pool_logins (ps : list (call * sess unit)) (u : uuid) (role : string) : Prop :=
  exists ttl dev, CCreate u role ttl dev ∈ ps.*1.
Definition texts (ps : list (call * sess unit)) : Prop :=
  forall u role, pool_logins ps u role -> (u < 2 ^ 128)%N.

Lemma pool_keeps logins blocked t_end env' w c :
  (forall u role, logins u role -> (u < 2 ^ 128)%N) -> Inv logins blocked t_end w ->
  (forall w w', env' w w' -> env w w' /\
    forall u, blocked u -> rw_now (sw_redis w') < t_end /\ prompt (sw_redis w')) ->
  reachable perform_sess start env' w c -> Forall (allowed logins blocked) c.2.*1 ->
  Inv logins blocked t_end c.1.
Proof.
  intros Ht Hw He Hr Hc.
  edestruct (pool_safe (pre logins blocked) (post logins blocked) perform_sess (Inv logins blocked t_end))
    as [Hi _]; [| | |exact Hw|exact Hr|exact Hc|exact Hi].
  - intros. by eapply perform_keeps.
  - intros w1 w2 Henv. destruct (He _ _ Henv). by apply env_keeps.
  - intros l Hl. by apply start_harmless.
Qed.

Lemma pool_from_empty w c : rw_keys (sw_redis w) = ∅ -> sw_minted w = [] ->
  reachable perform_sess start env w c -> texts c.2 -> Inv (pool_logins c.2) (λ _, False) 0 c.1.
Proof.
  intros Hks Hm Hr Ht. eapply pool_keeps; [exact Ht| | |exact Hr|].
  - unfold Inv. rewrite Hks, Hm. split; [by intros k e|]. split; [constructor|by intros u []].
  - intros w1 w2 He. split; [done|intros ? []].
  - apply Forall_forall. intros [] Hl; try done. split; [|by intros []]. by exists ttl, deviceInfo.
Qed.

(** C12: However calls overlap, whatever is lost between them and Redis, and whatever
    bytes the device descriptions hold: every access token that was minted, and every
    session that is kept, is for the user of some login and for the role of that login
    or for the plain role it reads as; a refresh never gives another user's session and
    never raises a role. *)
Theorem sessions_keep_identity w c :
  rw_keys (sw_redis w) = ∅ -> sw_minted w = [] ->
  reachable perform_sess start env w c -> texts c.2 ->
  Forall (λ m, grant (pool_logins c.2) m.1 m.2) (sw_minted c.1) /\
  (forall h e, rw_keys (sw_redis c.1) !! session_key h = Some e ->
    exists d, e_val e = RString d /\ granted_data (pool_logins c.2) d).
Proof.
  intros Hks Hm Hr Ht. destruct (pool_from_empty w c Hks Hm Hr Ht) as (Hk & Hmin & _).
  split; [|intros h e He; eapply Hk; [exact He|by exists h]].
  eapply Forall_impl; [exact Hmin|]. by intros m [? _].
Qed.
End props.
End sessionprops.
