(* ===== verification/SessionRuns.v ===== *)
(** Ending sessions: what a logout guarantees, what validation and the listings
    answer. *)
From S2P Require Export SessionProps.
From stdpp Require Import options.
From Stdlib Require Import Ascii.
#[local] Set Default Proof Using "Type*".
Open Scope Z_scope.
Local Open Scope go_scope.

Module sessionruns.
Import redis session cleaner sessionprops.

Section runs.
Context `{UUIDLib, !UUIDText, SessionLib}.
Variables (refreshTTL : duration).

(** ** Programs that cannot fail and mint nothing *)
Definition any_pre (X : Type) (e : sessE X) : Prop :=
  match e with Redis _ => True | GenerateToken _ _ _ _ => False end.
Definition reads_clock {X} (e : sessE X) : bool := match e with Redis Now => true | _ => false end.
Definition any_post (X : Type) (e : sessE X) (r : result X) : Prop :=
  r <> Panic /\ (reads_clock e = true -> is_ok r = true).
Abbreviation succeeds p := (safe any_pre any_post p (λ r, r = Ok tt)) (only parsing).

(** Over a network without faults and delays, only the environment moves the clock. *)
Definition still (t : time) (m : list (uuid * string)) (w : sworld) : Prop :=
  rw_net (sw_redis w) = [] /\ rw_now (sw_redis w) = t /\ sw_minted w = m.
Lemma perform_sess_no_panic {X} (e : sessE X) w r w' : perform_sess X e w = (r, w') -> r <> Panic.
Proof.
  destruct e as [X e|u wal role ttl]; cbn.
  - pose proof (perform_no_panic e (sw_redis w)) as Hp. destruct (redis.perform X e (sw_redis w)) as [r1 rw].
    by intros [= -> _].
  - destruct (sw_tokens w) as [|[]]; by intros [= <- _].
Qed.
Lemma clock_read {X} (e : sessE X) w r w' : perform_sess X e w = (r, w') -> reads_clock e = true -> is_ok r = true.
Proof. destruct e as [X [Y c|cs| |]|]; cbn; try done. by intros [= <- _]. Qed.
Lemma perform_still t m X (e : sessE X) w r w' :
  perform_sess X e w = (r, w') -> still t m w -> any_pre _ e -> still t m w' /\ any_post _ e r.
Proof.
  intros E (Hn & Ht & Hm) Hp. split; [|split; [by apply (perform_sess_no_panic e w r w')|by apply (clock_read e w r w')]]. destruct e as [X e|u wal role ttl]; cbn in E.
  - destruct (redis.perform X e (sw_redis w)) as [r1 rw] eqn:E1. injection E as -> <-. unfold still. cbn.
    destruct e as [X c|cs| |]; cbn in E1; unfold on_server, arrive in E1; rewrite ?Hn in E1.
    + destruct (exec _ _ _). by injection E1 as <- <-.
    + destruct (exec_all _ _ _). by injection E1 as <- <-.
    + by injection E1 as <- <-.
    + destruct (rw_rand (sw_redis w)) as [|[s|err] rs]; by injection E1 as <- <-.
  - destruct Hp.
Qed.
Lemma run_still {A} (p : sess A) Q t m w : safe any_pre any_post p Q -> still t m w ->
  still t m (run perform_sess p w).2 /\ Q (run perform_sess p w).1.
Proof. intros Hp Hw. eapply (run_safe any_pre any_post perform_sess (still t m)); [|done|done]. apply perform_still. Qed.

Lemma ignore_succeeds {A} (p : sess A) : safe any_pre any_post p (λ r, r <> Panic) -> succeeds (pignore p).
Proof. intros Hp. apply safe_ptry. eapply safe_mono; [exact Hp|]. by intros []. Qed.
Lemma cmd_no_panic {X} (c : cmd X) : safe any_pre any_post (cmd_ c) (λ r, r <> Panic).
Proof. split; [done|]. by intros r [? _]. Qed.
Lemma succeeds_then {A B} (p : sess A) (k : A -> sess B) (Q : result B -> Prop) a :
  safe any_pre any_post p (λ r, r = Ok a) -> safe any_pre any_post (k a) Q -> safe any_pre any_post (pbind p k) Q.
Proof. intros Hp Hk. apply safe_pbind. eapply safe_mono; [exact Hp|]. by intros r ->. Qed.
Lemma pignore_cmd {X} (c : cmd X) : succeeds (pignore (cmd_ c)).
Proof. apply ignore_succeeds, cmd_no_panic. Qed.
Lemma del_sessions_succeeds hashes : succeeds (del_sessions hashes).
Proof.
  induction hashes as [|h hashes IH]; cbn [del_sessions]; [done|]. eapply succeeds_then; [apply pignore_cmd|done].
Qed.
Lemma BlocklistToken_succeeds token expiry : succeeds (BlocklistToken token expiry).
Proof.
  unfold BlocklistToken. apply safe_pbind, safe_act; [done|]. intros [now|e|] [_ Hr]; [|by specialize (Hr eq_refl)..].
  destruct (_ <=? 0); [done|apply pignore_cmd].
Qed.
Lemma logout_sessions_succeeds user : succeeds
  (ptry (cmd_ (SMEMBERS (userSessionsKey user))) (λ r,
     match r with
     | inl hashes => do* del_sessions hashes in pignore (cmd_ (DEL [userSessionsKey user]))
     | inr _ => pret tt
     end)).
Proof.
  apply safe_ptry. eapply safe_mono; [apply cmd_no_panic|]. intros [hashes|e|] Hr; [|done..].
  eapply succeeds_then; [apply del_sessions_succeeds|apply pignore_cmd].
Qed.

(** ** Logout *)
Lemma run_pbind_Ok {A B} (p : sess A) (k : A -> sess B) w a :
  (run perform_sess p w).1 = Ok a -> run perform_sess (pbind p k) w = run perform_sess (k a) (run perform_sess p w).2.
Proof. intros Hp. rewrite run_bind. unfold gbind. by destruct (run perform_sess p w) as [[]?]; simplify_eq/=. Qed.

(** The block list has the user for seven days after the logout. *)
Lemma Logout_blocks token expiry u refreshToken t m w :
  uuid_String u <> ""%string -> still t m w ->
  let w' := (run perform_sess (Logout token expiry (uuid_String u) refreshToken) w).2 in
  still t m w' /\ kept_until (t + block_ttl) (rw_keys (sw_redis w')) u.
Proof.
  intros Hne Hw w'.
  assert (still t m w') as Hw'.
  { apply (run_still _ (λ _, True)); [|done]. unfold Logout.
    apply safe_pbind_any; [| |done|done].
    - eapply safe_mono; [|done]. destruct expiry; [apply BlocklistToken_succeeds|done].
    - intros _. rewrite decide_False by done. apply safe_pbind_any; [| |done|done].
      + eapply succeeds_then; [apply logout_sessions_succeeds|]. eapply safe_mono; [apply pignore_cmd|done].
      + intros _. case_decide; [done|]. eapply safe_mono; [apply pignore_cmd|done]. }
  split; [done|]. unfold w', Logout. clear Hw' w'.
  set (p1 := match expiry with Some t => BlocklistToken token t | None => pret tt end).
  destruct (run_still p1 (λ r, r = Ok tt) t m w) as [H1' E1]; [destruct expiry; [apply BlocklistToken_succeeds|done]|done|].
  rewrite (run_pbind_Ok _ _ _ _ E1). set (w1 := (run perform_sess p1 w).2) in *. rewrite decide_False by done.
  rewrite run_bind. unfold gbind at 1.
  destruct (run_still _ _ t m w1 (logout_sessions_succeeds (uuid_String u)) H1') as [H2' E2].
  rewrite (run_pbind_Ok _ _ _ _ E2). set (w2 := (run perform_sess _ w1).2) in *.
  unfold BlocklistUserRefreshTokens. destruct H2' as (Hnet & Hnow & Hmin).
  assert (exists w3, run perform_sess (pignore (cmd_ (SET (blocklistKey (uuid_String u)) "revoked" (7 * 24 * 3600 * second)))) w2
    = (Ok tt, w3) /\ still t m w3 /\ kept_until (t + block_ttl) (rw_keys (sw_redis w3)) u) as (w3 & -> & (Hn3 & Ht3 & Hm3) & Hk3).
  { cbn. unfold on_server, arrive. rewrite Hnet. cbn. eexists. split; [done|]. split; [done|]. cbn.
    rewrite Hnow. unfold kept_until, set_string. eexists. split; [apply lookup_insert_eq|].
    right. exists (t + block_ttl). split; [|lia]. by vm_compute (px _). }
  case_decide; [done|]. cbn. unfold on_server, arrive. rewrite Hn3. cbn.
  unfold kept_until. rewrite lookup_delete_ne; [exact Hk3|]. discriminate.
Qed.

(** The environment of the seven days after a logout; a delay of the network is time
    that passes between two actions. *)
Definition env_until (t_end : time) (w w' : sworld) : Prop :=
  env w w' /\ rw_now (sw_redis w') < t_end /\ prompt (sw_redis w').

(** C13: A logout that reaches Redis ends every session of the user: whatever calls
    follow and overlap in the next seven days, whatever they are sent, no access token
    is minted for the user from a session kept before, unless a login mints it. *)
Theorem logout_ends_user logins u token expiry refreshToken t w0 c :
  (forall v role, logins v role -> (v < 2 ^ 128)%N) -> (u < 2 ^ 128)%N ->
  still t [] w0 -> keys_granted logins (rw_keys (sw_redis w0)) ->
  let w := (run perform_sess (Logout token expiry (uuid_String u) refreshToken) w0).2 in
  reachable perform_sess (start refreshTTL) (env_until (t + block_ttl)) w c ->
  Forall (allowed logins (λ v, v = u)) c.2.*1 ->
  Forall (λ m, m.1 <> u) (sw_minted c.1).
Proof.
  intros Ht Hu Hw0 Hk w Hr Hc.
  assert (uuid_String u <> ""%string) as Hne.
  { intros E. destruct (uuid_String_text u Hu) as [Hl _]. by rewrite E in Hl. }
  destruct (Logout_blocks token expiry u refreshToken t [] w0 Hne Hw0) as [(Hn & Hnow & Hm) Hkept].
  fold w in Hn, Hnow, Hm, Hkept.
  assert (Inv logins (λ _, False) 0 w) as (Hk' & _ & _).
  { apply (run_safe (pre logins (λ _, False)) (post logins (λ _, False)) perform_sess (Inv logins (λ _, False) 0)
      (λ X e w r w', perform_keeps logins (λ _, False) Ht 0 X e w r w') _ (λ _, True)).
    - apply (start_harmless refreshTTL logins (λ _, False) Ht (CLogout token expiry (uuid_String u) refreshToken)). exact I.
    - destruct Hw0 as (_ & _ & Hm0). split; [done|]. rewrite Hm0. split; [constructor|by intros v []]. }
  destruct (pool_keeps refreshTTL logins (λ v, v = u) (t + block_ttl) (env_until (t + block_ttl)) w c Ht)
    as (_ & Hmin & _); [| |exact Hr|exact Hc|].
  - split; [done|]. rewrite Hm. split; [constructor|]. intros v ->. unfold locked, prompt. rewrite Hn, Hnow.
    split_and!; [unfold block_ttl, second; lia|lia|constructor|done].
  - intros w1 w2 (He & Ht2 & Hp2). split; [done|]. by intros v ->.
  - eapply Forall_impl; [exact Hmin|]. by intros m [_ ?].
Qed.

(** ** Validation *)
(** Validation never accepts a refresh token: after any calls, whatever the token,
    it ends in an error, because it takes all the fields of the session for the
    identifier of the user. *)
Theorem Validate_never_accepts w c token uid :
  rw_keys (sw_redis w) = ∅ -> sw_minted w = [] ->
  reachable perform_sess (start refreshTTL) env w c -> texts c.2 ->
  (run perform_sess (Validate token) c.1).1 <> Ok uid.
Proof.
  intros Hks Hm Hr Ht. assert (Inv (pool_logins c.2) (λ _, False) 0 c.1) as Hi.
  { eapply pool_from_empty; eauto. }
  apply (run_safe (pre (pool_logins c.2) (λ _, False)) (post (pool_logins c.2) (λ _, False)) perform_sess
    (Inv (pool_logins c.2) (λ _, False) 0)
    (λ X e w r w', perform_keeps _ (λ _, False) Ht 0 X e w r w') _ (λ r, forall uid, r <> Ok uid)); [|done].
  by apply Validate_typed.
Qed.

(** *** The listings *)
Lemma str_cut_rest c a b x y : str_cut c (a ++ String c b) = Some (x, y) ->
  has_byte c b = true -> has_byte c y = true.
Proof.
  revert x. induction a as [|z a IH]; intros x.
  - rewrite str_app_nil. cbn. rewrite decide_True by done. by intros [= _ <-].
  - rewrite str_app_cons. cbn. case_decide as Hz.
    + intros [= _ <-] Hb. rewrite has_byte_app, has_byte_cons, bool_decide_eq_true_2 by done. by rewrite orb_true_r.
    + destruct (str_cut c (a ++ String c b)) as [[x' y']|] eqn:E; [|done]. intros [= _ <-]. by eapply IH.
Qed.
(** The listing of the service shows no time of last activity. *)
Lemma session_info_no_time current hash u dev ts role : (u < 2 ^ 128)%N ->
  si_LastActive (session_info current hash (session_data (uuid_String u) dev ts role)) = ""%string.
Proof.
  intros Hu. unfold session_info, session_data. cbn [si_LastActive str_splitN].
  rewrite str_cut_app by (by apply text_no_pipe).
  destruct (str_cut pipe (dev ++ String pipe (fmt_d ts ++ String pipe role))) as [[x y]|] eqn:E; [|done].
  cbn. apply str_cut_rest in E; [|rewrite has_byte_app, has_byte_cons, bool_decide_eq_true_2 by done; by rewrite orb_true_r].
  destruct (ParseInt y) as [n|e] eqn:Ep; [|done]. exfalso.
  by destruct (ParseInt_bytes _ _ _ Ep E) as [Hd|[?|?]]; [vm_compute in Hd| |].
Qed.
(** The listing of the handler is empty: it reads sessions with a command for hashes. *)
Lemma ListSessions_empty user w : exists w', run perform_sess (ListSessions user) w = (Ok [], w').
Proof.
  assert (forall hashes w, exists w', run perform_sess (hgetall_loop hashes []) w = (Ok [], w')) as Hl.
  { induction hashes as [|h hashes IH]; intros w1; cbn [hgetall_loop]; [by eexists|]. rewrite run_try. unfold gtry.
    destruct (run perform_sess (cmd_ (HGETALL (session_key h))) w1) as [r w2] eqn:E.
    assert (r = Ok [] \/ exists e, r = Err e) as [->|[e ->]]; [|apply IH..].
    cbn in E. unfold on_server in E. destruct (arrive (sw_redis w1)) as [[[err|err]|] rw]; cbn in E;
      [injection E as <- _; right; by eexists..|]. destruct (view _ _ _); injection E as <- _; [right; by eexists|by left]. }
  unfold ListSessions. rewrite run_try. unfold gtry.
  destruct (run perform_sess (cmd_ (SMEMBERS _)) w) as [r w1] eqn:E. destruct r as [hashes|e|]; [apply Hl|by eexists|].
  exfalso. cbn in E. pose proof (perform_no_panic (Cmd (SMEMBERS (userSessionsKey user))) (sw_redis w)) as Hp. cbn in Hp.
  destruct (on_server _ _) as [r1 rw]. injection E as -> _. by apply Hp.
Qed.
End runs.
End sessionruns.

(** * Runs of the session service over a concrete library of identifiers: the witnesses
    of its theorems, and the runs in which it does not do what it means to. *)
Module sessiondemo.
Import redis session cleaner sessionprops sessionruns.

(** ** Identifiers of 36 hexadecimal digits, the least significant first *)
Definition hex_char (d : N) : ascii := ascii_of_N (if (d <? 10)%N then 48 + d else 87 + d)%N.
Definition hex_val (c : ascii) : N := (if is_digit c then N_of_ascii c - 48 else N_of_ascii c - 87)%N.
Fixpoint hex_enc (k : nat) (n : N) : list ascii :=
  match k with O => [] | S k => hex_char (n mod 16) :: hex_enc k (n / 16) end.
Definition hex_dec (l : list ascii) : N := foldr (λ c acc, hex_val c + 16 * acc)%N 0%N l.

#[export] Instance hex_uuid : UUIDLib := {
  uuid_Parse s :=
    let v := hex_dec (String.list_ascii_of_string s) in
    if (String.length s =? 36)%nat && (v <? 2 ^ 128)%N then Some v else None;
  uuid_String u := String.string_of_list_ascii (hex_enc 36 u);
}.

Lemma hex_digit d : (d < 16)%N -> hex_val (hex_char d) = d /\ hex_or_dash (hex_char d) = true.
Proof.
  intros Hd. assert (d ∈ [0; 1; 2; 3; 4; 5; 6; 7; 8; 9; 10; 11; 12; 13; 14; 15]%N) as Hin.
  { rewrite !elem_of_cons. lia. }
  clear Hd. revert d Hin. apply Forall_forall. repeat (constructor; [by vm_compute|]). constructor.
Qed.
Lemma hex_enc_spec k n : length (hex_enc k n) = k /\ forallb hex_or_dash (hex_enc k n) = true /\
  ((n < 16 ^ N.of_nat k)%N -> hex_dec (hex_enc k n) = n).
Proof.
  revert n. induction k as [|k IH]; intros n; [cbn; split_and!; [done|done|lia]|].
  destruct (IH (n / 16)%N) as (Hl & Hf & Hd). cbn [hex_enc length forallb hex_dec foldr].
  destruct (hex_digit (n mod 16)) as [Hv Hh]; [by apply N.mod_lt|]. rewrite Hh, Hf, Hl. split_and!; [done|done|].
  intros Hn. fold (hex_dec (hex_enc k (n / 16))). rewrite Hv, Hd.
  - rewrite N.add_comm. symmetry. by apply N.div_mod.
  - apply N.Div0.div_lt_upper_bound. replace (16 * 16 ^ N.of_nat k)%N with (16 ^ N.of_nat (S k))%N; [done|].
    rewrite Nat2N.inj_succ. apply N.pow_succ_r'.
Qed.
Lemma string_of_list_length l : String.length (String.string_of_list_ascii l) = length l.
Proof. induction l as [|c l IH]; cbn; [done|]. by rewrite IH. Qed.

#[export] Instance hex_text : UUIDText.
Proof.
  split.
  - intros u Hu. destruct (hex_enc_spec 36 u) as (Hl & Hf & Hd). cbn [uuid_String uuid_Parse hex_uuid].
    rewrite String.list_ascii_of_string_of_list_ascii, string_of_list_length, Hl, Hd.
    + split; [done|]. split; [|done]. by destruct (N.ltb_spec u (2 ^ 128)); [|lia].
    + eapply N.lt_trans; [exact Hu|]. by vm_compute.
  - intros s u. cbn [uuid_Parse hex_uuid]. destruct (Nat.eqb_spec (String.length s) 36); cbn; [|done].
    destruct (N.ltb_spec (hex_dec (String.list_ascii_of_string s)) (2 ^ 128)); [|done]. intros [= <-].
    split; [done|]. left. rewrite !elem_of_cons. auto.
Qed.

(** Hashes are the tokens themselves. *)
#[export] Instance demo_lib : SessionLib := { sha256Hash := id; Format_RFC3339 := λ _, "a time"%string }.

(** ** Worlds and runs *)
Definition noon : time := (unix_epoch + 1700000000) * second.
Definition week : duration := 7 * 24 * 3600 * second.
Definition hour : duration := 3600 * second.
Definition user : uuid := 7.
Definition user_text : string := uuid_String user.
Definition fresh : sworld :=
  {| sw_redis := {| rw_now := noon; rw_keys := ∅; rw_net := [];
       rw_rand := inl <$> ["r1"; "c1"; "r2"; "c2"; "r3"; "c3"; "r4"; "c4"]%string |};
     sw_tokens := inl <$> ["a1"; "a2"; "a3"; "a4"]%string; sw_minted := [] |}.
Definition later (d : duration) (w : sworld) : sworld :=
  {| sw_redis := {| rw_now := rw_now (sw_redis w) + d; rw_keys := rw_keys (sw_redis w);
       rw_net := rw_net (sw_redis w); rw_rand := rw_rand (sw_redis w) |};
     sw_tokens := sw_tokens w; sw_minted := sw_minted w |}.
Definition do_ {A} (p : sess A) (w : sworld) : sworld := (run perform_sess p w).2.
Definition login : sess TokenPair := Create week user "admin" hour "agent|127.0.0.1".
Definition logged_in : sworld := do_ login fresh.
Definition result_of {A} (p : sess A) (w : sworld) : result A := (run perform_sess p w).1.
Definition live_session (hash : string) (w : sworld) : bool :=
  match view (rw_now (sw_redis w)) (session_key hash) (rw_keys (sw_redis w)) with Some _ => true | None => false end.
Definition indexed (w : sworld) : list string :=
  match as_set (rw_now (sw_redis w)) (userSessionsKey user_text) (rw_keys (sw_redis w)) with
  | Ok m => elements m | _ => [] end.

(** A login, then a refresh of its token. *)
Definition two_calls : list (turn (L := call) (W := sworld)) :=
  [Start (CCreate user "admin" hour "agent|127.0.0.1"); Run 0; Run 0; Run 0; Run 0; Run 0;
   Start (CRefresh "r1" hour); Run 1; Run 1; Run 1; Run 1; Run 1; Run 1; Run 1; Run 1].
Definition after_two := schedule perform_sess (start week) two_calls (fresh, []).
Lemma after_two_reachable : reachable perform_sess (start week) env fresh after_two.
Proof. apply schedule_steps_closed. reflexivity. Qed.
Lemma after_two_labels : after_two.2.*1 = [CCreate user "admin" hour "agent|127.0.0.1"; CRefresh "r1" hour].
Proof. vm_compute. reflexivity. Qed.
Lemma after_two_texts : texts after_two.2.
Proof.
  intros u role (ttl & dev & Hin). rewrite after_two_labels in Hin. rewrite !elem_of_cons in Hin.
  destruct Hin as [[= -> _ _ _]|[Hin|Hin]]; [by vm_compute|done|by apply not_elem_of_nil in Hin].
Qed.

Lemma sessions_keep_identity_witness :
  sw_minted after_two.1 = [(user, "admin"%string); (user, "admin"%string)] /\
  Forall (λ m, grant (pool_logins after_two.2) m.1 m.2) (sw_minted after_two.1).
Proof.
  split; [vm_compute; reflexivity|].
  exact (proj1 (sessions_keep_identity week fresh after_two eq_refl eq_refl after_two_reachable after_two_texts)).
Defined.

Lemma Validate_never_accepts_witness :
  live_session "r1" after_two.1 = true /\ (run perform_sess (Validate "r1") after_two.1).1 <> Ok user.
Proof.
  split; [vm_compute; reflexivity|].
  exact (Validate_never_accepts week fresh after_two "r1" user eq_refl eq_refl after_two_reachable after_two_texts).
Defined.

(** ** Logout *)
Definition stored : sworld :=
  {| sw_redis := {| rw_now := noon;
       rw_keys := {[ session_key "r0" := {| e_val := RString (session_data user_text "agent" 1700000000 "user");
                                            e_exp := Some (noon + week) |} ]};
       rw_net := []; rw_rand := inl <$> ["r1"; "c1"]%string |};
     sw_tokens := inl <$> ["a1"]%string; sw_minted := [] |}.
Definition one_login (u : uuid) (role : string) : Prop := u = user /\ role = "user"%string.
Lemma stored_granted : keys_granted one_login (rw_keys (sw_redis stored)).
Proof.
  intros k e He _. cbn in He. apply lookup_singleton_Some in He as [_ <-]. eexists. split; [reflexivity|].
  exists user, "agent"%string, 1700000000, "user"%string. split; [done|]. exists "user"%string. by repeat split; left.
Qed.
Definition logged_out : sworld := do_ (Logout "a0" None user_text "") stored.
Definition try_refresh : sworld * pool (E := sessE) (L := call) :=
  schedule perform_sess (start week) [Start (CRefresh "r0" hour); Run 0; Run 0; Run 0] (logged_out, []).
Lemma logout_ends_user_witness :
  result_of (Refresh week "r0" hour) stored <> Panic /\ is_ok (result_of (Refresh week "r0" hour) stored) = true /\
  Forall (λ m, m.1 <> user) (sw_minted try_refresh.1).
Proof.
  split; [vm_compute; discriminate|]. split; [vm_compute; reflexivity|].
  apply (logout_ends_user week one_login user "a0" None "" noon stored try_refresh).
  - intros v role [-> _]. by vm_compute.
  - by vm_compute.
  - done.
  - apply stored_granted.
  - apply schedule_steps_closed. reflexivity.
  - change (try_refresh.2.*1) with [CRefresh "r0" hour]. by repeat constructor.
Defined.

(** A user who logs out and in again cannot refresh the new session, for seven days. *)
Lemma relogin_cannot_refresh :
  result_of (Refresh week "r1" hour) (later second (do_ login (do_ (Logout "a0" None user_text "") fresh)))
  = Err (Errorf "session revoked").
Proof. vm_compute. reflexivity. Qed.

(** The index of a session lasts as long as the access token: after that, ending all
    sessions leaves this one alive, and it can be refreshed. *)
Lemma RevokeAll_misses_sessions :
  let w := do_ (RevokeAll week user_text "") (later (2 * hour) logged_in) in
  live_session "r1" w = true /\ is_ok (result_of (Refresh week "r1" hour) w) = true.
Proof. vm_compute. auto. Qed.

(** The sixty seconds a rotated token lives start again whenever it is used. *)
Lemma rotated_token_lives_on :
  let w1 := do_ (Refresh week "r1" hour) logged_in in
  let w2 := do_ (Refresh week "r1" hour) (later (50 * second) w1) in
  is_ok (result_of (Refresh week "r1" hour) (later (50 * second) w2)) = true.
Proof. vm_compute. reflexivity. Qed.

(** A change of the password keeps the hash of the access token, which is the hash of
    no session: the current session ends with the others. *)
Lemma password_change_ends_current :
  let w := do_ (RevokeAll week user_text (sha256Hash "a1")) logged_in in
  live_session "r1" w = false /\ indexed w = ["a1"%string].
Proof. vm_compute. auto. Qed.

(** A session created between the count and the deletion of an emptied index is left
    out of the index: an expired session "r0" is swept while the user logs in. *)
Definition swept : sworld :=
  {| sw_redis := {| rw_now := noon;
       rw_keys := {[ userSessionsKey user_text := {| e_val := RSet {[ "r0"%string ]}; e_exp := None |} ]};
       rw_net := []; rw_rand := inl <$> ["lock"; "r1"; "c1"]%string |};
     sw_tokens := inl <$> ["a1"]%string; sw_minted := [] |}.
Definition race : list (turn (L := call) (W := sworld)) :=
  [Start CClean; Run 0; Run 0; Run 0; Run 0; Run 0; Run 0; Run 0;
   Start (CCreate user "user" hour "agent"); Run 1; Run 1; Run 1; Run 1; Run 1; Run 0; Run 0].
Lemma sweep_loses_session :
  let w := (schedule perform_sess (start week) race (swept, [])).1 in
  live_session "r1" w = true /\ indexed w = [].
Proof. vm_compute. auto. Qed.
End sessiondemo.
