(* ===== verification/Nonce.v ===== *)
(** Wallet authentication (src/internal/domain/auth/nonce/service.go and
    src/internal/api/handler/wallet_auth_handler.go): a nonce kept in Redis under the
    wallet's address, to be signed once. *)
From S2P Require Export SessionRuns.
From stdpp Require Import options.
From Stdlib Require Import Ascii.
#[local] Set Default Proof Using "Type*".
Open Scope Z_scope.
Local Open Scope go_scope.

Module nonce.
Import redis session sessionprops sessionruns.

(** Libraries: decoding, the hash, and the signature of a wallet. *)
Class NonceLib := {
  hex_DecodeString : string -> string + error;
  decodeStellarPublicKey : string -> string + error;
  sha256_Sum256 : string -> string;
  ed25519_Verify : string -> string -> string -> bool;
}.

Record Nonce := { n_WalletAddress : string; n_Nonce : string; n_ExpiresAt : time }.
Definition ErrNonceExpired := Sentinel "apperrors: nonce expired".
Definition colon : ascii := ":".
Definition nonce_key (walletAddress : string) : string := "nonce:" ++ walletAddress.
Definition skewTolerance : Z := 30.

Section service.
Context `{UUIDLib, SessionLib, NonceLib}.
Variables (nonceTTL : duration).

Definition Generate (walletAddress : string) : sess Nonce :=
  let* nonceStr := pwrap "generating random nonce: %w" rand_Read in
  let* now := time_Now in
  let storedValue := (nonceStr ++ String colon (fmt_d (time_Unix now)))%string in
  do* pwrap "storing nonce in redis: %w" (cmd_ (SET (nonce_key walletAddress) storedValue (nonceTTL + 30 * second))) in
  let* now := time_Now in
  pret {| n_WalletAddress := walletAddress; n_Nonce := nonceStr; n_ExpiresAt := time_Add now nonceTTL |}.

(** [if x, err := f(); err != nil { return fmt.Errorf(format, err) }] for a function
    of a library. *)
Definition plift {A} (format : string) (r : A + error) : sess A :=
  match r with inl a => pret a | inr err => pfail (Wrapf format err) end.
Lemma wp_plift {A} format (r : A + error) w (Q : result A -> sworld -> Prop) :
  (forall a, r = inl a -> Q (Ok a) w) -> (forall err, r = inr err -> Q (Err (Wrapf format err)) w) ->
  wp (run perform_sess (plift format r)) w Q.
Proof. intros Ho He. destruct r as [a|err]; [by apply Ho|by apply He]. Qed.

Definition Verify (walletAddress signature : string) : sess bool :=
  let key := nonce_key walletAddress in
  let* stored := pwrap "retrieving nonce from redis: %w" (cmd_ (GET key)) in
  match stored with
  | None => pfail ErrNonceExpired
  | Some stored =>
      match str_splitN 1 colon stored with
      | [nonceStr; created] =>
          let* createdAt := plift "invalid nonce timestamp: %w" (ParseInt created) in
          let* now := time_Now in
          let now := time_Unix now in
          do* pguard (wrap64 (wrap64 (createdAt + Z.quot nonceTTL second) + skewTolerance) <? now) ErrNonceExpired in
          do* pguard (now <? wrap64 (createdAt - skewTolerance)) (Errorf "nonce from the future — clock skew detected") in
          let* sigBytes := plift "decoding signature hex: %w" (hex_DecodeString signature) in
          let* publicKey := plift "decoding public key: %w" (decodeStellarPublicKey walletAddress) in
          let valid := ed25519_Verify publicKey (sha256_Sum256 nonceStr) sigBytes in
          do* (if valid then
                 ptry (cmd_ (DEL [key])) (λ r,
                   match r with inl _ => pret tt | inr _ => pignore (cmd_ (EXPIRE key (1 * second))) end)
               else pret tt) in
          pret valid
      | _ => pfail (Errorf "invalid nonce format")
      end
  end.

(** The login of a wallet: the account of the address, its role and the minutes of
    its sessions, given by the user service. *)
Definition sessionTTLFromUser (minutes : Z) : duration :=
  (if minutes <? 60 then 240 else minutes) * 60 * second.
Definition deviceInfoFromContext (userAgent ip : string) : string :=
  (if decide (userAgent = "")%string then "unknown" else userAgent) ++
  String pipe (if decide (ip = "")%string then "unknown" else ip).

Inductive reply := OK (pair : TokenPair) | NotFound | Unauthorized | InternalError.
Definition WalletLogin (refreshTTL : duration) (GetByWallet : string -> option (uuid * string * Z))
    (walletAddress signature userAgent ip : string) : sess reply :=
  match GetByWallet walletAddress with
  | None => pret NotFound
  | Some (uid, role, minutes) =>
      ptry (Verify walletAddress signature) (λ r,
        match r with
        | inl true =>
            ptry (Create refreshTTL uid role (sessionTTLFromUser minutes) (deviceInfoFromContext userAgent ip)) (λ p,
              match p with inl p => pret (OK p) | inr _ => pret InternalError end)
        | _ => pret Unauthorized
        end)
  end.

(** ** One use of every nonce

    Calls that do not overlap, over a network that loses nothing. *)
Inductive step := SGenerate (address : string) | SVerify (address signature : string) | STick (d : duration).
Record tally := { t_world : sworld; t_generated : list string; t_verified : list string }.
Definition do_step (s : step) (t : tally) : tally :=
  match s with
  | SGenerate a =>
      {| t_world := (run perform_sess (Generate a) (t_world t)).2;
         t_generated := a :: t_generated t; t_verified := t_verified t |}
  | SVerify a sig =>
      let '(r, w) := run perform_sess (Verify a sig) (t_world t) in
      {| t_world := w; t_generated := t_generated t;
         t_verified := match r with Ok true => a :: t_verified t | _ => t_verified t end |}
  | STick d =>
      let w := t_world t in
      {| t_world := {| sw_redis := {| rw_now := rw_now (sw_redis w) + Z.max 0 d; rw_keys := rw_keys (sw_redis w);
                         rw_net := rw_net (sw_redis w); rw_rand := rw_rand (sw_redis w) |};
                       sw_tokens := sw_tokens w; sw_minted := sw_minted w |};
         t_generated := t_generated t; t_verified := t_verified t |}
  end.
Definition do_steps (ss : list step) (t : tally) : tally := fold_left (λ t s, do_step s t) ss t.
Definition count (a : string) (l : list string) : nat := length (filter (a =.) l).

(** What a call does to the keys over such a network. *)
Definition calm (w : sworld) : Prop := rw_net (sw_redis w) = [].
Abbreviation keys w := (rw_keys (sw_redis w)) (only parsing).

Lemma run_cmd {X} (c : cmd X) w : calm w ->
  run perform_sess (cmd_ c) w =
    ((exec (rw_now (sw_redis w)) c (keys w)).1,
     {| sw_redis := with_keys (exec (rw_now (sw_redis w)) c (keys w)).2 (sw_redis w);
        sw_tokens := sw_tokens w; sw_minted := sw_minted w |}).
Proof.
  unfold calm. intros Hn. cbn. unfold on_server, arrive. rewrite Hn.
  by destruct (exec (rw_now (sw_redis w)) c (keys w)).
Qed.

Definition with_world (w : sworld) (ks : gmap string entry) : sworld :=
  {| sw_redis := with_keys ks (sw_redis w); sw_tokens := sw_tokens w; sw_minted := sw_minted w |}.
Lemma wp_cmd {X} (c : cmd X) w (Q : result X -> sworld -> Prop) : calm w ->
  Q (exec (rw_now (sw_redis w)) c (keys w)).1 (with_world w (exec (rw_now (sw_redis w)) c (keys w)).2) ->
  wp (run perform_sess (cmd_ c)) w Q.
Proof. intros Hn HQ. unfold wp. by rewrite run_cmd. Qed.
Lemma wp_now w (Q : result time -> sworld -> Prop) : Q (Ok (rw_now (sw_redis w))) w -> wp (run perform_sess time_Now) w Q.
Proof. by destruct w as [[]]. Qed.
Definition with_rand (w : sworld) (rs : list (string + error)) : sworld :=
  {| sw_redis := {| rw_now := rw_now (sw_redis w); rw_keys := keys w; rw_net := rw_net (sw_redis w); rw_rand := rs |};
     sw_tokens := sw_tokens w; sw_minted := sw_minted w |}.
Lemma wp_rand w (Q : result string -> sworld -> Prop) : (forall r rs, Q r (with_rand w rs)) -> wp (run perform_sess rand_Read) w Q.
Proof.
  intros HQ. destruct w as [[now ks net [|[s|err] rs]] toks minted]; unfold wp; cbn; [apply (HQ _ [])|apply (HQ _ rs)..].
Qed.
Lemma with_same w : with_world w (keys w) = w.
Proof. by destruct w as [[]]. Qed.

Definition verified_spec (a : string) (w : sworld) (r : result bool) (w' : sworld) : Prop :=
  calm w' /\
  ((r = Ok true /\ keys w !! nonce_key a <> None /\ keys w' = delete (nonce_key a) (keys w)) \/
   (r <> Ok true /\ keys w' = keys w)).
Lemma refused a w r : calm w -> r <> Ok true -> verified_spec a w r w.
Proof. intros. split; [done|]. by right. Qed.
Lemma Verify_run a sig w : calm w -> wp (run perform_sess (Verify a sig)) w (verified_spec a w).
Proof.
  intros Hn. unfold Verify. apply wp_pbind, wp_pwrap, wp_cmd; [done|]. cbn [exec fst snd]. rewrite with_same.
  destruct (view _ (nonce_key a) (keys w)) as [e|] eqn:Ev; [|by apply refused].
  assert (keys w !! nonce_key a <> None) as Hin.
  { intros E. unfold view in Ev. by rewrite E in Ev. }
  destruct (e_val e) as [stored| |]; cbn [wrap_err]; [|by apply refused..].
  destruct (str_splitN 1 colon stored) as [|n [|created [|]]]; try by apply refused.
  apply wp_pbind, wp_plift; intros createdAt _; [|by apply refused].
  apply wp_pbind, wp_now. apply wp_pbind, wp_pguard; intros _; [by apply refused|].
  apply wp_pbind, wp_pguard; intros _; [by apply refused|].
  apply wp_pbind, wp_plift; intros sigBytes _; [|by apply refused].
  apply wp_pbind, wp_plift; intros publicKey _; [|by apply refused].
  apply wp_pbind. destruct (ed25519_Verify _ _ _); [|by apply refused].
  apply wp_ptry, wp_cmd; [done|]. cbn. split; [done|]. by left.
Qed.

Lemma Generate_run a w : calm w ->
  wp (run perform_sess (Generate a)) w (λ _ w', calm w' /\ forall k, k <> nonce_key a -> keys w' !! k = keys w !! k).
Proof.
  intros Hn. unfold Generate. apply wp_pbind, wp_pwrap, wp_rand. intros [s|err|] rs; [|by split..].
  apply wp_pbind, wp_now. apply wp_pbind, wp_pwrap, wp_cmd; [done|].
  cbn [exec fst snd wrap_err]. unfold set_string. apply wp_pbind, wp_now.
  split; [done|]. intros k Hk. cbn. by rewrite lookup_insert_ne.
Qed.

Lemma nonce_key_inj a b : nonce_key a = nonce_key b -> a = b.
Proof. unfold nonce_key. apply (inj (String.append "nonce:")). Qed.

(** Uses and the nonce that is kept are paid for by what was generated. *)
Definition balanced (t : tally) : Prop :=
  calm (t_world t) /\
  forall a, (count a (t_verified t) + (match keys (t_world t) !! nonce_key a with Some _ => 1 | None => 0 end)
             <= count a (t_generated t))%nat.
Lemma count_cons a b l : count a (b :: l) = ((if decide (a = b) then 1 else 0) + count a l)%nat.
Proof. unfold count. rewrite filter_cons. by case_decide. Qed.

Lemma do_step_balanced s t : balanced t -> balanced (do_step s t).
Proof.
  intros [Hc Hb]. destruct s as [a|a sig|d]; cbn [do_step].
  - pose proof (Generate_run a (t_world t) Hc) as Hg. unfold wp in Hg. destruct Hg as [Hc' Hk]. split; [done|].
    intros b. cbn [t_world t_verified t_generated]. rewrite count_cons. specialize (Hb b). destruct (decide (b = a)) as [->|Hne].
    + destruct (keys (t_world t) !! nonce_key a), (keys (run perform_sess (Generate a) (t_world t)).2 !! nonce_key a); lia.
    + rewrite Hk; [lia|]. by intros ?%nonce_key_inj.
  - pose proof (Verify_run a sig (t_world t) Hc) as Hv. unfold wp in Hv.
    destruct (run perform_sess (Verify a sig) (t_world t)) as [r w']. destruct Hv as [Hc' Hv]. cbn in Hc', Hv.
    split; [done|]. intros b. specialize (Hb b). cbn [t_world t_verified t_generated]. destruct Hv as [(-> & Hin & ->)|[Hr ->]].
    + rewrite count_cons. destruct (decide (b = a)) as [->|Hne].
      * rewrite lookup_delete_eq. destruct (keys (t_world t) !! nonce_key a); [lia|done].
      * rewrite lookup_delete_ne; [lia|]. by intros ?%nonce_key_inj.
    + destruct r as [[]|e|]; [done|lia..].
  - by split.
Qed.

(** Over a network that loses nothing, when calls do not overlap, a wallet is let in
    at most once for every nonce it was given. *)
Theorem nonce_single_use ss w a : calm w -> keys w = ∅ ->
  let t := do_steps ss {| t_world := w; t_generated := []; t_verified := [] |} in
  (count a (t_verified t) <= count a (t_generated t))%nat.
Proof.
  intros Hc Hk t. assert (balanced t) as [_ Hb].
  { unfold t, do_steps. assert (balanced {| t_world := w; t_generated := []; t_verified := [] |}) as H0'.
    { split; [done|]. intros b. cbn [t_world t_verified t_generated]. by rewrite Hk. }
    revert H0'. generalize {| t_world := w; t_generated := []; t_verified := [] |}. clear t.
    induction ss as [|s ss IH]; intros t Ht; [done|]. cbn. by apply IH, do_step_balanced. }
  specialize (Hb a). lia.
Qed.
End service.

(** ** Over a concrete library: a signature of a nonce is the nonce *)
Import sessiondemo.
#[local] Instance demo_nonce : NonceLib := {
  hex_DecodeString s := inl s; decodeStellarPublicKey a := inl a; sha256_Sum256 := id;
  ed25519_Verify key message sig := bool_decide (sig = message);
}.
Definition nonceTTL : duration := 300 * second.
Definition wallet_steps : list step :=
  [SGenerate "G1"; STick second; SVerify "G1" "bad"; SVerify "G1" "r1"; SVerify "G1" "r1"]%string.
Lemma nonce_single_use_witness :
  t_verified (do_steps nonceTTL wallet_steps {| t_world := fresh; t_generated := []; t_verified := [] |}) = ["G1"%string] /\
  (count "G1" (t_verified (do_steps nonceTTL wallet_steps {| t_world := fresh; t_generated := []; t_verified := [] |}))
   <= count "G1" (t_generated (do_steps nonceTTL wallet_steps {| t_world := fresh; t_generated := []; t_verified := [] |})))%nat.
Proof. split; [vm_compute; reflexivity|]. by apply (nonce_single_use nonceTTL wallet_steps fresh "G1"%string). Defined.

(** Two logins with the same signature that overlap both mint a token: both read the
    nonce before one deletes it. *)
Definition account (address : string) : option (uuid * string * Z) := Some (user, "user"%string, 0).
Inductive wallet_call := WNonce (address : string) | WLogin (address signature : string).
Definition wallet_start (c : wallet_call) : sess unit :=
  match c with
  | WNonce a => pignore (Generate nonceTTL a)
  | WLogin a sig => pignore (WalletLogin nonceTTL week account a sig "agent" "127.0.0.1")
  end.
Definition double_submit : list (turn (L := wallet_call) (W := sworld)) :=
  [Start (WNonce "G1"); Run 0; Run 0; Run 0; Run 0;
   Start (WLogin "G1" "r1"); Start (WLogin "G1" "r1"); Run 1; Run 2; Run 1; Run 2; Run 1; Run 2]%string ++
  replicate 5 (Run 1) ++ replicate 5 (Run 2).
Lemma nonce_used_twice :
  sw_minted (schedule perform_sess wallet_start double_submit (fresh, [])).1 = [(user, "user"%string); (user, "user"%string)].
Proof. vm_compute. reflexivity. Qed.
End nonce.
