(* ===== verification/JobQueue.v ===== *)
(** The job queue (src/pkg/jobqueue): the storage of jobs, over a PostgreSQL
    table or a map in memory, and the worker that drains it. *)
From S2P Require Export Demo.
From stdpp Require Import options.
#[local] Set Default Proof Using "Type*".
Open Scope Z_scope.
Local Open Scope go_scope.

Module jobqueue.

(** ** Jobs *)
Inductive JobStatus :=
  | StatusPending | StatusProcessing | StatusCompleted | StatusFailed | StatusDeadLetter.
#[export] Instance JobStatus_eq_dec : EqDecision JobStatus.
Proof. solve_decision. Defined.

Record Job := {
  j_ID : string;
  j_QueueName : string;
  j_Payload : string;
  j_Status : JobStatus;
  j_MaxRetries : Z;
  j_RetriesCount : Z;
  j_ScheduledAt : time;
  j_LastError : option string;
  j_CreatedAt : time;
  j_UpdatedAt : time;
}.

Abbreviation jobs := (gmap string Job).

(** [json.Marshal] is a function of the caller: a payload comes marshalled, or
    with the error of the encoder. *)
Definition new_job (now : time) (id queueName payload : string) (maxRetries : Z) : Job :=
  {| j_ID := id; j_QueueName := queueName; j_Payload := payload; j_Status := StatusPending;
     j_MaxRetries := maxRetries; j_RetriesCount := 0; j_ScheduledAt := now;
     j_LastError := None; j_CreatedAt := now; j_UpdatedAt := now |}.

Definition set_status (s : JobStatus) (now : time) (j : Job) : Job :=
  {| j_ID := j_ID j; j_QueueName := j_QueueName j; j_Payload := j_Payload j; j_Status := s;
     j_MaxRetries := j_MaxRetries j; j_RetriesCount := j_RetriesCount j;
     j_ScheduledAt := j_ScheduledAt j; j_LastError := j_LastError j;
     j_CreatedAt := j_CreatedAt j; j_UpdatedAt := now |}.

(** The columns the statements of [Fail] write. *)
Definition failed_with (s : JobStatus) (retries : Z) (schedule now : time) (msg : string)
    (j : Job) : Job :=
  {| j_ID := j_ID j; j_QueueName := j_QueueName j; j_Payload := j_Payload j; j_Status := s;
     j_MaxRetries := j_MaxRetries j; j_RetriesCount := retries; j_ScheduledAt := schedule;
     j_LastError := Some msg; j_CreatedAt := j_CreatedAt j; j_UpdatedAt := now |}.

Definition reset_job (now : time) (j : Job) : Job :=
  {| j_ID := j_ID j; j_QueueName := j_QueueName j; j_Payload := j_Payload j;
     j_Status := StatusPending; j_MaxRetries := j_MaxRetries j; j_RetriesCount := 0;
     j_ScheduledAt := now; j_LastError := j_LastError j;
     j_CreatedAt := j_CreatedAt j; j_UpdatedAt := now |}.

(** [time.Duration(1<<uint(n)) * time.Second]: the shift count is unsigned and a
    count of 64 or more gives zero; both operations are on 64 bits. *)
Definition backoff (n : Z) : duration :=
  if (n <? 0) || (64 <=? n) then 0 else wrap64 (wrap64 (Z.shiftl 1 n) * second).

(** A pending job of the queue whose time has come. *)
Definition due (now : time) (queueName : string) (j : Job) : bool :=
  bool_decide (j_QueueName j = queueName) && bool_decide (j_Status j = StatusPending) &&
  negb (time_After (j_ScheduledAt j) now).

Definition by_schedule (j k : Job) : Prop := j_ScheduledAt j <= j_ScheduledAt k.
#[export] Instance by_schedule_dec j k : Decision (by_schedule j k).
Proof. unfold by_schedule. apply _. Defined.

(** The first of [ORDER BY scheduled_at ASC]. *)
Definition earliest (now : time) (queueName : string) (t : jobs) : option Job :=
  head (merge_sort by_schedule (filter (due now queueName) (map_to_list t).*2)).

(** *** The columns of migration 030

    What PostgreSQL makes of a parameter, or that it refuses it: the canonical
    text of the identifier a text names ([UUID]), the text a column of at most so
    many characters keeps ([VARCHAR(n)]), the text a [JSONB] column gives back,
    the texts it takes at all, the range of [INT].  A time is kept in
    microseconds, also the server's own. *)
Class JobColumns := {
  uuid_in : string -> option string;
  varchar_in : Z -> string -> option string;
  jsonb_in : string -> option string;
  text_ok : string -> bool;
}.
(** A generated identifier is written in its canonical text. *)
Class JobColumnLaws `{UUIDLib, JobColumns} : Prop := {
  uuid_in_String u : uuid_in (uuid_String u) = Some (uuid_String u);
}.
Definition out_of_int4 (x : Z) : bool := (x <? - 2 ^ 31) || (2 ^ 31 <=? x).
Definition micro (t : time) : time := t / 1000 * 1000.

(** ** The queue

    [NewJobQueue] keeps a connection, nil for the fallback in memory.  [range]
    visits the map in an order of the run. *)
Record JobQueue := {
  jq_db : option (PgState jobs);
  jq_memory : jobs;
}.
Class MapRange := {
  range_jobs : jobs -> list Job;
  range_jobs_perm : forall t, range_jobs t ≡ₚ (map_to_list t).*2;
}.

(** [if jq.db != nil { ... }] and the code after it. *)
Definition db_or_memory {A} (db : M (PgState jobs) A) (memory : M jobs A) : M JobQueue A := λ w,
  match jq_db w with
  | Some conn =>
      let '(r, conn') := db conn in (r, {| jq_db := Some conn'; jq_memory := jq_memory w |})
  | None =>
      let '(r, t') := memory (jq_memory w) in (r, {| jq_db := None; jq_memory := t' |})
  end.

(** The jobs the queue works on. *)
Definition jobs_of (w : JobQueue) : jobs :=
  match jq_db w with Some conn => pg_tables conn | None => jq_memory w end.

Section jobqueue.
Context {MR : MapRange} {UL : UUIDLib} {JC : JobColumns}.

Definition or_three (maxRetries : Z) : Z := if maxRetries <=? 0 then 3 else maxRetries.

(** The row of the [INSERT], which [RETURNING] answers. *)
Definition inserted_job (now : time) (jobID queueName payload : string) (maxRetries : Z) :
    Job + string :=
  match uuid_in jobID, varchar_in 100 queueName, jsonb_in payload with
  | None, _, _ => inr "22P02"%string
  | _, None, _ => inr "22001"%string
  | _, _, None => inr "22P02"%string
  | Some id, Some queue, Some body =>
      if out_of_int4 maxRetries then inr "22003"%string
      else inl (new_job (micro now) id queue body maxRetries)
  end.

Definition db_Enqueue (now : time) (jobID queueName payload : string) (maxRetries : Z) :
    M (PgState jobs) (option Job) :=
  let! job := gwrap "enqueue query: %w" (pg_exec (λ t,
    match inserted_job now jobID queueName payload maxRetries with
    | inr code => inr code
    | inl job => if t !! j_ID job is Some _ then inr "23505"%string
                 else inl (job, <[j_ID job := job]> t)
    end)) in
  gret (Some job).

Definition Enqueue (now : time) (new : uuid) (queueName : string) (payload : string + error)
    (maxRetries : Z) : M JobQueue (option Job) :=
  match payload with
  | inr err => gfail (Wrapf "marshal payload: %w" err)
  | inl payloadBytes =>
      let jobID := uuid_String new in
      let job := new_job now jobID queueName payloadBytes (or_three maxRetries) in
      db_or_memory (db_Enqueue now jobID queueName payloadBytes (or_three maxRetries))
        (do! gmodify <[jobID := job]> in gret (Some job))
  end.

(** [UPDATE ... WHERE id = $n]: the number of rows; a parameter of another column may
    be refused. *)
Definition update_job (refused : option string) (jobID : string) (hit : Job -> bool)
    (f : Job -> Job) : M (PgState jobs) Z :=
  pg_exec (λ t,
    match uuid_in jobID, refused with
    | None, _ => inr "22P02"%string
    | _, Some code => inr code
    | Some id, None =>
        match t !! id with
        | Some j => if hit j then inl (1, <[id := f j]> t) else inl (0, t)
        | None => inl (0, t)
        end
    end).

(** The columns [Dequeue] selects leave [LastError] unset. *)
Definition dequeued (j : Job) : Job :=
  {| j_ID := j_ID j; j_QueueName := j_QueueName j; j_Payload := j_Payload j;
     j_Status := StatusProcessing; j_MaxRetries := j_MaxRetries j;
     j_RetriesCount := j_RetriesCount j; j_ScheduledAt := j_ScheduledAt j;
     j_LastError := None; j_CreatedAt := j_CreatedAt j; j_UpdatedAt := j_UpdatedAt j |}.

(** [scheduled_at <= NOW()] compares microseconds: a row holds whole ones, so that it
    is the comparison with the time itself. *)
Definition db_Dequeue (now : time) (queueName : string) : M (PgState jobs) (option Job) :=
  pg_in_tx None None (
    gtry (if text_ok queueName then pg_row (earliest now queueName)
          else pg_exec (λ _, inr "22021"%string)) (λ r,
      match r with
      | inr err => if decide (err = sql_ErrNoRows) then gret None else gfail err
      | inl job =>
          do! update_job None (j_ID job) (λ _, true) (set_status StatusProcessing (micro now)) in
          gret (Some (dequeued job))
      end)).

Definition memory_Dequeue (now : time) (queueName : string) : M jobs (option Job) := λ t,
  match head (filter (due now queueName) (range_jobs t)) with
  | Some job =>
      let job' := set_status StatusProcessing now job in
      (Ok (Some job'), <[j_ID job := job']> t)
  | None => (Ok None, t)
  end.

Definition Dequeue (now : time) (queueName : string) : M JobQueue (option Job) :=
  db_or_memory (db_Dequeue now queueName) (memory_Dequeue now queueName).

Definition Complete (now : time) (jobID : string) : M JobQueue unit :=
  db_or_memory
    (do! update_job None jobID (λ _, true) (set_status StatusCompleted (micro now)) in gret tt)
    (gmodify (alter (set_status StatusCompleted now) jobID)).

(** One more failure of a job: the dead letter queue, or another attempt; the times
    as the storage keeps them. *)
Definition fail_job (kept : time -> time) (now : time) (msg : string) (j : Job) : Job :=
  let newRetries := wrap64 (j_RetriesCount j + 1) in
  if j_MaxRetries j <=? newRetries
  then failed_with StatusDeadLetter newRetries (j_ScheduledAt j) (kept now) msg j
  else failed_with StatusPending newRetries (kept (time_Add now (backoff newRetries))) (kept now) msg j.

Definition db_Fail (now : time) (jobID msg : string) : M (PgState jobs) unit :=
  let! job := (match uuid_in jobID with
               | Some id => pg_row (λ t, t !! id)
               | None => pg_exec (λ _, inr "22P02"%string)
               end) in
  let newRetries := wrap64 (j_RetriesCount job + 1) in
  let refused := if out_of_int4 newRetries then Some "22003"%string
                 else if text_ok msg then None else Some "22021"%string in
  do! (if j_MaxRetries job <=? newRetries
       then update_job refused jobID (λ _, true)
              (λ j, failed_with StatusDeadLetter newRetries (j_ScheduledAt j) (micro now) msg j)
       else update_job refused jobID (λ _, true)
              (failed_with StatusPending newRetries
                 (micro (time_Add now (backoff newRetries))) (micro now) msg)) in
  gret tt.

Definition Fail (now : time) (jobID msg : string) : M JobQueue unit :=
  db_or_memory (db_Fail now jobID msg) (gmodify (alter (fail_job id now msg) jobID)).

Definition is_dead (j : Job) : bool := bool_decide (j_Status j = StatusDeadLetter).
Definition by_update_desc (j k : Job) : Prop := j_UpdatedAt k <= j_UpdatedAt j.
#[export] Instance by_update_desc_dec j k : Decision (by_update_desc j k).
Proof. unfold by_update_desc. apply _. Defined.

Definition GetDeadLetterJobs : M JobQueue (list Job) :=
  db_or_memory
    (pg_select (λ t, merge_sort by_update_desc (filter is_dead (map_to_list t).*2)))
    (λ t, (Ok (filter is_dead (range_jobs t)), t)).

(** Both read the map in memory, whatever the queue works on. *)
Definition GetJobStatus (jobID : string) : M JobQueue (option JobStatus) := λ w,
  (Ok (j_Status <$> jq_memory w !! jobID), w).
Definition GetJobRetries (jobID : string) : M JobQueue Z := λ w,
  (Ok (default 0 (j_RetriesCount <$> jq_memory w !! jobID)), w).

Definition RetryDeadLetterJob (now : time) (jobID : string) : M JobQueue unit :=
  db_or_memory
    (or_missing (Errorf "dead letter job not found or not in dead_letter status")
       (update_job None jobID is_dead (reset_job (micro now))))
    (λ t, match t !! jobID with
          | Some job =>
              if is_dead job then (Ok tt, <[jobID := reset_job now job]> t)
              else (Err (Errorf "dead letter job not found"), t)
          | None => (Err (Errorf "dead letter job not found"), t)
          end).

(** ** worker.go

    The handlers and the clock are functions of the run: the [i]-th job the
    worker takes gets the [i]-th answer of its handler, and the two readings of
    the clock around it.  A handler works on the payload and not on the queue. *)
Record run := {
  handler : nat -> string -> result unit;
  clock_dequeue : nat -> time;
  clock_done : nat -> time;
}.

Variable r : run.
Variable error_text : error -> string.

(** [w.process]: an error of [Fail] or [Complete] is logged. *)
Definition process (i : nat) (job : Job) : M JobQueue unit :=
  match handler r i (j_Payload job) with
  | Err err => gignore (Fail (clock_done r i) (j_ID job) (error_text err))
  | Ok _ => gignore (Complete (clock_done r i) (j_ID job))
  | Panic => gpanic
  end.

(** One turn of the loop of [drainQueue]: [Some] when the loop ends. *)
Definition drain_turn (queueName : string) (i : nat) : M JobQueue (option unit) :=
  let! job := Dequeue (clock_dequeue r i) queueName in
  match job with
  | None => gret (Some tt)
  | Some job => do! process i job in gret None
  end.

(** [drainQueue] from the [i]-th job on; [None] when the fuel does not suffice. *)
Fixpoint drainQueue (fuel : nat) (queueName : string) (i : nat) (w : JobQueue) :
    option (result unit * JobQueue) :=
  match fuel with
  | O => None
  | S fuel =>
      match drain_turn queueName i w with
      | (Ok None, w') => drainQueue fuel queueName (S i) w'
      | (Ok (Some _), w') => Some (Ok tt, w')
      | (Err e, w') => Some (Err e, w')
      | (Panic, w') => Some (Panic, w')
      end
  end.
End jobqueue.

(** ** Calls *)
Inductive jcall :=
  | CEnqueue (new : uuid) (queueName : string) (payload : string + error) (maxRetries : Z)
  | CDequeue (queueName : string)
  | CComplete (jobID : string)
  | CFail (jobID msg : string)
  | CRetryDeadLetter (jobID : string).

Definition run_jcall {MR : MapRange} {UL : UUIDLib} {JC : JobColumns} (now : time) (c : jcall) : M JobQueue (option Job) :=
  match c with
  | CEnqueue new q p n => Enqueue now new q p n
  | CDequeue q => Dequeue now q
  | CComplete id => do! Complete now id in gret None
  | CFail id msg => do! Fail now id msg in gret None
  | CRetryDeadLetter id => do! RetryDeadLetterJob now id in gret None
  end.

(** ** The life of a job

    The steps of a stored job, in its columns: who it is stays, and its status, its
    failures and the time of its next attempt move. *)
Definition same_job (j j' : Job) : Prop :=
  j_ID j' = j_ID j /\ j_QueueName j' = j_QueueName j /\ j_Payload j' = j_Payload j /\
  j_MaxRetries j' = j_MaxRetries j /\ j_CreatedAt j' = j_CreatedAt j.

(** A new job waits from now on, with all its attempts. *)
Record born (now : time) (id queue body : string) (maxRetries : Z) (j : Job) : Prop := {
  born_as : j_ID j = id /\ j_QueueName j = queue /\ j_Payload j = body;
  born_waiting : j_Status j = StatusPending /\ j_RetriesCount j = 0 /\ j_LastError j = None;
  born_limit : j_MaxRetries j = maxRetries /\ 1 <= j_MaxRetries j;
  born_times : j_ScheduledAt j = now /\ j_CreatedAt j = now /\ j_UpdatedAt j = now;
}.
(** The job may be taken: it waits in the queue, and its time has come. *)
Definition ready (now : time) (queue : string) (j : Job) : Prop :=
  j_QueueName j = queue /\ j_Status j = StatusPending /\ j_ScheduledAt j <= now.
Record taken (now : time) (j j' : Job) : Prop := {
  taken_job : same_job j j' /\ j_LastError j' = j_LastError j;
  taken_status : j_Status j' = StatusProcessing;
  taken_attempts : j_RetriesCount j' = j_RetriesCount j /\ j_ScheduledAt j' = j_ScheduledAt j;
  taken_time : j_UpdatedAt j' = now;
}.
Record finished (now : time) (j j' : Job) : Prop := {
  fin_job : same_job j j' /\ j_LastError j' = j_LastError j;
  fin_status : j_Status j' = StatusCompleted;
  fin_attempts : j_RetriesCount j' = j_RetriesCount j /\ j_ScheduledAt j' = j_ScheduledAt j;
  fin_time : j_UpdatedAt j' = now;
}.
(** One failure more: dead when it was the last attempt; otherwise the job waits
    twice as long as after the failure before (up to the 33rd, see [backoff_exact]). *)
Record failed (now : time) (msg : string) (j j' : Job) : Prop := {
  failed_job : same_job j j' /\ j_LastError j' = Some msg;
  failed_count : j_RetriesCount j' = j_RetriesCount j + 1;
  failed_last : j_MaxRetries j <= j_RetriesCount j + 1 ->
    j_Status j' = StatusDeadLetter /\ j_ScheduledAt j' = j_ScheduledAt j;
  failed_again : j_RetriesCount j + 1 < j_MaxRetries j ->
    j_Status j' = StatusPending /\
    (j_RetriesCount j + 1 <= 33 -> j_ScheduledAt j' = now + 2 ^ (j_RetriesCount j + 1) * second);
  failed_time : j_UpdatedAt j' = now;
}.
(** A dead job starts again, with all its attempts and at once. *)
Record revived (now : time) (j j' : Job) : Prop := {
  rev_dead : j_Status j = StatusDeadLetter;
  rev_job : same_job j j' /\ j_LastError j' = j_LastError j;
  rev_waiting : j_Status j' = StatusPending /\ j_RetriesCount j' = 0;
  rev_times : j_ScheduledAt j' = now /\ j_UpdatedAt j' = now;
}.
(** What a worker is handed: the job it has taken. *)
Definition handed (j k : Job) : Prop :=
  same_job j k /\ j_Status k = StatusProcessing /\ j_RetriesCount k = j_RetriesCount j /\
  j_ScheduledAt k = j_ScheduledAt j.

(** What a storage makes of the parameters: the table converts them, the map keeps
    them. *)
Section life.
Context {UL : UUIDLib} {JC : JobColumns} (table : bool).
Definition key_in (id : string) : option string := if table then uuid_in id else Some id.
Definition queue_in (q : string) : option string := if table then varchar_in 100 q else Some q.
Definition body_in (p : string) : option string := if table then jsonb_in p else Some p.
Definition time_in (now : time) : time := if table then micro now else now.

(** One call.  A call that fails leaves the jobs; the map refuses only a payload that
    has no encoding and a revival of what is not a dead letter.  The table takes the
    job that has waited longest. *)
Definition job_rel (now : time) (c : jcall) (t : jobs) (r : result (option Job)) (t' : jobs) : Prop :=
  let at_ := time_in now in
  match r with
  | Panic => False
  | Err _ => t' = t /\ (table = false ->
      match c with
      | CEnqueue _ _ p _ => exists err, p = inr err
      | CRetryDeadLetter id => forall j, t !! id = Some j -> j_Status j <> StatusDeadLetter
      | _ => False
      end)
  | Ok out =>
      match c with
      | CEnqueue new q p n => exists body queue body' j, p = inl body /\ out = Some j /\
          queue_in q = Some queue /\ body_in body = Some body' /\
          born at_ (uuid_String new) queue body' (if 0 <? n then n else 3) j /\
          (table = true -> t !! uuid_String new = None) /\ t' = <[uuid_String new := j]> t
      | CDequeue q =>
          (out = None /\ t' = t /\ forall id j, t !! id = Some j -> ~ ready now q j) \/
          (exists id j j' k, t !! id = Some j /\ ready now q j /\ taken at_ j j' /\
             (table = true -> forall id' i, t !! id' = Some i -> ready now q i -> j_ScheduledAt j <= j_ScheduledAt i) /\
             out = Some k /\ handed j k /\ t' = <[id := j']> t)
      | CComplete id => out = None /\ exists key, key_in id = Some key /\
          (t !! key = None /\ t' = t \/
           exists j j', t !! key = Some j /\ finished at_ j j' /\ t' = <[key := j']> t)
      | CFail id msg => out = None /\ exists key, key_in id = Some key /\
          (table = false /\ t !! key = None /\ t' = t \/
           exists j j', t !! key = Some j /\ failed at_ msg j j' /\ t' = <[key := j']> t)
      | CRetryDeadLetter id => out = None /\ exists key j j', key_in id = Some key /\
          t !! key = Some j /\ revived at_ j j' /\ t' = <[key := j']> t
      end
  end.

(** The same call by the rows the code writes: what the proofs below compute with. *)
Definition job_effect (now : time) (c : jcall) (t : jobs) (r : result (option Job)) (t' : jobs) : Prop :=
  match r with
  | Panic => False
  | Err _ => t' = t /\ (table = false ->
      match c with
      | CEnqueue _ _ p _ => exists err, p = inr err
      | CRetryDeadLetter id => forall j, t !! id = Some j -> j_Status j <> StatusDeadLetter
      | _ => False
      end)
  | Ok out =>
      match c with
      | CEnqueue new q p n => exists body queue body' j, p = inl body /\ out = Some j /\
          queue_in q = Some queue /\ body_in body = Some body' /\ key_in (uuid_String new) = Some (j_ID j) /\
          j = new_job (time_in now) (j_ID j) queue body' (or_three n) /\
          (table = true -> t !! j_ID j = None) /\ t' = <[j_ID j := j]> t
      | CDequeue q =>
          (out = None /\ t' = t /\ forall id j, t !! id = Some j -> due now q j = false) \/
          (exists j, t !! j_ID j = Some j /\ due now q j = true /\
             (table = true -> forall id i, t !! id = Some i -> due now q i = true -> by_schedule j i) /\
             (exists k, out = Some k /\ handed j k) /\
             t' = <[j_ID j := set_status StatusProcessing (time_in now) j]> t)
      | CComplete id => out = None /\ exists key, key_in id = Some key /\
          t' = alter (set_status StatusCompleted (time_in now)) key t
      | CFail id msg => out = None /\ exists key, key_in id = Some key /\
          (table = true -> is_Some (t !! key)) /\ t' = alter (fail_job time_in now msg) key t
      | CRetryDeadLetter id => out = None /\ exists key j, key_in id = Some key /\
          t !! key = Some j /\ j_Status j = StatusDeadLetter /\ t' = <[key := reset_job (time_in now) j]> t
      end
  end.
End life.

(** A job is stored under its identifier, in its canonical text. *)
Definition keys_ok `{JobColumns} (t : jobs) : Prop :=
  forall id j, t !! id = Some j -> j_ID j = id /\ uuid_in id = Some id.

Definition has_table (w : JobQueue) : bool := bool_decide (is_Some (jq_db w)).

Section refinement.
Context {MR : MapRange} {UL : UUIDLib} {JC : JobColumns} {JL : JobColumnLaws}.

(** A branch on the storage. *)
Lemma wp_db_or_memory {A} (db : M (PgState jobs) A) memory w (Q : result A -> jobs -> Prop) :
  (forall conn, jq_db w = Some conn -> jobs_of w = pg_tables conn ->
     wp db conn (λ r conn', Q r (pg_tables conn'))) ->
  (jq_db w = None -> wp memory (jobs_of w) Q) ->
  wp (db_or_memory db memory) w (λ r w', Q r (jobs_of w')).
Proof.
  intros Hdb Hm. apply wp_of_run. intros r w' E. unfold db_or_memory in E.
  destruct (jq_db w) as [conn|] eqn:Ed.
  - destruct (db conn) as [r1 conn'] eqn:E1. simplify_eq. unfold jobs_of at 1. cbn.
    refine (wp_run db conn (λ r c, Q r (pg_tables c)) _ _ (Hdb _ eq_refl _) E1).
    unfold jobs_of. by rewrite Ed.
  - unfold jobs_of in Hm. rewrite Ed in Hm. destruct (memory (jq_memory w)) as [r1 t'] eqn:E1.
    simplify_eq. by refine (wp_run memory (jq_memory w) Q _ _ (Hm eq_refl) E1).
Qed.

(** The same for a call and the relation of its storage, for a call that returns no
    job, and for one that does. *)
Lemma wp_call now (c : jcall) (db : M (PgState jobs) unit) (memory : M jobs unit) (w : JobQueue) :
  (forall conn, wp db conn (λ r conn',
     job_effect true now c (pg_tables conn) (result_map (λ _, None) r) (pg_tables conn'))) ->
  (forall t, wp memory t (λ r t', job_effect false now c t (result_map (λ _, None) r) t')) ->
  wp (do! db_or_memory db memory in gret None) w
    (λ r w', job_effect (has_table w) now c (jobs_of w) r (jobs_of w')).
Proof.
  intros Hdb Hm. apply wp_bind. eapply wp_mono.
  - apply (wp_db_or_memory db memory w (λ r t',
      job_effect (has_table w) now c (jobs_of w) (result_map (λ _, None) r) t'));
      unfold has_table; [intros conn -> ->|intros ->]; [apply Hdb|apply Hm].
  - by intros [] w' H1.
Qed.
Lemma wp_call_job now (c : jcall) (db : M (PgState jobs) (option Job)) (memory : M jobs (option Job)) (w : JobQueue) :
  keys_ok (jobs_of w) ->
  (forall conn, keys_ok (pg_tables conn) -> wp db conn (λ r conn',
     job_effect true now c (pg_tables conn) r (pg_tables conn'))) ->
  (forall t, keys_ok t -> wp memory t (λ r t', job_effect false now c t r t')) ->
  wp (db_or_memory db memory) w (λ r w', job_effect (has_table w) now c (jobs_of w) r (jobs_of w')).
Proof.
  intros Hk Hdb Hm. apply wp_db_or_memory; unfold has_table; [intros conn -> E|intros ->].
  - rewrite E in *. by apply Hdb.
  - by apply Hm.
Qed.

Lemma head_elem {A} (l : list A) a : head l = Some a -> a ∈ l.
Proof. destruct l; [done|]. intros [= ->]. left. Qed.

Lemma head_none {A} (l : list A) : head l = None -> l = [].
Proof. by destruct l. Qed.

Lemma job_listed (t : jobs) j : keys_ok t -> j ∈ (map_to_list t).*2 <-> t !! j_ID j = Some j.
Proof.
  intros Hk. rewrite list_elem_of_fmap. split.
  - intros ([id k] & -> & Hin). apply elem_of_map_to_list in Hin. cbn.
    by destruct (Hk _ _ Hin) as [-> _].
  - intros Hj. exists (j_ID j, j). split; [done|]. by apply elem_of_map_to_list.
Qed.

(** What a choice among the due jobs of the queue finds. *)
Definition chooses (pick : jobs -> option Job) (now : time) (q : string) : Prop :=
  forall t, keys_ok t ->
    match pick t with
    | Some j => t !! j_ID j = Some j /\ due now q j = true
    | None => forall id j, t !! id = Some j -> due now q j = false
    end.

Lemma chooses_permutation (l : jobs -> list Job) now q :
  (forall t, l t ≡ₚ filter (due now q) (map_to_list t).*2) -> chooses (λ t, head (l t)) now q.
Proof.
  intros Hl t Hk. destruct (head (l t)) as [j|] eqn:E.
  - apply head_elem in E. rewrite (Hl t) in E. apply list_elem_of_filter in E as [Hd Hin].
    apply job_listed in Hin; [|done]. split; [done|]. by destruct (due now q j).
  - apply head_none in E. intros id j Hj. destruct (due now q j) eqn:Hd; [|done].
    assert (j ∈ l t) as Hin; [|rewrite E in Hin; by apply elem_of_nil in Hin].
    rewrite (Hl t). apply list_elem_of_filter. rewrite Hd. split; [done|].
    apply job_listed; [done|]. by destruct (Hk _ _ Hj) as [-> _].
Qed.

Lemma earliest_chooses now q : chooses (earliest now q) now q.
Proof. apply chooses_permutation. intros t. apply merge_sort_Permutation. Qed.

#[local] Instance by_schedule_total : Total by_schedule.
Proof. intros j k. unfold by_schedule. lia. Qed.
#[local] Instance by_schedule_trans : Transitive by_schedule.
Proof. intros i j k. unfold by_schedule. lia. Qed.
Lemma earliest_first now q t j id i :
  keys_ok t -> earliest now q t = Some j -> t !! id = Some i -> due now q i = true -> by_schedule j i.
Proof.
  intros Hk E Hi Hd. unfold earliest in E.
  assert (i ∈ merge_sort by_schedule (filter (due now q) (map_to_list t).*2)) as Hin.
  { rewrite merge_sort_Permutation. apply list_elem_of_filter. rewrite Hd. split; [done|].
    apply job_listed; [done|]. by destruct (Hk _ _ Hi) as [-> _]. }
  pose proof (StronglySorted_merge_sort by_schedule (filter (due now q) (map_to_list t).*2)) as Hs.
  destruct (merge_sort _ _) as [|x l]; [done|]. injection E as ->.
  apply StronglySorted_inv in Hs as [_ Hall]. rewrite Forall_forall in Hall.
  apply elem_of_cons in Hin as [->|Hin]; [unfold by_schedule; lia|by apply Hall].
Qed.

Lemma range_chooses now q : chooses (λ t, head (filter (due now q) (range_jobs t))) now q.
Proof.
  apply (chooses_permutation (λ t, filter (due now q) (range_jobs t))). intros t.
  by rewrite range_jobs_perm.
Qed.

(** A statement that changes the row of an identifier, if it is there. *)
Lemma wp_update_job refused id (hit : Job -> bool) f (conn : PgState jobs) (Q : result Z -> PgState jobs -> Prop) :
  (forall key conn', uuid_in id = Some key -> refused = None ->
     match pg_tables conn !! key with
     | Some j => if hit j then pg_tables conn' = <[key := f j]> (pg_tables conn) -> Q (Ok 1) conn'
                 else pg_tables conn' = pg_tables conn -> Q (Ok 0) conn'
     | None => pg_tables conn' = pg_tables conn -> Q (Ok 0) conn'
     end) ->
  (forall code conn', pg_tables conn' = pg_tables conn -> Q (Err (External code)) conn') ->
  wp (update_job refused id hit f) conn Q.
Proof.
  intros Hok Herr. apply wp_pg_exec; [|done]. intros a t conn' Hq Ht.
  destruct (uuid_in id) as [key|]; [|done]. destruct refused; [done|].
  specialize (Hok key conn' eq_refl eq_refl). destruct (pg_tables conn !! key) as [j|]; [destruct (hit j)|];
    injection Hq as <- <-; by apply Hok.
Qed.

Lemma dequeued_handed j : handed j (dequeued j).
Proof. by repeat split. Qed.
Lemma processing_handed now j : handed j (set_status StatusProcessing now j).
Proof. by repeat split. Qed.

Lemma dequeue_body_law now q : refines pg_tables
  (gtry (if text_ok q then pg_row (earliest now q) else pg_exec (λ _, inr "22021"%string)) (λ r,
      match r with
      | inr err => if decide (err = sql_ErrNoRows) then gret None else gfail err
      | inl job =>
          do! update_job None (j_ID job) (λ _, true) (set_status StatusProcessing (micro now)) in
          gret (Some (dequeued job))
      end))
  (λ t r t', keys_ok t -> job_effect true now (CDequeue q) t r t').
Proof.
  intros w r w' E Hk. revert E. apply (wp_run _ w (λ r w', job_effect true now (CDequeue q) (pg_tables w) r (pg_tables w'))).
  pose proof (earliest_chooses now q _ Hk) as Hc. apply wp_try.
  destruct (text_ok q); [|by apply wp_pg_exec]. apply wp_pg_row.
  - intros j w1 Hj Hw1. rewrite Hj in Hc. destruct Hc as [Hl Hd].
    apply wp_bind, wp_update_job; [|intros code w2 Hw2; cbn; by rewrite Hw2].
    intros key w2 Hkey _. destruct (Hk _ _ Hl) as [_ Hcanon]. rewrite Hcanon in Hkey. injection Hkey as <-.
    rewrite Hw1, Hl. intros Hw2. apply wp_ret. right. exists j. split_and!; [done..| | |done].
    + intros _ id i Hi Hdi. by eapply earliest_first.
    + exists (dequeued j). split; [done|apply dequeued_handed].
  - intros w1 Hn Hw1. rewrite Hn in Hc. rewrite decide_True by done. left. cbn. by rewrite Hw1.
  - intros code w1 Hw1. rewrite decide_False by done. cbn. by rewrite Hw1.
Qed.

Lemma wp_db_Dequeue now q (conn : PgState jobs) :
  keys_ok (pg_tables conn) ->
  wp (db_Dequeue now q) conn
    (λ r conn', job_effect true now (CDequeue q) (pg_tables conn) r (pg_tables conn')).
Proof.
  intros Hk. apply wp_of_run. intros r w' E. unfold db_Dequeue in E.
  apply (pg_in_tx_law None None _ _ _ (dequeue_body_law now q)) in E.
  destruct r as [out|e|]; cbn in E.
  - by apply E.
  - by destruct E.
  - destruct E as (Et & t1 & E). by apply E.
Qed.

Lemma wp_memory_Dequeue now q (t : jobs) :
  keys_ok t -> wp (memory_Dequeue now q) t (λ r t', job_effect false now (CDequeue q) t r t').
Proof.
  intros Hk. pose proof (range_chooses now q _ Hk) as Hr. unfold memory_Dequeue, wp.
  cbn beta in Hr. destruct (head _) as [j|] eqn:E; cbn in *; [|left; by split_and!].
  right. exists j. destruct Hr. split_and!; [done..| |done]. eexists. split; [done|apply processing_handed].
Qed.

Lemma wp_db_Enqueue now new q body n (conn : PgState jobs) :
  wp (db_Enqueue now (uuid_String new) q body (or_three n)) conn (λ r conn',
    job_effect true now (CEnqueue new q (inl body) n) (pg_tables conn) r (pg_tables conn')).
Proof.
  apply wp_bind, wp_wrap, wp_pg_exec; [|intros code conn1 H1; cbn; by rewrite H1].
  intros job t conn1 Hq Ht. unfold inserted_job in Hq. rewrite uuid_in_String in Hq.
  destruct (varchar_in 100 q) as [queue|] eqn:Eq; [|done]. destruct (jsonb_in body) as [body'|] eqn:Eb; [|done].
  destruct (out_of_int4 _); [done|]. cbn in Hq. destruct (pg_tables conn !! uuid_String new) eqn:En; [done|].
  injection Hq as <- <-. apply wp_ret. exists body, queue, body', (new_job (micro now) (uuid_String new) queue body' (or_three n)).
  unfold key_in. rewrite Ht, uuid_in_String. by split_and!.
Qed.

Lemma wp_db_Complete now id (conn : PgState jobs) :
  wp (do! update_job None id (λ _, true) (set_status StatusCompleted (micro now)) in gret tt) conn (λ r conn',
    job_effect true now (CComplete id) (pg_tables conn) (result_map (λ _, None) r) (pg_tables conn')).
Proof.
  apply wp_bind, wp_update_job; [|intros code conn1 H1; cbn; by rewrite H1].
  intros key conn1 Hkey _. destruct (pg_tables conn !! key) as [j|] eqn:Ej; intros H1; apply wp_ret;
    (split; [done|]); exists key; (split; [done|]); rewrite H1.
  - by rewrite (alter_insert_row _ _ _ _ Ej).
  - by rewrite alter_missing.
Qed.

Lemma wp_db_Fail now id msg (conn : PgState jobs) :
  wp (db_Fail now id msg) conn (λ r conn',
    job_effect true now (CFail id msg) (pg_tables conn) (result_map (λ _, None) r) (pg_tables conn')).
Proof.
  unfold db_Fail. apply wp_bind. destruct (uuid_in id) as [key|] eqn:Ek.
  2: { apply wp_pg_exec; [done|]. intros code w1 H1. cbn. by rewrite H1. }
  apply wp_pg_row; [|intros w1 _ H1; cbn; by rewrite H1|intros code w1 H1; cbn; by rewrite H1].
  intros j w1 Hj Hw1. cbn zeta. set (refused := if out_of_int4 _ then _ else _).
  assert (forall f, f j = fail_job micro now msg j ->
    wp (do! update_job refused id (λ _, true) f in gret tt) w1 (λ r conn',
      job_effect true now (CFail id msg) (pg_tables conn) (result_map (λ _, None) r) (pg_tables conn'))) as Hup.
  { intros f Hf. apply wp_bind, wp_update_job; [|intros code w2 Hw2; cbn; by rewrite Hw2, Hw1].
    intros key' w2 Hkey _. rewrite Ek in Hkey. injection Hkey as <-. rewrite Hw1, Hj. intros Hw2. apply wp_ret.
    split; [done|]. exists key. split_and!; [done|intros _; by exists j|].
    by rewrite (alter_insert_row _ _ _ _ Hj), Hw2, Hf. }
  unfold fail_job in Hup. destruct (j_MaxRetries j <=? wrap64 (j_RetriesCount j + 1)); by apply Hup.
Qed.

Lemma wp_db_Retry now id (conn : PgState jobs) :
  wp (or_missing (Errorf "dead letter job not found or not in dead_letter status")
       (update_job None id is_dead (reset_job (micro now)))) conn (λ r conn',
    job_effect true now (CRetryDeadLetter id) (pg_tables conn) (result_map (λ _, None) r) (pg_tables conn')).
Proof.
  apply wp_bind, wp_update_job; [|intros code conn1 H1; cbn; by rewrite H1].
  intros key conn1 Hkey _. destruct (pg_tables conn !! key) as [j|] eqn:Ej; [destruct (is_dead j) eqn:Hd|];
    intros H1; cbn; [|by rewrite H1..].
  apply bool_decide_eq_true in Hd. split; [done|]. exists key, j. by split_and!.
Qed.
Lemma wp_memory_Retry now id (t : jobs) :
  wp (λ t, match t !! id with
           | Some job => if is_dead job then (Ok tt, <[id := reset_job now job]> t)
                         else (Err (Errorf "dead letter job not found"), t)
           | None => (Err (Errorf "dead letter job not found"), t)
           end) t (λ r t',
    job_effect false now (CRetryDeadLetter id) t (result_map (λ _ : unit, None) r) t').
Proof.
  unfold wp. destruct (t !! id) as [j|] eqn:E; [|by split; [|intros _ j Hj; congruence]].
  destruct (is_dead j) eqn:Hd; cbn.
  - apply bool_decide_eq_true in Hd. split; [done|]. exists id, j. by split_and!.
  - apply bool_decide_eq_false in Hd. split; [done|]. intros _ j' Hj'. congruence.
Qed.

Lemma run_jcall_effect now c w r w' :
  keys_ok (jobs_of w) -> run_jcall now c w = (r, w') ->
  job_effect (has_table w) now c (jobs_of w) r (jobs_of w').
Proof.
  intros Hk. apply (wp_run _ w (λ r w', job_effect (has_table w) now c (jobs_of w) r (jobs_of w'))).
  destruct c as [new q p n|q|id|id msg|id]; cbn [run_jcall].
  - unfold Enqueue. destruct p as [body|e]; [|by split; [|exists e]]. apply wp_call_job; [done|..].
    + intros conn _. apply wp_db_Enqueue.
    + intros t _. apply wp_bind, wp_modify, wp_ret.
      by exists body, q, body, (new_job now (uuid_String new) q body (or_three n)).
  - apply wp_call_job; [done|intros; by apply wp_db_Dequeue|intros; by apply wp_memory_Dequeue].
  - apply wp_call; [intros; apply wp_db_Complete|]. intros t. split; [done|]. by exists id.
  - apply wp_call; [intros; apply wp_db_Fail|]. intros t. split; [done|]. by exists id.
  - apply wp_call; [intros; apply wp_db_Retry|]. intros t. apply wp_memory_Retry.
Qed.
End refinement.

(** ** Sequences of calls *)
Fixpoint run_jcalls {MR : MapRange} {UL : UUIDLib} {JC : JobColumns} (calls : list (time * jcall)) (w : JobQueue) :
    list (result (option Job)) * JobQueue :=
  match calls with
  | [] => ([], w)
  | (now, c) :: calls =>
      let '(r, w1) := run_jcall now c w in
      let '(rs, w2) := run_jcalls calls w1 in (r :: rs, w2)
  end.

(** The type of a stored job after [n] calls: an attempt is left to a job that
    waits or runs, and none to a dead one. *)
Record job_wf (n : Z) (j : Job) : Prop := {
  wf_max : 1 <= j_MaxRetries j;
  wf_retries : 0 <= j_RetriesCount j <= n;
  wf_not_failed : j_Status j <> StatusFailed;
  wf_live : j_Status j = StatusPending \/ j_Status j = StatusProcessing ->
    j_RetriesCount j < j_MaxRetries j;
  wf_dead : j_Status j = StatusDeadLetter -> j_MaxRetries j <= j_RetriesCount j;
}.

Definition jobs_wf `{JobColumns} (n : Z) (t : jobs) : Prop :=
  keys_ok t /\ forall id j, t !! id = Some j -> job_wf n j.

Section invariant.
Context {MR : MapRange} {UL : UUIDLib} {JC : JobColumns} {JL : JobColumnLaws}.

Lemma job_wf_mono n m j : job_wf n j -> n <= m -> job_wf m j.
Proof. intros [] ?. split; try done. lia. Qed.

Lemma jobs_wf_mono n m t : jobs_wf n t -> n <= m -> jobs_wf m t.
Proof. intros [Hk Hw] ?. split; [done|]. intros id j Hj. eauto using job_wf_mono. Qed.

Lemma keys_ok_insert t id j :
  keys_ok t -> j_ID j = id -> uuid_in id = Some id -> keys_ok (<[id := j]> t).
Proof.
  intros Hk Hid Hu id' j'. rewrite lookup_insert_Some. intros [[<- <-]|[_ Hl]]; eauto.
Qed.

Lemma keys_ok_alter t f id :
  keys_ok t -> (forall j, j_ID (f j) = j_ID j) -> keys_ok (alter f id t).
Proof.
  intros Hk Hf. destruct (t !! id) as [j|] eqn:E; [|by rewrite alter_missing].
  destruct (Hk _ _ E). rewrite (alter_insert_row _ _ _ _ E). apply keys_ok_insert; [done| |done].
  by rewrite Hf.
Qed.

Lemma jobs_wf_insert n t id j :
  jobs_wf n t -> j_ID j = id -> uuid_in id = Some id -> job_wf n j -> jobs_wf n (<[id := j]> t).
Proof.
  intros [Hk Hw] Hid Hu Hj. split; [by apply keys_ok_insert|]. intros id' j'.
  rewrite lookup_insert_Some. intros [[<- <-]|[_ Hl]]; eauto.
Qed.

Lemma jobs_wf_alter n t f id :
  jobs_wf n t -> (forall j, j_ID (f j) = j_ID j) ->
  (forall j, t !! id = Some j -> job_wf n j -> job_wf n (f j)) -> jobs_wf n (alter f id t).
Proof.
  intros Ht Hid Hf. split; [apply keys_ok_alter; by destruct Ht|]. destruct Ht as [_ Hw].
  intros id' j'. destruct (decide (id = id')) as [<-|Hne].
  - rewrite lookup_alter_eq. destruct (t !! id) as [j|] eqn:E; [|done]. intros [= <-]. eauto.
  - rewrite lookup_alter_ne by done. eauto.
Qed.

Lemma wf_set_status n s now j :
  job_wf n j -> s <> StatusFailed -> s <> StatusDeadLetter ->
  (s = StatusPending \/ s = StatusProcessing -> j_RetriesCount j < j_MaxRetries j) ->
  job_wf n (set_status s now j).
Proof. by intros [] ???. Qed.

Lemma retries_next n j : job_wf n j -> n < int64_max -> wrap64 (j_RetriesCount j + 1) = j_RetriesCount j + 1.
Proof. intros [_ Hr _ _ _] Hn. apply wrap64_id, in_int64_spec. unfold int64_min, int64_max in *. lia. Qed.

Lemma wf_fail_job n kept now msg j :
  job_wf n j -> n < int64_max -> job_wf (n + 1) (fail_job kept now msg j).
Proof.
  intros Hj Hn. unfold fail_job. rewrite (retries_next _ _ Hj Hn). destruct Hj as [Hm Hr Hf Hl Hd].
  destruct (Z.leb_spec (j_MaxRetries j) (j_RetriesCount j + 1)); split; cbn; try done; try lia;
    by intros [].
Qed.

Lemma fail_job_ID kept now msg j : j_ID (fail_job kept now msg j) = j_ID j.
Proof. unfold fail_job. by destruct (_ <=? _). Qed.

Lemma key_in_String table u key : key_in table (uuid_String u) = Some key -> key = uuid_String u.
Proof. unfold key_in. rewrite uuid_in_String. by destruct table; intros [=]. Qed.

Lemma job_effect_keys table now c t r t' : job_effect table now c t r t' -> keys_ok t -> keys_ok t'.
Proof.
  intros H Hk. destruct r as [out|e|]; cbn in H; [|by destruct H as [-> _]|done]. destruct c.
  - destruct H as (body & q & b & j & _ & _ & _ & _ & Hkey & _ & _ & ->).
    apply key_in_String in Hkey. rewrite Hkey. apply keys_ok_insert; [done..|apply uuid_in_String].
  - destruct H as [(_ & -> & _)|(j & Hj & _ & _ & _ & ->)]; [done|].
    apply keys_ok_insert; [done..|by destruct (Hk _ _ Hj)].
  - destruct H as (_ & key & _ & ->). by apply keys_ok_alter.
  - destruct H as (_ & key & _ & _ & ->). apply keys_ok_alter; [done|apply fail_job_ID].
  - destruct H as (_ & key & j & _ & Hj & _ & ->). destruct (Hk _ _ Hj). by apply keys_ok_insert.
Qed.

(** What a call writes is well typed. *)
Lemma job_effect_wf table now c n t r t' :
  job_effect table now c t r t' -> jobs_wf n t -> 0 <= n < int64_max -> jobs_wf (n + 1) t'.
Proof.
  intros H Ht Hn. assert (jobs_wf (n + 1) t) as Ht1 by (apply (jobs_wf_mono n); [done|lia]).
  destruct r as [out|e|]; cbn in H; [|by destruct H as [-> _]|done]. destruct c.
  - destruct H as (body & q & b & j & _ & _ & _ & _ & Hkey & -> & _ & ->).
    apply key_in_String in Hkey. rewrite Hkey. apply jobs_wf_insert; [done..|apply uuid_in_String|].
    unfold or_three. split; cbn; try done; try lia; destruct (Z.leb_spec maxRetries 0); lia.
  - destruct H as [(_ & -> & _)|(j & Hj & Hd & _ & _ & ->)]; [done|]. destruct Ht1 as [Hk Hw].
    apply jobs_wf_insert; [done..|by destruct (Hk _ _ Hj)|]. apply wf_set_status; try done; eauto. intros _.
    apply (wf_live (n + 1)); [by eauto|]. left. unfold due in Hd. by go_bool.
  - destruct H as (_ & key & _ & ->). apply jobs_wf_alter; [done..|]. intros j _ Hj.
    apply wf_set_status; try done. by intros [].
  - destruct H as (_ & key & _ & _ & ->), Ht as [Hk Hw]. apply jobs_wf_alter; [done|apply fail_job_ID|].
    intros j Hj _. apply wf_fail_job; [eauto|lia].
  - destruct H as (_ & key & j & _ & Hj & _ & ->), Ht1 as [Hk Hw]. destruct (Hk _ _ Hj).
    apply jobs_wf_insert; [done..|]. destruct (Hw _ _ Hj). split; cbn; try done; lia.
Qed.

(** C36: The jobs keep their type through every sequence of calls, on the table or in
    memory, whatever statements fail. *)
Theorem jobs_well_typed n calls w :
  0 <= n -> jobs_wf n (jobs_of w) -> n + Z.of_nat (length calls) <= int64_max ->
  jobs_wf (n + Z.of_nat (length calls)) (jobs_of (run_jcalls calls w).2).
Proof.
  intros Hn Hw Hlen. revert n w Hn Hw Hlen. induction calls as [|[now c] calls IH]; intros n w Hn Hw Hlen.
  { cbn. by rewrite Z.add_0_r. }
  cbn [run_jcalls length]. destruct (run_jcall now c w) as [r w1] eqn:E.
  destruct (run_jcalls calls w1) as [rs w2] eqn:E2. cbn [length] in Hlen.
  replace (n + Z.of_nat (S (length calls))) with (n + 1 + Z.of_nat (length calls)) by lia.
  cbn [snd].
  assert (jobs_of w2 = jobs_of (run_jcalls calls w1).2) as -> by by rewrite E2.
  apply IH; [lia| |lia]. eapply job_effect_wf; [|done|lia].
  eapply run_jcall_effect; [by destruct Hw|done].
Qed.
End invariant.

(** ** The backoff *)

(** The wait before the next attempt is [2^n] seconds up to the 33rd failure and
    never after it: the multiplication overflows. *)
Theorem backoff_exact n : 1 <= n -> backoff n = 2 ^ n * second <-> n <= 33.
Proof.
  intros Hn. split.
  - intros E. destruct (Z.le_gt_cases n 33); [done|]. exfalso.
    assert (in_int64 (backoff n) = true) as Hi.
    { unfold backoff. destruct (_ || _); [done|]. apply wrap64_in. }
    rewrite E in Hi. apply in_int64_spec in Hi. unfold int64_max, second in Hi.
    assert (2 ^ 34 <= 2 ^ n) as Hp by (apply Z.pow_le_mono_r; lia).
    change (2 ^ 34) with 17179869184 in Hp. lia.
  - intros Hle. unfold backoff.
    assert (2 ^ n <= 2 ^ 33) as Hp by (apply Z.pow_le_mono_r; lia).
    change (2 ^ 33) with 8589934592 in Hp. assert (0 < 2 ^ n) by (apply Z.pow_pos_nonneg; lia).
    destruct (Z.ltb_spec n 0); [lia|]. destruct (Z.leb_spec 64 n); [lia|]. cbn [orb].
    rewrite Z.shiftl_1_l, (wrap64_id (2 ^ n)) by
      (apply in_int64_spec; unfold int64_min, int64_max; lia).
    apply wrap64_id, in_int64_spec. unfold int64_min, int64_max, second. lia.
Qed.

(** ** Every call follows the life of its jobs *)
Section life_refinement.
Context {MR : MapRange} {UL : UUIDLib} {JC : JobColumns} {JL : JobColumnLaws}.

Lemma due_ready now q j : due now q j = true <-> ready now q j.
Proof.
  unfold due, ready, time_After. rewrite !andb_true_iff, !bool_decide_eq_true, negb_true_iff, Z.ltb_ge.
  tauto.
Qed.

Lemma micro_whole now k : 0 <= k -> micro (now + k * second) = micro now + k * second.
Proof.
  intros Hk. unfold micro, second. rewrite (Z.add_comm now), (Z.add_comm (_ * 1000)).
  replace (k * 1000000000) with (k * 1000000 * 1000) at 1 by lia. rewrite Z.div_add_l; lia.
Qed.

Lemma time_in_whole table now k : 0 <= k -> time_in table (now + k * second) = time_in table now + k * second.
Proof. unfold time_in. destruct table; [apply micro_whole|done]. Qed.

Lemma set_status_taken now j : taken now j (set_status StatusProcessing now j).
Proof. by repeat split. Qed.
Lemma set_status_finished now j : finished now j (set_status StatusCompleted now j).
Proof. by repeat split. Qed.
Lemma reset_job_revived now j : j_Status j = StatusDeadLetter -> revived now j (reset_job now j).
Proof. by repeat split. Qed.

Lemma fail_job_failed table now msg j n :
  job_wf n j -> 0 <= n < int64_max -> failed (time_in table now) msg j (fail_job (time_in table) now msg j).
Proof.
  intros Hj Hn. unfold fail_job. rewrite (retries_next _ _ Hj) by lia. pose proof (wf_retries _ _ Hj) as Hr.
  destruct (Z.leb_spec (j_MaxRetries j) (j_RetriesCount j + 1)); split; cbn; try done; try lia.
  intros _. split; [done|]. intros Hle. unfold time_Add.
  rewrite (proj2 (backoff_exact (j_RetriesCount j + 1) ltac:(lia)) Hle). by apply time_in_whole, Z.pow_nonneg.
Qed.

(** The rows the code writes are the steps of a life. *)
Lemma job_effect_life table now c n t r t' :
  jobs_wf n t -> 0 <= n < int64_max -> job_effect table now c t r t' -> job_rel table now c t r t'.
Proof.
  intros [Hk Hw] Hn H. destruct r as [out|e|]; [|done..]. destruct c; cbn in H |- *.
  - destruct H as (body & q & b & j & -> & -> & Hq & Hb & Hkey & -> & Hnew & ->). apply key_in_String in Hkey.
    rewrite Hkey in *. eexists body, q, b, _. split_and!; [done..| |done|done].
    unfold or_three. destruct (Z.leb_spec maxRetries 0), (Z.ltb_spec 0 maxRetries); try lia; split; cbn; split_and?; done || lia.
  - destruct H as [(-> & -> & Hd)|(j & Hj & Hd & Hfirst & (k & -> & Hh) & ->)]; [left|right].
    + split_and!; [done..|]. intros id j Hj Hr%due_ready. specialize (Hd _ _ Hj). congruence.
    + exists (j_ID j), j, (set_status StatusProcessing (time_in table now) j), k.
      split; [done|]. split; [by apply due_ready|]. split; [apply set_status_taken|].
      split; [|done]. intros Ht id i Hi Hr%due_ready. by eapply Hfirst.
  - destruct H as (-> & key & Hkey & ->). split; [done|]. exists key. split; [done|].
    destruct (t !! key) as [j|] eqn:E; [right|left; split; [done|by apply alter_missing]].
    exists j, (set_status StatusCompleted (time_in table now) j). rewrite (alter_insert_row _ _ _ _ E).
    split; [done|]. split; [apply set_status_finished|done].
  - destruct H as (-> & key & Hkey & Hsome & ->). split; [done|]. exists key. split; [done|].
    destruct (t !! key) as [j|] eqn:E; [right|left].
    + exists j, (fail_job (time_in table) now msg j). rewrite (alter_insert_row _ _ _ _ E).
      split; [done|]. split; [|done]. apply (fail_job_failed _ _ _ _ n); [by eapply Hw|done].
    + destruct table; [by destruct (Hsome eq_refl)|]. split_and!; [done..|by apply alter_missing].
  - destruct H as (-> & key & j & Hkey & Hj & Hd & ->). split; [done|].
    exists key, j, (reset_job (time_in table now) j). split; [done|]. split; [done|].
    split; [by apply reset_job_revived|done].
Qed.

(** C34: Every call takes the jobs along the steps of their lives, on the table and in
    memory, whatever statements fail: a new job is born waiting, a job is taken when
    its time has come (from the table the one that has waited longest), it is
    finished, it fails (to be dead after its last attempt, and to wait for [2 ^ n]
    seconds before the next one after the [n]-th of the first 33 failures) and it is
    revived with no failures.  A call that fails leaves the jobs. *)
Theorem run_jcall_refines n now c w r w' :
  0 <= n < int64_max -> jobs_wf n (jobs_of w) -> run_jcall now c w = (r, w') ->
  job_rel (has_table w) now c (jobs_of w) r (jobs_of w').
Proof.
  intros Hn Hw E. apply (job_effect_life _ _ _ n); [done..|]. apply run_jcall_effect; [by destruct Hw|done].
Qed.
End life_refinement.

(** ** The worker drains a queue *)

(** The attempts the waiting jobs of a queue still have. *)
Definition attempts (queueName : string) (j : Job) : nat :=
  if bool_decide (j_QueueName j = queueName) && bool_decide (j_Status j = StatusPending)
  then Z.to_nat (j_MaxRetries j - j_RetriesCount j) else 0%nat.
Definition backlog (queueName : string) (t : jobs) : nat := map_sum (attempts queueName) t.

Section worker.
Context {MR : MapRange} {UL : UUIDLib} {JC : JobColumns} {JL : JobColumnLaws}.
Variable r : run.
Variable error_text : error -> string.

(** What a processed job leaves: a write to its row, or nothing. *)
Lemma process_effect i k w w' :
  keys_ok (jobs_of w) -> process r error_text i k w = (Ok tt, w') ->
  exists now c, job_effect (has_table w) now c (jobs_of w) (Ok None) (jobs_of w') /\
      (c = CComplete (j_ID k) \/ exists msg, c = CFail (j_ID k) msg)
    \/ jobs_of w' = jobs_of w.
Proof using MR UL JC JL.
  intros Hk. unfold process, gignore. destruct (handler r i (j_Payload k)) as [[]|err|]; [..|done].
  - destruct (Complete _ _ w) as [res w1] eqn:E. intros Hw. exists (clock_done r i), (CComplete (j_ID k)).
    assert (run_jcall (clock_done r i) (CComplete (j_ID k)) w = (result_map (λ _, None) res, w1)) as Ec
      by (cbn; unfold gbind; rewrite E; by destruct res).
    apply run_jcall_effect in Ec; [|done].
    destruct res as [[]|e|]; cbn in Ec; simplify_eq; [left; eauto|right; by destruct Ec].
  - destruct (Fail _ _ _ w) as [res w1] eqn:E. intros Hw.
    exists (clock_done r i), (CFail (j_ID k) (error_text err)).
    assert (run_jcall (clock_done r i) (CFail (j_ID k) (error_text err)) w = (result_map (λ _, None) res, w1)) as Ec
      by (cbn; unfold gbind; rewrite E; by destruct res).
    apply run_jcall_effect in Ec; [|done].
    destruct res as [[]|e|]; cbn in Ec; simplify_eq; [left; eauto|right; by destruct Ec].
Qed.

Lemma attempts_fail_job q kept now msg j n :
  job_wf n j -> n < int64_max -> j_RetriesCount j < j_MaxRetries j ->
  (attempts q (fail_job kept now msg j) < Z.to_nat (j_MaxRetries j - j_RetriesCount j))%nat.
Proof.
  intros Hj Hn Hl. unfold attempts, fail_job. rewrite (retries_next _ _ Hj Hn).
  destruct (Z.leb_spec (j_MaxRetries j) (j_RetriesCount j + 1)); cbn;
    repeat case_bool_decide; cbn; done || lia.
Qed.

Lemma attempts_waiting q now j :
  due now q j = true -> attempts q j = Z.to_nat (j_MaxRetries j - j_RetriesCount j).
Proof. unfold due, attempts. intros Hd. go_bool. by rewrite !bool_decide_true by done. Qed.

Lemma key_in_stored table t id j : keys_ok t -> t !! id = Some j -> key_in table id = Some id.
Proof. intros Hk Hj. unfold key_in. destruct (Hk _ _ Hj). by destruct table. Qed.

(** A turn that goes on takes at least one attempt from the backlog. *)
Lemma drain_turn_decreases q i w w' n :
  jobs_wf n (jobs_of w) -> 0 <= n -> n + 2 <= int64_max ->
  drain_turn r error_text q i w = (Ok None, w') ->
  jobs_wf (n + 2) (jobs_of w') /\ (backlog q (jobs_of w') < backlog q (jobs_of w))%nat.
Proof.
  intros Hw Hn Hmax H1. unfold drain_turn in H1.
  apply gbind_Ok_inv in H1 as (job & w1 & E1 & H1).
  pose proof (run_jcall_effect (clock_dequeue r i) (CDequeue q) w _ _ (proj1 Hw) E1) as R1.
  pose proof (job_effect_wf _ _ _ n _ _ _ R1 Hw ltac:(lia)) as Hw1.
  destruct job as [k|]; [|done]. apply gbind_Ok_inv in H1 as ([] & w2 & E2 & [= <-]).
  destruct R1 as [(? & _)|(j & Hj & Hd & _ & (k' & [= <-] & (Hsame & _)) & Ht1)]; [done|].
  destruct Hsame as [Hid _]. set (pj := set_status StatusProcessing _ j) in *.
  pose proof (map_sum_replace (attempts q) (jobs_of w) _ _ pj Hj) as S1. rewrite <-Ht1 in S1.
  assert (attempts q pj = 0%nat) as Hz.
  { unfold attempts. cbn. by rewrite andb_false_r. }
  assert (jobs_of w1 !! j_ID k = Some pj) as Hp by by rewrite Ht1, Hid, lookup_insert_eq.
  assert (job_wf (n + 1) pj) as Hwp by by eapply Hw1.
  pose proof (wf_live _ _ Hwp (or_intror eq_refl)) as Hlive. cbn in Hlive.
  rewrite Hz, (attempts_waiting _ _ _ Hd) in S1. unfold backlog.
  apply process_effect in E2 as (now & c & [[R2 Hc]|Ht2]); [|split|by destruct Hw1].
  - pose proof (job_effect_wf _ _ _ _ _ _ _ R2 Hw1 ltac:(lia)) as Hw2.
    split; [by replace (n + 2) with (n + 1 + 1) by lia|].
    pose proof (key_in_stored (has_table w1) _ _ _ (proj1 Hw1) Hp) as Hkey.
    destruct Hc as [->|[msg ->]]; [destruct R2 as (_ & key & Hkey' & Ht2)|destruct R2 as (_ & key & Hkey' & _ & Ht2)];
      rewrite Hkey in Hkey'; injection Hkey' as <-;
      rewrite (alter_insert_row _ _ _ _ Hp) in Ht2; rewrite Ht2.
    + pose proof (map_sum_replace (attempts q) _ _ _ (set_status StatusCompleted (time_in (has_table w1) now) pj) Hp) as S2.
      assert (attempts q (set_status StatusCompleted (time_in (has_table w1) now) pj) = 0%nat) as Hc
        by (unfold attempts; cbn; by rewrite andb_false_r). lia.
    + pose proof (map_sum_replace (attempts q) _ _ _ (fail_job (time_in (has_table w1)) now msg pj) Hp) as S2.
      pose proof (attempts_fail_job q (time_in (has_table w1)) now msg pj (n + 1) Hwp ltac:(lia) Hlive) as Ha.
      rewrite Hz in S2. cbn in Ha. lia.
  - rewrite Ht2. apply (jobs_wf_mono (n + 1)); [done|lia].
  - rewrite Ht2. lia.
Qed.

(** C37: A drain ends, whatever the clock, the handler and the storage do: with one
    turn more than the attempts the queue holds, and when it ends without an
    error no job of the queue is due. *)
Theorem drainQueue_terminates n q i w :
  0 <= n -> jobs_wf n (jobs_of w) ->
  n + 2 * Z.of_nat (backlog q (jobs_of w)) + 2 <= int64_max ->
  exists res w', drainQueue r error_text (S (backlog q (jobs_of w))) q i w = Some (res, w') /\
    (res = Ok tt -> exists i', forall id j, jobs_of w' !! id = Some j ->
       due (clock_dequeue r i') q j = false).
Proof.
  remember (S (backlog q (jobs_of w))) as fuel eqn:Hf. assert (backlog q (jobs_of w) < fuel)%nat as Hlt by lia.
  clear Hf. revert n i w Hlt. induction fuel as [|fuel IH]; intros n i w Hlt Hn Hw Hmax; [lia|].
  cbn [drainQueue]. destruct (drain_turn r error_text q i w) as [[[[]|]|e|] w'] eqn:E.
  - exists (Ok tt), w'. split; [done|]. intros _. exists i. intros id j.
    unfold drain_turn in E. apply gbind_Ok_inv in E as ([k|] & w1 & E1 & E2).
    { by apply gbind_Ok_inv in E2 as (? & ? & _ & ?). }
    injection E2 as <-.
    pose proof (run_jcall_effect (clock_dequeue r i) (CDequeue q) w _ _ (proj1 Hw) E1) as R1.
    destruct R1 as [(_ & -> & Hd)|(j' & _ & _ & _ & (? & ? & _) & _)]; [by apply Hd|done].
  - apply drain_turn_decreases with (n := n) in E as [Hw' Hb]; [|done|lia|lia].
    apply (IH (n + 2)); [lia|lia|done|lia].
  - by exists (Err e), w'.
  - by exists Panic, w'.
Qed.
End worker.

(** ** The fallback in memory is the table

    What a caller sees of a job, but for [LastError], which [Dequeue] does not
    select, and [UpdatedAt], which it reads before it writes. *)
Definition seen (j : Job) :=
  (j_ID j, j_QueueName j, j_Payload j, j_Status j, j_MaxRetries j, j_RetriesCount j,
   j_ScheduledAt j, j_CreatedAt j).
Definition same_answer (r1 r2 : result (option Job)) : Prop :=
  match r1, r2 with
  | Ok a, Ok b => (seen <$> a) = (seen <$> b)
  | Err _, Err _ => True
  | _, _ => False
  end.

Definition in_memory (t : jobs) : JobQueue := {| jq_db := None; jq_memory := t |}.
Definition on_table (t m : jobs) : JobQueue := {| jq_db := Some (connection t); jq_memory := m |}.

Section equivalence.
Context {MR : MapRange} {UL : UUIDLib} {JC : JobColumns} {JL : JobColumnLaws}.

(** The calls on which the fallback stands for the table.  The columns keep what they
    are given: times are whole microseconds, the identifiers of the calls are
    canonical texts, and no text or number is one a column refuses or rewrites (a
    [JSONB] column reorders the keys of an object, so that its payload is one it
    gives back as it is).  An enqueued identifier is new, a failed job exists, its
    schedule does not overflow, and the visit of the map meets first the job the query
    would choose. *)
Definition agreeable (now : time) (c : jcall) (t : jobs) : Prop :=
  micro now = now /\
  match c with
  | CEnqueue new q p n => t !! uuid_String new = None /\ varchar_in 100 q = Some q /\
      (forall body, p = inl body -> jsonb_in body = Some body) /\ out_of_int4 (or_three n) = false
  | CDequeue q => text_ok q = true /\ head (filter (due now q) (range_jobs t)) = earliest now q t
  | CComplete id | CRetryDeadLetter id => uuid_in id = Some id
  | CFail id msg => uuid_in id = Some id /\ text_ok msg = true /\
      exists j, t !! id = Some j /\ 0 <= j_RetriesCount j < 33
  end.

Fixpoint all_agreeable (calls : list (time * jcall)) (t : jobs) : Prop :=
  match calls with
  | [] => True
  | (now, c) :: calls => agreeable now c t /\
      all_agreeable calls (jobs_of (run_jcall now c (in_memory t)).2)
  end.

Lemma fail_job_whole now msg j :
  micro now = now -> 0 <= j_RetriesCount j < 33 ->
  fail_job id now msg j = fail_job micro now msg j /\ out_of_int4 (wrap64 (j_RetriesCount j + 1)) = false.
Proof.
  intros Hnow Hr. unfold fail_job.
  rewrite (wrap64_id (j_RetriesCount j + 1)) by (apply in_int64_spec; unfold int64_min, int64_max; lia).
  split; [|unfold out_of_int4; apply orb_false_iff; split; [apply Z.ltb_ge|apply Z.leb_gt]; lia].
  rewrite (proj2 (backoff_exact (j_RetriesCount j + 1) ltac:(lia)) ltac:(lia)).
  unfold time_Add. rewrite micro_whole by (apply Z.pow_nonneg; lia). by rewrite Hnow.
Qed.

(** What a statement does on a connection without faults. *)
Ltac on_table_run :=
  cbn; unfold gbind, db_or_memory; cbn;
  unfold or_missing, gwrap, pg_row, pg_select, update_job, pg_exec, gtry, gbind, gret; cbn.

Lemma enqueue_agrees now new q p n t m :
  agreeable now (CEnqueue new q p n) t -> exists r1 r2 t',
    run_jcall now (CEnqueue new q p n) (in_memory t) = (r1, in_memory t') /\
    run_jcall now (CEnqueue new q p n) (on_table t m) = (r2, on_table t' m) /\ same_answer r1 r2.
Proof.
  intros (Hnow & Hnew & Hq & Hp & Hn). destruct p as [body|e]; [|by do 3 eexists].
  specialize (Hp body eq_refl). do 3 eexists. split; [done|]. split; [|shelve]. cbn.
  unfold Enqueue, db_Enqueue. on_table_run. unfold inserted_job.
  rewrite uuid_in_String, Hq, Hp, Hn, Hnow. cbn. by rewrite Hnew.
  Unshelve. all: done.
Qed.

Lemma dequeue_agrees now q t m :
  keys_ok t -> agreeable now (CDequeue q) t -> exists r1 r2 t',
    run_jcall now (CDequeue q) (in_memory t) = (r1, in_memory t') /\
    run_jcall now (CDequeue q) (on_table t m) = (r2, on_table t' m) /\ same_answer r1 r2.
Proof.
  intros Hk (Hnow & Hq & Ha). pose proof (earliest_chooses now q _ Hk) as Hc.
  destruct (earliest now q t) as [j|] eqn:He; do 3 eexists; (split;
    [cbn; unfold Dequeue, memory_Dequeue, db_or_memory; cbn; by rewrite Ha|]); (split; [|shelve]);
    unfold run_jcall, Dequeue, db_Dequeue, db_or_memory, pg_in_tx; rewrite Hq; on_table_run; rewrite He; cbn; [|done].
  destruct Hc as [Hl _]. destruct (Hk _ _ Hl) as [_ ->]. cbn. rewrite Hl. cbn. by rewrite Hnow.
  Unshelve. all: done.
Qed.

Lemma fail_agrees now id msg t m :
  agreeable now (CFail id msg) t -> exists r1 r2 t',
    run_jcall now (CFail id msg) (in_memory t) = (r1, in_memory t') /\
    run_jcall now (CFail id msg) (on_table t m) = (r2, on_table t' m) /\ same_answer r1 r2.
Proof.
  intros (Hnow & Hid & Hmsg & j & Hj & Hr). destruct (fail_job_whole now msg j Hnow Hr) as [Hf Hout].
  exists (Ok None), (Ok None), (alter (fail_job Datatypes.id now msg) id t). split; [done|]. split; [|done].
  rewrite (alter_insert_row (fail_job Datatypes.id now msg) _ _ _ Hj), Hf. cbn. unfold Fail, db_Fail. rewrite Hid. on_table_run.
  rewrite Hj. cbn. rewrite Hout, Hmsg. unfold fail_job. destruct (_ <=? _); rewrite Hid; cbn; by rewrite Hj.
Qed.

Lemma one_call_agrees now c t m :
  keys_ok t -> agreeable now c t ->
  exists r1 r2 t', run_jcall now c (in_memory t) = (r1, in_memory t') /\
    run_jcall now c (on_table t m) = (r2, on_table t' m) /\ same_answer r1 r2.
Proof.
  intros Hk Ha. destruct c as [new q p n|q|id|id msg|id];
    [by apply enqueue_agrees|by apply dequeue_agrees| |by apply fail_agrees|];
    destruct Ha as [Hnow Hid]; (destruct (t !! id) as [j|] eqn:Hj; [destruct (is_dead j) eqn:Hd|]);
    do 3 eexists; cbn; unfold Complete, RetryDeadLetterJob; on_table_run;
    rewrite Hid, Hj, ?Hd, ?Hnow; cbn; rewrite ?Hj, ?Hd, ?(alter_insert_row _ _ _ _ Hj), ?alter_missing by done; by split_and!.
  Unshelve. all: done.
Qed.

End equivalence.

(** ** A run *)
#[local] Instance plain_range : MapRange :=
  {| range_jobs t := (map_to_list t).*2; range_jobs_perm := λ t, reflexivity _ |}.

(** Columns that keep a queue name of up to 100 characters, a payload and a text, and
    know the identifiers of the demonstration's library. *)
#[local] Instance plain_columns : JobColumns := {|
  uuid_in s := if decide (s = unary (String.length s)) then Some s else None;
  varchar_in n s := if Z.of_nat (String.length s) <=? n then Some s else None;
  jsonb_in s := Some s;
  text_ok _ := true;
|}.
#[local] Instance plain_column_laws : JobColumnLaws.
Proof.
  split. intros u. pose proof (uuid_Parse_String u) as Hu. cbn in *. injection Hu as Hu.
  rewrite decide_True; [done|]. f_equal. lia.
Qed.

Definition demo_calls : list (time * jcall) :=
  [(0, CEnqueue 1 "mail" (inl "1"%string) 2); (1000, CDequeue "mail");
   (2000, CFail "x" "down"); (3000000000, CDequeue "mail"); (3000001000, CFail "x" "down");
   (3000002000, CRetryDeadLetter "x"); (3000003000, CDequeue "mail"); (3000004000, CComplete "x")]%string.

Definition demo_waiting : jobs := {[ "x" := new_job 0 "x" "mail" "1" 3 ]}%string.
Lemma demo_waiting_wf : jobs_wf 0 demo_waiting.
Proof. split; intros id j; unfold demo_waiting; by intros [<- <-]%lookup_singleton_Some. Qed.

(** The failed job waits for two seconds, and the dead one starts again. *)
Example demo_calls_run :
  (λ j, (j_Status j, j_RetriesCount j, j_ScheduledAt j)) <$> jobs_of (run_jcalls (take 3 demo_calls) (on_table ∅ ∅)).2 !! "x"%string =
    Some (StatusPending, 1, 2000002000) /\
  (λ j, (j_Status j, j_RetriesCount j, j_ScheduledAt j)) <$> jobs_of (run_jcalls (take 6 demo_calls) (on_table ∅ ∅)).2 !! "x"%string =
    Some (StatusPending, 0, 3000002000).
Proof. by vm_compute. Qed.

Lemma run_jcall_refines_witness :
  job_rel true 1000 (CDequeue "mail") demo_waiting
    (run_jcall 1000 (CDequeue "mail") (on_table demo_waiting ∅)).1
    (jobs_of (run_jcall 1000 (CDequeue "mail") (on_table demo_waiting ∅)).2).
Proof.
  apply (run_jcall_refines 0 1000 (CDequeue "mail") (on_table demo_waiting ∅));
    [done|exact demo_waiting_wf|by destruct (run_jcall _ _ _)].
Defined.

Lemma jobs_well_typed_witness :
  jobs_wf 8 (jobs_of (run_jcalls demo_calls (on_table ∅ ∅)).2).
Proof. apply (jobs_well_typed 0 demo_calls (on_table ∅ ∅)); [done|by split|done]. Defined.

Lemma backoff_exact_witness : 1 <= 33 /\ backoff 33 = 8589934592 * second /\ backoff 34 < 0.
Proof. split; [lia|]. split; [by apply (backoff_exact 33)|done]. Defined.

Definition demo_run : run :=
  {| handler i _ := if decide (i = 1%nat) then Ok tt else Err (Errorf "down");
     clock_dequeue i := Z.of_nat i * second; clock_done i := Z.of_nat i * second |}.

Lemma drainQueue_terminates_witness : exists res w',
  drainQueue demo_run (λ _, "down"%string) 4 "mail" 0 (in_memory demo_waiting) = Some (res, w') /\
  (res = Ok tt -> exists i', forall id j, jobs_of w' !! id = Some j ->
     due (clock_dequeue demo_run i') "mail" j = false).
Proof.
  apply (drainQueue_terminates demo_run (λ _, "down"%string) 0 "mail" 0 (in_memory demo_waiting));
    [done|exact demo_waiting_wf|done].
Defined.

End jobqueue.
