(* ===== verification/Webhook.v ===== *)
(** Webhooks (src/webhook/service.go, queue.go, with the consumer of
    src/pkg/rabbitmq/rabbitmq.go and the handlers of
    src/internal/api/handler/webhook_handler.go): signatures, registrations, the
    deliveries of the dispatcher in the process and of the queue. *)
From S2P Require Export Threads Postgres GoStrings JobQueue.
From stdpp Require Import options.
From Stdlib Require Import Ascii.
#[local] Set Default Proof Using "Type*".
Open Scope Z_scope.
Local Open Scope go_scope.

Module webhook.

(** ** encoding/hex *)
Definition hex_digit (n : N) : ascii := ascii_of_N (if (n <? 10)%N then 48 + n else 87 + n)%N.
Definition from_hex (c : ascii) : option N :=
  let n := N_of_ascii c in
  if ((48 <=? n) && (n <=? 57))%N then Some (n - 48)%N
  else if ((97 <=? n) && (n <=? 102))%N then Some (n - 87)%N
  else if ((65 <=? n) && (n <=? 70))%N then Some (n - 55)%N
  else None.
Fixpoint hex_EncodeToString (s : string) : string :=
  match s with
  | EmptyString => EmptyString
  | String c s => String (hex_digit (N_of_ascii c / 16)) (String (hex_digit (N_of_ascii c mod 16)) (hex_EncodeToString s))
  end.
Fixpoint hex_DecodeString (s : string) : option string :=
  match s with
  | EmptyString => Some EmptyString
  | String a (String b s) =>
      match from_hex a, from_hex b, hex_DecodeString s with
      | Some x, Some y, Some r => Some (String (ascii_of_N (16 * x + y)) r)
      | _, _, _ => None
      end
  | String _ EmptyString => None
  end.

(** ** Signatures *)
Class HMAC := { hmac_sha256 : string -> string -> string;   (** key, message *)
                sha256_Sum256 : string -> string }.
Section signing.
Context `{HMAC}.
Definition signing_key (secret : string) : string :=
  if decide (String.length secret = 64%nat) then default secret (hex_DecodeString secret) else secret.
Definition SignWebhookPayload (payload secret : string) : string := hex_EncodeToString (hmac_sha256 (signing_key secret) payload).
(** [subtle.ConstantTimeCompare(a, b) == 1] *)
Definition constantTimeCompare (a b : string) : bool := bool_decide (a = b).
Definition VerifyWebhookSignature (payload signature secret : string) : bool :=
  if decide (signature = ""%string) then false else constantTimeCompare (SignWebhookPayload payload secret) signature.
Definition VerifySignature (expected signature : string) : bool :=
  match hex_DecodeString expected, hex_DecodeString signature with
  | Some e, Some s => constantTimeCompare e s
  | _, _ => false
  end.
End signing.

(** ** Registrations *)
Record WebhookRegistration := {
  wh_ID : string; wh_UserID : string; wh_TargetURL : string; wh_Secret : string; wh_SecretHash : string;
  wh_Events : list string; wh_IsActive : bool; wh_CreatedAt : time;
}.
Record DeliveryLog := {
  dl_ID : string; dl_WebhookID : string; dl_StatusCode : Z; dl_Success : bool; dl_Error : string; dl_DurationMs : Z; dl_CreatedAt : time;
}.
(** [GetByID] gives nil and no error when there is none. *)
Class WebhookRepository (W : Type) := {
  Register : WebhookRegistration -> M W unit;
  GetByUserID : string -> M W (list WebhookRegistration);
  GetActiveWebhooks : M W (list WebhookRegistration);
  GetByID : string -> M W (option WebhookRegistration);
  Delete : string -> M W unit;
  ListDeliveries : string -> Z -> Z -> M W (list DeliveryLog * Z);
}.

(** *** PostgresRepository

    The columns of the two tables are those of the migrations
    (src/internal/database/migrations/010_create_webhooks.up.sql and
    037_create_webhook_deliveries.up.sql); a statement that names another column is
    refused with 42703. *)
Record tables := { webhooks : gmap string WebhookRegistration; webhook_deliveries : list DeliveryLog }.
Definition webhooks_columns : list string :=
  ["id"; "user_id"; "url"; "events"; "secret_hash"; "is_active"; "last_delivery_at"; "failure_count"; "created_at"; "updated_at"]%string.
Definition webhook_deliveries_columns : list string :=
  ["id"; "webhook_id"; "event_type"; "status"; "status_code"; "attempt"; "error"; "created_at"]%string.
Definition with_columns {A} (named columns : list string) (q : tables -> (A * tables) + string) (t : tables) : (A * tables) + string :=
  if bool_decide (named ⊆ columns) then q t else inr "42703"%string.
Section postgres.
Abbreviation DB := (M (PgState tables)) (only parsing).
Definition registration_columns : list string := ["id"; "user_id"; "target_url"; "secret_hash"; "created_at"]%string.
(** The fields a row gives back. *)
Definition scanned (w : WebhookRegistration) : WebhookRegistration :=
  {| wh_ID := wh_ID w; wh_UserID := wh_UserID w; wh_TargetURL := wh_TargetURL w; wh_Secret := ""; wh_SecretHash := wh_SecretHash w;
     wh_Events := []; wh_IsActive := false; wh_CreatedAt := wh_CreatedAt w |}.
Definition stamped (now : time) (w : WebhookRegistration) : WebhookRegistration :=
  {| wh_ID := wh_ID w; wh_UserID := wh_UserID w; wh_TargetURL := wh_TargetURL w; wh_Secret := wh_Secret w; wh_SecretHash := wh_SecretHash w;
     wh_Events := wh_Events w; wh_IsActive := wh_IsActive w; wh_CreatedAt := now |}.
Definition pg_Register (now : time) (w : WebhookRegistration) : DB unit :=
  pg_exec (with_columns registration_columns webhooks_columns (λ t,
    match webhooks t !! wh_ID w with
    | Some _ => inr "23505"%string
    | None => inl (tt, {| webhooks := <[wh_ID w := stamped now w]> (webhooks t); webhook_deliveries := webhook_deliveries t |})
    end)).
Definition select_webhooks (P : WebhookRegistration -> bool) : DB (list WebhookRegistration) :=
  pg_exec (with_columns registration_columns webhooks_columns (λ t,
    inl (scanned <$> filter (λ w, P w = true) (map_to_list (webhooks t)).*2, t))).
Definition pg_GetActiveWebhooks : DB (list WebhookRegistration) := select_webhooks (λ _, true).
Definition pg_GetByUserID (userID : string) : DB (list WebhookRegistration) := select_webhooks (λ w, bool_decide (wh_UserID w = userID)).
Definition pg_GetByID (id : string) : DB (option WebhookRegistration) :=
  let! l := select_webhooks (λ w, bool_decide (wh_ID w = id)) in gret (head l).
Definition pg_Delete (id : string) : DB unit :=
  pg_exec (λ t, inl (tt, {| webhooks := delete id (webhooks t); webhook_deliveries := webhook_deliveries t |})).
Definition delivery_columns : list string := ["id"; "webhook_id"; "status_code"; "success"; "error"; "duration_ms"; "created_at"]%string.
Definition newest (a b : DeliveryLog) : Prop := dl_CreatedAt b <= dl_CreatedAt a.
#[export] Instance newest_dec : RelDecision newest.
Proof. intros a b. unfold newest. apply _. Defined.
Definition pg_ListDeliveries (id : string) (page limit : Z) : DB (list DeliveryLog * Z) :=
  let of_id t := filter (λ d, dl_WebhookID d = id) (webhook_deliveries t) in
  let! total := pg_select (λ t, Z.of_nat (length (of_id t))) in
  let offset := wrap64 ((page - 1) * limit) in
  let! l := pg_exec (with_columns delivery_columns webhook_deliveries_columns (λ t,
    if offset <? 0 then inr "2201X"%string
    else inl (take (Z.to_nat limit) (drop (Z.to_nat offset) (merge_sort newest (of_id t))), t))) in
  gret (l, total).
End postgres.
#[export] Instance PostgresRepository (now : time) : WebhookRepository (PgState tables) := {
  Register := pg_Register now; GetByUserID := pg_GetByUserID; GetActiveWebhooks := pg_GetActiveWebhooks;
  GetByID := pg_GetByID; Delete := pg_Delete; ListDeliveries := pg_ListDeliveries;
}.

(** ** One delivery *)
Record post := { po_URL : string; po_Body : string; po_Signature : option string; po_RequestID : option string }.
(** [Sleep] says whether the wait was cut short; [Stopped] is [<-d.stop]. *)
Inductive deliverE : Type -> Type :=
  | NewRequest (url : string) : deliverE unit
  | Post (p : post) : deliverE Z                        (** the status of the answer *)
  | Sleep (d : duration) : deliverE bool
  | EnqueueJob (payload : string) (maxRetries : Z) : deliverE unit.
Abbreviation io := (prog deliverE).
Definition is_success (status : Z) : bool := (200 <=? status) && (status <? 300).
Definition nonempty (s : string) : option string := if decide (s = ""%string) then None else Some s.

Record WebhookRetryPayload := { rp_WebhookID : string; rp_TargetURL : string; rp_SecretHash : string; rp_Payload : string; rp_RequestID : string }.
Record Message := {
  m_RegistrationID : string; m_UserID : string; m_TargetURL : string; m_Payload : string; m_RequestID : string; m_MaxRetries : Z;
  m_Secret : string;
}.
Class EnvelopeJSON := {
  retry_Marshal : WebhookRetryPayload -> string;
  retry_Unmarshal : string -> option WebhookRetryPayload;
  message_Marshal : Message -> string + error;
  message_Unmarshal : string -> option Message;
}.

Section delivery.
Context `{HMAC} `{EnvelopeJSON}.
Definition DefaultTimeout : duration := 5 * second.
Definition DefaultMaxConcurrency : Z := 25.
Definition WebhookQueueName : string := "webhook_delivery".

Definition sendHTTP (targetURL secret body reqID : string) : io unit :=
  do* pwrap "creating webhook request: %w" (act (NewRequest targetURL)) in
  let* status := act (Post {| po_URL := targetURL; po_Body := body;
                              po_Signature := if decide (secret = ""%string) then None else Some (SignWebhookPayload body secret);
                              po_RequestID := nonempty reqID |}) in
  if is_success status then pret tt else pfail (Errorf "webhook endpoint returned status %d").

(** [for attempt := 2; attempt <= maxRetries; attempt++], [n] turns of it. *)
Fixpoint retry_loop (n : nat) (backoff : duration) (wh : WebhookRegistration) (body reqID : string) : io unit :=
  match n with
  | O => pret tt
  | S n =>
      let* stopped := act (Sleep backoff) in
      if stopped : bool then pret tt
      else ptry (sendHTTP (wh_TargetURL wh) (wh_SecretHash wh) body reqID) (λ r,
        match r with
        | inl _ => pret tt
        | inr _ => retry_loop n (wrap64 (backoff * 2)) wh body reqID
        end)
  end.
Definition inMemoryRetry (wh : WebhookRegistration) (body : string) (maxRetries : Z) (reqID : string) : io unit :=
  retry_loop (Z.to_nat (maxRetries - 1)) (100 * (second / 1000)) wh body reqID.
Definition retry_payload (wh : WebhookRegistration) (body reqID : string) : WebhookRetryPayload :=
  {| rp_WebhookID := wh_ID wh; rp_TargetURL := wh_TargetURL wh; rp_SecretHash := wh_SecretHash wh; rp_Payload := body; rp_RequestID := reqID |}.
Definition deliverWithRetry (jobQueue : bool) (wh : WebhookRegistration) (body : string) (maxRetries : Z) (reqID : string) : io unit :=
  ptry (sendHTTP (wh_TargetURL wh) (wh_SecretHash wh) body reqID) (λ r,
    match r with
    | inl _ => pret tt
    | inr _ =>
        if jobQueue && (1 <? maxRetries) then
          ptry (act (EnqueueJob (retry_Marshal (retry_payload wh body reqID)) maxRetries)) (λ q,
            match q with
            | inl _ => pret tt
            | inr _ => inMemoryRetry wh body maxRetries reqID
            end)
        else inMemoryRetry wh body maxRetries reqID
    end).
(** The payload of a queued job. *)
Definition ProcessRetryJob (payload : string) : io unit :=
  match retry_Unmarshal payload with
  | None => pfail (Wrapf "unmarshaling retry payload: %w" (External "json"))
  | Some p => sendHTTP (rp_TargetURL p) (rp_SecretHash p) (rp_Payload p) (rp_RequestID p)
  end.

(** *** queue.go *)
Definition message_post (m : Message) : post :=
  {| po_URL := m_TargetURL m; po_Body := m_Payload m; po_Signature := Some (SignWebhookPayload (m_Payload m) (m_Secret m));
     po_RequestID := nonempty (m_RequestID m) |}.
Definition failed_attempts : error := Errorf "webhook delivery to %s failed after %d attempts".
(** [for attempt := 1; attempt <= m.MaxRetries; attempt++], [n] turns of it; no wait follows the last. *)
Fixpoint deliver_loop (n : nat) (backoff : duration) (m : Message) : io unit :=
  match n with
  | O => pfail failed_attempts
  | S n =>
      do* pwrap "building webhook request for %s: %w" (act (NewRequest (m_TargetURL m))) in
      ptry (act (Post (message_post m))) (λ r,
        let again := match n with
                     | O => pfail failed_attempts
                     | S _ =>
                         let* done := act (Sleep backoff) in
                         if done : bool then pfail (External "context done") else deliver_loop n (wrap64 (backoff * 2)) m
                     end in
        match r with
        | inl status => if is_success status then pret tt else again
        | inr _ => again
        end)
  end.
Definition Deliver (m : Message) : io unit := deliver_loop (Z.to_nat (m_MaxRetries m)) (100 * (second / 1000)) m.
End delivery.

(** ** The dispatcher in the process *)
Record Dispatcher := { d_sem : Z; d_jobQueue : bool; d_timeout : duration; d_httpClient_timeout : duration }.
Inductive DispatcherOption :=
  | WithMaxConcurrency (n : Z) | WithHTTPClient (timeout : option duration) | WithJobQueue (jq : bool) | WithTimeout (t : duration).
Definition apply_option (d : Dispatcher) (o : DispatcherOption) : Dispatcher :=
  match o with
  | WithMaxConcurrency n => {| d_sem := if 0 <? n then n else d_sem d; d_jobQueue := d_jobQueue d; d_timeout := d_timeout d; d_httpClient_timeout := d_httpClient_timeout d |}
  | WithHTTPClient c => {| d_sem := d_sem d; d_jobQueue := d_jobQueue d; d_timeout := d_timeout d; d_httpClient_timeout := default (d_httpClient_timeout d) c |}
  | WithJobQueue jq => {| d_sem := d_sem d; d_jobQueue := jq; d_timeout := d_timeout d; d_httpClient_timeout := d_httpClient_timeout d |}
  | WithTimeout t => {| d_sem := d_sem d; d_jobQueue := d_jobQueue d; d_timeout := if 0 <? t then t else d_timeout d; d_httpClient_timeout := d_httpClient_timeout d |}
  end.
Definition NewDispatcher (opts : list DispatcherOption) : Dispatcher :=
  foldl apply_option {| d_sem := DefaultMaxConcurrency; d_jobQueue := false; d_timeout := DefaultTimeout; d_httpClient_timeout := DefaultTimeout |} opts.
Definition ErrDispatcherClosed : error := Sentinel "dispatcher is closed".

(** What a goroutine delivers, and where it is: before the semaphore, past it, ended. *)
Record task := { k_wh : WebhookRegistration; k_body : string; k_maxRetries : Z; k_reqID : string }.
Inductive goroutine := Waiting | Running (p : prog deliverE unit) | Ended.
(** A call of [DispatchPayload] between its look at [closed] and its loop. *)
Record dispatching := { dp_payload : string + error;   (** as [json.Marshal] gives it *)
  dp_maxRetries : Z; dp_reqID : string }.
(** The call of [Shutdown] that closed the dispatcher. *)
Inductive shutdown := NotCalled | Waits | Returned (err : option error).

Section dispatcher.
Context `{HMAC} `{EnvelopeJSON} {W : Type} `{WebhookRepository W}.
Variables (d : Dispatcher) (perform : forall X, deliverE X -> M W X).

Record state := {
  s_world : W;
  s_closed : bool;
  s_stop : bool;
  s_calls : list dispatching;
  s_goroutines : list (task * goroutine);
  s_shutdown : shutdown;
  s_again : list (option error);   (** the answers of the calls that found it closed *)
}.
Definition running (g : task * goroutine) : bool := match g.2 with Running _ => true | _ => false end.
Definition ended (g : task * goroutine) : bool := match g.2 with Ended => true | _ => false end.
Definition slots_taken (s : state) : nat := length (filter (λ g, running g = true) (s_goroutines s)).

(** The choices of the scheduler. *)
Inductive choice :=
  | Call (c : dispatching)            (** a call passes its look at [closed], or is refused *)
  | Spawn (i : nat)                   (** a call reads the registrations and starts the goroutines *)
  | Enter (i : nat)                   (** a goroutine takes a slot *)
  | Leave (i : nat)                   (** a goroutine finds the dispatcher stopped *)
  | Step (i : nat)                    (** the next action of a goroutine, or its end *)
  | Shutdown                          (** [closed] is set, or found set: the call answers at once *)
  | WaitOver                          (** the wait of the shutdown ends: no goroutine is left *)
  | ContextDone (err : error).        (** its context ends first *)
Definition set_goroutines (gs : list (task * goroutine)) (w : W) (s : state) : state :=
  {| s_world := w; s_closed := s_closed s; s_stop := s_stop s; s_calls := s_calls s; s_goroutines := gs; s_shutdown := s_shutdown s; s_again := s_again s |}.
Definition set_shutdown (closed stop : bool) (sh : shutdown) (s : state) : state :=
  {| s_world := s_world s; s_closed := closed; s_stop := stop; s_calls := s_calls s; s_goroutines := s_goroutines s; s_shutdown := sh;
     s_again := s_again s |}.
Definition answer_again (s : state) : state :=
  {| s_world := s_world s; s_closed := s_closed s; s_stop := s_stop s; s_calls := s_calls s; s_goroutines := s_goroutines s;
     s_shutdown := s_shutdown s; s_again := s_again s ++ [None] |}.
Definition tasks_of (c : dispatching) (body : string) (whs : list WebhookRegistration) : list (task * goroutine) :=
  (λ wh, ({| k_wh := wh; k_body := body; k_maxRetries := dp_maxRetries c; k_reqID := dp_reqID c |}, Waiting)) <$> whs.
Definition deliver_task (t : task) : prog deliverE unit :=
  deliverWithRetry (d_jobQueue d) (k_wh t) (k_body t) (k_maxRetries t) (k_reqID t).
(** [DispatchPayload] past its look at [closed]: its goroutines, or its error. *)
Definition DispatchPayload (c : dispatching) : M W (list (task * goroutine)) :=
  let! whs := gwrap "failed to load webhooks for dispatch: %w" GetActiveWebhooks in
  match dp_payload c with
  | inr err => gfail (Wrapf "failed to marshal webhook payload: %w" err)
  | inl body => gret (tasks_of c body whs)
  end.
(** A choice that is not possible changes nothing. *)
Definition dispatch_step (c : choice) (s : state) : state :=
  match c with
  | Call x =>
      if s_closed s then s
      else {| s_world := s_world s; s_closed := s_closed s; s_stop := s_stop s; s_calls := s_calls s ++ [x];
              s_goroutines := s_goroutines s; s_shutdown := s_shutdown s; s_again := s_again s |}
  | Spawn i =>
      match s_calls s !! i with
      | None => s
      | Some x =>
          let '(r, w) := DispatchPayload x (s_world s) in
          {| s_world := w; s_closed := s_closed s; s_stop := s_stop s; s_calls := delete i (s_calls s);
             s_goroutines := s_goroutines s ++ match r with Ok gs => gs | _ => [] end; s_shutdown := s_shutdown s; s_again := s_again s |}
      end
  | Enter i =>
      match s_goroutines s !! i with
      | Some (t, Waiting) =>
          if Z.of_nat (slots_taken s) <? d_sem d then set_goroutines (<[i := (t, Running (deliver_task t))]> (s_goroutines s)) (s_world s) s
          else s
      | _ => s
      end
  | Leave i =>
      match s_goroutines s !! i with
      | Some (t, Waiting) => if s_stop s then set_goroutines (<[i := (t, Ended)]> (s_goroutines s)) (s_world s) s else s
      | _ => s
      end
  | Step i =>
      match s_goroutines s !! i with
      | Some (t, Running (Act e k)) =>
          let '(r, w) := perform _ e (s_world s) in set_goroutines (<[i := (t, Running (k r))]> (s_goroutines s)) w s
      | Some (t, Running (Done _)) => set_goroutines (<[i := (t, Ended)]> (s_goroutines s)) (s_world s) s
      | _ => s
      end
  | Shutdown => if s_closed s then answer_again s else set_shutdown true (s_stop s) Waits s
  | WaitOver =>
      match s_shutdown s with
      | Waits => if forallb ended (s_goroutines s) then set_shutdown (s_closed s) (s_stop s) (Returned None) s else s
      | _ => s
      end
  | ContextDone err =>
      match s_shutdown s with Waits => set_shutdown (s_closed s) true (Returned (Some err)) s | _ => s end
  end.
Definition dispatch (cs : list choice) (s : state) : state := foldl (λ s c, dispatch_step c s) s cs.
Definition initial (w : W) : state :=
  {| s_world := w; s_closed := false; s_stop := false; s_calls := []; s_goroutines := []; s_shutdown := NotCalled; s_again := [] |}.
End dispatcher.

(** ** The dispatcher over the queue, and its consumer *)
Definition WebhookRoutingKey : string := "webhook.dispatch".
Section queued.
Context `{HMAC} `{EnvelopeJSON} {W : Type} `{WebhookRepository W}.
Variables (exchange : string) (Publish : string -> string -> string -> M W unit) (perform : forall X, deliverE X -> M W X).

Definition envelope (body requestID : string) (maxRetries : Z) (wh : WebhookRegistration) : Message :=
  {| m_RegistrationID := wh_ID wh; m_UserID := wh_UserID wh; m_TargetURL := wh_TargetURL wh; m_Payload := body; m_RequestID := requestID;
     m_MaxRetries := maxRetries; m_Secret := "" |}.
Fixpoint publish_all (body requestID : string) (maxRetries : Z) (whs : list WebhookRegistration) : M W unit :=
  match whs with
  | [] => gret tt
  | wh :: whs =>
      match message_Marshal (envelope body requestID maxRetries wh) with
      | inr err => gfail (Wrapf "marshalling webhook envelope %s: %w" err)
      | inl bytes =>
          do! gwrap "publishing webhook envelope %s: %w" (Publish exchange WebhookRoutingKey bytes) in
          publish_all body requestID maxRetries whs
      end
  end.
Definition queued_DispatchPayload (payload : string + error) (requestID : string) (maxRetries : Z) : M W unit :=
  match payload with
  | inr err => gfail (Wrapf "marshalling webhook payload: %w" err)
  | inl body =>
      let! whs := gwrap "loading webhooks for dispatch: %w" GetActiveWebhooks in
      publish_all body requestID maxRetries whs
  end.
Definition with_secret (msg : Message) (wh : WebhookRegistration) : Message :=
  {| m_RegistrationID := m_RegistrationID msg; m_UserID := m_UserID msg; m_TargetURL := m_TargetURL msg; m_Payload := m_Payload msg;
     m_RequestID := m_RequestID msg; m_MaxRetries := if m_MaxRetries msg <=? 0 then 3 else m_MaxRetries msg;
     m_Secret := if decide (wh_Secret wh = ""%string) then wh_SecretHash wh else wh_Secret wh |}.
(** The handler [StartQueueConsumer] gives to [Consume]: the registration is dereferenced
    whether there is one or not. *)
Definition handle_message (body : string) : M W unit :=
  match message_Unmarshal body with
  | None => gfail (Wrapf "decoding webhook envelope: %w" (External "json"))
  | Some msg =>
      let! wh := gwrap "fetching webhook secret for %s: %w" (GetByID (m_RegistrationID msg)) in
      let! wh := deref wh in
      run perform (Deliver (with_secret msg wh))
  end.
(** [Consume] over the messages that come until its context ends or its channel closes:
    whether each was acknowledged. *)
Fixpoint Consume (bodies : list string) : M W (list bool) :=
  match bodies with
  | [] => gret []
  | body :: bodies =>
      let! ack := gtry (handle_message body) (λ r, gret (match r with inl _ => true | inr _ => false end)) in
      let! acks := Consume bodies in
      gret (ack :: acks)
  end.
End queued.

(** ** The handlers *)
(** [pagination.Parse]: a parameter is absent or a text. *)
Definition parse_positive (s : string) (dflt : Z) : Z :=
  match ParseInt s with inl n => if 0 <? n then n else dflt | inr _ => dflt end.
Definition pagination_Parse (page page_size limit : option string) : Z * Z * Z :=
  let page := parse_positive (default "1"%string page) 1 in
  let rawSize := match page_size with None | Some EmptyString => default "20"%string limit | Some s => s end in
  let limit := Z.min (parse_positive rawSize 20) 100 in
  (page, limit, wrap64 (wrap64 (page - 1) * limit)).

Inductive reply :=
  | Created (wh : WebhookRegistration) (secret : string) | OKList (l : list WebhookRegistration) | OKDeliveries (l : list DeliveryLog) (total : Z)
  | OKSuccess | BadRequest (message : string) | Unauthorized (message : string) | NotFound (message : string) | InternalError (message : string).
Section handlers.
Context `{HMAC} {W : Type} `{WebhookRepository W}.
(** [random] is what [rand.Read] gave, an error when it failed. *)
Definition newWebhookSecret (random : string + error) : string + error := sum_map hex_EncodeToString id random.
Definition RegisterWebhook (userID url : string) (events : list string) (random : string + error) (uuid : string) : M W reply :=
  if decide (url = ""%string) then gret (BadRequest "url is required")
  else if decide (events = []) then gret (BadRequest "events must not be empty; subscribe to at least one event type")
  else match newWebhookSecret random with
  | inr _ => gret (InternalError "failed to generate webhook secret")
  | inl secret =>
      let record := {| wh_ID := uuid; wh_UserID := userID; wh_TargetURL := url; wh_Secret := "";
                       wh_SecretHash := hex_EncodeToString (sha256_Sum256 secret); wh_Events := events; wh_IsActive := true;
                       wh_CreatedAt := 0 |} in
      gtry (Register record) (λ r,
        gret (match r with inl _ => Created record secret | inr _ => InternalError "failed to register webhook" end))
  end.
Definition ListWebhooks (userID : string) : M W reply :=
  gtry (GetByUserID userID) (λ r,
    gret (match r with inl l => OKList l | inr _ => InternalError "failed to list webhooks" end)).
(** The registration of the caller, or nothing. *)
Definition owned (userID id : string) (k : WebhookRegistration -> M W reply) : M W reply :=
  gtry (GetByID id) (λ r,
    match r with
    | inr _ | inl None => gret (NotFound "webhook not found")
    | inl (Some wh) => if decide (wh_UserID wh = userID) then k wh else gret (NotFound "webhook not found")
    end).
Definition DeleteWebhook (userID id : string) : M W reply :=
  owned userID id (λ _,
    gtry (Delete id) (λ r, gret (match r with inl _ => OKSuccess | inr _ => InternalError "failed to delete webhook" end))).
Definition handler_ListDeliveries (userID id : string) (page page_size limit : option string) : M W reply :=
  owned userID id (λ _,
    let '(page, limit, _) := pagination_Parse page page_size limit in
    gtry (ListDeliveries id page limit) (λ r,
      gret (match r with inl (l, total) => OKDeliveries l total | inr _ => InternalError "failed to list webhook deliveries" end))).
Definition ReceiveWebhook (id signature body : string) : M W reply :=
  gtry (GetByID id) (λ r,
    gret (match r with
          | inr _ => InternalError "failed to look up webhook"
          | inl None => NotFound "webhook not found"
          | inl (Some wh) =>
              if decide (signature = ""%string) then Unauthorized "missing webhook signature"
              else if VerifyWebhookSignature body signature (wh_SecretHash wh) then OKSuccess
              else Unauthorized "invalid webhook signature"
          end)).
End handlers.
End webhook.
