(* ===== verification/WebhookProps.v ===== *)
(** What the deliveries of webhooks guarantee: how often and with what a registration is
    called, the bound on deliveries side by side, and what a shutdown waits for. *)
From S2P Require Export Webhook.
From stdpp Require Import options.
From Stdlib Require Import Ascii.
#[local] Set Default Proof Using "Type*".
Open Scope Z_scope.
Local Open Scope go_scope.

Module webhookprops.
Import webhook.

(** ** Hexadecimal text *)
Lemma from_hex_digit (n : N) : (n < 16)%N -> from_hex (hex_digit n) = Some n.
Proof.
  intros Hn. assert (n ∈ (λ k, N.of_nat k) <$> seq 0 16) as Hin.
  { apply list_elem_of_fmap. exists (N.to_nat n). split; [lia|]. apply elem_of_seq. lia. }
  revert Hin. apply (Forall_forall (λ n, from_hex (hex_digit n) = Some n) _). by repeat constructor.
Qed.
Lemma hex_roundtrip s : hex_DecodeString (hex_EncodeToString s) = Some s.
Proof.
  induction s as [|c s IH]; [done|]. cbn [hex_EncodeToString hex_DecodeString]. rewrite IH.
  assert (N_of_ascii c < 256)%N by apply N_ascii_bounded.
  rewrite !from_hex_digit; [|by apply N.mod_lt|by apply N.Div0.div_lt_upper_bound].
  by rewrite <-N.div_mod, ascii_N_embedding by done.
Qed.
Lemma hex_length s : String.length (hex_EncodeToString s) = (2 * String.length s)%nat.
Proof. induction s as [|c s IH]; [done|]. cbn [hex_EncodeToString String.length]. rewrite IH. lia. Qed.

(** ** The network of the deliveries

    What the next requests are answered, the requests made and the waits, and the queue
    of the retries.  A stop cuts every wait short. *)
Record net := {
  n_replies : list (Z + error); n_posts : list post; n_waits : list duration; n_stopped : bool;
  n_queue : option jobqueue.JobQueue; n_now : time; n_ids : list uuid;
}.
Definition set_posts (replies : list (Z + error)) (posts : list post) (w : net) : net :=
  {| n_replies := replies; n_posts := posts; n_waits := n_waits w; n_stopped := n_stopped w; n_queue := n_queue w; n_now := n_now w; n_ids := n_ids w |}.
Definition set_waits (waits : list duration) (w : net) : net :=
  {| n_replies := n_replies w; n_posts := n_posts w; n_waits := waits; n_stopped := n_stopped w; n_queue := n_queue w; n_now := n_now w; n_ids := n_ids w |}.
Definition set_queue (q : jobqueue.JobQueue) (ids : list uuid) (w : net) : net :=
  {| n_replies := n_replies w; n_posts := n_posts w; n_waits := n_waits w; n_stopped := n_stopped w; n_queue := Some q; n_now := n_now w; n_ids := ids |}.
Definition next_reply (l : list (Z + error)) : Z + error := default (inr (External "dial")) (head l).
Definition perform_net {UL : UUIDLib} {JC : jobqueue.JobColumns} (X : Type) (e : deliverE X) : M net X :=
  match e in deliverE X return M net X with
  | NewRequest _ => λ w, (Ok tt, w)
  | Post p => λ w,
      (match next_reply (n_replies w) with inl st => Ok st | inr err => Err err end,
       set_posts (tail (n_replies w)) (n_posts w ++ [p]) w)
  | Sleep d => λ w, (Ok (n_stopped w), set_waits (n_waits w ++ [d]) w)
  | EnqueueJob payload maxRetries => λ w,
      match n_queue w, n_ids w with
      | Some q, id :: ids =>
          let '(r, q') := jobqueue.Enqueue (n_now w) id WebhookQueueName (inl payload) maxRetries q in
          (match r with Ok _ => Ok tt | Err e => Err e | Panic => Panic end, set_queue q' ids w)
      | _, _ => (Panic, w)
      end
  end.

(** How many of at most [n] requests are made, and whether the last succeeds. *)
Definition good (r : Z + error) : bool := match r with inl st => is_success st | inr _ => false end.
Fixpoint tries (n : nat) (replies : list (Z + error)) : nat * bool :=
  match n with
  | O => (O, false)
  | S n => if good (next_reply replies) then (1%nat, true)
           else let '(k, ok) := tries n (tail replies) in (S k, ok)
  end.
(** The first [n] waits, each the double of the one before it. *)
Fixpoint backoffs (n : nat) (d : duration) : list duration :=
  match n with O => [] | S n => d :: backoffs n (wrap64 (d * 2)) end.
(** The world after [k] requests for the same and these waits. *)
Definition after (k : nat) (p : post) (waits : list duration) (w : net) : net :=
  {| n_replies := drop k (n_replies w); n_posts := n_posts w ++ replicate k p; n_waits := n_waits w ++ waits;
     n_stopped := n_stopped w; n_queue := n_queue w; n_now := n_now w; n_ids := n_ids w |}.
Lemma tries_le n rs : ((tries n rs).1 <= n)%nat.
Proof.
  revert rs. induction n as [|n IH]; intros rs; [done|]. cbn. destruct (good _); cbn; [lia|].
  specialize (IH (tail rs)). destruct (tries n (tail rs)). cbn in *. lia.
Qed.
Lemma tries_pos n rs : (0 < n)%nat -> (0 < (tries n rs).1)%nat.
Proof. destruct n; [lia|]. intros _. cbn. destruct (good _); cbn; [lia|]. destruct (tries n (tail rs)). cbn. lia. Qed.
Lemma after_compose k j p ws vs w : after k p ws (after j p vs w) = after (j + k) p (vs ++ ws) w.
Proof. unfold after. cbn. by rewrite drop_drop, replicate_add, !app_assoc. Qed.
Lemma after_none p w : after 0 p [] w = w.
Proof. destruct w. unfold after. cbn. by rewrite drop_0, !app_nil_r. Qed.
Lemma post_run {UL : UUIDLib} {JC : jobqueue.JobColumns} p w : run perform_net (act (Post p)) w =
  (match next_reply (n_replies w) with inl st => Ok st | inr e => Err e end, after 1 p [] w).
Proof.
  unfold after. cbn. rewrite app_nil_r. replace (drop 1 (n_replies w)) with (tail (n_replies w)) by (by destruct (n_replies w)).
  by destruct (next_reply (n_replies w)).
Qed.
Lemma sleep_run {UL : UUIDLib} {JC : jobqueue.JobColumns} p d w : run perform_net (act (Sleep d)) w = (Ok (n_stopped w), after 0 p [d] w).
Proof. unfold after. cbn. by rewrite drop_0, app_nil_r. Qed.

Section deliveries.
Context {HM : HMAC} {EJ : EnvelopeJSON} {UL : UUIDLib} {JC : jobqueue.JobColumns}.

(** *** The consumer of the queue *)
Lemma deliver_loop_run m n d w : n_stopped w = false ->
  run perform_net (deliver_loop n d m) w =
  (if (tries n (n_replies w)).2 then Ok tt else Err failed_attempts,
   after (tries n (n_replies w)).1 (message_post m) (backoffs (pred (tries n (n_replies w)).1) d) w).
Proof.
  revert d w. induction n as [|n IH]; intros d w Hs; [by rewrite after_none|].
  cbn [deliver_loop tries]. rewrite run_bind. unfold gbind. cbn [run pwrap act perform_net wrap_err].
  rewrite run_try. unfold gtry. change (Act (Post ?p) Done) with (act (Post p)). rewrite post_run.
  set (again := match n with O => _ | S _ => _ end).
  assert (run perform_net again (after 1 (message_post m) [] w) =
    let '(k, ok) := tries n (tail (n_replies w)) in
    (if ok then Ok tt else Err failed_attempts, after (S k) (message_post m) (backoffs k d) w)) as Hagain.
  { subst again. destruct n as [|n']; [done|]. rewrite run_bind. unfold gbind. rewrite (sleep_run (message_post m)).
    change (n_stopped (after 1 (message_post m) [] w)) with (n_stopped w). rewrite Hs, IH by done.
    rewrite !after_compose. cbn [n_replies after Nat.add]. replace (drop 1 (n_replies w)) with (tail (n_replies w)) by (by destruct (n_replies w)).
    pose proof (tries_pos (S n') (tail (n_replies w)) ltac:(lia)) as Hp. destruct (tries (S n') (tail (n_replies w))) as [k ok].
    cbn [fst snd] in *. destruct k as [|k]; [lia|]. done. }
  unfold good. destruct (next_reply (n_replies w)) as [st|err]; cbn [run].
  - destruct (is_success st); [done|]. rewrite Hagain. by destruct (tries n (tail (n_replies w))).
  - rewrite Hagain. by destruct (tries n (tail (n_replies w))).
Qed.

(** *** The dispatcher in the process *)
Definition delivery_post (wh : WebhookRegistration) (body reqID : string) : post :=
  {| po_URL := wh_TargetURL wh; po_Body := body;
     po_Signature := if decide (wh_SecretHash wh = ""%string) then None else Some (SignWebhookPayload body (wh_SecretHash wh));
     po_RequestID := nonempty reqID |}.
Lemma send_run wh body reqID w :
  exists r, run perform_net (sendHTTP (wh_TargetURL wh) (wh_SecretHash wh) body reqID) w = (r, after 1 (delivery_post wh body reqID) [] w) /\
    (if good (next_reply (n_replies w)) then r = Ok tt else exists e, r = Err e).
Proof.
  unfold sendHTTP. rewrite run_bind. unfold gbind. cbn [run pwrap act perform_net wrap_err].
  rewrite run_bind. unfold gbind. change (Act (Post ?p) Done) with (act (Post p)). rewrite post_run. unfold good.
  destruct (next_reply (n_replies w)) as [st|err]; [destruct (is_success st)|]; eexists; (split; [reflexivity|]); eauto.
Qed.
Lemma retry_loop_run wh body reqID n d w : n_stopped w = false ->
  run perform_net (retry_loop n d wh body reqID) w =
  (Ok tt, after (tries n (n_replies w)).1 (delivery_post wh body reqID) (backoffs (tries n (n_replies w)).1 d) w).
Proof.
  revert d w. induction n as [|n IH]; intros d w Hs; [by cbn; rewrite after_none|].
  cbn [retry_loop tries]. rewrite run_bind. unfold gbind. rewrite (sleep_run (delivery_post wh body reqID)), Hs.
  rewrite run_try. unfold gtry. destruct (send_run wh body reqID (after 0 (delivery_post wh body reqID) [d] w)) as (r & -> & Hr).
  cbn [n_replies after] in Hr. rewrite drop_0 in Hr. rewrite after_compose. destruct (good _).
  - subst r. done.
  - destruct Hr as [e ->]. rewrite IH by done. cbn [n_replies after]. replace (drop (0 + 1) (n_replies w)) with (tail (n_replies w)) by (by destruct (n_replies w)).
    destruct (tries n (tail (n_replies w))) as [k ok]. by rewrite after_compose.
Qed.

Lemma enqueue_no_panic now id q payload n jq : (jobqueue.Enqueue now id q (inl payload) n jq).1 <> Panic.
Proof.
  destruct (jobqueue.Enqueue now id q (inl payload) n jq) as [r q'] eqn:E. revert E. unfold jobqueue.Enqueue.
  apply (wp_run _ jq (λ r _, r <> Panic)), (jobqueue.wp_db_or_memory _ _ _ (λ r _, r <> Panic)).
  - intros conn _ _. apply wp_bind, wp_wrap, wp_pg_exec; [|done]. intros job t conn' _ _. by apply wp_ret.
  - intros _. by apply wp_bind, wp_modify, wp_ret.
Qed.
(** The rest of a delivery after its first failure. *)
Lemma in_memory_run wh body maxRetries reqID w : n_stopped w = false -> good (next_reply (n_replies w)) = false ->
  run perform_net (inMemoryRetry wh body maxRetries reqID) (after 1 (delivery_post wh body reqID) [] w) =
  (Ok tt, let k := (tries (Z.to_nat (Z.max 1 maxRetries)) (n_replies w)).1 in
          after k (delivery_post wh body reqID) (backoffs (pred k) (100 * (second / 1000))) w).
Proof.
  intros Hs Hf. unfold inMemoryRetry. rewrite retry_loop_run by done. rewrite after_compose. cbn [n_replies after].
  replace (Z.to_nat (Z.max 1 maxRetries)) with (S (Z.to_nat (maxRetries - 1))) by lia. cbn [tries]. rewrite Hf.
  replace (drop 1 (n_replies w)) with (tail (n_replies w)) by (by destruct (n_replies w)).
  by destruct (tries (Z.to_nat (maxRetries - 1)) (tail (n_replies w))) as [k ok].
Qed.

(** A delivery in the process that nothing stops: the registration's address gets the
    payload, under the registration's hash, until an answer is a success, at most
    [maxRetries] times and at least once, with doubling waits in between; with a queue,
    a first failure leaves the rest to a job that holds the same request, or, when the
    queue refuses it, to the process again.  It never fails its goroutine. *)
Theorem delivery_fate wh body maxRetries reqID w : n_stopped w = false -> n_ids w <> [] ->
  let p := delivery_post wh body reqID in
  let in_process w := let k := (tries (Z.to_nat (Z.max 1 maxRetries)) (n_replies w)).1 in
                      after k p (backoffs (pred k) (100 * (second / 1000))) w in
  exists w', run perform_net (deliverWithRetry (bool_decide (is_Some (n_queue w))) wh body maxRetries reqID) w = (Ok tt, w') /\
  match n_queue w, n_ids w with
  | Some q, id :: ids =>
      if good (next_reply (n_replies w)) || (maxRetries <=? 1) then w' = in_process w
      else exists r q', jobqueue.Enqueue (n_now w) id WebhookQueueName (inl (retry_Marshal (retry_payload wh body reqID))) maxRetries q = (r, q') /\
           match r with Ok _ => w' = set_queue q' ids (after 1 p [] w) | _ => w' = in_process (set_queue q' ids w) end
  | _, _ => w' = in_process w
  end.
Proof.
  intros Hs Hids p in_process. unfold deliverWithRetry. rewrite run_try. unfold gtry.
  destruct (send_run wh body reqID w) as (r & -> & Hr). fold p. destruct (good (next_reply (n_replies w))) eqn:Eg.
  - subst r. eexists. split; [reflexivity|]. assert (after 1 p [] w = in_process w) as ->.
    { unfold in_process. replace (Z.to_nat (Z.max 1 maxRetries)) with (S (Z.to_nat (maxRetries - 1))) by lia. cbn [tries]. by rewrite Eg. }
    by destruct (n_queue w), (n_ids w).
  - destruct Hr as [e ->]. cbn [orb]. case_bool_decide as Hq; cbn [andb].
    + destruct Hq as [q Hq]. rewrite Hq. destruct (n_ids w) as [|id ids] eqn:Ei; [done|]. destruct (1 <? maxRetries) eqn:Em.
      * rewrite (proj2 (Z.leb_gt maxRetries 1)) by lia. rewrite run_try. unfold gtry. cbn [run act perform_net].
        cbn [n_queue n_ids n_now after]. rewrite Hq, Ei.
        pose proof (enqueue_no_panic (n_now w) id WebhookQueueName (retry_Marshal (retry_payload wh body reqID)) maxRetries q) as Hnp.
        destruct (jobqueue.Enqueue _ _ _ _ _ q) as [r q'] eqn:Eq. destruct r as [a|e'|]; [| |done]; cbn [run].
        -- eexists. split; [reflexivity|]. exists (Ok a), q'. done.
        -- change (set_queue q' ids (after 1 p [] w)) with (after 1 p [] (set_queue q' ids w)).
           eexists. split; [by apply in_memory_run|]. exists (Err e'), q'. done.
      * rewrite (proj2 (Z.leb_le maxRetries 1)) by lia. eexists. split; [by apply in_memory_run|]. done.
    + destruct (n_queue w) as [q|] eqn:Hq'; [destruct Hq; by eexists|]. eexists. split; [by apply in_memory_run|]. done.
Qed.
End deliveries.

(** ** The dispatcher *)
Section dispatching.
Context {HM : HMAC} {EJ : EnvelopeJSON} {W : Type} {WR : WebhookRepository W}.
Variables (opts : list DispatcherOption) (perform : forall X, deliverE X -> M W X).
Abbreviation d := (NewDispatcher opts).
Abbreviation step := (dispatch_step d perform).

Lemma sem_positive : 0 < d_sem d.
Proof.
  unfold NewDispatcher. assert (forall d0, 0 < d_sem d0 -> 0 < d_sem (foldl apply_option d0 opts)) as Hf; [|by apply Hf].
  induction opts as [|o os IH]; intros d0 H0; [done|]. apply IH. destruct o as [n|c|jq|t]; cbn; try done.
  destruct (0 <? n) eqn:E; [|done]. lia.
Qed.
Definition weight (g : task * goroutine) : nat := if running g then 1 else 0.
#[local] Arguments weight : simpl never.
Lemma slots_weight gs : length (filter (λ g, running g = true) gs) = sum_list_with weight gs.
Proof. induction gs as [|g gs IH]; [done|]. rewrite filter_cons. cbn [sum_list_with]. unfold weight at 1. by destruct (running g); cbn [sum_list_with]; destruct (decide _); cbn; rewrite ?IH. Qed.
Lemma weight_insert gs i g g' : gs !! i = Some g -> (sum_list_with weight (<[i := g']> gs) + weight g = sum_list_with weight gs + weight g')%nat.
Proof.
  revert i. induction gs as [|h gs IH]; intros [|i] Hi; try done; cbn in *; [injection Hi as ->; lia|].
  rewrite <-!Nat.add_assoc. exact (f_equal (Nat.add (weight h)) (IH i Hi)).
Qed.
Lemma weight_change gs i g g' n n' : gs !! i = Some g -> weight g = n -> weight g' = n' ->
  (sum_list_with weight (<[i := g']> gs) + n = sum_list_with weight gs + n')%nat.
Proof. intros Hi <- <-. by apply weight_insert. Qed.
Lemma step_slots c s : Z.of_nat (slots_taken s) <= d_sem d -> Z.of_nat (slots_taken (step c s)) <= d_sem d.
Proof.
  unfold slots_taken. rewrite !slots_weight. intros Hs. destruct c as [x|i|i|i|i| | |e]; cbn [dispatch_step].
  - by destruct (s_closed s).
  - destruct (s_calls s !! i) as [x|]; [|done]. destruct (DispatchPayload x (s_world s)) as [r w] eqn:E. cbn [s_goroutines].
    rewrite sum_list_with_app. assert (sum_list_with weight (match r with Ok gs => gs | _ => [] end) = 0%nat) as ->; [|lia].
    destruct r as [gs|e|]; [|done..]. revert E. unfold DispatchPayload, gbind.
    destruct (gwrap _ _ (s_world s)) as [[whs|e|] w1]; [|done..]. destruct (dp_payload x) as [b|e]; [|done]. intros [= <- _].
    induction whs as [|wh whs IH]; [done|exact IH].
  - destruct (s_goroutines s !! i) as [[t g]|] eqn:Ei; [|done]. destruct g as [| |]; [|done..].
    destruct (_ <? _) eqn:El; [|done]. apply Z.ltb_lt in El. unfold slots_taken in El. rewrite slots_weight in El. cbn [s_goroutines set_goroutines].
    pose proof (weight_change _ _ _ (t, Running (deliver_task d t)) 0 1 Ei eq_refl eq_refl) as Hw. lia.
  - destruct (s_goroutines s !! i) as [[t g]|] eqn:Ei; [|done]. destruct g as [| |]; [|done..].
    destruct (s_stop s); [|done]. cbn [s_goroutines set_goroutines]. pose proof (weight_change _ _ _ (t, Ended) 0 0 Ei eq_refl eq_refl) as Hw. lia.
  - destruct (s_goroutines s !! i) as [[t g]|] eqn:Ei; [|done]. destruct g as [|[r|X e k]|]; [done| | |done].
    + cbn [s_goroutines set_goroutines]. pose proof (weight_change _ _ _ (t, Ended) 1 0 Ei eq_refl eq_refl) as Hw. lia.
    + destruct (perform X e (s_world s)) as [r w]. cbn [s_goroutines set_goroutines].
      pose proof (weight_change _ _ _ (t, Running (k r)) 1 1 Ei eq_refl eq_refl) as Hw. lia.
  - by destruct (s_closed s).
  - destruct (s_shutdown s); try done. by destruct (forallb _ _).
  - by destruct (s_shutdown s).
Qed.

(** A shutdown with no call under way: nothing starts after it. *)
Definition closing (s : state (W := W)) : Prop :=
  s_closed s = true /\ s_calls s = [] /\ s_shutdown s <> NotCalled /\
  (s_shutdown s = Returned None -> forallb ended (s_goroutines s) = true).
Lemma ended_lookup gs i t g : forallb ended gs = true -> gs !! i = Some (t, g) -> g = Ended.
Proof.
  intros Hf Hi. rewrite forallb_forall in Hf. assert (ended (t, g) = true) as Hg by (by apply Hf, list_elem_of_In, list_elem_of_lookup_2 with i).
  by destruct g.
Qed.
Lemma closing_step c s : closing s -> closing (step c s).
Proof.
  intros (Hc & Hcalls & Hn & He). destruct c as [x|i|i|i|i| | |e]; cbn [dispatch_step].
  - by rewrite Hc.
  - by rewrite Hcalls.
  - destruct (s_goroutines s !! i) as [[t g]|] eqn:Ei; [|done]. destruct g as [| |]; [|done..]. destruct (_ <? _); [|done].
    split; [done|]. split; [done|]. split; [done|]. cbn. intros Hr. by apply (ended_lookup _ _ _ _ (He Hr)) in Ei.
  - destruct (s_goroutines s !! i) as [[t g]|] eqn:Ei; [|done]. destruct g as [| |]; [|done..]. destruct (s_stop s); [|done].
    split; [done|]. split; [done|]. split; [done|]. cbn. intros Hr. by apply (ended_lookup _ _ _ _ (He Hr)) in Ei.
  - destruct (s_goroutines s !! i) as [[t g]|] eqn:Ei; [|done]. destruct g as [|[r|X e k]|]; [done| | |done].
    + split; [done|]. split; [done|]. split; [done|]. cbn. intros Hr. by apply (ended_lookup _ _ _ _ (He Hr)) in Ei.
    + destruct (perform X e (s_world s)) as [r w].
      split; [done|]. split; [done|]. split; [done|]. cbn. intros Hr. by apply (ended_lookup _ _ _ _ (He Hr)) in Ei.
  - by rewrite Hc.
  - unfold closing. destruct (s_shutdown s) as [| |err] eqn:E; [done| |by rewrite E].
    destruct (forallb ended (s_goroutines s)) eqn:Ef; [by split|]. by rewrite E.
  - unfold closing. destruct (s_shutdown s) as [| |err] eqn:E; [done|by split|]. by rewrite E.
Qed.

(** C29: However calls, goroutines and shutdowns are scheduled, never more deliveries are
    between the semaphore and their end than its size, which is positive whatever the
    options; and when the shutdown that closed the dispatcher answers no error, and no
    call was between its look at the dispatcher and its goroutines when it began, every
    delivery has ended, then and later.  (A shutdown that finds the dispatcher closed
    answers no error at once and promises nothing.) *)
Theorem dispatcher_bounded cs w :
  Z.of_nat (slots_taken (dispatch d perform cs (initial w))) <= d_sem d /\
  forall cs1 cs2, cs = cs1 ++ Shutdown :: cs2 -> s_closed (dispatch d perform cs1 (initial w)) = false ->
    s_calls (dispatch d perform cs1 (initial w)) = [] ->
    s_shutdown (dispatch d perform cs (initial w)) = Returned None ->
    forallb ended (s_goroutines (dispatch d perform cs (initial w))) = true.
Proof.
  split.
  - unfold dispatch. assert (Z.of_nat (slots_taken (initial w)) <= d_sem d) as H0 by (pose proof sem_positive; cbn; lia).
    revert H0. generalize (initial w). induction cs as [|c cs IH]; intros s Hs; [done|]. by apply IH, step_slots.
  - intros cs1 cs2 -> Hnot Hcalls. unfold dispatch in *. rewrite foldl_app. cbn [foldl]. set (s1 := foldl _ (initial w) cs1) in *.
    assert (closing (step Shutdown s1)) as Hcl by (cbn [dispatch_step]; rewrite Hnot; by split).
    revert Hcl. generalize (step Shutdown s1). induction cs2 as [|c cs2 IH]; intros s Hs; [by apply Hs|]. by apply IH, closing_step.
Qed.
End dispatching.
End webhookprops.

(** * Webhooks over a concrete repository, network and encoding: the witnesses of their
    theorems, and the runs in which a registration or a delivery goes wrong. *)
Module webhookdemo.
#[local] Existing Instance jobqueue.plain_columns.
Import webhook webhookprops.

#[local] Instance demo_hmac : HMAC := { hmac_sha256 key message := (key ++ ":" ++ message)%string; sha256_Sum256 s := s }.
(** An envelope is its registration, address, payload and retries, between bars. *)
#[local] Instance demo_json : EnvelopeJSON := {
  retry_Marshal p := rp_Payload p; retry_Unmarshal _ := None;
  message_Marshal m := inl (m_RegistrationID m ++ "|" ++ m_TargetURL m ++ "|" ++ m_Payload m ++ "|" ++ fmt_d (m_MaxRetries m))%string;
  message_Unmarshal s :=
    match str_split "|" s with
    | [id; url; payload; n] =>
        Some {| m_RegistrationID := id; m_UserID := ""; m_TargetURL := url; m_Payload := payload; m_RequestID := "";
                m_MaxRetries := match ParseInt n with inl n => n | inr _ => 0 end; m_Secret := "" |}
    | _ => None
    end;
}.

(** The network and the registrations. *)
Record hub := { h_net : net; h_registrations : list WebhookRegistration; h_published : list string }.
Definition set_net (n : net) (h : hub) : hub := {| h_net := n; h_registrations := h_registrations h; h_published := h_published h |}.
#[local] Instance hub_repository : WebhookRepository hub := {
  Register wh := λ h, (Ok tt, {| h_net := h_net h; h_registrations := h_registrations h ++ [wh]; h_published := h_published h |});
  GetByUserID u := λ h, (Ok (filter (λ w, wh_UserID w = u) (h_registrations h)), h);
  GetActiveWebhooks := λ h, (Ok (h_registrations h), h);
  GetByID id := λ h, (Ok (list_find (λ w, wh_ID w = id) (h_registrations h) ≫= λ x, Some x.2), h);
  Delete id := λ h, (Ok tt, {| h_net := h_net h; h_registrations := filter (λ w, wh_ID w <> id) (h_registrations h); h_published := h_published h |});
  ListDeliveries _ _ _ := λ h, (Ok ([], 0), h);
}.
Definition perform_hub (X : Type) (e : deliverE X) : M hub X := λ h, let '(r, n) := perform_net X e (h_net h) in (r, set_net n h).
Definition publish_hub (exchange key body : string) : M hub unit :=
  λ h, (Ok tt, {| h_net := h_net h; h_registrations := h_registrations h; h_published := h_published h ++ [body] |}).

Definition ada : WebhookRegistration :=
  {| wh_ID := "w1"; wh_UserID := "ada"; wh_TargetURL := "https://ada"; wh_Secret := ""; wh_SecretHash := "hash"; wh_Events := ["paid"%string];
     wh_IsActive := true; wh_CreatedAt := 0 |}.
Definition quiet_net (replies : list (Z + error)) : net :=
  {| n_replies := replies; n_posts := []; n_waits := []; n_stopped := false; n_queue := None; n_now := 0; n_ids := [1%N] |}.
Definition hub_of (replies : list (Z + error)) : hub := {| h_net := quiet_net replies; h_registrations := [ada]; h_published := [] |}.

(** Two failures and a success, of at most five. *)
Lemma delivery_fate_witness :
  tries 5 [inl 500; inr (External "timeout"); inl 200] = (3%nat, true) /\
  exists w', run perform_net (deliverWithRetry false ada "{}" 5 "") (quiet_net [inl 500; inr (External "timeout"); inl 200]) = (Ok tt, w') /\
    w' = after 3 (delivery_post ada "{}" "") [100000000; 200000000] (quiet_net [inl 500; inr (External "timeout"); inl 200]).
Proof.
  split; [reflexivity|].
  exact (delivery_fate ada "{}" 5 "" (quiet_net [inl 500; inr (External "timeout"); inl 200]) eq_refl ltac:(discriminate)).
Defined.

(** ** What the runs show *)

(** The columns of the migrations are not those the repository names: every
    registration, listing and lookup over PostgreSQL fails. *)
Lemma no_webhook_registered now s :
  (forall wh, exists e, (pg_Register now wh s).1 = Err e) /\ (exists e, (pg_GetActiveWebhooks s).1 = Err e) /\
  (forall id, exists e, (pg_GetByID id s).1 = Err e).
Proof.
  assert (forall A (q : tables -> (A * tables) + string), exists e s', pg_exec (with_columns registration_columns webhooks_columns q) s = (Err e, s')) as Hq.
  { intros A q. destruct (pg_exec _ s) as [r s'] eqn:E. apply pg_exec_cases in E as [(a & t & E & _)|[(code & _ & -> & _)|(code & _ & -> & _)]]; eauto.
    unfold with_columns in E. assert (bool_decide (registration_columns ⊆ webhooks_columns) = false) as Hc by (vm_compute; reflexivity).
    by rewrite Hc in E. }
  split; [|split].
  - intros wh. destruct (Hq _ (λ t, match webhooks t !! wh_ID wh with
      | Some _ => inr "23505"%string
      | None => inl (tt, {| webhooks := <[wh_ID wh := stamped now wh]> (webhooks t); webhook_deliveries := webhook_deliveries t |}) end)) as (e & s' & E).
    unfold pg_Register. rewrite E. by exists e.
  - unfold pg_GetActiveWebhooks, select_webhooks. edestruct Hq as (e & s' & E). rewrite E. by exists e.
  - intros id. unfold pg_GetByID, select_webhooks, gbind. edestruct Hq as (e & s' & E). rewrite E. by exists e.
Qed.

(** A registration deleted between the publication and the delivery ends the consumer. *)
Definition published : hub := (queued_DispatchPayload "events" publish_hub (inl "{}"%string) "" 2 (hub_of [inl 200])).2.
Lemma deleted_registration_panics :
  (Consume perform_hub (h_published published) published).1 = Ok [true] /\
  (Consume perform_hub (h_published published) (Delete "w1" published).2).1 = Panic.
Proof. vm_compute. split; reflexivity. Qed.

(** A call that passed its look at the dispatcher starts its goroutines after the
    shutdown answered that none is left. *)
Definition late_call : list choice :=
  [Call {| dp_payload := inl "{}"%string; dp_maxRetries := 1; dp_reqID := "" |}; Shutdown; WaitOver; Spawn 0; Enter 0; Step 0; Step 0].
Lemma dispatch_after_shutdown :
  let s := dispatch (NewDispatcher []) perform_hub late_call (initial (hub_of [inl 200])) in
  s_shutdown s = Returned None /\ length (n_posts (h_net (s_world s))) = 1%nat /\ slots_taken s = 1%nat.
Proof. vm_compute. split_and!; reflexivity. Qed.
(** A second shutdown answers no error while the delivery the first one waits for is
    still running. *)
Lemma second_shutdown_waits_for_nothing :
  let s := dispatch (NewDispatcher []) perform_hub
    [Call {| dp_payload := inl "{}"%string; dp_maxRetries := 1; dp_reqID := "" |}; Spawn 0; Enter 0; Shutdown; Shutdown]
    (initial (hub_of [inl 200])) in
  s_shutdown s = Waits /\ s_again s = [None] /\ slots_taken s = 1%nat.
Proof. vm_compute. split_and!; reflexivity. Qed.
(** One that began after it is refused. *)
Definition orderly : list choice :=
  [Call {| dp_payload := inl "{}"%string; dp_maxRetries := 1; dp_reqID := "" |}; Spawn 0; Enter 0; Shutdown; WaitOver; Step 0; Step 0; Step 0; WaitOver;
   Call {| dp_payload := inl "{}"%string; dp_maxRetries := 1; dp_reqID := "" |}; Spawn 0].
Lemma dispatcher_bounded_witness :
  s_shutdown (dispatch (NewDispatcher []) perform_hub orderly (initial (hub_of [inl 200]))) = Returned None /\
  Z.of_nat (slots_taken (dispatch (NewDispatcher []) perform_hub orderly (initial (hub_of [inl 200])))) <= 25.
Proof.
  split; [vm_compute; reflexivity|]. exact (proj1 (dispatcher_bounded [] perform_hub orderly (hub_of [inl 200]))).
Defined.

(** The list of events of a registration is not looked at: every payload goes to all. *)
Lemma events_ignored :
  (λ g, wh_Events (k_wh g.1)) <$> s_goroutines (dispatch (NewDispatcher []) perform_hub
    [Call {| dp_payload := inl "circle.created"%string; dp_maxRetries := 1; dp_reqID := "" |}; Spawn 0] (initial (hub_of []))) = [["paid"%string]].
Proof. vm_compute. reflexivity. Qed.
End webhookdemo.
