(* ===== verification/Ramp.v ===== *)
(** Fiat deposits and withdrawals: the handlers
    (src/internal/api/handler/deposit_handler.go, yellowcard_webhook_handler.go), the two
    tables (src/internal/domain/deposit, withdrawal) and the cached rates
    (src/internal/domain/fx).  A request is a program of atomic actions on Redis, the
    database, the provider and the cache of the process. *)
From S2P Require Export Redis Postgres Money GoStrings Webhook.
From stdpp Require Import options.
#[local] Set Default Proof Using "Type*".
Open Scope Z_scope.
Local Open Scope go_scope.

Module ramp.
Import redis.
Abbreviation Money := money.Money (only parsing).

(** ** Data *)
Inductive DepositStatus :=
  | DepositStatusPending | DepositStatusProcessing | DepositStatusCompleted | DepositStatusFailed | DepositStatusExpired.
Inductive WithdrawalStatus :=
  | WithdrawalStatusPending | WithdrawalStatusReceived | WithdrawalStatusConverting | WithdrawalStatusProcessing
  | WithdrawalStatusCompleted | WithdrawalStatusFailed.
#[export] Instance DepositStatus_eq_dec : EqDecision DepositStatus.
Proof. solve_decision. Defined.
#[export] Instance WithdrawalStatus_eq_dec : EqDecision WithdrawalStatus.
Proof. solve_decision. Defined.

Record Deposit := {
  d_ID : string; d_UserID : string; d_AmountNGN : float64; d_EstimatedUSDC : float64;
  d_DestinationAddress : string; d_Status : DepositStatus; d_ReceiveID : string; d_PaymentRef : string;
  d_CreatedAt : time; d_CompletedAt : option time; d_ExpiresAt : option time; d_FailureReason : option string;
}.
Record Withdrawal := {
  w_ID : string; w_UserID : string; w_AmountUSDC : Money; w_EstimatedNGN : Money; w_BankCode : string;
  w_AccountNumber : string; w_AccountName : string; w_Status : WithdrawalStatus; w_PlatformAddress : string;
  w_USDCtxHash : option string; w_YellowCardTxID : option string; w_CreatedAt : time; w_ReceivedAt : option time;
  w_CompletedAt : option time; w_FailureReason : option string; w_PaymentRef : string;
}.
Definition with_d_status (st : DepositStatus) (completedAt : option time) (reason : option string) (d : Deposit) : Deposit :=
  {| d_ID := d_ID d; d_UserID := d_UserID d; d_AmountNGN := d_AmountNGN d; d_EstimatedUSDC := d_EstimatedUSDC d;
     d_DestinationAddress := d_DestinationAddress d; d_Status := st; d_ReceiveID := d_ReceiveID d;
     d_PaymentRef := d_PaymentRef d; d_CreatedAt := d_CreatedAt d;
     d_CompletedAt := match completedAt with Some t => Some t | None => d_CompletedAt d end;
     d_ExpiresAt := d_ExpiresAt d;
     d_FailureReason := match reason with Some r => Some r | None => d_FailureReason d end |}.
Definition with_w_status (st : WithdrawalStatus) (txHash ycTx : option string) (receivedAt completedAt : option time)
    (reason : option string) (w : Withdrawal) : Withdrawal :=
  let or {A} (new old : option A) := match new with Some a => Some a | None => old end in
  {| w_ID := w_ID w; w_UserID := w_UserID w; w_AmountUSDC := w_AmountUSDC w; w_EstimatedNGN := w_EstimatedNGN w;
     w_BankCode := w_BankCode w; w_AccountNumber := w_AccountNumber w; w_AccountName := w_AccountName w; w_Status := st;
     w_PlatformAddress := w_PlatformAddress w; w_USDCtxHash := or txHash (w_USDCtxHash w);
     w_YellowCardTxID := or ycTx (w_YellowCardTxID w); w_CreatedAt := w_CreatedAt w;
     w_ReceivedAt := or receivedAt (w_ReceivedAt w); w_CompletedAt := or completedAt (w_CompletedAt w);
     w_FailureReason := or reason (w_FailureReason w); w_PaymentRef := w_PaymentRef w |}.

(** ** The tables: rows under their identifiers, with their unique indexes *)
Record tables := { deposits : gmap string Deposit; withdrawals : gmap string Withdrawal }.
Definition with_deposits (m : gmap string Deposit) (t : tables) : tables :=
  {| deposits := m; withdrawals := withdrawals t |}.
Definition with_withdrawals (m : gmap string Withdrawal) (t : tables) : tables :=
  {| deposits := deposits t; withdrawals := m |}.

(** The rows of a user, the last first. *)
Definition newest {A} (created : A -> time) (a b : A) : Prop := created b <= created a.
#[export] Instance newest_dec {A} (created : A -> time) : RelDecision (newest created).
Proof. intros a b. unfold newest. apply _. Defined.
Definition page_of {A} (created : A -> time) (limit offset : Z) (l : list A) : list A :=
  take (Z.to_nat limit) (drop (Z.to_nat offset) (merge_sort (newest created) l)).

(** [numeric_column scale f] is what a NUMERIC(20, scale) column keeps of [f] and gives
    back; [None] when it is out of its range. *)
Class ColumnLib := { numeric_column : Z -> float64 -> option float64 }.

Section repositories.
Context `{ColumnLib}.
Abbreviation DB := (M (@PgState tables)) (only parsing).
Definition deposit_conflict (d : Deposit) (t : tables) : option string :=
  if bool_decide (numeric_column 2 (d_AmountNGN d) = None \/ numeric_column 7 (d_EstimatedUSDC d) = None)
  then Some "22003"%string
  else if existsb (λ r, bool_decide (d_ID r = d_ID d \/ d_ReceiveID r = d_ReceiveID d \/ d_PaymentRef r = d_PaymentRef d))
       (map_to_list (deposits t)).*2
  then Some "23505"%string else None.
Definition stored_deposit (d : Deposit) : Deposit :=
  {| d_ID := d_ID d; d_UserID := d_UserID d; d_AmountNGN := default f64_zero (numeric_column 2 (d_AmountNGN d));
     d_EstimatedUSDC := default f64_zero (numeric_column 7 (d_EstimatedUSDC d));
     d_DestinationAddress := d_DestinationAddress d; d_Status := d_Status d; d_ReceiveID := d_ReceiveID d;
     d_PaymentRef := d_PaymentRef d; d_CreatedAt := d_CreatedAt d; d_CompletedAt := None; d_ExpiresAt := d_ExpiresAt d;
     d_FailureReason := None |}.
Definition deposit_Create (d : Deposit) : DB unit :=
  gwrap "creating deposit: %w"
    (pg_insert (deposit_conflict d) (λ t, with_deposits (<[d_ID d := stored_deposit d]> (deposits t)) t)).
Definition deposit_GetByID (id : string) : DB Deposit :=
  gwrap "getting deposit by id: %w" (pg_row (λ t, deposits t !! id)).
Definition deposit_GetByReceiveID (receiveID : string) : DB Deposit :=
  gwrap "getting deposit by receive id: %w" (pg_row (λ t, find_row (λ d, bool_decide (d_ReceiveID d = receiveID)) (deposits t))).
Definition deposit_GetByPaymentRef (paymentRef : string) : DB Deposit :=
  gwrap "getting deposit by payment ref: %w" (pg_row (λ t, find_row (λ d, bool_decide (d_PaymentRef d = paymentRef)) (deposits t))).
Definition deposit_GetByUserID (userID : string) (limit offset : Z) : DB (list Deposit) :=
  gwrap "getting deposits by user: %w"
    (pg_select (λ t, page_of d_CreatedAt limit offset (filter (λ d, d_UserID d = userID) (map_to_list (deposits t)).*2))).
(** [UPDATE ... WHERE id = $n]; the number of rows is not looked at. *)
Definition alter_deposit (id : string) (f : Deposit -> Deposit) : DB unit :=
  let! _ := pg_update (λ _, None) (λ t, bool_decide (is_Some (deposits t !! id)))
              (λ t, with_deposits (alter f id (deposits t)) t) in gret tt.
Definition deposit_UpdateStatus (id : string) (st : DepositStatus) : DB unit :=
  gwrap "updating deposit status: %w" (alter_deposit id (with_d_status st None None)).
Definition deposit_MarkCompleted (id : string) (completedAt : time) : DB unit :=
  gwrap "marking deposit completed: %w" (alter_deposit id (with_d_status DepositStatusCompleted (Some completedAt) None)).
Definition deposit_MarkFailed (id reason : string) : DB unit :=
  gwrap "marking deposit failed: %w" (alter_deposit id (with_d_status DepositStatusFailed None (Some reason))).

Definition withdrawal_conflict (w : Withdrawal) (t : tables) : option string :=
  if existsb (λ r, bool_decide (w_ID r = w_ID w \/ w_PaymentRef r = w_PaymentRef w)) (map_to_list (withdrawals t)).*2
  then Some "23505"%string else None.
(** NUMERIC(20, 2) rounds to the hundredth, halves away from zero. *)
Definition numeric_cents (m : Money) : Money :=
  money.FromStroops (Z.sgn (money.stroops m) * ((Z.abs (money.stroops m) + 50000) / 100000 * 100000)).
Definition stored_withdrawal (w : Withdrawal) : Withdrawal :=
  {| w_ID := w_ID w; w_UserID := w_UserID w; w_AmountUSDC := w_AmountUSDC w;
     w_EstimatedNGN := numeric_cents (w_EstimatedNGN w);
     w_BankCode := w_BankCode w; w_AccountNumber := w_AccountNumber w; w_AccountName := w_AccountName w;
     w_Status := w_Status w; w_PlatformAddress := w_PlatformAddress w; w_USDCtxHash := None; w_YellowCardTxID := None;
     w_CreatedAt := w_CreatedAt w; w_ReceivedAt := None; w_CompletedAt := None; w_FailureReason := None;
     w_PaymentRef := w_PaymentRef w |}.
Definition withdrawal_Create (w : Withdrawal) : DB unit :=
  gwrap "creating withdrawal: %w"
    (pg_insert (withdrawal_conflict w) (λ t, with_withdrawals (<[w_ID w := stored_withdrawal w]> (withdrawals t)) t)).
Definition withdrawal_GetByID (id : string) : DB Withdrawal :=
  gwrap "getting withdrawal by id: %w" (pg_row (λ t, withdrawals t !! id)).
Definition withdrawal_GetByPaymentRef (paymentRef : string) : DB Withdrawal :=
  gwrap "getting withdrawal by payment ref: %w"
    (pg_row (λ t, find_row (λ w, bool_decide (w_PaymentRef w = paymentRef)) (withdrawals t))).
Definition withdrawal_GetByYellowCardTxID (txID : string) : DB Withdrawal :=
  gwrap "getting withdrawal by yellow card tx id: %w"
    (pg_row (λ t, find_row (λ w, bool_decide (w_YellowCardTxID w = Some txID)) (withdrawals t))).
Definition withdrawal_GetByUserID (userID : string) (limit offset : Z) : DB (list Withdrawal) :=
  gwrap "getting withdrawals by user: %w"
    (pg_select (λ t, page_of w_CreatedAt limit offset (filter (λ w, w_UserID w = userID) (map_to_list (withdrawals t)).*2))).
Definition alter_withdrawal (check : tables -> option string) (id : string) (f : Withdrawal -> Withdrawal) : DB unit :=
  let! _ := pg_update check (λ t, bool_decide (is_Some (withdrawals t !! id)))
              (λ t, with_withdrawals (alter f id (withdrawals t)) t) in gret tt.
Definition withdrawal_UpdateStatus (id : string) (st : WithdrawalStatus) : DB unit :=
  gwrap "updating withdrawal status: %w" (alter_withdrawal (λ _, None) id (with_w_status st None None None None None)).
Definition withdrawal_UpdateUSDCTxHash (id txHash : string) (receivedAt : time) : DB unit :=
  gwrap "updating usdc tx hash: %w" (alter_withdrawal (λ _, None) id
    (with_w_status WithdrawalStatusReceived (Some txHash) None (Some receivedAt) None None)).
Definition withdrawal_UpdateYellowCardTxID (id txID : string) : DB unit :=
  gwrap "updating yellow card tx id: %w"
    (alter_withdrawal
       (λ t, if existsb (λ r, bool_decide (w_ID r <> id /\ w_YellowCardTxID r = Some txID)) (map_to_list (withdrawals t)).*2
             then Some "23505"%string else None)
       id (with_w_status WithdrawalStatusConverting None (Some txID) None None None)).
Definition withdrawal_MarkCompleted (id : string) (completedAt : time) : DB unit :=
  gwrap "marking withdrawal completed: %w" (alter_withdrawal (λ _, None) id
    (with_w_status WithdrawalStatusCompleted None None None (Some completedAt) None)).
Definition withdrawal_MarkFailed (id reason : string) : DB unit :=
  gwrap "marking withdrawal failed: %w" (alter_withdrawal (λ _, None) id
    (with_w_status WithdrawalStatusFailed None None None None (Some reason))).
End repositories.

(** ** Rates: the provider behind a cache of the process *)
Record Quote := {
  q_QuoteID : string; q_FromCurrency : string; q_ToCurrency : string; q_FromAmount : float64; q_ToAmount : float64;
  q_Rate : float64; q_Fee : float64; q_FeePercentage : float64; q_ExpiresAt : string; q_FetchedAt : time;
}.
Record cachedQuote := { cq_quote : Quote; cq_fetchedAt : time }.
Definition cacheKey (from to : string) : string := from ++ ":" ++ to.
Definition scaleQuote (q : Quote) (amount : float64) : Quote :=
  {| q_QuoteID := q_QuoteID q; q_FromCurrency := q_FromCurrency q; q_ToCurrency := q_ToCurrency q; q_FromAmount := amount;
     q_ToAmount := f64_mul amount (q_Rate q); q_Rate := q_Rate q; q_Fee := q_Fee q;
     q_FeePercentage := q_FeePercentage q; q_ExpiresAt := q_ExpiresAt q; q_FetchedAt := q_FetchedAt q |}.
Definition SupportedFiatCurrencies : list string := ["NGN"; "GHS"; "KES"; "ZAR"; "UGX"]%string.
Definition IsSupportedFiatCurrency (code : string) : bool := bool_decide (code ∈ SupportedFiatCurrencies).

(** ** The provider: what it is asked and what it answers *)
Record ReceiveRequest := { rr_Amount : float64; rr_Currency : string; rr_DestinationAddress : string; rr_PaymentReference : string }.
Record ReceiveResponse := { rp_ReceiveID : string; rp_BankDetails : string; rp_ExpiresAt : string }.
Record SendRequest := {
  sr_Amount : float64; sr_TargetCurrency : string; sr_BankCode : string; sr_AccountNumber : string;
  sr_AccountName : string; sr_PaymentRef : string;
}.
Record SendResponse := { sp_SendID : string; sp_Status : string }.

(** ** Actions *)
Inductive dbQ : Type -> Type :=
  | DCreate (d : Deposit) : dbQ unit
  | DGetByPaymentRef (ref : string) : dbQ Deposit
  | DUpdateStatus (id : string) (st : DepositStatus) : dbQ unit
  | DMarkCompleted (id : string) (t : time) : dbQ unit
  | DMarkFailed (id reason : string) : dbQ unit
  | WCreate (w : Withdrawal) : dbQ unit
  | WGetByPaymentRef (ref : string) : dbQ Withdrawal
  | WUpdateStatus (id : string) (st : WithdrawalStatus) : dbQ unit
  | WUpdateYellowCardTxID (id txID : string) : dbQ unit
  | WMarkCompleted (id : string) (t : time) : dbQ unit
  | WMarkFailed (id reason : string) : dbQ unit.
Definition run_query `{ColumnLib} {X} (q : dbQ X) : M (@PgState tables) X :=
  match q in dbQ X return M (@PgState tables) X with
  | DCreate d => deposit_Create d
  | DGetByPaymentRef ref => deposit_GetByPaymentRef ref
  | DUpdateStatus id st => deposit_UpdateStatus id st
  | DMarkCompleted id t => deposit_MarkCompleted id t
  | DMarkFailed id reason => deposit_MarkFailed id reason
  | WCreate w => withdrawal_Create w
  | WGetByPaymentRef ref => withdrawal_GetByPaymentRef ref
  | WUpdateStatus id st => withdrawal_UpdateStatus id st
  | WUpdateYellowCardTxID id tx => withdrawal_UpdateYellowCardTxID id tx
  | WMarkCompleted id t => withdrawal_MarkCompleted id t
  | WMarkFailed id reason => withdrawal_MarkFailed id reason
  end.
Inductive rampE : Type -> Type :=
  | Redis {X : Type} (e : redisE X) : rampE X
  | DB {X : Type} (q : dbQ X) : rampE X
  | GetWallets (userID : string) : rampE (list string)      (** their public keys *)
  | NewUUID : rampE string
  | CacheGet (key : string) : rampE (option cachedQuote)
  | CachePut (key : string) (c : cachedQuote) : rampE unit
  | YCQuote (from to : string) (amount : float64) : rampE Quote
  | CreateReceive (r : ReceiveRequest) : rampE ReceiveResponse
  | CreateSend (r : SendRequest) : rampE SendResponse.
Abbreviation io := (prog rampE).
Definition cmd_ {X} (c : cmd X) : io X := act (Redis (Cmd c)).
Definition time_Now : io time := act (Redis Now).
Definition db {X} (q : dbQ X) : io X := act (DB q).

Section rates.
Variables (ttl0 : duration).
(** [NewCachingRateProvider] *)
Definition cache_ttl : duration := if ttl0 <=? 0 then 30 * second else ttl0.
Definition provider_GetQuote (from to : string) (amount : float64) : io Quote :=
  let* q := act (YCQuote from to amount) in
  let* now := time_Now in
  pret {| q_QuoteID := q_QuoteID q; q_FromCurrency := q_FromCurrency q; q_ToCurrency := q_ToCurrency q;
          q_FromAmount := q_FromAmount q; q_ToAmount := q_ToAmount q; q_Rate := q_Rate q; q_Fee := q_Fee q;
          q_FeePercentage := q_FeePercentage q; q_ExpiresAt := q_ExpiresAt q; q_FetchedAt := now |}.
(** The clock is read only when there is a cached quote. *)
Definition still_fresh (cached : option cachedQuote) : io bool :=
  match cached with
  | None => pret false
  | Some c => let* now := time_Now in pret (time_Sub now (cq_fetchedAt c) <? cache_ttl)
  end.
Definition GetQuote (from to : string) (amount : float64) : io Quote :=
  let key := cacheKey from to in
  let* cached := act (CacheGet key) in
  let* fresh := still_fresh cached in
  match cached, fresh with
  | Some c, true => pret (scaleQuote (cq_quote c) amount)
  | _, _ =>
      ptry (provider_GetQuote from to amount) (λ r,
        match r with
        | inl q =>
            let* now := time_Now in
            do* act (CachePut key {| cq_quote := q; cq_fetchedAt := now |}) in
            pret q
        | inr err =>
            match cached with
            | Some c => pret (scaleQuote (cq_quote c) amount)
            | None => pfail (Wrapf "rate provider failed and no cached rate available for %s->%s: %w" err)
            end
        end)
  end.
End rates.
Definition rateQuoteTTL : duration := 30 * second.

(** ** The handlers *)
Record CurrencyCaps := { MaxDeposit : float64; MaxWithdraw : float64; DailyDepositCap : float64; DailyWithdrawCap : float64 }.
Record YellowCardConfig := {
  MaxDepositNGN : float64; MaxWithdrawUSDC : float64; DailyDepositCapNGN : float64; DailyWithdrawCapUSDC : float64;
  CurrencyCaps_ : gmap string CurrencyCaps;
}.
(** The fields of the handler that may be missing, and the flag [kyc_required]. *)
Record DepositHandler := {
  h_rdb : bool; h_deposits : bool; h_withdrawals : bool; h_kyc_required : bool;
  h_cfg : YellowCardConfig; h_StellarAddress : string;
}.
Inductive respData :=
  | DepositData (receiveId paymentRef currency bankDetails : string) (estimatedUsdc spread : float64) (expiresAt : string)
  | WithdrawData (sendId status paymentRef currency : string) (estimatedNgn spread : float64)
      (yellowCardAddress : string) (usdcAmount : float64) (userWallet : string).
Inductive reply :=
  | OK (d : respData) | Created (d : respData) | BadRequest (message : string) | InternalError (message : string)
  | PreconditionRequired.
Class RampLib := {
  strings_ToUpper : string -> string;
  Format_date : time -> string;                       (** [UTC().Format("2006-01-02")] *)
  Parse_RFC3339 : string -> option time;
  ParseFloat : string -> float64;                     (** its value, whatever its error *)
  redis_add : option string -> float64 -> string + error;   (** the sum of [INCRBYFLOAT] *)
  respData_Marshal : respData -> string + error;
  respData_Unmarshal : string -> option respData;
}.
Definition time_UnixMilli (t : time) : Z := (t - unix_epoch * second) / millisecond.

Section handlers.
Context `{RampLib}.
Variables (h : DepositHandler).
Definition defaultCurrency : string := "NGN".
Definition positive (f : float64) : bool := f64_gt f f64_zero.
Definition or_float (f : float64) (dflt : Z) : float64 := if positive f then f else f64_of_Z dflt.
Definition maxDepositNGN : float64 := or_float (MaxDepositNGN (h_cfg h)) 5000000.
Definition maxWithdrawUSDC : float64 := or_float (MaxWithdrawUSDC (h_cfg h)) 10000.
Definition dailyDepositCapNGN : float64 := or_float (DailyDepositCapNGN (h_cfg h)) 10000000.
Definition dailyWithdrawCapUSDC : float64 := or_float (DailyWithdrawCapUSDC (h_cfg h)) 20000.
Definition currencyCaps (currency : string) : option CurrencyCaps :=
  match CurrencyCaps_ (h_cfg h) !! currency with
  | Some c => Some c
  | None =>
      if decide (currency = defaultCurrency) then
        Some {| MaxDeposit := maxDepositNGN; MaxWithdraw := maxWithdrawUSDC; DailyDepositCap := dailyDepositCapNGN;
                DailyWithdrawCap := dailyWithdrawCapUSDC |}
      else None
  end.
(** [None] is a message for the caller. *)
Definition resolveCurrency (raw : string) : option string :=
  let code := strings_ToUpper (str_TrimSpace raw) in
  let code := if decide (code = "")%string then defaultCurrency else code in
  if IsSupportedFiatCurrency code then Some code else None.
Definition getIdempotencyKey (bodyKey header xheader : string) : string :=
  if negb (bool_decide (bodyKey = ""))%string then str_TrimSpace bodyKey
  else
    let key := str_TrimSpace header in
    if decide (key = "")%string then str_TrimSpace xheader else key.

(** The keys of the cached answer and of the total of the day. *)
Definition cached_key (kind userID currency key : string) : string :=
  "yc:idempotency:" ++ kind ++ ":" ++ userID ++ ":" ++ currency ++ ":" ++ key.
Definition daily_key (kind userID currency today : string) : string :=
  "yc:daily:" ++ kind ++ ":" ++ userID ++ ":" ++ currency ++ ":" ++ today.
Definition cached_answer (kind userID currency key : string) : io (option respData) :=
  if bool_decide (key = "")%string || negb (h_rdb h) then pret None
  else ptry (cmd_ (GET (cached_key kind userID currency key))) (λ r,
    match r with
    | inl (Some data) => pret (if decide (data = "")%string then None else respData_Unmarshal data)
    | _ => pret None
    end).
(** [h.rdb.Get(ctx, dailyKey).Float64()] with its error dropped; [true] refuses. *)
Definition over_daily_cap (kind userID currency : string) (amount cap : float64) : io bool :=
  if negb (h_rdb h) then pret false
  else
    let* now := time_Now in
    ptry (cmd_ (GET (daily_key kind userID currency (Format_date now)))) (λ r,
      let currentDaily := match r with
                          | inl (Some s) => ParseFloat s
                          | _ => f64_zero
                          end in
      pret (f64_gt (f64_add currentDaily amount) cap)).
Definition remember (kind userID currency key : string) (amount : float64) (data : respData) : io unit :=
  if negb (h_rdb h) then pret tt
  else
    let* now := time_Now in
    let dailyKey := daily_key kind userID currency (Format_date now) in
    do* pignore (cmd_ (INCRBYFLOAT dailyKey (λ old, redis_add old amount))) in
    do* pignore (cmd_ (EXPIRE dailyKey (48 * 3600 * second))) in
    if decide (key = "")%string then pret tt
    else match respData_Marshal data with
         | inl payload => pignore (cmd_ (SET (cached_key kind userID currency key) payload (24 * 3600 * second)))
         | inr _ => pret tt
         end.
Definition new_paymentRef (now : time) : string := "MOIST-" ++ fmt_d (time_UnixMilli now).

Record DepositReq := { dq_AmountNGN : float64; dq_Currency : string; dq_IdempotencyKey : string }.
Definition receive_request (amount : float64) (currency address ref : string) : ReceiveRequest :=
  {| rr_Amount := amount; rr_Currency := currency; rr_DestinationAddress := address; rr_PaymentReference := ref |}.
Definition new_deposit (id userID : string) (r : ReceiveRequest) (p : ReceiveResponse) (estimated : float64) (now : time) : Deposit :=
  {| d_ID := id; d_UserID := userID; d_AmountNGN := rr_Amount r; d_EstimatedUSDC := estimated;
     d_DestinationAddress := rr_DestinationAddress r; d_Status := DepositStatusPending; d_ReceiveID := rp_ReceiveID p;
     d_PaymentRef := rr_PaymentReference r; d_CreatedAt := now; d_CompletedAt := None;
     d_ExpiresAt := if decide (rp_ExpiresAt p = "")%string then None else Parse_RFC3339 (rp_ExpiresAt p);
     d_FailureReason := None |}.
(** From the accepted request on; [None] goes on to the answer. *)
Definition persist_deposit (userID : string) (r : ReceiveRequest) (p : ReceiveResponse) (estimated : float64) : io (option reply) :=
  if negb (h_deposits h) then pret None
  else
    let* id := act NewUUID in
    let* now := time_Now in
    ptry (db (DCreate (new_deposit id userID r p estimated now))) (λ x,
      match x with inl _ => pret None | inr _ => pret (Some (InternalError "failed to record deposit")) end).
Definition InitiateDeposit (userID : string) (req : DepositReq) (header xheader : string) : io reply :=
  if negb (positive (dq_AmountNGN req)) then pret (BadRequest "amountNgn is required")
  else match resolveCurrency (dq_Currency req) with
  | None => pret (BadRequest "unsupported currency %q")
  | Some currency =>
  match currencyCaps currency with
  | None => pret (BadRequest "deposits are not yet enabled for currency %q")
  | Some caps =>
      let key := getIdempotencyKey (dq_IdempotencyKey req) header xheader in
      let* cached := cached_answer "deposit" userID currency key in
      match cached with
      | Some d => pret (OK d)
      | None =>
          if f64_gt (dq_AmountNGN req) (MaxDeposit caps) then pret (BadRequest "deposit amount exceeds maximum allowed limit of %.2f %s")
          else
            let* over := over_daily_cap "deposit" userID currency (dq_AmountNGN req) (DailyDepositCap caps) in
            if over : bool then pret (BadRequest "deposit amount exceeds daily limit of %.2f %s (current total: %.2f %s)")
            else ptry (act (GetWallets userID)) (λ ws,
            match ws with
            | inr _ | inl [] => pret (BadRequest "no wallet found. Create a wallet first.")
            | inl (address :: _) =>
            ptry (GetQuote rateQuoteTTL currency "USDC" (dq_AmountNGN req)) (λ q,
            match q with
            | inr _ => pret (InternalError "failed to get quote: ")
            | inl quote =>
                let* now := time_Now in
                let paymentRef := new_paymentRef now in
                let r := receive_request (dq_AmountNGN req) currency address paymentRef in
                ptry (act (CreateReceive r)) (λ p,
                match p with
                | inr _ => pret (InternalError "failed to create deposit: ")
                | inl receive =>
                    let* failed := persist_deposit userID r receive (q_ToAmount quote) in
                    match failed with
                    | Some answer => pret answer
                    | None =>
                        let data := DepositData (rp_ReceiveID receive) paymentRef currency (rp_BankDetails receive)
                                      (q_ToAmount quote) (q_FeePercentage quote) (rp_ExpiresAt receive) in
                        do* remember "deposit" userID currency key (dq_AmountNGN req) data in
                        pret (Created data)
                    end
                end)
            end)
            end)
      end
  end
  end.

Record WithdrawReq := {
  wq_AmountUSDC : float64; wq_Currency : string; wq_BankCode : string; wq_AccountNumber : string;
  wq_AccountName : string; wq_IdempotencyKey : string;
}.
Definition send_request (req : WithdrawReq) (currency ref : string) : SendRequest :=
  {| sr_Amount := wq_AmountUSDC req; sr_TargetCurrency := currency; sr_BankCode := wq_BankCode req;
     sr_AccountNumber := wq_AccountNumber req; sr_AccountName := wq_AccountName req; sr_PaymentRef := ref |}.
Definition new_withdrawal (id userID : string) (r : SendRequest) (amount estimated : Money) (now : time) : Withdrawal :=
  {| w_ID := id; w_UserID := userID; w_AmountUSDC := amount; w_EstimatedNGN := estimated; w_BankCode := sr_BankCode r;
     w_AccountNumber := sr_AccountNumber r; w_AccountName := sr_AccountName r; w_Status := WithdrawalStatusPending;
     w_PlatformAddress := h_StellarAddress h; w_USDCtxHash := None; w_YellowCardTxID := None; w_CreatedAt := now;
     w_ReceivedAt := None; w_CompletedAt := None; w_FailureReason := None; w_PaymentRef := sr_PaymentRef r |}.
Definition persist_withdrawal (userID : string) (r : SendRequest) (p : SendResponse) (estimated : float64) : io (option reply) :=
  if negb (h_withdrawals h) then pret None
  else match money.FromFloat64 (sr_Amount r) with
  | Err _ | Panic => pret (Some (BadRequest "invalid amountUsdc"))
  | Ok amountUSDC =>
  match money.FromFloat64 estimated with
  | Err _ | Panic => pret (Some (InternalError "invalid quote amount"))
  | Ok estimatedNGN =>
      let* id := act NewUUID in
      let* now := time_Now in
      ptry (db (WCreate (new_withdrawal id userID r amountUSDC estimatedNGN now))) (λ x,
        match x with
        | inr _ => pret (Some (InternalError "failed to record withdrawal"))
        | inl _ => do* pignore (db (WUpdateYellowCardTxID id (sp_SendID p))) in pret None
        end)
  end
  end.
Definition nonempty (s : string) : bool := negb (bool_decide (s = ""%string)).
Definition InitiateWithdraw (userID : string) (req : WithdrawReq) (header xheader : string) : io reply :=
  if h_kyc_required h then pret PreconditionRequired
  else if negb (positive (wq_AmountUSDC req) && nonempty (wq_BankCode req) && nonempty (wq_AccountNumber req)
                && nonempty (wq_AccountName req))
  then pret (BadRequest "amountUsdc, bankCode, accountNumber, and accountName are required")
  else match resolveCurrency (wq_Currency req) with
  | None => pret (BadRequest "unsupported currency %q")
  | Some currency =>
  match currencyCaps currency with
  | None => pret (BadRequest "withdrawals are not yet enabled for currency %q")
  | Some caps =>
      let key := getIdempotencyKey (wq_IdempotencyKey req) header xheader in
      let* cached := cached_answer "withdraw" userID currency key in
      match cached with
      | Some d => pret (OK d)
      | None =>
          if f64_gt (wq_AmountUSDC req) (MaxWithdraw caps) then pret (BadRequest "withdrawal amount exceeds maximum allowed limit of %.2f USDC")
          else
            let* over := over_daily_cap "withdraw" userID currency (wq_AmountUSDC req) (DailyWithdrawCap caps) in
            if over : bool then pret (BadRequest "withdrawal amount exceeds daily limit of %.2f USDC (current total: %.2f USDC)")
            else ptry (act (GetWallets userID)) (λ ws,
            match ws with
            | inr _ | inl [] => pret (BadRequest "no wallet found. Create a wallet first.")
            | inl (address :: _) =>
            ptry (GetQuote rateQuoteTTL "USDC" currency (wq_AmountUSDC req)) (λ q,
            match q with
            | inr _ => pret (InternalError "failed to get quote: ")
            | inl quote =>
                let* now := time_Now in
                let paymentRef := new_paymentRef now in
                let r := send_request req currency paymentRef in
                ptry (act (CreateSend r)) (λ p,
                match p with
                | inr _ => pret (InternalError "failed to create withdrawal: ")
                | inl send =>
                    let* failed := persist_withdrawal userID r send (q_ToAmount quote) in
                    match failed with
                    | Some answer => pret answer
                    | None =>
                        let data := WithdrawData (sp_SendID send) (sp_Status send) paymentRef currency (q_ToAmount quote)
                                      (q_FeePercentage quote) (h_StellarAddress h) (wq_AmountUSDC req) address in
                        do* remember "withdraw" userID currency key (wq_AmountUSDC req) data in
                        pret (OK data)
                    end
                end)
            end)
            end)
      end
  end
  end.

(** *** The notifications of the provider *)
Record Payload := {
  y_Type : string; y_Status : string; y_PaymentReference : string; y_FailureReason : string;
}.
Class WebhookLib := {
  strings_ToLower : string -> string;
  payload_Unmarshal : string -> option Payload;
}.
Context `{WebhookLib} {HM : webhook.HMAC}.
Definition normalizeYCStatus (status : string) : string := strings_ToLower (str_TrimSpace status).
Definition reason_or (reason dflt : string) : string := if decide (reason = "")%string then dflt else reason.
Definition reconcileDeposit (p : Payload) : io unit :=
  if negb (h_deposits h) then pret tt
  else ptry (db (DGetByPaymentRef (y_PaymentReference p))) (λ r,
    match r with
    | inr _ => pret tt
    | inl d =>
        let status := normalizeYCStatus (y_Status p) in
        if decide (status = "completed")%string then
          let* now := time_Now in pignore (db (DMarkCompleted (d_ID d) now))
        else if decide (status = "failed" \/ status = "expired")%string then
          pignore (db (DMarkFailed (d_ID d) (reason_or (y_FailureReason p) ("reported " ++ y_Status p ++ " by Yellow Card"))))
        else if decide (status = "pending")%string then pignore (db (DUpdateStatus (d_ID d) DepositStatusPending))
        else if decide (status = "processing")%string then pignore (db (DUpdateStatus (d_ID d) DepositStatusProcessing))
        else pret tt
    end).
Definition reconcileWithdrawal (p : Payload) : io unit :=
  if negb (h_withdrawals h) then pret tt
  else ptry (db (WGetByPaymentRef (y_PaymentReference p))) (λ r,
    match r with
    | inr _ => pret tt
    | inl w =>
        let status := normalizeYCStatus (y_Status p) in
        if decide (status = "completed")%string then
          let* now := time_Now in pignore (db (WMarkCompleted (w_ID w) now))
        else if decide (status = "failed")%string then
          pignore (db (WMarkFailed (w_ID w) (reason_or (y_FailureReason p) "reported failed by Yellow Card")))
        else if decide (status = "pending")%string then pignore (db (WUpdateStatus (w_ID w) WithdrawalStatusPending))
        else if decide (status = "processing")%string then pignore (db (WUpdateStatus (w_ID w) WithdrawalStatusProcessing))
        else pret tt
    end).
(** The status of the answer. *)
Definition HandleWebhook (secret body signature : string) : io Z :=
  if bool_decide (secret = "")%string || negb (webhook.VerifyWebhookSignature body signature secret) then pret 401
  else match payload_Unmarshal body with
  | None => pret 400
  | Some p =>
      if decide (y_PaymentReference p = "")%string then pret 400
      else
        do* (if decide (y_Type p = "receive")%string then reconcileDeposit p
             else if decide (y_Type p = "send")%string then reconcileWithdrawal p
             else pret tt) in
        pret 200
  end.
End handlers.

(** ** The world *)
Record rampworld := {
  rw_redis : world;
  rw_db : @PgState tables;
  rw_wallets : gmap string (list string);
  rw_cache : gmap string cachedQuote;
  rw_uuids : list string;
  rw_quotes : list (Quote + error);                      (** the provider's next answers *)
  rw_receives : list (ReceiveResponse + error);
  rw_sends : list (SendResponse + error);
  rw_accepted : list (ReceiveRequest * ReceiveResponse);   (** what it accepted, the last first *)
  rw_sent : list (SendRequest * SendResponse);
}.
Definition set_redis (r : world) (w : rampworld) : rampworld :=
  {| rw_redis := r; rw_db := rw_db w; rw_wallets := rw_wallets w; rw_cache := rw_cache w; rw_uuids := rw_uuids w;
     rw_quotes := rw_quotes w; rw_receives := rw_receives w; rw_sends := rw_sends w; rw_accepted := rw_accepted w;
     rw_sent := rw_sent w |}.
Definition set_db (s : @PgState tables) (w : rampworld) : rampworld :=
  {| rw_redis := rw_redis w; rw_db := s; rw_wallets := rw_wallets w; rw_cache := rw_cache w; rw_uuids := rw_uuids w;
     rw_quotes := rw_quotes w; rw_receives := rw_receives w; rw_sends := rw_sends w; rw_accepted := rw_accepted w;
     rw_sent := rw_sent w |}.
Definition set_provider (uuids : list string) (cache : gmap string cachedQuote) (quotes : list (Quote + error))
    (receives : list (ReceiveResponse + error)) (sends : list (SendResponse + error))
    (accepted : list (ReceiveRequest * ReceiveResponse)) (sent : list (SendRequest * SendResponse)) (w : rampworld) : rampworld :=
  {| rw_redis := rw_redis w; rw_db := rw_db w; rw_wallets := rw_wallets w; rw_cache := cache; rw_uuids := uuids;
     rw_quotes := quotes; rw_receives := receives; rw_sends := sends; rw_accepted := accepted; rw_sent := sent |}.
(** The next answer of a list, an error when there is none. *)
Definition next_of {A} (l : list (A + error)) : (A + error) * list (A + error) :=
  match l with [] => (inr (External "provider"), []) | a :: l => (a, l) end.
Definition of_sum {A} (x : A + error) : result A := match x with inl a => Ok a | inr e => Err e end.
Definition perform_ramp `{ColumnLib} (X : Type) (e : rampE X) : M rampworld X :=
  match e in rampE X return M rampworld X with
  | Redis e => λ w, let '(r, rw) := perform _ e (rw_redis w) in (r, set_redis rw w)
  | DB q => λ w, let '(r, s) := run_query q (rw_db w) in (r, set_db s w)
  | GetWallets u => λ w, (Ok (default [] (rw_wallets w !! u)), w)
  | NewUUID => λ w,
      match rw_uuids w with
      | [] => (Panic, w)
      | id :: ids => (Ok id, set_provider ids (rw_cache w) (rw_quotes w) (rw_receives w) (rw_sends w) (rw_accepted w) (rw_sent w) w)
      end
  | CacheGet k => λ w, (Ok (rw_cache w !! k), w)
  | CachePut k c => λ w,
      (Ok tt, set_provider (rw_uuids w) (<[k := c]> (rw_cache w)) (rw_quotes w) (rw_receives w) (rw_sends w) (rw_accepted w) (rw_sent w) w)
  | YCQuote _ _ _ => λ w,
      let '(x, l) := next_of (rw_quotes w) in
      (of_sum x, set_provider (rw_uuids w) (rw_cache w) l (rw_receives w) (rw_sends w) (rw_accepted w) (rw_sent w) w)
  | CreateReceive r => λ w,
      let '(x, l) := next_of (rw_receives w) in
      (of_sum x, set_provider (rw_uuids w) (rw_cache w) (rw_quotes w) l (rw_sends w)
         (match x with inl p => (r, p) :: rw_accepted w | inr _ => rw_accepted w end) (rw_sent w) w)
  | CreateSend r => λ w,
      let '(x, l) := next_of (rw_sends w) in
      (of_sum x, set_provider (rw_uuids w) (rw_cache w) (rw_quotes w) (rw_receives w) l (rw_accepted w)
         (match x with inl p => (r, p) :: rw_sent w | inr _ => rw_sent w end) w)
  end.
End ramp.
