(* ===== verification/RampProps.v ===== *)
(** What the fiat deposits and withdrawals guarantee: every row is a request the
    provider accepted, and the notifications of the provider decide its status. *)
From S2P Require Export Ramp Demo.
From stdpp Require Import options.
From Stdlib Require Import Ascii.
#[local] Set Default Proof Using "Type*".
Open Scope Z_scope.
Local Open Scope go_scope.

Module rampprops.
Import redis ramp.

(** ** What a query does to the tables *)
Definition writes_of `{ColumnLib} {X} (q : dbQ X) (t t' : tables) : Prop :=
  match q with
  | DCreate d => deposit_conflict d t = None /\ t' = with_deposits (<[d_ID d := stored_deposit d]> (deposits t)) t
  | WCreate w => withdrawal_conflict w t = None /\ t' = with_withdrawals (<[w_ID w := stored_withdrawal w]> (withdrawals t)) t
  | DUpdateStatus id st => t' = with_deposits (alter (with_d_status st None None) id (deposits t)) t
  | DMarkCompleted id now => t' = with_deposits (alter (with_d_status DepositStatusCompleted (Some now) None) id (deposits t)) t
  | DMarkFailed id reason => t' = with_deposits (alter (with_d_status DepositStatusFailed None (Some reason)) id (deposits t)) t
  | WUpdateStatus id st => t' = with_withdrawals (alter (with_w_status st None None None None None) id (withdrawals t)) t
  | WUpdateYellowCardTxID id tx =>
      t' = with_withdrawals (alter (with_w_status WithdrawalStatusConverting None (Some tx) None None None) id (withdrawals t)) t
  | WMarkCompleted id now =>
      t' = with_withdrawals (alter (with_w_status WithdrawalStatusCompleted None None None (Some now) None) id (withdrawals t)) t
  | WMarkFailed id reason =>
      t' = with_withdrawals (alter (with_w_status WithdrawalStatusFailed None None None None (Some reason)) id (withdrawals t)) t
  | DGetByPaymentRef _ | WGetByPaymentRef _ => False
  end.
Lemma wp_alter_deposit id f s (Q : result unit -> PgState tables -> Prop) :
  (forall r s', pg_tables s' = pg_tables s \/ pg_tables s' = with_deposits (alter f id (deposits (pg_tables s))) (pg_tables s) -> Q r s') ->
  wp (alter_deposit id f) s Q.
Proof.
  intros HQ. unfold alter_deposit. apply wp_bind, wp_pg_update; intros; [apply wp_ret|apply wp_ret|]; apply HQ; auto.
Qed.
Lemma wp_alter_withdrawal check id f s (Q : result unit -> PgState tables -> Prop) :
  (forall r s', pg_tables s' = pg_tables s \/ pg_tables s' = with_withdrawals (alter f id (withdrawals (pg_tables s))) (pg_tables s) -> Q r s') ->
  wp (alter_withdrawal check id f) s Q.
Proof.
  intros HQ. unfold alter_withdrawal. apply wp_bind, wp_pg_update; intros; [apply wp_ret|apply wp_ret|]; apply HQ; auto.
Qed.
Lemma run_query_tables `{ColumnLib} {X} (q : dbQ X) s r s' : run_query q s = (r, s') ->
  pg_tables s' = pg_tables s \/ writes_of q (pg_tables s) (pg_tables s').
Proof.
  apply (wp_run (run_query q) s (λ r s', pg_tables s' = pg_tables s \/ writes_of q (pg_tables s) (pg_tables s'))).
  destruct q; cbn [run_query writes_of];
    unfold deposit_Create, withdrawal_Create, deposit_GetByPaymentRef, withdrawal_GetByPaymentRef, deposit_UpdateStatus,
      deposit_MarkCompleted, deposit_MarkFailed, withdrawal_UpdateStatus, withdrawal_UpdateYellowCardTxID,
      withdrawal_MarkCompleted, withdrawal_MarkFailed; apply wp_wrap;
    first [ apply wp_pg_insert; intros; auto; fail
          | apply wp_pg_row; intros; auto; fail
          | apply wp_alter_deposit; auto; fail
          | apply wp_alter_withdrawal; auto ].
Qed.

(** ** Every row was accepted *)
Section accepted.
Context {CL : ColumnLib} {RL : RampLib} {WL : WebhookLib} {HM : webhook.HMAC}.
Variables (h : DepositHandler) (secret : string).

(** What a request may ask of the provider: an amount within the cap of its currency. *)
Definition receive_ok (r : ReceiveRequest) : Prop :=
  exists caps, currencyCaps h (rr_Currency r) = Some caps /\ positive (rr_Amount r) = true /\
    f64_gt (rr_Amount r) (MaxDeposit caps) = false.
Definition send_ok (r : SendRequest) : Prop :=
  exists caps, currencyCaps h (sr_TargetCurrency r) = Some caps /\ positive (sr_Amount r) = true /\
    f64_gt (sr_Amount r) (MaxWithdraw caps) = false.
(** A row carries what was accepted, the amount as its column keeps it. *)
Definition asks_deposit (rp : ReceiveRequest * ReceiveResponse) (d : Deposit) : Prop :=
  d_AmountNGN d = rr_Amount rp.1 /\ d_DestinationAddress d = rr_DestinationAddress rp.1 /\
  d_PaymentRef d = rr_PaymentReference rp.1 /\ d_ReceiveID d = rp_ReceiveID rp.2.
Definition deposit_of (rp : ReceiveRequest * ReceiveResponse) (d : Deposit) : Prop :=
  numeric_column 2 (rr_Amount rp.1) = Some (d_AmountNGN d) /\ d_DestinationAddress d = rr_DestinationAddress rp.1 /\
  d_PaymentRef d = rr_PaymentReference rp.1 /\ d_ReceiveID d = rp_ReceiveID rp.2.
Definition withdrawal_of (sp : SendRequest * SendResponse) (w : Withdrawal) : Prop :=
  money.FromFloat64 (sr_Amount sp.1) = Ok (w_AmountUSDC w) /\ w_BankCode w = sr_BankCode sp.1 /\
  w_AccountNumber w = sr_AccountNumber sp.1 /\ w_AccountName w = sr_AccountName sp.1 /\ w_PaymentRef w = sr_PaymentRef sp.1.

Inductive stage := Idle | Took (rp : ReceiveRequest * ReceiveResponse) | Sent (sp : SendRequest * SendResponse).
Definition pre (X : Type) (e : rampE X) (s : stage) : Prop :=
  match e with
  | DB (DCreate d) => exists rp, s = Took rp /\ asks_deposit rp d
  | DB (WCreate w) => exists sp, s = Sent sp /\ withdrawal_of sp w
  | CreateReceive r => receive_ok r
  | CreateSend r => send_ok r
  | _ => True
  end.
Definition post (X : Type) (e : rampE X) (s : stage) : result X -> stage -> Prop :=
  match e in rampE X return result X -> stage -> Prop with
  | CreateReceive r => λ x s', s' = match x with Ok p => Took (r, p) | _ => s end
  | CreateSend r => λ x s', s' = match x with Ok p => Sent (r, p) | _ => s end
  | _ => λ _ s', s' = s
  end.
Abbreviation safely s p Q := (staged pre post s p Q).

(** Actions that keep the stage. *)
Lemma cmd_safely {X} s (c : cmd X) Q : (forall r, Q s r) -> safely s (cmd_ c) Q.
Proof. intros. by apply staged_plain; [|intros ??|]. Qed.
Lemma now_safely s (Q : stage -> result time -> Prop) : (forall r, Q s r) -> safely s time_Now Q.
Proof. intros. by apply staged_plain; [|intros ??|]. Qed.
(** One step of a request that keeps its stage. *)
Ltac walk_step :=
  match goal with
  | |- staged _ _ _ (pbind _ _) _ => apply staged_bind
  | |- staged _ _ _ (ptry _ _) _ => apply staged_try
  | |- staged _ _ _ (pignore _) _ => apply staged_ignore
  | |- staged _ _ _ (cmd_ _) _ => apply cmd_safely; intros ?
  | |- staged _ _ _ time_Now _ => apply now_safely; intros ?
  | |- staged _ _ _ (pret _) _ => cbn [staged pret]
  | |- staged _ _ _ (pfail _) _ => cbn [staged pfail]
  | |- staged _ _ _ (if ?b then _ else _) _ => destruct b
  | |- staged _ _ _ (match ?x with _ => _ end) _ => destruct x
  | |- match ?r with Ok _ => _ | Err _ => _ | Panic => _ end => destruct r
  end.
Ltac walk := repeat walk_step.

Abbreviation stays s p := (staged pre post s p (λ s' _, s' = s)).
Lemma cached_stays s kind u c k : stays s (cached_answer h kind u c k).
Proof. unfold cached_answer. by walk. Qed.
Lemma daily_stays s kind u c a cap : stays s (over_daily_cap h kind u c a cap).
Proof. unfold over_daily_cap. by walk. Qed.
Lemma remember_stays s kind u c k a d : stays s (remember h kind u c k a d).
Proof. unfold remember. by walk. Qed.
Lemma quote_stays s ttl from to a : stays s (GetQuote ttl from to a).
Proof.
  unfold GetQuote, still_fresh, provider_GetQuote. walk_step. apply staged_plain; [done|by intros|intros r]. destruct r as [c|e|]; [|done..].
  walk; try done; apply staged_plain; [done|by intros|intros ?|done|by intros|intros ?..]; walk; try done.
  all: apply staged_plain; [done|by intros|intros ?]; by walk.
Qed.
Lemma stays_mono {A} s (p : io A) (Q : stage -> result A -> Prop) : stays s p -> (forall r, Q s r) -> safely s p Q.
Proof. intros Hp HQ. eapply staged_mono; [exact Hp|]. by intros s' r ->. Qed.

Lemma persist_deposit_safely u r p est : safely (Took (r, p)) (persist_deposit h u r p est) (λ _ _, True).
Proof.
  unfold persist_deposit. destruct (negb (h_deposits h)); [done|]. apply staged_bind, staged_plain; [done|by intros|intros [id|e|]]; [|done..].
  apply staged_bind, now_safely. intros [now|e|]; [|done..]. apply staged_try, staged_plain; [|by intros|intros x; by walk].
  exists (r, p). by repeat split.
Qed.
Lemma persist_withdrawal_safely u r p est : safely (Sent (r, p)) (persist_withdrawal h u r p est) (λ _ _, True).
Proof.
  unfold persist_withdrawal. destruct (negb (h_withdrawals h)); [done|].
  destruct (money.FromFloat64 (sr_Amount r)) as [a|e|] eqn:Ea; [|done..]. destruct (money.FromFloat64 est) as [b|e|]; [|done..].
  apply staged_bind, staged_plain; [done|by intros|intros [id|e|]]; [|done..].
  apply staged_bind, now_safely. intros [now|e|]; [|done..].
  apply staged_try, staged_plain; [|by intros|intros x; destruct x as [x|e|]; [|done..]].
  - exists (r, p). by repeat split.
  - apply staged_bind, staged_ignore, staged_plain; [done|by intros|]. by intros [].
Qed.
Lemma deposit_safely u req hd xhd : safely Idle (InitiateDeposit h u req hd xhd) (λ _ _, True).
Proof.
  unfold InitiateDeposit. destruct (positive (dq_AmountNGN req)) eqn:Hpos; cbn [negb]; [|done].
  destruct (resolveCurrency (dq_Currency req)) as [currency|]; [|done].
  destruct (currencyCaps h currency) as [caps|] eqn:Hcaps; [|done].
  apply staged_bind, stays_mono; [apply cached_stays|]. intros [[d|]|e|]; [done| |done..].
  destruct (f64_gt (dq_AmountNGN req) (MaxDeposit caps)) eqn:Hmax; [done|].
  apply staged_bind, stays_mono; [apply daily_stays|]. intros [[]|e|]; [done| |done..].
  apply staged_try, staged_plain; [done|by intros|]. intros [[|address ws]|e|]; [done| |done..].
  apply staged_try, stays_mono; [apply quote_stays|]. intros [q|e|]; [|done..].
  apply staged_bind, now_safely. intros [now|e|]; [|done..].
  apply staged_try, staged_act; [by exists caps|]. intros [p|e|] s' Hs; [|done..]. cbn in Hs. subst s'.
  apply staged_bind. eapply staged_mono; [apply persist_deposit_safely|]. intros s [[answer|]|e|] _; [done| |done..].
  apply staged_bind, stays_mono; [apply remember_stays|]. by intros [].
Qed.
Lemma withdraw_safely u req hd xhd : safely Idle (InitiateWithdraw h u req hd xhd) (λ _ _, True).
Proof.
  unfold InitiateWithdraw. destruct (h_kyc_required h); [done|].
  destruct (positive (wq_AmountUSDC req)) eqn:Hpos; [|done]. cbn [andb]. destruct (negb _); [done|].
  destruct (resolveCurrency (wq_Currency req)) as [currency|]; [|done].
  destruct (currencyCaps h currency) as [caps|] eqn:Hcaps; [|done].
  apply staged_bind, stays_mono; [apply cached_stays|]. intros [[d|]|e|]; [done| |done..].
  destruct (f64_gt (wq_AmountUSDC req) (MaxWithdraw caps)) eqn:Hmax; [done|].
  apply staged_bind, stays_mono; [apply daily_stays|]. intros [[]|e|]; [done| |done..].
  apply staged_try, staged_plain; [done|by intros|]. intros [[|address ws]|e|]; [done| |done..].
  apply staged_try, stays_mono; [apply quote_stays|]. intros [q|e|]; [|done..].
  apply staged_bind, now_safely. intros [now|e|]; [|done..].
  apply staged_try, staged_act; [by exists caps|]. intros [p|e|] s' Hs; [|done..]. cbn in Hs. subst s'.
  apply staged_bind. eapply staged_mono; [apply persist_withdrawal_safely|]. intros s [[answer|]|e|] _; [done| |done..].
  apply staged_bind, stays_mono; [apply remember_stays|]. by intros [].
Qed.
Lemma db_safely {X} s (q : dbQ X) (Q : stage -> result X -> Prop) :
  match q with DCreate _ | WCreate _ => False | _ => True end -> (forall r, Q s r) -> safely s (db q) Q.
Proof. intros Hq HQ. apply staged_plain; [by destruct q|by intros|done]. Qed.
Lemma webhook_safely body sig : safely Idle (HandleWebhook h secret body sig) (λ _ _, True).
Proof.
  unfold HandleWebhook. destruct (_ || _); [done|]. destruct (payload_Unmarshal body) as [p|]; [|done].
  case_decide; [done|]. apply staged_bind, stays_mono; [|by intros []].
  assert (forall X (q : dbQ X), match q with DCreate _ | WCreate _ => False | _ => True end -> stays Idle (pignore (db q))) as Hq.
  { intros X q Hq. apply staged_ignore, db_safely; [done|]. by intros []. }
  assert (forall X (q : time -> dbQ X), (forall now, match q now with DCreate _ | WCreate _ => False | _ => True end) ->
    stays Idle (let* now := time_Now in pignore (db (q now)))) as Hqn.
  { intros X q Hn. apply staged_bind, now_safely. intros [now|e|]; [apply Hq, Hn|done..]. }
  case_decide; [|case_decide; [|done]].
  - unfold reconcileDeposit. destruct (negb _); [done|]. apply staged_try, db_safely; [done|]. intros [d|e|]; [|done..].
    repeat case_decide; try done; first [by apply Hqn|by apply Hq].
  - unfold reconcileWithdrawal. destruct (negb _); [done|]. apply staged_try, db_safely; [done|]. intros [d|e|]; [|done..].
    repeat case_decide; try done; first [by apply Hqn|by apply Hq].
Qed.

(** *** The invariant *)
Record rows_ok (w : rampworld) : Prop := {
  ok_deposit id d : deposits (pg_tables (rw_db w)) !! id = Some d -> d_ID d = id /\ exists rp, rp ∈ rw_accepted w /\ deposit_of rp d;
  ok_deposit_ref i j d e : deposits (pg_tables (rw_db w)) !! i = Some d -> deposits (pg_tables (rw_db w)) !! j = Some e ->
    d_PaymentRef d = d_PaymentRef e -> i = j;
  ok_withdrawal id d : withdrawals (pg_tables (rw_db w)) !! id = Some d -> w_ID d = id /\ exists sp, sp ∈ rw_sent w /\ withdrawal_of sp d;
  ok_withdrawal_ref i j d e : withdrawals (pg_tables (rw_db w)) !! i = Some d -> withdrawals (pg_tables (rw_db w)) !! j = Some e ->
    w_PaymentRef d = w_PaymentRef e -> i = j;
  ok_accepted rp : rp ∈ rw_accepted w -> receive_ok rp.1;
  ok_sent sp : sp ∈ rw_sent w -> send_ok sp.1;
}.
Definition Inv (w : rampworld) (ss : list stage) : Prop :=
  rows_ok w /\ Forall (λ s, match s with Idle => True | Took rp => rp ∈ rw_accepted w | Sent sp => sp ∈ rw_sent w end) ss.

(** A change that keeps what identifies the rows. *)
Lemma rows_same w w' : rows_ok w -> pg_tables (rw_db w') = pg_tables (rw_db w) ->
  (forall rp, rp ∈ rw_accepted w -> rp ∈ rw_accepted w') -> (forall sp, sp ∈ rw_sent w -> sp ∈ rw_sent w') ->
  (forall rp, rp ∈ rw_accepted w' -> receive_ok rp.1) -> (forall sp, sp ∈ rw_sent w' -> send_ok sp.1) -> rows_ok w'.
Proof.
  intros [H1 H2 H3 H4 H5 H6] Ht Ha Hs Ha' Hs'. split; try rewrite Ht; try done.
  - intros id d Hd. destruct (H1 id d Hd) as (? & rp & ? & ?). split; [done|]. exists rp; auto.
  - intros id d Hd. destruct (H3 id d Hd) as (? & sp & ? & ?). split; [done|]. exists sp; auto.
Qed.
Lemma rows_alter_deposit w s' id f : rows_ok w ->
  (forall d, d_ID (f d) = d_ID d /\ d_PaymentRef (f d) = d_PaymentRef d /\ forall rp, deposit_of rp d -> deposit_of rp (f d)) ->
  pg_tables s' = with_deposits (alter f id (deposits (pg_tables (rw_db w)))) (pg_tables (rw_db w)) -> rows_ok (set_db s' w).
Proof.
  intros [H1 H2 H3 H4 H5 H6] Hf Ht. split; cbn; try rewrite Ht; cbn; try done.
  - intros i d (b & Hb & Hd)%alter_some. destruct (H1 i b Hb) as (Hi & rp & Hin & Hrp). destruct (Hf b) as (F1 & F2 & F3).
    destruct Hd as [->| ->]; [eauto|]. split; [congruence|]. exists rp. auto.
  - intros i j d e (b & Hb & Hd)%alter_some (c & Hc & He)%alter_some E. apply (H2 i j b c Hb Hc).
    destruct (Hf b) as (_ & F2 & _), (Hf c) as (_ & G2 & _). destruct Hd as [->| ->], He as [->| ->]; congruence.
Qed.
Lemma rows_alter_withdrawal w s' id f : rows_ok w ->
  (forall d, w_ID (f d) = w_ID d /\ w_PaymentRef (f d) = w_PaymentRef d /\ forall sp, withdrawal_of sp d -> withdrawal_of sp (f d)) ->
  pg_tables s' = with_withdrawals (alter f id (withdrawals (pg_tables (rw_db w)))) (pg_tables (rw_db w)) -> rows_ok (set_db s' w).
Proof.
  intros [H1 H2 H3 H4 H5 H6] Hf Ht. split; cbn; try rewrite Ht; cbn; try done.
  - intros i d (b & Hb & Hd)%alter_some. destruct (H3 i b Hb) as (Hi & rp & Hin & Hrp). destruct (Hf b) as (F1 & F2 & F3).
    destruct Hd as [->| ->]; [eauto|]. split; [congruence|]. exists rp. auto.
  - intros i j d e (b & Hb & Hd)%alter_some (c & Hc & He)%alter_some E. apply (H4 i j b c Hb Hc).
    destruct (Hf b) as (_ & F2 & _), (Hf c) as (_ & G2 & _). destruct Hd as [->| ->], He as [->| ->]; congruence.
Qed.
Lemma rows_insert_deposit w s' d rp : rows_ok w -> rp ∈ rw_accepted w -> asks_deposit rp d ->
  deposit_conflict d (pg_tables (rw_db w)) = None ->
  pg_tables s' = with_deposits (<[d_ID d := stored_deposit d]> (deposits (pg_tables (rw_db w)))) (pg_tables (rw_db w)) ->
  rows_ok (set_db s' w).
Proof.
  intros [H1 H2 H3 H4 H5 H6] Hin Hd Hc Ht. unfold deposit_conflict in Hc. case_bool_decide as Hcol; [done|]. destruct (existsb _ _) eqn:E in Hc; [done|].
  assert (forall i e, deposits (pg_tables (rw_db w)) !! i = Some e -> d_PaymentRef e <> d_PaymentRef d) as Hne.
  { intros i e He. pose proof (no_conflict _ _ i e E He) as Hf. apply bool_decide_eq_false in Hf. tauto. }
  assert (deposit_of rp (stored_deposit d)) as Hof.
  { destruct Hd as (Ha & Hd). split; [|exact Hd]. rewrite <-Ha. cbn. by destruct (numeric_column 2 (d_AmountNGN d)); [|tauto]. }
  split; cbn; try rewrite Ht; cbn; try done.
  - intros i e [[<- <-]|[_ He]]%lookup_insert_Some; [|by apply H1]. split; [done|]. by exists rp.
  - intros i j e f [[<- <-]|[Hi He]]%lookup_insert_Some [[<- <-]|[Hj Hf]]%lookup_insert_Some Eref; [done| | |by eapply H2].
    + by apply Hne in Hf.
    + by apply Hne in He.
Qed.
Lemma rows_insert_withdrawal w s' d sp : rows_ok w -> sp ∈ rw_sent w -> withdrawal_of sp d ->
  withdrawal_conflict d (pg_tables (rw_db w)) = None ->
  pg_tables s' = with_withdrawals (<[w_ID d := stored_withdrawal d]> (withdrawals (pg_tables (rw_db w)))) (pg_tables (rw_db w)) ->
  rows_ok (set_db s' w).
Proof.
  intros [H1 H2 H3 H4 H5 H6] Hin Hd Hc Ht. unfold withdrawal_conflict in Hc. destruct (existsb _ _) eqn:E in Hc; [done|].
  assert (forall i e, withdrawals (pg_tables (rw_db w)) !! i = Some e -> w_PaymentRef e <> w_PaymentRef d) as Hne.
  { intros i e He. pose proof (no_conflict _ _ i e E He) as Hf. apply bool_decide_eq_false in Hf. tauto. }
  split; cbn; try rewrite Ht; cbn; try done.
  - intros i e [[<- <-]|[_ He]]%lookup_insert_Some; [|by apply H3]. split; [done|]. by exists sp.
  - intros i j e f [[<- <-]|[Hi He]]%lookup_insert_Some [[<- <-]|[Hj Hf]]%lookup_insert_Some Eref; [done| | |by eapply H4].
    + by apply Hne in Hf.
    + by apply Hne in He.
Qed.

Lemma step_db {X} (q : dbQ X) w ss i s r s' : run_query q (rw_db w) = (r, s') -> Inv w ss -> ss !! i = Some s ->
  pre X (DB q) s -> rows_ok (set_db s' w).
Proof.
  intros E [HR HS] Hi Hpre. destruct (run_query_tables q (rw_db w) r s' E) as [Ht|Ht].
  { eapply rows_same; try exact HR; try done; [exact (ok_accepted _ HR)|exact (ok_sent _ HR)]. }
  pose proof (proj1 (Forall_lookup _ _) HS i s Hi) as Hs.
  destruct q; cbn in Ht; try done.
  - destruct Hpre as (rp & -> & Hd), Ht as [Hc Ht]. by eapply rows_insert_deposit.
  - eapply rows_alter_deposit; [exact HR| |exact Ht]; by intros.
  - eapply rows_alter_deposit; [exact HR| |exact Ht]; by intros.
  - eapply rows_alter_deposit; [exact HR| |exact Ht]; by intros.
  - destruct Hpre as (sp & -> & Hd), Ht as [Hc Ht]. by eapply rows_insert_withdrawal.
  - eapply rows_alter_withdrawal; [exact HR| |exact Ht]; by intros.
  - eapply rows_alter_withdrawal; [exact HR| |exact Ht]; by intros.
  - eapply rows_alter_withdrawal; [exact HR| |exact Ht]; by intros.
  - eapply rows_alter_withdrawal; [exact HR| |exact Ht]; by intros.
Qed.
Lemma Inv_stage w w' ss (i : nat) s' : Inv w ss -> rows_ok w' ->
  (forall rp, rp ∈ rw_accepted w -> rp ∈ rw_accepted w') -> (forall sp, sp ∈ rw_sent w -> sp ∈ rw_sent w') ->
  match s' with Idle => True | Took rp => rp ∈ rw_accepted w' | Sent sp => sp ∈ rw_sent w' end -> Inv w' (<[i := s']> ss).
Proof.
  intros [_ HS] HR Ha Hs Hs'. split; [done|]. apply Forall_insert; [|done].
  eapply Forall_impl; [exact HS|]. intros [| |]; auto.
Qed.
(** A step that keeps the tables and what was accepted. *)
Lemma Inv_plain w w' ss i s : Inv w ss -> ss !! i = Some s -> pg_tables (rw_db w') = pg_tables (rw_db w) ->
  rw_accepted w' = rw_accepted w -> rw_sent w' = rw_sent w -> Inv w' (<[i := s]> ss).
Proof.
  intros [HR HS] Hi Ht Ha Hs. eapply Inv_stage; [by split| | | |]; rewrite ?Ha, ?Hs; try done.
  - eapply rows_same; [exact HR|done|..]; rewrite ?Ha, ?Hs; try done; [exact (ok_accepted _ HR)|exact (ok_sent _ HR)].
  - exact (proj1 (Forall_lookup _ _) HS i s Hi).
Qed.
Lemma ramp_step_keeps X (e : rampE X) w r w' ss i s : perform_ramp X e w = (r, w') -> Inv w ss -> ss !! i = Some s ->
  pre X e s -> exists s', post X e s r s' /\ Inv w' (<[i := s']> ss).
Proof.
  intros E HI Hi Hpre. pose proof HI as [HR HS]. pose proof (proj1 (Forall_lookup _ _) HS i s Hi) as Hs.
  destruct e as [X e|X q|u| |k|k c|from to a|rq|rq]; cbn [perform_ramp] in E.
  - destruct (perform X e (rw_redis w)) as [r0 rw]. injection E as <- <-. exists s. split; [done|by eapply Inv_plain].
  - destruct (run_query q (rw_db w)) as [r0 s0] eqn:Eq. injection E as <- <-. exists s. split; [done|].
    eapply Inv_stage; [done|by eapply step_db|done..|by destruct s].
  - injection E as <- <-. exists s. split; [done|by eapply Inv_plain].
  - destruct (rw_uuids w); injection E as <- <-; exists s; (split; [done|by eapply Inv_plain]).
  - injection E as <- <-. exists s. split; [done|by eapply Inv_plain].
  - injection E as <- <-. exists s. split; [done|by eapply Inv_plain].
  - destruct (next_of (rw_quotes w)). injection E as <- <-. exists s. split; [done|by eapply Inv_plain].
  - destruct (next_of (rw_receives w)) as [[p|err] l]; injection E as <- <-; [|exists s; split; [done|by eapply Inv_plain]].
    exists (Took (rq, p)). split; [done|]. eapply Inv_stage; [done| |by right|done|by left].
    eapply rows_same; [exact HR|done|by right|done| |exact (ok_sent _ HR)].
    intros rp [->|Hin]%elem_of_cons; [exact Hpre|by apply (ok_accepted _ HR)].
  - destruct (next_of (rw_sends w)) as [[p|err] l]; injection E as <- <-; [|exists s; split; [done|by eapply Inv_plain]].
    exists (Sent (rq, p)). split; [done|]. eapply Inv_stage; [done| |done|by right|by left].
    eapply rows_same; [exact HR|done|done|by right|exact (ok_accepted _ HR)|].
    intros sp [->|Hin]%elem_of_cons; [exact Hpre|by apply (ok_sent _ HR)].
Qed.

Inductive call :=
  | CDeposit (userID : string) (req : DepositReq) (header xheader : string)
  | CWithdraw (userID : string) (req : WithdrawReq) (header xheader : string)
  | CWebhook (body signature : string).
Definition start (c : call) : io unit :=
  match c with
  | CDeposit u req hd xhd => pignore (InitiateDeposit h u req hd xhd)
  | CWithdraw u req hd xhd => pignore (InitiateWithdraw h u req hd xhd)
  | CWebhook body sig => pignore (HandleWebhook h secret body sig)
  end.
(** The rest of the program and of the world leaves the two tables and what the provider
    accepted; it changes Redis, the cache, the wallets, the faults and the answers. *)
Definition env (w w' : rampworld) : Prop :=
  pg_tables (rw_db w') = pg_tables (rw_db w) /\ rw_accepted w' = rw_accepted w /\ rw_sent w' = rw_sent w.

Lemma ramp_start_staged c : staged pre post Idle (start c) (λ _ _, True).
Proof.
  destruct c; cbn; apply staged_ignore; (eapply staged_mono; [|by intros ? []]);
    first [apply deposit_safely|apply withdraw_safely|apply webhook_safely].
Qed.

(** However requests and notifications overlap, whatever fails and whatever the
    provider, Redis and the database answer: every stored deposit and withdrawal is a
    request the provider accepted, with its amount, destination and reference, within
    the cap of its currency, and no two rows of a table carry one reference. *)
Theorem rows_were_accepted w c : deposits (pg_tables (rw_db w)) = ∅ -> withdrawals (pg_tables (rw_db w)) = ∅ ->
  rw_accepted w = [] -> rw_sent w = [] ->
  reachable perform_ramp start env w c ->
  let t := pg_tables (rw_db c.1) in
  (forall id d, deposits t !! id = Some d -> exists rp, rp ∈ rw_accepted c.1 /\ deposit_of rp d /\ receive_ok rp.1) /\
  (forall id d, withdrawals t !! id = Some d -> exists sp, sp ∈ rw_sent c.1 /\ withdrawal_of sp d /\ send_ok sp.1) /\
  (forall i j d e, deposits t !! i = Some d -> deposits t !! j = Some e -> d_PaymentRef d = d_PaymentRef e -> i = j) /\
  (forall i j d e, withdrawals t !! i = Some d -> withdrawals t !! j = Some e -> w_PaymentRef d = w_PaymentRef e -> i = j).
Proof.
  intros Hd Hw Ha Hs Hr. assert (Inv w []) as H0'.
  { split; [|constructor]. split; rewrite ?Hd, ?Hw, ?Ha, ?Hs; try done; by intros ? ?%not_elem_of_nil. }
  destruct (pool_staged pre post perform_ramp Inv ramp_step_keeps start env (λ _, Idle)) with (w := w) (c := c)
    as (ss & [HR _] & _); [|exact ramp_start_staged| |done|done|].
  { intros w1 w2 ss (Ht & Ha' & Hs') [HR HS]. split; [|by rewrite Ha', Hs'].
    eapply rows_same; [exact HR|done|..]; rewrite ?Ha', ?Hs'; try done; [exact (ok_accepted _ HR)|exact (ok_sent _ HR)]. }
  { intros w1 ss l [HR HS]. split; [done|]. apply Forall_app. split; [done|]. by constructor. }
  split; [|split; [|split]].
  - intros id d Hin. destruct (ok_deposit _ HR id d Hin) as (_ & rp & Hrp & Hof). exists rp. split; [done|].
    split; [done|]. by apply (ok_accepted _ HR).
  - intros id d Hin. destruct (ok_withdrawal _ HR id d Hin) as (_ & sp & Hsp & Hof). exists sp. split; [done|].
    split; [done|]. by apply (ok_sent _ HR).
  - exact (ok_deposit_ref _ HR).
  - exact (ok_withdrawal_ref _ HR).
Qed.
End accepted.

(** ** What the notifications decide *)
Section notified.
Context {CL : ColumnLib} {WL : WebhookLib} {HM : webhook.HMAC}.
Variables (h : DepositHandler) (secret : string).

(** What a recognized status does to a row. *)
Definition d_step (now : time) (p : Payload) (d : Deposit) : Deposit :=
  let status := normalizeYCStatus (y_Status p) in
  if decide (status = "completed")%string then with_d_status DepositStatusCompleted (Some now) None d
  else if decide (status = "failed" \/ status = "expired")%string then
    with_d_status DepositStatusFailed None (Some (reason_or (y_FailureReason p) ("reported " ++ y_Status p ++ " by Yellow Card"))) d
  else if decide (status = "pending")%string then with_d_status DepositStatusPending None None d
  else if decide (status = "processing")%string then with_d_status DepositStatusProcessing None None d
  else d.
Definition w_step (now : time) (p : Payload) (w : Withdrawal) : Withdrawal :=
  let status := normalizeYCStatus (y_Status p) in
  if decide (status = "completed")%string then with_w_status WithdrawalStatusCompleted None None None (Some now) None w
  else if decide (status = "failed")%string then
    with_w_status WithdrawalStatusFailed None None None None (Some (reason_or (y_FailureReason p) "reported failed by Yellow Card")) w
  else if decide (status = "pending")%string then with_w_status WithdrawalStatusPending None None None None None w
  else if decide (status = "processing")%string then with_w_status WithdrawalStatusProcessing None None None None None w
  else w.

(** A notification: when it comes, its body and its signature; what is heard of it. *)
Record notification := { nt_at : time; nt_body : string; nt_signature : string }.
Definition heard (n : notification) : option Payload :=
  if bool_decide (secret = ""%string) || negb (webhook.VerifyWebhookSignature (nt_body n) (nt_signature n) secret) then None
  else match payload_Unmarshal (nt_body n) with
       | Some p => if decide (y_PaymentReference p = "")%string then None else Some p
       | None => None
       end.
Definition d_hears (d : Deposit) (n : notification) : Deposit :=
  match heard n with
  | Some p => if decide (y_Type p = "receive" /\ y_PaymentReference p = d_PaymentRef d)%string then d_step (nt_at n) p d else d
  | None => d
  end.
Definition w_hears (w : Withdrawal) (n : notification) : Withdrawal :=
  match heard n with
  | Some p => if decide (y_Type p = "send" /\ y_PaymentReference p = w_PaymentRef w)%string then w_step (nt_at n) p w else w
  | None => w
  end.

Definition at_time (t : time) (w : rampworld) : rampworld :=
  set_redis {| rw_now := t; rw_keys := rw_keys (rw_redis w); rw_net := rw_net (rw_redis w); rw_rand := rw_rand (rw_redis w) |} w.
Definition deliver (n : notification) (w : rampworld) : rampworld :=
  (run perform_ramp (HandleWebhook h secret (nt_body n) (nt_signature n)) (at_time (nt_at n) w)).2.
Definition deliver_all (ns : list notification) (w : rampworld) : rampworld := fold_left (λ w n, deliver n w) ns w.

(** Rows under their identifiers, one for each reference. *)
Record well_keyed (t : tables) : Prop := {
  wk_d id d : deposits t !! id = Some d -> d_ID d = id;
  wk_w id w : withdrawals t !! id = Some w -> w_ID w = id;
  wk_dref i j d e : deposits t !! i = Some d -> deposits t !! j = Some e -> d_PaymentRef d = d_PaymentRef e -> i = j;
  wk_wref i j d e : withdrawals t !! i = Some d -> withdrawals t !! j = Some e -> w_PaymentRef d = w_PaymentRef e -> i = j;
}.


Lemma query_get_deposit ref t : run_query (DGetByPaymentRef ref) (connection t) =
  (match find_row (λ d, bool_decide (d_PaymentRef d = ref)) (deposits t) with
   | Some d => Ok d | None => Err (Wrapf "getting deposit by payment ref: %w" sql_ErrNoRows) end, connection t).
Proof.
  cbn. unfold deposit_GetByPaymentRef, gwrap, pg_row, pg_select, gbind, pg_exec. cbn.
  by destruct (find_row _ (deposits t)).
Qed.
Lemma query_get_withdrawal ref t : run_query (WGetByPaymentRef ref) (connection t) =
  (match find_row (λ d, bool_decide (w_PaymentRef d = ref)) (withdrawals t) with
   | Some d => Ok d | None => Err (Wrapf "getting withdrawal by payment ref: %w" sql_ErrNoRows) end, connection t).
Proof.
  cbn. unfold withdrawal_GetByPaymentRef, gwrap, pg_row, pg_select, gbind, pg_exec. cbn.
  by destruct (find_row _ (withdrawals t)).
Qed.
Lemma alter_deposit_run id f t : alter_deposit id f (connection t) = (Ok tt, connection (with_deposits (alter f id (deposits t)) t)).
Proof.
  unfold alter_deposit, gbind, pg_update, pg_exec. cbn. case_bool_decide as Hid; cbn; [done|].
  apply eq_None_not_Some in Hid. rewrite alter_absent by done. by destruct t.
Qed.
Lemma alter_withdrawal_run id f t :
  alter_withdrawal (λ _, None) id f (connection t) = (Ok tt, connection (with_withdrawals (alter f id (withdrawals t)) t)).
Proof.
  unfold alter_withdrawal, gbind, pg_update, pg_exec. cbn. case_bool_decide as Hid; cbn; [done|].
  apply eq_None_not_Some in Hid. rewrite alter_absent by done. by destruct t.
Qed.

Lemma set_db_same w t : rw_db w = connection t -> w = set_db (connection t) w.
Proof. destruct w. cbn. by intros ->. Qed.
Lemma wp_db {X} (q : dbQ X) w (Q : result X -> rampworld -> Prop) :
  (let '(r, s) := run_query q (rw_db w) in Q r (set_db s w)) -> wp (run perform_ramp (db q)) w Q.
Proof. unfold wp. cbn. by destruct (run_query q (rw_db w)). Qed.
Lemma wp_ramp_now w (Q : result time -> rampworld -> Prop) : Q (Ok (rw_now (rw_redis w))) w -> wp (run perform_ramp time_Now) w Q.
Proof. by destruct w as [[]]. Qed.

Definition d_hears_payload (now : time) (p : Payload) (d : Deposit) : Deposit :=
  if decide (y_PaymentReference p = d_PaymentRef d) then d_step now p d else d.
Definition w_hears_payload (now : time) (p : Payload) (w : Withdrawal) : Withdrawal :=
  if decide (y_PaymentReference p = w_PaymentRef w) then w_step now p w else w.

Lemma reconcile_deposit_run p w t : rw_db w = connection t -> well_keyed t -> h_deposits h = true ->
  wp (run perform_ramp (reconcileDeposit h p)) w (λ r w', r = Ok tt /\
    w' = set_db (connection (with_deposits (d_hears_payload (rw_now (rw_redis w)) p <$> deposits t) t)) w).
Proof.
  intros Hdb Hk Hh. unfold reconcileDeposit. rewrite Hh. cbn [negb]. apply wp_ptry, wp_db. rewrite Hdb, query_get_deposit.
  rewrite <-(set_db_same w t Hdb). pose proof (find_row_spec (λ d, bool_decide (d_PaymentRef d = y_PaymentReference p)) (deposits t)) as Hf.
  destruct (find_row _ (deposits t)) as [d|].
  - destruct Hf as (id & Hid & Href). apply bool_decide_eq_true in Href. pose proof (wk_d t Hk id d Hid) as HID.
    assert (forall f, d_step (rw_now (rw_redis w)) p d = f d ->
      alter f (d_ID d) (deposits t) = d_hears_payload (rw_now (rw_redis w)) p <$> deposits t) as Hal.
    { intros f Hfd. rewrite HID. apply (alter_fmap f _ id d); [done| |].
      - unfold d_hears_payload. by rewrite decide_True.
      - intros j e Hj He. unfold d_hears_payload. rewrite decide_False; [done|]. intros Er. apply Hj.
        apply (wk_dref t Hk j id e d); [done..|congruence]. }
    assert (forall (q : dbQ unit) f Q, run_query q (connection t) = (Ok tt, connection (with_deposits (alter f (d_ID d) (deposits t)) t)) ->
      d_step (rw_now (rw_redis w)) p d = f d ->
      Q (Ok tt) (set_db (connection (with_deposits (d_hears_payload (rw_now (rw_redis w)) p <$> deposits t) t)) w) ->
      wp (run perform_ramp (pignore (db q))) w Q) as Hq.
    { intros q f Q Hrun Hfd HQ. apply wp_ptry, wp_db. rewrite Hdb, Hrun. by rewrite (Hal f Hfd). }
    unfold d_step in Hq. case_decide; [apply wp_pbind, wp_ramp_now|case_decide; [|case_decide; [|case_decide]]].
    1-4: eapply Hq; [cbn; unfold deposit_MarkCompleted, deposit_MarkFailed, deposit_UpdateStatus, gwrap;
                     rewrite alter_deposit_run; reflexivity|reflexivity|done].
    split; [done|]. rewrite <-(Hal (λ d, d)); [|unfold d_step; by rewrite !decide_False].
    rewrite alter_id; [|done]. rewrite (set_db_same w t Hdb) at 1. by destruct t.
  - split; [done|]. rewrite <-fmap_same; [|intros j b Hb; unfold d_hears_payload; rewrite decide_False; [done|]].
    + rewrite (set_db_same w t Hdb) at 1. by destruct t.
    + intros E. specialize (Hf j b Hb). apply bool_decide_eq_false in Hf. by symmetry in E.
Qed.

Lemma reconcile_withdrawal_run p w t : rw_db w = connection t -> well_keyed t -> h_withdrawals h = true ->
  wp (run perform_ramp (reconcileWithdrawal h p)) w (λ r w', r = Ok tt /\
    w' = set_db (connection (with_withdrawals (w_hears_payload (rw_now (rw_redis w)) p <$> withdrawals t) t)) w).
Proof.
  intros Hdb Hk Hh. unfold reconcileWithdrawal. rewrite Hh. cbn [negb]. apply wp_ptry, wp_db. rewrite Hdb, query_get_withdrawal.
  rewrite <-(set_db_same w t Hdb). pose proof (find_row_spec (λ d, bool_decide (w_PaymentRef d = y_PaymentReference p)) (withdrawals t)) as Hf.
  destruct (find_row _ (withdrawals t)) as [d|].
  - destruct Hf as (id & Hid & Href). apply bool_decide_eq_true in Href. pose proof (wk_w t Hk id d Hid) as HID.
    assert (forall f, w_step (rw_now (rw_redis w)) p d = f d ->
      alter f (w_ID d) (withdrawals t) = w_hears_payload (rw_now (rw_redis w)) p <$> withdrawals t) as Hal.
    { intros f Hfd. rewrite HID. apply (alter_fmap f _ id d); [done| |].
      - unfold w_hears_payload. by rewrite decide_True.
      - intros j e Hj He. unfold w_hears_payload. rewrite decide_False; [done|]. intros Er. apply Hj.
        apply (wk_wref t Hk j id e d); [done..|congruence]. }
    assert (forall (q : dbQ unit) f Q, run_query q (connection t) = (Ok tt, connection (with_withdrawals (alter f (w_ID d) (withdrawals t)) t)) ->
      w_step (rw_now (rw_redis w)) p d = f d ->
      Q (Ok tt) (set_db (connection (with_withdrawals (w_hears_payload (rw_now (rw_redis w)) p <$> withdrawals t) t)) w) ->
      wp (run perform_ramp (pignore (db q))) w Q) as Hq.
    { intros q f Q Hrun Hfd HQ. apply wp_ptry, wp_db. rewrite Hdb, Hrun. by rewrite (Hal f Hfd). }
    unfold w_step in Hq. case_decide; [apply wp_pbind, wp_ramp_now|case_decide; [|case_decide; [|case_decide]]].
    1-4: eapply Hq; [cbn; unfold withdrawal_MarkCompleted, withdrawal_MarkFailed, withdrawal_UpdateStatus, gwrap;
                     rewrite alter_withdrawal_run; reflexivity|reflexivity|done].
    split; [done|]. rewrite <-(Hal (λ d, d)); [|unfold w_step; by rewrite !decide_False].
    rewrite alter_id; [|done]. rewrite (set_db_same w t Hdb) at 1. by destruct t.
  - split; [done|]. rewrite <-fmap_same; [|intros j b Hb; unfold w_hears_payload; rewrite decide_False; [done|]].
    + rewrite (set_db_same w t Hdb) at 1. by destruct t.
    + intros E. specialize (Hf j b Hb). apply bool_decide_eq_false in Hf. by symmetry in E.
Qed.

Lemma d_step_keeps now p d : d_ID (d_step now p d) = d_ID d /\ d_PaymentRef (d_step now p d) = d_PaymentRef d.
Proof. unfold d_step. by repeat case_decide. Qed.
Lemma w_step_keeps now p w : w_ID (w_step now p w) = w_ID w /\ w_PaymentRef (w_step now p w) = w_PaymentRef w.
Proof. unfold w_step. by repeat case_decide. Qed.
Lemma d_hears_keeps d n : d_ID (d_hears d n) = d_ID d /\ d_PaymentRef (d_hears d n) = d_PaymentRef d.
Proof. unfold d_hears. destruct (heard n); [|done]. case_decide; [apply d_step_keeps|done]. Qed.
Lemma w_hears_keeps w n : w_ID (w_hears w n) = w_ID w /\ w_PaymentRef (w_hears w n) = w_PaymentRef w.
Proof. unfold w_hears. destruct (heard n); [|done]. case_decide; [apply w_step_keeps|done]. Qed.
Definition hear (t : tables) (n : notification) : tables :=
  {| deposits := (λ d, d_hears d n) <$> deposits t; withdrawals := (λ w, w_hears w n) <$> withdrawals t |}.
Lemma hear_keyed t n : well_keyed t -> well_keyed (hear t n).
Proof.
  intros [H1 H2 H3 H4]. split; cbn.
  - intros id d Hd. apply lookup_fmap_Some in Hd as (b & <- & Hb). rewrite (proj1 (d_hears_keeps b n)). by apply H1.
  - intros id d Hd. apply lookup_fmap_Some in Hd as (b & <- & Hb). rewrite (proj1 (w_hears_keeps b n)). by apply H2.
  - intros i j d e Hd He. apply lookup_fmap_Some in Hd as (b & <- & Hb). apply lookup_fmap_Some in He as (c & <- & Hc).
    rewrite (proj2 (d_hears_keeps b n)), (proj2 (d_hears_keeps c n)). by eapply H3.
  - intros i j d e Hd He. apply lookup_fmap_Some in Hd as (b & <- & Hb). apply lookup_fmap_Some in He as (c & <- & Hc).
    rewrite (proj2 (w_hears_keeps b n)), (proj2 (w_hears_keeps c n)). by eapply H4.
Qed.

Lemma HandleWebhook_heard n : exists code, HandleWebhook h secret (nt_body n) (nt_signature n) =
  match heard n with
  | None => pret code
  | Some p => do* (if decide (y_Type p = "receive")%string then reconcileDeposit h p
                   else if decide (y_Type p = "send")%string then reconcileWithdrawal h p else pret tt) in pret code
  end.
Proof.
  unfold HandleWebhook, heard. destruct (_ || _); [by eexists|]. destruct (payload_Unmarshal (nt_body n)) as [p|]; [|by eexists].
  case_decide; by eexists.
Qed.
Lemma deliver_run n w t : rw_db w = connection t -> well_keyed t -> h_deposits h = true -> h_withdrawals h = true ->
  rw_db (deliver n w) = connection (hear t n).
Proof.
  intros Hdb Hk Hd Hw. unfold deliver. set (w1 := at_time (nt_at n) w). assert (rw_db w1 = connection t) as Hdb1 by done.
  assert (wp (run perform_ramp (HandleWebhook h secret (nt_body n) (nt_signature n))) w1
    (λ _ w', rw_db w' = connection (hear t n))) as Hrun; [|exact Hrun].
  destruct (HandleWebhook_heard n) as [code ->]. destruct (heard n) as [p|] eqn:Eh.
  - apply wp_pbind. case_decide as Hrecv; [|case_decide as Hsend].
    + eapply wp_mono; [by apply reconcile_deposit_run|]. intros r w' [-> ->]. cbn [rw_db set_db]. unfold hear, with_deposits. apply (f_equal connection), (f_equal2 Build_tables).
      * apply map_fmap_ext. intros id d _. unfold d_hears. rewrite Eh. unfold d_hears_payload.
        apply decide_ext. tauto.
      * apply fmap_same. intros id d _. unfold w_hears. rewrite Eh, decide_False; [done|]. intros [E _]. by rewrite Hrecv in E.
    + eapply wp_mono; [by apply reconcile_withdrawal_run|]. intros r w' [-> ->]. cbn [rw_db set_db]. unfold hear, with_withdrawals. apply (f_equal connection), (f_equal2 Build_tables).
      * apply fmap_same. intros id d _. unfold d_hears. rewrite Eh, decide_False; [done|]. by intros [E _].
      * apply map_fmap_ext. intros id d _. unfold w_hears. rewrite Eh. unfold w_hears_payload.
        apply decide_ext. tauto.
    + change (rw_db w1 = connection (hear t n)). rewrite Hdb1. apply (f_equal connection). unfold hear. destruct t as [ds ws]. cbn. apply (f_equal2 Build_tables); apply fmap_same; intros id d _.
      * unfold d_hears. rewrite Eh, decide_False; [done|]. by intros [E _].
      * unfold w_hears. rewrite Eh, decide_False; [done|]. by intros [E _].
  - change (rw_db w1 = connection (hear t n)). rewrite Hdb1. apply (f_equal connection). unfold hear. destruct t as [ds ws]. cbn. apply (f_equal2 Build_tables); apply fmap_same; intros id d _.
    + unfold d_hears. by rewrite Eh.
    + unfold w_hears. by rewrite Eh.
Qed.

(** Notifications that come one after the other over a database that answers: no row
    appears or goes, and each row is what the signed notifications that name its
    reference make of it in their order, the last recognized status included; whoever
    else sends anything changes nothing. *)
Theorem notifications_fold ns w t : rw_db w = connection t -> well_keyed t -> h_deposits h = true -> h_withdrawals h = true ->
  rw_db (deliver_all ns w) = connection
    {| deposits := (λ d, fold_left d_hears ns d) <$> deposits t; withdrawals := (λ w, fold_left w_hears ns w) <$> withdrawals t |}.
Proof.
  intros Hdb Hk Hd Hw. revert w t Hdb Hk. induction ns as [|n ns IH]; intros w t Hdb Hk.
  - cbn [deliver_all fold_left]. rewrite Hdb, !map_fmap_id. by destruct t.
  - change (deliver_all (n :: ns) w) with (deliver_all ns (deliver n w)).
    rewrite (IH (deliver n w) (hear t n)); [|by apply deliver_run|by apply hear_keyed].
    apply (f_equal connection). cbn. by rewrite <-!map_fmap_compose.
Qed.
End notified.
End rampprops.

(** * Fiat deposits and withdrawals over concrete libraries: the witnesses of their
    theorems, and the runs in which a request or a row is lost or goes back. *)
Module rampdemo.
Import redis ramp rampprops.

#[local] Instance demo_columns : ColumnLib := { numeric_column _ f := Some f }.
#[local] Instance demo_ramp : RampLib := {
  strings_ToUpper := id; Format_date _ := "2026-07-01"%string; Parse_RFC3339 _ := None;
  ParseFloat s := match ParseInt s with inl n => f64_of_Z n | inr e => f64_zero end;
  redis_add old f := inl (fmt_d (match old with Some s => match ParseInt s with inl n => n | inr _ => 0 end | None => 0 end + f64_trunc f));
  respData_Marshal _ := inl "data"%string; respData_Unmarshal _ := None;
}.
(** A body is its three fields between bars; its signature is its own text. *)
#[local] Instance demo_hmac : webhook.HMAC := { webhook.hmac_sha256 key message := message; webhook.sha256_Sum256 s := s }.
#[local] Instance demo_webhook : WebhookLib := {
  strings_ToLower := id;
  payload_Unmarshal body :=
    match str_split "|" body with
    | [ty; st; ref] => Some {| y_Type := ty; y_Status := st; y_PaymentReference := ref; y_FailureReason := "" |}
    | _ => None
    end;
}.
Definition demo_handler : DepositHandler :=
  {| h_rdb := true; h_deposits := true; h_withdrawals := true; h_kyc_required := false; h_StellarAddress := "GYC";
     h_cfg := {| MaxDepositNGN := f64_of_Z 90; MaxWithdrawUSDC := f64_zero; DailyDepositCapNGN := f64_of_Z 100;
                 DailyWithdrawCapUSDC := f64_zero; CurrencyCaps_ := ∅ |} |}.
Definition demo_quote : Quote :=
  {| q_QuoteID := "Q"; q_FromCurrency := "NGN"; q_ToCurrency := "USDC"; q_FromAmount := f64_of_Z 80; q_ToAmount := f64_of_Z 2;
     q_Rate := f64_of_Z 1; q_Fee := f64_zero; q_FeePercentage := f64_zero; q_ExpiresAt := ""; q_FetchedAt := 0 |}.
Definition receipt (id : string) : ReceiveResponse + error := inl {| rp_ReceiveID := id; rp_BankDetails := ""; rp_ExpiresAt := "" |}.
Definition start_world (net : list (duration * option fault)) : rampworld :=
  {| rw_redis := {| rw_now := unix_epoch * second; rw_keys := ∅; rw_net := net; rw_rand := [] |};
     rw_db := connection {| deposits := ∅; withdrawals := ∅ |};
     rw_wallets := {["ada"%string := ["GADA"%string]; "obi"%string := ["GOBI"%string]]}; rw_cache := ∅;
     rw_uuids := ["d1"; "d2"; "d3"]%string; rw_quotes := [inl demo_quote; inl demo_quote; inl demo_quote];
     rw_receives := [receipt "r1"; receipt "r2"; receipt "r3"]; rw_sends := [inl {| sp_SendID := "s1"; sp_Status := "pending" |}];
     rw_accepted := []; rw_sent := [] |}.
Definition deposit_80 (user : string) : call :=
  CDeposit user {| dq_AmountNGN := f64_of_Z 80; dq_Currency := ""; dq_IdempotencyKey := "" |} "" "".
Definition rows (c : rampworld * pool (E := rampE) (L := call)) : list (string * DepositStatus) :=
  (λ x, (d_PaymentRef x.2, d_Status x.2)) <$> map_to_list (deposits (pg_tables (rw_db c.1))).
Definition go (turns : list (turn (L := call) (W := rampworld))) (w : rampworld) : rampworld * pool (E := rampE) (L := call) :=
  schedule perform_ramp (start demo_handler "key") turns (w, []).
Definition one_deposit : list (turn (L := call) (W := rampworld)) := Start (deposit_80 "ada") :: replicate 20 (Run 0).

Lemma rows_were_accepted_witness :
  rows (go one_deposit (start_world [])) = [("MOIST-0"%string, DepositStatusPending)] /\
  (forall id d, deposits (pg_tables (rw_db (go one_deposit (start_world [])).1)) !! id = Some d ->
    exists rp, rp ∈ rw_accepted (go one_deposit (start_world [])).1 /\ deposit_of rp d /\ receive_ok demo_handler rp.1).
Proof.
  split; [vm_compute; reflexivity|].
  refine (proj1 (rows_were_accepted demo_handler "key" (start_world []) (go one_deposit (start_world [])) eq_refl eq_refl eq_refl eq_refl _)).
  apply (schedule_steps_closed perform_ramp (start demo_handler "key") _ one_deposit). reflexivity.
Defined.

(** *** Notifications *)
Definition notice (at_ : time) (body : string) : notification := {| nt_at := at_; nt_body := body; nt_signature := webhook.SignWebhookPayload body "key" |}.
Definition forged (at_ : time) (body : string) : notification := {| nt_at := at_; nt_body := body; nt_signature := "" |}.
Definition a_deposit : Deposit :=
  {| d_ID := "d1"; d_UserID := "ada"; d_AmountNGN := f64_of_Z 80; d_EstimatedUSDC := f64_of_Z 2; d_DestinationAddress := "GADA";
     d_Status := DepositStatusPending; d_ReceiveID := "r1"; d_PaymentRef := "MOIST-0"; d_CreatedAt := 0; d_CompletedAt := None;
     d_ExpiresAt := None; d_FailureReason := None |}.
Definition one_row : tables := {| deposits := {["d1"%string := a_deposit]}; withdrawals := ∅ |}.
Lemma one_row_keyed : well_keyed one_row.
Proof.
  split; cbn.
  - intros id d Hd. by apply lookup_singleton_Some in Hd as [<- <-].
  - intros id w Hw. by rewrite lookup_empty in Hw.
  - intros i j d e Hd He _. apply lookup_singleton_Some in Hd as [<- _]. by apply lookup_singleton_Some in He as [<- _].
  - intros i j d e Hd. by rewrite lookup_empty in Hd.
Qed.
Definition row_world : rampworld := set_db (connection one_row) (start_world []).
Definition notices : list notification :=
  [notice 5 "receive|completed|MOIST-0"; notice 6 "receive|failed|MOIST-9"; forged 7 "receive|failed|MOIST-0"].
Definition statuses (w : rampworld) : list DepositStatus := (λ x, d_Status x.2) <$> map_to_list (deposits (pg_tables (rw_db w))).

Lemma notifications_fold_witness :
  rw_db (deliver_all demo_handler "key" notices row_world) = connection
    {| deposits := (λ d, fold_left (d_hears "key") notices d) <$> deposits one_row;
       withdrawals := (λ w, fold_left (w_hears "key") notices w) <$> withdrawals one_row |} /\
  statuses (deliver_all demo_handler "key" notices row_world) = [DepositStatusCompleted].
Proof.
  split; [|vm_compute; reflexivity].
  apply (notifications_fold demo_handler "key" notices row_world one_row eq_refl one_row_keyed eq_refl eq_refl).
Defined.

(** ** What the runs show *)

(** A deposit that completed is pending again after a notification that comes late. *)
Lemma completed_goes_back :
  statuses (deliver_all demo_handler "key" [notice 5 "receive|completed|MOIST-0"; notice 9 "receive|pending|MOIST-0"] row_world)
  = [DepositStatusPending].
Proof. vm_compute. reflexivity. Qed.

(** Two deposits in the same millisecond have the same reference: the provider takes both
    and the second has no row, and its caller an error. *)
Definition two_deposits : list (turn (L := call) (W := rampworld)) :=
  Start (deposit_80 "ada") :: replicate 20 (Run 0) ++ Start (deposit_80 "obi") :: replicate 20 (Run 1).
Lemma same_millisecond_lost :
  length (rw_accepted (go two_deposits (start_world [])).1) = 2%nat /\
  rows (go two_deposits (start_world [])) = [("MOIST-0"%string, DepositStatusPending)].
Proof. vm_compute. split; reflexivity. Qed.

(** The total of the day is read before the provider is asked and raised after: two
    deposits of 80 that overlap are both accepted under a cap of 100 a day. *)
Definition overlapping : list (turn (L := call) (W := rampworld)) :=
  Start (deposit_80 "ada") :: Start (deposit_80 "ada") :: replicate 2 (Run 0) ++ replicate 2 (Run 1) ++ replicate 20 (Run 0) ++ replicate 20 (Run 1).
Definition one_after_the_other : list (turn (L := call) (W := rampworld)) :=
  Start (deposit_80 "ada") :: replicate 20 (Run 0) ++ Start (deposit_80 "ada") :: replicate 20 (Run 1).
Lemma daily_cap_race :
  length (rw_accepted (go overlapping (start_world [])).1) = 2%nat /\
  length (rw_accepted (go one_after_the_other (start_world [])).1) = 1%nat.
Proof. vm_compute. split; reflexivity. Qed.

(** A withdrawal whose payment is notified before its identifier is written: the write
    puts it back to converting. *)
Definition withdraw_2 : call :=
  CWithdraw "ada" {| wq_AmountUSDC := f64_of_Z 2; wq_Currency := ""; wq_BankCode := "b"; wq_AccountNumber := "1"; wq_AccountName := "a";
                     wq_IdempotencyKey := "" |} "" "".
Definition wstatuses (c : rampworld * pool (E := rampE) (L := call)) : list (WithdrawalStatus * bool) :=
  (λ x, (w_Status x.2, bool_decide (is_Some (w_CompletedAt x.2)))) <$> map_to_list (withdrawals (pg_tables (rw_db c.1))).
Definition paid_between (k : nat) : list (turn (L := call) (W := rampworld)) :=
  Start withdraw_2 :: replicate k (Run 0) ++ Start (CWebhook "send|completed|MOIST-0" (webhook.SignWebhookPayload "send|completed|MOIST-0" "key")) :: replicate 10 (Run 1) ++ replicate 20 (Run 0).
Lemma late_identifier :
  wstatuses (go (paid_between 13) (start_world [])) = [(WithdrawalStatusConverting, true)] /\
  wstatuses (go (paid_between 14) (start_world [])) = [(WithdrawalStatusCompleted, true)].
Proof. vm_compute. split; reflexivity. Qed.
End rampdemo.
