(* ===== verification/MobileMoney.v ===== *)
(** The mobile money bridge: the table of transactions, the providers and the service
    (src/internal/domain/mobilemoney) and its handlers
    (src/internal/api/handler/mobilemoney_handler.go).  A request is a program of atomic
    actions on the database, the HTTP API of a provider and the token kept for it. *)
From S2P Require Export Redis Postgres GoStrings GoFloat.
From stdpp Require Import options.
#[local] Set Default Proof Using "Type*".
Open Scope Z_scope.
Local Open Scope go_scope.

Module mobilemoney.

(** ** Data *)
Inductive Direction := DirectionOnramp | DirectionOfframp.
Inductive Status := StatusPending | StatusCompleted | StatusFailed.
#[export] Instance Direction_eq_dec : EqDecision Direction.
Proof. solve_decision. Defined.
#[export] Instance Status_eq_dec : EqDecision Status.
Proof. solve_decision. Defined.
Record Transaction := {
  t_ID : string; t_UserID : string; t_Provider : string; t_Direction : Direction; t_Currency : string;
  t_Amount : float64; t_USDCAmount : float64; t_PhoneNumber : string; t_DestinationAddress : string;
  t_Status : Status; t_ProviderRef : string; t_IdempotencyKey : string; t_FailureReason : option string;
  t_CreatedAt : time; t_CompletedAt : option time;
}.
Definition settled (st : Status) (reason : option string) (completedAt : option time) (t : Transaction) : Transaction :=
  {| t_ID := t_ID t; t_UserID := t_UserID t; t_Provider := t_Provider t; t_Direction := t_Direction t;
     t_Currency := t_Currency t; t_Amount := t_Amount t; t_USDCAmount := t_USDCAmount t; t_PhoneNumber := t_PhoneNumber t;
     t_DestinationAddress := t_DestinationAddress t; t_Status := st; t_ProviderRef := t_ProviderRef t;
     t_IdempotencyKey := t_IdempotencyKey t; t_FailureReason := reason; t_CreatedAt := t_CreatedAt t;
     t_CompletedAt := completedAt |}.
Record OnrampRequest := { on_Amount : float64; on_Currency : string; on_PhoneNumber : string; on_DestinationAddress : string; on_Reference : string }.
Record OfframpRequest := { off_Amount : float64; off_Currency : string; off_PhoneNumber : string; off_AccountName : string; off_Reference : string }.
(** [OnrampResult] and [OfframpResult] *)
Record RampResult := { rr_ProviderRef : string; rr_Status : Status }.
Record StatusResult := { st_ProviderRef : string; st_Status : Status; st_FailureReason : string }.

(** ** The table, rows under their identifiers *)
Abbreviation table := (gmap string Transaction) (only parsing).
(** [numeric_column f] is what a NUMERIC(20, 7) column keeps of [f] and gives back;
    [None] when it is out of its range; [is_uuid s] is what a UUID column accepts. *)
Class ColumnLib := { numeric_column : float64 -> option float64; is_uuid : string -> bool }.

Section repository.
Context `{ColumnLib}.
Abbreviation DB := (M (PgState table)) (only parsing).
Definition has_key (userID key : string) (t : Transaction) : bool :=
  bool_decide (t_UserID t = userID /\ t_IdempotencyKey t = key).
Definition find_key (userID key : string) (t : table) : option Transaction := find_row (has_key userID key) t.
Definition create_conflict (r : Transaction) (t : table) : option string :=
  if bool_decide (numeric_column (t_Amount r) = None \/ numeric_column (t_USDCAmount r) = None) then Some "22003"%string
  else if bool_decide (is_Some (t !! t_ID r)) || existsb (has_key (t_UserID r) (t_IdempotencyKey r)) (map_to_list t).*2
  then Some "23505"%string else None.
Definition stored (r : Transaction) : Transaction :=
  {| t_ID := t_ID r; t_UserID := t_UserID r; t_Provider := t_Provider r; t_Direction := t_Direction r;
     t_Currency := t_Currency r; t_Amount := default f64_zero (numeric_column (t_Amount r));
     t_USDCAmount := default f64_zero (numeric_column (t_USDCAmount r)); t_PhoneNumber := t_PhoneNumber r;
     t_DestinationAddress := t_DestinationAddress r; t_Status := t_Status r; t_ProviderRef := t_ProviderRef r;
     t_IdempotencyKey := t_IdempotencyKey r; t_FailureReason := None; t_CreatedAt := t_CreatedAt r; t_CompletedAt := None |}.
Definition repo_Create (r : Transaction) : DB unit :=
  gwrap "creating mobile money transaction: %w" (pg_insert (create_conflict r) (<[t_ID r := stored r]>)).
Definition repo_GetByID (id : string) : DB Transaction :=
  let! r := gwrap "getting mobile money transaction: %w"
              (pg_exec (λ t, if is_uuid id then inl (t !! id, t) else inr "22P02"%string)) in
  match r with Some x => gret x | None => gfail apperrors_ErrNotFound end.
Definition repo_GetByIdempotencyKey (userID key : string) : DB (option Transaction) :=
  gwrap "getting mobile money transaction by idempotency key: %w" (pg_select (find_key userID key)).
Definition repo_UpdateStatus (id : string) (st : Status) (reason : option string) (completedAt : option time) : DB unit :=
  gwrap "updating mobile money transaction status: %w"
    (let! _ := pg_update (λ _, None) (λ t, bool_decide (is_Some (t !! id))) (alter (settled st reason completedAt) id) in gret tt).
Definition oldest (a b : Transaction) : Prop := t_CreatedAt a <= t_CreatedAt b.
#[export] Instance oldest_dec : RelDecision oldest.
Proof. intros a b. unfold oldest. apply _. Defined.
Definition awaiting (now : time) (olderThanSeconds : Z) (t : Transaction) : Prop :=
  t_Status t = StatusPending /\ t_CreatedAt t <= now - olderThanSeconds * second.
#[export] Instance awaiting_dec now secs t : Decision (awaiting now secs t).
Proof. unfold awaiting. apply _. Defined.
Definition repo_ListPending (now : time) (olderThanSeconds : Z) : DB (list Transaction) :=
  gwrap "listing pending mobile money transactions: %w"
    (pg_select (λ t, merge_sort oldest (filter (awaiting now olderThanSeconds) (map_to_list t).*2))).
End repository.

(** ** Actions *)
Inductive dbQ : Type -> Type :=
  | QCreate (r : Transaction) : dbQ unit
  | QGetByID (id : string) : dbQ Transaction
  | QGetByIdempotencyKey (userID key : string) : dbQ (option Transaction)
  | QUpdateStatus (id : string) (st : Status) (reason : option string) (completedAt : option time) : dbQ unit
  | QListPending (olderThanSeconds : Z) : dbQ (list Transaction).
Definition run_query `{ColumnLib} {X} (now : time) (q : dbQ X) : M (PgState table) X :=
  match q in dbQ X return M (PgState table) X with
  | QCreate r => repo_Create r
  | QGetByID id => repo_GetByID id
  | QGetByIdempotencyKey u k => repo_GetByIdempotencyKey u k
  | QUpdateStatus id st reason at_ => repo_UpdateStatus id st reason at_
  | QListPending secs => repo_ListPending now secs
  end.
(** What is sent to the API of M-Pesa, its constant fields and its credentials left out,
    and what comes back: no answer, one whose body cannot be read, a status and a body. *)
Inductive mpesa_call :=
  | OAuth
  | STKPush (token : string) (amount : Z) (phone reference timestamp : string)
  | B2C (token : string) (amount : Z) (phone reference : string)
  | STKQuery (token : string) (checkoutRequestID timestamp : string).
Inductive http_reply := NoAnswer (e : error) | BrokenBody (status : Z) (e : error) | Answer (status : Z) (body : string).
Inductive mmE : Type -> Type :=
  | DB {X : Type} (q : dbQ X) : mmE X
  | Do (c : mpesa_call) : mmE http_reply
  | GetToken : mmE (string * time)
  | SetToken (token : string) (expiry : time) : mmE unit
  | GetWallets (userID : string) : mmE (list string)     (** their public keys *)
  | NewUUID : mmE string
  | Now : mmE time
  | Acquire : mmE bool                                   (** the lock of the reconciliation *)
  | Release : mmE unit.
Abbreviation io := (prog mmE).
Definition db {X} (q : dbQ X) : io X := act (DB q).

(** ** Providers *)
Inductive provider := MPesa | MTN (targetCurrency : string) | Airtel (targetCurrency : string).
Definition Name (p : provider) : string :=
  match p with MPesa => "mpesa" | MTN _ => "mtn" | Airtel _ => "airtel" end.
Definition Currency (p : provider) : string :=
  match p with MPesa => "KES" | MTN c | Airtel c => c end.
Record Quote := { q_FromCurrency : string; q_ToCurrency : string; q_FromAmount : float64; q_ToAmount : float64; q_Rate : float64 }.
(** The three providers give the same placeholder. *)
Definition provider_Quote (toCurrency : string) (usdcAmount : float64) : Quote :=
  {| q_FromCurrency := "USDC"; q_ToCurrency := toCurrency; q_FromAmount := usdcAmount; q_ToAmount := usdcAmount; q_Rate := f64_of_Z 1 |}.

Class MPesaLib := {
  Format_timestamp : time -> string;                             (** [Format("20060102150405")] *)
  oauth_Unmarshal : string -> option (string * string);          (** access_token, expires_in *)
  stk_Unmarshal : string -> option (string * string);            (** CheckoutRequestID, ResponseCode *)
  b2c_Unmarshal : string -> option (string * string);            (** ConversationID, ResponseCode *)
  query_Unmarshal : string -> option (string * string);          (** ResultCode, ResultDesc *)
}.

Section service.
Context `{GoFloatConv} `{MPesaLib}.

(** *** mpesa.go *)
Definition time_Now : io time := act Now.
(** The body of an answer, its status looked at.  The request is built from a base URL
    that parses and cannot fail. *)
Definition read_body (executing reading status_error : string) (c : mpesa_call) : io string :=
  ptry (act (Do c)) (λ r,
    match r with
    | inr e => pfail (Wrapf executing e)
    | inl (NoAnswer e) => pfail (Wrapf executing e)
    | inl (BrokenBody _ e) => pfail (Wrapf reading e)
    | inl (Answer status body) => if 400 <=? status then pfail (Errorf status_error) else pret body
    end).
Definition token_life (expires_in : string) : Z :=
  match ParseInt expires_in with inl n => if n <=? 0 then 3600 else n | inr _ => 3600 end.
(** The mutex of the provider is held over the look at the token, the request and the
    store; here they are three actions, which allows more runs. *)
Definition accessToken : io string :=
  let* kept := act GetToken in
  let* fresh := (if bool_decide (kept.1 = ""%string) then pret false
                 else let* now := time_Now in pret (time_Before now kept.2)) in
  if fresh : bool then pret kept.1
  else
    let* body := read_body "requesting oauth token: %w" "reading oauth response: %w"
                   "mpesa oauth error (status %d): %s" OAuth in
    match oauth_Unmarshal body with
    | None => pfail (Wrapf "parsing oauth response: %w" (External "json"))
    | Some (token, expires_in) =>
        let* now := time_Now in
        do* act (SetToken token (time_Add now (wrap64 (wrap64 (token_life expires_in * second) - 60 * second)))) in
        pret token
    end.
Definition doRequest {A} (c : string -> mpesa_call) (Unmarshal : string -> option A) : io A :=
  let* token := accessToken in
  let* body := read_body "executing request: %w" "reading response: %w"
                 "mpesa API error (status %d): %s" (c token) in
  match Unmarshal body with
  | Some a => pret a
  | None => pfail (Wrapf "parsing response: %w" (External "json"))
  end.
Definition mpesa_InitiateOnramp (req : OnrampRequest) : io RampResult :=
  let* now := time_Now in
  let* result := doRequest (λ token, STKPush token (f64_to_int64 (on_Amount req)) (on_PhoneNumber req) (on_Reference req) (Format_timestamp now))
                   stk_Unmarshal in
  if bool_decide (result.2 <> "0"%string) then pfail (Errorf "stk push rejected: %s")
  else pret {| rr_ProviderRef := result.1; rr_Status := StatusPending |}.
Definition mpesa_InitiateOfframp (req : OfframpRequest) : io RampResult :=
  let* result := doRequest (λ token, B2C token (f64_to_int64 (off_Amount req)) (off_PhoneNumber req) (off_Reference req)) b2c_Unmarshal in
  if bool_decide (result.2 <> "0"%string) then pfail (Errorf "b2c payment rejected: %s")
  else pret {| rr_ProviderRef := result.1; rr_Status := StatusPending |}.
Definition status_of_code (providerRef code desc : string) : StatusResult :=
  if decide (code = "0")%string then {| st_ProviderRef := providerRef; st_Status := StatusCompleted; st_FailureReason := "" |}
  else if decide (code = "1032")%string then {| st_ProviderRef := providerRef; st_Status := StatusFailed; st_FailureReason := desc |}
  else if decide (code = "")%string then {| st_ProviderRef := providerRef; st_Status := StatusPending; st_FailureReason := "" |}
  else {| st_ProviderRef := providerRef; st_Status := StatusFailed; st_FailureReason := desc |}.
Definition mpesa_GetStatus (providerRef : string) : io StatusResult :=
  let* now := time_Now in
  ptry (doRequest (λ token, STKQuery token providerRef (Format_timestamp now)) query_Unmarshal) (λ r,
    match r with
    | inr _ => pret {| st_ProviderRef := providerRef; st_Status := StatusPending; st_FailureReason := "" |}
    | inl (code, desc) => pret (status_of_code providerRef code desc)
    end).

(** *** The interface: MTN and Airtel refuse every request *)
Definition provider_InitiateOnramp (p : provider) (req : OnrampRequest) : io RampResult :=
  match p with
  | MPesa => mpesa_InitiateOnramp req
  | MTN _ => pfail (Errorf "mtn momo integration not yet implemented — requires a provisioned MoMo Collections subscription to build and test against")
  | Airtel _ => pfail (Errorf "airtel money integration not yet implemented — requires a provisioned Airtel Open API partner account to build and test against")
  end.
Definition provider_InitiateOfframp (p : provider) (req : OfframpRequest) : io RampResult :=
  match p with
  | MPesa => mpesa_InitiateOfframp req
  | MTN _ => pfail (Errorf "mtn momo integration not yet implemented — requires a provisioned MoMo Disbursements subscription to build and test against")
  | Airtel _ => pfail (Errorf "airtel money integration not yet implemented — requires a provisioned Airtel Open API partner account to build and test against")
  end.
Definition provider_GetStatus (p : provider) (providerRef : string) : io StatusResult :=
  match p with
  | MPesa => mpesa_GetStatus providerRef
  | MTN _ | Airtel _ => pret {| st_ProviderRef := providerRef; st_Status := StatusPending; st_FailureReason := "" |}
  end.

(** *** registry.go, and its start in cmd/api-server/main.go *)
Abbreviation Registry := (gmap string provider) (only parsing).
Definition Register (p : provider) (r : Registry) : Registry := <[Currency p := p]> r.
Definition For (r : Registry) (currency : string) : io provider :=
  match r !! currency with
  | Some p => pret p
  | None => pfail (Errorf "no mobile money provider configured for currency %q")
  end.
(** The order of the three lists is that of a range over a map, which Go leaves open. *)
Definition SupportedCurrencies (r : Registry) : list string := (map_to_list r).*1.
Definition Providers (r : Registry) : list (string * string) := (λ p, (Name p, Currency p)) <$> (map_to_list r).*2.
Definition ActiveProviderNames (r : Registry) : list string :=
  foldl (λ names p, if decide (Name p ∈ names) then names else names ++ [Name p]) [] (map_to_list r).*2.
Record MobileMoneyConfig := {
  MPesaConsumerKey : string; MTNSubscriptionKey : string; MTNTargetCurrency : string;
  AirtelClientID : string; AirtelTargetCurrency : string;
}.
Definition register_if (credential : string) (p : provider) (r : Registry) : Registry :=
  if decide (credential = "")%string then r else Register p r.
Definition mmRegistry (cfg : MobileMoneyConfig) : Registry :=
  register_if (AirtelClientID cfg) (Airtel (AirtelTargetCurrency cfg))
    (register_if (MTNSubscriptionKey cfg) (MTN (MTNTargetCurrency cfg))
       (register_if (MPesaConsumerKey cfg) MPesa ∅)).

(** *** service.go *)
Variables (registry : option (gmap string provider)).
Definition ListProviders : list (string * string) := match registry with None => [] | Some r => Providers r end.
Definition GetSupportedCurrencies : list string := match registry with None => [] | Some r => SupportedCurrencies r end.
Definition registry_For (currency : string) : io provider := let* r := pderef registry in For r currency.

Definition new_onramp (id userID key : string) (p : provider) (req : OnrampRequest) (res : RampResult) (now : time) : Transaction :=
  {| t_ID := id; t_UserID := userID; t_Provider := Name p; t_Direction := DirectionOnramp; t_Currency := on_Currency req;
     t_Amount := on_Amount req; t_USDCAmount := f64_zero; t_PhoneNumber := on_PhoneNumber req;
     t_DestinationAddress := on_DestinationAddress req; t_Status := rr_Status res; t_ProviderRef := rr_ProviderRef res;
     t_IdempotencyKey := key; t_FailureReason := None; t_CreatedAt := now; t_CompletedAt := None |}.
Definition new_offramp (id userID key : string) (p : provider) (req : OfframpRequest) (res : RampResult) (now : time) : Transaction :=
  {| t_ID := id; t_UserID := userID; t_Provider := Name p; t_Direction := DirectionOfframp; t_Currency := off_Currency req;
     t_Amount := off_Amount req; t_USDCAmount := f64_zero; t_PhoneNumber := off_PhoneNumber req;
     t_DestinationAddress := ""; t_Status := rr_Status res; t_ProviderRef := rr_ProviderRef res;
     t_IdempotencyKey := key; t_FailureReason := None; t_CreatedAt := now; t_CompletedAt := None |}.
Definition persist (format : string) (txn : string -> time -> Transaction) : io Transaction :=
  let* id := act NewUUID in
  let* now := time_Now in
  do* pwrap format (db (QCreate (txn id now))) in
  pret (txn id now).
Definition InitiateOnramp (userID : string) (req : OnrampRequest) (key : string) : io Transaction :=
  do* pguard (bool_decide (key = ""%string)) (Errorf "idempotency key is required") in
  let* existing := db (QGetByIdempotencyKey userID key) in
  match existing with
  | Some t => pret t
  | None =>
      let* p := registry_For (on_Currency req) in
      let* result := pwrap "initiating on-ramp with %s: %w" (provider_InitiateOnramp p req) in
      persist "persisting mobile money on-ramp after %s accepted it (providerRef=%s): %w" (λ id now, new_onramp id userID key p req result now)
  end.
Definition InitiateOfframp (userID : string) (req : OfframpRequest) (key : string) : io Transaction :=
  do* pguard (bool_decide (key = ""%string)) (Errorf "idempotency key is required") in
  let* existing := db (QGetByIdempotencyKey userID key) in
  match existing with
  | Some t => pret t
  | None =>
      let* p := registry_For (off_Currency req) in
      let* result := pwrap "initiating off-ramp with %s: %w" (provider_InitiateOfframp p req) in
      persist "persisting mobile money off-ramp after %s accepted it (providerRef=%s): %w" (λ id now, new_offramp id userID key p req result now)
  end.
Definition GetTransaction (id : string) : io Transaction := db (QGetByID id).

Definition reconcileMinAge : duration := 30 * second.
(** [UpdateStatus] reads the clock for a status that ends the transaction. *)
Definition UpdateStatus (id : string) (st : Status) (reason : option string) : io unit :=
  if decide (st = StatusPending) then db (QUpdateStatus id st reason None)
  else let* now := time_Now in db (QUpdateStatus id st reason (Some now)).
Definition reason_of (r : StatusResult) : option string :=
  if decide (st_FailureReason r = "")%string then None else Some (st_FailureReason r).
Fixpoint reconcile_loop (pending : list Transaction) (reconciled : Z) : io Z :=
  match pending with
  | [] => pret reconciled
  | txn :: pending =>
      ptry (registry_For (t_Currency txn)) (λ p,
        match p with
        | inr _ => reconcile_loop pending reconciled
        | inl p =>
            ptry (provider_GetStatus p (t_ProviderRef txn)) (λ r,
              match r with
              | inr _ => reconcile_loop pending reconciled
              | inl result =>
                  if decide (st_Status result = StatusPending) then reconcile_loop pending reconciled
                  else ptry (UpdateStatus (t_ID txn) (st_Status result) (reason_of result)) (λ u,
                    match u with
                    | inr _ => reconcile_loop pending reconciled
                    | inl _ => reconcile_loop pending (wrap64 (reconciled + 1))
                    end)
              end)
        end)
  end.
Definition Reconcile : io Z :=
  ptry (db (QListPending (reconcileMinAge / second))) (λ r,
    match r with
    | inr err => pfail (Wrapf "listing pending mobile money transactions: %w" err)
    | inl pending => reconcile_loop pending 0
    end).

(** *** reconciler.go *)
Definition DefaultReconcileInterval : duration := 5 * 60 * second.
(** [NewReconciler]: the interval and the jitter it keeps. *)
Definition reconciler_times (interval jitter : duration) : duration * duration :=
  (if interval <=? 0 then DefaultReconcileInterval else interval, if jitter <? 0 then 0 else jitter).
(** [rand.Int] gives a number below [max], or fails. *)
Definition randomJitter (max : duration) (drawn : option Z) : duration :=
  if max <=? 0 then 0 else match drawn with Some n => n | None => Z.quot max 2 end.
(** [Lock.With]: the release is deferred. *)
Definition With {A} (fn : io A) : io (option (A + error)) :=
  let* acquired := act Acquire in
  if negb acquired then pret None
  else ptry fn (λ r, do* act Release in pret (Some r)).
(** The number of transactions, whether the lock was held, and the error. *)
Definition RunOnce (redis : bool) : io (Z * bool * option error) :=
  if negb redis then
    ptry Reconcile (λ r, pret (match r with inl n => (n, true, None) | inr err => (0, true, Some err) end))
  else ptry (With Reconcile) (λ r,
    pret (match r with
          | inr err => (0, false, Some err)
          | inl None => (0, false, None)
          | inl (Some (inr err)) => (0, true, Some err)
          | inl (Some (inl n)) => (n, true, None)
          end)).

(** *** The handlers *)
Inductive reply := BadRequest (message : string) | Created (t : Transaction) | OK (t : Transaction) | NotFound (message : string) | InternalError (message : string).
(** [error.Error()], as far as the handlers use it. *)
Fixpoint Error_text (e : error) : string :=
  match e with Sentinel s | Errorf s | External s => s | Wrapf s e => s ++ Error_text e end.
Definition answer_of (r : Transaction + error) : io reply :=
  pret (match r with inl t => Created t | inr err => BadRequest (Error_text err) end).
Record ramp_body := { rb_Amount : float64; rb_Currency : string; rb_PhoneNumber : string; rb_AccountName : string }.
Definition nonempty (s : string) : bool := negb (bool_decide (s = ""%string)).
(** [key] is the key [getIdempotencyKey] finds. *)
Definition handler_InitiateOnramp (userID : string) (b : ramp_body) (key : string) : io reply :=
  if negb (f64_gt (rb_Amount b) f64_zero && nonempty (rb_Currency b) && nonempty (rb_PhoneNumber b)) then
    pret (BadRequest "amount, currency, and phoneNumber are required")
  else if negb (nonempty key) then
    pret (BadRequest "an idempotency key is required (Idempotency-Key header or idempotencyKey field)")
  else ptry (act (GetWallets userID)) (λ ws,
    match ws with
    | inr _ | inl [] => pret (BadRequest "no wallet found. Create a wallet first.")
    | inl (address :: _) =>
        ptry (InitiateOnramp userID {| on_Amount := rb_Amount b; on_Currency := rb_Currency b; on_PhoneNumber := rb_PhoneNumber b;
                                       on_DestinationAddress := address; on_Reference := key |} key) answer_of
    end).
Definition handler_InitiateOfframp (userID : string) (b : ramp_body) (key : string) : io reply :=
  if negb (f64_gt (rb_Amount b) f64_zero && nonempty (rb_Currency b) && nonempty (rb_PhoneNumber b) && nonempty (rb_AccountName b)) then
    pret (BadRequest "amount, currency, phoneNumber, and accountName are required")
  else if negb (nonempty key) then
    pret (BadRequest "an idempotency key is required (Idempotency-Key header or idempotencyKey field)")
  else ptry (InitiateOfframp userID {| off_Amount := rb_Amount b; off_Currency := rb_Currency b; off_PhoneNumber := rb_PhoneNumber b;
                                       off_AccountName := rb_AccountName b; off_Reference := key |} key) answer_of.
Definition handler_GetTransaction (userID id : string) : io reply :=
  ptry (GetTransaction id) (λ r,
    pret (match r with
          | inr err => if decide (err = apperrors_ErrNotFound) then NotFound "transaction not found" else InternalError "failed to get transaction"
          | inl t => if decide (t_UserID t = userID) then OK t else NotFound "transaction not found"
          end)).
End service.

(** ** The world *)
Record mmworld := {
  mw_now : time;
  mw_db : PgState table;
  mw_token : string * time;
  mw_replies : list http_reply;                     (** the next replies of the API *)
  mw_exchanges : list (mpesa_call * http_reply);    (** what was asked and answered, the last first *)
  mw_wallets : gmap string (list string);
  mw_uuids : list string;
  mw_lock : bool + error;                           (** held or free; or Redis is out *)
}.
Definition set_db (s : PgState table) (w : mmworld) : mmworld :=
  {| mw_now := mw_now w; mw_db := s; mw_token := mw_token w; mw_replies := mw_replies w; mw_exchanges := mw_exchanges w;
     mw_wallets := mw_wallets w; mw_uuids := mw_uuids w; mw_lock := mw_lock w |}.
Definition set_http (token : string * time) (replies : list http_reply) (exchanges : list (mpesa_call * http_reply)) (w : mmworld) : mmworld :=
  {| mw_now := mw_now w; mw_db := mw_db w; mw_token := token; mw_replies := replies; mw_exchanges := exchanges;
     mw_wallets := mw_wallets w; mw_uuids := mw_uuids w; mw_lock := mw_lock w |}.
Definition set_process (uuids : list string) (lock : bool + error) (w : mmworld) : mmworld :=
  {| mw_now := mw_now w; mw_db := mw_db w; mw_token := mw_token w; mw_replies := mw_replies w; mw_exchanges := mw_exchanges w;
     mw_wallets := mw_wallets w; mw_uuids := uuids; mw_lock := lock |}.
Definition perform_mm `{ColumnLib} (X : Type) (e : mmE X) : M mmworld X :=
  match e in mmE X return M mmworld X with
  | DB q => λ w, let '(r, s) := run_query (mw_now w) q (mw_db w) in (r, set_db s w)
  | Do c => λ w,
      let r := match mw_replies w with [] => NoAnswer (External "dial") | r :: _ => r end in
      (Ok r, set_http (mw_token w) (tail (mw_replies w)) ((c, r) :: mw_exchanges w) w)
  | GetToken => λ w, (Ok (mw_token w), w)
  | SetToken t at_ => λ w, (Ok tt, set_http (t, at_) (mw_replies w) (mw_exchanges w) w)
  | GetWallets u => λ w, (Ok (default [] (mw_wallets w !! u)), w)
  | NewUUID => λ w, match mw_uuids w with [] => (Panic, w) | id :: ids => (Ok id, set_process ids (mw_lock w) w) end
  | Now => λ w, (Ok (mw_now w), w)
  | Acquire => λ w,
      match mw_lock w with
      | inl held => (Ok (negb held), set_process (mw_uuids w) (inl true) w)
      | inr err => (Err err, w)
      end
  | Release => λ w, (Ok tt, set_process (mw_uuids w) (sum_map (λ _, false) id (mw_lock w)) w)
  end.
End mobilemoney.
