(* ===== verification/MobileProps.v ===== *)
(** What the mobile money bridge guarantees: every transaction stands on an exchange with
    the provider, and a key that has one never asks the provider again. *)
From S2P Require Export MobileMoney Demo.
From stdpp Require Import options.
From Stdlib Require Import Ascii.
#[local] Set Default Proof Using "Type*".
Open Scope Z_scope.
Local Open Scope go_scope.

Module mobileprops.
Import mobilemoney.

Section bridge.
Context {CL : ColumnLib} {FL : GoFloatConv} {ML : MPesaLib}.
Variables (registry : option (gmap string provider)).
Abbreviation exchange := (mpesa_call * http_reply)%type (only parsing).

(** ** What an exchange says *)
Definition good_answer (l : list exchange) (c : mpesa_call) (body : string) : Prop :=
  exists status, status < 400 /\ (c, Answer status body) ∈ l.
(** The provider took a request for this phone and this reference. *)
Definition accepted (l : list exchange) (d : Direction) (amount : Z) (phone reference ref : string) : Prop :=
  match d with
  | DirectionOnramp => exists token at_ body, good_answer l (STKPush token amount phone reference at_) body /\ stk_Unmarshal body = Some (ref, "0"%string)
  | DirectionOfframp => exists token body, good_answer l (B2C token amount phone reference) body /\ b2c_Unmarshal body = Some (ref, "0"%string)
  end.
(** The provider said of a reference how it ended. *)
Definition reported (l : list exchange) (ref : string) (st : Status) (reason : option string) : Prop :=
  exists token at_ body code desc, good_answer l (STKQuery token ref at_) body /\ query_Unmarshal body = Some (code, desc) /\
    st = st_Status (status_of_code ref code desc) /\ reason = reason_of (status_of_code ref code desc).
Definition asked (l : list exchange) (t : Transaction) : Prop :=
  accepted l (t_Direction t) (f64_to_int64 (t_Amount t)) (t_PhoneNumber t) (t_IdempotencyKey t) (t_ProviderRef t) /\
  t_Status t = StatusPending.
(** What stands behind a row: its amount is that of the request as the column keeps it. *)
Definition backed (l : list exchange) (t : Transaction) : Prop :=
  (exists amount, numeric_column amount = Some (t_Amount t) /\
    accepted l (t_Direction t) (f64_to_int64 amount) (t_PhoneNumber t) (t_IdempotencyKey t) (t_ProviderRef t)) /\
  (t_Status t = StatusPending \/ reported l (t_ProviderRef t) (t_Status t) (t_FailureReason t)).

Lemma good_answer_mono l l' c b : good_answer l c b -> (forall x, x ∈ l -> x ∈ l') -> good_answer l' c b.
Proof. intros (st & ? & ?) Hl. exists st. auto. Qed.
Lemma accepted_mono l l' d a p k ref : accepted l d a p k ref -> (forall x, x ∈ l -> x ∈ l') -> accepted l' d a p k ref.
Proof.
  intros Ha Hl. destruct d; cbn in *.
  - destruct Ha as (tk & at_ & b & Hg & Hu). exists tk, at_, b. split; [by eapply good_answer_mono|done].
  - destruct Ha as (tk & b & Hg & Hu). exists tk, b. split; [by eapply good_answer_mono|done].
Qed.
Lemma reported_mono l l' ref st re : reported l ref st re -> (forall x, x ∈ l -> x ∈ l') -> reported l' ref st re.
Proof.
  intros (tk & at_ & b & code & desc & Hg & Hr) Hl. exists tk, at_, b, code, desc. split; [by eapply good_answer_mono|done].
Qed.
Lemma backed_mono l l' t : backed l t -> (forall x, x ∈ l -> x ∈ l') -> backed l' t.
Proof.
  intros [(a & Ha & Hacc) Hst] Hl. split; [exists a; split; [done|by eapply accepted_mono]|].
  destruct Hst as [?|Hr]; [by left|right; by eapply reported_mono].
Qed.

(** ** What a thread knows: the exchanges it made, and rows with their references *)
Record stage := { seen : list exchange; known : list (string * string) }.
Definition id_ref (t : Transaction) : string * string := (t_ID t, t_ProviderRef t).
Definition pre (X : Type) (e : mmE X) (s : stage) : Prop :=
  match e with
  | DB (QCreate t) => asked (seen s) t
  | DB (QUpdateStatus id st reason _) => exists ref, (id, ref) ∈ known s /\ reported (seen s) ref st reason
  | _ => True
  end.
Definition post (X : Type) (e : mmE X) (s : stage) : result X -> stage -> Prop :=
  match e in mmE X return result X -> stage -> Prop with
  | Do c => λ r s', s' = match r with Ok x => {| seen := (c, x) :: seen s; known := known s |} | _ => s end
  | DB q => match q in dbQ X return result X -> stage -> Prop with
            | QListPending _ => λ r s', s' = match r with Ok l => {| seen := seen s; known := map id_ref l ++ known s |} | _ => s end
            | _ => λ _ s', s' = s
            end
  | _ => λ _ s', s' = s
  end.
Abbreviation safely s p Q := (staged pre post s p Q).
Definition grows (s s' : stage) : Prop := known s' = known s /\ forall x, x ∈ seen s -> x ∈ seen s'.
#[local] Instance grows_preorder : PreOrder grows.
Proof. split; [by intros s; split|]. intros a b c [E1 H1] [E2 H2]. split; [congruence|auto]. Qed.

Ltac plain := apply staged_plain; [done|by intros|].

Lemma read_body_safely s f1 f2 f3 c : safely s (read_body f1 f2 f3 c) (λ s' r, grows s s' /\
  match r with Ok body => good_answer (seen s') c body | _ => True end).
Proof.
  unfold read_body. apply staged_try, staged_act; [done|]. intros r s' Hr. cbn in Hr. subst s'.
  destruct r as [x|e|]; cbn; [|by split..]. assert (grows s {| seen := (c, x) :: seen s; known := known s |}) as Hg.
  { split; [done|]. intros y Hy. by right. }
  destruct x as [e|st e|st b]; [by split..|]. destruct (400 <=? st) eqn:E; [by split|].
  split; [done|]. exists st. split; [lia|]. by left.
Qed.
Lemma token_safely s : safely s accessToken (λ s' _, grows s s').
Proof.
  unfold accessToken. apply staged_bind. plain. intros [kept|e|]; [|by split..]. apply staged_bind.
  destruct (bool_decide (kept.1 = "")%string); [|apply staged_bind; plain; intros [now|e|]; [|by split..];
    cbn [staged pret]; destruct (time_Before now kept.2); [by split|]];
  (apply staged_bind; eapply staged_mono; [apply read_body_safely|]; intros s' [b|e|] [Hg _]; [|done..];
   destruct (oauth_Unmarshal b) as [[token ex]|]; [|done]; apply staged_bind; plain; intros [now'|e|]; [|done..];
   apply staged_bind; plain; by intros []).
Qed.
Lemma doRequest_safely {A} s c (U : string -> option A) : safely s (doRequest c U) (λ s' r, grows s s' /\
  match r with Ok a => exists token body, good_answer (seen s') (c token) body /\ U body = Some a | _ => True end).
Proof.
  unfold doRequest. apply staged_bind. eapply staged_mono; [apply token_safely|]. intros s1 [tk|e|] Hg; [|by split..].
  apply staged_bind. eapply staged_mono; [apply read_body_safely|]. intros s2 [b|e|] [Hg2 Hb]; [|by split; [etrans|]..].
  destruct (U b) as [a|] eqn:Eu; cbn; (split; [by etrans|]); [|done]. by exists tk, b.
Qed.

(** *** Initiations *)
Definition took (s s' : stage) (d : Direction) (amount : Z) (phone key : string) (r : result RampResult) : Prop :=
  grows s s' /\ match r with Ok x => accepted (seen s') d amount phone key (rr_ProviderRef x) /\ rr_Status x = StatusPending | _ => True end.
Lemma onramp_safely s p req : safely s (provider_InitiateOnramp p req) (λ s' r,
  took s s' DirectionOnramp (f64_to_int64 (on_Amount req)) (on_PhoneNumber req) (on_Reference req) r).
Proof.
  destruct p; [|by split..]. cbn [provider_InitiateOnramp]. unfold mpesa_InitiateOnramp. apply staged_bind. plain. intros [now|e|]; [|by split..].
  apply staged_bind. eapply staged_mono; [apply doRequest_safely|]. intros s' [[ref code]|e|] [Hg H]; [|by split..].
  case_bool_decide as Hc; [by split|]. cbn in Hc. subst code. split; [done|]. split; [|done].
  destruct H as (tk & b & Hb & Hu). by exists tk, (Format_timestamp now), b.
Qed.
Lemma offramp_safely s p req : safely s (provider_InitiateOfframp p req) (λ s' r,
  took s s' DirectionOfframp (f64_to_int64 (off_Amount req)) (off_PhoneNumber req) (off_Reference req) r).
Proof.
  destruct p; [|by split..]. cbn [provider_InitiateOfframp]. unfold mpesa_InitiateOfframp.
  apply staged_bind. eapply staged_mono; [apply doRequest_safely|]. intros s' [[ref code]|e|] [Hg H]; [|by split..].
  case_bool_decide as Hc; [by split|]. cbn in Hc. subst code. split; [done|]. split; [|done].
  destruct H as (tk & b & Hb & Hu). by exists tk, b.
Qed.
Lemma persist_safely s format txn : (forall id now, asked (seen s) (txn id now)) -> safely s (persist format txn) (λ _ _, True).
Proof.
  intros Ha. unfold persist. apply staged_bind. plain. intros [id|e|]; [|done..]. apply staged_bind. plain. intros [now|e|]; [|done..].
  apply staged_bind, staged_wrap, staged_plain; [apply Ha|by intros|]. by intros [].
Qed.
Lemma registry_safely s c (Q : stage -> result provider -> Prop) : (forall r, Q s r) -> safely s (registry_For registry c) Q.
Proof. intros HQ. unfold registry_For. destruct registry as [m|]; cbn; [|apply HQ]. unfold For. destruct (m !! c); apply HQ. Qed.
Lemma InitiateOnramp_safely s u req : safely s (InitiateOnramp registry u req (on_Reference req)) (λ _ _, True).
Proof.
  unfold InitiateOnramp. apply staged_bind. destruct (bool_decide _); [done|]. cbn [staged pguard pret].
  apply staged_bind. plain. intros [[t|]|e|]; [done| |done..]. apply staged_bind, registry_safely. intros [p|e|]; [|done..].
  apply staged_bind, staged_wrap. eapply staged_mono; [apply onramp_safely|]. intros s' [res|e|] [Hg H]; [|done..].
  apply persist_safely. intros id now. exact H.
Qed.
Lemma InitiateOfframp_safely s u req : safely s (InitiateOfframp registry u req (off_Reference req)) (λ _ _, True).
Proof.
  unfold InitiateOfframp. apply staged_bind. destruct (bool_decide _); [done|]. cbn [staged pguard pret].
  apply staged_bind. plain. intros [[t|]|e|]; [done| |done..]. apply staged_bind, registry_safely. intros [p|e|]; [|done..].
  apply staged_bind, staged_wrap. eapply staged_mono; [apply offramp_safely|]. intros s' [res|e|] [Hg H]; [|done..].
  apply persist_safely. intros id now. exact H.
Qed.

(** *** Reconciliation *)
Lemma status_safely s p ref : safely s (provider_GetStatus p ref) (λ s' r, grows s s' /\
  match r with
  | Ok x => st_Status x <> StatusPending -> reported (seen s') ref (st_Status x) (reason_of x)
  | _ => True
  end).
Proof.
  destruct p; [|by split..]. cbn [provider_GetStatus]. unfold mpesa_GetStatus. apply staged_bind. plain. intros [now|e|]; [|by split..].
  apply staged_try. eapply staged_mono; [apply doRequest_safely|]. intros s' [[code desc]|e|] [Hg H]; [|by split..].
  split; [done|]. intros _. destruct H as (tk & b & Hb & Hu). by exists tk, (Format_timestamp now), b, code, desc.
Qed.
Lemma UpdateStatus_safely s id ref st reason : (id, ref) ∈ known s -> reported (seen s) ref st reason ->
  safely s (UpdateStatus id st reason) (λ s' _, s' = s).
Proof.
  intros Hk Hr. unfold UpdateStatus. case_decide.
  - apply staged_plain; [by exists ref|by intros|done].
  - apply staged_bind. plain. intros [now|e|]; [|done..]. apply staged_plain; [by exists ref|by intros|done].
Qed.
Lemma loop_safely pending n s : (forall t, t ∈ pending -> id_ref t ∈ known s) ->
  safely s (reconcile_loop registry pending n) (λ _ _, True).
Proof.
  revert n s. induction pending as [|t pending IH]; intros n s Hk; [done|]. cbn [reconcile_loop].
  assert (forall s' m, grows s s' -> safely s' (reconcile_loop registry pending m) (λ _ _, True)) as Hrest.
  { intros s' m [Hkn _]. apply IH. intros t' Ht'. rewrite Hkn. apply Hk. by right. }
  apply staged_try, registry_safely. intros [p|e|]; [|by apply Hrest|done].
  apply staged_try. eapply staged_mono; [apply status_safely|]. intros s' [x|e|] [Hg H]; [|by apply Hrest|done].
  case_decide as Hp; [by apply Hrest|]. apply staged_try.
  eapply staged_mono; [apply (UpdateStatus_safely s' _ (t_ProviderRef t))|].
  - destruct Hg as [-> _]. apply (Hk t). by left.
  - by apply H.
  - intros s2 [[]|e|] ->; [by apply Hrest..|done].
Qed.
Lemma Reconcile_safely s : safely s (Reconcile registry) (λ _ _, True).
Proof.
  unfold Reconcile. apply staged_try, staged_act; [done|]. intros [l|e|] s' Hs; cbn in Hs; subst s'; [|done..].
  apply loop_safely. intros t Ht. cbn [known]. apply elem_of_app. left. apply list_elem_of_In, in_map. by apply list_elem_of_In.
Qed.
Lemma RunOnce_safely s redis : safely s (RunOnce registry redis) (λ _ _, True).
Proof.
  unfold RunOnce, With. destruct redis; cbn [negb].
  - apply staged_try, staged_bind. plain. intros [[]|e|]; [|done..]. cbn [negb]. apply staged_try.
    eapply staged_mono; [apply Reconcile_safely|]. intros s' [n|e|] _; [| |done]; apply staged_bind; plain; by intros [].
  - apply staged_try. eapply staged_mono; [apply Reconcile_safely|]. by intros s' [] _.
Qed.

(** ** The calls *)
Inductive call :=
  | COnramp (userID : string) (b : ramp_body) (key : string)
  | COfframp (userID : string) (b : ramp_body) (key : string)
  | CGet (userID id : string)
  | CReconcile (redis : bool).
Definition start (c : call) : io unit :=
  match c with
  | COnramp u b key => pignore (handler_InitiateOnramp registry u b key)
  | COfframp u b key => pignore (handler_InitiateOfframp registry u b key)
  | CGet u id => pignore (handler_GetTransaction u id)
  | CReconcile redis => pignore (RunOnce registry redis)
  end.
Definition nothing : stage := {| seen := []; known := [] |}.
Lemma mm_start_safely c : safely nothing (start c) (λ _ _, True).
Proof.
  assert (forall A s (p : io A), safely s p (λ _ _, True) -> safely s (pignore p) (λ _ _, True)) as Hi.
  { intros A s p Hp. apply staged_ignore. eapply staged_mono; [exact Hp|]. by intros s' []. }
  destruct c as [u b key|u b key|u id|r]; cbn [start]; apply Hi.
  - unfold handler_InitiateOnramp. destruct (negb _); [done|]. destruct (negb _); [done|]. apply staged_try. plain.
    intros [[|a ws]|e|]; [done| |done..]. apply staged_try. eapply staged_mono; [exact (InitiateOnramp_safely _ u _)|]. by intros s' [].
  - unfold handler_InitiateOfframp. destruct (negb _); [done|]. destruct (negb _); [done|]. apply staged_try.
    eapply staged_mono; [exact (InitiateOfframp_safely _ u _)|]. by intros s' [].
  - unfold handler_GetTransaction, GetTransaction, db. apply staged_try. plain. by intros [].
  - apply RunOnce_safely.
Qed.

(** ** The invariant *)
Record rows_ok (w : mmworld) : Prop := {
  ok_id id t : pg_tables (mw_db w) !! id = Some t -> t_ID t = id /\ backed (mw_exchanges w) t;
  ok_key i j t u : pg_tables (mw_db w) !! i = Some t -> pg_tables (mw_db w) !! j = Some u ->
    t_UserID t = t_UserID u -> t_IdempotencyKey t = t_IdempotencyKey u -> i = j;
}.
Definition stage_ok (w : mmworld) (s : stage) : Prop :=
  (forall x, x ∈ seen s -> x ∈ mw_exchanges w) /\
  (forall id ref, (id, ref) ∈ known s -> exists t, pg_tables (mw_db w) !! id = Some t /\ t_ProviderRef t = ref).
Definition Inv (w : mmworld) (ss : list stage) : Prop := rows_ok w /\ Forall (stage_ok w) ss.

(** The rows stay, with what identifies them, and the exchanges too. *)
Definition same_row (t t' : Transaction) : Prop :=
  t_UserID t' = t_UserID t /\ t_IdempotencyKey t' = t_IdempotencyKey t /\ t_ProviderRef t' = t_ProviderRef t.
Definition keeps (w w' : mmworld) : Prop :=
  (forall id t, pg_tables (mw_db w) !! id = Some t -> exists t', pg_tables (mw_db w') !! id = Some t' /\ same_row t t') /\
  (forall x, x ∈ mw_exchanges w -> x ∈ mw_exchanges w').
#[local] Instance keeps_preorder : PreOrder keeps.
Proof.
  split.
  - intros w. split; [|done]. intros id t Ht. by exists t.
  - intros a b c [H1 H2] [H3 H4]. split; [|auto]. intros id t Ht. destruct (H1 id t Ht) as (t' & Ht' & E1).
    destruct (H3 id t' Ht') as (t2 & Ht2 & E2). exists t2. split; [done|]. unfold same_row in *. intuition congruence.
Qed.
Lemma stage_ok_keeps w w' s : stage_ok w s -> keeps w w' -> stage_ok w' s.
Proof.
  intros [H1 H2] [K1 K2]. split; [auto|]. intros id ref Hin. destruct (H2 id ref Hin) as (t & Ht & Href).
  destruct (K1 id t Ht) as (t' & Ht' & E). exists t'. split; [done|]. unfold same_row in E. intuition congruence.
Qed.
Lemma Inv_step w w' ss (i : nat) s' : Inv w ss -> keeps w w' -> rows_ok w' -> stage_ok w' s' -> Inv w' (<[i := s']> ss).
Proof.
  intros [_ HS] Hk HR Hs'. split; [done|]. apply Forall_insert; [|done]. eapply Forall_impl; [exact HS|].
  intros s Hs. by eapply stage_ok_keeps.
Qed.
(** *** What a query does to the table *)
Definition effect {X} (q : dbQ X) (r : result X) (t t' : gmap string Transaction) : Prop :=
  match q in dbQ X return result X -> Prop with
  | QCreate x => λ _, t' = t \/ create_conflict x t = None /\ t' = <[t_ID x := stored x]> t
  | QUpdateStatus id st reason at_ => λ _, t' = t \/ t' = alter (settled st reason at_) id t
  | QListPending _ => λ r, t' = t /\ match r with Ok l => forall x, x ∈ l -> exists id, t !! id = Some x | _ => True end
  | _ => λ _, t' = t
  end r.
Lemma run_query_effect {X} now (q : dbQ X) s r s' : run_query now q s = (r, s') -> effect q r (pg_tables s) (pg_tables s').
Proof.
  apply (wp_run (run_query now q) s (λ r s', effect q r (pg_tables s) (pg_tables s'))). destruct q; cbn [run_query effect].
  - apply wp_wrap, wp_pg_insert; intros; auto.
  - apply wp_bind, wp_wrap, wp_pg_exec.
    + intros a t w' Hq Ht. destruct (is_uuid id); [|done]. injection Hq as <- <-. cbn. by destruct (pg_tables s !! id).
    + by intros.
  - apply wp_wrap, wp_pg_select; by intros.
  - apply wp_wrap, wp_bind, wp_pg_update; intros; [apply wp_ret|apply wp_ret|]; auto.
  - apply wp_wrap, wp_pg_select; [|by intros]. intros w' Ht. split; [done|]. intros x Hx. rewrite merge_sort_Permutation in Hx.
    apply list_elem_of_filter in Hx as [_ Hx]. apply list_elem_of_fmap in Hx as ([id y] & -> & Hx).
    apply elem_of_map_to_list in Hx. by exists id.
Qed.
Lemma create_fresh x t : create_conflict x t = None ->
  t !! t_ID x = None /\ numeric_column (t_Amount x) = Some (t_Amount (stored x)) /\
  forall i y, t !! i = Some y -> t_UserID y = t_UserID x -> t_IdempotencyKey y = t_IdempotencyKey x -> False.
Proof.
  unfold create_conflict. case_bool_decide as Hc; [done|]. case_bool_decide as Hid; [done|]. cbn [orb].
  destruct (existsb _ _) eqn:E; [done|]. intros _. split; [by apply eq_None_not_Some|]. split.
  - cbn. destruct (numeric_column (t_Amount x)); [done|tauto].
  - intros i y Hy Hu Hk. pose proof (no_conflict _ _ i y E Hy) as Hf. unfold has_key in Hf.
    apply bool_decide_eq_false in Hf. tauto.
Qed.
Lemma db_step_keeps {X} (q : dbQ X) w ss i s r s' : run_query (mw_now w) q (mw_db w) = (r, s') -> Inv w ss -> ss !! i = Some s ->
  pre X (DB q) s -> rows_ok (set_db s' w) /\ keeps w (set_db s' w).
Proof.
  intros E [HR HS] Hi Hpre. pose proof (run_query_effect _ _ _ _ _ E) as He.
  pose proof (proj1 (Forall_lookup _ _) HS i s Hi) as [Hseen Hknown].
  assert (pg_tables s' = pg_tables (mw_db w) -> rows_ok (set_db s' w) /\ keeps w (set_db s' w)) as Hsame.
  { intros Ht. destruct HR as [H1 H2]. split; [split; cbn; rewrite Ht; [exact H1|exact H2]|].
    split; [|done]. cbn. rewrite Ht. intros id t Hid. by exists t. }
  destruct HR as [H1 H2]. destruct q; cbn in He; first [by auto|by destruct He; auto|destruct He as [He|He]; [by auto|]].
  - destruct He as [Hc Ht]. destruct (create_fresh _ _ Hc) as (Hfresh & Hcol & Hkey). destruct Hpre as [Hacc Hpend]. split; [split|split]; cbn; rewrite ?Ht.
    + intros id t [[<- <-]|[_ Hid]]%lookup_insert_Some; [|by apply H1]. split; [done|]. split; [|by left].
      exists (t_Amount r0). split; [done|]. by apply (accepted_mono (seen s)).
    + intros a b x y [[<- <-]|[Ha Hx]]%lookup_insert_Some [[<- <-]|[Hb Hy]]%lookup_insert_Some Eu Ek; [done| | |by eapply H2].
      * destruct (Hkey b y Hy); by symmetry.
      * by destruct (Hkey a x Hx).
    + intros id t Hid. exists t. split; [|done]. rewrite lookup_insert_ne; [done|]. intros <-. congruence.
    + done.
  - destruct Hpre as (ref & Hin & Hrep). destruct (Hknown id ref Hin) as (t0 & Ht0 & Href). split; [split|split]; cbn; rewrite ?He.
    + intros j t Hj. destruct (decide (id = j)) as [->|Hne].
      * rewrite lookup_alter_eq, Ht0 in Hj. injection Hj as <-. destruct (H1 j t0 Ht0) as [Hid [Hb _]]. split; [done|].
        split; [done|]. right. cbn. rewrite Href. by apply (reported_mono (seen s)).
      * rewrite lookup_alter_ne in Hj by done. by apply H1.
    + intros a b x y (x' & Hx & Ex)%alter_some (y' & Hy & Ey)%alter_some Eu Ek.
      apply (H2 a b x' y' Hx Hy); destruct Ex as [->| ->], Ey as [->| ->]; by cbn in *.
    + intros j t Hj. destruct (decide (id = j)) as [->|Hne].
      * rewrite lookup_alter_eq, Hj. by eexists.
      * rewrite lookup_alter_ne by done. by exists t.
    + done.
Qed.
Lemma mm_Inv_plain w w' ss i s : Inv w ss -> ss !! i = Some s -> mw_db w' = mw_db w -> mw_exchanges w' = mw_exchanges w -> Inv w' (<[i := s]> ss) /\ keeps w w'.
Proof.
  intros HI Hi Hd He. assert (keeps w w') as Hk.
  { split; [|by rewrite He]. rewrite Hd. intros id t Ht. by exists t. }
  split; [|done]. eapply Inv_step; [done|done| |].
  - destruct HI as [[H1 H2] _]. split; rewrite Hd, ?He; [exact H1|exact H2].
  - eapply stage_ok_keeps; [|done]. exact (proj1 (Forall_lookup _ _) (proj2 HI) i s Hi).
Qed.
Lemma mm_step_keeps X (e : mmE X) w r w' ss i s : perform_mm X e w = (r, w') -> Inv w ss -> ss !! i = Some s ->
  pre X e s -> exists s', post X e s r s' /\ Inv w' (<[i := s']> ss) /\ keeps w w'.
Proof.
  intros E HI Hi Hpre. pose proof (proj1 (Forall_lookup _ _) (proj2 HI) i s Hi) as Hs.
  destruct e as [X q|c| |tk ex|u| | | |]; cbn [perform_mm] in E.
  2: { injection E as <- <-. set (rp := match mw_replies w with [] => _ | r :: _ => r end). exists {| seen := (c, rp) :: seen s; known := known s |}.
       split; [done|]. set (w' := set_http _ _ _ _). assert (keeps w w') as Hk by (split; [intros id t Ht; by exists t|by right]).
       split; [|done]. eapply Inv_step; [done|done| |].
       - destruct (proj1 HI) as [H1 H2]. split; [|exact H2]. intros id t Ht. destruct (H1 id t Ht) as [? Hb]. split; [done|].
         eapply backed_mono; [exact Hb|by right].
       - destruct Hs as [Hs1 Hs2]. split; [|exact Hs2]. intros x [->|Hx]%elem_of_cons; [by left|right; by apply Hs1]. }
  2-8: repeat case_match; simplify_eq; exists s; (split; [done|by apply mm_Inv_plain]).
  destruct (run_query (mw_now w) q (mw_db w)) as [r0 s0] eqn:Eq. injection E as <- <-.
  destruct (db_step_keeps _ _ _ _ _ _ _ Eq HI Hi Hpre) as [HR Hk]. pose proof (run_query_effect _ _ _ _ _ Eq) as He.
  assert (stage_ok (set_db s0 w) s) as Hs' by by eapply stage_ok_keeps.
  destruct q; try (exists s; split; [done|]; split; [|done]; by eapply Inv_step).
  destruct r0 as [l|e|]; try (exists s; split; [done|]; split; [|done]; by eapply Inv_step).
  exists {| seen := seen s; known := map id_ref l ++ known s |}. split; [done|]. split; [|done]. eapply Inv_step; [done..|].
  split; [apply Hs'|]. intros id ref [Hin|Hin]%elem_of_app; [|by apply Hs'].
  apply list_elem_of_In, in_map_iff in Hin as (t & Et & Hin). injection Et as <- <-. cbn in He. destruct He as [Ht Hl].
  destruct (Hl t) as [id Hid]; [by apply list_elem_of_In|]. exists t. split; [|done]. cbn. rewrite Ht.
  by rewrite (proj1 (ok_id _ (proj1 HI) id t Hid)).
Qed.

(** The rest of the world leaves the table and adds to the exchanges. *)
Definition env (w w' : mmworld) : Prop :=
  pg_tables (mw_db w') = pg_tables (mw_db w) /\ exists l, mw_exchanges w' = l ++ mw_exchanges w.
Lemma mm_env_keeps w w' : env w w' -> keeps w w' /\ (rows_ok w -> rows_ok w').
Proof.
  intros (Ht & l & He). assert (forall x, x ∈ mw_exchanges w -> x ∈ mw_exchanges w') as Hx.
  { intros x Hx. rewrite He. apply elem_of_app. by right. }
  split; [split; [|done]; rewrite Ht; intros id t Hid; by exists t|].
  intros [H1 H2]. split; rewrite Ht; [|exact H2]. intros id t Hid. destruct (H1 id t Hid). split; [done|]. by eapply backed_mono.
Qed.
Lemma mm_Inv w c : pg_tables (mw_db w) = ∅ -> reachable perform_mm start env w c ->
  exists ss, Inv c.1 ss /\ Forall2 (λ s lp, safely s lp.2 (λ _ _, True)) ss c.2.
Proof.
  intros H0 Hr. eapply (pool_staged pre post perform_mm Inv) with (start := start) (env := env) (s0 := λ _, nothing); [..|exact Hr].
  - intros X e w1 r w1' ss i s E HI Hi Hp. destruct (mm_step_keeps X e w1 r w1' ss i s E HI Hi Hp) as (s' & ? & ? & _). by exists s'.
  - intros w1 w2 ss He [HR HS]. destruct (mm_env_keeps w1 w2 He) as [Hk Ho]. split; [by apply Ho|].
    eapply Forall_impl; [exact HS|]. intros s Hs. by eapply stage_ok_keeps.
  - exact mm_start_safely.
  - intros w1 ss l [HR HS]. split; [done|]. apply Forall_app. split; [done|]. constructor; [|done].
    split; [by intros x ?%not_elem_of_nil|by intros ? ? ?%not_elem_of_nil].
  - split; [|done]. split; rewrite H0; by intros.
Qed.
Lemma mm_keeps w c1 c2 : pg_tables (mw_db w) = ∅ -> reachable perform_mm start env w c1 ->
  pool_step perform_mm start env c1 c2 -> keeps c1.1 c2.1.
Proof.
  intros H0 Hr Hs. destruct (mm_Inv w c1 H0 Hr) as (ss & HI & Hss).
  destruct Hs as [w1 ps i l X e k r w' Hi E|w1 ps l|w1 w' ps He]; cbn in *; [|done|by apply mm_env_keeps].
  destruct (Forall2_lookup_r _ _ _ _ _ Hss Hi) as (s & Hs & [Hpre _]).
  destruct (mm_step_keeps X e w1 r w' ss i s E HI Hs Hpre) as (_ & _ & _ & Hk). exact Hk.
Qed.
Lemma mm_keeps_all w c1 c2 : pg_tables (mw_db w) = ∅ -> reachable perform_mm start env w c1 ->
  rtc (pool_step perform_mm start env) c1 c2 -> keeps c1.1 c2.1 /\ reachable perform_mm start env w c2.
Proof.
  intros H0 Hr Hs. apply (rtc_ind_r (R := pool_step perform_mm start env) (λ c, keeps c1.1 c.1 /\ reachable perform_mm start env w c) c1); [by split| |exact Hs].
  intros y z _ Hyz [Hk Hry]. split; [etrans; [exact Hk|by eapply mm_keeps]|by eapply rtc_r].
Qed.

(** However initiations, reconciliations and other requests overlap, whatever the API
    and the database answer and fail: behind every transaction stands a request the
    provider took for its phone number, its key and its amount without the fraction; its
    end is one the provider reported for its reference; and no user has two
    transactions of one key. *)
Theorem transactions_backed w c : pg_tables (mw_db w) = ∅ -> reachable perform_mm start env w c ->
  (forall id t, pg_tables (mw_db c.1) !! id = Some t -> t_ID t = id /\ backed (mw_exchanges c.1) t) /\
  (forall i j t u, pg_tables (mw_db c.1) !! i = Some t -> pg_tables (mw_db c.1) !! j = Some u ->
    t_UserID t = t_UserID u -> t_IdempotencyKey t = t_IdempotencyKey u -> i = j).
Proof.
  intros H0 Hr. destruct (mm_Inv w c H0 Hr) as (ss & [[H1 H2] _] & _). by split.
Qed.

(** *** A key that has a transaction *)
Lemma query_key now u key s r s' : run_query (X := option Transaction) now (QGetByIdempotencyKey u key) s = (r, s') ->
  pg_tables s' = pg_tables s /\ (r = Ok (find_key u key (pg_tables s)) \/ exists e, r = Err e).
Proof.
  apply (wp_run (run_query (X := option Transaction) now (QGetByIdempotencyKey u key)) s
    (λ r s', pg_tables s' = pg_tables s /\ (r = Ok (find_key u key (pg_tables s)) \/ exists e, r = Err e))).
  cbn [run_query]. apply wp_wrap, wp_pg_select; intros; split; eauto.
Qed.
Lemma replayed u key (k : option Transaction -> io Transaction) w t : find_key u key (pg_tables (mw_db w)) = Some t ->
  k (Some t) = pret t ->
  wp (run perform_mm (let* existing := db (QGetByIdempotencyKey u key) in k existing)) w (λ r w',
    mw_exchanges w' = mw_exchanges w /\ pg_tables (mw_db w') = pg_tables (mw_db w) /\ (r = Ok t \/ exists e, r = Err e)).
Proof.
  intros Hf Hk. apply wp_pbind, wp_act, wp_of_run. cbn [perform_mm]. intros r w' E.
  destruct (run_query (mw_now w) (QGetByIdempotencyKey u key) (mw_db w)) as [r0 s'] eqn:Eq. injection E as <- <-.
  destruct (query_key _ _ _ _ _ _ Eq) as [Ht [->|[e ->]]]; cbn [mw_exchanges mw_db set_db].
  - rewrite Hf, Hk. unfold wp. cbn. auto.
  - eauto.
Qed.
Lemma find_key_unique (t : gmap string Transaction) id x :
  (forall i j a b, t !! i = Some a -> t !! j = Some b -> t_UserID a = t_UserID b -> t_IdempotencyKey a = t_IdempotencyKey b -> i = j) ->
  t !! id = Some x -> find_key (t_UserID x) (t_IdempotencyKey x) t = Some x.
Proof.
  intros Hu Hx. unfold find_key. pose proof (find_row_spec (has_key (t_UserID x) (t_IdempotencyKey x)) t) as Hf.
  destruct (find_row _ t) as [y|].
  - destruct Hf as (i & Hi & Hy). unfold has_key in Hy. apply bool_decide_eq_true in Hy as [E1 E2].
    assert (i = id) as -> by (by apply (Hu i id y x)). congruence.
  - specialize (Hf id x Hx). unfold has_key in Hf. apply bool_decide_eq_false in Hf. tauto.
Qed.

(** Once a user's key has a transaction, every later initiation with it, on-ramp or
    off-ramp, by whomever else the table is used meanwhile, asks the provider nothing and
    writes nothing: it answers with that transaction, or the look at the table fails. *)
Theorem key_never_asks_again w c c' id t on off : pg_tables (mw_db w) = ∅ -> reachable perform_mm start env w c ->
  rtc (pool_step perform_mm start env) c c' -> pg_tables (mw_db c.1) !! id = Some t -> t_IdempotencyKey t <> ""%string ->
  forall p, p = InitiateOnramp registry (t_UserID t) on (t_IdempotencyKey t) \/ p = InitiateOfframp registry (t_UserID t) off (t_IdempotencyKey t) ->
  let '(r, w') := run perform_mm p c'.1 in
  mw_exchanges w' = mw_exchanges c'.1 /\ pg_tables (mw_db w') = pg_tables (mw_db c'.1) /\
  ((exists t', r = Ok t' /\ t_ID t' = id /\ same_row t t') \/ exists e, r = Err e).
Proof.
  intros H0 Hr Hrc Hid Hne p Hp. destruct (mm_keeps_all w c c' H0 Hr Hrc) as [[Hk _] Hr'].
  destruct (mm_Inv w c' H0 Hr') as (ss & [[H1 H2] _] & _). destruct (Hk id t Hid) as (t' & Ht' & Hs).
  assert (find_key (t_UserID t) (t_IdempotencyKey t) (pg_tables (mw_db c'.1)) = Some t') as Hf.
  { destruct Hs as (Eu & Ek & _). rewrite <-Eu, <-Ek. by apply (find_key_unique _ id). }
  assert (wp (run perform_mm p) c'.1 (λ r w', mw_exchanges w' = mw_exchanges c'.1 /\ pg_tables (mw_db w') = pg_tables (mw_db c'.1) /\
    (r = Ok t' \/ exists e, r = Err e))) as Hwp.
  { destruct Hp as [->| ->]; unfold InitiateOnramp, InitiateOfframp; rewrite (bool_decide_eq_false_2 _ Hne);
      apply wp_pbind; (apply replayed; [exact Hf|done]). }
  destruct (run perform_mm p c'.1) as [r w'] eqn:Erun. destruct (wp_run _ _ _ _ _ Hwp Erun) as (E1 & E2 & Hres). split; [done|]. split; [done|].
  destruct Hres as [->|He]; [left; exists t'; split; [done|]; split; [by apply (H1 id)|done]|by right].
Qed.
End bridge.
End mobileprops.

(** * The mobile money bridge over a concrete API: the witnesses of its theorems, and the
    runs in which a payment is asked for twice, in part, or not at all. *)
Module mobiledemo.
Import mobilemoney mobileprops.

(** A body is two fields with a bar between them. *)
Definition two_fields (body : string) : option (string * string) :=
  match str_split "|" body with [a; b] => Some (a, b) | _ => None end.
#[local] Instance demo_columns : ColumnLib := { numeric_column f := Some f; is_uuid s := true }.
#[local] Instance demo_conv : GoFloatConv := { f64_to_int64_out _ := 0 }.
#[local] Instance demo_mpesa : MPesaLib := {
  Format_timestamp _ := "20260701000000"; oauth_Unmarshal := two_fields; stk_Unmarshal := two_fields;
  b2c_Unmarshal := two_fields; query_Unmarshal := two_fields;
}.
Definition kenya : option (gmap string provider) := Some (mmRegistry
  {| MPesaConsumerKey := "key"; MTNSubscriptionKey := ""; MTNTargetCurrency := ""; AirtelClientID := ""; AirtelTargetCurrency := "" |}).
Definition body (amount : float64) : ramp_body :=
  {| rb_Amount := amount; rb_Currency := "KES"; rb_PhoneNumber := "254700"; rb_AccountName := "Ada" |}.
Definition mm_world (replies : list string) : mmworld :=
  {| mw_now := 0; mw_db := connection ∅; mw_token := ("", 0); mw_replies := Answer 200 <$> replies; mw_exchanges := [];
     mw_wallets := {["ada"%string := ["GADA"%string]]}; mw_uuids := ["t1"; "t2"]%string; mw_lock := inl false |}.
Abbreviation config := (mmworld * pool (E := mmE) (L := call))%type (only parsing).
Definition go (turns : list (turn (L := call) (W := mmworld))) (w : mmworld) : config :=
  schedule perform_mm (start kenya) turns (w, []).
Definition summary (c : config) : list (string * Status * string) :=
  (λ x, (x.2.(t_ID), t_Status x.2, t_ProviderRef x.2)) <$> map_to_list (pg_tables (mw_db c.1)).
(** The amounts the provider was asked to collect or to pay. *)
Definition amounts (c : config) : list Z :=
  omap (λ x, match x.1 with STKPush _ a _ _ _ | B2C _ a _ _ => Some a | _ => None end) (mw_exchanges c.1).
Definition onramp (amount : float64) : call := COnramp "ada" (body amount) "k".
Definition offramp (amount : float64) : call := COfframp "ada" (body amount) "k".

(** A collection, and half a minute later the reconciliation that learns how it ended. *)
Definition later (w : mmworld) : mmworld :=
  {| mw_now := 40 * second; mw_db := mw_db w; mw_token := mw_token w; mw_replies := mw_replies w; mw_exchanges := mw_exchanges w;
     mw_wallets := mw_wallets w; mw_uuids := mw_uuids w; mw_lock := mw_lock w |}.
Definition collected : config := go (Start (onramp (f64_of_Z 100)) :: replicate 20 (Run 0)) (mm_world ["tok|3599"; "ws1|0"; "0|done"]).
Definition whole_turns : list (turn (L := call) (W := mmworld)) :=
  Start (onramp (f64_of_Z 100)) :: replicate 20 (Run 0) ++ Env (later collected.1) :: Start (CReconcile true) :: replicate 20 (Run 1).
Definition whole_world : mmworld := mm_world ["tok|3599"; "ws1|0"; "0|done"].

Lemma whole_reachable : reachable perform_mm (start kenya) env whole_world (go whole_turns whole_world).
Proof.
  apply schedule_steps. vm_compute. split_and!; try done. by eexists [].
Qed.
Lemma transactions_backed_witness :
  summary (go whole_turns whole_world) = [("t1"%string, StatusCompleted, "ws1"%string)] /\
  (forall id t, pg_tables (mw_db (go whole_turns whole_world).1) !! id = Some t ->
    t_ID t = id /\ backed (mw_exchanges (go whole_turns whole_world).1) t).
Proof.
  split; [vm_compute; reflexivity|].
  exact (proj1 (transactions_backed kenya whole_world (go whole_turns whole_world) eq_refl whole_reachable)).
Defined.

(** The same key again, for a payment the other way and of another amount: the answer is
    the collection, and nothing is paid. *)
Definition the_row : Transaction :=
  {| t_ID := "t1"; t_UserID := "ada"; t_Provider := "mpesa"; t_Direction := DirectionOnramp; t_Currency := "KES";
     t_Amount := f64_of_Z 100; t_USDCAmount := f64_zero; t_PhoneNumber := "254700"; t_DestinationAddress := "GADA";
     t_Status := StatusPending; t_ProviderRef := "ws1"; t_IdempotencyKey := "k"; t_FailureReason := None; t_CreatedAt := 0;
     t_CompletedAt := None |}.
Lemma collected_reachable : reachable perform_mm (start kenya) env (mm_world ["tok|3599"; "ws1|0"; "0|done"]) collected.
Proof. by apply schedule_steps_closed. Qed.
Definition pay_back : OfframpRequest :=
  {| off_Amount := f64_of_Z 50; off_Currency := "KES"; off_PhoneNumber := "254700"; off_AccountName := "Ada"; off_Reference := "k" |}.
Definition collect_again : OnrampRequest :=
  {| on_Amount := f64_of_Z 70; on_Currency := "KES"; on_PhoneNumber := "254700"; on_DestinationAddress := "GADA"; on_Reference := "k" |}.
Lemma key_never_asks_again_witness :
  pg_tables (mw_db collected.1) !! "t1"%string = Some the_row /\
  let '(r, w') := run perform_mm (InitiateOfframp kenya "ada" pay_back "k") collected.1 in
  mw_exchanges w' = mw_exchanges collected.1 /\ pg_tables (mw_db w') = pg_tables (mw_db collected.1) /\
  ((exists t', r = Ok t' /\ t_ID t' = "t1"%string /\ same_row the_row t') \/ exists e, r = Err e).
Proof.
  assert (pg_tables (mw_db collected.1) !! "t1"%string = Some the_row) as Hrow by (vm_compute; reflexivity).
  split; [exact Hrow|].
  exact (key_never_asks_again kenya (mm_world ["tok|3599"; "ws1|0"; "0|done"]) collected collected "t1" the_row collect_again pay_back
    eq_refl collected_reachable (rtc_refl _ _) Hrow ltac:(discriminate) _ (or_intror eq_refl)).
Defined.

(** ** What the runs show *)
Lemma offramp_answers_onramp :
  (run perform_mm (handler_InitiateOfframp kenya "ada" (body (f64_of_Z 50)) "k") collected.1).1 = Ok (Created the_row).
Proof. vm_compute. reflexivity. Qed.

(** Two requests with one key that overlap: the customer is asked to pay twice, and the
    second payment has no row. *)
Definition overlapping : list (turn (L := call) (W := mmworld)) :=
  Start (onramp (f64_of_Z 100)) :: Start (onramp (f64_of_Z 100)) :: replicate 3 (Run 0) ++ replicate 3 (Run 1) ++ replicate 20 (Run 0) ++ replicate 20 (Run 1).
Lemma overlapping_pushes :
  let c := go overlapping (mm_world ["tok|3599"; "ws1|0"; "ws2|0"]) in
  amounts c = [100; 100] /\ summary c = [("t1"%string, StatusPending, "ws1"%string)].
Proof. vm_compute. split; reflexivity. Qed.

(** The fraction of the amount is recorded and not collected. *)
Lemma fraction_not_collected :
  let c := go (Start (onramp (f64_div (f64_of_Z 403) (f64_of_Z 4))) :: replicate 20 (Run 0)) (mm_world ["tok|3599"; "ws1|0"]) in
  amounts c = [100] /\ (λ x, t_Amount x.2) <$> map_to_list (pg_tables (mw_db c.1)) = [f64_div (f64_of_Z 403) (f64_of_Z 4)].
Proof. vm_compute. split; reflexivity. Qed.
End mobiledemo.
