(* ===== verification/CircleModel.v ===== *)
(** Data and pure computations of the package [circle]
    (src/internal/domain/circle: model.go, errors.go, payout.go, penalties.go):
    the rows of its tables as records, the payout orders and tallies, the pool
    and the penalties in stroops with their float adapters. *)
From S2P Require Export Money.
From stdpp Require Import options.
Open Scope Z_scope.
Local Open Scope go_scope.

(** ** Enumerations

    Each is a Go string type with constants; any other string is kept. *)
Inductive CircleType :=
  | CircleTypePublic | CircleTypePrivate | CircleTypePremium | CircleTypeOther (s : string).
Inductive PayoutType :=
  | PayoutTypeRandom | PayoutTypeFixed | PayoutTypeAuction | PayoutTypeVote
  | PayoutTypeOther (s : string).
Inductive CircleFrequency :=
  | FrequencyDaily | FrequencyWeekly | FrequencyBiweekly | FrequencyMonthly
  | FrequencyOther (s : string).
Inductive CircleCurrency :=
  | CurrencyUSDC | CurrencyXLM | CurrencyOther (s : string).
Inductive CircleStatus :=
  | CircleStatusPending | CircleStatusActive | CircleStatusCompleted | CircleStatusCancelled
  | CircleStatusOther (s : string).
Inductive MemberStatus :=
  | MemberStatusActive | MemberStatusExited | MemberStatusRemoved
  | MemberStatusOther (s : string).
Inductive PenaltyType :=
  | PenaltyTypeLate | PenaltyTypeDefault | PenaltyTypeEarlyExit | PenaltyTypeOther (s : string).

#[export] Instance CircleType_eq_dec : EqDecision CircleType.
Proof. solve_decision. Defined.
#[export] Instance PayoutType_eq_dec : EqDecision PayoutType.
Proof. solve_decision. Defined.
#[export] Instance CircleFrequency_eq_dec : EqDecision CircleFrequency.
Proof. solve_decision. Defined.
#[export] Instance CircleCurrency_eq_dec : EqDecision CircleCurrency.
Proof. solve_decision. Defined.
#[export] Instance CircleStatus_eq_dec : EqDecision CircleStatus.
Proof. solve_decision. Defined.
#[export] Instance MemberStatus_eq_dec : EqDecision MemberStatus.
Proof. solve_decision. Defined.
#[export] Instance PenaltyType_eq_dec : EqDecision PenaltyType.
Proof. solve_decision. Defined.

(** ** Rows

    [sql.NullString] and [sql.NullTime] are options; a nil pointer is [None]. *)
Record Circle := {
  c_ID : uuid;
  c_ContractID : option string;
  c_CommunityID : option uuid;
  c_Name : string;
  c_Description : option string;
  c_CircleType : CircleType;
  c_PayoutType : PayoutType;
  c_ContributionAmount : float64;
  c_Currency : CircleCurrency;
  c_Frequency : CircleFrequency;
  c_MaxMembers : Z;
  c_MinMoiScore : Z;
  c_CollateralPercent : float64;
  c_LateFeePercent : float64;
  c_GracePeriodHours : Z;
  c_MaxStrikes : Z;
  c_MemberCount : Z;
  c_RequiresInvite : bool;
  c_StartDate : option time;
  c_EndDate : option time;
  c_Status : CircleStatus;
  c_CurrentRound : Z;
  c_TotalContributions : float64;
  c_OrganizerID : uuid;
  c_CreatedAt : time;
  c_UpdatedAt : time;
  c_DeletedAt : option time;
}.

Record CircleMember := {
  m_CircleID : uuid;
  m_UserID : uuid;
  m_Position : Z;
  m_Status : MemberStatus;
  m_JoinedAt : time;
}.

Record Penalty := {
  p_ID : uuid;
  p_CircleID : uuid;
  p_UserID : uuid;
  p_RoundNumber : Z;
  p_PenaltyType : PenaltyType;
  p_Amount : float64;
  p_StrikesApplied : Z;
  p_Reason : option string;
  p_CreatedAt : time;
}.

Record CircleDispute := {
  d_ID : uuid;
  d_CircleID : uuid;
  d_RaiserID : uuid;
  d_Reason : string;
  d_Details : option string;
  d_Status : string;
  d_CreatedAt : time;
  d_UpdatedAt : time;
}.

Record CircleVote := {
  v_ID : uuid;
  v_CircleID : uuid;
  v_VoterID : uuid;
  v_RecipientID : uuid;
  v_RoundNumber : Z;
  v_CreatedAt : time;
}.

Record CircleAuctionBid := {
  b_ID : uuid;
  b_CircleID : uuid;
  b_BidderID : uuid;
  b_RoundNumber : Z;
  b_BidAmount : float64;
  b_CreatedAt : time;
}.

Record RoundConfigSnapshot := {
  rc_ID : uuid;
  rc_CircleID : uuid;
  rc_RoundNumber : Z;
  rc_ConfigHash : string;
  rc_ConfigJSON : string;
  rc_CreatedAt : time;
}.

(** ** Errors of the package *)
Definition ErrCircleNotFound := Sentinel "circle not found".
Definition ErrNotOrganizer := Sentinel "only the organizer can perform this action".
Definition ErrCircleNotActive := Sentinel "circle is not active".
Definition ErrCircleFull := Sentinel "circle is full".
Definition ErrAlreadyMember := Sentinel "already a member of this circle".
Definition ErrNotMember := Sentinel "not a member of this circle".
Definition ErrInvalidInvite := Sentinel "invalid or expired invite code".
Definition ErrParticipantLimit := Sentinel "circle must have at least 2 members".
Definition ErrNotCommunityMember := Sentinel "user is not a member of this community".
Definition ErrInvalidUUID := Sentinel "invalid UUID format".

(** ** Payout orders *)

(** Exchange of two entries of a slice; an index out of range panics. *)
Definition swap_nth (l : list Z) (i j : nat) : result (list Z) :=
  match l !! i, l !! j with
  | Some x, Some y => Ok (<[i := y]> (<[j := x]> l))
  | _, _ => Panic
  end.

(** [rng.Shuffle]: for [i] from [n - 1] down to 1 exchange the entries [i] and
    [draw i], where [draw i] is the generator's number below [i + 1]. *)
Fixpoint Shuffle (draw : nat -> nat) (i : nat) (l : list Z) : result (list Z) :=
  match i with
  | O => Ok l
  | S i' => let? l' := swap_nth l i (draw i) in Shuffle draw i' l'
  end.

(** The numbers a seeded source gives are those of [draw seed]; [make] panics
    on a negative length. *)
Definition RandomOrder (draw : Z -> nat -> nat) (seed : Z) (memberCount : Z) : result (list Z) :=
  if memberCount <? 0 then Panic
  else Shuffle (draw seed) (Z.to_nat memberCount - 1)
         (Z.of_nat <$> seq 0 (Z.to_nat memberCount)).

(** A [range] over a Go map visits its entries in an unspecified order: the two
    tallies take the entries in the order they are visited. *)
Definition AuctionWinner (bids : list (string * float64)) : string * float64 :=
  fold_left (λ '(winner, maxBid) '(user, bid),
      if f64_gt bid maxBid then (user, bid) else (winner, maxBid))
    bids ("", f64_zero).

Definition VoteTally_loop (votes : list (string * Z)) (st : string * Z) : string * Z :=
  fold_left (λ '(winner, maxVotes) '(user, cnt),
      if maxVotes <? cnt then (user, cnt) else (winner, maxVotes)) votes st.

Definition VoteTally (votes : list (string * Z)) : string := (VoteTally_loop votes ("", 0)).1.

Definition PayoutPool (contribution : money.Money) (memberCount : Z)
    (latePenalties : money.Money) : result money.Money :=
  let? pool := money.MulInt contribution memberCount in
  money.Add pool latePenalties.

(** [if err != nil { return 0 }] of the float adapters. *)
Definition float_or_zero (r : result money.Money) : float64 :=
  match r with Ok m => money.Float64 m | _ => f64_zero end.

Definition CalculatePayout (contributionAmount : float64) (memberCount roundNumber : Z)
    (latePenalties : float64) : float64 :=
  float_or_zero (
    let? contribution := money.FromFloat64 contributionAmount in
    let? penalties := money.FromFloat64 latePenalties in
    PayoutPool contribution memberCount penalties).

(** ** Penalties *)
Definition LateFee `{GoFloatConv} (contribution : money.Money) (lateFeePercent : float64) :
    result money.Money := money.Percent contribution lateFeePercent.

Definition CalculateLateFee `{GoFloatConv} (contributionAmount lateFeePercent : float64) :
    float64 :=
  float_or_zero (
    let? contribution := money.FromFloat64 contributionAmount in
    LateFee contribution lateFeePercent).

Definition EarlyExitPenalty (totalContributed collateral : money.Money) (strikes : Z) :
    result money.Money :=
  if negb (money.IsPositive totalContributed) then Ok collateral else
  let? penalty := money.MulDiv collateral (wrap64 (strikes + 1)) 10 in
  Ok (if 0 <? money.Cmp penalty totalContributed then totalContributed else penalty).

Definition CalculateEarlyExitPenalty (totalContributed collateralAmount : float64)
    (strikes : Z) : float64 :=
  float_or_zero (
    let? contributed := money.FromFloat64 totalContributed in
    let? collateral := money.FromFloat64 collateralAmount in
    EarlyExitPenalty contributed collateral strikes).

Definition ShouldRemoveMember (strikes maxStrikes : Z) : bool := maxStrikes <=? strikes.

Definition ApplyStrikes (member : CircleMember) (penaltyType : string) : Z :=
  if decide (penaltyType = "severe"%string) then 3 else 1.

(** ** Lemmas *)
Lemma swap_nth_perm l i j :
  (i < length l)%nat -> (j < length l)%nat ->
  exists l', swap_nth l i j = Ok l' /\ l' ≡ₚ l.
Proof.
  intros [x Hi]%lookup_lt_is_Some_2 [y Hj]%lookup_lt_is_Some_2. unfold swap_nth.
  rewrite Hi, Hj. eexists. split; [done|].
  destruct (decide (i = j)) as [->|Hne].
  { simplify_eq. rewrite list_insert_insert_eq, list_insert_id; done. }
  pose proof (lookup_lt_Some _ _ _ Hi). pose proof (lookup_lt_Some _ _ _ Hj).
  apply Permutation_inj. split; [by rewrite !length_insert|].
  exists (λ k, if decide (k = i) then j else if decide (k = j) then i else k).
  split.
  - intros k k'. repeat case_decide; congruence.
  - intros k. destruct (decide (k = i)) as [->|]; [|destruct (decide (k = j)) as [->|]].
    + rewrite list_lookup_insert_eq by (by rewrite length_insert). done.
    + rewrite list_lookup_insert_ne, list_lookup_insert_eq by done. done.
    + by rewrite !list_lookup_insert_ne by done.
Qed.

Lemma Shuffle_perm draw i l :
  (i < length l)%nat \/ i = O -> (forall k, draw k <= k)%nat ->
  exists l', Shuffle draw i l = Ok l' /\ l' ≡ₚ l.
Proof.
  intros Hi Hd. revert l Hi. induction i as [|i IH]; intros l Hi; cbn [Shuffle]; [eauto|].
  pose proof (Hd (S i)).
  destruct (swap_nth_perm l (S i) (draw (S i))) as (l1 & Hs & Hp); [lia..|].
  rewrite Hs. cbn [result_bind]. pose proof (Permutation_length Hp).
  destruct (IH l1) as (l2 & H2 & Hp2); [lia|]. exists l2. split; [done|]. by rewrite Hp2.
Qed.

(** The loop of [VoteTally] keeps the best entry it has seen. *)
Lemma VoteTally_loop_spec votes w0 n0 w n :
  VoteTally_loop votes (w0, n0) = (w, n) ->
  n0 <= n /\ ((w, n) = (w0, n0) \/ (w, n) ∈ votes) /\
  (forall u c, (u, c) ∈ votes -> c <= n).
Proof.
  revert w0 n0. induction votes as [|[u c] votes IH]; intros w0 n0; cbn.
  { intros [= <- <-]. split_and!; [lia|by left|].
    by intros ? ? ?%not_elem_of_nil. }
  intros H. destruct (Z.ltb_spec n0 c).
  - destruct (IH _ _ H) as (? & Hor & Hall). split_and!; [lia| |].
    + right. destruct Hor as [[= -> ->]|]; [by left|by right].
    + intros u' c' [[= -> ->]|]%elem_of_cons; [done|eauto].
  - destruct (IH _ _ H) as (? & Hor & Hall). split_and!; [lia| |].
    + destruct Hor; [by left|by right; right].
    + intros u' c' [[= -> ->]|]%elem_of_cons; [lia|eauto].
Qed.

(** whatever numbers the seeded source draws, [RandomOrder] returns every
    position of the circle exactly once: the payout order is a permutation. *)
Theorem RandomOrder_permutation draw seed memberCount :
  0 <= memberCount -> (forall s k, (draw s k <= k)%nat) ->
  exists order, RandomOrder draw seed memberCount = Ok order /\
    order ≡ₚ (Z.of_nat <$> seq 0 (Z.to_nat memberCount)).
Proof.
  intros Hn Hd. unfold RandomOrder. destruct (Z.ltb_spec memberCount 0); [lia|].
  apply Shuffle_perm; [|auto]. rewrite length_fmap, length_seq. lia.
Qed.

Lemma RandomOrder_permutation_witness :
  exists order, RandomOrder (λ _ k, (k / 2)%nat) 7 5 = Ok order /\ order ≡ₚ [0; 1; 2; 3; 4].
Proof.
  destruct (RandomOrder_permutation (λ _ k, (k / 2)%nat) 7 5) as (o & Ho & Hp).
  - lia.
  - intros _ k. apply Nat.Div0.div_le_upper_bound. lia.
  - exists o. split; [exact Ho | exact Hp].
Defined.

(** A member strictly ahead of everybody else wins in every visiting order. *)
Lemma VoteTally_unique votes leader n :
  (leader, n) ∈ votes -> 0 < n ->
  (forall u c, (u, c) ∈ votes -> u <> leader -> c < n) ->
  (forall c, (leader, c) ∈ votes -> c = n) -> VoteTally votes = leader.
Proof.
  intros Hin Hpos Hlt Huniq. destruct (VoteTally_loop votes ("", 0)) as [w m] eqn:E.
  unfold VoteTally. rewrite E.
  destruct (VoteTally_loop_spec _ _ _ _ _ E) as (_ & Hor & Hall).
  pose proof (Hall _ _ Hin). destruct Hor as [[= -> ->]|Hw]; [lia|].
  destruct (decide (w = leader)); [done|]. specialize (Hlt _ _ Hw ltac:(done)). cbn. lia.
Qed.

(** the winner of [VoteTally] has at least as many votes as everybody else
    for every order in which the map is visited; when one member is strictly
    ahead the winner does not depend on that order. *)
Theorem VoteTally_winner votes leader n :
  (leader, n) ∈ votes -> 0 < n ->
  (exists m, (VoteTally votes, m) ∈ votes /\ forall u c, (u, c) ∈ votes -> c <= m) /\
  ((forall u c, (u, c) ∈ votes -> u <> leader -> c < n) ->
   (forall c, (leader, c) ∈ votes -> c = n) ->
   forall votes', votes' ≡ₚ votes -> VoteTally votes' = leader).
Proof.
  intros Hin Hpos. split.
  - destruct (VoteTally_loop votes ("", 0)) as [w m] eqn:E. unfold VoteTally. rewrite E.
    destruct (VoteTally_loop_spec _ _ _ _ _ E) as (_ & Hor & Hall).
    exists m. split; [|done]. destruct Hor as [[= -> ->]|]; [|done].
    specialize (Hall _ _ Hin). lia.
  - intros Hlt Huniq votes' Hp. apply (VoteTally_unique _ _ n); try setoid_rewrite Hp; done.
Qed.

Lemma VoteTally_winner_witness :
  VoteTally [("b"%string, 2); ("a"%string, 3)] = "a"%string /\
  VoteTally [("a"%string, 3); ("b"%string, 2)] = "a"%string.
Proof.
  destruct (VoteTally_winner [("a"%string, 3); ("b"%string, 2)] "a" 3) as [_ H].
  - by left.
  - lia.
  - assert (forall u c, (u, c) ∈ [("a"%string, 3); ("b"%string, 2)] ->
      (u = "a"%string /\ c = 3) \/ (u = "b"%string /\ c = 2)) as Hin.
    { intros u c Hx. apply elem_of_cons in Hx as [[= -> ->]|Hx]; [by left|].
      apply elem_of_cons in Hx as [[= -> ->]|Hx]; [by right|]. by apply not_elem_of_nil in Hx. }
    split; (apply H; [| | solve [apply Permutation_swap | done]]).
    1, 3: intros u c Hx Hne; destruct (Hin _ _ Hx) as [[-> ->]|[-> ->]]; [done|lia].
    all: intros c Hx; destruct (Hin _ _ Hx) as [[_ ->]|[Hab _]]; [done|discriminate Hab].
Defined.

(** the pool of a round is exactly members times contribution plus the late
    penalties, and it fails only when the product or the sum leaves [int64]. *)
Theorem PayoutPool_exact contribution memberCount latePenalties :
  money.valid latePenalties ->
  PayoutPool contribution memberCount latePenalties
  = (let pool := money.stroops contribution * memberCount in
     if in_int64 pool && in_int64 (pool + money.stroops latePenalties)
     then Ok (money.FromStroops (pool + money.stroops latePenalties))
     else Err money.ErrOverflow).
Proof.
  intros Hv. unfold PayoutPool, money.MulInt. rewrite fromBig_eq.
  destruct (in_int64 (money.stroops contribution * memberCount)) eqn:E; [|done].
  cbn [result_bind]. rewrite add_guard by done. by rewrite fromBig_eq.
Qed.

Lemma PayoutPool_exact_witness :
  PayoutPool (money.FromStroops 100) 12 (money.FromStroops 7) = Ok (money.FromStroops 1207).
Proof. apply (PayoutPool_exact (money.FromStroops 100) 12 (money.FromStroops 7)). reflexivity. Defined.

(** a member who contributed is never charged more than the contributions
    nor, with fewer than ten strikes, more than the collateral, and the charge
    never fails; a member who contributed nothing forfeits the collateral. *)
Theorem EarlyExitPenalty_bounds totalContributed collateral strikes :
  money.valid totalContributed -> money.valid collateral ->
  0 <= money.stroops collateral -> 0 <= strikes < 10 ->
  exists penalty, EarlyExitPenalty totalContributed collateral strikes = Ok penalty /\
    if money.IsPositive totalContributed
    then 0 <= money.stroops penalty
         <= Z.min (money.stroops totalContributed) (money.stroops collateral)
    else penalty = collateral.
Proof.
  intros Ht Hc%valid_bounds Hpos Hs. unfold EarlyExitPenalty.
  destruct (money.IsPositive totalContributed) eqn:Hp; cbn [negb]; [|eauto].
  rewrite wrap64_id by (apply in_int64_spec; unfold int64_min, int64_max; lia).
  pose proof (roundDiv_share (money.stroops collateral) (strikes + 1) 10 Hpos
                ltac:(lia) ltac:(lia)) as Hr.
  unfold money.MulDiv. cbn [Z.eqb]. rewrite fromBig_eq.
  rewrite (proj2 (in_int64_spec _)) by (unfold int64_min, int64_max in *; lia).
  cbn [result_bind]. eexists. split; [done|].
  unfold money.IsPositive, money.Cmp in *. go_bool. cbn [money.stroops].
  repeat case_match; go_bool; cbn [money.stroops] in *; lia.
Qed.

Lemma EarlyExitPenalty_bounds_witness :
  exists penalty, EarlyExitPenalty (money.FromStroops 500) (money.FromStroops 1000) 2
                  = Ok penalty /\ 0 <= money.stroops penalty <= 500.
Proof.
  destruct (EarlyExitPenalty_bounds (money.FromStroops 500) (money.FromStroops 1000) 2)
    as (p & Hp & Hb); [reflexivity | reflexivity | done | lia |].
  exists p. split; [exact Hp | exact Hb].
Defined.
