(* ===== verification/CircleRepo.v ===== *)
(** The storage contract of the package [circle]
    (src/internal/domain/circle/repository.go): the tables the repository reads
    and writes, the Go interface [Repository] as a type class over a world [W],
    the pure meaning of each operation on the tables, and the class of laws that
    an implementation promises to the service.

    An implementation may fail at any call (a lost connection, a constraint of
    the database, an aborted transaction): the laws say that a call either does
    what its pure meaning says, or returns an infrastructure error and leaves
    the tables as they were. *)
From S2P Require Export Contract CircleModel.
From stdpp Require Import options.
Open Scope Z_scope.
Local Open Scope go_scope.

(** ** Tables *)
Record rawContrib := {
  rct_ID : uuid;
  rct_CircleID : uuid;
  rct_UserID : uuid;
  rct_RoundNumber : Z;
  rct_Amount : float64;
  rct_TxnHash : option string;
  rct_Status : string;
  rct_OnTime : bool;
  rct_VerifiedOnchain : bool;
  rct_VerificationStatus : string;
  rct_CreatedAt : time;
  rct_UpdatedAt : time;
}.

Record rawPayout := {
  rp_ID : uuid;
  rp_CircleID : uuid;
  rp_RecipientID : uuid;
  rp_RoundNumber : Z;
  rp_Amount : float64;
  rp_FeeAmount : float64;
  rp_TxnHash : option string;
  rp_PayoutType : string;
  rp_VerifiedOnchain : bool;
  rp_VerificationStatus : string;
  rp_CreatedAt : time;
  rp_UpdatedAt : time;
}.

(** The rows, by the columns a unique constraint of the schema names:
    circles by id, members by (circle, user), votes and bids by
    (circle, member, round), configurations by (circle, round). *)
Record tables := {
  t_circles : gmap uuid Circle;
  t_members : gmap (uuid * uuid) CircleMember;
  t_penalties : list Penalty;
  t_contributions : list rawContrib;
  t_payouts : list rawPayout;
  t_disputes : list CircleDispute;
  t_votes : gmap (uuid * uuid * Z) CircleVote;
  t_bids : gmap (uuid * uuid * Z) CircleAuctionBid;
  t_configs : gmap (uuid * Z) RoundConfigSnapshot;
}.

Definition set_circles (f : gmap uuid Circle -> gmap uuid Circle) (t : tables) : tables :=
  {| t_circles := f (t_circles t); t_members := t_members t; t_penalties := t_penalties t;
     t_contributions := t_contributions t; t_payouts := t_payouts t;
     t_disputes := t_disputes t; t_votes := t_votes t; t_bids := t_bids t;
     t_configs := t_configs t |}.
Definition set_members (f : gmap (uuid * uuid) CircleMember -> gmap (uuid * uuid) CircleMember)
    (t : tables) : tables :=
  {| t_circles := t_circles t; t_members := f (t_members t); t_penalties := t_penalties t;
     t_contributions := t_contributions t; t_payouts := t_payouts t;
     t_disputes := t_disputes t; t_votes := t_votes t; t_bids := t_bids t;
     t_configs := t_configs t |}.
Definition set_penalties (f : list Penalty -> list Penalty) (t : tables) : tables :=
  {| t_circles := t_circles t; t_members := t_members t; t_penalties := f (t_penalties t);
     t_contributions := t_contributions t; t_payouts := t_payouts t;
     t_disputes := t_disputes t; t_votes := t_votes t; t_bids := t_bids t;
     t_configs := t_configs t |}.
Definition set_disputes (f : list CircleDispute -> list CircleDispute) (t : tables) : tables :=
  {| t_circles := t_circles t; t_members := t_members t; t_penalties := t_penalties t;
     t_contributions := t_contributions t; t_payouts := t_payouts t;
     t_disputes := f (t_disputes t); t_votes := t_votes t; t_bids := t_bids t;
     t_configs := t_configs t |}.
Definition set_votes (f : gmap (uuid * uuid * Z) CircleVote -> gmap (uuid * uuid * Z) CircleVote)
    (t : tables) : tables :=
  {| t_circles := t_circles t; t_members := t_members t; t_penalties := t_penalties t;
     t_contributions := t_contributions t; t_payouts := t_payouts t;
     t_disputes := t_disputes t; t_votes := f (t_votes t); t_bids := t_bids t;
     t_configs := t_configs t |}.
Definition set_bids
    (f : gmap (uuid * uuid * Z) CircleAuctionBid -> gmap (uuid * uuid * Z) CircleAuctionBid)
    (t : tables) : tables :=
  {| t_circles := t_circles t; t_members := t_members t; t_penalties := t_penalties t;
     t_contributions := t_contributions t; t_payouts := t_payouts t;
     t_disputes := t_disputes t; t_votes := t_votes t; t_bids := f (t_bids t);
     t_configs := t_configs t |}.
Definition set_configs
    (f : gmap (uuid * Z) RoundConfigSnapshot -> gmap (uuid * Z) RoundConfigSnapshot)
    (t : tables) : tables :=
  {| t_circles := t_circles t; t_members := t_members t; t_penalties := t_penalties t;
     t_contributions := t_contributions t; t_payouts := t_payouts t;
     t_disputes := t_disputes t; t_votes := t_votes t; t_bids := t_bids t;
     t_configs := f (t_configs t) |}.

(** ** Filters of [List] and [Count] *)
Record CircleFilter := {
  cf_Search : string;
  cf_Status : string;
  cf_Type : string;
  cf_Page : Z;
  cf_Limit : Z;
  cf_ExcludeIDs : list uuid;
  cf_CommunityID : option uuid;
  cf_OrganizerID : option uuid;
}.

(** The text of the Go string types. *)
Definition circle_status_text (s : CircleStatus) : string :=
  match s with
  | CircleStatusPending => "pending" | CircleStatusActive => "active"
  | CircleStatusCompleted => "completed" | CircleStatusCancelled => "cancelled"
  | CircleStatusOther s => s
  end.
Definition circle_type_text (s : CircleType) : string :=
  match s with
  | CircleTypePublic => "public" | CircleTypePrivate => "private"
  | CircleTypePremium => "premium" | CircleTypeOther s => s
  end.
Definition member_status_text (s : MemberStatus) : string :=
  match s with
  | MemberStatusActive => "active" | MemberStatusExited => "exited"
  | MemberStatusRemoved => "removed" | MemberStatusOther s => s
  end.

(** ** The interface [Repository]

    A returned pointer is an option: the interface does not exclude
    [nil, nil].  [WithTransaction] is the interface [Transactor]. *)
Class Repository (W : Type) := {
  FindByID : uuid -> M W (option Circle);
  FindByContractID : string -> M W (option Circle);
  List : CircleFilter -> M W (list Circle);
  Count : CircleFilter -> M W Z;
  Create : Circle -> M W unit;
  Update : Circle -> M W unit;
  Delete : uuid -> time -> M W unit;
  CreateMember : CircleMember -> M W unit;
  GetMembers : uuid -> M W (list CircleMember);
  GetMemberCount : uuid -> M W Z;
  UpdateMemberStatus : uuid -> uuid -> MemberStatus -> M W unit;
  FindMemberByCircleAndUser : uuid -> uuid -> M W (option CircleMember);
  FindCirclesByUserID : uuid -> M W (list Circle);
  CreatePenalty : Penalty -> M W unit;
  GetPenaltiesByCircle : uuid -> M W (list Penalty);
  GetPenaltiesByUser : uuid -> M W (list Penalty);
  GetContributionsByCircleAndRound : uuid -> Z -> M W (list uuid);
  CreateDispute : CircleDispute -> M W unit;
  CreateVote : CircleVote -> M W unit;
  GetVotesByRound : uuid -> Z -> M W (list CircleVote);
  CreateAuctionBid : CircleAuctionBid -> M W unit;
  GetAuctionBidsByRound : uuid -> Z -> M W (list CircleAuctionBid);
  SaveRoundConfigSnapshot : RoundConfigSnapshot -> M W unit;
  GetRoundConfigSnapshot : uuid -> Z -> M W (option RoundConfigSnapshot);
}.

(** ** Meaning of the operations on the tables *)

(** Active members of a circle, the sub-query [member_count]. *)
Definition active_member (id : uuid) (m : CircleMember) : bool :=
  (m_CircleID m =? id)%N && bool_decide (m_Status m = MemberStatusActive).

Definition members_list (t : tables) : list CircleMember :=
  (map_to_list (t_members t)).*2.

Definition active_count (t : tables) (id : uuid) : Z :=
  Z.of_nat (length (filter (λ m, active_member id m) (members_list t))).

Definition set_member_count (n : Z) (c : Circle) : Circle :=
  {| c_ID := c_ID c; c_ContractID := c_ContractID c; c_CommunityID := c_CommunityID c;
     c_Name := c_Name c; c_Description := c_Description c; c_CircleType := c_CircleType c;
     c_PayoutType := c_PayoutType c; c_ContributionAmount := c_ContributionAmount c;
     c_Currency := c_Currency c; c_Frequency := c_Frequency c;
     c_MaxMembers := c_MaxMembers c; c_MinMoiScore := c_MinMoiScore c;
     c_CollateralPercent := c_CollateralPercent c; c_LateFeePercent := c_LateFeePercent c;
     c_GracePeriodHours := c_GracePeriodHours c; c_MaxStrikes := c_MaxStrikes c;
     c_MemberCount := n; c_RequiresInvite := c_RequiresInvite c;
     c_StartDate := c_StartDate c; c_EndDate := c_EndDate c; c_Status := c_Status c;
     c_CurrentRound := c_CurrentRound c; c_TotalContributions := c_TotalContributions c;
     c_OrganizerID := c_OrganizerID c; c_CreatedAt := c_CreatedAt c;
     c_UpdatedAt := c_UpdatedAt c; c_DeletedAt := None |}.

(** The columns a query of [circles] selects: the member count is computed, the
    column [deleted_at] is not among them. *)
Definition circle_view (t : tables) (row : Circle) : Circle :=
  set_member_count (active_count t (c_ID row)) row.

(** The rows that are not soft deleted. *)
Definition visible_circle (t : tables) (id : uuid) : option Circle :=
  match t_circles t !! id with
  | Some row =>
      match c_DeletedAt row with
      | Some _ => None
      | None => Some (circle_view t row)
      end
  | None => None
  end.

(** The columns the statement of [Create] writes: all but [deleted_at] and the
    computed member count. *)
Definition inserted_row (c : Circle) : Circle := set_member_count 0 c.

(** The columns the statement of [Update] writes. *)
Definition update_row (c row : Circle) : Circle :=
  {| c_ID := c_ID row; c_ContractID := c_ContractID row; c_CommunityID := c_CommunityID row;
     c_Name := c_Name c; c_Description := c_Description c; c_CircleType := c_CircleType c;
     c_PayoutType := c_PayoutType c; c_ContributionAmount := c_ContributionAmount c;
     c_Currency := c_Currency c; c_Frequency := c_Frequency c;
     c_MaxMembers := c_MaxMembers c; c_MinMoiScore := c_MinMoiScore c;
     c_CollateralPercent := c_CollateralPercent c; c_LateFeePercent := c_LateFeePercent c;
     c_GracePeriodHours := c_GracePeriodHours c; c_MaxStrikes := c_MaxStrikes c;
     c_MemberCount := c_MemberCount row; c_RequiresInvite := c_RequiresInvite c;
     c_StartDate := c_StartDate c; c_EndDate := c_EndDate c; c_Status := c_Status c;
     c_CurrentRound := c_CurrentRound c; c_TotalContributions := c_TotalContributions c;
     c_OrganizerID := c_OrganizerID row; c_CreatedAt := c_CreatedAt row;
     c_UpdatedAt := c_UpdatedAt c; c_DeletedAt := c_DeletedAt row |}.

(** [SET deleted_at = NOW()] *)
Definition deleted_row (now : time) (r : Circle) : Circle :=
  {| c_ID := c_ID r; c_ContractID := c_ContractID r; c_CommunityID := c_CommunityID r;
     c_Name := c_Name r; c_Description := c_Description r; c_CircleType := c_CircleType r;
     c_PayoutType := c_PayoutType r; c_ContributionAmount := c_ContributionAmount r;
     c_Currency := c_Currency r; c_Frequency := c_Frequency r;
     c_MaxMembers := c_MaxMembers r; c_MinMoiScore := c_MinMoiScore r;
     c_CollateralPercent := c_CollateralPercent r; c_LateFeePercent := c_LateFeePercent r;
     c_GracePeriodHours := c_GracePeriodHours r; c_MaxStrikes := c_MaxStrikes r;
     c_MemberCount := c_MemberCount r; c_RequiresInvite := c_RequiresInvite r;
     c_StartDate := c_StartDate r; c_EndDate := c_EndDate r; c_Status := c_Status r;
     c_CurrentRound := c_CurrentRound r; c_TotalContributions := c_TotalContributions r;
     c_OrganizerID := c_OrganizerID r; c_CreatedAt := c_CreatedAt r;
     c_UpdatedAt := c_UpdatedAt r; c_DeletedAt := Some now |}.

Definition set_member_status (s : MemberStatus) (m : CircleMember) : CircleMember :=
  {| m_CircleID := m_CircleID m; m_UserID := m_UserID m; m_Position := m_Position m;
     m_Status := s; m_JoinedAt := m_JoinedAt m |}.

Definition member_key (m : CircleMember) : uuid * uuid := (m_CircleID m, m_UserID m).
Definition vote_key (v : CircleVote) : uuid * uuid * Z :=
  (v_CircleID v, v_VoterID v, v_RoundNumber v).
Definition bid_key (b : CircleAuctionBid) : uuid * uuid * Z :=
  (b_CircleID b, b_BidderID b, b_RoundNumber b).
Definition config_key (c : RoundConfigSnapshot) : uuid * Z := (rc_CircleID c, rc_RoundNumber c).

(** A violated unique constraint of [circles]: the id or the contract id. *)
Definition circle_conflict (t : tables) (c : Circle) : bool :=
  bool_decide (is_Some (t_circles t !! c_ID c)) ||
  existsb (λ row, bool_decide (is_Some (c_ContractID c) /\ c_ContractID row = c_ContractID c))
    (map_to_list (t_circles t)).*2.

(** A violated unique constraint of [circle_votes]: the id or the voter's round. *)
Definition vote_conflict (t : tables) (v : CircleVote) : bool :=
  bool_decide (is_Some (t_votes t !! vote_key v)) ||
  existsb (λ row, (v_ID row =? v_ID v)%N) (map_to_list (t_votes t)).*2.

(** [ON CONFLICT (circle_id, bidder_id, round_number) DO UPDATE]: the id of the
    first bid stays, the amount and the time are replaced. *)
Definition upsert_bid (b : CircleAuctionBid) (old : option CircleAuctionBid) : CircleAuctionBid :=
  match old with
  | Some o => {| b_ID := b_ID o; b_CircleID := b_CircleID o; b_BidderID := b_BidderID o;
                 b_RoundNumber := b_RoundNumber o; b_BidAmount := b_BidAmount b;
                 b_CreatedAt := b_CreatedAt b |}
  | None => b
  end.

(** Orders of [ORDER BY]; rows that compare equal keep the table's order. *)
Definition by_position (m n : CircleMember) : Prop := m_Position m <= m_Position n.
#[export] Instance by_position_dec m n : Decision (by_position m n).
Proof. unfold by_position. apply _. Defined.
#[export] Instance by_position_total : Total by_position.
Proof. intros m n. unfold by_position. lia. Qed.
#[export] Instance by_position_trans : Transitive by_position.
Proof. intros m n o. unfold by_position. lia. Qed.

Definition by_vote_time (v w : CircleVote) : Prop := v_CreatedAt v <= v_CreatedAt w.
#[export] Instance by_vote_time_dec v w : Decision (by_vote_time v w).
Proof. unfold by_vote_time. apply _. Defined.

Definition by_created_desc (c d : Circle) : Prop := c_CreatedAt d <= c_CreatedAt c.
#[export] Instance by_created_desc_dec c d : Decision (by_created_desc c d).
Proof. unfold by_created_desc. apply _. Defined.

(** [bid_amount DESC, created_at ASC]; the column is [NUMERIC]: its values are
    the finite ones the driver decodes. *)
Definition by_bid (b c : CircleAuctionBid) : Prop :=
  f64_gt (b_BidAmount b) (b_BidAmount c) = true \/
  f64_gt (b_BidAmount c) (b_BidAmount b) = false /\ b_CreatedAt b <= b_CreatedAt c.
#[export] Instance by_bid_dec b c : Decision (by_bid b c).
Proof. unfold by_bid. apply _. Defined.

Definition by_penalty_desc (p q : Penalty) : Prop := p_CreatedAt q <= p_CreatedAt p.
#[export] Instance by_penalty_desc_dec p q : Decision (by_penalty_desc p q).
Proof. unfold by_penalty_desc. apply _. Defined.

Definition circle_members (t : tables) (id : uuid) : list CircleMember :=
  merge_sort by_position (filter (λ m, m_CircleID m = id) (members_list t)).

Definition round_votes (t : tables) (id : uuid) (round : Z) : list CircleVote :=
  merge_sort by_vote_time
    (filter (λ v, v_CircleID v = id /\ v_RoundNumber v = round) (map_to_list (t_votes t)).*2).

Definition round_bids (t : tables) (id : uuid) (round : Z) : list CircleAuctionBid :=
  merge_sort by_bid
    (filter (λ b, b_CircleID b = id /\ b_RoundNumber b = round) (map_to_list (t_bids t)).*2).

(** [name ILIKE pattern] of PostgreSQL, a function of the column and the pattern. *)
Class TextMatch := { ilike : string -> string -> bool }.

(** The [WHERE] clauses [List] and [Count] build from a filter; an empty string
    or a nil pointer adds no clause.  [Count] does not look at [ExcludeIDs]. *)
Definition matches_filter `{TextMatch} (f : CircleFilter) (c : Circle) : bool :=
  let pattern := ("%" ++ cf_Search f ++ "%")%string in
  (bool_decide (cf_Search f = "") || ilike (c_Name c) pattern ||
     match c_Description c with Some d => ilike d pattern | None => false end) &&
  (bool_decide (cf_Status f = "") || bool_decide (circle_status_text (c_Status c) = cf_Status f)) &&
  (bool_decide (cf_Type f = "") || bool_decide (circle_type_text (c_CircleType c) = cf_Type f)) &&
  match cf_CommunityID f with
  | Some id => bool_decide (c_CommunityID c = Some id)
  | None => true
  end &&
  match cf_OrganizerID f with
  | Some id => (c_OrganizerID c =? id)%N
  | None => true
  end.

Definition not_deleted (c : Circle) : bool := bool_decide (c_DeletedAt c = None).

(** [page, limit := 1, 20] and the two overrides of [List]. *)
Definition list_page (f : CircleFilter) : Z := if 0 <? cf_Page f then cf_Page f else 1.
Definition list_limit (f : CircleFilter) : Z :=
  if (0 <? cf_Limit f) && (cf_Limit f <=? 100) then cf_Limit f else 20.
Definition list_offset (f : CircleFilter) : Z :=
  wrap64 (wrap64 (list_page f - 1) * list_limit f).

Definition rows_of (t : tables) : list Circle := (map_to_list (t_circles t)).*2.

(** The rows a filter selects, newest first. *)
Definition listed `{TextMatch} (f : CircleFilter) (t : tables) : list Circle :=
  merge_sort by_created_desc (circle_view t <$>
    filter (λ c, not_deleted c && matches_filter f c
                 && bool_decide (c_ID c ∉ cf_ExcludeIDs f)) (rows_of t)).

Definition spec_FindByID (id : uuid) := found ErrCircleNotFound (λ t, visible_circle t id).
Definition spec_FindByContractID (contractID : string) := found ErrCircleNotFound (λ t,
  circle_view t <$> head (filter (λ c, not_deleted c &&
    bool_decide (c_ContractID c = Some contractID)) (rows_of t))).
(** PostgreSQL rejects a negative [OFFSET]. *)
Definition spec_List `{TextMatch} (f : CircleFilter) := query (λ t,
  take (Z.to_nat (list_limit f)) (drop (Z.to_nat (list_offset f)) (listed f t))).
Definition spec_Count `{TextMatch} (f : CircleFilter) := query (λ t,
  Z.of_nat (length (filter (λ c, not_deleted c && matches_filter f c) (rows_of t)))).
Definition spec_Create (c : Circle) := write
  (λ t, if circle_conflict t c then Some apperrors_ErrConflict else None)
  (set_circles <[c_ID c := inserted_row c]>).
Definition spec_Update (c : Circle) := write
  (λ t, if t_circles t !! c_ID c is Some _ then None else Some ErrCircleNotFound)
  (set_circles (alter (update_row c) (c_ID c))).
Definition spec_Delete (id : uuid) (now : time) := write
  (λ t, if t_circles t !! id is Some _ then None else Some ErrCircleNotFound)
  (set_circles (alter (deleted_row now) id)).
Definition spec_CreateMember (m : CircleMember) := write
  (λ t, if t_members t !! member_key m is Some _ then Some ErrAlreadyMember else None)
  (set_members <[member_key m := m]>).
Definition spec_GetMembers (id : uuid) := query (λ t, circle_members t id).
Definition spec_GetMemberCount (id : uuid) := query (λ t, active_count t id).
Definition spec_UpdateMemberStatus (cid uid : uuid) (s : MemberStatus) := write
  (λ t, if t_members t !! (cid, uid) is Some _ then None else Some ErrNotMember)
  (set_members (alter (set_member_status s) (cid, uid))).
Definition spec_FindMember (cid uid : uuid) :=
  found apperrors_ErrNotFound (λ t, t_members t !! (cid, uid)).
Definition spec_FindCirclesByUserID (uid : uuid) := query (λ t,
  merge_sort by_created_desc (circle_view t <$>
    filter (λ c, existsb (λ m, active_member (c_ID c) m && (m_UserID m =? uid)%N)
      (members_list t)) (rows_of t))).
Definition spec_CreatePenalty (p : Penalty) := write (λ _, None) (set_penalties (cons p)).
Definition spec_GetPenaltiesByCircle (id : uuid) := query (λ t,
  merge_sort by_penalty_desc (filter (λ p, p_CircleID p = id) (t_penalties t))).
Definition spec_GetPenaltiesByUser (id : uuid) := query (λ t,
  merge_sort by_penalty_desc (filter (λ p, p_UserID p = id) (t_penalties t))).
Definition spec_GetContributions (id : uuid) (round : Z) := query (λ t,
  rct_UserID <$> filter (λ c, rct_CircleID c = id /\ rct_RoundNumber c = round)
    (t_contributions t)).
Definition spec_CreateDispute (d : CircleDispute) := write (λ _, None) (set_disputes (cons d)).
Definition spec_CreateVote (v : CircleVote) := write
  (λ t, if vote_conflict t v then Some apperrors_ErrConflict else None)
  (set_votes <[vote_key v := v]>).
Definition spec_GetVotesByRound (id : uuid) (round : Z) := query (λ t, round_votes t id round).
Definition spec_CreateAuctionBid (b : CircleAuctionBid) := write (λ _, None)
  (set_bids (partial_alter (λ old, Some (upsert_bid b old)) (bid_key b))).
Definition spec_GetAuctionBids (id : uuid) (round : Z) := query (λ t, round_bids t id round).
Definition spec_SaveConfig (c : RoundConfigSnapshot) := write (λ _, None)
  (set_configs (λ m, if m !! config_key c is Some _ then m else <[config_key c := c]> m)).
Definition spec_GetConfig (id : uuid) (round : Z) :=
  found apperrors_ErrNotFound (λ t, t_configs t !! (id, round)).

(** ** The laws *)

Class RepositoryLaws (W : Type) `{Repository W, Transactor W, TextMatch}
    (tables_of : W -> tables) : Prop := {
  FindByID_law id : implements tables_of (FindByID id) (spec_FindByID id);
  FindByContractID_law s : implements tables_of (FindByContractID s) (spec_FindByContractID s);
  List_law f : implements tables_of (List f) (spec_List f);
  Count_law f : implements tables_of (Count f) (spec_Count f);
  Create_law c : implements tables_of (Create c) (spec_Create c);
  Update_law c : implements tables_of (Update c) (spec_Update c);
  Delete_law id now : implements tables_of (Delete id now) (spec_Delete id now);
  CreateMember_law m : implements tables_of (CreateMember m) (spec_CreateMember m);
  GetMembers_law id : implements tables_of (GetMembers id) (spec_GetMembers id);
  GetMemberCount_law id : implements tables_of (GetMemberCount id) (spec_GetMemberCount id);
  UpdateMemberStatus_law c u s :
    implements tables_of (UpdateMemberStatus c u s) (spec_UpdateMemberStatus c u s);
  FindMember_law c u :
    implements tables_of (FindMemberByCircleAndUser c u) (spec_FindMember c u);
  FindCirclesByUserID_law u :
    implements tables_of (FindCirclesByUserID u) (spec_FindCirclesByUserID u);
  CreatePenalty_law p : implements tables_of (CreatePenalty p) (spec_CreatePenalty p);
  GetPenaltiesByCircle_law id :
    implements tables_of (GetPenaltiesByCircle id) (spec_GetPenaltiesByCircle id);
  GetPenaltiesByUser_law id :
    implements tables_of (GetPenaltiesByUser id) (spec_GetPenaltiesByUser id);
  GetContributions_law id n :
    implements tables_of (GetContributionsByCircleAndRound id n) (spec_GetContributions id n);
  CreateDispute_law d : implements tables_of (CreateDispute d) (spec_CreateDispute d);
  CreateVote_law v : implements tables_of (CreateVote v) (spec_CreateVote v);
  GetVotesByRound_law id n :
    implements tables_of (GetVotesByRound id n) (spec_GetVotesByRound id n);
  CreateAuctionBid_law b : implements tables_of (CreateAuctionBid b) (spec_CreateAuctionBid b);
  GetAuctionBids_law id n :
    implements tables_of (GetAuctionBidsByRound id n) (spec_GetAuctionBids id n);
  SaveConfig_law c : implements tables_of (SaveRoundConfigSnapshot c) (spec_SaveConfig c);
  GetConfig_law id n : implements tables_of (GetRoundConfigSnapshot id n) (spec_GetConfig id n);
  WithTransaction_law : forall A (fn : M W A) R,
    refines tables_of fn R -> refines tables_of (WithTransaction fn) (atomic R);
}.
