(* ===== verification/CirclePg.v ===== *)
(** The PostgreSQL implementation of the circle repository
    (src/internal/domain/circle/repository_pg.go lines 25-609, and the
    transactor of service.go lines 147-179) and the proof that it satisfies the
    laws of [CircleRepo]. *)
From S2P Require Export Postgres CircleRepo.
From stdpp Require Import options.
Open Scope Z_scope.
Local Open Scope go_scope.

(** What depends on the server: whether it accepts a locking clause in a query
    with an aggregate function.  PostgreSQL documents that it does not. *)
Class PgDialect := { locking_aggregate : bool }.

(** ** Constraints of the schema *)
Definition circle_enums (c : Circle) : bool :=
  bool_decide (circle_type_text (c_CircleType c) ∈
    ["public"; "private"; "org"; "community"; "premium"]%string) &&
  match c_PayoutType c with PayoutTypeOther _ => false | _ => true end &&
  match c_Currency c with CurrencyOther _ => false | _ => true end &&
  match c_Frequency c with FrequencyOther _ => false | _ => true end &&
  bool_decide (circle_status_text (c_Status c) ∈
    ["pending"; "active"; "completed"; "cancelled"; "disputed"]%string).

Definition circle_check (c : Circle) : option string :=
  if negb (circle_enums c) then Some "22P02"
  else if (c_MaxMembers c <? 2) || (100 <? c_MaxMembers c) then Some "23514"
  else None.

Definition member_enum (s : MemberStatus) : bool :=
  bool_decide (member_status_text s ∈
    ["pending"; "active"; "completed"; "defaulted"; "exited"]%string).

Definition member_check (s : MemberStatus) : option string :=
  if member_enum s then None else Some "22P02".

(** ** repository_pg.go *)
Definition scanCircle (row : M (PgState tables) Circle) : M (PgState tables) (option Circle) :=
  gtry row (λ r,
    match r with
    | inl c => gret (Some c)
    | inr err =>
        if decide (err = sql_ErrNoRows) then gfail ErrCircleNotFound
        else gfail (Wrapf "scanning circle row: %w" err)
    end).

Definition scanCircleMember (row : M (PgState tables) CircleMember) : M (PgState tables) (option CircleMember) :=
  gtry row (λ r,
    match r with
    | inl m => gret (Some m)
    | inr err =>
        if decide (err = sql_ErrNoRows) then gfail apperrors_ErrNotFound
        else gfail (Wrapf "scanning circle member row: %w" err)
    end).

#[export] Hint Unfold scanCircle scanCircleMember circle_check member_check : pg.

Section repository_pg.
Context `{PgDialect, TextMatch}.

Definition pg_FindByID (id : uuid) : M (PgState tables) (option Circle) :=
  scanCircle (pg_row (λ t, visible_circle t id)).

Definition pg_FindByContractID (contractID : string) : M (PgState tables) (option Circle) :=
  scanCircle (pg_row (λ t, circle_view t <$> head (filter (λ c, not_deleted c &&
    bool_decide (c_ContractID c = Some contractID)) (rows_of t)))).

Definition pg_List (f : CircleFilter) : M (PgState tables) (list Circle) :=
  gwrap "listing circles: %w" (pg_exec (λ t,
    if list_offset f <? 0 then inr "2201X"%string
    else inl (take (Z.to_nat (list_limit f)) (drop (Z.to_nat (list_offset f)) (listed f t)), t))).

Definition pg_Count (f : CircleFilter) : M (PgState tables) Z :=
  gwrap "counting circles: %w" (pg_select (λ t,
    Z.of_nat (length (filter (λ c, not_deleted c && matches_filter f c) (rows_of t))))).

Definition pg_Create (c : Circle) : M (PgState tables) unit :=
  or_conflict apperrors_ErrConflict "creating circle: %w" (pg_insert
    (λ t, match circle_check c with
          | Some code => Some code
          | None => if circle_conflict t c then Some "23505"%string else None
          end)
    (set_circles <[c_ID c := inserted_row c]>)).

Definition pg_Update (c : Circle) : M (PgState tables) unit :=
  or_missing ErrCircleNotFound (gwrap "updating circle: %w" (pg_update
    (λ _, circle_check c) (λ t, if t_circles t !! c_ID c is Some _ then true else false)
    (set_circles (alter (update_row c) (c_ID c))))).

Definition pg_Delete (id : uuid) (now : time) : M (PgState tables) unit :=
  or_missing ErrCircleNotFound (gwrap "deleting circle: %w" (pg_update
    (λ _, None) (λ t, if t_circles t !! id is Some _ then true else false)
    (set_circles (alter (deleted_row now) id)))).

Definition pg_CreateMember (m : CircleMember) : M (PgState tables) unit :=
  or_conflict ErrAlreadyMember "creating circle member: %w" (pg_insert
    (λ t, match member_check (m_Status m) with
          | Some code => Some code
          | None => if t_members t !! member_key m is Some _ then Some "23505"%string else None
          end)
    (set_members <[member_key m := m]>)).

Definition pg_GetMembers (circleID : uuid) : M (PgState tables) (list CircleMember) :=
  gwrap "getting circle members: %w" (pg_select (λ t, circle_members t circleID)).

(** [SELECT COUNT( * ) ... FOR UPDATE] *)
Definition pg_GetMemberCount (circleID : uuid) : M (PgState tables) Z :=
  gwrap "getting member count: %w" (pg_exec (λ t,
    if locking_aggregate then inl (active_count t circleID, t) else inr "0A000"%string)).

Definition pg_UpdateMemberStatus (circleID userID : uuid) (status : MemberStatus) :
    M (PgState tables) unit :=
  or_missing ErrNotMember (gwrap "updating member status: %w" (pg_exec (λ t,
    match member_check status with
    | Some code => inr code
    | None => match t_members t !! (circleID, userID) with
              | Some _ => inl (1, set_members (alter (set_member_status status)
                                    (circleID, userID)) t)
              | None => inl (0, t)
              end
    end))).

Definition pg_FindMemberByCircleAndUser (circleID userID : uuid) :
    M (PgState tables) (option CircleMember) :=
  scanCircleMember (pg_row (λ t, t_members t !! (circleID, userID))).

(** This query, unlike the others, does not filter soft-deleted circles. *)
Definition pg_FindCirclesByUserID (userID : uuid) : M (PgState tables) (list Circle) :=
  gwrap "finding circles by user ID: %w" (pg_select (λ t,
    merge_sort by_created_desc (circle_view t <$>
      filter (λ c, existsb (λ m, active_member (c_ID c) m && (m_UserID m =? userID)%N)
        (members_list t)) (rows_of t)))).

Definition pg_CreatePenalty (p : Penalty) : M (PgState tables) unit :=
  pg_insert (λ _, None) (set_penalties (cons p)).

Definition pg_GetPenaltiesByCircle (circleID : uuid) : M (PgState tables) (list Penalty) :=
  pg_select (λ t, merge_sort by_penalty_desc
    (filter (λ p, p_CircleID p = circleID) (t_penalties t))).

Definition pg_GetPenaltiesByUser (userID : uuid) : M (PgState tables) (list Penalty) :=
  pg_select (λ t, merge_sort by_penalty_desc
    (filter (λ p, p_UserID p = userID) (t_penalties t))).

Definition pg_GetContributionsByCircleAndRound (circleID : uuid) (round : Z) :
    M (PgState tables) (list uuid) :=
  pg_select (λ t, rct_UserID <$>
    filter (λ c, rct_CircleID c = circleID /\ rct_RoundNumber c = round) (t_contributions t)).

Definition pg_CreateDispute (d : CircleDispute) : M (PgState tables) unit :=
  gwrap "creating dispute: %w" (pg_insert (λ _, None) (set_disputes (cons d))).

(** [CHECK (round_number >= 1)] and the unique keys of [circle_votes]. *)
Definition pg_CreateVote (v : CircleVote) : M (PgState tables) unit :=
  or_conflict apperrors_ErrConflict "creating vote: %w" (pg_insert
    (λ t, if v_RoundNumber v <? 1 then Some "23514"%string
          else if vote_conflict t v then Some "23505"%string else None)
    (set_votes <[vote_key v := v]>)).

Definition pg_GetVotesByRound (circleID : uuid) (round : Z) : M (PgState tables) (list CircleVote) :=
  gwrap "getting votes by round: %w" (pg_select (λ t, round_votes t circleID round)).

(** [CHECK (round_number >= 1)] and [CHECK (bid_amount > 0)]. *)
Definition pg_CreateAuctionBid (b : CircleAuctionBid) : M (PgState tables) unit :=
  gwrap "creating auction bid: %w" (pg_insert
    (λ _, if (b_RoundNumber b <? 1) || negb (f64_gt (b_BidAmount b) f64_zero)
          then Some "23514"%string else None)
    (set_bids (partial_alter (λ old, Some (upsert_bid b old)) (bid_key b)))).

Definition pg_GetAuctionBidsByRound (circleID : uuid) (round : Z) :
    M (PgState tables) (list CircleAuctionBid) :=
  gwrap "getting auction bids by round: %w" (pg_select (λ t, round_bids t circleID round)).

(** [ON CONFLICT (circle_id, round_number) DO NOTHING] *)
Definition pg_SaveRoundConfigSnapshot (c : RoundConfigSnapshot) : M (PgState tables) unit :=
  gwrap "saving round config snapshot: %w" (pg_insert (λ _, None)
    (set_configs (λ m, if m !! config_key c is Some _ then m else <[config_key c := c]> m))).

Definition pg_GetRoundConfigSnapshot (circleID : uuid) (round : Z) :
    M (PgState tables) (option RoundConfigSnapshot) :=
  gtry (pg_row (λ t, t_configs t !! (circleID, round))) (λ r,
    match r with
    | inl c => gret (Some c)
    | inr err =>
        if decide (err = sql_ErrNoRows) then gfail apperrors_ErrNotFound
        else gfail (Wrapf "getting round config snapshot: %w" err)
    end).

#[export] Instance pgRepo : Repository (PgState tables) := {
  FindByID := pg_FindByID;
  FindByContractID := pg_FindByContractID;
  List := pg_List;
  Count := pg_Count;
  Create := pg_Create;
  Update := pg_Update;
  Delete := pg_Delete;
  CreateMember := pg_CreateMember;
  GetMembers := pg_GetMembers;
  GetMemberCount := pg_GetMemberCount;
  UpdateMemberStatus := pg_UpdateMemberStatus;
  FindMemberByCircleAndUser := pg_FindMemberByCircleAndUser;
  FindCirclesByUserID := pg_FindCirclesByUserID;
  CreatePenalty := pg_CreatePenalty;
  GetPenaltiesByCircle := pg_GetPenaltiesByCircle;
  GetPenaltiesByUser := pg_GetPenaltiesByUser;
  GetContributionsByCircleAndRound := pg_GetContributionsByCircleAndRound;
  CreateDispute := pg_CreateDispute;
  CreateVote := pg_CreateVote;
  GetVotesByRound := pg_GetVotesByRound;
  CreateAuctionBid := pg_CreateAuctionBid;
  GetAuctionBidsByRound := pg_GetAuctionBidsByRound;
  SaveRoundConfigSnapshot := pg_SaveRoundConfigSnapshot;
  GetRoundConfigSnapshot := pg_GetRoundConfigSnapshot;
}.
End repository_pg.

Section laws.
Context `{PgDialect, TextMatch}.

Lemma pg_FindByID_law id : implements pg_tables (pg_FindByID id) (spec_FindByID id).
Proof. unfold pg_FindByID, spec_FindByID. pg_law. Qed.

Lemma pg_FindByContractID_law s :
  implements pg_tables (pg_FindByContractID s) (spec_FindByContractID s).
Proof. unfold pg_FindByContractID, spec_FindByContractID. pg_law. Qed.

Lemma pg_List_law f : implements pg_tables (pg_List f) (spec_List f).
Proof. unfold pg_List, spec_List. pg_law. Qed.

Lemma pg_Count_law f : implements pg_tables (pg_Count f) (spec_Count f).
Proof. unfold pg_Count, spec_Count. pg_law. Qed.

Lemma pg_Create_law c : implements pg_tables (pg_Create c) (spec_Create c).
Proof. unfold pg_Create, spec_Create. pg_law. Qed.

Lemma pg_Update_law c : implements pg_tables (pg_Update c) (spec_Update c).
Proof. unfold pg_Update, spec_Update. pg_law. Qed.

Lemma pg_Delete_law id now : implements pg_tables (pg_Delete id now) (spec_Delete id now).
Proof. unfold pg_Delete, spec_Delete. pg_law. Qed.

Lemma pg_CreateMember_law m : implements pg_tables (pg_CreateMember m) (spec_CreateMember m).
Proof. unfold pg_CreateMember, spec_CreateMember. pg_law. Qed.

Lemma pg_GetMemberCount_law id :
  implements pg_tables (pg_GetMemberCount id) (spec_GetMemberCount id).
Proof. unfold pg_GetMemberCount, spec_GetMemberCount. pg_law. Qed.

Lemma pg_UpdateMemberStatus_law c u s :
  implements pg_tables (pg_UpdateMemberStatus c u s) (spec_UpdateMemberStatus c u s).
Proof. unfold pg_UpdateMemberStatus, spec_UpdateMemberStatus. pg_law. Qed.

Lemma pg_FindMember_law c u :
  implements pg_tables (pg_FindMemberByCircleAndUser c u) (spec_FindMember c u).
Proof. unfold pg_FindMemberByCircleAndUser, spec_FindMember. pg_law. Qed.

Lemma pg_CreateVote_law v : implements pg_tables (pg_CreateVote v) (spec_CreateVote v).
Proof. unfold pg_CreateVote, spec_CreateVote. pg_law. Qed.

Lemma pg_CreateAuctionBid_law b :
  implements pg_tables (pg_CreateAuctionBid b) (spec_CreateAuctionBid b).
Proof. unfold pg_CreateAuctionBid, spec_CreateAuctionBid. pg_law. Qed.

Lemma pg_GetConfig_law id n :
  implements pg_tables (pg_GetRoundConfigSnapshot id n) (spec_GetConfig id n).
Proof. unfold pg_GetRoundConfigSnapshot, spec_GetConfig. pg_law. Qed.

Lemma pg_CreateDispute_law d : implements pg_tables (pg_CreateDispute d) (spec_CreateDispute d).
Proof. unfold pg_CreateDispute, spec_CreateDispute. pg_law. Qed.

Lemma pg_SaveConfig_law c :
  implements pg_tables (pg_SaveRoundConfigSnapshot c) (spec_SaveConfig c).
Proof. unfold pg_SaveRoundConfigSnapshot, spec_SaveConfig. pg_law. Qed.

Lemma pg_CreatePenalty_law p : implements pg_tables (pg_CreatePenalty p) (spec_CreatePenalty p).
Proof. unfold pg_CreatePenalty, spec_CreatePenalty. pg_law. Qed.

#[export] Instance pg_laws : RepositoryLaws (PgState tables) pg_tables := {
  FindByID_law := pg_FindByID_law;
  FindByContractID_law := pg_FindByContractID_law;
  List_law := pg_List_law;
  Count_law := pg_Count_law;
  Create_law := pg_Create_law;
  Update_law := pg_Update_law;
  Delete_law := pg_Delete_law;
  CreateMember_law := pg_CreateMember_law;
  GetMembers_law _ := pg_wrapped_select_law _ _;
  GetMemberCount_law := pg_GetMemberCount_law;
  UpdateMemberStatus_law := pg_UpdateMemberStatus_law;
  FindMember_law := pg_FindMember_law;
  FindCirclesByUserID_law _ := pg_wrapped_select_law _ _;
  CreatePenalty_law := pg_CreatePenalty_law;
  GetPenaltiesByCircle_law _ := pg_select_law _;
  GetPenaltiesByUser_law _ := pg_select_law _;
  GetContributions_law _ _ := pg_select_law _;
  CreateDispute_law := pg_CreateDispute_law;
  CreateVote_law := pg_CreateVote_law;
  GetVotesByRound_law _ _ := pg_wrapped_select_law _ _;
  CreateAuctionBid_law := pg_CreateAuctionBid_law;
  GetAuctionBids_law _ _ := pg_wrapped_select_law _ _;
  SaveConfig_law := pg_SaveConfig_law;
  GetConfig_law := pg_GetConfig_law;
  WithTransaction_law := pg_WithTransaction_law;
}.
End laws.
