(* ===== verification/CircleService.v ===== *)
(** The circle service (src/internal/domain/circle/service.go): every method of
    the interface [Service], over any repository of [CircleRepo].

    A call runs on a world [W] and appends to the list of what it sends to the
    broadcaster, the notification service and the audit log.  The readings of
    [time.Now] and the identifiers of [uuid.New] are arguments [now] and [new]. *)
From S2P Require Export CircleRepo.
From stdpp Require Import pretty.
From stdpp Require Import options.
Open Scope Z_scope.
Local Open Scope go_scope.

(** ** Inputs *)
Record CreateCircleInput := {
  ci_Name : string;
  ci_Description : string;
  ci_CommunityID : string;
  ci_CircleType : CircleType;
  ci_PayoutType : PayoutType;
  ci_ContributionAmount : float64;
  ci_Currency : CircleCurrency;
  ci_Frequency : CircleFrequency;
  ci_MaxMembers : Z;
  ci_MinMoiScore : Z;
  ci_CollateralPercent : float64;
  ci_LateFeePercent : float64;
  ci_GracePeriodHours : Z;
  ci_MaxStrikes : Z;
  ci_RequiresInvite : bool;
}.

Record UpdateCircleInput := {
  ui_Name : option string;
  ui_Description : option string;
  ui_ContributionAmount : option float64;
  ui_Currency : option CircleCurrency;
  ui_Frequency : option CircleFrequency;
  ui_MaxMembers : option Z;
  ui_MinMoiScore : option Z;
  ui_CollateralPercent : option float64;
  ui_LateFeePercent : option float64;
  ui_GracePeriodHours : option Z;
  ui_MaxStrikes : option Z;
}.

Record DisputeInput := { di_Reason : string; di_Details : string }.

(** What the services send through the broadcaster and to the other recipients. *)
Inductive event :=
  | CircleCreated (circleID organizerID : string)
  | CircleStatusChanged (circleID status : string)
  | MemberJoined (circleID userID : string)
  | MemberLeft (circleID userID : string)
  | MemberPenalized (circleID userID : string) (roundNumber : Z) (penaltyAmount : float64)
  | ContributionRecorded (circleID userID : string) (roundNumber : Z) (amount : float64)
  | Notification (userID type title body channel : string)
  | AuditEntry (id actor : uuid) (action resourceType resourceID reason : string) (at_ : time).

(** ** The service

    A nil interface is [None] or [false].  [json.Marshal] of a configuration,
    the SHA-256 digest in hexadecimal and the order in which [range] visits a map
    are functions of the environment. *)
Record circleService (W : Type) := {
  svc_userRepo : option (uuid -> M W (option Z));  (** the [MoiScore] of the user *)
  svc_communityChecker : option (uuid -> uuid -> M W bool);
  svc_tx : bool;
  svc_broadcaster : bool;
  svc_auditRepo : bool;
  svc_notificationSvc : bool;
  json_Marshal : Circle -> string + error;
  sha256_hex : string -> string;
  range_order : list (string * Z) -> list (string * Z);
}.
Arguments svc_userRepo {W} _.
Arguments svc_communityChecker {W} _.
Arguments svc_tx {W} _.
Arguments svc_broadcaster {W} _.
Arguments svc_auditRepo {W} _.
Arguments svc_notificationSvc {W} _.
Arguments json_Marshal {W} _ _.
Arguments sha256_hex {W} _ _.
Arguments range_order {W} _ _.

(** [sql.NullString{String: s, Valid: true}], or the zero value for [""]. *)
Definition null_string (s : string) : option string :=
  if decide (s = "") then None else Some s.

(** [if p != nil { field = *p }] *)
Definition or_keep {A} (p : option A) (old : A) : A :=
  match p with Some a => a | None => old end.

Definition with_status (s : CircleStatus) (round : Z) (now : time) (c : Circle) : Circle :=
  {| c_ID := c_ID c; c_ContractID := c_ContractID c; c_CommunityID := c_CommunityID c;
     c_Name := c_Name c; c_Description := c_Description c; c_CircleType := c_CircleType c;
     c_PayoutType := c_PayoutType c; c_ContributionAmount := c_ContributionAmount c;
     c_Currency := c_Currency c; c_Frequency := c_Frequency c;
     c_MaxMembers := c_MaxMembers c; c_MinMoiScore := c_MinMoiScore c;
     c_CollateralPercent := c_CollateralPercent c; c_LateFeePercent := c_LateFeePercent c;
     c_GracePeriodHours := c_GracePeriodHours c; c_MaxStrikes := c_MaxStrikes c;
     c_MemberCount := c_MemberCount c; c_RequiresInvite := c_RequiresInvite c;
     c_StartDate := c_StartDate c; c_EndDate := c_EndDate c; c_Status := s;
     c_CurrentRound := round; c_TotalContributions := c_TotalContributions c;
     c_OrganizerID := c_OrganizerID c; c_CreatedAt := c_CreatedAt c;
     c_UpdatedAt := now; c_DeletedAt := c_DeletedAt c |}.

(** The assignments of [Update] to the circle it has read. *)
Definition apply_update (input : UpdateCircleInput) (now : time) (c : Circle) : Circle :=
  {| c_ID := c_ID c; c_ContractID := c_ContractID c; c_CommunityID := c_CommunityID c;
     c_Name := or_keep (ui_Name input) (c_Name c);
     c_Description := match ui_Description input with
                      | Some d => null_string d
                      | None => c_Description c
                      end;
     c_CircleType := c_CircleType c; c_PayoutType := c_PayoutType c;
     c_ContributionAmount := or_keep (ui_ContributionAmount input) (c_ContributionAmount c);
     c_Currency := or_keep (ui_Currency input) (c_Currency c);
     c_Frequency := or_keep (ui_Frequency input) (c_Frequency c);
     c_MaxMembers := or_keep (ui_MaxMembers input) (c_MaxMembers c);
     c_MinMoiScore := or_keep (ui_MinMoiScore input) (c_MinMoiScore c);
     c_CollateralPercent := or_keep (ui_CollateralPercent input) (c_CollateralPercent c);
     c_LateFeePercent := or_keep (ui_LateFeePercent input) (c_LateFeePercent c);
     c_GracePeriodHours := or_keep (ui_GracePeriodHours input) (c_GracePeriodHours c);
     c_MaxStrikes := or_keep (ui_MaxStrikes input) (c_MaxStrikes c);
     c_MemberCount := c_MemberCount c; c_RequiresInvite := c_RequiresInvite c;
     c_StartDate := c_StartDate c; c_EndDate := c_EndDate c; c_Status := c_Status c;
     c_CurrentRound := c_CurrentRound c; c_TotalContributions := c_TotalContributions c;
     c_OrganizerID := c_OrganizerID c; c_CreatedAt := c_CreatedAt c;
     c_UpdatedAt := now; c_DeletedAt := c_DeletedAt c |}.

Section service.
Context {W : Type} `{Repository W, Transactor W, UUIDLib, GoFloatConv}.
Variable s : circleService W.

Definition St : Type := W * list event.

(** A call of a collaborator on the world. *)
Definition repo {A} (m : M W A) : M St A := λ '(w, ev),
  let '(r, w') := m w in (r, (w', ev)).

(** [if s.broadcaster != nil { s.broadcaster.X(...) }] and the like. *)
Definition emit (present : bool) (e : event) : M St unit := λ '(w, ev),
  (Ok tt, (w, if present then ev ++ [e] else ev)).

Definition withTransaction {A} (fn : M W A) : M W A :=
  if svc_tx s then WithTransaction fn else fn.

Definition parseCommunityID (id : string) : option uuid :=
  if decide (id = "") then None else uuid_Parse id.

Definition parseUUID (id : string) : result uuid :=
  match uuid_Parse id with Some u => Ok u | None => Err ErrInvalidUUID end.

Definition Get (id : string) : M St Circle :=
  let! uid := glift (parseUUID id) in
  gtry (repo (FindByID uid)) (λ r,
    match r with
    | inl c => deref c
    | inr err => if decide (err = ErrCircleNotFound) then gfail ErrCircleNotFound
                 else gfail (Wrapf "getting circle: %w" err)
    end).

Definition ListCircles (filter : CircleFilter) : M St (list Circle * Z) :=
  let! circles := gwrap "listing circles: %w" (repo (List filter)) in
  let! total := gwrap "counting circles: %w" (repo (Count filter)) in
  gret (circles, total).

(** [Update] up to its assignments, and from them on: between the two another
    call can run. *)
Definition Update_load (id userID : string) : M St Circle :=
  let! uid := glift (parseUUID id) in
  let! usrID := glift (parseUUID userID) in
  let! p := gwrap "finding circle for update: %w" (repo (FindByID uid)) in
  let! c := deref p in
  do! gguard (negb (c_OrganizerID c =? usrID)%N) ErrNotOrganizer in
  do! gguard (bool_decide (c_Status c <> CircleStatusPending /\ c_Status c <> CircleStatusActive))
    ErrCircleNotActive in
  gret c.

Definition Update_store (now : time) (input : UpdateCircleInput) (c : Circle) : M St Circle :=
  let c := apply_update input now c in
  do! gwrap "updating circle: %w" (repo (CircleRepo.Update c)) in
  gret c.

Definition UpdateCircle (now : time) (id userID : string) (input : UpdateCircleInput) :
    M St Circle :=
  let! c := Update_load id userID in Update_store now input c.

(** The closure [buildCircle]. *)
Definition buildCircle (now : time) (new orgID : uuid) (input : CreateCircleInput) : Circle :=
  {| c_ID := new; c_ContractID := None; c_CommunityID := parseCommunityID (ci_CommunityID input);
     c_Name := ci_Name input; c_Description := null_string (ci_Description input);
     c_CircleType := ci_CircleType input; c_PayoutType := ci_PayoutType input;
     c_ContributionAmount := ci_ContributionAmount input; c_Currency := ci_Currency input;
     c_Frequency := ci_Frequency input; c_MaxMembers := ci_MaxMembers input;
     c_MinMoiScore := ci_MinMoiScore input; c_CollateralPercent := ci_CollateralPercent input;
     c_LateFeePercent := ci_LateFeePercent input; c_GracePeriodHours := ci_GracePeriodHours input;
     c_MaxStrikes := ci_MaxStrikes input; c_MemberCount := 0;
     c_RequiresInvite := ci_RequiresInvite input; c_StartDate := None; c_EndDate := None;
     c_Status := CircleStatusPending; c_CurrentRound := 0; c_TotalContributions := f64_zero;
     c_OrganizerID := orgID; c_CreatedAt := now; c_UpdatedAt := now; c_DeletedAt := None |}.

(** The guards of a premium circle. *)
Definition premium_guard (orgID : uuid) (input : CreateCircleInput) : M St unit :=
  if decide (ci_CircleType input = CircleTypePremium) then
    let! find := deref (svc_userRepo s) in
    let! p := gwrap "finding organizer for premium check: %w" (repo (find orgID)) in
    let! moiScore := deref p in
    do! gguard (moiScore <? 50) (Errorf "premium circles require at least 50 MoiScore") in
    do! gguard (bool_decide (ci_Currency input = CurrencyUSDC)
                && f64_lt (ci_ContributionAmount input) (f64_of_Z 50))
      (Errorf "premium circles require minimum 50 USDC contribution") in
    gguard (bool_decide (ci_Currency input = CurrencyXLM)
            && f64_lt (ci_ContributionAmount input) (f64_of_Z 100))
      (Errorf "premium circles require minimum 100 XLM contribution")
  else gret tt.

Definition member_row (cid uid : uuid) (position : Z) (now : time) : CircleMember :=
  {| m_CircleID := cid; m_UserID := uid; m_Position := position;
     m_Status := MemberStatusActive; m_JoinedAt := now |}.

Definition create_body (now : time) (new orgID : uuid) (input : CreateCircleInput) :
    M W Circle :=
  let c := buildCircle now new orgID input in
  gtry (CircleRepo.Create c) (λ r,
    match r with
    | inr err =>
        if decide (err = apperrors_ErrConflict)
        then gfail (Wrapf "circle name conflict: %w" err)
        else gfail (Wrapf "creating circle: %w" err)
    | inl _ =>
        do! gwrap "adding organizer as member: %w" (CreateMember (member_row new orgID 1 now)) in
        gret c
    end).

(** The circle that Go returns next to the error of a failed commit is dropped. *)
Definition CreateCircle (now : time) (new : uuid) (organizerID : string)
    (input : CreateCircleInput) : M St Circle :=
  let! orgID := glift (parseUUID organizerID) in
  do! gguard (ci_MaxMembers input <? 2) ErrParticipantLimit in
  do! premium_guard orgID input in
  let! circle := repo (withTransaction (create_body now new orgID input)) in
  do! emit (svc_broadcaster s) (CircleCreated (uuid_String (c_ID circle)) organizerID) in
  gret circle.

Definition snapshotRoundConfig (now : time) (new : uuid) (c : Circle) (round : Z) : M St unit :=
  let! configData := glift (match json_Marshal s c with inl d => Ok d | inr e => Err e end) in
  repo (SaveRoundConfigSnapshot
    {| rc_ID := new; rc_CircleID := c_ID c; rc_RoundNumber := round;
       rc_ConfigHash := sha256_hex s configData; rc_ConfigJSON := configData;
       rc_CreatedAt := now |}).

Definition Start (now : time) (new : uuid) (id userID : string) : M St unit :=
  let! cid := glift (parseUUID id) in
  let! usrID := glift (parseUUID userID) in
  let! p := gwrap "finding circle for start: %w" (repo (FindByID cid)) in
  let! c := deref p in
  do! gguard (negb (c_OrganizerID c =? usrID)%N) ErrNotOrganizer in
  do! gguard (bool_decide (c_Status c <> CircleStatusPending)) ErrCircleNotActive in
  let! count := gwrap "checking member count: %w" (repo (GetMemberCount cid)) in
  do! gguard (count <? 2) (Errorf "need at least 2 members to start") in
  let c := with_status CircleStatusActive 1 now c in
  do! gwrap "activating circle: %w" (repo (CircleRepo.Update c)) in
  do! gignore (snapshotRoundConfig now new c 1) in
  emit (svc_broadcaster s) (CircleStatusChanged id "active").

Definition cancel_body (now : time) (uid usrID : uuid) : M W unit :=
  let! p := gwrap "finding circle for cancel: %w" (FindByID uid) in
  let! c := deref p in
  do! gguard (negb (c_OrganizerID c =? usrID)%N) ErrNotOrganizer in
  do! gguard (bool_decide (c_Status c <> CircleStatusPending)) ErrCircleNotActive in
  gwrap "cancelling circle: %w"
    (CircleRepo.Update (with_status CircleStatusCancelled (c_CurrentRound c) now c)).

Definition Cancel (now : time) (id userID : string) : M St unit :=
  let! uid := glift (parseUUID id) in
  let! usrID := glift (parseUUID userID) in
  do! repo (withTransaction (cancel_body now uid usrID)) in
  emit (svc_broadcaster s) (CircleStatusChanged id "cancelled").

Definition Close (now : time) (id userID : string) : M St unit :=
  let! cid := glift (parseUUID id) in
  let! organizerID := glift (parseUUID userID) in
  let! p := gwrap "finding circle for close: %w" (repo (FindByID cid)) in
  let! c := deref p in
  do! gguard (negb (c_OrganizerID c =? organizerID)%N) ErrNotOrganizer in
  do! gguard (bool_decide (c_Status c <> CircleStatusActive)) ErrCircleNotActive in
  do! gwrap "closing circle: %w"
    (repo (CircleRepo.Update (with_status CircleStatusCompleted (c_CurrentRound c) now c))) in
  emit (svc_broadcaster s) (CircleStatusChanged id (circle_status_text CircleStatusCompleted)).

(** The checks of [Join] before its transaction. *)
Definition join_guards (c : Circle) (uid : uuid) (inviteCode : string) : M St unit :=
  do! gguard (bool_decide (c_Status c <> CircleStatusPending /\ c_Status c <> CircleStatusActive))
    ErrCircleNotActive in
  do! (if decide (c_CircleType c = CircleTypePremium) then
         let! find := deref (svc_userRepo s) in
         let! p := gwrap "finding user for premium join check: %w" (repo (find uid)) in
         let! moiScore := deref p in
         gguard (moiScore <? 50) (Errorf "joining premium circles requires at least 50 MoiScore")
       else gret tt) in
  do! (match c_CommunityID c with
       | Some communityID =>
           if decide (c_CircleType c = CircleTypeOther "community") then
             let! isMember := deref (svc_communityChecker s) in
             let! ok := gwrap "checking community membership: %w"
                          (repo (isMember communityID uid)) in
             gguard (negb ok) ErrNotCommunityMember
           else gret tt
       | None => gret tt
       end) in
  gguard ((bool_decide (c_CircleType c = CircleTypePrivate) || c_RequiresInvite c)
          && bool_decide (inviteCode = "")) ErrInvalidInvite.

Definition join_body (now : time) (c : Circle) (cid uid : uuid) : M W unit :=
  let! count := gwrap "checking member count: %w" (GetMemberCount cid) in
  do! gguard (c_MaxMembers c <=? count) ErrCircleFull in
  gtry (FindMemberByCircleAndUser cid uid) (λ r,
    match r with
    | inl (Some _) => gfail ErrAlreadyMember
    | _ => gwrap "joining circle: %w" (CreateMember (member_row cid uid (wrap64 (count + 1)) now))
    end).

Definition Join (now : time) (circleID userID inviteCode : string) : M St unit :=
  let! cid := glift (parseUUID circleID) in
  let! uid := glift (parseUUID userID) in
  let! p := gwrap "finding circle for join: %w" (repo (FindByID cid)) in
  let! c := deref p in
  do! join_guards c uid inviteCode in
  do! repo (withTransaction (join_body now c cid uid)) in
  emit (svc_broadcaster s) (MemberJoined circleID userID).

(** [FindMemberByCircleAndUser] and the checks [Exit] and [RemoveMember] share. *)
Definition active_member_or (format : string) (cid uid : uuid) : M St CircleMember :=
  gtry (repo (FindMemberByCircleAndUser cid uid)) (λ r,
    match r with
    | inr err => if decide (err = apperrors_ErrNotFound) then gfail ErrNotMember
                 else gfail (Wrapf format err)
    | inl p =>
        let! member := deref p in
        do! gguard (bool_decide (m_Status member <> MemberStatusActive)) ErrNotMember in
        gret member
    end).

Definition Exit (circleID userID : string) : M St unit :=
  let! cid := glift (parseUUID circleID) in
  let! uid := glift (parseUUID userID) in
  let! p := gwrap "finding circle for exit: %w" (repo (FindByID cid)) in
  let! c := deref p in
  do! gguard (c_OrganizerID c =? uid)%N ErrNotOrganizer in
  do! active_member_or "finding member for exit: %w" cid uid in
  do! gret (if decide (c_Status c = CircleStatusActive)
            then CalculateEarlyExitPenalty (c_TotalContributions c)
                   (f64_div (f64_mul (c_ContributionAmount c) (c_CollateralPercent c))
                      (f64_of_Z 100)) 0
            else f64_zero) in
  do! gwrap "exiting circle: %w" (repo (UpdateMemberStatus cid uid MemberStatusExited)) in
  emit (svc_broadcaster s) (MemberLeft circleID userID).

Definition GetMembersOf (circleID : string) : M St (list CircleMember) :=
  let! cid := glift (parseUUID circleID) in
  do! gwrap "finding circle for members: %w" (repo (FindByID cid)) in
  gwrap "getting members: %w" (repo (GetMembers cid)).

Definition IsMember (circleID userID : string) : M St bool :=
  let! cid := glift (parseUUID circleID) in
  let! uid := glift (parseUUID userID) in
  gtry (repo (FindMemberByCircleAndUser cid uid)) (λ r,
    match r with
    | inr err => if decide (err = apperrors_ErrNotFound) then gret false
                 else gfail (Wrapf "checking circle membership: %w" err)
    | inl (Some member) => gret (bool_decide (m_Status member = MemberStatusActive))
    | inl None => gret false
    end).

Definition RemoveMember (circleID callerID memberAddress reason : string) : M St unit :=
  let! cid := glift (parseUUID circleID) in
  let! callerUID := glift (parseUUID callerID) in
  let! memberUID := glift (parseUUID memberAddress) in
  let! p := gwrap "finding circle: %w" (repo (FindByID cid)) in
  let! c := deref p in
  do! gguard (negb (c_OrganizerID c =? callerUID)%N) ErrNotOrganizer in
  do! gguard (callerUID =? memberUID)%N
    (Errorf "organizer cannot remove themselves; use cancel or close") in
  do! active_member_or "finding member: %w" cid memberUID in
  do! gwrap "removing member: %w" (repo (UpdateMemberStatus cid memberUID MemberStatusRemoved)) in
  emit (svc_broadcaster s) (MemberLeft circleID memberAddress).

(** [if err != nil || member.Status != MemberStatusActive { return failure }] *)
Definition require_active (failure : error) (cid uid : uuid) : M St unit :=
  gtry (repo (FindMemberByCircleAndUser cid uid)) (λ r,
    match r with
    | inr _ => gfail failure
    | inl p =>
        let! member := deref p in
        gguard (bool_decide (m_Status member <> MemberStatusActive)) failure
    end).

Definition RaiseDispute (now : time) (new newAudit : uuid) (circleID userID : string)
    (input : DisputeInput) : M St CircleDispute :=
  let! cid := glift (parseUUID circleID) in
  let! uid := glift (parseUUID userID) in
  let! p := gwrap "finding circle for dispute: %w" (repo (FindByID cid)) in
  let! c := deref p in
  do! gguard (bool_decide (c_Status c <> CircleStatusActive /\ c_Status c <> CircleStatusPending))
    ErrCircleNotActive in
  do! require_active ErrNotMember cid uid in
  let dispute :=
    {| d_ID := new; d_CircleID := cid; d_RaiserID := uid; d_Reason := di_Reason input;
       d_Details := null_string (di_Details input); d_Status := "open";
       d_CreatedAt := now; d_UpdatedAt := now |} in
  do! gwrap "persisting dispute: %w" (repo (CreateDispute dispute)) in
  do! emit (svc_notificationSvc s) (Notification (uuid_String (c_OrganizerID c))
    "dispute.raised" "Dispute Raised"
    ("A dispute was raised in circle " ++ c_Name c ++ ": " ++ di_Reason input) "inapp") in
  do! emit (svc_auditRepo s) (AuditEntry newAudit uid "circle.dispute_raised" "circle"
    (uuid_String cid) (di_Reason input) now) in
  gret dispute.

(** [roundNum := c.CurrentRound; if roundNum < 1 { roundNum = 1 }] *)
Definition round_of (c : Circle) : Z := if c_CurrentRound c <? 1 then 1 else c_CurrentRound c.

(** [tallyMap[v.RecipientID.String()]++] over the votes; a counter wraps. *)
Definition tally (votes : list CircleVote) : gmap string Z :=
  fold_left (λ m v,
    let k := uuid_String (v_RecipientID v) in <[k := wrap64 (default 0 (m !! k) + 1)]> m)
    votes ∅.

(** What [CastVote] returns once the vote is stored: whether the round is
    decided and the winner. *)
Definition close_votes (c : Circle) (cid : uuid) (roundNum : Z) (vote : CircleVote) :
    M St (CircleVote * bool * string) :=
  gtry (repo (GetVotesByRound cid roundNum)) (λ r,
    match r with
    | inr _ => gret (vote, false, "")
    | inl votes =>
        gtry (repo (GetMemberCount cid)) (λ rc,
          let memberCount := match rc with
                             | inl n => if n =? 0 then c_MaxMembers c else n
                             | inr _ => c_MaxMembers c
                             end in
          if memberCount <=? Z.of_nat (length votes)
          then gret (vote, true, VoteTally (range_order s (map_to_list (tally votes))))
          else gret (vote, false, ""))
    end).

Definition CastVote (now : time) (new : uuid) (circleID userID recipient : string) :
    M St (CircleVote * bool * string) :=
  let! cid := glift (parseUUID circleID) in
  let! voterID := glift (parseUUID userID) in
  let! recipientID := glift (parseUUID recipient) in
  let! p := gwrap "finding circle for vote: %w" (repo (FindByID cid)) in
  let! c := deref p in
  do! gguard (bool_decide (c_Status c <> CircleStatusActive)) ErrCircleNotActive in
  do! gguard (bool_decide (c_PayoutType c <> PayoutTypeVote))
    (Errorf "circle payout type is not vote") in
  do! require_active ErrNotMember cid voterID in
  do! require_active (Errorf "recipient is not an active circle member") cid recipientID in
  let vote := {| v_ID := new; v_CircleID := cid; v_VoterID := voterID;
                 v_RecipientID := recipientID; v_RoundNumber := round_of c;
                 v_CreatedAt := now |} in
  gtry (repo (CreateVote vote)) (λ r,
    match r with
    | inr err => if decide (err = apperrors_ErrConflict)
                 then gfail (Errorf "user has already voted in this round")
                 else gfail (Wrapf "recording vote: %w" err)
    | inl _ => close_votes c cid (round_of c) vote
    end).

Definition SubmitAuctionBid (now : time) (new : uuid) (circleID userID : string)
    (bidAmount : float64) : M St CircleAuctionBid :=
  let! cid := glift (parseUUID circleID) in
  let! bidderID := glift (parseUUID userID) in
  let! p := repo (FindByID cid) in
  let! c := deref p in
  do! gguard (bool_decide (c_Status c <> CircleStatusActive)) ErrCircleNotActive in
  do! gguard (bool_decide (c_PayoutType c <> PayoutTypeAuction))
    (Errorf "circle payout type is not auction") in
  do! require_active ErrNotMember cid bidderID in
  do! gguard (f64_le bidAmount f64_zero) (Errorf "bid amount must be greater than zero") in
  let bid := {| b_ID := new; b_CircleID := cid; b_BidderID := bidderID;
                b_RoundNumber := round_of c; b_BidAmount := bidAmount;
                b_CreatedAt := now |} in
  do! gwrap "recording auction bid: %w" (repo (CreateAuctionBid bid)) in
  gret bid.

(** The body of the loop of [ProcessMissedContributions] for one member: the
    [k]-th penalty takes the [k]-th identifier and reading of the clock. *)
Definition penalty_of (now : time) (new : uuid) (c : Circle) (cID : uuid) (roundNumber : Z)
    (member : CircleMember) : Penalty :=
  {| p_ID := new; p_CircleID := cID; p_UserID := m_UserID member;
     p_RoundNumber := roundNumber; p_PenaltyType := PenaltyTypeLate;
     p_Amount := CalculateLateFee (c_ContributionAmount c) (c_LateFeePercent c);
     p_StrikesApplied := ApplyStrikes member "late";
     p_Reason := Some ("Missed contribution for round " ++ pretty roundNumber)%string;
     p_CreatedAt := now |}.

Definition missed (contributed : gset uuid) (member : CircleMember) : bool :=
  bool_decide (m_Status member = MemberStatusActive) &&
  negb (bool_decide (m_UserID member ∈ contributed)).

Fixpoint penalize (nows : nat -> time) (news : nat -> uuid) (circleID : string) (c : Circle)
    (cID : uuid) (roundNumber : Z) (contributed : gset uuid) (k : nat)
    (members : list CircleMember) : M St unit :=
  match members with
  | [] => gret tt
  | member :: members =>
      if missed contributed member then
        let p := penalty_of (nows k) (news k) c cID roundNumber member in
        do! repo (CreatePenalty p) in
        do! emit (svc_broadcaster s) (MemberPenalized circleID
              (uuid_String (m_UserID member)) roundNumber (p_Amount p)) in
        penalize nows news circleID c cID roundNumber contributed (S k) members
      else penalize nows news circleID c cID roundNumber contributed k members
  end.

Definition ProcessMissedContributions (nows : nat -> time) (news : nat -> uuid)
    (circleID : string) (roundNumber : Z) : M St unit :=
  let! cID := glift (match uuid_Parse circleID with
                     | Some u => Ok u
                     | None => Err apperrors_ErrInvalidInput
                     end) in
  let! p := repo (FindByID cID) in
  match p with
  | None => gfail apperrors_ErrNotFound
  | Some c =>
      let! members := repo (GetMembers cID) in
      let! contributedUserIDs := repo (GetContributionsByCircleAndRound cID roundNumber) in
      penalize nows news circleID c cID roundNumber (list_to_set contributedUserIDs) 0 members
  end.

Definition QueryRoundConfig (circleID : string) (round : Z) :
    M St (option RoundConfigSnapshot) :=
  let! cid := glift (parseUUID circleID) in
  repo (GetRoundConfigSnapshot cid round).
End service.
Arguments St W : clear implicits.
