(* ===== verification/CircleSpec.v ===== *)
(** What the calls of the circle service do to the tables: one rule per method
    over any repository that satisfies the laws of [CircleRepo]. *)
From S2P Require Export CircleService.
From stdpp Require Import options.
#[local] Set Default Proof Using "Type*".
Open Scope Z_scope.
Local Open Scope go_scope.

(** The collaborators the service asks about users do not write the tables of
    the circles, do not panic and do not return a nil user without an error. *)
Class CollaboratorLaws {W} (tables_of : W -> tables) (s : circleService W) : Prop := {
  userRepo_law find u w r w' : svc_userRepo s = Some find -> find u w = (r, w') ->
    tables_of w' = tables_of w /\ match r with Ok p => is_Some p | Err _ => True | Panic => False end;
  communityChecker_law isMember c u w r w' : svc_communityChecker s = Some isMember ->
    isMember c u w = (r, w') -> tables_of w' = tables_of w /\ r <> Panic;
}.

(** ** Rules for the calls of the repository *)
Section rules.
Context {W : Type}.

Lemma wp_repo {A} (m : M W A) w ev (Q : result A -> St W -> Prop) :
  wp m w (λ r w', Q r (w', ev)) -> wp (repo m) (w, ev) Q.
Proof. unfold wp, repo. by destruct (m w). Qed.

Lemma wp_emit (b : bool) (e : event) (w : W) ev (Q : result unit -> St W -> Prop) :
  Q (Ok tt) (w, if b then ev ++ [e] else ev) -> wp (emit b e) (w, ev) Q.
Proof. done. Qed.

Lemma wp_parse `{UUIDLib} id (st : St W) (Q : result uuid -> St W -> Prop) :
  (forall u, uuid_Parse id = Some u -> Q (Ok u) st) ->
  (uuid_Parse id = None -> Q (Err ErrInvalidUUID) st) ->
  wp (glift (parseUUID id)) st Q.
Proof. intros Hs Hn. apply wp_lift. unfold parseUUID. destruct (uuid_Parse id); eauto. Qed.

End rules.

(** ** The two queries other services make *)
Section queries.
Context {W : Type} `{Repository W, Transactor W, TextMatch, UUIDLib}.
Context (tables_of : W -> tables) `{!RepositoryLaws W tables_of}.

Lemma Get_wp id w ev (Q : result Circle -> St W -> Prop) :
  (forall uid c w', uuid_Parse id = Some uid -> visible_circle (tables_of w) uid = Some c ->
     tables_of w' = tables_of w -> Q (Ok c) (w', ev)) ->
  (forall e w', tables_of w' = tables_of w -> Q (Err e) (w', ev)) ->
  wp (Get id) (w, ev) Q.
Proof.
  intros Hok Herr. unfold Get. apply wp_bind, wp_parse; [|intros; by apply Herr].
  intros uid Hid. apply wp_try, wp_repo. eapply wp_found; [exact (FindByID_law uid)|..].
  - intros c w' Hv Ht. apply wp_ret. by eapply Hok.
  - intros w' _ Ht. rewrite decide_True by done. by apply Herr.
  - intros e w' _ Ht. case_decide; by apply Herr.
Qed.

Lemma IsMember_wp c u w ev (Q : result bool -> St W -> Prop) :
  (forall cid uid b w', uuid_Parse c = Some cid -> uuid_Parse u = Some uid ->
     tables_of w' = tables_of w ->
     (b = true -> exists m, t_members (tables_of w) !! (cid, uid) = Some m /\
        m_Status m = MemberStatusActive) -> Q (Ok b) (w', ev)) ->
  (forall e w', tables_of w' = tables_of w -> Q (Err e) (w', ev)) ->
  wp (IsMember c u) (w, ev) Q.
Proof.
  intros Hok Herr. unfold IsMember. apply wp_bind, wp_parse; [|intros; by apply Herr].
  intros cid Hc. apply wp_bind, wp_parse; [|intros; by apply Herr]. intros uid Hu.
  apply wp_try, wp_repo. eapply wp_found; [exact (FindMember_law cid uid)|..].
  - intros m w' Hm Ht. apply wp_ret. eapply Hok; [done..|]. intros Hb%bool_decide_eq_true. eauto.
  - intros w' _ Ht. rewrite decide_True by done. by eapply Hok.
  - intros e w' _ Ht. case_decide; [by eapply Hok|by apply Herr].
Qed.
End queries.

Section calls.
Context {W : Type} `{Repository W, Transactor W, TextMatch, UUIDLib, GoFloatConv}.
Context (tables_of : W -> tables) `{!RepositoryLaws W tables_of}.
Context (s : circleService W) `{!CollaboratorLaws tables_of s}.

(** A body whose failures have no effect of their own keeps its outcome. *)
Lemma wp_withTransaction {A} (fn : M W A) (R : tables -> result A -> tables -> Prop) w :
  (forall w, wp fn w (λ r w', R (tables_of w) r (tables_of w'))) ->
  (forall t r t', R t r t' -> is_ok r = false -> t' = t \/ svc_tx s = true) ->
  wp (withTransaction s fn) w (λ r w',
    match r with
    | Ok _ => R (tables_of w) r (tables_of w')
    | Err e => tables_of w' = tables_of w /\
        ((exists t1, R (tables_of w) r t1) \/ infra e = true)
    | Panic => tables_of w' = tables_of w /\ exists t1, R (tables_of w) r t1
    end).
Proof.
  intros Hfn Hunch. unfold withTransaction. destruct (svc_tx s).
  - apply wp_of_run. intros r w' E.
    assert (refines tables_of fn R) as Href.
    { intros w1 r1 w1' E1. exact (wp_run _ _ _ _ _ (Hfn w1) E1). }
    pose proof (WithTransaction_law _ _ _ Href _ _ _ E) as Ha. by destruct r.
  - eapply wp_mono; [apply Hfn|]. intros [a|e|] w' HR; [done| |];
      destruct (Hunch _ _ _ HR eq_refl); naive_solver.
Qed.

(** ** Outcomes

    A call that succeeds relates the tables, its result, the new tables and what
    it sent; a call that fails leaves the tables and sends nothing; it panics
    only under [pan]. *)
Definition outcome {A} (pan : Prop)
    (post : tables -> A -> tables -> list event -> Prop) (t : tables) (ev : list event)
    (r : result A) (st : W * list event) : Prop :=
  match r with
  | Ok a => exists sent, st.2 = ev ++ sent /\ post t a (tables_of st.1) sent
  | Err _ => tables_of st.1 = t /\ st.2 = ev
  | Panic => pan /\ tables_of st.1 = t /\ st.2 = ev
  end.

(** What a broadcaster that may be nil receives. *)
Definition sent_if (present : bool) (e : event) : list event := if present then [e] else [].

Lemma emit_sent (b : bool) e ev : (if b then ev ++ [e] else ev) = ev ++ sent_if b e.
Proof. destruct b; [done|]. by rewrite app_nil_r. Qed.
End calls.
Arguments outcome {W} tables_of {A} pan post t ev r st.

(** Run a method of the service up to its end, one goal per path. *)
Ltac law :=
  first [ exact (FindByID_law _) | exact (GetMemberCount_law _) | exact (FindMember_law _ _)
        | exact (Update_law _) | exact (Create_law _) | exact (CreateMember_law _)
        | exact (UpdateMemberStatus_law _ _ _) | exact (CreateDispute_law _)
        | exact (CreateVote_law _) | exact (GetVotesByRound_law _ _)
        | exact (CreateAuctionBid_law _) | exact (SaveConfig_law _) | exact (GetMembers_law _)
        | exact (GetContributions_law _ _) | exact (CreatePenalty_law _)
        | exact (GetConfig_law _ _) ].

(** Express the tables after every call by the tables before the first one. *)
Ltac svc_norm :=
  cbn beta in *;
  repeat match goal with
  | Ht : ?f ?w = _, K : context [?f ?w] |- _ =>
      lazymatch type of Ht with
      | _ = tables => fail
      | _ => assert_fails (constr_eq Ht K); rewrite Ht in K
      end
  end.

Ltac svc_found := eapply wp_found; [law | intros ??? ?Ht | intros ?? ?Ht | intros ??? ?Ht].
Ltac svc_query := eapply wp_query; [law | intros ? ?Ht | intros ??? ?Ht].
Ltac svc_write := eapply wp_write; [law | intros ?? ?Ht | intros ??? ?Ht].

Ltac svc_rule :=
  lazymatch goal with
  | |- wp (repo _) _ _ => apply wp_repo
  | |- wp (emit _ _) _ _ => apply wp_emit
  | |- wp (glift (parseUUID _)) _ _ => apply wp_parse; intros
  | |- wp (deref ?p) _ _ => unfold deref
  | |- wp (FindByID _) _ _ => svc_found
  | |- wp (FindMemberByCircleAndUser _ _) _ _ => svc_found
  | |- wp (GetRoundConfigSnapshot _ _) _ _ => svc_found
  | |- wp (GetMemberCount _) _ _ => svc_query
  | |- wp (GetVotesByRound _ _) _ _ => svc_query
  | |- wp (GetMembers _) _ _ => svc_query
  | |- wp (GetContributionsByCircleAndRound _ _) _ _ => svc_query
  | |- wp (CircleRepo.Update _) _ _ => svc_write
  | |- wp (CircleRepo.Create _) _ _ => svc_write
  | |- wp (CreateMember _) _ _ => svc_write
  | |- wp (UpdateMemberStatus _ _ _) _ _ => svc_write
  | |- wp (CreateDispute _) _ _ => svc_write
  | |- wp (CreateVote _) _ _ => svc_write
  | |- wp (CreateAuctionBid _) _ _ => svc_write
  | |- wp (SaveRoundConfigSnapshot _) _ _ => svc_write
  | |- wp (CreatePenalty _) _ _ => svc_write
  | |- wp _ _ _ => wp_rule
  | |- match match ?x with _ => _ end with _ => _ end => destruct x eqn:?
  end; cbn beta iota zeta delta [wrap_err].

(** A path that ends in an error or a panic and has written nothing. *)
Ltac svc_fail := cbn; svc_norm; split_and?; congruence.

(** A path that succeeds: what remains is the relation of the tables. *)
Ltac svc_ok :=
  cbn; svc_norm;
  repeat match goal with
  | H : match ?x with _ => _ end = None |- _ => destruct x eqn:?; try discriminate H; clear H
  end; rewrite ?emit_sent, <-?app_assoc; eexists; split; [first [reflexivity | symmetry; apply app_nil_r]|];
  repeat eexists; try eassumption; try congruence; auto.

Ltac svc_run := repeat svc_rule; try svc_fail.

(** The row of the circle a call writes back. *)
Definition write_circle (c : Circle) : tables -> tables :=
  set_circles (alter (update_row c) (c_ID c)).

Section methods.
Context {W : Type} `{Repository W, Transactor W, TextMatch, UUIDLib, GoFloatConv}.
Context (tables_of : W -> tables) `{!RepositoryLaws W tables_of}.
Context (s : circleService W) `{!CollaboratorLaws tables_of s}.

Lemma Close_wp now id userID w ev :
  wp (Close s now id userID) (w, ev)
    (outcome tables_of False (λ t _ t' sent, exists cid uid c,
       uuid_Parse id = Some cid /\ uuid_Parse userID = Some uid /\
       visible_circle t cid = Some c /\ c_OrganizerID c = uid /\
       c_Status c = CircleStatusActive /\
       t' = write_circle (with_status CircleStatusCompleted (c_CurrentRound c) now c) t /\
       sent = sent_if (svc_broadcaster s) (CircleStatusChanged id "completed"))
     (tables_of w) ev).
Proof.
  unfold Close. svc_run. svc_ok.
Qed.

Lemma UpdateCircle_wp now id userID input w ev :
  wp (UpdateCircle now id userID input) (w, ev)
    (outcome tables_of False (λ t c' t' sent, exists cid uid c,
       uuid_Parse id = Some cid /\ uuid_Parse userID = Some uid /\
       visible_circle t cid = Some c /\ c_OrganizerID c = uid /\
       ~ (c_Status c <> CircleStatusPending /\ c_Status c <> CircleStatusActive) /\
       c' = apply_update input now c /\ t' = write_circle c' t /\ sent = [])
     (tables_of w) ev).
Proof.
  unfold UpdateCircle, Update_load, Update_store. svc_run. svc_ok.
Qed.

Lemma Start_wp now new id userID w ev :
  wp (Start s now new id userID) (w, ev)
    (outcome tables_of False (λ t _ t' sent, exists cid uid c,
       uuid_Parse id = Some cid /\ uuid_Parse userID = Some uid /\
       visible_circle t cid = Some c /\ c_OrganizerID c = uid /\
       c_Status c = CircleStatusPending /\ 2 <= active_count t cid /\
       sent = sent_if (svc_broadcaster s) (CircleStatusChanged id "active") /\
       let c' := with_status CircleStatusActive 1 now c in
       (t' = write_circle c' t \/
        exists cfg, rc_CircleID cfg = c_ID c /\ rc_RoundNumber cfg = 1 /\
          json_Marshal s c' = inl (rc_ConfigJSON cfg) /\
          rc_ConfigHash cfg = sha256_hex s (rc_ConfigJSON cfg) /\
          t' = (spec_SaveConfig cfg (write_circle c' t)).2))
     (tables_of w) ev).
Proof.
  unfold Start, snapshotRoundConfig. svc_run.
  - svc_ok. right.
    exists {| rc_ID := new; rc_CircleID := c_ID a; rc_RoundNumber := 1;
              rc_ConfigHash := sha256_hex s s0; rc_ConfigJSON := s0; rc_CreatedAt := now |}.
    by split_and!.
  - svc_ok.
  - svc_ok.
Qed.

Lemma Exit_wp circleID userID w ev :
  wp (Exit s circleID userID) (w, ev)
    (outcome tables_of False (λ t _ t' sent, exists cid uid c m,
       uuid_Parse circleID = Some cid /\ uuid_Parse userID = Some uid /\
       visible_circle t cid = Some c /\ c_OrganizerID c <> uid /\
       t_members t !! (cid, uid) = Some m /\ m_Status m = MemberStatusActive /\
       t' = set_members (alter (set_member_status MemberStatusExited) (cid, uid)) t /\
       sent = sent_if (svc_broadcaster s) (MemberLeft circleID userID))
     (tables_of w) ev).
Proof. unfold Exit, active_member_or. svc_run. svc_ok. Qed.

Lemma RemoveMember_wp circleID callerID memberAddress reason w ev :
  wp (RemoveMember s circleID callerID memberAddress reason) (w, ev)
    (outcome tables_of False (λ t _ t' sent, exists cid uid c m,
       uuid_Parse circleID = Some cid /\ uuid_Parse memberAddress = Some uid /\
       uuid_Parse callerID = Some (c_OrganizerID c) /\
       visible_circle t cid = Some c /\ c_OrganizerID c <> uid /\
       t_members t !! (cid, uid) = Some m /\ m_Status m = MemberStatusActive /\
       t' = set_members (alter (set_member_status MemberStatusRemoved) (cid, uid)) t /\
       sent = sent_if (svc_broadcaster s) (MemberLeft circleID memberAddress))
     (tables_of w) ev).
Proof. unfold RemoveMember, active_member_or. svc_run. svc_ok. Qed.

(** The member is active in the circle, as [FindMemberByCircleAndUser] reads it. *)
Definition is_active (t : tables) (cid uid : uuid) : Prop :=
  exists m, t_members t !! (cid, uid) = Some m /\ m_Status m = MemberStatusActive.

Lemma RaiseDispute_wp now new newAudit circleID userID input w ev :
  wp (RaiseDispute s now new newAudit circleID userID input) (w, ev)
    (outcome tables_of False (λ t d t' _, exists c,
       uuid_Parse circleID = Some (d_CircleID d) /\ uuid_Parse userID = Some (d_RaiserID d) /\
       visible_circle t (d_CircleID d) = Some c /\
       ~ (c_Status c <> CircleStatusActive /\ c_Status c <> CircleStatusPending) /\
       is_active t (d_CircleID d) (d_RaiserID d) /\
       d_ID d = new /\ d_Status d = "open"%string /\ d_Reason d = di_Reason input /\
       t' = set_disputes (cons d) t)
     (tables_of w) ev).
Proof.
  unfold RaiseDispute, require_active. svc_run. svc_ok.
Qed.

Lemma SubmitAuctionBid_wp now new circleID userID bidAmount w ev :
  wp (SubmitAuctionBid now new circleID userID bidAmount) (w, ev)
    (outcome tables_of False (λ t b t' sent, exists c,
       uuid_Parse circleID = Some (b_CircleID b) /\ uuid_Parse userID = Some (b_BidderID b) /\
       visible_circle t (b_CircleID b) = Some c /\ c_Status c = CircleStatusActive /\
       c_PayoutType c = PayoutTypeAuction /\ is_active t (b_CircleID b) (b_BidderID b) /\
       f64_le bidAmount f64_zero = false /\ b_BidAmount b = bidAmount /\
       b_RoundNumber b = round_of c /\
       t' = (spec_CreateAuctionBid b t).2 /\ sent = [])
     (tables_of w) ev).
Proof.
  unfold SubmitAuctionBid, require_active. svc_run. svc_ok.
Qed.

Lemma CastVote_wp now new circleID userID recipient w ev :
  wp (CastVote s now new circleID userID recipient) (w, ev)
    (outcome tables_of False (λ t '(v, closed, winner) t' sent, exists c,
       uuid_Parse circleID = Some (v_CircleID v) /\ uuid_Parse userID = Some (v_VoterID v) /\
       uuid_Parse recipient = Some (v_RecipientID v) /\
       visible_circle t (v_CircleID v) = Some c /\ c_Status c = CircleStatusActive /\
       c_PayoutType c = PayoutTypeVote /\ is_active t (v_CircleID v) (v_VoterID v) /\
       is_active t (v_CircleID v) (v_RecipientID v) /\ v_RoundNumber v = round_of c /\
       vote_conflict t v = false /\ t' = set_votes <[vote_key v := v]> t /\ sent = [] /\
       let votes := round_votes t' (v_CircleID v) (round_of c) in
       (closed = true ->
          winner = VoteTally (range_order s (map_to_list (tally votes))) /\
          (active_count t (v_CircleID v) <= Z.of_nat (length votes) \/
           c_MaxMembers c <= Z.of_nat (length votes))))
     (tables_of w) ev).
Proof.
  unfold CastVote, require_active, close_votes. svc_run.
  all: svc_ok; rewrite Ht4 || rewrite Ht3; repeat case_match; go_bool; auto.
Qed.

Lemma wp_userRepo find u w (Q : result (option Z) -> W -> Prop) :
  svc_userRepo s = Some find ->
  (forall score w', tables_of w' = tables_of w -> Q (Ok (Some score)) w') ->
  (forall e w', tables_of w' = tables_of w -> Q (Err e) w') ->
  wp (find u) w Q.
Proof.
  intros Hs Hok Herr. apply wp_of_run. intros r w' E.
  destruct (userRepo_law _ _ _ _ _ Hs E) as [Ht Hr].
  destruct r as [[score|]|e|]; [auto|by destruct Hr|auto|done].
Qed.

Lemma wp_communityChecker isMember c u w (Q : result bool -> W -> Prop) :
  svc_communityChecker s = Some isMember ->
  (forall b w', tables_of w' = tables_of w -> Q (Ok b) w') ->
  (forall e w', tables_of w' = tables_of w -> Q (Err e) w') ->
  wp (isMember c u) w Q.
Proof.
  intros Hs Hok Herr. apply wp_of_run. intros r w' E.
  destruct (communityChecker_law _ _ _ _ _ _ Hs E) as [Ht Hr]. destruct r; [auto|auto|done].
Qed.

Lemma join_guards_wp c uid inviteCode w ev (Q : result unit -> St W -> Prop) :
  (forall w', tables_of w' = tables_of w ->
     ~ (c_Status c <> CircleStatusPending /\ c_Status c <> CircleStatusActive) ->
     Q (Ok tt) (w', ev)) ->
  (forall e w', tables_of w' = tables_of w -> Q (Err e) (w', ev)) ->
  (forall w', tables_of w' = tables_of w ->
     svc_userRepo s = None \/ svc_communityChecker s = None -> Q Panic (w', ev)) ->
  wp (join_guards s c uid inviteCode) (w, ev) Q.
Proof.
  intros Hok Herr Hpan. unfold join_guards.
  repeat first
    [ match goal with E : svc_userRepo s = Some _ |- _ =>
        eapply (wp_userRepo _ _ _ _ E); intros ?? ?Ht; cbn
      end
    | match goal with E : svc_communityChecker s = Some _ |- _ =>
        eapply (wp_communityChecker _ _ _ _ _ E); intros ?? ?Ht; cbn
      end
    | svc_rule ].
  all: first [ apply Hok; [congruence|assumption] | apply Herr; congruence
             | apply Hpan; [congruence|auto] ].
Qed.

Lemma premium_guard_wp orgID input w ev (Q : result unit -> St W -> Prop) :
  (forall w', tables_of w' = tables_of w -> Q (Ok tt) (w', ev)) ->
  (forall e w', tables_of w' = tables_of w -> Q (Err e) (w', ev)) ->
  (forall w', tables_of w' = tables_of w -> svc_userRepo s = None -> Q Panic (w', ev)) ->
  wp (premium_guard s orgID input) (w, ev) Q.
Proof.
  intros Hok Herr Hpan. unfold premium_guard.
  repeat first
    [ match goal with E : svc_userRepo s = Some _ |- _ =>
        eapply (wp_userRepo _ _ _ _ E); intros ?? ?Ht; cbn
      end
    | svc_rule ].
  all: first [ apply Hok; congruence | apply Herr; congruence
             | apply Hpan; [congruence|auto] ].
Qed.

(** The bodies of the three transactions.  Those of [Join] and [Cancel] write
    once, at their end. *)
Lemma join_body_wp now c cid uid w :
  wp (join_body now c cid uid) w (λ r w',
    match r with
    | Ok _ =>
        active_count (tables_of w) cid < c_MaxMembers c /\
        t_members (tables_of w) !! (cid, uid) = None /\
        tables_of w' = set_members <[(cid, uid) :=
          member_row cid uid (wrap64 (active_count (tables_of w) cid + 1)) now]> (tables_of w)
    | Err _ => tables_of w' = tables_of w
    | Panic => False
    end).
Proof.
  unfold join_body. svc_run.
  all: svc_norm; match goal with H : match ?x with _ => _ end = None |- _ =>
         destruct x eqn:?; try discriminate H end; by split_and!.
Qed.

Lemma cancel_body_wp now uid usrID w :
  wp (cancel_body now uid usrID) w (λ r w',
    match r with
    | Ok _ => exists c, visible_circle (tables_of w) uid = Some c /\ c_OrganizerID c = usrID /\
        c_Status c = CircleStatusPending /\
        tables_of w' = write_circle (with_status CircleStatusCancelled (c_CurrentRound c) now c)
                         (tables_of w)
    | Err _ => tables_of w' = tables_of w
    | Panic => False
    end).
Proof.
  unfold cancel_body. svc_run. svc_norm. exists a. by split_and!.
Qed.

(** [Create] writes a circle, then its organizer as a member: when the second
    statement fails the circle stays, unless the transaction undoes it. *)
Lemma create_body_wp now new orgID input w :
  wp (create_body now new orgID input) w (λ r w',
    let c := buildCircle now new orgID input in
    let t1 := set_circles <[new := inserted_row c]> (tables_of w) in
    match r with
    | Ok c' => c' = c /\ circle_conflict (tables_of w) c = false /\
        t_members (tables_of w) !! (new, orgID) = None /\
        tables_of w' = set_members <[(new, orgID) := member_row new orgID 1 now]> t1
    | Err _ => tables_of w' = tables_of w \/ tables_of w' = t1
    | Panic => False
    end).
Proof.
  unfold create_body. svc_run; svc_norm; cbn; auto.
  destruct (circle_conflict _ _); [discriminate|]. case_match; [discriminate|].
  by split_and!.
Qed.

Lemma Join_wp now circleID userID inviteCode w ev :
  wp (Join s now circleID userID inviteCode) (w, ev)
    (outcome tables_of (svc_userRepo s = None \/ svc_communityChecker s = None)
       (λ t _ t' sent, exists cid uid c,
       uuid_Parse circleID = Some cid /\ uuid_Parse userID = Some uid /\
       visible_circle t cid = Some c /\
       ~ (c_Status c <> CircleStatusPending /\ c_Status c <> CircleStatusActive) /\
       active_count t cid < c_MaxMembers c /\ t_members t !! (cid, uid) = None /\
       t' = set_members <[(cid, uid) :=
              member_row cid uid (wrap64 (active_count t cid + 1)) now]> t /\
       sent = sent_if (svc_broadcaster s) (MemberJoined circleID userID))
     (tables_of w) ev).
Proof.
  unfold Join. svc_run. apply join_guards_wp; [|intros; svc_fail|intros; cbn; svc_norm; auto].
  intros w2 Ht2 Hst. cbn. svc_rule. svc_rule.
  eapply wp_mono; [eapply (wp_withTransaction tables_of s _ (λ t r t', match r with
    | Ok _ => active_count t u < c_MaxMembers a /\ t_members t !! (u, u0) = None /\
        t' = set_members <[(u, u0) := member_row u u0 (wrap64 (active_count t u + 1)) now]> t
    | Err _ => t' = t
    | Panic => False
    end)); [intros; apply join_body_wp|intros ? [|e|] ? HR ?; [done|by left|done]]|].
  intros [] w3; [intros (? & ? & ?)|intros (? & ?); svc_fail|intros (_ & _ & [])].
  svc_rule. svc_ok.
Qed.

Lemma Cancel_wp now id userID w ev :
  wp (Cancel s now id userID) (w, ev)
    (outcome tables_of False (λ t _ t' sent, exists cid uid c,
       uuid_Parse id = Some cid /\ uuid_Parse userID = Some uid /\
       visible_circle t cid = Some c /\ c_OrganizerID c = uid /\
       c_Status c = CircleStatusPending /\
       t' = write_circle (with_status CircleStatusCancelled (c_CurrentRound c) now c) t /\
       sent = sent_if (svc_broadcaster s) (CircleStatusChanged id "cancelled"))
     (tables_of w) ev).
Proof.
  unfold Cancel. svc_run.
  eapply wp_mono; [eapply (wp_withTransaction tables_of s _ (λ t r t', match r with
    | Ok _ => exists c, visible_circle t u = Some c /\ c_OrganizerID c = u0 /\
        c_Status c = CircleStatusPending /\
        t' = write_circle (with_status CircleStatusCancelled (c_CurrentRound c) now c) t
    | Err _ => t' = t
    | Panic => False
    end)); [intros; apply cancel_body_wp|intros ? [|e|] ? HR ?; [done|by left|done]]|].
  intros [] w3; [intros (c & ? & ? & ? & ?)|intros (? & ?); svc_fail|intros (_ & _ & [])].
  svc_rule. svc_ok.
Qed.

Lemma CreateCircle_wp now new organizerID input w ev :
  svc_tx s = true ->
  wp (CreateCircle s now new organizerID input) (w, ev)
    (outcome tables_of (svc_userRepo s = None) (λ t c t' sent, exists orgID,
       uuid_Parse organizerID = Some orgID /\ 2 <= ci_MaxMembers input /\
       c = buildCircle now new orgID input /\ circle_conflict t c = false /\
       t_members t !! (new, orgID) = None /\
       t' = set_members <[(new, orgID) := member_row new orgID 1 now]>
              (set_circles <[new := inserted_row c]> t) /\
       sent = sent_if (svc_broadcaster s) (CircleCreated (uuid_String new) organizerID))
     (tables_of w) ev).
Proof.
  intros Htx. unfold CreateCircle. svc_run.
  apply premium_guard_wp; [|intros; svc_fail|intros; cbn; svc_norm; auto].
  intros w2 Ht2. svc_rule. svc_rule.
  eapply wp_mono; [eapply (wp_withTransaction tables_of s _ (λ t r t',
    let c := buildCircle now new u input in
    match r with
    | Ok c' => c' = c /\ circle_conflict t c = false /\ t_members t !! (new, u) = None /\
        t' = set_members <[(new, u) := member_row new u 1 now]>
               (set_circles <[new := inserted_row c]> t)
    | Err _ => t' = t \/ t' = set_circles <[new := inserted_row c]> t
    | Panic => False
    end)); [intros; apply create_body_wp|by auto]|].
  intros [] w3; [intros (-> & ? & ? & ?)|intros (? & ?); svc_fail|intros (_ & _ & [])].
  svc_rule. svc_rule. svc_ok.
Qed.

(** The penalties of a round: one per active member without a contribution. *)
Definition penalties_of (nows : nat -> time) (news : nat -> uuid) (c : Circle) (cID : uuid)
    (roundNumber : Z) (contributed : gset uuid) (k : nat) (members : list CircleMember) :
    list Penalty :=
  imap (λ i m, penalty_of (nows (k + i)%nat) (news (k + i)%nat) c cID roundNumber m)
    (filter (λ m, missed contributed m) members).

Definition penalty_event (circleID : string) (p : Penalty) : event :=
  MemberPenalized circleID (uuid_String (p_UserID p)) (p_RoundNumber p) (p_Amount p).

Definition sent_penalties (circleID : string) (ps : list Penalty) : list event :=
  if svc_broadcaster s then penalty_event circleID <$> ps else [].

Lemma penalties_of_cons nows news c cID roundNumber contributed k m members :
  penalties_of nows news c cID roundNumber contributed k (m :: members) =
  if missed contributed m
  then penalty_of (nows k) (news k) c cID roundNumber m ::
       penalties_of nows news c cID roundNumber contributed (S k) members
  else penalties_of nows news c cID roundNumber contributed k members.
Proof.
  unfold penalties_of. rewrite filter_cons. destruct (missed contributed m); [|done].
  rewrite decide_True by done. cbn [imap]. rewrite Nat.add_0_r. f_equal.
  apply imap_ext. intros i ? _. cbn. by rewrite Nat.add_succ_r.
Qed.

Lemma set_penalties_app f g t :
  set_penalties f (set_penalties g t) = set_penalties (λ l, f (g l)) t.
Proof. done. Qed.

Lemma penalize_wp nows news circleID c cID roundNumber contributed members k w ev :
  wp (penalize s nows news circleID c cID roundNumber contributed k members) (w, ev)
    (λ r st, exists n,
       let ps := penalties_of nows news c cID roundNumber contributed k members in
       tables_of st.1 = set_penalties (app (rev (take n ps))) (tables_of w) /\
       st.2 = ev ++ sent_penalties circleID (take n ps) /\
       r <> Panic /\ (is_ok r = true -> (length ps <= n)%nat)).
Proof.
  revert k w ev. induction members as [|m members IH]; intros k w ev; cbn [penalize].
  { exists 0%nat. unfold sent_penalties. cbn.
    destruct (svc_broadcaster s), (tables_of w); cbn; rewrite ?app_nil_r; by split_and!. }
  rewrite penalties_of_cons. destruct (missed contributed m); [|by apply IH].
  svc_rule. svc_rule. svc_rule.
  - svc_rule. svc_rule. eapply wp_mono; [apply IH|].
    intros r [w2 ev2] (n & Hw & Hev & Hr & Hn). exists (S n). cbn in *. split_and!; [|.. ].
    + rewrite Hw, Ht. unfold set_penalties. cbn. f_equal. by rewrite <-app_assoc.
    + rewrite Hev. unfold sent_penalties. destruct (svc_broadcaster s); [|done].
      by rewrite <-app_assoc.
    + done.
    + intros Hok. specialize (Hn Hok). lia.
  - exists 0%nat. cbn. unfold sent_penalties. split_and!; [|by destruct (svc_broadcaster s); rewrite app_nil_r|done|done].
    rewrite Ht. by destruct (tables_of w).
Qed.

(** The members [GetContributionsByCircleAndRound] returns, as a set. *)
Definition contributors (t : tables) (cID : uuid) (roundNumber : Z) : gset uuid :=
  list_to_set (rct_UserID <$>
    filter (λ r, rct_CircleID r = cID /\ rct_RoundNumber r = roundNumber) (t_contributions t)).

Lemma ProcessMissedContributions_wp nows news circleID roundNumber w ev :
  wp (ProcessMissedContributions s nows news circleID roundNumber) (w, ev)
    (λ r st, r <> Panic /\
       ((is_ok r = false /\ tables_of st.1 = tables_of w /\ st.2 = ev) \/
        exists n cID c,
          let t := tables_of w in
          let ps := penalties_of nows news c cID roundNumber (contributors t cID roundNumber) 0
                      (circle_members t cID) in
          uuid_Parse circleID = Some cID /\ visible_circle t cID = Some c /\
          tables_of st.1 = set_penalties (app (rev (take n ps))) t /\
          st.2 = ev ++ sent_penalties circleID (take n ps) /\
          (is_ok r = true -> (length ps <= n)%nat))).
Proof.
  unfold ProcessMissedContributions.
  destruct (uuid_Parse circleID) as [cID|]; cbn; svc_run; try (by cbn; svc_norm; eauto).
  eapply wp_mono; [apply penalize_wp|]. intros r [w3 ev3] (n & Hw & Hev & Hr & Hn).
  split; [done|]. right. exists n, cID, a. svc_norm. unfold contributors.
  by split_and!.
Qed.
End methods.
