(* ===== verification/CircleInv.v ===== *)
(** The circle as a state machine: the abstract steps a circle's tables can
    take, the refinement of every call of the service to them, and the
    invariants of the tables reachable by calls.  The last part relates calls
    that interleave, and the two queries PostgreSQL does not accept. *)
From S2P Require Export CircleSpec CirclePg.
From stdpp Require Import pretty options.
#[local] Set Default Proof Using "Type*".
Open Scope Z_scope.
Local Open Scope go_scope.

(** ** Abstract steps *)
Definition open_circle (c : Circle) : Prop :=
  c_Status c = CircleStatusPending \/ c_Status c = CircleStatusActive.

Inductive circle_step (t : tables) : tables -> Prop :=
  | step_create c now :
      circle_conflict t c = false -> t_members t !! (c_ID c, c_OrganizerID c) = None ->
      c_Status c = CircleStatusPending -> c_CurrentRound c = 0 -> 2 <= c_MaxMembers c ->
      c_ContractID c = None ->
      circle_step t (set_members
        <[(c_ID c, c_OrganizerID c) := member_row (c_ID c) (c_OrganizerID c) 1 now]>
        (set_circles <[c_ID c := inserted_row c]> t))
  | step_update cid c input now :
      visible_circle t cid = Some c -> open_circle c ->
      circle_step t (write_circle (apply_update input now c) t)
  | step_start cid c now :
      visible_circle t cid = Some c -> c_Status c = CircleStatusPending ->
      2 <= active_count t cid ->
      circle_step t (write_circle (with_status CircleStatusActive 1 now c) t)
  | step_cancel cid c now :
      visible_circle t cid = Some c -> c_Status c = CircleStatusPending ->
      circle_step t
        (write_circle (with_status CircleStatusCancelled (c_CurrentRound c) now c) t)
  | step_close cid c now :
      visible_circle t cid = Some c -> c_Status c = CircleStatusActive ->
      circle_step t
        (write_circle (with_status CircleStatusCompleted (c_CurrentRound c) now c) t)
  | step_join cid c uid now :
      visible_circle t cid = Some c -> open_circle c ->
      active_count t cid < c_MaxMembers c -> t_members t !! (cid, uid) = None ->
      circle_step t (set_members
        <[(cid, uid) := member_row cid uid (wrap64 (active_count t cid + 1)) now]> t)
  | step_leave cid c uid status :
      visible_circle t cid = Some c -> c_OrganizerID c <> uid -> is_active t cid uid ->
      status = MemberStatusExited \/ status = MemberStatusRemoved ->
      circle_step t (set_members (alter (set_member_status status) (cid, uid)) t)
  | step_dispute d c :
      visible_circle t (d_CircleID d) = Some c -> open_circle c ->
      is_active t (d_CircleID d) (d_RaiserID d) ->
      circle_step t (set_disputes (cons d) t)
  | step_vote v c :
      visible_circle t (v_CircleID v) = Some c -> c_Status c = CircleStatusActive ->
      c_PayoutType c = PayoutTypeVote -> is_active t (v_CircleID v) (v_VoterID v) ->
      is_active t (v_CircleID v) (v_RecipientID v) -> v_RoundNumber v = round_of c ->
      vote_conflict t v = false ->
      circle_step t (set_votes <[vote_key v := v]> t)
  | step_bid b c :
      visible_circle t (b_CircleID b) = Some c -> c_Status c = CircleStatusActive ->
      c_PayoutType c = PayoutTypeAuction -> is_active t (b_CircleID b) (b_BidderID b) ->
      f64_le (b_BidAmount b) f64_zero = false ->
      circle_step t (spec_CreateAuctionBid b t).2
  | step_penalties ps : circle_step t (set_penalties (app ps) t)
  | step_config cfg : circle_step t (spec_SaveConfig cfg t).2.

(** ** Calls *)
Inductive call :=
  | CallCreate (now : time) (new : uuid) (organizerID : string) (input : CreateCircleInput)
  | CallUpdate (now : time) (id userID : string) (input : UpdateCircleInput)
  | CallStart (now : time) (new : uuid) (id userID : string)
  | CallCancel (now : time) (id userID : string)
  | CallClose (now : time) (id userID : string)
  | CallJoin (now : time) (circleID userID inviteCode : string)
  | CallExit (circleID userID : string)
  | CallRemoveMember (circleID callerID memberAddress reason : string)
  | CallRaiseDispute (now : time) (new newAudit : uuid) (circleID userID : string)
      (input : DisputeInput)
  | CallCastVote (now : time) (new : uuid) (circleID userID recipient : string)
  | CallSubmitAuctionBid (now : time) (new : uuid) (circleID userID : string)
      (bidAmount : float64)
  | CallProcessMissed (nows : nat -> time) (news : nat -> uuid) (circleID : string)
      (roundNumber : Z).

Section refinement.
Context {W : Type} `{Repository W, Transactor W, TextMatch, UUIDLib, GoFloatConv}.
Context (tables_of : W -> tables) `{!RepositoryLaws W tables_of}.
Context (s : circleService W) `{!CollaboratorLaws tables_of s}.

Definition forget {A} (m : M (St W) A) : M (St W) unit := do! m in gret tt.

Definition run_call (k : call) : M (St W) unit :=
  match k with
  | CallCreate now new organizerID input => forget (CreateCircle s now new organizerID input)
  | CallUpdate now id userID input => forget (UpdateCircle now id userID input)
  | CallStart now new id userID => Start s now new id userID
  | CallCancel now id userID => CircleService.Cancel s now id userID
  | CallClose now id userID => Close s now id userID
  | CallJoin now circleID userID inviteCode => CircleService.Join s now circleID userID inviteCode
  | CallExit circleID userID => Exit s circleID userID
  | CallRemoveMember circleID callerID member reason =>
      RemoveMember s circleID callerID member reason
  | CallRaiseDispute now new newAudit circleID userID input =>
      forget (RaiseDispute s now new newAudit circleID userID input)
  | CallCastVote now new circleID userID recipient =>
      forget (CastVote s now new circleID userID recipient)
  | CallSubmitAuctionBid now new circleID userID bidAmount =>
      forget (SubmitAuctionBid now new circleID userID bidAmount)
  | CallProcessMissed nows news circleID roundNumber =>
      ProcessMissedContributions s nows news circleID roundNumber
  end.

(** ** What each call does

    One constructor per call, tied to its arguments: who is asking, which circle
    was read, what it required and what is written. *)
Definition owned_by (t : tables) (id userID : string) (cid : uuid) (c : Circle) : Prop :=
  uuid_Parse id = Some cid /\ visible_circle t cid = Some c /\
  uuid_Parse userID = Some (c_OrganizerID c).

(** The row a creation stores: the input, no contract, nothing counted yet. *)
Record new_circle (now : time) (new orgID : uuid) (input : CreateCircleInput) (c : Circle) :
    Prop := {
  nc_id : c_ID c = new;
  nc_organizer : c_OrganizerID c = orgID;
  nc_status : c_Status c = CircleStatusPending /\ c_CurrentRound c = 0;
  nc_contract : c_ContractID c = None /\ c_DeletedAt c = None;
  nc_counted : c_MemberCount c = 0 /\ c_TotalContributions c = f64_zero;
  nc_names : c_Name c = ci_Name input /\
    c_Description c = (if decide (ci_Description input = "") then None
                       else Some (ci_Description input));
  nc_kind : c_CircleType c = ci_CircleType input /\ c_PayoutType c = ci_PayoutType input /\
    c_RequiresInvite c = ci_RequiresInvite input;
  nc_terms : c_ContributionAmount c = ci_ContributionAmount input /\
    c_Currency c = ci_Currency input /\ c_Frequency c = ci_Frequency input /\
    c_MaxMembers c = ci_MaxMembers input /\ c_MinMoiScore c = ci_MinMoiScore input;
  nc_charges : c_CollateralPercent c = ci_CollateralPercent input /\
    c_LateFeePercent c = ci_LateFeePercent input /\
    c_GracePeriodHours c = ci_GracePeriodHours input /\ c_MaxStrikes c = ci_MaxStrikes input;
  nc_times : c_CreatedAt c = now /\ c_UpdatedAt c = now;
}.

(** The circle an update writes back: the given fields, the rest as it was. *)
Record updated_circle (now : time) (input : UpdateCircleInput) (c c' : Circle) : Prop := {
  uc_id : c_ID c' = c_ID c /\ c_OrganizerID c' = c_OrganizerID c;
  uc_state : c_Status c' = c_Status c /\ c_CurrentRound c' = c_CurrentRound c /\
    c_TotalContributions c' = c_TotalContributions c;
  uc_kind : c_CircleType c' = c_CircleType c /\ c_PayoutType c' = c_PayoutType c /\
    c_RequiresInvite c' = c_RequiresInvite c /\ c_StartDate c' = c_StartDate c /\
    c_EndDate c' = c_EndDate c;
  uc_names : c_Name c' = default (c_Name c) (ui_Name input) /\
    c_Description c' = match ui_Description input with
                       | None => c_Description c
                       | Some d => if decide (d = "") then None else Some d
                       end;
  uc_terms : c_ContributionAmount c' = default (c_ContributionAmount c) (ui_ContributionAmount input) /\
    c_Currency c' = default (c_Currency c) (ui_Currency input) /\
    c_Frequency c' = default (c_Frequency c) (ui_Frequency input) /\
    c_MaxMembers c' = default (c_MaxMembers c) (ui_MaxMembers input) /\
    c_MinMoiScore c' = default (c_MinMoiScore c) (ui_MinMoiScore input);
  uc_charges : c_CollateralPercent c' = default (c_CollateralPercent c) (ui_CollateralPercent input) /\
    c_LateFeePercent c' = default (c_LateFeePercent c) (ui_LateFeePercent input) /\
    c_GracePeriodHours c' = default (c_GracePeriodHours c) (ui_GracePeriodHours input) /\
    c_MaxStrikes c' = default (c_MaxStrikes c) (ui_MaxStrikes input);
  uc_time : c_UpdatedAt c' = now;
}.

(** The circle a start, a cancellation or a closing writes back: its status and
    round, the rest as it was. *)
Record moved_circle (status : CircleStatus) (round : Z) (now : time) (c c' : Circle) : Prop := {
  mc_state : c_Status c' = status /\ c_CurrentRound c' = round /\ c_UpdatedAt c' = now;
  mc_id : c_ID c' = c_ID c /\ c_OrganizerID c' = c_OrganizerID c;
  mc_kind : c_CircleType c' = c_CircleType c /\ c_PayoutType c' = c_PayoutType c /\
    c_RequiresInvite c' = c_RequiresInvite c /\ c_StartDate c' = c_StartDate c /\
    c_EndDate c' = c_EndDate c;
  mc_names : c_Name c' = c_Name c /\ c_Description c' = c_Description c;
  mc_terms : c_ContributionAmount c' = c_ContributionAmount c /\ c_Currency c' = c_Currency c /\
    c_Frequency c' = c_Frequency c /\ c_MaxMembers c' = c_MaxMembers c /\
    c_MinMoiScore c' = c_MinMoiScore c /\ c_TotalContributions c' = c_TotalContributions c;
  mc_charges : c_CollateralPercent c' = c_CollateralPercent c /\
    c_LateFeePercent c' = c_LateFeePercent c /\
    c_GracePeriodHours c' = c_GracePeriodHours c /\ c_MaxStrikes c' = c_MaxStrikes c;
}.

(** The members who are late in a round: active, without a contribution. *)
Definition late_members (t : tables) (cid : uuid) (round : Z) : list uuid :=
  m_UserID <$> filter (λ m, m_Status m = MemberStatusActive /\
    m_UserID m ∉ contributors t cid round) (circle_members t cid).

(** [ps] are the late penalties of the first late members of the round, in
    their order, each with its own identifier and time. *)
Record charges (nows : nat -> time) (news : nat -> uuid) (cid : uuid) (round : Z) (c : Circle)
    (t : tables) (ps : list Penalty) : Prop := {
  ch_users : (p_UserID <$> ps) `prefix_of` late_members t cid round;
  ch_rows i p : ps !! i = Some p ->
    p_ID p = news i /\ p_CreatedAt p = nows i /\ p_CircleID p = cid /\
    p_RoundNumber p = round /\ p_PenaltyType p = PenaltyTypeLate /\ p_StrikesApplied p = 1 /\
    p_Amount p = CalculateLateFee (c_ContributionAmount c) (c_LateFeePercent c) /\
    p_Reason p = Some ("Missed contribution for round " ++ pretty round)%string;
}.

Inductive call_step : call -> tables -> tables -> Prop :=
  | does_create now new organizerID input t orgID c :
      uuid_Parse organizerID = Some orgID -> 2 <= ci_MaxMembers input ->
      circle_conflict t c = false -> t_members t !! (new, orgID) = None ->
      new_circle now new orgID input c ->
      call_step (CallCreate now new organizerID input) t (set_members
        <[(new, orgID) := {| m_CircleID := new; m_UserID := orgID; m_Position := 1;
            m_Status := MemberStatusActive; m_JoinedAt := now |}]>
        (set_circles <[new := c]> t))
  | does_update now id userID input t cid c c' :
      owned_by t id userID cid c -> open_circle c -> updated_circle now input c c' ->
      call_step (CallUpdate now id userID input) t (write_circle c' t)
  | does_start now new id userID t cid c c' t1 t' :
      owned_by t id userID cid c -> c_Status c = CircleStatusPending ->
      2 <= active_count t cid -> moved_circle CircleStatusActive 1 now c c' ->
      t1 = write_circle c' t ->
      (t' = t1 \/ exists cfg, rc_CircleID cfg = c_ID c /\ rc_RoundNumber cfg = 1 /\
         json_Marshal s c' = inl (rc_ConfigJSON cfg) /\
         rc_ConfigHash cfg = sha256_hex s (rc_ConfigJSON cfg) /\
         t' = (spec_SaveConfig cfg t1).2) ->
      call_step (CallStart now new id userID) t t'
  | does_cancel now id userID t cid c c' :
      owned_by t id userID cid c -> c_Status c = CircleStatusPending ->
      moved_circle CircleStatusCancelled (c_CurrentRound c) now c c' ->
      call_step (CallCancel now id userID) t (write_circle c' t)
  | does_close now id userID t cid c c' :
      owned_by t id userID cid c -> c_Status c = CircleStatusActive ->
      moved_circle CircleStatusCompleted (c_CurrentRound c) now c c' ->
      call_step (CallClose now id userID) t (write_circle c' t)
  | does_join now circleID userID inviteCode t cid uid c n :
      uuid_Parse circleID = Some cid -> uuid_Parse userID = Some uid ->
      visible_circle t cid = Some c -> open_circle c ->
      n = active_count t cid -> n < c_MaxMembers c -> t_members t !! (cid, uid) = None ->
      call_step (CallJoin now circleID userID inviteCode) t (set_members
        <[(cid, uid) := {| m_CircleID := cid; m_UserID := uid; m_Position := wrap64 (n + 1);
            m_Status := MemberStatusActive; m_JoinedAt := now |}]> t)
  | does_exit circleID userID t cid uid c :
      uuid_Parse circleID = Some cid -> uuid_Parse userID = Some uid ->
      visible_circle t cid = Some c -> c_OrganizerID c <> uid -> is_active t cid uid ->
      call_step (CallExit circleID userID) t
        (set_members (alter (set_member_status MemberStatusExited) (cid, uid)) t)
  | does_remove circleID callerID member reason t cid uid c :
      owned_by t circleID callerID cid c -> uuid_Parse member = Some uid ->
      c_OrganizerID c <> uid -> is_active t cid uid ->
      call_step (CallRemoveMember circleID callerID member reason) t
        (set_members (alter (set_member_status MemberStatusRemoved) (cid, uid)) t)
  | does_dispute now new newAudit circleID userID input t c d :
      uuid_Parse circleID = Some (d_CircleID d) -> uuid_Parse userID = Some (d_RaiserID d) ->
      visible_circle t (d_CircleID d) = Some c -> open_circle c ->
      is_active t (d_CircleID d) (d_RaiserID d) ->
      d_ID d = new -> d_Status d = "open"%string -> d_Reason d = di_Reason input ->
      call_step (CallRaiseDispute now new newAudit circleID userID input) t
        (set_disputes (cons d) t)
  | does_vote now new circleID userID recipient t c v :
      uuid_Parse circleID = Some (v_CircleID v) -> uuid_Parse userID = Some (v_VoterID v) ->
      uuid_Parse recipient = Some (v_RecipientID v) ->
      visible_circle t (v_CircleID v) = Some c -> c_Status c = CircleStatusActive ->
      c_PayoutType c = PayoutTypeVote -> is_active t (v_CircleID v) (v_VoterID v) ->
      is_active t (v_CircleID v) (v_RecipientID v) ->
      v_RoundNumber v = Z.max 1 (c_CurrentRound c) -> vote_conflict t v = false ->
      call_step (CallCastVote now new circleID userID recipient) t
        (set_votes <[vote_key v := v]> t)
  | does_bid now new circleID userID bidAmount t c b :
      uuid_Parse circleID = Some (b_CircleID b) -> uuid_Parse userID = Some (b_BidderID b) ->
      visible_circle t (b_CircleID b) = Some c -> c_Status c = CircleStatusActive ->
      c_PayoutType c = PayoutTypeAuction -> is_active t (b_CircleID b) (b_BidderID b) ->
      f64_le bidAmount f64_zero = false -> b_BidAmount b = bidAmount ->
      b_RoundNumber b = Z.max 1 (c_CurrentRound c) ->
      call_step (CallSubmitAuctionBid now new circleID userID bidAmount) t
        (spec_CreateAuctionBid b t).2
  | does_penalties nows news circleID round t cid c ps :
      uuid_Parse circleID = Some cid -> visible_circle t cid = Some c ->
      charges nows news cid round c t ps ->
      (p_UserID <$> ps) = late_members t cid round ->
      call_step (CallProcessMissed nows news circleID round) t (set_penalties (app (rev ps)) t).

(** What a call that fails or panics may leave: nothing written and nothing
    sent, but for a batch of penalties, which keeps the ones of the members
    before the failing statement. *)
Inductive call_failure : call -> tables -> list event -> tables -> list event -> Prop :=
  | fails_unchanged k t ev : call_failure k t ev t ev
  | fails_batch nows news circleID round t ev cid c ps :
      uuid_Parse circleID = Some cid -> visible_circle t cid = Some c ->
      charges nows news cid round c t ps ->
      call_failure (CallProcessMissed nows news circleID round) t ev
        (set_penalties (app (rev ps)) t) (ev ++ sent_penalties s circleID ps).

Definition call_result (k : call) (t : tables) (ev : list event) (r : result unit)
    (t' : tables) (ev' : list event) : Prop :=
  if is_ok r then call_step k t t' /\ rtc circle_step t t' else call_failure k t ev t' ev'.

Lemma forget_wp {A} (m : M (St W) A) st (Q : result unit -> St W -> Prop) :
  wp m st (λ r st', Q (match r with Ok _ => Ok tt | Err e => Err e | Panic => Panic end) st') ->
  wp (forget m) st Q.
Proof. intros Hm. apply wp_bind. eapply wp_mono; [exact Hm|]. by intros []. Qed.

(** From the rule of a method to the refinement: only the successful outcome
    has something to show. *)
Lemma outcome_call {A} k pan post t ev (r : result A) (st : St W) :
  outcome tables_of pan post t ev r st ->
  (forall a t' sent, post t a t' sent -> call_step k t t' /\ rtc circle_step t t') ->
  call_result k t ev (match r with Ok _ => Ok tt | Err e => Err e | Panic => Panic end)
    (tables_of st.1) st.2.
Proof.
  unfold call_result. intros Ho Hpost. destruct r as [a|e|]; cbn in *.
  - destruct Ho as (sent & _ & Hp). eauto.
  - destruct Ho as [-> ->]. constructor.
  - destruct Ho as (_ & -> & ->). constructor.
Qed.

Lemma open_of_guard c :
  ~ (c_Status c <> CircleStatusPending /\ c_Status c <> CircleStatusActive) -> open_circle c.
Proof.
  unfold open_circle. destruct (decide (c_Status c = CircleStatusPending));
    destruct (decide (c_Status c = CircleStatusActive)); tauto.
Qed.

Lemma open_of_guard' c :
  ~ (c_Status c <> CircleStatusActive /\ c_Status c <> CircleStatusPending) -> open_circle c.
Proof. intros Hc. apply open_of_guard. tauto. Qed.

Lemma call_unit k t ev (r : result unit) t' ev' :
  call_result k t ev (match r with Ok _ => Ok tt | Err e => Err e | Panic => Panic end) t' ev' ->
  call_result k t ev r t' ev'.
Proof. by destruct r. Qed.

Lemma round_of_max c : round_of c = Z.max 1 (c_CurrentRound c).
Proof. unfold round_of. destruct (Z.ltb_spec (c_CurrentRound c) 1); lia. Qed.

(** The rows the methods write have the fields of the abstract ones. *)
Lemma buildCircle_new now new orgID input :
  new_circle now new orgID input (inserted_row (buildCircle now new orgID input)).
Proof. by split. Qed.

Lemma apply_update_updated now input c : updated_circle now input c (apply_update input now c).
Proof. split; cbn; split_and?; unfold or_keep; by try case_match. Qed.

Lemma with_status_moved status round now c :
  moved_circle status round now c (with_status status round now c).
Proof. by split. Qed.

Lemma penalties_charges nows news cid round c t n :
  let ps := penalties_of nows news c cid round (contributors t cid round) 0
              (circle_members t cid) in
  charges nows news cid round c t (take n ps) /\
  ((length ps <= n)%nat -> (p_UserID <$> take n ps) = late_members t cid round).
Proof.
  intros ps.
  assert ((p_UserID <$> ps) = late_members t cid round) as Hps.
  { unfold ps, penalties_of, late_members. rewrite fmap_imap. unfold compose. cbn.
    rewrite (imap_const (λ m, m_UserID m)). f_equal. apply list_filter_iff. intros m.
    unfold missed. rewrite Is_true_true, andb_true_iff, negb_true_iff.
    by rewrite bool_decide_eq_true, bool_decide_eq_false. }
  split; [|intros Hn; by rewrite take_ge].
  split; [exists (p_UserID <$> drop n ps); by rewrite <-Hps, <-fmap_app, take_drop|].
  intros i p Hp. rewrite lookup_take_Some in Hp. destruct Hp as [Hp _].
  unfold ps, penalties_of in Hp. rewrite list_lookup_imap in Hp.
  destruct (filter _ _ !! i); [|done]. by injection Hp as <-.
Qed.

Create HintDb calls.
#[local] Hint Resolve buildCircle_new apply_update_updated with_status_moved open_of_guard
  open_of_guard' : calls.
#[local] Hint Constructors call_step : calls.
#[local] Hint Unfold owned_by is_active : calls.

(** The rule of the method, and the two relations of a successful call. *)
Ltac call_case rule :=
  eapply wp_mono; [eapply rule; eauto with typeclass_instances|]; intros ?? Ho;
  first [eapply outcome_call; [exact Ho|] | apply call_unit; eapply outcome_call; [exact Ho|]];
  intros; cbn beta in *; go_ex; subst; cbv zeta in *;
  split; [try (econstructor; eauto 6 with calls; fail)|].

Lemma start_refines now new id userID w ev :
  wp (Start s now new id userID) (w, ev) (λ r st,
    call_result (CallStart now new id userID) (tables_of w) ev r (tables_of st.1) st.2).
Proof.
  call_case Start_wp.
  match goal with E : _ \/ _ |- _ => destruct E as [->|(cfg & _ & _ & _ & _ & ->)] end.
  - apply rtc_once. by eapply step_start.
  - eapply rtc_l; [by eapply step_start|]. apply rtc_once, step_config.
Qed.

Lemma vote_refines now new circleID userID recipient w ev :
  wp (forget (CastVote s now new circleID userID recipient)) (w, ev) (λ r st,
    call_result (CallCastVote now new circleID userID recipient) (tables_of w) ev r
      (tables_of st.1) st.2).
Proof.
  apply forget_wp. eapply wp_mono; [by apply CastVote_wp|]. intros ?? Ho.
  eapply outcome_call; [exact Ho|]. intros [[v closed] winner] ?? (c & ?). destruct_and!.
  subst. split; [|apply rtc_once; by eapply step_vote].
  eapply does_vote; eauto. by rewrite <-round_of_max.
Qed.

Lemma missed_refines nows news circleID roundNumber w ev :
  wp (ProcessMissedContributions s nows news circleID roundNumber) (w, ev) (λ r st,
    call_result (CallProcessMissed nows news circleID roundNumber) (tables_of w) ev r
      (tables_of st.1) st.2).
Proof.
  eapply wp_mono; [by apply ProcessMissedContributions_wp|].
  intros r st (_ & [(Hr & -> & ->)|(n & cID & c & Hid & Hv & -> & -> & Hn)]);
    unfold call_result; [rewrite Hr; constructor|].
  destruct (penalties_charges nows news cID roundNumber c (tables_of w) n) as [Hch Hall].
  destruct (is_ok r).
  - split; [|apply rtc_once, step_penalties]. eapply does_penalties; eauto.
  - eapply fails_batch; eauto.
Qed.

Lemma call_refines k w ev r w' ev' :
  svc_tx s = true ->
  run_call k (w, ev) = (r, (w', ev')) -> call_result k (tables_of w) ev r (tables_of w') ev'.
Proof.
  intros Htx Hrun.
  enough (wp (run_call k) (w, ev) (λ r st,
      call_result k (tables_of w) ev r (tables_of st.1) st.2))
    as Hwp by exact (wp_run _ _ _ _ _ Hwp Hrun).
  clear Hrun. destruct k; cbn [run_call];
    [apply forget_wp|apply forget_wp|apply start_refines|..|apply vote_refines|
     apply forget_wp|apply missed_refines].
  - call_case CreateCircle_wp. apply rtc_once.
    by apply (step_create _ (buildCircle now new _ input)).
  - call_case UpdateCircle_wp. apply rtc_once. eapply step_update; eauto using open_of_guard.
  - call_case Cancel_wp. apply rtc_once. by eapply step_cancel.
  - call_case Close_wp. apply rtc_once. by eapply step_close.
  - call_case Join_wp. apply rtc_once. by eapply step_join; eauto using open_of_guard.
  - call_case Exit_wp. apply rtc_once. eapply step_leave; unfold is_active; eauto.
  - call_case RemoveMember_wp. apply rtc_once. eapply step_leave; unfold is_active; eauto.
  - apply forget_wp. call_case RaiseDispute_wp. apply rtc_once.
    eapply step_dispute; eauto using open_of_guard'.
  - call_case SubmitAuctionBid_wp; [|by apply rtc_once; eapply step_bid].
    eapply does_bid; eauto. by rewrite <-round_of_max.
Qed.

(** C1: a call that succeeds does to the tables what its own abstract step says
    (made for the right user, on a circle in the right state, writing the rows
    its arguments name) and moves along the steps of the state machine; a call
    that fails or panics writes nothing and sends nothing, but for a batch of
    penalties, which keeps the late penalties of the members before the failing
    statement.  The repository keeps the laws and the service runs its
    transactions. *)
Theorem run_call_refines k w ev r w' ev' :
  svc_tx s = true ->
  run_call k (w, ev) = (r, (w', ev')) -> call_result k (tables_of w) ev r (tables_of w') ev'.
Proof. apply call_refines. Qed.
End refinement.

(** ** Invariants of the abstract steps *)

Inductive status_edge : CircleStatus -> CircleStatus -> Prop :=
  | edge_start : status_edge CircleStatusPending CircleStatusActive
  | edge_cancel : status_edge CircleStatusPending CircleStatusCancelled
  | edge_close : status_edge CircleStatusActive CircleStatusCompleted.

Definition round_ok (c : Circle) : Prop :=
  match c_Status c with
  | CircleStatusPending | CircleStatusCancelled => c_CurrentRound c = 0
  | CircleStatusActive | CircleStatusCompleted => c_CurrentRound c = 1
  | CircleStatusOther _ => False
  end.

(** Rows sit at their keys, the round agrees with the status, the organizer of
    every circle is an active member of it, every member row belongs to a
    circle, and every vote is between members in a positive round. *)
Record inv (t : tables) : Prop := {
  inv_circle_key id row : t_circles t !! id = Some row -> c_ID row = id;
  inv_member_key k m : t_members t !! k = Some m -> member_key m = k;
  inv_round id row : t_circles t !! id = Some row -> round_ok row;
  inv_organizer id row : t_circles t !! id = Some row -> is_active t id (c_OrganizerID row);
  inv_member_circle id u m : t_members t !! (id, u) = Some m -> is_Some (t_circles t !! id);
  inv_vote k v : t_votes t !! k = Some v -> vote_key v = k /\ 1 <= v_RoundNumber v /\
    is_Some (t_members t !! (v_CircleID v, v_VoterID v)) /\
    is_Some (t_members t !! (v_CircleID v, v_RecipientID v));
}.

Definition empty_tables : tables :=
  {| t_circles := ∅; t_members := ∅; t_penalties := []; t_contributions := [];
     t_payouts := []; t_disputes := []; t_votes := ∅; t_bids := ∅; t_configs := ∅ |}.

Lemma visible_inv t id c :
  visible_circle t id = Some c -> exists row, t_circles t !! id = Some row /\
    c_DeletedAt row = None /\ c = circle_view t row.
Proof.
  unfold visible_circle. intros Hv. destruct (t_circles t !! id) as [row|]; [|done].
  destruct (c_DeletedAt row) eqn:Hd; [done|]. simplify_eq. by exists row.
Qed.

(** How the row of one circle changes. *)
Definition row_step (row row' : Circle) : Prop :=
  c_ID row' = c_ID row /\ c_OrganizerID row' = c_OrganizerID row /\
  c_CreatedAt row' = c_CreatedAt row /\ c_DeletedAt row' = c_DeletedAt row /\
  (open_circle row /\ c_Status row' = c_Status row /\ c_CurrentRound row' = c_CurrentRound row \/
   status_edge (c_Status row) (c_Status row') /\
     c_CurrentRound row' = (if decide (c_Status row = CircleStatusPending /\
                                       c_Status row' = CircleStatusActive)
                            then 1 else c_CurrentRound row)).

(** Writing back a circle that was read changes the row it was read from. *)
Lemma write_back t cid c c' :
  inv t -> visible_circle t cid = Some c -> c_ID c' = c_ID c ->
  exists row, t_circles t !! cid = Some row /\ c = circle_view t row /\
    write_circle c' t = set_circles <[cid := update_row c' row]> t.
Proof.
  intros Hinv (row & Hrow & Hd & ->)%visible_inv Hid. exists row. split_and!; [done..|].
  unfold write_circle, set_circles. f_equal. rewrite Hid. cbn.
  rewrite (inv_circle_key _ Hinv _ _ Hrow). apply map_eq. intros k.
  destruct (decide (k = cid)) as [->|].
  - by rewrite lookup_alter_eq, lookup_insert_eq, Hrow.
  - by rewrite lookup_alter_ne, lookup_insert_ne by done.
Qed.

(** What a step does to the rows of [circles]: nothing, a new pending circle, or
    one row step. *)
Ltac written c' :=
  right; right;
  match goal with Hinv : inv _, Hv : visible_circle _ _ = Some _ |- _ =>
    let row := fresh "row" in
    destruct (write_back _ _ _ c' Hinv Hv eq_refl) as (row & ? & -> & ->);
    eexists _, row, _; split_and!; [eassumption| |reflexivity..]; cbn in *;
    unfold row_step; cbn; split_and!; [reflexivity..|]
  end.

Lemma step_rows t t' :
  inv t -> circle_step t t' ->
  t_circles t' = t_circles t \/
  (exists id c, t_circles t !! id = None /\ c_ID c = id /\ c_Status c = CircleStatusPending /\
     c_CurrentRound c = 0 /\ t_circles t' = <[id := c]> (t_circles t) /\
     exists m, member_key m = (id, c_OrganizerID c) /\ m_Status m = MemberStatusActive /\
       t_members t' = <[member_key m := m]> (t_members t) /\
       t_members t !! member_key m = None) \/
  (exists id row row', t_circles t !! id = Some row /\ row_step row row' /\
     t_circles t' = <[id := row']> (t_circles t) /\ t_members t' = t_members t).
Proof.
  intros Hinv Hstep. destruct Hstep; try (by left).
  - right. left. exists (c_ID c), (inserted_row c).
    unfold circle_conflict in *. go_bool. split_and!; try done.
    + by apply eq_None_not_Some.
    + exists (member_row (c_ID c) (c_OrganizerID c) 1 now). by split_and!.
  - written (apply_update input now c). left. by split_and!.
  - written (with_status CircleStatusActive 1 now c). right. rewrite H0.
    split; [constructor|]. by rewrite decide_True.
  - written (with_status CircleStatusCancelled (c_CurrentRound c) now c). right. rewrite H0.
    split; [constructor|]. by rewrite decide_False by (intros [? ?]; discriminate).
  - written (with_status CircleStatusCompleted (c_CurrentRound c) now c). right. rewrite H0.
    split; [constructor|]. by rewrite decide_False by (intros [? ?]; discriminate).
Qed.

(** What a step does to the rows of [circle_members]. *)
Lemma step_members t t' :
  circle_step t t' ->
  t_members t' = t_members t \/
  (exists m, t_members t !! member_key m = None /\ m_Status m = MemberStatusActive /\
     is_Some (t_circles t' !! m_CircleID m) /\
     t_members t' = <[member_key m := m]> (t_members t)) \/
  (exists cid uid st c, t_members t' = alter (set_member_status st) (cid, uid) (t_members t) /\
     visible_circle t cid = Some c /\ c_OrganizerID c <> uid /\ t_circles t' = t_circles t).
Proof.
  intros Hstep. destruct Hstep; try (by left).
  - right. left. exists (member_row (c_ID c) (c_OrganizerID c) 1 now). split_and!; try done.
    cbn. rewrite lookup_insert_eq. by eexists.
  - right. left. exists (member_row cid uid (wrap64 (active_count t cid + 1)) now).
    apply visible_inv in H as (row & Hrow & _). split_and!; by try eexists.
  - right. right. by exists cid, uid, status, c.
Qed.

Lemma step_is_active t t' id u row :
  inv t -> circle_step t t' -> t_circles t !! id = Some row -> u = c_OrganizerID row ->
  is_active t id u -> is_active t' id u.
Proof.
  intros Hinv Hstep Hrow -> (m & Hm & Ha). unfold is_active.
  destruct (step_members _ _ Hstep)
    as [->|[(m' & Hn & _ & _ & ->)|(cid & uid & st & c & -> & Hv & Hne & _)]]; [by eauto|..].
  - exists m. split; [|done]. rewrite lookup_insert_ne; [done|]. intros Heq. congruence.
  - exists m. split; [|done]. rewrite lookup_alter_ne; [done|]. intros [= -> ->].
    by apply visible_inv in Hv as (row' & Hrow' & _ & ->); simplify_eq.
Qed.

Lemma step_member_some t t' k :
  circle_step t t' -> is_Some (t_members t !! k) -> is_Some (t_members t' !! k).
Proof.
  intros Hstep Hk.
  destruct (step_members _ _ Hstep)
    as [->|[(m' & _ & _ & _ & ->)|(cid & uid & st & c & -> & _)]]; [done| |].
  - rewrite lookup_insert. by case_decide.
  - rewrite lookup_alter. case_decide; [|done]. subst. by rewrite fmap_is_Some.
Qed.

Lemma step_circle_some t t' id :
  inv t -> circle_step t t' -> is_Some (t_circles t !! id) -> is_Some (t_circles t' !! id).
Proof.
  intros Hinv Hstep Hk.
  destruct (step_rows _ _ Hinv Hstep)
    as [->|[(? & ? & _ & _ & _ & _ & -> & _)|(? & ? & ? & _ & _ & -> & _)]]; [done|..];
    rewrite lookup_insert; by case_decide.
Qed.

(** No call links a circle to a contract. *)
Definition unlinked (t : tables) : Prop :=
  map_Forall (λ _ c, c_ContractID c = None) (t_circles t).

Lemma write_circle_unlinked c t : unlinked t -> unlinked (write_circle c t).
Proof.
  intros Hu id row. unfold write_circle, set_circles. cbn. rewrite lookup_alter. case_decide.
  - destruct (t_circles t !! id) as [row0|] eqn:E; [|by subst; rewrite E].
    subst. rewrite E. cbn. intros [= <-]. by apply Hu in E.
  - apply Hu.
Qed.

Lemma steps_unlinked t t' : unlinked t -> rtc circle_step t t' -> unlinked t'.
Proof.
  intros Hu Hs. induction Hs as [|t t1 t' Hstep _ IH]; [done|]. apply IH. clear IH.
  destruct Hstep; try done; try by apply write_circle_unlinked.
  apply map_Forall_insert_2; [done|exact Hu].
Qed.

Lemma row_step_round row row' : round_ok row -> row_step row row' -> round_ok row'.
Proof.
  unfold round_ok. intros Hok (_ & _ & _ & _ & [(_ & -> & ->)|[He ->]]); [done|].
  inversion He as [E1 E2|E1 E2|E1 E2]; rewrite <-?E1 in *; rewrite ?decide_True by done;
    rewrite ?decide_False by (intros [? ?]; discriminate); done.
Qed.

Lemma round_of_pos c : 1 <= round_of c.
Proof. unfold round_of. destruct (Z.ltb_spec (c_CurrentRound c) 1); lia. Qed.

Lemma step_votes t t' k v :
  circle_step t t' -> t_votes t' !! k = Some v ->
  t_votes t !! k = Some v \/
  (vote_key v = k /\ 1 <= v_RoundNumber v /\ is_active t (v_CircleID v) (v_VoterID v) /\
   is_active t (v_CircleID v) (v_RecipientID v)).
Proof.
  intros Hstep. destruct Hstep; try (by left). cbn. rewrite lookup_insert.
  case_decide; [|by left]. intros [= ->]. right. split_and!; try done.
  rewrite H4. apply round_of_pos.
Qed.

(** Every abstract step preserves the invariant. *)
Lemma step_inv t t' : inv t -> circle_step t t' -> inv t'.
Proof.
  intros Hinv Hstep. pose proof (step_rows _ _ Hinv Hstep) as Hrows.
  assert (forall id u, is_active t id u -> is_Some (t_members t' !! (id, u))) as Hact.
  { intros id u (m & Hm & _). eapply step_member_some; eauto. }
  split.
  - intros id row Hrow.
    destruct Hrows as [E|[(i & c & _ & Hi & _ & _ & E & _)|(i & r & r' & Hr & (Hid & _) & E & _)]];
      rewrite E in Hrow; [by eapply inv_circle_key| |];
      rewrite lookup_insert in Hrow; case_decide; simplify_eq; eauto using inv_circle_key.
    rewrite Hid. eauto using inv_circle_key.
  - intros k m Hm.
    destruct (step_members _ _ Hstep)
      as [E|[(m' & _ & _ & _ & E)|(cid & uid & st & c & E & _)]];
      rewrite E in Hm; [by eapply inv_member_key| |].
    + rewrite lookup_insert in Hm. case_decide; simplify_eq; eauto using inv_member_key.
    + rewrite lookup_alter in Hm. case_decide; [|by eapply inv_member_key]. subst.
      destruct (t_members t !! _) as [m0|] eqn:Hm0; simplify_eq/=.
      by rewrite <-(inv_member_key _ Hinv _ _ Hm0).
  - intros id row Hrow.
    destruct Hrows as [E|[(i & c & _ & _ & Hs & Hr & E & _)|(i & r & r' & Hr & Hrs & E & _)]];
      rewrite E in Hrow; [by eapply inv_round| |];
      rewrite lookup_insert in Hrow; case_decide; simplify_eq; eauto using inv_round.
    + unfold round_ok. by rewrite Hs.
    + eauto using row_step_round, inv_round.
  - intros id row Hrow.
    destruct Hrows as [E|[(i & c & Hn & _ & _ & _ & E & m & Hk & Ha & Em & _)
      |(i & r & r' & Hr & (_ & Ho & _) & E & _)]]; rewrite E in Hrow.
    + eapply step_is_active; eauto using inv_organizer.
    + rewrite lookup_insert in Hrow. case_decide; simplify_eq.
      * exists m. by rewrite Em, Hk, lookup_insert_eq.
      * eapply step_is_active; eauto using inv_organizer.
    + rewrite lookup_insert in Hrow. case_decide; simplify_eq.
      * rewrite Ho. eapply step_is_active; eauto using inv_organizer.
      * eapply step_is_active; eauto using inv_organizer.
  - intros id u m Hm. 
    destruct (step_members _ _ Hstep)
      as [E|[(m' & _ & _ & Hc & E)|(cid & uid & st & c & E & Hv & _ & Ec)]];
      rewrite E in Hm; [eapply step_circle_some; eauto using inv_member_circle| |].
    + rewrite lookup_insert in Hm. case_decide as Hk; simplify_eq.
      * injection Hk as Hid _. by rewrite <-Hid.
      * eapply step_circle_some; eauto using inv_member_circle.
    + rewrite Ec. rewrite lookup_alter in Hm. case_decide as Hk; [|by eapply inv_member_circle].
      simplify_eq. apply visible_inv in Hv as (row & -> & _). by eexists.
  - intros k v Hv. destruct (step_votes _ _ _ _ Hstep Hv) as [Hold|(? & ? & ? & ?)].
    + destruct (inv_vote _ Hinv _ _ Hold) as (? & ? & ? & ?).
      split_and!; try done; by eapply step_member_some.
    + split_and!; auto.
Qed.

Lemma steps_inv t t' : inv t -> rtc circle_step t t' -> inv t'.
Proof. intros Hinv Hs. induction Hs; eauto using step_inv. Qed.

Lemma inv_empty : inv empty_tables.
Proof. split; cbn; intros; by rewrite ?lookup_empty in *. Qed.

(** A row of a finished circle no longer changes; an open one moves along the
    edges of the status machine and keeps its owner. *)
Lemma step_row_status t t' id row :
  inv t -> circle_step t t' -> t_circles t !! id = Some row ->
  exists row', t_circles t' !! id = Some row' /\ (row' = row \/ row_step row row').
Proof.
  intros Hinv Hstep Hrow.
  destruct (step_rows _ _ Hinv Hstep)
    as [->|[(i & c & Hn & _ & _ & _ & -> & _)|(i & r & r' & Hr & Hrs & -> & _)]]; [by eauto|..];
    rewrite lookup_insert; case_decide; simplify_eq; eauto.
Qed.

Definition finished (c : Circle) : Prop :=
  c_Status c = CircleStatusCompleted \/ c_Status c = CircleStatusCancelled.

Lemma row_step_not_finished row row' : row_step row row' -> ~ finished row.
Proof.
  intros (_ & _ & _ & _ & [[[Ho|Ho] _]|[He _]]) [Hf|Hf]; try congruence;
    rewrite Hf in He; inversion He.
Qed.

Lemma steps_row t t' id row :
  inv t -> rtc circle_step t t' -> t_circles t !! id = Some row ->
  exists row', t_circles t' !! id = Some row' /\
    c_OrganizerID row' = c_OrganizerID row /\
    rtc status_edge (c_Status row) (c_Status row') /\ (finished row -> row' = row).
Proof.
  intros Hinv Hs. revert row. induction Hs as [t|t1 t2 t3 Hst _ IH]; intros row Hrow.
  { exists row. split_and!; [done..|apply rtc_refl|done]. }
  destruct (step_row_status _ _ _ _ Hinv Hst Hrow) as (row2 & Hrow2 & Hor).
  destruct (IH (step_inv _ _ Hinv Hst) _ Hrow2) as (row3 & H3 & Ho & Hst3 & Hf).
  exists row3. split; [done|]. destruct Hor as [->|Hrs]; [done|].
  pose proof (row_step_not_finished _ _ Hrs). destruct Hrs as (_ & Ho2 & _ & _ & Hch).
  split_and!; [congruence| |tauto].
  destruct Hch as [(_ & <- & _)|[He _]]; [done|]. by eapply rtc_l.
Qed.

(** ** Counting members and votes *)
Lemma active_count_fresh t m :
  t_members t !! member_key m = None -> m_Status m = MemberStatusActive ->
  active_count (set_members <[member_key m := m]> t) (m_CircleID m) =
  active_count t (m_CircleID m) + 1.
Proof.
  intros Hn Ha. unfold active_count, members_list, set_members. cbn [t_members].
  rewrite (map_to_list_insert _ _ _ Hn), fmap_cons, filter_cons_True; [rewrite length_cons; lia|].
  cbn [snd]. unfold active_member. rewrite N.eqb_refl, Ha. by rewrite bool_decide_true.
Qed.

Section tally.
Context `{UUIDLaws}.

Definition votes_for (u : uuid) (votes : list CircleVote) : Z :=
  Z.of_nat (length (filter (λ v, v_RecipientID v = u) votes)).

Lemma uuid_String_inj u v : uuid_String u = uuid_String v -> u = v.
Proof.
  intros E. apply (f_equal uuid_Parse) in E. rewrite !uuid_Parse_String in E. congruence.
Qed.

Lemma tally_fold votes (m : gmap string Z) k :
  fold_left (λ m v, <[uuid_String (v_RecipientID v) :=
    wrap64 (default 0 (m !! uuid_String (v_RecipientID v)) + 1)]> m) votes m !! k =
  let n := Z.of_nat (length (filter (λ v, uuid_String (v_RecipientID v) = k) votes)) in
  if decide (n = 0) then m !! k
  else Some (wrap64 (default 0 (m !! k) + n)).
Proof.
  revert m. induction votes as [|v votes IH]; intros m; cbn [fold_left]; cbv zeta; [done|].
  rewrite IH. clear IH. cbv zeta. rewrite filter_cons.
  destruct (decide (uuid_String (v_RecipientID v) = k)) as [->|Hne].
  - rewrite lookup_insert_eq. cbn [length default from_option].
    set (n := length _). rewrite (decide_False (P := Z.of_nat (S n) = 0)) by lia.
    case_decide as Hz; cbn [default]; unfold id; rewrite ?wrap64_add_l; f_equal; f_equal; lia.
  - rewrite lookup_insert_ne by done. done.
Qed.

Lemma tally_lookup votes u n :
  Z.of_nat (length votes) <= int64_max ->
  tally votes !! uuid_String u = Some n <-> n = votes_for u votes /\ 0 < n.
Proof.
  intros Hlen. unfold tally. rewrite tally_fold. cbn -[wrap64].
  replace (filter (λ v, uuid_String (v_RecipientID v) = uuid_String u) votes)
    with (filter (λ v, v_RecipientID v = u) votes).
  2: { apply list_filter_iff. intros v. split; [by intros ->|apply uuid_String_inj]. }
  fold (votes_for u votes). pose proof (length_filter (λ v, v_RecipientID v = u) votes) as Hle.
  unfold votes_for in *. rewrite lookup_empty. cbn -[wrap64].
  rewrite wrap64_id by (rewrite in_int64_spec; unfold int64_min, int64_max in *; lia).
  case_decide; split; [done|lia|intros [= <-]; lia|by intros [-> _]].
Qed.

Lemma tally_keys votes k n : tally votes !! k = Some n -> exists u, k = uuid_String u.
Proof.
  unfold tally. rewrite tally_fold. cbn -[wrap64]. rewrite lookup_empty.
  case_decide as Hz; [done|]. intros _.
  destruct (filter _ votes) as [|v l] eqn:E; [done|].
  assert (v ∈ v :: l) as Hv by left. rewrite <-E, list_elem_of_filter in Hv.
  exists (v_RecipientID v). symmetry. apply Hv.
Qed.

(** Whatever order [range] visits the tally in, a recipient strictly ahead wins. *)
Lemma tally_winner votes leader order :
  Z.of_nat (length votes) <= int64_max -> (forall l, order l ≡ₚ l) ->
  (forall u, u <> leader -> votes_for u votes < votes_for leader votes) ->
  VoteTally (order (map_to_list (tally votes))) = uuid_String leader.
Proof.
  intros Hlen Hperm Hlead.
  assert (0 < votes_for leader votes) as Hpos.
  { destruct (decide (leader = 0%N)) as [->|].
    - specialize (Hlead 1%N ltac:(done)). unfold votes_for in *. lia.
    - specialize (Hlead 0%N ltac:(done)). unfold votes_for in *. lia. }
  apply (VoteTally_unique _ _ (votes_for leader votes)); [| done | |].
  - rewrite Hperm. apply elem_of_map_to_list. by apply tally_lookup.
  - intros k c. rewrite Hperm. intros Hin%elem_of_map_to_list Hne.
    destruct (tally_keys _ _ _ Hin) as [u ->]. apply tally_lookup in Hin as [-> _]; [|done].
    apply Hlead. congruence.
  - intros c. rewrite Hperm. intros Hin%elem_of_map_to_list.
    by apply tally_lookup in Hin as [-> _].
Qed.
End tally.

(** ** Sequences of calls *)
Section sequences.
Context {W : Type} `{Repository W, Transactor W, TextMatch, UUIDLib, GoFloatConv}.
Context (tables_of : W -> tables) `{!RepositoryLaws W tables_of}.
Context (s : circleService W) `{!CollaboratorLaws tables_of s}.

Fixpoint run_calls (ks : list call) (st : St W) : St W :=
  match ks with
  | [] => st
  | k :: ks => run_calls ks (run_call s k st).2
  end.

Lemma run_call_steps k w ev r w' ev' :
  svc_tx s = true -> run_call s k (w, ev) = (r, (w', ev')) ->
  rtc circle_step (tables_of w) (tables_of w').
Proof.
  intros Htx Hrun. pose proof (call_refines tables_of s _ _ _ _ _ _ Htx Hrun) as Hc.
  unfold call_result in Hc. destruct (is_ok r); [apply Hc|].
  destruct Hc; [apply rtc_refl|apply rtc_once, step_penalties].
Qed.

Lemma run_calls_steps ks w ev :
  svc_tx s = true -> rtc circle_step (tables_of w) (tables_of (run_calls ks (w, ev)).1).
Proof.
  intros Htx. revert w ev. induction ks as [|k ks IH]; intros w ev; cbn; [apply rtc_refl|].
  destruct (run_call s k (w, ev)) as [r [w1 ev1]] eqn:E. cbn.
  etrans; [by eapply run_call_steps|apply IH].
Qed.

(** C3: after any sequence of calls, successful or not, over a repository that
    may fail at any statement, the tables are well formed: rows sit at their
    keys, the round agrees with the status, the organizer of every circle is an
    active member of it, and every vote is between members. *)
Theorem calls_invariant ks w ev :
  svc_tx s = true -> inv (tables_of w) -> inv (tables_of (run_calls ks (w, ev)).1).
Proof. intros. eapply steps_inv; [done|by apply run_calls_steps]. Qed.

(** C2: no sequence of calls takes a circle outside its status machine (pending
    to active to completed, or pending to cancelled), changes its organizer, or
    writes the row of a completed or cancelled circle again. *)
Theorem calls_status_machine ks w ev id row :
  svc_tx s = true -> inv (tables_of w) -> t_circles (tables_of w) !! id = Some row ->
  exists row', t_circles (tables_of (run_calls ks (w, ev)).1) !! id = Some row' /\
    c_OrganizerID row' = c_OrganizerID row /\
    rtc status_edge (c_Status row) (c_Status row') /\ (finished row -> row' = row).
Proof. intros. eapply steps_row; [done|by apply run_calls_steps|done]. Qed.

(** The user a call is made for. *)
Definition caller (k : call) : string :=
  match k with
  | CallCreate _ _ u _ | CallUpdate _ _ u _ | CallStart _ _ _ u | CallCancel _ _ u
  | CallClose _ _ u | CallJoin _ _ u _ | CallExit _ u | CallRemoveMember _ u _ _
  | CallRaiseDispute _ _ _ _ u _ | CallCastVote _ _ _ u _ | CallSubmitAuctionBid _ _ _ u _ => u
  | CallProcessMissed _ _ _ _ => ""
  end.

(** The circles a call changed were changed for their organizer. *)
Definition by_organizer (user : string) (t t' : tables) : Prop :=
  forall id row row', t_circles t !! id = Some row -> t_circles t' !! id = Some row' ->
    row' <> row -> uuid_Parse user = Some (c_OrganizerID row).

Lemma by_organizer_same user t t' : t_circles t' = t_circles t -> by_organizer user t t'.
Proof. intros E id row row'. rewrite E. congruence. Qed.

Lemma by_organizer_write user t cid c c' :
  inv t -> visible_circle t cid = Some c -> c_ID c' = c_ID c ->
  uuid_Parse user = Some (c_OrganizerID c) -> by_organizer user t (write_circle c' t).
Proof.
  intros Hinv Hv Hid Hu. destruct (write_back _ _ _ _ Hinv Hv Hid) as (r & Hr & -> & ->).
  intros id row row' Hrow. cbn. rewrite lookup_insert. case_decide; [|congruence].
  subst. intros _ _. simplify_eq. done.
Qed.

Lemma outcome_inv {A} (m : M (St W) A) pan post w ev r w' ev' :
  wp m (w, ev) (outcome tables_of pan post (tables_of w) ev) ->
  m (w, ev) = (r, (w', ev')) ->
  tables_of w' = tables_of w \/ exists a sent, post (tables_of w) a (tables_of w') sent.
Proof.
  intros Hwp Hrun. apply (wp_run _ _ _ _ _ Hwp) in Hrun. destruct r; cbn in Hrun; [|tauto..].
  destruct Hrun as (sent & _ & Hp). eauto.
Qed.

Lemma forget_run {A} (m : M (St W) A) st r st' :
  forget m st = (r, st') -> exists r0, m st = (r0, st').
Proof. unfold forget, gbind, gret. destruct (m st) as [[a|e|] st1]; naive_solver. Qed.

Ltac call_inv rule :=
  match goal with Hrun : _ = (_, _) |- _ =>
    eapply outcome_inv in Hrun; [|eapply rule; eauto with typeclass_instances];
    destruct Hrun as [->|(? & ? & ?)]; [by apply by_organizer_same|];
    cbn beta in *; repeat case_match; go_ex; subst; cbv zeta in *;
    try match goal with E : tables_of _ = _ |- _ => rewrite E end
  end.

(** C4: a call changes the row of an existing circle only when the user it is
    made for is that circle's organizer. *)
Theorem only_organizer_changes_circle k w ev r w' ev' :
  svc_tx s = true -> inv (tables_of w) -> run_call s k (w, ev) = (r, (w', ev')) ->
  by_organizer (caller k) (tables_of w) (tables_of w').
Proof.
  intros Htx Hinv Hrun. destruct k; cbn [run_call caller] in *;
    try (apply forget_run in Hrun as [r0 Hrun]).
  - call_inv CreateCircle_wp. intros id row row' Hrow. cbn. rewrite lookup_insert.
    case_decide; [|congruence]. subst. unfold circle_conflict in *. go_bool. cbn in *. exfalso. eauto.
  - call_inv UpdateCircle_wp. by eapply by_organizer_write.
  - call_inv Start_wp.
    match goal with E : _ \/ _ |- _ => destruct E as [->|(cfg & _ & _ & _ & _ & ->)] end;
      by eapply by_organizer_write.
  - call_inv Cancel_wp. by eapply by_organizer_write.
  - call_inv Close_wp. by eapply by_organizer_write.
  - call_inv Join_wp. by apply by_organizer_same.
  - call_inv Exit_wp. by apply by_organizer_same.
  - call_inv RemoveMember_wp. by apply by_organizer_same.
  - call_inv RaiseDispute_wp. by apply by_organizer_same.
  - call_inv CastVote_wp. by apply by_organizer_same.
  - call_inv SubmitAuctionBid_wp. by apply by_organizer_same.
  - apply (wp_run _ _ _ _ _ (ProcessMissedContributions_wp _ _ _ _ _ _ _ _)) in Hrun.
    destruct Hrun as (_ & [(_ & E & _)|(n & cID & c & _ & _ & E & _)]); cbn in E; rewrite E;
      by apply by_organizer_same.
Qed.
End sequences.
