(* ===== verification/CircleProps.v ===== *)
(** Properties of single calls and of interleaved calls of the circle service,
    and the concrete world the witnesses run: a demonstration service over the
    PostgreSQL repository, with its tables built by calls. *)
From S2P Require Export CircleInv Demo.
From stdpp Require Import options.
#[local] Set Default Proof Using "Type*".
Open Scope Z_scope.
Local Open Scope go_scope.

(** ** A concrete world *)
#[export] Instance demo_like : TextMatch := { ilike _ _ := false }.
#[export] Instance demo_conv : GoFloatConv := amd64_conv.
Definition accepting : PgDialect := {| locking_aggregate := true |}.
#[local] Existing Instance accepting.
Definition documented : PgDialect := {| locking_aggregate := false |}.

Definition demo {W} : circleService W :=
  {| svc_userRepo := None; svc_communityChecker := None; svc_tx := true;
     svc_broadcaster := true; svc_auditRepo := true; svc_notificationSvc := true;
     json_Marshal := λ c, inl (c_Name c); sha256_hex := id; range_order := id |}.

#[export] Instance demo_collaborators {W} (tables_of : W -> tables) :
  CollaboratorLaws tables_of demo.
Proof. by split. Qed.

Definition demo_input : CreateCircleInput :=
  {| ci_Name := "savings"; ci_Description := ""; ci_CommunityID := "";
     ci_CircleType := CircleTypePublic; ci_PayoutType := PayoutTypeVote;
     ci_ContributionAmount := f64_of_Z 10; ci_Currency := CurrencyUSDC;
     ci_Frequency := FrequencyMonthly; ci_MaxMembers := 3; ci_MinMoiScore := 0;
     ci_CollateralPercent := f64_of_Z 5; ci_LateFeePercent := f64_of_Z 5;
     ci_GracePeriodHours := 24; ci_MaxStrikes := 3; ci_RequiresInvite := false |}.

Definition no_change : UpdateCircleInput :=
  {| ui_Name := None; ui_Description := None; ui_ContributionAmount := None;
     ui_Currency := None; ui_Frequency := None; ui_MaxMembers := None;
     ui_MinMoiScore := None; ui_CollateralPercent := None; ui_LateFeePercent := None;
     ui_GracePeriodHours := None; ui_MaxStrikes := None |}.

(** Circle 7, created by user 1 and joined by user 2, pending. *)
Definition pending_world : St (PgState tables) :=
  run_calls demo [CallCreate 100 7%N "x" demo_input; CallJoin 101 "xxxxxxx" "xx" ""]
    (connection empty_tables, []).

(** The same circle after its start. *)
Definition active_world : St (PgState tables) :=
  run_calls demo [CallStart 102 8%N "xxxxxxx" "x"] pending_world.

Lemma pending_world_inv : inv (pg_tables pending_world.1).
Proof.
  eapply steps_inv; [apply inv_empty|].
  apply (run_calls_steps pg_tables demo _ (connection empty_tables)). done.
Qed.

Lemma active_world_inv : inv (pg_tables active_world.1).
Proof.
  eapply steps_inv; [apply pending_world_inv|]. unfold active_world.
  destruct pending_world as [w ev]. by apply (run_calls_steps pg_tables).
Qed.

Example active_world_status :
  c_Status <$> t_circles (pg_tables active_world.1) !! 7%N = Some CircleStatusActive.
Proof. vm_compute. reflexivity. Qed.

(** ** Single calls *)
Section single.
Context {W : Type} `{Repository W, Transactor W, TextMatch, UUIDLib, GoFloatConv}.
Context (tables_of : W -> tables) `{!RepositoryLaws W tables_of}.
Context (s : circleService W) `{!CollaboratorLaws tables_of s}.

(** a successful [Join] adds exactly one active member to a pending or
    active circle, and the circle then has at most [MaxMembers] of them. *)
Theorem Join_capacity now circleID userID inviteCode w ev w' ev' :
  CircleService.Join s now circleID userID inviteCode (w, ev) = (Ok tt, (w', ev')) ->
  exists cid uid c, uuid_Parse circleID = Some cid /\ uuid_Parse userID = Some uid /\
    visible_circle (tables_of w) cid = Some c /\ open_circle c /\
    is_active (tables_of w') cid uid /\ t_members (tables_of w) !! (cid, uid) = None /\
    active_count (tables_of w') cid = active_count (tables_of w) cid + 1 /\
    active_count (tables_of w') cid <= c_MaxMembers c.
Proof.
  intros Hrun. apply (wp_run _ _ _ _ _ (Join_wp tables_of s _ _ _ _ _ _)) in Hrun.
  destruct Hrun as (sent & _ & cid & uid & c & Hc & Hu & Hv & Ho & Hlt & Hn & Ht & _).
  cbn in Ht. exists cid, uid, c.
  set (m := member_row cid uid (wrap64 (active_count (tables_of w) cid + 1)) now) in *.
  pose proof (active_count_fresh (tables_of w) m Hn eq_refl) as Hcount.
  change (m_CircleID m) with cid in Hcount. change (member_key m) with (cid, uid) in Hcount.
  rewrite <-Ht in Hcount. split_and!; [done..|by apply open_of_guard| |done|done|lia].
  exists m. by rewrite Ht; cbn; rewrite lookup_insert_eq.
Qed.

(** [Create] inside a transaction is atomic: either the pending circle and
    its organizer's membership are both there, or nothing is. *)
Theorem Create_atomic now new organizerID input w ev r w' ev' :
  svc_tx s = true ->
  CreateCircle s now new organizerID input (w, ev) = (r, (w', ev')) ->
  if is_ok r
  then exists orgID row, uuid_Parse organizerID = Some orgID /\
    t_circles (tables_of w) !! new = None /\ t_circles (tables_of w') !! new = Some row /\
    c_Status row = CircleStatusPending /\ c_OrganizerID row = orgID /\
    is_active (tables_of w') new orgID /\
    ev' = ev ++ sent_if (svc_broadcaster s) (CircleCreated (uuid_String new) organizerID)
  else tables_of w' = tables_of w /\ ev' = ev.
Proof.
  intros Htx Hrun. apply (wp_run _ _ _ _ _ (CreateCircle_wp tables_of s _ _ _ _ _ _ Htx)) in Hrun.
  destruct r as [c|e|]; cbn in Hrun |- *; [|tauto..].
  destruct Hrun as (sent & -> & org & Hp & _ & -> & Hconf & Hn & -> & ->).
  exists org, (inserted_row (buildCircle now new org input)).
  unfold circle_conflict in Hconf. go_bool. cbn in *. rewrite !lookup_insert_eq.
  split_and!; try done; [by apply eq_None_not_Some|].
  exists (member_row new org 1 now). cbn. by rewrite lookup_insert_eq.
Qed.

(** one vote per member and round: after a successful [CastVote] no further
    vote of the same member in the circle's round succeeds, for any recipient. *)
Theorem CastVote_once now new circleID userID recipient w ev res w1 ev1
    now' new' recipient' :
  CastVote s now new circleID userID recipient (w, ev) = (Ok res, (w1, ev1)) ->
  is_ok (CastVote s now' new' circleID userID recipient' (w1, ev1)).1 = false /\
  tables_of (CastVote s now' new' circleID userID recipient' (w1, ev1)).2.1 = tables_of w1.
Proof.
  intros Hfst. destruct (CastVote s now' new' circleID userID recipient' (w1, ev1))
    as [r2 [w2 ev2]] eqn:Hsnd. cbn.
  apply (wp_run _ _ _ _ _ (CastVote_wp tables_of s _ _ _ _ _ _ _)) in Hfst, Hsnd.
  destruct r2 as [[[v2 cl2] wn2]|e|]; cbn in Hsnd; [|tauto..]. exfalso.
  destruct res as [[v cl] wn]. cbn in Hfst.
  destruct Hfst as (sent & _ & c & Hc & Hu & _ & Hv & _ & _ & _ & _ & Hr & _ & Ht & _).
  destruct Hsnd as (sent2 & _ & c2 & Hc2 & Hu2 & _ & Hv2 & _ & _ & _ & _ & Hr2 & Hcf & _).
  assert (v_CircleID v2 = v_CircleID v) as Ec by congruence.
  assert (v_VoterID v2 = v_VoterID v) as Eu by congruence.
  rewrite Ht, Ec in Hv2. change (visible_circle (set_votes _ ?t)) with (visible_circle t) in Hv2.
  assert (c2 = c) as -> by congruence.
  apply orb_false_iff in Hcf as [Hcf _]. apply bool_decide_eq_false in Hcf. apply Hcf.
  rewrite Ht. cbn.
  replace (vote_key v2) with (vote_key v) by (unfold vote_key; congruence).
  rewrite lookup_insert_eq. by eexists.
Qed.

(** when [CastVote] closes the round and one member is strictly ahead among
    the votes of the round, the winner it returns is that member, whatever the
    order in which Go visits the tally. *)
Theorem CastVote_winner `{!UUIDLaws} now new circleID userID recipient w ev v winner w' ev'
    leader :
  CastVote s now new circleID userID recipient (w, ev) = (Ok (v, true, winner), (w', ev')) ->
  (forall l, range_order s l ≡ₚ l) ->
  let votes := round_votes (tables_of w') (v_CircleID v) (v_RoundNumber v) in
  Z.of_nat (length votes) <= int64_max ->
  (forall u, u <> leader -> votes_for u votes < votes_for leader votes) ->
  winner = uuid_String leader.
Proof.
  intros Hrun Hperm votes Hlen Hlead.
  apply (wp_run _ _ _ _ _ (CastVote_wp tables_of s _ _ _ _ _ _ _)) in Hrun. cbn in Hrun.
  destruct Hrun as (sent & _ & c & _ & _ & _ & _ & _ & _ & _ & _ & Hr & _ & _ & _ & Hw).
  destruct (Hw eq_refl) as [-> _]. rewrite <-Hr. by apply tally_winner.
Qed.

(** [ProcessMissedContributions] that succeeds records exactly one late
    penalty for every active member without a contribution in the round, none
    for anybody else, and announces each to the broadcaster. *)
Theorem ProcessMissed_penalizes nows news circleID roundNumber w ev w' ev' :
  ProcessMissedContributions s nows news circleID roundNumber (w, ev) = (Ok tt, (w', ev')) ->
  exists cID c ps, uuid_Parse circleID = Some cID /\
    visible_circle (tables_of w) cID = Some c /\
    tables_of w' = set_penalties (app (rev ps)) (tables_of w) /\
    (p_UserID <$> ps) = m_UserID <$> filter (λ m,
       m_Status m = MemberStatusActive /\
       m_UserID m ∉ contributors (tables_of w) cID roundNumber)
       (circle_members (tables_of w) cID) /\
    (forall p, p ∈ ps -> p_CircleID p = cID /\ p_RoundNumber p = roundNumber /\
       p_PenaltyType p = PenaltyTypeLate /\ p_StrikesApplied p = 1 /\
       p_Amount p = CalculateLateFee (c_ContributionAmount c) (c_LateFeePercent c)) /\
    ev' = ev ++ sent_penalties s circleID ps.
Proof.
  intros Hrun.
  apply (wp_run _ _ _ _ _ (ProcessMissedContributions_wp tables_of s _ _ _ _ _ _)) in Hrun.
  destruct Hrun as (_ & [(Hf & _)|(n & cID & c & Hp & Hv & Ht & Hev & Hn)]); [done|].
  specialize (Hn eq_refl). cbn in Ht, Hev. rewrite !take_ge in Ht, Hev by done.
  exists cID, c. eexists. split_and!; [done|done|exact Ht| | |exact Hev].
  - unfold penalties_of. rewrite fmap_imap. unfold compose. cbn.
    rewrite (imap_const (λ m, m_UserID m)). f_equal. apply list_filter_iff. intros m.
    unfold missed. rewrite Is_true_true, andb_true_iff, negb_true_iff.
    by rewrite bool_decide_eq_true, bool_decide_eq_false.
  - intros p Hin. unfold penalties_of in Hin. apply elem_of_lookup_imap in Hin as (i & m & -> & _).
    by split_and!.
Qed.
End single.

(** ** Interleavings *)
Section interleaving.
Context {W : Type} `{Repository W, Transactor W, TextMatch, UUIDLib, GoFloatConv}.
Context (tables_of : W -> tables) `{!RepositoryLaws W tables_of}.
Context (s : circleService W) `{!CollaboratorLaws tables_of s}.

Lemma Update_load_wp id userID w ev :
  wp (Update_load id userID) (w, ev)
    (outcome tables_of False (λ t c t' _, exists cid, uuid_Parse id = Some cid /\
       visible_circle t cid = Some c /\ t' = t) (tables_of w) ev).
Proof. unfold Update_load. svc_run. svc_ok. Qed.

Lemma Update_store_wp now input c w ev :
  wp (Update_store now input c) (w, ev)
    (outcome tables_of False (λ t c' t' _,
       t' = write_circle (apply_update input now c) t) (tables_of w) ev).
Proof. unfold Update_store. svc_run. svc_ok. Qed.

(** [Update] writes every column of the circle it read.  When [Start] runs
    between the read and the write, both calls succeed and the circle is pending
    again in round zero: the start is lost. *)
Theorem Update_overwrites_Start id userID starter now new now' input w ev c w1 ev1 w2 ev2 c' w3 ev3 :
  inv (tables_of w) ->
  Update_load id userID (w, ev) = (Ok c, (w1, ev1)) ->
  Start s now new id starter (w1, ev1) = (Ok tt, (w2, ev2)) ->
  Update_store now' input c (w2, ev2) = (Ok c', (w3, ev3)) ->
  exists cid row2 row3, uuid_Parse id = Some cid /\
    t_circles (tables_of w2) !! cid = Some row2 /\
    c_Status row2 = CircleStatusActive /\ c_CurrentRound row2 = 1 /\
    t_circles (tables_of w3) !! cid = Some row3 /\
    c_Status row3 = CircleStatusPending /\ c_CurrentRound row3 = 0.
Proof.
  intros Hinv Hl Hs Hst.
  apply (wp_run _ _ _ _ _ (Update_load_wp _ _ _ _)) in Hl.
  apply (wp_run _ _ _ _ _ (Start_wp tables_of s _ _ _ _ _ _)) in Hs.
  apply (wp_run _ _ _ _ _ (Update_store_wp _ _ _ _ _)) in Hst. cbn in Hl, Hs, Hst.
  destruct Hl as (_ & _ & cid & Hid & Hv & Ht1).
  destruct Hs as (_ & _ & cid2 & uid & c2 & Hid2 & _ & Hv2 & _ & Hpend & _ & _ & Ht2).
  destruct Hst as (_ & _ & Ht3). rewrite Ht1 in *.
  assert (cid2 = cid) as -> by congruence. assert (c2 = c) as -> by congruence. clear Hv2.
  destruct (write_back _ _ _ (with_status CircleStatusActive 1 now c) Hinv Hv eq_refl)
    as (row & Hrow & -> & Hw).
  assert (t_circles (tables_of w2) = <[cid := update_row (with_status CircleStatusActive 1 now
     (circle_view (tables_of w) row)) row]> (t_circles (tables_of w))) as E2.
  { destruct Ht2 as [->|(cfg & _ & _ & _ & _ & ->)]; by rewrite Hw. }
  eexists cid, _, _. split_and!; [done|by rewrite E2, lookup_insert_eq|done|done| | |].
  - rewrite Ht3. unfold write_circle. cbn. rewrite (inv_circle_key _ Hinv _ _ Hrow), E2.
    by rewrite lookup_alter_eq, lookup_insert_eq.
  - exact Hpend.
  - pose proof (inv_round _ Hinv _ _ Hrow) as Hround. unfold round_ok in Hround.
    cbn in Hpend. rewrite Hpend in Hround. exact Hround.
Qed.
End interleaving.

(** ** On PostgreSQL *)
Section postgres.
Context `{PgDialect, TextMatch, UUIDLib, GoFloatConv}.
Context (s : circleService (PgState tables)) `{!CollaboratorLaws pg_tables s}.

Lemma pg_GetMemberCount_fails id w (Q : result Z -> PgState tables -> Prop) :
  locking_aggregate = false -> (forall e w', Q (Err e) w') -> wp (GetMemberCount id) w Q.
Proof.
  intros Hl HQ. cbn. unfold pg_GetMemberCount. apply wp_wrap, wp_of_run. intros r w' E.
  apply pg_exec_cases in E as [(a & t & E & -> & _)|[(code & _ & -> & _)|(code & _ & -> & _)]];
    [|by cbn..].
  rewrite Hl in E. done.
Qed.

Lemma pg_remove_fails cid uid w (Q : result unit -> PgState tables -> Prop) :
  (forall e w', Q (Err e) w') -> wp (UpdateMemberStatus cid uid MemberStatusRemoved) w Q.
Proof.
  intros HQ. cbn. unfold pg_UpdateMemberStatus, or_missing. apply wp_bind, wp_wrap, wp_of_run.
  intros r w' E.
  apply pg_exec_cases in E as [(a & t & E & -> & _)|[(code & _ & -> & _)|(code & _ & -> & _)]];
    [done|by cbn..].
Qed.

Lemma withTransaction_fails {A} (fn : M (PgState tables) A) w ev (Q : result A -> St (PgState tables) -> Prop) :
  (forall w, wp fn w (λ r _, is_ok r = false)) ->
  (forall r st, is_ok r = false -> Q r st) ->
  wp (repo (withTransaction s fn)) (w, ev) Q.
Proof.
  intros Hfn HQ. apply wp_repo, wp_of_run. intros r w' E. apply HQ. unfold withTransaction in E.
  destruct (svc_tx s); [|exact (wp_run _ _ _ _ _ (Hfn w) E)].
  cbn in E. unfold pg_WithTransaction, pg_in_tx in E.
  destruct (pg_begin w) as [[u|e|] w1]; simplify_eq; [|done..].
  destruct (fn w1) as [r1 w2] eqn:E1. apply (wp_run _ _ _ _ _ (Hfn w1)) in E1.
  destruct r1; by simplify_eq.
Qed.

(** PostgreSQL rejects [FOR UPDATE] in a query with [COUNT]: with the query of
    [GetMemberCount] no [Start] and no [Join] ever succeeds. *)
Theorem pg_Start_Join_never_succeed :
  locking_aggregate = false ->
  (forall now new id userID st, is_ok (Start s now new id userID st).1 = false) /\
  (forall now circleID userID inviteCode st,
     is_ok (CircleService.Join s now circleID userID inviteCode st).1 = false).
Proof.
  intros Hl. split.
  - intros now new id userID [w ev].
    enough (wp (Start s now new id userID) (w, ev) (λ r _, is_ok r = false)) by done.
    unfold Start. repeat first [progress (apply wp_repo; apply pg_GetMemberCount_fails;
      [done|]; intros; cbn) | svc_rule]; done.
  - intros now circleID userID inviteCode [w ev].
    enough (wp (CircleService.Join s now circleID userID inviteCode) (w, ev)
      (λ r _, is_ok r = false)) by done.
    unfold CircleService.Join. repeat svc_rule; try done.
    apply (join_guards_wp pg_tables s); [|done..]. intros w2 _ _. cbn. svc_rule.
    apply withTransaction_fails; [|by intros []].
    intros w3. unfold join_body. svc_rule. svc_rule. by apply pg_GetMemberCount_fails.
Qed.

(** the status [removed] is not a value of the column's type, so no
    [RemoveMember] ever succeeds. *)
Theorem pg_RemoveMember_never_succeeds circleID callerID memberAddress reason st :
  is_ok (RemoveMember s circleID callerID memberAddress reason st).1 = false.
Proof.
  destruct st as [w ev].
  enough (wp (RemoveMember s circleID callerID memberAddress reason) (w, ev)
    (λ r _, is_ok r = false)) by done.
  unfold RemoveMember, active_member_or.
  repeat first [progress (apply wp_repo; apply pg_remove_fails; intros; cbn) | svc_rule]; done.
Qed.
End postgres.

(** ** Witnesses *)
Lemma calls_invariant_witness :
  inv (pg_tables (run_calls demo [CallExit "xxxxxxx" "xx"] pending_world).1).
Proof.
  destruct pending_world as [w ev] eqn:E. apply (calls_invariant pg_tables demo).
  - reflexivity.
  - pose proof pending_world_inv as Hi. rewrite E in Hi. exact Hi.
Defined.

Lemma calls_status_machine_witness :
  exists row', t_circles (pg_tables (run_calls demo [CallClose 103 "xxxxxxx" "x"]
      active_world).1) !! 7%N = Some row' /\
    rtc status_edge CircleStatusActive (c_Status row').
Proof.
  pose proof active_world_inv as Hi. pose proof active_world_status as Hs.
  destruct active_world as [w ev]. cbn in Hi, Hs.
  destruct (t_circles (pg_tables w) !! 7%N) as [row|] eqn:Hrow; [|discriminate Hs].
  destruct (calls_status_machine pg_tables demo [CallClose 103 "xxxxxxx" "x"] w ev 7%N row
    eq_refl Hi Hrow) as (row' & Hr & _ & He & _).
  exists row'. split; [exact Hr|]. injection Hs as Hs. rewrite Hs in He. exact He.
Defined.

(** Runs of the demonstration service, by evaluation. *)
Definition demo_start : call := CallStart 102 8%N "xxxxxxx" "x".

Lemma demo_started :
  run_call demo demo_start (pending_world.1, pending_world.2)
  = (Ok tt, (active_world.1, active_world.2)).
Proof. vm_compute. reflexivity. Qed.

Lemma run_call_refines_witness :
  call_step (W := PgState tables) demo demo_start (pg_tables pending_world.1) (pg_tables active_world.1) /\
  rtc circle_step (pg_tables pending_world.1) (pg_tables active_world.1).
Proof. exact (run_call_refines pg_tables demo _ _ _ _ _ _ eq_refl demo_started). Defined.

Lemma only_organizer_changes_circle_witness :
  by_organizer "x" (pg_tables pending_world.1) (pg_tables active_world.1).
Proof.
  exact (only_organizer_changes_circle pg_tables demo _ _ _ _ _ _ eq_refl pending_world_inv
    demo_started).
Defined.

Definition joined_world : St (PgState tables) := (CircleService.Join demo 104 "xxxxxxx" "xxx" "" pending_world).2.

Lemma demo_joined :
  CircleService.Join demo 104 "xxxxxxx" "xxx" "" (pending_world.1, pending_world.2)
  = (Ok tt, (joined_world.1, joined_world.2)).
Proof. vm_compute. reflexivity. Qed.

Lemma Join_capacity_witness :
  exists c, visible_circle (pg_tables pending_world.1) 7%N = Some c /\
    active_count (pg_tables joined_world.1) 7%N <= c_MaxMembers c.
Proof.
  destruct (Join_capacity pg_tables demo _ _ _ _ _ _ _ _ demo_joined)
    as (cid & uid & c & Hc & _ & Hv & _ & _ & _ & _ & Hle).
  exists c. cbn in Hc. injection Hc as <-. split; [exact Hv | exact Hle].
Defined.

Definition created : result Circle * St (PgState tables) :=
  CreateCircle demo 100 7%N "x" demo_input (connection empty_tables, []).

Lemma demo_created :
  CreateCircle demo 100 7%N "x" demo_input (connection empty_tables, [])
  = (created.1, (created.2.1, created.2.2)).
Proof. vm_compute. reflexivity. Qed.

Lemma Create_atomic_witness :
  exists row, t_circles (pg_tables created.2.1) !! 7%N = Some row.
Proof.
  destruct (Create_atomic pg_tables demo _ _ _ _ _ _ _ _ _ eq_refl demo_created)
    as (org & row & _ & _ & Hr & _).
  exists row. exact Hr.
Defined.

(** User 1 votes for user 2, then user 2 for itself: the second vote closes the
    round of the two members. *)
Definition first_vote : result (CircleVote * bool * string) * St (PgState tables) :=
  CastVote demo 105 9%N "xxxxxxx" "x" "xx" active_world.
Definition second_vote : result (CircleVote * bool * string) * St (PgState tables) :=
  CastVote demo 106 10%N "xxxxxxx" "xx" "xx" first_vote.2.

Definition vote_row (id voter : uuid) (at_ : time) : CircleVote :=
  {| v_ID := id; v_CircleID := 7%N; v_VoterID := voter; v_RecipientID := 2%N;
     v_RoundNumber := 1; v_CreatedAt := at_ |}.

Lemma demo_first_vote :
  CastVote demo 105 9%N "xxxxxxx" "x" "xx" (active_world.1, active_world.2)
  = (Ok (vote_row 9 1 105, false, ""), (first_vote.2.1, first_vote.2.2)).
Proof. vm_compute. reflexivity. Qed.

Lemma demo_second_vote :
  CastVote demo 106 10%N "xxxxxxx" "xx" "xx" (first_vote.2.1, first_vote.2.2)
  = (Ok (vote_row 10 2 106, true, "xx"), (second_vote.2.1, second_vote.2.2)).
Proof. vm_compute. reflexivity. Qed.

Lemma CastVote_once_witness :
  is_ok (CastVote demo 107 11%N "xxxxxxx" "x" "x" (first_vote.2.1, first_vote.2.2)).1 = false.
Proof.
  exact (proj1 (CastVote_once pg_tables demo _ _ _ _ _ _ _ _ _ _ 107 11%N "x" demo_first_vote)).
Defined.

Lemma CastVote_winner_witness : "xx"%string = uuid_String 2%N.
Proof.
  apply (CastVote_winner pg_tables demo _ _ _ _ _ _ _ _ _ _ _ 2%N demo_second_vote).
  - intros l. reflexivity.
  - vm_compute. discriminate.
  - assert (round_votes (pg_tables second_vote.2.1) 7%N 1 = [vote_row 9 1 105; vote_row 10 2 106])
      as Hv by (vm_compute; reflexivity).
    cbn [v_CircleID v_RoundNumber vote_row]. rewrite Hv. intros u Hu. unfold votes_for.
    rewrite !filter_cons, !filter_nil. cbn [v_RecipientID vote_row].
    rewrite !(decide_False (P := 2%N = u)), !(decide_True (P := 2%N = 2%N)) by congruence.
    reflexivity.
Defined.

Definition penalized : result unit * St (PgState tables) :=
  ProcessMissedContributions demo (λ _, 200) (λ k, N.of_nat (20 + k)) "xxxxxxx" 1 active_world.

Lemma demo_penalized :
  ProcessMissedContributions demo (λ _, 200) (λ k, N.of_nat (20 + k)) "xxxxxxx" 1
    (active_world.1, active_world.2)
  = (Ok tt, (penalized.2.1, penalized.2.2)).
Proof. vm_compute. reflexivity. Qed.

Lemma ProcessMissed_penalizes_witness :
  exists ps, pg_tables penalized.2.1 = set_penalties (app (rev ps)) (pg_tables active_world.1).
Proof.
  destruct (ProcessMissed_penalizes pg_tables demo _ _ _ _ _ _ _ _ demo_penalized)
    as (cID & c & ps & _ & _ & Ht & _).
  exists ps. exact Ht.
Defined.

(** An update reads the pending circle, the start runs, the update writes. *)
Definition loaded : result Circle * St (PgState tables) := Update_load "xxxxxxx" "x" pending_world.
Definition loaded_circle : Circle :=
  match loaded.1 with Ok c => c | _ => buildCircle 0 0%N 0%N demo_input end.
Definition stored : result Circle * St (PgState tables) :=
  Update_store 103 no_change loaded_circle active_world.

Lemma demo_loaded :
  Update_load "xxxxxxx" "x" (pending_world.1, pending_world.2)
  = (Ok loaded_circle, (pending_world.1, pending_world.2)).
Proof. vm_compute. reflexivity. Qed.

Lemma demo_stored :
  Update_store 103 no_change loaded_circle (active_world.1, active_world.2)
  = (Ok (apply_update no_change 103 loaded_circle), (stored.2.1, stored.2.2)).
Proof. vm_compute. reflexivity. Qed.

Lemma Update_overwrites_Start_witness :
  exists cid row3, t_circles (pg_tables stored.2.1) !! cid = Some row3 /\
    c_Status row3 = CircleStatusPending.
Proof.
  destruct (Update_overwrites_Start pg_tables demo _ _ _ _ _ _ _ _ _ _ _ _ _ _ _ _ _
    pending_world_inv demo_loaded demo_started demo_stored)
    as (cid & row2 & row3 & _ & _ & _ & _ & Hr & Hs & _).
  exists cid, row3. split; [exact Hr | exact Hs].
Defined.

Lemma pg_Start_Join_never_succeed_witness :
  is_ok (Start (H := @pgRepo documented demo_like) demo 102 8%N "xxxxxxx" "x" pending_world).1
  = false.
Proof.
  exact (proj1 (pg_Start_Join_never_succeed (H := documented) demo eq_refl) _ _ _ _ _).
Defined.

Lemma pg_RemoveMember_never_succeeds_witness :
  is_ok (RemoveMember demo "xxxxxxx" "x" "xx" "late" pending_world).1 = false.
Proof. exact (pg_RemoveMember_never_succeeds demo _ _ _ _ _). Defined.
