(* ===== verification/CircleSnapshot.v ===== *)
(** The snapshot of a circle for one of its members
    (src/internal/domain/circle/repository_pg.go lines 640-876): the queries in a
    transaction, the assembly of the rounds and the balances, the access check,
    and the bulk variant. *)
From S2P Require Export CircleProps.
From stdpp Require Import options.
#[local] Set Default Proof Using "Type*".
Open Scope Z_scope.
Local Open Scope go_scope.

(** Whether [contributions] and [payouts] have the columns [created_at] and
    [updated_at].  The migrations give them neither. *)
Class SnapshotSchema := { timestamp_columns : bool }.

Record UserBalanceSnapshot := {
  ub_UserID : uuid;
  ub_TotalContributed : float64;
  ub_TotalPaidOut : float64;
  ub_NetBalance : float64;
  ub_PendingContribution : float64;
  ub_IsCurrentRoundPaid : bool;
}.

Record CircleBalanceSnapshot := {
  cb_CircleID : uuid;
  cb_TotalContributed : float64;
  cb_TotalPaidOut : float64;
  cb_VaultBalance : float64;
}.

(** The maps of fields built for JSON are the rows they are built from. *)
Record RoundSnapshot := {
  rs_RoundNumber : Z;
  rs_Status : string;
  rs_Contributions : list rawContrib;
  rs_Payout : option rawPayout;
  rs_Config : option RoundConfigSnapshot;
}.

Record CircleSnapshot := {
  cs_Circle : Circle;
  cs_Members : list CircleMember;
  cs_Rounds : list RoundSnapshot;
  cs_UserBalance : UserBalanceSnapshot;
  cs_CircleBalance : CircleBalanceSnapshot;
  cs_UserRole : string;
  cs_SnapshotAt : time;
}.

(** ** Assembly *)
Definition user_role (cir : Circle) (members : list CircleMember) (userID : uuid) : string :=
  if decide (c_OrganizerID cir = userID) then "organizer"
  else if existsb (λ m, bool_decide (m_UserID m = userID /\ m_Status m = MemberStatusActive)) members
  then "member" else "none".

Definition f64_sum (l : list float64) : float64 := foldl f64_add f64_zero l.

Definition counted (c : rawContrib) : bool := negb (bool_decide (rct_Status c = "failed"%string)).
Definition pays_round (cir : Circle) (userID : uuid) (c : rawContrib) : bool :=
  counted c && bool_decide (rct_UserID c = userID) &&
  bool_decide (rct_RoundNumber c = c_CurrentRound cir) &&
  bool_decide (rct_Status c ∈ ["confirmed"; "pending"; "late"]%string).

Definition max_round (cir : Circle) (contribs : list rawContrib) (payouts : list rawPayout) : Z :=
  foldl Z.max (foldl Z.max (c_CurrentRound cir) (rct_RoundNumber <$> contribs))
    (rp_RoundNumber <$> payouts).

Definition round_status (cir : Circle) (r : Z) : string :=
  if (r <? c_CurrentRound cir) || bool_decide (c_Status cir = CircleStatusCompleted)
  then "completed"
  else if (r =? c_CurrentRound cir) && bool_decide (c_Status cir = CircleStatusActive)
  then "active" else "pending".

(** A later payout or configuration of the same round replaces an earlier one. *)
Definition round_snapshot (cir : Circle) (contribs : list rawContrib) (payouts : list rawPayout)
    (configs : list RoundConfigSnapshot) (r : Z) : RoundSnapshot :=
  {| rs_RoundNumber := r; rs_Status := round_status cir r;
     rs_Contributions := filter (λ c, rct_RoundNumber c = r) contribs;
     rs_Payout := last (filter (λ p, rp_RoundNumber p = r) payouts);
     rs_Config := last (filter (λ c, rc_RoundNumber c = r) configs) |}.

Definition user_balance (cir : Circle) (userID : uuid) (contribs : list rawContrib)
    (payouts : list rawPayout) : UserBalanceSnapshot :=
  let contributed := f64_sum (rct_Amount <$>
    filter (λ c, counted c && bool_decide (rct_UserID c = userID)) contribs) in
  let paid := f64_sum (rp_Amount <$> filter (λ p, rp_RecipientID p = userID) payouts) in
  let current := existsb (pays_round cir userID) contribs in
  {| ub_UserID := userID; ub_TotalContributed := contributed; ub_TotalPaidOut := paid;
     ub_NetBalance := f64_sub paid contributed;
     ub_PendingContribution :=
       if bool_decide (c_Status cir = CircleStatusActive) && negb current
       then c_ContributionAmount cir else f64_zero;
     ub_IsCurrentRoundPaid := current |}.

Definition circle_balance (circleID : uuid) (contribs : list rawContrib)
    (payouts : list rawPayout) : CircleBalanceSnapshot :=
  let contributed := f64_sum (rct_Amount <$> filter (λ c, counted c) contribs) in
  let paid := f64_sum (rp_Amount <$> payouts) in
  {| cb_CircleID := circleID; cb_TotalContributed := contributed; cb_TotalPaidOut := paid;
     cb_VaultBalance := f64_sub contributed paid |}.

(** [make([]RoundSnapshot, 0, maxRound)] panics on a negative capacity. *)
Definition build_snapshot (cir : Circle) (members : list CircleMember)
    (contribs : list rawContrib) (payouts : list rawPayout) (configs : list RoundConfigSnapshot)
    (circleID userID : uuid) (now : time) : result CircleSnapshot :=
  let role := user_role cir members userID in
  if decide (role = "none"%string) then Err apperrors_ErrForbidden else
  let maxRound := max_round cir contribs payouts in
  if maxRound <? 0 then Panic else
  Ok {| cs_Circle := cir; cs_Members := members;
        cs_Rounds := round_snapshot cir contribs payouts configs <$> seqZ 1 maxRound;
        cs_UserBalance := user_balance cir userID contribs payouts;
        cs_CircleBalance := circle_balance circleID contribs payouts;
        cs_UserRole := role; cs_SnapshotAt := now |}.

(** ** Queries *)
Definition by_round_time (c d : rawContrib) : Prop :=
  rct_RoundNumber c < rct_RoundNumber d \/
  rct_RoundNumber c = rct_RoundNumber d /\ rct_CreatedAt c <= rct_CreatedAt d.
#[export] Instance by_round_time_dec c d : Decision (by_round_time c d).
Proof. unfold by_round_time. apply _. Defined.
Definition by_payout_round (p q : rawPayout) : Prop := rp_RoundNumber p <= rp_RoundNumber q.
#[export] Instance by_payout_round_dec p q : Decision (by_payout_round p q).
Proof. unfold by_payout_round. apply _. Defined.
Definition by_config_round (c d : RoundConfigSnapshot) : Prop :=
  rc_RoundNumber c <= rc_RoundNumber d.
#[export] Instance by_config_round_dec c d : Decision (by_config_round c d).
Proof. unfold by_config_round. apply _. Defined.

Section queries.
Context `{PgDialect, SnapshotSchema}.

(** A query the schema rejects when a column is missing. *)
Definition with_columns {A} (q : tables -> A) : M (PgState tables) A :=
  pg_exec (λ t, if timestamp_columns then inl (q t, t) else inr "42703"%string).

(** [if err := exec.SelectContext(...); err != nil { rows = []row{} }] *)
Definition or_empty {A} (m : M (PgState tables) (list A)) : M (PgState tables) (list A) :=
  gtry m (λ r, gret (match r with inl l => l | inr _ => [] end)).

Definition snapshot_body (circleID userID : uuid) (now : time) : M (PgState tables) CircleSnapshot :=
  let! o := pg_FindByID circleID in
  let! cir := deref o in
  let! members := gwrap "getting circle members: %w" (pg_GetMembers circleID) in
  let! contribs := or_empty (with_columns (λ t,
    merge_sort by_round_time (filter (λ c, rct_CircleID c = circleID) (t_contributions t)))) in
  let! payouts := or_empty (with_columns (λ t,
    merge_sort by_payout_round (filter (λ p, rp_CircleID p = circleID) (t_payouts t)))) in
  let! configs := or_empty (pg_select (λ t, merge_sort by_config_round
    (filter (λ c, rc_CircleID c = circleID) (map_to_list (t_configs t)).*2))) in
  glift (build_snapshot cir members contribs payouts configs circleID userID now).

(** Repeatable read, or read committed when that does not begin. *)
Definition snapshot_begin : M (PgState tables) unit :=
  gtry pg_begin (λ r,
    match r with
    | inl _ => gret tt
    | inr _ => gwrap "beginning snapshot transaction: %w" pg_begin
    end).

Definition GetCircleSnapshot (circleID userID : uuid) (now : time) :
    M (PgState tables) CircleSnapshot := λ s,
  if pg_tx s is Some _ then snapshot_body circleID userID now s else
  (let! _ := snapshot_begin in λ s1,
     match snapshot_body circleID userID now s1 with
     | (Ok snap, s2) =>
         (let! _ := gwrap "committing snapshot transaction: %w" (pg_commit (pg_tables s1)) in
          gret snap) s2
     | (r, s2) => (r, pg_leave (pg_tables s1) s2)
     end) s.

Fixpoint bulk_loop (userID : uuid) (now : time) (circleIDs : list uuid) :
    M (PgState tables) (list CircleSnapshot) :=
  match circleIDs with
  | [] => gret []
  | cid :: circleIDs =>
      gtry (GetCircleSnapshot cid userID now) (λ r,
        match r with
        | inr err => if errors_Is err apperrors_ErrNotFound then bulk_loop userID now circleIDs
                     else gfail err
        | inl snap => let! snaps := bulk_loop userID now circleIDs in gret (snap :: snaps)
        end)
  end.

(** The circles of a user when none is named: every membership, active or not,
    and the circles the user organizes. *)
Definition user_circle_ids (userID : uuid) (t : tables) : list uuid :=
  remove_dups ((m_CircleID <$> filter (λ m, m_UserID m = userID) (map_to_list (t_members t)).*2) ++
    (c_ID <$> filter (λ c, not_deleted c && (c_OrganizerID c =? userID)%N)
       (map_to_list (t_circles t)).*2)).

Definition GetBulkCircleSnapshots (userID : uuid) (circleIDs : list uuid) (now : time) :
    M (PgState tables) (list CircleSnapshot) :=
  if decide (circleIDs = []) then
    let! ids := gwrap "fetching user circle IDs: %w" (pg_select (user_circle_ids userID)) in
    bulk_loop userID now ids
  else bulk_loop userID now circleIDs.
End queries.

(** ** Facts *)
Lemma max_list_ge x (l : list Z) : x <= foldl Z.max x l /\ forall y, y ∈ l -> y <= foldl Z.max x l.
Proof.
  revert x. induction l as [|z l IH]; intros x; cbn.
  - split; [lia|]. intros y Hy. by apply elem_of_nil in Hy.
  - destruct (IH (Z.max x z)) as [H1 H2]. split; [lia|]. intros y Hy.
    apply elem_of_cons in Hy as [->|Hy]; [lia|]. by apply H2.
Qed.

Lemma contribution_round cir contribs payouts c :
  c ∈ contribs -> rct_RoundNumber c <= max_round cir contribs payouts.
Proof.
  intros Hc. unfold max_round. set (x := foldl Z.max (c_CurrentRound cir) _).
  transitivity x; [|apply (proj1 (max_list_ge _ _))].
  apply (proj2 (max_list_ge _ _)), list_elem_of_fmap. eauto.
Qed.

(** Splitting a list by the value of a key covers it once. *)
Lemma partition_by_key {A} (key : A -> Z) (l : list A) lo n :
  (forall x, x ∈ l -> key x < lo + n) -> 0 <= n ->
  mjoin ((λ r, filter (λ x, key x = r) l) <$> seqZ lo n) ≡ₚ filter (λ x, lo <= key x) l.
Proof.
  intros Hl Hn. revert lo Hl. pattern n. apply natlike_ind; [| |done]; clear n Hn.
  - intros lo Hl. cbn. induction l as [|x l IH]; [done|].
    rewrite filter_cons_False; [|specialize (Hl x ltac:(by left)); lia].
    apply IH. intros y Hy. apply Hl. by right.
  - intros n Hn IH lo Hl. rewrite seqZ_cons by lia. rewrite Z.pred_succ. cbn.
    rewrite IH by (intros x Hx; specialize (Hl x Hx); lia). clear IH Hl.
    induction l as [|x l IH]; [done|]. rewrite !filter_cons.
    repeat case_decide; try lia; cbn; rewrite <-?Permutation_middle; by rewrite IH.
Qed.

Lemma user_role_active cir members userID :
  user_role cir members userID <> "none"%string ->
  c_OrganizerID cir = userID \/
  exists m, m ∈ members /\ m_UserID m = userID /\ m_Status m = MemberStatusActive.
Proof.
  unfold user_role. case_decide; [by left|]. destruct (existsb _ _) eqn:E; [|done]. intros _.
  right. apply existsb_exists in E as (m & Hm & E). apply bool_decide_eq_true in E as [].
  exists m. split; [by apply list_elem_of_In|done].
Qed.

Section facts.
Context `{PgDialect, SnapshotSchema}.

Definition readable (t : tables) (circleID userID : uuid) (snap : CircleSnapshot) : Prop :=
  visible_circle t circleID = Some (cs_Circle snap) /\
  (c_OrganizerID (cs_Circle snap) = userID \/
   exists m, m ∈ circle_members t circleID /\ m_UserID m = userID /\
     m_Status m = MemberStatusActive).

Lemma wp_or_empty {A} (m : M (PgState tables) (list A)) s (Q : result (list A) -> _ -> Prop) :
  wp m s (λ r s', match r with
                  | Ok l => Q (Ok l) s'
                  | Err _ => Q (Ok []) s'
                  | Panic => Q Panic s'
                  end) -> wp (or_empty m) s Q.
Proof. intros Hm. apply wp_try. eapply wp_mono; [exact Hm|]. by intros [] s'. Qed.

Lemma snapshot_body_wp circleID userID now s :
  wp (snapshot_body circleID userID now) s (λ r s', pg_tables s' = pg_tables s /\
    match r with
    | Ok snap => readable (pg_tables s) circleID userID snap
    | Err err => errors_Is err apperrors_ErrNotFound = false
    | Panic => True
    end).
Proof.
  unfold snapshot_body. apply wp_bind. unfold pg_FindByID, scanCircle.
  apply wp_try, wp_pg_row; [intros cir s1 Hv Ht1|intros s1 Hv Ht1|intros code s1 Ht1].
  2: { by rewrite decide_True. }
  2: { by rewrite decide_False. }
  apply wp_ret, wp_bind, wp_ret, wp_bind. unfold pg_GetMembers.
  apply wp_wrap, wp_wrap, wp_pg_select; [intros s2 Ht2|intros code s2 Ht2; cbn; split; [congruence|done]].
  assert (forall A (q : tables -> list A) s Q,
    (forall l s', pg_tables s' = pg_tables s -> Q (Ok l) s') -> wp (or_empty (with_columns q)) s Q) as Hq.
  { intros A q s0 Q HQ. apply wp_or_empty, wp_pg_exec; [|auto]. intros l t s' E Ht.
    destruct timestamp_columns; [|done]. apply HQ. congruence. }
  apply wp_bind, Hq. intros contribs s3 Ht3. apply wp_bind, Hq. intros payouts s4 Ht4.
  apply wp_bind, wp_or_empty, wp_pg_select; [intros s5 Ht5|intros code s5 Ht5].
  all: apply wp_lift; split; [congruence|]; unfold build_snapshot; case_decide as Hr; [done|];
    destruct (_ <? 0); [done|]; (split; [done|]); apply user_role_active in Hr; by rewrite Ht1 in Hr.
Qed.

Lemma snapshot_begin_wp s :
  wp snapshot_begin s (λ r s', pg_tables s' = pg_tables s /\
    match r with
    | Ok _ => exists b, pg_tx s' = Some b
    | Err err => errors_Is err apperrors_ErrNotFound = false
    | Panic => False
    end).
Proof.
  unfold snapshot_begin, wp, gtry, gwrap, pg_begin, gret.
  destruct (pg_faults s) as [|[f|] faults]; cbn; eauto.
  destruct faults as [|[g|] faults]; cbn; eauto.
Qed.

Lemma pg_commit_wp (saved : tables) (s : PgState tables) :
  wp (pg_commit saved) s (λ r s',
    match r with
    | Ok _ => pg_tx s <> Some true /\ pg_tables s' = pg_tables s
    | Err err => pg_tables s' = saved /\ exists code, err = External code
    | Panic => False
    end).
Proof.
  unfold wp, pg_commit, pg_leave. destruct (pg_tx s) as [[]|], (pg_faults s) as [|[f|] faults];
    cbn; eauto.
Qed.

Lemma GetCircleSnapshot_wp circleID userID now s :
  wp (GetCircleSnapshot circleID userID now) s (λ r s', pg_tables s' = pg_tables s /\
    match r with
    | Ok snap => readable (pg_tables s) circleID userID snap /\
        (pg_tx s = None -> exists s1 s2, pg_tx s1 <> None /\
           snapshot_body circleID userID now s1 = (Ok snap, s2) /\ pg_tx s2 <> Some true)
    | Err err => errors_Is err apperrors_ErrNotFound = false
    | Panic => True
    end).
Proof.
  unfold wp, GetCircleSnapshot. destruct (pg_tx s) eqn:Etx.
  { pose proof (snapshot_body_wp circleID userID now s) as Hb. unfold wp in Hb.
    destruct (snapshot_body circleID userID now s) as [[]]; cbn in *; [|done..].
    by destruct Hb. }
  pose proof (snapshot_begin_wp s) as Hb. unfold wp in Hb. unfold gbind, gwrap, gret.
  destruct (snapshot_begin s) as [[[]|e|] s1]; cbn in Hb;
    [|cbn; by destruct Hb|cbn; by destruct Hb].
  destruct Hb as [Ht1 [b Hb1]]. pose proof (snapshot_body_wp circleID userID now s1) as H1.
  unfold wp in H1. destruct (snapshot_body circleID userID now s1) as [[snap|e|] s2] eqn:E2;
    cbn in H1; rewrite Ht1 in H1; [|cbn; by destruct H1..].
  pose proof (pg_commit_wp (pg_tables s1) s2) as H2. unfold wp in H2.
  destruct (pg_commit (pg_tables s1) s2) as [[[]|e|] s3]; cbn in *; [| |done].
  - destruct H1 as [Ht2 Hr], H2 as [Htx Ht3]. split; [congruence|]. split; [done|]. intros _.
    exists s1, s2. by rewrite Hb1.
  - destruct H2 as [Ht3 [code ->]]. split; [congruence|done].
Qed.

(** ** A schema without the time columns *)
Lemma pg_exec_aborted {A} (q : tables -> (A * tables) + string) s :
  pg_tx s = Some true -> pg_exec q s = (Err (External "25P02"), s).
Proof. destruct s as [t tx f]. cbn. by intros ->. Qed.

Lemma pg_exec_in_tx {A} (q : tables -> (A * tables) + string) s :
  pg_tx s <> None ->
  wp (pg_exec q) s (λ r s', pg_tx s' <> None /\
     (is_ok r = false -> pg_tx s' = Some true)).
Proof.
  intros Htx. unfold wp, pg_exec, pg_fail.
  destruct (pg_tx s) as [[]|] eqn:E; [|destruct (pg_faults s) as [|[f|] faults], (q (pg_tables s)) as [[]|]|done];
    cbn; rewrite ?E; try done; by split.
Qed.

Lemma with_columns_aborts {A} (q : tables -> A) s :
  timestamp_columns = false -> pg_tx s <> None ->
  wp (with_columns q) s (λ r s', is_ok r = false /\ r <> Panic /\ pg_tx s' = Some true).
Proof.
  intros Hc Htx. unfold wp, with_columns, pg_exec, pg_fail. rewrite Hc.
  destruct (pg_tx s) as [[]|] eqn:E; [|destruct (pg_faults s) as [|[f|] faults]|done];
    cbn; rewrite ?E; done.
Qed.

Lemma snapshot_body_aborts circleID userID now s :
  timestamp_columns = false -> pg_tx s <> None ->
  wp (snapshot_body circleID userID now) s (λ r s', is_ok r = true -> pg_tx s' = Some true).
Proof.
  intros Hc Htx. unfold snapshot_body. apply wp_bind. unfold pg_FindByID, scanCircle, pg_row.
  apply wp_try, wp_bind. eapply wp_mono; [by apply pg_exec_in_tx|].
  intros [o|e|] s1 [Htx1 _]; [|cbn; by destruct (decide (e = sql_ErrNoRows))|done].
  destruct o as [cir|]; [|apply wp_fail; by rewrite decide_True].
  apply wp_ret, wp_ret, wp_bind, wp_ret, wp_bind. unfold pg_GetMembers.
  apply wp_wrap, wp_wrap. eapply wp_mono; [by apply pg_exec_in_tx|].
  intros [members|e|] s2 [Htx2 _]; [|done..].
  apply wp_bind, wp_or_empty. eapply wp_mono; [by apply with_columns_aborts|].
  intros [l|e|] s3 (? & ? & Ha); [done| |done].
  apply wp_bind, wp_or_empty.
  eapply wp_mono; [apply with_columns_aborts; [done|by rewrite Ha]|].
  intros [l'|e'|] s4 (? & ? & Ha4); [done| |done].
  apply wp_bind, wp_or_empty. unfold pg_select. unfold wp at 1. rewrite pg_exec_aborted by done.
  by apply wp_lift.
Qed.

(** ** Guarantees *)

(** A snapshot is only returned to the organizer or to an active member of a
    circle that is not deleted, and taking it changes nothing. *)
Theorem snapshot_private circleID userID now s snap s' :
  GetCircleSnapshot circleID userID now s = (Ok snap, s') ->
  pg_tables s' = pg_tables s /\ readable (pg_tables s) circleID userID snap.
Proof.
  intros E. pose proof (wp_run _ _ _ _ _ (GetCircleSnapshot_wp circleID userID now s) E) as Hr.
  cbn in Hr. by destruct Hr as [Ht [Hr _]].
Qed.

(** While [contributions] and [payouts] lack the two time columns no snapshot is
    ever returned: the query fails, its error is replaced by an empty list, and
    the aborted transaction does not commit. *)
Theorem snapshot_needs_columns circleID userID now s :
  timestamp_columns = false -> pg_tx s = None ->
  is_ok (GetCircleSnapshot circleID userID now s).1 = false.
Proof.
  intros Hc Htx. pose proof (GetCircleSnapshot_wp circleID userID now s) as Hw. unfold wp in Hw.
  destruct (GetCircleSnapshot circleID userID now s) as [[snap|e|] s']; [|done..]. exfalso.
  destruct Hw as [_ [_ Hs]]. destruct (Hs Htx) as (s1 & s2 & Htx1 & E & Htx2). apply Htx2.
  exact (wp_run _ _ _ _ _ (snapshot_body_aborts _ _ _ _ Hc Htx1) E eq_refl).
Qed.

Lemma bulk_loop_wp userID now ids s :
  wp (bulk_loop userID now ids) s (λ r s', pg_tables s' = pg_tables s /\
    match r with
    | Ok snaps => Forall2 (λ id, readable (pg_tables s) id userID) ids snaps
    | _ => True
    end).
Proof.
  revert s. induction ids as [|id ids IH]; intros s; cbn; [by split; [|constructor]|].
  apply wp_try. eapply wp_mono; [apply GetCircleSnapshot_wp|]. intros [snap|e|] s1; cbn.
  - intros [Ht [Hr _]]. apply wp_bind. eapply wp_mono; [apply IH|]. rewrite <-Ht in *.
    intros [snaps|e|] s2 [Ht2 Hs]; cbn; (split; [done|]); by try constructor.
  - intros [Ht ->]. by split.
  - intros [Ht _]. by split.
Qed.

(** A bulk request skips nothing: it returns one readable snapshot for every
    circle it names, or it fails as a whole.  The branch that skips a missing
    circle tests for an error no query of the snapshot returns. *)
Theorem bulk_all_or_nothing userID ids now s snaps s' :
  ids <> [] -> GetBulkCircleSnapshots userID ids now s = (Ok snaps, s') ->
  Forall2 (λ id, readable (pg_tables s) id userID) ids snaps.
Proof.
  intros Hids. unfold GetBulkCircleSnapshots. rewrite decide_False by done. intros E.
  exact (proj2 (wp_run _ _ _ _ _ (bulk_loop_wp userID now ids s) E)).
Qed.
End facts.

(** The rounds of a snapshot are numbered from one without a gap, and their
    contributions are exactly the contributions of the circle to the rounds from
    one on, each once. *)
Theorem snapshot_rounds cir members contribs payouts configs circleID userID now snap :
  build_snapshot cir members contribs payouts configs circleID userID now = Ok snap ->
  rs_RoundNumber <$> cs_Rounds snap = seqZ 1 (max_round cir contribs payouts) /\
  mjoin (rs_Contributions <$> cs_Rounds snap) ≡ₚ filter (λ c, 1 <= rct_RoundNumber c) contribs.
Proof.
  unfold build_snapshot. case_decide; [done|]. destruct (Z.ltb_spec (max_round cir contribs payouts) 0);
    [done|]. intros [= <-]. cbn. rewrite <-!list_fmap_compose. split.
  - apply list_fmap_id.
  - apply (partition_by_key rct_RoundNumber); [|lia]. intros c Hc.
    pose proof (contribution_round cir contribs payouts c Hc). lia.
Qed.

(** ** A circle with contributions *)
#[local] Existing Instance accepting.
Definition with_time_columns : SnapshotSchema := {| timestamp_columns := true |}.
Definition migrated : SnapshotSchema := {| timestamp_columns := false |}.

Definition demo_contribution (user : uuid) (round : Z) : rawContrib :=
  {| rct_ID := 30%N; rct_CircleID := 7%N; rct_UserID := user; rct_RoundNumber := round;
     rct_Amount := f64_of_Z 10; rct_TxnHash := None; rct_Status := "confirmed";
     rct_OnTime := true; rct_VerifiedOnchain := true; rct_VerificationStatus := "verified";
     rct_CreatedAt := 200; rct_UpdatedAt := 200 |}.

Definition snapshot_world : PgState tables :=
  let t := pg_tables active_world.1 in
  connection {| t_circles := t_circles t; t_members := t_members t; t_penalties := [];
    t_contributions := [demo_contribution 2 2; demo_contribution 1 1]; t_payouts := [];
    t_disputes := []; t_votes := ∅; t_bids := ∅; t_configs := ∅ |}.

Definition demo_snapshot : CircleSnapshot :=
  match GetCircleSnapshot (H0 := with_time_columns) 7 2 300 snapshot_world with
  | (Ok snap, _) => snap
  | _ => {| cs_Circle := buildCircle 0 0%N 0%N demo_input; cs_Members := []; cs_Rounds := [];
            cs_UserBalance := user_balance (buildCircle 0 0%N 0%N demo_input) 0%N [] [];
            cs_CircleBalance := circle_balance 0%N [] []; cs_UserRole := ""; cs_SnapshotAt := 0 |}
  end.

Lemma demo_snapshot_run :
  GetCircleSnapshot (H0 := with_time_columns) 7 2 300 snapshot_world =
  (Ok demo_snapshot, snapshot_world).
Proof. by vm_compute. Qed.

Lemma snapshot_private_witness :
  readable (pg_tables snapshot_world) 7%N 2%N demo_snapshot /\
  cs_UserRole demo_snapshot = "member"%string.
Proof.
  split; [|by vm_compute]. exact (proj2 (snapshot_private _ _ _ _ _ _ demo_snapshot_run)).
Defined.

Lemma snapshot_needs_columns_witness :
  is_ok (GetCircleSnapshot (H0 := migrated) 7 2 300 snapshot_world).1 = false.
Proof. by apply (snapshot_needs_columns (H0 := migrated)). Defined.

Definition demo_bulk := GetBulkCircleSnapshots (H0 := with_time_columns) 2 [7%N] 300 snapshot_world.

Lemma bulk_all_or_nothing_witness :
  Forall2 (λ id, readable (pg_tables snapshot_world) id 2%N) [7%N] [demo_snapshot].
Proof.
  apply (bulk_all_or_nothing (H0 := with_time_columns) 2 [7%N] 300 snapshot_world _
    snapshot_world); [done|by vm_compute].
Defined.

Definition demo_contributions : list rawContrib :=
  [demo_contribution 1 1; demo_contribution 2 2].

Lemma snapshot_rounds_witness :
  mjoin (rs_Contributions <$> cs_Rounds demo_snapshot) ≡ₚ demo_contributions.
Proof.
  exact (proj2 (snapshot_rounds (cs_Circle demo_snapshot) (cs_Members demo_snapshot)
    demo_contributions [] [] 7%N 2%N 300 demo_snapshot ltac:(by vm_compute))).
Defined.
