(* ===== verification/CircleOutbox.v ===== *)
(** The outbox of circle events (src/internal/domain/circle/outbox.go): the table
    and its repository, the relay that broadcasts pending events, at-least-once
    delivery under every fault of the database and progress without faults. *)
From S2P Require Export CircleSpec Demo.
From stdpp Require Import options.
#[local] Set Default Proof Using "Type*".
Open Scope Z_scope.
Local Open Scope go_scope.

Module outbox.

Inductive OutboxStatus :=
  | OutboxStatusPending | OutboxStatusPublished | OutboxStatusFailed
  | OutboxStatusOther (s : string).
#[export] Instance OutboxStatus_eq_dec : EqDecision OutboxStatus.
Proof. solve_decision. Defined.

(** The payload is the text of the [JSONB] column. *)
Record OutboxEvent := {
  o_ID : uuid;
  o_AggregateType : string;
  o_AggregateID : uuid;
  o_EventType : string;
  o_Payload : string;
  o_Status : OutboxStatus;
  o_RetryCount : Z;
  o_CreatedAt : time;
  o_ProcessedAt : option time;
}.

Abbreviation otable := (gmap uuid OutboxEvent) (only parsing).

Definition set_processed (st : OutboxStatus) (retry : Z) (at_ : option time) (e : OutboxEvent) :
    OutboxEvent :=
  {| o_ID := o_ID e; o_AggregateType := o_AggregateType e; o_AggregateID := o_AggregateID e;
     o_EventType := o_EventType e; o_Payload := o_Payload e; o_Status := st;
     o_RetryCount := retry; o_CreatedAt := o_CreatedAt e; o_ProcessedAt := at_ |}.

Definition published (now : time) (e : OutboxEvent) : OutboxEvent :=
  set_processed OutboxStatusPublished (o_RetryCount e) (Some now) e.

Definition by_created (e f : OutboxEvent) : Prop := o_CreatedAt e <= o_CreatedAt f.
#[export] Instance by_created_dec e f : Decision (by_created e f).
Proof. unfold by_created. apply _. Defined.

Definition is_pending (e : OutboxEvent) : Prop := o_Status e = OutboxStatusPending.
#[export] Instance is_pending_dec e : Decision (is_pending e).
Proof. unfold is_pending. apply _. Defined.

(** The rows of [status = 'pending'], and a batch of the oldest ones. *)
Definition pending_rows (t : gmap uuid OutboxEvent) : gmap uuid OutboxEvent :=
  filter (λ x, is_pending x.2) t.
Definition pending (t : gmap uuid OutboxEvent) : list OutboxEvent :=
  (map_to_list (pending_rows t)).*2.
Definition batch (limit : Z) (t : gmap uuid OutboxEvent) : list OutboxEvent :=
  take (Z.to_nat limit) (merge_sort by_created (pending t)).

(** [json.Unmarshal] of the two payloads: the fields [circleId] and [status], or
    [circleId] and [userId]; [None] is an error. *)
Class PayloadCodec := {
  unmarshal_status : string -> option (string * string);
  unmarshal_member : string -> option (string * string);
}.

(** ** pgOutboxRepo; [db] tells whether its pool is not nil *)
Section repository.
Variable db : bool.
Abbreviation OM := (M (PgState (gmap uuid OutboxEvent))).

(** An INSERT leaves [processed_at] NULL. *)
Definition Save (in_tx : bool) (event : OutboxEvent) : OM unit :=
  if in_tx || db then
    gwrap "saving outbox event: %w" (pg_insert
      (λ t, if t !! o_ID event is Some _ then Some "23505"%string else None)
      <[o_ID event := set_processed (o_Status event) (o_RetryCount event) None event]>)
  else gret tt.

Definition FetchPending (limit : Z) : OM (list OutboxEvent) :=
  if negb db then gret [] else
  gwrap "fetching pending outbox events: %w" (pg_exec (λ t,
    if limit <? 0 then inr "2201W"%string else inl (batch limit t, t))).

Definition MarkPublished (id : uuid) (now : time) : OM unit :=
  if negb db then gret tt else
  let! _ := pg_update (λ _, None) (λ t, if t !! id is Some _ then true else false)
    (alter (published now) id) in
  gret tt.

Definition MarkFailed (id : uuid) (retryCount : Z) : OM unit :=
  if negb db then gret tt else
  let! _ := pg_update
    (λ _, if (retryCount <? - 2 ^ 31) || (2 ^ 31 <=? retryCount) then Some "22003"%string else None)
    (λ t, if t !! id is Some _ then true else false)
    (alter (λ e, set_processed OutboxStatusFailed retryCount (o_ProcessedAt e) e) id) in
  gret tt.

Definition expired (before : time) (e : OutboxEvent) : bool :=
  bool_decide (o_Status e = OutboxStatusPublished) &&
  match o_ProcessedAt e with Some at_ => time_Before at_ before | None => false end.

Definition DeletePublished (before : time) : OM Z :=
  if negb db then gret 0 else
  pg_exec (λ t, inl (Z.of_nat (size (filter (λ x, expired before x.2 = true) t)),
                     filter (λ x, expired before x.2 = false) t)).
End repository.

(** ** OutboxRelay *)
Section relay.
Context `{PayloadCodec}.
Variables (db has_repo broadcaster : bool).

Definition broadcast_of (e : OutboxEvent) : option event :=
  if decide (o_EventType e = "CircleStatusChanged"%string) then
    (λ '(circleID, status), CircleStatusChanged circleID status) <$> unmarshal_status (o_Payload e)
  else if decide (o_EventType e = "MemberJoined"%string) then
    (λ '(circleID, userID), MemberJoined circleID userID) <$> unmarshal_member (o_Payload e)
  else None.

Definition OSt : Type := PgState (gmap uuid OutboxEvent) * list event.

Definition broadcast (e : OutboxEvent) : M OSt unit :=
  match (if broadcaster then broadcast_of e else None) with
  | Some ev => emit true ev
  | None => gret tt
  end.

Fixpoint relay_loop (events : list OutboxEvent) (now : time) (processed : Z) : M OSt Z :=
  match events with
  | [] => gret processed
  | e :: events =>
      do! broadcast e in
      gtry (repo (MarkPublished db (o_ID e) now)) (λ r,
        relay_loop events now (match r with inl _ => wrap64 (processed + 1) | inr _ => processed end))
  end.

Definition ProcessBatch (limit : Z) (now : time) : M OSt Z :=
  if negb has_repo then gret 0 else
  let! events := repo (FetchPending db limit) in
  relay_loop events now 0.
End relay.

(** ** Facts *)
Definition keyed (t : gmap uuid OutboxEvent) : Prop := map_Forall (λ id e, o_ID e = id) t.

Definition mark_all (now : time) (l : list OutboxEvent) (t : gmap uuid OutboxEvent) :
    gmap uuid OutboxEvent :=
  foldl (λ t e, alter (published now) (o_ID e) t) t l.

Lemma keyed_alter f id t : (forall e, o_ID (f e) = o_ID e) -> keyed t -> keyed (alter f id t).
Proof.
  intros Hf Ht k e. destruct (decide (k = id)) as [->|].
  - rewrite lookup_alter_eq. intros (e0 & He & ->)%fmap_Some. rewrite Hf. by apply Ht.
  - rewrite lookup_alter_ne by done. by apply Ht.
Qed.

Lemma keyed_mark_all now l t : keyed t -> keyed (mark_all now l t).
Proof. revert t. induction l; intros t Ht; cbn; [done|]. by apply IHl, keyed_alter. Qed.

Lemma elem_of_pending t e : keyed t -> e ∈ pending t <-> t !! o_ID e = Some e /\ is_pending e.
Proof.
  intros Ht. unfold pending, pending_rows. rewrite list_elem_of_fmap. split.
  - intros ([id e'] & -> & Hin). apply elem_of_map_to_list, map_lookup_filter_Some in Hin as [Hl Hp].
    cbn in *. by rewrite (Ht _ _ Hl).
  - intros [Hl Hp]. exists (o_ID e, e). split; [done|].
    by apply elem_of_map_to_list, map_lookup_filter_Some.
Qed.

Lemma pending_ids t : keyed t -> NoDup (o_ID <$> pending t).
Proof.
  intros Ht. assert (o_ID <$> pending t = (map_to_list (pending_rows t)).*1) as ->.
  { unfold pending. rewrite <-list_fmap_compose. apply list_fmap_ext. intros i [id e] Hi.
    apply list_elem_of_lookup_2, elem_of_map_to_list, map_lookup_filter_Some in Hi as [Hl _].
    by apply Ht in Hl. }
  apply NoDup_fst_map_to_list.
Qed.

Lemma batch_spec limit t :
  keyed t -> NoDup (o_ID <$> batch limit t) /\
  (forall e, e ∈ batch limit t -> t !! o_ID e = Some e /\ is_pending e) /\
  length (batch limit t) = (Z.to_nat limit `min` size (pending_rows t))%nat.
Proof.
  intros Ht. unfold batch. pose proof (merge_sort_Permutation by_created (pending t)) as Hp.
  split; [|split].
  - eapply sublist_NoDup; [|apply fmap_sublist, sublist_take].
    rewrite Hp. by apply pending_ids.
  - intros e He. apply elem_of_pending; [done|]. rewrite <-Hp.
    eapply elem_of_submseteq; [exact He|]. apply sublist_submseteq, sublist_take.
  - rewrite length_take, Hp. unfold pending. rewrite length_fmap, length_map_to_list. done.
Qed.

Lemma pending_rows_published now id t e :
  t !! id = Some e -> is_pending e ->
  pending_rows (alter (published now) id t) = delete id (pending_rows t).
Proof.
  intros He Hp. apply map_eq. intros k. apply option_eq. intros x. unfold pending_rows.
  destruct (decide (k = id)) as [->|].
  - rewrite lookup_delete_eq, map_lookup_filter_Some, lookup_alter_eq, He. cbn.
    split; [|done]. by intros [[= <-] Hx].
  - rewrite lookup_delete_ne, !map_lookup_filter_Some, lookup_alter_ne by done. done.
Qed.

Lemma mark_all_lookup now l t id :
  NoDup (o_ID <$> l) ->
  mark_all now l t !! id =
  (if decide (id ∈ o_ID <$> l) then published now else λ e, e) <$> t !! id.
Proof.
  revert t. induction l as [|e l IH]; intros t Hnd; cbn.
  { destruct (decide _) as [Hin|]; [by apply elem_of_nil in Hin|]. by destruct (t !! id). }
  cbn in Hnd. apply NoDup_cons in Hnd as [Hne Hnd].
  fold (mark_all now l (alter (published now) (o_ID e) t)). rewrite IH by done.
  destruct (decide (id = o_ID e)) as [->|Hid].
  - rewrite decide_False, decide_True by (done || by left). rewrite lookup_alter_eq.
    by destruct (t !! o_ID e).
  - rewrite lookup_alter_ne by done. destruct (decide (id ∈ o_ID <$> l)).
    + rewrite decide_True; [done|]. by right.
    + rewrite decide_False; [done|]. by apply not_elem_of_cons.
Qed.

(** Marking pending rows leaves the other pending rows. *)
Lemma mark_all_pending now l t :
  NoDup (o_ID <$> l) -> (forall e, e ∈ l -> t !! o_ID e = Some e /\ is_pending e) ->
  (size (pending_rows (mark_all now l t)) + length l = size (pending_rows t))%nat /\
  (forall id, id ∉ o_ID <$> l -> mark_all now l t !! id = t !! id).
Proof.
  revert t. induction l as [|e l IH]; intros t Hnd Hl; cbn; [by rewrite Nat.add_0_r|].
  cbn in Hnd. apply NoDup_cons in Hnd as [Hne Hnd]. destruct (Hl e) as [He Hp]; [by left|].
  destruct (IH (alter (published now) (o_ID e) t)) as [Hs Hk]; [done| |].
  { intros x Hx. rewrite lookup_alter_ne; [apply Hl; by right|]. intros Heq. apply Hne.
    rewrite Heq. apply list_elem_of_fmap. by exists x. }
  split.
  - erewrite (pending_rows_published now _ t e) in Hs by done.
    assert (pending_rows t !! o_ID e = Some e) as Hin by by apply map_lookup_filter_Some.
    rewrite map_size_delete_Some in Hs by eauto.
    assert (size (pending_rows t) <> 0%nat); [|unfold mark_all in *; lia].
    rewrite map_size_non_empty_iff. intros Hemp. by rewrite Hemp in Hin.
  - intros id Hid. apply not_elem_of_cons in Hid as [Hne' Hid]. rewrite Hk by done.
    by rewrite lookup_alter_ne.
Qed.
(** ** Guarantees of the relay *)
Section guarantees.
Context `{PayloadCodec}.
Variable broadcaster : bool.

(** What a batch sends. *)
Definition sends (l : list OutboxEvent) : list event :=
  if broadcaster then omap broadcast_of l else [].

Lemma sends_cons e l : sends (e :: l) = sends [e] ++ sends l.
Proof. unfold sends. destruct broadcaster; [|done]. cbn. by destruct (broadcast_of e). Qed.

Lemma broadcast_run e w sent :
  broadcast broadcaster e (w, sent) = (Ok tt, (w, sent ++ sends [e])).
Proof.
  unfold broadcast, sends. destruct broadcaster; cbn; [|by rewrite app_nil_r].
  destruct (broadcast_of e); cbn; [done|by rewrite app_nil_r].
Qed.

Lemma relay_loop_wp es now n w sent :
  n = wrap64 n ->
  wp (relay_loop true broadcaster es now n) (w, sent) (λ r st, exists done,
    done `sublist_of` es /\ r = Ok (wrap64 (n + Z.of_nat (length done))) /\
    st.2 = sent ++ sends es /\ pg_tables st.1 = mark_all now done (pg_tables w)).
Proof.
  revert n w sent. induction es as [|e es IH]; intros n w sent Hn; cbn [relay_loop].
  { apply wp_ret. exists []. cbn. rewrite Z.add_0_r, <-Hn. unfold sends.
    destruct broadcaster; by rewrite app_nil_r. }
  apply wp_bind. unfold wp at 1. rewrite broadcast_run. apply wp_try.
  assert (wp (MarkPublished true (o_ID e) now) w (λ r w', r <> Panic /\
    pg_tables w' = if is_ok r then mark_all now [e] (pg_tables w) else pg_tables w)) as Hm.
  { apply wp_bind, wp_pg_update; [intros w' _ _ Ht|intros w' Hh Ht|intros code w' Ht].
    - apply wp_ret. by rewrite Ht.
    - apply wp_ret. split; [done|]. cbn. rewrite Ht, alter_missing; [done|]. by destruct (pg_tables w !! o_ID e).
    - by rewrite Ht. }
  apply wp_repo. eapply wp_mono; [exact Hm|]. intros [[]|err|] w1 [Hr Ht1]; [| |done]; cbn in Ht1.
  - eapply wp_mono; [apply (IH (wrap64 (n + 1))); symmetry; apply wrap64_id, wrap64_in|].
    intros r st (l & Hl & -> & Hs & Ht).
    exists (e :: l). split; [by apply sublist_skip|]. rewrite Hs, Ht, Ht1, (sends_cons e es).
    split; [|by rewrite app_assoc]. rewrite wrap64_add_l. cbn [length]. do 2 f_equal. lia.
  - eapply wp_mono; [by apply (IH n)|]. intros r st (l & Hl & -> & Hs & Ht).
    exists l. split; [by apply sublist_cons|]. rewrite Hs, Ht, Ht1, (sends_cons e es).
    by rewrite app_assoc.
Qed.

(** No event is lost: whatever statements fail, every event a batch marks as
    published was sent in the same batch, the events are sent in the order of the
    batch, the count is the number of marked events, and an event that is not
    marked stays pending for the next batch. *)
Theorem ProcessBatch_no_loss limit now w sent r w' sent' :
  keyed (pg_tables w) ->
  ProcessBatch true true broadcaster limit now (w, sent) = (r, (w', sent')) ->
  match r with
  | Ok n => sent' = sent ++ sends (batch limit (pg_tables w)) /\
      exists done, done `sublist_of` batch limit (pg_tables w) /\
        n = wrap64 (Z.of_nat (length done)) /\
        forall id, pg_tables w' !! id =
          (if decide (id ∈ o_ID <$> done) then published now else λ e, e) <$> pg_tables w !! id
  | Err _ => sent' = sent /\ pg_tables w' = pg_tables w
  | Panic => False
  end.
Proof.
  intros Hkey E. revert E. change (ProcessBatch true true broadcaster limit now)
    with (let! events := repo (FetchPending true limit) in relay_loop true broadcaster events now 0).
  intros E. eapply (wp_run _ (w, sent) (λ r st, match r with
    | Ok n => st.2 = sent ++ sends (batch limit (pg_tables w)) /\ exists done,
        done `sublist_of` batch limit (pg_tables w) /\ n = wrap64 (Z.of_nat (length done)) /\
        pg_tables st.1 = mark_all now done (pg_tables w)
    | Err _ => st.2 = sent /\ pg_tables st.1 = pg_tables w
    | Panic => False
    end)) in E.
  2: { apply wp_bind. unfold wp, repo.
       assert (wp (FetchPending true limit) w (λ r w', pg_tables w' = pg_tables w /\
         match r with Ok l => l = batch limit (pg_tables w) | Err _ => True | Panic => False end)) as Hf.
       { apply wp_wrap, wp_pg_exec; [|by intros]. intros l t w1 Hq Ht.
         destruct (limit <? 0); [done|]. cbn. split; congruence. }
       unfold wp in Hf. destruct (FetchPending true limit w) as [[l|e|] w1]; cbn in *;
         destruct Hf as [Ht1 Hl]; [|done..]. subst l.
       eapply wp_mono; [by apply relay_loop_wp|]. rewrite Ht1. cbn.
       intros r0 st (d & Hd & -> & Hs & Ht). eauto 10. }
  destruct r as [n|err|]; cbn in E; [|done..]. destruct E as [Hs (d & Hd & Hn & Ht)].
  split; [done|]. exists d. split; [done|]. split; [done|]. intros id. rewrite Ht.
  destruct (batch_spec limit _ Hkey) as (Hnd & Hb & _). apply mark_all_lookup.
  eapply sublist_NoDup; [exact Hnd|]. by apply fmap_sublist.
Qed.

(** Batches one after the other, at the given times. *)
Fixpoint run_batches (limit : Z) (nows : list time) : M OSt unit :=
  match nows with
  | [] => gret tt
  | now :: nows =>
      let! _ := ProcessBatch true true broadcaster limit now in run_batches limit nows
  end.

Lemma relay_loop_clean es now n t sent : exists m,
  relay_loop true broadcaster es now n (connection t, sent) =
  (Ok m, (connection (mark_all now es t), sent ++ sends es)).
Proof.
  revert n t sent. induction es as [|e es IH]; intros n t sent; cbn [relay_loop].
  { exists n. unfold sends. by destruct broadcaster; rewrite app_nil_r. }
  unfold gbind at 1. rewrite broadcast_run. unfold gtry, repo.
  assert (MarkPublished true (o_ID e) now (connection t) =
    (Ok tt, connection (alter (published now) (o_ID e) t))) as ->.
  { unfold MarkPublished, pg_update, connection, gbind. cbn. destruct (t !! o_ID e) eqn:E; [done|].
    cbn. by rewrite alter_missing. }
  destruct (IH (wrap64 (n + 1)) (alter (published now) (o_ID e) t) (sent ++ sends [e])) as [m Hm].
  exists m. rewrite Hm, (sends_cons e es), app_assoc. done.
Qed.

Lemma ProcessBatch_clean limit now t sent : 0 <= limit -> exists m,
  ProcessBatch true true broadcaster limit now (connection t, sent) =
  (Ok m, (connection (mark_all now (batch limit t) t), sent ++ sends (batch limit t))).
Proof.
  intros Hl. unfold ProcessBatch, gbind, repo. cbn.
  unfold FetchPending, gwrap, pg_exec. cbn. destruct (Z.ltb_spec limit 0); [lia|].
  apply relay_loop_clean.
Qed.

Lemma pending_split limit now t e :
  keyed t -> t !! o_ID e = Some e -> is_pending e ->
  e ∈ batch limit t \/
  mark_all now (batch limit t) t !! o_ID e = Some e.
Proof.
  intros Ht He Hp. destruct (batch_spec limit t Ht) as (Hnd & Hbs & _).
  destruct (decide (o_ID e ∈ o_ID <$> batch limit t)) as [Hin|Hb]; [left|right].
  - apply list_elem_of_fmap in Hin as (x & Hid & Hx). destruct (Hbs x Hx) as [Hl _].
    rewrite <-Hid, He in Hl. by injection Hl as ->.
  - destruct (mark_all_pending now _ _ Hnd Hbs) as [_ Hk]. by rewrite Hk.
Qed.

Lemma sends_elem e l ev :
  broadcaster = true -> e ∈ l -> broadcast_of e = Some ev -> ev ∈ sends l.
Proof.
  intros Hb He Hev. unfold sends. rewrite Hb. apply list_elem_of_omap. by exists e.
Qed.

(** C40: Without faults the outbox drains: as many batches as it has pending events,
    of any positive size, leave none pending, and every event that was pending
    and has a readable payload of a known type was sent. *)
Theorem outbox_drains limit nows t sent :
  keyed t -> 0 < limit -> (size (pending_rows t) <= length nows)%nat -> broadcaster = true ->
  exists t' sent',
    run_batches limit nows (connection t, sent) = (Ok tt, (connection t', sent')) /\
    pending t' = [] /\
    forall e ev, e ∈ pending t -> broadcast_of e = Some ev -> ev ∈ sent'.
Proof.
  intros Ht Hl Hn Hb.
  enough (exists t' sent', run_batches limit nows (connection t, sent) =
      (Ok tt, (connection t', sent')) /\ size (pending_rows t') = 0%nat /\ sent `prefix_of` sent' /\
      forall e ev, e ∈ pending t -> broadcast_of e = Some ev -> ev ∈ sent')
    as (t' & sent' & Hr & Hp & _ & He).
  { exists t', sent'. split; [done|]. split; [|done]. unfold pending.
    apply map_size_empty_iff in Hp. by rewrite Hp, map_to_list_empty. }
  revert t sent Ht Hn. induction nows as [|now nows IH]; intros t sent Ht Hn; cbn [run_batches].
  { exists t, sent. cbn in Hn. assert (size (pending_rows t) = 0%nat) as Hz by lia.
    split; [done|]. split; [done|]. split; [done|]. intros e ev He. unfold pending in He.
    apply map_size_empty_iff in Hz. rewrite Hz, map_to_list_empty in He.
    by apply elem_of_nil in He. }
  destruct (ProcessBatch_clean limit now t sent) as [m Hm]; [lia|].
  destruct (batch_spec limit t Ht) as (Hnd & Hbs & Hlen).
  destruct (mark_all_pending now _ _ Hnd Hbs) as [Hsize Hkept].
  destruct (IH (mark_all now (batch limit t) t) (sent ++ sends (batch limit t)))
    as (t' & sent' & Hr & Hp & Hpre & He).
  { by apply keyed_mark_all. }
  { cbn in Hn. lia. }
  exists t', sent'. unfold gbind. rewrite Hm, Hr. split; [done|]. split; [done|].
  split; [etrans; [|exact Hpre]; by apply prefix_app_r|].
  intros e ev Hpe Hev. apply elem_of_pending in Hpe as [Hle Hpe]; [|done].
  destruct (pending_split limit now t e Ht Hle Hpe) as [Hin|Hin].
  - destruct Hpre as [k ->]. apply elem_of_app. left. apply elem_of_app. right.
    by eapply sends_elem.
  - apply (He e ev); [|done]. apply elem_of_pending; [by apply keyed_mark_all|done].
Qed.
End guarantees.

(** ** Two events, the second statement of the relay failing *)
#[local] Instance demo_codec : PayloadCodec := {
  unmarshal_status p := Some (p, "active"%string);
  unmarshal_member p := None;
}.

Definition demo_event (id : uuid) (at_ : time) : OutboxEvent :=
  {| o_ID := id; o_AggregateType := "circle"; o_AggregateID := 7%N;
     o_EventType := "CircleStatusChanged"; o_Payload := unary (N.to_nat id);
     o_Status := OutboxStatusPending; o_RetryCount := 0; o_CreatedAt := at_;
     o_ProcessedAt := None |}.

Definition demo_table : gmap uuid OutboxEvent :=
  <[1%N := demo_event 1 20]> {[2%N := demo_event 2 10]}.

Lemma demo_table_keyed : keyed demo_table.
Proof. by apply map_Forall_insert_2, map_Forall_singleton. Qed.

Definition faulty_world : PgState (gmap uuid OutboxEvent) :=
  {| pg_tables := demo_table; pg_tx := None; pg_faults := [None; Some connection_failure] |}.

Definition faulty_run := ProcessBatch true true true 10 50 (faulty_world, []).

Lemma ProcessBatch_no_loss_witness :
  faulty_run.1 = Ok 1 /\
  faulty_run.2.2 = [CircleStatusChanged "xx" "active"; CircleStatusChanged "x" "active"].
Proof.
  split; [by vm_compute|].
  pose proof (ProcessBatch_no_loss true 10 50 faulty_world [] (Ok 1) faulty_run.2.1 faulty_run.2.2
    demo_table_keyed ltac:(by vm_compute)) as [Hs _].
  rewrite Hs. by vm_compute.
Defined.

Lemma outbox_drains_witness : exists t' sent',
  run_batches true 1 [50; 60] (connection demo_table, []) = (Ok tt, (connection t', sent')) /\
  pending t' = [] /\
  forall e ev, e ∈ pending demo_table -> broadcast_of e = Some ev -> ev ∈ sent'.
Proof.
  apply (outbox_drains true 1 [50; 60] demo_table []);
    [exact demo_table_keyed|done|vm_compute; lia|done].
Defined.
End outbox.
