(* ===== verification/Contribution.v ===== *)
(** Contributions (src/internal/domain/contribution): the repository over the
    tables of the circles and the service, which records a payment once, after it
    was verified on the chain, for a member of an open circle. *)
From S2P Require Export CircleSpec CircleSnapshot Money.
From stdpp Require Import options.
#[local] Set Default Proof Using "Type*".
Open Scope Z_scope.
Local Open Scope go_scope.

Module contribution.

(** ** model.go

    The struct has the fields of its row; the two status types are strings. *)
Definition Contribution : Type := rawContrib.

Definition StatusPending : string := "pending".
Definition StatusConfirmed : string := "confirmed".
Definition StatusFailed : string := "failed".
Definition StatusLate : string := "late".
Definition VerificationStatusUnverified : string := "unverified".
Definition VerificationStatusPending : string := "pending".
Definition VerificationStatusVerified : string := "verified".
Definition VerificationStatusFailed : string := "failed".

Definition set_contributions (f : list rawContrib -> list rawContrib) (t : tables) : tables :=
  {| t_circles := t_circles t; t_members := t_members t; t_penalties := t_penalties t;
     t_contributions := f (t_contributions t); t_payouts := t_payouts t;
     t_disputes := t_disputes t; t_votes := t_votes t; t_bids := t_bids t;
     t_configs := t_configs t |}.

Definition contribution_status (status : string) (txnHash : option string) (now : time)
    (c : Contribution) : Contribution :=
  {| rct_ID := rct_ID c; rct_CircleID := rct_CircleID c; rct_UserID := rct_UserID c;
     rct_RoundNumber := rct_RoundNumber c; rct_Amount := rct_Amount c; rct_TxnHash := txnHash;
     rct_Status := status; rct_OnTime := rct_OnTime c; rct_VerifiedOnchain := rct_VerifiedOnchain c;
     rct_VerificationStatus := rct_VerificationStatus c; rct_CreatedAt := rct_CreatedAt c;
     rct_UpdatedAt := now |}.

Definition contribution_verification (verified : bool) (status : string) (now : time)
    (c : Contribution) : Contribution :=
  {| rct_ID := rct_ID c; rct_CircleID := rct_CircleID c; rct_UserID := rct_UserID c;
     rct_RoundNumber := rct_RoundNumber c; rct_Amount := rct_Amount c;
     rct_TxnHash := rct_TxnHash c; rct_Status := rct_Status c; rct_OnTime := rct_OnTime c;
     rct_VerifiedOnchain := verified; rct_VerificationStatus := status;
     rct_CreatedAt := rct_CreatedAt c; rct_UpdatedAt := now |}.

(** ** repository.go *)
Class ContributionRepository (W : Type) := {
  FindByID : uuid -> M W (option Contribution);
  FindByCircleAndUser : uuid -> uuid -> M W (option Contribution);
  FindByTxnHash : string -> M W (option Contribution);
  Create : Contribution -> M W unit;
  UpdateStatus : uuid -> string -> string -> time -> M W unit;
  UpdateVerificationStatus : uuid -> bool -> string -> time -> M W unit;
  ListByUser : uuid -> Z -> Z -> M W (list Contribution * Z);
  ListByCircle : uuid -> Z -> Z -> M W (list Contribution * Z);
}.

(** Two rows a unique constraint of the schema keeps apart: the primary key, one
    row for a circle, user and round, one row for a transaction. *)
Definition clash (c d : Contribution) : bool :=
  bool_decide (rct_ID c = rct_ID d) ||
  bool_decide (rct_CircleID c = rct_CircleID d /\ rct_UserID c = rct_UserID d /\
               rct_RoundNumber c = rct_RoundNumber d) ||
  bool_decide (is_Some (rct_TxnHash c) /\ rct_TxnHash c = rct_TxnHash d).

Definition with_hash (txnHash : string) (t : tables) : option Contribution :=
  head (filter (λ c, rct_TxnHash c = Some txnHash) (t_contributions t)).

Class ContributionLaws (W : Type) `{ContributionRepository W} (tables_of : W -> tables) : Prop := {
  FindByTxnHash_law txnHash : implements tables_of (FindByTxnHash txnHash)
    (found apperrors_ErrNotFound (with_hash txnHash));
  Create_law c : implements tables_of (Create c) (write
    (λ t, if existsb (clash c) (t_contributions t) then Some apperrors_ErrConflict else None)
    (set_contributions (cons c)));
  UpdateVerification_law id verified status now :
    implements tables_of (UpdateVerificationStatus id verified status now) (write
      (λ t, if existsb (λ c, bool_decide (rct_ID c = id)) (t_contributions t) then None
            else Some apperrors_ErrNotFound)
      (set_contributions (map (λ c, if decide (rct_ID c = id)
                                     then contribution_verification verified status now c else c))));
}.

(** ** service.go *)
Record RecordInput := {
  ri_CircleID : string;
  ri_UserID : string;
  ri_RoundNumber : Z;
  ri_Amount : float64;
  ri_TxnHash : string;
  ri_PayoutScheduled : bool;
  ri_VerifiedOnchain : option bool;
  ri_VerificationStatus : option string;
}.

(** The collaborators that may be nil.  The transactor of the service is stored
    and never used. *)
Record service (W : Type) := {
  cs_broadcaster : bool;
  cs_horizon : option (string -> string -> string -> M W bool);
  cs_payoutChecker : option (string -> Z -> M W bool);
  cs_masterPublicKey : string;
  cs_circleService : option (circleService W);
}.
Arguments cs_broadcaster {W} _.
Arguments cs_horizon {W} _.
Arguments cs_payoutChecker {W} _.
Arguments cs_masterPublicKey {W} _.
Arguments cs_circleService {W} _.

Definition ErrLateContributionRejected := Sentinel
  "contributions rejected: payout scheduling has already begun for this round".
Definition ErrCircleEnded := Sentinel "contributions rejected: circle has ended".
Definition not_a_member : error := Errorf "user is not a member of this circle".
Definition verification_failed (txnHash : string) : error :=
  Errorf ("on-chain verification failed: txnHash " ++ txnHash ++
          " does not match expected sender/amount")%string.

Section service.
Context {W : Type} `{CircleRepo.Repository W, ContributionRepository W, UUIDLib, GoFloatConv}.
Variable s : service W.

Definition parse (format id : string) : result uuid :=
  match uuid_Parse id with Some u => Ok u | None => Err (Wrapf format (External "uuid")) end.

(** [if s.payoutChecker != nil]: an error of the check is ignored. *)
Definition payout_guard (input : RecordInput) : M (St W) unit :=
  do! gguard (ri_PayoutScheduled input) ErrLateContributionRejected in
  match cs_payoutChecker s with
  | None => gret tt
  | Some isScheduled =>
      gtry (repo (isScheduled (ri_CircleID input) (ri_RoundNumber input))) (λ r,
        gguard (match r with inl scheduled => scheduled | inr _ => false end)
          ErrLateContributionRejected)
  end.

Definition ended (c : Circle) : bool :=
  bool_decide (c_Status c = CircleStatusCompleted \/ c_Status c = CircleStatusCancelled).

Definition ended_guard (input : RecordInput) : M (St W) unit :=
  match cs_circleService s with
  | None => gret tt
  | Some _ =>
      let! cir := gwrap "getting circle: %w" (Get (ri_CircleID input)) in
      gguard (ended cir) ErrCircleEnded
  end.

(** The recorded row of the transaction, if the lookup finds one. *)
Definition find_recorded (txnHash : string) : M (St W) (option Contribution) :=
  gtry (repo (FindByTxnHash txnHash)) (λ r,
    gret (match r with inl existing => existing | inr _ => None end)).

(** The verification state: the caller's, or what Horizon says. *)
Definition verify (input : RecordInput) : M (St W) (bool * string) :=
  let verified := default false (ri_VerifiedOnchain input) in
  let status := default VerificationStatusUnverified (ri_VerificationStatus input) in
  match cs_horizon s, ri_VerifiedOnchain input, ri_VerificationStatus input with
  | Some verifyTransaction, None, None =>
      if decide (ri_TxnHash input = ""%string) then gret (verified, status) else
      let! amount := gwrap "invalid contribution amount: %w" (glift (money.FromFloat64 (ri_Amount input))) in
      gtry (repo (verifyTransaction (ri_TxnHash input) (cs_masterPublicKey s) (String.string_of_list_ascii (money.String amount))))
        (λ r, match r with
              | inr _ => gret (verified, VerificationStatusPending)
              | inl false => gfail (verification_failed (ri_TxnHash input))
              | inl true => gret (true, VerificationStatusVerified)
              end)
  | _, _, _ => gret (verified, status)
  end.

(** Membership, and whether the round is one the circle has reached. *)
Definition on_time (input : RecordInput) : M (St W) bool :=
  let valid := 1 <=? ri_RoundNumber input in
  match cs_circleService s with
  | None => gret valid
  | Some _ =>
      let! member := gwrap "checking membership: %w"
        (IsMember (ri_CircleID input) (ri_UserID input)) in
      do! gguard (negb member) not_a_member in
      let! cir := gwrap "getting circle: %w" (Get (ri_CircleID input)) in
      gret (valid && (ri_RoundNumber input <=? c_CurrentRound cir))
  end.

Definition new_contribution (now : time) (new circleUID userUID : uuid) (input : RecordInput)
    (verified : bool) (status : string) (onTime : bool) : Contribution :=
  {| rct_ID := new; rct_CircleID := circleUID; rct_UserID := userUID;
     rct_RoundNumber := ri_RoundNumber input; rct_Amount := ri_Amount input;
     rct_TxnHash := null_string (ri_TxnHash input);
     rct_Status := if verified then StatusConfirmed else StatusPending;
     rct_OnTime := onTime; rct_VerifiedOnchain := verified; rct_VerificationStatus := status;
     rct_CreatedAt := now; rct_UpdatedAt := now |}.

(** The insert, and the row another request inserted first. *)
Definition save (input : RecordInput) (c : Contribution) : M (St W) Contribution :=
  gtry (repo (Create c)) (λ r,
    match r with
    | inl _ =>
        do! emit (cs_broadcaster s) (ContributionRecorded (ri_CircleID input) (ri_UserID input)
              (ri_RoundNumber input) (ri_Amount input)) in
        gret c
    | inr err =>
        let failed := gfail (Wrapf "saving contribution: %w" err) in
        if decide (err = apperrors_ErrConflict) then
          let! existing := find_recorded (ri_TxnHash input) in
          match existing with Some c => gret c | None => failed end
        else failed
    end).

Definition RecordContribution (now : time) (new : uuid) (input : RecordInput) : M (St W) Contribution :=
  let! circleUID := glift (parse "invalid circleID: %w" (ri_CircleID input)) in
  let! userUID := glift (parse "invalid userID: %w" (ri_UserID input)) in
  do! payout_guard input in
  do! ended_guard input in
  let! existing := if decide (ri_TxnHash input = ""%string) then gret None
                   else find_recorded (ri_TxnHash input) in
  match existing with
  | Some c => gret c
  | None =>
      let! v := verify input in
      let! onTime := on_time input in
      save input (new_contribution now new circleUID userUID input v.1 v.2 onTime)
  end.

Definition GetUserHistory (userID : string) (page limit : Z) : M (St W) (list Contribution * Z) :=
  let! uid := glift (parse "invalid userID: %w" userID) in repo (ListByUser uid page limit).

Definition GetCircleHistory (circleID : string) (page limit : Z) :
    M (St W) (list Contribution * Z) :=
  let! cid := glift (parse "invalid circleID: %w" circleID) in repo (ListByCircle cid page limit).

Definition UpdateVerification (now : time) (id : string) (verified : bool) (status : string) :
    M (St W) unit :=
  let! uid := glift (parse "invalid contribution ID: %w" id) in
  repo (UpdateVerificationStatus uid verified status now).
End service.

(** ** What a call does *)
Class CollaboratorLaws {W} (tables_of : W -> tables) (s : service W) : Prop := {
  horizon_law verifyTransaction h k a w r w' : cs_horizon s = Some verifyTransaction ->
    verifyTransaction h k a w = (r, w') -> tables_of w' = tables_of w /\ r <> Panic;
  payoutChecker_law isScheduled c n w r w' : cs_payoutChecker s = Some isScheduled ->
    isScheduled c n w = (r, w') -> tables_of w' = tables_of w /\ r <> Panic;
}.

Lemma wp_cparse {W} `{UUIDLib} format id (st : St W) (Q : result uuid -> St W -> Prop) :
  (forall u, uuid_Parse id = Some u -> Q (Ok u) st) ->
  (forall e, Q (Err e) st) -> wp (glift (parse format id)) st Q.
Proof. intros Hs Hn. apply wp_lift. unfold parse. destruct (uuid_Parse id); eauto. Qed.

Section spec.
Context {W : Type} `{CircleRepo.Repository W, ContributionRepository W, UUIDLib, GoFloatConv}.
Context `{Transactor W, TextMatch}.
Context (tables_of : W -> tables) `{!CircleRepo.RepositoryLaws W tables_of}.
Context `{!ContributionLaws W tables_of}.
Context (s : service W) `{!CollaboratorLaws tables_of s}.

(** The verification state of a new row.  A state the caller gives is taken over;
    without Horizon or without a transaction the row is unverified; otherwise
    Horizon has been asked for the transaction, the master key and the exact text
    of the amount: it confirmed the payment, or it could not be asked and the row
    waits.  A payment Horizon denies has no state: it is not recorded. *)
Inductive verified_as (t : tables) (input : RecordInput) : bool -> string -> Prop :=
  | state_given :
      is_Some (ri_VerifiedOnchain input) \/ is_Some (ri_VerificationStatus input) ->
      verified_as t input (default false (ri_VerifiedOnchain input))
        (default "unverified" (ri_VerificationStatus input))
  | state_unasked :
      ri_VerifiedOnchain input = None -> ri_VerificationStatus input = None ->
      cs_horizon s = None \/ ri_TxnHash input = ""%string ->
      verified_as t input false "unverified"
  | state_asked verifyTransaction amount w w' answer :
      ri_VerifiedOnchain input = None -> ri_VerificationStatus input = None ->
      cs_horizon s = Some verifyTransaction -> ri_TxnHash input <> ""%string ->
      money.FromFloat64 (ri_Amount input) = Ok amount -> tables_of w = t ->
      verifyTransaction (ri_TxnHash input) (cs_masterPublicKey s)
        (String.string_of_list_ascii (money.String amount)) w = (answer, w') ->
      answer = Ok true \/ (exists e, answer = Err e) ->
      verified_as t input (is_ok answer) (if is_ok answer then "verified" else "pending").

(** The payouts of the round have not been scheduled: the caller does not say
    so, nor does the checker, if there is one and it could be asked. *)
Definition not_scheduled (t : tables) (input : RecordInput) : Prop :=
  ri_PayoutScheduled input = false /\
  forall isScheduled, cs_payoutChecker s = Some isScheduled -> exists w r w', tables_of w = t /\
    isScheduled (ri_CircleID input) (ri_RoundNumber input) w = (r, w') /\ r <> Ok true.

(** With a circle service: an active member of a visible circle that has not
    ended, on time for the rounds it has reached. *)
Definition eligible (t : tables) (input : RecordInput) (circleUID userUID : uuid)
    (onTime : bool) : Prop :=
  match cs_circleService s with
  | None => onTime = (1 <=? ri_RoundNumber input)
  | Some _ => exists cir m, visible_circle t circleUID = Some cir /\ ended cir = false /\
      t_members t !! (circleUID, userUID) = Some m /\ m_Status m = MemberStatusActive /\
      onTime = (1 <=? ri_RoundNumber input) && (ri_RoundNumber input <=? c_CurrentRound cir)
  end.

Definition record_rel (now : time) (new : uuid) (input : RecordInput) (t : tables)
    (r : result Contribution) (t' : tables) : Prop :=
  match r with
  | Ok c =>
      with_hash (ri_TxnHash input) t = Some c /\ t' = t \/
      exists circleUID userUID verified status onTime,
        uuid_Parse (ri_CircleID input) = Some circleUID /\
        uuid_Parse (ri_UserID input) = Some userUID /\
        c = new_contribution now new circleUID userUID input verified status onTime /\
        not_scheduled t input /\ verified_as t input verified status /\
        eligible t input circleUID userUID onTime /\
        existsb (clash c) (t_contributions t) = false /\
        t' = set_contributions (cons c) t
  | Err _ => t' = t
  | Panic => False
  end.

Lemma payout_guard_wp input w ev (Q : result unit -> St W -> Prop) :
  (forall w', tables_of w' = tables_of w -> not_scheduled (tables_of w) input ->
     Q (Ok tt) (w', ev)) ->
  (forall e w', tables_of w' = tables_of w -> Q (Err e) (w', ev)) ->
  wp (payout_guard s input) (w, ev) Q.
Proof.
  intros Hok Herr. unfold payout_guard, not_scheduled in *.
  apply wp_bind, wp_guard; intros Hs; [by apply Herr|].
  destruct (cs_payoutChecker s) as [isScheduled|] eqn:E; [|by apply Hok].
  apply wp_try, wp_repo, wp_of_run. intros r w' Er.
  destruct (payoutChecker_law _ _ _ _ _ _ E Er) as [Ht Hr].
  destruct r as [b|e|]; [| |done]; apply wp_guard; intros Hb; try (by apply Herr);
    (apply Hok; [done|]; split; [done|]; intros ? [= <-]; eexists w, _, w'; split_and!; [done|exact Er|]).
  - by intros [= ->].
  - done.
Qed.

Lemma ended_guard_wp input w ev (Q : result unit -> St W -> Prop) :
  (forall w', tables_of w' = tables_of w ->
     (cs_circleService s <> None -> exists uid cir, uuid_Parse (ri_CircleID input) = Some uid /\
        visible_circle (tables_of w) uid = Some cir /\ ended cir = false) -> Q (Ok tt) (w', ev)) ->
  (forall e w', tables_of w' = tables_of w -> Q (Err e) (w', ev)) ->
  wp (ended_guard s input) (w, ev) Q.
Proof.
  intros Hok Herr. unfold ended_guard. destruct (cs_circleService s); [|by apply Hok].
  apply wp_bind, wp_wrap, (Get_wp tables_of); [|intros; by apply Herr].
  intros uid cir w' Hid Hv Ht. apply wp_guard; intros He; [by apply Herr|].
  apply Hok; [done|]. intros _. eauto.
Qed.

Lemma find_recorded_wp h w ev (Q : result (option Contribution) -> St W -> Prop) :
  (forall o w', tables_of w' = tables_of w ->
     (forall c, o = Some c -> with_hash h (tables_of w) = Some c) -> Q (Ok o) (w', ev)) ->
  wp (find_recorded h) (w, ev) Q.
Proof.
  intros HQ. unfold find_recorded. apply wp_try, wp_repo.
  eapply wp_found; [apply FindByTxnHash_law|..].
  - intros c w' Hc Ht. apply wp_ret, HQ; [done|]. by intros ? [= <-].
  - intros w' _ Ht. by apply wp_ret, HQ.
  - intros e w' _ Ht. by apply wp_ret, HQ.
Qed.

Lemma verify_wp input w ev (Q : result (bool * string) -> St W -> Prop) :
  (forall v w', tables_of w' = tables_of w -> verified_as (tables_of w) input v.1 v.2 ->
     Q (Ok v) (w', ev)) ->
  (forall e w', tables_of w' = tables_of w -> Q (Err e) (w', ev)) ->
  wp (verify s input) (w, ev) Q.
Proof.
  intros Hok Herr. unfold verify.
  assert (forall o st, ri_VerifiedOnchain input = o -> ri_VerificationStatus input = st ->
    cs_horizon s = None \/ ri_TxnHash input = ""%string \/ is_Some o \/ is_Some st ->
    Q (Ok (default false o, default VerificationStatusUnverified st)) (w, ev)) as Hgiven.
  { intros o st Ho Hst Hor. apply Hok; [done|]. cbn.
    destruct (decide (is_Some o \/ is_Some st)) as [Hs|Hs].
    - rewrite <-Ho, <-Hst in *. by constructor.
    - destruct o, st; [by exfalso; eauto..|]. apply state_unasked; [done..|].
      destruct Hor as [?|[?|?]]; [by left|by right|tauto]. }
  destruct (cs_horizon s) as [vt|] eqn:Eh; [|by apply wp_ret, Hgiven; auto].
  destruct (ri_VerifiedOnchain input) eqn:Ev; [by apply wp_ret, Hgiven; eauto|].
  destruct (ri_VerificationStatus input) eqn:Es; [by apply wp_ret, Hgiven; eauto|].
  case_decide; [by apply wp_ret, Hgiven; auto|]. apply wp_bind, wp_wrap, wp_lift.
  destruct (money.FromFloat64 (ri_Amount input)) as [amount|e|] eqn:Ea; cbn [wrap_err].
  2: { by apply Herr. }
  2: { exfalso. by eapply Money.FromFloat64_no_panic. }
  apply wp_try, wp_repo, wp_of_run. intros r w' Er.
  destruct (horizon_law _ _ _ _ _ _ _ Eh Er) as [Ht Hp]. destruct r as [[]|e|]; [| | |done].
  - apply wp_ret, Hok; [done|].
    eapply (state_asked _ _ vt amount w w' (Ok true)); eauto.
  - by apply wp_fail, Herr.
  - apply wp_ret, Hok; [done|].
    eapply (state_asked _ _ vt amount w w' (Err e)); eauto.
Qed.

Lemma on_time_wp input w ev cid uid (Q : result bool -> St W -> Prop) :
  uuid_Parse (ri_CircleID input) = Some cid -> uuid_Parse (ri_UserID input) = Some uid ->
  (cs_circleService s <> None -> exists u cir, uuid_Parse (ri_CircleID input) = Some u /\
     visible_circle (tables_of w) u = Some cir /\ ended cir = false) ->
  (forall b w', tables_of w' = tables_of w -> eligible (tables_of w) input cid uid b ->
     Q (Ok b) (w', ev)) ->
  (forall e w', tables_of w' = tables_of w -> Q (Err e) (w', ev)) ->
  wp (on_time s input) (w, ev) Q.
Proof.
  intros Hc Hu Hopen Hok Herr. unfold on_time. unfold eligible in Hok.
  destruct (cs_circleService s) as [svc|]; [|by apply Hok].
  destruct Hopen as (u & cir & Hu' & Hv & He); [done|]. simplify_eq.
  apply wp_bind, wp_wrap, (IsMember_wp tables_of); [|intros; by apply Herr].
  intros cid' uid' b w1 Hc' Hu'' Ht1 Hm. simplify_eq.
  apply wp_bind, wp_guard; intros Hb; [by apply Herr|]. destruct b; [|done].
  destruct (Hm eq_refl) as (m & Hm1 & Hm2).
  apply wp_bind, wp_wrap, (Get_wp tables_of); [|intros; apply Herr; congruence].
  intros u c w2 Hu3 Hv2 Ht2. apply wp_ret, Hok; [congruence|]. rewrite Ht1 in Hv2. simplify_eq.
  by exists cir, m.
Qed.

Lemma save_wp input c w ev (Q : result Contribution -> St W -> Prop) :
  (forall w' ev', existsb (clash c) (t_contributions (tables_of w)) = false ->
     tables_of w' = set_contributions (cons c) (tables_of w) -> Q (Ok c) (w', ev')) ->
  (forall c' w', with_hash (ri_TxnHash input) (tables_of w) = Some c' ->
     tables_of w' = tables_of w -> Q (Ok c') (w', ev)) ->
  (forall e w', tables_of w' = tables_of w -> Q (Err e) (w', ev)) ->
  wp (save s input c) (w, ev) Q.
Proof.
  intros Hnew Hold Herr. unfold save. apply wp_try, wp_repo.
  eapply wp_write; [exact (Create_law c)|..].
  - intros w' Hc Ht. apply wp_bind, wp_emit, wp_ret.
    apply Hnew; [|done]. revert Hc. cbn. by destruct (existsb (clash c) _).
  - intros e w' _ Ht. case_decide; [|by apply Herr].
    apply wp_bind, find_recorded_wp. intros o w2 Ht2 Ho.
    destruct o as [c'|]; [|apply Herr; congruence].
    apply wp_ret, Hold; [|congruence]. rewrite <-Ht. by apply Ho.
Qed.

Lemma RecordContribution_wp now new input w ev :
  wp (RecordContribution s now new input) (w, ev) (λ r st,
    record_rel now new input (tables_of w) r (tables_of st.1)).
Proof.
  unfold RecordContribution. apply wp_bind, wp_cparse; [|done]. intros cid Hc.
  apply wp_bind, wp_cparse; [|done]. intros uid Hu.
  apply wp_bind, payout_guard_wp; [|by intros e w1 Ht1]. intros w1 Ht1 Hns.
  apply wp_bind, ended_guard_wp; [|intros e w2 Ht2; cbn; congruence].
  intros w2 Ht2 Hopen. apply wp_bind.
  assert (forall w3, tables_of w3 = tables_of w ->
    wp (let! v := verify s input in let! onTime := on_time s input in
        save s input (new_contribution now new cid uid input v.1 v.2 onTime)) (w3, ev)
      (λ r st, record_rel now new input (tables_of w) r (tables_of st.1))) as Hrest.
  { intros w3 Ht3. apply wp_bind, verify_wp; [|intros e w4 Ht4; cbn; congruence].
    intros v w4 Ht4 Hv. rewrite Ht3 in Hv. apply wp_bind, (on_time_wp input w4 ev cid uid); [done|done|by rewrite Ht4, Ht3, <-Ht1|..].
    2: { intros e w5 Ht5. cbn. congruence. }
    intros b w5 Ht5 Hb. rewrite Ht4, Ht3 in Hb. apply save_wp; rewrite Ht5, Ht4, Ht3.
    - intros w6 ev' Hn Ht6. right. by exists cid, uid, v.1, v.2, b.
    - intros c' w6 Hh Ht6. by left.
    - by intros e w6 Ht6. }
  assert (tables_of w2 = tables_of w) as Ht by congruence.
  case_decide; [by apply wp_ret, Hrest|].
  apply find_recorded_wp. intros o w3 Ht3 Ho. destruct o as [c|]; [|apply Hrest; congruence].
  apply wp_ret. left. cbn. split; [|congruence]. rewrite <-Ht. by apply Ho.
Qed.

(** ** A payment over time *)

(** The identity of a recorded payment. *)
Definition payment (c : Contribution) : uuid * uuid * uuid * Z * float64 * option string :=
  (rct_ID c, rct_CircleID c, rct_UserID c, rct_RoundNumber c, rct_Amount c, rct_TxnHash c).

(** Records, updates of the verification state, and whatever else runs without
    writing the contributions. *)
Inductive contribution_steps : St W -> St W -> Prop :=
  | steps_nil st : contribution_steps st st
  | steps_record st now new input r st1 st2 :
      RecordContribution s now new input st = (r, st1) ->
      contribution_steps st1 st2 -> contribution_steps st st2
  | steps_verification st now id verified status r st1 st2 :
      UpdateVerification now id verified status st = (r, st1) ->
      contribution_steps st1 st2 -> contribution_steps st st2
  | steps_other st st1 st2 :
      t_contributions (tables_of st1.1) = t_contributions (tables_of st.1) ->
      contribution_steps st1 st2 -> contribution_steps st st2.

Definition has_payment (h : string) (p : uuid * uuid * uuid * Z * float64 * option string)
    (t : tables) : Prop := exists c, with_hash h t = Some c /\ payment c = p.

Lemma with_hash_set h f t :
  with_hash h (set_contributions f t) =
  head (filter (λ c, rct_TxnHash c = Some h) (f (t_contributions t))).
Proof. done. Qed.

Lemma record_rel_keeps now new input t r t' h p :
  record_rel now new input t r t' -> has_payment h p t -> has_payment h p t'.
Proof.
  intros Hr (c & Hc & Hp). destruct r as [d| |]; cbn in Hr; [|subst; by exists c|done].
  destruct Hr as [[_ ->]|(cid & uid & v & st & b & _ & _ & Hd & _ & _ & _ & Hn & ->)]; [by exists c|].
  exists c. split; [|done]. rewrite with_hash_set, filter_cons_False; [done|].
  intros Hh. unfold with_hash in Hc. apply head_Some_elem_of, list_elem_of_filter in Hc as [Hhc Hc].
  apply not_true_iff_false in Hn. apply Hn, existsb_exists. exists c.
  split; [by apply list_elem_of_In|]. unfold clash. rewrite (bool_decide_eq_true_2 (is_Some _ /\ _)).
  - by rewrite orb_true_r.
  - rewrite Hh, Hhc. eauto.
Qed.

Lemma update_wp now id verified status w ev h p :
  has_payment h p (tables_of w) ->
  wp (UpdateVerification now id verified status) (w, ev)
    (λ _ st, has_payment h p (tables_of st.1)).
Proof.
  intros Hp. unfold UpdateVerification. apply wp_bind, wp_cparse; [|done]. intros uid _.
  apply wp_repo. eapply wp_write; [exact (UpdateVerification_law uid verified status now)|..].
  - intros w' _ Ht. cbn. rewrite Ht. destruct Hp as (c & Hc & <-). unfold has_payment, with_hash in *.
    cbn [set_contributions t_contributions]. match goal with |- context [map ?g _] => set (f := g) end.
    assert (forall d, rct_TxnHash (f d) = rct_TxnHash d) as Hf.
    { intros d. unfold f. by case_decide. }
    exists (f c). split; [|unfold f; by case_decide].
    induction (t_contributions (tables_of w)) as [|d l IH]; [done|]. cbn [map].
    rewrite filter_cons in Hc. rewrite filter_cons, Hf. case_decide; [by injection Hc as ->|].
    by apply IH.
  - intros e w' _ Ht. cbn. by rewrite Ht.
Qed.

Lemma steps_keep_payment st st' h p :
  contribution_steps st st' -> has_payment h p (tables_of st.1) ->
  has_payment h p (tables_of st'.1).
Proof.
  induction 1 as [|[w ev] now new input r st1 st2 E _ IH|[w ev] now id v x r st1 st2 E _ IH
                  |st st1 st2 E _ IH]; intros Hp; [done|apply IH..].
  - eapply record_rel_keeps; [|exact Hp].
    exact (wp_run _ _ _ _ _ (RecordContribution_wp now new input w ev) E).
  - exact (wp_run _ _ _ _ _ (update_wp now id v x w ev h p Hp) E).
  - unfold has_payment, with_hash in *. by rewrite E.
Qed.

Lemma record_rel_replays now new input t c t' p :
  ri_TxnHash input <> ""%string -> has_payment (ri_TxnHash input) p t ->
  record_rel now new input t (Ok c) t' -> payment c = p /\ t' = t.
Proof.
  intros Hne Hp. cbn. intros [[Hc ->]|(cid & uid & v & st & b & _ & _ & Hd & _ & _ & _ & Hn & ->)].
  - destruct Hp as (c' & Hc' & <-). by simplify_eq.
  - exfalso. destruct Hp as (c' & Hc' & _). unfold with_hash in Hc'.
    apply head_Some_elem_of, list_elem_of_filter in Hc' as [Hh Hc'].
    apply not_true_iff_false in Hn. apply Hn, existsb_exists. exists c'.
    split; [by apply list_elem_of_In|]. unfold clash. rewrite (bool_decide_eq_true_2 (is_Some _ /\ _)).
    + by rewrite orb_true_r.
    + subst c. cbn. unfold null_string. rewrite decide_False by done. eauto.
Qed.

(** C7: A record either returns the row already stored for the transaction and
    changes nothing, or stores exactly one new row: for an active member of a
    circle that has not ended, in a round whose payouts nobody reports as
    scheduled, marked on time exactly for the rounds the circle has reached, in
    the verification state the caller gives or, when it gives none, verified by
    Horizon for the exact amount, pending while Horizon cannot be asked, and
    unverified only without Horizon or without a transaction (a payment Horizon
    denies is never stored), and different from every stored row in its key and
    its transaction.  A failed record changes nothing. *)
Theorem RecordContribution_refines now new input w ev r st :
  RecordContribution s now new input (w, ev) = (r, st) ->
  record_rel now new input (tables_of w) r (tables_of st.1).
Proof. intros E. exact (wp_run _ _ _ _ _ (RecordContribution_wp now new input w ev) E). Qed.

(** A transaction is recorded once: after a successful record of a transaction,
    whatever runs in between, every successful record of the same transaction
    returns the same payment and stores nothing, whoever submits it and for
    whichever circle: the second submitter receives the first one's row. *)
Theorem transaction_recorded_once now new input w ev c st1 st2 now' new' input' c' st3 :
  ri_TxnHash input <> ""%string ->
  RecordContribution s now new input (w, ev) = (Ok c, st1) ->
  contribution_steps st1 st2 ->
  ri_TxnHash input' = ri_TxnHash input ->
  RecordContribution s now' new' input' st2 = (Ok c', st3) ->
  payment c' = payment c /\ tables_of st3.1 = tables_of st2.1.
Proof.
  intros Hne E1 Hsteps Hh E2.
  pose proof (wp_run _ _ _ _ _ (RecordContribution_wp now new input w ev) E1) as Hr1.
  assert (has_payment (ri_TxnHash input) (payment c) (tables_of st1.1)) as Hp1.
  { cbn in Hr1. destruct Hr1 as [[Hc ->]|(cid & uid & v & x & b & _ & _ & Hd & _ & _ & _ & Hn & ->)].
    - by exists c.
    - exists c. split; [|done]. rewrite with_hash_set, filter_cons_True; [done|].
      subst c. cbn. unfold null_string. by rewrite decide_False. }
  eapply steps_keep_payment in Hp1; [|exact Hsteps]. destruct st2 as [w2 ev2].
  pose proof (wp_run _ _ _ _ _ (RecordContribution_wp now' new' input' w2 ev2) E2) as Hr2.
  rewrite <-Hh in Hne, Hp1. eapply record_rel_replays; [done|exact Hp1|exact Hr2].
Qed.
End spec.
End contribution.
