(* ===== verification/ContributionPg.v ===== *)
(** The PostgreSQL repository of contributions
    (src/internal/domain/contribution/repository_pg.go), the proof that it keeps
    the contract of [Contribution], and the runs at which its guarantees apply. *)
From S2P Require Export Contribution.
From stdpp Require Import options.
#[local] Set Default Proof Using "Type*".
Open Scope Z_scope.
Local Open Scope go_scope.

Module contributionpg.
Import contribution.

(** ** Constraints: the enum [contribution_status] and the time columns *)
Definition status_enum (status : string) : bool :=
  bool_decide (status ∈ [StatusPending; StatusConfirmed; StatusFailed]).

Definition by_contribution_desc (c d : Contribution) : Prop :=
  rct_CreatedAt d <= rct_CreatedAt c.
#[export] Instance by_contribution_desc_dec c d : Decision (by_contribution_desc c d).
Proof. unfold by_contribution_desc. apply _. Defined.

Section repository_pg.
Context `{SnapshotSchema}.

Abbreviation CM := (M (PgState tables)).

Definition scanContribution (row : CM Contribution) : CM (option Contribution) :=
  gtry row (λ r,
    match r with
    | inl c => gret (Some c)
    | inr err =>
        if decide (err = sql_ErrNoRows) then gfail apperrors_ErrNotFound
        else gfail (Wrapf "scanning contribution row: %w" err)
    end).

(** A [SELECT] of all the columns that returns its first row. *)
Definition first_row (q : tables -> option Contribution) : CM Contribution :=
  let! r := with_columns q in match r with Some c => gret c | None => gfail sql_ErrNoRows end.

Definition pg_FindByID (id : uuid) : CM (option Contribution) :=
  scanContribution (first_row (λ t, head (filter (λ c, rct_ID c = id) (t_contributions t)))).

Definition pg_FindByCircleAndUser (circleID userID : uuid) : CM (option Contribution) :=
  scanContribution (first_row (λ t, head (merge_sort by_contribution_desc
    (filter (λ c, rct_CircleID c = circleID /\ rct_UserID c = userID) (t_contributions t))))).

Definition pg_FindByTxnHash (txnHash : string) : CM (option Contribution) :=
  scanContribution (first_row (with_hash txnHash)).

Definition pg_Create (c : Contribution) : CM unit :=
  or_conflict apperrors_ErrConflict "creating contribution: %w" (pg_insert
    (λ t, if negb timestamp_columns then Some "42703"%string
          else if negb (status_enum (rct_Status c)) then Some "22P02"%string
          else if existsb (clash c) (t_contributions t) then Some "23505"%string else None)
    (set_contributions (cons c))).

Definition has_row (id : uuid) (t : tables) : bool :=
  existsb (λ c, bool_decide (rct_ID c = id)) (t_contributions t).

Definition update_row (id : uuid) (f : Contribution -> Contribution) : tables -> tables :=
  set_contributions (map (λ c, if decide (rct_ID c = id) then f c else c)).

(** The status is written with the text of the hash, empty or not. *)
Definition pg_UpdateStatus (id : uuid) (status txnHash : string) (now : time) : CM unit :=
  or_missing apperrors_ErrNotFound (gwrap "updating contribution status: %w" (pg_exec (λ t,
    if negb timestamp_columns then inr "42703"%string
    else if negb (status_enum status) then inr "22P02"%string
    else if negb (has_row id t) then inl (0, t)
    else if existsb (λ c, negb (bool_decide (rct_ID c = id)) &&
                          bool_decide (rct_TxnHash c = Some txnHash)) (t_contributions t)
    then inr "23505"%string
    else inl (1, update_row id (contribution_status status (Some txnHash) now) t)))).

Definition pg_UpdateVerificationStatus (id : uuid) (verified : bool) (status : string)
    (now : time) : CM unit :=
  or_missing apperrors_ErrNotFound (gwrap "updating contribution verification status: %w"
    (pg_exec (λ t,
       if negb timestamp_columns then inr "42703"%string
       else if has_row id t
       then inl (1, update_row id (contribution_verification verified status now) t)
       else inl (0, t)))).

(** A page of the rows that satisfy [P], the newest first, with their number. *)
Definition list_page (what : string) (P : Contribution -> bool) (page limit : Z) :
    CM (list Contribution * Z) :=
  let page := if page <? 1 then 1 else page in
  let limit := if (limit <? 1) || (100 <? limit) then 20 else limit in
  let offset := wrap64 (wrap64 (page - 1) * limit) in
  let! total := gwrap ("counting " ++ what ++ " contributions: %w")%string
    (pg_select (λ t, Z.of_nat (length (filter P (t_contributions t))))) in
  let! rows := gwrap ("listing " ++ what ++ " contributions: %w")%string (pg_exec (λ t,
    if negb timestamp_columns then inr "42703"%string
    else if offset <? 0 then inr "2201X"%string
    else inl (take (Z.to_nat limit) (drop (Z.to_nat offset)
           (merge_sort by_contribution_desc (filter P (t_contributions t)))), t))) in
  gret (rows, total).

Definition pg_ListByUser (userID : uuid) (page limit : Z) : CM (list Contribution * Z) :=
  list_page "user" (λ c, bool_decide (rct_UserID c = userID)) page limit.
Definition pg_ListByCircle (circleID : uuid) (page limit : Z) : CM (list Contribution * Z) :=
  list_page "circle" (λ c, bool_decide (rct_CircleID c = circleID)) page limit.

#[export] Instance contribution_pg : ContributionRepository (PgState tables) := {
  FindByID := pg_FindByID;
  FindByCircleAndUser := pg_FindByCircleAndUser;
  FindByTxnHash := pg_FindByTxnHash;
  Create := pg_Create;
  UpdateStatus := pg_UpdateStatus;
  UpdateVerificationStatus := pg_UpdateVerificationStatus;
  ListByUser := pg_ListByUser;
  ListByCircle := pg_ListByCircle;
}.

#[local] Hint Unfold scanContribution first_row with_columns : pg.

Lemma pg_FindByTxnHash_law txnHash : implements pg_tables (pg_FindByTxnHash txnHash)
  (found apperrors_ErrNotFound (with_hash txnHash)).
Proof. unfold pg_FindByTxnHash. pg_law. Qed.

Lemma pg_Create_contribution_law c : implements pg_tables (pg_Create c) (write
  (λ t, if existsb (clash c) (t_contributions t) then Some apperrors_ErrConflict else None)
  (set_contributions (cons c))).
Proof. unfold pg_Create. pg_law. Qed.

Lemma pg_UpdateVerification_law id verified status now :
  implements pg_tables (pg_UpdateVerificationStatus id verified status now) (write
    (λ t, if existsb (λ c, bool_decide (rct_ID c = id)) (t_contributions t) then None
          else Some apperrors_ErrNotFound)
    (set_contributions (map (λ c, if decide (rct_ID c = id)
                                   then contribution_verification verified status now c else c)))).
Proof. unfold pg_UpdateVerificationStatus, has_row, update_row. pg_law. Qed.

#[export] Instance contribution_pg_laws : ContributionLaws (PgState tables) pg_tables := {
  FindByTxnHash_law := pg_FindByTxnHash_law;
  Create_law := pg_Create_contribution_law;
  UpdateVerification_law := pg_UpdateVerification_law;
}.
End repository_pg.

(** ** A schema without the time columns *)
Section migrated.
Context `{PgDialect, TextMatch, SnapshotSchema, UUIDLib, GoFloatConv}.
Variable s : service (PgState tables).

Lemma find_recorded_migrated h (st : St (PgState tables)) :
  timestamp_columns = false -> wp (find_recorded h) st (λ r _, r = Ok None).
Proof.
  intros Hc. destruct st as [w ev]. unfold find_recorded. apply wp_try, wp_repo.
  cbn. unfold pg_FindByTxnHash, scanContribution, first_row, with_columns. rewrite Hc.
  apply wp_try, wp_bind, wp_pg_exec; [done|]. intros code w' _. by rewrite decide_False.
Qed.

(** While [contributions] lacks the columns [created_at] and [updated_at], which
    no migration adds, no record succeeds. *)
Theorem contribution_needs_columns now new input st :
  timestamp_columns = false ->
  is_ok (RecordContribution s now new input st).1 = false.
Proof.
  intros Hc.
  enough (wp (RecordContribution s now new input) st (λ r _, is_ok r = false)) as Hw.
  { unfold wp in Hw. by destruct (RecordContribution s now new input st). }
  unfold RecordContribution. do 4 (apply wp_bind_any; [intros ? ?|done|done]).
  apply wp_bind. case_decide; [apply wp_ret|
    eapply wp_mono; [by apply find_recorded_migrated|intros r st' ->]].
  all: do 2 (apply wp_bind_any; [intros ? ?|done|done]); unfold save; apply wp_try.
  all: match goal with |- wp (repo _) ?st _ => destruct st as [w2 ev2] end; apply wp_repo; cbn.
  all: unfold pg_Create, or_conflict; apply wp_try, wp_pg_insert; [by rewrite Hc|].
  all: intros code w3 _; apply wp_fail; case_decide; [|done].
  all: apply wp_bind; eapply wp_mono; [by apply find_recorded_migrated|]; by intros r st3 ->.
Qed.
End migrated.

(** ** Runs over the tables of a started circle *)
#[local] Existing Instance accepting.
#[local] Existing Instance with_time_columns.

(** Horizon knows the transaction "t1" of ten units. *)
Definition demo_horizon (h key amount : string) : M (PgState tables) bool :=
  gret (bool_decide (h = "t1" /\ amount = "10.0000000")%string).

Definition demo_service : service (PgState tables) :=
  {| cs_broadcaster := true; cs_horizon := Some demo_horizon; cs_payoutChecker := None;
     cs_masterPublicKey := "GMASTER"; cs_circleService := Some demo |}.

#[export] Instance demo_laws : CollaboratorLaws pg_tables demo_service.
Proof. split; [|done]. by intros vt h k a w r w' [= <-] [= <- <-]. Qed.

Definition demo_record (user : string) (txn : string) : RecordInput :=
  {| ri_CircleID := "xxxxxxx"; ri_UserID := user; ri_RoundNumber := 1;
     ri_Amount := f64_of_Z 10; ri_TxnHash := txn; ri_PayoutScheduled := false;
     ri_VerifiedOnchain := None; ri_VerificationStatus := None |}.

Definition paid : result Contribution * St (PgState tables) :=
  RecordContribution demo_service 200 40%N (demo_record "x" "t1") active_world.
Definition paid_row : Contribution :=
  new_contribution 200 40%N 7%N 1%N (demo_record "x" "t1") true VerificationStatusVerified true.
Definition resubmitted := RecordContribution demo_service 201 41%N (demo_record "xx" "t1") paid.2.

Lemma demo_paid :
  RecordContribution demo_service 200 40%N (demo_record "x" "t1") (active_world.1, active_world.2) =
  (Ok paid_row, paid.2).
Proof. by vm_compute. Qed.

Lemma RecordContribution_refines_witness :
  record_rel pg_tables demo_service 200 40%N (demo_record "x" "t1") (pg_tables active_world.1)
    (Ok paid_row) (pg_tables paid.2.1).
Proof. exact (RecordContribution_refines pg_tables demo_service _ _ _ _ _ _ _ demo_paid). Defined.

(** Another member submits the same transaction. *)
Lemma transaction_recorded_once_witness :
  exists c', resubmitted.1 = Ok c' /\ payment c' = payment paid_row /\
    pg_tables resubmitted.2.1 = pg_tables paid.2.1.
Proof.
  exists paid_row. split; [by vm_compute|].
  apply (transaction_recorded_once pg_tables demo_service 200 40%N (demo_record "x" "t1")
    active_world.1 active_world.2 paid_row paid.2 paid.2 201 41%N (demo_record "xx" "t1") paid_row
    resubmitted.2); [done|exact demo_paid|constructor|done|by vm_compute].
Defined.

Lemma contribution_needs_columns_witness :
  is_ok (RecordContribution (H0 := contribution_pg (H := migrated)) demo_service 200 40%N
    (demo_record "x" "t1") active_world).1 = false.
Proof. by apply (contribution_needs_columns (H1 := migrated)). Defined.
End contributionpg.
