(* ===== verification/Payout.v ===== *)
(** Payouts (src/internal/domain/payout): the service and its PostgreSQL
    repository, over the circle service and the tables of the circles. *)
From S2P Require Export ContributionPg.
From stdpp Require Import options.
#[local] Set Default Proof Using "Type*".
Open Scope Z_scope.
Local Open Scope go_scope.

Module payout.

(** ** model.go *)
Definition PayoutTypeRandom : string := "random".
Definition PayoutTypeFixed : string := "fixed".
Definition PayoutTypeAuction : string := "auction".
Definition PayoutTypeVote : string := "vote".

Record Payout := {
  po_ID : uuid;
  po_CircleID : uuid;
  po_RecipientID : uuid;
  po_RoundNumber : Z;
  po_Amount : float64;
  po_FeeAmount : float64;
  po_TxnHash : option string;
  po_PayoutType : string;
  po_VerifiedOnchain : bool;
  po_VerificationStatus : string;
  po_CreatedAt : time;
  po_UpdatedAt : time;
  po_OnTime : bool;
}.

(** The zero [time.Time]. *)
Definition zero_time : time := 0.

(** The columns a query selects: [updated_at] and [on_time] are not among them,
    so the fields keep their zero values. *)
Definition of_row (r : rawPayout) : Payout :=
  {| po_ID := rp_ID r; po_CircleID := rp_CircleID r; po_RecipientID := rp_RecipientID r;
     po_RoundNumber := rp_RoundNumber r; po_Amount := rp_Amount r;
     po_FeeAmount := rp_FeeAmount r; po_TxnHash := rp_TxnHash r;
     po_PayoutType := rp_PayoutType r; po_VerifiedOnchain := rp_VerifiedOnchain r;
     po_VerificationStatus := rp_VerificationStatus r; po_CreatedAt := rp_CreatedAt r;
     po_UpdatedAt := zero_time; po_OnTime := false |}.

(** The columns of the INSERT. *)
Definition row_of (p : Payout) : rawPayout :=
  {| rp_ID := po_ID p; rp_CircleID := po_CircleID p; rp_RecipientID := po_RecipientID p;
     rp_RoundNumber := po_RoundNumber p; rp_Amount := po_Amount p;
     rp_FeeAmount := po_FeeAmount p; rp_TxnHash := po_TxnHash p;
     rp_PayoutType := po_PayoutType p; rp_VerifiedOnchain := po_VerifiedOnchain p;
     rp_VerificationStatus := po_VerificationStatus p; rp_CreatedAt := po_CreatedAt p;
     rp_UpdatedAt := zero_time |}.

Definition set_payouts (f : list rawPayout -> list rawPayout) (t : tables) : tables :=
  {| t_circles := t_circles t; t_members := t_members t; t_penalties := t_penalties t;
     t_contributions := t_contributions t; t_payouts := f (t_payouts t);
     t_disputes := t_disputes t; t_votes := t_votes t; t_bids := t_bids t;
     t_configs := t_configs t |}.

Definition payout_verification (verified : bool) (status : string) (r : rawPayout) : rawPayout :=
  {| rp_ID := rp_ID r; rp_CircleID := rp_CircleID r; rp_RecipientID := rp_RecipientID r;
     rp_RoundNumber := rp_RoundNumber r; rp_Amount := rp_Amount r;
     rp_FeeAmount := rp_FeeAmount r; rp_TxnHash := rp_TxnHash r;
     rp_PayoutType := rp_PayoutType r; rp_VerifiedOnchain := verified;
     rp_VerificationStatus := status; rp_CreatedAt := rp_CreatedAt r;
     rp_UpdatedAt := rp_UpdatedAt r |}.

(** ** repository.go *)
Class PayoutRepository (W : Type) := {
  FindByID : uuid -> M W (option Payout);
  FindByTxnHash : string -> M W (option Payout);
  Create : Payout -> M W unit;
  UpdateVerificationStatus : uuid -> bool -> string -> M W unit;
  ListByUser : uuid -> Z -> Z -> M W (list Payout * Z);
  ListByCircle : uuid -> Z -> Z -> M W (list Payout * Z);
}.

(** The unique constraints of [payouts]: the primary key and the transaction.
    Nothing keeps apart two payouts to one recipient in one round. *)
Definition clash (r d : rawPayout) : bool :=
  bool_decide (rp_ID r = rp_ID d) ||
  bool_decide (is_Some (rp_TxnHash r) /\ rp_TxnHash r = rp_TxnHash d).

Definition paid_with (txnHash : string) (t : tables) : option rawPayout :=
  head (filter (λ r, rp_TxnHash r = Some txnHash) (t_payouts t)).

Definition by_payout_desc (r d : rawPayout) : Prop := rp_CreatedAt d <= rp_CreatedAt r.
#[export] Instance by_payout_desc_dec r d : Decision (by_payout_desc r d).
Proof. unfold by_payout_desc. apply _. Defined.

Definition page_of (P : rawPayout -> bool) (page limit : Z) (t : tables) : list Payout :=
  let page := if page <? 1 then 1 else page in
  let limit := if (limit <? 1) || (100 <? limit) then 20 else limit in
  let offset := wrap64 (wrap64 (page - 1) * limit) in
  of_row <$> take (Z.to_nat limit) (drop (Z.to_nat offset)
    (merge_sort by_payout_desc (filter P (t_payouts t)))).

Definition of_circle (circleID : uuid) (r : rawPayout) : bool :=
  bool_decide (rp_CircleID r = circleID).

Class PayoutLaws (W : Type) `{PayoutRepository W} (tables_of : W -> tables) : Prop := {
  FindByTxnHash_law txnHash : implements tables_of (FindByTxnHash txnHash)
    (found apperrors_ErrNotFound (λ t, of_row <$> paid_with txnHash t));
  Create_law p : implements tables_of (Create p) (write
    (λ t, if existsb (clash (row_of p)) (t_payouts t) then Some apperrors_ErrConflict else None)
    (set_payouts (cons (row_of p))));
  UpdateVerification_law id verified status :
    implements tables_of (UpdateVerificationStatus id verified status) (write
      (λ t, if existsb (λ r, bool_decide (rp_ID r = id)) (t_payouts t) then None
            else Some apperrors_ErrNotFound)
      (set_payouts (map (λ r, if decide (rp_ID r = id)
                               then payout_verification verified status r else r))));
  ListByCircle_law circleID : refines tables_of (ListByCircle circleID 1 100) (λ t r t',
    t' = t /\ match r with Ok l => l.1 = page_of (of_circle circleID) 1 100 t
                         | Err e => infra e = true | Panic => False end);
}.

(** ** service.go *)
Record RecordInput := {
  pi_CircleID : string;
  pi_RecipientID : string;
  pi_RoundNumber : Z;
  pi_Amount : float64;
  pi_FeeAmount : float64;
  pi_TxnHash : string;
  pi_PayoutType : string;
  pi_VerifiedOnchain : option bool;
  pi_VerificationStatus : option string;
}.

Record service (W : Type) := {
  ps_horizon : option (string -> string -> string -> M W bool);
  ps_walletLookup : option (uuid -> M W string);
  ps_circleService : option (circleService W);
}.
Arguments ps_horizon {W} _.
Arguments ps_walletLookup {W} _.
Arguments ps_circleService {W} _.

Definition not_a_recipient : error := Errorf "recipient is not a member of this circle".
Definition verification_failed (txnHash : string) : error :=
  Errorf ("on-chain verification failed: txnHash " ++ txnHash ++
          " does not match recipient/amount")%string.

Section service.
Context {W : Type} `{CircleRepo.Repository W, PayoutRepository W, UUIDLib, GoFloatConv}.
Variable s : service W.

Definition find_paid (txnHash : string) : M (St W) (option Payout) :=
  gtry (repo (FindByTxnHash txnHash)) (λ r,
    gret (match r with inl existing => existing | inr _ => None end)).

Definition on_time (input : RecordInput) : M (St W) bool :=
  let valid := 1 <=? pi_RoundNumber input in
  match ps_circleService s with
  | None => gret valid
  | Some _ =>
      let! member := gwrap "checking membership: %w"
        (IsMember (pi_CircleID input) (pi_RecipientID input)) in
      do! gguard (negb member) not_a_recipient in
      let! cir := gwrap "getting circle: %w" (Get (pi_CircleID input)) in
      gret (valid && (pi_RoundNumber input <=? c_CurrentRound cir))
  end.

Definition resolveRecipientWallet (recipientUID : uuid) : M (St W) string :=
  match ps_walletLookup s with
  | None => gfail (Errorf "no wallet lookup available")
  | Some lookup => repo (lookup recipientUID)
  end.

Definition verify (input : RecordInput) (recipientUID : uuid) : M (St W) (bool * string) :=
  let verified := default false (pi_VerifiedOnchain input) in
  let status := default contribution.VerificationStatusUnverified (pi_VerificationStatus input) in
  match ps_horizon s, pi_VerifiedOnchain input, pi_VerificationStatus input with
  | Some verifyPayment, None, None =>
      if decide (pi_TxnHash input = ""%string) then gret (verified, status) else
      gtry (resolveRecipientWallet recipientUID) (λ r,
        match r with
        | inr _ => gret (verified, contribution.VerificationStatusPending)
        | inl wallet =>
            let! amount := gwrap "invalid payout amount: %w"
              (glift (money.FromFloat64 (pi_Amount input))) in
            gtry (repo (verifyPayment (pi_TxnHash input) wallet
                    (String.string_of_list_ascii (money.String amount)))) (λ r,
              match r with
              | inr _ => gret (verified, contribution.VerificationStatusPending)
              | inl false => gfail (verification_failed (pi_TxnHash input))
              | inl true => gret (true, contribution.VerificationStatusVerified)
              end)
        end)
  | _, _, _ => gret (verified, status)
  end.

Definition same_round (recipientUID : uuid) (round : Z) (p : Payout) : Prop :=
  po_RecipientID p = recipientUID /\ po_RoundNumber p = round.
#[export] Instance same_round_dec u n p : Decision (same_round u n p).
Proof. unfold same_round. apply _. Defined.

(** The first of the hundred newest payouts of the circle to the recipient in
    the round; an error of the query counts as no payout. *)
Definition find_round (circleUID recipientUID : uuid) (round : Z) : M (St W) (option Payout) :=
  gtry (repo (ListByCircle circleUID 1 100)) (λ r,
    gret (head (filter (same_round recipientUID round)
                  (match r with inl l => l.1 | inr _ => [] end)))).

Definition new_payout (now : time) (new circleUID recipientUID : uuid) (input : RecordInput)
    (verified : bool) (status : string) (onTime : bool) : Payout :=
  {| po_ID := new; po_CircleID := circleUID; po_RecipientID := recipientUID;
     po_RoundNumber := pi_RoundNumber input; po_Amount := pi_Amount input;
     po_FeeAmount := pi_FeeAmount input; po_TxnHash := null_string (pi_TxnHash input);
     po_PayoutType := pi_PayoutType input; po_VerifiedOnchain := verified;
     po_VerificationStatus := status; po_CreatedAt := now; po_UpdatedAt := now;
     po_OnTime := onTime |}.

Definition save (input : RecordInput) (p : Payout) : M (St W) Payout :=
  gtry (repo (Create p)) (λ r,
    match r with
    | inl _ => gret p
    | inr err =>
        let failed := gfail (Wrapf "saving payout: %w" err) in
        if decide (err = apperrors_ErrConflict /\ pi_TxnHash input <> ""%string) then
          let! existing := find_paid (pi_TxnHash input) in
          match existing with Some p => gret p | None => failed end
        else failed
    end).

Definition RecordPayout (now : time) (new : uuid) (input : RecordInput) : M (St W) Payout :=
  let! circleUID := glift (contribution.parse "invalid circleID: %w" (pi_CircleID input)) in
  let! recipientUID := glift (contribution.parse "invalid recipientID: %w" (pi_RecipientID input)) in
  let! existing := if decide (pi_TxnHash input = ""%string) then gret None
                   else find_paid (pi_TxnHash input) in
  match existing with
  | Some p => gret p
  | None =>
      let! onTime := on_time input in
      let! v := verify input recipientUID in
      let! duplicate := find_round circleUID recipientUID (pi_RoundNumber input) in
      match duplicate with
      | Some p => gret p
      | None => save input (new_payout now new circleUID recipientUID input v.1 v.2 onTime)
      end
  end.

Definition GetUserHistory (userID : string) (page limit : Z) : M (St W) (list Payout * Z) :=
  let! uid := glift (contribution.parse "invalid userID: %w" userID) in
  repo (ListByUser uid page limit).

Definition GetCircleHistory (circleID : string) (page limit : Z) : M (St W) (list Payout * Z) :=
  let! cid := glift (contribution.parse "invalid circleID: %w" circleID) in
  repo (ListByCircle cid page limit).

Definition UpdateVerification (id : string) (verified : bool) (status : string) : M (St W) unit :=
  let! uid := glift (contribution.parse "invalid payout ID: %w" id) in
  repo (UpdateVerificationStatus uid verified status).
End service.

(** ** What a call does *)
Class CollaboratorLaws {W} (tables_of : W -> tables) (s : service W) : Prop := {
  horizon_law verifyPayment h k a w r w' : ps_horizon s = Some verifyPayment ->
    verifyPayment h k a w = (r, w') -> tables_of w' = tables_of w /\ r <> Panic;
  walletLookup_law lookup u w r w' : ps_walletLookup s = Some lookup ->
    lookup u w = (r, w') -> tables_of w' = tables_of w /\ r <> Panic;
}.

Section spec.
Context {W : Type} `{CircleRepo.Repository W, PayoutRepository W, UUIDLib, GoFloatConv}.
Context `{Transactor W, TextMatch}.
Context (tables_of : W -> tables) `{!CircleRepo.RepositoryLaws W tables_of}.
Context `{!PayoutLaws W tables_of}.
Context (s : service W) `{!CollaboratorLaws tables_of s}.

(** The wallet of the recipient, as the lookup of the service answers. *)
Definition wallet_answer (t : tables) (recipientUID : uuid) (r : result string) : Prop :=
  match ps_walletLookup s with
  | None => exists e, r = Err e
  | Some lookup => exists w w', tables_of w = t /\ lookup recipientUID w = (r, w')
  end.

(** The verification state of a new row: the caller's, unverified without
    Horizon or without a transaction; otherwise Horizon has been asked for the
    transaction, the wallet of this recipient and the exact text of the amount
    and confirmed the payment, or the wallet or Horizon could not be asked and
    the row waits.  A payment Horizon denies has no state. *)
Inductive verified_as (t : tables) (input : RecordInput) (recipientUID : uuid) :
    bool -> string -> Prop :=
  | state_given :
      is_Some (pi_VerifiedOnchain input) \/ is_Some (pi_VerificationStatus input) ->
      verified_as t input recipientUID (default false (pi_VerifiedOnchain input))
        (default "unverified" (pi_VerificationStatus input))
  | state_unasked :
      pi_VerifiedOnchain input = None -> pi_VerificationStatus input = None ->
      ps_horizon s = None \/ pi_TxnHash input = ""%string ->
      verified_as t input recipientUID false "unverified"
  | state_no_wallet e :
      pi_VerifiedOnchain input = None -> pi_VerificationStatus input = None ->
      is_Some (ps_horizon s) -> pi_TxnHash input <> ""%string ->
      wallet_answer t recipientUID (Err e) ->
      verified_as t input recipientUID false "pending"
  | state_asked verifyPayment wallet amount w w' answer :
      pi_VerifiedOnchain input = None -> pi_VerificationStatus input = None ->
      ps_horizon s = Some verifyPayment -> pi_TxnHash input <> ""%string ->
      wallet_answer t recipientUID (Ok wallet) ->
      money.FromFloat64 (pi_Amount input) = Ok amount -> tables_of w = t ->
      verifyPayment (pi_TxnHash input) wallet
        (String.string_of_list_ascii (money.String amount)) w = (answer, w') ->
      answer = Ok true \/ (exists e, answer = Err e) ->
      verified_as t input recipientUID (is_ok answer)
        (if is_ok answer then "verified" else "pending").

Definition eligible (t : tables) (input : RecordInput) (circleUID recipientUID : uuid)
    (onTime : bool) : Prop :=
  match ps_circleService s with
  | None => onTime = (1 <=? pi_RoundNumber input)
  | Some _ => exists cir m, visible_circle t circleUID = Some cir /\
      t_members t !! (circleUID, recipientUID) = Some m /\ m_Status m = MemberStatusActive /\
      onTime = (1 <=? pi_RoundNumber input) && (pi_RoundNumber input <=? c_CurrentRound cir)
  end.

(** No payout to the recipient in the round among the hundred newest ones of the
    circle, or a failure of the query that would have shown it. *)
Definition not_paid_yet (t : tables) (circleUID recipientUID : uuid) (round : Z) : Prop :=
  (forall p, p ∈ page_of (of_circle circleUID) 1 100 t -> ~ same_round recipientUID round p) \/
  exists w err w', tables_of w = t /\ ListByCircle circleUID 1 100 w = (Err err, w').

Definition record_rel (now : time) (new : uuid) (input : RecordInput) (t : tables)
    (r : result Payout) (t' : tables) : Prop :=
  match r with
  | Ok p =>
      t' = t /\
        ((exists row, paid_with (pi_TxnHash input) t = Some row /\ p = of_row row) \/
         exists circleUID recipientUID,
           uuid_Parse (pi_CircleID input) = Some circleUID /\
           uuid_Parse (pi_RecipientID input) = Some recipientUID /\
           p ∈ page_of (of_circle circleUID) 1 100 t /\
           same_round recipientUID (pi_RoundNumber input) p) \/
      exists circleUID recipientUID verified status onTime,
        uuid_Parse (pi_CircleID input) = Some circleUID /\
        uuid_Parse (pi_RecipientID input) = Some recipientUID /\
        p = new_payout now new circleUID recipientUID input verified status onTime /\
        verified_as t input recipientUID verified status /\
        eligible t input circleUID recipientUID onTime /\
        not_paid_yet t circleUID recipientUID (pi_RoundNumber input) /\
        existsb (clash (row_of p)) (t_payouts t) = false /\
        t' = set_payouts (cons (row_of p)) t
  | Err _ => t' = t
  | Panic => False
  end.

Lemma find_paid_wp h w ev (Q : result (option Payout) -> St W -> Prop) :
  (forall o w', tables_of w' = tables_of w ->
     (forall p, o = Some p -> exists row, paid_with h (tables_of w) = Some row /\ p = of_row row) ->
     Q (Ok o) (w', ev)) ->
  wp (find_paid h) (w, ev) Q.
Proof.
  intros HQ. unfold find_paid. apply wp_try, wp_repo.
  eapply wp_found; [apply FindByTxnHash_law|..].
  - intros x w' Hx Ht. apply wp_ret, HQ; [done|]. intros p [= <-].
    apply fmap_Some in Hx as (row & ? & ->). eauto.
  - intros w' _ Ht. by apply wp_ret, HQ.
  - intros e w' _ Ht. by apply wp_ret, HQ.
Qed.

Lemma payout_on_time_wp input w ev cid uid (Q : result bool -> St W -> Prop) :
  uuid_Parse (pi_CircleID input) = Some cid -> uuid_Parse (pi_RecipientID input) = Some uid ->
  (forall b w', tables_of w' = tables_of w -> eligible (tables_of w) input cid uid b ->
     Q (Ok b) (w', ev)) ->
  (forall e w', tables_of w' = tables_of w -> Q (Err e) (w', ev)) ->
  wp (on_time s input) (w, ev) Q.
Proof.
  intros Hc Hu Hok Herr. unfold on_time. unfold eligible in Hok.
  destruct (ps_circleService s) as [svc|]; [|by apply Hok].
  apply wp_bind, wp_wrap, (IsMember_wp tables_of); [|intros; by apply Herr].
  intros cid' uid' b w1 Hc' Hu'' Ht1 Hm. simplify_eq.
  apply wp_bind, wp_guard; intros Hb; [by apply Herr|]. destruct b; [|done].
  destruct (Hm eq_refl) as (m & Hm1 & Hm2).
  apply wp_bind, wp_wrap, (Get_wp tables_of); [|intros; apply Herr; congruence].
  intros u c w2 Hu3 Hv2 Ht2. apply wp_ret, Hok; [congruence|]. rewrite Ht1 in Hv2. simplify_eq.
  by exists c, m.
Qed.

Lemma wallet_wp uid w ev (Q : result string -> St W -> Prop) :
  (forall r w', tables_of w' = tables_of w -> r <> Panic ->
     wallet_answer (tables_of w) uid r -> Q r (w', ev)) ->
  wp (resolveRecipientWallet s uid) (w, ev) Q.
Proof.
  intros HQ. unfold resolveRecipientWallet, wallet_answer in *.
  destruct (ps_walletLookup s) as [lookup|] eqn:El; [|by apply HQ; [..|eexists]].
  apply wp_repo, wp_of_run. intros r w1 Er.
  destruct (walletLookup_law _ _ _ _ _ El Er) as [Ht Hp]. apply HQ; [done..|]. by exists w, w1.
Qed.

Lemma payout_verify_wp input uid w ev (Q : result (bool * string) -> St W -> Prop) :
  (forall v w', tables_of w' = tables_of w -> verified_as (tables_of w) input uid v.1 v.2 ->
     Q (Ok v) (w', ev)) ->
  (forall e w', tables_of w' = tables_of w -> Q (Err e) (w', ev)) ->
  wp (verify s input uid) (w, ev) Q.
Proof.
  intros Hok Herr. unfold verify.
  assert (forall o st, pi_VerifiedOnchain input = o -> pi_VerificationStatus input = st ->
    ps_horizon s = None \/ pi_TxnHash input = ""%string \/ is_Some o \/ is_Some st ->
    Q (Ok (default false o, default contribution.VerificationStatusUnverified st)) (w, ev))
    as Hgiven.
  { intros o st Ho Hst Hor. apply Hok; [done|]. cbn.
    destruct (decide (is_Some o \/ is_Some st)) as [Hs|Hs].
    - rewrite <-Ho, <-Hst in *. by constructor.
    - destruct o, st; [by exfalso; eauto..|]. apply state_unasked; [done..|].
      destruct Hor as [?|[?|?]]; [by left|by right|tauto]. }
  destruct (ps_horizon s) as [vp|] eqn:Eh; [|by apply wp_ret, Hgiven; auto].
  destruct (pi_VerifiedOnchain input) eqn:Ev; [by apply wp_ret, Hgiven; eauto|].
  destruct (pi_VerificationStatus input) eqn:Es; [by apply wp_ret, Hgiven; eauto|].
  case_decide; [by apply wp_ret, Hgiven; auto|]. apply wp_try, wallet_wp.
  intros r w1 Ht1 Hp1 Hw. destruct r as [wallet|e|]; [| |done].
  2: { apply wp_ret, Hok; [done|]. eapply state_no_wallet; eauto. }
  apply wp_bind, wp_wrap, wp_lift.
  destruct (money.FromFloat64 (pi_Amount input)) as [amount|e|] eqn:Ea; cbn [wrap_err].
  2: { by apply Herr. }
  2: { exfalso. by eapply Money.FromFloat64_no_panic. }
  apply wp_try, wp_repo, wp_of_run. intros r w2 Er.
  destruct (horizon_law _ _ _ _ _ _ _ Eh Er) as [Ht Hp]. destruct r as [[]|e|]; [| | |done].
  - apply wp_ret, Hok; [congruence|].
    eapply (state_asked _ _ _ vp wallet amount w1 w2 (Ok true)); eauto.
  - apply wp_fail, Herr. congruence.
  - apply wp_ret, Hok; [congruence|].
    eapply (state_asked _ _ _ vp wallet amount w1 w2 (Err e)); eauto.
Qed.

Lemma find_round_wp cid uid round w ev (Q : result (option Payout) -> St W -> Prop) :
  (forall p w', tables_of w' = tables_of w ->
     p ∈ page_of (of_circle cid) 1 100 (tables_of w) -> same_round uid round p ->
     Q (Ok (Some p)) (w', ev)) ->
  (forall w', tables_of w' = tables_of w -> not_paid_yet (tables_of w) cid uid round ->
     Q (Ok None) (w', ev)) ->
  wp (find_round cid uid round) (w, ev) Q.
Proof.
  intros Hs Hn. unfold find_round. apply wp_try, wp_repo, wp_of_run. intros r w1 E.
  pose proof (ListByCircle_law cid _ _ _ E) as [Ht Hr]. destruct r as [l|e|]; [| |done].
  - apply wp_ret. rewrite Hr. destruct (head _) as [p|] eqn:Hp.
    + apply head_Some_elem_of, list_elem_of_filter in Hp as [Hsame Hin]. by apply Hs.
    + apply Hn; [done|]. left. intros p Hin Hsame.
      destruct (filter (same_round uid round) (page_of (of_circle cid) 1 100 (tables_of w))) eqn:El;
        [|done].
      assert (p ∈ []) as Hbad by (rewrite <-El; by apply list_elem_of_filter).
      by apply elem_of_nil in Hbad.
  - apply wp_ret. cbn. apply Hn; [done|]. right. by exists w, e, w1.
Qed.

Lemma payout_save_wp input p w ev (Q : result Payout -> St W -> Prop) :
  (forall w', existsb (clash (row_of p)) (t_payouts (tables_of w)) = false ->
     tables_of w' = set_payouts (cons (row_of p)) (tables_of w) -> Q (Ok p) (w', ev)) ->
  (forall row w', paid_with (pi_TxnHash input) (tables_of w) = Some row ->
     tables_of w' = tables_of w -> Q (Ok (of_row row)) (w', ev)) ->
  (forall e w', tables_of w' = tables_of w -> Q (Err e) (w', ev)) ->
  wp (save input p) (w, ev) Q.
Proof.
  intros Hnew Hold Herr. unfold save. apply wp_try, wp_repo.
  eapply wp_write; [exact (Create_law p)|..].
  - intros w' Hc Ht. apply wp_ret, Hnew; [|done]. revert Hc. cbn.
    by destruct (existsb (clash (row_of p)) _).
  - intros e w' _ Ht. case_decide; [|by apply Herr].
    apply wp_bind, find_paid_wp. intros o w2 Ht2 Ho.
    destruct o as [q|]; [|apply Herr; congruence].
    destruct (Ho q eq_refl) as (row & Hrow & ->).
    apply wp_ret, Hold; [|congruence]. by rewrite <-Ht.
Qed.

Lemma RecordPayout_wp now new input w ev :
  wp (RecordPayout s now new input) (w, ev) (λ r st,
    record_rel now new input (tables_of w) r (tables_of st.1)).
Proof.
  unfold RecordPayout. apply wp_bind, contribution.wp_cparse; [|done]. intros cid Hc.
  apply wp_bind, contribution.wp_cparse; [|done]. intros uid Hu. apply wp_bind.
  assert (forall w1, tables_of w1 = tables_of w ->
    wp (let! onTime := on_time s input in
        let! v := verify s input uid in
        let! duplicate := find_round cid uid (pi_RoundNumber input) in
        match duplicate with
        | Some p => gret p
        | None => save input (new_payout now new cid uid input v.1 v.2 onTime)
        end) (w1, ev)
      (λ r st, record_rel now new input (tables_of w) r (tables_of st.1))) as Hrest.
  { intros w1 Ht1.
    apply wp_bind, (payout_on_time_wp input w1 ev cid uid); [done|done| |intros e w2 Ht2; cbn; congruence].
    intros b w2 Ht2 Hb. rewrite Ht1 in Hb.
    apply wp_bind, payout_verify_wp; [|intros e w3 Ht3; cbn; congruence]. intros v w3 Ht3 Hv.
    rewrite Ht2, Ht1 in Hv.
    assert (tables_of w3 = tables_of w) as Ht by congruence.
    apply wp_bind, find_round_wp; rewrite Ht.
    - intros p w4 Ht4 Hin Hsame. apply wp_ret. left. split; [done|]. right. by exists cid, uid.
    - intros w4 Ht4 Hnot. apply payout_save_wp; rewrite Ht4.
      + intros w5 Hn Ht5. right. by exists cid, uid, v.1, v.2, b.
      + intros row w5 Hrow Ht5. left. split; [done|]. left. by exists row.
      + by intros e w5 Ht5. }
  case_decide; [by apply wp_ret, Hrest|].
  apply find_paid_wp. intros o w1 Ht1 Ho. destruct o as [p|]; [|by apply Hrest].
  apply wp_ret. left. split; [done|]. left. by apply Ho.
Qed.

(** C8: A payout is recorded like a contribution: the row of the transaction, or the
    payout the recipient already has in the round, or one new row for an active
    member, in the verification state the caller gives or, when it gives none,
    verified by Horizon against the wallet of this recipient and the exact
    amount, pending while the wallet or Horizon cannot be asked, and unverified
    only without Horizon or without a transaction (a payment Horizon denies is
    never stored), that differs from every stored row in its key and its
    transaction.  A failed record changes nothing. *)
Theorem RecordPayout_refines now new input w ev r st :
  RecordPayout s now new input (w, ev) = (r, st) ->
  record_rel now new input (tables_of w) r (tables_of st.1).
Proof. intros E. exact (wp_run _ _ _ _ _ (RecordPayout_wp now new input w ev) E). Qed.

Definition round_key (r : rawPayout) : uuid * uuid * Z :=
  (rp_CircleID r, rp_RecipientID r, rp_RoundNumber r).

End spec.
End payout.
