(* ===== verification/PayoutPg.v ===== *)
(** The PostgreSQL repository of payouts
    (src/internal/domain/payout/repository_pg.go), the proof that it keeps the
    contract of [Payout], the race of two records, and runs of the service. *)
From S2P Require Export Payout.
From stdpp Require Import options.
#[local] Set Default Proof Using "Type*".
Open Scope Z_scope.
Local Open Scope go_scope.

Module payoutpg.
Import payout.

(** Whether [payouts] has the column [created_at]; the migrations give it
    [executed_at] instead. *)
Section repository_pg.
Context `{SnapshotSchema}.

Abbreviation PM := (M (PgState tables)).

Definition scanPayout (row : PM Payout) : PM (option Payout) :=
  gtry row (λ r,
    match r with
    | inl p => gret (Some p)
    | inr err =>
        if decide (err = sql_ErrNoRows) then gfail apperrors_ErrNotFound
        else gfail (Wrapf "scanning payout row: %w" err)
    end).

Definition first_payout (q : tables -> option rawPayout) : PM Payout :=
  let! r := with_columns (λ t, of_row <$> q t) in
  match r with Some p => gret p | None => gfail sql_ErrNoRows end.

Definition pg_FindByID (id : uuid) : PM (option Payout) :=
  scanPayout (first_payout (λ t, head (filter (λ r, rp_ID r = id) (t_payouts t)))).

Definition pg_FindByTxnHash (txnHash : string) : PM (option Payout) :=
  scanPayout (first_payout (paid_with txnHash)).

Definition pg_Create (p : Payout) : PM unit :=
  or_conflict apperrors_ErrConflict "creating payout: %w" (pg_insert
    (λ t, if negb timestamp_columns then Some "42703"%string
          else if existsb (clash (row_of p)) (t_payouts t) then Some "23505"%string else None)
    (set_payouts (cons (row_of p)))).

Definition pg_UpdateVerificationStatus (id : uuid) (verified : bool) (status : string) : PM unit :=
  or_missing apperrors_ErrNotFound (gwrap "updating payout verification status: %w" (pg_update
    (λ _, None) (λ t, existsb (λ r, bool_decide (rp_ID r = id)) (t_payouts t))
    (set_payouts (map (λ r, if decide (rp_ID r = id)
                             then payout_verification verified status r else r))))).

Definition list_payouts (what : string) (P : rawPayout -> bool) (page limit : Z) :
    PM (list Payout * Z) :=
  let! total := gwrap ("counting " ++ what ++ " payouts: %w")%string
    (pg_select (λ t, Z.of_nat (length (filter P (t_payouts t))))) in
  let! rows := gwrap ("listing " ++ what ++ " payouts: %w")%string (pg_exec (λ t,
    if negb timestamp_columns then inr "42703"%string
    else if wrap64 (wrap64 ((if page <? 1 then 1 else page) - 1) *
                    (if (limit <? 1) || (100 <? limit) then 20 else limit)) <? 0
    then inr "2201X"%string
    else inl (page_of P page limit t, t))) in
  gret (rows, total).

Definition pg_ListByUser (userID : uuid) (page limit : Z) : PM (list Payout * Z) :=
  list_payouts "user" (λ r, bool_decide (rp_RecipientID r = userID)) page limit.
Definition pg_ListByCircle (circleID : uuid) (page limit : Z) : PM (list Payout * Z) :=
  list_payouts "circle" (of_circle circleID) page limit.

#[export] Instance payout_pg : PayoutRepository (PgState tables) := {
  FindByID := pg_FindByID;
  FindByTxnHash := pg_FindByTxnHash;
  Create := pg_Create;
  UpdateVerificationStatus := pg_UpdateVerificationStatus;
  ListByUser := pg_ListByUser;
  ListByCircle := pg_ListByCircle;
}.

#[local] Hint Unfold scanPayout first_payout with_columns : pg.

Lemma pg_FindByTxnHash_payout_law txnHash : implements pg_tables (pg_FindByTxnHash txnHash)
  (found apperrors_ErrNotFound (λ t, of_row <$> paid_with txnHash t)).
Proof. unfold pg_FindByTxnHash. pg_law. Qed.

Lemma pg_Create_payout_law p : implements pg_tables (pg_Create p) (write
  (λ t, if existsb (clash (row_of p)) (t_payouts t) then Some apperrors_ErrConflict else None)
  (set_payouts (cons (row_of p)))).
Proof. unfold pg_Create. pg_law. Qed.

Lemma pg_UpdateVerification_payout_law id verified status :
  implements pg_tables (pg_UpdateVerificationStatus id verified status) (write
    (λ t, if existsb (λ r, bool_decide (rp_ID r = id)) (t_payouts t) then None
          else Some apperrors_ErrNotFound)
    (set_payouts (map (λ r, if decide (rp_ID r = id)
                             then payout_verification verified status r else r)))).
Proof. unfold pg_UpdateVerificationStatus. pg_law. Qed.

Lemma pg_ListByCircle_law circleID : refines pg_tables (pg_ListByCircle circleID 1 100) (λ t r t',
  t' = t /\ match r with Ok l => l.1 = page_of (of_circle circleID) 1 100 t
                       | Err e => infra e = true | Panic => False end).
Proof.
  intros w r w' E. refine (wp_run _ _ (λ r w', _) _ _ _ E).
  unfold pg_ListByCircle, list_payouts. apply wp_bind, wp_wrap, wp_pg_select; [|done].
  intros w1 Ht1. apply wp_bind, wp_wrap, wp_pg_exec; [|by intros code w2 ->].
  intros l t w2 Hq Ht2. apply wp_ret. cbn in Hq. destruct (negb timestamp_columns); [done|].
  injection Hq as <- <-. rewrite Ht2, Ht1. done.
Qed.

#[export] Instance payout_pg_laws : PayoutLaws (PgState tables) pg_tables := {
  FindByTxnHash_law := pg_FindByTxnHash_payout_law;
  Create_law := pg_Create_payout_law;
  UpdateVerification_law := pg_UpdateVerification_payout_law;
  ListByCircle_law := pg_ListByCircle_law;
}.

(** ** Two records of one payout *)
Lemma save_clean input p t ev :
  timestamp_columns = true -> existsb (clash (row_of p)) (t_payouts t) = false ->
  save input p (connection t, ev) =
  (Ok p, (connection (set_payouts (cons (row_of p)) t), ev)).
Proof.
  intros Hc Hn. unfold save, gtry, repo. cbn.
  unfold pg_Create, or_conflict, gtry, pg_insert, pg_exec. cbn. by rewrite Hc, Hn.
Qed.

Lemma find_round_clean cid uid round t ev :
  timestamp_columns = true ->
  find_round cid uid round (connection t, ev) =
  (Ok (head (filter (same_round uid round) (page_of (of_circle cid) 1 100 t))),
   (connection t, ev)).
Proof.
  intros Hc. unfold find_round, gtry, repo. cbn. unfold pg_ListByCircle, list_payouts.
  unfold gbind, gwrap, pg_select, pg_exec. cbn. by rewrite Hc.
Qed.

(** Nothing in the database keeps a recipient from being paid twice in a round:
    two records that both look for an earlier payout before either of them
    stores its own, with two transactions, both store a payout. *)
Theorem payout_race cid uid round inputA inputB pA pB t ev :
  timestamp_columns = true ->
  (forall p, p ∈ page_of (of_circle cid) 1 100 t -> ~ same_round uid round p) ->
  same_round uid round pA -> same_round uid round pB ->
  po_CircleID pA = cid -> po_CircleID pB = cid ->
  existsb (clash (row_of pA)) (t_payouts t) = false ->
  existsb (clash (row_of pB)) (row_of pA :: t_payouts t) = false ->
  exists t',
    (let! a := find_round cid uid round in
     let! b := find_round cid uid round in
     let! _ := save inputA pA in
     let! _ := save inputB pB in gret (a, b)) (connection t, ev) =
      (Ok (None, None), (connection t', ev)) /\
    t_payouts t' = row_of pB :: row_of pA :: t_payouts t /\
    round_key (row_of pA) = round_key (row_of pB).
Proof.
  intros Hc Hnone HA HB HcA HcB HnA HnB.
  exists (set_payouts (cons (row_of pB)) (set_payouts (cons (row_of pA)) t)).
  assert (filter (same_round uid round) (page_of (of_circle cid) 1 100 t) = []) as Hf.
  { destruct (filter _ _) as [|p l] eqn:El; [done|]. assert (p ∈ p :: l) as Hp by by left.
    rewrite <-El in Hp. apply list_elem_of_filter in Hp as [Hs Hin]. by apply Hnone in Hin. }
  unfold gbind. rewrite !find_round_clean by done. rewrite Hf. cbn [head].
  rewrite save_clean by done. rewrite save_clean by done. split; [done|]. split; [done|].
  unfold round_key. destruct HA, HB. cbn. congruence.
Qed.
End repository_pg.

(** ** Runs over the tables of a started circle *)
#[local] Existing Instance accepting.
#[local] Existing Instance with_time_columns.

Definition demo_service : service (PgState tables) :=
  {| ps_horizon := Some (λ h k a, gret (bool_decide (k = "GX" /\ a = "20.0000000")%string));
     ps_walletLookup := Some (λ _, gret "GX"%string); ps_circleService := Some demo |}.

#[export] Instance demo_payout_laws : CollaboratorLaws pg_tables demo_service.
Proof.
  split.
  - by intros vp h k a w r w' [= <-] [= <- <-].
  - by intros lookup u w r w' [= <-] [= <- <-].
Qed.

Definition demo_payout (txn : string) : RecordInput :=
  {| pi_CircleID := "xxxxxxx"; pi_RecipientID := "xx"; pi_RoundNumber := 1;
     pi_Amount := f64_of_Z 20; pi_FeeAmount := f64_zero; pi_TxnHash := txn;
     pi_PayoutType := PayoutTypeVote; pi_VerifiedOnchain := None;
     pi_VerificationStatus := None |}.

Definition paid_out := RecordPayout demo_service 300 50%N (demo_payout "p1") active_world.
Definition demo_paid_out (new : uuid) (txn : string) : Payout :=
  new_payout 300 new 7%N 2%N (demo_payout txn) true contribution.VerificationStatusVerified true.

Lemma RecordPayout_refines_witness :
  record_rel pg_tables demo_service 300 50%N (demo_payout "p1") (pg_tables active_world.1)
    (Ok (demo_paid_out 50 "p1")) (pg_tables paid_out.2.1).
Proof.
  apply (RecordPayout_refines pg_tables demo_service 300 50%N (demo_payout "p1") active_world.1
    active_world.2 (Ok (demo_paid_out 50 "p1")) paid_out.2). by vm_compute.
Defined.

Lemma payout_race_witness : exists t',
  (let! a := find_round 7 2 1 in
   let! b := find_round 7 2 1 in
   let! _ := save (demo_payout "p1") (demo_paid_out 50 "p1") in
   let! _ := save (demo_payout "p2") (demo_paid_out 51 "p2") in gret (a, b))
    (connection empty_tables, []) = (Ok (None, None), (connection t', [])) /\
  t_payouts t' = [row_of (demo_paid_out 51 "p2"); row_of (demo_paid_out 50 "p1")] /\
  round_key (row_of (demo_paid_out 50 "p1")) = round_key (row_of (demo_paid_out 51 "p2")).
Proof.
  apply (payout_race 7 2 1); try done. intros p Hp. by apply elem_of_nil in Hp.
Defined.
End payoutpg.
