(* ===== verification/CircleTx.v ===== *)
(** The transactional writes of the indexer to the tables of a circle
    (src/internal/indexer/circle_tx.go): a contribution with the counters it
    moves, a payout with the round it closes. *)
From S2P Require Export PayoutPg.
From stdpp Require Import options.
#[local] Set Default Proof Using "Type*".
Open Scope Z_scope.
Local Open Scope go_scope.

Module circletx.

(** The addition of two [NUMERIC] values is the server's. *)
Class PgNumeric := { numeric_add : float64 -> float64 -> float64 }.

Definition ErrNoDatabase := Sentinel "indexer: no database handle".

(** The first eight bytes of the identifier, without the sign bit. *)
Definition circleLockKey (circleID : uuid) : Z :=
  let key := Z.land (Z.shiftr (Z.of_N circleID) 64) (Z.ldiff (2 ^ 64 - 1) (2 ^ 63)) in
  if int64_max <? key then int64_max else key.

Record RoundAdvance := { Advanced : bool; NextRound : Z }.
Definition no_advance : RoundAdvance := {| Advanced := false; NextRound := 0 |}.

Section statements.
Context `{PgNumeric}.

(** [sqlApplyContribution] and [sqlAdvanceRound]: the columns of the row, of a
    circle that is not deleted. *)
Definition counters (total : float64) (round : Z) (now : time) (c : Circle) : Circle :=
  {| c_ID := c_ID c; c_ContractID := c_ContractID c; c_CommunityID := c_CommunityID c;
     c_Name := c_Name c; c_Description := c_Description c; c_CircleType := c_CircleType c;
     c_PayoutType := c_PayoutType c; c_ContributionAmount := c_ContributionAmount c;
     c_Currency := c_Currency c; c_Frequency := c_Frequency c;
     c_MaxMembers := c_MaxMembers c; c_MinMoiScore := c_MinMoiScore c;
     c_CollateralPercent := c_CollateralPercent c; c_LateFeePercent := c_LateFeePercent c;
     c_GracePeriodHours := c_GracePeriodHours c; c_MaxStrikes := c_MaxStrikes c;
     c_MemberCount := c_MemberCount c; c_RequiresInvite := c_RequiresInvite c;
     c_StartDate := c_StartDate c; c_EndDate := c_EndDate c; c_Status := c_Status c;
     c_CurrentRound := round; c_TotalContributions := total;
     c_OrganizerID := c_OrganizerID c; c_CreatedAt := c_CreatedAt c;
     c_UpdatedAt := now; c_DeletedAt := c_DeletedAt c |}.

Definition where_visible (f : Circle -> Circle) (c : Circle) : Circle :=
  if not_deleted c then f c else c.

Definition apply_row (amount : float64) (complete : bool) (next : Z) (now : time) : Circle -> Circle :=
  where_visible (λ c, counters (numeric_add (c_TotalContributions c) amount)
    (if complete then Z.max (c_CurrentRound c) next else c_CurrentRound c) now c).

Definition advance_row (next : Z) (now : time) : Circle -> Circle :=
  where_visible (λ c, counters (c_TotalContributions c) (Z.max (c_CurrentRound c) next) now c).

(** [sqlCountRoundContributors] *)
Definition round_contributors (circleID : uuid) (round : Z) (t : tables) : Z :=
  Z.of_nat (size (list_to_set (C := gset uuid) (rct_UserID <$>
    filter (λ c, rct_CircleID c = circleID /\ rct_RoundNumber c = round) (t_contributions t)))).

(** The round of a contribution is complete. *)
Definition complete (contrib : contribution.Contribution) (t : tables) : bool :=
  let activeMembers := active_count t (rct_CircleID contrib) in
  (0 <? activeMembers) &&
  (activeMembers <=? round_contributors (rct_CircleID contrib) (rct_RoundNumber contrib) t).
End statements.

Section circle_tx.
Context `{PgNumeric, SnapshotSchema}.

(** [SELECT pg_advisory_xact_lock($1)]: the other transactions of the circle
    wait; the statement returns no row. *)
Definition lock_circle (circleID : uuid) : M (PgState tables) unit :=
  gwrap "acquiring circle advisory lock: %w" (pg_select (λ _, tt)).

Definition update_circle (id : uuid) (f : Circle -> Circle) : M (PgState tables) Z :=
  pg_update (λ _, None) (λ t, match t_circles t !! id with
                              | Some c => not_deleted c | None => false end)
    (set_circles (alter f id)).

Definition advanceRoundInTx (now : time) (contrib : contribution.Contribution) :
    M (PgState tables) RoundAdvance :=
  let id := rct_CircleID contrib in
  let! contributed := gwrap "counting round contributors: %w"
    (pg_select (round_contributors id (rct_RoundNumber contrib))) in
  let! activeMembers := gwrap "counting active members: %w"
    (pg_select (λ t, active_count t id)) in
  let complete := (0 <? activeMembers) && (activeMembers <=? contributed) in
  let next := wrap64 (rct_RoundNumber contrib + 1) in
  do! gwrap "applying contribution to circle: %w"
    (update_circle id (apply_row (rct_Amount contrib) complete next now)) in
  gret {| Advanced := complete; NextRound := next |}.

(** The parameter [db] is [p.db != nil]. *)
Definition applyContribution (db : bool) (now : time) (contrib : contribution.Contribution) :
    M (PgState tables) RoundAdvance :=
  if negb db then gfail ErrNoDatabase else
  pg_in_tx (Some "beginning contribution transaction: %w"%string)
           (Some "committing contribution: %w"%string) (
    do! lock_circle (rct_CircleID contrib) in
    do! contributionpg.pg_Create contrib in
    advanceRoundInTx now contrib).

Definition recordPayoutAndAdvance (db : bool) (now : time) (po : payout.Payout) :
    M (PgState tables) unit :=
  if negb db then gfail ErrNoDatabase else
  pg_in_tx (Some "beginning payout transaction: %w"%string)
           (Some "committing payout: %w"%string) (
    do! lock_circle (payout.po_CircleID po) in
    do! payoutpg.pg_Create po in
    do! gwrap "advancing circle round: %w" (update_circle (payout.po_CircleID po)
      (advance_row (wrap64 (payout.po_RoundNumber po + 1)) now)) in
    gret tt).

(** ** What the writes do *)

(** The contribution is new, and the counters are moved over the table that
    holds it. *)
Definition applied (now : time) (c : contribution.Contribution) (t : tables)
    (r : result RoundAdvance) (t' : tables) : Prop :=
  match r with
  | Ok advance =>
      let t1 := contribution.set_contributions (cons c) t in
      let next := wrap64 (rct_RoundNumber c + 1) in
      existsb (contribution.clash c) (t_contributions t) = false /\
      advance = {| Advanced := complete c t1; NextRound := next |} /\
      t' = set_circles (alter (apply_row (rct_Amount c) (complete c t1) next now)
                         (rct_CircleID c)) t1
  | Err _ => t' = t
  | Panic => False
  end.

Definition paid (now : time) (p : payout.Payout) (t : tables) (r : result unit) (t' : tables) :
    Prop :=
  match r with
  | Ok _ =>
      existsb (payout.clash (payout.row_of p)) (t_payouts t) = false /\
      t' = set_circles (alter (advance_row (wrap64 (payout.po_RoundNumber p + 1)) now)
                         (payout.po_CircleID p))
             (payout.set_payouts (cons (payout.row_of p)) t)
  | Err _ => t' = t
  | Panic => False
  end.

(** A row that the statement does not change stays as it is. *)
Lemma where_visible_miss f id (t : tables) :
  match t_circles t !! id with Some c => not_deleted c | None => false end = false ->
  alter (where_visible f) id (t_circles t) = t_circles t.
Proof.
  intros Hm. apply alter_id. intros c Hc. rewrite Hc in Hm. unfold where_visible. by rewrite Hm.
Qed.

Lemma set_circles_id f t : f (t_circles t) = t_circles t -> set_circles f t = t.
Proof. intros E. unfold set_circles. rewrite E. by destruct t. Qed.

Lemma wp_update_circle id f w (Q : result Z -> PgState tables -> Prop) :
  (forall n w', pg_tables w' = set_circles (alter (where_visible f) id) (pg_tables w) ->
     Q (Ok n) w') ->
  (forall code w', Q (Err (External code)) w') ->
  wp (update_circle id (where_visible f)) w Q.
Proof.
  intros Hok Herr. apply wp_pg_update; [by intros w' _ _ Hw; apply Hok|..|by intros; apply Herr].
  intros w' Hm Hw. apply Hok. rewrite Hw, set_circles_id; [done|]. by apply where_visible_miss.
Qed.

(** A statement that fails ends the transaction. *)
Definition weakly {A} (R : tables -> result A -> tables -> Prop) (t : tables) (r : result A)
    (t' : tables) : Prop :=
  match r with Ok _ => R t r t' | Err _ => True | Panic => False end.

Lemma atomic_weakly {A} (R : tables -> result A -> tables -> Prop) t r t' :
  (forall e, R t (Err e) t) -> atomic (weakly R) t r t' -> R t r t'.
Proof.
  intros He. destruct r; cbn; [done| |by intros [_ []]]. intros [-> _]. apply He.
Qed.

Lemma wp_lock_circle id w (Q : result unit -> PgState tables -> Prop) :
  (forall w', pg_tables w' = pg_tables w -> Q (Ok tt) w') ->
  (forall e w', Q (Err e) w') -> wp (lock_circle id) w Q.
Proof.
  intros Hok He. apply wp_wrap, wp_pg_select; [done|]. intros code w' _. apply He.
Qed.

Lemma wp_contribution_Create c w (Q : result unit -> PgState tables -> Prop) :
  (forall w', existsb (contribution.clash c) (t_contributions (pg_tables w)) = false ->
     pg_tables w' = contribution.set_contributions (cons c) (pg_tables w) -> Q (Ok tt) w') ->
  (forall e w', Q (Err e) w') -> wp (contributionpg.pg_Create c) w Q.
Proof.
  intros Hok He. apply wp_try, wp_pg_insert; [|by intros; apply He].
  intros w' Hc Hw. apply wp_ret, Hok; [|done]. by destruct timestamp_columns, (contributionpg.status_enum _), (existsb _ _).
Qed.

Lemma wp_payout_Create p w (Q : result unit -> PgState tables -> Prop) :
  (forall w', existsb (payout.clash (payout.row_of p)) (t_payouts (pg_tables w)) = false ->
     pg_tables w' = payout.set_payouts (cons (payout.row_of p)) (pg_tables w) -> Q (Ok tt) w') ->
  (forall e w', Q (Err e) w') -> wp (payoutpg.pg_Create p) w Q.
Proof.
  intros Hok He. apply wp_try, wp_pg_insert; [|by intros; apply He].
  intros w' Hc Hw. apply wp_ret, Hok; [|done]. by destruct timestamp_columns, (existsb _ _).
Qed.

(** The writes of a contribution land together, or none does. *)
Theorem applyContribution_refines db now c w r w' :
  applyContribution db now c w = (r, w') -> applied now c (pg_tables w) r (pg_tables w').
Proof.
  unfold applyContribution. destruct db; [|by intros [= <- <-]]. cbn [negb]. intros E.
  apply (pg_in_tx_law _ _ _ _ (weakly (applied now c))) in E.
  { by apply atomic_weakly in E. }
  clear. intros w r w'. apply (wp_run _ w (λ r w', weakly (applied now c) (pg_tables w) r (pg_tables w'))).
  apply wp_bind, wp_lock_circle; [|done]. intros w1 H1.
  apply wp_bind, wp_contribution_Create; [|done]. intros w2 Hn H2. rewrite H1 in *.
  apply wp_bind, wp_wrap, wp_pg_select; [|done]. intros w3 H3. cbn.
  apply wp_bind, wp_wrap, wp_pg_select; [|done]. intros w4 H4. cbn.
  apply wp_bind, wp_wrap, wp_update_circle; [|done]. intros n w5 H5. apply wp_ret. cbn.
  rewrite H5, H4, H3, H2. done.
Qed.

Theorem recordPayoutAndAdvance_refines db now p w r w' :
  recordPayoutAndAdvance db now p w = (r, w') -> paid now p (pg_tables w) r (pg_tables w').
Proof.
  unfold recordPayoutAndAdvance. destruct db; [|by intros [= <- <-]]. cbn [negb]. intros E.
  apply (pg_in_tx_law _ _ _ _ (weakly (paid now p))) in E.
  { by apply atomic_weakly in E. }
  clear. intros w r w'. apply (wp_run _ w (λ r w', weakly (paid now p) (pg_tables w) r (pg_tables w'))).
  apply wp_bind, wp_lock_circle; [|done]. intros w1 H1.
  apply wp_bind, wp_payout_Create; [|done]. intros w2 Hn H2. rewrite H1 in *.
  apply wp_bind, wp_wrap, wp_update_circle; [|done]. intros n w3 H3. apply wp_ret. cbn.
  rewrite H3, H2. done.
Qed.

(** ** A contribution is counted once *)

(** The contributions a sequence of events records; an event that fails is
    tried no more. *)
Fixpoint apply_all (events : list (time * contribution.Contribution)) (w : PgState tables) :
    list contribution.Contribution * PgState tables :=
  match events with
  | [] => ([], w)
  | (now, c) :: events =>
      match applyContribution true now c w with
      | (Ok _, w1) => let '(recorded, w2) := apply_all events w1 in (c :: recorded, w2)
      | (_, w1) => apply_all events w1
      end
  end.

Definition amounts_of (id : uuid) (l : list contribution.Contribution) : list float64 :=
  rct_Amount <$> filter (λ c, rct_CircleID c = id) l.

(** What a list of recorded contributions does to the tables. *)
Record counted (recorded : list contribution.Contribution) (t t' : tables) : Prop := {
  counted_rows : t_contributions t' = reverse recorded ++ t_contributions t;
  counted_once : NoDup (rct_TxnHash <$> recorded);
  counted_new : forall c d, c ∈ recorded -> d ∈ t_contributions t ->
    rct_TxnHash c <> rct_TxnHash d;
  counted_total : forall id row, t_circles t !! id = Some row -> not_deleted row = true ->
    exists row', t_circles t' !! id = Some row' /\ not_deleted row' = true /\
      c_TotalContributions row' =
        foldl numeric_add (c_TotalContributions row) (amounts_of id recorded) /\
      c_CurrentRound row <= c_CurrentRound row';
}.

Lemma counted_nil t : counted [] t t.
Proof.
  split; [done|constructor|by intros ?? ?%elem_of_nil|]. intros id row Hr Hd.
  exists row. cbn. split_and!; [done..|lia].
Qed.

Lemma no_clash_hash c d :
  is_Some (rct_TxnHash c) -> contribution.clash c d = false -> rct_TxnHash c <> rct_TxnHash d.
Proof.
  unfold contribution.clash. intros Hs Hc He. apply orb_false_iff in Hc as [_ Hc].
  apply bool_decide_eq_false in Hc. by apply Hc.
Qed.

Lemma existsb_false_elem {A} (f : A -> bool) l x : existsb f l = false -> x ∈ l -> f x = false.
Proof.
  intros Hf Hx. destruct (f x) eqn:E; [|done]. rewrite <-Hf. symmetry. apply existsb_exists.
  exists x. by rewrite list_elem_of_In in Hx.
Qed.

Lemma counted_cons now c advance t t1 recorded t' :
  is_Some (rct_TxnHash c) -> applied now c t (Ok advance) t1 -> counted recorded t1 t' ->
  counted (c :: recorded) t t'.
Proof.
  intros Hs (Hn & _ & ->) [Hrows Honce Hnew Htotal]. cbn in Hrows. split.
  - by rewrite Hrows, reverse_cons, <-app_assoc.
  - rewrite fmap_cons. constructor; [|done]. intros (d & Hd & Hin)%list_elem_of_fmap.
    by apply (Hnew d c); [|left|].
  - intros x d [->|Hx]%elem_of_cons Hd; [|by apply Hnew; [|right]].
    apply no_clash_hash; [done|]. by eapply existsb_false_elem.
  - intros id row Hr Hd. cbn [set_circles t_circles] in Htotal.
    unfold amounts_of. rewrite filter_cons. destruct (decide (rct_CircleID c = id)) as [<-|Hne].
    + destruct (Htotal (rct_CircleID c) (apply_row (rct_Amount c) (complete c (contribution.set_contributions
        (cons c) t)) (wrap64 (rct_RoundNumber c + 1)) now row)) as (row' & Hr' & Hd' & Ht & Hc).
      * rewrite lookup_alter_eq. cbn [contribution.set_contributions t_circles]. by rewrite Hr.
      * unfold apply_row, where_visible. by rewrite Hd.
      * exists row'. revert Ht Hc. unfold apply_row, where_visible. rewrite Hd. cbn.
        intros -> Hc. split_and!; [done..|]. destruct (complete _ _); lia.
    + apply Htotal; [|done]. by rewrite lookup_alter_ne.
Qed.

(** C33: Whatever events arrive, in whatever order, again or for the first time, and
    whatever statements fail: the rows added are the recorded contributions, no
    transaction is recorded twice, the total of a circle is its old total and the
    recorded amounts, and the round never goes back. *)
Theorem contributions_counted_once events w recorded w' :
  Forall (λ e, is_Some (rct_TxnHash e.2)) events ->
  apply_all events w = (recorded, w') -> counted recorded (pg_tables w) (pg_tables w').
Proof.
  intros Hh. revert w recorded. induction Hh as [|[now c] events Hc _ IH]; intros w recorded;
    cbn [apply_all].
  { intros [= <- <-]. apply counted_nil. }
  destruct (applyContribution true now c w) as [r w1] eqn:E.
  apply applyContribution_refines in E. destruct r as [adv|e|].
  - destruct (apply_all events w1) as [rest w2] eqn:E2. intros H1. simplify_eq.
    eapply counted_cons; [done|done|by apply IH].
  - intros E2. cbn in E. rewrite <-E. by apply IH.
  - by destruct E.
Qed.

(** ** A contribution recorded by the API *)
Section api.
#[local] Existing Instance contributionpg.contribution_pg.
#[local] Existing Instance contributionpg.contribution_pg_laws.
Context `{PgDialect, TextMatch, UUIDLib, GoFloatConv}.
Variable s : contribution.service (PgState tables).
Context `{!contribution.CollaboratorLaws pg_tables s}.

(** Once the service has recorded a transaction, the indexer's event of the same
    transaction is never applied: the total and the round of the circle do not
    count it. *)
Theorem api_contribution_never_counted now new input w ev c st st1 db now' e r w' :
  contribution.ri_TxnHash input <> ""%string ->
  contribution.RecordContribution s now new input (w, ev) = (Ok c, st) ->
  contribution.contribution_steps pg_tables s st st1 ->
  rct_TxnHash e = Some (contribution.ri_TxnHash input) ->
  applyContribution db now' e st1.1 = (r, w') ->
  is_ok r = false /\ pg_tables w' = pg_tables st1.1.
Proof.
  intros Hne E1 Hsteps He E2.
  pose proof (wp_run _ _ _ _ _ (contribution.RecordContribution_wp pg_tables s now new input w ev) E1)
    as Hr1. cbn in Hr1.
  assert (contribution.has_payment (contribution.ri_TxnHash input) (contribution.payment c)
            (pg_tables st.1)) as Hp.
  { destruct Hr1 as [[Hc ->]|(cid & uid & v & x & b & _ & _ & Hd & _ & _ & _ & Hn & ->)].
    - by exists c.
    - exists c. split; [|done]. rewrite contribution.with_hash_set, filter_cons_True; [done|].
      subst c. cbn. unfold null_string. by rewrite decide_False. }
  pose proof (contribution.steps_keep_payment pg_tables s _ _ _ _ Hsteps Hp) as Hp1. clear Hp.
  destruct Hp1 as (d & Hd & _). unfold contribution.with_hash in Hd.
  apply head_Some_elem_of, list_elem_of_filter in Hd as [Hh Hin].
  apply applyContribution_refines in E2. destruct r as [adv|err|]; [|by split|by destruct E2].
  exfalso. destruct E2 as (Hn & _). eapply existsb_false_elem in Hn; [|exact Hin].
  apply no_clash_hash in Hn; [congruence|]. by rewrite He.
Qed.
End api.
End circle_tx.

(** ** Runs *)
#[local] Existing Instance accepting.
#[local] Existing Instance with_time_columns.
#[local] Existing Instance contributionpg.contribution_pg.
#[local] Existing Instance contributionpg.contribution_pg_laws.
#[local] Existing Instance contributionpg.demo_laws.
#[local] Instance demo_numeric : PgNumeric := {| numeric_add := f64_add |}.

(** A contribution of ten units by a member of the circle 7. *)
Definition demo_contribution (new user : uuid) (round : Z) (txn : string) :
    contribution.Contribution :=
  {| rct_ID := new; rct_CircleID := 7; rct_UserID := user; rct_RoundNumber := round;
     rct_Amount := f64_of_Z 10; rct_TxnHash := Some txn;
     rct_Status := contribution.StatusConfirmed; rct_OnTime := true; rct_VerifiedOnchain := false;
     rct_VerificationStatus := ""; rct_CreatedAt := 0; rct_UpdatedAt := 0 |}%N.

Definition demo_payment_events : list (time * contribution.Contribution) :=
  [(300, demo_contribution 50 1 1 "e1"); (301, demo_contribution 51 2 1 "e2");
   (302, demo_contribution 52 2 1 "e2"); (303, demo_contribution 53 1 2 "e3")].
Definition demo_applied := apply_all demo_payment_events active_world.1.

Lemma applyContribution_refines_witness :
  applied 300 (demo_contribution 50 1 1 "e1") (pg_tables active_world.1)
    (Ok {| Advanced := false; NextRound := 2 |})
    (pg_tables (applyContribution true 300 (demo_contribution 50 1 1 "e1") active_world.1).2).
Proof.
  apply (applyContribution_refines true 300 (demo_contribution 50 1 1 "e1") active_world.1
    (Ok {| Advanced := false; NextRound := 2 |})). by vm_compute.
Defined.

(** The replay of "e2" is not counted; the round advances with it. *)
Lemma contributions_counted_once_witness :
  length demo_applied.1 = 3%nat /\
  counted demo_applied.1 (pg_tables active_world.1) (pg_tables demo_applied.2).
Proof.
  split; [by vm_compute|]. apply (contributions_counted_once demo_payment_events).
  - repeat first [ apply Forall_nil_2 | apply Forall_cons_2; [by eexists|] ].
  - unfold demo_applied. by destruct (apply_all _ _).
Defined.

Definition late_event := applyContribution true 300 (demo_contribution 50 1 1 "t1") contributionpg.paid.2.1.

Lemma api_contribution_never_counted_witness :
  is_ok late_event.1 = false /\ pg_tables late_event.2 = pg_tables contributionpg.paid.2.1.
Proof.
  apply (api_contribution_never_counted contributionpg.demo_service 200 40%N
    (contributionpg.demo_record "x" "t1") active_world.1 active_world.2 contributionpg.paid_row
    contributionpg.paid.2 contributionpg.paid.2 true 300 (demo_contribution 50 1 1 "t1")
    late_event.1 late_event.2);
    [done|exact contributionpg.demo_paid|constructor|done|].
  unfold late_event. by destruct (applyContribution _ _ _ _).
Defined.

Definition demo_payout_event : payout.Payout :=
  payoutpg.demo_paid_out 60 "p1".
Lemma recordPayoutAndAdvance_refines_witness :
  paid 300 demo_payout_event (pg_tables active_world.1) (Ok tt)
    (pg_tables (recordPayoutAndAdvance true 300 demo_payout_event active_world.1).2).
Proof.
  apply (recordPayoutAndAdvance_refines true 300 demo_payout_event active_world.1 (Ok tt)).
  by vm_compute.
Defined.
End circletx.
