(* ===== verification/LedgerHistory.v ===== *)
(** Ledgers and reorganizations (src/internal/indexer/poller.go,
    ledger_history.go, reorg.go): what the indexer reads from Horizon, the
    bounded record of ledger hashes and the search for a fork. *)
From S2P Require Export Demo.
From stdpp Require Import pretty.
From stdpp Require Import options.
#[local] Set Default Proof Using "Type*".
Open Scope Z_scope.
Local Open Scope go_scope.

Module ledgers.

(** ** poller.go *)
Record Ledger := {
  l_Sequence : Z;
  l_ClosedAt : time;
  l_TxCount : Z;
  l_Hash : string;
  l_PrevHash : string;
}.

Record Operation := {
  op_ID : Z;
  op_Type : string;
  op_SourceAccount : string;
  op_ContractID : string;
  op_ResultMetaXDR : string;
}.

Record Transaction := {
  tx_Hash : string;
  tx_Ledger : Z;
  tx_CreatedAt : time;
  tx_SourceAccount : string;
  tx_Successful : bool;
  tx_Operations : list Operation;
  tx_LedgerCloseTime : time;
}.

Definition MatchesContract (wanted : list string) (t : Transaction) : bool :=
  existsb (λ op, bool_decide (op_SourceAccount op ∈ wanted) ||
    (negb (bool_decide (op_ContractID op = ""%string)) && bool_decide (op_ContractID op ∈ wanted)))
    (tx_Operations t).

Definition FilterByContract (contractIDs : list string) (txns : list Transaction) :
    list Transaction :=
  match contractIDs with
  | [] => txns
  | _ => filter (MatchesContract contractIDs) txns
  end.

(** Horizon answers a paging token and a limit with ledgers, a sequence with
    transactions; either request can fail.  [FetchLedgers] shifts a positive
    cursor to the paging token of the ledger. *)
Record Poller (W : Type) := {
  horizon_ledgers : Z -> Z -> M W (list Ledger);
  horizon_transactions : Z -> M W (list Transaction);
  contractIDs : list string;
}.
Arguments horizon_ledgers {W} _ _ _.
Arguments horizon_transactions {W} _ _.
Arguments contractIDs {W} _.

Section poller.
Context {W : Type}.
Variable p : Poller W.

Definition FetchLedgers (cursor limit : Z) : M W (list Ledger) :=
  let pagingToken := if 0 <? cursor then wrap64 (Z.shiftl cursor 32) else cursor in
  gwrap "fetching ledgers: %w" (horizon_ledgers p pagingToken limit).

Definition FetchLedgersInRange (from to_ : Z) : M W (list Ledger) :=
  if to_ <? from then gret []
  else FetchLedgers (wrap64 (from - 1)) (wrap64 (wrap64 (to_ - from) + 1)).

Definition FetchTransactions (ledger : Z) : M W (list Transaction) :=
  gwrap "fetching transactions: %w" (horizon_transactions p ledger).

Definition GetLedgerCount (cursor : Z) : M W Z :=
  let! ledgers := FetchLedgers cursor 1 in
  match ledgers with
  | [] => gret 0
  | l :: _ => gret (wrap64 (l_Sequence l - cursor))
  end.
End poller.

(** ** ledger_history.go *)
Definition defaultReorgWindow : Z := 10.

Record LedgerHistory := {
  h_hashes : gmap Z string;
  h_order : list Z;  (** ascending, oldest first *)
  h_window : Z;
}.

Definition NewLedgerHistory (window : Z) : LedgerHistory :=
  {| h_hashes := ∅; h_order := [];
     h_window := if window <=? 0 then defaultReorgWindow else window |}.

(** The loop of [Record] that evicts the oldest entries. *)
Fixpoint evict (window : Z) (order : list Z) (hashes : gmap Z string) : list Z * gmap Z string :=
  match order with
  | [] => (order, hashes)
  | oldest :: rest =>
      if window <? Z.of_nat (length order)
      then evict window rest (delete oldest hashes) else (order, hashes)
  end.

(** Named [Record] in the source. *)
Definition Record_ (sequence : Z) (hash : string) (h : LedgerHistory) : LedgerHistory :=
  if decide (hash = ""%string) then h else
  let order := if h_hashes h !! sequence is Some _ then h_order h
               else merge_sort Z.le (h_order h ++ [sequence]) in
  let '(order, hashes) := evict (h_window h) order (<[sequence := hash]> (h_hashes h)) in
  {| h_hashes := hashes; h_order := order; h_window := h_window h |}.

Definition Hash (sequence : Z) (h : LedgerHistory) : option string := h_hashes h !! sequence.

(** The loop of [Truncate]: an entry is kept, or deleted from the hashes. *)
Fixpoint truncate (sequence : Z) (order : list Z) (hashes : gmap Z string) :
    list Z * gmap Z string :=
  match order with
  | [] => ([], hashes)
  | s :: rest =>
      if s <? sequence then let '(kept, hashes) := truncate sequence rest hashes in (s :: kept, hashes)
      else truncate sequence rest (delete s hashes)
  end.

Definition Truncate (sequence : Z) (h : LedgerHistory) : LedgerHistory :=
  let '(kept, hashes) := truncate sequence (h_order h) (h_hashes h) in
  {| h_hashes := hashes; h_order := kept; h_window := h_window h |}.

Definition Size (h : LedgerHistory) : Z := Z.of_nat (size (h_hashes h)).
Definition Oldest (h : LedgerHistory) : Z := default 0 (head (h_order h)).
Definition Newest (h : LedgerHistory) : Z := default 0 (last (h_order h)).

(** ** reorg.go *)
Record ReorgPlan := { ForkLedger : Z; LastLedger : Z; Scanned : Z }.
Definition ErrReorgTooDeep := Sentinel "reorg deeper than the configured window".

(** A ledger whose recorded hash is not the one Horizon gives now. *)
Definition mismatch (h : LedgerHistory) (l : Ledger) : bool :=
  match Hash (l_Sequence l) h with
  | Some recorded => negb (bool_decide (recorded = l_Hash l))
  | None => false
  end.

(** The loop of [DetectReorg]; zero stands for no fork. *)
Fixpoint scan_fork (h : LedgerHistory) (fork : Z) (ledgers : list Ledger) : Z :=
  match ledgers with
  | [] => fork
  | l :: rest =>
      scan_fork h (if mismatch h l && ((fork =? 0) || (l_Sequence l <? fork))
                   then l_Sequence l else fork) rest
  end.

(** The decision on the fetched window. *)
Definition plan_reorg (h : LedgerHistory) (ledgers : list Ledger) : result (option ReorgPlan) :=
  match ledgers with
  | [] => Ok None
  | first :: _ =>
      let boundary := l_Sequence first in
      let fork := scan_fork h 0 ledgers in
      if fork =? 0 then Ok None
      else if fork <=? boundary
      then Err (Wrapf "%w: fork is at or below the window boundary" ErrReorgTooDeep)
      else Ok (Some {| ForkLedger := fork; LastLedger := wrap64 (fork - 1);
                       Scanned := Z.of_nat (length ledgers) |})
  end.

Definition DetectReorg {W} (p : Poller W) (window : Z) (h : LedgerHistory) (lastLedger : Z) :
    M W (option ReorgPlan) :=
  if (window <=? 0) || (lastLedger <=? 0) then gret None else
  let from := wrap64 (wrap64 (lastLedger - window) + 1) in
  let from := if from <? 1 then 1 else from in
  let! ledgers := gwrap "fetching reorg window: %w" (FetchLedgersInRange p from lastLedger) in
  glift (plan_reorg h ledgers).

(** ** The history is a window on the latest ledgers *)
Record history_ok (h : LedgerHistory) : Prop := {
  ok_window : 0 < h_window h;
  ok_sorted : StronglySorted Z.lt (h_order h);
  ok_dom : forall s, is_Some (h_hashes h !! s) <-> s ∈ h_order h;
  ok_len : Z.of_nat (length (h_order h)) <= h_window h;
}.

Inductive hcall := HRecord (sequence : Z) (hash : string) | HTruncate (sequence : Z).
Definition run_hcall (c : hcall) (h : LedgerHistory) : LedgerHistory :=
  match c with HRecord s x => Record_ s x h | HTruncate s => Truncate s h end.

(** [evict] drops a prefix and forgets exactly its entries. *)
Lemma evict_spec window order hashes o' m' :
  NoDup order -> evict window order hashes = (o', m') ->
  exists dropped, order = dropped ++ o' /\
    (forall s, m' !! s = if decide (s ∈ dropped) then None else hashes !! s) /\
    (0 <= window -> Z.of_nat (length o') <= window) /\
    (Z.of_nat (length order) <= window -> dropped = []).
Proof.
  revert hashes. induction order as [|x order IH]; intros hashes Hnd; cbn [evict].
  { intros [= <- <-]. exists []. split_and!; [done|done|cbn; lia|done]. }
  apply NoDup_cons in Hnd as [Hx Hnd].
  destruct (Z.ltb_spec window (Z.of_nat (length (x :: order)))) as [Hlt|Hge].
  - intros E. apply IH in E as (d & -> & Hm & Hl & _); [|done]. exists (x :: d).
    split_and!; [done| |done|lia]. intros s. rewrite Hm.
    destruct (decide (s ∈ d)), (decide (s ∈ x :: d)) as [Hs|Hs]; try done.
    + destruct Hs. by right.
    + apply elem_of_cons in Hs as [->|]; [apply lookup_delete_eq|done].
    + apply not_elem_of_cons in Hs as [Hs _]. by rewrite lookup_delete_ne.
  - intros [= <- <-]. exists []. split_and!; [done|done|done|done].
Qed.

Lemma truncate_spec sequence order hashes o' m' :
  NoDup order -> truncate sequence order hashes = (o', m') ->
  o' = filter (λ s, s < sequence) order /\
  forall s, m' !! s = if decide (s ∈ order /\ sequence <= s) then None else hashes !! s.
Proof.
  revert hashes o'. induction order as [|x order IH]; intros hashes o' Hnd; cbn [truncate].
  { intros [= <- <-]. split; [done|]. intros s. rewrite decide_False; [done|].
    by intros [?%elem_of_nil _]. }
  apply NoDup_cons in Hnd as [Hx Hnd]. destruct (Z.ltb_spec x sequence) as [Hlt|Hge].
  - destruct (truncate sequence order hashes) as [k m] eqn:E. intros [= <- <-].
    apply IH in E as [-> Hm]; [|done]. rewrite filter_cons_True by done. split; [done|].
    intros s. rewrite Hm.
    destruct (decide (s ∈ order /\ _)), (decide (s ∈ x :: order /\ _)) as [[Hs ?]|Hs]; try done.
    + destruct Hs. destruct a. split; [by right|done].
    + apply elem_of_cons in Hs as [->|]; [lia|by destruct n].
  - intros E. apply IH in E as [-> Hm]; [|done]. rewrite filter_cons_False by lia. split; [done|].
    intros s. rewrite Hm.
    destruct (decide (s ∈ order /\ _)), (decide (s ∈ x :: order /\ _)) as [[Hs ?]|Hs]; try done.
    + destruct Hs. destruct a. split; [by right|done].
    + apply elem_of_cons in Hs as [->|]; [apply lookup_delete_eq|by destruct n].
    + rewrite lookup_delete_ne; [done|]. intros ->. destruct Hs. split; [by left|done].
Qed.

Lemma sorted_le_lt (l : list Z) : StronglySorted Z.le l -> NoDup l -> StronglySorted Z.lt l.
Proof.
  induction 1 as [|x l Hl IH Hx]; [constructor|]. intros [Hn Hd]%NoDup_cons.
  constructor; [by apply IH|]. rewrite Forall_forall in *. intros y Hy. specialize (Hx y Hy).
  assert (x <> y) by (by intros ->). lia.
Qed.

Lemma sorted_lt_NoDup (l : list Z) : StronglySorted Z.lt l -> NoDup l.
Proof.
  induction 1 as [|x l Hl IH Hx]; [constructor|]. apply NoDup_cons. split; [|done].
  intros Hin. rewrite Forall_forall in Hx. specialize (Hx x Hin). lia.
Qed.

Lemma sorted_suffix (d l : list Z) : StronglySorted Z.lt (d ++ l) -> StronglySorted Z.lt l.
Proof. induction d as [|x d IH]; [done|]. cbn. intros [H _]%StronglySorted_inv. by apply IH. Qed.

Lemma sorted_filter P `{!forall s : Z, Decision (P s)} (l : list Z) :
  StronglySorted Z.lt l -> StronglySorted Z.lt (filter P l).
Proof.
  induction 1 as [|x l Hl IH Hx]; [constructor|]. rewrite filter_cons. destruct (decide (P x)); [|done].
  constructor; [done|]. rewrite Forall_forall in *. intros y [_ Hy]%list_elem_of_filter. auto.
Qed.

(** Inserting a new sequence keeps the order. *)
Lemma order_add (l : list Z) s :
  StronglySorted Z.lt l -> s ∉ l -> StronglySorted Z.lt (merge_sort Z.le (l ++ [s])).
Proof.
  intros Hl Hs. apply sorted_le_lt; [by apply StronglySorted_merge_sort; apply _|].
  rewrite merge_sort_Permutation. apply NoDup_app. split_and!.
  - by apply sorted_lt_NoDup.
  - by intros x Hx ->%list_elem_of_singleton.
  - apply NoDup_singleton.
Qed.

Lemma Record_ok s x h : history_ok h -> history_ok (Record_ s x h).
Proof.
  intros [Hw Hs Hd Hl]. unfold Record_. destruct (decide (x = ""%string)); [done|].
  destruct (evict _ _ _) as [o m] eqn:E.
  assert (exists order, (if h_hashes h !! s is Some _ then h_order h
      else merge_sort Z.le (h_order h ++ [s])) = order /\ StronglySorted Z.lt order /\
      (forall z, z ∈ order <-> z = s \/ z ∈ h_order h)) as (order & Ho & Hso & Hin).
  { destruct (h_hashes h !! s) eqn:Es; (eexists; split; [reflexivity|split]).
    - done.
    - intros z. split; [by right|]. intros [->|]; [|done]. apply Hd. eauto.
    - apply order_add; [done|]. rewrite <-Hd, Es. by intros [].
    - intros z. rewrite merge_sort_Permutation, elem_of_app, list_elem_of_singleton. tauto. }
  rewrite Ho in E. apply evict_spec in E as (d & Hdo & Hm & Hlen & _); [|by apply sorted_lt_NoDup].
  pose proof (sorted_lt_NoDup _ Hso) as Hnd. rewrite Hdo in Hnd, Hso.
  split; cbn; [done|by eapply sorted_suffix| |apply Hlen; lia].
  intros z. rewrite Hm. apply NoDup_app in Hnd as (_ & Hdisj & _).
  destruct (decide (z ∈ d)) as [Hz|Hz].
  - split; [by intros []|]. intros Hzo. by apply Hdisj in Hz.
  - assert (z ∈ o <-> z ∈ order) as ->.
    { rewrite Hdo, elem_of_app. tauto. }
    rewrite Hin, <-Hd, lookup_insert_is_Some'. split; intros [->|]; auto.
Qed.

Lemma Truncate_ok s h : history_ok h -> history_ok (Truncate s h).
Proof.
  intros [Hw Hs Hd Hl]. unfold Truncate. destruct (truncate _ _ _) as [k m] eqn:E.
  apply truncate_spec in E as [-> Hm]; [|by apply sorted_lt_NoDup].
  split; cbn; [done|by apply sorted_filter| |].
  - intros z. rewrite Hm, list_elem_of_filter. destruct (decide _) as [[Hz ?]|Hz].
    + split; [by intros []|lia].
    + rewrite Hd. split; [|tauto]. intros Hz2. split; [|done].
      destruct (Z.lt_ge_cases z s); [done|]. by destruct Hz.
  - pose proof (length_filter (λ z, z < s) (h_order h)). lia.
Qed.

(** Whatever is recorded and truncated, the history is a map on an ascending run
    of at most [window] sequences. *)
Theorem history_well_formed window calls :
  history_ok (foldl (λ h c, run_hcall c h) (NewLedgerHistory window) calls).
Proof.
  assert (history_ok (NewLedgerHistory window)) as H0.
  { split; cbn; [..|].
    - unfold defaultReorgWindow. destruct (Z.leb_spec window 0); lia.
    - constructor.
    - intros s. rewrite lookup_empty, elem_of_nil. by split; [intros []|].
    - unfold defaultReorgWindow. destruct (Z.leb_spec window 0); lia. }
  revert H0. generalize (NewLedgerHistory window). induction calls as [|[] calls IH]; intros h Hh;
    [done|..]; apply IH; [by apply Record_ok|by apply Truncate_ok].
Qed.

(** ** The fork *)
Definition ascending (ledgers : list Ledger) : Prop :=
  StronglySorted Z.lt (l_Sequence <$> ledgers) /\ Forall (λ l, 0 < l_Sequence l) ledgers.

Lemma ascending_inv l ledgers :
  ascending (l :: ledgers) ->
  0 < l_Sequence l /\ Forall (λ k, l_Sequence l < l_Sequence k) ledgers /\ ascending ledgers.
Proof.
  intros [Hs Hp]. rewrite fmap_cons in Hs. apply StronglySorted_inv in Hs as [Hs Hl].
  apply Forall_cons in Hp as [Hp0 Hp]. rewrite Forall_fmap in Hl. done.
Qed.

Lemma scan_fork_found h fork ledgers :
  fork <> 0 -> Forall (λ l, fork < l_Sequence l) ledgers -> scan_fork h fork ledgers = fork.
Proof.
  intros Hf. induction 1 as [|l ledgers Hl _ IH]; [done|]. cbn.
  destruct (Z.eqb_spec fork 0); [done|]. destruct (Z.ltb_spec (l_Sequence l) fork); [lia|].
  by rewrite andb_false_r.
Qed.

Lemma filter_test {A} (f : A -> bool) x l :
  filter f (x :: l) = if f x then x :: filter f l else filter f l.
Proof. rewrite filter_cons. by destruct (f x). Qed.

Lemma filter_first {A} (f : A -> bool) x l rest :
  filter f l = x :: rest ->
  exists before after, l = before ++ x :: after /\ Forall (λ y, f y = false) before /\ f x = true.
Proof.
  induction l as [|y l IH]; [done|]. rewrite filter_test. destruct (f y) eqn:Ey.
  - intros [= -> _]. by exists [], l.
  - intros (b & a & -> & Hb & Hx)%IH. exists (y :: b), a. split; [done|]. split; [by constructor|done].
Qed.

Lemma scan_fork_first h ledgers :
  ascending ledgers ->
  scan_fork h 0 ledgers = default 0 (l_Sequence <$> head (filter (mismatch h) ledgers)).
Proof.
  induction ledgers as [|l ledgers IH]; [done|]. intros (Hl0 & Hl & Ha)%ascending_inv.
  cbn [scan_fork]. rewrite filter_test. destruct (mismatch h l); cbn; [|by apply IH].
  apply scan_fork_found; [lia|done].
Qed.

(** The decision of [DetectReorg]: no fork when every fetched ledger that is
    still recorded has its recorded hash, the lowest fetched ledger whose hash
    changed otherwise, and an error when that is the first one fetched. *)
Theorem plan_reorg_spec h first ledgers :
  ascending (first :: ledgers) ->
  match plan_reorg h (first :: ledgers) with
  | Ok None => Forall (λ l, mismatch h l = false) (first :: ledgers)
  | Ok (Some p) => mismatch h first = false /\
      exists before l after, ledgers = before ++ l :: after /\
        Forall (λ l, mismatch h l = false) before /\ mismatch h l = true /\
        ForkLedger p = l_Sequence l /\ LastLedger p = wrap64 (l_Sequence l - 1) /\
        l_Sequence first < ForkLedger p
  | Err e => mismatch h first = true /\ errors_Is e ErrReorgTooDeep = true
  | Panic => False
  end.
Proof.
  intros Ha. unfold plan_reorg. rewrite scan_fork_first by done. rewrite filter_test.
  apply ascending_inv in Ha as (Hf & Hl & [_ Hp]).
  destruct (mismatch h first) eqn:Hm; cbn.
  { destruct (Z.eqb_spec (l_Sequence first) 0); [lia|]. rewrite Z.leb_refl. done. }
  destruct (filter (mismatch h) ledgers) as [|l rest] eqn:E; cbn.
  - constructor; [done|]. apply Forall_forall. intros l Hin. destruct (mismatch h l) eqn:El; [|done].
    assert (l ∈ filter (mismatch h) ledgers) as Hc; [|rewrite E in Hc; by apply elem_of_nil in Hc].
    apply list_elem_of_filter. by rewrite El.
  - apply filter_first in E as (before & after & -> & Hb & Hml).
    rewrite Forall_app, Forall_cons in Hl, Hp. destruct Hl as (_ & Hl & _), Hp as (_ & Hp & _).
    destruct (Z.eqb_spec (l_Sequence l) 0); [lia|].
    destruct (Z.leb_spec (l_Sequence l) (l_Sequence first)); [lia|]. split; [done|].
    by exists before, l, after.
Qed.

(** A branch replaced from the ledger [fork] on: its hashes are recorded, the
    window shows the hashes of the new one. *)
Record replaced (h : LedgerHistory) (fork : Z) (ledgers : list Ledger) : Prop := {
  same_before : forall l x, l ∈ ledgers -> l_Sequence l < fork ->
    Hash (l_Sequence l) h = Some x -> x = l_Hash l;
  other_after : forall l x, l ∈ ledgers -> fork <= l_Sequence l ->
    Hash (l_Sequence l) h = Some x -> x <> l_Hash l;
}.

(** The plan rolls back from the first ledger after the fork that the history
    still holds: from the fork itself exactly when its hash is recorded. *)
Theorem reorg_rolls_back_to_recorded h fork first ledgers p :
  ascending (first :: ledgers) -> replaced h fork (first :: ledgers) ->
  plan_reorg h (first :: ledgers) = Ok (Some p) ->
  fork <= ForkLedger p /\ is_Some (Hash (ForkLedger p) h) /\
  (forall l, l ∈ first :: ledgers -> fork <= l_Sequence l < ForkLedger p ->
     Hash (l_Sequence l) h = None).
Proof.
  intros Ha Hr Hp. pose proof (plan_reorg_spec h first ledgers Ha) as Hs. rewrite Hp in Hs.
  destruct Hs as (Hm & before & l & after & Hl & Hb & Hml & Hf & _ & _). rewrite Hf.
  assert (forall k, k ∈ first :: before -> mismatch h k = false) as Hno.
  { intros k [->|Hk]%elem_of_cons; [done|]. rewrite Forall_forall in Hb. auto. }
  assert (l ∈ first :: ledgers) as Hin by (right; rewrite Hl, elem_of_app; right; by left).
  unfold mismatch in Hml. destruct (Hash (l_Sequence l) h) as [x|] eqn:Ex; [|done]. go_bool.
  split; [|split; [eauto|]].
  - destruct (Z.lt_ge_cases (l_Sequence l) fork); [|done]. destruct Hml. by eapply same_before.
  - intros k Hk Hkf. destruct (Hash (l_Sequence k) h) as [y|] eqn:Ey; [|done]. exfalso.
    assert (k ∈ first :: before) as Hkb.
    { destruct Ha as [Hsort _]. rewrite Hl in Hk, Hsort. rewrite app_comm_cons in Hk, Hsort.
      apply elem_of_app in Hk as [Hk|Hk]; [done|]. exfalso.
      rewrite fmap_app in Hsort. apply sorted_suffix in Hsort. rewrite fmap_cons in Hsort.
      apply StronglySorted_inv in Hsort as [_ Hall]. rewrite Forall_fmap, Forall_forall in Hall.
      apply elem_of_cons in Hk as [->|Hk]; [lia|]. specialize (Hall k Hk). cbn in Hall. lia. }
    apply Hno in Hkb. unfold mismatch in Hkb. rewrite Ey in Hkb. go_bool.
    apply (other_after h fork _ Hr k y Hk); [lia|done|done].
Qed.

(** ** A restart

    The indexer restarts after the ledger 99 and records the ledgers 100 and
    101; then the branch is replaced from the ledger 95 on.  The history holds no
    hash below 100, so the rollback starts there. *)
Definition demo_ledger (branch : string) (s : Z) : Ledger :=
  {| l_Sequence := s; l_ClosedAt := s; l_TxCount := 0; l_Hash := (branch ++ pretty s)%string;
     l_PrevHash := (branch ++ pretty (s - 1))%string |}.
Definition restarted : LedgerHistory :=
  foldl (λ h s, Record_ s ("a" ++ pretty s) h) (NewLedgerHistory 10) [100; 101].
Definition window_start : Ledger := demo_ledger "a" 92.
Definition window_rest : list Ledger :=
  (demo_ledger "a" <$> [93; 94]) ++ (demo_ledger "b" <$> [95; 96; 97; 98; 99; 100; 101]).

Lemma window_ascending : ascending (window_start :: window_rest).
Proof. split; repeat constructor. Qed.

Lemma plan_reorg_spec_witness : mismatch restarted window_start = false /\
  exists before l after, window_rest = before ++ l :: after /\
    Forall (λ l, mismatch restarted l = false) before /\ mismatch restarted l = true /\
    100 = l_Sequence l /\ 99 = wrap64 (l_Sequence l - 1) /\ 92 < 100.
Proof. exact (plan_reorg_spec restarted window_start window_rest window_ascending). Defined.

Ltac each_ledger :=
  intros l x Hl; repeat (apply elem_of_cons in Hl as [->|Hl]); [..|by apply elem_of_nil in Hl];
  vm_compute; intros Hs Hx; first [ discriminate Hx | by destruct Hs | by injection Hx as <- ].

Lemma restart_replaced : replaced restarted 95 (window_start :: window_rest).
Proof. split; each_ledger. Qed.

(** The ledgers 95 to 99 of the abandoned branch stay. *)
Lemma reorg_rolls_back_to_recorded_witness :
  95 <= 100 /\ is_Some (Hash 100 restarted) /\
  (forall l, l ∈ window_start :: window_rest -> 95 <= l_Sequence l < 100 ->
     Hash (l_Sequence l) restarted = None).
Proof.
  exact (reorg_rolls_back_to_recorded restarted 95 window_start window_rest
    {| ForkLedger := 100; LastLedger := 99; Scanned := 10 |} window_ascending restart_replaced
    eq_refl).
Defined.
End ledgers.
