(* ===== verification/Processor.v ===== *)
(** The event processor of the indexer (src/internal/indexer/processor.go,
    events.go, contract_version.go): the handlers of the contract events and the
    processing of a transaction, over the repositories of the other packages. *)
From S2P Require Export CircleTx LedgerHistory.
From Stdlib Require Import Ascii.
From stdpp Require Import options.
#[local] Set Default Proof Using "Type*".
Open Scope Z_scope.
Local Open Scope go_scope.

Module processor.
Import circletx ledgers.

(** ** Events

    A value of type [any] in a decoded payload.  A [float32] is kept as the
    [float64] of the same value. *)
Inductive value :=
  | VString (s : string) | VFloat64 (f : float64) | VFloat32 (f : float64)
  | VInt (z : Z) | VInt32 (z : Z) | VInt64 (z : Z) | VUint32 (z : Z) | VUint64 (z : Z)
  | VOther.

Record ContractEvent := {
  ev_ContractID : string;
  ev_EventType : string;
  ev_Ledger : Z;
  ev_TxHash : string;
  ev_LedgerCloseTime : time;
  ev_Payload : gmap string value;
}.

Definition EventCircleCreated : string := "CircleCreated".
Definition EventMemberJoined : string := "MemberJoined".
Definition EventContributionReceived : string := "ContributionReceived".
Definition EventPayoutExecuted : string := "PayoutExecuted".
Definition EventLateReported : string := "LateReported".
Definition EventMemberExited : string := "MemberExited".
Definition EventDefaultRecorded : string := "DefaultRecorded".
Definition EventCircleCompleted : string := "CircleCompleted".
Definition EventAuctionBid : string := "AuctionBid".
Definition EventVoteCast : string := "VoteCast".
Definition EventDisputeRaised : string := "DisputeRaised".
Definition EventFeeDeposited : string := "FeeDeposited".

Definition payloadStr (p : gmap string value) (key : string) : string :=
  match p !! key with Some (VString s) => s | _ => "" end.

Definition payloadFloat (p : gmap string value) (key : string) : float64 :=
  match p !! key with
  | Some (VFloat64 f) | Some (VFloat32 f) => f
  | Some (VInt z) | Some (VInt64 z) | Some (VUint64 z) => f64_of_Z z
  | _ => f64_zero
  end.

Definition payloadInt `{GoFloatConv} (p : gmap string value) (key : string) : Z :=
  match p !! key with
  | Some (VInt z) | Some (VInt32 z) | Some (VInt64 z) | Some (VUint32 z) => z
  | Some (VFloat64 f) => f64_to_int64 f
  | _ => 0
  end.

(** [err.Error()]: the text of a sentinel, without the package name that tells
    two sentinels apart, and the text of a wrapped error in its place. *)
Fixpoint put_error (format inner : string) : string :=
  match format with
  | String "%"%char (String "w"%char rest) => (inner ++ rest)%string
  | String c rest => String c (put_error rest inner)
  | EmptyString => EmptyString
  end.
Definition sentinel_text (name : string) : string :=
  if String.prefix "apperrors: " name
  then String.substring 11 (String.length name - 11) name else name.
Fixpoint error_text (e : error) : string :=
  match e with
  | Sentinel name => sentinel_text name
  | Errorf format => format
  | Wrapf format inner => put_error format (error_text inner)
  | External code => code
  end.

Definition isNotFound (err : error) : bool :=
  bool_decide (error_text err = "not found"%string) || bool_decide (err = sql_ErrNoRows).

Definition reputationLevel (score : Z) : string :=
  if 800 <? score then "Diamond" else if 600 <? score then "Platinum"
  else if 400 <? score then "Gold" else if 200 <? score then "Silver" else "Bronze".

(** ** The storage of the processor *)
Record ReputationSnapshot := {
  rs_UserID : uuid; rs_Score : Z; rs_Level : string; rs_Month : time; rs_CreatedAt : time;
}.
Class UserRepository (W : Type) := {
  FindByWalletAddress : string -> M W (option uuid);  (** the identifier of the user *)
  UpdateMoiScore : uuid -> Z -> M W unit;
}.
Class ReputationRepository (W : Type) := {
  GetByUser : uuid -> M W (option ReputationSnapshot);
  SaveSnapshot : ReputationSnapshot -> M W unit;
}.

Record fee := {
  fee_CircleID : string; fee_Amount : float64; fee_TxHash : string; fee_Ledger : Z;
  fee_CreatedAt : time;
}.
Record recorded_event := {
  re_TxHash : string; re_Ledger : Z; re_ContractID : string; re_EventType : string;
  re_ContractVersion : string; re_Payload : string; re_ProcessedAt : time;
}.

(** The statements on [p.db]. *)
Class IndexerDB (W : Type) := {
  db_applyContribution : time -> contribution.Contribution -> M W RoundAdvance;
  db_recordPayoutAndAdvance : time -> payout.Payout -> M W unit;
  db_insert_dispute : uuid -> uuid -> string -> string -> time -> M W unit;
  db_insert_fee : fee -> M W unit;
  db_fees_summary : string -> M W (float64 * Z);
  db_event_recorded : string -> string -> string -> M W bool;
  db_insert_event : recorded_event -> M W unit;
}.

(** ** The processor

    [json.Marshal] and the XDR decoder of the events are functions of the
    environment; the decoder gives the events and the number it skipped. *)
Record EventProcessor (W : Type) := {
  ep_db : bool;
  ep_rmqClient : bool;
  ep_circleRepo : bool;
  ep_userRepo : bool;
  ep_wsBroadcast : bool;
  ep_knownContracts : list string;
  ep_unknownEvents : bool;
  ep_versions : option (string -> M W string);
  ep_versionUnknown : bool;
  ep_events : bool;
  ParseContractEvents : string -> Z -> string -> (list ContractEvent * Z) + error;
  marshal_payload : gmap string value -> string + error;
  marshal_message : list (string * value) -> string + error;
  contract_hex : string -> option string;  (** the hexadecimal form of a contract strkey *)
}.
Arguments ep_db {W} _.
Arguments ep_rmqClient {W} _.
Arguments ep_circleRepo {W} _.
Arguments ep_userRepo {W} _.
Arguments ep_wsBroadcast {W} _.
Arguments ep_knownContracts {W} _.
Arguments ep_unknownEvents {W} _.
Arguments ep_versions {W} _.
Arguments ep_versionUnknown {W} _.
Arguments ep_events {W} _.
Arguments ParseContractEvents {W} _ _ _ _.
Arguments marshal_payload {W} _ _.
Arguments marshal_message {W} _ _.
Arguments contract_hex {W} _ _.

Inductive Outcome := OutcomeDecoded | OutcomeFailed | OutcomeDLQ.

(** What the processor sends, and what it counts. *)
Inductive message :=
  | WsBroadcast (circleID : string) (payload : list (string * value))
  | Published (eventType circleID : string) (payload : list (string * value)) (at_ : time)
  | Counted (eventType : string) (o : Outcome)
  | CountedUnknownContract
  | CountedUnknownVersion
  | CountedSkipped (n : Z).

(** A run: the storage, what was sent, and the number of readings of the clock
    and of the generator of identifiers. *)
Record PSt (W : Type) := { p_world : W; p_sent : list message; p_tick : nat }.
Arguments p_world {W} _.
Arguments p_sent {W} _.
Arguments p_tick {W} _.
Arguments Build_PSt {W} _ _ _.

Section processor.
Context {W : Type} `{CircleRepo.Repository W, UserRepository W, ReputationRepository W,
  IndexerDB W, UUIDLib, GoFloatConv}.
Variable p : EventProcessor W.
Variable clock : nat -> time.
Variable fresh_uuid : nat -> uuid.

Definition store {A} (m : M W A) : M (PSt W) A := λ st,
  let '(r, w) := m (p_world st) in (r, Build_PSt w (p_sent st) (p_tick st)).
Definition send (m : message) : M (PSt W) unit := λ st,
  (Ok tt, Build_PSt (p_world st) (p_sent st ++ [m]) (p_tick st)).
Definition when (b : bool) (m : M (PSt W) unit) : M (PSt W) unit :=
  if b then m else gret tt.
Definition time_Now : M (PSt W) time := λ st,
  (Ok (clock (p_tick st)), Build_PSt (p_world st) (p_sent st) (S (p_tick st))).
Definition uuid_New : M (PSt W) uuid := λ st,
  (Ok (fresh_uuid (p_tick st)), Build_PSt (p_world st) (p_sent st) (S (p_tick st))).

(** A call on a repository that may be nil. *)
Definition circleRepo {A} (m : M W A) : M (PSt W) A := if ep_circleRepo p then store m else gpanic.
Definition userRepo {A} (m : M W A) : M (PSt W) A := if ep_userRepo p then store m else gpanic.

Definition isUnknownContract (contractID : string) : bool :=
  match ep_knownContracts p with
  | [] => false
  | known => negb (bool_decide (contractID ∈ known))
  end.

(** [SetKnownContracts]: the keys of the map, the strkeys in both forms. *)
Definition SetKnownContracts (ids : list string) : EventProcessor W :=
  {| ep_db := ep_db p; ep_rmqClient := ep_rmqClient p; ep_circleRepo := ep_circleRepo p;
     ep_userRepo := ep_userRepo p; ep_wsBroadcast := ep_wsBroadcast p;
     ep_knownContracts := ids ++ omap (contract_hex p) ids;
     ep_unknownEvents := ep_unknownEvents p; ep_versions := ep_versions p;
     ep_versionUnknown := ep_versionUnknown p; ep_events := ep_events p;
     ParseContractEvents := ParseContractEvents p; marshal_payload := marshal_payload p;
     marshal_message := marshal_message p; contract_hex := contract_hex p |}.

Definition txnTime (closeTime : time) : M (PSt W) time :=
  if time_IsZero closeTime then time_Now else gret closeTime.
Definition evTime (ev : ContractEvent) : M (PSt W) time := txnTime (ev_LedgerCloseTime ev).

(** An error of the broker is logged. *)
Definition Broadcast (circleID eventType : string) (payload : list (string * value)) (ts : time) :
    M (PSt W) unit :=
  do! when (ep_wsBroadcast p) (send (WsBroadcast circleID payload)) in
  match marshal_message p payload with
  | inr _ => gret tt
  | inl _ => when (ep_rmqClient p) (send (Published eventType circleID payload ts))
  end.

(** [Broadcast(ctx, ..., evTime(ev))] *)
Definition announce (ev : ContractEvent) (circleID eventType : string)
    (payload : list (string * value)) : M (PSt W) unit :=
  let! ts := evTime ev in Broadcast circleID eventType payload ts.

(** A lookup by an identifier of the chain: not found is logged and skips the
    event, another error is wrapped. *)
Definition found_or_skip {A} (format : string) (m : M (PSt W) (option A))
    (k : A -> M (PSt W) unit) : M (PSt W) unit :=
  gtry m (λ r,
    match r with
    | inr err => if isNotFound err then gret tt else gfail (Wrapf format err)
    | inl a => let! a := deref a in k a
    end).

Definition str (s : string) : value := VString s.
Definition id_str (u : uuid) : value := VString (uuid_String u).

(** *** The handlers *)
Definition onCircleCreated (ev : ContractEvent) : M (PSt W) unit :=
  let id := payloadStr (ev_Payload ev) "circle_id" in
  let contractID := if decide (id = "") then ev_ContractID ev else id in
  gtry (circleRepo (FindByContractID contractID)) (λ r,
    let announced := announce ev contractID "circle.created"
      [("contract_id", str contractID); ("creator", str (payloadStr (ev_Payload ev) "creator"));
       ("tx_hash", str (ev_TxHash ev)); ("ledger", VInt64 (ev_Ledger ev))] in
    match r with
    | inr err => if isNotFound err then announced else gfail (Wrapf "onCircleCreated find: %w" err)
    | inl _ => announced
    end).

Definition onMemberJoined (ev : ContractEvent) : M (PSt W) unit :=
  let walletAddr := payloadStr (ev_Payload ev) "member" in
  found_or_skip "onMemberJoined find circle: %w"
    (circleRepo (FindByContractID (payloadStr (ev_Payload ev) "circle_id"))) (λ c,
  found_or_skip "onMemberJoined find user: %w" (userRepo (FindByWalletAddress walletAddr)) (λ u,
  let! joinedAt := evTime ev in
  gtry (circleRepo (CreateMember {| m_CircleID := c_ID c; m_UserID := u; m_Position := 0;
          m_Status := MemberStatusActive; m_JoinedAt := joinedAt |})) (λ r,
    match r with
    | inr err => if errors_Is err ErrAlreadyMember then gret tt
                 else gfail (Wrapf "onMemberJoined create member: %w" err)
    | inl _ => announce ev (uuid_String (c_ID c)) "member.joined"
        [("circle_id", id_str (c_ID c)); ("user_id", id_str u); ("wallet", str walletAddr);
         ("tx_hash", str (ev_TxHash ev))]
    end))).

(** [p.applyContribution] and [p.recordPayoutAndAdvance], with a nil database. *)
Definition applyContribution (contrib : contribution.Contribution) : M (PSt W) RoundAdvance :=
  if ep_db p then let! now := time_Now in store (db_applyContribution now contrib)
  else gfail ErrNoDatabase.
Definition recordPayoutAndAdvance (po : payout.Payout) : M (PSt W) unit :=
  if ep_db p then let! now := time_Now in store (db_recordPayoutAndAdvance now po)
  else gfail ErrNoDatabase.

Definition event_contribution (new circleID userID : uuid) (ev : ContractEvent)
    (created updated : time) : contribution.Contribution :=
  {| rct_ID := new; rct_CircleID := circleID; rct_UserID := userID;
     rct_RoundNumber := payloadInt (ev_Payload ev) "round";
     rct_Amount := payloadFloat (ev_Payload ev) "amount";
     rct_TxnHash := Some (ev_TxHash ev); rct_Status := contribution.StatusConfirmed;
     rct_OnTime := true; rct_VerifiedOnchain := false; rct_VerificationStatus := "";
     rct_CreatedAt := created; rct_UpdatedAt := updated |}.

Definition onContributionReceived (ev : ContractEvent) : M (PSt W) unit :=
  found_or_skip "onContributionReceived find circle: %w"
    (circleRepo (FindByContractID (payloadStr (ev_Payload ev) "circle_id"))) (λ c,
  found_or_skip "onContributionReceived find user: %w"
    (userRepo (FindByWalletAddress (payloadStr (ev_Payload ev) "member"))) (λ u,
  let! new := uuid_New in
  let! created := time_Now in
  let! updated := time_Now in
  let contrib := event_contribution new (c_ID c) u ev created updated in
  gtry (applyContribution contrib) (λ r,
    match r with
    | inr err => if errors_Is err apperrors_ErrConflict then gret tt
                 else gfail (Wrapf "onContributionReceived record contribution: %w" err)
    | inl _ => announce ev (uuid_String (c_ID c)) "contribution.confirmed"
        [("circle_id", id_str (c_ID c)); ("user_id", id_str u);
         ("amount", VFloat64 (rct_Amount contrib)); ("round", VInt (rct_RoundNumber contrib));
         ("contribution_id", id_str new); ("tx_hash", str (ev_TxHash ev))]
    end))).

Definition event_payout (new circleID recipientID : uuid) (ev : ContractEvent) (created : time) :
    payout.Payout :=
  let pt := payloadStr (ev_Payload ev) "payout_type" in
  {| payout.po_ID := new; payout.po_CircleID := circleID; payout.po_RecipientID := recipientID;
     payout.po_RoundNumber := payloadInt (ev_Payload ev) "round";
     payout.po_Amount := payloadFloat (ev_Payload ev) "amount"; payout.po_FeeAmount := f64_zero;
     payout.po_TxnHash := Some (ev_TxHash ev);
     payout.po_PayoutType :=
       if decide (pt = "fixed") then payout.PayoutTypeFixed
       else if decide (pt = "auction") then payout.PayoutTypeAuction
       else if decide (pt = "vote") then payout.PayoutTypeVote else payout.PayoutTypeRandom;
     payout.po_VerifiedOnchain := false; payout.po_VerificationStatus := "";
     payout.po_CreatedAt := created; payout.po_UpdatedAt := payout.zero_time;
     payout.po_OnTime := false |}%string.

Definition onPayoutExecuted (ev : ContractEvent) : M (PSt W) unit :=
  found_or_skip "onPayoutExecuted find circle: %w"
    (circleRepo (FindByContractID (payloadStr (ev_Payload ev) "circle_id"))) (λ c,
  found_or_skip "onPayoutExecuted find recipient: %w"
    (userRepo (FindByWalletAddress (payloadStr (ev_Payload ev) "recipient"))) (λ recipient,
  let! new := uuid_New in
  let! created := time_Now in
  let p2 := event_payout new (c_ID c) recipient ev created in
  gtry (recordPayoutAndAdvance p2) (λ r,
    match r with
    | inr err => if errors_Is err apperrors_ErrConflict then gret tt
                 else gfail (Wrapf "onPayoutExecuted record payout: %w" err)
    | inl _ => announce ev (uuid_String (c_ID c)) "payout.received"
        [("circle_id", id_str (c_ID c)); ("recipient_id", id_str recipient);
         ("amount", VFloat64 (payout.po_Amount p2)); ("round", VInt (payout.po_RoundNumber p2));
         ("payout_id", id_str new); ("tx_hash", str (ev_TxHash ev))]
    end))).

Definition onLateReported (ev : ContractEvent) : M (PSt W) unit :=
  found_or_skip "onLateReported find circle: %w"
    (circleRepo (FindByContractID (payloadStr (ev_Payload ev) "circle_id"))) (λ c,
  found_or_skip "onLateReported find user: %w"
    (userRepo (FindByWalletAddress (payloadStr (ev_Payload ev) "member"))) (λ u,
  announce ev (uuid_String (c_ID c)) "contribution.late"
    [("circle_id", id_str (c_ID c)); ("user_id", id_str u);
     ("penalty_amount", VFloat64 (payloadFloat (ev_Payload ev) "penalty_amount"));
     ("strikes", VInt (payloadInt (ev_Payload ev) "strikes")); ("tx_hash", str (ev_TxHash ev))])).

Definition onMemberExited (ev : ContractEvent) : M (PSt W) unit :=
  found_or_skip "onMemberExited find circle: %w"
    (circleRepo (FindByContractID (payloadStr (ev_Payload ev) "circle_id"))) (λ c,
  found_or_skip "onMemberExited find user: %w"
    (userRepo (FindByWalletAddress (payloadStr (ev_Payload ev) "member"))) (λ u,
  do! gwrap "onMemberExited update status: %w"
    (circleRepo (UpdateMemberStatus (c_ID c) u MemberStatusExited)) in
  announce ev (uuid_String (c_ID c)) "member.exited"
    [("circle_id", id_str (c_ID c)); ("user_id", id_str u);
     ("penalty", VFloat64 (payloadFloat (ev_Payload ev) "penalty")); ("tx_hash", str (ev_TxHash ev))])).

Definition onDefaultRecorded (ev : ContractEvent) : M (PSt W) unit :=
  let contractID := payloadStr (ev_Payload ev) "circle_id" in
  found_or_skip "onDefaultRecorded find user: %w"
    (userRepo (FindByWalletAddress (payloadStr (ev_Payload ev) "member"))) (λ u,
  gtry (store (GetByUser u)) (λ r,
    let save existing :=
      let currentScore := match existing with Some s => rs_Score s | None => 0 end in
      let newScore := wrap64 (currentScore - 50) in
      let newScore := if newScore <? 0 then 0 else newScore in
      let level := reputationLevel newScore in
      let! month := time_Now in
      let! created := time_Now in
      do! gwrap "onDefaultRecorded save snapshot: %w" (store (SaveSnapshot
        {| rs_UserID := u; rs_Score := newScore; rs_Level := level; rs_Month := month;
           rs_CreatedAt := created |})) in
      do! gignore (userRepo (UpdateMoiScore u newScore)) in
      announce ev contractID "reputation.updated"
        [("user_id", id_str u); ("new_score", VInt newScore); ("level", str level);
         ("reason", str "default"); ("tx_hash", str (ev_TxHash ev))] in
    match r with
    | inr err => if isNotFound err then save None
                 else gfail (Wrapf "onDefaultRecorded get reputation: %w" err)
    | inl existing => save existing
    end)).

(** The fields of the circle the handlers assign. *)
Definition completed_circle (total : float64) (now : time) (c : Circle) : Circle :=
  {| c_ID := c_ID c; c_ContractID := c_ContractID c; c_CommunityID := c_CommunityID c;
     c_Name := c_Name c; c_Description := c_Description c; c_CircleType := c_CircleType c;
     c_PayoutType := c_PayoutType c; c_ContributionAmount := c_ContributionAmount c;
     c_Currency := c_Currency c; c_Frequency := c_Frequency c;
     c_MaxMembers := c_MaxMembers c; c_MinMoiScore := c_MinMoiScore c;
     c_CollateralPercent := c_CollateralPercent c; c_LateFeePercent := c_LateFeePercent c;
     c_GracePeriodHours := c_GracePeriodHours c; c_MaxStrikes := c_MaxStrikes c;
     c_MemberCount := c_MemberCount c; c_RequiresInvite := c_RequiresInvite c;
     c_StartDate := c_StartDate c; c_EndDate := Some now; c_Status := CircleStatusCompleted;
     c_CurrentRound := c_CurrentRound c; c_TotalContributions := total;
     c_OrganizerID := c_OrganizerID c; c_CreatedAt := c_CreatedAt c;
     c_UpdatedAt := c_UpdatedAt c; c_DeletedAt := c_DeletedAt c |}.

Definition onCircleCompleted (ev : ContractEvent) : M (PSt W) unit :=
  let totalContribs := payloadFloat (ev_Payload ev) "total_contributions" in
  found_or_skip "onCircleCompleted find circle: %w"
    (circleRepo (FindByContractID (payloadStr (ev_Payload ev) "circle_id"))) (λ c,
  let! now := time_Now in
  do! gwrap "onCircleCompleted update: %w"
    (circleRepo (Update (completed_circle totalContribs now c))) in
  announce ev (uuid_String (c_ID c)) "circle.completed"
    [("circle_id", id_str (c_ID c)); ("total_contributions", VFloat64 totalContribs);
     ("tx_hash", str (ev_TxHash ev))]).

(** [contractID == ""] falls back to the emitting contract. *)
Definition circle_or_emitter (ev : ContractEvent) : string :=
  let id := payloadStr (ev_Payload ev) "circle_id" in
  if decide (id = "") then ev_ContractID ev else id.

Definition onAuctionBid (ev : ContractEvent) : M (PSt W) unit :=
  let contractID := circle_or_emitter ev in
  let bidder := payloadStr (ev_Payload ev) "bidder" in
  let discountBips := payloadInt (ev_Payload ev) "discount_bips" in
  let round := payloadInt (ev_Payload ev) "round" in
  let seen := [("contract_id", str contractID); ("bidder", str bidder);
    ("discount_bips", VInt discountBips); ("round", VInt round); ("tx_hash", str (ev_TxHash ev))] in
  if negb (ep_circleRepo p) || negb (ep_userRepo p)
  then announce ev contractID "auction.bid" seen else
  found_or_skip "onAuctionBid find circle: %w" (circleRepo (FindByContractID contractID)) (λ c,
  found_or_skip "onAuctionBid find user: %w" (userRepo (FindByWalletAddress bidder)) (λ u,
  let! new := uuid_New in
  let! created := time_Now in
  do! gwrap "onAuctionBid create auction bid: %w" (circleRepo (CreateAuctionBid
    {| b_ID := new; b_CircleID := c_ID c; b_BidderID := u; b_RoundNumber := round;
       b_BidAmount := f64_of_Z discountBips; b_CreatedAt := created |})) in
  announce ev (uuid_String (c_ID c)) "auction.bid"
    ([("circle_id", id_str (c_ID c)); ("bidder_id", id_str u)] ++ seen))).

Definition onVoteCast (ev : ContractEvent) : M (PSt W) unit :=
  let contractID := circle_or_emitter ev in
  let voter := payloadStr (ev_Payload ev) "voter" in
  let voteFor := payloadStr (ev_Payload ev) "vote_for" in
  let round := payloadInt (ev_Payload ev) "round" in
  if negb (ep_circleRepo p) || negb (ep_userRepo p)
  then announce ev contractID "vote.cast"
    [("contract_id", str contractID); ("voter", str voter); ("vote_for", str voteFor);
     ("round", VInt round); ("tx_hash", str (ev_TxHash ev))] else
  found_or_skip "onVoteCast find circle: %w" (circleRepo (FindByContractID contractID)) (λ c,
  found_or_skip "onVoteCast find voter: %w" (userRepo (FindByWalletAddress voter)) (λ voterID,
  found_or_skip "onVoteCast find recipient: %w" (userRepo (FindByWalletAddress voteFor)) (λ recipientID,
  let! new := uuid_New in
  let! created := time_Now in
  gtry (circleRepo (CreateVote
    {| v_ID := new; v_CircleID := c_ID c; v_VoterID := voterID; v_RecipientID := recipientID;
       v_RoundNumber := round; v_CreatedAt := created |})) (λ r,
    match r with
    | inr err => if errors_Is err apperrors_ErrConflict then gret tt
                 else gfail (Wrapf "onVoteCast create vote: %w" err)
    | inl _ => announce ev (uuid_String (c_ID c)) "vote.cast"
        [("circle_id", id_str (c_ID c)); ("contract_id", str contractID);
         ("voter_id", id_str voterID); ("recipient_id", id_str recipientID); ("round", VInt round);
         ("tx_hash", str (ev_TxHash ev))]
    end)))).

Definition disputed_circle (c : Circle) : Circle :=
  with_status (CircleStatusOther "disputed") (c_CurrentRound c) (c_UpdatedAt c) c.

(** The raiser of a dispute, when the wallet belongs to a user. *)
Definition dispute_raiser (member : string) : M (PSt W) (option uuid) :=
  if negb (bool_decide (member = "")) && ep_userRepo p
  then gtry (userRepo (FindByWalletAddress member)) (λ r,
         gret (match r with inl u => u | inr _ => None end))
  else gret None.

Definition onDisputeRaised (ev : ContractEvent) : M (PSt W) unit :=
  let member := payloadStr (ev_Payload ev) "member" in
  let evidenceHash := payloadStr (ev_Payload ev) "evidence_hash" in
  found_or_skip "onDisputeRaised find circle: %w"
    (circleRepo (FindByContractID (payloadStr (ev_Payload ev) "circle_id"))) (λ c,
  do! gwrap "onDisputeRaised update circle status: %w" (circleRepo (Update (disputed_circle c))) in
  let! raiser := dispute_raiser member in
  do! match raiser with
      | Some u =>
          if ep_db p then
            let! now := time_Now in
            gignore (store (db_insert_dispute (c_ID c) u "Dispute raised via on-chain event"
              ("evidence_hash: " ++ evidenceHash ++ ", tx_hash: " ++ ev_TxHash ev)%string now))
          else gret tt
      | None => gret tt
      end in
  announce ev (uuid_String (c_ID c)) "dispute.raised"
    [("circle_id", id_str (c_ID c)); ("member_wallet", str member);
     ("evidence_hash", str evidenceHash); ("tx_hash", str (ev_TxHash ev))]).

Definition onFeeDeposited (ev : ContractEvent) : M (PSt W) unit :=
  let circleID := payloadStr (ev_Payload ev) "circle_id" in
  let amount := payloadFloat (ev_Payload ev) "amount" in
  do! when (ep_db p) (gignore (store (db_insert_fee
        {| fee_CircleID := circleID; fee_Amount := amount; fee_TxHash := ev_TxHash ev;
           fee_Ledger := ev_Ledger ev; fee_CreatedAt := ev_LedgerCloseTime ev |}))) in
  announce ev circleID "fee.deposited"
    [("circle_id", str circleID); ("amount", VFloat64 amount); ("tx_hash", str (ev_TxHash ev));
     ("ledger", VInt64 (ev_Ledger ev))].

Definition GetTreasuryFeesSummary (circleID : string) : M (PSt W) (float64 * Z) :=
  if ep_db p then store (db_fees_summary circleID) else gret (f64_zero, 0).

Definition eventRecorded (ev : ContractEvent) : M (PSt W) bool :=
  if ep_db p then
    gtry (store (db_event_recorded (ev_TxHash ev) (ev_ContractID ev) (ev_EventType ev))) (λ r,
      gret (match r with inl exists_ => exists_ | inr _ => false end))
  else gret false.

(** *** Dispatch *)
Definition dispatchEvent (ev : ContractEvent) : M (PSt W) unit :=
  let t := ev_EventType ev in
  if decide (t = EventCircleCreated) then onCircleCreated ev
  else if decide (t = EventMemberJoined) then onMemberJoined ev
  else if decide (t = EventContributionReceived) then onContributionReceived ev
  else if decide (t = EventPayoutExecuted) then onPayoutExecuted ev
  else if decide (t = EventLateReported) then onLateReported ev
  else if decide (t = EventMemberExited) then onMemberExited ev
  else if decide (t = EventDefaultRecorded) then onDefaultRecorded ev
  else if decide (t = EventCircleCompleted) then onCircleCompleted ev
  else if decide (t = EventAuctionBid) then onAuctionBid ev
  else if decide (t = EventVoteCast) then onVoteCast ev
  else if decide (t = EventDisputeRaised) then onDisputeRaised ev
  else if decide (t = EventFeeDeposited) then onFeeDeposited ev
  else gret tt.

(** A panic of a handler becomes an error. *)
Definition safeDispatchEvent (ev : ContractEvent) : M (PSt W) unit := λ st,
  match dispatchEvent ev st with
  | (Panic, st') => (Err (Errorf ("panic dispatching " ++ ev_EventType ev)%string), st')
  | out => out
  end.

(** [p.events.Count]: nothing is counted without counters or without a type. *)
Definition count_event (eventType : string) (o : Outcome) : M (PSt W) unit :=
  if decide (eventType = "") then gret tt else when (ep_events p) (send (Counted eventType o)).

Definition process_event (ev : ContractEvent) : M (PSt W) unit :=
  if isUnknownContract (ev_ContractID ev) then
    do! when (ep_unknownEvents p) (send CountedUnknownContract) in
    count_event (ev_EventType ev) OutcomeDLQ
  else gtry (safeDispatchEvent ev) (λ r,
    count_event (ev_EventType ev) (match r with inl _ => OutcomeDecoded | inr _ => OutcomeFailed end)).

Definition ContractVersionUnknown : string := "unknown".

Definition contractVersion (contractID : string) : M (PSt W) string :=
  match ep_versions p with
  | None => gret ContractVersionUnknown
  | Some resolve =>
      let unknown := do! when (ep_versionUnknown p) (send CountedUnknownVersion) in
                     gret ContractVersionUnknown in
      gtry (store (resolve contractID)) (λ r,
        match r with
        | inl version => if decide (version = "") then unknown else gret version
        | inr _ => unknown
        end)
  end.

Definition persistContractEvent (ev : ContractEvent) : M (PSt W) unit :=
  match marshal_payload p (ev_Payload ev) with
  | inr err => gfail (Wrapf "marshaling event payload: %w" err)
  | inl payloadJSON =>
      let! version := contractVersion (ev_ContractID ev) in
      store (db_insert_event
        {| re_TxHash := ev_TxHash ev; re_Ledger := ev_Ledger ev; re_ContractID := ev_ContractID ev;
           re_EventType := ev_EventType ev; re_ContractVersion := version;
           re_Payload := payloadJSON; re_ProcessedAt := ev_LedgerCloseTime ev |})
  end.

Definition at_close (closeTime : time) (ev : ContractEvent) : ContractEvent :=
  {| ev_ContractID := ev_ContractID ev; ev_EventType := ev_EventType ev;
     ev_Ledger := ev_Ledger ev; ev_TxHash := ev_TxHash ev; ev_LedgerCloseTime := closeTime;
     ev_Payload := ev_Payload ev |}.

(** [for _, x := range l { ... }] *)
Fixpoint for_each {A} (f : A -> M (PSt W) unit) (l : list A) : M (PSt W) unit :=
  match l with
  | [] => gret tt
  | a :: l => do! f a in for_each f l
  end.

Definition processContractEvents (events : list ContractEvent) (closeTime : time) : M (PSt W) unit :=
  let events := at_close closeTime <$> events in
  do! for_each process_event events in
  if ep_db p then for_each (λ ev, gignore (persistContractEvent ev)) events else gret tt.

(** *** Operations and transactions *)
Definition handleCreateAccount (txn : Transaction) (op : Operation) : M (PSt W) unit :=
  let! ts := txnTime (tx_LedgerCloseTime txn) in
  Broadcast (op_SourceAccount op) "account_created"
    [("hash", str (tx_Hash txn)); ("account", str (op_SourceAccount op));
     ("ledger", VInt64 (tx_Ledger txn))] ts.

Definition handlePayment (txn : Transaction) (op : Operation) : M (PSt W) unit :=
  let! ts := txnTime (tx_LedgerCloseTime txn) in
  Broadcast (op_SourceAccount op) "payment_detected"
    [("hash", str (tx_Hash txn)); ("source", str (op_SourceAccount op));
     ("ledger", VInt64 (tx_Ledger txn))] ts.

Definition handleSorobanInvoke (txn : Transaction) (op : Operation) : M (PSt W) unit :=
  match ParseContractEvents p (tx_Hash txn) (tx_Ledger txn) (op_ResultMetaXDR op) with
  | inr _ => gret tt
  | inl (events, skipped) =>
      do! when ((0 <? skipped) && ep_events p) (send (CountedSkipped skipped)) in
      let! closeTime := txnTime (tx_LedgerCloseTime txn) in
      processContractEvents events closeTime
  end.

(** An extension of a contract's storage is logged. *)
Definition handleExtendTTL : M (PSt W) unit := gret tt.

Definition processOperation (txn : Transaction) (op : Operation) : M (PSt W) unit :=
  if decide (op_Type op = "create_account") then handleCreateAccount txn op
  else if decide (op_Type op = "payment") then handlePayment txn op
  else if decide (op_Type op = "invoke_host_function") then handleSorobanInvoke txn op
  else if decide (op_Type op = "extend_footprint_ttl") then handleExtendTTL
  else gret tt.

(** The loop of [ProcessTransaction] collects the errors. *)
Fixpoint process_operations (txn : Transaction) (ops : list Operation) (errs : list error) :
    M (PSt W) (list error) :=
  match ops with
  | [] => gret errs
  | op :: ops => gtry (processOperation txn op) (λ r,
      process_operations txn ops (errs ++ match r with inl _ => [] | inr err => [err] end))
  end.

Definition ProcessTransaction (txn : Transaction) : M (PSt W) unit :=
  match tx_Operations txn with
  | [] => gret tt
  | ops =>
      let! errs := process_operations txn ops [] in
      match errs with
      | [] => gret tt
      | err :: _ => gfail (Wrapf "processing operations: %w" err)
      end
  end.
End processor.
End processor.
