(* ===== verification/ProcessorProps.v ===== *)
(** What the event processor guarantees: it never reports a failure, it counts
    every event once, it treats an unknown circle as an error, and an event of a
    recorded transaction changes nothing. *)
From S2P Require Export Processor.
From stdpp Require Import options.
#[local] Set Default Proof Using "Type*".
Open Scope Z_scope.
Local Open Scope go_scope.

Module processorprops.
Import circletx ledgers processor.

(** ** Programs that return no error, programs that count no event *)
Create HintDb quiet.

Section programs.
Context {W : Type}.
Implicit Types st : PSt W.

Definition never_fails {A} (m : M (PSt W) A) : Prop := forall st e, (m st).1 <> Err e.

Definition of_type (t : string) (m : message) : bool :=
  match m with Counted t' _ => bool_decide (t' = t) | _ => false end.
Definition tally (t : string) (l : list message) : nat := length (filter (of_type t) l).

(** [m] counts [n] events of the type [t]. *)
Definition counts (t : string) (n : nat) {A} (m : M (PSt W) A) : Prop :=
  forall st, (m st).1 <> Panic ->
    tally t (p_sent (m st).2) = (tally t (p_sent st) + n)%nat.
Definition quiet (t : string) {A} (m : M (PSt W) A) : Prop :=
  forall st, tally t (p_sent (m st).2) = tally t (p_sent st).

Lemma tally_app t l1 l2 : tally t (l1 ++ l2) = (tally t l1 + tally t l2)%nat.
Proof. unfold tally. by rewrite filter_app, length_app. Qed.

Lemma nf_ret {A} (a : A) : never_fails (gret a).
Proof. by intros st e. Qed.
Lemma nf_bind {A B} (m : M (PSt W) A) (k : A -> M (PSt W) B) :
  never_fails m -> (forall a, never_fails (k a)) -> never_fails (gbind m k).
Proof.
  intros Hm Hk st e. unfold gbind. specialize (Hm st). destruct (m st) as [[a|e'|] st']; cbn in *;
    [apply Hk|by intros [= ->]; eapply Hm|done].
Qed.
Lemma nf_try {A B} (m : M (PSt W) A) (k : A + error -> M (PSt W) B) :
  (forall r, never_fails (k r)) -> never_fails (gtry m k).
Proof. intros Hk st e. unfold gtry. destruct (m st) as [[a|e'|] st']; [apply Hk|apply Hk|done]. Qed.
Lemma nf_ignore {A} (m : M (PSt W) A) : never_fails (gignore m).
Proof. intros st e. unfold gignore. by destruct (m st) as [[]?]. Qed.
Lemma nf_send m : never_fails (send (W := W) m).
Proof. by intros st e. Qed.
Lemma nf_when b (m : M (PSt W) unit) : never_fails m -> never_fails (when b m).
Proof. destruct b; [done|]. intros _. apply nf_ret. Qed.
Lemma nf_for_each {A} (f : A -> M (PSt W) unit) l :
  (forall a, never_fails (f a)) -> never_fails (for_each f l).
Proof.
  intros Hf. induction l as [|a l IH]; [apply nf_ret|]. by apply nf_bind.
Qed.

Lemma q_ret t {A} (a : A) : quiet t (gret a).
Proof. by intros st. Qed.
Lemma q_fail t {A} e : quiet t (A := A) (gfail e).
Proof. by intros st. Qed.
Lemma q_panic t {A} : quiet t (A := A) gpanic.
Proof. by intros st. Qed.
Lemma q_deref t {A} (o : option A) : quiet t (deref o).
Proof. by destruct o. Qed.
Lemma q_bind t {A B} (m : M (PSt W) A) (k : A -> M (PSt W) B) :
  quiet t m -> (forall a, quiet t (k a)) -> quiet t (gbind m k).
Proof.
  intros Hm Hk st. unfold gbind. specialize (Hm st). destruct (m st) as [[a|e'|] st']; cbn in *;
    [by rewrite Hk|done|done].
Qed.
Lemma q_try t {A B} (m : M (PSt W) A) (k : A + error -> M (PSt W) B) :
  quiet t m -> (forall r, quiet t (k r)) -> quiet t (gtry m k).
Proof.
  intros Hm Hk st. unfold gtry. specialize (Hm st). destruct (m st) as [[a|e'|] st']; cbn in *;
    [by rewrite Hk|by rewrite Hk|done].
Qed.
Lemma q_wrap t {A} f (m : M (PSt W) A) : quiet t m -> quiet t (gwrap f m).
Proof. intros Hm st. unfold gwrap. specialize (Hm st). by destruct (m st). Qed.
Lemma q_ignore t {A} (m : M (PSt W) A) : quiet t m -> quiet t (gignore m).
Proof. intros Hm st. unfold gignore. specialize (Hm st). by destruct (m st) as [[]?]. Qed.
Lemma q_store t {A} (m : M W A) : quiet t (store m).
Proof. intros st. unfold store. by destruct (m (p_world st)). Qed.
Lemma q_send t m : of_type t m = false -> quiet t (send (W := W) m).
Proof.
  intros Hm st. unfold send. cbn [snd p_sent]. rewrite tally_app. unfold tally at 2.
  rewrite filter_test, Hm. cbn. lia.
Qed.
Lemma q_when t b (m : M (PSt W) unit) : quiet t m -> quiet t (when b m).
Proof. by destruct b. Qed.
Lemma q_now t clock : quiet t (time_Now (W := W) clock).
Proof. by intros st. Qed.
Lemma q_uuid t fresh : quiet t (uuid_New (W := W) fresh).
Proof. by intros st. Qed.
Lemma q_for_each t {A} (f : A -> M (PSt W) unit) l :
  (forall a, quiet t (f a)) -> quiet t (for_each f l).
Proof. intros Hf. induction l as [|a l IH]; [apply q_ret|]. by apply q_bind. Qed.

(** A loop over bodies that do not fail adds up their counts. *)
Lemma counts_for_each t {A} (f : A -> M (PSt W) unit) (n : A -> nat) l :
  (forall a, never_fails (f a)) -> (forall a, counts t (n a) (f a)) ->
  counts t (sum_list (n <$> l)) (for_each f l).
Proof.
  intros Hnf Hf. induction l as [|a l IH]; intros st Hp; [unfold for_each, gret; cbn; lia|].
  cbn [for_each] in *. unfold gbind in *. specialize (Hf a st). specialize (Hnf a st).
  destruct (f a st) as [[[]|e|] st'] eqn:E; cbn [fst snd] in *; [|by destruct (Hnf e)|done].
  rewrite IH, Hf by done. cbn. lia.
Qed.
End programs.

#[export] Hint Resolve nf_ret nf_bind nf_try nf_ignore nf_send nf_when nf_for_each : quiet.
#[export] Hint Resolve q_ret q_fail q_panic q_deref q_wrap q_ignore q_store q_send q_when
  q_now q_uuid : quiet.

(** Follow the program; a branch of a [match] is quiet when each case is. *)
Ltac quiet_step :=
  lazymatch goal with
  | |- quiet _ (gbind _ _) => apply q_bind; [|intros ?]
  | |- quiet _ (gtry _ _) => apply q_try; [|intros ?]
  | |- quiet _ (if ?b then _ else _) => destruct b
  | |- quiet _ (match ?x with _ => _ end) => destruct x
  | |- never_fails (gbind _ _) => apply nf_bind; [|intros ?]
  | |- never_fails (gtry _ _) => apply nf_try; intros ?
  | |- never_fails (if ?b then _ else _) => destruct b
  | |- never_fails (match ?x with _ => _ end) => destruct x
  | |- _ => solve [auto with quiet]
  end.

Section processor.
Context {W : Type} `{CircleRepo.Repository W, UserRepository W, ReputationRepository W,
  IndexerDB W, UUIDLib, GoFloatConv}.
Variable p : EventProcessor W.
Variable clock : nat -> time.
Variable fresh_uuid : nat -> uuid.

(** ** No failure is reported *)
Lemma nf_txnTime t : never_fails (W := W) (txnTime clock t).
Proof. unfold txnTime. destruct (time_IsZero t); [by intros st e|apply nf_ret]. Qed.

Lemma nf_Broadcast id t payload ts : never_fails (W := W) (Broadcast p id t payload ts).
Proof. unfold Broadcast. repeat quiet_step. Qed.

Lemma nf_count_event t o : never_fails (W := W) (count_event p t o).
Proof. unfold count_event. repeat quiet_step. Qed.

Lemma nf_process_event ev : never_fails (process_event p clock fresh_uuid ev).
Proof. unfold process_event. repeat (quiet_step || apply nf_count_event). Qed.

Lemma nf_processOperation txn op : never_fails (processOperation p clock fresh_uuid txn op).
Proof.
  unfold processOperation, handleCreateAccount, handlePayment, handleSorobanInvoke,
    handleExtendTTL, processContractEvents.
  repeat (case_decide || apply nf_txnTime || apply nf_Broadcast || quiet_step ||
    (apply nf_for_each; intros ?) || apply nf_process_event).
Qed.

Lemma process_operations_no_error txn ops errs st :
  match (process_operations p clock fresh_uuid txn ops errs st).1 with
  | Ok errs' => errs' = errs | Err _ => False | Panic => True
  end.
Proof.
  revert errs st. induction ops as [|op ops IH]; intros errs st; [done|]. cbn [process_operations].
  unfold gtry. pose proof (nf_processOperation txn op st) as Hnf.
  destruct (processOperation _ _ _ txn op st) as [[[]|e|] st']; cbn in *; [|by destruct (Hnf e)|done].
  specialize (IH (errs ++ []) st'). by rewrite app_nil_r in *.
Qed.

Lemma nf_ProcessTransaction txn : never_fails (ProcessTransaction p clock fresh_uuid txn).
Proof.
  intros st e. unfold ProcessTransaction. destruct (tx_Operations txn) as [|op ops]; [done|].
  pose proof (process_operations_no_error txn (op :: ops) [] st) as Hp. unfold gbind.
  destruct (process_operations _ _ _ _ _ _ st) as [[errs|e'|] st']; cbn in Hp; [by subst|done|done].
Qed.

(** Processing a transaction never returns an error, whatever the storage, the
    decoder or a handler does: a failed event is logged and counted, and the
    caller is told that the transaction was processed. *)
Theorem ProcessTransaction_never_fails txn st e :
  (ProcessTransaction p clock fresh_uuid txn st).1 <> Err e.
Proof. apply nf_ProcessTransaction. Qed.

(** ** Every event is counted once *)
Lemma q_circleRepo t {A} (m : M W A) : quiet t (circleRepo p m).
Proof. unfold circleRepo. repeat quiet_step. Qed.
Lemma q_userRepo t {A} (m : M W A) : quiet t (userRepo p m).
Proof. unfold userRepo. repeat quiet_step. Qed.
Lemma q_txnTime t c : quiet (W := W) t (txnTime clock c).
Proof. unfold txnTime. repeat quiet_step. Qed.
Lemma q_announce t ev id ty payload : quiet t (announce p clock ev id ty payload).
Proof.
  unfold announce, Broadcast, evTime. apply q_bind; [apply q_txnTime|]. intros ts.
  repeat quiet_step.
Qed.
Lemma q_found_or_skip t {A} f (m : M (PSt W) (option A)) k :
  quiet t m -> (forall a, quiet t (k a)) -> quiet t (found_or_skip f m k).
Proof. intros Hm Hk. unfold found_or_skip. repeat (quiet_step || done). Qed.
Lemma q_applyContribution t c : quiet t (applyContribution p clock c).
Proof. unfold applyContribution. repeat quiet_step. Qed.
Lemma q_recordPayout t c : quiet t (recordPayoutAndAdvance p clock c).
Proof. unfold recordPayoutAndAdvance. repeat quiet_step. Qed.
Hint Resolve q_circleRepo q_userRepo q_txnTime q_announce q_applyContribution q_recordPayout : quiet.

Lemma q_dispatchEvent t ev : quiet t (dispatchEvent p clock fresh_uuid ev).
Proof.
  unfold dispatchEvent, onCircleCreated, onMemberJoined, onContributionReceived, onPayoutExecuted,
    onLateReported, onMemberExited, onDefaultRecorded, onCircleCompleted, onAuctionBid, onVoteCast,
    onDisputeRaised, onFeeDeposited, dispute_raiser, evTime.
  repeat case_decide; repeat ((apply q_found_or_skip; [auto with quiet|intros ?]) || quiet_step).
Qed.

Lemma q_persist t ev : quiet t (persistContractEvent p ev).
Proof. unfold persistContractEvent, contractVersion. repeat quiet_step. Qed.

Lemma count_event_counts t ty o :
  t <> ""%string -> ep_events p = true ->
  counts (W := W) t (if decide (ty = t) then 1 else 0) (count_event p ty o).
Proof.
  intros Ht He st _. unfold count_event. case_decide as Hty.
  - rewrite decide_False by congruence. cbn. lia.
  - rewrite He. unfold when, send. cbn [snd p_sent]. rewrite tally_app. f_equal.
    unfold tally. rewrite filter_test. cbn. by repeat case_decide || case_bool_decide.
Qed.

Lemma safeDispatch_cases ev st :
  (safeDispatchEvent p clock fresh_uuid ev st).2 = (dispatchEvent p clock fresh_uuid ev st).2 /\
  (safeDispatchEvent p clock fresh_uuid ev st).1 <> Panic.
Proof. unfold safeDispatchEvent. by destruct (dispatchEvent _ _ _ ev st) as [[]?]. Qed.

Lemma process_event_counts t ev :
  t <> ""%string -> ep_events p = true ->
  counts t (if decide (ev_EventType ev = t) then 1 else 0) (process_event p clock fresh_uuid ev).
Proof.
  intros Ht He st Hp. unfold process_event in *. destruct (isUnknownContract _ _).
  - assert (quiet (W := W) t (when (ep_unknownEvents p) (send CountedUnknownContract))) as Hq
      by auto with quiet.
    unfold gbind in *. specialize (Hq st).
    destruct (when _ _ st) as [[[]|e|] st'] eqn:E; cbn in Hq, Hp |- *; [|..].
    + rewrite (count_event_counts t _ _ Ht He) by done. lia.
    + unfold when in E. by destruct (ep_unknownEvents p).
    + done.
  - unfold gtry in *. destruct (safeDispatch_cases ev st) as [Hs Hn].
    pose proof (q_dispatchEvent t ev st) as Hq. rewrite <-Hs in Hq.
    destruct (safeDispatchEvent _ _ _ ev st) as [[[]|e|] st'] eqn:E; cbn in *; [..|done];
      rewrite (count_event_counts t _ _ Ht He) by done; lia.
Qed.

(** Every decoded event is counted under its type exactly once: whether its
    contract is known, its type has a handler, or the handler fails or panics. *)
Theorem every_event_counted_once t events closeTime st st' :
  t <> ""%string -> ep_events p = true ->
  processContractEvents p clock fresh_uuid events closeTime st = (Ok tt, st') ->
  tally t (p_sent st') =
    (tally t (p_sent st) + length (filter (λ ev, ev_EventType ev = t) events))%nat.
Proof.
  intros Ht He E. unfold processContractEvents in E. set (evs := at_close closeTime <$> events) in *.
  apply gbind_Ok_inv in E as ([] & st1 & E1 & E2).
  pose proof (counts_for_each t _ (λ ev, if decide (ev_EventType ev = t) then 1 else 0)%nat evs
    nf_process_event (λ ev, process_event_counts t ev Ht He) st) as Hc.
  rewrite E1 in Hc. cbn [fst snd] in Hc.
  assert (tally t (p_sent st') = tally t (p_sent st1)) as ->.
  { destruct (ep_db p); [|by injection E2 as <-].
    assert (quiet t (for_each (λ ev, gignore (persistContractEvent p ev)) evs)) as Hq.
    { apply q_for_each. intros ev. apply q_ignore, q_persist. }
    specialize (Hq st1). by rewrite E2 in Hq. }
  rewrite Hc by done. f_equal. unfold evs. clear. induction events as [|ev events IH]; [done|].
  rewrite filter_cons. cbn. case_decide; cbn in IH |- *; by rewrite IH.
Qed.

(** ** An unknown circle is an error *)

(** The handlers that look the circle of the event up in the database. *)
Definition circle_event (t : string) : Prop :=
  t ∈ [EventCircleCreated; EventMemberJoined; EventContributionReceived; EventPayoutExecuted;
       EventLateReported; EventMemberExited; EventCircleCompleted; EventAuctionBid; EventVoteCast;
       EventDisputeRaised].

Lemma found_or_skip_missing {A} f (m : M W (option A)) k w w' sent tick e :
  m w = (Err e, w') -> isNotFound e = false ->
  found_or_skip f (store m) k (Build_PSt w sent tick) = (Err (Wrapf f e), Build_PSt w' sent tick).
Proof. intros Em Hn. unfold found_or_skip, gtry, store. cbn. by rewrite Em, Hn. Qed.

(** The repository answers for a circle it does not have with its own sentinel,
    whose text is not the one [isNotFound] compares with: the event fails, where
    the handlers mean to skip it, and nothing is announced; the announcement of a
    new circle on the chain is never sent. *)
Lemma unknown_circle_fails ev w w' sent tick :
  ep_circleRepo p = true -> ep_userRepo p = true ->
  circle_event (ev_EventType ev) -> payloadStr (ev_Payload ev) "circle_id" <> ""%string ->
  FindByContractID (payloadStr (ev_Payload ev) "circle_id") w = (Err ErrCircleNotFound, w') ->
  exists f, dispatchEvent p clock fresh_uuid ev (Build_PSt w sent tick) =
    (Err (Wrapf f ErrCircleNotFound), Build_PSt w' sent tick).
Proof.
  intros Hc Hu Hev Hne Hf.
  assert (forall A f (k : A -> _) (m : M W (option A)), m w = (Err ErrCircleNotFound, w') ->
    exists f', found_or_skip f (circleRepo p m) k (Build_PSt w sent tick) =
      (Err (Wrapf f' ErrCircleNotFound), Build_PSt w' sent tick)) as Hskip.
  { intros A f k m Em. exists f. unfold circleRepo. rewrite Hc. by apply found_or_skip_missing. }
  unfold circle_event in Hev. unfold dispatchEvent.
  repeat (apply elem_of_cons in Hev as [->|Hev]); [..|by apply elem_of_nil in Hev].
  all: repeat (rewrite decide_False by done); rewrite decide_True by done.
  all: unfold onMemberJoined, onContributionReceived, onPayoutExecuted, onLateReported,
    onMemberExited, onCircleCompleted, onDisputeRaised, onAuctionBid, onVoteCast, circle_or_emitter.
  all: rewrite ?Hc, ?Hu; cbn [negb orb]; cbv zeta; try rewrite decide_False by done.
  all: try by apply Hskip.
  unfold onCircleCreated. cbv zeta. rewrite decide_False by done. unfold gtry, circleRepo, store.
  rewrite Hc. cbn. rewrite Hf. cbn. eauto.
Qed.
End processor.

(** ** A recorded transaction *)

(** What the handlers rely on in the storage: a lookup changes nothing, the
    transactional write is the one of [circletx]. *)
Class StoreLaws {W} `{UserRepository W, IndexerDB W, PgNumeric} (tables_of : W -> tables) : Prop := {
  FindByWalletAddress_law a : refines tables_of (FindByWalletAddress a) (λ t _ t', t' = t);
  applyContribution_law now c : refines tables_of (db_applyContribution now c) (applied now c);
}.

Section replay.
Context {W : Type} `{CircleRepo.Repository W, UserRepository W, ReputationRepository W,
  IndexerDB W, UUIDLib, GoFloatConv, Transactor W, TextMatch, PgNumeric}.
Variable tables_of : W -> tables.
Context `{!RepositoryLaws W tables_of, !StoreLaws tables_of}.
Variable p : EventProcessor W.
Variable clock : nat -> time.
Variable fresh_uuid : nat -> uuid.

(** The tables and the messages a run starts with. *)
Definition unmoved (t : tables) (sent : list message) (st : PSt W) : Prop :=
  tables_of (p_world st) = t /\ p_sent st = sent.

Lemma wp_store_keeps {A} (m : M W A) t sent st (Q : result A -> PSt W -> Prop) :
  unmoved t sent st -> (forall w r w', tables_of w = t -> m w = (r, w') -> tables_of w' = t) ->
  (forall r st', unmoved t sent st' -> Q r st') -> wp (store m) st Q.
Proof.
  intros [Ht Hs] Hm HQ. apply wp_of_run. intros r st' E. unfold store in E.
  destruct (m (p_world st)) as [r1 w'] eqn:Em. injection E as <- <-. apply HQ. split; [|done].
  cbn. by eapply Hm.
Qed.

Lemma wp_found_or_skip {A} f (m : M (PSt W) (option A)) k t sent st (Q : result unit -> PSt W -> Prop) :
  wp m st (λ _ st', unmoved t sent st') ->
  (forall a st', unmoved t sent st' -> wp (k a) st' Q) ->
  (forall r st', unmoved t sent st' -> Q r st') -> wp (found_or_skip f m k) st Q.
Proof.
  intros Hm Hk HQ. unfold found_or_skip. apply wp_try. eapply wp_mono; [exact Hm|].
  intros [o|e|] st' Hu.
  - apply wp_bind. destruct o; [by apply Hk|by apply HQ].
  - destruct (isNotFound e); by apply HQ.
  - by apply HQ.
Qed.

(** No call of the circle service links a circle to its contract, so an event of
    a circle the service created finds no circle: it fails, nothing is written
    and nothing is announced. *)
Theorem created_circle_events_fail ev w r w' sent tick :
  ep_circleRepo p = true -> ep_userRepo p = true ->
  rtc circle_step empty_tables (tables_of w) ->
  circle_event (ev_EventType ev) -> payloadStr (ev_Payload ev) "circle_id" <> ""%string ->
  FindByContractID (payloadStr (ev_Payload ev) "circle_id") w = (r, w') ->
  (forall e, r = Err e -> infra e = false) ->
  (exists f, dispatchEvent p clock fresh_uuid ev (Build_PSt w sent tick) =
    (Err (Wrapf f ErrCircleNotFound), Build_PSt w' sent tick)) /\
  tables_of w' = tables_of w.
Proof.
  intros Hc Hu Hs Hev Hne E Hi. apply steps_unlinked in Hs; [|apply map_Forall_empty].
  pose proof E as [Ef|[(e & -> & He) _]]%FindByContractID_law; [|by rewrite (Hi e) in He].
  unfold spec_FindByContractID, found in Ef. set (l := filter _ _) in Ef.
  assert (l = []) as Hl.
  { destruct l as [|c l'] eqn:El; [done|]. exfalso. assert (c ∈ l) as Hin by (rewrite El; by left).
    apply list_elem_of_filter in Hin as [Hm%Is_true_true Hin]. go_bool.
    apply list_elem_of_fmap in Hin as ([id c'] & -> & Hin).
    apply elem_of_map_to_list, Hs in Hin. cbn in *. congruence. }
  rewrite Hl in Ef. cbn in Ef. injection Ef as -> Ht. split; [|done].
  by apply unknown_circle_fails.
Qed.

(** Once a row of a transaction is stored, an event of the transaction writes
    nothing and announces nothing: a replayed event, a second contribution of
    the same transaction, or one the API has recorded. *)
Theorem recorded_transaction_not_applied ev st r st' :
  is_Some (contribution.with_hash (ev_TxHash ev) (tables_of (p_world st))) ->
  onContributionReceived p clock fresh_uuid ev st = (r, st') ->
  tables_of (p_world st') = tables_of (p_world st) /\ p_sent st' = p_sent st.
Proof.
  intros [d Hd] E. set (t := tables_of (p_world st)) in *. set (sent := p_sent st).
  apply head_Some_elem_of, list_elem_of_filter in Hd as [Hh Hin].
  refine (wp_run _ st (λ _ st', unmoved t sent st') _ _ _ E).
  unfold onContributionReceived, circleRepo, userRepo.
  apply (wp_found_or_skip _ _ _ t sent); [|intros c st1 Hu1|done].
  { destruct (ep_circleRepo p); [|by apply wp_panic]. eapply wp_store_keeps; [done| |done].
    intros w r1 w' Hw Ew. apply FindByContractID_law in Ew as [Ew|[_ Ew]]; [|congruence].
    unfold spec_FindByContractID, found in Ew. case_match; simplify_eq; congruence. }
  apply (wp_found_or_skip _ _ _ t sent); [|intros u st2 Hu2|done].
  { destruct (ep_userRepo p); [|by apply wp_panic]. eapply wp_store_keeps; [done| |done].
    intros w r1 w' Hw Ew. apply FindByWalletAddress_law in Ew. congruence. }
  do 3 (apply wp_bind; apply wp_of_run; intros ? ? [= <- <-]).
  unfold applyContribution. apply wp_try. destruct (ep_db p).
  2: { apply wp_fail. cbn. done. }
  apply wp_bind. apply wp_of_run. intros ? ? [= <- <-]. apply wp_of_run. intros r3 st3 E3.
  unfold store in E3. destruct (db_applyContribution _ _ _) as [r4 w4] eqn:E4.
  injection E3 as <- <-. apply applyContribution_law in E4. cbn in E4.
  destruct Hu2 as [Ht2 Hs2]. rewrite Ht2 in E4. destruct r4 as [adv|err|]; [|..].
  - exfalso. destruct E4 as (Hn & _). eapply existsb_false_elem in Hn; [|exact Hin].
    apply no_clash_hash in Hn; [|by eexists]. by rewrite Hh in Hn.
  - cbn in E4. destruct (errors_Is err _); by split.
  - done.
Qed.
End replay.
End processorprops.
