(* ===== verification/Indexer.v ===== *)
(** The indexer (src/internal/indexer/engine.go, deduplicator.go, cursor.go,
    deadletter.go, reconciler.go, backfill.go): the poll cycle, the rollback
    after a reorganization, the replay of missed ledgers. *)
From S2P Require Export ProcessorProps.
From stdpp Require Import options.
#[local] Set Default Proof Using "Type*".
Open Scope Z_scope.
Local Open Scope go_scope.

Module indexer.
Import circletx ledgers processor.

(** ** The tables of the indexer

    The cursor of the chain "stellar" and the events that failed, behind the
    types the engine holds. *)
Record Cursor := { cur_LastLedger : Z; cur_LastProcessedAt : time }.

Record DeadLetterEntry := {
  dl_ID : string;
  dl_Chain : string;
  dl_TxHash : string;
  dl_Ledger : Z;
  dl_Error : string;
  dl_Attempts : Z;
  dl_Payload : option string;
  dl_Status : string;
  dl_CreatedAt : time;
  dl_UpdatedAt : time;
  dl_ResolvedAt : option time;
}.

Class CursorTracker (W : Type) := {
  GetCurrent : M W Cursor;
  CursorUpdate : Z -> time -> M W unit;
  CursorRewind : Z -> time -> M W unit;
}.
Class DeadLetterStore (W : Type) := {
  RecordDeadLetter : time -> string -> DeadLetterEntry -> M W string;
  ListDeadLetters : Z -> M W (list DeadLetterEntry);
  CountDeadLetters : M W Z;
  ResolveDeadLetter : time -> string -> M W unit;
}.
(** [PostgresRewinder]; its [Rewind] is that of the cursor. *)
Class Rewinder (W : Type) := { DeleteEventsFrom : Z -> M W Z }.

(** ** deduplicator.go *)
Record Deduplicator := { seen : gmap string time; maxAge : duration }.
Definition NewDeduplicator (age : duration) : Deduplicator := {| seen := ∅; maxAge := age |}.
Definition Has (now : time) (hash : string) (d : Deduplicator) : bool :=
  match seen d !! hash with
  | Some t => time_Sub now t <? maxAge d
  | None => false
  end.
Definition Add (now : time) (hash : string) (d : Deduplicator) : Deduplicator :=
  {| seen := <[hash := now]> (seen d); maxAge := maxAge d |}.
Definition Prune (now : time) (d : Deduplicator) : Deduplicator :=
  {| seen := filter (λ kv, time_Before kv.2 (time_Add now (- maxAge d)) = false) (seen d);
     maxAge := maxAge d |}.

(** ** The engine *)
Record Engine (W : Type) := {
  BatchSize : Z;
  chain_Window : Z;
  poller : Poller W;
  event_processor : EventProcessor W;
  deadLetters : bool;
  MarshalPayload : Transaction -> string + error;
}.
Arguments BatchSize {W} _.
Arguments chain_Window {W} _.
Arguments poller {W} _.
Arguments event_processor {W} _.
Arguments deadLetters {W} _.
Arguments MarshalPayload {W} _ _.

(** The run of the processor, and what the engine keeps in memory. *)
Record ESt (W : Type) := { e_run : PSt W; e_dedup : Deduplicator; e_history : LedgerHistory }.
Arguments e_run {W} _.
Arguments e_dedup {W} _.
Arguments e_history {W} _.
Arguments Build_ESt {W} _ _ _.

Section engine.
Context {W : Type} `{CircleRepo.Repository W, UserRepository W, ReputationRepository W,
  IndexerDB W, CursorTracker W, DeadLetterStore W, Rewinder W, UUIDLib, GoFloatConv}.
Variable e : Engine W.
Variable clock : nat -> time.
Variable fresh_uuid : nat -> uuid.

Definition on_run {A} (m : M (PSt W) A) : M (ESt W) A := λ st,
  let '(r, run) := m (e_run st) in (r, Build_ESt run (e_dedup st) (e_history st)).
Definition on_dedup (f : Deduplicator -> Deduplicator) : M (ESt W) unit := λ st,
  (Ok tt, Build_ESt (e_run st) (f (e_dedup st)) (e_history st)).
Definition on_history (f : LedgerHistory -> LedgerHistory) : M (ESt W) unit := λ st,
  (Ok tt, Build_ESt (e_run st) (e_dedup st) (f (e_history st))).
Definition db {A} (m : M W A) : M (ESt W) A := on_run (store m).
Definition now : M (ESt W) time := on_run (time_Now clock).

Fixpoint each {A} (f : A -> M (ESt W) unit) (l : list A) : M (ESt W) unit :=
  match l with
  | [] => gret tt
  | a :: l => do! f a in each f l
  end.

(** [e.checkReorg]: the rollback of a fork inside the window, and the cursor to
    continue from. *)
Definition checkReorg (cursor : Cursor) : M (ESt W) Cursor :=
  if cur_LastLedger cursor <=? 0 then gret cursor else
  let! history := λ st, (Ok (e_history st), st) in
  let! plan := gwrap "reorg check: %w"
    (db (DetectReorg (poller e) (chain_Window e) history (cur_LastLedger cursor))) in
  match plan with
  | None => gret cursor
  | Some plan =>
      do! gwrap "reorg rollback: %w" (db (DeleteEventsFrom (ForkLedger plan))) in
      let! at_ := now in
      do! gwrap "reorg rollback: %w" (gwrap "rewinding cursor: %w"
        (db (CursorRewind (LastLedger plan) at_))) in
      do! on_history (Truncate (ForkLedger plan)) in
      let! at_ := now in
      gret {| cur_LastLedger := LastLedger plan; cur_LastProcessedAt := at_ |}
  end.

(** The entry of a failed transaction; its identifier is the store's. *)
Definition dead_letter_entry (hash : string) (ledger : Z) (cause : error) (payload : option string) :
    DeadLetterEntry :=
  {| dl_ID := ""; dl_Chain := "stellar"; dl_TxHash := hash; dl_Ledger := ledger;
     dl_Error := error_text cause; dl_Attempts := 1; dl_Payload := payload;
     dl_Status := "dead_letter"; dl_CreatedAt := 0; dl_UpdatedAt := 0; dl_ResolvedAt := None |}.

(** [e.deadLetter]: an error of the store is logged. *)
Definition deadLetter (txn : Transaction) (ledger : Z) (cause : error) : M (ESt W) unit :=
  if deadLetters e then
    let! at_ := now in
    let! id := on_run (uuid_New fresh_uuid) in
    gignore (db (RecordDeadLetter at_ (uuid_String id) (dead_letter_entry (tx_Hash txn) ledger cause
      (match MarshalPayload e txn with inl payload => Some payload | inr _ => None end))))
  else gret tt.

Definition at_ledger (closed : time) (txn : Transaction) : Transaction :=
  {| tx_Hash := tx_Hash txn; tx_Ledger := tx_Ledger txn; tx_CreatedAt := tx_CreatedAt txn;
     tx_SourceAccount := tx_SourceAccount txn; tx_Successful := tx_Successful txn;
     tx_Operations := tx_Operations txn; tx_LedgerCloseTime := closed |}.

(** One transaction of a ledger: skipped when its hash was seen. *)
Definition process_once (ledger_of : Transaction -> Z) (txn : Transaction) : M (ESt W) unit :=
  let! at_ := now in
  let! has := λ st, (Ok (Has at_ (tx_Hash txn) (e_dedup st)), st) in
  if has : bool then gret tt else
  let! at_ := now in
  do! on_dedup (Add at_ (tx_Hash txn)) in
  gtry (on_run (ProcessTransaction (event_processor e) clock fresh_uuid txn)) (λ r,
    match r with
    | inl _ => gret tt
    | inr err => deadLetter txn (ledger_of txn) err
    end).

(** One ledger of a poll: an error of the request for its transactions skips it. *)
Definition process_ledger (ledger : Ledger) : M (ESt W) unit :=
  do! on_history (Record_ (l_Sequence ledger) (l_Hash ledger)) in
  gtry (db (FetchTransactions (poller e) (l_Sequence ledger))) (λ r,
    match r with
    | inr _ => gret tt
    | inl txns =>
        each (process_once tx_Ledger)
          (at_ledger (l_ClosedAt ledger) <$> FilterByContract (contractIDs (poller e)) txns)
    end).

Definition poll : M (ESt W) unit :=
  let! cursor := gwrap "reading cursor: %w" (db GetCurrent) in
  let! cursor := checkReorg cursor in
  let! ledgers := gwrap "fetching ledgers: %w"
    (db (FetchLedgers (poller e) (cur_LastLedger cursor) (BatchSize e))) in
  match last ledgers with
  | None => gret tt
  | Some newest =>
      do! each process_ledger ledgers in
      let! at_ := now in
      gwrap "updating cursor: %w" (db (CursorUpdate (l_Sequence newest) at_))
  end.

(** ** reconciler.go

    The reconciler has a deduplicator of its own.  [cancelled] answers the test of
    the context before each batch. *)
Variable batchSize maxLedgersPerCycle : Z.
Variable cancelled : nat -> bool.

Definition save_cursor (sequence : Z) : M (ESt W) unit :=
  let! at_ := now in
  gwrap "updating cursor during reconciliation: %w" (db (CursorUpdate sequence at_)).

Definition reconcile_ledger (ledger : Ledger) : M (ESt W) unit :=
  gtry (db (FetchTransactions (poller e) (l_Sequence ledger))) (λ r,
    match r with
    | inr _ => save_cursor (l_Sequence ledger)
    | inl txns =>
        do! each (process_once (λ _, l_Sequence ledger))
          (FilterByContract (contractIDs (poller e)) txns) in
        save_cursor (l_Sequence ledger)
    end).

Definition or_default (n d : Z) : Z := if n <=? 0 then d else n.

(** One batch: the number of ledgers fetched so far and the cursor, or the end. *)
Definition reconcile_batch (i : nat) (total cursor : Z) : M (ESt W) (option (Z * Z)) :=
  if cancelled i then gfail (External "context canceled") else
  let maxPerCycle := or_default maxLedgersPerCycle 500 in
  let limit := Z.min (or_default batchSize 50) (maxPerCycle - total) in
  let! missed := gwrap "fetching missed ledgers: %w" (db (FetchLedgers (poller e) cursor limit)) in
  match last missed with
  | None => gret None
  | Some newest =>
      do! each reconcile_ledger missed in
      if Z.of_nat (length missed) <? limit then gret None
      else gret (Some (total + Z.of_nat (length missed), l_Sequence newest))
  end.

Fixpoint reconcile_loop (fuel i : nat) (total cursor : Z) (st : ESt W) :
    option (result unit * ESt W) :=
  match fuel with
  | O => None
  | S fuel =>
      if total <? or_default maxLedgersPerCycle 500 then
        match reconcile_batch i total cursor st with
        | (Ok (Some (total', cursor')), st') => reconcile_loop fuel (S i) total' cursor' st'
        | (Ok None, st') => Some (Ok tt, st')
        | (Err err, st') => Some (Err err, st')
        | (Panic, st') => Some (Panic, st')
        end
      else Some (Ok tt, st)
  end.

(** The test for a gap before the loop. *)
Definition reconcile_gap : M (ESt W) (option Z) :=
  let! cursor := gwrap "reading cursor: %w" (db GetCurrent) in
  let! ledgers := gwrap "fetching latest ledger: %w"
    (db (FetchLedgers (poller e) (cur_LastLedger cursor) 1)) in
  match ledgers with
  | [] => gret None
  | l :: _ =>
      let latestChain := wrap64 (wrap64 (l_Sequence l + Z.of_nat (length ledgers)) - 1) in
      if wrap64 (latestChain - cur_LastLedger cursor) <=? 0 then gret None
      else gret (Some (cur_LastLedger cursor))
  end.

Definition Reconcile (fuel : nat) (st : ESt W) : option (result unit * ESt W) :=
  match reconcile_gap st with
  | (Ok (Some cursor), st') => reconcile_loop fuel 0 0 cursor st'
  | (Ok None, st') => Some (Ok tt, st')
  | (Err err, st') => Some (Err err, st')
  | (Panic, st') => Some (Panic, st')
  end.

(** ** backfill.go

    The number of processed transactions; the loop over the ledgers is the list
    of its sequences, which is finite below the largest [int64]. *)
Definition backfill_txn (dryRun : bool) (total : Z) (txn : Transaction) : M (ESt W) Z :=
  if dryRun then gret (wrap64 (total + 1)) else
  gtry (on_run (ProcessTransaction (event_processor e) clock fresh_uuid txn)) (λ r,
    gret (match r with inl _ => wrap64 (total + 1) | inr _ => total end)).

Fixpoint fold_m {A B} (f : B -> A -> M (ESt W) B) (b : B) (l : list A) : M (ESt W) B :=
  match l with
  | [] => gret b
  | a :: l => let! b := f b a in fold_m f b l
  end.

Definition backfill_ledger (dryRun : bool) (total seq : Z) : M (ESt W) Z :=
  gtry (db (FetchTransactions (poller e) seq)) (λ r,
    match r with
    | inr _ => gret total
    | inl txs => fold_m (backfill_txn dryRun) total (FilterByContract (contractIDs (poller e)) txs)
    end).

Definition Backfill (fromLedger toLedger : Z) (dryRun : bool) : M (ESt W) Z :=
  if toLedger <? fromLedger then gfail (Errorf "fromLedger cannot be greater than toLedger")
  else fold_m (backfill_ledger dryRun) 0 (seqZ fromLedger (toLedger - fromLedger + 1)).
End engine.
End indexer.
