(* ===== verification/IndexerProps.v ===== *)
(** What the indexer guarantees: the replay of missed ledgers ends, a poll moves
    the cursor over every ledger it fetched, a rollback does not replay what was
    seen, and no failure reaches the dead letters. *)
From S2P Require Export Indexer.
From stdpp Require Import options.
#[local] Set Default Proof Using "Type*".
Open Scope Z_scope.
Local Open Scope go_scope.

Module indexerprops.
Import circletx ledgers processor processorprops indexer.

(** ** Pointwise equality of programs *)
Section ext.
Context {S : Type}.

Lemma gbind_ext {A B} (m m' : M S A) (k k' : A -> M S B) s :
  m s = m' s -> (forall a s, k a s = k' a s) -> gbind m k s = gbind m' k' s.
Proof. intros Hm Hk. unfold gbind. rewrite Hm. destruct (m' s) as [[]?]; auto. Qed.

Lemma gtry_ext {A B} (m : M S A) (k k' : A + error -> M S B) s :
  (forall r s, k r s = k' r s) -> gtry m k s = gtry m k' s.
Proof. intros Hk. unfold gtry. destruct (m s) as [[]?]; auto. Qed.
End ext.

Section engine.
Context {W : Type} `{CircleRepo.Repository W, UserRepository W, ReputationRepository W,
  IndexerDB W, CursorTracker W, DeadLetterStore W, Rewinder W, UUIDLib, GoFloatConv}.
Variable clock : nat -> time.
Variable fresh_uuid : nat -> uuid.

Lemma each_ext {A} (f g : A -> M (ESt W) unit) l st :
  (forall a st, f a st = g a st) -> each f l st = each g l st.
Proof.
  intros Hfg. revert st. induction l as [|a l IH]; intros st; [done|]. by apply gbind_ext.
Qed.

(** ** The dead letters *)
Definition with_store (b : bool) (e : Engine W) : Engine W :=
  {| BatchSize := BatchSize e; chain_Window := chain_Window e; poller := poller e;
     event_processor := event_processor e; deadLetters := b; MarshalPayload := MarshalPayload e |}.

Lemma run_never_fails e txn (st : ESt W) err :
  (on_run (ProcessTransaction (event_processor e) clock fresh_uuid txn) st).1 <> Err err.
Proof.
  unfold on_run. pose proof (nf_ProcessTransaction (event_processor e) clock fresh_uuid txn (e_run st) err).
  by destruct (ProcessTransaction _ _ _ txn (e_run st)).
Qed.

Lemma process_once_store e b f txn st :
  process_once e clock fresh_uuid f txn st = process_once (with_store b e) clock fresh_uuid f txn st.
Proof.
  unfold process_once. apply gbind_ext; [done|]. intros t s. apply gbind_ext; [done|].
  intros [] s1; [done|]. apply gbind_ext; [done|]. intros t2 s2. apply gbind_ext; [done|].
  intros [] s3. unfold gtry. pose proof (run_never_fails e txn s3) as Hn.
  change (event_processor (with_store b e)) with (event_processor e).
  destruct (on_run _ s3) as [[[]|err|] s4]; [done|by destruct (Hn err)|done].
Qed.

(** The store of the dead letters is never used: a poll does the same with and
    without it, whatever fails on the way. *)
Theorem dead_letters_never_recorded e st :
  poll (with_store true e) clock fresh_uuid st = poll (with_store false e) clock fresh_uuid st.
Proof.
  unfold poll. apply gbind_ext; [done|]. intros c s. apply gbind_ext; [done|]. intros c1 s1.
  apply gbind_ext; [done|]. intros ledgers s2. destruct (last ledgers); [|done].
  apply gbind_ext; [|done]. apply each_ext. intros ledger s3. unfold process_ledger.
  apply gbind_ext; [done|]. intros [] s4. apply gtry_ext. intros [txns|err] s5; [|done].
  apply each_ext. intros txn s6. rewrite (process_once_store (with_store true e) false). done.
Qed.

(** ** The cursor *)
Class CursorLaws (cursor_of : W -> option Z) : Prop := {
  CursorUpdate_law seq t w w' :
    CursorUpdate seq t w = (Ok tt, w') -> exists c, cursor_of w' = Some c /\ seq <= c;
}.

(** A poll that succeeds moves the cursor over every ledger it fetched, also over
    one whose transactions it could not fetch: no later poll asks for it. *)
Theorem poll_passes_fetched_ledgers cursor_of `{!CursorLaws cursor_of} e st st' :
  poll e clock fresh_uuid st = (Ok tt, st') ->
  exists cursor ledgers st1 st2,
    db (FetchLedgers (poller e) (cur_LastLedger cursor) (BatchSize e)) st1 = (Ok ledgers, st2) /\
    (StronglySorted Z.lt (l_Sequence <$> ledgers) -> forall l, l ∈ ledgers ->
       exists c, cursor_of (p_world (e_run st')) = Some c /\ l_Sequence l <= c).
Proof.
  intros E. unfold poll in E. apply gbind_Ok_inv in E as (c0 & s0 & _ & E).
  apply gbind_Ok_inv in E as (cursor & s1 & _ & E).
  apply gbind_Ok_inv in E as (ledgers & s2 & Ef & E). apply gwrap_Ok in Ef.
  exists cursor, ledgers, s1, s2. split; [done|]. intros Hs l Hl.
  destruct (last ledgers) as [newest|] eqn:El.
  2: { apply last_None in El. subst. by apply elem_of_nil in Hl. }
  apply gbind_Ok_inv in E as ([] & s3 & _ & E). apply gbind_Ok_inv in E as (t & s4 & _ & E).
  apply gwrap_Ok in E. unfold db, on_run, store in E.
  destruct (CursorUpdate _ _ _) as [[[]|err|] w] eqn:Ec; simplify_eq/=.
  apply CursorUpdate_law in Ec as (c & Hc & Hle). exists c. split; [done|].
  apply last_Some in El as [init ->]. rewrite fmap_app in Hs.
  apply elem_of_app in Hl as [Hl|Hl%list_elem_of_singleton]; [|by subst].
  apply StronglySorted_app in Hs as (Hs & _ & _).
  specialize (Hs (l_Sequence l) (l_Sequence newest)). cbn in Hs.
  assert (l_Sequence l < l_Sequence newest); [|lia].
  apply Hs; [by apply list_elem_of_fmap_2|by left].
Qed.

(** ** A rollback *)
Lemma on_run_dedup {A} (m : M (PSt W) A) st r st' :
  on_run m st = (r, st') -> e_dedup st' = e_dedup st /\ e_history st' = e_history st.
Proof. unfold on_run. destruct (m (e_run st)). by intros [= <- <-]. Qed.

Definition dedup_kept {A} (m : M (ESt W) A) : Prop := forall st, e_dedup (m st).2 = e_dedup st.

Lemma dk_run {A} (m : M (PSt W) A) : dedup_kept (on_run m).
Proof. intros st. unfold on_run. by destruct (m (e_run st)). Qed.
Lemma dk_bind {A B} (m : M (ESt W) A) (k : A -> M (ESt W) B) :
  dedup_kept m -> (forall a, dedup_kept (k a)) -> dedup_kept (gbind m k).
Proof.
  intros Hm Hk st. unfold gbind. specialize (Hm st). destruct (m st) as [[a|e'|] st']; cbn in *;
    [by rewrite Hk|done|done].
Qed.
Lemma dk_wrap {A} f (m : M (ESt W) A) : dedup_kept m -> dedup_kept (gwrap f m).
Proof. intros Hm st. unfold gwrap. specialize (Hm st). by destruct (m st). Qed.

Lemma dk_checkReorg e cursor : dedup_kept (checkReorg e clock cursor).
Proof.
  unfold checkReorg, db, now. destruct (_ <=? 0); [by intros st|].
  apply dk_bind; [by intros st|]. intros h. apply dk_bind; [apply dk_wrap, dk_run|].
  intros [plan|]; [|by intros st].
  repeat (apply dk_bind; [repeat apply dk_wrap; try apply dk_run; by intros st|intros ?]).
  by intros st.
Qed.

(** A transaction the engine has seen stays seen over a rollback: when the new
    branch contains it again, it is not processed, although the rollback has
    deleted its events. *)
Theorem rolled_back_transaction_not_replayed e cursor f txn st r st' :
  checkReorg e clock cursor st = (r, st') ->
  Has (clock (p_tick (e_run st'))) (tx_Hash txn) (e_dedup st) = true ->
  exists run, process_once e clock fresh_uuid f txn st' =
    (Ok tt, Build_ESt run (e_dedup st) (e_history st')) /\
    p_world run = p_world (e_run st') /\ p_sent run = p_sent (e_run st').
Proof.
  intros E Hh. pose proof (dk_checkReorg e cursor st) as Hd. rewrite E in Hd. cbn in Hd.
  rewrite <-Hd in Hh |- *. unfold process_once, now, gbind. cbn. rewrite Hh. cbn. eauto.
Qed.

(** ** The reconciliation ends *)
Variable batchSize maxLedgersPerCycle : Z.
Variable cancelled : nat -> bool.

Lemma reconcile_batch_progress e i total cursor st total' cursor' st' :
  reconcile_batch e clock fresh_uuid batchSize maxLedgersPerCycle cancelled i total cursor st =
    (Ok (Some (total', cursor')), st') -> total < total'.
Proof.
  unfold reconcile_batch. destruct (cancelled i); [done|]. intros E.
  apply gbind_Ok_inv in E as (missed & s1 & _ & E).
  destruct (last missed) as [newest|] eqn:El; [|done].
  apply gbind_Ok_inv in E as ([] & s2 & _ & E). destruct (_ <? _); [done|].
  injection E as <- <- _. destruct missed; [done|]. cbn. lia.
Qed.

Lemma reconcile_loop_ends e fuel i total cursor st :
  or_default maxLedgersPerCycle 500 - total < Z.of_nat fuel ->
  is_Some (reconcile_loop e clock fresh_uuid batchSize maxLedgersPerCycle cancelled fuel i total cursor st)
  \/ fuel = 0%nat.
Proof.
  revert i total cursor st. induction fuel as [|fuel IH]; intros i total cursor st Hf; [by right|left].
  cbn [reconcile_loop]. destruct (Z.ltb_spec total (or_default maxLedgersPerCycle 500)); [|eauto].
  destruct (reconcile_batch _ _ _ _ _ _ _ _ _ st) as [[[[total' cursor']|]|err|] st1] eqn:E; eauto.
  apply reconcile_batch_progress in E.
  destruct (IH (S i) total' cursor' st1) as [Hs|Hs]; [lia|done|]. subst. lia.
Qed.

(** A reconciliation ends after at most as many batches as ledgers a cycle may
    fetch, whatever Horizon answers. *)
Theorem Reconcile_terminates e st :
  exists r st', Reconcile e clock fresh_uuid batchSize maxLedgersPerCycle cancelled
    (S (Z.to_nat (or_default maxLedgersPerCycle 500))) st = Some (r, st').
Proof.
  assert (0 < or_default maxLedgersPerCycle 500) as Hp.
  { unfold or_default. destruct (Z.leb_spec maxLedgersPerCycle 0); lia. }
  unfold Reconcile. destruct (reconcile_gap e st) as [[[cursor|]|err|] st1]; eauto.
  destruct (reconcile_loop_ends e (S (Z.to_nat (or_default maxLedgersPerCycle 500))) 0 0 cursor st1)
    as [[[r st'] ->]|]; [lia|eauto|done].
Qed.
End engine.
End indexerprops.
