(* ===== verification/IndexerPg.v ===== *)
(** The tables of the indexer in PostgreSQL (src/internal/indexer/cursor.go,
    deadletter.go, ledger_history.go, the statements of processor.go, and the
    queries of the packages user and reputation the handlers use). *)
From S2P Require Export IndexerProps.
From stdpp Require Import options.
#[local] Set Default Proof Using "Type*".
Open Scope Z_scope.
Local Open Scope go_scope.

Module indexerpg.
Import circletx ledgers processor processorprops indexer indexerprops.

(** ** Tables *)
Record user_row := {
  us_Wallet : string; us_MoiScore : Z; us_UpdatedAt : time; us_DeletedAt : option time;
}.

(** A snapshot is stored under its user and the day of its month column, an
    entry of the dead letters under its transaction. *)
Record idx_tables := {
  x_circle : tables;
  x_users : gmap uuid user_row;
  x_reputation : gmap (uuid * Z) ReputationSnapshot;
  x_fees : list fee;
  x_events : list recorded_event;
  x_cursor : option Cursor;
  x_dead : gmap string DeadLetterEntry;
}.

Definition set_x_circle (t : tables) (x : idx_tables) : idx_tables :=
  {| x_circle := t; x_users := x_users x; x_reputation := x_reputation x; x_fees := x_fees x;
     x_events := x_events x; x_cursor := x_cursor x; x_dead := x_dead x |}.
Definition set_x_users (f : gmap uuid user_row -> gmap uuid user_row) (x : idx_tables) : idx_tables :=
  {| x_circle := x_circle x; x_users := f (x_users x); x_reputation := x_reputation x;
     x_fees := x_fees x; x_events := x_events x; x_cursor := x_cursor x; x_dead := x_dead x |}.
Definition set_x_reputation
    (f : gmap (uuid * Z) ReputationSnapshot -> gmap (uuid * Z) ReputationSnapshot)
    (x : idx_tables) : idx_tables :=
  {| x_circle := x_circle x; x_users := x_users x; x_reputation := f (x_reputation x);
     x_fees := x_fees x; x_events := x_events x; x_cursor := x_cursor x; x_dead := x_dead x |}.
Definition set_x_fees (f : list fee -> list fee) (x : idx_tables) : idx_tables :=
  {| x_circle := x_circle x; x_users := x_users x; x_reputation := x_reputation x;
     x_fees := f (x_fees x); x_events := x_events x; x_cursor := x_cursor x; x_dead := x_dead x |}.
Definition set_x_events (f : list recorded_event -> list recorded_event) (x : idx_tables) : idx_tables :=
  {| x_circle := x_circle x; x_users := x_users x; x_reputation := x_reputation x;
     x_fees := x_fees x; x_events := f (x_events x); x_cursor := x_cursor x; x_dead := x_dead x |}.
Definition set_x_cursor (c : option Cursor) (x : idx_tables) : idx_tables :=
  {| x_circle := x_circle x; x_users := x_users x; x_reputation := x_reputation x;
     x_fees := x_fees x; x_events := x_events x; x_cursor := c; x_dead := x_dead x |}.
Definition set_x_dead (f : gmap string DeadLetterEntry -> gmap string DeadLetterEntry)
    (x : idx_tables) : idx_tables :=
  {| x_circle := x_circle x; x_users := x_users x; x_reputation := x_reputation x;
     x_fees := x_fees x; x_events := x_events x; x_cursor := x_cursor x; x_dead := f (x_dead x) |}.

Abbreviation XM := (M (PgState idx_tables)).

(** A statement of another package, on its tables of the same connection. *)
Definition with_rows {T U} (t : U) (s : PgState T) : PgState U :=
  {| pg_tables := t; pg_tx := pg_tx s; pg_faults := pg_faults s |}.
Definition zoom {A} (m : M (PgState tables) A) : XM A := λ s,
  let '(r, s') := m (with_rows (x_circle (pg_tables s)) s) in
  (r, with_rows (set_x_circle (pg_tables s') (pg_tables s)) s').

Definition circle_tables (s : PgState idx_tables) : tables := x_circle (pg_tables s).
Definition cursor_row (s : PgState idx_tables) : option Z :=
  cur_LastLedger <$> x_cursor (pg_tables s).

Lemma zoom_implements {A} (m : M (PgState tables) A) f :
  implements pg_tables m f -> implements circle_tables (zoom m) f.
Proof.
  intros Hm w r w' E. unfold zoom in E. destruct (m _) as [r1 s1] eqn:Em. injection E as <- <-.
  by apply Hm in Em.
Qed.

Lemma zoom_refines {A} (m : M (PgState tables) A) R :
  refines pg_tables m R -> refines circle_tables (zoom m) R.
Proof.
  intros Hm w r w' E. unfold zoom in E. destruct (m _) as [r1 s1] eqn:Em. injection E as <- <-.
  by apply Hm in Em.
Qed.

(** ** Repositories on the connection of the indexer *)
Section statements.
Context `{PgDialect, TextMatch, SnapshotSchema, PgNumeric, UUIDLib, GoFloatConv}.

#[export] Instance idx_circles : CircleRepo.Repository (PgState idx_tables) := {
  FindByID id := zoom (FindByID id);
  FindByContractID s := zoom (FindByContractID s);
  List f := zoom (List f);
  Count f := zoom (Count f);
  Create c := zoom (Create c);
  Update c := zoom (Update c);
  Delete id now := zoom (CircleRepo.Delete id now);
  CreateMember m := zoom (CreateMember m);
  GetMembers id := zoom (GetMembers id);
  GetMemberCount id := zoom (GetMemberCount id);
  UpdateMemberStatus c u s := zoom (UpdateMemberStatus c u s);
  FindMemberByCircleAndUser c u := zoom (FindMemberByCircleAndUser c u);
  FindCirclesByUserID u := zoom (FindCirclesByUserID u);
  CreatePenalty q := zoom (CreatePenalty q);
  GetPenaltiesByCircle id := zoom (GetPenaltiesByCircle id);
  GetPenaltiesByUser id := zoom (GetPenaltiesByUser id);
  GetContributionsByCircleAndRound id n := zoom (GetContributionsByCircleAndRound id n);
  CreateDispute d := zoom (CreateDispute d);
  CreateVote v := zoom (CreateVote v);
  GetVotesByRound id n := zoom (GetVotesByRound id n);
  CreateAuctionBid b := zoom (CreateAuctionBid b);
  GetAuctionBidsByRound id n := zoom (GetAuctionBidsByRound id n);
  SaveRoundConfigSnapshot c := zoom (SaveRoundConfigSnapshot c);
  GetRoundConfigSnapshot id n := zoom (GetRoundConfigSnapshot id n);
}.

(** [user.pgRepo] *)
Definition ErrUserNotFound := Sentinel "user not found".

Definition scanUser (row : XM uuid) : XM (option uuid) :=
  gtry row (λ r,
    match r with
    | inl u => gret (Some u)
    | inr err =>
        if decide (err = sql_ErrNoRows) then gfail apperrors_ErrNotFound
        else gfail (Wrapf "scanning user row: %w" err)
    end).

Definition with_wallet (a : string) (x : idx_tables) : option uuid :=
  head (filter (λ kv, us_Wallet kv.2 = a /\ us_DeletedAt kv.2 = None) (map_to_list (x_users x))).*1.

Definition pg_UpdateMoiScore (now : time) (id : uuid) (score : Z) : XM unit :=
  or_missing ErrUserNotFound (gwrap "updating moi score: %w" (pg_update (λ _, None)
    (λ x, bool_decide (is_Some (x_users x !! id)))
    (set_x_users (alter (λ u, {| us_Wallet := us_Wallet u; us_MoiScore := score;
                                 us_UpdatedAt := now; us_DeletedAt := us_DeletedAt u |}) id)))).

#[export] Instance idx_users : UserRepository (PgState idx_tables) := {
  FindByWalletAddress a := scanUser (pg_row (with_wallet a));
  UpdateMoiScore := pg_UpdateMoiScore 0;
}.

(** [reputation.pgRepo]: the column [month] is a date. *)
Definition day_of (t : time) : Z := t / (86400 * second).

Definition scanSnapshot (row : XM ReputationSnapshot) : XM (option ReputationSnapshot) :=
  gtry row (λ r,
    match r with
    | inl s => gret (Some s)
    | inr err =>
        if decide (err = sql_ErrNoRows) then gfail apperrors_ErrNotFound
        else gfail (Wrapf "scanning reputation snapshot: %w" err)
    end).

Definition by_month_desc (a b : ReputationSnapshot) : Prop := rs_Month b <= rs_Month a.
#[export] Instance by_month_desc_dec a b : Decision (by_month_desc a b).
Proof. unfold by_month_desc. apply _. Defined.

Definition pg_GetByUser (u : uuid) : XM (option ReputationSnapshot) :=
  scanSnapshot (pg_row (λ x, head (merge_sort by_month_desc
    (filter (λ s, rs_UserID s = u) (map_to_list (x_reputation x)).*2)))).

Definition pg_SaveSnapshot (s : ReputationSnapshot) : XM unit :=
  or_conflict apperrors_ErrConflict "saving reputation snapshot: %w" (pg_insert (λ _, None)
    (set_x_reputation (λ m, <[(rs_UserID s, day_of (rs_Month s)) :=
      {| rs_UserID := rs_UserID s; rs_Score := rs_Score s; rs_Level := rs_Level s;
         rs_Month := day_of (rs_Month s) * (86400 * second); rs_CreatedAt := rs_CreatedAt s |}]> m))).

#[export] Instance idx_reputation : ReputationRepository (PgState idx_tables) := {
  GetByUser := pg_GetByUser;
  SaveSnapshot := pg_SaveSnapshot;
}.

(** The statements of processor.go.  No migration gives [circle_disputes] the
    unique constraint that the conflict target of the dispute names. *)
Definition pg_insert_dispute : XM unit := pg_exec (λ _, inr "42P10"%string).

Definition fee_conflict (f g : fee) : bool :=
  bool_decide (fee_TxHash f = fee_TxHash g /\ fee_CircleID f = fee_CircleID g).
Definition pg_insert_fee (f : fee) : XM unit :=
  pg_insert (λ _, None) (set_x_fees (λ l, if existsb (fee_conflict f) l then l else f :: l)).

Definition pg_fees_summary (circleID : string) : XM (float64 * Z) :=
  pg_select (λ x,
    let fees := if decide (circleID = "") then x_fees x
                else filter (λ f, fee_CircleID f = circleID) (x_fees x) in
    (foldl numeric_add f64_zero (fee_Amount <$> fees), Z.of_nat (length fees))).

Definition same_event (tx contractID eventType : string) (r : recorded_event) : bool :=
  bool_decide (re_TxHash r = tx /\ re_ContractID r = contractID /\ re_EventType r = eventType).
Definition pg_event_recorded (tx contractID eventType : string) : XM bool :=
  pg_select (λ x, existsb (same_event tx contractID eventType) (x_events x)).
Definition pg_insert_event (r : recorded_event) : XM unit :=
  pg_insert (λ _, None) (set_x_events (λ l,
    if existsb (same_event (re_TxHash r) (re_ContractID r) (re_EventType r)) l then l else r :: l)).

#[export] Instance idx_db : IndexerDB (PgState idx_tables) := {
  db_applyContribution now c := zoom (circletx.applyContribution true now c);
  db_recordPayoutAndAdvance now po := zoom (circletx.recordPayoutAndAdvance true now po);
  db_insert_dispute _ _ _ _ _ := pg_insert_dispute;
  db_insert_fee := pg_insert_fee;
  db_fees_summary := pg_fees_summary;
  db_event_recorded := pg_event_recorded;
  db_insert_event := pg_insert_event;
}.

(** cursor.go *)
Definition ErrCursorMissing := Sentinel "indexer cursor row is missing".

Definition pg_GetCurrent : XM Cursor := gwrap "reading cursor: %w" (pg_row x_cursor).

Definition pg_CursorUpdate (lastLedger : Z) (now : time) : XM unit :=
  if lastLedger <? 0 then gfail (Errorf "updating cursor: invalid ledger") else
  let! n := gwrap "updating cursor: %w" (pg_update (λ _, None)
    (λ x, match x_cursor x with Some c => cur_LastLedger c <? lastLedger | None => false end)
    (set_x_cursor (Some {| cur_LastLedger := lastLedger; cur_LastProcessedAt := now |}))) in
  if 0 <? n then gret tt else
  gtry (pg_row (λ x, cur_LastLedger <$> x_cursor x)) (λ r,
    match r with
    | inl _ => gret tt
    | inr err => if errors_Is err sql_ErrNoRows then gfail ErrCursorMissing
                 else gfail (Wrapf "verifying cursor: %w" err)
    end).

Definition pg_CursorRewind (lastLedger : Z) (now : time) : XM unit :=
  gwrap "rewinding cursor: %w" (do! pg_update (λ _, None) (λ x, bool_decide (is_Some (x_cursor x)))
    (set_x_cursor (Some {| cur_LastLedger := lastLedger; cur_LastProcessedAt := now |})) in gret tt).

#[export] Instance idx_cursor : CursorTracker (PgState idx_tables) := {
  GetCurrent := pg_GetCurrent;
  CursorUpdate := pg_CursorUpdate;
  CursorRewind := pg_CursorRewind;
}.

(** ledger_history.go *)
#[export] Instance idx_rewinder : Rewinder (PgState idx_tables) := {
  DeleteEventsFrom forkLedger := gwrap "deleting contract_events from ledger: %w" (pg_exec (λ x,
    inl (Z.of_nat (length (filter (λ r, forkLedger <= re_Ledger r) (x_events x))),
         set_x_events (filter (λ r, re_Ledger r < forkLedger)) x)));
}.

(** deadletter.go *)
Definition ErrDeadLetterNotFound := Sentinel "indexer dead letter entry not found".

(** [INSERT ... ON CONFLICT (tx_hash) DO UPDATE]: the second failure of a
    transaction counts one more attempt. *)
Definition upsert_dead (now : time) (id : string) (entry : DeadLetterEntry)
    (old : option DeadLetterEntry) : DeadLetterEntry :=
  match old with
  | Some o =>
      {| dl_ID := dl_ID o; dl_Chain := dl_Chain o; dl_TxHash := dl_TxHash o;
         dl_Ledger := dl_Ledger entry; dl_Error := dl_Error entry; dl_Attempts := dl_Attempts o + 1;
         dl_Payload := dl_Payload o; dl_Status := "dead_letter"; dl_CreatedAt := dl_CreatedAt o;
         dl_UpdatedAt := now; dl_ResolvedAt := None |}
  | None =>
      {| dl_ID := id; dl_Chain := if decide (dl_Chain entry = "") then "stellar" else dl_Chain entry;
         dl_TxHash := dl_TxHash entry; dl_Ledger := dl_Ledger entry; dl_Error := dl_Error entry;
         dl_Attempts := if dl_Attempts entry <=? 0 then 1 else dl_Attempts entry;
         dl_Payload := match dl_Payload entry with Some EmptyString => None | q => q end;
         dl_Status := "dead_letter"; dl_CreatedAt := now; dl_UpdatedAt := now; dl_ResolvedAt := None |}
  end.

Definition pg_RecordDeadLetter (now : time) (id : string) (entry : DeadLetterEntry) : XM string :=
  if decide (dl_TxHash entry = "") then gfail (Errorf "recording dead letter: tx hash is required")
  else gwrap "recording dead letter: %w" (pg_exec (λ x,
    let row := upsert_dead now id entry (x_dead x !! dl_TxHash entry) in
    inl (dl_ID row, set_x_dead <[dl_TxHash entry := row]> x))).

Definition unresolved (d : DeadLetterEntry) : bool := bool_decide (dl_Status d = "dead_letter"%string).
Definition by_dead_desc (a b : DeadLetterEntry) : Prop := dl_CreatedAt b <= dl_CreatedAt a.
#[export] Instance by_dead_desc_dec a b : Decision (by_dead_desc a b).
Proof. unfold by_dead_desc. apply _. Defined.

Definition pg_ListDeadLetters (limit : Z) : XM (list DeadLetterEntry) :=
  gwrap "listing indexer dead letter entries: %w" (pg_select (λ x,
    take (Z.to_nat (if (limit <=? 0) || (500 <? limit) then 100 else limit))
      (merge_sort by_dead_desc (filter unresolved (map_to_list (x_dead x)).*2)))).

Definition pg_CountDeadLetters : XM Z :=
  gwrap "counting indexer dead letter entries: %w" (pg_select (λ x,
    Z.of_nat (length (filter unresolved (map_to_list (x_dead x)).*2)))).

Definition resolved_at (now : time) (d : DeadLetterEntry) : DeadLetterEntry :=
  {| dl_ID := dl_ID d; dl_Chain := dl_Chain d; dl_TxHash := dl_TxHash d; dl_Ledger := dl_Ledger d;
     dl_Error := dl_Error d; dl_Attempts := dl_Attempts d; dl_Payload := dl_Payload d;
     dl_Status := "resolved"; dl_CreatedAt := dl_CreatedAt d; dl_UpdatedAt := now;
     dl_ResolvedAt := Some now |}.

Definition pg_ResolveDeadLetter (now : time) (id : string) : XM unit :=
  let hit d := bool_decide (dl_ID d = id) && unresolved d in
  or_missing ErrDeadLetterNotFound (gwrap "resolving indexer dead letter: %w" (pg_update (λ _, None)
    (λ x, existsb hit (map_to_list (x_dead x)).*2)
    (set_x_dead (fmap (λ d, if hit d then resolved_at now d else d))))).

#[export] Instance idx_dead : DeadLetterStore (PgState idx_tables) := {
  RecordDeadLetter := pg_RecordDeadLetter;
  ListDeadLetters := pg_ListDeadLetters;
  CountDeadLetters := pg_CountDeadLetters;
  ResolveDeadLetter := pg_ResolveDeadLetter;
}.

(** ** The laws *)
Lemma atomic_circle {A} (R : tables -> result A -> tables -> Prop) t r t' :
  atomic (λ t r t', R (x_circle t) r (x_circle t')) t r t' -> atomic R (x_circle t) r (x_circle t').
Proof.
  destruct r as [a|e|]; cbn; [done|..].
  - intros (-> & [[t1 Ht]|Hi]); eauto.
  - intros (-> & t1 & Ht). eauto.
Qed.

#[export] Instance idx_circle_laws : RepositoryLaws (PgState idx_tables) circle_tables.
Proof.
  pose proof pg_laws as L. split; intros.
  25: { intros w r w' E. apply atomic_circle. by eapply pg_WithTransaction_law in E. }
  all: apply zoom_implements; apply L.
Qed.

Lemma pg_row_tables {T A} (q : T -> option A) w r w' :
  pg_row q w = (r, w') -> pg_tables w' = pg_tables w.
Proof. apply (wp_run _ w (λ _ w', pg_tables w' = pg_tables w)). by apply wp_pg_row. Qed.

Lemma scanUser_tables row w r w' :
  (forall r1 w1, row w = (r1, w1) -> pg_tables w1 = pg_tables w) ->
  scanUser row w = (r, w') -> pg_tables w' = pg_tables w.
Proof.
  intros Hrow. unfold scanUser, gtry. destruct (row w) as [[u|e|] w1] eqn:E; [..|by intros [= <- <-]; eauto].
  - intros [= <- <-]. eauto.
  - case_decide; intros [= <- <-]; eauto.
Qed.

#[export] Instance idx_store_laws : StoreLaws circle_tables.
Proof.
  split.
  - intros a w r w' E. unfold circle_tables. f_equal. eapply scanUser_tables; [|exact E].
    intros r1 w1. apply pg_row_tables.
  - intros now c. apply zoom_refines. intros w r w' E. by apply applyContribution_refines in E.
Qed.

#[export] Instance idx_cursor_laws : CursorLaws cursor_row.
Proof.
  split. intros seq t w w' E. enough (forall r, r = Ok tt -> CursorUpdate seq t w = (r, w') ->
    exists c, cursor_row w' = Some c /\ seq <= c) as Hr by eauto. clear E.
  intros r Hr E. revert Hr. revert r w' E.
  refine (λ r w', wp_run _ w (λ r w', r = Ok tt -> exists c, cursor_row w' = Some c /\ seq <= c) r w' _).
  cbn [CursorUpdate idx_cursor]. unfold pg_CursorUpdate. case_match; [by apply wp_fail|].
  apply wp_bind, wp_wrap, wp_pg_update; [|intros w1 Hc Hw|done].
  - intros w1 _ _ Hw. apply wp_ret. intros _. unfold cursor_row. rewrite Hw. cbn. exists seq. split; [done|lia].
  - apply wp_try, wp_pg_row; [|..].
    + intros c w2 Hcur Hw2. apply wp_ret. intros _. exists c. unfold cursor_row.
      rewrite Hw2, Hcur. split; [done|]. rewrite Hw in Hcur.
      destruct (x_cursor (pg_tables w)); [|done]. injection Hcur as <-. lia.
    + intros w2 _ _. by destruct (errors_Is _ _).
    + intros code w2 _. by destruct (errors_Is _ _).
Qed.
End statements.
End indexerpg.

(** ** Runs of the indexer over its PostgreSQL tables, at which the guarantees of
    [ProcessorProps] and [IndexerProps] apply. *)
Module indexerwitness.
Import circletx ledgers processor processorprops indexer indexerprops indexerpg.
#[local] Existing Instance accepting.
#[local] Existing Instance with_time_columns.
#[local] Instance demo_columns : PgNumeric := {| numeric_add := f64_add |}.

(** The circle 7 after the payments of [circletx], linked to the contract "c7",
    and the wallets of its members. *)
Definition link (contract : string) (c : Circle) : Circle :=
  {| c_ID := c_ID c; c_ContractID := Some contract; c_CommunityID := c_CommunityID c;
     c_Name := c_Name c; c_Description := c_Description c; c_CircleType := c_CircleType c;
     c_PayoutType := c_PayoutType c; c_ContributionAmount := c_ContributionAmount c;
     c_Currency := c_Currency c; c_Frequency := c_Frequency c;
     c_MaxMembers := c_MaxMembers c; c_MinMoiScore := c_MinMoiScore c;
     c_CollateralPercent := c_CollateralPercent c; c_LateFeePercent := c_LateFeePercent c;
     c_GracePeriodHours := c_GracePeriodHours c; c_MaxStrikes := c_MaxStrikes c;
     c_MemberCount := c_MemberCount c; c_RequiresInvite := c_RequiresInvite c;
     c_StartDate := c_StartDate c; c_EndDate := c_EndDate c; c_Status := c_Status c;
     c_CurrentRound := c_CurrentRound c; c_TotalContributions := c_TotalContributions c;
     c_OrganizerID := c_OrganizerID c; c_CreatedAt := c_CreatedAt c;
     c_UpdatedAt := c_UpdatedAt c; c_DeletedAt := c_DeletedAt c |}.

Definition demo_user (wallet : string) : user_row :=
  {| us_Wallet := wallet; us_MoiScore := 500; us_UpdatedAt := 0; us_DeletedAt := None |}.
Definition indexed (t : tables) : idx_tables :=
  {| x_circle := t; x_users := <[1%N := demo_user "w1"]> {[2%N := demo_user "w2"]};
     x_reputation := ∅; x_fees := []; x_events := [];
     x_cursor := Some {| cur_LastLedger := 90; cur_LastProcessedAt := 0 |}; x_dead := ∅ |}.
Definition paid_world : PgState idx_tables :=
  connection (indexed (set_circles (alter (link "c7") 7%N) (pg_tables demo_applied.2))).
Definition created_world : PgState idx_tables := connection (indexed (pg_tables active_world.1)).

Definition demo_event (tx ty contract : string) : ContractEvent :=
  {| ev_ContractID := contract; ev_EventType := ty; ev_Ledger := 100; ev_TxHash := tx;
     ev_LedgerCloseTime := 400;
     ev_Payload := <["circle_id"%string := VString contract]> (<["member"%string := VString "w1"]>
       (<["round"%string := VInt 3]> {["amount"%string := VFloat64 (f64_of_Z 10)]})) |}.

(** The decoder reads the type of the event and its contract, "c7", from the metadata. *)
Definition demo_processor : EventProcessor (PgState idx_tables) :=
  {| ep_db := true; ep_rmqClient := true; ep_circleRepo := true; ep_userRepo := true;
     ep_wsBroadcast := true; ep_knownContracts := ["c7"]; ep_unknownEvents := true;
     ep_versions := None; ep_versionUnknown := true; ep_events := true;
     ParseContractEvents tx ledger meta := inl ([demo_event tx meta "c7"], 0);
     marshal_payload _ := inl "{}"; marshal_message _ := inl "{}"; contract_hex := Some |}%string.

Definition demo_clock (n : nat) : time := 1000 + Z.of_nat n.
Definition demo_fresh (n : nat) : uuid := 100 + N.of_nat n.
Definition started (w : PgState idx_tables) : PSt (PgState idx_tables) := Build_PSt w [] 0.

(** A new contribution, one of a known transaction, one of an unknown contract. *)
Definition demo_events : list ContractEvent :=
  [demo_event "e9" EventContributionReceived "c7"; demo_event "e1" EventContributionReceived "c7";
   demo_event "e8" EventContributionReceived "c9"; demo_event "e7" EventMemberExited "c7"].
Definition demo_counted :=
  processContractEvents demo_processor demo_clock demo_fresh demo_events 400 (started paid_world).

Lemma every_event_counted_once_witness :
  tally EventContributionReceived (p_sent demo_counted.2) = 3%nat /\
  length (t_contributions (x_circle (pg_tables (p_world demo_counted.2)))) = 4%nat.
Proof.
  split; [|by vm_compute].
  rewrite (every_event_counted_once demo_processor demo_clock demo_fresh EventContributionReceived
    demo_events 400 (started paid_world) demo_counted.2); by vm_compute.
Defined.

Definition demo_replayed := onContributionReceived demo_processor demo_clock demo_fresh
  (demo_event "e1" EventContributionReceived "c7") (started paid_world).
Lemma recorded_transaction_not_applied_witness :
  demo_replayed.1 = Ok tt /\
  circle_tables (p_world demo_replayed.2) = circle_tables paid_world /\ p_sent demo_replayed.2 = [].
Proof.
  split; [by vm_compute|].
  apply (recorded_transaction_not_applied circle_tables demo_processor demo_clock demo_fresh
    (demo_event "e1" EventContributionReceived "c7") (started paid_world) demo_replayed.1).
  - vm_compute. by eexists.
  - unfold demo_replayed. by destruct (onContributionReceived _ _ _ _ _).
Defined.

Lemma created_steps : rtc circle_step empty_tables (circle_tables created_world).
Proof.
  transitivity (pg_tables pending_world.1).
  - by apply (run_calls_steps pg_tables demo _ (connection empty_tables)).
  - change (circle_tables created_world) with (pg_tables active_world.1). unfold active_world.
    destruct pending_world as [w ev]. by apply (run_calls_steps pg_tables).
Qed.

Lemma created_circle_events_fail_witness :
  (exists f, dispatchEvent demo_processor demo_clock demo_fresh (demo_event "e9" EventCircleCreated "c7")
    (started created_world) = (Err (Wrapf f ErrCircleNotFound), started created_world)) /\
  circle_tables created_world = circle_tables created_world.
Proof.
  apply (created_circle_events_fail circle_tables demo_processor demo_clock demo_fresh
    (demo_event "e9" EventCircleCreated "c7") created_world (Err ErrCircleNotFound) created_world [] 0);
    [done|done|exact created_steps|by left|done|by vm_compute|by intros e [= <-]].
Defined.

(** A poll of the ledgers 91 and 92; Horizon fails to give the transactions of 91. *)
Definition demo_txn (ledger : Z) : Transaction :=
  {| tx_Hash := "e9"; tx_Ledger := ledger; tx_CreatedAt := 0; tx_SourceAccount := "w1";
     tx_Successful := true;
     tx_Operations := [{| op_ID := 1; op_Type := "invoke_host_function"; op_SourceAccount := "w1";
                          op_ContractID := "c7"; op_ResultMetaXDR := EventContributionReceived |}];
     tx_LedgerCloseTime := 0 |}%string.
Definition demo_poller : Poller (PgState idx_tables) :=
  {| horizon_ledgers _ limit := gret (demo_ledger "b" <$> (if limit =? 2 then [91; 92] else [90; 91]));
     horizon_transactions n :=
       if decide (n = 91) then gfail (External "504"%string) else gret [demo_txn n];
     contractIDs := ["c7"%string] |}.
Definition demo_engine : Engine (PgState idx_tables) :=
  {| BatchSize := 2; chain_Window := 10; poller := demo_poller;
     event_processor := demo_processor; deadLetters := true; MarshalPayload _ := inl "{}"%string |}.
Definition engine_at (h : LedgerHistory) (d : Deduplicator) : ESt (PgState idx_tables) :=
  Build_ESt (started paid_world) d h.
Definition fresh_engine := engine_at (NewLedgerHistory 10) (NewDeduplicator 3600).
Definition demo_polled := poll demo_engine demo_clock demo_fresh fresh_engine.

Lemma poll_passes_fetched_ledgers_witness :
  cursor_row (p_world (e_run demo_polled.2)) = Some 92 /\
  exists cursor ledgers st1 st2,
    db (FetchLedgers demo_poller (cur_LastLedger cursor) 2) st1 = (Ok ledgers, st2) /\
    (StronglySorted Z.lt (l_Sequence <$> ledgers) -> forall l, l ∈ ledgers ->
       exists c, cursor_row (p_world (e_run demo_polled.2)) = Some c /\ l_Sequence l <= c).
Proof.
  split; [by vm_compute|].
  apply (poll_passes_fetched_ledgers demo_clock demo_fresh cursor_row demo_engine fresh_engine
    demo_polled.2). by vm_compute.
Defined.

(** The engine has processed "e9" of the ledger 91, which is replaced. *)
Definition reorged : ESt (PgState idx_tables) :=
  engine_at (Record_ 91 "a91" (Record_ 90 "b90" (NewLedgerHistory 10)))
    (Add 900 "e9" (NewDeduplicator 3600)).
Definition demo_checked :=
  checkReorg demo_engine demo_clock {| cur_LastLedger := 91; cur_LastProcessedAt := 0 |} reorged.

Lemma rolled_back_transaction_not_replayed_witness :
  cur_LastLedger <$> (match demo_checked.1 with Ok c => Some c | _ => None end) = Some 90 /\
  exists run, process_once demo_engine demo_clock demo_fresh tx_Ledger (demo_txn 91) demo_checked.2 =
    (Ok tt, Build_ESt run (e_dedup reorged) (e_history demo_checked.2)) /\
    p_world run = p_world (e_run demo_checked.2) /\ p_sent run = p_sent (e_run demo_checked.2).
Proof.
  split; [by vm_compute|].
  apply (rolled_back_transaction_not_replayed demo_clock demo_fresh demo_engine
    {| cur_LastLedger := 91; cur_LastProcessedAt := 0 |} tx_Ledger (demo_txn 91) reorged
    demo_checked.1 demo_checked.2).
  - unfold demo_checked. by destruct (checkReorg _ _ _ _).
  - by vm_compute.
Defined.
End indexerwitness.
