(* ===== verification/Community.v ===== *)
(** The communities (src/internal/domain/community/model.go, repository.go,
    service.go): the data, the interface of the repository and every method of
    the service over it. *)
From S2P Require Export CircleTx.
From stdpp Require Import options.
#[local] Set Default Proof Using "Type*".
Open Scope Z_scope.
Local Open Scope go_scope.

Module community.

(** ** model.go *)
Record Community := {
  cm_ID : uuid;
  cm_Name : string;
  cm_Slug : string;
  cm_Description : string;
  cm_Category : string;
  cm_Tags : list string;
  cm_AvatarURL : option string;
  cm_BannerURL : option string;
  cm_OwnerID : uuid;
  cm_MemberCount : Z;
  cm_TotalSaved : float64;
  cm_IsFeatured : bool;
  cm_CreatedAt : time;
  cm_UpdatedAt : time;
  cm_DeletedAt : option time;
}.

Record CommunityMember := {
  cmm_CommunityID : uuid; cmm_UserID : uuid; cmm_Role : string; cmm_JoinedAt : time;
}.

Record Announcement := {
  an_ID : uuid;
  an_CommunityID : uuid;
  an_AuthorID : uuid;
  an_Content : string;
  an_IsPinned : bool;
  an_LikeCount : Z;
  an_CreatedAt : time;
  an_UpdatedAt : time;
}.

(** A value of [metadata], a map of any values, is kept as its JSON text. *)
Record ActivityEvent := {
  ae_ID : uuid;
  ae_CommunityID : uuid;
  ae_EventType : string;
  ae_ActorID : option uuid;
  ae_TargetID : option uuid;
  ae_Metadata : string;
  ae_CreatedAt : time;
}.

Record CreateCommunityInput := {
  cc_Name : string; cc_Slug : string; cc_Description : string; cc_Category : string;
  cc_Tags : list string;
}.
Record UpdateCommunityInput := {
  uc_Name : option string; uc_Description : option string; uc_Category : option string;
  uc_Tags : option (list string); uc_AvatarURL : option string; uc_BannerURL : option string;
}.
Record CommunityFilter := { fl_Search : string; fl_Category : string; fl_Page : Z; fl_Limit : Z }.

(** ** repository.go

    The argument [now] is the clock of the server in a statement with [NOW()]. *)
Class Repository (W : Type) := {
  Create : Community -> M W unit;
  FindByID : uuid -> M W (option Community);
  FindBySlug : string -> M W (option Community);
  List : CommunityFilter -> M W (list Community * Z);
  Update : Community -> time -> M W unit;
  Delete : uuid -> time -> M W unit;
  AddMember : CommunityMember -> M W unit;
  RemoveMember : uuid -> uuid -> M W unit;
  UpdateMemberRole : uuid -> uuid -> string -> M W unit;
  GetMembers : uuid -> M W (list CommunityMember);
  IsMember : uuid -> uuid -> M W bool;
  GetMemberCount : uuid -> M W Z;
  CreateAnnouncement : Announcement -> M W unit;
  GetAnnouncements : uuid -> bool -> M W (list Announcement);
  GetAnnouncementByID : uuid -> M W (option Announcement);
  DeleteAnnouncement : uuid -> M W unit;
  LikeAnnouncement : uuid -> M W unit;
  SetAnnouncementPin : uuid -> bool -> M W unit;
  RecordActivity : ActivityEvent -> M W unit;
  GetActivity : uuid -> Z -> M W (list ActivityEvent);
  UpdateTotalSaved : uuid -> M W unit;
  FindByUserID : uuid -> M W (list Community);
  UpdateOwner : uuid -> uuid -> M W unit;
}.

(** ** service.go

    A run also keeps what was broadcast: the joined communities. *)
Section service.
Context {W : Type} `{Repository W, UUIDLib}.

Definition St : Type := W * list (string * string).
Definition repo {A} (m : M W A) : M St A := λ '(w, ev), let '(r, w') := m w in (r, (w', ev)).

Definition invalid_uuid : error := Wrapf "invalid UUID: %w" (External "invalid UUID").
Definition parseUUID (id : string) : result uuid :=
  match uuid_Parse id with Some u => Ok u | None => Err invalid_uuid end.
(** [id, _ := parseUUID(s)] *)
Definition parse_or_nil (id : string) : uuid := default 0%N (uuid_Parse id).

Definition new_community (now : time) (new owner : uuid) (input : CreateCommunityInput) : Community :=
  {| cm_ID := new; cm_Name := cc_Name input; cm_Slug := cc_Slug input;
     cm_Description := cc_Description input;
     cm_Category := if decide (cc_Category input = "") then "community" else cc_Category input;
     cm_Tags := cc_Tags input; cm_AvatarURL := None; cm_BannerURL := None; cm_OwnerID := owner;
     cm_MemberCount := 1; cm_TotalSaved := f64_zero; cm_IsFeatured := false;
     cm_CreatedAt := now; cm_UpdatedAt := now; cm_DeletedAt := None |}%string.

Definition CreateCommunity (now : time) (new : uuid) (userID : string) (input : CreateCommunityInput) :
    M St Community :=
  let! ownerID := glift (parseUUID userID) in
  let c := new_community now new ownerID input in
  gtry (repo (Create c)) (λ r,
    match r with
    | inr err => gfail (if decide (err = apperrors_ErrConflict)
                        then Errorf "a community with this slug already exists"
                        else Wrapf "creating community: %w" err)
    | inl _ =>
        gtry (repo (AddMember {| cmm_CommunityID := new; cmm_UserID := ownerID;
                                 cmm_Role := "admin"; cmm_JoinedAt := now |})) (λ r,
          match r with
          | inr err => do! gignore (repo (Delete new now)) in
                       gfail (Wrapf "adding owner as member: %w" err)
          | inl _ => gret c
          end)
    end).

Definition Get (id : string) : M St Community :=
  let! uid := glift (parseUUID id) in
  gtry (repo (FindByID uid)) (λ r,
    match r with
    | inl c => deref c
    | inr err => gfail (if decide (err = apperrors_ErrNotFound) then apperrors_ErrNotFound
                        else Wrapf "getting community: %w" err)
    end).

Definition GetBySlug (slug : string) : M St (option Community) := repo (FindBySlug slug).

Definition ListCommunities (filter : CommunityFilter) : M St (list Community * Z) :=
  gwrap "listing communities: %w" (repo (List filter)).

(** The fields the caller assigns. *)
Definition edited (input : UpdateCommunityInput) (c : Community) : Community :=
  {| cm_ID := cm_ID c; cm_Name := default (cm_Name c) (uc_Name input); cm_Slug := cm_Slug c;
     cm_Description := default (cm_Description c) (uc_Description input);
     cm_Category := default (cm_Category c) (uc_Category input);
     cm_Tags := default (cm_Tags c) (uc_Tags input);
     cm_AvatarURL := uc_AvatarURL input; cm_BannerURL := uc_BannerURL input;
     cm_OwnerID := cm_OwnerID c; cm_MemberCount := cm_MemberCount c;
     cm_TotalSaved := cm_TotalSaved c; cm_IsFeatured := cm_IsFeatured c;
     cm_CreatedAt := cm_CreatedAt c; cm_UpdatedAt := cm_UpdatedAt c;
     cm_DeletedAt := cm_DeletedAt c |}.

Definition UpdateCommunity (now : time) (id userID : string) (input : UpdateCommunityInput) :
    M St Community :=
  let! uid := glift (parseUUID id) in
  let! c := gwrap "finding community: %w" (repo (FindByID uid)) in
  let! c := deref c in
  do! gguard (negb (cm_OwnerID c =? parse_or_nil userID)%N) apperrors_ErrForbidden in
  let c := edited input c in
  do! gwrap "updating community: %w" (repo (Update c now)) in
  gret c.

Definition DeleteCommunity (now : time) (id userID : string) : M St unit :=
  let! uid := glift (parseUUID id) in
  let! c := gwrap "finding community: %w" (repo (FindByID uid)) in
  let! c := deref c in
  do! gguard (negb (cm_OwnerID c =? parse_or_nil userID)%N) apperrors_ErrForbidden in
  repo (Delete uid now).

Definition Join (broadcaster : bool) (now : time) (communityID userID : string) : M St unit :=
  let! cid := glift (parseUUID communityID) in
  let! uid := glift (parseUUID userID) in
  do! repo (AddMember {| cmm_CommunityID := cid; cmm_UserID := uid; cmm_Role := "member";
                         cmm_JoinedAt := now |}) in
  λ '(w, ev), (Ok tt, (w, if broadcaster then ev ++ [(communityID, userID)] else ev)).

Definition Leave (communityID userID : string) : M St unit :=
  let! cid := glift (parseUUID communityID) in
  let! uid := glift (parseUUID userID) in
  let! c := repo (FindByID cid) in
  let! c := deref c in
  do! gguard (cm_OwnerID c =? parse_or_nil userID)%N
    (Errorf "owner cannot leave; transfer ownership or delete the community") in
  repo (RemoveMember cid uid).

Definition Members (communityID : string) : M St (list CommunityMember) :=
  let! cid := glift (parseUUID communityID) in repo (GetMembers cid).

Definition IsMemberOf (communityID userID : string) : M St bool :=
  let! cid := glift (parseUUID communityID) in
  let! uid := glift (parseUUID userID) in
  repo (IsMember cid uid).

Definition Announce (now : time) (new : uuid) (communityID userID content : string) :
    M St Announcement :=
  let! cid := glift (parseUUID communityID) in
  let! uid := glift (parseUUID userID) in
  let! isMember := gwrap "checking membership: %w" (repo (IsMember cid uid)) in
  do! gguard (negb isMember) apperrors_ErrForbidden in
  let a := {| an_ID := new; an_CommunityID := cid; an_AuthorID := uid; an_Content := content;
              an_IsPinned := false; an_LikeCount := 0; an_CreatedAt := now; an_UpdatedAt := now |} in
  do! gwrap "creating announcement: %w" (repo (CreateAnnouncement a)) in
  gret a.

Definition ListAnnouncements (communityID : string) : M St (list Announcement) :=
  let! cid := glift (parseUUID communityID) in repo (GetAnnouncements cid false).

(** The owner or an administrator of the community of an announcement. *)
Definition admin_member (uid : uuid) (m : CommunityMember) : bool :=
  (cmm_UserID m =? uid)%N && bool_decide (cmm_Role m = "admin"%string).
Definition owner_or_admin (cid uid : uuid) (act : M St unit) : M St unit :=
  let! comm := repo (FindByID cid) in
  let! comm := deref comm in
  if (cm_OwnerID comm =? uid)%N then act else
  let! members := repo (GetMembers cid) in
  if existsb (admin_member uid) members then act else gfail apperrors_ErrForbidden.

Definition Unannounce (id userID : string) : M St unit :=
  let! aid := glift (parseUUID id) in
  let! requesterID := glift (parseUUID userID) in
  let! ann := repo (GetAnnouncementByID aid) in
  let! ann := deref ann in
  if (an_AuthorID ann =? requesterID)%N then repo (DeleteAnnouncement aid)
  else owner_or_admin (an_CommunityID ann) requesterID (repo (DeleteAnnouncement aid)).

Definition Like (id userID : string) : M St unit :=
  let! annID := glift (parseUUID id) in
  let! uid := glift (parseUUID userID) in
  let! ann := repo (GetAnnouncementByID annID) in
  let! ann := deref ann in
  let! isMember := gwrap "checking membership: %w" (repo (IsMember (an_CommunityID ann) uid)) in
  do! gguard (negb isMember) apperrors_ErrForbidden in
  repo (LikeAnnouncement annID).

Definition Pin (id userID : string) (pinned : bool) : M St unit :=
  let! annID := glift (parseUUID id) in
  let! uid := glift (parseUUID userID) in
  let! ann := repo (GetAnnouncementByID annID) in
  let! ann := deref ann in
  owner_or_admin (an_CommunityID ann) uid (repo (SetAnnouncementPin annID pinned)).

Definition RemoveFromCommunity (communityID userID targetID : string) : M St unit :=
  let! cid := glift (parseUUID communityID) in
  let! uid := glift (parseUUID userID) in
  let! tid := glift (parseUUID targetID) in
  let! c := repo (FindByID cid) in
  let! c := deref c in
  do! gguard (negb (cm_OwnerID c =? uid)%N) apperrors_ErrForbidden in
  repo (RemoveMember cid tid).

Definition TransferOwnership (communityID userID newOwnerID : string) : M St unit :=
  let! cid := glift (parseUUID communityID) in
  let! uid := glift (parseUUID userID) in
  let! nid := glift (parseUUID newOwnerID) in
  let! c := repo (FindByID cid) in
  let! c := deref c in
  do! gguard (negb (cm_OwnerID c =? uid)%N) apperrors_ErrForbidden in
  let! isMember := gwrap "checking new owner membership: %w" (repo (IsMember cid nid)) in
  do! gguard (negb isMember) apperrors_ErrInvalidInput in
  do! gwrap "transferring ownership: %w" (repo (UpdateOwner cid nid)) in
  repo (UpdateMemberRole cid uid "member").

Definition Activity (communityID : string) (limit : Z) : M St (list ActivityEvent) :=
  let! cid := glift (parseUUID communityID) in repo (GetActivity cid limit).

Definition GetMyCommunities (userID : string) : M St (list Community) :=
  let! uid := glift (parseUUID userID) in repo (FindByUserID uid).

Definition given (id : string) : option uuid :=
  if decide (id = ""%string) then None else Some (parse_or_nil id).
Definition Record_Activity (now : time) (new : uuid) (communityID eventType actorID targetID metadata : string) :
    M St unit :=
  let! cid := glift (parseUUID communityID) in
  repo (RecordActivity {| ae_ID := new; ae_CommunityID := cid; ae_EventType := eventType;
    ae_ActorID := given actorID; ae_TargetID := given targetID; ae_Metadata := metadata;
    ae_CreatedAt := now |}).

Definition RefreshTotalSaved (communityID : string) : M St unit :=
  let! cid := glift (parseUUID communityID) in repo (UpdateTotalSaved cid).
End service.
End community.
