(* ===== verification/CommunityPg.v ===== *)
(** The tables of the communities and their PostgreSQL repository
    (src/internal/domain/community/repository_pg.go), with the laws the theorems
    about the service use. *)
From S2P Require Export Community.
From stdpp Require Import options.
#[local] Set Default Proof Using "Type*".
Open Scope Z_scope.
Local Open Scope go_scope.

Module communitypg.
Import circletx community.

(** ** Tables

    The tables of the circles are those of [CircleRepo]: [total_saved] is a sum
    over them. *)
Record ctables := {
  ct_communities : gmap uuid Community;
  ct_members : gmap (uuid * uuid) CommunityMember;
  ct_announcements : gmap uuid Announcement;
  ct_activity : list ActivityEvent;
  ct_circle : tables;
}.

Definition set_ct_communities (f : gmap uuid Community -> gmap uuid Community) (t : ctables) :=
  {| ct_communities := f (ct_communities t); ct_members := ct_members t;
     ct_announcements := ct_announcements t; ct_activity := ct_activity t; ct_circle := ct_circle t |}.
Definition set_ct_members (f : gmap (uuid * uuid) CommunityMember -> gmap (uuid * uuid) CommunityMember)
    (t : ctables) :=
  {| ct_communities := ct_communities t; ct_members := f (ct_members t);
     ct_announcements := ct_announcements t; ct_activity := ct_activity t; ct_circle := ct_circle t |}.
Definition set_ct_announcements (f : gmap uuid Announcement -> gmap uuid Announcement) (t : ctables) :=
  {| ct_communities := ct_communities t; ct_members := ct_members t;
     ct_announcements := f (ct_announcements t); ct_activity := ct_activity t;
     ct_circle := ct_circle t |}.
Definition set_ct_activity (f : list ActivityEvent -> list ActivityEvent) (t : ctables) :=
  {| ct_communities := ct_communities t; ct_members := ct_members t;
     ct_announcements := ct_announcements t; ct_activity := f (ct_activity t);
     ct_circle := ct_circle t |}.

(** The columns a statement writes, the others kept. *)
Definition set_columns (name description category : string) (tags : list string)
    (avatar banner : option string) (owner : uuid) (count : Z) (saved : float64) (updated : time)
    (deleted : option time) (r : Community) : Community :=
  {| cm_ID := cm_ID r; cm_Name := name; cm_Slug := cm_Slug r; cm_Description := description;
     cm_Category := category; cm_Tags := tags; cm_AvatarURL := avatar; cm_BannerURL := banner;
     cm_OwnerID := owner; cm_MemberCount := count; cm_TotalSaved := saved;
     cm_IsFeatured := cm_IsFeatured r; cm_CreatedAt := cm_CreatedAt r; cm_UpdatedAt := updated;
     cm_DeletedAt := deleted |}.
Definition updated_community (now : time) (c r : Community) : Community :=
  set_columns (cm_Name c) (cm_Description c) (cm_Category c) (cm_Tags c) (cm_AvatarURL c)
    (cm_BannerURL c) (cm_OwnerID r) (cm_MemberCount r) (cm_TotalSaved r) now (cm_DeletedAt r) r.
Definition keep_text (owner : uuid) (count : Z) (saved : float64) (deleted : option time)
    (r : Community) : Community :=
  set_columns (cm_Name r) (cm_Description r) (cm_Category r) (cm_Tags r) (cm_AvatarURL r)
    (cm_BannerURL r) owner count saved (cm_UpdatedAt r) deleted r.
Definition deleted_community (now : time) (r : Community) : Community :=
  keep_text (cm_OwnerID r) (cm_MemberCount r) (cm_TotalSaved r) (Some now) r.
Definition counted_community (n : Z) (r : Community) : Community :=
  keep_text (cm_OwnerID r) n (cm_TotalSaved r) (cm_DeletedAt r) r.
Definition owned_community (owner : uuid) (r : Community) : Community :=
  keep_text owner (cm_MemberCount r) (cm_TotalSaved r) (cm_DeletedAt r) r.
Definition saved_community (saved : float64) (r : Community) : Community :=
  keep_text (cm_OwnerID r) (cm_MemberCount r) saved (cm_DeletedAt r) r.

Definition with_role (role : string) (m : CommunityMember) : CommunityMember :=
  {| cmm_CommunityID := cmm_CommunityID m; cmm_UserID := cmm_UserID m; cmm_Role := role;
     cmm_JoinedAt := cmm_JoinedAt m |}.
Definition with_likes (f : Z -> Z) (pinned : bool -> bool) (a : Announcement) : Announcement :=
  {| an_ID := an_ID a; an_CommunityID := an_CommunityID a; an_AuthorID := an_AuthorID a;
     an_Content := an_Content a; an_IsPinned := pinned (an_IsPinned a);
     an_LikeCount := f (an_LikeCount a); an_CreatedAt := an_CreatedAt a;
     an_UpdatedAt := an_UpdatedAt a |}.
Definition liked (a : Announcement) : Announcement := with_likes (λ n, n + 1) id a.
Definition pinned_as (b : bool) (a : Announcement) : Announcement := with_likes id (λ _, b) a.

(** ** Queries *)
Definition live (c : Community) : bool := bool_decide (cm_DeletedAt c = None).
Definition visible (t : ctables) (id : uuid) : option Community :=
  c ← ct_communities t !! id; if live c then Some c else None.
Definition by_slug (slug : string) (t : ctables) : option Community :=
  head (filter (λ c, live c && bool_decide (cm_Slug c = slug)) (map_to_list (ct_communities t)).*2).

Definition members_of (t : ctables) (cid : uuid) : list CommunityMember :=
  filter (λ m, cmm_CommunityID m = cid) (map_to_list (ct_members t)).*2.
Definition member_count (t : ctables) (cid : uuid) : Z := Z.of_nat (length (members_of t cid)).

Definition by_joined (m n : CommunityMember) : Prop := cmm_JoinedAt m <= cmm_JoinedAt n.
#[export] Instance by_joined_dec m n : Decision (by_joined m n).
Proof. unfold by_joined. apply _. Defined.

(** [ORDER BY is_featured DESC, member_count DESC] *)
Definition by_rank (c d : Community) : Prop :=
  (cm_IsFeatured c = true /\ cm_IsFeatured d = false) \/
  (cm_IsFeatured c = cm_IsFeatured d /\ cm_MemberCount d <= cm_MemberCount c).
#[export] Instance by_rank_dec c d : Decision (by_rank c d).
Proof. unfold by_rank. apply _. Defined.
(** [ORDER BY is_pinned DESC, created_at DESC] *)
Definition by_pin (a b : Announcement) : Prop :=
  (an_IsPinned a = true /\ an_IsPinned b = false) \/
  (an_IsPinned a = an_IsPinned b /\ an_CreatedAt b <= an_CreatedAt a).
#[export] Instance by_pin_dec a b : Decision (by_pin a b).
Proof. unfold by_pin. apply _. Defined.
Definition by_event_desc (a b : ActivityEvent) : Prop := ae_CreatedAt b <= ae_CreatedAt a.
#[export] Instance by_event_desc_dec a b : Decision (by_event_desc a b).
Proof. unfold by_event_desc. apply _. Defined.
Definition by_community_name (c d : Community) : Prop := String.leb (cm_Name c) (cm_Name d) = true.
#[export] Instance by_community_name_dec c d : Decision (by_community_name c d).
Proof. unfold by_community_name. apply _. Defined.

Section queries.
Context `{TextMatch, PgNumeric}.

Definition page_of (f : CommunityFilter) : Z := if 0 <? fl_Page f then fl_Page f else 1.
Definition limit_of (f : CommunityFilter) : Z :=
  if (0 <? fl_Limit f) && (fl_Limit f <=? 100) then fl_Limit f else 20.
Definition offset_of (f : CommunityFilter) : Z := wrap64 (wrap64 (page_of f - 1) * limit_of f).

Definition matches_community (f : CommunityFilter) (c : Community) : bool :=
  (bool_decide (fl_Search f = ""%string) ||
   (ilike (cm_Name c) (fl_Search f) || ilike (cm_Description c) (fl_Search f))) &&
  (bool_decide (fl_Category f = ""%string) || bool_decide (cm_Category c = fl_Category f)) && live c.
Definition listed_communities (f : CommunityFilter) (t : ctables) : list Community :=
  filter (matches_community f) (map_to_list (ct_communities t)).*2.

(** [COALESCE((SELECT SUM(c.total_contributions) FROM circles c ...), 0)] *)
Definition total_saved (t : ctables) (cid : uuid) : float64 :=
  foldl numeric_add f64_zero (c_TotalContributions <$>
    filter (λ c, c_DeletedAt c = None /\ c_CommunityID c = Some cid) (rows_of (ct_circle t))).
End queries.

(** ** Constraints: the unique columns and the references to [communities] *)
Definition community_clash (c : Community) (t : ctables) : option string :=
  if bool_decide (is_Some (ct_communities t !! cm_ID c)) ||
     existsb (λ d, bool_decide (cm_Slug d = cm_Slug c)) (map_to_list (ct_communities t)).*2
  then Some "23505"%string else None.
Definition referenced (cid : uuid) (t : ctables) : option string :=
  if ct_communities t !! cid is Some _ then None else Some "23503"%string.
Definition member_check (m : CommunityMember) (t : ctables) : option string :=
  if negb (bool_decide (cmm_Role m ∈ ["admin"; "moderator"; "member"]%string)) then Some "23514"%string
  else if ct_members t !! (cmm_CommunityID m, cmm_UserID m) is Some _ then Some "23505"%string
  else referenced (cmm_CommunityID m) t.
Definition announcement_check (a : Announcement) (t : ctables) : option string :=
  if ct_announcements t !! an_ID a is Some _ then Some "23505"%string
  else referenced (an_CommunityID a) t.

(** What depends on the driver: whether it binds a Go map to a [JSONB] column and
    scans the column into one.  [database/sql] converts neither. *)
Class MapColumn := { binds_maps : bool }.

Section repository_pg.
Context `{TextMatch, PgNumeric, MapColumn}.

Abbreviation CM := (M (PgState ctables)).

Definition scanCommunity (row : CM Community) : CM (option Community) :=
  gtry row (λ r,
    match r with
    | inl c => gret (Some c)
    | inr err => if decide (err = sql_ErrNoRows) then gfail apperrors_ErrNotFound
                 else gfail (Wrapf "scanning community: %w" err)
    end).

(** [_, err := ExecContext(...); return err] *)
Definition exec_rows (m : CM Z) : CM unit := do! m in gret tt.
Definition update_community (id : uuid) (f : ctables -> Community -> Community) : CM Z :=
  pg_update (λ _, None) (λ t, bool_decide (is_Some (ct_communities t !! id)))
    (λ t, set_ct_communities (alter (f t) id) t).
Definition update_announcement (id : uuid) (f : Announcement -> Announcement) : CM unit :=
  exec_rows (pg_update (λ _, None) (λ t, bool_decide (is_Some (ct_announcements t !! id)))
    (set_ct_announcements (alter f id))).
(** [UPDATE communities SET member_count = (SELECT COUNT( * ) ...)] *)
Definition recount (cid : uuid) : CM unit :=
  exec_rows (update_community cid (λ t, counted_community (member_count t cid))).

Definition pg_Create (c : Community) : CM unit :=
  or_conflict apperrors_ErrConflict "creating community: %w"
    (pg_insert (community_clash c) (set_ct_communities <[cm_ID c := c]>)).
Definition pg_FindByID (id : uuid) : CM (option Community) := scanCommunity (pg_row (λ t, visible t id)).
Definition pg_FindBySlug (slug : string) : CM (option Community) := scanCommunity (pg_row (by_slug slug)).

Definition pg_List (f : CommunityFilter) : CM (list Community * Z) :=
  let! total := gwrap "counting communities: %w"
    (pg_select (λ t, Z.of_nat (length (listed_communities f t)))) in
  let! cs := gwrap "listing communities: %w" (pg_exec (λ t,
    if offset_of f <? 0 then inr "2201X"%string
    else inl (take (Z.to_nat (limit_of f)) (drop (Z.to_nat (offset_of f))
                (merge_sort by_rank (listed_communities f t))), t))) in
  gret (cs, total).

Definition pg_Update (c : Community) (now : time) : CM unit :=
  or_missing apperrors_ErrNotFound (gwrap "updating community: %w"
    (update_community (cm_ID c) (λ _, updated_community now c))).
Definition pg_Delete (id : uuid) (now : time) : CM unit :=
  exec_rows (update_community id (λ _, deleted_community now)).

Definition pg_AddMember (m : CommunityMember) : CM unit :=
  do! or_conflict apperrors_ErrConflict "adding member: %w" (pg_insert (member_check m)
    (set_ct_members <[(cmm_CommunityID m, cmm_UserID m) := m]>)) in
  recount (cmm_CommunityID m).
Definition pg_RemoveMember (communityID userID : uuid) : CM unit :=
  do! gwrap "removing member: %w" (exec_rows (pg_update (λ _, None)
    (λ t, bool_decide (is_Some (ct_members t !! (communityID, userID))))
    (set_ct_members (delete (communityID, userID))))) in
  gignore (recount communityID).
Definition pg_UpdateMemberRole (communityID userID : uuid) (role : string) : CM unit :=
  exec_rows (pg_update (λ _, None)
    (λ t, bool_decide (is_Some (ct_members t !! (communityID, userID))))
    (set_ct_members (alter (with_role role) (communityID, userID)))).
Definition pg_GetMembers (cid : uuid) : CM (list CommunityMember) :=
  gwrap "getting members: %w" (pg_select (λ t, merge_sort by_joined (members_of t cid))).
Definition pg_IsMember (cid uid : uuid) : CM bool :=
  pg_select (λ t, bool_decide (is_Some (ct_members t !! (cid, uid)))).
Definition pg_GetMemberCount (cid : uuid) : CM Z := pg_select (λ t, member_count t cid).

Definition pg_CreateAnnouncement (a : Announcement) : CM unit :=
  pg_insert (announcement_check a) (set_ct_announcements <[an_ID a := a]>).
Definition pg_GetAnnouncements (cid : uuid) (pinned : bool) : CM (list Announcement) :=
  gwrap "getting announcements: %w" (pg_select (λ t,
    let all := merge_sort by_pin
      (filter (λ a, an_CommunityID a = cid) (map_to_list (ct_announcements t)).*2) in
    if pinned then filter (λ a, an_IsPinned a = true) all else take 20 all)).
Definition pg_GetAnnouncementByID (id : uuid) : CM (option Announcement) :=
  gwrap "getting announcement: %w" (let! a := pg_row (λ t, ct_announcements t !! id) in gret (Some a)).
Definition pg_DeleteAnnouncement (id : uuid) : CM unit :=
  exec_rows (pg_update (λ _, None) (λ t, bool_decide (is_Some (ct_announcements t !! id)))
    (set_ct_announcements (delete id))).
Definition pg_LikeAnnouncement (id : uuid) : CM unit := update_announcement id liked.
Definition pg_SetAnnouncementPin (id : uuid) (pinned : bool) : CM unit :=
  update_announcement id (pinned_as pinned).

Definition pg_RecordActivity (e : ActivityEvent) : CM unit :=
  if binds_maps then pg_insert (referenced (ae_CommunityID e)) (set_ct_activity (cons e))
  else gfail (External "sql: converting argument").
Definition pg_GetActivity (cid : uuid) (limit : Z) : CM (list ActivityEvent) :=
  let! es := gwrap "getting activity: %w" (pg_select (λ t,
    take (Z.to_nat (if (limit <? 1) || (100 <? limit) then 50 else limit))
      (merge_sort by_event_desc (filter (λ e, ae_CommunityID e = cid) (ct_activity t))))) in
  match es with
  | _ :: _ => if binds_maps then gret es else gfail (External "sql: Scan error")
  | [] => gret es
  end.

Definition pg_UpdateTotalSaved (cid : uuid) : CM unit :=
  exec_rows (update_community cid (λ t, saved_community (total_saved t cid))).
Definition pg_FindByUserID (uid : uuid) : CM (list Community) :=
  gwrap "finding communities by user: %w" (pg_select (λ t, merge_sort by_community_name
    (filter (λ c, live c && bool_decide (is_Some (ct_members t !! (cm_ID c, uid))))
       (map_to_list (ct_communities t)).*2))).
Definition pg_UpdateOwner (cid newOwnerID : uuid) : CM unit :=
  exec_rows (update_community cid (λ _, owned_community newOwnerID)).

#[export] Instance community_pg : Repository (PgState ctables) := {
  Create := pg_Create; FindByID := pg_FindByID; FindBySlug := pg_FindBySlug; List := pg_List;
  Update := pg_Update; community.Delete := pg_Delete; AddMember := pg_AddMember;
  RemoveMember := pg_RemoveMember; UpdateMemberRole := pg_UpdateMemberRole;
  GetMembers := pg_GetMembers; IsMember := pg_IsMember; GetMemberCount := pg_GetMemberCount;
  CreateAnnouncement := pg_CreateAnnouncement; GetAnnouncements := pg_GetAnnouncements;
  GetAnnouncementByID := pg_GetAnnouncementByID; DeleteAnnouncement := pg_DeleteAnnouncement;
  LikeAnnouncement := pg_LikeAnnouncement; SetAnnouncementPin := pg_SetAnnouncementPin;
  RecordActivity := pg_RecordActivity; GetActivity := pg_GetActivity;
  UpdateTotalSaved := pg_UpdateTotalSaved; FindByUserID := pg_FindByUserID;
  UpdateOwner := pg_UpdateOwner;
}.
End repository_pg.
End communitypg.
