(* ===== verification/CommunityProps.v ===== *)
(** What the communities guarantee: who may change what, over any fault of the
    database, and the member counts on a database without faults. *)
From S2P Require Export CommunityPg.
From stdpp Require Import options.
#[local] Set Default Proof Using "Type*".
Open Scope Z_scope.
Local Open Scope go_scope.

Module communityprops.
Import circletx community communitypg.

(** ** Steps

    What a statement of a call by the user [u] does to the tables. *)
Definition edit_row (id : uuid) (f : Community -> Community) : ctables -> ctables :=
  set_ct_communities (alter f id).
Definition owns (u : uuid) (t : ctables) (cid : uuid) : Prop :=
  exists c, visible t cid = Some c /\ cm_OwnerID c = u.
Definition member (t : ctables) (cid u : uuid) : Prop := is_Some (ct_members t !! (cid, u)).
Definition administers (u : uuid) (t : ctables) (cid : uuid) : Prop :=
  exists m k, ct_members t !! k = Some m /\ cmm_CommunityID m = cid /\ admin_member u m = true.

Inductive comm_step (u : uuid) (t : ctables) : ctables -> Prop :=
  | st_create c : ct_communities t !! cm_ID c = None -> cm_OwnerID c = u ->
      comm_step u t (set_ct_communities <[cm_ID c := c]> t)
  | st_join m : cmm_UserID m = u -> member_check m t = None ->
      comm_step u t (set_ct_members <[(cmm_CommunityID m, u) := m]> t)
  | st_edit id c f : visible t id = Some c -> cm_OwnerID c = u ->
      (forall r, cm_OwnerID (f r) = cm_OwnerID r) -> comm_step u t (edit_row id f t)
  | st_transfer id nid : owns u t id -> member t id nid ->
      comm_step u t (edit_row id (owned_community nid) t)
  | st_count id n : comm_step u t (edit_row id (counted_community n) t)
  | st_saved id x : comm_step u t (edit_row id (saved_community x) t)
  | st_remove cid tid : tid = u \/ owns u t cid ->
      comm_step u t (set_ct_members (delete (cid, tid)) t)
  | st_demote cid : comm_step u t (set_ct_members (alter (with_role "member") (cid, u)) t)
  | st_activity e : comm_step u t (set_ct_activity (cons e) t).

Inductive ann_step (u : uuid) (t : ctables) : ctables -> Prop :=
  | st_announce a : ct_announcements t !! an_ID a = None -> an_AuthorID a = u ->
      member t (an_CommunityID a) u ->
      ann_step u t (set_ct_announcements <[an_ID a := a]> t)
  | st_unannounce id a : ct_announcements t !! id = Some a ->
      an_AuthorID a = u \/ owns u t (an_CommunityID a) \/ administers u t (an_CommunityID a) ->
      ann_step u t (set_ct_announcements (delete id) t)
  | st_like id a : ct_announcements t !! id = Some a -> member t (an_CommunityID a) u ->
      ann_step u t (set_ct_announcements (alter liked id) t)
  | st_pin id a b : ct_announcements t !! id = Some a ->
      owns u t (an_CommunityID a) \/ administers u t (an_CommunityID a) ->
      ann_step u t (set_ct_announcements (alter (pinned_as b) id) t).

(** A call takes membership steps or one step on the announcements. *)
Definition comm_call (u : uuid) (t t' : ctables) : Prop := rtc (comm_step u) t t' \/ ann_step u t t'.

(** ** Calls *)
Inductive ccall :=
  | CCreate (new : uuid) (userID : string) (input : CreateCommunityInput)
  | CUpdate (id userID : string) (input : UpdateCommunityInput)
  | CDelete (id userID : string)
  | CJoin (communityID userID : string)
  | CLeave (communityID userID : string)
  | CAnnounce (new : uuid) (communityID userID content : string)
  | CUnannounce (id userID : string)
  | CLike (id userID : string)
  | CPin (id userID : string) (pinned : bool)
  | CRemove (communityID userID targetID : string)
  | CTransfer (communityID userID newOwnerID : string)
  | CActivity (new : uuid) (communityID eventType actorID targetID metadata : string)
  | CTotal (communityID : string).

Section calls.
Context `{TextMatch, PgNumeric, MapColumn, UUIDLib}.

Definition drop_value {S A} (m : M S A) : M S unit := do! m in gret tt.
Definition run_ccall (now : time) (k : ccall) : M (St (W := PgState ctables)) unit :=
  match k with
  | CCreate new u input => drop_value (CreateCommunity now new u input)
  | CUpdate id u input => drop_value (UpdateCommunity now id u input)
  | CDelete id u => DeleteCommunity now id u
  | CJoin c u => Join true now c u
  | CLeave c u => Leave c u
  | CAnnounce new c u text => drop_value (Announce now new c u text)
  | CUnannounce id u => Unannounce id u
  | CLike id u => Like id u
  | CPin id u b => Pin id u b
  | CRemove c u tid => RemoveFromCommunity c u tid
  | CTransfer c u nid => TransferOwnership c u nid
  | CActivity new c ty a tgt md => Record_Activity now new c ty a tgt md
  | CTotal c => RefreshTotalSaved c
  end.

Definition ccaller (k : ccall) : uuid :=
  match k with
  | CCreate _ u _ | CUpdate _ u _ | CDelete _ u | CJoin _ u | CLeave _ u | CAnnounce _ _ u _
  | CUnannounce _ u | CLike _ u | CPin _ u _ | CRemove _ u _ | CTransfer _ u _ => parse_or_nil u
  | CActivity _ _ _ _ _ _ | CTotal _ => 0%N
  end.

(** *** Rules for the statements *)
Lemma wp_crepo {A} (m : M (PgState ctables) A) w ev (Q : result A -> St -> Prop) :
  wp m w (λ r w', Q r (w', ev)) -> wp (repo m) (w, ev) Q.
Proof. unfold wp, repo. by destruct (m w). Qed.

Lemma wp_community_parse id (st : St (W := PgState ctables)) (Q : result uuid -> St -> Prop) :
  (forall u, uuid_Parse id = Some u -> parse_or_nil id = u -> Q (Ok u) st) ->
  (forall e, Q (Err e) st) -> wp (glift (parseUUID id)) st Q.
Proof.
  intros Hs Hn. apply wp_lift. unfold parseUUID, parse_or_nil in *.
  destruct (uuid_Parse id); [by apply Hs|apply Hn].
Qed.

Lemma wp_FindByID id w ev (Q : result (option Community) -> St -> Prop) :
  (forall c w', visible (pg_tables w) id = Some c -> pg_tables w' = pg_tables w ->
     Q (Ok (Some c)) (w', ev)) ->
  (forall e w', pg_tables w' = pg_tables w -> Q (Err e) (w', ev)) ->
  wp (repo (FindByID id)) (w, ev) Q.
Proof.
  intros Hs He. apply wp_crepo. cbn. apply wp_try, wp_pg_row; intros.
  - apply wp_ret. by apply Hs.
  - case_decide; by apply He.
  - case_decide; by apply He.
Qed.

Lemma wp_IsMember cid u w ev (Q : result bool -> St -> Prop) :
  (forall w', pg_tables w' = pg_tables w ->
     Q (Ok (bool_decide (member (pg_tables w) cid u))) (w', ev)) ->
  (forall e w', pg_tables w' = pg_tables w -> Q (Err e) (w', ev)) ->
  wp (repo (IsMember cid u)) (w, ev) Q.
Proof. intros Hs He. apply wp_crepo. apply wp_pg_select; intros; [by apply Hs|by apply He]. Qed.

Lemma wp_GetMembers cid w ev (Q : result (list CommunityMember) -> St -> Prop) :
  (forall l w', (forall m, m ∈ l -> cmm_CommunityID m = cid /\
       exists k, ct_members (pg_tables w) !! k = Some m) ->
     pg_tables w' = pg_tables w -> Q (Ok l) (w', ev)) ->
  (forall e w', pg_tables w' = pg_tables w -> Q (Err e) (w', ev)) ->
  wp (repo (GetMembers cid)) (w, ev) Q.
Proof.
  intros Hs He. apply wp_crepo, wp_wrap, wp_pg_select; intros; [|by apply He].
  apply Hs; [|done]. intros m Hm. rewrite merge_sort_Permutation in Hm.
  apply list_elem_of_filter in Hm as [Hc Hm]. split; [done|].
  apply list_elem_of_fmap in Hm as ([k m'] & -> & Hm). exists k. by apply elem_of_map_to_list.
Qed.

Lemma wp_GetAnnouncementByID id w ev (Q : result (option Announcement) -> St -> Prop) :
  (forall a w', ct_announcements (pg_tables w) !! id = Some a -> pg_tables w' = pg_tables w ->
     Q (Ok (Some a)) (w', ev)) ->
  (forall e w', pg_tables w' = pg_tables w -> Q (Err e) (w', ev)) ->
  wp (repo (GetAnnouncementByID id)) (w, ev) Q.
Proof.
  intros Hs He. apply wp_crepo, wp_wrap, wp_bind, wp_pg_row; intros; [|by apply He..].
  apply wp_ret. by apply Hs.
Qed.

(** A statement that writes at most [f]. *)
Definition writes {A} (m : M (PgState ctables) A) (f : ctables -> ctables -> Prop) : Prop :=
  forall w, wp m w (λ r w', r <> Panic /\
    (pg_tables w' = pg_tables w \/ f (pg_tables w) (pg_tables w'))).

Lemma writes_insert check f : writes (pg_insert check f) (λ t t', check t = None /\ t' = f t).
Proof. intros w. apply wp_pg_insert; eauto 10. Qed.
Lemma writes_update check hit f : writes (pg_update check hit f) (λ t t', t' = f t).
Proof. intros w. apply wp_pg_update; eauto. Qed.
Lemma writes_exec m f : writes m f -> writes (exec_rows m) f.
Proof.
  intros Hm w. unfold exec_rows. apply wp_bind. eapply wp_mono; [apply Hm|].
  intros [n|e|] w' [Hp Hw]; [|done..]. by apply wp_ret.
Qed.
Lemma writes_wrap {A} (m : M _ A) format f : writes m f -> writes (gwrap format m) f.
Proof.
  intros Hm w. apply wp_wrap. eapply wp_mono; [apply Hm|]. by intros [] w' [].
Qed.
Lemma writes_conflict c format m f : writes m f -> writes (or_conflict c format m) f.
Proof.
  intros Hm w. unfold or_conflict. apply wp_try. eapply wp_mono; [apply Hm|].
  intros [[]|e|] w' [Hp Hw]; [by apply wp_ret|by apply wp_fail|done].
Qed.
Lemma writes_missing e m f : writes m f -> writes (or_missing e m) f.
Proof.
  intros Hm w. unfold or_missing. apply wp_bind. eapply wp_mono; [apply Hm|].
  intros [n|e'|] w' [Hp Hw]; [|done..]. by destruct (n =? 0).
Qed.

(** What a call leaves. *)
Definition good (u : uuid) (t : ctables) {A} (r : result A) (st : St (W := PgState ctables)) : Prop :=
  r <> Panic /\ comm_call u t (pg_tables st.1).

Lemma good_stay u t {A} (r : result A) w ev :
  r <> Panic -> pg_tables w = t -> good u t r (w, ev).
Proof. intros Hr <-. split; [done|]. by left. Qed.

Lemma good_step u t {A} (r : result A) w ev :
  r <> Panic -> comm_step u t (pg_tables w) -> good u t r (w, ev).
Proof. intros Hr Hs. split; [done|]. left. by apply rtc_once. Qed.

Lemma wp_community_write {A} (m : M (PgState ctables) A) f w ev (Q : result A -> St -> Prop) :
  writes m f ->
  (forall r w', r <> Panic -> pg_tables w' = pg_tables w -> Q r (w', ev)) ->
  (forall r w', r <> Panic -> f (pg_tables w) (pg_tables w') -> Q r (w', ev)) ->
  wp (repo m) (w, ev) Q.
Proof.
  intros Hm Hn Hf. apply wp_crepo. eapply wp_mono; [apply Hm|]. intros r w' [Hr [Ht|Ht]]; auto.
Qed.

Lemma wp_drop {S A} (m : M S A) s (Q : result unit -> S -> Prop) :
  wp m s (λ r s', Q (result_map (λ _, tt) r) s') -> wp (drop_value m) s Q.
Proof. intros Hm. apply wp_bind. eapply wp_mono; [exact Hm|]. by intros [] s'. Qed.

(** Steps that keep the owners. *)
Definition same_owners (t t' : ctables) : Prop :=
  forall id c, visible t id = Some c ->
    exists c', visible t' id = Some c' /\ cm_OwnerID c' = cm_OwnerID c.
Definition member_steps (u : uuid) (t t' : ctables) : Prop :=
  rtc (comm_step u) t t' /\ same_owners t t'.

#[local] Instance member_steps_preorder u : PreOrder (member_steps u).
Proof.
  split; [intros t; split; [done|]; intros id c Hc; by exists c|].
  intros t1 t2 t3 [H12 O12] [H23 O23]. split; [by etransitivity|].
  intros id c Hc. destruct (O12 id c Hc) as (c2 & Hc2 & <-). by apply O23.
Qed.

Lemma writes_mono {A} (m : M (PgState ctables) A) (f g : ctables -> ctables -> Prop) :
  writes m f -> (forall t t', f t t' -> g t t') -> writes m g.
Proof. intros Hm Hf w. eapply wp_mono; [apply Hm|]. intros r w' [Hr [Ht|Ht]]; auto. Qed.

Lemma writes_seq {A B} (m : M (PgState ctables) A) (k : A -> M (PgState ctables) B)
    (R : ctables -> ctables -> Prop) `{!PreOrder R} :
  writes m R -> (forall a, writes (k a) R) -> writes (gbind m k) R.
Proof.
  intros Hm Hk w. apply wp_bind. eapply wp_mono; [apply Hm|]. intros [a|e|] w1 [Hr Ht]; [|done..].
  eapply wp_mono; [apply Hk|]. intros r w2 [Hr2 Ht2]. split; [done|].
  destruct Ht as [Ht|Ht], Ht2 as [Ht2|Ht2]; rewrite ?Ht2, ?Ht; rewrite ?Ht in Ht2; auto.
  right. by etransitivity.
Qed.

Lemma writes_ignore {A} (m : M (PgState ctables) A) f : writes m f -> writes (gignore m) f.
Proof. intros Hm w. apply wp_ignore. eapply wp_mono; [apply Hm|]. by intros [] w' []. Qed.

Lemma visible_edit t id f k c :
  (forall r, cm_DeletedAt (f r) = cm_DeletedAt r) -> visible t k = Some c ->
  visible (edit_row id f t) k = Some (if decide (k = id) then f c else c).
Proof.
  intros Hf. unfold visible, edit_row. cbn. rewrite lookup_alter.
  case_decide; subst; destruct (ct_communities t !! _) as [r|] eqn:E; cbn; try done;
    unfold live; rewrite ?Hf; case_bool_decide; intros [= ->];
    first [by rewrite decide_True | by rewrite decide_False].
Qed.

Lemma writes_recount u cid : writes (recount cid) (member_steps u).
Proof.
  eapply writes_mono; [apply writes_exec, writes_update|]. intros t t' ->. split.
  - apply rtc_once, (st_count u t cid).
  - intros k c Hc. eexists. split; [by apply visible_edit|]. by case_decide.
Qed.

Lemma writes_AddMember m : writes (pg_AddMember m) (member_steps (cmm_UserID m)).
Proof.
  apply writes_seq; [apply _| |intros []; apply writes_recount].
  eapply writes_mono; [apply writes_conflict, writes_insert|]. intros t t' [Hc ->].
  split; [by apply rtc_once, st_join|]. intros k c Hk. by exists c.
Qed.

Lemma RemoveMember_community_wp u cid tid w ev :
  tid = u \/ owns u (pg_tables w) cid ->
  wp (repo (RemoveMember cid tid)) (w, ev) (good u (pg_tables w)).
Proof.
  intros Hg. apply wp_crepo. cbn. unfold pg_RemoveMember. apply wp_bind.
  eapply wp_mono; [apply writes_wrap, writes_exec, writes_update|].
  intros [[]|e|] w1 [Hp Hw1]; [|split; [done|]; left..].
  - eapply wp_mono; [apply writes_ignore, (writes_recount u)|]. intros r w2 [Hr Hw2].
    split; [done|]. left. cbn.
    assert (rtc (comm_step u) (pg_tables w) (pg_tables w1)) as Hs1.
    { destruct Hw1 as [->| ->]; [done|]. by apply rtc_once, st_remove. }
    etransitivity; [exact Hs1|]. by destruct Hw2 as [->|[Hw2 _]].
  - cbn. destruct Hw1 as [->| ->]; [done|]. by apply rtc_once, st_remove.
  - done.
Qed.

(** Follow a call to its next statement; a failed guard or lookup leaves the tables. *)
Ltac parsed := apply wp_bind, wp_community_parse; [|intros e; by apply good_stay].
Ltac looked_up :=
  apply wp_bind; first
    [ apply wp_FindByID | apply wp_GetAnnouncementByID | apply wp_wrap, wp_FindByID
    | apply wp_IsMember | apply wp_wrap, wp_IsMember | apply wp_GetMembers ];
  [|intros e ? ?; apply good_stay; [done|congruence]].
Ltac guarded := apply wp_bind, wp_guard; [intros _; apply good_stay; [done|congruence]|]; intros ?.
Lemma good_write u t {A} (m : M (PgState ctables) A) f w ev :
  writes m f -> pg_tables w = t -> (forall t', f t t' -> comm_call u t t') ->
  wp (repo m) (w, ev) (good u t).
Proof.
  intros Hm Ht Hf. eapply wp_community_write; [exact Hm|intros; apply good_stay; congruence|].
  intros r w' Hr Hw. split; [done|]. apply Hf. by rewrite <-Ht.
Qed.

Lemma owner_or_admin_wp u t cid act w ev :
  pg_tables w = t ->
  (forall w', pg_tables w' = t -> owns u t cid \/ administers u t cid -> wp act (w', ev) (good u t)) ->
  wp (owner_or_admin cid u act) (w, ev) (good u t).
Proof.
  intros Ht Hact. unfold owner_or_admin. apply wp_bind, wp_FindByID;
    [|intros e w1 Hw1; apply good_stay; congruence].
  intros c w1 Hv Hw1. apply wp_bind, wp_ret. rewrite Ht in Hv, Hw1.
  destruct (N.eqb_spec (cm_OwnerID c) u) as [Ho|Ho].
  { apply Hact; [done|]. left. by exists c. }
  apply wp_bind, wp_GetMembers; [|intros e w2 Hw2; apply good_stay; congruence].
  intros l w2 Hl Hw2. rewrite Hw1 in Hl, Hw2. destruct (existsb (admin_member u) l) eqn:E.
  - apply existsb_exists in E as (m & Hm & Ha). apply list_elem_of_In in Hm.
    destruct (Hl m Hm) as [Hc [k Hk]]. apply Hact; [done|]. right. by exists m, k.
  - apply wp_fail. by apply good_stay.
Qed.

Lemma Create_wp c w ev (Q : result unit -> St -> Prop) :
  (forall w', community_clash c (pg_tables w) = None ->
     pg_tables w' = set_ct_communities <[cm_ID c := c]> (pg_tables w) -> Q (Ok tt) (w', ev)) ->
  (forall e w', pg_tables w' = pg_tables w -> Q (Err e) (w', ev)) ->
  wp (repo (Create c)) (w, ev) Q.
Proof.
  intros Hs He. apply wp_crepo. cbn. unfold pg_Create, or_conflict. apply wp_try, wp_pg_insert; intros.
  - apply wp_ret. by apply Hs.
  - case_match; by apply He.
Qed.

Lemma clash_fresh c t : community_clash c t = None -> ct_communities t !! cm_ID c = None.
Proof.
  unfold community_clash. intros Hc. destruct (_ || _) eqn:E; [done|]. apply orb_false_iff in E as [E _].
  go_bool. by apply eq_None_not_Some.
Qed.

Lemma CreateCommunity_wp now new userID input w ev :
  wp (CreateCommunity now new userID input) (w, ev) (good (parse_or_nil userID) (pg_tables w)).
Proof.
  unfold CreateCommunity. parsed. intros u _ ->. set (c := new_community now new u input).
  apply wp_try, Create_wp; [|intros e w1 Hw1; by apply wp_fail, good_stay].
  intros w1 Hc Hw1. apply wp_try, wp_crepo.
  assert (rtc (comm_step u) (pg_tables w) (pg_tables w1)) as Hs1.
  { rewrite Hw1. apply rtc_once, st_create; [by apply clash_fresh|done]. }
  eapply wp_mono; [apply writes_AddMember|]. intros r w2 [Hr Hw2]. cbn [cmm_UserID] in Hw2.
  assert (rtc (comm_step u) (pg_tables w) (pg_tables w2) /\ owns u (pg_tables w2) new) as [Hs2 Ho2].
  { assert (visible (pg_tables w1) new = Some c) as Hv.
    { rewrite Hw1. unfold visible. cbn. by rewrite lookup_insert_eq. }
    destruct Hw2 as [->|[Hw2 Ho]]; [split; [done|by exists c]|].
    split; [by etransitivity|]. by apply Ho in Hv. }
  destruct r as [[]|e|]; [by split; [|left]| |done].
  apply wp_bind, wp_ignore. apply wp_crepo. cbn.
  eapply wp_mono; [apply writes_exec, writes_update|]. intros r w3 [Hr3 Hw3].
  assert (rtc (comm_step u) (pg_tables w) (pg_tables w3)) as Hs3.
  { destruct Hw3 as [->| ->]; [done|]. eapply rtc_r; [exact Hs2|]. destruct Ho2 as (c2 & Hv & Ho).
    by eapply (st_edit _ _ _ c2). }
  by destruct r as [[]|e'|]; [apply wp_fail; split; [|left]..|].
Qed.
Lemma guard_owner u t id c w ev {A} (k : M St A) e :
  visible t id = Some c -> pg_tables w = t ->
  (owns u t id -> wp k (w, ev) (good u t)) ->
  wp (do! gguard (negb (cm_OwnerID c =? u)%N) e in k) (w, ev) (good u t).
Proof.
  intros Hv Ht Hk. apply wp_bind, wp_guard; [intros _; by apply good_stay|]. intros Ho. go_bool.
  apply Hk. by exists c.
Qed.

Definition rows_keyed (t : ctables) : Prop :=
  map_Forall (λ id c, cm_ID c = id) (ct_communities t).

Lemma UpdateCommunity_wp now id userID input w ev :
  rows_keyed (pg_tables w) ->
  wp (UpdateCommunity now id userID input) (w, ev) (good (parse_or_nil userID) (pg_tables w)).
Proof.
  intros Hk. unfold UpdateCommunity. parsed. intros cid _ _. looked_up. intros c w1 Hv Hw1.
  assert (cm_ID c = cid) as Hid.
  { unfold visible in Hv. destruct (ct_communities (pg_tables w) !! cid) as [c'|] eqn:E; [|done].
    apply Hk in E. cbn in Hv. case_match; congruence. }
  apply wp_bind, wp_ret, (guard_owner _ (pg_tables w) cid); [done..|]. intros (c' & Hv' & Ho).
  simplify_eq. apply wp_bind, wp_wrap, wp_crepo. cbn.
  eapply wp_mono; [apply writes_missing, writes_wrap, writes_update|]. intros r w2 [Hr Hw2].
  rewrite Hw1 in Hw2.
  assert (comm_call (parse_or_nil userID) (pg_tables w) (pg_tables w2)) as Hc.
  { left. destruct Hw2 as [->| ->]; [done|]. apply rtc_once. by eapply st_edit. }
  by destruct r.
Qed.

Lemma DeleteCommunity_wp now id userID w ev :
  wp (DeleteCommunity now id userID) (w, ev) (good (parse_or_nil userID) (pg_tables w)).
Proof.
  unfold DeleteCommunity. parsed. intros cid _ _. looked_up. intros c w1 Hv Hw1.
  apply wp_bind, wp_ret, (guard_owner _ (pg_tables w) cid); [done..|]. intros (c' & Hv' & Ho).
  eapply good_write; [apply writes_exec, writes_update|done|]. intros t' ->. left.
  apply rtc_once. by eapply st_edit.
Qed.

Lemma Join_community_wp now communityID userID w ev :
  wp (Join true now communityID userID) (w, ev) (good (parse_or_nil userID) (pg_tables w)).
Proof.
  unfold Join. parsed. intros cid _ _. parsed. intros u _ ->. apply wp_bind, wp_crepo.
  eapply wp_mono; [apply writes_AddMember|]. intros r w2 [Hr Hw2]. cbn [cmm_UserID] in Hw2.
  assert (comm_call u (pg_tables w) (pg_tables w2)) as Hc.
  { left. by destruct Hw2 as [->|[Hw2 _]]. }
  by destruct r.
Qed.

Lemma Leave_wp communityID userID w ev :
  wp (Leave communityID userID) (w, ev) (good (parse_or_nil userID) (pg_tables w)).
Proof.
  unfold Leave. parsed. intros cid _ _. parsed. intros u _ ->. looked_up. intros c w1 Hv Hw1.
  apply wp_bind, wp_ret. guarded. rewrite <-Hw1. apply RemoveMember_community_wp. by left.
Qed.

Lemma Announce_wp now new communityID userID content w ev :
  wp (Announce now new communityID userID content) (w, ev) (good (parse_or_nil userID) (pg_tables w)).
Proof.
  unfold Announce. parsed. intros cid _ _. parsed. intros u _ ->. looked_up. intros w1 Hw1.
  guarded. go_bool. apply wp_bind, wp_wrap, wp_crepo.
  eapply wp_mono; [apply writes_insert|]. intros r w2 [Hr Hw2]. rewrite Hw1 in Hw2.
  assert (comm_call u (pg_tables w) (pg_tables w2)) as Hc.
  { destruct Hw2 as [->|[Ha ->]]; [by left|]. right. apply st_announce; [|done..].
    unfold announcement_check in Ha. cbn in *. by destruct (ct_announcements _ !! new). }
  by destruct r.
Qed.

Lemma Unannounce_wp id userID w ev :
  wp (Unannounce id userID) (w, ev) (good (parse_or_nil userID) (pg_tables w)).
Proof.
  unfold Unannounce. parsed. intros aid _ _. parsed. intros u _ ->. looked_up. intros a w1 Ha Hw1.
  apply wp_bind, wp_ret.
  assert (forall w ev, pg_tables w = pg_tables w1 -> (an_AuthorID a = u \/
    owns u (pg_tables w1) (an_CommunityID a) \/ administers u (pg_tables w1) (an_CommunityID a)) ->
    wp (repo (DeleteAnnouncement aid)) (w, ev) (good u (pg_tables w1))) as Hdel.
  { intros w2 ev2 Hw2 Hg. eapply good_write; [apply writes_exec, writes_update|done|]. intros t' ->.
    right. eapply st_unannounce; [|done]. by rewrite Hw1. }
  rewrite <-Hw1. destruct (N.eqb_spec (an_AuthorID a) u) as [Hau|Hau]; [by apply Hdel; [|left]|].
  apply owner_or_admin_wp; [done|]. intros w2 Hw2 Hg. apply Hdel; [done|by right].
Qed.

Lemma Like_wp id userID w ev :
  wp (Like id userID) (w, ev) (good (parse_or_nil userID) (pg_tables w)).
Proof.
  unfold Like. parsed. intros aid _ _. parsed. intros u _ ->. looked_up. intros a w1 Ha Hw1.
  apply wp_bind, wp_ret. looked_up. intros w2 Hw2. guarded. go_bool.
  eapply good_write; [apply writes_exec, writes_update|congruence|]. intros t' ->.
  right. eapply st_like; [done|]. congruence.
Qed.

Lemma Pin_wp id userID pinned w ev :
  wp (Pin id userID pinned) (w, ev) (good (parse_or_nil userID) (pg_tables w)).
Proof.
  unfold Pin. parsed. intros aid _ _. parsed. intros u _ ->. looked_up. intros a w1 Ha Hw1.
  apply wp_bind, wp_ret, owner_or_admin_wp; [done|]. intros w2 Hw2 Hg.
  eapply good_write; [apply writes_exec, writes_update|done|]. intros t' ->. right. by eapply st_pin.
Qed.

Lemma RemoveFromCommunity_wp communityID userID targetID w ev :
  wp (RemoveFromCommunity communityID userID targetID) (w, ev)
    (good (parse_or_nil userID) (pg_tables w)).
Proof.
  unfold RemoveFromCommunity. parsed. intros cid _ _. parsed. intros u _ ->. parsed. intros tid _ _.
  looked_up. intros c w1 Hv Hw1. apply wp_bind, wp_ret, (guard_owner _ (pg_tables w) cid); [done..|].
  intros Ho. rewrite <-Hw1 in *. apply RemoveMember_community_wp. by right.
Qed.

Lemma TransferOwnership_wp communityID userID newOwnerID w ev :
  wp (TransferOwnership communityID userID newOwnerID) (w, ev)
    (good (parse_or_nil userID) (pg_tables w)).
Proof.
  unfold TransferOwnership. parsed. intros cid _ _. parsed. intros u _ ->. parsed. intros nid _ _.
  looked_up. intros c w1 Hv Hw1. apply wp_bind, wp_ret, (guard_owner _ (pg_tables w) cid); [done..|].
  intros Ho. looked_up. intros w2 Hw2. guarded. go_bool.
  apply wp_bind, wp_wrap, wp_crepo. eapply wp_mono; [apply writes_exec, writes_update|].
  intros r w3 [Hr3 Hw3].
  assert (rtc (comm_step u) (pg_tables w) (pg_tables w3)) as Hs3.
  { rewrite Hw2, Hw1 in Hw3. destruct Hw3 as [->| ->]; [done|]. apply rtc_once.
    apply st_transfer; [done|congruence]. }
  destruct r as [[]|e|]; [|by split; [|left]|done].
  apply wp_crepo. eapply wp_mono; [apply writes_exec, writes_update|]. intros r w4 [Hr4 Hw4].
  split; [done|]. left. destruct Hw4 as [Hw4|Hw4]; cbn; rewrite Hw4; [done|].
  eapply rtc_r; [exact Hs3|]. apply st_demote.
Qed.

Lemma Record_Activity_wp now new c ty a tgt md w ev :
  wp (Record_Activity now new c ty a tgt md) (w, ev) (good 0%N (pg_tables w)).
Proof.
  unfold Record_Activity. parsed. intros cid _ _. cbn. unfold pg_RecordActivity.
  destruct binds_maps; [|by apply wp_crepo, wp_fail, good_stay].
  eapply good_write; [apply writes_insert|done|]. intros t' [_ ->]. left.
  apply rtc_once, st_activity.
Qed.

Lemma RefreshTotalSaved_wp c w ev : wp (RefreshTotalSaved c) (w, ev) (good 0%N (pg_tables w)).
Proof.
  unfold RefreshTotalSaved. parsed. intros cid _ _.
  eapply good_write; [apply writes_exec, writes_update|done|]. intros t' ->. left.
  apply rtc_once, (st_saved _ (pg_tables w) cid).
Qed.

Lemma run_ccall_good now k w ev :
  rows_keyed (pg_tables w) -> wp (run_ccall now k) (w, ev) (good (ccaller k) (pg_tables w)).
Proof.
  intros Hk. destruct k; cbn [run_ccall ccaller].
  all: try (apply wp_drop; eapply wp_mono;
    [first [apply CreateCommunity_wp | by apply UpdateCommunity_wp | apply Announce_wp]|];
    intros [] st [Hp Hc]; by split).
  all: first
    [ apply DeleteCommunity_wp | apply Join_community_wp | apply Leave_wp | apply Unannounce_wp | apply Like_wp
    | apply Pin_wp | apply RemoveFromCommunity_wp | apply TransferOwnership_wp
    | apply Record_Activity_wp | apply RefreshTotalSaved_wp ].
Qed.

(** ** Who may change what *)

(** The columns only the owner may change. *)
Definition kept_columns (c c' : Community) : Prop :=
  cm_ID c' = cm_ID c /\ cm_Name c' = cm_Name c /\ cm_Slug c' = cm_Slug c /\
  cm_Description c' = cm_Description c /\ cm_Category c' = cm_Category c /\
  cm_Tags c' = cm_Tags c /\ cm_AvatarURL c' = cm_AvatarURL c /\
  cm_BannerURL c' = cm_BannerURL c /\ cm_OwnerID c' = cm_OwnerID c /\
  cm_DeletedAt c' = cm_DeletedAt c.

Definition by_owner (u : uuid) (t t' : ctables) : Prop :=
  forall id c, ct_communities t !! id = Some c -> exists c', ct_communities t' !! id = Some c' /\
    (kept_columns c c' \/ u = cm_OwnerID c).

Lemma by_owner_refl u t : by_owner u t t.
Proof. intros id c Hc. exists c. split; [done|]. by left. Qed.

Lemma edit_row_lookup id f t k :
  ct_communities (edit_row id f t) !! k =
    (if decide (k = id) then f else λ c, c) <$> ct_communities t !! k.
Proof.
  unfold edit_row. cbn. rewrite lookup_alter. case_decide; subst; [by rewrite decide_True|].
  rewrite decide_False by congruence. by destruct (ct_communities t !! k).
Qed.

Lemma step_by_owner u t t' : comm_step u t t' -> by_owner u t t'.
Proof.
  intros Hs id c Hc.
  destruct Hs as [c0 Hn _|m _ _|k c0 f Hv Ho _|k nid (c0 & Hv & Ho) _|k n|k x|k tid _|k|e];
    try (exists c; split; [done|by left]).
  1: { exists c. cbn. rewrite lookup_insert_ne by congruence. split; [done|by left]. }
  all: eexists; rewrite edit_row_lookup, Hc; (split; [reflexivity|]); case_decide; subst;
    try (left; by repeat split).
  all: right; unfold visible in Hv; rewrite Hc in Hv; cbn in Hv; case_match; congruence.
Qed.

Lemma steps_by_owner u t t' : rtc (comm_step u) t t' -> by_owner u t t'.
Proof.
  intros Hs. induction Hs as [t|t t1 t' Hs _ IH]; [apply by_owner_refl|]. intros id c Hc.
  destruct (step_by_owner _ _ _ Hs id c Hc) as (c1 & Hc1 & H01).
  destruct (IH id c1 Hc1) as (c2 & Hc2 & H12). exists c2. split; [done|].
  destruct H01 as [H01| ->]; [|by right]. destruct H12 as [H12| ->].
  - left. unfold kept_columns in *. intuition congruence.
  - right. by destruct H01 as (_&_&_&_&_&_&_&_&->&_).
Qed.

(** Only the owner's calls change a community's texts, owner or deletion: any
    other call leaves these columns of every community, whatever statements fail. *)
Theorem only_owner_changes_community now k w ev r st' :
  rows_keyed (pg_tables w) -> run_ccall now k (w, ev) = (r, st') ->
  r <> Panic /\ by_owner (ccaller k) (pg_tables w) (pg_tables st'.1).
Proof.
  intros Hk E. apply (wp_run _ _ _ _ _ (run_ccall_good now k w ev Hk)) in E as [Hp [Hs|Ha]].
  - split; [done|]. by apply steps_by_owner.
  - split; [done|]. intros id c Hc. exists c. split; [by destruct Ha|by left].
Qed.

(** An announcement disappears only by a call of its author, the owner or an
    administrator of its community; only the latter two pin it, only members like
    it, and no call changes its text or author. *)
Theorem announcement_rights now k w ev r st' id a :
  rows_keyed (pg_tables w) -> run_ccall now k (w, ev) = (r, st') ->
  ct_announcements (pg_tables w) !! id = Some a ->
  let t := pg_tables w in let u := ccaller k in
  let runs := owns u t (an_CommunityID a) \/ administers u t (an_CommunityID a) in
  match ct_announcements (pg_tables st'.1) !! id with
  | None => an_AuthorID a = u \/ runs
  | Some a' => a' = a \/ (a' = liked a /\ member t (an_CommunityID a) u) \/
      (exists b, a' = pinned_as b a /\ runs)
  end.
Proof.
  intros Hk E Ha t u runs. apply (wp_run _ _ _ _ _ (run_ccall_good now k w ev Hk)) in E as [Hp [Hs|Hs]].
  - assert (ct_announcements (pg_tables st'.1) = ct_announcements t) as ->.
    { clear -Hs. induction Hs as [|t1 t2 t3 Hs _ IH]; [done|]. rewrite IH. by destruct Hs. }
    fold t in Ha. rewrite Ha. by left.
  - fold t in Ha, Hs. destruct Hs as [a0 Hn _ _|k0 a0 Ha0 Hg|k0 a0 Ha0 Hg|k0 a0 b Ha0 Hg]; cbn.
    + rewrite lookup_insert_ne by congruence. rewrite Ha. by left.
    + rewrite lookup_delete. case_decide; [simplify_eq; exact Hg|]. rewrite Ha. by left.
    + rewrite lookup_alter. case_decide; subst; rewrite ?Ha; [|by left]. simplify_eq.
      right. left. by split.
    + rewrite lookup_alter. case_decide; subst; rewrite ?Ha; [|by left]. simplify_eq.
      right. right. by exists b.
Qed.
End calls.
End communityprops.
