(* ===== verification/CommunityInv.v ===== *)
(** The member counts of the communities: on a database without faults every
    call leaves each [member_count] equal to the number of its members. *)
From S2P Require Export CommunityProps Demo.
From stdpp Require Import options.
#[local] Set Default Proof Using "Type*".
Open Scope Z_scope.
Local Open Scope go_scope.

Module communityinv.
Import circletx community communitypg communityprops.

Definition in_community (cid : uuid) (m : CommunityMember) : nat :=
  if decide (cmm_CommunityID m = cid) then 1 else 0.

Lemma member_count_sum t cid :
  member_count t cid = Z.of_nat (map_sum (in_community cid) (ct_members t)).
Proof.
  unfold member_count, members_of, map_sum, in_community. f_equal.
  induction (map_to_list (ct_members t)) as [|[k m] l IH]; [done|]. cbn [fmap list_fmap].
  rewrite filter_cons. case_decide; cbn [length foldr]; rewrite IH; cbn; by rewrite ?decide_True, ?decide_False.
Qed.

Record counts_ok (t : ctables) : Prop := {
  ok_rows : rows_keyed t;
  ok_members : map_Forall (λ k m, (cmm_CommunityID m, cmm_UserID m) = k) (ct_members t);
  ok_refs : forall k m, ct_members t !! k = Some m -> is_Some (ct_communities t !! cmm_CommunityID m);
  ok_counts : forall id c, ct_communities t !! id = Some c -> cm_MemberCount c = member_count t id;
}.

(** The counts of all communities but [cid]. *)
Record counts_but (cid : uuid) (t : ctables) : Prop := {
  but_rows : rows_keyed t;
  but_members : map_Forall (λ k m, (cmm_CommunityID m, cmm_UserID m) = k) (ct_members t);
  but_refs : forall k m, ct_members t !! k = Some m -> is_Some (ct_communities t !! cmm_CommunityID m);
  but_counts : forall id c, id <> cid -> ct_communities t !! id = Some c ->
    cm_MemberCount c = member_count t id;
}.

Lemma in_community_ne cid m : cmm_CommunityID m <> cid -> in_community cid m = 0%nat.
Proof. intros Hne. unfold in_community. by rewrite decide_False. Qed.

Lemma member_check_fresh m t : member_check m t = None ->
  ct_members t !! (cmm_CommunityID m, cmm_UserID m) = None /\
  is_Some (ct_communities t !! cmm_CommunityID m).
Proof. unfold member_check, referenced. intros Hc. repeat case_match; simplify_eq; eauto. Qed.

Lemma insert_member_but m t : counts_ok t -> member_check m t = None ->
  counts_but (cmm_CommunityID m)
    (set_ct_members <[(cmm_CommunityID m, cmm_UserID m) := m]> t).
Proof.
  intros [Hr Hm Hf Hc] [Hn Hs]%member_check_fresh. split; [done|..]; cbn.
  - by apply map_Forall_insert_2.
  - intros k m'. rewrite lookup_insert_Some. intros [[_ <-]|[_ Hk]]; eauto.
  - intros id c Hid Hl. rewrite (Hc id c Hl), !member_count_sum. cbn.
    rewrite map_sum_insert by done. by rewrite in_community_ne by congruence.
Qed.

Lemma delete_member_but cid u t : counts_ok t ->
  counts_but cid (set_ct_members (delete (cid, u)) t).
Proof.
  intros [Hr Hm Hf Hc]. split; [done|..]; cbn.
  - by apply map_Forall_delete.
  - intros k m [_ Hk]%lookup_delete_Some. eauto.
  - intros id c Hid Hl. rewrite (Hc id c Hl), !member_count_sum. cbn.
    destruct (ct_members t !! (cid, u)) as [m|] eqn:E.
    + rewrite (map_sum_delete _ _ _ m E). apply Hm in E. rewrite in_community_ne; [done|].
      injection E as <- _. congruence.
    + by rewrite delete_id.
Qed.

Lemma role_ok role k t : counts_ok t -> counts_ok (set_ct_members (alter (with_role role) k) t).
Proof.
  intros Ho. destruct (ct_members t !! k) as [m|] eqn:E.
  2: { unfold set_ct_members. rewrite alter_missing by done. by destruct t. }
  destruct Ho as [Hr Hm Hf Hc]. unfold set_ct_members. rewrite (alter_insert_row _ _ _ m E).
  split; [done|..]; cbn.
  - apply map_Forall_insert_2; [|done]. by apply (Hm k m).
  - intros k' m'. rewrite lookup_insert_Some. intros [[_ <-]|[_ Hk]]; [by apply (Hf k m)|eauto].
  - intros id c Hl. rewrite (Hc id c Hl), !member_count_sum. cbn.
    pose proof (map_sum_replace (in_community id) _ k m (with_role role m) E) as Hs.
    change (in_community id (with_role role m)) with (in_community id m) in Hs. lia.
Qed.

Lemma member_count_rows t f : ct_members (f t) = ct_members t -> forall id,
  member_count (f t) id = member_count t id.
Proof. intros Hf id. unfold member_count, members_of. by rewrite Hf. Qed.

Lemma edit_rows_keyed id f t : (forall c, cm_ID (f c) = cm_ID c) -> rows_keyed t ->
  rows_keyed (edit_row id f t).
Proof.
  intros Hf Hk k c. rewrite edit_row_lookup. destruct (ct_communities t !! k) as [c0|] eqn:E; [|done].
  cbn. intros [= <-]. apply Hk in E. case_decide; by rewrite ?Hf.
Qed.

Lemma edit_refs id f t k m :
  is_Some (ct_communities t !! cmm_CommunityID m) ->
  ct_members t !! k = Some m -> is_Some (ct_communities (edit_row id f t) !! cmm_CommunityID m).
Proof. intros Hs _. rewrite edit_row_lookup. by rewrite fmap_is_Some. Qed.

Lemma edit_ok id f t :
  (forall c, cm_ID (f c) = cm_ID c /\ cm_MemberCount (f c) = cm_MemberCount c) ->
  counts_ok t -> counts_ok (edit_row id f t).
Proof.
  intros Hf [Hr Hm Hrf Hc]. split; [|done|..].
  - apply edit_rows_keyed; [|done]. intros c. apply Hf.
  - intros k m Hk. eapply edit_refs; [|exact Hk]. by eapply Hrf.
  - intros k c. rewrite edit_row_lookup. destruct (ct_communities t !! k) as [c0|] eqn:E; [|done].
    intros [= <-]. rewrite (member_count_rows t (edit_row id f)) by done.
    case_decide; [destruct (Hf c0) as [_ ->]|]; by apply Hc.
Qed.

Lemma recount_ok cid t :
  counts_but cid t -> counts_ok (edit_row cid (counted_community (member_count t cid)) t).
Proof.
  intros [Hr Hm Hrf Hc]. split; [|done|..].
  - by apply edit_rows_keyed.
  - intros k m Hk. eapply edit_refs; [|exact Hk]. by eapply Hrf.
  - intros k c. rewrite edit_row_lookup. destruct (ct_communities t !! k) as [c0|] eqn:E; [|done].
    intros [= <-]. rewrite (member_count_rows t (edit_row _ _)) by done.
    case_decide; subst; [done|]. by apply Hc.
Qed.

Lemma insert_community_but c t :
  counts_ok t -> ct_communities t !! cm_ID c = None ->
  counts_but (cm_ID c) (set_ct_communities <[cm_ID c := c]> t).
Proof.
  intros [Hr Hm Hrf Hc] Hn. split; [|done|..]; cbn.
  - by apply map_Forall_insert_2.
  - intros k m Hk. rewrite lookup_insert. case_decide; [done|]. by eapply Hrf.
  - intros id c' Hne. rewrite lookup_insert_ne by done. apply Hc.
Qed.

(** ** Programs that keep the counts *)
Section programs.
Context `{TextMatch, PgNumeric, MapColumn, UUIDLib}.

Definition sound (st : St (W := PgState ctables)) : Prop :=
  exists t, st.1 = connection t /\ counts_ok t.
Definition preserves {A} (m : M St A) : Prop := forall st, sound st -> sound (m st).2.
(** The same for a program on the database. *)
Definition keeps {A} (m : M (PgState ctables) A) : Prop :=
  forall t, counts_ok t -> exists r t', m (connection t) = (r, connection t') /\ counts_ok t'.

Lemma pr_repo {A} (m : M (PgState ctables) A) : keeps m -> preserves (repo m).
Proof.
  intros Hm [w ev] (t & Hw & Hc). cbn in Hw. subst w. unfold repo.
  destruct (Hm t Hc) as (r & t' & -> & Hc'). by exists t'.
Qed.
Lemma pr_ret {A} (a : A) : preserves (gret a). Proof. by intros st. Qed.
Lemma pr_fail {A} e : preserves (gfail (A := A) e). Proof. by intros st. Qed.
Lemma pr_lift {A} (r : result A) : preserves (glift r). Proof. by intros st. Qed.
Lemma pr_deref {A} (o : option A) : preserves (deref o). Proof. by destruct o; intros st. Qed.
Lemma pr_guard b e : preserves (gguard b e). Proof. by destruct b; intros st. Qed.
Lemma pr_bind {A B} (m : M St A) (k : A -> M St B) :
  preserves m -> (forall a, preserves (k a)) -> preserves (gbind m k).
Proof.
  intros Hm Hk st Hs. unfold gbind. specialize (Hm st Hs). destruct (m st) as [[a|e|] st']; auto.
  by apply Hk.
Qed.
Lemma pr_try {A B} (m : M St A) (k : A + error -> M St B) :
  preserves m -> (forall a, preserves (k a)) -> preserves (gtry m k).
Proof.
  intros Hm Hk st Hs. unfold gtry. specialize (Hm st Hs). destruct (m st) as [[a|e|] st']; auto;
    by apply Hk.
Qed.
Lemma pr_wrap {A} f (m : M St A) : preserves m -> preserves (gwrap f m).
Proof. intros Hm st Hs. unfold gwrap. specialize (Hm st Hs). by destruct (m st). Qed.
Lemma pr_drop {A} (m : M St A) : preserves m -> preserves (drop_value m).
Proof. intros Hm. apply pr_bind; [done|]. intros a. apply pr_ret. Qed.

Lemma keeps_read {A} (q : ctables -> A) : keeps (pg_select q).
Proof. intros t Hc. by exists (Ok (q t)), t. Qed.
Lemma keeps_bind {A B} (m : M (PgState ctables) A) (k : A -> M (PgState ctables) B) :
  keeps m -> (forall a, keeps (k a)) -> keeps (gbind m k).
Proof.
  intros Hm Hk t Hc. unfold gbind. destruct (Hm t Hc) as ([a|e|] & t' & -> & Hc'); eauto.
  by apply Hk.
Qed.
Lemma keeps_try {A B} (m : M (PgState ctables) A) (k : A + error -> M (PgState ctables) B) :
  keeps m -> (forall a, keeps (k a)) -> keeps (gtry m k).
Proof.
  intros Hm Hk t Hc. unfold gtry. destruct (Hm t Hc) as ([a|e|] & t' & -> & Hc'); eauto; by apply Hk.
Qed.
Lemma keeps_wrap {A} f (m : M (PgState ctables) A) : keeps m -> keeps (gwrap f m).
Proof. intros Hm t Hc. unfold gwrap. destruct (Hm t Hc) as (r & t' & -> & Hc'); eauto. Qed.
Lemma keeps_ret {A} (a : A) : keeps (gret a).
Proof. intros t Hc. by exists (Ok a), t. Qed.
Lemma keeps_fail {A} e : keeps (gfail (A := A) e).
Proof. intros t Hc. by exists (Err e), t. Qed.
Lemma keeps_row {A} (q : ctables -> option A) : keeps (pg_row q).
Proof. apply keeps_bind; [apply keeps_read|]. intros [a|]; [apply keeps_ret|apply keeps_fail]. Qed.
Lemma keeps_insert check f :
  (forall t, counts_ok t -> check t = None -> counts_ok (f t)) -> keeps (pg_insert check f).
Proof.
  intros Hf t Hc. unfold pg_insert, pg_exec. cbn. destruct (check t) as [code|] eqn:E.
  - by exists (Err (External code)), t.
  - exists (Ok tt), (f t). auto.
Qed.
Lemma keeps_update hit f :
  (forall t, counts_ok t -> counts_ok (f t)) -> keeps (pg_update (λ _, None) hit f).
Proof.
  intros Hf t Hc. unfold pg_update, pg_exec. cbn. destruct (hit t).
  - exists (Ok 1), (f t). auto.
  - by exists (Ok 0), t.
Qed.
Lemma keeps_exec m : keeps m -> keeps (exec_rows m).
Proof. intros Hm. apply keeps_bind; [done|]. intros n. apply keeps_ret. Qed.
Lemma keeps_conflict c format m : keeps m -> keeps (or_conflict c format m).
Proof.
  intros Hm. apply keeps_try; [done|]. intros [[]|e]; [apply keeps_ret|apply keeps_fail].
Qed.
Lemma keeps_missing e m : keeps m -> keeps (or_missing e m).
Proof. intros Hm. apply keeps_bind; [done|]. intros n. case_match; [apply keeps_fail|apply keeps_ret]. Qed.
Lemma keeps_edit id (f : ctables -> Community -> Community) :
  (forall t c, cm_ID (f t c) = cm_ID c /\ cm_MemberCount (f t c) = cm_MemberCount c) ->
  keeps (update_community id f).
Proof. intros Hf. apply keeps_update. intros t. apply edit_ok. intros c. apply Hf. Qed.

Lemma counts_ok_fields t t' :
  ct_communities t' = ct_communities t -> ct_members t' = ct_members t -> counts_ok t -> counts_ok t'.
Proof.
  intros Hc Hm [H1' H2' H3' H4']. split; unfold rows_keyed, member_count, members_of in *;
    by rewrite ?Hc, ?Hm.
Qed.

(** After a write of the rows of [cid] the recount restores its count. *)
Lemma recount_keeps cid t : counts_but cid t ->
  exists t', recount cid (connection t) = (Ok tt, connection t') /\ counts_ok t'.
Proof.
  intros Hb. unfold recount, exec_rows, update_community, pg_update, pg_exec, gbind. cbn.
  case_bool_decide as Hs; cbn.
  - eexists. split; [reflexivity|]. by apply recount_ok.
  - exists t. split; [done|]. destruct Hb as [Hr Hm Hf Hc]. split; [done..|].
    intros id c Hl. apply Hc; [|done]. intros ->. by apply Hs.
Qed.

Lemma AddMember_run m t : member_check m t = None ->
  pg_AddMember m (connection t) = recount (cmm_CommunityID m)
    (connection (set_ct_members <[(cmm_CommunityID m, cmm_UserID m) := m]> t)).
Proof.
  intros Hm. unfold pg_AddMember, or_conflict, pg_insert, pg_exec, gtry, gbind.
  cbn [pg_tx connection pg_faults pg_tables]. by rewrite Hm.
Qed.

Lemma keeps_AddMember m : keeps (pg_AddMember m).
Proof.
  intros t Hc. destruct (member_check m t) as [code|] eqn:E.
  - unfold pg_AddMember, or_conflict, pg_insert, pg_exec, gtry, gbind.
    cbn [pg_tx connection pg_faults pg_tables]. rewrite E. cbn. eexists _, t. by split.
  - rewrite (AddMember_run m t E).
    destruct (recount_keeps _ _ (insert_member_but m t Hc E)) as (t' & -> & Hc'). eauto.
Qed.

Lemma keeps_RemoveMember cid u : keeps (pg_RemoveMember cid u).
Proof.
  intros t Hc. unfold pg_RemoveMember, exec_rows, pg_update, pg_exec, gwrap, gbind, gignore. cbn.
  case_bool_decide; cbn.
  - destruct (recount_keeps cid _ (delete_member_but cid u t Hc)) as (t' & Hr & Hc').
    exists (Ok tt), t'. split; [|done]. unfold recount, exec_rows, gbind in Hr. unfold connection in Hr.
    unfold recount, exec_rows, gbind. by rewrite Hr.
  - destruct (recount_keeps cid t) as (t' & Hr & Hc'). { destruct Hc; split; eauto. }
    exists (Ok tt), t'. split; [|done]. unfold recount, exec_rows, gbind, connection in *. by rewrite Hr.
Qed.

Lemma keeps_FindByID id : keeps (pg_FindByID id).
Proof. apply keeps_try; [apply keeps_row|]. intros [c|e]; [apply keeps_ret|]. case_decide; apply keeps_fail. Qed.
Lemma keeps_GetAnnouncementByID id : keeps (pg_GetAnnouncementByID id).
Proof. apply keeps_wrap, keeps_bind; [apply keeps_row|]. intros a. apply keeps_ret. Qed.
Lemma keeps_fields f :
  (forall t, ct_communities (f t) = ct_communities t /\ ct_members (f t) = ct_members t) ->
  forall t, counts_ok t -> counts_ok (f t).
Proof. intros Hf t. destruct (Hf t). by apply counts_ok_fields. Qed.

(** Every method of the repository but [Create]. *)
Lemma keeps_repository :
  (forall c now, keeps (Update c now)) /\ (forall id now, keeps (community.Delete id now)) /\
  (forall c u role, keeps (UpdateMemberRole c u role)) /\ (forall c, keeps (GetMembers c)) /\
  (forall c u, keeps (IsMember c u)) /\ (forall a, keeps (CreateAnnouncement a)) /\
  (forall id, keeps (DeleteAnnouncement id)) /\ (forall id, keeps (LikeAnnouncement id)) /\
  (forall id b, keeps (SetAnnouncementPin id b)) /\ (forall e, keeps (RecordActivity e)) /\
  (forall c, keeps (UpdateTotalSaved c)) /\ (forall c u, keeps (UpdateOwner c u)).
Proof.
  split_and!; intros; cbn.
  - apply keeps_missing, keeps_wrap, keeps_edit. by split.
  - apply keeps_exec, keeps_edit. by split.
  - apply keeps_exec, keeps_update. intros t. apply role_ok.
  - apply keeps_wrap, keeps_read.
  - apply keeps_read.
  - apply keeps_insert. intros t Hc _. revert Hc. by apply keeps_fields.
  - apply keeps_exec, keeps_update. by apply keeps_fields.
  - apply keeps_exec, keeps_update. by apply keeps_fields.
  - apply keeps_exec, keeps_update. by apply keeps_fields.
  - unfold pg_RecordActivity. case_match; [|apply keeps_fail].
    apply keeps_insert. intros t Hc _. revert Hc. by apply keeps_fields.
  - apply keeps_exec, keeps_edit. by split.
  - apply keeps_exec, keeps_edit. by split.
Qed.

(** The row of a new community and its owner's are inserted together. *)
Lemma CreateCommunity_preserves now new userID input :
  preserves (CreateCommunity now new userID input).
Proof.
  intros [w ev] (t & Hw & Hc). cbn in Hw. subst w. unfold CreateCommunity, parseUUID, gbind, glift.
  destruct (uuid_Parse userID) as [u|]; [|by exists t]. set (c := new_community now new u input).
  unfold gtry at 1, repo at 1. cbn [Create community_pg]. unfold pg_Create, or_conflict, pg_insert, pg_exec, gtry at 1.
  cbn [pg_tx connection pg_faults pg_tables].
  destruct (community_clash c t) as [code|] eqn:E; [by exists t|]. cbn -[AddMember].
  apply clash_fresh in E. set (t1 := set_ct_communities <[new:=c]> t).
  set (m := {| cmm_CommunityID := new; cmm_UserID := u; cmm_Role := "admin"; cmm_JoinedAt := now |}).
  assert (member_check m t1 = None) as Hm.
  { unfold member_check, referenced. cbn. rewrite lookup_insert_eq.
    destruct (ct_members t !! (new, u)) as [m'|] eqn:Em; [|done]. exfalso.
    pose proof (ok_members t Hc _ _ Em) as Hk. injection Hk as Hk _.
    apply (ok_refs t Hc) in Em. rewrite Hk in Em. change (cm_ID c) with new in E. rewrite E in Em. by destruct Em. }
  assert (counts_but new (set_ct_members <[(new, u) := m]> t1)) as Hb.
  { pose proof (insert_community_but c t Hc E) as Hi. change (cm_ID c) with new in Hi. fold t1 in Hi.
    destruct Hi as [Hr Hmb Hrf Hcn]. apply member_check_fresh in Hm as [Hn Hs]. split; [done|..]; cbn.
    - by apply map_Forall_insert_2.
    - intros k m'. rewrite lookup_insert_Some. intros [[_ <-]|[_ Hk]]; [done|]. by apply (Hrf k).
    - intros id c' Hid Hl. rewrite (Hcn id c' Hid Hl), !member_count_sum. cbn.
      rewrite map_sum_insert by done. by rewrite in_community_ne by (cbn; congruence). }
  destruct (recount_keeps new _ Hb) as (t' & Hr & Hc'). exists t'. split; [|done].
  unfold gtry, repo. change (AddMember m) with (pg_AddMember m).
  unfold connection in *. pose proof (AddMember_run m t1 Hm) as Ha. unfold connection in Ha.
  cbn [cmm_CommunityID cmm_UserID m] in Ha. rewrite Ha. by rewrite Hr.
Qed.

Create HintDb counts.
Hint Resolve pr_ret pr_fail pr_lift pr_deref pr_guard : counts.

(** Follow the program; a statement of the repository keeps the counts. *)
Ltac preserve_step :=
  lazymatch goal with
  | |- preserves (gbind _ _) => apply pr_bind; [|intros ?]
  | |- preserves (gwrap _ _) => apply pr_wrap
  | |- preserves (if ?b then _ else _) => destruct b
  | |- preserves (repo _) => apply pr_repo; cbn; first
      [ apply keeps_AddMember | apply keeps_RemoveMember | apply keeps_FindByID
      | apply keeps_GetAnnouncementByID | apply keeps_repository ]
  | |- _ => solve [auto with counts]
  end.

Lemma run_ccall_preserves now k : preserves (run_ccall now k).
Proof.
  destruct k; cbn [run_ccall]; try apply pr_drop; [apply CreateCommunity_preserves|..];
    unfold UpdateCommunity, DeleteCommunity, Join, Leave, Announce, Unannounce, Like, Pin,
      RemoveFromCommunity, TransferOwnership, owner_or_admin, Record_Activity, RefreshTotalSaved;
    repeat preserve_step.
  intros [w ev] Hs. exact Hs.
Qed.

Fixpoint run_ccalls (calls : list (time * ccall)) (st : St) : St :=
  match calls with
  | [] => st
  | (now, k) :: calls => run_ccalls calls (run_ccall now k st).2
  end.

(** C30: Whatever calls are made, one after the other, on a database without faults,
    every community's [member_count] is the number of its members, every member
    belongs to a stored community and every row is stored under its key. *)
Theorem member_counts_exact calls t ev :
  counts_ok t -> exists t', (run_ccalls calls (connection t, ev)).1 = connection t' /\ counts_ok t'.
Proof.
  intros Hc. assert (sound (connection t, ev)) as Hs by by exists t. revert Hs.
  generalize (connection t, ev). clear Hc t ev. induction calls as [|[now k] calls IH]; intros st Hs.
  { destruct st as [w ev], Hs as (t & Hw & Hc). cbn in *. subst. by exists t. }
  cbn [run_ccalls]. apply IH. by apply run_ccall_preserves.
Qed.

(** Membership does not look at the community: a deleted community is joined, and
    then counts the user as its member. *)
Theorem deleted_community_joined now communityID userID cid uid t ev c :
  uuid_Parse communityID = Some cid -> uuid_Parse userID = Some uid ->
  ct_communities t !! cid = Some c -> ct_members t !! (cid, uid) = None ->
  visible t cid = None ->
  exists t' ev', Join true now communityID userID (connection t, ev) = (Ok tt, (connection t', ev')) /\
    visible t' cid = None /\
    IsMemberOf communityID userID (connection t', ev') = (Ok true, (connection t', ev')).
Proof.
  intros Hc Hu Hrow Hn Hv. unfold Join, IsMemberOf, parseUUID. rewrite Hc, Hu.
  set (m := {| cmm_CommunityID := cid; cmm_UserID := uid; cmm_Role := "member"; cmm_JoinedAt := now |}).
  assert (member_check m t = None) as Hm.
  { unfold member_check, referenced. cbn. by rewrite Hn, Hrow. }
  set (t1 := set_ct_members <[(cid, uid) := m]> t).
  exists (edit_row cid (counted_community (member_count t1 cid)) t1), (ev ++ [(communityID, userID)]).
  assert (recount cid (connection t1) =
    (Ok tt, connection (edit_row cid (counted_community (member_count t1 cid)) t1))) as Hr.
  { unfold recount, exec_rows, update_community, pg_update, pg_exec, gbind. cbn.
    by rewrite bool_decide_true by (by eexists). }
  split_and!.
  - unfold gbind, glift, repo. fold m. change (AddMember m) with (pg_AddMember m).
    rewrite (AddMember_run m t Hm). cbn [cmm_CommunityID cmm_UserID m]. fold t1. by rewrite Hr.
  - unfold visible in Hv |- *. rewrite edit_row_lookup, decide_True by done. cbn. rewrite Hrow in Hv |- *.
    cbn in Hv |- *. unfold live in *. cbn. by case_bool_decide.
  - cbn. by rewrite lookup_insert_eq.
Qed.
End programs.

(** ** Runs *)
#[local] Instance demo_maps : MapColumn := {| binds_maps := false |}.
#[local] Instance demo_sum : PgNumeric := {| numeric_add := f64_add |}.
#[local] Existing Instance demo_like.

Definition no_communities : ctables :=
  {| ct_communities := ∅; ct_members := ∅; ct_announcements := ∅; ct_activity := [];
     ct_circle := empty_tables |}.
Definition demo_community : CreateCommunityInput :=
  {| cc_Name := "savers"; cc_Slug := "savers"; cc_Description := ""; cc_Category := "";
     cc_Tags := [] |}%string.
(** The user 1 creates the community 5; 2 and 3 join; 2 announces; 3 leaves. *)
Definition demo_community_calls : list (time * ccall) :=
  [(10, CCreate 5%N "x" demo_community); (11, CJoin "xxxxx" "xx"); (12, CJoin "xxxxx" "xxx");
   (13, CAnnounce 9%N "xxxxx" "xx" "hello"); (14, CLeave "xxxxx" "xxx");
   (15, CPin "xxxxxxxxx" "xx" true)]%string.
Definition demo_communities := run_ccalls demo_community_calls (connection no_communities, []).

Lemma no_communities_ok : counts_ok no_communities.
Proof. split; [apply map_Forall_empty|apply map_Forall_empty|done|done]. Qed.

Lemma member_counts_exact_witness :
  cm_MemberCount <$> ct_communities (pg_tables demo_communities.1) !! 5%N = Some 2 /\
  exists t', demo_communities.1 = connection t' /\ counts_ok t'.
Proof.
  split; [by vm_compute|]. apply (member_counts_exact demo_community_calls no_communities []).
  apply no_communities_ok.
Defined.

(** A count is a statement of its own, outside a transaction: when it fails after the
    user 3 left, the call succeeds and the community counts three members of two. *)
Definition demo_failed_recount :=
  let st := run_ccalls (take 3 demo_community_calls) (connection no_communities, []) in
  run_ccall 14 (CLeave "xxxxx" "xxx")%string
    ({| pg_tables := pg_tables st.1; pg_tx := None;
        pg_faults := [None; None; Some connection_failure] |}, st.2).
Lemma failed_recount_miscounts :
  demo_failed_recount.1 = Ok tt /\
  cm_MemberCount <$> ct_communities (pg_tables demo_failed_recount.2.1) !! 5%N = Some 3 /\
  member_count (pg_tables demo_failed_recount.2.1) 5%N = 2.
Proof. vm_compute. split_and!; reflexivity. Qed.

Definition demo_unpinned := run_ccall 16 (CUnannounce "xxxxxxxxx" "xxx")%string demo_communities.

Lemma demo_keyed : rows_keyed (pg_tables demo_communities.1).
Proof.
  intros id c Hc. assert (id = 5%N) as ->.
  { apply dec_stable. intros Hne. vm_compute in Hc. destruct id as [|p]; [done|].
    repeat (destruct p as [p|p|]; try done). }
  vm_compute in Hc. by injection Hc as <-.
Qed.

Lemma only_owner_changes_community_witness :
  demo_unpinned.1 <> Panic /\ by_owner 3%N (pg_tables demo_communities.1) (pg_tables demo_unpinned.2.1).
Proof.
  change 3%N with (ccaller (CUnannounce "xxxxxxxxx" "xxx")%string).
  apply (only_owner_changes_community 16 (CUnannounce "xxxxxxxxx" "xxx")%string demo_communities.1
    demo_communities.2 demo_unpinned.1 demo_unpinned.2); [apply demo_keyed|].
  unfold demo_unpinned. destruct demo_communities as [w ev]. by destruct (run_ccall _ _ _).
Defined.

Definition demo_hello : Announcement :=
  {| an_ID := 9; an_CommunityID := 5; an_AuthorID := 2; an_Content := "hello"; an_IsPinned := false;
     an_LikeCount := 0; an_CreatedAt := 13; an_UpdatedAt := 13 |}%N%string.
Lemma announcement_rights_witness :
  match ct_announcements (pg_tables demo_unpinned.2.1) !! 9%N with
  | None => an_AuthorID demo_hello = 3%N \/
      (owns 3%N (pg_tables demo_communities.1) 5%N \/ administers 3%N (pg_tables demo_communities.1) 5%N)
  | Some a' => a' = demo_hello \/
      (a' = liked demo_hello /\ member (pg_tables demo_communities.1) 5%N 3%N) \/
      (exists b, a' = pinned_as b demo_hello /\
        (owns 3%N (pg_tables demo_communities.1) 5%N \/ administers 3%N (pg_tables demo_communities.1) 5%N))
  end.
Proof.
  change 3%N with (ccaller (CUnannounce "xxxxxxxxx" "xxx")%string).
  apply (announcement_rights 16 (CUnannounce "xxxxxxxxx" "xxx")%string demo_communities.1
    demo_communities.2 demo_unpinned.1 demo_unpinned.2 9%N demo_hello); [apply demo_keyed| |by vm_compute].
  unfold demo_unpinned. destruct demo_communities as [w ev]. by destruct (run_ccall _ _ _).
Defined.
End communityinv.
