(* ===== verification/Swap.v ===== *)
(** Swap offers (src/internal/domain/swap): the data of model.go, the interfaces
    the service calls as atomic actions, and every method of the service and of
    the sweeper as a program of these actions, which other requests and other
    replicas may overlap. *)
From S2P Require Export Threads RedisLock Contract.
From stdpp Require Import options.
#[local] Set Default Proof Using "Type*".
Open Scope Z_scope.
Local Open Scope go_scope.

Module swap.
Import redislock.

(** ** model.go *)
Abbreviation SwapOfferStatus := string (only parsing).
Definition SwapOfferStatusCreated : SwapOfferStatus := "created"%string.
Definition SwapOfferStatusAccepted : SwapOfferStatus := "accepted"%string.
Definition SwapOfferStatusCompleted : SwapOfferStatus := "completed"%string.
Definition SwapOfferStatusCancelled : SwapOfferStatus := "cancelled"%string.
Definition SwapOfferStatusExpired : SwapOfferStatus := "expired"%string.
Definition SwapOfferStatusSweeping : SwapOfferStatus := "sweeping"%string.

Record SwapOffer := {
  so_ID : string;
  so_CircleID : string;
  so_OfferorUserID : string;
  so_OffereeUserID : option string;
  so_OfferorAsset : string;
  so_OfferorAmount : Z;
  so_RequestedAsset : string;
  so_RequestedAmount : Z;
  so_Status : SwapOfferStatus;
  so_TransactionHash : option string;
  so_ExpiresAt : time;
  so_CreatedAt : time;
  so_UpdatedAt : time;
}.

Record SwapOfferRequest := {
  sr_CircleID : string;
  sr_OffereeUserID : option string;
  sr_OfferorAsset : string;
  sr_OfferorAmount : Z;
  sr_RequestedAsset : string;
  sr_RequestedAmount : Z;
  sr_ExpiresIn : Z;
}.

Record SwapHistoryFilter := {
  sh_CircleID : option string; sh_Status : option string; sh_Limit : Z; sh_Offset : Z;
}.

(** The user of the user service: the fields the swaps use. *)
Record User := { u_ID : uuid; u_WalletAddress : string }.

(** Whose offers a history lists. *)
Inductive history := OfUser (userID : string) | OfCircle (circleID : string).

(** ** The interfaces: repository.go, EscrowClient, UserService and the clock

    Each action is one statement, one call of the escrow contract or of the user
    service, or one reading of the clock.  A history is two statements. *)
Inductive swapE : Type -> Type :=
  | ENow : swapE time
  | EGetByID (id : string) : swapE (option User)
  | ECreateSwap (circleID offeror offeree offerorAsset : string) (offerorAmount : Z)
      (requestedAsset : string) (requestedAmount expiresAt : Z) : swapE string
  | EAcceptSwap (swapID acceptor : string) : swapE string
  | ECancelSwap (swapID canceller : string) : swapE string
  | ECreateSwapOffer (offer : SwapOffer) : swapE unit
  | EGetSwapOfferByID (id : string) : swapE (option SwapOffer)
  | EUpdateSwapOfferStatus (id : string) (status : SwapOfferStatus) (hash : option string) : swapE unit
  | ECompareAndSwapStatus (id : string) (expected new : SwapOfferStatus) (hash : option string) : swapE bool
  | ECountOffers (hist : history) : swapE Z
  | ESelectOffers (hist : history) (limit offset : Z) : swapE (list SwapOffer)
  | EListExpiredCreatedOffers (now : time) : swapE (list SwapOffer)
  | EClaimOfferForSweep (id : string) (now : time) : swapE bool
  | EReleaseSweepClaim (id : string) : swapE unit
  | EFinalizeSweep (id : string) (hash : option string) : swapE unit
  | EAcquire (l : Lock) : swapE (bool * Lock)
  | ERelease (l : Lock) : swapE unit.

(** ** service.go *)
Section service.
Context `{UUIDLib}.
Abbreviation P := (prog swapE).

(** [time.Unix]: whole seconds since 1970, which are [unix_epoch] seconds after the
    zero time. *)
Definition unix_epoch : Z := 62135596800.
Definition time_Unix (t : time) : Z := t / second - unix_epoch.
(** [strconv.ParseUint] of the decimal text of a number that is not negative. *)
Definition swap_expiry (now : time) (expiresIn : Z) : time :=
  time_Add now (wrap64 (expiresIn * (3600 * second))).

Definition offeree_wallet (offereeID : option string) : P string :=
  match offereeID with
  | None => pret ""%string
  | Some id =>
      ptry (act (EGetByID id)) (λ r,
        match r with
        | inr _ => pfail apperrors_ErrNotFound
        | inl u => let* u := pderef u in pret (u_WalletAddress u)
        end)
  end.

Definition new_offer (new : uuid) (userID : string) (input : SwapOfferRequest) (expiresAt now : time) :
    SwapOffer :=
  {| so_ID := uuid_String new; so_CircleID := sr_CircleID input; so_OfferorUserID := userID;
     so_OffereeUserID := sr_OffereeUserID input; so_OfferorAsset := sr_OfferorAsset input;
     so_OfferorAmount := sr_OfferorAmount input; so_RequestedAsset := sr_RequestedAsset input;
     so_RequestedAmount := sr_RequestedAmount input; so_Status := SwapOfferStatusCreated;
     so_TransactionHash := None; so_ExpiresAt := expiresAt; so_CreatedAt := now; so_UpdatedAt := now |}.

Definition CreateSwapOffer (new : uuid) (userID : string) (input : SwapOfferRequest) : P SwapOffer :=
  ptry (act (EGetByID userID)) (λ r,
  match r with
  | inr _ => pfail apperrors_ErrNotFound
  | inl u =>
      let* now := act ENow in
      let expiresAt := swap_expiry now (sr_ExpiresIn input) in
      do* pguard (time_Unix expiresAt <? 0) (Errorf "swap expiry cannot be before the Unix epoch") in
      let* offereeWallet := offeree_wallet (sr_OffereeUserID input) in
      let* u := pderef u in
      do* pwrap "failed to create escrow swap: %w"
        (act (ECreateSwap (sr_CircleID input) (u_WalletAddress u) offereeWallet (sr_OfferorAsset input)
          (sr_OfferorAmount input) (sr_RequestedAsset input) (sr_RequestedAmount input)
          (time_Unix expiresAt))) in
      let* now := act ENow in
      let offer := new_offer new userID input expiresAt now in
      do* act (ECreateSwapOffer offer) in
      pret offer
  end).

Definition with_result (status : SwapOfferStatus) (txHash : string) (o : SwapOffer) : SwapOffer :=
  {| so_ID := so_ID o; so_CircleID := so_CircleID o; so_OfferorUserID := so_OfferorUserID o;
     so_OffereeUserID := so_OffereeUserID o; so_OfferorAsset := so_OfferorAsset o;
     so_OfferorAmount := so_OfferorAmount o; so_RequestedAsset := so_RequestedAsset o;
     so_RequestedAmount := so_RequestedAmount o; so_Status := status;
     so_TransactionHash := Some txHash; so_ExpiresAt := so_ExpiresAt o;
     so_CreatedAt := so_CreatedAt o; so_UpdatedAt := so_UpdatedAt o |}.

(** [user, err := s.userSvc.GetByID(ctx, userID)] *)
Definition wallet_of (userID : string) : P (option User) :=
  ptry (act (EGetByID userID)) (λ r,
    match r with inr _ => pfail apperrors_ErrNotFound | inl u => pret u end).

(** The offer is claimed by the change of its status, then accepted on the chain. *)
Definition accept_claimed (offerID : string) (offer : SwapOffer) (acceptor : option User) : P SwapOffer :=
  let* acceptor := pderef acceptor in
  ptry (act (EAcceptSwap offerID (u_WalletAddress acceptor))) (λ r,
    match r with
    | inr err =>
        do* pignore (act (ECompareAndSwapStatus offerID SwapOfferStatusAccepted
          SwapOfferStatusCreated None)) in
        pfail (Wrapf "failed to accept swap on-chain: %w" err)
    | inl txHash =>
        do* pignore (act (EUpdateSwapOfferStatus offerID SwapOfferStatusAccepted (Some txHash))) in
        pret (with_result SwapOfferStatusAccepted txHash offer)
    end).

Definition AcceptSwapOffer (userID offerID : string) : P SwapOffer :=
  let* offer := act (EGetSwapOfferByID offerID) in
  let* offer := pderef offer in
  do* pguard (negb (bool_decide (so_Status offer = SwapOfferStatusCreated))) apperrors_ErrConflict in
  let* now := act ENow in
  do* pguard (time_After now (so_ExpiresAt offer)) apperrors_ErrInvalidInput in
  do* pguard match so_OffereeUserID offer with
             | Some id => negb (bool_decide (id = userID)) | None => false end
    apperrors_ErrForbidden in
  let* acceptorUser := wallet_of userID in
  let* swapped := act (ECompareAndSwapStatus offerID SwapOfferStatusCreated
    SwapOfferStatusAccepted None) in
  if negb swapped then pfail apperrors_ErrConflict
  else accept_claimed offerID offer acceptorUser.

Definition CancelSwapOffer (userID offerID : string) : P SwapOffer :=
  let* offer := act (EGetSwapOfferByID offerID) in
  let* offer := pderef offer in
  do* pguard (negb (bool_decide (so_Status offer = SwapOfferStatusCreated))) apperrors_ErrConflict in
  do* pguard (negb (bool_decide (so_OfferorUserID offer = userID))) apperrors_ErrForbidden in
  let* userObj := wallet_of userID in
  let* userObj := pderef userObj in
  let* txHash := pwrap "failed to cancel swap on-chain: %w"
    (act (ECancelSwap offerID (u_WalletAddress userObj))) in
  do* act (EUpdateSwapOfferStatus offerID SwapOfferStatusCancelled (Some txHash)) in
  pret (with_result SwapOfferStatusCancelled txHash offer).

(** [if limit <= 0 { limit = 20 }] *)
Definition history_limit (filter : SwapHistoryFilter) : Z :=
  if sh_Limit filter <=? 0 then 20 else sh_Limit filter.
Definition list_history (hist : history) (filter : SwapHistoryFilter) : P (list SwapOffer * Z) :=
  let* total := act (ECountOffers hist) in
  let* offers := act (ESelectOffers hist (history_limit filter) (sh_Offset filter)) in
  pret (offers, total).
Definition GetSwapHistory (userID : string) (filter : SwapHistoryFilter) : P (list SwapOffer * Z) :=
  list_history (OfUser userID) filter.
Definition GetCircleSwapHistory (circleID : string) (filter : SwapHistoryFilter) :
    P (list SwapOffer * Z) := list_history (OfCircle circleID) filter.

Definition releaseExpiredOffer (offerID offerorUserID : string) : P unit :=
  let* offeror := act (EGetByID offerorUserID) in
  let* offeror := pderef offeror in
  let* txHash := act (ECancelSwap offerID (u_WalletAddress offeror)) in
  act (EFinalizeSweep offerID (Some txHash)).

(** One claimed offer: whether it was swept. *)
Definition sweep_claimed (offer : SwapOffer) : P bool :=
  ptry (releaseExpiredOffer (so_ID offer) (so_OfferorUserID offer)) (λ r,
    match r with
    | inr _ => do* pignore (act (EReleaseSweepClaim (so_ID offer))) in pret false
    | inl _ => pret true
    end).
Fixpoint sweep_loop (expired : list SwapOffer) (swept : Z) : P Z :=
  match expired with
  | [] => pret swept
  | offer :: expired =>
      let* now := act ENow in
      ptry (act (EClaimOfferForSweep (so_ID offer) now)) (λ claimed,
        match claimed with
        | inl true => let* done := sweep_claimed offer in
                      sweep_loop expired (if done : bool then swept + 1 else swept)
        | _ => sweep_loop expired swept
        end)
  end.
Definition SweepExpiredOffers : P Z :=
  let* now := act ENow in
  let* expired := act (EListExpiredCreatedOffers now) in
  sweep_loop expired 0.

(** ** sweeper.go *)
Definition SweepLockKey : string := "lock:swap-sweep".
Definition sweep_lock (client : bool) : Lock := NewLock client SweepLockKey DefaultLockTTL.

(** [Lock.With] of pkg/redis: [None] when the lock is not held.  The release is
    deferred; a panic of [fn] ends the process. *)
Definition With {A} (l : Lock) (fn : P A) : P (option (A + error)) :=
  let* acquired := act (EAcquire l) in
  if negb acquired.1 then pret None
  else ptry fn (λ r, do* act (ERelease acquired.2) in pret (Some r)).
(** The number of swept offers, whether the lock was held, and the error. *)
Definition SweepOnce (client : bool) : P (Z * bool * option error) :=
  ptry (With (sweep_lock client) SweepExpiredOffers) (λ r,
    match r with
    | inr err => pret (0, false, Some err)
    | inl None => pret (0, false, None)
    | inl (Some (inr err)) => pret (0, true, Some err)
    | inl (Some (inl swept)) => pret (swept, true, None)
    end).
End service.
End swap.
