(* ===== verification/SwapPg.v ===== *)
(** The world of the swap offers: the table of src/internal/domain/swap/repository_pg.go
    with its statements, the escrow contract with the calls it was sent, the
    clock and the lock; and what each action does to it. *)
From S2P Require Export Swap Demo.
From stdpp Require Import options.
#[local] Set Default Proof Using "Type*".
Open Scope Z_scope.
Local Open Scope go_scope.

Module swappg.
Import redislock swap.

(** ** The table swap_offers

    The columns of type [UUID] are numbers; the server parses and prints them. *)
Record SwapRow := {
  sw_ID : uuid;
  sw_CircleID : uuid;
  sw_OfferorUserID : uuid;
  sw_OffereeUserID : option uuid;
  sw_OfferorAsset : string;
  sw_OfferorAmount : Z;
  sw_RequestedAsset : string;
  sw_RequestedAmount : Z;
  sw_Status : SwapOfferStatus;
  sw_TransactionHash : option string;
  sw_ExpiresAt : time;
  sw_CreatedAt : time;
  sw_UpdatedAt : time;
}.
Abbreviation stables := (gmap uuid SwapRow) (only parsing).

(** [UPDATE swap_offers SET status, transaction_hash, updated_at = NOW()]: a
    statement without the hash keeps it. *)
Definition set_status (status : SwapOfferStatus) (hash : option (option string)) (now : time)
    (r : SwapRow) : SwapRow :=
  {| sw_ID := sw_ID r; sw_CircleID := sw_CircleID r; sw_OfferorUserID := sw_OfferorUserID r;
     sw_OffereeUserID := sw_OffereeUserID r; sw_OfferorAsset := sw_OfferorAsset r;
     sw_OfferorAmount := sw_OfferorAmount r; sw_RequestedAsset := sw_RequestedAsset r;
     sw_RequestedAmount := sw_RequestedAmount r; sw_Status := status;
     sw_TransactionHash := default (sw_TransactionHash r) hash; sw_ExpiresAt := sw_ExpiresAt r;
     sw_CreatedAt := sw_CreatedAt r; sw_UpdatedAt := now |}.

Section statements.
Context `{UUIDLib}.
Abbreviation SPg := (M (PgState stables)).

Definition scanned (r : SwapRow) : SwapOffer :=
  {| so_ID := uuid_String (sw_ID r); so_CircleID := uuid_String (sw_CircleID r);
     so_OfferorUserID := uuid_String (sw_OfferorUserID r);
     so_OffereeUserID := uuid_String <$> sw_OffereeUserID r;
     so_OfferorAsset := sw_OfferorAsset r; so_OfferorAmount := sw_OfferorAmount r;
     so_RequestedAsset := sw_RequestedAsset r; so_RequestedAmount := sw_RequestedAmount r;
     so_Status := sw_Status r; so_TransactionHash := sw_TransactionHash r;
     so_ExpiresAt := sw_ExpiresAt r; so_CreatedAt := sw_CreatedAt r; so_UpdatedAt := sw_UpdatedAt r |}.

(** A text that is no UUID: invalid_text_representation. *)
Definition bad_uuid {A} : A + string := inr "22P02"%string.
Definition row_of_offer (o : SwapOffer) : option SwapRow :=
  id ← uuid_Parse (so_ID o);
  circle ← uuid_Parse (so_CircleID o);
  offeror ← uuid_Parse (so_OfferorUserID o);
  offeree ← match so_OffereeUserID o with
            | None => Some None
            | Some u => Some <$> uuid_Parse u
            end;
  Some {| sw_ID := id; sw_CircleID := circle; sw_OfferorUserID := offeror; sw_OffereeUserID := offeree;
          sw_OfferorAsset := so_OfferorAsset o; sw_OfferorAmount := so_OfferorAmount o;
          sw_RequestedAsset := so_RequestedAsset o; sw_RequestedAmount := so_RequestedAmount o;
          sw_Status := so_Status o; sw_TransactionHash := None; sw_ExpiresAt := so_ExpiresAt o;
          sw_CreatedAt := so_CreatedAt o; sw_UpdatedAt := so_UpdatedAt o |}.

Definition pg_CreateSwapOffer (o : SwapOffer) : SPg unit :=
  pg_exec (λ t,
    match row_of_offer o with
    | None => bad_uuid
    | Some r =>
        if (sw_OfferorAmount r <=? 0) || (sw_RequestedAmount r <=? 0) then inr "23514"%string
        else match t !! sw_ID r with
             | Some _ => inr "23505"%string
             | None => inl (tt, <[sw_ID r := r]> t)
             end
    end).

(** A statement with [WHERE id = $n]. *)
Definition by_id {A} (id : string) (q : uuid -> stables -> (A * stables) + string) : SPg A :=
  pg_exec (λ t, match uuid_Parse id with None => bad_uuid | Some u => q u t end).
Definition pg_GetSwapOfferByID (id : string) : SPg (option SwapOffer) :=
  let! r := by_id id (λ u t, inl (scanned <$> t !! u, t)) in
  match r with Some o => gret (Some o) | None => gfail apperrors_ErrNotFound end.

(** The number of rows an update of one offer changed. *)
Definition update_offer (id : string) (hit : SwapRow -> bool) (f : SwapRow -> SwapRow) : SPg Z :=
  by_id id (λ u t,
    match t !! u with
    | Some r => if hit r then inl (1, <[u := f r]> t) else inl (0, t)
    | None => inl (0, t)
    end).
Definition has_status (s : SwapOfferStatus) (r : SwapRow) : bool := bool_decide (sw_Status r = s).

Definition pg_UpdateSwapOfferStatus (now : time) (id : string) (status : SwapOfferStatus)
    (hash : option string) : SPg unit :=
  or_missing apperrors_ErrNotFound (update_offer id (λ _, true) (set_status status (Some hash) now)).
Definition pg_CompareAndSwapStatus (now : time) (id : string) (expected new : SwapOfferStatus)
    (hash : option string) : SPg bool :=
  let! rows := update_offer id (has_status expected) (set_status new (Some hash) now) in
  gret (0 <? rows).

Definition in_history (hist : history) : stables -> list SwapRow + string :=
  λ t, match hist with
       | OfUser u => match uuid_Parse u with
                     | None => bad_uuid
                     | Some u => inl (filter (λ r, sw_OfferorUserID r = u \/ sw_OffereeUserID r = Some u)
                                       (map_to_list t).*2)
                     end
       | OfCircle c => match uuid_Parse c with
                       | None => bad_uuid
                       | Some c => inl (filter (λ r, sw_CircleID r = c) (map_to_list t).*2)
                       end
       end.
Definition by_created_desc (r r' : SwapRow) : Prop := sw_CreatedAt r' <= sw_CreatedAt r.
#[export] Instance by_created_desc_dec r r' : Decision (by_created_desc r r').
Proof. unfold by_created_desc. apply _. Defined.
Definition pg_CountOffers (hist : history) : SPg Z :=
  pg_exec (λ t, match in_history hist t with
                | inl rs => inl (Z.of_nat (length rs), t) | inr code => inr code end).
Definition pg_SelectOffers (hist : history) (limit offset : Z) : SPg (list SwapOffer) :=
  pg_exec (λ t,
    match in_history hist t with
    | inr code => inr code
    | inl rs => if offset <? 0 then inr "2201X"%string
                else inl (scanned <$> take (Z.to_nat limit) (drop (Z.to_nat offset)
                            (merge_sort by_created_desc rs)), t)
    end).

Definition pg_ListExpiredCreatedOffers (now : time) : SPg (list SwapOffer) :=
  pg_select (λ t, scanned <$> filter (λ r, sw_Status r = "created"%string /\ sw_ExpiresAt r <= now)
                                (map_to_list t).*2).
Definition pg_ClaimOfferForSweep (server : time) (id : string) (now : time) : SPg bool :=
  let! rows := update_offer id (λ r, has_status SwapOfferStatusCreated r && (sw_ExpiresAt r <=? now))
    (set_status SwapOfferStatusSweeping None server) in
  gret (0 <? rows).
Definition pg_ReleaseSweepClaim (now : time) (id : string) : SPg unit :=
  let! _ := update_offer id (has_status SwapOfferStatusSweeping)
    (set_status SwapOfferStatusCreated None now) in gret tt.
Definition pg_FinalizeSweep (now : time) (id : string) (hash : option string) : SPg unit :=
  or_missing apperrors_ErrNotFound (update_offer id (has_status SwapOfferStatusSweeping)
    (set_status SwapOfferStatusExpired (Some hash) now)).

(** ** The world

    The answers of the user service and of the escrow contract, the random tokens
    of the locks and the faults of the network are lists: any answer may come.
    The escrow client answers a hash once the ledger confirmed the transaction;
    an error may come before the submission or after it (a poll that ends, a
    context that is done), so it says nothing of whether the transaction is
    taken by the ledger. *)
Inductive escrow_call :=
  | CreateSwap (circleID offeror offeree offerorAsset : string) (offerorAmount : Z)
      (requestedAsset : string) (requestedAmount expiresAt : Z)
  | AcceptSwap (swapID acceptor : string)
  | CancelSwap (swapID canceller : string).

Inductive chain_answer :=
  | Confirmed (tx : string)
  | Failing (e : error) (landed : bool).

(** What the client returns, and whether the ledger takes the transaction. *)
Definition client_answer (a : chain_answer) : result string :=
  match a with Confirmed tx => Ok tx | Failing e _ => Err e end.
Definition landed (a : chain_answer) : bool :=
  match a with Confirmed _ => true | Failing _ l => l end.

Record World := {
  w_db : PgState stables;
  w_now : time;
  w_redis : gmap string (string * time);
  w_tokens : list (string + error);
  w_net : list (option error);
  w_users : list (option User + error);
  w_chain : list chain_answer;
  w_calls : list (escrow_call * bool);
}.

Definition with_db (db : PgState stables) (w : World) : World :=
  {| w_db := db; w_now := w_now w; w_redis := w_redis w; w_tokens := w_tokens w; w_net := w_net w;
     w_users := w_users w; w_chain := w_chain w; w_calls := w_calls w |}.
Definition with_redis (redis : gmap string (string * time)) (tokens : list (string + error))
    (net : list (option error)) (w : World) : World :=
  {| w_db := w_db w; w_now := w_now w; w_redis := redis; w_tokens := tokens; w_net := net;
     w_users := w_users w; w_chain := w_chain w; w_calls := w_calls w |}.
Definition with_users (users : list (option User + error)) (w : World) : World :=
  {| w_db := w_db w; w_now := w_now w; w_redis := w_redis w; w_tokens := w_tokens w; w_net := w_net w;
     w_users := users; w_chain := w_chain w; w_calls := w_calls w |}.
Definition with_chain (chain : list chain_answer) (calls : list (escrow_call * bool)) (w : World) : World :=
  {| w_db := w_db w; w_now := w_now w; w_redis := w_redis w; w_tokens := w_tokens w; w_net := w_net w;
     w_users := w_users w; w_chain := chain; w_calls := calls |}.

Definition answer {A} (r : A + error) : result A := match r with inl a => Ok a | inr e => Err e end.
Definition unavailable {A} : A + error := inr (External "unavailable").
Definition in_db {A} (m : SPg A) : M World A := λ w, let '(r, db) := m (w_db w) in (r, with_db db w).
Definition ask_user : M World (option User) := λ w,
  (answer (default unavailable (head (w_users w))), with_users (tail (w_users w)) w).
Definition on_chain (c : escrow_call) : M World string := λ w,
  let a := default (Failing (External "unavailable") false) (head (w_chain w)) in
  (client_answer a, with_chain (tail (w_chain w)) (w_calls w ++ [(c, landed a)]) w).
Definition token_of (w : World) : string + error := default unavailable (head (w_tokens w)).
Definition fault_of (w : World) : option error := default None (head (w_net w)).

Definition perform (X : Type) (e : swapE X) : M World X :=
  match e in swapE X return M World X with
  | ENow => λ w, (Ok (w_now w), w)
  | EGetByID id => ask_user
  | ECreateSwap c a b x n y m t => on_chain (CreateSwap c a b x n y m t)
  | EAcceptSwap id a => on_chain (AcceptSwap id a)
  | ECancelSwap id a => on_chain (CancelSwap id a)
  | ECreateSwapOffer o => in_db (pg_CreateSwapOffer o)
  | EGetSwapOfferByID id => in_db (pg_GetSwapOfferByID id)
  | EUpdateSwapOfferStatus id s hash => λ w, in_db (pg_UpdateSwapOfferStatus (w_now w) id s hash) w
  | ECompareAndSwapStatus id s s' hash => λ w, in_db (pg_CompareAndSwapStatus (w_now w) id s s' hash) w
  | ECountOffers hist => in_db (pg_CountOffers hist)
  | ESelectOffers hist limit offset => in_db (pg_SelectOffers hist limit offset)
  | EListExpiredCreatedOffers now => in_db (pg_ListExpiredCreatedOffers now)
  | EClaimOfferForSweep id now => λ w, in_db (pg_ClaimOfferForSweep (w_now w) id now) w
  | EReleaseSweepClaim id => λ w, in_db (pg_ReleaseSweepClaim (w_now w) id) w
  | EFinalizeSweep id hash => λ w, in_db (pg_FinalizeSweep (w_now w) id hash) w
  | EAcquire l => λ w,
      let '(r, (l, redis)) := Acquire (w_now w) (token_of w) (fault_of w) l (w_redis w) in
      (result_map (λ a, (a, l)) r, with_redis redis (tail (w_tokens w)) (tail (w_net w)) w)
  | ERelease l => λ w,
      (Ok tt, with_redis (Release (w_now w) (fault_of w) l (w_redis w)).2 (w_tokens w) (tail (w_net w)) w)
  end.
End statements.
End swappg.
