(* ===== verification/SwapProps.v ===== *)
(** The swap offers under any interleaving of requests, sweepers and replicas: who
    may move the escrow of an offer, and what the claims do not protect. *)
From S2P Require Export SwapPg.
From stdpp Require Import options.
#[local] Set Default Proof Using "Type*".
Open Scope Z_scope.
Local Open Scope go_scope.

Module swapprops.
Import redislock swap swappg.

(** ** Threads: the calls of the service *)
Inductive scall :=
  | SCreate (new : uuid) (userID : string) (input : SwapOfferRequest)
  | SAccept (userID offerID : string)
  | SCancel (userID offerID : string)
  | SHistory (hist : history) (filter : SwapHistoryFilter)
  | SSweep (client : bool).
Definition is_cancel (l : scall) : bool := match l with SCancel _ _ => true | _ => false end.

Section threads.
Context `{UUIDLib}.
Abbreviation Pr := (prog swapE unit).

Definition discard {A} (p : prog swapE A) : Pr := let* _ := p in pret tt.
Definition start (l : scall) : Pr :=
  match l with
  | SCreate new u input => discard (CreateSwapOffer new u input)
  | SAccept u id => discard (AcceptSwapOffer u id)
  | SCancel u id => discard (CancelSwapOffer u id)
  | SHistory hist filter => discard (list_history hist filter)
  | SSweep client => discard (SweepOnce client)
  end.

(** Between two steps the clock moves, other keys of Redis change, and the answers
    and faults to come are any. *)
Definition env (w w' : World) : Prop :=
  pg_tables (w_db w') = pg_tables (w_db w) /\ w_calls w' = w_calls w.

Definition table (w : World) : gmap uuid SwapRow := pg_tables (w_db w).

(** The offer whose escrow the next action of a thread moves. *)
Definition moving {A} (p : prog swapE A) : option uuid :=
  match p with
  | Act (EAcceptSwap id _) _ | Act (ECancelSwap id _) _ => uuid_Parse id
  | _ => None
  end.

(** ** Claims

    The claim a thread holds after an action, and what an action needs. *)
Definition claim_after {X} (e : swapE X) (h : option uuid) : result X -> option uuid :=
  match e in swapE X return result X -> option uuid with
  | EClaimOfferForSweep id _ => λ r, match r with Ok true => uuid_Parse id | _ => h end
  | ECompareAndSwapStatus id _ new _ => λ r,
      if decide (new = SwapOfferStatusCreated) then None
      else match r with Ok true => uuid_Parse id | _ => h end
  | EUpdateSwapOfferStatus _ _ _ | EReleaseSweepClaim _ => λ _, None
  | EFinalizeSweep _ _ => λ r, match r with Ok _ => None | _ => h end
  | _ => λ _, h
  end.
Definition needs {X} (free : bool) (e : swapE X) (h : option uuid) : Prop :=
  match e with
  | EAcceptSwap id _ => h = uuid_Parse id
  | ECancelSwap id _ => free = true \/ h = uuid_Parse id
  | EUpdateSwapOfferStatus _ s _ => s <> SwapOfferStatusCreated
  | ECompareAndSwapStatus id s s' _ =>
      (s' = SwapOfferStatusCreated /\ h = uuid_Parse id) \/
      (s' <> SwapOfferStatusCreated /\ s = SwapOfferStatusCreated /\ h = None)
  | EClaimOfferForSweep _ _ => h = None
  | EReleaseSweepClaim id | EFinalizeSweep id _ => h = uuid_Parse id
  | ECreateSwapOffer o => so_Status o = SwapOfferStatusCreated
  | _ => True
  end.

(** A thread that holds the claim [h] asks for what its actions need, and ends in a
    result and a claim related by [Q]. *)
Fixpoint safe {A} (free : bool) (h : option uuid) (p : prog swapE A)
    (Q : option uuid -> result A -> Prop) : Prop :=
  match p with
  | Done r => Q h r
  | Act e k => needs free e h /\ forall r, safe free (claim_after e h r) (k r) Q
  end.

Definition ended {A} (h : option uuid) (r : result A) : Prop := True.

Lemma claim_safe_mono {A} free h (p : prog swapE A) (Q Q' : option uuid -> result A -> Prop) :
  safe free h p Q -> (forall h r, Q h r -> Q' h r) -> safe free h p Q'.
Proof.
  intros Hp HQ. revert h Hp. induction p as [r|X e k IH]; intros h; cbn; [apply HQ|].
  intros [Hn Hk]. split; [done|]. intros r. by apply IH.
Qed.

Lemma safe_bind {A B} free h (p : prog swapE A) (k : A -> prog swapE B) Q :
  safe free h p (λ h r, match r with
                        | Ok a => safe free h (k a) Q
                        | Err e => Q h (Err e)
                        | Panic => Q h Panic
                        end) -> safe free h (pbind p k) Q.
Proof.
  revert h. induction p as [[a|e|]|X e f IH]; intros h; cbn; try done.
  intros [Hn Hk]. split; [done|]. intros r. by apply IH.
Qed.

Lemma safe_try {A B} free h (p : prog swapE A) (k : A + error -> prog swapE B) Q :
  safe free h p (λ h r, match r with
                        | Ok a => safe free h (k (inl a)) Q
                        | Err e => safe free h (k (inr e)) Q
                        | Panic => Q h Panic
                        end) -> safe free h (ptry p k) Q.
Proof.
  revert h. induction p as [[a|e|]|X e f IH]; intros h; cbn; try done.
  intros [Hn Hk]. split; [done|]. intros r. by apply IH.
Qed.

Lemma safe_wrap {A} free h f (p : prog swapE A) (Q : option uuid -> result A -> Prop) :
  safe free h p (λ h r, Q h (wrap_err f r)) -> safe free h (pwrap f p) Q.
Proof.
  revert h. induction p as [r|X e g IH]; intros h; cbn; [done|].
  intros [Hn Hk]. split; [done|]. intros r. by apply IH.
Qed.

Lemma claim_safe_act {X} free h (e : swapE X) (Q : option uuid -> result X -> Prop) :
  needs free e h -> (forall r, Q (claim_after e h r) r) -> safe free h (act e) Q.
Proof. by split. Qed.

Lemma safe_guard free h b e (Q : option uuid -> result unit -> Prop) :
  (forall r, Q h r) -> safe free h (pguard b e) Q.
Proof. intros HQ. unfold pguard. destruct b; apply HQ. Qed.

Lemma safe_deref {A} free h (o : option A) (Q : option uuid -> result A -> Prop) :
  (forall r, Q h r) -> safe free h (pderef o) Q.
Proof. intros HQ. destruct o; apply HQ. Qed.

(** *** Every call of the service is safe *)
Ltac safe_step :=
  lazymatch goal with
  | |- safe _ _ (pbind _ _) _ => apply safe_bind
  | |- safe _ _ (ptry _ _) _ => apply safe_try
  | |- safe _ _ (pwrap _ _) _ => apply safe_wrap
  | |- safe _ _ (pignore _) _ => unfold pignore; apply safe_try
  | |- safe _ _ (act _) _ => apply claim_safe_act; [try done|intros ?; cbn [claim_after]]
  | |- safe _ _ (pguard _ _) _ => apply safe_guard; intros ?
  | |- safe _ _ (pderef _) _ => apply safe_deref; intros ?
  | |- safe _ _ (pret _) _ => cbn [safe pret]
  | |- safe _ _ (pfail _) _ => cbn [safe pfail]
  | |- safe _ _ (if ?b then _ else _) _ => destruct b eqn:?
  | |- safe _ _ (match ?x with _ => _ end) _ => destruct x eqn:?
  | |- match ?r with _ => _ end => destruct r eqn:?
  | |- ended _ _ => done
  end; cbn [wrap_err].
Ltac safe_auto := repeat safe_step.

Lemma safe_wallet free h id (Q : option uuid -> result (option User) -> Prop) :
  (forall r, Q h r) -> safe free h (wallet_of id) Q.
Proof. intros HQ. unfold wallet_of. safe_auto; apply HQ. Qed.

Lemma safe_offeree free h o (Q : option uuid -> result string -> Prop) :
  (forall r, Q h r) -> safe free h (offeree_wallet o) Q.
Proof. intros HQ. unfold offeree_wallet. safe_auto; apply HQ. Qed.

Lemma safe_create new u input : safe false None (CreateSwapOffer new u input) ended.
Proof.
  unfold CreateSwapOffer. safe_auto. apply safe_offeree. intros ?. safe_auto.
Qed.

Lemma safe_accept_claimed id offer acceptor :
  safe false (uuid_Parse id) (accept_claimed id offer acceptor) ended.
Proof. unfold accept_claimed. safe_auto. by left. Qed.

Lemma safe_accept u id : safe false None (AcceptSwapOffer u id) ended.
Proof.
  unfold AcceptSwapOffer. safe_auto. apply safe_wallet. intros ?. safe_auto.
  - right. by split.
  - match goal with b : bool |- _ => destruct b; [|done] end. apply safe_accept_claimed.
Qed.

Lemma safe_cancel u id : safe true None (CancelSwapOffer u id) ended.
Proof.
  unfold CancelSwapOffer. safe_auto. apply safe_wallet. intros ?. safe_auto. by left.
Qed.

Lemma safe_sweep_claimed o (Q : option uuid -> result bool -> Prop) :
  (forall r, Q None r) -> (forall h, Q h Panic) ->
  safe false (uuid_Parse (so_ID o)) (sweep_claimed o) Q.
Proof.
  intros HQ HP. unfold sweep_claimed, releaseExpiredOffer. safe_auto; try apply HQ; try apply HP. by right.
Qed.

Lemma safe_sweep_loop expired swept (Q : option uuid -> result Z -> Prop) :
  (forall h r, Q h r) -> safe false None (sweep_loop expired swept) Q.
Proof.
  intros HQ. revert swept. induction expired as [|o expired IH]; intros swept; [apply HQ|].
  cbn [sweep_loop]. apply safe_bind, claim_safe_act; [done|]. intros [now|e|]; [|apply HQ..].
  apply safe_try, claim_safe_act; [done|]. intros [[]|e|]; cbn [claim_after]; [|apply IH|apply IH|apply HQ].
  apply safe_bind, safe_sweep_claimed; [intros [done|e|]; [apply IH|apply HQ..]|intros; apply HQ].
Qed.

Lemma safe_sweep client : safe false None (SweepOnce client) ended.
Proof.
  unfold SweepOnce, With. safe_auto. unfold SweepExpiredOffers. safe_auto. apply safe_sweep_loop.
  intros ? ?. safe_auto.
Qed.

Lemma safe_start l : safe (is_cancel l) None (start l) ended.
Proof.
  assert (forall A free (p : prog swapE A), safe free None p ended -> safe free None (discard p) ended)
    as Hd.
  { intros A free p Hp. apply safe_bind. eapply claim_safe_mono; [exact Hp|]. by intros h [a|e|] _. }
  destruct l; cbn [start is_cancel]; apply Hd.
  - apply safe_create.
  - apply safe_accept.
  - apply safe_cancel.
  - unfold list_history. safe_auto.
  - apply safe_sweep.
Qed.
(** ** What an action does to the table *)
Definition row_set (id : string) (from : SwapRow -> Prop) (status : SwapOfferStatus)
    (t t' : gmap uuid SwapRow) : Prop :=
  exists u r hash now, uuid_Parse id = Some u /\ t !! u = Some r /\ from r /\
    t' = <[u := set_status status hash now r]> t.

Definition table_after {X} (e : swapE X) (t t' : gmap uuid SwapRow) : result X -> Prop :=
  match e in swapE X return result X -> Prop with
  | ECreateSwapOffer o => λ r, t' = t \/
      exists row, row_of_offer o = Some row /\ t !! sw_ID row = None /\ t' = <[sw_ID row := row]> t
  | EUpdateSwapOfferStatus id s _ => λ r, t' = t \/ row_set id (λ _, True) s t t'
  | ECompareAndSwapStatus id s s' _ => λ r,
      match r with Ok true => row_set id (λ x, sw_Status x = s) s' t t' | _ => t' = t end
  | EClaimOfferForSweep id _ => λ r,
      match r with
      | Ok true => row_set id (λ x, sw_Status x = SwapOfferStatusCreated) SwapOfferStatusSweeping t t'
      | _ => t' = t
      end
  | EReleaseSweepClaim id => λ r, t' = t \/
      row_set id (λ x, sw_Status x = SwapOfferStatusSweeping) SwapOfferStatusCreated t t'
  | EFinalizeSweep id _ => λ r,
      match r with
      | Ok _ => row_set id (λ x, sw_Status x = SwapOfferStatusSweeping) SwapOfferStatusExpired t t'
      | _ => t' = t
      end
  | _ => λ _, t' = t
  end.

Lemma wp_in_db {A} (m : M (PgState (gmap uuid SwapRow)) A) w (Q : result A -> World -> Prop) :
  wp m (w_db w) (λ r db, Q r (with_db db w)) -> wp (in_db m) w Q.
Proof. unfold wp, in_db. by destruct (m (w_db w)). Qed.

Lemma wp_in_db_at {A} (m : World -> M (PgState (gmap uuid SwapRow)) A) w (Q : result A -> World -> Prop) :
  wp (m w) (w_db w) (λ r db, Q r (with_db db w)) -> wp (λ w, in_db (m w) w) w Q.
Proof. unfold wp, in_db. by destruct (m w (w_db w)). Qed.

Lemma wp_update_offer id hit f db (Q : result Z -> PgState (gmap uuid SwapRow) -> Prop) :
  (forall db', pg_tables db' = pg_tables db -> Q (Ok 0) db') ->
  (forall e db', pg_tables db' = pg_tables db -> Q (Err e) db') ->
  (forall u r db', uuid_Parse id = Some u -> pg_tables db !! u = Some r -> hit r = true ->
     pg_tables db' = <[u := f r]> (pg_tables db) -> Q (Ok 1) db') ->
  wp (update_offer id hit f) db Q.
Proof.
  intros H0' He H1'. apply wp_pg_exec; [|by eauto]. intros n t db' Hq Ht.
  destruct (uuid_Parse id) as [u|] eqn:Hu; [|done].
  destruct (pg_tables db !! u) as [r|] eqn:Hr; [destruct (hit r) eqn:Hh|]; simplify_eq; by eauto.
Qed.

Lemma perform_table X (e : swapE X) w r w' :
  perform X e w = (r, w') -> table_after e (table w) (table w') r.
Proof.
  intros E. apply (wp_run _ _ (λ r w', table_after e (table w) (table w') r) _ _) in E; [done|]. clear r w' E.
  destruct e; cbn [perform table_after]; try done; try (by apply wp_in_db, wp_pg_exec).
  - apply wp_in_db, wp_pg_exec; [|by left]. intros [] t db' Hq Ht. unfold table. cbn. rewrite Ht.
    repeat case_match; simplify_eq. right. by eexists.
  - apply wp_in_db. unfold pg_GetSwapOfferByID. apply wp_bind, wp_pg_exec; [|done].
    intros o t db' Hq Ht. destruct (uuid_Parse id); [|done]. injection Hq as <- <-. by case_match.
  - apply wp_in_db_at, wp_bind, wp_update_offer; intros; cbn; [by left|by left|]. right.
    repeat eexists; done.
  - apply wp_in_db_at, wp_bind, wp_update_offer; intros; cbn; [done|done|].
    unfold has_status in *. go_bool. repeat eexists; done.
  - apply wp_in_db, wp_pg_exec; [|done]. intros n t db' Hq Ht. repeat case_match; by simplify_eq.
  - apply wp_in_db, wp_pg_exec; [|done]. intros n t db' Hq Ht. repeat case_match; by simplify_eq.
  - apply wp_in_db, wp_pg_select; by intros.
  - apply wp_in_db_at, wp_bind, wp_update_offer; intros; cbn; [done|done|].
    unfold has_status in *. go_bool. repeat eexists; done.
  - apply wp_in_db_at, wp_bind, wp_update_offer; intros; cbn; [by left|by left|]. right.
    unfold has_status in *. go_bool. repeat eexists; done.
  - apply wp_in_db_at, wp_bind, wp_update_offer; intros; cbn; [done|done|].
    unfold has_status in *. go_bool. repeat eexists; done.
  - apply wp_of_run. intros r w'. destruct (Acquire _ _ _ _ _) as [a [l' redis]]. by intros [= <- <-].
Qed.
(** ** The invariant: a claimed offer is not open, and has one claimant *)
Definition closed_row (t : gmap uuid SwapRow) (u : uuid) : Prop :=
  exists r, t !! u = Some r /\ sw_Status r <> SwapOfferStatusCreated.
Definition claims_ok (t : gmap uuid SwapRow) (hs : list (option uuid)) : Prop :=
  forall i u, hs !! i = Some (Some u) ->
    closed_row t u /\ forall j, hs !! j = Some (Some u) -> j = i.
(** Nobody claims the offer and nobody can. *)
Definition settled (u : uuid) (t : gmap uuid SwapRow) (hs : list (option uuid)) : Prop :=
  closed_row t u /\ forall i, hs !! i <> Some (Some u).

(** A row of an offer that is not [u] stays; the row of [u] gets the status. *)
Lemma row_set_closed id from s t t' v :
  row_set id from s t t' -> s <> SwapOfferStatusCreated -> closed_row t v -> closed_row t' v.
Proof.
  intros (u & r & hash & now & Hu & Hr & _ & ->) Hs (rv & Hv & Hne). unfold closed_row.
  rewrite lookup_insert. case_decide; [by eexists|by exists rv].
Qed.
Lemma row_set_other id from s t t' v :
  row_set id from s t t' -> closed_row t v -> uuid_Parse id = Some v \/ closed_row t' v.
Proof.
  intros (u & r & hash & now & Hu & Hr & _ & ->) (rv & Hv & Hne). unfold closed_row.
  rewrite lookup_insert. case_decide; [subst; by left|right; by exists rv].
Qed.

Section one_step.
Variables (t t' : gmap uuid SwapRow) (hs : list (option uuid)) (i : nat) (h h' : option uuid).
Hypotheses (Hok : claims_ok t hs) (Hi : hs !! i = Some h).

Definition carried : Prop :=
  claims_ok t' (<[i := h']> hs) /\ forall u, settled u t hs -> settled u t' (<[i := h']> hs).

Lemma others_kept j u : <[i := h']> hs !! j = Some (Some u) -> (j = i /\ h' = Some u) \/ (j <> i /\ hs !! j = Some (Some u)).
Proof.
  rewrite list_lookup_insert_Some. intros [(-> & Hh & _)|(Hne & Hj)]; [left|right]; split; congruence.
Qed.

(** A step that gains no claim opens at most the offer it gives back. *)
Lemma step_no_gain :
  h' = h \/ h' = None ->
  (forall u, closed_row t u -> (h = Some u /\ h' = None) \/ closed_row t' u) -> carried.
Proof.
  intros Hh Hrows. split.
  - intros j u Hj. destruct (others_kept j u Hj) as [[-> Hu]|[Hne Hj']].
    + assert (h = Some u) as E by (destruct Hh; congruence). destruct (Hok i u) as [Hcl Hone]; [congruence|].
      split; [destruct (Hrows u Hcl) as [[_ ?]|?]; [congruence|done]|].
      intros j' [[-> _]|[_ Hj']]%others_kept; [done|by apply Hone].
    + destruct (Hok j u Hj') as [Hcl Hone]. split.
      * destruct (Hrows u Hcl) as [[E _]|?]; [|done]. destruct Hne. symmetry. apply Hone. congruence.
      * intros j' [[-> E]|[_ ?]]%others_kept; [|by apply Hone]. apply Hone. destruct Hh; congruence.
  - intros u [Hcl Hn]. split; [destruct (Hrows u Hcl) as [[E _]|?]; [by destruct (Hn i); rewrite Hi, E|done]|].
    intros j [[-> E]|[_ Hj]]%others_kept; [|by apply (Hn j)]. apply (Hn i). destruct Hh; congruence.
Qed.

(** A claim is gained on an offer that was open and no longer is. *)
Lemma step_gain u r :
  h = None -> h' = Some u -> t !! u = Some r -> sw_Status r = SwapOfferStatusCreated ->
  closed_row t' u -> (forall v, closed_row t v -> closed_row t' v) -> carried.
Proof.
  intros Hn Hh Hr Hs Hcu Hrows.
  assert (forall j, hs !! j <> Some (Some u)) as Hfree.
  { intros j Hj. destruct (Hok j u Hj) as [(r' & Hr' & Hne) _]. congruence. }
  split.
  - intros j v Hj. destruct (others_kept j v Hj) as [[-> Hv]|[Hne Hj']].
    + assert (v = u) as -> by congruence. split; [done|].
      intros j' [[-> _]|[_ Hj']]%others_kept; [done|by destruct (Hfree j')].
    + destruct (Hok j v Hj') as [Hcl Hone]. split; [by apply Hrows|].
      intros j' [[-> E]|[_ ?]]%others_kept; [|by apply Hone]. assert (v = u) as -> by congruence.
      by destruct (Hfree j).
  - intros v [Hcl Hnv]. split; [by apply Hrows|].
    intros j [[-> E]|[_ Hj]]%others_kept; [|by apply (Hnv j)]. destruct Hcl as (r' & Hr' & Hne). congruence.
Qed.
End one_step.

Lemma claim_step {X} (e : swapE X) free h r t t' hs i :
  claims_ok t hs -> hs !! i = Some h -> needs free e h -> table_after e t t' r ->
  carried t t' hs i (claim_after e h r).
Proof.
  intros Hok Hi Hn Ht.
  assert (forall h', h' = h \/ h' = None -> t' = t -> carried t t' hs i h') as Hsame.
  { intros h' Hh ->. eapply step_no_gain; [done..|]. by right. }
  destruct e; cbn in *; try (apply Hsame; auto; fail).
  - destruct Ht as [->|(row & Hrow & Hnew & ->)]; [by apply Hsame; [left|]|].
    eapply step_no_gain; [done..|by left|]. intros u (ru & Hu & Hne). right. exists ru.
    by rewrite lookup_insert_ne by congruence.
  - destruct Ht as [->|Ht]; [by apply Hsame; [right|]|].
    eapply step_no_gain; [done..|by right|]. intros u Hu. right. by eapply row_set_closed.
  - destruct (decide (new = SwapOfferStatusCreated)) as [->|Hnew].
    + destruct Hn as [[_ ->]|[? _]]; [|done]. destruct r as [[]|err|]; try (by apply Hsame; [right|]).
      eapply step_no_gain; [done..|by right|]. intros u Hu.
      destruct (row_set_other _ _ _ _ _ u Ht Hu) as [->|?]; [by left|by right].
    + destruct Hn as [[-> _]|(_ & -> & ->)]; [done|]. destruct r as [[]|err|]; try (by apply Hsame; [left|]).
      pose proof Ht as (u & ru & hash' & now & Hu & Hru & Hst & ->). rewrite Hu.
      eapply step_gain; try done; [|intros v Hv; by eapply row_set_closed].
      exists (set_status new hash' now ru). by rewrite lookup_insert_eq.
  - subst h. destruct r as [[]|err|]; try (by apply Hsame; [left|]).
    pose proof Ht as (u & ru & hash' & now' & Hu & Hru & Hst & ->). rewrite Hu.
    eapply step_gain; try done; [|intros v Hv; by eapply row_set_closed].
    exists (set_status SwapOfferStatusSweeping hash' now' ru). by rewrite lookup_insert_eq.
  - destruct Ht as [->|Ht]; [by apply Hsame; [right|]|]. subst h.
    eapply step_no_gain; [done..|by right|]. intros u Hu.
    destruct (row_set_other _ _ _ _ _ u Ht Hu) as [->|?]; [by left|by right].
  - destruct r as [a|err|]; try (by apply Hsame; [left|]).
    eapply step_no_gain; [done..|by right|]. intros u Hu. right. by eapply row_set_closed.
Qed.
(** ** Pools *)
Definition Pool : Type := list (scall * Pr).
Definition swap_step : World * Pool -> World * Pool -> Prop := pool_step perform start env.
Definition typed (lp : scall * Pr) (h : option uuid) : Prop := safe (is_cancel lp.1) h lp.2 ended.
Definition pool_ok (c : World * Pool) (hs : list (option uuid)) : Prop :=
  claims_ok (table c.1) hs /\ Forall2 typed c.2 hs.

Lemma lookup_started (hs : list (option uuid)) i u :
  (hs ++ [None]) !! i = Some (Some u) -> hs !! i = Some (Some u).
Proof. intros [?|[_ Hi]]%lookup_app_Some; [done|]. by apply list_lookup_singleton_Some in Hi as [_ ?]. Qed.

Lemma pool_ok_step c c' hs :
  pool_ok c hs -> swap_step c c' ->
  exists hs', pool_ok c' hs' /\ forall u, settled u (table c.1) hs -> settled u (table c'.1) hs'.
Proof.
  intros [Hok Hty] Hs. destruct Hs as [w ps i l X e k r w' Hi E|w ps l|w w' ps [He _]]; cbn in *.
  - destruct (Forall2_lookup_l _ _ _ _ _ Hty Hi) as (h & Hh & [Hn Hk]).
    apply perform_table in E. destruct (claim_step e _ h r _ _ hs i Hok Hh Hn E) as [Hok' Hset].
    exists (<[i := claim_after e h r]> hs). split; [|done]. split; [done|].
    apply Forall2_insert; [done|]. apply Hk.
  - exists (hs ++ [None]). split; [split|].
    + intros i u Hu%lookup_started. destruct (Hok i u Hu) as [? Hone]. split; [done|].
      intros j Hj%lookup_started. by apply Hone.
    + apply Forall2_app; [done|]. constructor; [|done]. apply safe_start.
    + intros u [Hcl Hn]. split; [done|]. intros i Hu%lookup_started. by apply (Hn i).
  - exists hs. assert (table w' = table w) as E by exact He. by split; [split|]; cbn; rewrite ?E.
Qed.

Lemma pool_ok_steps c c' hs :
  pool_ok c hs -> rtc swap_step c c' ->
  exists hs', pool_ok c' hs' /\ forall u, settled u (table c.1) hs -> settled u (table c'.1) hs'.
Proof.
  intros Hok Hs. revert hs Hok. induction Hs as [c|c c1 c2 H1 _ IH]; intros hs Hok; [by exists hs|].
  destruct (pool_ok_step _ _ hs Hok H1) as (hs1 & Hok1 & Hset1).
  destruct (IH hs1 Hok1) as (hs2 & Hok2 & Hset2). exists hs2. split; [done|]. auto.
Qed.

Lemma pool_ok_nil w : pool_ok (w, []) [].
Proof. split; [|constructor]. intros i u. by rewrite lookup_nil. Qed.

(** A thread that moves the escrow of an offer and is not a cancellation claims it. *)
Lemma moving_claims l p h u : typed (l, p) h -> moving p = Some u -> is_cancel l = false -> h = Some u.
Proof.
  unfold typed. cbn. intros Hs Hm Hc. rewrite Hc in Hs. destruct p as [r|X e k]; [done|].
  destruct Hs as [Hn _]. destruct e; cbn in *; try done; [congruence|]. by destruct Hn as [?| ->].
Qed.

(** C9: However requests, sweepers and replicas overlap, and whatever fails: two threads
    are never about to move the escrow of one offer, unless one of them is a
    cancellation by the offeror; and the offer is then not open. *)
Theorem escrow_exclusive w0 w ps i j li lj pi pj u :
  reachable perform start env w0 (w, ps) ->
  ps !! i = Some (li, pi) -> ps !! j = Some (lj, pj) ->
  moving pi = Some u -> moving pj = Some u -> is_cancel li = false -> is_cancel lj = false ->
  i = j /\ closed_row (table w) u.
Proof.
  intros Hr Hi Hj Hmi Hmj Hci Hcj. destruct (pool_ok_steps _ _ [] (pool_ok_nil w0) Hr) as (hs & [Hok Hty] & _).
  destruct (Forall2_lookup_l _ _ _ _ _ Hty Hi) as (hi & Hhi & Ti).
  destruct (Forall2_lookup_l _ _ _ _ _ Hty Hj) as (hj & Hhj & Tj).
  rewrite (moving_claims li pi hi u Ti Hmi Hci) in Hhi. rewrite (moving_claims lj pj hj u Tj Hmj Hcj) in Hhj.
  destruct (Hok j u Hhj) as [Hcl Hone]. split; [by apply Hone|done].
Qed.

(** Once a sweeper finalized an offer, no sweeper and no acceptance moves its escrow
    again, and the offer never opens again. *)
Theorem swept_offer_closed w0 w ps i l id hash k w1 c u :
  reachable perform start env w0 (w, ps) ->
  ps !! i = Some (l, Act (EFinalizeSweep id hash) k) -> is_cancel l = false ->
  perform unit (EFinalizeSweep id hash) w = (Ok tt, w1) -> uuid_Parse id = Some u ->
  rtc swap_step (w1, <[i := (l, k (Ok tt))]> ps) c ->
  closed_row (table c.1) u /\
  forall j lj p, c.2 !! j = Some (lj, p) -> moving p = Some u -> is_cancel lj = true.
Proof.
  intros Hr Hi Hl E Hu Hs. destruct (pool_ok_steps _ _ [] (pool_ok_nil w0) Hr) as (hs & [Hok Hty] & _).
  destruct (Forall2_lookup_l _ _ _ _ _ Hty Hi) as (h & Hh & [Hn Hk]).
  pose proof (perform_table _ _ _ _ _ E) as Ht.
  destruct (claim_step (EFinalizeSweep id hash) _ h (Ok tt) _ _ hs i Hok Hh Hn Ht) as [Hok1 _].
  cbn in Hn, Hk, Ht, Hok, Hok1. rewrite Hu in Hn. subst h. destruct (Hok i u Hh) as [Hcl Hone].
  assert (pool_ok (w1, <[i := (l, k (Ok tt))]> ps) (<[i := None]> hs)) as Hp.
  { split; [exact Hok1|]. apply Forall2_insert; [done|]. apply (Hk (Ok tt)). }
  assert (settled u (table w1) (<[i := None]> hs)) as Hset.
  { split; [by eapply row_set_closed|]. intros j [(_ & ? & _)|[Hne Hj]]%list_lookup_insert_Some; [done|].
    by destruct Hne; symmetry; apply Hone. }
  destruct (pool_ok_steps _ _ _ Hp Hs) as (hs' & [Hok' Hty'] & Hset'). destruct (Hset' u Hset) as [Hcl' Hno].
  split; [done|]. intros j lj p Hj Hm. destruct (is_cancel lj) eqn:Hc; [done|].
  destruct (Forall2_lookup_l _ _ _ _ _ Hty' Hj) as (hj & Hhj & Tj).
  rewrite (moving_claims lj p hj u Tj Hm Hc) in Hhj. by destruct (Hno j).
Qed.
End threads.
End swapprops.
