(* ===== verification/SwapRuns.v ===== *)
(** The acceptance of a swap offer run alone, and the runs that show what the
    claims leave open: an escrow released twice. *)
From S2P Require Export SwapProps.
From stdpp Require Import options.
#[local] Set Default Proof Using "Type*".
Open Scope Z_scope.
Local Open Scope go_scope.

Module swapruns.
Import redislock swap swappg swapprops.

Section alone.
Context `{UUIDLib}.

(** One offer was rewritten to one of the statuses. *)
Definition rewritten (id : string) (statuses : list SwapOfferStatus) (w w' : World) : Prop :=
  exists u r', uuid_Parse id = Some u /\ table w' = <[u := r']> (table w) /\ sw_Status r' ∈ statuses.

(** An offer open to a user at a time. *)
Definition open_to (userID : string) (now : time) (r : SwapRow) : Prop :=
  sw_Status r = SwapOfferStatusCreated /\ time_After now (sw_ExpiresAt r) = false /\
  forall o, sw_OffereeUserID r = Some o -> uuid_String o = userID.

Lemma wp_EGet id w (Q : result (option SwapOffer) -> World -> Prop) :
  (forall u r w', uuid_Parse id = Some u -> table w !! u = Some r -> table w' = table w ->
     w_calls w' = w_calls w -> w_now w' = w_now w -> Q (Ok (Some (scanned r))) w') ->
  (forall e w', table w' = table w -> w_calls w' = w_calls w -> Q (Err e) w') ->
  wp (perform _ (EGetSwapOfferByID id)) w Q.
Proof.
  intros Hs He. apply wp_in_db, wp_bind, wp_pg_exec; [|intros; by apply He].
  intros o t db' Hq Ht. destruct (uuid_Parse id) as [u|] eqn:Hu; [|done]. injection Hq as <- <-.
  destruct (pg_tables (w_db w) !! u) as [r|] eqn:Hr; cbn; [|by apply He].
  apply wp_ret. by apply (Hs u).
Qed.

Lemma wp_EGetByID id w (Q : result (option User) -> World -> Prop) :
  (forall r w', r <> Panic -> table w' = table w -> w_calls w' = w_calls w -> Q r w') ->
  wp (perform _ (EGetByID id)) w Q.
Proof.
  intros HQ. unfold wp, perform, ask_user. cbn [fst snd]. apply HQ; [|done..]. unfold answer. by case_match.
Qed.

Lemma wp_wallet id w (Q : result (option User) -> World -> Prop) :
  (forall r w', r <> Panic -> table w' = table w -> w_calls w' = w_calls w -> Q r w') ->
  wp (run perform (wallet_of id)) w Q.
Proof.
  intros HQ. unfold wallet_of. apply wp_ptry, wp_act, wp_EGetByID. intros [u|e|] w' Hp Ht Hc; [|by apply HQ|done].
  by apply HQ.
Qed.

Lemma wp_ECas id s s' hash w (Q : result bool -> World -> Prop) :
  (forall w', row_set id (λ x, sw_Status x = s) s' (table w) (table w') -> w_calls w' = w_calls w ->
     Q (Ok true) w') ->
  (forall r w', r <> Ok true -> r <> Panic -> table w' = table w -> w_calls w' = w_calls w -> Q r w') ->
  wp (perform _ (ECompareAndSwapStatus id s s' hash)) w Q.
Proof.
  intros Hs Hn. apply wp_in_db_at, wp_bind, wp_update_offer.
  - intros db' Ht. by apply Hn.
  - intros e db' Ht. by apply Hn.
  - intros u r db' Hu Hr Hh Ht. apply Hs; [|done]. unfold has_status in Hh. go_bool. by repeat eexists.
Qed.

Lemma wp_on_chain c w (Q : result string -> World -> Prop) :
  (forall tx w', table w' = table w -> w_calls w' = w_calls w ++ [(c, true)] -> Q (Ok tx) w') ->
  (forall e l w', table w' = table w -> w_calls w' = w_calls w ++ [(c, l)] -> Q (Err e) w') ->
  wp (on_chain c) w Q.
Proof.
  intros Hs He. unfold wp, on_chain. cbn [fst snd].
  destruct (default _ (head (w_chain w))) as [tx|e l]; cbn [client_answer landed];
    [by apply Hs|by apply (He e l)].
Qed.

(** The table and the calls after a call, from those after its claim. *)
Definition accept_post (offerID : string) (w : World) (r : result SwapOffer) (w' : World) : Prop :=
  match r with
  | Ok o => so_Status o = SwapOfferStatusAccepted /\
      (exists wallet, w_calls w' = w_calls w ++ [(AcceptSwap offerID wallet, true)]) /\
      rewritten offerID [SwapOfferStatusAccepted] w w'
  | Err _ =>
      rewritten offerID [SwapOfferStatusCreated; SwapOfferStatusAccepted] w w' /\
      (exists wallet l, w_calls w' = w_calls w ++ [(AcceptSwap offerID wallet, l)])
  | Panic => w_calls w' = w_calls w
  end.

(** A row that was rewritten once is rewritten again. *)
Lemma row_set_rewritten id from s statuses w w1 w' u r1 :
  uuid_Parse id = Some u -> table w1 = <[u := r1]> (table w) ->
  row_set id from s (table w1) (table w') -> s ∈ statuses -> rewritten id statuses w w'.
Proof.
  intros Hu H1 (u' & r & hash & now & Hu' & _ & _ & Ht) Hs. assert (u' = u) as -> by congruence.
  exists u, (set_status s hash now r). split; [done|]. by rewrite Ht, H1, insert_insert_eq.
Qed.

Lemma accept_claimed_wp offerID offer acceptor w w1 u r1 :
  uuid_Parse offerID = Some u -> table w1 = <[u := r1]> (table w) ->
  sw_Status r1 = SwapOfferStatusAccepted -> w_calls w1 = w_calls w ->
  wp (run perform (accept_claimed offerID offer acceptor)) w1 (accept_post offerID w).
Proof.
  intros Hu H1 Hst Hc1. unfold accept_claimed. apply wp_pbind, wp_pderef; [intros a _|by intros].
  apply wp_ptry, wp_act, wp_on_chain; [intros tx w2 H2 Hc2|intros err l w2 H2 Hc2];
    rewrite H1 in H2; rewrite Hc1 in Hc2.
  - apply wp_pbind, wp_ptry, wp_act, wp_in_db_at, wp_bind, wp_update_offer.
    + intros db' Ht. apply wp_fail. split_and!; [done|by eexists|]. exists u, r1.
      split_and!; [done|unfold table in *; cbn; congruence|rewrite Hst; by left].
    + intros e db' Ht. split_and!; [done|by eexists|]. exists u, r1.
      split_and!; [done|unfold table in *; cbn; congruence|rewrite Hst; by left].
    + intros v r db' Hv Hr _ Ht. apply wp_ret. split_and!; [done|by eexists|].
      assert (v = u) as -> by congruence. eexists u, _.
      split_and!; [done|unfold table in *; cbn; rewrite Ht, H2; by rewrite insert_insert_eq|by left].
  - apply wp_pbind, wp_ptry, wp_act, wp_ECas.
    + intros w3 Hset Hc3. split; [|eexists _, _; cbn; by rewrite Hc3, Hc2]. eapply row_set_rewritten; [done|done|done|by left].
    + intros r w3 _ Hp Ht Hc3. destruct r as [b|e|]; [| |done]; (split; [|eexists _, _; cbn; by rewrite Hc3, Hc2]);
        exists u, r1; (split_and!; [done|cbn; by rewrite Ht, H2|rewrite Hst; right; by left]).
Qed.

End alone.

(** ** Runs over one offer of the user 1 that expired at 100 *)
Definition demo_row (status : SwapOfferStatus) (expires : time) : SwapRow :=
  {| sw_ID := 9; sw_CircleID := 4; sw_OfferorUserID := 1; sw_OffereeUserID := None;
     sw_OfferorAsset := "XLM"; sw_OfferorAmount := 5; sw_RequestedAsset := "USDC";
     sw_RequestedAmount := 1; sw_Status := status; sw_TransactionHash := None;
     sw_ExpiresAt := expires; sw_CreatedAt := 0; sw_UpdatedAt := 0 |}%N%Z%string.
Definition demo_offer : string := "xxxxxxxxx".
Definition demo_user : User := {| u_ID := 1; u_WalletAddress := "GA" |}%N%string.
Definition demo_world (now : time) (faults : list (option pg_fault)) : World :=
  {| w_db := {| pg_tables := <[9%N := demo_row SwapOfferStatusCreated 100]> ∅; pg_tx := None;
                pg_faults := faults |};
     w_now := now; w_redis := ∅; w_tokens := []; w_net := [];
     w_users := replicate 4 (inl (Some demo_user)); w_chain := [Confirmed "tx1"; Confirmed "tx2"; Confirmed "tx3"]%string;
     w_calls := [] |}.

(** The statement that finalizes a sweep fails after the chain released the escrow:
    the claim is given back, and the next sweep releases the escrow of the same
    offer again. *)
Theorem sweep_releases_twice fault :
  let w := demo_world 200 [None; None; Some fault; None] in
  let '(r1, w1) := run perform SweepExpiredOffers w in
  let '(r2, w2) := run perform SweepExpiredOffers w1 in
  (r1, r2) = (Ok 0, Ok 1) /\
  w_calls w2 = [(CancelSwap demo_offer "GA", true); (CancelSwap demo_offer "GA", true)]%string.
Proof. by vm_compute. Qed.

(** A poll of the acceptance that ends without an answer: the call fails and gives
    the offer back, and the ledger takes the acceptance afterwards.  The offer is
    open again while its escrow has moved, and the next user is sent to the
    contract for it. *)
Theorem unconfirmed_acceptance_reopens :
  let w0 := demo_world 50 [] in
  let late := Failing (Errorf "transaction not confirmed") true in
  let gone := Failing (Errorf "contract error: swap is not open") false in
  let w := {| w_db := w_db w0; w_now := 50; w_redis := ∅; w_tokens := []; w_net := [];
              w_users := w_users w0; w_chain := [late; gone]; w_calls := [] |} in
  let '(r1, w1) := run perform (AcceptSwapOffer "xx" demo_offer) w in
  let '(r2, w2) := run perform (AcceptSwapOffer "xx" demo_offer) w1 in
  is_ok r1 = false /\ sw_Status <$> (table w1 !! 9%N) = Some SwapOfferStatusCreated /\
  is_ok r2 = false /\
  w_calls w2 = [(AcceptSwap demo_offer "GA", true); (AcceptSwap demo_offer "GA", false)]%string.
Proof. by vm_compute. Qed.

(** A failed release of the claim leaves the offer in the sweeping state, which no
    later sweep lists: its escrow stays. *)
Theorem failed_claim_release_strands fault now :
  let w := demo_world 200 [None; None; Some fault; Some fault] in
  let w1 := (run perform SweepExpiredOffers w).2 in
  let w2 := {| w_db := w_db w1; w_now := now; w_redis := ∅; w_tokens := []; w_net := [];
               w_users := w_users w1; w_chain := w_chain w1; w_calls := w_calls w1 |} in
  sw_Status <$> (table w1 !! 9%N) = Some SwapOfferStatusSweeping /\
  run perform SweepExpiredOffers w2 = (Ok 0, w2).
Proof. by vm_compute. Qed.

(** A cancellation claims nothing: it cancels on the chain an offer that another
    user accepted since the cancellation read it. *)
Definition cancel_against_accept : list (turn (W := World) (L := scall)) :=
  [Start (SCancel "x" demo_offer); Start (SAccept "xx" demo_offer); Run 0; Run 0;
   Run 1; Run 1; Run 1; Run 1; Run 1; Run 1; Run 0; Run 0]%string%nat.
Theorem cancel_moves_accepted_offer :
  let c := schedule perform start cancel_against_accept (demo_world 50 [], []) in
  w_calls c.1 = [(AcceptSwap demo_offer "GA", true); (CancelSwap demo_offer "GA", true)]%string /\
  sw_Status <$> (table c.1 !! 9%N) = Some SwapOfferStatusCancelled.
Proof. by vm_compute. Qed.

(** *** The hypotheses of the theorems hold on runs *)
Definition two_sweepers : list (turn (W := World) (L := scall)) :=
  [Start (SSweep false); Start (SSweep false); Start (SAccept "xx" demo_offer);
   Run 0; Run 1; Run 0; Run 1; Run 0; Run 1; Run 0; Run 1; Run 0; Run 1; Run 2; Run 0]%string%nat.
Definition at_release : World * Pool := schedule perform start two_sweepers (demo_world 200 [], []).

Lemma at_release_reachable : reachable perform start env (demo_world 200 []) at_release.
Proof. unfold reachable, at_release. by apply schedule_steps_closed. Qed.

Lemma escrow_exclusive_witness :
  (snd <$> at_release.2 !! 0%nat) ≫= moving = Some 9%N /\
  (0%nat = 0%nat /\ closed_row (table at_release.1) 9%N).
Proof.
  split; [by vm_compute|].
  destruct (at_release.2 !! 0%nat) as [[l p]|] eqn:E; [|by vm_compute in E].
  apply (escrow_exclusive (demo_world 200 []) at_release.1 at_release.2 0 0 l l p p 9%N).
  - rewrite <-surjective_pairing. apply at_release_reachable.
  - exact E.
  - exact E.
  - vm_compute in E. injection E as <- <-. by vm_compute.
  - vm_compute in E. injection E as <- <-. by vm_compute.
  - vm_compute in E. by injection E as <- <-.
  - vm_compute in E. by injection E as <- <-.
Defined.

(** The sweeper 0 is about to finalize; the others go on, and a third one starts. *)
Definition at_finalize : World * Pool := schedule perform start [Run 0%nat] at_release.
Definition after_finalize : list (turn (W := World) (L := scall)) :=
  [Run 1; Start (SSweep false); Run 2; Run 3; Run 3; Run 3; Run 1; Run 2; Run 0]%nat.

Lemma at_finalize_reachable : reachable perform start env (demo_world 200 []) at_finalize.
Proof.
  unfold reachable. etrans; [apply at_release_reachable|]. unfold at_finalize.
  by apply (schedule_steps_closed perform start env [Run 0%nat] at_release).
Qed.

Lemma demo_finalized :
  (perform unit (EFinalizeSweep demo_offer (Some "tx1"%string)) at_finalize.1).1 = Ok tt.
Proof. by vm_compute. Qed.

Lemma swept_offer_closed_witness : exists l id hash k,
  at_finalize.2 !! 0%nat = Some (l, Act (EFinalizeSweep id hash) k) /\
  let c := schedule perform start after_finalize
    ((perform unit (EFinalizeSweep id hash) at_finalize.1).2, <[0%nat := (l, k (Ok tt))]> at_finalize.2) in
  closed_row (table c.1) 9%N /\
  forall j lj p, c.2 !! j = Some (lj, p) -> moving p = Some 9%N -> is_cancel lj = true.
Proof.
  destruct (at_finalize.2 !! 0%nat) as [[l p]|] eqn:E; [|by vm_compute in E].
  assert (match p with
          | Act e _ => match e with
                       | EFinalizeSweep id hash => id = demo_offer /\ hash = Some "tx1"%string /\ l = SSweep false
                       | _ => False end
          | _ => False end) as Hp by (vm_compute in E; injection E as <- <-; by vm_compute).
  destruct p as [r|X e k]; [destruct Hp|]. destruct e; try (exfalso; exact Hp).
  destruct Hp as (-> & -> & ->).
  exists (SSweep false), demo_offer, (Some "tx1"%string), k. split; [reflexivity|].
  apply (swept_offer_closed (demo_world 200 []) at_finalize.1 at_finalize.2 0 (SSweep false) demo_offer
    (Some "tx1"%string) k (perform unit (EFinalizeSweep demo_offer (Some "tx1"%string)) at_finalize.1).2).
  - rewrite <-surjective_pairing. apply at_finalize_reachable.
  - exact E.
  - reflexivity.
  - rewrite <-demo_finalized. apply surjective_pairing.
  - reflexivity.
  - by apply (schedule_steps_closed perform start env after_finalize).
Defined.
End swapruns.
