(* ===== verification/Incentives.v ===== *)
(** Incentives (src/internal/domain/incentives): referral codes, rewards for
    completed circles, contribution matches, first deposit bonuses, savings
    streaks and their bonuses.  The data of models.go, the interface of
    repository.go and every method of the service over it. *)
From S2P Require Export CircleTx.
From stdpp Require Import options.
From Stdlib Require Import Strings.Byte Ascii.
#[local] Set Default Proof Using "Type*".
Open Scope Z_scope.
Local Open Scope go_scope.

Module incentives.

(** ** models.go *)
Abbreviation IncentiveType := string (only parsing).
Definition IncentiveTypeReferral : IncentiveType := "referral"%string.
Definition IncentiveTypeCircleCompletion : IncentiveType := "circle_completion"%string.
Definition IncentiveTypeContributionMatch : IncentiveType := "contribution_match"%string.
Definition IncentiveTypeSavingsStreak : IncentiveType := "savings_streak"%string.
Definition IncentiveTypeFirstDeposit : IncentiveType := "first_deposit"%string.

Abbreviation IncentiveStatus := string (only parsing).
Definition IncentiveStatusPending : IncentiveStatus := "pending"%string.
Definition IncentiveStatusClaimed : IncentiveStatus := "claimed"%string.
Definition IncentiveStatusExpired : IncentiveStatus := "expired"%string.
Definition IncentiveStatusCancelled : IncentiveStatus := "cancelled"%string.

Record Incentive := {
  in_ID : uuid;
  in_UserID : uuid;
  in_Type : IncentiveType;
  in_Status : IncentiveStatus;
  in_Amount : float64;
  in_Currency : string;
  in_Metadata : option string;
  in_ReferenceID : option string;
  in_ExpiresAt : option time;
  in_ClaimedAt : option time;
  in_CreatedAt : time;
  in_UpdatedAt : time;
}.

Record Referral := {
  rf_ID : uuid;
  rf_ReferrerID : uuid;
  rf_ReferredID : uuid;
  rf_ReferralCode : string;
  rf_Status : string;
  rf_CompletedAt : option time;
  rf_CreatedAt : time;
  rf_UpdatedAt : time;
}.

Record SavingsStreak := {
  ss_ID : uuid;
  ss_UserID : uuid;
  ss_CurrentStreak : Z;
  ss_LongestStreak : Z;
  ss_LastContributionAt : option time;
  ss_BonusTier : Z;
  ss_CreatedAt : time;
  ss_UpdatedAt : time;
}.

Record IncentiveConfig := {
  ic_ID : uuid;
  ic_ReferralBonusAmount : float64;
  ic_ReferralBonusCurrency : string;
  ic_CircleCompletionBonus : float64;
  ic_CircleCompletionCurrency : string;
  ic_ContributionMatchPercent : float64;
  ic_ContributionMatchMax : float64;
  ic_StreakBonusTier1 : Z;
  ic_StreakBonusTier1Amount : float64;
  ic_StreakBonusTier2 : Z;
  ic_StreakBonusTier2Amount : float64;
  ic_StreakBonusTier3 : Z;
  ic_StreakBonusTier3Amount : float64;
  ic_FirstDepositBonus : float64;
  ic_FirstDepositCurrency : string;
  ic_FirstDepositMinAmount : float64;
  ic_IsActive : bool;
  ic_CreatedAt : time;
  ic_UpdatedAt : time;
}.

Record UserIncentiveSummary := {
  us_TotalEarned : float64;
  us_TotalClaimed : float64;
  us_PendingAmount : float64;
  us_ReferralCount : Z;
  us_CurrentStreak : Z;
  us_LongestStreak : Z;
  us_BonusTier : Z;
}.

(** ** repository.go

    The argument of type [time] is the clock of the server in a statement with
    [NOW()]. *)
Class Repository (W : Type) := {
  Transact : M W unit -> M W unit;
  CreateReferral : Referral -> time -> M W unit;
  GetReferralByCode : string -> M W (option Referral);
  GetReferrerByUserID : uuid -> M W (option Referral);
  UpdateReferral : Referral -> M W unit;
  FindByReferralCode : string -> M W (option Referral);
  FindByReferrerID : uuid -> M W (list Referral);
  FindByReferredID : uuid -> M W (option Referral);
  UpdateReferralStatus : uuid -> string -> time -> M W unit;
  CreateIncentive : Incentive -> time -> M W unit;
  GetIncentives : uuid -> M W (list Incentive);
  FindByID : uuid -> M W (option Incentive);
  FindByUserID : uuid -> M W (list Incentive);
  FindByUserIDAndType : uuid -> IncentiveType -> M W (list Incentive);
  GetPendingIncentives : uuid -> M W (list Incentive);
  GetUserIncentiveSummary : uuid -> M W (option UserIncentiveSummary);
  UpdateIncentiveStatus : uuid -> IncentiveStatus -> time -> M W unit;
  GetStreak : uuid -> M W (option SavingsStreak);
  UpsertStreak : SavingsStreak -> time -> M W (option SavingsStreak);
  FindStreakByUserID : uuid -> M W (option SavingsStreak);
  CreateSavingsStreak : SavingsStreak -> time -> M W unit;
  UpdateSavingsStreak : SavingsStreak -> time -> M W unit;
  GetConfig : M W (option IncentiveConfig);
  UpdateConfig : IncentiveConfig -> M W unit;
  CreateConfig : IncentiveConfig -> time -> M W unit;
}.

(** ** service.go *)
Definition ErrReferralCodeNotFound := Sentinel "incentives: referral code not found".
Definition ErrReferralCodeAlreadyUsed := Sentinel "incentives: referral code already used".
Definition ErrSelfReferral := Sentinel "incentives: cannot refer yourself".
Definition ErrReferralCodeTaken := Sentinel "incentives: referral code is already taken".
Definition ErrIncentiveNotFound := Sentinel "incentives: incentive not found".

(** [hex.EncodeToString] *)
Definition hex_digit (n : nat) : ascii :=
  if decide (n < 10)%nat then ascii_of_nat (48 + n) else ascii_of_nat (87 + n).
Fixpoint hex_EncodeToString (b : list Byte.byte) : string :=
  match b with
  | [] => ""
  | x :: b => let n := N.to_nat (Byte.to_N x) in
      String (hex_digit (n / 16)) (String (hex_digit (n mod 16)) (hex_EncodeToString b))
  end.

Definition referralCodeEntropyBytes : nat := 10.
Definition maxReferralCodeAttempts : nat := 8.

(** [json.Unmarshal] of the metadata into a map, then the assertion that the value
    of "tier" is a number, and [json.Marshal] of the three numbers of a streak. *)
Class MetadataJSON := {
  json_tier : string -> option float64;
  json_streak : Z -> Z -> Z -> string;
}.

Section service.
Context {W : Type} `{Repository W, UUIDLib, MetadataJSON, GoFloatConv}.
Abbreviation IM := (M W).

Definition invalid_uuid : error := Wrapf "invalid UUID: %w" (External "invalid UUID").
Definition parseUUID (id : string) : result uuid :=
  match uuid_Parse id with Some u => Ok u | None => Err invalid_uuid end.

Definition ListIncentives (userIDStr : string) : IM (list Incentive) :=
  let! userID := gwrap "invalid user ID: %w" (glift (parseUUID userIDStr)) in
  GetIncentives userID.
Definition StreakOf (userIDStr : string) : IM (option SavingsStreak) :=
  let! userID := gwrap "invalid user ID: %w" (glift (parseUUID userIDStr)) in
  GetStreak userID.

(** ** idempotency.go *)
Definition ensureNoIncentive (userID : uuid) (typ : IncentiveType)
    (conflict : option (Incentive -> bool)) (conflictMsg : string) : IM unit :=
  let! existing := gwrap "checking existing %s incentives: %w" (FindByUserIDAndType userID typ) in
  gguard (existsb (default (λ _, true) conflict) existing) (Errorf conflictMsg).

(** ** bonus.go *)
Definition pending_incentive (new user : uuid) (typ : IncentiveType) (amount : float64)
    (currency : string) (metadata reference : option string) (now : time) : Incentive :=
  {| in_ID := new; in_UserID := user; in_Type := typ; in_Status := IncentiveStatusPending;
     in_Amount := amount; in_Currency := currency; in_Metadata := metadata;
     in_ReferenceID := reference; in_ExpiresAt := None; in_ClaimedAt := None;
     in_CreatedAt := now; in_UpdatedAt := now |}.

(** [config, err := s.repo.GetConfig(ctx)] and its dereference. *)
Definition config_ : IM IncentiveConfig :=
  let! c := gwrap "getting incentive config: %w" GetConfig in deref c.

Definition rewarded (circleID : string) (inc : Incentive) : bool :=
  bool_decide (in_ReferenceID inc = Some circleID).
Definition GrantCircleCompletionReward (now : time) (new : uuid) (userID circleID : string) :
    IM Incentive :=
  let! uid := glift (parseUUID userID) in
  let! circleUUID := glift (parseUUID circleID) in
  do! ensureNoIncentive uid IncentiveTypeCircleCompletion (Some (rewarded circleID))
    "already received completion reward for this circle" in
  let! config := config_ in
  let incentive := pending_incentive new uid IncentiveTypeCircleCompletion
    (ic_CircleCompletionBonus config) (ic_CircleCompletionCurrency config) None
    (Some (uuid_String circleUUID)) now in
  do! gwrap "creating circle completion incentive: %w" (CreateIncentive incentive now) in
  gret incentive.

Definition match_amount (config : IncentiveConfig) (amount : float64) : float64 :=
  let matchAmount := f64_mul amount (f64_div (ic_ContributionMatchPercent config) (f64_of_Z 100)) in
  if f64_gt matchAmount (ic_ContributionMatchMax config) then ic_ContributionMatchMax config
  else matchAmount.
Definition CalculateContributionMatch (amount : float64) : IM float64 :=
  let! config := config_ in gret (match_amount config amount).

Definition GrantContributionMatch (now : time) (new : uuid) (userID circleID : string)
    (amount : float64) : IM Incentive :=
  let! uid := glift (parseUUID userID) in
  let! matchAmount := CalculateContributionMatch amount in
  do! gguard (f64_le matchAmount f64_zero) (Errorf "no match amount calculated") in
  let incentive := pending_incentive new uid IncentiveTypeContributionMatch matchAmount "USDC" None
    (Some circleID) now in
  do! gwrap "creating contribution match incentive: %w" (CreateIncentive incentive now) in
  gret incentive.

Definition first_deposit_free (uid : uuid) : IM unit :=
  ensureNoIncentive uid IncentiveTypeFirstDeposit None "already received first deposit bonus".
Definition first_deposit_grant (now : time) (new uid : uuid) (depositAmount : float64) : IM Incentive :=
  let! config := config_ in
  do! gguard (f64_lt depositAmount (ic_FirstDepositMinAmount config))
    (Errorf "deposit amount below minimum requirement") in
  let incentive := pending_incentive new uid IncentiveTypeFirstDeposit (ic_FirstDepositBonus config)
    (ic_FirstDepositCurrency config) None None now in
  do! gwrap "creating first deposit incentive: %w" (CreateIncentive incentive now) in
  gret incentive.
Definition GrantFirstDepositBonus (now : time) (new : uuid) (userID : string) (depositAmount : float64) :
    IM Incentive :=
  let! uid := glift (parseUUID userID) in
  do! first_deposit_free uid in
  first_deposit_grant now new uid depositAmount.

(** ** referral.go

    The bytes of the [n]th call of [rand.Read], or its error, and the identifier
    of the [n]th referral. *)
Definition draws : Type := nat -> (list Byte.byte + error) * uuid.

Definition generateReferralCode (b : list Byte.byte + error) : result string :=
  match b with
  | inl b => Ok (hex_EncodeToString b)
  | inr err => Err (Wrapf "generating referral code: %w" err)
  end.

Definition new_referral (now : time) (new uid : uuid) (code : string) : Referral :=
  {| rf_ID := new; rf_ReferrerID := uid; rf_ReferredID := uuid_Nil; rf_ReferralCode := code;
     rf_Status := "pending"; rf_CompletedAt := None; rf_CreatedAt := now; rf_UpdatedAt := now |}.

(** The error of the last attempt: a nil error is [None] and cannot be wrapped. *)
Definition exhausted (lastErr : option error) : error :=
  match lastErr with
  | Some err => Wrapf "generating unique referral code after %d attempts: %w" err
  | None => Errorf "generating unique referral code after %d attempts: %!w(<nil>)"
  end.
Fixpoint code_attempts (now : time) (uid : uuid) (draw : draws) (remaining attempt : nat)
    (lastErr : option error) : IM string :=
  match remaining with
  | O => gfail (exhausted lastErr)
  | S remaining =>
      let! code := glift (generateReferralCode (draw attempt).1) in
      gtry (CreateReferral (new_referral now (draw attempt).2 uid code) now) (λ r,
        match r with
        | inl _ => gret code
        | inr err => if errors_Is err ErrReferralCodeTaken
                     then code_attempts now uid draw remaining (S attempt) (Some err)
                     else gfail err
        end)
  end.

Definition GenerateReferralCode (now : time) (draw : draws) (userID : string) : IM string :=
  let! uid := glift (parseUUID userID) in
  gtry (FindByReferrerID uid) (λ existing,
    match existing with
    | inl (r :: _) => gret (rf_ReferralCode r)
    | _ => code_attempts now uid draw maxReferralCodeAttempts 0 None
    end).

(** What follows once the user is known to have used no code. *)
Definition redeem (now : time) (new uid : uuid) (code : string) : IM unit :=
  let! referral := gwrap "invalid referral code: %w" (FindByReferralCode code) in
  let! referral := deref referral in
  do! gguard (rf_ReferrerID referral =? uid)%N (Errorf "cannot refer yourself") in
  do! gguard (negb (bool_decide (rf_Status referral = "pending"%string)) ||
              negb (rf_ReferredID referral =? uuid_Nil)%N)
    (Errorf "referral code already used") in
  let! config := config_ in
  do! gwrap "updating referral status: %w"
    (UpdateReferralStatus (rf_ID referral) "completed" now) in
  gwrap "creating referral incentive: %w"
    (CreateIncentive (pending_incentive new (rf_ReferrerID referral) IncentiveTypeReferral
       (ic_ReferralBonusAmount config) (ic_ReferralBonusCurrency config) None (Some code) now) now).
Definition ApplyReferralCode (now : time) (new : uuid) (userID code : string) : IM unit :=
  let! uid := glift (parseUUID userID) in
  gtry (FindByReferredID uid) (λ existingReferral,
    match existingReferral with
    | inl (Some _) => gfail (Errorf "user already used a referral code")
    | _ => redeem now new uid code
    end).

Definition GetReferrals (userID : string) : IM (list Referral) :=
  let! uid := glift (parseUUID userID) in FindByReferrerID uid.

(** ** streak.go *)
Definition streakWindow : duration := 7 * 24 * 3600 * second.

Definition first_streak (now : time) (new uid : uuid) : SavingsStreak :=
  {| ss_ID := new; ss_UserID := uid; ss_CurrentStreak := 1; ss_LongestStreak := 1;
     ss_LastContributionAt := Some now; ss_BonusTier := 1; ss_CreatedAt := now; ss_UpdatedAt := now |}.

Definition continues (now : time) (last : option time) : bool :=
  match last with Some l => time_Sub now l <=? streakWindow | None => false end.
Definition tier_of (config : IncentiveConfig) (current : Z) : Z :=
  if ic_StreakBonusTier3 config <=? current then 3
  else if ic_StreakBonusTier2 config <=? current then 2 else 1.
Definition extend_streak (config : IncentiveConfig) (now : time) (s : SavingsStreak) : SavingsStreak :=
  let current := if continues now (ss_LastContributionAt s) then wrap64 (ss_CurrentStreak s + 1) else 1 in
  let longest := if continues now (ss_LastContributionAt s) && (ss_LongestStreak s <? current)
                 then current else ss_LongestStreak s in
  {| ss_ID := ss_ID s; ss_UserID := ss_UserID s; ss_CurrentStreak := current;
     ss_LongestStreak := longest; ss_LastContributionAt := Some now;
     ss_BonusTier := tier_of config current; ss_CreatedAt := ss_CreatedAt s; ss_UpdatedAt := now |}.

Definition RecordContribution (now : time) (new : uuid) (userID : string) : IM SavingsStreak :=
  let! uid := glift (parseUUID userID) in
  let! config := config_ in
  gtry (FindStreakByUserID uid) (λ r,
    match r with
    | inr err =>
        if decide (err = ErrIncentiveNotFound) then
          let streak := first_streak now new uid in
          do! gwrap "creating savings streak: %w" (CreateSavingsStreak streak now) in
          gret streak
        else gfail (Wrapf "finding savings streak: %w" err)
    | inl streak =>
        let! streak := deref streak in
        let streak := extend_streak config now streak in
        do! gwrap "updating savings streak: %w" (UpdateSavingsStreak streak now) in
        gret streak
    end).

Definition tier_amount (config : IncentiveConfig) (tier : Z) : option float64 :=
  if tier =? 3 then Some (ic_StreakBonusTier3Amount config)
  else if tier =? 2 then Some (ic_StreakBonusTier2Amount config)
  else if tier =? 1 then Some (ic_StreakBonusTier1Amount config)
  else None.
Definition same_tier (tier : Z) (inc : Incentive) : bool :=
  match in_Metadata inc ≫= json_tier with
  | Some x => f64_to_int64 x =? tier
  | None => false
  end.

Definition GrantStreakBonus (now : time) (new : uuid) (userID : string) : IM Incentive :=
  let! uid := glift (parseUUID userID) in
  let! streak := gwrap "finding savings streak: %w" (FindStreakByUserID uid) in
  let! streak := deref streak in
  let! config := config_ in
  match tier_amount config (ss_BonusTier streak) with
  | None => gfail (Errorf "invalid bonus tier")
  | Some bonusAmount =>
      do! gguard (f64_le bonusAmount f64_zero) (Errorf "no bonus amount for current tier") in
      do! ensureNoIncentive uid IncentiveTypeSavingsStreak (Some (same_tier (ss_BonusTier streak)))
        "bonus already granted for tier %d" in
      let incentive := pending_incentive new uid IncentiveTypeSavingsStreak bonusAmount "USDC"
        (Some (json_streak (ss_BonusTier streak) (ss_CurrentStreak streak) (ss_LongestStreak streak)))
        None now in
      do! gwrap "creating streak bonus incentive: %w" (CreateIncentive incentive now) in
      gret incentive
  end.

(** ** incentive.go *)
Definition expired (now : time) (inc : Incentive) : bool :=
  match in_ExpiresAt inc with Some e => time_After now e | None => false end.
Definition ClaimIncentive (now : time) (userID incentiveID : string) : IM unit :=
  let! uid := glift (parseUUID userID) in
  let! incentiveUUID := glift (parseUUID incentiveID) in
  let! incentive := gwrap "finding incentive: %w" (FindByID incentiveUUID) in
  let! incentive := deref incentive in
  do! gguard (negb (in_UserID incentive =? uid)%N) (Errorf "incentive does not belong to user") in
  do! gguard (bool_decide (in_Status incentive = IncentiveStatusClaimed))
    (Errorf "incentive already claimed") in
  do! gguard (expired now incentive) (Errorf "incentive has expired") in
  gwrap "claiming incentive: %w" (UpdateIncentiveStatus incentiveUUID IncentiveStatusClaimed now).

Definition GetUserIncentives (userID : string) : IM (list Incentive) :=
  let! uid := glift (parseUUID userID) in FindByUserID uid.
Definition PendingIncentives (userID : string) : IM (list Incentive) :=
  let! uid := glift (parseUUID userID) in GetPendingIncentives uid.
Definition GetUserSummary (userID : string) : IM (option UserIncentiveSummary) :=
  let! uid := glift (parseUUID userID) in GetUserIncentiveSummary uid.

(** ** config.go *)
Definition config_at (id : uuid) (created updated : time) (c : IncentiveConfig) : IncentiveConfig :=
  {| ic_ID := id; ic_ReferralBonusAmount := ic_ReferralBonusAmount c;
     ic_ReferralBonusCurrency := ic_ReferralBonusCurrency c;
     ic_CircleCompletionBonus := ic_CircleCompletionBonus c;
     ic_CircleCompletionCurrency := ic_CircleCompletionCurrency c;
     ic_ContributionMatchPercent := ic_ContributionMatchPercent c;
     ic_ContributionMatchMax := ic_ContributionMatchMax c;
     ic_StreakBonusTier1 := ic_StreakBonusTier1 c; ic_StreakBonusTier1Amount := ic_StreakBonusTier1Amount c;
     ic_StreakBonusTier2 := ic_StreakBonusTier2 c; ic_StreakBonusTier2Amount := ic_StreakBonusTier2Amount c;
     ic_StreakBonusTier3 := ic_StreakBonusTier3 c; ic_StreakBonusTier3Amount := ic_StreakBonusTier3Amount c;
     ic_FirstDepositBonus := ic_FirstDepositBonus c; ic_FirstDepositCurrency := ic_FirstDepositCurrency c;
     ic_FirstDepositMinAmount := ic_FirstDepositMinAmount c; ic_IsActive := ic_IsActive c;
     ic_CreatedAt := created; ic_UpdatedAt := updated |}.

Definition Config : IM (option IncentiveConfig) := GetConfig.
Definition ChangeConfig (now : time) (new : uuid) (config : IncentiveConfig) : IM unit :=
  let config := config_at (ic_ID config) (ic_CreatedAt config) now config in
  gtry (UpdateConfig config) (λ r,
    match r with
    | inl _ => gret tt
    | inr err => if decide (err = apperrors_ErrNotFound)
                 then CreateConfig (config_at new now now config) now
                 else gfail err
    end).
End service.
End incentives.
