(* ===== verification/IncentivesPg.v ===== *)
(** The tables of the incentives and their PostgreSQL repository
    (src/internal/domain/incentives/repository_pg.go). *)
From S2P Require Export Incentives.
From stdpp Require Import options.
#[local] Set Default Proof Using "Type*".
Open Scope Z_scope.
Local Open Scope go_scope.

Module incentivespg.
Import incentives.

(** ** Tables

    The savings streaks are kept under their unique [user_id], the configurations
    in the order a scan meets them. *)
Record ReferralRow := {
  rr_ID : uuid;
  rr_ReferrerID : uuid;
  rr_ReferredID : option uuid;
  rr_ReferralCode : string;
  rr_Status : string;
  rr_CompletedAt : option time;
  rr_CreatedAt : time;
  rr_UpdatedAt : time;
}.

Record itables := {
  it_referrals : gmap uuid ReferralRow;
  it_incentives : gmap uuid Incentive;
  it_streaks : gmap uuid SavingsStreak;
  it_configs : list IncentiveConfig;
}.
Definition set_referrals (f : gmap uuid ReferralRow -> gmap uuid ReferralRow) (t : itables) :=
  {| it_referrals := f (it_referrals t); it_incentives := it_incentives t;
     it_streaks := it_streaks t; it_configs := it_configs t |}.
Definition set_incentives (f : gmap uuid Incentive -> gmap uuid Incentive) (t : itables) :=
  {| it_referrals := it_referrals t; it_incentives := f (it_incentives t);
     it_streaks := it_streaks t; it_configs := it_configs t |}.
Definition set_streaks (f : gmap uuid SavingsStreak -> gmap uuid SavingsStreak) (t : itables) :=
  {| it_referrals := it_referrals t; it_incentives := it_incentives t;
     it_streaks := f (it_streaks t); it_configs := it_configs t |}.
Definition set_configs (f : list IncentiveConfig -> list IncentiveConfig) (t : itables) :=
  {| it_referrals := it_referrals t; it_incentives := it_incentives t;
     it_streaks := it_streaks t; it_configs := f (it_configs t) |}.

(** *** Rows as a statement writes them *)
Definition referral_row (ref : Referral) (now : time) : ReferralRow :=
  {| rr_ID := rf_ID ref; rr_ReferrerID := rf_ReferrerID ref; rr_ReferredID := None;
     rr_ReferralCode := rf_ReferralCode ref; rr_Status := rf_Status ref; rr_CompletedAt := None;
     rr_CreatedAt := now; rr_UpdatedAt := now |}.
Definition incentive_row (i : Incentive) (now : time) : Incentive :=
  {| in_ID := in_ID i; in_UserID := in_UserID i; in_Type := in_Type i; in_Status := in_Status i;
     in_Amount := in_Amount i; in_Currency := in_Currency i; in_Metadata := None;
     in_ReferenceID := in_ReferenceID i; in_ExpiresAt := None; in_ClaimedAt := None;
     in_CreatedAt := now; in_UpdatedAt := now |}.
Definition with_status (status : IncentiveStatus) (now : time) (i : Incentive) : Incentive :=
  {| in_ID := in_ID i; in_UserID := in_UserID i; in_Type := in_Type i; in_Status := status;
     in_Amount := in_Amount i; in_Currency := in_Currency i; in_Metadata := in_Metadata i;
     in_ReferenceID := in_ReferenceID i; in_ExpiresAt := in_ExpiresAt i;
     in_ClaimedAt := if decide (status = IncentiveStatusClaimed) then Some now else in_ClaimedAt i;
     in_CreatedAt := in_CreatedAt i; in_UpdatedAt := now |}.
Definition streak_row (now : time) (s : SavingsStreak) : SavingsStreak :=
  {| ss_ID := ss_ID s; ss_UserID := ss_UserID s; ss_CurrentStreak := ss_CurrentStreak s;
     ss_LongestStreak := ss_LongestStreak s; ss_LastContributionAt := ss_LastContributionAt s;
     ss_BonusTier := ss_BonusTier s; ss_CreatedAt := now; ss_UpdatedAt := now |}.
Definition counted_streak (s : SavingsStreak) (updated : option time) (r : SavingsStreak) : SavingsStreak :=
  {| ss_ID := ss_ID r; ss_UserID := ss_UserID r; ss_CurrentStreak := ss_CurrentStreak s;
     ss_LongestStreak := ss_LongestStreak s; ss_LastContributionAt := ss_LastContributionAt s;
     ss_BonusTier := ss_BonusTier s; ss_CreatedAt := ss_CreatedAt r;
     ss_UpdatedAt := default (ss_UpdatedAt r) updated |}.

(** *** What a query scans: the columns it does not name stay zero *)
Definition time_zero : time := 0.
Definition scanned_referral (r : ReferralRow) : Referral :=
  {| rf_ID := rr_ID r; rf_ReferrerID := rr_ReferrerID r; rf_ReferredID := uuid_Nil;
     rf_ReferralCode := rr_ReferralCode r; rf_Status := rr_Status r; rf_CompletedAt := None;
     rf_CreatedAt := rr_CreatedAt r; rf_UpdatedAt := time_zero |}.
Definition scanned_streak (s : SavingsStreak) : SavingsStreak :=
  {| ss_ID := ss_ID s; ss_UserID := ss_UserID s; ss_CurrentStreak := ss_CurrentStreak s;
     ss_LongestStreak := ss_LongestStreak s; ss_LastContributionAt := ss_LastContributionAt s;
     ss_BonusTier := ss_BonusTier s; ss_CreatedAt := time_zero; ss_UpdatedAt := time_zero |}.
Definition listed_incentive (i : Incentive) : Incentive :=
  {| in_ID := in_ID i; in_UserID := in_UserID i; in_Type := in_Type i; in_Status := "";
     in_Amount := in_Amount i; in_Currency := in_Currency i; in_Metadata := None;
     in_ReferenceID := in_ReferenceID i; in_ExpiresAt := None; in_ClaimedAt := None;
     in_CreatedAt := in_CreatedAt i; in_UpdatedAt := time_zero |}.
Definition scanned_config (c : IncentiveConfig) : IncentiveConfig :=
  {| ic_ID := uuid_Nil; ic_ReferralBonusAmount := ic_ReferralBonusAmount c;
     ic_ReferralBonusCurrency := ic_ReferralBonusCurrency c;
     ic_CircleCompletionBonus := ic_CircleCompletionBonus c;
     ic_CircleCompletionCurrency := ic_CircleCompletionCurrency c;
     ic_ContributionMatchPercent := ic_ContributionMatchPercent c;
     ic_ContributionMatchMax := ic_ContributionMatchMax c;
     ic_StreakBonusTier1 := ic_StreakBonusTier1 c; ic_StreakBonusTier1Amount := f64_zero;
     ic_StreakBonusTier2 := ic_StreakBonusTier2 c; ic_StreakBonusTier2Amount := f64_zero;
     ic_StreakBonusTier3 := ic_StreakBonusTier3 c; ic_StreakBonusTier3Amount := f64_zero;
     ic_FirstDepositBonus := f64_zero; ic_FirstDepositCurrency := ""; ic_FirstDepositMinAmount := f64_zero;
     ic_IsActive := false; ic_CreatedAt := time_zero; ic_UpdatedAt := time_zero |}.
Definition fallback_config : IncentiveConfig :=
  {| ic_ID := uuid_Nil; ic_ReferralBonusAmount := f64_of_Z 5; ic_ReferralBonusCurrency := "USDC";
     ic_CircleCompletionBonus := f64_of_Z 10; ic_CircleCompletionCurrency := "USDC";
     ic_ContributionMatchPercent := f64_of_Z 10; ic_ContributionMatchMax := f64_of_Z 50;
     ic_StreakBonusTier1 := 4; ic_StreakBonusTier1Amount := f64_zero;
     ic_StreakBonusTier2 := 8; ic_StreakBonusTier2Amount := f64_zero;
     ic_StreakBonusTier3 := 12; ic_StreakBonusTier3Amount := f64_zero;
     ic_FirstDepositBonus := f64_zero; ic_FirstDepositCurrency := ""; ic_FirstDepositMinAmount := f64_zero;
     ic_IsActive := false; ic_CreatedAt := time_zero; ic_UpdatedAt := time_zero |}.
Definition updated_config (c r : IncentiveConfig) : IncentiveConfig :=
  {| ic_ID := ic_ID r; ic_ReferralBonusAmount := ic_ReferralBonusAmount c;
     ic_ReferralBonusCurrency := ic_ReferralBonusCurrency c;
     ic_CircleCompletionBonus := ic_CircleCompletionBonus c;
     ic_CircleCompletionCurrency := ic_CircleCompletionCurrency c;
     ic_ContributionMatchPercent := ic_ContributionMatchPercent c;
     ic_ContributionMatchMax := ic_ContributionMatchMax c;
     ic_StreakBonusTier1 := ic_StreakBonusTier1 r; ic_StreakBonusTier1Amount := ic_StreakBonusTier1Amount r;
     ic_StreakBonusTier2 := ic_StreakBonusTier2 r; ic_StreakBonusTier2Amount := ic_StreakBonusTier2Amount r;
     ic_StreakBonusTier3 := ic_StreakBonusTier3 r; ic_StreakBonusTier3Amount := ic_StreakBonusTier3Amount r;
     ic_FirstDepositBonus := ic_FirstDepositBonus r; ic_FirstDepositCurrency := ic_FirstDepositCurrency r;
     ic_FirstDepositMinAmount := ic_FirstDepositMinAmount r; ic_IsActive := ic_IsActive r;
     ic_CreatedAt := ic_CreatedAt r; ic_UpdatedAt := ic_UpdatedAt r |}.
(** An insert of a configuration leaves the other columns to the defaults of the
    migration 034_create_incentive_configs. *)
Definition inserted_config (c : IncentiveConfig) (now : time) : IncentiveConfig :=
  {| ic_ID := ic_ID c; ic_ReferralBonusAmount := ic_ReferralBonusAmount c;
     ic_ReferralBonusCurrency := ic_ReferralBonusCurrency c;
     ic_CircleCompletionBonus := ic_CircleCompletionBonus c;
     ic_CircleCompletionCurrency := ic_CircleCompletionCurrency c;
     ic_ContributionMatchPercent := ic_ContributionMatchPercent c;
     ic_ContributionMatchMax := ic_ContributionMatchMax c;
     ic_StreakBonusTier1 := 4; ic_StreakBonusTier1Amount := f64_of_Z 2;
     ic_StreakBonusTier2 := 8; ic_StreakBonusTier2Amount := f64_of_Z 5;
     ic_StreakBonusTier3 := 12; ic_StreakBonusTier3Amount := f64_of_Z 10;
     ic_FirstDepositBonus := f64_of_Z 5; ic_FirstDepositCurrency := "USDC";
     ic_FirstDepositMinAmount := f64_of_Z 10; ic_IsActive := true;
     ic_CreatedAt := now; ic_UpdatedAt := now |}.

(** ** Constraints and column types *)
Definition in_int4 (z : Z) : bool := (-2147483648 <=? z) && (z <=? 2147483647).
Definition streak_columns (s : SavingsStreak) : bool :=
  in_int4 (ss_CurrentStreak s) && in_int4 (ss_LongestStreak s) && in_int4 (ss_BonusTier s).
Definition referral_check (ref : Referral) (t : itables) : option string :=
  if bool_decide (is_Some (it_referrals t !! rf_ID ref)) ||
     existsb (λ r, bool_decide (rr_ReferralCode r = rf_ReferralCode ref)) (map_to_list (it_referrals t)).*2
  then Some "23505"%string else None.
Definition incentive_check (i : Incentive) (t : itables) : option string :=
  if it_incentives t !! in_ID i is Some _ then Some "23505"%string else None.
Definition streak_id_used (s : SavingsStreak) (t : itables) : bool :=
  existsb (λ r, (ss_ID r =? ss_ID s)%N) (map_to_list (it_streaks t)).*2.
Definition streak_check (s : SavingsStreak) (t : itables) : option string :=
  if negb (streak_columns s) then Some "22003"%string
  else if streak_id_used s t then Some "23505"%string
  else if it_streaks t !! ss_UserID s is Some _ then Some "23505"%string else None.
Definition config_check (c : IncentiveConfig) (t : itables) : option string :=
  if existsb (λ r, (ic_ID r =? ic_ID c)%N) (it_configs t) then Some "23505"%string else None.

(** What the libraries decide.  [sqlx] refuses a column without a field in the
    destination unless it is put in its unsafe mode; PostgreSQL refuses a
    parameter used with two types ([varchar] in an assignment, [text] in a
    comparison); the order of a scan without [ORDER BY] is the server's. *)
Class IncentiveStore := {
  sqlx_unsafe : bool;
  mixed_parameters : bool;
  incentive_scan : gmap uuid Incentive -> list Incentive;
  referral_scan : gmap uuid ReferralRow -> list ReferralRow;
}.
Class IncentiveStoreLaws `{IncentiveStore} : Prop := {
  incentive_scan_rows : forall m, incentive_scan m ≡ₚ (map_to_list m).*2;
  referral_scan_rows : forall m, referral_scan m ≡ₚ (map_to_list m).*2;
}.

(** ** repository_pg.go *)
Section repository_pg.
Context `{IncentiveStore}.

Abbreviation IPg := (M (PgState itables)).
Definition missing_destination : error := External "missing destination name".

(** [Select] and [Get] of a query whose column has no field in the destination. *)
Definition sqlx_columns {A} (m : IPg A) : IPg A :=
  let! a := m in if sqlx_unsafe then gret a else gfail missing_destination.
(** The columns of a row are compared with the fields before its absence is seen. *)
Definition sqlx_row {A} (q : itables -> option A) : IPg A :=
  let! r := sqlx_columns (pg_select q) in
  match r with Some a => gret a | None => gfail sql_ErrNoRows end.

(** A statement sent alone, outside any transaction of the caller: [BEGIN] and
    [COMMIT] run on another connection of the pool than [fn]. *)
Definition pg_Transact (fn : IPg unit) : IPg unit :=
  do! pg_select (λ _, tt) in
  do! fn in
  pg_select (λ _, tt).

Definition pg_CreateReferral (ref : Referral) (now : time) : IPg unit :=
  pg_insert (referral_check ref) (set_referrals <[rf_ID ref := referral_row ref now]>).

Definition referral_where (p : ReferralRow -> bool) (t : itables) : option Referral :=
  head (scanned_referral <$> filter p (referral_scan (it_referrals t))).
Definition pg_FindByReferralCode (code : string) : IPg (option Referral) :=
  gtry (sqlx_row (referral_where (λ r, bool_decide (rr_ReferralCode r = code)))) (λ r,
    match r with
    | inl ref => gret (Some ref)
    | inr err => gfail (if errors_Is err sql_ErrNoRows then ErrReferralCodeNotFound else err)
    end).
Definition pg_GetReferralByCode (code : string) : IPg (option Referral) := pg_FindByReferralCode code.
Definition pg_GetReferrerByUserID (userID : uuid) : IPg (option Referral) :=
  let! ref := sqlx_row (referral_where (λ r, (rr_ReferrerID r =? userID)%N)) in gret (Some ref).
Definition pg_FindByReferrerID (userID : uuid) : IPg (list Referral) :=
  sqlx_columns (pg_select (λ t,
    scanned_referral <$> filter (λ r, rr_ReferrerID r = userID) (referral_scan (it_referrals t)))).
Definition pg_FindByReferredID (userID : uuid) : IPg (option Referral) :=
  gtry (sqlx_row (referral_where (λ r, bool_decide (rr_ReferredID r = Some userID)))) (λ r,
    match r with
    | inl ref => gret (Some ref)
    | inr err => if errors_Is err sql_ErrNoRows then gret None else gfail err
    end).

(** An update of a referral that is still pending. *)
Definition pending_row (p : ReferralRow -> bool) (r : ReferralRow) : bool :=
  p r && bool_decide (rr_Status r = "pending"%string).
Definition set_pending (p : ReferralRow -> bool) (f : ReferralRow -> ReferralRow) : itables -> itables :=
  set_referrals (fmap (λ r, if pending_row p r then f r else r)).
Definition update_pending (p : ReferralRow -> bool) (f : ReferralRow -> ReferralRow) : IPg unit :=
  or_missing ErrReferralCodeAlreadyUsed
    (pg_update (λ _, None) (λ t, existsb (pending_row p) (map_to_list (it_referrals t)).*2)
       (set_pending p f)).
Definition referred_row (ref : Referral) (r : ReferralRow) : ReferralRow :=
  {| rr_ID := rr_ID r; rr_ReferrerID := rr_ReferrerID r; rr_ReferredID := Some (rf_ReferredID ref);
     rr_ReferralCode := rr_ReferralCode r; rr_Status := rf_Status ref;
     rr_CompletedAt := rr_CompletedAt r; rr_CreatedAt := rr_CreatedAt r;
     rr_UpdatedAt := rr_UpdatedAt r |}.
Definition status_row (status : string) (now : time) (r : ReferralRow) : ReferralRow :=
  {| rr_ID := rr_ID r; rr_ReferrerID := rr_ReferrerID r; rr_ReferredID := rr_ReferredID r;
     rr_ReferralCode := rr_ReferralCode r; rr_Status := status; rr_CompletedAt := Some now;
     rr_CreatedAt := rr_CreatedAt r; rr_UpdatedAt := now |}.
Definition pg_UpdateReferral (ref : Referral) : IPg unit :=
  update_pending (λ r, bool_decide (rr_ReferralCode r = rf_ReferralCode ref)) (referred_row ref).
Definition pg_UpdateReferralStatus (id : uuid) (status : string) (now : time) : IPg unit :=
  update_pending (λ r, (rr_ID r =? id)%N) (status_row status now).

Definition pg_CreateIncentive (inc : Incentive) (now : time) : IPg unit :=
  pg_insert (incentive_check inc) (set_incentives <[in_ID inc := incentive_row inc now]>).
Definition incentives_where (p : Incentive -> bool) (t : itables) : list Incentive :=
  filter p (incentive_scan (it_incentives t)).
Definition of_user (userID : uuid) (i : Incentive) : bool := (in_UserID i =? userID)%N.
Definition pg_GetIncentives (userID : uuid) : IPg (list Incentive) :=
  pg_select (λ t, listed_incentive <$> incentives_where (of_user userID) t).
Definition pg_FindByID (id : uuid) : IPg (option Incentive) :=
  gtry (pg_row (λ t, it_incentives t !! id)) (λ r,
    match r with
    | inl inc => gret (Some inc)
    | inr err => gfail (if errors_Is err sql_ErrNoRows then ErrIncentiveNotFound else err)
    end).
Definition pg_FindByUserID (userID : uuid) : IPg (list Incentive) :=
  pg_select (incentives_where (of_user userID)).
Definition pg_FindByUserIDAndType (userID : uuid) (typ : IncentiveType) : IPg (list Incentive) :=
  pg_select (incentives_where (λ i, of_user userID i && bool_decide (in_Type i = typ))).
Definition pg_GetPendingIncentives (userID : uuid) : IPg (list Incentive) :=
  pg_select (incentives_where (λ i, of_user userID i && bool_decide (in_Status i = "pending"%string))).
Definition pg_UpdateIncentiveStatus (id : uuid) (status : IncentiveStatus) (now : time) : IPg unit :=
  pg_exec (λ t, if mixed_parameters then inl (tt, set_incentives (alter (with_status status now) id) t)
                else inr "42P08"%string).

(** The totals have no field of their name in the destination. *)
Definition summary_of (s : option SavingsStreak) : UserIncentiveSummary :=
  {| us_TotalEarned := f64_zero; us_TotalClaimed := f64_zero; us_PendingAmount := f64_zero;
     us_ReferralCount := 0; us_CurrentStreak := default 0 (ss_CurrentStreak <$> s);
     us_LongestStreak := default 0 (ss_LongestStreak <$> s);
     us_BonusTier := default 1 (ss_BonusTier <$> s) |}.
Definition pg_GetUserIncentiveSummary (userID : uuid) : IPg (option UserIncentiveSummary) :=
  do! sqlx_columns (pg_select (λ _, tt)) in
  gtry (pg_select (λ t, it_streaks t !! userID)) (λ r,
    match r with
    | inl s => gret (Some (summary_of s))
    | inr _ => gret (Some (summary_of None))
    end).

Definition streak_query (userID : uuid) : IPg SavingsStreak :=
  pg_row (λ t, scanned_streak <$> it_streaks t !! userID).
Definition pg_GetStreak (userID : uuid) : IPg (option SavingsStreak) :=
  let! s := streak_query userID in gret (Some s).
Definition pg_FindStreakByUserID (userID : uuid) : IPg (option SavingsStreak) :=
  gtry (streak_query userID) (λ r,
    match r with
    | inl s => gret (Some s)
    | inr err => gfail (if errors_Is err sql_ErrNoRows then ErrIncentiveNotFound else err)
    end).
(** [ON CONFLICT (user_id)] does not cover the primary key. *)
Definition pg_UpsertStreak (s : SavingsStreak) (now : time) : IPg (option SavingsStreak) :=
  do! pg_exec (λ t,
    if negb (streak_columns s) then inr "22003"%string
    else match it_streaks t !! ss_UserID s with
         | Some r => inl (tt, set_streaks <[ss_UserID s := counted_streak s None r]> t)
         | None => if streak_id_used s t then inr "23505"%string
                   else inl (tt, set_streaks <[ss_UserID s := streak_row now s]> t)
         end) in
  gret (Some s).
Definition pg_CreateSavingsStreak (s : SavingsStreak) (now : time) : IPg unit :=
  pg_insert (streak_check s) (set_streaks <[ss_UserID s := streak_row now s]>).
Definition pg_UpdateSavingsStreak (s : SavingsStreak) (now : time) : IPg unit :=
  pg_exec (λ t, if streak_columns s
                then inl (tt, set_streaks (alter (counted_streak s (Some now)) (ss_UserID s)) t)
                else inr "22003"%string).

Definition pg_GetConfig : IPg (option IncentiveConfig) :=
  gtry (pg_row (λ t, scanned_config <$> head (it_configs t))) (λ r,
    match r with inl cfg => gret (Some cfg) | inr _ => gret (Some fallback_config) end).
Definition pg_UpdateConfig (config : IncentiveConfig) : IPg unit :=
  pg_exec (λ t, inl (tt, set_configs (fmap (updated_config config)) t)).
Definition pg_CreateConfig (config : IncentiveConfig) (now : time) : IPg unit :=
  pg_insert (config_check config) (set_configs (λ cs, cs ++ [inserted_config config now])).

#[export] Instance incentives_pg : Repository (PgState itables) := {
  Transact := pg_Transact; CreateReferral := pg_CreateReferral;
  GetReferralByCode := pg_GetReferralByCode; GetReferrerByUserID := pg_GetReferrerByUserID;
  UpdateReferral := pg_UpdateReferral; FindByReferralCode := pg_FindByReferralCode;
  FindByReferrerID := pg_FindByReferrerID; FindByReferredID := pg_FindByReferredID;
  UpdateReferralStatus := pg_UpdateReferralStatus; CreateIncentive := pg_CreateIncentive;
  GetIncentives := pg_GetIncentives; FindByID := pg_FindByID; FindByUserID := pg_FindByUserID;
  FindByUserIDAndType := pg_FindByUserIDAndType; GetPendingIncentives := pg_GetPendingIncentives;
  GetUserIncentiveSummary := pg_GetUserIncentiveSummary;
  UpdateIncentiveStatus := pg_UpdateIncentiveStatus; GetStreak := pg_GetStreak;
  UpsertStreak := pg_UpsertStreak; FindStreakByUserID := pg_FindStreakByUserID;
  CreateSavingsStreak := pg_CreateSavingsStreak; UpdateSavingsStreak := pg_UpdateSavingsStreak;
  GetConfig := pg_GetConfig; UpdateConfig := pg_UpdateConfig; CreateConfig := pg_CreateConfig;
}.
End repository_pg.
End incentivespg.
