(* ===== verification/IncentivesProps.v ===== *)
(** What the incentives guarantee over any fault of the database: who is granted
    what, how often, and what becomes of a grant. *)
From S2P Require Export IncentivesPg.
From stdpp Require Import options.
#[local] Set Default Proof Using "Type*".
Open Scope Z_scope.
Local Open Scope go_scope.

Module incentivesprops.
Import incentives incentivespg.

(** ** Steps: what a call does to the tables

    A [strict] step names its circle the way it is stored. *)
Definition granted (inc : Incentive) (now : time) : itables -> itables :=
  set_incentives <[in_ID inc := incentive_row inc now]>.
Definition consumed (id : uuid) (now : time) : itables -> itables :=
  set_pending (λ r, (rr_ID r =? id)%N) (status_row "completed" now).

(** No stored grant that the new one repeats. *)
Definition unrepeated (inc : Incentive) (t : itables) : Prop :=
  (in_Type inc = IncentiveTypeFirstDeposit -> forall id i, it_incentives t !! id = Some i ->
     in_UserID i = in_UserID inc -> in_Type i <> IncentiveTypeFirstDeposit) /\
  (in_Type inc = IncentiveTypeCircleCompletion -> forall id i, it_incentives t !! id = Some i ->
     in_UserID i = in_UserID inc -> in_Type i = IncentiveTypeCircleCompletion ->
     in_ReferenceID i <> in_ReferenceID inc).

Inductive inc_step (strict : Prop) (u : uuid) (now : time) (t : itables) : itables -> Prop :=
  | is_other t' : it_incentives t' = it_incentives t -> it_referrals t' = it_referrals t ->
      inc_step strict u now t t'
  | is_code ref : referral_check ref t = None ->
      inc_step strict u now t (set_referrals <[rf_ID ref := referral_row ref now]> t)
  | is_consume id : inc_step strict u now t (consumed id now t)
  | is_apply k r inc : it_referrals t !! k = Some r -> rr_Status r = "pending"%string ->
      in_Type inc = IncentiveTypeReferral -> in_UserID inc = rr_ReferrerID r ->
      in_ReferenceID inc = Some (rr_ReferralCode r) -> in_Status inc = IncentiveStatusPending ->
      rr_ReferrerID r <> u -> incentive_check inc t = None ->
      inc_step strict u now t (granted inc now (consumed (rr_ID r) now t))
  | is_grant inc : incentive_check inc t = None -> in_Status inc = IncentiveStatusPending ->
      in_UserID inc = u -> in_Type inc <> IncentiveTypeReferral -> (strict -> unrepeated inc t) ->
      inc_step strict u now t (granted inc now t)
  | is_claim id i : it_incentives t !! id = Some i -> in_UserID i = u ->
      in_Status i <> IncentiveStatusClaimed -> expired now i = false ->
      inc_step strict u now t (set_incentives (alter (with_status IncentiveStatusClaimed now) id) t).

(** ** Calls *)
Inductive icall :=
  | ICode (draw : draws) (userID : string)
  | IApply (new : uuid) (userID code : string)
  | IReward (new : uuid) (userID circleID : string)
  | IMatch (new : uuid) (userID circleID : string) (amount : float64)
  | IDeposit (new : uuid) (userID : string) (amount : float64)
  | IContribution (new : uuid) (userID : string)
  | IStreakBonus (new : uuid) (userID : string)
  | IClaim (userID incentiveID : string)
  | IConfig (new : uuid) (config : IncentiveConfig).

Section calls.
Context `{IncentiveStore, UUIDLib, MetadataJSON, GoFloatConv, !IncentiveStoreLaws}.
Abbreviation IPg := (M (PgState itables)).

Definition drop_result {A} (m : IPg A) : IPg unit := do! m in gret tt.
Definition run_icall (now : time) (k : icall) : IPg unit :=
  match k with
  | ICode draw u => drop_result (GenerateReferralCode now draw u)
  | IApply new u code => ApplyReferralCode now new u code
  | IReward new u c => drop_result (GrantCircleCompletionReward now new u c)
  | IMatch new u c x => drop_result (GrantContributionMatch now new u c x)
  | IDeposit new u x => drop_result (GrantFirstDepositBonus now new u x)
  | IContribution new u => drop_result (RecordContribution now new u)
  | IStreakBonus new u => drop_result (GrantStreakBonus now new u)
  | IClaim u id => ClaimIncentive now u id
  | IConfig new c => ChangeConfig now new c
  end.

Definition icaller (k : icall) : uuid :=
  match k with
  | ICode _ u | IApply _ u _ | IReward _ u _ | IMatch _ u _ _ | IDeposit _ u _ | IContribution _ u
  | IStreakBonus _ u | IClaim u _ => default 0%N (uuid_Parse u)
  | IConfig _ _ => 0%N
  end.

(** A circle is named by the text the library prints for it. *)
Definition canonical (id : string) : Prop := forall u, uuid_Parse id = Some u -> uuid_String u = id.
Definition icanonical (k : icall) : Prop :=
  match k with IReward _ _ c => canonical c | _ => True end.

(** *** Rules for the statements *)
Lemma wp_incentive_parse id w (Q : result uuid -> PgState itables -> Prop) :
  (forall u, uuid_Parse id = Some u -> Q (Ok u) w) -> (forall e, Q (Err e) w) ->
  wp (glift (parseUUID id)) w Q.
Proof. intros Hs Hn. apply wp_lift. unfold parseUUID. destruct (uuid_Parse id); auto. Qed.

(** A configuration is always found, without the amounts of the streak bonuses. *)
Definition no_streak_amounts (c : IncentiveConfig) : Prop :=
  ic_StreakBonusTier1Amount c = f64_zero /\ ic_StreakBonusTier2Amount c = f64_zero /\
  ic_StreakBonusTier3Amount c = f64_zero.
Lemma wp_config w (Q : result IncentiveConfig -> PgState itables -> Prop) :
  (forall c w', no_streak_amounts c -> pg_tables w' = pg_tables w -> Q (Ok c) w') -> wp config_ w Q.
Proof.
  intros HQ. apply wp_bind, wp_wrap, wp_try, wp_pg_row; intros; apply wp_ret; cbn; apply wp_ret, HQ;
    try done.
  destruct (head _); simplify_eq/=; done.
Qed.

Lemma wp_streak_row u w (Q : result (option SavingsStreak) -> PgState itables -> Prop) :
  (forall s w', pg_tables w' = pg_tables w -> Q (Ok (Some s)) w') ->
  (forall e w', pg_tables w' = pg_tables w -> Q (Err e) w') ->
  wp (FindStreakByUserID u) w Q.
Proof.
  intros Hs He. apply wp_try, wp_pg_row; intros; [by apply wp_ret, Hs|by apply wp_fail, He..].
Qed.

Lemma wp_ensure u typ conflict msg w (Q : result unit -> PgState itables -> Prop) :
  (forall w', (forall id i, it_incentives (pg_tables w) !! id = Some i -> in_UserID i = u ->
      in_Type i = typ -> default (λ _, true) conflict i = false) ->
      pg_tables w' = pg_tables w -> Q (Ok tt) w') ->
  (forall e w', pg_tables w' = pg_tables w -> Q (Err e) w') ->
  wp (ensureNoIncentive u typ conflict msg) w Q.
Proof.
  intros Hs He. apply wp_bind, wp_wrap, wp_pg_select; intros; [|by apply He].
  apply wp_guard; intros Hc; [by apply He|apply Hs; [|done]]. intros id i Hi <- <-.
  apply not_true_iff_false. intros Ht. apply not_true_iff_false in Hc. apply Hc.
  apply existsb_exists. exists i. split; [|done]. apply list_elem_of_In, list_elem_of_filter.
  unfold of_user. rewrite N.eqb_refl, bool_decide_true by done. split; [done|].
  rewrite incentive_scan_rows. apply list_elem_of_fmap. exists (id, i). split; [done|].
  by apply elem_of_map_to_list.
Qed.

(** The end of a call: nothing happened, or one step. *)
Definition stepped {A} (strict : Prop) (u : uuid) (now : time) (t : itables) (r : result A) (w : PgState itables) : Prop :=
  r <> Panic /\ inc_step strict u now t (pg_tables w).

Lemma stepped_stay {A} strict u now t (r : result A) w :
  r <> Panic -> pg_tables w = t -> stepped strict u now t r w.
Proof. intros ? <-. split; [done|]. by apply is_other. Qed.

Lemma wp_CreateIncentive now t f inc w (Q : result unit -> PgState itables -> Prop) :
  pg_tables w = t ->
  (incentive_check inc t = None -> forall w', pg_tables w' = granted inc now t -> Q (Ok tt) w') ->
  (forall e w', pg_tables w' = t -> Q (Err e) w') ->
  wp (gwrap f (CreateIncentive inc now)) w Q.
Proof.
  intros Ht Hs He. apply wp_wrap, wp_pg_insert; intros; subst; [by apply Hs|by apply He].
Qed.
(** A grant to the caller that repeats none. *)
Lemma wp_grant {A} now f inc (k : unit -> IPg A) w t (Q : result A -> PgState itables -> Prop) :
  pg_tables w = t ->
  (incentive_check inc t = None -> forall w', pg_tables w' = granted inc now t -> wp (k tt) w' Q) ->
  (forall e w', pg_tables w' = t -> Q (Err e) w') ->
  wp (gbind (gwrap f (CreateIncentive inc now)) k) w Q.
Proof. intros Ht Hs He. apply wp_bind. by eapply wp_CreateIncentive. Qed.

Lemma Reward_stepped now new userID circleID w :
  wp (GrantCircleCompletionReward now new userID circleID) w
    (stepped (canonical circleID) (default 0%N (uuid_Parse userID)) now (pg_tables w)).
Proof.
  unfold GrantCircleCompletionReward.
  apply wp_bind, wp_incentive_parse; [intros uid ->|by intros; apply stepped_stay].
  apply wp_bind, wp_incentive_parse; [intros cid Hcid|by intros; apply stepped_stay].
  apply wp_bind, wp_ensure; [intros w1 Hfree E1|by intros; apply stepped_stay].
  apply wp_bind, wp_config. intros c w2 _ E2.
  eapply wp_grant; [exact (eq_trans E2 E1)|intros Hc w3 E3|by intros; apply stepped_stay].
  apply wp_ret. split; [done|]. rewrite E3. apply is_grant; [done..|].
  intros Hcan. split; [done|]. intros _ id i Hi Hu Hty. cbn [in_ReferenceID pending_incentive].
  specialize (Hfree id i Hi Hu Hty). cbn in Hfree. unfold rewarded in Hfree. go_bool.
  by rewrite (Hcan _ Hcid).
Qed.

Lemma Match_stepped now new userID circleID x w :
  wp (GrantContributionMatch now new userID circleID x) w
    (stepped True (default 0%N (uuid_Parse userID)) now (pg_tables w)).
Proof.
  unfold GrantContributionMatch.
  apply wp_bind, wp_incentive_parse; [intros uid ->|by intros; apply stepped_stay].
  apply wp_bind, wp_bind, wp_config. intros c w1 _ E1. apply wp_ret.
  apply wp_bind, wp_guard; intros _; [by apply stepped_stay|].
  eapply wp_grant; [exact E1|intros Hc w3 E3|by intros; apply stepped_stay].
  apply wp_ret. split; [done|]. rewrite E3. by apply is_grant.
Qed.

Lemma Deposit_stepped now new userID x w :
  wp (GrantFirstDepositBonus now new userID x) w
    (stepped True (default 0%N (uuid_Parse userID)) now (pg_tables w)).
Proof.
  unfold GrantFirstDepositBonus.
  apply wp_bind, wp_incentive_parse; [intros uid ->|by intros; apply stepped_stay].
  apply wp_bind, wp_ensure; [intros w1 Hfree E1|by intros; apply stepped_stay].
  apply wp_bind, wp_config. intros c w2 _ E2.
  apply wp_bind, wp_guard; intros _; [apply stepped_stay; congruence|].
  eapply wp_grant; [exact (eq_trans E2 E1)|intros Hc w3 E3|by intros; apply stepped_stay].
  apply wp_ret. split; [done|]. rewrite E3. apply is_grant; [done..|].
  intros _. split; [|done]. intros _ id i Hi Hu Hty. by specialize (Hfree id i Hi Hu Hty).
Qed.

Lemma tier_amount_zero c tier : no_streak_amounts c ->
  tier_amount c tier = None \/ tier_amount c tier = Some f64_zero.
Proof.
  intros (Z1 & Z2 & Z3). unfold tier_amount. rewrite Z1, Z2, Z3. repeat case_match; auto.
Qed.
Lemma StreakBonus_refused now new userID w :
  wp (GrantStreakBonus now new userID) w (λ r w', (exists e, r = Err e) /\ pg_tables w' = pg_tables w).
Proof.
  unfold GrantStreakBonus.
  apply wp_bind, wp_incentive_parse; [intros uid _|by eauto].
  apply wp_bind, wp_wrap, wp_streak_row; [intros s w1 E1|cbn; by eauto].
  apply wp_bind, wp_ret, wp_bind, wp_config. intros c w2 Hz E2. rewrite <-E1, <-E2.
  destruct (tier_amount_zero c (ss_BonusTier s) Hz) as [-> | ->]; [apply wp_fail; by eauto|].
  apply wp_bind, wp_guard; [by eauto|]. intros Hle. by vm_compute in Hle.
Qed.
Lemma wp_FindIncentive id w (Q : result (option Incentive) -> PgState itables -> Prop) :
  (forall i w', it_incentives (pg_tables w) !! id = Some i -> pg_tables w' = pg_tables w ->
     Q (Ok (Some i)) w') ->
  (forall e w', pg_tables w' = pg_tables w -> Q (Err e) w') ->
  wp (FindByID id) w Q.
Proof.
  intros Hs He. apply wp_try, wp_pg_row; intros; [by apply wp_ret, Hs|by apply wp_fail, He..].
Qed.

Lemma Claim_stepped now userID incentiveID w :
  wp (ClaimIncentive now userID incentiveID) w
    (stepped True (default 0%N (uuid_Parse userID)) now (pg_tables w)).
Proof.
  unfold ClaimIncentive.
  apply wp_bind, wp_incentive_parse; [intros uid ->|by intros; apply stepped_stay].
  apply wp_bind, wp_incentive_parse; [intros iid _|by intros; apply stepped_stay].
  apply wp_bind, wp_wrap, wp_FindIncentive; [intros i w1 Hi E1|by intros; apply stepped_stay].
  apply wp_bind, wp_ret.
  apply wp_bind, wp_guard; intros Hu; [by apply stepped_stay|]. go_bool.
  apply wp_bind, wp_guard; intros Hs; [by apply stepped_stay|]. go_bool.
  apply wp_bind, wp_guard; intros He; [by apply stepped_stay|].
  apply wp_wrap, wp_pg_exec; [|by intros; apply stepped_stay; [done|congruence]].
  intros [] t w2 Hq <-. destruct mixed_parameters; [|done]. injection Hq as Hq.
  split; [done|]. rewrite <-Hq, E1. by apply (is_claim _ _ _ _ _ i).
Qed.

(** *** Referral codes *)
Lemma wp_sqlx_row {A} (q : itables -> option A) w (Q : result A -> PgState itables -> Prop) :
  (forall a w', q (pg_tables w) = Some a -> sqlx_unsafe = true -> pg_tables w' = pg_tables w ->
     Q (Ok a) w') ->
  (forall e w', pg_tables w' = pg_tables w -> Q (Err e) w') -> wp (sqlx_row q) w Q.
Proof.
  intros Hs He. unfold sqlx_row, sqlx_columns. apply wp_bind, wp_bind, wp_pg_select; [|by eauto].
  intros w1 E1. destruct sqlx_unsafe eqn:Hu; [|by apply wp_fail, He].
  apply wp_ret. destruct (q (pg_tables w)) eqn:Hq; [by apply wp_ret, Hs|by apply wp_fail, He].
Qed.

Lemma wp_FindByReferralCode code w (Q : result (option Referral) -> PgState itables -> Prop) :
  (forall k r w', it_referrals (pg_tables w) !! k = Some r -> rr_ReferralCode r = code ->
     sqlx_unsafe = true -> pg_tables w' = pg_tables w -> Q (Ok (Some (scanned_referral r))) w') ->
  (forall e w', pg_tables w' = pg_tables w -> Q (Err e) w') ->
  wp (FindByReferralCode code) w Q.
Proof.
  intros Hs He. apply wp_try, wp_sqlx_row; [|by intros; apply wp_fail, He].
  intros ref w' Hr Hu Ht. apply wp_ret. unfold referral_where in Hr.
  apply head_Some in Hr as [rest Hr]. apply fmap_cons_inv in Hr as (r & l & -> & _ & Hl).
  assert (r ∈ r :: l) as Hin by by left. rewrite <-Hl in Hin.
  apply list_elem_of_filter in Hin as [Hc Hin]. rewrite referral_scan_rows in Hin.
  apply list_elem_of_fmap in Hin as ([k r'] & -> & Hin). apply elem_of_map_to_list in Hin.
  apply bool_decide_unpack in Hc. by apply (Hs k).
Qed.

Lemma wp_FindByReferredID u w (Q : result (option Referral) -> PgState itables -> Prop) :
  (forall r w', r <> Panic -> pg_tables w' = pg_tables w -> Q r w') -> wp (FindByReferredID u) w Q.
Proof.
  intros HQ. apply wp_try, wp_sqlx_row; intros; [by apply wp_ret, HQ|].
  case_match; [by apply wp_ret, HQ|by apply wp_fail, HQ].
Qed.

Lemma wp_update_pending p f w (Q : result unit -> PgState itables -> Prop) :
  (forall w', pg_tables w' = set_pending p f (pg_tables w) -> Q (Ok tt) w') ->
  (forall e w', pg_tables w' = pg_tables w -> Q (Err e) w') ->
  wp (update_pending p f) w Q.
Proof.
  intros Hs He. apply wp_bind, wp_pg_update; cbn; intros; [by apply wp_ret, Hs|by apply wp_fail, He|].
  by apply He.
Qed.
Lemma attempts_stepped u now uid draw n attempt lastErr w :
  wp (code_attempts now uid draw n attempt lastErr) w (stepped True u now (pg_tables w)).
Proof.
  revert attempt lastErr w. induction n as [|n IH]; intros attempt lastErr w; cbn [code_attempts].
  { by apply wp_fail, stepped_stay. }
  apply wp_bind, wp_lift. destruct (draw attempt).1; cbn; [|by apply stepped_stay].
  apply wp_try, wp_pg_insert; [intros w1 Hc E1|intros code w1 E1].
  - apply wp_ret. split; [done|]. rewrite E1. by apply is_code.
  - case_match; [rewrite <-E1; by apply IH|by apply wp_fail, stepped_stay].
Qed.

Lemma Code_stepped u now draw userID w :
  wp (GenerateReferralCode now draw userID) w (stepped True u now (pg_tables w)).
Proof.
  unfold GenerateReferralCode.
  apply wp_bind, wp_incentive_parse; [intros uid _|by intros; apply stepped_stay].
  apply wp_try. change (FindByReferrerID uid) with (pg_FindByReferrerID uid).
  unfold pg_FindByReferrerID, sqlx_columns.
  apply wp_bind, wp_pg_select; [intros w1 E1|intros code w1 E1; rewrite <-E1; apply attempts_stepped].
  rewrite <-E1. destruct sqlx_unsafe; [apply wp_ret|apply wp_fail, attempts_stepped].
  case_match; [apply attempts_stepped|by apply wp_ret, stepped_stay].
Qed.

Lemma redeem_stepped now new uid code w :
  wp (redeem now new uid code) w (stepped True uid now (pg_tables w)).
Proof.
  apply wp_bind, wp_wrap, wp_FindByReferralCode; [intros k r w1 Hk Hc _ E1|by intros; apply stepped_stay].
  apply wp_bind, wp_ret.
  apply wp_bind, wp_guard; intros Hself; [by apply stepped_stay|]. go_bool.
  apply wp_bind, wp_guard; intros Hst; [by apply stepped_stay|]. go_bool.
  apply wp_bind, wp_config. intros c w2 _ E2.
  apply wp_bind, wp_wrap, wp_update_pending; [intros w3 E3|intros; apply stepped_stay; [done|congruence]].
  rewrite E2, E1 in E3. eapply wp_CreateIncentive; [exact E3|intros Hch w4 E4|intros e w4 E4];
    (split; [done|]); rewrite E4.
  - apply (is_apply _ _ _ _ k r); subst; done.
  - apply is_consume.
Qed.

Lemma Apply_stepped now new userID code w :
  wp (ApplyReferralCode now new userID code) w
    (stepped True (default 0%N (uuid_Parse userID)) now (pg_tables w)).
Proof.
  unfold ApplyReferralCode.
  apply wp_bind, wp_incentive_parse; [intros uid ->|by intros; apply stepped_stay].
  apply wp_try, wp_FindByReferredID. intros existing w1 Hp E1. rewrite <-E1.
  destruct existing as [[]| |]; [by apply wp_fail, stepped_stay|apply redeem_stepped..|done].
Qed.

(** *** Streaks and configurations *)
Lemma Contribution_stepped u now new userID w :
  wp (RecordContribution now new userID) w (stepped True u now (pg_tables w)).
Proof.
  unfold RecordContribution.
  apply wp_bind, wp_incentive_parse; [intros uid _|by intros; apply stepped_stay].
  apply wp_bind, wp_config. intros c w1 _ E1.
  apply wp_try, wp_streak_row; intros; [apply wp_bind, wp_ret|case_decide].
  - apply wp_bind, wp_wrap, wp_pg_exec; [intros [] t w3 Hq E3|intros; apply stepped_stay; [done|congruence]].
    apply wp_ret. split; [done|]. destruct (streak_columns _); [|done]. injection Hq as <-.
    rewrite E3. apply is_other; cbn; congruence.
  - apply wp_bind, wp_wrap, wp_pg_insert; [intros w3 _ E3|intros; apply stepped_stay; [done|congruence]].
    apply wp_ret. split; [done|]. rewrite E3. apply is_other; cbn; congruence.
  - apply wp_fail, stepped_stay; [done|congruence].
Qed.

Lemma Config_stepped u now new config w :
  wp (ChangeConfig now new config) w (stepped True u now (pg_tables w)).
Proof.
  apply wp_try, wp_pg_exec; [intros [] t w1 [= <-] E1|intros code w1 E1].
  - apply wp_ret. split; [done|]. rewrite E1. by apply is_other.
  - case_decide; [done|]. by apply wp_fail, stepped_stay.
Qed.

Lemma wp_drop_result {A} (m : IPg A) strict w u now t :
  wp m w (stepped strict u now t) -> wp (drop_result m) w (stepped strict u now t).
Proof.
  intros Hm. apply wp_bind. eapply wp_mono; [exact Hm|]. intros [a|e|] w' [Hp Hs]; [|by split..].
  by apply wp_ret.
Qed.

Lemma run_icall_stepped now k w :
  wp (run_icall now k) w (stepped (icanonical k) (icaller k) now (pg_tables w)).
Proof.
  destruct k; cbn [run_icall icaller icanonical]; try apply wp_drop_result.
  - apply Code_stepped.
  - apply Apply_stepped.
  - apply Reward_stepped.
  - apply Match_stepped.
  - apply Deposit_stepped.
  - apply Contribution_stepped.
  - eapply wp_mono; [apply StreakBonus_refused|]. intros r w' [[e ->] E]. by apply stepped_stay.
  - apply Claim_stepped.
  - apply Config_stepped.
Qed.
End calls.
End incentivesprops.
