(* ===== verification/IncentivesInv.v ===== *)
(** The theorems about the incentives: nobody is granted a reward twice by calls
    made one after the other, a grant changes only when its owner claims it, and
    what the driver and the race of two calls break. *)
From S2P Require Export IncentivesProps.
From stdpp Require Import options.
#[local] Set Default Proof Using "Type*".
Open Scope Z_scope.
Local Open Scope go_scope.

Module incentivesinv.
Import incentives incentivespg incentivesprops.

(** ** The invariant of the grants

    What makes two grants the same: the user for a first deposit, the user and
    the circle for a completed circle, the code for a referral. *)
Definition grant_key (i : Incentive) : option (option uuid * string * option string) :=
  if decide (in_Type i = IncentiveTypeFirstDeposit) then Some (Some (in_UserID i), in_Type i, None)
  else if decide (in_Type i = IncentiveTypeCircleCompletion)
  then Some (Some (in_UserID i), in_Type i, in_ReferenceID i)
  else if decide (in_Type i = IncentiveTypeReferral) then Some (None, in_Type i, in_ReferenceID i)
  else None.

Record grants_ok (t : itables) : Prop := {
  go_keys : map_Forall (λ id i, in_ID i = id) (it_incentives t);
  go_rows : map_Forall (λ id r, rr_ID r = id) (it_referrals t);
  go_codes : forall k1 r1 k2 r2, it_referrals t !! k1 = Some r1 -> it_referrals t !! k2 = Some r2 ->
    rr_ReferralCode r1 = rr_ReferralCode r2 -> k1 = k2;
  go_once : forall id1 i1 id2 i2, it_incentives t !! id1 = Some i1 -> it_incentives t !! id2 = Some i2 ->
    is_Some (grant_key i1) -> grant_key i1 = grant_key i2 -> id1 = id2;
  go_referred : forall id i, it_incentives t !! id = Some i -> in_Type i = IncentiveTypeReferral ->
    exists k r, it_referrals t !! k = Some r /\ in_ReferenceID i = Some (rr_ReferralCode r) /\
      in_UserID i = rr_ReferrerID r /\ rr_Status r <> "pending"%string;
}.

(** *** The steps keep it *)
Lemma check_fresh inc t : incentive_check inc t = None -> it_incentives t !! in_ID inc = None.
Proof. unfold incentive_check. by destruct (it_incentives t !! in_ID inc). Qed.

Lemma grant_key_row inc now : grant_key (incentive_row inc now) = grant_key inc.
Proof. done. Qed.

Lemma granted_ok inc now t : grants_ok t -> incentive_check inc t = None ->
  (forall id i, it_incentives t !! id = Some i -> is_Some (grant_key i) -> grant_key i <> grant_key inc) ->
  (in_Type inc = IncentiveTypeReferral -> exists k r, it_referrals t !! k = Some r /\
     in_ReferenceID inc = Some (rr_ReferralCode r) /\ in_UserID inc = rr_ReferrerID r /\
     rr_Status r <> "pending"%string) ->
  grants_ok (granted inc now t).
Proof.
  intros [Hk Hr Hc Ho Hf] Hch Hn Hp. apply check_fresh in Hch. split; cbn; [|done|done| |].
  - apply map_Forall_insert_2; done.
  - intros id1 i1 id2 i2 H1 H2 Hs He.
    apply lookup_insert_Some in H1 as [[<- <-]|[Hne1 H1]], H2 as [[<- <-]|[Hne2 H2]]; [done| | |].
    + destruct (Hn _ _ H2); [rewrite <-He; exact Hs|]. by rewrite <-He.
    + by destruct (Hn _ _ H1 Hs).
    + by apply (Ho _ i1 _ i2).
  - intros id i [[<- <-]|[Hne Hi]]%lookup_insert_Some Hty; [by apply Hp|by apply (Hf id)].
Qed.

Lemma consumed_lookup id now t k : it_referrals (consumed id now t) !! k =
  (λ r, if pending_row (λ r, (rr_ID r =? id)%N) r then status_row "completed" now r else r) <$>
    it_referrals t !! k.
Proof. apply lookup_fmap. Qed.

(** A consumed referral keeps its columns but the status, which is not pending. *)
Lemma consumed_row id now t k r' : it_referrals (consumed id now t) !! k = Some r' ->
  exists r, it_referrals t !! k = Some r /\ rr_ID r' = rr_ID r /\
    rr_ReferralCode r' = rr_ReferralCode r /\ rr_ReferrerID r' = rr_ReferrerID r /\
    (rr_Status r' = rr_Status r \/ rr_Status r' = "completed"%string).
Proof.
  rewrite consumed_lookup. intros (r & -> & Hr)%fmap_Some. exists r. destruct (pending_row _ r); subst;
    cbn; eauto 10.
Qed.

Lemma consumed_kept id now t k r : it_referrals t !! k = Some r ->
  exists r', it_referrals (consumed id now t) !! k = Some r' /\
    rr_ReferralCode r' = rr_ReferralCode r /\ rr_ReferrerID r' = rr_ReferrerID r /\
    (rr_Status r <> "pending"%string \/ rr_ID r = id -> rr_Status r' <> "pending"%string).
Proof.
  intros Hk. rewrite consumed_lookup, Hk. cbn. eexists. split; [done|]. unfold pending_row.
  destruct (N.eqb_spec (rr_ID r) id), (decide (rr_Status r = "pending"%string)) as [He|He];
    rewrite ?bool_decide_true, ?bool_decide_false by done; cbn; repeat split; tauto || done.
Qed.

Lemma consumed_ok id now t : grants_ok t -> grants_ok (consumed id now t).
Proof.
  intros [Hk Hr Hc Ho Hf]. split; [done| | |done|].
  - intros k r' (r & Hkr & -> & _)%consumed_row. by apply Hr.
  - intros k1 r1 k2 r2 (r1' & H1 & _ & E1 & _)%consumed_row (r2' & H2 & _ & E2 & _)%consumed_row He.
    apply (Hc _ r1' _ r2'); congruence.
  - intros i0 i Hi Hty. destruct (Hf i0 i Hi Hty) as (k & r & Hkr & E1 & E2 & E3).
    destruct (consumed_kept id now t k r Hkr) as (r' & Hk' & F1 & F2 & F3).
    exists k, r'. rewrite F1, F2. by eauto 10.
Qed.

Lemma code_ok ref now t : grants_ok t -> referral_check ref t = None ->
  grants_ok (set_referrals <[rf_ID ref := referral_row ref now]> t).
Proof.
  intros [Hk Hr Hc Ho Hf] Hch. unfold referral_check in Hch.
  destruct (_ || _) eqn:E; [done|]. go_bool. clear Hch.
  assert (it_referrals t !! rf_ID ref = None) as Hnew by by apply eq_None_not_Some.
  assert (forall k r, it_referrals t !! k = Some r -> rr_ReferralCode r <> rf_ReferralCode ref) as Hcode.
  { intros k r Hkr He. apply not_true_iff_false in H0. apply H0, existsb_exists. exists r.
    rewrite bool_decide_true by done. split; [|done]. apply list_elem_of_In, list_elem_of_fmap.
    exists (k, r). by rewrite elem_of_map_to_list. }
  split; cbn; [done| | |done|].
  - by apply map_Forall_insert_2.
  - intros k1 r1 k2 r2 [[<- <-]|[_ H1]]%lookup_insert_Some [[<- <-]|[_ H2]]%lookup_insert_Some He;
      [done|by destruct (Hcode _ _ H2)|by destruct (Hcode _ _ H1)|by apply (Hc _ r1 _ r2)].
  - intros id i Hi Hty. destruct (Hf id i Hi Hty) as (k & r & Hkr & Hrest). exists k, r.
    rewrite lookup_insert_ne by congruence. by split.
Qed.
(** A key that a new grant may not repeat is not stored. *)
Lemma unrepeated_key inc t : in_Type inc <> IncentiveTypeReferral -> unrepeated inc t ->
  forall id i, it_incentives t !! id = Some i -> is_Some (grant_key i) -> grant_key i <> grant_key inc.
Proof.
  intros Hr [Hd Hc] id i Hi [key Hs] He. rewrite Hs in He. unfold grant_key in Hs, He.
  repeat case_decide; simplify_eq; first [by eapply Hd|by eapply Hc|congruence].
Qed.

Lemma claim_ok i id now t : grants_ok t -> it_incentives t !! id = Some i ->
  grants_ok (set_incentives (alter (with_status IncentiveStatusClaimed now) id) t).
Proof.
  intros [Hk Hr Hc Ho Hf] Hi.
  set (t' := set_incentives (alter (with_status IncentiveStatusClaimed now) id) t).
  assert (forall k i', it_incentives t' !! k = Some i' -> exists i0, it_incentives t !! k = Some i0 /\ in_ID i' = in_ID i0 /\
      grant_key i' = grant_key i0 /\ in_Type i' = in_Type i0 /\ in_UserID i' = in_UserID i0 /\
      in_ReferenceID i' = in_ReferenceID i0) as Hback.
  { intros k i'. cbn. rewrite lookup_alter. case_decide; [subst|by eauto 10].
    intros (i0 & H0 & ->)%fmap_Some. by exists i0. }
  split; [|done|done| |].
  - intros k i' (i0 & H0 & -> & _)%Hback. by apply Hk.
  - intros k1 i1 k2 i2 (j1 & H1 & _ & E1 & _)%Hback (j2 & H2 & _ & E2 & _)%Hback Hs He.
    rewrite E1, E2 in *. by apply (Ho _ j1 _ j2).
  - intros k i' (i0 & H0 & _ & _ & -> & -> & ->)%Hback Hty. by apply (Hf k).
Qed.

Lemma step_ok u now t t' : inc_step True u now t t' -> grants_ok t -> grants_ok t'.
Proof.
  intros Hs Hok. destruct Hs as [t' Ei Er|ref Hch|id|k r inc Hk Hp Hty Hu Href Hst Hself Hch
    |inc Hch Hst Hu Hty Hn|id i Hi Hu Hst He].
  - destruct Hok. by split; rewrite ?Ei, ?Er.
  - by apply code_ok.
  - by apply consumed_ok.
  - apply granted_ok; [by apply consumed_ok|done| |].
    + intros id i Hi [key Hkey] He. rewrite Hkey in He. unfold grant_key in He, Hkey.
      rewrite Hty in He. cbn in He. repeat case_decide; simplify_eq.
      destruct (go_referred t Hok id i Hi) as (k' & r' & Hk' & Er & _ & Hnp); [done|].
      assert (k' = k) as -> by (apply (go_codes t Hok _ r' _ r); congruence). congruence.
    + intros _. destruct (consumed_kept (rr_ID r) now t k r Hk) as (r' & Hk' & E1 & E2 & E3).
      exists k, r'. rewrite E1, E2. by eauto 10.
  - apply granted_ok; [done..| |by intros]. by apply unrepeated_key; [|apply Hn].
  - by apply (claim_ok i).
Qed.

(** ** Calls without faults *)
Definition stored_config (t : itables) : IncentiveConfig :=
  match head (it_configs t) with Some c => scanned_config c | None => fallback_config end.
Lemma config_clean `{IncentiveStore} t : config_ (connection t) = (Ok (stored_config t), connection t).
Proof.
  unfold stored_config, config_, gbind, gwrap. cbn. unfold pg_GetConfig, pg_row, gtry, gbind. cbn.
  by destruct (head (it_configs t)).
Qed.

(** ** Sequences of calls *)
Section sequences.
Context `{IncentiveStore, UUIDLib, MetadataJSON, GoFloatConv, !IncentiveStoreLaws}.
Abbreviation World := (PgState itables).

Fixpoint run_icalls (calls : list (time * icall)) (w : World) : World :=
  match calls with
  | [] => w
  | (now, k) :: calls => run_icalls calls (run_icall now k w).2
  end.

Lemma run_icall_step now k w :
  inc_step (icanonical k) (icaller k) now (pg_tables w) (pg_tables (run_icall now k w).2).
Proof.
  destruct (run_icall now k w) as [r w'] eqn:E. by apply (wp_run _ _ _ _ _ (run_icall_stepped now k w)) in E as [].
Qed.

(** C31: After any sequence of calls that name circles by their canonical text, and
    whatever statements fail on the way, no two stored incentives are the same
    grant: one first deposit bonus per user, one reward per user and circle, one
    bonus per referral code, paid to the referrer of a code that was used. *)
Theorem grants_once calls w :
  Forall (λ c, icanonical c.2) calls -> grants_ok (pg_tables w) ->
  grants_ok (pg_tables (run_icalls calls w)).
Proof.
  revert w. induction calls as [|[now k] calls IH]; [done|].
  intros w [Hc Hcs]%Forall_cons Hok. apply IH; [done|]. eapply step_ok; [|exact Hok].
  pose proof (run_icall_step now k w) as Hs. cbn in Hc.
  destruct Hs; [by constructor..|by eapply is_apply|apply is_grant; auto|by eapply is_claim].
Qed.

(** What one call makes of a stored incentive. *)
Definition claimed_by (u : uuid) (now : time) (i i' : Incentive) : Prop :=
  in_UserID i = u /\ in_Status i <> IncentiveStatusClaimed /\ expired now i = false /\
  i' = with_status IncentiveStatusClaimed now i.
Lemma step_life strict u now t t' id i :
  inc_step strict u now t t' -> it_incentives t !! id = Some i ->
  exists i', it_incentives t' !! id = Some i' /\ (i' = i \/ claimed_by u now i i').
Proof.
  intros Hs Hi. destruct Hs as [t' Ei Er|ref Hch|id0|k r inc Hk Hp Hty Hu Href Hst Hself Hch
    |inc Hch Hst Hu Hty Hn|id0 i0 Hi0 Hu Hst He]; cbn.
  - rewrite Ei. by eauto.
  - by eauto.
  - by eauto.
  - apply check_fresh in Hch. rewrite lookup_insert_ne by congruence. by eauto.
  - apply check_fresh in Hch. rewrite lookup_insert_ne by congruence. by eauto.
  - rewrite lookup_alter. case_decide; [|by eauto]. subst id0. rewrite Hi. cbn. eexists. split; [done|].
    right. simplify_eq. by split.
Qed.

(** A stored incentive is never removed, and its row changes at most once: when
    its owner claims it while it is neither claimed nor expired. *)
Theorem incentive_life calls w id i :
  it_incentives (pg_tables w) !! id = Some i ->
  exists i', it_incentives (pg_tables (run_icalls calls w)) !! id = Some i' /\
    (i' = i \/ exists now k, (now, k) ∈ calls /\ claimed_by (icaller k) now i i').
Proof.
  revert w i. induction calls as [|[now k] calls IH]; intros w i Hi; [by eauto|].
  destruct (step_life _ _ _ _ _ id i (run_icall_step now k w) Hi) as (i1 & Hi1 & Hc1).
  destruct (IH _ i1 Hi1) as (i2 & Hi2 & Hc2). exists i2. split; [done|].
  destruct Hc1 as [->|Hc1].
  - destruct Hc2 as [->|(now' & k' & Hin & Hc2)]; [by left|right]. exists now', k'. split; [by right|done].
  - destruct Hc2 as [->|(now' & k' & Hin & _ & Hc2 & _)].
    + right. exists now, k. split; [by left|done].
    + destruct Hc1 as (_ & _ & _ & ->). by destruct Hc2.
Qed.
(** A code that is returned was drawn and stored by this call. *)
Lemma attempts_code now uid draw userID n attempt lastErr w :
  uuid_Parse userID = Some uid ->
  wp (code_attempts now uid draw n attempt lastErr) w (λ r w',
    match r with
    | Ok c => exists n b uid, (draw n).1 = inl b /\ c = hex_EncodeToString b /\
        uuid_Parse userID = Some uid /\
        let ref := new_referral now (draw n).2 uid c in
        referral_check ref (pg_tables w) = None /\
        pg_tables w' = set_referrals <[rf_ID ref := referral_row ref now]> (pg_tables w)
    | Err _ => pg_tables w' = pg_tables w
    | Panic => False
    end).
Proof.
  intros Huid. revert attempt lastErr w. induction n as [|n IH]; intros attempt lastErr w; cbn [code_attempts].
  { by apply wp_fail. }
  apply wp_bind, wp_lift. destruct (draw attempt).1 as [b|e] eqn:Hd; cbn; [|done].
  apply wp_try, wp_pg_insert; [intros w1 Hc E1|intros code w1 E1].
  - apply wp_ret. exists attempt, b, uid. by rewrite E1.
  - case_match; [rewrite <-E1; apply IH|by apply wp_fail].
Qed.

(** ** What the driver breaks *)

(** The queries of a referral name a column that no field carries.  With [sqlx] as
    it comes, no code is ever redeemed, and a user who asks for a code again is
    given another one each time. *)
Theorem referral_codes_unusable now new userID code draw w :
  sqlx_unsafe = false ->
  wp (ApplyReferralCode now new userID code) w
    (λ r w', (exists e, r = Err e) /\ pg_tables w' = pg_tables w) /\
  wp (GenerateReferralCode now draw userID) w (λ r w',
    match r with
    | Ok c => exists n b uid, (draw n).1 = inl b /\ c = hex_EncodeToString b /\
        uuid_Parse userID = Some uid /\
        let ref := new_referral now (draw n).2 uid c in
        referral_check ref (pg_tables w) = None /\
        pg_tables w' = set_referrals <[rf_ID ref := referral_row ref now]> (pg_tables w)
    | Err _ => pg_tables w' = pg_tables w
    | Panic => False
    end).
Proof.
  intros Hu. split.
  - unfold ApplyReferralCode. apply wp_bind, wp_incentive_parse; [intros uid _|by eauto].
    apply wp_try, wp_FindByReferredID. intros existing w1 Hp E1. rewrite <-E1.
    assert (wp (redeem now new uid code) w1 (λ r w', (exists e, r = Err e) /\ pg_tables w' = pg_tables w1)).
    { apply wp_bind, wp_wrap, wp_FindByReferralCode; [intros k r w2 _ _ Hu'; congruence|cbn; by eauto]. }
    destruct existing as [[]| |]; [by apply wp_fail; eauto|done..].
  - unfold GenerateReferralCode. apply wp_bind, wp_incentive_parse; [intros uid Huid|by intros].
    apply wp_try. change (FindByReferrerID uid) with (pg_FindByReferrerID uid).
    unfold pg_FindByReferrerID, sqlx_columns. apply wp_bind, wp_pg_select; [intros w1 E1|intros code' w1 E1].
    + rewrite Hu. apply wp_fail. rewrite <-E1. by apply attempts_code.
    + rewrite <-E1. by apply attempts_code.
Qed.

Lemma ensure_clean uid typ conflict msg t :
  (forall id i, it_incentives t !! id = Some i -> in_UserID i = uid -> in_Type i = typ ->
     default (λ _, true) conflict i = false) ->
  ensureNoIncentive uid typ conflict msg (connection t) = (Ok tt, connection t).
Proof.
  intros Hnone. unfold ensureNoIncentive, gbind, gwrap, gguard. cbn.
  destruct (existsb _ _) eqn:E; [|done]. apply existsb_exists in E as (i & Hi & Hc).
  apply list_elem_of_In, list_elem_of_filter in Hi as [Hp Hi]. rewrite incentive_scan_rows in Hi.
  apply list_elem_of_fmap in Hi as ([id i'] & -> & Hi). apply elem_of_map_to_list in Hi. cbn in *.
  apply Is_true_true in Hp. unfold of_user in Hp. go_bool. by rewrite (Hnone id i') in Hc.
Qed.
Lemma free_clean uid t :
  (forall id i, it_incentives t !! id = Some i -> in_UserID i = uid ->
     in_Type i <> IncentiveTypeFirstDeposit) ->
  first_deposit_free uid (connection t) = (Ok tt, connection t).
Proof. intros Hnone. apply ensure_clean. intros id i Hi Hu Ht. by destruct (Hnone id i). Qed.

Lemma reward_clean now id userID circleID uid cid t :
  uuid_Parse userID = Some uid -> uuid_Parse circleID = Some cid ->
  (forall k i, it_incentives t !! k = Some i -> in_UserID i = uid ->
     in_ReferenceID i <> Some circleID) ->
  it_incentives t !! id = None ->
  exists inc, GrantCircleCompletionReward now id userID circleID (connection t) =
      (Ok inc, connection (granted inc now t)) /\ in_ID inc = id /\ in_UserID inc = uid /\
    in_Type inc = IncentiveTypeCircleCompletion /\ in_ReferenceID inc = Some (uuid_String cid).
Proof.
  intros Hu Hc Hnone Hid.
  exists (pending_incentive id uid IncentiveTypeCircleCompletion (ic_CircleCompletionBonus (stored_config t))
    (ic_CircleCompletionCurrency (stored_config t)) None (Some (uuid_String cid)) now).
  split; [|by split_and!].
  unfold GrantCircleCompletionReward, parseUUID. rewrite Hu, Hc.
  change (gbind (glift (Ok uid)) ?k ?w) with (k uid w). cbv beta.
  change (gbind (glift (Ok cid)) ?k ?w) with (k cid w). cbv beta.
  unfold gbind at 1. rewrite ensure_clean.
  - unfold gbind at 1. rewrite config_clean. unfold gbind, gwrap, CreateIncentive. cbn.
    unfold pg_CreateIncentive, pg_insert, pg_exec, incentive_check. cbn. by rewrite Hid.
  - intros k i Hk Huk _. cbn. unfold rewarded. by rewrite bool_decide_false by (by eapply Hnone).
Qed.

Lemma first_grant_clean now id uid x t :
  it_incentives t !! id = None -> f64_lt x f64_zero = false ->
  first_deposit_grant now id uid x (connection t) =
    let inc := pending_incentive id uid IncentiveTypeFirstDeposit
      (ic_FirstDepositBonus (stored_config t)) (ic_FirstDepositCurrency (stored_config t)) None None now in
    (Ok inc, connection (granted inc now t)).
Proof.
  intros Hid Hx. unfold first_deposit_grant. unfold gbind at 1. rewrite config_clean.
  assert (ic_FirstDepositMinAmount (stored_config t) = f64_zero) as ->.
  { unfold stored_config. by destruct (head _). }
  rewrite Hx. unfold gbind, gguard, gret, gwrap, CreateIncentive. cbn.
  unfold pg_CreateIncentive, pg_insert, pg_exec, incentive_check. cbn. by rewrite Hid.
Qed.

(** ** What two calls at a time break *)

(** The look for an earlier bonus and the insert are not one transaction: two
    requests for one first deposit that both look before either grants are both
    granted the bonus, whatever the deposit is. *)
Theorem first_deposit_race now a b uid x t :
  (forall id i, it_incentives t !! id = Some i -> in_UserID i = uid ->
     in_Type i <> IncentiveTypeFirstDeposit) ->
  it_incentives t !! a = None -> it_incentives t !! b = None -> a <> b ->
  f64_lt x f64_zero = false ->
  exists t' ia ib,
    (do! first_deposit_free uid in
     do! first_deposit_free uid in
     let! ga := first_deposit_grant now a uid x in
     let! gb := first_deposit_grant now b uid x in gret (ga, gb)) (connection t) =
      (Ok (ia, ib), connection t') /\
    it_incentives t' !! a = Some (incentive_row ia now) /\
    it_incentives t' !! b = Some (incentive_row ib now) /\
    grant_key ia = grant_key ib /\ grant_key ia = Some (Some uid, IncentiveTypeFirstDeposit, None).
Proof.
  intros Hnone Ha Hb Hab Hx. set (c := stored_config t).
  set (g id := pending_incentive id uid IncentiveTypeFirstDeposit (ic_FirstDepositBonus c)
    (ic_FirstDepositCurrency c) None None now).
  exists (granted (g b) now (granted (g a) now t)), (g a), (g b).
  unfold gbind. rewrite !free_clean by done. cbv beta iota.
  rewrite first_grant_clean by done. cbv beta iota zeta.
  rewrite first_grant_clean; [|by cbn; rewrite lookup_insert_ne|done]. cbv beta iota zeta.
  split; [done|]. cbn. rewrite lookup_insert_ne, !lookup_insert_eq by done. done.
Qed.
(** The reward of a circle is stored under the text the library prints for its
    identifier and looked for under the text of the request: a user who spells the
    identifier differently is rewarded twice for one circle. *)
Theorem completion_granted_twice now a b userID circleID uid cid t :
  uuid_Parse userID = Some uid -> uuid_Parse circleID = Some cid -> uuid_String cid <> circleID ->
  (forall k i, it_incentives t !! k = Some i -> in_UserID i = uid ->
     in_ReferenceID i <> Some circleID) ->
  it_incentives t !! a = None -> it_incentives t !! b = None -> a <> b ->
  exists ia ib t',
    (let! ga := GrantCircleCompletionReward now a userID circleID in
     let! gb := GrantCircleCompletionReward now b userID circleID in gret (ga, gb)) (connection t) =
      (Ok (ia, ib), connection t') /\
    it_incentives t' !! a = Some (incentive_row ia now) /\
    it_incentives t' !! b = Some (incentive_row ib now) /\
    is_Some (grant_key ia) /\ grant_key ia = grant_key ib.
Proof.
  intros Hu Hc Hne Hnone Ha Hb Hab.
  destruct (reward_clean now a userID circleID uid cid t) as (ia & Ea & Ia & Ua & Ta & Ra); try done.
  destruct (reward_clean now b userID circleID uid cid (granted ia now t)) as (ib & Eb & Ib & Ub & Tb & Rb);
    try done.
  { cbn. intros k i [[<- <-]|[_ Hk]]%lookup_insert_Some; [|by apply (Hnone k i)].
    intros _. cbn. rewrite Ra. congruence. }
  { cbn. rewrite lookup_insert_ne by congruence. done. }
  exists ia, ib, (granted ib now (granted ia now t)). unfold gbind. rewrite Ea, Eb. split; [done|]. cbn.
  rewrite Ia, Ib, lookup_insert_ne, !lookup_insert_eq by done. unfold grant_key.
  rewrite Ta, Tb, Ua, Ub, Ra, Rb. cbn. by split_and!.
Qed.
End sequences.
End incentivesinv.
