(* ===== verification/IncentivesStreak.v ===== *)
(** The savings streaks: on a database without faults the stored streak of a user
    is the run of contributions that ends with the last one and the longest run so
    far, of contributions at most seven days apart. *)
From S2P Require Export IncentivesInv.
From stdpp Require Import options.
From Stdlib Require Import Strings.Byte.
#[local] Set Default Proof Using "Type*".
Open Scope Z_scope.
Local Open Scope go_scope.

Module incentivesstreak.
Import incentives incentivespg incentivesprops incentivesinv.

(** ** Runs of contributions

    The times of the contributions come with the last one first.  A list is
    linked when no contribution came more than the window after the one before. *)
Definition linked (ts : list time) : Prop :=
  forall i t u, ts !! i = Some t -> ts !! S i = Some u -> time_Sub t u <= streakWindow.

Definition last_run (n : nat) (ts : list time) : Prop :=
  (0 < n <= length ts)%nat /\ linked (take n ts) /\
  ((n < length ts)%nat -> ~ linked (take (S n) ts)).
Definition longest_run (n : nat) (ts : list time) : Prop :=
  (exists a run b, ts = a ++ run ++ b /\ linked run /\ length run = n) /\
  (forall a run b, ts = a ++ run ++ b -> linked run -> (length run <= n)%nat).

Fixpoint count_last (ts : list time) : nat :=
  match ts with
  | [] => 0
  | t :: (u :: _) as rest => if time_Sub t u <=? streakWindow then S (count_last rest) else 1
  | [_] => 1
  end.
Fixpoint count_longest (ts : list time) : nat :=
  match ts with
  | [] => 0
  | _ :: rest => Nat.max (count_last ts) (count_longest rest)
  end.

Lemma linked_nil : linked [].
Proof. intros i t u. by rewrite lookup_nil. Qed.
Lemma linked_cons t u ts : linked (t :: u :: ts) <-> time_Sub t u <= streakWindow /\ linked (u :: ts).
Proof.
  split.
  - intros Hl. split; [by apply (Hl 0%nat)|]. intros i a b Ha Hb. by apply (Hl (S i)).
  - intros [Hg Hl] [|i] a b Ha Hb; cbn in *; simplify_eq; [done|]. by apply (Hl i).
Qed.
Lemma linked_one t : linked [t].
Proof. intros [|i] a b Ha Hb; cbn in *; by simplify_eq. Qed.
Lemma linked_take n m ts : (n <= m)%nat -> linked (take m ts) -> linked (take n ts).
Proof.
  intros Hle Hl i a b Ha Hb. apply lookup_take_Some in Ha as [Ha ?], Hb as [Hb ?].
  apply (Hl i); apply lookup_take_Some; split; done || lia.
Qed.

Lemma count_last_bounds t ts : (1 <= count_last (t :: ts) <= length (t :: ts))%nat.
Proof.
  revert t. induction ts as [|u ts IH]; intros t; [cbn; lia|].
  specialize (IH u). change (count_last (t :: u :: ts)) with
    (if time_Sub t u <=? streakWindow then S (count_last (u :: ts)) else 1%nat).
  cbn [length] in *. case_match; lia.
Qed.

(** A linked prefix is as long as the last run at most. *)
Lemma count_last_linked ts n : (n <= length ts)%nat ->
  linked (take n ts) <-> (n <= count_last ts)%nat.
Proof.
  revert n. induction ts as [|t [|u ts] IH]; intros n Hn; cbn [length] in *.
  - replace n with 0%nat by lia. split; [done|]. intros _. apply linked_nil.
  - destruct n as [|[|n]]; [|cbn|lia]; split; try (intros; lia); intros _; [apply linked_nil|apply linked_one].
  - change (count_last (t :: u :: ts)) with
      (if time_Sub t u <=? streakWindow then S (count_last (u :: ts)) else 1%nat).
    destruct n as [|[|n]].
    { split; [lia|]. intros _. apply linked_nil. }
    { pose proof (count_last_bounds u ts). cbn. split; [case_match; lia|]. intros _. apply linked_one. }
    cbn [take]. rewrite linked_cons. change (u :: take n ts) with (take (S n) (u :: ts)).
    rewrite IH by (cbn; lia). destruct (Z.leb_spec (time_Sub t u) streakWindow); split; intros; [lia|split; lia|lia|lia].
Qed.

Lemma count_last_spec ts : ts <> [] -> last_run (count_last ts) ts.
Proof.
  intros Hne. destruct ts as [|t ts]; [done|]. pose proof (count_last_bounds t ts).
  split; [lia|]. split; [by apply count_last_linked; lia|].
  intros Hlt Hl. apply count_last_linked in Hl; lia.
Qed.

Lemma count_longest_spec ts : longest_run (count_longest ts) ts.
Proof.
  induction ts as [|t ts [(a & run & b & Hts & Hl & Hn) Hmax]].
  { split; [by exists [], [], []; split_and!; [|apply linked_nil|]|].
    intros a run b Hts _. symmetry in Hts. apply app_nil in Hts as [_ [-> _]%app_nil]. done. }
  assert (linked (take (count_last (t :: ts)) (t :: ts))) as Hlast.
  { apply count_last_linked; [apply count_last_bounds|done]. }
  pose proof (count_last_bounds t ts). change (count_longest (t :: ts)) with
    (Nat.max (count_last (t :: ts)) (count_longest ts)). split.
  - destruct (Nat.max_spec (count_last (t :: ts)) (count_longest ts)) as [[_ ->]|[_ ->]].
    + exists (t :: a), run, b. split_and!; [by rewrite Hts at 1|done..].
    + exists [], (take (count_last (t :: ts)) (t :: ts)), (drop (count_last (t :: ts)) (t :: ts)).
      rewrite length_take, (take_drop _ (t :: ts)). split_and!; [done..|lia].
  - intros [|x a'] run' b' Hts' Hl'; cbn in Hts'.
    + assert (length run' <= length (t :: ts))%nat by (rewrite Hts', length_app; lia).
      assert (linked (take (length run') (t :: ts))) as Hp by by rewrite Hts', take_app_length.
      apply count_last_linked in Hp; lia.
    + injection Hts' as -> Hts'. pose proof (Hmax _ _ _ Hts' Hl'). lia.
Qed.
(** ** Sequences of contributions of one user *)
Section contributions.
Context `{IncentiveStore, UUIDLib, MetadataJSON, GoFloatConv}.
Abbreviation World := (PgState itables).

Fixpoint contributions (userID : string) (times : list (time * uuid)) (w : World) : World :=
  match times with
  | [] => w
  | (now, new) :: times => contributions userID times (RecordContribution now new userID w).2
  end.

(** The row of a user whose contributions came at the times [ts]. *)
Definition streak_at (t : itables) (ts : list time) (s : SavingsStreak) : Prop :=
  ss_CurrentStreak s = Z.of_nat (count_last ts) /\ ss_LongestStreak s = Z.of_nat (count_longest ts) /\
  ss_LastContributionAt s = head ts /\
  ss_BonusTier s = if decide (length ts = 1%nat) then 1 else tier_of (stored_config t) (ss_CurrentStreak s).

Lemma find_clean uid t : FindStreakByUserID uid (connection t) =
  (match it_streaks t !! uid with Some s => Ok (Some (scanned_streak s)) | None => Err ErrIncentiveNotFound end,
   connection t).
Proof.
  unfold FindStreakByUserID; cbn. unfold pg_FindStreakByUserID, streak_query, pg_row, gtry, gbind. cbn.
  by destruct (it_streaks t !! uid).
Qed.
Lemma create_clean s now t : streak_check s t = None ->
  CreateSavingsStreak s now (connection t) =
    (Ok tt, connection (set_streaks <[ss_UserID s := streak_row now s]> t)).
Proof.
  intros Hc. unfold CreateSavingsStreak; cbn. unfold pg_CreateSavingsStreak, pg_insert, pg_exec. cbn.
  by rewrite Hc.
Qed.
Lemma update_clean s now t : streak_columns s = true ->
  UpdateSavingsStreak s now (connection t) =
    (Ok tt, connection (set_streaks (alter (counted_streak s (Some now)) (ss_UserID s)) t)).
Proof.
  intros Hc. unfold UpdateSavingsStreak; cbn. unfold pg_UpdateSavingsStreak, pg_exec. cbn. by rewrite Hc.
Qed.

Lemma first_contribution now new userID uid t :
  uuid_Parse userID = Some uid -> it_streaks t !! uid = None ->
  streak_id_used (first_streak now new uid) t = false ->
  exists s, RecordContribution now new userID (connection t) =
      (Ok (first_streak now new uid), connection (set_streaks <[uid := s]> t)) /\
    ss_UserID s = uid /\ streak_at t [now] s.
Proof.
  intros Hu Hn Hid. exists (streak_row now (first_streak now new uid)). split; [|by split_and!].
  unfold RecordContribution, parseUUID. rewrite Hu.
  change (gbind (glift (Ok uid)) ?k ?w) with (k uid w). unfold gbind at 1. rewrite config_clean.
  unfold gtry. rewrite find_clean, Hn. rewrite decide_True by done.
  unfold gbind, gwrap. rewrite create_clean; [done|]. unfold streak_check. by rewrite Hid; cbn; rewrite Hn.
Qed.

Lemma count_last_step now ts t : head ts = Some t ->
  count_last (now :: ts) = if time_Sub now t <=? streakWindow then S (count_last ts) else 1%nat.
Proof. by destruct ts as [|u ts]; intros [= ->]. Qed.
Lemma count_last_longest ts : (count_last ts <= count_longest ts)%nat.
Proof. destruct ts; cbn [count_longest]; [done|lia]. Qed.

(** One more contribution of a user whose streak is stored. *)
Lemma next_contribution now new userID uid t ts s :
  uuid_Parse userID = Some uid -> it_streaks t !! uid = Some s -> ss_UserID s = uid ->
  streak_at t ts s -> (ts <> []) -> Z.of_nat (length ts) < 2147483647 ->
  exists s' r, RecordContribution now new userID (connection t) =
      (Ok r, connection (set_streaks <[uid := s']> t)) /\
    ss_UserID s' = uid /\ streak_at t (now :: ts) s'.
Proof.
  intros Hu Hs Hid (Hc & Hl & Hlast & Ht) Hne Hlen.
  assert (exists u, head ts = Some u) as [u Hh] by (destruct ts; [done|by eexists]).
  set (r := extend_streak (stored_config t) now (scanned_streak s)).
  assert (1 <= count_last ts <= length ts)%nat as Hb.
  { destruct ts as [|v ts]; [done|]. apply count_last_bounds. }
  assert (count_longest ts <= length ts)%nat as Hb2.
  { destruct (count_longest_spec ts) as [(a & run & b & E & _ & <-) _]. rewrite E, !length_app. lia. }
  pose proof (count_last_longest ts).
  assert (ss_CurrentStreak r = Z.of_nat (count_last (now :: ts))) as Hrc.
  { change (ss_CurrentStreak r) with
      (if continues now (ss_LastContributionAt s) then wrap64 (ss_CurrentStreak s + 1) else 1).
    rewrite Hlast, Hh, Hc, (count_last_step now ts u) by done. unfold continues.
    destruct (_ <=? _); [|done]. rewrite wrap64_id; [lia|]. apply in_int64_spec.
    unfold int64_min, int64_max. lia. }
  assert (ss_LongestStreak r = Z.of_nat (count_longest (now :: ts))) as Hrl.
  { change (count_longest (now :: ts)) with (Nat.max (count_last (now :: ts)) (count_longest ts)).
    change (ss_LongestStreak r) with
      (if continues now (ss_LastContributionAt s) && (ss_LongestStreak s <? ss_CurrentStreak r)
       then ss_CurrentStreak r else ss_LongestStreak s).
    rewrite Hrc, Hl, Hlast, Hh, (count_last_step now ts u) by done. unfold continues.
    destruct (time_Sub now u <=? streakWindow); cbn [andb]; [|lia].
    destruct (Z.ltb_spec (Z.of_nat (count_longest ts)) (Z.of_nat (S (count_last ts)))); lia. }
  assert (ss_BonusTier r = tier_of (stored_config t) (ss_CurrentStreak r)) as Hrt by done.
  assert (count_last (now :: ts) <= S (length ts))%nat as Hb3 by (apply (count_last_bounds now ts)).
  assert (count_longest (now :: ts) <= S (length ts))%nat as Hb4.
  { change (count_longest (now :: ts)) with (Nat.max (count_last (now :: ts)) (count_longest ts)). lia. }
  exists (counted_streak r (Some now) s), r. split; [|split; [done|]].
  - unfold RecordContribution, parseUUID. rewrite Hu.
    change (gbind (glift (Ok uid)) ?k ?w) with (k uid w). unfold gbind at 1. rewrite config_clean.
    unfold gtry. rewrite find_clean, Hs. unfold gbind, gwrap, deref, gret. fold r.
    rewrite update_clean.
    + cbn. rewrite Hid. unfold set_streaks. by rewrite (alter_insert_row _ _ uid s).
    + unfold streak_columns, in_int4. rewrite Hrc, Hrl, Hrt. unfold tier_of.
      rewrite !andb_true_iff, !Z.leb_le. repeat case_match; lia.
  - split_and!; [exact Hrc|exact Hrl|done|]. cbn [counted_streak ss_BonusTier ss_CurrentStreak].
    rewrite decide_False; [done|]. cbn. destruct ts; [done|]. cbn. lia.
Qed.

Lemma more_contributions userID uid times t ts s :
  uuid_Parse userID = Some uid -> it_streaks t !! uid = Some s -> ss_UserID s = uid ->
  streak_at t ts s -> ts <> [] -> Z.of_nat (length ts + length times) <= 2147483647 ->
  exists s', it_streaks (pg_tables (contributions userID times (connection t))) !! uid = Some s' /\
    streak_at t (rev times.*1 ++ ts) s'.
Proof.
  intros Hu. revert t ts s. induction times as [|[now new] times IH]; intros t ts s Hs Hid Hat Hne Hlen.
  { by exists s. }
  destruct (next_contribution now new userID uid t ts s) as (s' & r & E & Hid' & Hat'); try done.
  { cbn in Hlen. lia. }
  cbn [contributions]. rewrite E.
  destruct (IH (set_streaks <[uid := s']> t) (now :: ts) s') as (s2 & Hs2 & Hat2); try done.
  { cbn. by rewrite lookup_insert_eq. }
  { cbn in *. lia. }
  exists s2. split; [done|]. cbn. by rewrite <-app_assoc.
Qed.

(** C32: After any contributions of a user who had no streak, on a database without
    faults, the stored streak is the run that ends with the last contribution and
    the longest run of them all, where two contributions follow each other in a
    run when they are at most seven days apart; the tier is the one of the
    configuration, but for the first contribution. *)
Theorem streak_counts_contributions userID uid first new times t :
  uuid_Parse userID = Some uid -> it_streaks t !! uid = None ->
  streak_id_used (first_streak first new uid) t = false ->
  Z.of_nat (length times) < 2147483647 ->
  let ts := rev (first :: times.*1) in
  exists s current longest,
    it_streaks (pg_tables (contributions userID ((first, new) :: times) (connection t))) !! uid = Some s /\
    ss_CurrentStreak s = Z.of_nat current /\ last_run current ts /\
    ss_LongestStreak s = Z.of_nat longest /\ longest_run longest ts /\
    ss_LastContributionAt s = head ts /\
    (times <> [] -> ss_BonusTier s = tier_of (stored_config t) (Z.of_nat current)).
Proof.
  intros Hu Hn Hid Hlen ts.
  destruct (first_contribution first new userID uid t Hu Hn Hid) as (s0 & E & Hid0 & Hat0).
  cbn [contributions]. rewrite E. cbn [snd].
  destruct (more_contributions userID uid times (set_streaks <[uid := s0]> t) [first] s0)
    as (s & Hs & Hc & Hl & Hlast & Ht); try done.
  { cbn. by rewrite lookup_insert_eq. }
  { cbn [length]. lia. }
  change (rev times.*1 ++ [first]) with ts in Hc, Hl, Hlast, Ht.
  assert (length ts = S (length times)) as Hts by (unfold ts; by rewrite length_rev; cbn; rewrite length_fmap).
  exists s, (count_last ts), (count_longest ts). split_and!; try done.
  - apply count_last_spec. by intros ->.
  - apply count_longest_spec.
  - intros Hne. rewrite Ht, decide_False; [by rewrite Hc|]. destruct times; [done|]. cbn in *. lia.
Qed.
End contributions.
End incentivesstreak.

(** * Runs of the incentives that meet the hypotheses of their theorems. *)
Module incentiveswitness.
Import incentives incentivespg incentivesprops incentivesinv incentivesstreak.

#[local] Existing Instance amd64_conv.
#[local] Instance demo_metadata : MetadataJSON := {| json_tier _ := None; json_streak _ _ _ := ""%string |}.

(** A store that refuses nothing, and the store as the libraries come. *)
Definition lenient : IncentiveStore :=
  {| sqlx_unsafe := true; mixed_parameters := true;
     incentive_scan m := (map_to_list m).*2; referral_scan m := (map_to_list m).*2 |}.
Definition strict_store : IncentiveStore :=
  {| sqlx_unsafe := false; mixed_parameters := false;
     incentive_scan m := (map_to_list m).*2; referral_scan m := (map_to_list m).*2 |}.

Definition no_incentives : itables :=
  {| it_referrals := ∅; it_incentives := ∅; it_streaks := ∅; it_configs := [] |}.
Lemma no_incentives_ok : grants_ok no_incentives.
Proof. split; done. Qed.

(** The user 1 is given the code of one byte; the user 2 redeems it and tries
    again; 1 deposits twice, is rewarded for the circle 4 and claims the bonus. *)
Definition demo_draws : draws := λ n, (inl ["255"%byte], N.of_nat (7 + n)).
Definition demo_incentive_calls : list (time * icall) :=
  [(10, ICode demo_draws "x"); (11, IApply 20%N "xx" "ff"); (12, IApply 21%N "xx" "ff");
   (13, IDeposit 22%N "x" (f64_of_Z 3)); (14, IDeposit 23%N "x" (f64_of_Z 3));
   (15, IReward 3%N "x" "xxxx"); (16, IClaim "x" "xxx"); (17, IClaim "x" "xxx")]%string.

Lemma demo_canonical : Forall (λ c, icanonical c.2) demo_incentive_calls.
Proof. repeat constructor. intros u Hu. injection Hu as <-. by vm_compute. Qed.

Section lenient_runs.
#[local] Existing Instance lenient.
#[local] Instance lenient_laws : IncentiveStoreLaws.
Proof. by split. Qed.

Lemma grants_once_witness :
  let w := run_icalls demo_incentive_calls (connection no_incentives) in
  size (it_incentives (pg_tables w)) = 3%nat /\ grants_ok (pg_tables w).
Proof.
  split; [by vm_compute|].
  apply (grants_once
    demo_incentive_calls (connection no_incentives) demo_canonical no_incentives_ok).
Defined.

Definition demo_claimable : PgState itables :=
  run_icalls (take 6 demo_incentive_calls) (connection no_incentives).
Definition demo_reward : Incentive :=
  {| in_ID := 3; in_UserID := 1; in_Type := IncentiveTypeCircleCompletion; in_Status := "pending";
     in_Amount := f64_of_Z 10; in_Currency := "USDC"; in_Metadata := None;
     in_ReferenceID := Some "xxxx"; in_ExpiresAt := None; in_ClaimedAt := None;
     in_CreatedAt := 15; in_UpdatedAt := 15 |}%N%string.

Lemma incentive_life_witness :
  it_incentives (pg_tables demo_claimable) !! 3%N = Some demo_reward /\
  exists i', it_incentives (pg_tables (run_icalls
      (drop 6 demo_incentive_calls) demo_claimable)) !! 3%N = Some i' /\
    (i' = demo_reward \/ exists now k, (now, k) ∈ drop 6 demo_incentive_calls /\
       claimed_by (icaller k) now demo_reward i').
Proof.
  split; [by vm_compute|].
  apply (incentive_life
    (drop 6 demo_incentive_calls) demo_claimable 3%N demo_reward). by vm_compute.
Defined.

End lenient_runs.

Section strict_runs.
#[local] Existing Instance strict_store.
#[local] Instance strict_laws : IncentiveStoreLaws.
Proof. by split. Qed.

(** A pending referral of the user 1. *)
Definition demo_referral : itables :=
  set_referrals <[7%N := {| rr_ID := 7; rr_ReferrerID := 1; rr_ReferredID := None; rr_ReferralCode := "ff";
    rr_Status := "pending"; rr_CompletedAt := None; rr_CreatedAt := 10; rr_UpdatedAt := 10 |}%N%string]>
    no_incentives.

Lemma referral_codes_unusable_witness :
  wp (ApplyReferralCode 11 20%N "xx" "ff"%string)
    (connection demo_referral)
    (λ r w', (exists e, r = Err e) /\ pg_tables w' = demo_referral).
Proof.
  apply (referral_codes_unusable
    11 20%N "xx" "ff" demo_draws (connection demo_referral)). done.
Defined.

Lemma first_deposit_race_witness : exists t' ia ib,
  gbind (first_deposit_free 1%N) (λ _,
    gbind (first_deposit_free 1%N) (λ _,
    gbind (first_deposit_grant 5 8%N 1%N f64_zero)
      (λ ga, gbind (first_deposit_grant 5 9%N 1%N
        f64_zero) (λ gb, gret (ga, gb))))) (connection no_incentives) = (Ok (ia, ib), connection t') /\
  it_incentives t' !! 8%N = Some (incentive_row ia 5) /\ it_incentives t' !! 9%N = Some (incentive_row ib 5) /\
  grant_key ia = grant_key ib /\ grant_key ia = Some (Some 1%N, IncentiveTypeFirstDeposit, None).
Proof.
  apply (first_deposit_race
    5 8%N 9%N 1%N f64_zero no_incentives); done.
Defined.

Definition day : duration := 24 * 3600 * second.
(** Four contributions: a gap of eight days starts a new run of two. *)
Definition demo_times : list (time * uuid) := [(6 * day, 1%N); (14 * day, 2%N); (20 * day, 3%N)].
Definition demo_ts : list time := rev (0 :: demo_times.*1).

Lemma streak_counts_contributions_witness :
  exists s current longest,
    it_streaks (pg_tables (contributions "x" ((0, 30%N) :: demo_times)
      (connection no_incentives))) !! 1%N = Some s /\
    ss_CurrentStreak s = Z.of_nat current /\ last_run current demo_ts /\
    ss_LongestStreak s = Z.of_nat longest /\ longest_run longest demo_ts /\
    ss_LastContributionAt s = head demo_ts /\
    (demo_times <> [] -> ss_BonusTier s = tier_of (stored_config no_incentives) (Z.of_nat current)).
Proof.
  apply (streak_counts_contributions "x" 1%N 0 30%N demo_times no_incentives);
    by vm_compute.
Defined.
End strict_runs.
End incentiveswitness.
