(* ===== verification/GovModel.v ===== *)
(** Data and pure rules of the governance package
    (src/internal/domain/governance: model.go, the predicates of service.go):
    proposals, reputation tiers, the tally rule, the timelock and the
    cancellation threshold. *)
From S2P Require Export Contract.
From stdpp Require Import options.
#[local] Set Default Proof Using "Type*".
Open Scope Z_scope.
Local Open Scope go_scope.

Module governance.

Inductive ProposalStatus :=
  | ProposalStatusPending | ProposalStatusPassed | ProposalStatusRejected
  | ProposalStatusExecuted | ProposalStatusCancelled | ProposalStatusOther (s : string).

#[export] Instance ProposalStatus_eq_dec : EqDecision ProposalStatus.
Proof. solve_decision. Defined.

(** A nil map and an empty map read alike: [WeightSnapshot] is a map. *)
Record Proposal := {
  g_ID : uuid;
  g_Title : string;
  g_Description : string;
  g_ProposalType : string;
  g_CreatorID : uuid;
  g_Status : ProposalStatus;
  g_ForVotes : Z;
  g_AgainstVotes : Z;
  g_ExecutedAt : option time;
  g_CreatedAt : time;
  g_UpdatedAt : time;
  g_WeightSnapshot : gmap uuid Z;
  g_ForWeight : Z;
  g_AgainstWeight : Z;
  g_SnapshotAt : option time;
  g_SnapshotTotalWeight : Z;
  g_ExecutableAt : option time;
  g_CancelledAt : option time;
  g_CancellationVotes : Z;
}.

(** Errors of the package. *)
Definition ErrProposalNotFound := Sentinel "proposal not found".
Definition ErrAlreadyVoted := Sentinel "user already voted on this proposal".
Definition ErrTimelockActive :=
  Sentinel "proposal is inside its execution timelock and cannot be executed yet".
Definition ErrNotCancellable := Sentinel "proposal is not in a cancellable state".
Definition ErrAlreadyCancelledVote := Sentinel "user already voted to cancel this proposal".

(** ** Weights *)
Definition DefaultTierFactor : Z := 100.

Definition TierWeightFactors (tier : string) : option Z :=
  if decide (tier = "Bronze") then Some 100
  else if decide (tier = "Silver") then Some 125
  else if decide (tier = "Gold") then Some 150
  else if decide (tier = "Platinum") then Some 175
  else if decide (tier = "Diamond") then Some 200
  else None.

(** [balance * factor / 100] on [int64]: the product wraps, the quotient
    truncates toward zero. *)
Definition ApplyTierFactor (balance : Z) (tier : string) : Z :=
  let factor := default DefaultTierFactor (TierWeightFactors tier) in
  if balance <? 0 then 0 else Z.quot (wrap64 (balance * factor)) 100.

(** ** Timelock *)
Record TimelockConfig := { Delay : duration; CancelThresholdPct : Z }.

Definition DefaultCancelThresholdPct : Z := 33.

Definition Normalize (c : TimelockConfig) : TimelockConfig :=
  if (CancelThresholdPct c <? 1) || (100 <? CancelThresholdPct c)
  then {| Delay := Delay c; CancelThresholdPct := DefaultCancelThresholdPct |}
  else c.

Definition CancellationThreshold (totalVotes pct : Z) : Z :=
  if totalVotes <=? 0 then 1
  else
    let threshold := Z.quot (wrap64 (wrap64 (totalVotes * pct) + 99)) 100 in
    if threshold <? 1 then 1 else threshold.

(** ** Decisions *)
Definition passed (p : Proposal) : bool :=
  match g_SnapshotAt p with
  | Some _ => g_AgainstWeight p <? g_ForWeight p
  | None => g_AgainstVotes p <? g_ForVotes p
  end.

(** The error of [cancellable], or [None] for nil. *)
Definition cancellable (p : Proposal) (now : time) : option error :=
  if decide (g_Status p <> ProposalStatusPassed) then Some ErrNotCancellable
  else match g_ExecutableAt p with
       | Some at_ => if negb (time_Before now at_) then Some ErrNotCancellable else None
       | None => None
       end.

(** ** Updates of a proposal *)
Definition set_status (s : ProposalStatus) (now : time) (p : Proposal) : Proposal :=
  {| g_ID := g_ID p; g_Title := g_Title p; g_Description := g_Description p;
     g_ProposalType := g_ProposalType p; g_CreatorID := g_CreatorID p; g_Status := s;
     g_ForVotes := g_ForVotes p; g_AgainstVotes := g_AgainstVotes p;
     g_ExecutedAt := g_ExecutedAt p; g_CreatedAt := g_CreatedAt p; g_UpdatedAt := now;
     g_WeightSnapshot := g_WeightSnapshot p; g_ForWeight := g_ForWeight p;
     g_AgainstWeight := g_AgainstWeight p; g_SnapshotAt := g_SnapshotAt p;
     g_SnapshotTotalWeight := g_SnapshotTotalWeight p; g_ExecutableAt := g_ExecutableAt p;
     g_CancelledAt := g_CancelledAt p; g_CancellationVotes := g_CancellationVotes p |}.

Definition set_executed (at_ now : time) (p : Proposal) : Proposal :=
  let q := set_status ProposalStatusExecuted now p in
  {| g_ID := g_ID q; g_Title := g_Title q; g_Description := g_Description q;
     g_ProposalType := g_ProposalType q; g_CreatorID := g_CreatorID q; g_Status := g_Status q;
     g_ForVotes := g_ForVotes q; g_AgainstVotes := g_AgainstVotes q;
     g_ExecutedAt := Some at_; g_CreatedAt := g_CreatedAt q; g_UpdatedAt := g_UpdatedAt q;
     g_WeightSnapshot := g_WeightSnapshot q; g_ForWeight := g_ForWeight q;
     g_AgainstWeight := g_AgainstWeight q; g_SnapshotAt := g_SnapshotAt q;
     g_SnapshotTotalWeight := g_SnapshotTotalWeight q; g_ExecutableAt := g_ExecutableAt q;
     g_CancelledAt := g_CancelledAt q; g_CancellationVotes := g_CancellationVotes q |}.

Definition set_passed (executableAt now : time) (p : Proposal) : Proposal :=
  let q := set_status ProposalStatusPassed now p in
  {| g_ID := g_ID q; g_Title := g_Title q; g_Description := g_Description q;
     g_ProposalType := g_ProposalType q; g_CreatorID := g_CreatorID q; g_Status := g_Status q;
     g_ForVotes := g_ForVotes q; g_AgainstVotes := g_AgainstVotes q;
     g_ExecutedAt := g_ExecutedAt q; g_CreatedAt := g_CreatedAt q; g_UpdatedAt := g_UpdatedAt q;
     g_WeightSnapshot := g_WeightSnapshot q; g_ForWeight := g_ForWeight q;
     g_AgainstWeight := g_AgainstWeight q; g_SnapshotAt := g_SnapshotAt q;
     g_SnapshotTotalWeight := g_SnapshotTotalWeight q; g_ExecutableAt := Some executableAt;
     g_CancelledAt := g_CancelledAt q; g_CancellationVotes := g_CancellationVotes q |}.

Definition set_cancelled (at_ now : time) (p : Proposal) : Proposal :=
  let q := set_status ProposalStatusCancelled now p in
  {| g_ID := g_ID q; g_Title := g_Title q; g_Description := g_Description q;
     g_ProposalType := g_ProposalType q; g_CreatorID := g_CreatorID q; g_Status := g_Status q;
     g_ForVotes := g_ForVotes q; g_AgainstVotes := g_AgainstVotes q;
     g_ExecutedAt := g_ExecutedAt q; g_CreatedAt := g_CreatedAt q; g_UpdatedAt := g_UpdatedAt q;
     g_WeightSnapshot := g_WeightSnapshot q; g_ForWeight := g_ForWeight q;
     g_AgainstWeight := g_AgainstWeight q; g_SnapshotAt := g_SnapshotAt q;
     g_SnapshotTotalWeight := g_SnapshotTotalWeight q; g_ExecutableAt := g_ExecutableAt q;
     g_CancelledAt := Some at_; g_CancellationVotes := g_CancellationVotes q |}.

(** [ForVotes++; ForWeight += weight], or the same against. *)
Definition count_vote (vote : bool) (weight : Z) (now : time) (p : Proposal) : Proposal :=
  {| g_ID := g_ID p; g_Title := g_Title p; g_Description := g_Description p;
     g_ProposalType := g_ProposalType p; g_CreatorID := g_CreatorID p; g_Status := g_Status p;
     g_ForVotes := if vote then wrap64 (g_ForVotes p + 1) else g_ForVotes p;
     g_AgainstVotes := if vote then g_AgainstVotes p else wrap64 (g_AgainstVotes p + 1);
     g_ExecutedAt := g_ExecutedAt p; g_CreatedAt := g_CreatedAt p; g_UpdatedAt := now;
     g_WeightSnapshot := g_WeightSnapshot p;
     g_ForWeight := if vote then wrap64 (g_ForWeight p + weight) else g_ForWeight p;
     g_AgainstWeight := if vote then g_AgainstWeight p else wrap64 (g_AgainstWeight p + weight);
     g_SnapshotAt := g_SnapshotAt p; g_SnapshotTotalWeight := g_SnapshotTotalWeight p;
     g_ExecutableAt := g_ExecutableAt p; g_CancelledAt := g_CancelledAt p;
     g_CancellationVotes := g_CancellationVotes p |}.

Definition set_cancellation_votes (n : Z) (p : Proposal) : Proposal :=
  {| g_ID := g_ID p; g_Title := g_Title p; g_Description := g_Description p;
     g_ProposalType := g_ProposalType p; g_CreatorID := g_CreatorID p; g_Status := g_Status p;
     g_ForVotes := g_ForVotes p; g_AgainstVotes := g_AgainstVotes p;
     g_ExecutedAt := g_ExecutedAt p; g_CreatedAt := g_CreatedAt p; g_UpdatedAt := g_UpdatedAt p;
     g_WeightSnapshot := g_WeightSnapshot p; g_ForWeight := g_ForWeight p;
     g_AgainstWeight := g_AgainstWeight p; g_SnapshotAt := g_SnapshotAt p;
     g_SnapshotTotalWeight := g_SnapshotTotalWeight p; g_ExecutableAt := g_ExecutableAt p;
     g_CancelledAt := g_CancelledAt p; g_CancellationVotes := n |}.

Definition set_snapshot (snapshot : gmap uuid Z) (p : Proposal) : Proposal :=
  {| g_ID := g_ID p; g_Title := g_Title p; g_Description := g_Description p;
     g_ProposalType := g_ProposalType p; g_CreatorID := g_CreatorID p; g_Status := g_Status p;
     g_ForVotes := g_ForVotes p; g_AgainstVotes := g_AgainstVotes p;
     g_ExecutedAt := g_ExecutedAt p; g_CreatedAt := g_CreatedAt p; g_UpdatedAt := g_UpdatedAt p;
     g_WeightSnapshot := snapshot; g_ForWeight := g_ForWeight p;
     g_AgainstWeight := g_AgainstWeight p; g_SnapshotAt := g_SnapshotAt p;
     g_SnapshotTotalWeight := g_SnapshotTotalWeight p; g_ExecutableAt := g_ExecutableAt p;
     g_CancelledAt := g_CancelledAt p; g_CancellationVotes := g_CancellationVotes p |}.

(** ** The rules *)

(** on balances a token supply can reach, the weight of a balance is the
    exact product with the tier's percentage, rounded down, and is between the
    balance and twice the balance for every known tier. *)
Theorem ApplyTierFactor_exact balance tier :
  0 <= balance <= 46116860184273879 ->
  ApplyTierFactor balance tier
  = balance * default DefaultTierFactor (TierWeightFactors tier) / 100 /\
  balance <= ApplyTierFactor balance tier <= 2 * balance.
Proof.
  intros Hb. unfold ApplyTierFactor.
  assert (100 <= default DefaultTierFactor (TierWeightFactors tier) <= 200) as Hf.
  { unfold TierWeightFactors, DefaultTierFactor. repeat case_decide; cbn; unfold id; lia. }
  revert Hf. generalize (default DefaultTierFactor (TierWeightFactors tier)). intros f Hf.
  destruct (Z.ltb_spec balance 0); [lia|].
  rewrite wrap64_id by (rewrite in_int64_spec; unfold int64_min, int64_max; nia).
  rewrite Z.quot_div_nonneg by nia. split; [done|].
  split; [apply Z.div_le_lower_bound|apply Z.div_le_upper_bound]; nia.
Qed.

Lemma ApplyTierFactor_exact_witness : 1000 <= ApplyTierFactor 1000 "Gold" <= 2 * 1000.
Proof. apply (ApplyTierFactor_exact 1000 "Gold"). lia. Defined.

(** for a threshold percentage in range and any realistic number of votes the
    threshold is the least positive number of cancellation votes that is at least
    that percentage of the votes cast. *)
Theorem CancellationThreshold_least totalVotes pct :
  1 <= pct <= 100 -> 0 <= totalVotes <= 92233720368547757 ->
  let n := CancellationThreshold totalVotes pct in
  1 <= n /\ pct * totalVotes <= 100 * n /\ n <= Z.max 1 totalVotes /\
  (forall k, 1 <= k -> pct * totalVotes <= 100 * k -> n <= k).
Proof.
  intros Hp Ht. unfold CancellationThreshold. cbv zeta.
  destruct (Z.leb_spec totalVotes 0).
  { assert (totalVotes = 0) as -> by lia. split_and!; lia. }
  rewrite !wrap64_id; try (rewrite in_int64_spec; unfold int64_min, int64_max; nia).
  2: rewrite wrap64_id; rewrite in_int64_spec; unfold int64_min, int64_max; nia.
  rewrite Z.quot_div_nonneg by nia.
  pose proof (Z.div_mod (totalVotes * pct + 99) 100 ltac:(lia)) as Hd.
  pose proof (Z.mod_pos_bound (totalVotes * pct + 99) 100 ltac:(lia)) as Hm.
  set (q := (totalVotes * pct + 99) / 100) in *.
  assert (1 <= q) by nia. destruct (Z.ltb_spec q 1); [lia|].
  split_and!; [lia|nia|nia|]. intros k Hk1 Hk. nia.
Qed.

Lemma CancellationThreshold_least_witness : CancellationThreshold 10 33 <= 4.
Proof. apply (CancellationThreshold_least 10 33); lia. Defined.

(** with the default percentage a single cancellation vote is enough on any
    ballot of at most three votes, although the comment on
    [DefaultCancelThresholdPct] says that one member acting alone cannot cancel
    a proposal. *)
Theorem default_threshold_lone_member totalVotes :
  totalVotes <= 3 -> CancellationThreshold totalVotes DefaultCancelThresholdPct = 1.
Proof.
  intros Ht. unfold CancellationThreshold, DefaultCancelThresholdPct.
  destruct (Z.leb_spec totalVotes 0); [done|].
  assert (totalVotes = 1 \/ totalVotes = 2 \/ totalVotes = 3) as [E|[E|E]] by lia; by rewrite E.
Qed.

Lemma default_threshold_lone_member_witness : CancellationThreshold 3 33 = 1.
Proof. apply (default_threshold_lone_member 3). lia. Defined.

End governance.
