(* ===== verification/Governance.v ===== *)
(** The governance service (src/internal/domain/governance/service.go): its
    in-memory path and its repository path.  [GovSpec] gives what a vote, an execution
    and a cancellation mean, [GovProps] what both paths guarantee. *)
From S2P Require Export GovModel.
From stdpp Require Import options.
#[local] Set Default Proof Using "Type*".
Open Scope Z_scope.
Local Open Scope go_scope.

Module gov.
Import governance.

(** ** State *)

(** The maps of the service without a repository. *)
Record memory := {
  proposals : gmap uuid Proposal;
  votesByID : gmap uuid (gmap uuid bool);
  cancelsByID : gmap uuid (gmap uuid bool);
}.

Record CreateProposalInput := {
  in_Title : string;
  in_Description : string;
  in_ProposalType : string;
  in_CreatorID : string;
}.

(** The collaborators and the configuration; [executor] may be nil. *)
Record service (W : Type) := {
  has_repo : bool;
  executor : option (Proposal -> M W unit);
  VotingWeight : string -> M W Z;
  EligibleVoters : M W (list string);
  timelock : TimelockConfig;
}.
Arguments has_repo {W} _.
Arguments executor {W} _.
Arguments VotingWeight {W} _ _.
Arguments EligibleVoters {W} _.
Arguments timelock {W} _.

(** The interface [Repository]; [now] is the reading of the clock inside the
    operation, of [time.Now] or of [NOW()] of the database. *)
Class Repository (W : Type) := {
  CreateProposalRow : Proposal -> M W unit;
  GetProposalRow : uuid -> M W (option Proposal);
  ListProposalRows : Z -> Z -> M W (list Proposal * Z);
  RecordVoteWeighted : uuid -> uuid -> bool -> Z -> time -> M W unit;
  HasVoted : uuid -> uuid -> M W bool;
  UpdateStatus : uuid -> ProposalStatus -> option time -> time -> M W unit;
  MarkPassed : uuid -> time -> time -> M W unit;
  MarkCancelled : uuid -> time -> time -> M W unit;
  RecordCancellationVote : uuid -> uuid -> M W bool;
  CountCancellationVotes : uuid -> M W Z;
}.

(** ** The default resolver and the constructor *)
Definition WeightSnapshotter_VotingWeight {W} (user : string) : M W Z := gret 1.
Definition WeightSnapshotter_EligibleVoters {W} : M W (list string) := gret [].

Definition NewService {W} (repo : bool) : service W :=
  {| has_repo := repo; executor := None; VotingWeight := WeightSnapshotter_VotingWeight;
     EligibleVoters := WeightSnapshotter_EligibleVoters;
     timelock := Normalize {| Delay := 0; CancelThresholdPct := 0 |} |}.

Definition empty_memory : memory := {| proposals := ∅; votesByID := ∅; cancelsByID := ∅ |}.

Definition set_proposals (f : gmap uuid Proposal -> gmap uuid Proposal) (m : memory) : memory :=
  {| proposals := f (proposals m); votesByID := votesByID m; cancelsByID := cancelsByID m |}.
Definition set_votesByID (f : gmap uuid (gmap uuid bool) -> gmap uuid (gmap uuid bool))
    (m : memory) : memory :=
  {| proposals := proposals m; votesByID := f (votesByID m); cancelsByID := cancelsByID m |}.
Definition set_cancelsByID (f : gmap uuid (gmap uuid bool) -> gmap uuid (gmap uuid bool))
    (m : memory) : memory :=
  {| proposals := proposals m; votesByID := votesByID m; cancelsByID := f (cancelsByID m) |}.

Section service.
Context {W : Type} `{Repository W, UUIDLib}.
Variable s : service W.

Definition GSt : Type := W * memory.

Definition ext {A} (m : M W A) : M GSt A := λ '(w, mem),
  let '(r, w') := m w in (r, (w', mem)).
Definition getm : M GSt memory := λ '(w, mem), (Ok mem, (w, mem)).
Definition putm (f : memory -> memory) : M GSt unit := λ '(w, mem), (Ok tt, (w, f mem)).

Definition parseUUID (id : string) : result uuid :=
  match uuid_Parse id with
  | Some u => Ok u
  | None => Err (Wrapf "invalid UUID: %w" (External "uuid"))
  end.

(** The loop of [snapshotWeights]. *)
Fixpoint snapshot_loop (voters : list string) (snapshot : gmap uuid Z) (total : Z) :
    M W (gmap uuid Z * Z) :=
  match voters with
  | [] => gret (snapshot, total)
  | voterID :: voters =>
      match uuid_Parse voterID with
      | None => snapshot_loop voters snapshot total
      | Some parsed =>
          gtry (VotingWeight s voterID) (λ r,
            let weight := match r with
                          | inl w => if w <? 0 then 1 else w
                          | inr _ => 1
                          end in
            snapshot_loop voters (<[parsed := weight]> snapshot) (wrap64 (total + weight)))
      end
  end.

Definition snapshotWeights : M W (gmap uuid Z * Z) :=
  gtry (EligibleVoters s) (λ r,
    match r with
    | inr _ => gret (∅, 0)
    | inl voters => snapshot_loop voters ∅ 0
    end).

Definition resolveVoteWeight (p : Proposal) (voterID : uuid) : M W Z :=
  match (if g_SnapshotAt p is Some _ then g_WeightSnapshot p !! voterID else None) with
  | Some weight => gret weight
  | None =>
      if decide (g_WeightSnapshot p = ∅) then gret 1 else
      gtry (VotingWeight s (uuid_String voterID)) (λ r,
        gret (match r with inl w => if w <? 0 then 1 else w | inr _ => 1 end))
  end.

Definition new_proposal (now : time) (new creatorID : uuid) (input : CreateProposalInput)
    (snapshot : gmap uuid Z) (total : Z) : Proposal :=
  {| g_ID := new; g_Title := in_Title input; g_Description := in_Description input;
     g_ProposalType := in_ProposalType input; g_CreatorID := creatorID;
     g_Status := ProposalStatusPending; g_ForVotes := 0; g_AgainstVotes := 0;
     g_ExecutedAt := None; g_CreatedAt := now; g_UpdatedAt := now;
     g_WeightSnapshot := snapshot; g_ForWeight := 0; g_AgainstWeight := 0;
     g_SnapshotAt := Some now; g_SnapshotTotalWeight := total; g_ExecutableAt := None;
     g_CancelledAt := None; g_CancellationVotes := 0 |}.

Definition CreateProposal (now : time) (new : uuid) (input : CreateProposalInput) :
    M GSt Proposal :=
  let! creatorID := glift (parseUUID (in_CreatorID input)) in
  do! gguard (bool_decide (in_Title input = "") || bool_decide (in_Description input = "")
              || bool_decide (in_ProposalType input = ""))
    (Errorf "title, description, and proposal type are required") in
  let! snap := ext snapshotWeights in
  let proposal := new_proposal now new creatorID input snap.1 snap.2 in
  if has_repo s then
    do! gwrap "persisting proposal: %w" (ext (CreateProposalRow proposal)) in
    gret proposal
  else
    do! putm (λ m, set_votesByID <[new := ∅]> (set_proposals <[new := proposal]> m)) in
    gret proposal.

(** [sort.Slice] by [CreatedAt], newest first, over the values of the map. *)
Definition newer (p q : Proposal) : Prop := g_CreatedAt q <= g_CreatedAt p.
#[export] Instance newer_dec p q : Decision (newer p q).
Proof. unfold newer. apply _. Defined.

(** [proposals[offset:end]]: a slice whose bounds are out of order panics. *)
Definition slice {A} (l : list A) (lo hi : Z) : result (list A) :=
  if (lo <? 0) || (hi <? lo) || (Z.of_nat (length l) <? hi) then Panic
  else Ok (take (Z.to_nat (hi - lo)) (drop (Z.to_nat lo) l)).

Definition ListProposals (page limit : Z) : M GSt (list Proposal * Z) :=
  if has_repo s then ext (ListProposalRows page limit) else
  let! m := getm in
  let l := merge_sort newer (map_to_list (proposals m)).*2 in
  let total := Z.of_nat (length l) in
  let page := if page <=? 0 then 1 else page in
  let limit := if limit <=? 0 then 10 else limit in
  let offset := wrap64 (wrap64 (page - 1) * limit) in
  if total <=? offset then gret ([], total) else
  let end_ := wrap64 (offset + limit) in
  let end_ := if total <? end_ then total else end_ in
  let! out := glift (slice l offset end_) in
  gret (out, total).

Definition GetProposal (id : string) : M GSt (option Proposal) :=
  let! proposalID := glift (parseUUID id) in
  if has_repo s then ext (GetProposalRow proposalID) else
  let! m := getm in
  match proposals m !! proposalID with
  | None => gfail ErrProposalNotFound
  | Some p => gret (Some p)
  end.

Definition no_longer_active : error := Errorf "proposal is no longer active".
Definition already_processed : error := Errorf "proposal has already been processed".

Definition vote_repo (now : time) (proposalID voterID : uuid) (vote : bool) : M W unit :=
  let! o := GetProposalRow proposalID in
  let! p := deref o in
  do! gguard (bool_decide (g_Status p <> ProposalStatusPending)) no_longer_active in
  let! weight := resolveVoteWeight p voterID in
  RecordVoteWeighted proposalID voterID vote weight now.

Definition vote_memory (now : time) (proposalID voterID : uuid) (vote : bool) : M GSt unit :=
  let! m := getm in
  match proposals m !! proposalID with
  | None => gfail ErrProposalNotFound
  | Some proposal =>
      do! gguard (bool_decide (g_Status proposal <> ProposalStatusPending)) no_longer_active in
      let votes := default ∅ (votesByID m !! proposalID) in
      match votes !! voterID with
      | Some _ => gfail ErrAlreadyVoted
      | None =>
          do! putm (set_votesByID <[proposalID := <[voterID := vote]> votes]>) in
          let! weight := ext (resolveVoteWeight proposal voterID) in
          putm (set_proposals <[proposalID := count_vote vote weight now proposal]>)
      end
  end.

Definition VoteProposal (now : time) (proposalID userID : string) (vote : bool) : M GSt unit :=
  let! proposalUUID := glift (parseUUID proposalID) in
  let! voterID := glift (parseUUID userID) in
  if has_repo s then ext (vote_repo now proposalUUID voterID vote)
  else vote_memory now proposalUUID voterID vote.

Definition runAndMarkExecuted (p : Proposal) (now : time) : M W unit :=
  do! match executor s with
      | Some exec => gwrap "executing proposal action: %w" (exec p)
      | None => gret tt
      end in
  UpdateStatus (g_ID p) ProposalStatusExecuted (Some now) now.

(** [executeWithRepo] up to its read, and from it on: between the two another
    call can run. *)
Definition execute_decided (proposalID : uuid) (now : time) (p : Proposal) : M W unit :=
  match g_Status p with
  | ProposalStatusPending =>
      if negb (passed p) then UpdateStatus proposalID ProposalStatusRejected None now
      else if Delay (timelock s) <=? 0 then runAndMarkExecuted p now
      else MarkPassed proposalID (time_Add now (Delay (timelock s))) now
  | ProposalStatusPassed =>
      if match g_ExecutableAt p with Some at_ => time_Before now at_ | None => false end
      then gfail ErrTimelockActive
      else runAndMarkExecuted p now
  | _ => gfail already_processed
  end.

Definition executeWithRepo (proposalID : uuid) (now : time) : M W unit :=
  let! o := GetProposalRow proposalID in
  let! p := deref o in
  execute_decided proposalID now p.

(** The executor runs after the lock is released, on the marked proposal. *)
Definition mark_and_run (proposalID : uuid) (now : time) (proposal : Proposal) : M GSt unit :=
  let proposal := set_executed now now proposal in
  do! putm (set_proposals <[proposalID := proposal]>) in
  match executor s with
  | Some exec => ext (exec proposal)
  | None => gret tt
  end.

Definition executeInMemory (proposalID : uuid) (now : time) : M GSt unit :=
  let! m := getm in
  match proposals m !! proposalID with
  | None => gfail ErrProposalNotFound
  | Some proposal =>
      match g_Status proposal with
      | ProposalStatusPending =>
          if negb (passed proposal)
          then putm (set_proposals <[proposalID := set_status ProposalStatusRejected now proposal]>)
          else if Delay (timelock s) <=? 0 then mark_and_run proposalID now proposal
          else putm (set_proposals
                 <[proposalID := set_passed (time_Add now (Delay (timelock s))) now proposal]>)
      | ProposalStatusPassed =>
          if match g_ExecutableAt proposal with Some at_ => time_Before now at_ | None => false end
          then gfail ErrTimelockActive
          else mark_and_run proposalID now proposal
      | _ => gfail already_processed
      end
  end.

Definition ExecuteProposal (now : time) (id : string) : M GSt unit :=
  let! proposalID := glift (parseUUID id) in
  if has_repo s then ext (executeWithRepo proposalID now) else executeInMemory proposalID now.

(** [if err := cancellable(p, now); err != nil { return false, err }] *)
Definition guard_cancellable {S} (p : Proposal) (now : time) : M S unit :=
  match cancellable p now with Some e => gfail e | None => gret tt end.

Definition cancelWithRepo (pid uid : uuid) (now : time) : M W bool :=
  let! o := GetProposalRow pid in
  let! p := deref o in
  do! guard_cancellable p now in
  let! recorded := RecordCancellationVote pid uid in
  do! gguard (negb recorded) ErrAlreadyCancelledVote in
  let! count := CountCancellationVotes pid in
  if count <? CancellationThreshold (wrap64 (g_ForVotes p + g_AgainstVotes p))
                (CancelThresholdPct (timelock s))
  then gret false
  else gtry (MarkCancelled pid now now) (λ r,
    match r with
    | inl _ => gret true
    | inr err => if errors_Is err apperrors_ErrConflict then gfail ErrNotCancellable
                 else gfail err
    end).

Definition cancelInMemory (pid uid : uuid) (now : time) : M GSt bool :=
  let! m := getm in
  match proposals m !! pid with
  | None => gfail ErrProposalNotFound
  | Some proposal =>
      do! guard_cancellable proposal now in
      let cancels := default ∅ (cancelsByID m !! pid) in
      if default false (cancels !! uid) then gfail ErrAlreadyCancelledVote else
      let cancels := <[uid := true]> cancels in
      do! putm (set_cancelsByID <[pid := cancels]>) in
      let proposal := set_cancellation_votes (Z.of_nat (size cancels)) proposal in
      let threshold := CancellationThreshold (wrap64 (g_ForVotes proposal + g_AgainstVotes proposal))
                         (CancelThresholdPct (timelock s)) in
      if g_CancellationVotes proposal <? threshold
      then do! putm (set_proposals <[pid := proposal]>) in gret false
      else do! putm (set_proposals <[pid := set_cancelled now now proposal]>) in gret true
  end.

Definition CancelProposal (now : time) (proposalID userID : string) : M GSt bool :=
  let! pid := glift (parseUUID proposalID) in
  let! uid := glift (parseUUID userID) in
  if has_repo s then ext (cancelWithRepo pid uid now) else cancelInMemory pid uid now.
End service.
Arguments GSt W : clear implicits.

End gov.
