(* ===== verification/GovSpec.v ===== *)
(** What governance promises: the ledger of proposals with their votes, the pure
    meaning of a vote, an execution and a cancellation, the contract of the
    repository on the ledger, and the refinement of both paths of the service. *)
From S2P Require Export Governance.
From stdpp Require Import options.
#[local] Set Default Proof Using "Type*".
Open Scope Z_scope.
Local Open Scope go_scope.

Module govspec.
Import governance gov.

(** ** The ledger *)

(** A proposal without its bookkeeping columns [updated_at] and the count of
    cancellation votes, the ballots, and the votes to cancel. *)
Record entry := {
  e_p : Proposal;
  e_votes : gmap uuid bool;
  e_cancels : gmap uuid bool;
}.

Definition core (p : Proposal) : Proposal := set_cancellation_votes 0 (set_status (g_Status p) 0 p).

Abbreviation ledger := (gmap uuid entry) (only parsing).

(** ** Meaning of the three operations on one proposal *)
Definition vote_entry (voter : uuid) (vote : bool) (weight : Z) (e : entry) : result entry :=
  if decide (g_Status (e_p e) <> ProposalStatusPending) then Err no_longer_active
  else match e_votes e !! voter with
       | Some _ => Err ErrAlreadyVoted
       | None => Ok {| e_p := core (count_vote vote weight 0 (e_p e));
                       e_votes := <[voter := vote]> (e_votes e); e_cancels := e_cancels e |}
       end.

Definition with_p (p : Proposal) (e : entry) : entry :=
  {| e_p := core p; e_votes := e_votes e; e_cancels := e_cancels e |}.

(** The new entry and whether the action of the proposal is run. *)
Definition execute_entry (cfg : TimelockConfig) (now : time) (e : entry) :
    result (entry * bool) :=
  let p := e_p e in
  match g_Status p with
  | ProposalStatusPending =>
      if negb (passed p) then Ok (with_p (set_status ProposalStatusRejected 0 p) e, false)
      else if Delay cfg <=? 0 then Ok (with_p (set_executed now 0 p) e, true)
      else Ok (with_p (set_passed (time_Add now (Delay cfg)) 0 p) e, false)
  | ProposalStatusPassed =>
      if match g_ExecutableAt p with Some at_ => time_Before now at_ | None => false end
      then Err ErrTimelockActive
      else Ok (with_p (set_executed now 0 p) e, true)
  | _ => Err already_processed
  end.

Definition threshold_of (cfg : TimelockConfig) (p : Proposal) : Z :=
  CancellationThreshold (wrap64 (g_ForVotes p + g_AgainstVotes p)) (CancelThresholdPct cfg).

Definition add_cancel (voter : uuid) (e : entry) : entry :=
  {| e_p := e_p e; e_votes := e_votes e; e_cancels := <[voter := true]> (e_cancels e) |}.

Definition cancel_votes (e : entry) : Z := Z.of_nat (size (e_cancels e)).

(** The new entry and whether the vote cancelled the proposal. *)
Definition cancel_entry (cfg : TimelockConfig) (now : time) (voter : uuid) (e : entry) :
    result (entry * bool) :=
  match cancellable (e_p e) now with
  | Some err => Err err
  | None =>
      if default false (e_cancels e !! voter) then Err ErrAlreadyCancelledVote else
      let e1 := add_cancel voter e in
      if cancel_votes e1 <? threshold_of cfg (e_p e) then Ok (e1, false)
      else Ok (with_p (set_cancelled now 0 (e_p e)) e1, true)
  end.

(** ** The contract of the repository *)
Definition spec_on (L : gmap uuid entry) (id : uuid) (missing : error)
    (f : entry -> result entry) : result unit * gmap uuid entry :=
  match L !! id with
  | None => (Err missing, L)
  | Some e => match f e with
              | Ok e' => (Ok tt, <[id := e']> L)
              | Err err => (Err err, L)
              | Panic => (Panic, L)
              end
  end.

Definition fresh_entry (p : Proposal) (snapshot : gmap uuid Z) : entry :=
  {| e_p := core (set_snapshot snapshot p); e_votes := ∅; e_cancels := ∅ |}.

Class RepositoryLaws (W : Type) `{Repository W} (ledger_of : W -> ledger) : Prop := {
  (** A creation that fails half way leaves the proposal with a part of its
      snapshot: the inserts are not in a transaction. *)
  CreateProposal_law p : g_CancellationVotes p = 0 -> g_ExecutedAt p = None ->
    g_ExecutableAt p = None -> g_CancelledAt p = None ->
    refines ledger_of (CreateProposalRow p) (λ L r L',
    match r with
    | Ok _ => L !! g_ID p = None /\ L' = <[g_ID p := fresh_entry p (g_WeightSnapshot p)]> L
    | Err _ => L' = L \/ (L !! g_ID p = None /\ exists part, part ⊆ g_WeightSnapshot p /\
                           L' = <[g_ID p := fresh_entry p part]> L)
    | Panic => False
    end);
  GetProposal_law id : refines ledger_of (GetProposalRow id) (λ L r L',
    L' = L /\
    match r with
    | Ok o => exists p e, o = Some p /\ L !! id = Some e /\ core p = e_p e /\ g_ID p = id
    | Err err => err = ErrProposalNotFound /\ L !! id = None \/ infra err = true
    | Panic => False
    end);
  RecordVoteWeighted_law id voter vote weight now :
    implements ledger_of (RecordVoteWeighted id voter vote weight now) (λ L,
      spec_on L id ErrProposalNotFound (λ e,
        match e_votes e !! voter with
        | Some _ => Err ErrAlreadyVoted
        | None => Ok {| e_p := core (count_vote vote weight 0 (e_p e));
                        e_votes := <[voter := vote]> (e_votes e); e_cancels := e_cancels e |}
        end));
  UpdateStatus_law id st at_ now :
    implements ledger_of (UpdateStatus id st at_ now) (λ L,
      (Ok tt, alter (λ e, with_p (match at_ with
                                  | Some x => set_status st 0 (set_executed x 0 (e_p e))
                                  | None => set_status st 0 (e_p e)
                                  end) e) id L));
  MarkPassed_law id at_ now :
    implements ledger_of (MarkPassed id at_ now) (λ L,
      spec_on L id apperrors_ErrConflict (λ e,
        if decide (g_Status (e_p e) = ProposalStatusPending)
        then Ok (with_p (set_passed at_ 0 (e_p e)) e) else Err apperrors_ErrConflict));
  MarkCancelled_law id at_ now :
    implements ledger_of (MarkCancelled id at_ now) (λ L,
      spec_on L id apperrors_ErrConflict (λ e,
        if decide (g_Status (e_p e) = ProposalStatusPassed)
        then Ok (with_p (set_cancelled at_ 0 (e_p e)) e) else Err apperrors_ErrConflict));
  RecordCancellationVote_law id voter :
    implements ledger_of (RecordCancellationVote id voter) (λ L,
      match L !! id with
      | None => (Err ErrProposalNotFound, L)
      | Some e => (Ok (negb (default false (e_cancels e !! voter))),
                   <[id := if default false (e_cancels e !! voter) then e
                           else add_cancel voter e]> L)
      end);
  CountCancellationVotes_law id :
    implements ledger_of (CountCancellationVotes id) (λ L,
      (Ok (match L !! id with Some e => cancel_votes e | None => 0 end), L));
}.

(** What the service relies on of its collaborators: they do not panic and do
    not touch the proposals. *)
Class ResolverLaws {W} (ledger_of : W -> ledger) (s : service W) : Prop := {
  VotingWeight_law user w r w' : VotingWeight s user w = (r, w') ->
    ledger_of w' = ledger_of w /\ r <> Panic;
  EligibleVoters_law w r w' : EligibleVoters s w = (r, w') ->
    ledger_of w' = ledger_of w /\ r <> Panic;
  executor_law exec p w r w' : executor s = Some exec -> exec p w = (r, w') ->
    ledger_of w' = ledger_of w /\ r <> Panic;
}.

(** The ledger of the maps of the service. *)
Definition memory_ledger (m : memory) : ledger :=
  map_imap (λ id p, Some {| e_p := core p; e_votes := default ∅ (votesByID m !! id);
                            e_cancels := default ∅ (cancelsByID m !! id) |}) (proposals m).

Lemma memory_lookup m id :
  memory_ledger m !! id = (λ p, {| e_p := core p; e_votes := default ∅ (votesByID m !! id);
                            e_cancels := default ∅ (cancelsByID m !! id) |}) <$> proposals m !! id.
Proof. unfold memory_ledger. rewrite map_lookup_imap. by destruct (proposals m !! id). Qed.

Lemma memory_ledger_set m m' id e :
  (forall k, k <> id -> proposals m' !! k = proposals m !! k /\
     votesByID m' !! k = votesByID m !! k /\ cancelsByID m' !! k = cancelsByID m !! k) ->
  memory_ledger m' !! id = Some e ->
  memory_ledger m' = <[id := e]> (memory_ledger m).
Proof.
  intros Hk Hid. apply map_eq. intros k. destruct (decide (k = id)) as [->|Hne].
  - by rewrite Hid, lookup_insert_eq.
  - rewrite lookup_insert_ne by done. rewrite !memory_lookup.
    destruct (Hk k Hne) as (-> & -> & ->). done.
Qed.

(** ** The repository path *)

(** The weight of a vote: the snapshot of a covered voter, one without any
    snapshot, the current weight otherwise. *)
Definition weight_rule (p : Proposal) (voter : uuid) (weight : Z) : Prop :=
  match (if g_SnapshotAt p is Some _ then g_WeightSnapshot p !! voter else None) with
  | Some w => weight = w
  | None => if decide (g_WeightSnapshot p = ∅) then weight = 1 else 0 <= weight
  end.

(** ** What a call does to the ledger, on either path *)

(** The errors a call returns without any effect: the one of the entry's meaning,
    of a missing proposal, or of the infrastructure. *)
Definition refused {A} (L : gmap uuid entry) (id : uuid) (f : entry -> result A -> Prop)
    (err : error) : Prop :=
  infra err = true \/
  match L !! id with
  | None => err = ErrProposalNotFound
  | Some e => f e (Err err)
  end.

Definition vote_rel (L : gmap uuid entry) (id voter : uuid) (vote : bool) (r : result unit)
    (L' : gmap uuid entry) : Prop :=
  match r with
  | Ok _ => exists e e' weight, L !! id = Some e /\ weight_rule (e_p e) voter weight /\
      vote_entry voter vote weight e = Ok e' /\ L' = <[id := e']> L
  | Err err => L' = L /\
      refused L id (λ e r, exists weight, vote_entry voter vote weight e = r) err
  | Panic => False
  end.

(** An execution that fails in the executor has marked the proposal on the
    in-memory path and has not on the repository path. *)
Definition execute_rel (marked : bool) (cfg : TimelockConfig) (now : time)
    (L : gmap uuid entry) (id : uuid) (r : result unit) (L' : gmap uuid entry) : Prop :=
  match r with
  | Ok _ => exists e e' run, L !! id = Some e /\ execute_entry cfg now e = Ok (e', run) /\
      L' = <[id := e']> L
  | Err err => L' = L \/
      marked = true /\ exists e e', L !! id = Some e /\
        execute_entry cfg now e = Ok (e', true) /\ L' = <[id := e']> L
  | Panic => False
  end.

(** A cancellation that fails after its vote was stored has stored the vote, on
    the repository path. *)
Definition cancel_rel (cfg : TimelockConfig) (now : time) (L : gmap uuid entry)
    (id voter : uuid) (r : result bool) (L' : gmap uuid entry) : Prop :=
  match r with
  | Ok b => exists e e', L !! id = Some e /\ cancel_entry cfg now voter e = Ok (e', b) /\
      L' = <[id := e']> L
  | Err _ => L' = L \/
      exists e, L !! id = Some e /\ cancellable (e_p e) now = None /\
        default false (e_cancels e !! voter) = false /\
        L' = <[id := add_cancel voter e]> L
  | Panic => False
  end.

Lemma alter_insert_entry (f : entry -> entry) (L : gmap uuid entry) id e :
  L !! id = Some e -> alter f id L = <[id := f e]> L.
Proof.
  intros He. apply map_eq. intros k. destruct (decide (k = id)) as [->|].
  - by rewrite lookup_alter_eq, lookup_insert_eq, He.
  - by rewrite lookup_alter_ne, lookup_insert_ne.
Qed.

(** ** Rules for the state of the service *)
Section rules.
Context {W : Type}.

Lemma wp_ext {A} (m : M W A) w mem (Q : result A -> GSt W -> Prop) :
  wp m w (λ r w', Q r (w', mem)) -> wp (ext m) (w, mem) Q.
Proof. unfold wp, ext. by destruct (m w). Qed.

Lemma wp_getm w mem (Q : result memory -> GSt W -> Prop) :
  Q (Ok mem) (w, mem) -> wp getm (w, mem) Q.
Proof. done. Qed.

Lemma wp_putm f w mem (Q : result unit -> GSt W -> Prop) :
  Q (Ok tt) (w, f mem) -> wp (putm f) (w, mem) Q.
Proof. done. Qed.

Lemma wp_gparse `{UUIDLib} id (st : GSt W) (Q : result uuid -> GSt W -> Prop) :
  (forall u, uuid_Parse id = Some u -> Q (Ok u) st) ->
  (forall err, Q (Err err) st) -> wp (glift (parseUUID id)) st Q.
Proof. intros Hs Hn. apply wp_lift. unfold parseUUID. destruct (uuid_Parse id); eauto. Qed.
End rules.

(** Writing one proposal, its ballots or its votes to cancel. *)
Lemma memory_ledger_proposal m id p q :
  proposals m !! id = Some p ->
  memory_ledger (set_proposals <[id := q]> m) =
  <[id := {| e_p := core q; e_votes := default ∅ (votesByID m !! id);
             e_cancels := default ∅ (cancelsByID m !! id) |}]> (memory_ledger m).
Proof.
  intros _. apply memory_ledger_set.
  - intros k Hk. cbn. by rewrite lookup_insert_ne.
  - rewrite memory_lookup. cbn. by rewrite lookup_insert_eq.
Qed.

Section paths.
Context {W : Type} `{Repository W, UUIDLib} (ledger_of : W -> gmap uuid entry).
Context `{!RepositoryLaws W ledger_of} (s : service W) `{!ResolverLaws ledger_of s}.

Lemma wp_VotingWeight user w (Q : result Z -> W -> Prop) :
  (forall r w', ledger_of w' = ledger_of w -> r <> Panic -> Q r w') ->
  wp (VotingWeight s user) w Q.
Proof. intros HQ. apply wp_of_run. intros r w' E. apply VotingWeight_law in E as []. auto. Qed.

Lemma resolveVoteWeight_wp p voter w (Q : result Z -> W -> Prop) :
  (forall weight w', weight_rule p voter weight -> ledger_of w' = ledger_of w ->
     Q (Ok weight) w') ->
  wp (resolveVoteWeight s p voter) w Q.
Proof.
  intros HQ. unfold resolveVoteWeight, weight_rule in *.
  destruct (if g_SnapshotAt p is Some _ then _ else _); [by apply HQ|].
  destruct (decide (g_WeightSnapshot p = ∅)); [by apply HQ|].
  apply wp_try, wp_VotingWeight. intros r w' Hw Hp.
  destruct r as [x|e|]; [|by apply HQ; [lia|]|done]. apply HQ; [|done].
  destruct (Z.ltb_spec x 0); lia.
Qed.

Lemma GetProposal_wp id w (Q : result (option Proposal) -> W -> Prop) :
  (forall p e w', ledger_of w' = ledger_of w -> ledger_of w !! id = Some e -> core p = e_p e ->
     g_ID p = id -> Q (Ok (Some p)) w') ->
  (forall err w', ledger_of w' = ledger_of w ->
     err = ErrProposalNotFound /\ ledger_of w !! id = None \/ infra err = true ->
     Q (Err err) w') ->
  wp (GetProposalRow id) w Q.
Proof.
  intros Hok Herr. eapply wp_refines; [apply GetProposal_law|]. cbn. intros [o|err|] w' [Ht Hr].
  - destruct Hr as (p & e & -> & He & Hc & Hid). eauto.
  - eauto.
  - done.
Qed.

Lemma core_status p e : core p = e_p e -> g_Status (e_p e) = g_Status p.
Proof. by intros <-. Qed.

Lemma vote_repo_wp now id voter vote w :
  wp (vote_repo s now id voter vote) w
    (λ r w', vote_rel (ledger_of w) id voter vote r (ledger_of w')).
Proof.
  unfold vote_repo. apply wp_bind, GetProposal_wp.
  2: { intros err w1 Hw1 Herr. split; [done|]. unfold refused.
       destruct Herr as [[-> ->]|]; auto. }
  intros p e w1 Hw1 He Hc Hid. do 3 wp_rule; wp_rule; cbn.
  { split; [done|]. right. rewrite He. exists 0. unfold vote_entry.
    by rewrite (core_status _ _ Hc), decide_True. }
  wp_rule. apply resolveVoteWeight_wp.
  intros weight w2 Hwt Hw2. eapply wp_implements; [apply RecordVoteWeighted_law| |].
  - intros w3 Hw3. rewrite Hw2, Hw1 in *. unfold spec_on in *. rewrite He in *.
    destruct (e_votes e !! voter) eqn:Hv; cbn in *.
    + split; [done|]. right. rewrite He. exists weight. unfold vote_entry.
      rewrite (core_status _ _ Hc), decide_False by auto. by rewrite Hv.
    + exists e. eexists _, weight. split; [done|]. rewrite <-Hc at 1. split; [done|].
      unfold vote_entry. rewrite (core_status _ _ Hc), Hv, decide_False by auto. done.
  - intros err w3 Hi Hw3. split; [congruence|by left].
Qed.

Lemma wp_executor (p : Proposal) w (Q : result unit -> W -> Prop) :
  (forall r w', ledger_of w' = ledger_of w -> r <> Panic -> Q r w') ->
  wp (match executor s with Some exec => exec p | None => gret tt end) w Q.
Proof.
  intros HQ. destruct (executor s) as [exec|] eqn:Hx; [|by apply HQ].
  apply wp_of_run. intros r w' E. eapply executor_law in E as []; [|done]. auto.
Qed.

Lemma run_repo_wp p e now w :
  ledger_of w !! g_ID p = Some e ->
  wp (runAndMarkExecuted s p now) w (λ r w', match r with
    | Ok _ => ledger_of w' = <[g_ID p := with_p (set_executed now 0 (e_p e)) e]> (ledger_of w)
    | Err _ => ledger_of w' = ledger_of w
    | Panic => False
    end).
Proof.
  intros He. unfold runAndMarkExecuted. apply wp_bind.
  assert (forall (Q : result unit -> W -> Prop),
    (forall r w', ledger_of w' = ledger_of w -> r <> Panic -> Q r w') ->
    wp (match executor s with
        | Some exec => gwrap "executing proposal action: %w" (exec p)
        | None => gret tt end) w Q) as Hx.
  { intros Q HQ. pose proof (wp_executor p w) as Hp. destruct (executor s); [|by apply HQ].
    apply wp_wrap, Hp. intros r w' ??. apply HQ; [done|]. by destruct r. }
  apply Hx. intros [[]|err|] w1 Hw1 Hp; [|done..].
  eapply wp_implements; [apply UpdateStatus_law| |].
  - intros w2 Hw2. cbn in *. rewrite Hw2, Hw1. by rewrite (alter_insert_entry _ _ _ e).
  - intros e2 w2 _ Hw2. congruence.
Qed.

Lemma executeWithRepo_wp now id w :
  wp (executeWithRepo s id now) w
    (λ r w', execute_rel false (timelock s) now (ledger_of w) id r (ledger_of w')).
Proof.
  unfold executeWithRepo. apply wp_bind, GetProposal_wp; [|intros; by left].
  intros p e w1 Hw1 He Hc Hid. wp_rule. wp_rule. unfold execute_decided.
  assert (Hrun : wp (runAndMarkExecuted s p now) w1 (λ r w', match r with
    | Ok _ => ledger_of w' = <[id := with_p (set_executed now 0 (e_p e)) e]> (ledger_of w)
    | Err _ => ledger_of w' = ledger_of w
    | Panic => False
    end)).
  { rewrite <-Hw1, <-Hid. apply run_repo_wp. by rewrite Hw1, Hid. }
  change (g_Status p) with (g_Status (core p)). change (passed p) with (passed (core p)).
  change (g_ExecutableAt p) with (g_ExecutableAt (core p)). rewrite Hc.
  destruct (g_Status (e_p e)) eqn:Hst; try (by left).
  - destruct (negb (passed (e_p e))) eqn:Hpass; [|destruct (Delay (timelock s) <=? 0) eqn:Hd].
    + eapply wp_implements; [apply UpdateStatus_law|intros w2 Hw2; cbn in *|intros; left; congruence].
      exists e. eexists _, _. split; [done|]. unfold execute_entry. rewrite Hst, Hpass.
      split; [done|]. rewrite Hw2, Hw1. by rewrite (alter_insert_entry _ _ _ e).
    + eapply wp_mono; [exact Hrun|]. intros [] w2 Hw2; [|by left|done]. exists e. eexists _, _.
      split; [done|]. unfold execute_entry. by rewrite Hst, Hpass, Hd.
    + eapply wp_implements; [apply MarkPassed_law|intros w2 Hw2; cbn in *|intros; left; congruence].
      unfold spec_on in *. rewrite Hw1, He in *. rewrite decide_True in * by done. cbn in *.
      exists e. eexists _, _. split; [done|]. unfold execute_entry. by rewrite Hst, Hpass, Hd.
  - destruct (match g_ExecutableAt (e_p e) with Some _ => _ | None => _ end) eqn:Ht; [by left|].
    eapply wp_mono; [exact Hrun|]. intros [] w2 Hw2; [|by left|done]. exists e. eexists _, _.
    split; [done|]. unfold execute_entry. by rewrite Hst, Ht.
Qed.

Lemma cancelWithRepo_wp now id voter w :
  wp (cancelWithRepo s id voter now) w
    (λ r w', cancel_rel (timelock s) now (ledger_of w) id voter r (ledger_of w')).
Proof.
  unfold cancelWithRepo. apply wp_bind, GetProposal_wp; [|intros; by left].
  intros p e w1 Hw1 He Hc Hid. do 3 wp_rule. unfold guard_cancellable.
  change (cancellable p now) with (cancellable (core p) now). rewrite Hc.
  destruct (cancellable (e_p e) now) eqn:Hcan; [by left|]. wp_rule. wp_rule.
  eapply wp_implements; [apply RecordCancellationVote_law| |by intros; left; congruence].
  intros w2 Hw2. cbn in *. rewrite Hw1, He in *. cbn in *.
  destruct (default false (e_cancels e !! voter)) eqn:Hv; cbn in *.
  { left. rewrite Hw2. by apply insert_id. }
  do 3 wp_rule.
  assert (ledger_of w2 !! id = Some (add_cancel voter e)) as He2
    by (by rewrite Hw2, lookup_insert_eq).
  eapply wp_implements; [apply CountCancellationVotes_law| |intros ??? Hw3; right; exists e;
    by rewrite Hw3].
  intros w3 Hw3. cbn in *. rewrite He2 in *.
  change (wrap64 (g_ForVotes p + g_AgainstVotes p))
    with (wrap64 (g_ForVotes (core p) + g_AgainstVotes (core p))). rewrite Hc.
  change (CancellationThreshold _ _) with (threshold_of (timelock s) (e_p e)).
  destruct (cancel_votes (add_cancel voter e) <? threshold_of (timelock s) (e_p e)) eqn:Hth.
  { wp_rule. exists e, (add_cancel voter e). split; [done|]. unfold cancel_entry.
    rewrite Hcan, Hv, Hth. split; [done|congruence]. }
  wp_rule.
  eapply wp_implements; [apply MarkCancelled_law| |intros err w4 _ Hw4].
  - intros w4 Hw4. unfold spec_on in *. cbn in *. rewrite Hw3, He2 in *. cbn in *.
    unfold cancellable in Hcan. destruct (decide (g_Status (e_p e) <> ProposalStatusPassed)) as [|Hst];
      [done|]. apply dec_stable in Hst. rewrite decide_True in * by done. cbn in *.
    exists e. eexists. split; [done|]. unfold cancel_entry, cancellable.
    rewrite Hst, decide_False by auto. rewrite Hcan, Hv, Hth. split; [done|].
    by rewrite Hw4, Hw2, insert_insert_eq.
  - assert (ledger_of w4 = <[id := add_cancel voter e]> (ledger_of w)) as Hl by congruence.
    destruct (errors_Is err apperrors_ErrConflict); wp_rule; right; by exists e.
Qed.

Lemma snapshot_loop_wp voters snapshot total w (Q : result (gmap uuid Z * Z) -> W -> Prop) :
  (forall x w', ledger_of w' = ledger_of w -> Q (Ok x) w') ->
  wp (snapshot_loop s voters snapshot total) w Q.
Proof.
  revert snapshot total w. induction voters as [|v voters IH]; intros snapshot total w HQ;
    cbn [snapshot_loop]; [by apply HQ|].
  destruct (uuid_Parse v); [|by apply IH]. apply wp_try, wp_VotingWeight.
  intros r w1 Hw1 Hp. destruct r; [| |done]; apply IH; intros; apply HQ; congruence.
Qed.

Lemma snapshotWeights_wp w (Q : result (gmap uuid Z * Z) -> W -> Prop) :
  (forall x w', ledger_of w' = ledger_of w -> Q (Ok x) w') -> wp (snapshotWeights s) w Q.
Proof.
  intros HQ. unfold snapshotWeights. apply wp_try, wp_of_run. intros r w1 E.
  apply EligibleVoters_law in E as [Hw1 Hp]. destruct r; [|by apply HQ|done].
  apply snapshot_loop_wp. intros. apply HQ. congruence.
Qed.

(** ** The in-memory path *)
Lemma vote_memory_wp now id voter vote w m :
  wp (vote_memory s now id voter vote) (w, m)
    (λ r st, vote_rel (memory_ledger m) id voter vote r (memory_ledger st.2)).
Proof.
  unfold vote_memory. apply wp_bind, wp_getm.
  destruct (proposals m !! id) as [p|] eqn:Hp.
  2: { cbn. split; [done|]. right. by rewrite memory_lookup, Hp. }
  set (e := {| e_p := core p; e_votes := default ∅ (votesByID m !! id);
               e_cancels := default ∅ (cancelsByID m !! id) |}).
  assert (memory_ledger m !! id = Some e) as He by (by rewrite memory_lookup, Hp).
  do 2 wp_rule; cbn.
  { split; [done|]. right. rewrite He. exists 0. unfold vote_entry. by rewrite decide_True. }
  change (default ∅ (votesByID m !! id)) with (e_votes e).
  destruct (e_votes e !! voter) eqn:Hv.
  { cbn. split; [done|]. right. rewrite He. exists 0. unfold vote_entry.
    rewrite decide_False by auto. by rewrite Hv. }
  apply wp_bind, wp_putm, wp_bind, wp_ext, resolveVoteWeight_wp. intros weight w1 Hwt Hw1.
  apply wp_putm. cbn. exists e. eexists _, weight. split; [done|]. split; [exact Hwt|].
  unfold vote_entry. rewrite decide_False, Hv by auto. split; [done|].
  apply memory_ledger_set.
  - intros k Hk. cbn. by rewrite !lookup_insert_ne.
  - rewrite memory_lookup. cbn. by rewrite !lookup_insert_eq.
Qed.

Lemma mark_and_run_wp now id p w m e :
  proposals m !! id = Some p -> memory_ledger m !! id = Some e ->
  wp (mark_and_run s id now p) (w, m) (λ r st, r <> Panic /\
    memory_ledger st.2 = <[id := with_p (set_executed now 0 (e_p e)) e]> (memory_ledger m)).
Proof.
  intros Hp He. unfold mark_and_run. apply wp_bind, wp_putm.
  assert (memory_ledger (set_proposals <[id := set_executed now now p]> m) =
    <[id := with_p (set_executed now 0 (e_p e)) e]> (memory_ledger m)) as Hl.
  { rewrite (memory_ledger_proposal _ _ _ _ Hp). rewrite memory_lookup, Hp in He.
    cbn in He. by injection He as <-. }
  destruct (executor s) as [exec|] eqn:Hx; [|by apply wp_ret].
  apply wp_ext, wp_of_run. intros r w' E. eapply executor_law in E as [_ Hr]; [|done].
  by split.
Qed.

Lemma executeInMemory_wp now id w m :
  wp (executeInMemory s id now) (w, m)
    (λ r st, execute_rel true (timelock s) now (memory_ledger m) id r (memory_ledger st.2)).
Proof.
  unfold executeInMemory. apply wp_bind, wp_getm.
  destruct (proposals m !! id) as [p|] eqn:Hp; [|by left].
  set (e := {| e_p := core p; e_votes := default ∅ (votesByID m !! id);
               e_cancels := default ∅ (cancelsByID m !! id) |}).
  assert (memory_ledger m !! id = Some e) as He by (by rewrite memory_lookup, Hp).
  assert (forall e', execute_entry (timelock s) now e = Ok (e', true) ->
    e' = with_p (set_executed now 0 (e_p e)) e ->
    wp (mark_and_run s id now p) (w, m)
      (λ r st, execute_rel true (timelock s) now (memory_ledger m) id r (memory_ledger st.2)))
    as Hrun.
  { intros e' Hx ->. eapply wp_mono; [by eapply mark_and_run_wp|].
    intros [] st [Hr Hl]; [| |done]; cbn; [|right; split; [done|]]; eauto 10. }
  assert (forall q, execute_entry (timelock s) now e = Ok (with_p q e, false) ->
    forall q', core q' = core q ->
    wp (putm (W := W) (set_proposals <[id := q']>)) (w, m)
      (λ r st, execute_rel true (timelock s) now (memory_ledger m) id r (memory_ledger st.2)))
    as Hput.
  { intros q Hx q' Hq. apply wp_putm. cbn. exists e. eexists _, _. split; [done|].
    split; [exact Hx|]. rewrite (memory_ledger_proposal _ _ _ _ Hp), Hq. done. }
  unfold execute_entry in Hrun, Hput. cbv zeta in Hrun, Hput.
  change (g_Status (e_p e)) with (g_Status p) in Hrun, Hput.
  change (passed (e_p e)) with (passed p) in Hrun, Hput.
  change (g_ExecutableAt (e_p e)) with (g_ExecutableAt p) in Hrun, Hput.
  destruct (g_Status p); try (by left).
  - destruct (negb (passed p)); [by eapply Hput|].
    destruct (Delay (timelock s) <=? 0); [by eapply Hrun|by eapply Hput].
  - destruct (match g_ExecutableAt p with Some _ => _ | None => _ end); [by left|].
    by eapply Hrun.
Qed.

Lemma cancelInMemory_wp now id voter w m :
  wp (cancelInMemory s id voter now) (w, m)
    (λ r st, cancel_rel (timelock s) now (memory_ledger m) id voter r (memory_ledger st.2)).
Proof.
  unfold cancelInMemory. apply wp_bind, wp_getm.
  destruct (proposals m !! id) as [p|] eqn:Hp; [|by left].
  set (e := {| e_p := core p; e_votes := default ∅ (votesByID m !! id);
               e_cancels := default ∅ (cancelsByID m !! id) |}).
  assert (memory_ledger m !! id = Some e) as He by (by rewrite memory_lookup, Hp).
  apply wp_bind. unfold guard_cancellable.
  destruct (cancellable p now) eqn:Hcan; [by left|]. apply wp_ret.
  change (default ∅ (cancelsByID m !! id)) with (e_cancels e).
  destruct (default false (e_cancels e !! voter)) eqn:Hv; [by left|].
  apply wp_bind, wp_putm. cbv zeta.
  change (CancellationThreshold _ _) with (threshold_of (timelock s) (e_p e)).
  change (g_CancellationVotes _) with (cancel_votes (add_cancel voter e)).
  assert (exists e' b, cancel_entry (timelock s) now voter e = Ok (e', b) /\
    e' = (if b then with_p (set_cancelled now 0 (e_p e)) (add_cancel voter e)
          else add_cancel voter e) /\
    b = negb (cancel_votes (add_cancel voter e) <? threshold_of (timelock s) (e_p e)))
    as (e' & b & Hx & -> & Hb).
  { unfold cancel_entry. change (cancellable (e_p e) now) with (cancellable p now).
    rewrite Hcan, Hv. cbv zeta. destruct (_ <? _); by eexists _, _. }
  destruct (cancel_votes (add_cancel voter e) <? threshold_of (timelock s) (e_p e)) eqn:Hth;
    subst b; cbn in Hx; cbv beta; first [apply wp_bind, wp_putm, wp_ret | idtac]; cbn; exists e; eexists;
    (split; [done|]; split; [exact Hx|]);
    (apply memory_ledger_set; [intros k Hk; cbn; by rewrite !lookup_insert_ne|]);
    rewrite memory_lookup; cbn; by rewrite !lookup_insert_eq.
Qed.
End paths.
End govspec.
