(* ===== verification/GovProps.v ===== *)
(** The guarantees of governance: both paths of the service refine the same
    meaning; tallies, decisions, the timelock and the cancellation window over
    every sequence of calls; the weight of a vote is fixed at creation. *)
From S2P Require Export GovSpec.
From stdpp Require Import options.
#[local] Set Default Proof Using "Type*".
Open Scope Z_scope.
Local Open Scope go_scope.

Module govprops.
Import governance gov govspec.

(** ** Calls *)
Inductive gcall :=
  | CallPropose (now : time) (new : uuid) (input : CreateProposalInput)
  | CallVote (now : time) (proposalID userID : string) (vote : bool)
  | CallExecute (now : time) (proposalID : string)
  | CallCancel (now : time) (proposalID userID : string).

(** A proposal as [CreateProposal] makes it, with no ballot. *)
Definition new_entry (e : entry) : Prop :=
  (exists now new creator input snap total,
     e_p e = core (new_proposal now new creator input snap total)) /\ e_votes e = ∅.

(** What a call may do to one entry. *)
Inductive entry_step (cfg : TimelockConfig) (e : entry) : entry -> Prop :=
  | step_vote voter vote weight e' :
      weight_rule (e_p e) voter weight -> vote_entry voter vote weight e = Ok e' ->
      entry_step cfg e e'
  | step_execute now e' run : execute_entry cfg now e = Ok (e', run) -> entry_step cfg e e'
  | step_cancel now voter e' b : cancel_entry cfg now voter e = Ok (e', b) -> entry_step cfg e e'
  | step_add_cancel now voter :
      cancellable (e_p e) now = None -> default false (e_cancels e !! voter) = false ->
      entry_step cfg e (add_cancel voter e).

Inductive ledger_step (cfg : TimelockConfig) (L : gmap uuid entry) : gmap uuid entry -> Prop :=
  | lstep_same : ledger_step cfg L L
  | lstep_entry id e e' :
      L !! id = Some e -> entry_step cfg e e' -> ledger_step cfg L (<[id := e']> L)
  | lstep_new id e : L !! id = None -> new_entry e -> ledger_step cfg L (<[id := e]> L).

(** The result of a call without the value it returns. *)
Definition outcome {A} (r : result A) : result unit :=
  match r with Ok _ => Ok tt | Err e => Err e | Panic => Panic end.

Definition on_parsed (L : gmap uuid entry) (r : result unit) (L' : gmap uuid entry)
    (P : Prop) : Prop :=
  (exists err, r = Err err) /\ L' = L \/ P.

(** The meaning of a call on the ledger; [in_memory] tells the path. *)
Definition gcall_spec `{UUIDLib} (in_memory : bool) (cfg : TimelockConfig) (c : gcall)
    (L : gmap uuid entry) (r : result unit) (L' : gmap uuid entry) : Prop :=
  match c with
  | CallPropose _ new _ => r <> Panic /\
      ((exists err, r = Err err) /\ L' = L \/
       exists e, L !! new = None /\ new_entry e /\ L' = <[new := e]> L)
  | CallVote _ pid uid vote => on_parsed L r L' (exists id voter,
      uuid_Parse pid = Some id /\ uuid_Parse uid = Some voter /\ vote_rel L id voter vote r L')
  | CallExecute now pid => on_parsed L r L' (exists id,
      uuid_Parse pid = Some id /\ execute_rel in_memory cfg now L id r L')
  | CallCancel now pid uid => on_parsed L r L' (exists id voter rb,
      uuid_Parse pid = Some id /\ uuid_Parse uid = Some voter /\ r = outcome rb /\
      cancel_rel cfg now L id voter rb L')
  end.

Section run.
Context {W : Type} `{Repository W, UUIDLib} (s : service W).

Definition discard {S A} (m : M S A) : M S unit := let! _ := m in gret tt.

Definition run_gcall (c : gcall) : M (GSt W) unit :=
  match c with
  | CallPropose now new input => discard (CreateProposal s now new input)
  | CallVote now pid uid vote => VoteProposal s now pid uid vote
  | CallExecute now pid => ExecuteProposal s now pid
  | CallCancel now pid uid => discard (CancelProposal s now pid uid)
  end.

Definition ledger_at (ledger_of : W -> gmap uuid entry) (st : GSt W) : gmap uuid entry :=
  if has_repo s then ledger_of st.1 else memory_ledger st.2.

(** A new identifier is not one of a stored proposal. *)
Definition fresh_call (L : gmap uuid entry) (c : gcall) : Prop :=
  match c with CallPropose _ new _ => L !! new = None | _ => True end.

(** A sequence of calls, with its outcomes. *)
Inductive gruns (ledger_of : W -> gmap uuid entry) : GSt W -> list (gcall * result unit) ->
    GSt W -> Prop :=
  | gruns_nil st : gruns ledger_of st [] st
  | gruns_cons st c r st1 cs st' :
      fresh_call (ledger_at ledger_of st) c -> run_gcall c st = (r, st1) ->
      gruns ledger_of st1 cs st' -> gruns ledger_of st ((c, r) :: cs) st'.
End run.

Lemma wp_discard {S A} (m : M S A) st (Q : result unit -> S -> Prop) :
  wp m st (λ r st', Q (outcome r) st') -> wp (discard m) st Q.
Proof. intros Hm. apply wp_bind. eapply wp_mono; [exact Hm|]. by intros [] ?. Qed.

Section calls.
Context {W : Type} `{Repository W, UUIDLib} (ledger_of : W -> gmap uuid entry).
Context `{!RepositoryLaws W ledger_of} (s : service W) `{!ResolverLaws ledger_of s}.

#[local] Abbreviation at_ := (ledger_at s ledger_of).
#[local] Abbreviation spec := (gcall_spec (negb (has_repo s)) (timelock s)).

Lemma vote_call now pid uid vote st :
  wp (VoteProposal s now pid uid vote) st
    (λ r st', spec (CallVote now pid uid vote) (at_ st) r (at_ st')).
Proof.
  unfold VoteProposal, gcall_spec, on_parsed. destruct st as [w m].
  apply wp_bind, wp_gparse; [|by eauto]. intros id Hid.
  apply wp_bind, wp_gparse; [|by eauto]. intros voter Hv. unfold ledger_at.
  destruct (has_repo s).
  - apply wp_ext. eapply wp_mono; [apply (vote_repo_wp ledger_of s)|]. cbn. eauto 10.
  - eapply wp_mono; [apply (vote_memory_wp ledger_of s)|]. cbn. eauto 10.
Qed.

Lemma execute_call now pid st :
  wp (ExecuteProposal s now pid) st
    (λ r st', spec (CallExecute now pid) (at_ st) r (at_ st')).
Proof.
  unfold ExecuteProposal, gcall_spec, on_parsed. destruct st as [w m].
  apply wp_bind, wp_gparse; [|by eauto]. intros id Hid. unfold ledger_at.
  destruct (has_repo s).
  - apply wp_ext. eapply wp_mono; [apply (executeWithRepo_wp ledger_of s)|]. cbn. eauto 10.
  - eapply wp_mono; [apply (executeInMemory_wp ledger_of s)|]. cbn. eauto 10.
Qed.

Lemma cancel_call now pid uid st :
  wp (discard (CancelProposal s now pid uid)) st
    (λ r st', spec (CallCancel now pid uid) (at_ st) r (at_ st')).
Proof.
  unfold CancelProposal, gcall_spec, on_parsed. destruct st as [w m].
  apply wp_discard; apply wp_bind, wp_gparse; [|by eauto]. intros id Hid.
  apply wp_bind, wp_gparse; [|by eauto]. intros voter Hv. unfold ledger_at.
  destruct (has_repo s).
  - apply wp_ext. eapply wp_mono; [apply (cancelWithRepo_wp ledger_of s)|]. cbn. eauto 15.
  - eapply wp_mono; [apply (cancelInMemory_wp ledger_of s)|]. cbn. eauto 15.
Qed.

Lemma propose_call now new input st :
  at_ st !! new = None ->
  wp (discard (CreateProposal s now new input)) st
    (λ r st', spec (CallPropose now new input) (at_ st) r (at_ st')).
Proof.
  intros Hnew. unfold CreateProposal, gcall_spec. destruct st as [w m].
  apply wp_discard; apply wp_bind, wp_gparse; [|by eauto]. intros creator _.
  wp_rule. wp_rule; [by eauto|].
  wp_rule. apply wp_ext, (snapshotWeights_wp ledger_of s). intros [snap total] w1 Hw1. cbn [fst snd].
  set (p := new_proposal now new creator input snap total).
  assert (forall part, new_entry (fresh_entry p part)) as Hp
    by (intros part; split; [|done]; by exists now, new, creator, input, part, total).
  unfold ledger_at in *. destruct (has_repo s); wp_rule.
  - wp_rule. apply wp_ext. eapply wp_refines; [by apply (CreateProposal_law p)|].
    intros [[]|err|] w2 Hr; [| |done]; cbn in *; rewrite Hw1 in Hr; (split; [done|]).
    + destruct Hr as [_ Hl]. right. eauto.
    + destruct Hr as [Hl|(_ & part & _ & Hl)]; eauto 6.
  - apply wp_putm. cbn. split; [done|]. right. cbn in Hnew.
    eexists. split; [done|]. split; [|apply memory_ledger_set].
    2: { intros k Hk. cbn. by rewrite !lookup_insert_ne. }
    2: { rewrite memory_lookup. cbn. by rewrite !lookup_insert_eq. }
    split; [|done]. by exists now, new, creator, input, snap, total.
Qed.

Lemma gcall_wp c st :
  fresh_call (at_ st) c ->
  wp (run_gcall s c) st (λ r st', spec c (at_ st) r (at_ st')).
Proof.
  destruct c; intros Hf; [by apply propose_call|apply vote_call|apply execute_call|apply cancel_call].
Qed.
End calls.

(** Every outcome of a call is one step of the ledger. *)
Lemma spec_step `{UUIDLib} in_memory cfg c L r L' :
  gcall_spec in_memory cfg c L r L' -> r <> Panic /\ ledger_step cfg L L'.
Proof.
  destruct c; cbn; unfold on_parsed.
  - intros [? [[_ ->]|(e0 & ? & ? & ->)]]; (split; [done|by constructor]).
  - intros [[[err ->] ->]|(id & voter & _ & _ & Hr)]; [split; [done|constructor]|].
    destruct r as [?|err|]; cbn in Hr; [|destruct Hr as [-> _]; split; [done|constructor]|done].
    destruct Hr as (e & e' & weight & He & Hw & Hv & ->). split; [done|].
    eapply lstep_entry; [done|]. by eapply step_vote.
  - intros [[[err ->] ->]|(id & _ & Hr)]; [split; [done|constructor]|].
    destruct r as [?|err|]; cbn in Hr; [| |done]; split; try done.
    + destruct Hr as (e & e' & b & He & Hx & ->). eapply lstep_entry; [done|]. by eapply step_execute.
    + destruct Hr as [->|(_ & e & e' & He & Hx & ->)]; [constructor|].
      eapply lstep_entry; [done|]. by eapply step_execute.
  - intros [[[err ->] ->]|(id & voter & rb & _ & _ & -> & Hr)]; [split; [done|constructor]|].
    destruct rb as [?|err|]; cbn in Hr; [| |done]; split; try done.
    + destruct Hr as (e & e' & He & Hx & ->). eapply lstep_entry; [done|]. by eapply step_cancel.
    + destruct Hr as [->|(e & He & Hc & Hv & ->)]; [constructor|].
      eapply lstep_entry; [done|]. by eapply step_add_cancel.
Qed.

(** ** Tallies *)

(** The ballots with their weights: how many say [vote], and how heavy. *)
Definition count_of (vote : bool) (b : gmap uuid (bool * Z)) : Z :=
  map_fold (λ _ x n, if eqb x.1 vote then n + 1 else n) 0 b.
Definition weight_of (vote : bool) (b : gmap uuid (bool * Z)) : Z :=
  map_fold (λ _ x n, if eqb x.1 vote then n + x.2 else n) 0 b.

Lemma count_of_insert vote b voter v w :
  b !! voter = None ->
  count_of vote (<[voter := (v, w)]> b) = count_of vote b + (if eqb v vote then 1 else 0).
Proof.
  intros Hb. unfold count_of. rewrite map_fold_insert_L; [|intros; repeat case_match; lia|done].
  cbn. destruct (eqb v vote); lia.
Qed.

Lemma weight_of_insert vote b voter v w :
  b !! voter = None ->
  weight_of vote (<[voter := (v, w)]> b) = weight_of vote b + (if eqb v vote then w else 0).
Proof.
  intros Hb. unfold weight_of. rewrite map_fold_insert_L; [|intros; repeat case_match; lia|done].
  cbn. destruct (eqb v vote); lia.
Qed.

(** The tallies of a proposal are those of its ballots, every ballot with the
    weight the snapshot gives to its voter. *)
Definition tally_ok (e : entry) : Prop :=
  exists b : gmap uuid (bool * Z),
    fst <$> b = e_votes e /\
    (forall voter v w, b !! voter = Some (v, w) -> weight_rule (e_p e) voter w) /\
    g_ForVotes (e_p e) = wrap64 (count_of true b) /\
    g_AgainstVotes (e_p e) = wrap64 (count_of false b) /\
    g_ForWeight (e_p e) = wrap64 (weight_of true b) /\
    g_AgainstWeight (e_p e) = wrap64 (weight_of false b).

(** What each status says about the decision and its times. *)
Definition decision_ok (cfg : TimelockConfig) (e : entry) : Prop :=
  let p := e_p e in
  match g_Status p with
  | ProposalStatusPending =>
      g_ExecutableAt p = None /\ g_ExecutedAt p = None /\ g_CancelledAt p = None
  | ProposalStatusRejected =>
      passed p = false /\ g_ExecutedAt p = None /\ g_CancelledAt p = None
  | ProposalStatusPassed =>
      passed p = true /\ 0 < Delay cfg /\ g_ExecutedAt p = None /\ g_CancelledAt p = None /\
      is_Some (g_ExecutableAt p)
  | ProposalStatusExecuted =>
      passed p = true /\ g_CancelledAt p = None /\
      exists x, g_ExecutedAt p = Some x /\
        (0 < Delay cfg -> exists at_, g_ExecutableAt p = Some at_ /\ at_ <= x)
  | ProposalStatusCancelled =>
      passed p = true /\ g_ExecutedAt p = None /\
      exists x at_, g_CancelledAt p = Some x /\ g_ExecutableAt p = Some at_ /\ x < at_ /\
        threshold_of cfg p <= cancel_votes e
  | ProposalStatusOther _ => False
  end.

Definition entry_ok (cfg : TimelockConfig) (e : entry) : Prop := tally_ok e /\ decision_ok cfg e.
Definition ledger_ok (cfg : TimelockConfig) (L : gmap uuid entry) : Prop :=
  map_Forall (λ _ e, entry_ok cfg e) L.

Definition final (e : entry) : bool :=
  match g_Status (e_p e) with
  | ProposalStatusRejected | ProposalStatusExecuted | ProposalStatusCancelled => true
  | _ => false
  end.

Lemma tally_ok_ext e e' :
  e_votes e' = e_votes e -> g_ForVotes (e_p e') = g_ForVotes (e_p e) ->
  g_AgainstVotes (e_p e') = g_AgainstVotes (e_p e) -> g_ForWeight (e_p e') = g_ForWeight (e_p e) ->
  g_AgainstWeight (e_p e') = g_AgainstWeight (e_p e) -> g_SnapshotAt (e_p e') = g_SnapshotAt (e_p e) ->
  g_WeightSnapshot (e_p e') = g_WeightSnapshot (e_p e) ->
  tally_ok e -> tally_ok e'.
Proof.
  unfold tally_ok, weight_rule. intros -> -> -> -> -> -> -> Ht. exact Ht.
Qed.

Lemma vote_tally voter vote weight e e' :
  weight_rule (e_p e) voter weight -> vote_entry voter vote weight e = Ok e' ->
  tally_ok e -> tally_ok e'.
Proof.
  unfold vote_entry. intros Hw Hv (b & Hb & Hr & Hf & Ha & Hfw & Haw).
  case_decide; [done|]. destruct (e_votes e !! voter) eqn:Hn; [done|]. injection Hv as <-.
  assert (b !! voter = None) as Hbn.
  { rewrite <-Hb, lookup_fmap in Hn. by destruct (b !! voter). }
  exists (<[voter := (vote, weight)]> b). cbn. split; [by rewrite fmap_insert, Hb|].
  split.
  { intros u v w. rewrite lookup_insert_Some. intros [[<- [= <- <-]]|[_ ?]]; [done|by apply (Hr u v w)]. }
  rewrite !count_of_insert, !weight_of_insert by done. rewrite Hf, Ha, Hfw, Haw.
  destruct vote; cbn; rewrite ?wrap64_add_l, ?Z.add_0_r; done.
Qed.

Lemma step_tally cfg e e' : entry_step cfg e e' -> tally_ok e -> tally_ok e'.
Proof.
  intros [voter vote weight e1 Hw Hv|now e1 run Hx|now voter e1 b Hx|now voter Hc Hv] Ht.
  - by eapply vote_tally.
  - unfold execute_entry in Hx. repeat case_match; simplify_eq; by eapply tally_ok_ext.
  - unfold cancel_entry in Hx. repeat case_match; simplify_eq; by eapply tally_ok_ext.
  - by eapply tally_ok_ext.
Qed.

Lemma step_decision cfg e e' : entry_step cfg e e' -> decision_ok cfg e -> decision_ok cfg e'.
Proof.
  unfold decision_ok.
  intros [voter vote weight e1 Hw Hv|now e1 run Hx|now voter e1 b Hx|now voter Hc Hv] Hd.
  - unfold vote_entry in Hv. case_decide as Hs; [done|].
    rewrite Hs in Hd. case_match; simplify_eq. cbn. by rewrite Hs.
  - unfold execute_entry in Hx. destruct (g_Status (e_p e)); try done.
    + destruct Hd as (Hxa & He & Hc).
      destruct (passed (e_p e)) eqn:Hp; cbn in Hx; [destruct (Z.leb_spec (Delay cfg) 0)|];
        simplify_eq; cbn; split_and!; eauto; eexists; split; [done|lia].
    + destruct Hd as (Hp & Hdl & He & Hc & [x Hat]). rewrite Hat in *.
      unfold time_Before in Hx. destruct (now <? x) eqn:Hlt; simplify_eq. apply Z.ltb_ge in Hlt. cbn.
      split_and!; eauto.
  - unfold cancel_entry, cancellable in Hx. case_decide as Hs; [done|].
    rewrite Hs in Hd. destruct Hd as (Hp & Hdl & He & Hc & [x Hat]). rewrite Hat in *.
    unfold time_Before in Hx. destruct (Z.ltb_spec now x); cbn in Hx; [|done].
    case_match; [done|]. cbv zeta in Hx.
    destruct (Z.ltb_spec (cancel_votes (add_cancel voter e)) (threshold_of cfg (e_p e)));
      simplify_eq; cbn; rewrite ?Hs; split_and!; eauto.
    exists now, x. split_and!; done.
  - unfold cancellable in Hc. case_decide as Hs; [done|].
    cbn. by rewrite Hs in *.
Qed.

Lemma step_entry_ok cfg e e' : entry_step cfg e e' -> entry_ok cfg e -> entry_ok cfg e'.
Proof. intros Hs []. split; [by eapply step_tally|by eapply step_decision]. Qed.

Lemma step_not_final cfg e e' : entry_step cfg e e' -> final e = false.
Proof.
  unfold final. intros [voter vote weight e1 Hw Hv|now e1 run Hx|now voter e1 b Hx|now voter Hc Hv].
  - unfold vote_entry in Hv. case_decide as Hs; [done|]. by rewrite Hs.
  - unfold execute_entry in Hx. by destruct (g_Status (e_p e)).
  - unfold cancel_entry, cancellable in Hx. case_decide as Hs; [done|].
    by rewrite Hs.
  - unfold cancellable in Hc. case_decide as Hs; [done|]. by rewrite Hs.
Qed.

Lemma entry_step_votes cfg e e' : entry_step cfg e e' -> e_votes e ⊆ e_votes e'.
Proof.
  intros [voter vote weight e1 Hw Hv|now e1 run Hx|now voter e1 b Hx|now voter Hc Hv].
  - unfold vote_entry in Hv. repeat case_match; simplify_eq. cbn. by apply insert_subseteq.
  - unfold execute_entry in Hx. repeat case_match; by simplify_eq.
  - unfold cancel_entry in Hx. repeat case_match; by simplify_eq.
  - done.
Qed.

Lemma new_entry_ok cfg e : new_entry e -> entry_ok cfg e.
Proof.
  intros [(now & new & creator & input & snap & total & Hp) Hv]. split.
  - exists ∅. rewrite Hv, Hp. split; [done|]. split; [|done]. intros voter v w. by rewrite lookup_empty.
  - unfold decision_ok. by rewrite Hp.
Qed.

Lemma ledger_step_ok cfg L L' : ledger_step cfg L L' -> ledger_ok cfg L -> ledger_ok cfg L'.
Proof.
  intros [|id e e' He Hs|id e Hn He] HL; [done|..]; apply map_Forall_insert_2; try done.
  - eapply step_entry_ok; [done|]. by apply (HL id).
  - by apply new_entry_ok.
Qed.

(** ** What stays of a ledger *)
Definition snapshot_of (e : entry) : option time * gmap uuid Z :=
  (g_SnapshotAt (e_p e), g_WeightSnapshot (e_p e)).

Record entry_kept (e e' : entry) : Prop := {
  kept_votes : e_votes e ⊆ e_votes e';
  kept_snapshot : snapshot_of e' = snapshot_of e;
  kept_final : final e = true -> e' = e;
}.

Definition ledger_kept (L L' : gmap uuid entry) : Prop :=
  forall id e, L !! id = Some e -> exists e', L' !! id = Some e' /\ entry_kept e e'.

#[export] Instance ledger_kept_preorder : PreOrder ledger_kept.
Proof.
  split.
  - intros L id e He. exists e. by repeat split.
  - intros L1 L2 L3 H1 H2 id e He. destruct (H1 id e He) as (e1 & He1 & [Hv1 Hs1 Hf1]).
    destruct (H2 id e1 He1) as (e2 & He2 & [Hv2 Hs2 Hf2]). exists e2. split; [done|]. split.
    + by etrans.
    + congruence.
    + intros Hf. rewrite (Hf1 Hf) in *. auto.
Qed.

Lemma step_snapshot cfg e e' : entry_step cfg e e' -> snapshot_of e' = snapshot_of e.
Proof.
  intros [voter vote weight e1 Hw Hv|now e1 run Hx|now voter e1 b Hx|now voter Hc Hv].
  - unfold vote_entry in Hv. repeat case_match; by simplify_eq.
  - unfold execute_entry in Hx. repeat case_match; by simplify_eq.
  - unfold cancel_entry in Hx. repeat case_match; by simplify_eq.
  - done.
Qed.

Lemma ledger_step_kept cfg L L' : ledger_step cfg L L' -> ledger_kept L L'.
Proof.
  intros [|id e e' He Hs|id e Hn He]; [done|..]; intros k x Hx.
  - destruct (decide (k = id)) as [->|]; [|rewrite lookup_insert_ne by done; exists x; by repeat split].
    rewrite lookup_insert_eq. simplify_eq. exists e'. split; [done|]. split.
    + by eapply entry_step_votes.
    + by eapply step_snapshot.
    + intros Hf. apply step_not_final in Hs. congruence.
  - rewrite lookup_insert_ne by congruence. exists x. by repeat split.
Qed.

(** ** Guarantees of the service *)
Section guarantees.
Context {W : Type} `{Repository W, UUIDLib} (ledger_of : W -> gmap uuid entry).
Context `{!RepositoryLaws W ledger_of} (s : service W) `{!ResolverLaws ledger_of s}.
Implicit Types st : GSt W.

#[local] Abbreviation at_ := (ledger_at s ledger_of).

Lemma gcall_step c st r st' :
  fresh_call (at_ st) c -> run_gcall s c st = (r, st') ->
  r <> Panic /\ ledger_step (timelock s) (at_ st) (at_ st').
Proof.
  intros Hf E. eapply spec_step. exact (wp_run _ _ _ _ _ (gcall_wp ledger_of s c st Hf) E).
Qed.

Lemma gruns_kept st cs st' : gruns s ledger_of st cs st' -> ledger_kept (at_ st) (at_ st').
Proof.
  induction 1 as [|st c r st1 cs st' Hf E _ IH]; [done|]. etrans; [|exact IH].
  eapply ledger_step_kept. by apply gcall_step in E as [_ ?].
Qed.

(** C5: Every call of the service, on the repository or on its maps, does to the
    ledger what its meaning says and never panics, whatever faults the storage,
    the resolver and the executor have. *)
Theorem run_gcall_refines c st r st' :
  fresh_call (at_ st) c -> run_gcall s c st = (r, st') ->
  gcall_spec (negb (has_repo s)) (timelock s) c (at_ st) r (at_ st') /\ r <> Panic.
Proof.
  intros Hf E. split; [|by eapply gcall_step].
  exact (wp_run _ _ _ _ _ (gcall_wp ledger_of s c st Hf) E).
Qed.

(** C6: After any sequence of calls the tallies of every proposal are the numbers and
    the snapshot weights of its ballots modulo 2^64, and its status agrees with
    its decision: with a positive delay an executed proposal was executed at or
    after the time the timelock fixed, a cancelled one was cancelled before it
    and by enough members, and a rejected one had no majority. *)
Theorem gruns_ledger_ok st cs st' :
  gruns s ledger_of st cs st' ->
  ledger_ok (timelock s) (at_ st) -> ledger_ok (timelock s) (at_ st').
Proof.
  induction 1 as [|st c r st1 cs st' Hf E _ IH]; [done|]. intros HL. apply IH.
  eapply ledger_step_ok; [|done]. by apply gcall_step in E as [_ ?].
Qed.

(** A rejected, executed or cancelled proposal is never written again, and no
    call removes a proposal. *)
Theorem gruns_final st cs st' id e :
  gruns s ledger_of st cs st' -> at_ st !! id = Some e -> final e = true ->
  at_ st' !! id = Some e.
Proof.
  intros Hr He Hf. destruct (gruns_kept _ _ _ Hr id e He) as (e' & He' & [_ _ Hk]).
  by rewrite He', Hk.
Qed.

Lemma vote_ok now pid uid vote st st' :
  run_gcall s (CallVote now pid uid vote) st = (Ok tt, st') ->
  exists id voter e e' weight, uuid_Parse pid = Some id /\ uuid_Parse uid = Some voter /\
    at_ st !! id = Some e /\ weight_rule (e_p e) voter weight /\
    vote_entry voter vote weight e = Ok e' /\ at_ st' = <[id := e']> (at_ st).
Proof.
  intros E. pose proof (wp_run _ _ _ _ _ (gcall_wp ledger_of s (CallVote now pid uid vote) st I) E) as Hs. cbn in Hs.
  destruct Hs as [[[err Hr] _]|(id & voter & Hid & Hv & e & e' & weight & Hx)]; [done|].
  by exists id, voter, e, e', weight.
Qed.

(** A vote that succeeded is counted once: whatever calls run after it, no other
    vote of the same user on the same proposal succeeds, however the two
    identifiers are spelled. *)
Theorem VoteProposal_once now pid uid vote st st1 cs st2 now' pid' uid' vote' r st3 :
  run_gcall s (CallVote now pid uid vote) st = (Ok tt, st1) ->
  gruns s ledger_of st1 cs st2 ->
  uuid_Parse pid' = uuid_Parse pid -> uuid_Parse uid' = uuid_Parse uid ->
  run_gcall s (CallVote now' pid' uid' vote') st2 = (r, st3) ->
  (exists err, r = Err err) /\ at_ st3 = at_ st2.
Proof.
  intros E1 Hr Hp Hu E2.
  apply vote_ok in E1 as (id & voter & e & e1 & w & Hid & Hv & He & _ & Hx & Hl).
  assert (exists b, e_votes e1 !! voter = Some b) as [b Hb].
  { unfold vote_entry in Hx. repeat case_match; simplify_eq. exists vote. apply lookup_insert_eq. }
  assert (at_ st1 !! id = Some e1) as He1 by (by rewrite Hl, lookup_insert_eq).
  destruct (gruns_kept _ _ _ Hr id e1 He1) as (e2 & He2 & [Hk _ _]).
  eapply lookup_weaken in Hk; [|exact Hb].
  pose proof (wp_run _ _ _ _ _ (gcall_wp ledger_of s (CallVote now' pid' uid' vote') st2 I) E2) as Hs. cbn in Hs.
  destruct Hs as [?|(id' & voter' & Hid' & Hv' & Hs)]; [done|].
  assert (id' = id /\ voter' = voter) as [-> ->] by (split; congruence).
  destruct r; cbn in Hs; [|by destruct Hs as [-> _]; eauto|done].
  destruct Hs as (e0 & e3 & w' & He0 & _ & Hx' & _). assert (e0 = e2) as -> by congruence.
  unfold vote_entry in Hx'. rewrite Hk in Hx'. by case_decide.
Qed.

(** The weight of a vote is the one recorded when the proposal was created,
    whatever the resolver answers at the time of the vote and whatever calls
    came between. *)
Theorem vote_weight_fixed st cs st1 now pid uid vote st2 id voter e at0 w :
  at_ st !! id = Some e -> g_SnapshotAt (e_p e) = Some at0 ->
  g_WeightSnapshot (e_p e) !! voter = Some w ->
  gruns s ledger_of st cs st1 ->
  uuid_Parse pid = Some id -> uuid_Parse uid = Some voter ->
  run_gcall s (CallVote now pid uid vote) st1 = (Ok tt, st2) ->
  exists e1, at_ st1 !! id = Some e1 /\ e_votes e1 !! voter = None /\
    at_ st2 = <[id := {| e_p := core (count_vote vote w 0 (e_p e1));
                         e_votes := <[voter := vote]> (e_votes e1);
                         e_cancels := e_cancels e1 |}]> (at_ st1).
Proof.
  intros He Hat Hw Hr Hp Hu E.
  apply vote_ok in E as (id' & voter' & e1 & e2 & w' & Hid & Hv & He1 & Hwr & Hx & Hl).
  simplify_eq. destruct (gruns_kept _ _ _ Hr id e He) as (e1' & He1' & [_ Hs _]).
  assert (e1' = e1) as -> by congruence. unfold snapshot_of in Hs. injection Hs as Hs1 Hs2.
  exists e1. unfold weight_rule in Hwr. rewrite Hs1, Hs2, Hat, Hw in Hwr. subst w'. unfold vote_entry in Hx.
  repeat case_match; simplify_eq. done.
Qed.
End guarantees.

End govprops.
