(* ===== verification/GovPg.v ===== *)
(** The PostgreSQL implementation of the governance repository
    (src/internal/domain/governance/repository_pg.go) and the proof that it
    keeps the contract of [GovSpec]. *)
From S2P Require Export Postgres GovSpec GovProps Demo.
From stdpp Require Import options.
#[local] Set Default Proof Using "Type*".
Open Scope Z_scope.
Local Open Scope go_scope.

Module govpg.
Import governance gov govspec.

(** ** Tables

    A row of [governance_proposals] with the rows of the three tables that
    reference it and are deleted with it: [governance_weight_snapshots],
    [governance_votes] with the weight of each vote, and
    [governance_cancellation_votes].  The creation times of votes, which
    nothing reads, are left out. *)
Record grow := {
  r_p : Proposal;
  r_weights : gmap uuid Z;
  r_votes : gmap uuid (bool * Z);
  r_cancels : gset uuid;
}.

Abbreviation gtables := (gmap uuid grow) (only parsing).

(** The projection [proposalColumns] of a row: the snapshot and the count of
    cancellation votes are not columns. *)
Definition proposal_columns (id : uuid) (r : grow) : Proposal :=
  let p := r_p r in
  {| g_ID := id; g_Title := g_Title p; g_Description := g_Description p;
     g_ProposalType := g_ProposalType p; g_CreatorID := g_CreatorID p; g_Status := g_Status p;
     g_ForVotes := g_ForVotes p; g_AgainstVotes := g_AgainstVotes p;
     g_ExecutedAt := g_ExecutedAt p; g_CreatedAt := g_CreatedAt p; g_UpdatedAt := g_UpdatedAt p;
     g_WeightSnapshot := ∅; g_ForWeight := g_ForWeight p;
     g_AgainstWeight := g_AgainstWeight p; g_SnapshotAt := g_SnapshotAt p;
     g_SnapshotTotalWeight := g_SnapshotTotalWeight p; g_ExecutableAt := g_ExecutableAt p;
     g_CancelledAt := g_CancelledAt p; g_CancellationVotes := 0 |}.

(** The row an [INSERT] of [CreateProposal] makes: the columns it does not name
    are NULL. *)
Definition inserted_proposal (p : Proposal) : Proposal :=
  {| g_ID := g_ID p; g_Title := g_Title p; g_Description := g_Description p;
     g_ProposalType := g_ProposalType p; g_CreatorID := g_CreatorID p; g_Status := g_Status p;
     g_ForVotes := g_ForVotes p; g_AgainstVotes := g_AgainstVotes p;
     g_ExecutedAt := None; g_CreatedAt := g_CreatedAt p; g_UpdatedAt := g_UpdatedAt p;
     g_WeightSnapshot := ∅; g_ForWeight := g_ForWeight p;
     g_AgainstWeight := g_AgainstWeight p; g_SnapshotAt := g_SnapshotAt p;
     g_SnapshotTotalWeight := g_SnapshotTotalWeight p; g_ExecutableAt := None;
     g_CancelledAt := None; g_CancellationVotes := 0 |}.

Definition set_row_p (f : Proposal -> Proposal) (r : grow) : grow :=
  {| r_p := f (r_p r); r_weights := r_weights r; r_votes := r_votes r; r_cancels := r_cancels r |}.
Definition add_weight (voter : uuid) (weight : Z) (r : grow) : grow :=
  {| r_p := r_p r; r_weights := <[voter := weight]> (r_weights r); r_votes := r_votes r;
     r_cancels := r_cancels r |}.
Definition add_vote (voter : uuid) (vote : bool) (weight : Z) (r : grow) : grow :=
  {| r_p := r_p r; r_weights := r_weights r; r_votes := <[voter := (vote, weight)]> (r_votes r);
     r_cancels := r_cancels r |}.
Definition add_cancellation (voter : uuid) (r : grow) : grow :=
  {| r_p := r_p r; r_weights := r_weights r; r_votes := r_votes r;
     r_cancels := {[voter]} ∪ r_cancels r |}.

Definition entry_of (id : uuid) (r : grow) : entry :=
  {| e_p := core (set_snapshot (r_weights r) (proposal_columns id r));
     e_votes := fst <$> r_votes r; e_cancels := gset_to_gmap true (r_cancels r) |}.
Definition gledger (t : gmap uuid grow) : gmap uuid entry :=
  map_imap (λ id r, Some (entry_of id r)) t.

Lemma gledger_lookup t id : gledger t !! id = entry_of id <$> t !! id.
Proof. unfold gledger. rewrite map_lookup_imap. by destruct (t !! id). Qed.

Lemma gledger_insert t id r : gledger (<[id := r]> t) = <[id := entry_of id r]> (gledger t).
Proof.
  apply map_eq. intros k. rewrite gledger_lookup. destruct (decide (k = id)) as [->|].
  - by rewrite !lookup_insert_eq.
  - by rewrite !lookup_insert_ne, gledger_lookup.
Qed.

(** The order in which [range] visits a snapshot, which Go leaves open. *)
Class RangeOrder := {
  range_weights : gmap uuid Z -> list (uuid * Z);
  range_weights_perm m : range_weights m ≡ₚ map_to_list m;
}.

(** [INT] and [BIGINT] columns refuse what they cannot hold. *)
Definition out_of_int32 (x : Z) : bool := (x <? - 2 ^ 31) || (2 ^ 31 <=? x).
Definition out_of_int64 (x : Z) : bool := (x <? - 2 ^ 63) || (2 ^ 63 <=? x).

Section repository_pg.
Context `{RangeOrder}.

Abbreviation GM := (M (PgState (gmap uuid grow))).

Definition insertWeight (proposalID voterID : uuid) (weight : Z) : GM unit :=
  gwrap "inserting governance weight snapshot: %w" (pg_insert
    (λ t, match t !! proposalID with
          | None => Some "23503"%string
          | Some _ => if weight <? 0 then Some "23514"%string else None
          end)
    (alter (add_weight voterID weight) proposalID)).

Fixpoint insertWeights (proposalID : uuid) (l : list (uuid * Z)) : GM unit :=
  match l with
  | [] => gret tt
  | (voterID, weight) :: l =>
      do! insertWeight proposalID voterID weight in insertWeights proposalID l
  end.

Definition pg_CreateProposal (p : Proposal) : GM unit :=
  do! gwrap "inserting governance proposal: %w" (pg_insert
    (λ t, if out_of_int32 (g_ForVotes p) || out_of_int32 (g_AgainstVotes p)
          then Some "22003"%string
          else if t !! g_ID p is Some _ then Some "23505"%string else None)
    <[g_ID p := {| r_p := inserted_proposal p; r_weights := ∅; r_votes := ∅; r_cancels := ∅ |}]>) in
  insertWeights (g_ID p) (range_weights (g_WeightSnapshot p)).

(** An empty snapshot leaves the field nil, which reads like the empty map. *)
Definition loadWeightSnapshot (p : Proposal) : GM Proposal :=
  let! snapshot := gwrap "loading governance weight snapshot: %w" (pg_select (λ t,
    match t !! g_ID p with Some r => r_weights r | None => ∅ end)) in
  gret (if decide (snapshot = ∅) then p else set_snapshot snapshot p).

Definition pg_CountCancellationVotes (proposalID : uuid) : GM Z :=
  gwrap "counting governance cancellation votes: %w" (pg_select (λ t,
    match t !! proposalID with Some r => Z.of_nat (size (r_cancels r)) | None => 0 end)).

Definition loadCancellationVotes (p : Proposal) : GM Proposal :=
  gtry (pg_CountCancellationVotes (g_ID p)) (λ r,
    gret (match r with inl count => set_cancellation_votes count p | inr _ => p end)).

Definition pg_GetProposal (id : uuid) : GM (option Proposal) :=
  let! p := gtry (pg_row (λ t, proposal_columns id <$> t !! id)) (λ r,
    match r with
    | inl p => gret p
    | inr err =>
        if decide (err = sql_ErrNoRows) then gfail ErrProposalNotFound
        else gfail (Wrapf "getting governance proposal: %w" err)
    end) in
  let! p := loadWeightSnapshot p in
  let! p := loadCancellationVotes p in
  gret (Some p).

Fixpoint load_listed (l : list Proposal) : GM (list Proposal) :=
  match l with
  | [] => gret []
  | p :: l =>
      let! p := gtry (loadWeightSnapshot p) (λ r,
        gret (match r with inl p' => p' | inr _ => p end)) in
      let! p := loadCancellationVotes p in
      let! l := load_listed l in
      gret (p :: l)
  end.

Definition pg_ListProposals (page limit : Z) : GM (list Proposal * Z) :=
  let page := if page <=? 0 then 1 else page in
  let limit := if limit <=? 0 then 10 else limit in
  let limit := if 100 <? limit then 100 else limit in
  let offset := wrap64 (wrap64 (page - 1) * limit) in
  let! total := gwrap "counting governance proposals: %w"
    (pg_select (λ t, Z.of_nat (size t))) in
  let! proposals := gwrap "listing governance proposals: %w" (pg_exec (λ t,
    if offset <? 0 then inr "2201X"%string
    else inl (take (Z.to_nat limit) (drop (Z.to_nat offset)
           (merge_sort newer ((λ '(id, r), proposal_columns id r) <$> map_to_list t))), t))) in
  let! proposals := load_listed proposals in
  gret (proposals, total).

(** [status = $4] in the condition of an update. *)
Definition row_has_status (id : uuid) (st : ProposalStatus) (t : gmap uuid grow) : bool :=
  match t !! id with Some r => bool_decide (g_Status (r_p r) = st) | None => false end.

Definition pg_MarkPassed (id : uuid) (executableAt now : time) : GM unit :=
  or_missing apperrors_ErrConflict (gwrap "marking governance proposal passed: %w" (pg_update
    (λ _, None) (row_has_status id ProposalStatusPending)
    (alter (set_row_p (set_passed executableAt now)) id))).

Definition pg_MarkCancelled (id : uuid) (cancelledAt now : time) : GM unit :=
  or_missing apperrors_ErrConflict (gwrap "cancelling governance proposal: %w" (pg_update
    (λ _, None) (row_has_status id ProposalStatusPassed)
    (alter (set_row_p (set_cancelled cancelledAt now)) id))).

(** [ON CONFLICT DO NOTHING] affects no row when the vote exists. *)
Definition pg_RecordCancellationVote (proposalID voterID : uuid) : GM bool :=
  let! rows := gwrap "recording governance cancellation vote: %w" (pg_exec (λ t,
    match t !! proposalID with
    | None => inr "23503"%string
    | Some r => if decide (voterID ∈ r_cancels r) then inl (0, t)
                else inl (1, <[proposalID := add_cancellation voterID r]> t)
    end)) in
  gret (0 <? rows).

Definition pg_HasVoted (proposalID voterID : uuid) : GM bool :=
  gwrap "checking governance vote existence: %w" (pg_select (λ t,
    match t !! proposalID with
    | Some r => bool_decide (is_Some (r_votes r !! voterID))
    | None => false
    end)).

Definition overflows (vote : bool) (weight : Z) (p : Proposal) : bool :=
  if vote then out_of_int32 (g_ForVotes p + 1) || out_of_int64 (g_ForWeight p + weight)
  else out_of_int32 (g_AgainstVotes p + 1) || out_of_int64 (g_AgainstWeight p + weight).

(** The two statements of the transaction of [RecordVoteWeighted]. *)
Definition record_vote_body (proposalID voterID : uuid) (vote : bool) (weight : Z) (now : time) :
    GM unit :=
  do! gwrap "recording governance vote: %w" (pg_insert
    (λ t, match t !! proposalID with
          | None => Some "23503"%string
          | Some r => if r_votes r !! voterID is Some _ then Some "23505"%string else None
          end)
    (alter (add_vote voterID vote weight) proposalID)) in
  let! _ := gwrap "updating proposal vote count: %w" (pg_update
    (λ t, match t !! proposalID with
          | Some r => if overflows vote weight (r_p r) then Some "22003"%string else None
          | None => None
          end)
    (λ t, if t !! proposalID is Some _ then true else false)
    (alter (set_row_p (count_vote vote weight now)) proposalID)) in
  gret tt.

Definition pg_RecordVoteWeighted (proposalID voterID : uuid) (vote : bool) (weight : Z)
    (now : time) : GM unit :=
  let! voted := pg_HasVoted proposalID voterID in
  do! gguard voted ErrAlreadyVoted in
  pg_in_tx (Some "beginning vote transaction: %w") None
    (record_vote_body proposalID voterID vote weight now).

(** Unconditional, and without a look at the number of rows. *)
Definition pg_UpdateStatus (id : uuid) (status : ProposalStatus) (executedAt : option time)
    (now : time) : GM unit :=
  let! _ := pg_update (λ _, None) (λ t, if t !! id is Some _ then true else false)
    (alter (set_row_p (λ p, match executedAt with
                            | Some x => set_status status now (set_executed x now p)
                            | None => set_status status now p
                            end)) id) in
  gret tt.

#[export] Instance gov_pgRepository : Repository (PgState (gmap uuid grow)) := {
  CreateProposalRow := pg_CreateProposal;
  GetProposalRow := pg_GetProposal;
  ListProposalRows := pg_ListProposals;
  RecordVoteWeighted := pg_RecordVoteWeighted;
  HasVoted := pg_HasVoted;
  UpdateStatus := pg_UpdateStatus;
  MarkPassed := pg_MarkPassed;
  MarkCancelled := pg_MarkCancelled;
  RecordCancellationVote := pg_RecordCancellationVote;
  CountCancellationVotes := pg_CountCancellationVotes;
}.
End repository_pg.
(** ** The contract holds *)
Definition pg_ledger (w : PgState (gmap uuid grow)) : gmap uuid entry := gledger (pg_tables w).

Section laws.
Context `{RangeOrder}.

(** An operation implements a meaning when its weakest precondition says so. *)
Lemma implements_wp {W T A} (tables_of : W -> T) (m : M W A) f :
  (forall w, wp m w (λ r w', (r, tables_of w') = f (tables_of w) \/
     (exists e, r = Err e /\ infra e = true) /\ tables_of w' = tables_of w)) ->
  implements tables_of m f.
Proof. intros Hm w r w' E. exact (wp_run _ _ _ _ _ (Hm w) E). Qed.

Lemma refines_wp {W T A} (tables_of : W -> T) (m : M W A) (R : T -> result A -> T -> Prop) :
  (forall w, wp m w (λ r w', R (tables_of w) r (tables_of w'))) -> refines tables_of m R.
Proof. intros Hm w r w' E. exact (wp_run _ _ _ _ _ (Hm w) E). Qed.

Lemma gledger_alter f g t id :
  (forall r, t !! id = Some r -> entry_of id (f r) = g (entry_of id r)) ->
  gledger (alter f id t) = alter g id (gledger t).
Proof.
  intros Hf. apply map_eq. intros k. rewrite gledger_lookup. destruct (decide (k = id)) as [->|].
  - rewrite !lookup_alter_eq, gledger_lookup. destruct (t !! id) eqn:E; [|done]. cbn. by rewrite Hf.
  - by rewrite !lookup_alter_ne, gledger_lookup.
Qed.

Lemma pg_HasVoted_law pid uid :
  implements pg_tables (pg_HasVoted pid uid) (query (λ t,
    match t !! pid with Some r => bool_decide (is_Some (r_votes r !! uid)) | None => false end)).
Proof. apply pg_wrapped_select_law. Qed.

Lemma pg_UpdateStatus_law id st at_ now :
  implements pg_ledger (UpdateStatus id st at_ now) (λ L,
    (Ok tt, alter (λ e, with_p (match at_ with
                                | Some x => set_status st 0 (set_executed x 0 (e_p e))
                                | None => set_status st 0 (e_p e)
                                end) e) id L)).
Proof.
  apply implements_wp. intros w. cbn. unfold pg_UpdateStatus, pg_ledger. apply wp_bind, wp_pg_update.
  - intros w' _ _ Ht. wp_rule. rewrite Ht. left. f_equal. apply gledger_alter. intros r _.
    by destruct at_.
  - intros w' Hn Ht. wp_rule. rewrite Ht. left. f_equal. apply map_eq. intros k.
    destruct (decide (k = id)) as [->|]; [|by rewrite lookup_alter_ne].
    rewrite lookup_alter_eq, gledger_lookup. by destruct (pg_tables w !! id).
  - intros code w' Ht. right. rewrite Ht. eauto.
Qed.

(** The two conditional updates. *)
Lemma pg_mark_law id from format f g :
  (forall r, entry_of id (set_row_p f r) = with_p (g (e_p (entry_of id r))) (entry_of id r)) ->
  implements pg_ledger
    (or_missing apperrors_ErrConflict (gwrap format (pg_update (λ _, None)
       (row_has_status id from) (alter (set_row_p f) id))))
    (λ L, spec_on L id apperrors_ErrConflict (λ e,
       if decide (g_Status (e_p e) = from) then Ok (with_p (g (e_p e)) e)
       else Err apperrors_ErrConflict)).
Proof.
  intros Hf. apply implements_wp. intros w. unfold or_missing, pg_ledger, row_has_status, spec_on.
  rewrite !gledger_lookup. apply wp_bind, wp_wrap, wp_pg_update.
  - intros w' Hh _ Ht. cbn. wp_rule. rewrite Ht. left. destruct (pg_tables w !! id) as [r|] eqn:E; [|done].
    apply bool_decide_eq_true in Hh. cbn. rewrite decide_True by done. f_equal.
    rewrite (alter_insert_row _ _ _ r E). by rewrite gledger_insert, Hf.
  - intros w' Hh Ht. cbn. wp_rule. rewrite Ht. left. destruct (pg_tables w !! id) as [r|] eqn:E; [|done].
    apply bool_decide_eq_false in Hh. cbn. by rewrite decide_False.
  - intros code w' Ht. right. rewrite Ht. cbn. eauto.
Qed.

Lemma pg_RecordCancellationVote_law id voter :
  implements pg_ledger (RecordCancellationVote id voter) (λ L,
    match L !! id with
    | None => (Err ErrProposalNotFound, L)
    | Some e => (Ok (negb (default false (e_cancels e !! voter))),
                 <[id := if default false (e_cancels e !! voter) then e
                         else add_cancel voter e]> L)
    end).
Proof.
  apply implements_wp. intros w. cbn. unfold pg_RecordCancellationVote, pg_ledger.
  rewrite gledger_lookup. apply wp_bind, wp_wrap, wp_pg_exec.
  - intros a t w' Hq Ht. cbn. apply wp_ret. rewrite Ht. clear Ht. left.
    destruct (pg_tables w !! id) as [r|] eqn:E; [|done]. cbn.
    rewrite lookup_gset_to_gmap. case_decide as Hm; simplify_eq; cbn.
    + rewrite option_guard_True by done. cbn. f_equal. symmetry. apply insert_id.
      by rewrite gledger_lookup, E.
    + rewrite option_guard_False by done. cbn. rewrite gledger_insert. f_equal.
      unfold entry_of, add_cancel, add_cancellation. cbn. by rewrite gset_to_gmap_union_singleton.
  - intros code w' Ht. right. rewrite Ht. cbn. eauto.
Qed.

Lemma pg_CountCancellationVotes_law id :
  implements pg_ledger (CountCancellationVotes id) (λ L,
    (Ok (match L !! id with Some e => cancel_votes e | None => 0 end), L)).
Proof.
  apply implements_wp. intros w. cbn. unfold pg_CountCancellationVotes, pg_ledger.
  rewrite gledger_lookup. apply wp_wrap, wp_pg_select.
  - intros w' Ht. left. cbn. rewrite Ht. destruct (pg_tables w !! id) as [r|]; [|done]. cbn.
    unfold cancel_votes. cbn. by rewrite <-size_dom, dom_gset_to_gmap.
  - intros code w' Ht. right. rewrite Ht. cbn. eauto.
Qed.

Lemma pg_GetProposal_law id : refines pg_ledger (GetProposalRow id) (λ L r L',
  L' = L /\
  match r with
  | Ok o => exists p e, o = Some p /\ L !! id = Some e /\ core p = e_p e /\ g_ID p = id
  | Err err => err = ErrProposalNotFound /\ L !! id = None \/ infra err = true
  | Panic => False
  end).
Proof.
  apply refines_wp. intros w. cbn. unfold pg_GetProposal, pg_ledger.
  apply wp_bind, wp_try, wp_pg_row.
  - intros p w1 Hp Ht. rewrite gledger_lookup. apply fmap_Some in Hp as (r & E & ->).
    apply wp_ret, wp_bind. unfold loadWeightSnapshot. apply wp_bind, wp_wrap, wp_pg_select.
    2: { intros code w2 Ht2. cbn. split; [congruence|]. auto. }
    intros w2 Ht2. apply wp_ret, wp_bind. rewrite Ht. cbn [proposal_columns g_ID]. rewrite E.
    unfold loadCancellationVotes, pg_CountCancellationVotes.
    apply wp_try, wp_wrap, wp_pg_select; [intros w3 Ht3|intros code w3 Ht3];
      apply wp_ret, wp_ret;
      (split; [congruence|]); eexists _, (entry_of id r); (split; [done|]); (split; [done|]);
      case_decide as Hs; cbn; unfold entry_of; rewrite ?Hs; done.
  - intros w1 Hn Ht. rewrite gledger_lookup. rewrite decide_True by done. cbn.
    split; [congruence|]. left. by destruct (pg_tables w !! id).
  - intros code w1 Ht. rewrite decide_False by done. cbn. split; [congruence|]. auto.
Qed.

Definition voted_row (voter : uuid) (vote : bool) (weight : Z) (now : time) (r : grow) : grow :=
  set_row_p (count_vote vote weight now) (add_vote voter vote weight r).

Lemma record_vote_body_law pid voter vote weight now :
  refines pg_tables (record_vote_body pid voter vote weight now) (λ t r t',
    match r with
    | Ok _ => exists row, t !! pid = Some row /\ r_votes row !! voter = None /\
                t' = <[pid := voted_row voter vote weight now row]> t
    | Err e => infra e = true
    | Panic => False
    end).
Proof.
  apply refines_wp. intros w. unfold record_vote_body.
  apply wp_bind, wp_wrap, wp_pg_insert; [|done]. intros w1 Hc Ht1.
  destruct (pg_tables w !! pid) as [row|] eqn:E; [|done].
  destruct (r_votes row !! voter) eqn:Hv; [done|].
  rewrite (alter_insert_row _ _ _ row E) in Ht1.
  apply wp_bind, wp_wrap, wp_pg_update.
  - intros w2 _ _ Ht2. apply wp_ret. exists row. split; [done|]. split; [done|].
    rewrite Ht2, Ht1. unfold voted_row.
    rewrite (alter_insert_row _ _ _ (add_vote voter vote weight row)) by apply lookup_insert_eq.
    by rewrite insert_insert_eq.
  - intros w2 Hh _. by rewrite Ht1, lookup_insert_eq in Hh.
  - done.
Qed.

Lemma pg_RecordVoteWeighted_law pid voter vote weight now :
  implements pg_ledger (RecordVoteWeighted pid voter vote weight now) (λ L,
    spec_on L pid ErrProposalNotFound (λ e,
      match e_votes e !! voter with
      | Some _ => Err ErrAlreadyVoted
      | None => Ok {| e_p := core (count_vote vote weight 0 (e_p e));
                      e_votes := <[voter := vote]> (e_votes e); e_cancels := e_cancels e |}
      end)).
Proof.
  apply implements_wp. intros w. cbn. unfold pg_RecordVoteWeighted, pg_ledger, spec_on.
  rewrite gledger_lookup.
  apply wp_bind. eapply wp_query; [apply pg_HasVoted_law| |].
  2: { intros e w1 He Ht. right. rewrite Ht. eauto. }
  intros w1 Ht1. apply wp_bind, wp_guard; intros Hvoted.
  - left. rewrite Ht1. destruct (pg_tables w !! pid) as [row|]; [|done].
    apply bool_decide_eq_true in Hvoted as [x Hx]. cbn. by rewrite lookup_fmap, Hx.
  - eapply wp_refines; [apply pg_in_tx_law, record_vote_body_law|].
    intros [[]|e|] w2 Hr; cbn in Hr.
    + left. destruct Hr as (row & E & Hv & Ht2). rewrite Ht1 in *. rewrite E. cbn.
      rewrite lookup_fmap, Hv. cbn. rewrite Ht2, gledger_insert. f_equal. f_equal.
      unfold entry_of, voted_row. cbn. by rewrite fmap_insert.
    + right. destruct Hr as [Ht2 [[t1 He]|He]]; rewrite Ht2, Ht1; eauto.
    + by destruct Hr as [_ [_ ?]].
Qed.

(** ** A creation and its snapshot *)
Definition add_weights (l : list (uuid * Z)) (m : gmap uuid Z) : gmap uuid Z :=
  foldl (λ m x, <[x.1 := x.2]> m) m l.

Lemma add_weights_sub l m v w :
  add_weights l m !! v = Some w -> m !! v = Some w \/ (v, w) ∈ l.
Proof.
  revert m. induction l as [|[u x] l IH]; intros m; cbn; [by auto|]. intros Hw.
  apply IH in Hw as [Hw|Hw]; [|right; by right].
  apply lookup_insert_Some in Hw as [[-> ->]|[_ ?]]; [right; by left|by left].
Qed.

Lemma add_weights_dom l m v :
  is_Some (m !! v) \/ v ∈ l.*1 -> is_Some (add_weights l m !! v).
Proof.
  revert m. induction l as [|[u x] l IH]; intros m; cbn.
  - intros [?|H']; [done|]. by apply elem_of_nil in H'.
  - intros Hv. apply IH. rewrite elem_of_cons in Hv. destruct (decide (u = v)) as [->|].
    + rewrite lookup_insert_eq. eauto.
    + rewrite lookup_insert_ne by done. destruct Hv as [?|[<-|?]]; [by left|done|by right].
Qed.

Lemma add_weights_all m : add_weights (range_weights m) ∅ = m.
Proof.
  apply map_eq. intros v. pose proof (range_weights_perm m) as Hp.
  destruct (add_weights (range_weights m) ∅ !! v) eqn:E.
  - apply add_weights_sub in E as [E|E]; [done|]. rewrite Hp in E. symmetry.
    by apply elem_of_map_to_list in E.
  - destruct (m !! v) as [w|] eqn:Hm; [|done]. exfalso.
    apply elem_of_map_to_list in Hm. rewrite <-Hp in Hm.
    assert (is_Some (add_weights (range_weights m) ∅ !! v)) as [? ?]; [|congruence].
    apply add_weights_dom. right. apply list_elem_of_fmap. by exists (v, w).
Qed.

Definition with_weights (m : gmap uuid Z) (r : grow) : grow :=
  {| r_p := r_p r; r_weights := m; r_votes := r_votes r; r_cancels := r_cancels r |}.

(** The inserts of the snapshot stop at the first failure. *)
Lemma insertWeights_wp pid l row w :
  pg_tables w !! pid = Some row ->
  wp (insertWeights pid l) w (λ r w', exists k,
    pg_tables w' = <[pid := with_weights (add_weights (take k l) (r_weights row)) row]> (pg_tables w) /\
    match r with
    | Ok _ => k = length l
    | Err e => infra e = true
    | Panic => False
    end).
Proof.
  revert row w. induction l as [|[v x] l IH]; intros row w E; cbn.
  { exists 0%nat. cbn. split; [|done]. destruct row. by rewrite insert_id. }
  apply wp_bind. unfold insertWeight. apply wp_wrap, wp_pg_insert.
  2: { intros code w1 Ht. exists 0%nat. cbn. split; [|done]. rewrite Ht. destruct row.
       by rewrite insert_id. }
  intros w1 _ Ht. rewrite (alter_insert_row _ _ _ row E) in Ht.
  eapply wp_mono; [apply (IH (add_weight v x row)); by rewrite Ht, lookup_insert_eq|].
  cbn. intros r w2 (k & Ht2 & Hr). exists (S k). rewrite Ht2, Ht, insert_insert_eq.
  split; [done|]. destruct r; auto.
Qed.

Lemma pg_CreateProposal_law p :
  g_CancellationVotes p = 0 -> g_ExecutedAt p = None ->
  g_ExecutableAt p = None -> g_CancelledAt p = None ->
  refines pg_ledger (CreateProposalRow p) (λ L r L',
  match r with
  | Ok _ => L !! g_ID p = None /\ L' = <[g_ID p := fresh_entry p (g_WeightSnapshot p)]> L
  | Err _ => L' = L \/ (L !! g_ID p = None /\ exists part, part ⊆ g_WeightSnapshot p /\
                         L' = <[g_ID p := fresh_entry p part]> L)
  | Panic => False
  end).
Proof.
  intros H0 H1 H2 H3. apply refines_wp. intros w. cbn. unfold pg_CreateProposal, pg_ledger.
  apply wp_bind, wp_wrap, wp_pg_insert; [|by intros code w1 ->; left].
  intros w1 Hc Ht. destruct (_ || _); [done|].
  destruct (pg_tables w !! g_ID p) eqn:E; [done|].
  set (row := {| r_p := inserted_proposal p; r_weights := ∅; r_votes := ∅; r_cancels := ∅ |}) in *.
  assert (forall m, entry_of (g_ID p) (with_weights m row) = fresh_entry p m) as Hrow.
  { intros m. unfold entry_of, fresh_entry. cbn. unfold core, set_snapshot, set_status. cbn.
    by rewrite H1, H2, H3. }
  eapply wp_mono; [apply (insertWeights_wp (g_ID p) _ row); by rewrite Ht, lookup_insert_eq|].
  cbn. intros r w2 (k & Ht2 & Hr). rewrite Ht, insert_insert_eq in Ht2.
  rewrite Ht2, gledger_insert, Hrow, gledger_lookup, E. destruct r; [|right|done].
  - subst k. by rewrite firstn_all, add_weights_all.
  - split; [done|]. eexists. split; [|done]. apply map_subseteq_spec. intros v x Hv.
    apply add_weights_sub in Hv as [?|Hv]; [done|].
    apply elem_of_map_to_list. rewrite <-range_weights_perm.
    eapply elem_of_submseteq; [exact Hv|]. apply sublist_submseteq, sublist_take.
Qed.

#[export] Instance gov_pg_laws : RepositoryLaws (PgState (gmap uuid grow)) pg_ledger := {
  CreateProposal_law := pg_CreateProposal_law;
  GetProposal_law := pg_GetProposal_law;
  RecordVoteWeighted_law := pg_RecordVoteWeighted_law;
  UpdateStatus_law := pg_UpdateStatus_law;
  MarkPassed_law id at_ now := pg_mark_law id _ _ (set_passed at_ now) (set_passed at_ 0) (λ _, eq_refl);
  MarkCancelled_law id at_ now := pg_mark_law id _ _ (set_cancelled at_ now) (set_cancelled at_ 0) (λ _, eq_refl);
  RecordCancellationVote_law := pg_RecordCancellationVote_law;
  CountCancellationVotes_law := pg_CountCancellationVotes_law;
}.
End laws.
End govpg.

(** ** Concrete runs of the governance service over its PostgreSQL repository, at
    which the guarantees of [GovProps] apply. *)
Module govwitness.
Import governance gov govspec govprops govpg.

#[export] Instance demo_range : RangeOrder := {
  range_weights m := map_to_list m;
  range_weights_perm m := reflexivity _;
}.

Abbreviation GW := (PgState (gmap uuid grow)).

(** Voters ["x"] and ["xx"] of weights 3 and 5, a timelock of 10 and an executor
    that always succeeds. *)
Definition demo_gov (repo : bool) : service GW :=
  {| has_repo := repo; executor := Some (λ _, gret tt);
     VotingWeight user := gret (if decide (user = "x") then 3 else 5);
     EligibleVoters := gret ["x"; "xx"];
     timelock := Normalize {| Delay := 10; CancelThresholdPct := 50 |} |}.

#[export] Instance demo_resolver repo : ResolverLaws pg_ledger (demo_gov repo).
Proof.
  split.
  - by intros user w r w' [= <- <-].
  - by intros w r w' [= <- <-].
  - by intros exec p w r w' [= <-] [= <- <-].
Qed.

Definition demo_proposal : CreateProposalInput :=
  {| in_Title := "fees"; in_Description := "lower"; in_ProposalType := "parameter";
     in_CreatorID := "x" |}.

Definition demo_start : GSt GW := (connection ∅, empty_memory).

Definition proposed (repo : bool) : GSt GW :=
  (run_gcall (demo_gov repo) (CallPropose 100 7%N demo_proposal) demo_start).2.
Definition demo_vote (user : string) (now : time) : gcall := CallVote now "xxxxxxx" user true.
Definition voted (repo : bool) : GSt GW :=
  (run_gcall (demo_gov repo) (demo_vote "x" 101) (proposed repo)).2.
Definition decided (repo : bool) : GSt GW :=
  (run_gcall (demo_gov repo) (CallExecute 110 "xxxxxxx") (voted repo)).2.
Definition executed (repo : bool) : GSt GW :=
  (run_gcall (demo_gov repo) (CallExecute 120 "xxxxxxx") (decided repo)).2.

Definition status_in (repo : bool) (st : GSt GW) : option ProposalStatus :=
  (λ e, g_Status (e_p e)) <$> ledger_at (demo_gov repo) pg_ledger st !! 7%N.

Example run_statuses :
  (λ repo, (status_in repo (proposed repo), status_in repo (decided repo),
            status_in repo (executed repo))) <$> [true; false] =
  let r := (Some ProposalStatusPending, Some ProposalStatusPassed, Some ProposalStatusExecuted) in
  [r; r].
Proof. vm_compute. reflexivity. Qed.
#[local] Abbreviation s_ := (demo_gov true).
#[local] Abbreviation at_ := (ledger_at s_ pg_ledger).

Lemma run_ok repo c st :
  (run_gcall (demo_gov repo) c st).1 = Ok tt ->
  run_gcall (demo_gov repo) c st = (Ok tt, (run_gcall (demo_gov repo) c st).2).
Proof. intros <-. apply surjective_pairing. Qed.

Lemma demo_proposed : run_gcall s_ (CallPropose 100 7%N demo_proposal) demo_start =
  (Ok tt, proposed true).
Proof. apply run_ok. by vm_compute. Qed.
Lemma demo_voted : run_gcall s_ (demo_vote "x" 101) (proposed true) = (Ok tt, voted true).
Proof. apply run_ok. by vm_compute. Qed.
Lemma demo_decided : run_gcall s_ (CallExecute 110 "xxxxxxx") (voted true) =
  (Ok tt, decided true).
Proof. apply run_ok. by vm_compute. Qed.
Lemma demo_executed : run_gcall s_ (CallExecute 120 "xxxxxxx") (decided true) =
  (Ok tt, executed true).
Proof. apply run_ok. by vm_compute. Qed.

Definition tail_calls : list (gcall * result unit) :=
  [(CallExecute 110 "xxxxxxx", Ok tt); (CallExecute 120 "xxxxxxx", Ok tt)].
Definition all_calls : list (gcall * result unit) :=
  (CallPropose 100 7%N demo_proposal, Ok tt) :: (demo_vote "x" 101, Ok tt) :: tail_calls.

Lemma demo_tail : gruns s_ pg_ledger (voted true) tail_calls (executed true).
Proof.
  eapply gruns_cons; [done|exact demo_decided|].
  eapply gruns_cons; [done|exact demo_executed|]. apply gruns_nil.
Qed.

Lemma demo_all : gruns s_ pg_ledger demo_start all_calls (executed true).
Proof.
  eapply gruns_cons; [done|exact demo_proposed|].
  eapply gruns_cons; [done|exact demo_voted|]. exact demo_tail.
Qed.

(** Witnesses of the guarantees. *)
Lemma run_gcall_refines_witness :
  gcall_spec (negb (has_repo s_)) (timelock s_) (demo_vote "x" 101) (at_ (proposed true)) (Ok tt)
    (at_ (voted true)) /\ Ok tt <> Panic.
Proof. exact (run_gcall_refines pg_ledger s_ (demo_vote "x" 101) _ _ _ I demo_voted). Defined.

Lemma gruns_ledger_ok_witness :
  ledger_ok (timelock s_) (at_ (executed true)) /\
  status_in true (executed true) = Some ProposalStatusExecuted.
Proof.
  split; [|by vm_compute]. eapply (gruns_ledger_ok pg_ledger s_); [exact demo_all|].
  intros k e Hk. by vm_compute in Hk.
Defined.

Definition executed_entry : entry :=
  default {| e_p := core (inserted_proposal (new_proposal 0 0%N 0%N demo_proposal ∅ 0));
             e_votes := ∅; e_cancels := ∅ |} (at_ (executed true) !! 7%N).

(** Calls after the execution fail. *)
Lemma demo_late : gruns s_ pg_ledger (executed true)
  [(CallExecute 130 "xxxxxxx", Err already_processed)]
  (run_gcall s_ (CallExecute 130 "xxxxxxx") (executed true)).2.
Proof. eapply gruns_cons; [done|by vm_compute|]. apply gruns_nil. Qed.

Lemma gruns_final_witness :
  at_ (run_gcall s_ (CallExecute 130 "xxxxxxx") (executed true)).2 !! 7%N = Some executed_entry.
Proof.
  apply (gruns_final pg_ledger s_ _ _ _ _ _ demo_late); by vm_compute.
Defined.

Definition again : result unit * GSt GW := run_gcall s_ (demo_vote "x" 140) (executed true).

Lemma VoteProposal_once_witness :
  (exists err, again.1 = Err err) /\ at_ again.2 = at_ (executed true).
Proof.
  apply (VoteProposal_once pg_ledger s_ _ _ _ _ _ _ _ _ 140 "xxxxxxx" "x" true _ _
    demo_voted demo_tail); [done..|]. apply surjective_pairing.
Defined.

Definition proposed_entry : entry := default executed_entry (at_ (proposed true) !! 7%N).

Lemma vote_weight_fixed_witness :
  exists e1, at_ (proposed true) !! 7%N = Some e1 /\ e_votes e1 !! 1%N = None /\
    at_ (voted true) = <[7%N := {| e_p := core (count_vote true 3 0 (e_p e1));
                                   e_votes := <[1%N := true]> (e_votes e1);
                                   e_cancels := e_cancels e1 |}]> (at_ (proposed true)).
Proof.
  apply (vote_weight_fixed pg_ledger s_ (proposed true) [] (proposed true) 101 "xxxxxxx" "x" true
    (voted true) 7%N 1%N proposed_entry 100 3); [by vm_compute..|apply gruns_nil|done|done|].
  exact demo_voted.
Defined.
End govwitness.
