(* ===== verification/User.v ===== *)
(** Users (src/internal/domain/user): the rows, the PostgreSQL repository and the
    service.  A request is a program of statements, which other requests overlap; the
    names that are claimed are in [UserNames]. *)
From S2P Require Export CircleRepo Postgres Threads GoStrings GoFloat.
From stdpp Require Import options.
#[local] Set Default Proof Using "Type*".
Open Scope Z_scope.
Local Open Scope go_scope.

Module user.

(** ** Data *)
Inductive Role := RoleUser | RoleAdmin.
#[export] Instance Role_eq_dec : EqDecision Role.
Proof. solve_decision. Defined.
Definition Role_String (r : Role) : string := match r with RoleUser => "user" | RoleAdmin => "admin" end.
(** A [pq.StringArray] is [None] when it is nil. *)
Record User := mkUser {
  u_ID : uuid; u_WalletAddress : string; u_Email : option string; u_Phone : option string;
  u_DisplayName : option string; u_AvatarIpfsHash : option string; u_CountryCode : option string;
  u_PreferredLanguage : string; u_MoiScore : Z; u_Role : Role; u_SessionTTLMinutes : Z;
  u_PasswordHash : option string; u_TOTPSecret : option string; u_TOTPEnabled : bool;
  u_BackupCodes : option (list string); u_EmailVerified : bool; u_PasskeyCredentialID : option string;
  u_NotificationChannels : option (list string); u_NotificationsMuted : bool;
  u_DigestEnabled : bool; u_DigestIntervalMinutes : Z; u_PushToken : option string;
  u_CreatedAt : time; u_UpdatedAt : time; u_DeletedAt : option time;
}.
Definition set_Email (email : option string) (verified : bool) (u : User) : User :=
  let 'mkUser i w _ ph dn av cc pl ms ro st pw ts te bc _ pk nc nm de di pt ca ua da := u in
  mkUser i w email ph dn av cc pl ms ro st pw ts te bc verified pk nc nm de di pt ca ua da.
Definition set_PasswordHash (hash : option string) (u : User) : User :=
  let 'mkUser i w em ph dn av cc pl ms ro st _ ts te bc ev pk nc nm de di pt ca ua da := u in
  mkUser i w em ph dn av cc pl ms ro st hash ts te bc ev pk nc nm de di pt ca ua da.
Definition set_TOTP (secret : option string) (enabled : bool) (codes : option (list string)) (u : User) : User :=
  let 'mkUser i w em ph dn av cc pl ms ro st pw _ _ _ ev pk nc nm de di pt ca ua da := u in
  mkUser i w em ph dn av cc pl ms ro st pw secret enabled codes ev pk nc nm de di pt ca ua da.
Definition set_MoiScore (score : Z) (now : time) (u : User) : User :=
  let 'mkUser i w em ph dn av cc pl _ ro st pw ts te bc ev pk nc nm de di pt ca _ da := u in
  mkUser i w em ph dn av cc pl score ro st pw ts te bc ev pk nc nm de di pt ca now da.
Definition set_DeletedAt (deletedAt : option time) (now : time) (u : User) : User :=
  let 'mkUser i w em ph dn av cc pl ms ro st pw ts te bc ev pk nc nm de di pt ca _ _ := u in
  mkUser i w em ph dn av cc pl ms ro st pw ts te bc ev pk nc nm de di pt ca now deletedAt.
Definition set_prefs (channels : option (list string)) (muted digest : bool) (interval : Z) (now : time) (u : User) : User :=
  let 'mkUser i w em ph dn av cc pl ms ro st pw ts te bc ev pk _ _ _ _ pt ca _ da := u in
  mkUser i w em ph dn av cc pl ms ro st pw ts te bc ev pk channels muted digest interval pt ca now da.
Definition set_profile (dn em ph cc : option string) (pl : string) (ttl : Z) (now : time) (u : User) : User :=
  let 'mkUser i w _ _ _ av _ _ ms ro _ pw ts te bc ev pk nc nm de di pt ca _ da := u in
  mkUser i w em ph dn av cc pl ms ro ttl pw ts te bc ev pk nc nm de di pt ca now da.

Definition ErrUserNotFound := Sentinel "user: user not found".
Definition ErrInvalidUUID := Sentinel "user: invalid user ID format".
Definition ErrUserNotDeleted := Sentinel "user: user is not deleted".

Record UserFilter := { f_Search : string; f_Page : Z; f_Limit : Z }.

(** [HashEmail]: the hexadecimal SHA-256, a function of a library. *)
Class HashLib := { sha256_hex : string -> string }.
Definition HashEmail `{HashLib} (email : string) : string := sha256_hex email.

(** ** The tables: users under their identifiers, and the counter of the names *)
Record utables := { ut_users : gmap uuid User; ut_counter : option Z }.
Definition set_ut_users (f : gmap uuid User -> gmap uuid User) (t : utables) : utables :=
  {| ut_users := f (ut_users t); ut_counter := ut_counter t |}.
Definition set_ut_counter (c : option Z) (t : utables) : utables :=
  {| ut_users := ut_users t; ut_counter := c |}.
Abbreviation DB := (M (PgState utables)) (only parsing).
Definition live (u : User) : bool := bool_decide (u_DeletedAt u = None).
Definition find_live (P : User -> bool) (t : utables) : option User := find_row (λ u, live u && P u) (ut_users t).

(** *** Reads *)
Definition scanUser (row : DB User) : DB User :=
  gtry row (λ r,
    match r with
    | inl u => gret u
    | inr err => if decide (err = sql_ErrNoRows) then gfail apperrors_ErrNotFound
                 else gfail (Wrapf "scanning user row: %w" err)
    end).
Definition by_id (id : uuid) (t : utables) : option User :=
  match ut_users t !! id with Some u => if live u then Some u else None | None => None end.
Definition has_wallet (w : string) (u : User) : bool := bool_decide (u_WalletAddress u = w).
Definition has_email (e : string) (u : User) : bool := bool_decide (u_Email u = Some e).
Definition has_passkey (c : string) (u : User) : bool := bool_decide (u_PasskeyCredentialID u = Some c).
Definition pg_FindByID (id : uuid) : DB User := scanUser (pg_row (by_id id)).
Definition pg_FindByWalletAddress (w : string) : DB User := scanUser (pg_row (find_live (has_wallet w))).
Definition pg_FindByEmail `{HashLib} (email : string) : DB User :=
  scanUser (pg_row (find_live (has_email (HashEmail email)))).
Definition pg_FindByPasskeyCredentialID (c : string) : DB User := scanUser (pg_row (find_live (has_passkey c))).
Definition pg_FindByIDIncludingDeleted (id : uuid) : DB User := scanUser (pg_row (λ t, ut_users t !! id)).

(** *** Writes

    A row and the columns a statement sets: the identifier, the wallet, the push token
    and the times of creation and deletion are not among those of [Update], and the
    trigger of the table writes the time of the update.  [INSERT] leaves out the columns
    of the notifications, whose defaults are below. *)
Definition out_of_int4 (x : Z) : bool := (x <? - 2 ^ 31) || (2 ^ 31 <=? x).
Definition same_some (a b : option string) : bool := match a with Some _ => bool_decide (a = b) | None => false end.
Definition clashes (u v : User) : bool :=
  bool_decide (u_WalletAddress u = u_WalletAddress v) || same_some (u_Email u) (u_Email v) ||
  same_some (u_PasskeyCredentialID u) (u_PasskeyCredentialID v).
Definition inserted (u : User) : User :=
  let 'mkUser i w em ph dn av cc pl ms ro st pw ts te bc ev pk _ _ _ _ _ ca ua _ := u in
  mkUser i w em ph dn av cc pl ms ro st pw ts te bc ev pk (Some ["inapp"%string]) false false 1440 None ca ua None.
Definition insert_check (u : User) (t : utables) : option string :=
  if out_of_int4 (u_MoiScore u) || out_of_int4 (u_SessionTTLMinutes u) then Some "22003"%string
  else if bool_decide (is_Some (ut_users t !! u_ID u)) || existsb (clashes u) (map_to_list (ut_users t)).*2
  then Some "23505"%string else None.
Definition pg_Create (u : User) : DB unit :=
  or_conflict apperrors_ErrConflict "creating user: %w"
    (pg_insert (insert_check u) (set_ut_users <[u_ID u := inserted u]>)).

Definition updated (u : User) (now : time) (row : User) : User :=
  let 'mkUser _ _ em ph dn av cc pl ms ro st pw ts te bc ev pk nc nm de di _ _ _ _ := u in
  mkUser (u_ID row) (u_WalletAddress row) em ph dn av cc pl ms ro st pw ts te bc ev pk nc nm de di
    (u_PushToken row) (u_CreatedAt row) now (u_DeletedAt row).
Definition update_check (u : User) (t : utables) : option string :=
  if out_of_int4 (u_MoiScore u) || out_of_int4 (u_SessionTTLMinutes u) || out_of_int4 (u_DigestIntervalMinutes u)
  then Some "22003"%string
  else if decide (u_NotificationChannels u = None) then Some "23502"%string
  else if existsb (λ v, same_some (u_Email u) (u_Email v) || same_some (u_PasskeyCredentialID u) (u_PasskeyCredentialID v))
            (map_to_list (delete (u_ID u) (ut_users t))).*2
  then Some "23505"%string else None.
Definition present (id : uuid) (t : utables) : bool := bool_decide (is_Some (ut_users t !! id)).
Definition pg_Update (u : User) (now : time) : DB unit :=
  or_missing ErrUserNotFound (gwrap "updating user: %w"
    (pg_update (update_check u) (present (u_ID u)) (set_ut_users (alter (updated u now) (u_ID u))))).
Definition pg_UpdateMoiScore (id : uuid) (score : Z) (now : time) : DB unit :=
  or_missing ErrUserNotFound (gwrap "updating moi score: %w"
    (pg_update (λ _, if out_of_int4 score then Some "22003"%string else None) (present id)
       (set_ut_users (alter (set_MoiScore score now) id)))).
(** The two statements of [Delete] and of [Restore]. *)
Definition deleted_state (b : bool) (id : uuid) (t : utables) : bool :=
  match ut_users t !! id with Some u => bool_decide (live u = negb b) | None => false end.
Definition pg_mark (id : uuid) (now : time) : DB Z :=
  pg_update (λ _, None) (deleted_state false id) (set_ut_users (alter (set_DeletedAt (Some now) now) id)).
Definition pg_unmark (id : uuid) (now : time) : DB Z :=
  pg_update (λ _, None) (deleted_state true id) (set_ut_users (alter (set_DeletedAt None now) id)).
Definition pg_deleted_at (id : uuid) : DB (option time) := pg_row (λ t, u_DeletedAt <$> ut_users t !! id).

(** [UPDATE user_name_counter SET value = value + 1 WHERE id = 1 RETURNING value], whose
    column is a BIGINT. *)
Definition pg_ClaimNextName : DB Z :=
  gwrap "claiming name: %w"
    (let! r := pg_exec (λ t, match ut_counter t with
                             | Some v => if in_int64 (v + 1) then inl (Some (v + 1), set_ut_counter (Some (v + 1)) t)
                                         else inr "22003"%string
                             | None => inl (None, t)
                             end) in
     match r with Some v => gret v | None => gfail sql_ErrNoRows end).

(** *** Lists *)
Section lists.
Context `{TextMatch}.
Definition matches_user (f : UserFilter) (u : User) : bool :=
  let pattern := ("%" ++ f_Search f ++ "%")%string in
  bool_decide (f_Search f = ""%string) ||
  (match u_DisplayName u with Some n => ilike n pattern | None => false end ||
   ilike (u_WalletAddress u) pattern ||
   match u_Email u with Some e => ilike e pattern | None => false end).
Definition page_of (f : UserFilter) : Z := if 0 <? f_Page f then f_Page f else 1.
Definition limit_of (f : UserFilter) : Z := if (0 <? f_Limit f) && (f_Limit f <=? 100) then f_Limit f else 20.
Definition offset_of (f : UserFilter) : Z := wrap64 (wrap64 (page_of f - 1) * limit_of f).
Definition listed (deleted : bool) (f : UserFilter) (t : utables) : list User :=
  filter (λ u, bool_decide (live u = negb deleted) && matches_user f u = true) (map_to_list (ut_users t)).*2.
Definition by_created (a b : User) : Prop := u_CreatedAt b <= u_CreatedAt a.
#[export] Instance by_created_dec : RelDecision by_created.
Proof. intros a b. unfold by_created. apply _. Defined.
Definition by_deleted (a b : User) : Prop := default 0 (u_DeletedAt b) <= default 0 (u_DeletedAt a).
#[export] Instance by_deleted_dec : RelDecision by_deleted.
Proof. intros a b. unfold by_deleted. apply _. Defined.
Definition paged {A} (f : UserFilter) (l : list A) : list A := take (Z.to_nat (limit_of f)) (drop (Z.to_nat (offset_of f)) l).
Definition pg_List (f : UserFilter) : DB (list User) :=
  gwrap "listing users: %w" (pg_exec (λ t,
    if offset_of f <? 0 then inr "2201X"%string else inl (paged f (merge_sort by_created (listed false f t)), t))).
Definition pg_ListDeleted (f : UserFilter) : DB (list User) :=
  gwrap "listing deleted users: %w" (pg_exec (λ t,
    if offset_of f <? 0 then inr "2201X"%string else inl (paged f (merge_sort by_deleted (listed true f t)), t))).
Definition pg_Count (f : UserFilter) : DB Z :=
  gwrap "counting users: %w" (pg_select (λ t, Z.of_nat (length (listed false f t)))).
Definition pg_CountDeleted (f : UserFilter) : DB Z :=
  gwrap "counting deleted users: %w" (pg_select (λ t, Z.of_nat (length (listed true f t)))).
End lists.

(** ** Actions *)
Inductive dbQ : Type -> Type :=
  | FindByID (id : uuid) : dbQ User
  | FindByWalletAddress (w : string) : dbQ User
  | FindByEmail (email : string) : dbQ User
  | FindByPasskeyCredentialID (c : string) : dbQ User
  | FindByIDIncludingDeleted (id : uuid) : dbQ User
  | Create (u : User) : dbQ unit
  | Update (u : User) : dbQ unit
  | UpdateMoiScore (id : uuid) (score : Z) : dbQ unit
  | Mark (id : uuid) : dbQ Z
  | Unmark (id : uuid) : dbQ Z
  | DeletedAt (id : uuid) : dbQ (option time)
  | ClaimNextName : dbQ Z
  | List_ (f : UserFilter) : dbQ (list User)
  | Count (f : UserFilter) : dbQ Z
  | ListDeleted (f : UserFilter) : dbQ (list User)
  | CountDeleted (f : UserFilter) : dbQ Z.
Definition run_query `{HashLib, TextMatch} {X} (now : time) (q : dbQ X) : DB X :=
  match q in dbQ X return DB X with
  | FindByID id => pg_FindByID id
  | FindByWalletAddress w => pg_FindByWalletAddress w
  | FindByEmail e => pg_FindByEmail e
  | FindByPasskeyCredentialID c => pg_FindByPasskeyCredentialID c
  | FindByIDIncludingDeleted id => pg_FindByIDIncludingDeleted id
  | Create u => pg_Create u
  | Update u => pg_Update u now
  | UpdateMoiScore id score => pg_UpdateMoiScore id score now
  | Mark id => pg_mark id now
  | Unmark id => pg_unmark id now
  | DeletedAt id => pg_deleted_at id
  | ClaimNextName => pg_ClaimNextName
  | List_ f => pg_List f
  | Count f => pg_Count f
  | ListDeleted f => pg_ListDeleted f
  | CountDeleted f => pg_CountDeleted f
  end.
Inductive userE : Type -> Type :=
  | Query {X : Type} (q : dbQ X) : userE X
  | Now : userE time
  | NewUUID : userE uuid
  | FindCirclesByUserID (id : uuid) : userE (list Circle).
Abbreviation io := (prog userE) (only parsing).
Definition db {X} (q : dbQ X) : io X := act (Query q).
Definition time_Now : io time := act Now.

(** [Delete] and [Restore] of the repository: when nothing was updated, a second
    statement finds out why. *)
Definition repo_Delete (id : uuid) : io unit :=
  let* rows := pwrap "deleting user: %w" (db (Mark id)) in
  if rows =? 0 then
    ptry (db (DeletedAt id)) (λ r,
      match r with
      | inr err => if decide (err = sql_ErrNoRows) then pfail ErrUserNotFound
                   else pfail (Wrapf "checking user deletion state: %w" err)
      | inl (Some _) => pfail ErrUserNotDeleted
      | inl None => pfail ErrUserNotFound
      end)
  else pret tt.
Definition repo_Restore (id : uuid) : io unit :=
  let* rows := pwrap "restoring user: %w" (db (Unmark id)) in
  if rows =? 0 then
    ptry (db (DeletedAt id)) (λ r,
      match r with
      | inr err => if decide (err = sql_ErrNoRows) then pfail ErrUserNotFound
                   else pfail (Wrapf "checking user deletion state: %w" err)
      | inl _ => pfail ErrUserNotDeleted
      end)
  else pret tt.

(** ** The service *)
Record UpdateProfileInput := {
  up_DisplayName : option string; up_Email : option string; up_Phone : option string; up_CountryCode : option string;
  up_PreferredLanguage : option string; up_SessionTTL : option Z;
}.
Record NotificationPrefsInput := {
  np_Channels : list string; np_Muted : bool; np_DigestEnabled : option bool; np_DigestIntervalMinutes : option Z;
}.
Definition MinDigestIntervalMinutes : Z := 15.
Definition MaxDigestIntervalMinutes : Z := 7 * 24 * 60.
Definition DefaultDigestIntervalMinutes : Z := 24 * 60.
Definition NotificationDigestCadenceBounds : Z * Z := (MinDigestIntervalMinutes, MaxDigestIntervalMinutes).
Record MoiBreakdown := { mb_Streaks : Z; mb_Completions : Z; mb_Volume : Z; mb_Recency : Z }.
Record MoiScoreResponse := { ms_Score : Z; ms_Level : string; ms_Breakdown : MoiBreakdown }.

Section service.
Context `{UUIDLib}.
Definition parseUUID (id : string) : io uuid :=
  match uuid_Parse id with Some u => pret u | None => pfail ErrInvalidUUID end.
(** What most methods make of the error of a lookup. *)
Definition or_missing_user (format : string) (p : io User) : io User :=
  ptry p (λ r,
    match r with
    | inl u => pret u
    | inr err => if decide (err = apperrors_ErrNotFound) then pfail ErrUserNotFound else pfail (Wrapf format err)
    end).
Definition GetByID (id : string) : io User :=
  let* uid := parseUUID id in or_missing_user "getting user by id: %w" (db (FindByID uid)).
Definition GetByWallet (wallet : string) : io User :=
  or_missing_user "getting user by wallet: %w" (db (FindByWalletAddress wallet)).
Definition GetByEmail (email : string) : io User :=
  or_missing_user "getting user by email: %w" (db (FindByEmail email)).
Definition new_user (id : uuid) (wallet : string) (now : time) : User :=
  {| u_ID := id; u_WalletAddress := wallet; u_Email := None; u_Phone := None; u_DisplayName := None;
     u_AvatarIpfsHash := None; u_CountryCode := None; u_PreferredLanguage := "en"; u_MoiScore := 0; u_Role := RoleUser;
     u_SessionTTLMinutes := 0; u_PasswordHash := None; u_TOTPSecret := None; u_TOTPEnabled := false;
     u_BackupCodes := None; u_EmailVerified := false; u_PasskeyCredentialID := None; u_NotificationChannels := None;
     u_NotificationsMuted := false; u_DigestEnabled := false; u_DigestIntervalMinutes := 0; u_PushToken := None;
     u_CreatedAt := now; u_UpdatedAt := now; u_DeletedAt := None |}.
Definition service_Create (wallet : string) : io User :=
  ptry (db (FindByWalletAddress wallet)) (λ existing,
    match existing with
    | inl u => pret u
    | inr err =>
        if decide (err <> apperrors_ErrNotFound) then pfail (Wrapf "checking existing user: %w" err)
        else
          let* now := time_Now in
          let* id := act NewUUID in
          ptry (db (Create (new_user id wallet now))) (λ r,
            match r with
            | inl _ => pret (new_user id wallet now)
            | inr err =>
                if decide (err = apperrors_ErrConflict)
                then pwrap "conflict resolution failed: %w" (db (FindByWalletAddress wallet))
                else pfail (Wrapf "creating user: %w" err)
            end)
    end).
Definition service_Delete (id : string) : io unit :=
  let* uid := parseUUID id in pwrap "deleting user: %w" (repo_Delete uid).

Definition clamp_ttl (ttl : Z) : Z :=
  let ttl := if ttl <? 60 then 60 else ttl in if 1440 <? ttl then 1440 else ttl.
Definition apply_profile `{HashLib} (up : UpdateProfileInput) (now : time) (u : User) : User :=
  set_profile (match up_DisplayName up with Some n => Some n | None => u_DisplayName u end)
    (match up_Email up with Some e => Some (HashEmail e) | None => u_Email u end)
    (match up_Phone up with Some p => Some p | None => u_Phone u end)
    (match up_CountryCode up with Some c => Some c | None => u_CountryCode u end)
    (default (u_PreferredLanguage u) (up_PreferredLanguage up))
    (match up_SessionTTL up with Some t => clamp_ttl t | None => u_SessionTTLMinutes u end) now u.
Definition UpdateProfile `{HashLib} (id : string) (up : UpdateProfileInput) : io User :=
  let* uid := parseUUID id in
  let* u := or_missing_user "finding user for update: %w" (db (FindByID uid)) in
  let* now := time_Now in
  do* pwrap "updating profile: %w" (db (Update (apply_profile up now u))) in
  pret (apply_profile up now u).

Definition valid_channels : list string := ["inapp"; "email"; "sms"; "push"]%string.
Definition cadence_ok (interval : Z) : bool :=
  negb ((interval <? MinDigestIntervalMinutes) || (MaxDigestIntervalMinutes <? interval)).
Definition apply_prefs (prefs : NotificationPrefsInput) (now : time) (u : User) : User :=
  let interval := default (u_DigestIntervalMinutes u) (np_DigestIntervalMinutes prefs) in
  let enabled := default (u_DigestEnabled u) (np_DigestEnabled prefs) in
  set_prefs (Some (np_Channels prefs)) (np_Muted prefs) enabled
    (if enabled && (interval =? 0) then DefaultDigestIntervalMinutes else interval) now u.
Definition UpdateNotificationPreferences (id : string) (prefs : NotificationPrefsInput) : io User :=
  let* uid := parseUUID id in
  do* pguard (existsb (λ ch, bool_decide (ch ∉ valid_channels)) (np_Channels prefs))
        (Errorf "invalid notification channel %q: must be one of inapp, email, sms, push") in
  let* u := or_missing_user "finding user for notification prefs update: %w" (db (FindByID uid)) in
  let* now := time_Now in
  do* pguard (match np_DigestIntervalMinutes prefs with Some i => negb (cadence_ok i) | None => false end)
        (Errorf "invalid digest interval %d minutes: must be between %d and %d") in
  do* pwrap "saving notification preferences: %w" (db (Update (apply_prefs prefs now u))) in
  pret (apply_prefs prefs now u).

Definition calcLevel (score : Z) : string :=
  if 800 <? score then "Diamond" else if 600 <? score then "Platinum"
  else if 400 <? score then "Gold" else if 200 <? score then "Silver" else "Bronze".
(** [int(math.Min(float64(score) * (percent / 100), cap))]; the constant is the nearest
    float64. *)
Definition math_Min (x y : float64) : float64 := if f64_lt x y then x else y.
Definition share `{GoFloatConv} (score percent cap : Z) : Z :=
  f64_to_int64 (math_Min (f64_mul (f64_of_Z score) (f64_div (f64_of_Z percent) (f64_of_Z 100))) (f64_of_Z cap)).
Definition breakdown `{GoFloatConv} (score : Z) : MoiBreakdown :=
  {| mb_Streaks := share score 35 350; mb_Completions := share score 30 300;
     mb_Volume := share score 20 200; mb_Recency := share score 15 150 |}.
Definition GetMoiScore `{GoFloatConv} (id : string) : io MoiScoreResponse :=
  let* uid := parseUUID id in
  let* u := or_missing_user "finding user for moi score: %w" (db (FindByID uid)) in
  pret {| ms_Score := u_MoiScore u; ms_Level := calcLevel (u_MoiScore u); ms_Breakdown := breakdown (u_MoiScore u) |}.
Definition GetCircles (id : string) : io (list Circle) :=
  let* uid := parseUUID id in
  do* or_missing_user "finding user for circles: %w" (db (FindByID uid)) in
  pwrap "finding circles for user: %w" (act (FindCirclesByUserID uid)).
Definition IsEmailTaken (email : string) : io bool :=
  ptry (db (FindByEmail email)) (λ r,
    match r with
    | inl _ => pret true
    | inr err => if decide (err <> apperrors_ErrNotFound)
                 then pfail (Wrapf "checking email availability in users: %w" err) else pret false
    end).
Definition service_Update (u : User) : io unit := db (Update u).
End service.

(** ** The world of the users alone *)
Record uworld := { uw_now : time; uw_db : PgState utables; uw_uuids : list uuid; uw_circles : uuid -> result (list Circle) }.
Definition set_udb (s : PgState utables) (w : uworld) : uworld :=
  {| uw_now := uw_now w; uw_db := s; uw_uuids := uw_uuids w; uw_circles := uw_circles w |}.
Definition perform_user `{HashLib, TextMatch} (X : Type) (e : userE X) : M uworld X :=
  match e in userE X return M uworld X with
  | Query q => λ w, let '(r, s) := run_query (uw_now w) q (uw_db w) in (r, set_udb s w)
  | Now => λ w, (Ok (uw_now w), w)
  | NewUUID => λ w,
      match uw_uuids w with
      | [] => (Panic, w)
      | id :: ids => (Ok id, {| uw_now := uw_now w; uw_db := uw_db w; uw_uuids := ids; uw_circles := uw_circles w |})
      end
  | FindCirclesByUserID id => λ w, (uw_circles w id, w)
  end.
End user.
