(* ===== verification/UserNames.v ===== *)
(** The names the server gives to its users (src/internal/domain/user/namegen.go): an
    adjective, an animal and a number, from a counter.  An index out of range panics. *)
From S2P Require Export User.
From stdpp Require Import options.
#[local] Set Default Proof Using "Type*".
Open Scope Z_scope.
Local Open Scope go_scope.

Module usernames.
Import user.

Definition adjectives : list string := [
  "Stealth"; "Swift"; "Quiet"; "Bold"; "Fierce"; "Noble"; "Silent"; "Brave"; "Cosmic"; "Wild"; "Ancient";
  "Bright"; "Calm"; "Deep"; "Eager"; "Frozen"; "Golden"; "Hidden"; "Icy"; "Jade"; "Keen"; "Lucky"; "Misty";
  "Neon"; "Odd"; "Proud"; "Royal"; "Sharp"; "Tough"; "Urban"; "Vivid"; "Wise"; "Young"; "Zesty"; "Amber";
  "Bliss"; "Crisp"; "Dusk"; "Elite"; "Frost"; "Grand"; "Hazy"; "Iron"; "Jolly"; "Kind"; "Lunar"; "Merry";
  "Nova"; "Olive"; "Pearl"; "Quest"; "Rapid"; "Solar"; "Topaz"; "Ultra"; "Velvet"; "Warm"; "Azure"; "Blaze";
  "Coral"; "Dawn"; "Ember"; "Flint"; "Glade"; "Heath"; "Ivory"; "Jewel"; "Karma"; "Lark"; "Moss"; "Nimbus";
  "Onyx"; "Plush"; "Raven"; "Sage"; "Thorn"; "Umber"; "Vale"; "Wren"; "Yarrow"; "Zephyr"; "Alpine"; "Birch";
  "Cedar"; "Drift"; "Echo"; "Fjord"; "Glen"; "Haven"; "Isle"; "Juniper"; "Krill"; "Lagoon"; "Meadow";
  "Nacre"; "Orbit"; "Pine"; "Quartz"; "Reef"; "Storm"; "Tide"; "Urchin"; "Veil"; "Whisper"; "Aura"; "Bloom";
  "Cliff"; "Dune"; "Ever"; "Flare"; "Grove"; "Hollow"; "Indigo"; "Knot"; "Loom"; "Mirth"; "Nectar"; "Oaken";
  "Plume"; "Ridge"; "Shale"; "Thistle"; "Under"; "Violet"; "Wisp"; "Zen"; "Arcane"; "Beryl"; "Crypt";
  "Dragon"; "Elf"; "Fairy"; "Giant"; "Harpy"; "Imp"; "Jinn"; "Kraken"; "Lyre"; "Mage"; "Nymph"; "Ogre";
  "Phoenix"; "Quill"; "Rune"; "Sprite"; "Troll"; "Unicorn"; "Valkyrie"; "Wyrm"; "Yeti"; "Abyss"; "Brine";
  "Crest"; "Delve"; "Ebony"; "Fathom"; "Glyph"; "Horde"; "Kaleid"; "Lumen"; "Mirage"; "Nebula"; "Oracle";
  "Prism"; "Quasar"; "Ripple"; "Sable"; "Tidal"; "Vertex"; "Warp"; "Aegis"; "Bolt"; "Cipher"; "Dynamo";
  "Epoch"; "Flux"; "Gauss"; "Helix"; "Kernel"; "Logic"; "Matrix"; "Neural"; "Octal"; "Pixel"; "Quantum";
  "Radar"; "Sigma"; "Turbo"; "Union"; "Vector"; "Watt"; "Xenon"; "Yield"; "Zetta"; "Agile"; "Brisk"; "Chill";
  "Dapper"; "Elastic"; "Fleet"; "Gleam"; "Humble"; "Jovial"; "Lithe"; "Mellow"; "Nimble"; "Pebble"; "Rustic";
  "Snug"; "Tender"; "Upbeat"; "Vibrant"; "Whimsy"; "Ample"; "Bouncy"; "Cozy"; "Dimple"; "Fizzy"; "Giddy";
  "Hilarious"; "Jazzy"; "Loopy"; "Mimic"; "Nutty"; "Perky"; "Quirky"; "Silly"; "Tipsy"; "Wacky"; "Zany";
  "Breezy"; "Curly"; "Dizzy"; "Frumpy"; "Goofy"; "Huffy"; "Jumpy"; "Kooky"; "Lanky"; "Moppy"; "Nerdy";
  "Plucky"; "Rusty"; "Sassy"; "Tacky"; "Weedy"; "Brawny"; "Chunky"; "Drafty"; "Fluffy"; "Grumpy"; "Hefty";
  "Jumbo"; "Lumpy"; "Muddy"; "Plump"; "Scruffy"; "Stocky"; "Sturdy"; "Bulky"; "Crafty"; "Drowsy"; "Frugal";
  "Gloomy"; "Hungry"; "Jaunty"; "Lively"; "Moody"; "Peppy"; "Roomy"; "Shady"; "Sleepy"; "Spiffy"; "Testy";
  "Wily"; "Woozy"; "Beefy"; "Bumpy"; "Canny"; "Dingy"; "Feisty"; "Hasty"; "Lacy"; "Manky"; "Nifty"; "Paltry";
  "Randy"; "Saucy"; "Tawdry"; "Vasty"; "Yucky"; "Balky"; "Cagey"; "Dicey"; "Flimsy"; "Gauzy"; "Hokey";
  "Jiffy"; "Mimsy"; "Pithy"; "Risky"; "Seedy"; "Tricky"; "Veiny"; "Wispy"; "Crisp"; "Dusky"; "Frosty";
  "Glist"; "Hazel"; "Jasper"; "Lilac"; "Mauve"; "Ochre"; "Plum"; "Russet"; "Sienna"; "Vermil"; "Wheat";
  "Auburn"; "Beryl"; "Cerise"; "Denim"; "Fawn"; "Ginger"; "Indigo"; "Khaki"; "Lemon"; "Maroon"; "Navy";
  "Olive"; "Peach"; "Rust"; "Salmon"; "Teal"; "Blond"; "Chest"; "Dun"; "Fallow"; "Honey"; "Ivory"; "Jade";
  "Lime"; "Mint"; "Plum"; "Rose"; "Ruby"; "Slate"; "Taupe"; "Violet"; "Abrupt"; "Blunt"; "Chaste"; "Dire";
  "Earnest"; "Fond"; "Grim"; "Hale"; "Irate"; "Jaded"; "Keen"; "Lax"; "Mild"; "Naive"; "Obtuse"; "Pert";
  "Rash"; "Stern"; "Terse"; "Uptight"; "Vain"; "Wary"; "Yawning"; "Zealous"; "Arid"; "Boggy"; "Chilly";
  "Damp"; "Frigid"; "Gusty"; "Humid"; "Muggy"; "Raw"; "Soggy"; "Tepid"; "Windy"; "Balmy"; "Crisp"; "Drizzly";
  "Frosty"; "Glacial"; "Hazy"; "Misty"; "Rainy"; "Showery"; "Steamy"; "Temperate"; "Breezy"; "Cloudy";
  "Dewy"; "Foggy"; "Gloomy"; "Overcast"; "Smoggy"; "Sunny"; "Thundery"; "Blustery"; "Calm"; "Dry";
  "Electric"; "Fair"; "Grey"; "Mild"; "Severe"; "Stormy"; "Warm"; "Wet"; "Angry"; "Crowded"; "Desolate";
  "Fertile"; "Green"; "Lush"; "Pristine"; "Rocky"; "Sandy"; "Untamed"; "Vast"; "Wooded"; "Barren"; "Crystal";
  "Dark"; "Enchanted"; "Fallen"; "Ghostly"; "Haunted"; "Lonely"; "Misty"; "Mystic"; "Peaceful"; "Quiet";
  "Restless"; "Sacred"; "Silent"; "Tranquil"; "Wild"; "Ancient"; "Blessed"; "Cursed"; "Forbidden"; "Hidden";
  "Lost"; "Magical"; "Mythic"; "Sacred"; "Secret"; "Silent"; "Twilight"; "Untold"; "Arctic"; "Boreal";
  "Coastal"; "Desert"; "Forest"; "Glacial"; "Highland"; "Island"; "Lowland"; "Mountain"; "Oceanic"; "Polar";
  "River"; "Sea"; "Sky"; "Summit"; "Tundra"; "Valley"; "Volcanic"; "Wetland"; "Amber"; "Bronze"; "Copper";
  "Gold"; "Iron"; "Nickel"; "Platinum"; "Silver"; "Steel"; "Tin"; "Titanium"; "Zinc"; "Brass"; "Chrome";
  "Lead"; "Mercury"; "Quicksilver"; "Alabaster"; "Bone"; "Coral"; "Crystal"; "Diamond"; "Emerald"; "Flint";
  "Granite"; "Ivory"; "Jade"; "Lapis"; "Marble"; "Onyx"; "Opal"; "Pearl"; "Quartz"; "Ruby"; "Sapphire";
  "Topaz"; "Turquoise"; "Agate"; "Beryl"; "Citrine"; "Garnet"; "Jet"; "Malachite"; "Obsidian"; "Pyrite";
  "Spinel"; "Amethyst"; "Azurite"; "Bloodstone"; "Coal"]%string.
Definition animals : list string := [
  "Eel"; "Fox"; "Hawk"; "Wolf"; "Bear"; "Lion"; "Deer"; "Owl"; "Tiger"; "Vole"; "Ant"; "Bat"; "Cat"; "Dog";
  "Elk"; "Fawn"; "Gnu"; "Hare"; "Ibex"; "Jay"; "Koala"; "Lynx"; "Mole"; "Newt"; "Oryx"; "Pig"; "Quail";
  "Roach"; "Seal"; "Toad"; "Urchin"; "Viper"; "Wren"; "Yak"; "Zebra"; "Anole"; "Badger"; "Camel"; "Dove";
  "Emu"; "Finch"; "Gecko"; "Heron"; "Iguana"; "Jackal"; "Kite"; "Lemur"; "Manta"; "Narwhal"; "Okapi";
  "Panther"; "Raven"; "Salmon"; "Turtle"; "Whale"; "Xerus"; "Alpaca"; "Beaver"; "Coyote"; "Dingo"; "Ermine";
  "Ferret"; "Gopher"; "Hyena"; "Impala"; "Jaguar"; "Llama"; "Mink"; "Numbat"; "Otter"; "Panda"; "Quokka";
  "Raccoon"; "Skunk"; "Tapir"; "Urial"; "Vicuna"; "Wallaby"; "Xenops"; "Yapok"; "Zorilla"; "Aardvark";
  "Buffalo"; "Cheetah"; "Dolphin"; "Elephant"; "Flamingo"; "Gazelle"; "Hamster"; "Ibis"; "Jellyfish";
  "Kangaroo"; "Lobster"; "Monkey"; "Octopus"; "Penguin"; "Rhinoceros"; "Squirrel"; "Umbrellabird"; "Vulture";
  "Walrus"; "Anglerfish"; "Barracuda"; "Chameleon"; "Dragonfly"; "Earthworm"; "Falcon"; "Gorilla";
  "Hedgehog"; "Jackrabbit"; "Kingfisher"; "Ladybug"; "Manatee"; "Parrot"; "Rattlesnake"; "Salamander";
  "Tarantula"; "Wolverine"; "Axolotl"; "Bison"; "Caribou"; "Echidna"; "Frog"; "Giraffe"; "Hippo";
  "Kookaburra"; "Loris"; "Moose"; "Nutria"; "Orangutan"; "Peacock"; "Rhea"; "Sloth"; "Toucan"; "Viperfish";
  "Wombat"; "Zebu"; "Ape"; "Bobcat"; "Cobra"; "Eagle"; "Fossa"; "Gavial"; "Hornet"; "Insect"; "Lizard";
  "Marmot"; "Nautilus"; "Oyster"; "Porpoise"; "Rabbit"; "Scorpion"; "Tuna"; "Wasp"; "Yabby"; "Zander";
  "Anaconda"; "Boa"; "Condor"; "Firefly"; "Grasshopper"; "Kestrel"; "Leech"; "Mantis"; "Opossum"; "Puffin";
  "Tern"; "Vervet"; "Weasel"; "Addax"; "Bongo"; "Civet"; "Dugong"; "Eland"; "Fennec"; "Gaur"; "Indri";
  "Kiang"; "Langur"; "Margay"; "Nyala"; "Oribi"; "Puku"; "Quoll"; "Ratel"; "Sable"; "Wildebeest"; "Agouti";
  "Capybara"; "Gelada"; "Macaque"; "Nilgai"; "Pademelon"; "Quetzal"; "Rosella"; "Siamang"; "Tamarin";
  "Vanga"; "Wagtail"; "Aardwolf"; "Grysbok"; "Humpback"; "Lechwe"; "Muntjac"; "Pronghorn"; "Quelea";
  "Screamer"; "Waterbuck"; "Albatross"; "Bettong"; "Cuscus"; "Dunnart"; "Gundi"; "Hutia"; "Kowari"; "Monito";
  "Nabarlek"; "Olingo"; "Potoroo"; "Quokka"; "Solenodon"; "Tenrec"; "Vombat"; "Wallaroo"; "Anchovy";
  "Blenny"; "Clownfish"; "Damselfish"; "Eel"; "Flounder"; "Goby"; "Haddock"; "Jackfish"; "Killifish";
  "Lamprey"; "Mackerel"; "Needlefish"; "Opah"; "Parrotfish"; "Sardine"; "Tetra"; "Vendace"; "Wrasse";
  "Yellowtail"; "Zebrafish"; "Arowana"; "Betta"; "Catfish"; "Dogfish"; "Grouper"; "Halibut"; "Koi";
  "Lungfish"; "MahiMahi"; "Oscar"; "Pufferfish"; "Rasbora"; "Triggerfish"; "Whiting"; "Yellowfin";
  "Angelfish"; "Barracuda"; "Cod"; "Eel"; "Flounder"; "Gar"; "Herring"; "Icefish"; "Loach"; "Minnow";
  "Perch"; "Roach"; "Smelt"; "Trout"; "Wrasse"; "Anemone"; "Barnacle"; "Coral"; "Limpet"; "Mussel";
  "Nudibranch"; "Oyster"; "Sponge"; "Tunicate"; "Urchin"; "Beetle"; "Cricket"; "Damselfly"; "Earwig"; "Flea";
  "Grub"; "Horsefly"; "Ladybug"; "Moth"; "Silverfish"; "Termite"; "Weevil"; "Caterpillar"; "Dragonfly";
  "Firefly"; "Grasshopper"; "Hornet"; "Locust"; "Mosquito"; "Scorpion"; "Tarantula"; "Wasp"; "Crab";
  "Lobster"; "Prawn"; "Shrimp"; "Crayfish"; "Krill"; "Barnacle"; "Squid"; "Octopus"; "Jellyfish"; "Starfish";
  "Dolphin"; "Porpoise"; "Whale"; "Orca"; "Beluga"; "Narwhal"; "Spermwhale"; "Humpback"; "Bluewhale";
  "Rightwhale"; "Finwhale"; "Minkewhale"; "Seiwhale"; "Bryde"; "Graywhale"; "Pilotwhale"; "Killerwhale";
  "Falsekiller"; "Melonhead"; "Pygmykiller"; "Frasers"; "Rissos"; "Spotted"; "Spinner"; "Bottlenose";
  "Common"; "Striped"; "Clymene"; "Rough"; "Hector"; "Chilean"; "Peruvian"; "Commerson"; "Peale"; "Austral";
  "Hourglass"; "Fitzroy"; "Dusky"]%string.

(** Go's [/] and [%] truncate; the sum of the suffix is below 100. *)
Definition index (l : list string) (i : Z) : result string :=
  if i <? 0 then Panic else match l !! Z.to_nat i with Some s => Ok s | None => Panic end.
Definition adjLen : Z := Z.of_nat (length adjectives).
Definition animLen : Z := Z.of_nat (length animals).
Definition suffixLen : Z := 90.
Definition adjIdx (counter : Z) : Z := Z.rem (Z.quot counter animLen) adjLen.
Definition animIdx (counter : Z) : Z := Z.rem counter animLen.
Definition numSuffix (counter : Z) : Z := 10 + Z.rem (Z.quot counter (animLen * adjLen)) suffixLen.
Definition generateName (counter : Z) : result string :=
  let? adj := index adjectives (adjIdx counter) in
  let? ani := index animals (animIdx counter) in
  Ok (adj ++ "-" ++ ani ++ "-" ++ fmt_d (numSuffix counter))%string.
Definition ClaimName : io string :=
  let* counter := pwrap "claiming name: %w" (db ClaimNextName) in Done (generateName counter).
(** The handler: the name is not used. *)
Inductive claim_reply := Claimed | ClaimFailed (err : error).
Definition handler_ClaimName : io claim_reply :=
  ptry ClaimName (λ r, pret (match r with inl _ => Claimed | inr err => ClaimFailed err end)).

(** ** Every counter has a name *)
Lemma index_in (l : list string) i : 0 <= i < Z.of_nat (length l) -> exists s, index l i = Ok s /\ s ∈ l.
Proof.
  intros Hi. unfold index. destruct (Z.ltb_spec i 0); [lia|].
  destruct (lookup_lt_is_Some_2 l (Z.to_nat i)) as [s Hs]; [lia|]. rewrite Hs. exists s. split; [done|].
  by eapply list_elem_of_lookup_2.
Qed.
Lemma animLen_pos : 0 < animLen.
Proof. by vm_compute. Qed.
Lemma adjLen_pos : 0 < adjLen.
Proof. by vm_compute. Qed.
Lemma name_parts counter : 0 <= counter ->
  (0 <= animIdx counter < animLen) /\ (0 <= adjIdx counter < adjLen) /\ (10 <= numSuffix counter < 100).
Proof.
  pose proof animLen_pos. pose proof adjLen_pos. intros Hc. unfold animIdx, adjIdx, numSuffix, suffixLen.
  pose proof (Z.quot_pos counter animLen Hc ltac:(lia)) as Hq.
  pose proof (Z.quot_pos counter (animLen * adjLen) Hc ltac:(nia)) as Hq'.
  split; [apply Z.rem_bound_pos; lia|]. split; [apply Z.rem_bound_pos; lia|].
  pose proof (Z.rem_bound_pos (Z.quot counter (animLen * adjLen)) 90 ltac:(lia) ltac:(lia)). lia.
Qed.

(** A counter and the one a full cycle later have one name; inside a cycle, two counters
    never have the same three indices. *)
Definition cycle : Z := animLen * adjLen * suffixLen.
Definition indices (counter : Z) : Z * Z * Z := (animIdx counter, adjIdx counter, numSuffix counter).
Lemma indices_inj a b : 0 <= a < cycle -> 0 <= b < cycle -> indices a = indices b -> a = b.
Proof.
  pose proof animLen_pos as Hn. pose proof adjLen_pos as Hj. unfold cycle, suffixLen. intros Ha Hb [= E1 E2 E3].
  unfold animIdx, adjIdx, numSuffix, suffixLen in *.
  assert (forall x, 0 <= x < animLen * adjLen * 90 -> exists q r s,
    x = (q * adjLen + r) * animLen + s /\ 0 <= q < 90 /\ s = Z.rem x animLen /\ r = Z.rem (Z.quot x animLen) adjLen /\
    q = Z.quot x (animLen * adjLen)) as Hd.
  { intros x Hx. exists (Z.quot x (animLen * adjLen)), (Z.rem (Z.quot x animLen) adjLen), (Z.rem x animLen).
    pose proof (Z.quot_rem' x animLen) as H1. pose proof (Z.quot_rem' (Z.quot x animLen) adjLen) as H2.
    rewrite <-(Z.quot_quot x animLen adjLen) by lia. rewrite (Z.mul_comm _ adjLen).
    split; [|split; [|done]].
    - rewrite <-H2. lia.
    - rewrite Z.quot_quot by lia. split; [apply Z.quot_pos; nia|]. apply Z.quot_lt_upper_bound; nia. }
  destruct (Hd a Ha) as (qa & ra & sa & -> & Hqa & Hsa & Hra & Hqa').
  destruct (Hd b Hb) as (qb & rb & sb & -> & Hqb & Hsb & Hrb & Hqb').
  rewrite <-Hsa, <-Hsb in E1. rewrite <-Hra, <-Hrb in E2. rewrite <-Hqa', <-Hqb' in E3.
  rewrite (Z.rem_small qa 90), (Z.rem_small qb 90) in E3 by lia. assert (qa = qb) by lia. congruence.
Qed.

(** Every counter gives a name: an adjective and an animal of the lists and a number
    of two digits, and no counter of the first cycle of [animLen * adjLen * 90] takes the
    same places of the lists and the same number as another one. *)
Theorem every_counter_named counter : 0 <= counter ->
  (exists adj ani, adj ∈ adjectives /\ ani ∈ animals /\
     generateName counter = Ok (adj ++ "-" ++ ani ++ "-" ++ fmt_d (numSuffix counter))%string /\
     10 <= numSuffix counter < 100) /\
  (forall other, counter < cycle -> 0 <= other < cycle -> indices other = indices counter -> other = counter).
Proof.
  intros Hc. destruct (name_parts counter Hc) as (Ha & Hj & Hs). split.
  - destruct (index_in adjectives (adjIdx counter)) as (adj & Ea & Hadj); [done|].
    destruct (index_in animals (animIdx counter)) as (ani & Ei & Hani); [done|].
    exists adj, ani. do 2 (split; [done|]). unfold generateName. by rewrite Ea, Ei.
  - intros other Hcc Ho E. by apply indices_inj.
Qed.
Example every_counter_named_witness : 10 <= numSuffix 1000000 < 100.
Proof. destruct (every_counter_named 1000000) as [(adj & ani & _ & _ & _ & H) _]; [done|exact H]. Defined.

(** Names are not unique, not even those of the first users: the lists have repeated
    words. *)
Theorem names_collide : exists a b, 0 <= a < b /\ b < animLen /\ generateName a = generateName b.
Proof.
  exists 0, 228. split; [done|]. split; [by vm_compute|]. vm_compute. reflexivity.
Qed.
(** What the handler answers does not depend on the name, and nothing but the counter
    is changed. *)
Theorem claim_keeps_users `{HashLib, TextMatch} w r w' : run perform_user handler_ClaimName w = (r, w') ->
  ut_users (pg_tables (uw_db w')) = ut_users (pg_tables (uw_db w)).
Proof.
  cbn. unfold pg_ClaimNextName, gwrap, gbind. destruct (pg_exec _ (uw_db w)) as [rq s] eqn:E.
  intros Hr. assert (pg_tables (uw_db w') = pg_tables s) as ->.
  { destruct rq as [[v|]|e|]; cbn in Hr; [destruct (generateName v); cbn in Hr|..]; by injection Hr as _ <-. }
  apply pg_exec_cases in E as [(a & t & Eq & _ & ->)|[(c & _ & _ & ->)|(c & _ & _ & ->)]]; [|done..].
  destruct (ut_counter _); [destruct (in_int64 _)|]; by simplify_eq.
Qed.
End usernames.
