(* ===== verification/UserProps.v ===== *)
(** What the service of users keeps, however its calls overlap; what a deletion means;
    and the runs in which a write of a whole row undoes another one. *)
From S2P Require Export User Demo.
From stdpp Require Import options.
#[local] Set Default Proof Using "Type*".
Open Scope Z_scope.
Local Open Scope go_scope.

Module userprops.
Import user.

Section users.
Context {UL : UUIDLib} {HL : HashLib} {TM : TextMatch}.

(** ** The tables *)
(** Rows stand under their identifiers, and two of them share no wallet, no e-mail and
    no passkey. *)
Definition accounts_unique (t : utables) : Prop :=
  (forall i u, ut_users t !! i = Some u -> u_ID u = i) /\
  (forall i j u v, ut_users t !! i = Some u -> ut_users t !! j = Some v -> i <> j -> clashes u v = false).
(** What the service writes into a row. *)
Definition settings_ok (u : User) : Prop :=
  (exists chs, u_NotificationChannels u = Some chs /\ forall ch, ch ∈ chs -> ch ∈ valid_channels) /\
  cadence_ok (u_DigestIntervalMinutes u) = true /\
  (u_SessionTTLMinutes u = 0 \/ 60 <= u_SessionTTLMinutes u <= 1440).
Definition table_ok (t : utables) : Prop :=
  accounts_unique t /\ forall i u, ut_users t !! i = Some u -> settings_ok u.

(** The columns that tell accounts apart. *)
Definition keys_of (u : User) : string * option string * option string :=
  (u_WalletAddress u, u_Email u, u_PasskeyCredentialID u).
Lemma clashes_keys u v u' v' : keys_of u' = keys_of u -> keys_of v' = keys_of v -> clashes u' v' = clashes u v.
Proof. unfold keys_of, clashes. intros [= -> -> ->] [= -> -> ->]. done. Qed.
Lemma clashes_sym u v : clashes u v = clashes v u.
Proof.
  assert (forall a b, same_some a b = same_some b a) as Hs.
  { intros [a|] [b|]; cbn; try done; apply bool_decide_ext; naive_solver. }
  unfold clashes. rewrite (Hs (u_Email u)), (Hs (u_PasskeyCredentialID u)). do 2 f_equal.
  apply bool_decide_ext. naive_solver.
Qed.

(** A row changed in place: its identifier stays, and its new columns clash with no
    other row. *)
Lemma unique_alter (f : User -> User) id t : accounts_unique t ->
  (forall u, ut_users t !! id = Some u -> u_ID (f u) = u_ID u /\
     forall j v, j <> id -> ut_users t !! j = Some v -> clashes (f u) v = false) ->
  accounts_unique (set_ut_users (alter f id) t).
Proof.
  intros [Hid Hu] Hf. split; cbn.
  - intros i u Hi. destruct (decide (id = i)) as [->|Hne].
    + rewrite lookup_alter_eq in Hi. destruct (ut_users t !! i) as [v|] eqn:E; [|done]. injection Hi as <-.
      destruct (Hf v eq_refl) as [-> _]. by apply Hid.
    + rewrite lookup_alter_ne in Hi by done. by apply Hid.
  - intros i j u v Hi Hj Hne.
    destruct (decide (id = i)) as [->|Hi']; [|destruct (decide (id = j)) as [->|Hj']].
    + rewrite lookup_alter_eq in Hi. rewrite lookup_alter_ne in Hj by done.
      destruct (ut_users t !! i) as [w|] eqn:E; [|done]. injection Hi as <-.
      destruct (Hf w eq_refl) as [_ Hc]. by apply (Hc j).
    + rewrite lookup_alter_eq in Hj. rewrite lookup_alter_ne in Hi by done.
      destruct (ut_users t !! j) as [w|] eqn:E; [|done]. injection Hj as <-.
      destruct (Hf w eq_refl) as [_ Hc]. rewrite clashes_sym. by apply (Hc i).
    + rewrite lookup_alter_ne in Hi, Hj by done. by eapply Hu.
Qed.
Lemma unique_alter_keys (f : User -> User) id t : (forall u, u_ID (f u) = u_ID u /\ keys_of (f u) = keys_of u) ->
  accounts_unique t -> accounts_unique (set_ut_users (alter f id) t).
Proof.
  intros Hf Ht. apply unique_alter; [done|]. intros u Hu. destruct (Hf u) as [-> Hk]. split; [done|].
  intros j v Hj Hv. rewrite (clashes_keys u v) by done. destruct Ht as [_ Hc]. by apply (Hc id j).
Qed.

(** *** What the statements do to them *)
(** The row a statement may write has settings that are right. *)
Definition pre (X : Type) (e : userE X) : Prop :=
  match e with
  | Query (Create u) => u_SessionTTLMinutes u = 0 \/ 60 <= u_SessionTTLMinutes u <= 1440
  | Query (Update u) => settings_ok u
  | _ => True
  end.
Definition post (X : Type) (e : userE X) : result X -> Prop :=
  match e in userE X return result X -> Prop with
  | Query q =>
      match q in dbQ X return result X -> Prop with
      | FindByID _ | FindByWalletAddress _ | FindByEmail _ =>
          λ r, match r with Ok u => settings_ok u | _ => True end
      | _ => λ _, True
      end
  | _ => λ _, True
  end.

Lemma insert_unique u t : accounts_unique t -> insert_check u t = None ->
  accounts_unique (set_ut_users <[u_ID u := inserted u]> t).
Proof.
  intros [Hid Hu] Hc. unfold insert_check in Hc. destruct (out_of_int4 _ || out_of_int4 _); [done|].
  destruct (bool_decide _ || existsb _ _) eqn:E; [done|]. go_bool. clear Hc.
  assert (ut_users t !! u_ID u = None) as Hn by (by apply eq_None_not_Some).
  assert (forall j v, ut_users t !! j = Some v -> clashes (inserted u) v = false) as Hcl.
  { intros j v Hv. rewrite (clashes_keys u v) by (by destruct u). by eapply no_conflict. }
  split; cbn.
  - intros i v. rewrite lookup_insert_Some. intros [[<- <-]|[_ Hv]]; [by destruct u|by apply Hid].
  - intros i j v w. rewrite !lookup_insert_Some. intros [[<- <-]|[Hi Hv]] [[<- <-]|[Hj Hw]] Hne.
    + done.
    + by eapply Hcl.
    + rewrite clashes_sym. by eapply Hcl.
    + by eapply Hu.
Qed.
Lemma insert_keeps u t : table_ok t -> insert_check u t = None ->
  (u_SessionTTLMinutes u = 0 \/ 60 <= u_SessionTTLMinutes u <= 1440) ->
  table_ok (set_ut_users <[u_ID u := inserted u]> t).
Proof.
  intros [Ht Hs] Hc Httl. split; [by apply insert_unique|].
  intros i v. cbn. rewrite lookup_insert_Some. intros [[<- <-]|[_ Hv]]; [|by eapply Hs].
  destruct u; cbn in *. split_and!; [|done|done]. exists ["inapp"%string]. split; [done|].
  intros ch ->%list_elem_of_singleton. by left.
Qed.
Lemma update_unique u now t : accounts_unique t -> update_check u t = None ->
  accounts_unique (set_ut_users (alter (updated u now) (u_ID u)) t).
Proof.
  intros Ht Hc. unfold update_check in Hc. destruct (out_of_int4 _ || _ || _); [done|].
  destruct (decide _); [done|]. destruct (existsb _ _) eqn:E; [done|]. clear Hc.
  apply unique_alter; [done|]. intros row Hrow. split; [by destruct u|]. intros j v Hj Hv.
  pose proof (no_conflict _ _ j v E) as Hn. rewrite lookup_delete_ne in Hn by done. specialize (Hn Hv).
  destruct Ht as [_ Hc]. pose proof (Hc _ _ _ _ Hrow Hv (not_eq_sym Hj)) as Hw. unfold clashes in *.
  destruct u; cbn in *. apply orb_false_iff in Hw as [Hw _]. apply orb_false_iff in Hw as [-> _]. done.
Qed.
Lemma update_keeps u now t : table_ok t -> update_check u t = None -> settings_ok u ->
  table_ok (set_ut_users (alter (updated u now) (u_ID u)) t).
Proof.
  intros [Ht Hs] Hc Hu. split; [by apply update_unique|].
  intros i v Hi. apply alter_some in Hi as (w & Hw & [->| ->]); [by eapply Hs|]. by destruct u.
Qed.
Lemma in_place_keeps (f : User -> User) id t :
  (forall u, u_ID (f u) = u_ID u /\ keys_of (f u) = keys_of u /\ (settings_ok u -> settings_ok (f u))) ->
  table_ok t -> table_ok (set_ut_users (alter f id) t).
Proof.
  intros Hf [Ht Hs]. split.
  - apply unique_alter_keys; [|done]. intros u. by destruct (Hf u) as (? & ? & _).
  - intros i v Hi. apply alter_some in Hi as (w & Hw & [->| ->]); [by eapply Hs|]. apply Hf. by eapply Hs.
Qed.

Lemma scan_ok (q : utables -> option User) w r w' : scanUser (pg_row q) w = (r, w') ->
  pg_tables w' = pg_tables w /\ match r with Ok u => q (pg_tables w) = Some u | _ => True end.
Proof.
  intros E. refine (wp_run (scanUser (pg_row q)) w (λ r w', pg_tables w' = pg_tables w /\
    match r with Ok u => q (pg_tables w) = Some u | _ => True end) _ _ _ E).
  unfold scanUser. wp_rule. apply wp_pg_row; [by intros u w1 Hq Hw|..]; intros;
    (destruct (decide _); by apply wp_fail).
Qed.
Lemma find_live_in P t u : find_live P t = Some u -> exists i, ut_users t !! i = Some u.
Proof.
  intros E. pose proof (find_row_spec (λ u, live u && P u) (ut_users t)) as H. unfold find_live in E. rewrite E in H.
  destruct H as (i & Hi & _). by exists i.
Qed.
Lemma by_id_in i t u : by_id i t = Some u -> ut_users t !! i = Some u.
Proof. unfold by_id. destruct (ut_users t !! i) as [v|]; [|done]. by destruct (live v); [intros [= ->]|]. Qed.

(** What a statement makes of the rows: nothing, or the write it stands for. *)
Definition effect {X} (q : dbQ X) (now : time) (t t' : utables) : Prop :=
  ut_users t' = ut_users t \/
  match q with
  | Create u => insert_check u t = None /\ ut_users t' = <[u_ID u := inserted u]> (ut_users t)
  | Update u => update_check u t = None /\ ut_users t' = alter (updated u now) (u_ID u) (ut_users t)
  | UpdateMoiScore id score => ut_users t' = alter (set_MoiScore score now) id (ut_users t)
  | Mark id => ut_users t' = alter (set_DeletedAt (Some now) now) id (ut_users t)
  | Unmark id => ut_users t' = alter (set_DeletedAt None now) id (ut_users t)
  | _ => False
  end.
#[local] Ltac same := left; match goal with Hw : pg_tables ?w = pg_tables _ |- _ => by rewrite Hw end.
#[local] Ltac write Hw := right; cbn; rewrite Hw; by try split.
Lemma query_effect {X} (q : dbQ X) now s r s' : run_query now q s = (r, s') -> effect q now (pg_tables s) (pg_tables s').
Proof.
  intros E. refine (wp_run (run_query now q) s (λ _ s', effect q now (pg_tables s) (pg_tables s')) _ _ _ E).
  clear E r s'. destruct q; cbn [run_query].
  1-5: apply wp_of_run; intros r s' [Es _]%scan_ok; same.
  - unfold pg_Create, or_conflict. wp_rule. apply wp_pg_insert; [intros w' Hc Hw|intros c w' Hw]; wp_rule; [write Hw|same].
  - unfold pg_Update, or_missing. wp_rule. wp_rule.
    apply wp_pg_update; cbn; [intros w' _ Hc Hw|intros w' _ Hw|intros c w' Hw]; [wp_rule; write Hw|wp_rule; same|same].
  - unfold pg_UpdateMoiScore, or_missing. wp_rule. wp_rule.
    apply wp_pg_update; cbn; [intros w' _ _ Hw|intros w' _ Hw|intros c w' Hw]; [wp_rule; write Hw|wp_rule; same|same].
  - apply wp_pg_update; [intros w' _ _ Hw|intros w' _ Hw|intros c w' Hw]; [write Hw|same..].
  - apply wp_pg_update; [intros w' _ _ Hw|intros w' _ Hw|intros c w' Hw]; [write Hw|same..].
  - apply wp_pg_row; intros; same.
  - unfold pg_ClaimNextName. wp_rule. wp_rule. apply wp_pg_exec; [|intros c w' Hw; same].
    intros a t w' Hq Hw. assert (ut_users (pg_tables w') = ut_users (pg_tables s)) as Hk.
    { rewrite Hw. destruct (ut_counter (pg_tables s)) as [v|]; [destruct (in_int64 _); [|done]|]; by injection Hq as <- <-. }
    destruct a; wp_rule; by left.
  - unfold pg_List. wp_rule. apply wp_pg_exec; [|intros c w' Hw; same]. intros a t w' Hq Hw.
    destruct (offset_of f <? 0); [done|]. injection Hq as <- <-. same.
  - unfold pg_Count. wp_rule. apply wp_pg_select; intros; same.
  - unfold pg_ListDeleted. wp_rule. apply wp_pg_exec; [|intros c w' Hw; same]. intros a t w' Hq Hw.
    destruct (offset_of f <? 0); [done|]. injection Hq as <- <-. same.
  - unfold pg_CountDeleted. wp_rule. apply wp_pg_select; intros; same.
Qed.

(** A statement keeps the tables in order. *)
Lemma table_ok_rows t t' : ut_users t' = ut_users t -> table_ok t -> table_ok t'.
Proof. unfold table_ok, accounts_unique. by intros ->. Qed.
Lemma effect_keeps {X} (q : dbQ X) now t t' : effect q now t t' -> table_ok t -> pre _ (Query q) -> table_ok t'.
Proof.
  assert (forall f id, (forall u, u_ID (f u) = u_ID u /\ keys_of (f u) = keys_of u /\ (settings_ok u -> settings_ok (f u))) ->
    ut_users t' = alter f id (ut_users t) -> table_ok t -> table_ok t') as Halter.
  { intros f id Hf Ht' Ht. eapply table_ok_rows; [|by eapply (in_place_keeps f id)]. done. }
  intros [He|He] Ht Hpre; [by eapply table_ok_rows|]. destruct q; try done; cbn [pre] in Hpre.
  - destruct He as [Hc He]. eapply table_ok_rows; [|by apply (insert_keeps u)]. done.
  - destruct He as [Hc He]. eapply table_ok_rows; [|by apply (update_keeps u now)]. done.
  - eapply Halter; [|exact He|done]. by intros [].
  - eapply Halter; [|exact He|done]. by intros [].
  - eapply Halter; [|exact He|done]. by intros [].
Qed.
(** Whatever record a statement writes, the accounts stay apart. *)
Lemma effect_unique {X} (q : dbQ X) now t t' : effect q now t t' -> accounts_unique t -> accounts_unique t'.
Proof.
  assert (forall f, ut_users t' = f (ut_users t) -> accounts_unique (set_ut_users f t) -> accounts_unique t') as Hset.
  { unfold accounts_unique. cbn. by intros f ->. }
  intros [He|He] Ht; [by apply (Hset id)|]. destruct q; try done.
  - destruct He as [Hc He]. eapply Hset; [exact He|]. by apply insert_unique.
  - destruct He as [Hc He]. eapply Hset; [exact He|]. by apply update_unique.
  - eapply Hset; [exact He|]. apply unique_alter_keys; [by intros []|done].
  - eapply Hset; [exact He|]. apply unique_alter_keys; [by intros []|done].
  - eapply Hset; [exact He|]. apply unique_alter_keys; [by intros []|done].
Qed.
Lemma query_keeps {X} (q : dbQ X) now s r s' : run_query now q s = (r, s') -> table_ok (pg_tables s) ->
  pre _ (Query q) -> table_ok (pg_tables s') /\ post _ (Query q) r.
Proof.
  intros E Ht Hpre. split; [eapply effect_keeps; [by eapply query_effect|done..]|]. destruct Ht as [_ Hs].
  destruct q; cbn [run_query post] in *; try done;
    apply scan_ok in E as [_ Hr]; (destruct r as [u|e|]; [|done..]);
    first [apply by_id_in in Hr|apply find_live_in in Hr as (i & Hr)]; by eapply Hs.
Qed.

Definition world_ok (w : uworld) : Prop := table_ok (pg_tables (uw_db w)).
Lemma perform_user_keeps X (e : userE X) w r w' : perform_user X e w = (r, w') -> world_ok w -> pre X e ->
  world_ok w' /\ post X e r.
Proof.
  unfold world_ok. destruct e as [Y q| | |id]; cbn; intros E Hw Hpre.
  - destruct (run_query (uw_now w) q (uw_db w)) as [r1 s1] eqn:Eq. injection E as <- <-. cbn.
    by eapply query_keeps.
  - by injection E as <- <-.
  - destruct (uw_uuids w); by injection E as <- <-.
  - by injection E as <- <-.
Qed.

(** ** The calls

    The methods of [userService], the two writes of the repository that other
    packages make (the restoration of an account and the score), and the write of
    [SessionHandler.ChangePassword], the caller of [Update]: the record it read
    with another password. *)
Context {FL : GoFloatConv}.
Inductive call :=
  | KGetByID (id : string) | KGetByWallet (w : string) | KGetByEmail (e : string) | KCreate (w : string)
  | KDelete (id : string) | KRestore (id : uuid) | KUpdateProfile (id : string) (up : UpdateProfileInput)
  | KPrefs (id : string) (prefs : NotificationPrefsInput) | KIsEmailTaken (e : string) | KClaim
  | KGetCircles (id : string) | KGetMoiScore (id : string) | KScore (id : uuid) (score : Z)
  | KUpdate (u : User) | KPassword (id hash : string).
Definition serve (k : call) : io unit :=
  match k with
  | KGetByID id => pignore (GetByID id)
  | KGetByWallet w => pignore (GetByWallet w)
  | KGetByEmail e => pignore (GetByEmail e)
  | KCreate w => pignore (service_Create w)
  | KDelete id => service_Delete id
  | KRestore id => repo_Restore id
  | KUpdateProfile id up => pignore (UpdateProfile id up)
  | KPrefs id prefs => pignore (UpdateNotificationPreferences id prefs)
  | KIsEmailTaken e => pignore (IsEmailTaken e)
  | KClaim => pignore (db ClaimNextName)
  | KGetCircles id => pignore (GetCircles id)
  | KGetMoiScore id => pignore (GetMoiScore id)
  | KScore id score => db (UpdateMoiScore id score)
  | KUpdate u => service_Update u
  | KPassword id hash => let* u := GetByID id in service_Update (set_PasswordHash (Some hash) u)
  end.
(** A record that is handed to [Update] is written as it is. *)
Definition saves_settings (k : call) : Prop := match k with KUpdate u => settings_ok u | _ => True end.
(** The environment moves the clock. *)
Definition tick (w w' : uworld) : Prop := uw_db w' = uw_db w.

Abbreviation safely p Q := (safe pre post p Q).
Definition good_user (r : result User) : Prop := match r with Ok u => settings_ok u | _ => True end.
Lemma parse_safely {A} id (k : uuid -> io A) (Q : result A -> Prop) :
  (forall u, safely (k u) Q) -> (forall e, Q (Err e)) -> safely (pbind (parseUUID id) k) Q.
Proof. intros Hk He. apply safe_pbind. unfold parseUUID. destruct (uuid_Parse id); cbn; auto. Qed.
Lemma lookup_safely format (q : dbQ User) : (forall r, post _ (Query q) r -> good_user r) -> pre _ (Query q) ->
  safely (or_missing_user format (db q)) good_user.
Proof.
  intros Hq Hp. unfold or_missing_user. apply safe_ptry, safe_act; [done|]. intros r Hr. specialize (Hq r Hr).
  destruct r as [u|e|]; cbn; [done| |done]. by destruct (decide _).
Qed.
Lemma profile_settings up now u : settings_ok u -> settings_ok (apply_profile up now u).
Proof.
  intros (Hc & Hd & Ht). unfold settings_ok, apply_profile. destruct u; cbn in *. split_and!; [done..|].
  destruct (up_SessionTTL up) as [ttl|]; [|done]. right. unfold clamp_ttl.
  destruct (Z.ltb_spec ttl 60); [done|]. destruct (Z.ltb_spec 1440 ttl); lia.
Qed.
Lemma prefs_settings prefs now u : settings_ok u ->
  existsb (λ ch, bool_decide (ch ∉ valid_channels)) (np_Channels prefs) = false ->
  (forall i, np_DigestIntervalMinutes prefs = Some i -> cadence_ok i = true) ->
  settings_ok (apply_prefs prefs now u).
Proof.
  intros (Hc & Hd & Ht) Hch Hi. unfold settings_ok, apply_prefs. destruct u; cbn in *. split_and!; [| |done].
  - exists (np_Channels prefs). split; [done|]. intros ch Hin. destruct (decide (ch ∈ valid_channels)) as [|Hn]; [done|].
    assert (existsb (λ ch, bool_decide (ch ∉ valid_channels)) (np_Channels prefs) = true) as Ht'; [|congruence].
    apply existsb_exists. exists ch. split; [by apply list_elem_of_In|]. by apply bool_decide_eq_true.
  - destruct (_ && _) eqn:E; [done|]. destruct (np_DigestIntervalMinutes prefs) as [i|]; cbn; [by apply Hi|done].
Qed.
Lemma serve_safely k : saves_settings k -> safely (serve k) (λ _, True).
Proof.
  intros Hk.
  assert (forall format (q : dbQ User) B (f : User -> io B),
    (forall r, post _ (Query q) r -> good_user r) -> pre _ (Query q) ->
    (forall u, settings_ok u -> safely (f u) (λ _, True)) ->
    safely (pbind (or_missing_user format (db q)) f) (λ _, True)) as Hfind.
  { intros format q B f Hq Hp Hf. apply safe_pbind. eapply safe_mono; [by apply lookup_safely|].
    intros [u|e|] Hr; [by apply Hf|done..]. }
  assert (forall format (q : dbQ User), (forall r, post _ (Query q) r -> good_user r) -> pre _ (Query q) ->
    safely (or_missing_user format (db q)) (λ _, True)) as Hfind'.
  { intros format q Hq Hp. eapply safe_mono; [by apply lookup_safely|done]. }
  destruct k as [id|w|e|w|id|id|id up|id prefs|e| |id|id|id score|u|id hash]; cbn [serve saves_settings] in *;
    try (apply safe_pignore); try (apply parse_safely; [intros uid|done]).
  - apply Hfind'; [by intros []|done].
  - apply Hfind'; [by intros []|done].
  - apply Hfind'; [by intros []|done].
  - apply safe_ptry, safe_act; [done|]. intros [u|e|] _; [done| |done]. destruct (decide _); [done|].
    apply safe_pbind_any; [by apply safe_act| |done..]. intros now.
    apply safe_pbind_any; [by apply safe_act| |done..]. intros id.
    apply safe_ptry, safe_act; [by left|]. intros [u|e'|] _; [done| |done]. destruct (decide _); [|done].
    by apply safe_pwrap, safe_act.
  - apply safe_pwrap. unfold repo_Delete. apply safe_pbind, safe_pwrap, safe_act; [done|].
    intros [n|e|] _; cbn [wrap_err]; [|done..]. destruct (n =? 0); [|done]. apply safe_ptry, safe_act; [done|].
    intros [[t|]|e|] _; cbn; try done. by destruct (decide _).
  - unfold repo_Restore. apply safe_pbind, safe_pwrap, safe_act; [done|].
    intros [n|e|] _; cbn [wrap_err]; [|done..]. destruct (n =? 0); [|done]. apply safe_ptry, safe_act; [done|].
    intros [t|e|] _; cbn; try done. by destruct (decide _).
  - apply Hfind; [by intros []|done|]. intros u Hu. apply safe_pbind_any; [by apply safe_act| |done..]. intros now.
    apply safe_pbind_any; [apply safe_pwrap, safe_act; [by apply profile_settings|done]|done..].
  - apply safe_pbind. destruct (existsb _ _) eqn:Ech; cbn [safe pguard pfail pret]; [done|].
    apply Hfind; [by intros []|done|]. intros u Hu. apply safe_pbind_any; [by apply safe_act| |done..]. intros now.
    apply safe_pbind. destruct (match np_DigestIntervalMinutes prefs with Some _ => _ | None => _ end) eqn:Ei; [done|].
    cbn [safe pguard pret]. apply safe_pbind_any; [|done..]. apply safe_pwrap, safe_act; [|done].
    apply prefs_settings; [done..|]. intros i Hi. rewrite Hi in Ei. by apply negb_false_iff in Ei.
  - apply safe_ptry, safe_act; [done|]. intros [u|e'|] _; [done| |done]. by destruct (decide _).
  - by apply safe_act.
  - apply Hfind; [by intros []|done|]. intros u _. by apply safe_pwrap, safe_act.
  - apply Hfind; [by intros []|done|]. by intros u _.
  - by apply safe_act.
  - by apply safe_act.
  - apply safe_pbind, parse_safely; [intros uid|done]. eapply safe_mono; [by apply lookup_safely; [intros []|]|].
    intros [u|e|] Hu; [|done..]. apply safe_act; [|done]. by destruct u.
Qed.

(** C15: However the calls of the service overlap, whatever statements fail: rows stand
    under their identifiers, and two accounts never share a wallet, an e-mail or a
    passkey, whatever records [Update] is given; and if every record given to [Update]
    has its settings in their bounds (those its caller in the repository gives have),
    every row keeps known channels, a digest cadence within the bounds and a session
    lifetime between an hour and a day (or the zero of an account that never set one). *)
Theorem users_in_order w c : table_ok (pg_tables (uw_db w)) -> reachable perform_user serve tick w c ->
  accounts_unique (pg_tables (uw_db c.1)) /\
  (Forall saves_settings c.2.*1 -> table_ok (pg_tables (uw_db c.1))).
Proof.
  intros Hw Hr. split.
  - eapply (pool_safe (λ _ _, True) (λ _ _ _, True) perform_user (λ w, accounts_unique (pg_tables (uw_db w))))
      with (start := serve) (allowed := λ _, True); [..|exact Hr|by apply Forall_true]; [|..|by apply Hw].
    + intros X e w1 r w2 E H1 _. split; [|done]. destruct e as [Y q| | |id]; cbn in E; [| |destruct (uw_uuids w1)|];
        try (by injection E as <- <-).
      destruct (run_query (uw_now w1) q (uw_db w1)) as [r1 s1] eqn:Eq. injection E as <- <-. cbn.
      eapply effect_unique; [by eapply query_effect|done].
    + intros w1 w2 Ht. unfold tick in *. by rewrite Ht.
    + intros k _. apply any_safe.
  - intros Hl. eapply (pool_safe pre post perform_user world_ok perform_user_keeps serve tick saves_settings); [..|exact Hr|done].
    + intros w1 w2 Ht. unfold world_ok, tick in *. by rewrite Ht.
    + apply serve_safely.
    + done.
Qed.
End users.
End userprops.
