(* ===== verification/UserRuns.v ===== *)
(** Deletion and restoration of accounts, the score that is shown, and concrete runs: a
    profile update that takes back a score, a wallet that cannot register again. *)
From S2P Require Export UserProps.
From stdpp Require Import options.
#[local] Set Default Proof Using "Type*".
Open Scope Z_scope.
Local Open Scope go_scope.

Module userruns.
Import user userprops.

Section runs.
Context {UL : UUIDLib} {HL : HashLib} {TM : TextMatch}.
Abbreviation users_of w := (ut_users (pg_tables (uw_db w))) (only parsing).

(** ** Statements in a run *)
Lemma run_db {X} (q : dbQ X) w r w' : run perform_user (db q) w = (r, w') ->
  exists s, run_query (uw_now w) q (uw_db w) = (r, s) /\ w' = set_udb s w.
Proof. cbn. destruct (run_query _ _ _) as [r1 s] eqn:E. intros [= <- <-]. by exists s. Qed.
Lemma wp_mark (mark : bool) id w (Q : result Z -> uworld -> Prop) :
  let f := if mark then set_DeletedAt (Some (uw_now w)) (uw_now w) else set_DeletedAt None (uw_now w) in
  (forall w', deleted_state (negb mark) id (pg_tables (uw_db w)) = true ->
     pg_tables (uw_db w') = set_ut_users (alter f id) (pg_tables (uw_db w)) -> uw_now w' = uw_now w -> Q (Ok 1) w') ->
  (forall w', deleted_state (negb mark) id (pg_tables (uw_db w)) = false ->
     pg_tables (uw_db w') = pg_tables (uw_db w) -> uw_now w' = uw_now w -> Q (Ok 0) w') ->
  (forall e w', pg_tables (uw_db w') = pg_tables (uw_db w) -> uw_now w' = uw_now w -> Q (Err e) w') ->
  wp (run perform_user (db (if mark then Mark id else Unmark id))) w Q.
Proof.
  intros f Hh Hn He. apply wp_of_run. intros r w' (s & Eq & ->)%run_db. destruct mark; cbn [run_query negb] in *.
  - refine (wp_run _ _ (λ r s, Q r (set_udb s w)) _ _ _ Eq). apply wp_pg_update; intros; by auto.
  - refine (wp_run _ _ (λ r s, Q r (set_udb s w)) _ _ _ Eq). apply wp_pg_update; intros; by auto.
Qed.
Lemma wp_deleted_at id w (Q : result (option time) -> uworld -> Prop) :
  (forall u w', users_of w !! id = Some u -> pg_tables (uw_db w') = pg_tables (uw_db w) -> uw_now w' = uw_now w ->
     Q (Ok (u_DeletedAt u)) w') ->
  (forall e w', pg_tables (uw_db w') = pg_tables (uw_db w) -> uw_now w' = uw_now w -> Q (Err e) w') ->
  wp (run perform_user (db (DeletedAt id))) w Q.
Proof.
  intros Hs He. apply wp_of_run. intros r w' (s & Eq & ->)%run_db.
  refine (wp_run _ _ (λ r s, Q r (set_udb s w)) _ _ _ Eq). cbn [run_query]. apply wp_pg_row.
  - intros a w' (u & Eu & ->)%fmap_Some Hw. by apply (Hs u).
  - intros w' _ Hw. by apply He.
  - intros c w' Hw. by apply He.
Qed.

(** What the two operations do, when they say so and when they fail. *)
Lemma Delete_spec id w r w' : run perform_user (repo_Delete id) w = (r, w') ->
  uw_now w' = uw_now w /\
  match r with
  | Ok _ => exists u, users_of w !! id = Some u /\ u_DeletedAt u = None /\
      users_of w' = <[id := set_DeletedAt (Some (uw_now w)) (uw_now w) u]> (users_of w)
  | _ => users_of w' = users_of w
  end.
Proof.
  intros E. refine (wp_run _ w (λ r w', uw_now w' = uw_now w /\ match r with
    | Ok _ => exists u, users_of w !! id = Some u /\ u_DeletedAt u = None /\
        users_of w' = <[id := set_DeletedAt (Some (uw_now w)) (uw_now w) u]> (users_of w)
    | _ => users_of w' = users_of w end) _ _ _ E).
  unfold repo_Delete. apply wp_pbind, wp_pwrap. apply (wp_mark true); cbn [wrap_err negb].
  - intros w1 Hd Hw Hn. change (1 =? 0) with false. apply wp_ret. split; [done|]. unfold deleted_state in Hd.
    destruct (users_of w !! id) as [u|] eqn:Eu; [|done]. exists u. split; [done|].
    rewrite bool_decide_eq_true in Hd. unfold live in Hd. rewrite bool_decide_eq_true in Hd. split; [done|].
    rewrite Hw. cbn. by rewrite (alter_insert_row _ _ _ u).
  - intros w1 Hd Hw Hn. change (0 =? 0) with true. apply wp_ptry, wp_deleted_at.
    + intros u w2 _ Hw2 Hn2. destruct (u_DeletedAt u); apply wp_fail; (split; [congruence|by rewrite Hw2, Hw]).
    + intros e w2 Hw2 Hn2. destruct (decide _); apply wp_fail; (split; [congruence|by rewrite Hw2, Hw]).
  - intros e w1 Hw Hn. split; [done|]. by rewrite Hw.
Qed.
Lemma Restore_spec id w r w' : run perform_user (repo_Restore id) w = (r, w') ->
  uw_now w' = uw_now w /\
  match r with
  | Ok _ => exists u, users_of w !! id = Some u /\ u_DeletedAt u <> None /\
      users_of w' = <[id := set_DeletedAt None (uw_now w) u]> (users_of w)
  | _ => users_of w' = users_of w
  end.
Proof.
  intros E. refine (wp_run _ w (λ r w', uw_now w' = uw_now w /\ match r with
    | Ok _ => exists u, users_of w !! id = Some u /\ u_DeletedAt u <> None /\
        users_of w' = <[id := set_DeletedAt None (uw_now w) u]> (users_of w)
    | _ => users_of w' = users_of w end) _ _ _ E).
  unfold repo_Restore. apply wp_pbind, wp_pwrap. apply (wp_mark false); cbn [wrap_err negb].
  - intros w1 Hd Hw Hn. change (1 =? 0) with false. apply wp_ret. split; [done|]. unfold deleted_state in Hd.
    destruct (users_of w !! id) as [u|] eqn:Eu; [|done]. exists u. split; [done|].
    rewrite bool_decide_eq_true in Hd. unfold live in Hd. rewrite bool_decide_eq_false in Hd. split; [done|].
    rewrite Hw. cbn. by rewrite (alter_insert_row _ _ _ u).
  - intros w1 Hd Hw Hn. change (0 =? 0) with true. apply wp_ptry, wp_deleted_at.
    + intros u w2 _ Hw2 Hn2. apply wp_fail. split; [congruence|by rewrite Hw2, Hw].
    + intros e w2 Hw2 Hn2. destruct (decide _); apply wp_fail; (split; [congruence|by rewrite Hw2, Hw]).
  - intros e w1 Hw Hn. split; [done|]. by rewrite Hw.
Qed.

Lemma find_live_Some P t u : find_live P t = Some u ->
  exists i, ut_users t !! i = Some u /\ u_DeletedAt u = None /\ P u = true.
Proof.
  intros E. pose proof (find_row_spec (λ u, live u && P u) (ut_users t)) as Hf. unfold find_live in E. rewrite E in Hf.
  destruct Hf as (i & Hi & Hp). exists i. apply andb_true_iff in Hp as [Hl Hp]. unfold live in Hl. by go_bool.
Qed.

(** A deleted account is found by no lookup of the service, by identifier, wallet,
    e-mail or passkey; a restoration gives the row back as it was, but for the time of its
    last update. *)
Theorem deleted_then_restored id w w1 w2 : table_ok (pg_tables (uw_db w)) ->
  run perform_user (repo_Delete id) w = (Ok tt, w1) ->
  run perform_user (repo_Restore id) w1 = (Ok tt, w2) ->
  by_id id (pg_tables (uw_db w1)) = None /\
  (forall P u, find_live P (pg_tables (uw_db w1)) = Some u -> u_ID u <> id) /\
  exists u, users_of w !! id = Some u /\ by_id id (pg_tables (uw_db w2)) = Some (set_DeletedAt None (uw_now w) u) /\
    users_of w2 = <[id := set_DeletedAt None (uw_now w) u]> (users_of w).
Proof.
  intros [[Hid _] _] (Hn1 & u & Hu & Hl & Hw1)%Delete_spec (_ & v & Hv & _ & Hw2)%Restore_spec.
  rewrite Hw1, lookup_insert_eq in Hv. injection Hv as <-.
  assert (users_of w2 = <[id := set_DeletedAt None (uw_now w) u]> (users_of w)) as Ew2.
  { rewrite Hw2, Hn1, Hw1, insert_insert_eq. f_equal. by destruct u. }
  split; [unfold by_id; rewrite Hw1, lookup_insert_eq; by destruct u|]. split.
  - intros P v (i & Hi & Hv & _)%find_live_Some E. rewrite Hw1, lookup_insert_Some in Hi.
    destruct Hi as [[_ <-]|[Hne Hi]]; [by destruct u|]. apply Hid in Hi. congruence.
  - exists u. split; [done|]. split; [|done]. unfold by_id. rewrite Ew2, lookup_insert_eq. by destruct u.
Qed.

(** ** A wallet of a deleted account *)
Lemma wp_find_wallet wallet w (Q : result User -> uworld -> Prop) :
  (forall u w', find_live (has_wallet wallet) (pg_tables (uw_db w)) = Some u ->
     pg_tables (uw_db w') = pg_tables (uw_db w) -> Q (Ok u) w') ->
  (forall e w', pg_tables (uw_db w') = pg_tables (uw_db w) -> Q (Err e) w') ->
  wp (run perform_user (db (FindByWalletAddress wallet))) w Q.
Proof.
  intros Hs He. apply wp_of_run. intros r w' (s & Eq & ->)%run_db. cbn [run_query] in Eq.
  refine (wp_run _ _ (λ r s, Q r (set_udb s w)) _ _ _ Eq). unfold pg_FindByWalletAddress, scanUser.
  apply wp_try, wp_pg_row; [intros u w' Hu Hw; by apply Hs|..]; intros;
    (destruct (decide _); apply wp_fail; by apply He).
Qed.

(** A wallet whose account was deleted cannot come back: the service finds no account
    of it and the table refuses a second one, so every call fails and changes nothing. *)
Theorem deleted_wallet_refused wallet i u w r w' : table_ok (pg_tables (uw_db w)) ->
  users_of w !! i = Some u -> u_WalletAddress u = wallet -> u_DeletedAt u <> None ->
  run perform_user (service_Create wallet) w = (r, w') ->
  (forall a, r <> Ok a) /\ users_of w' = users_of w.
Proof.
  intros [[_ Huq] _] Hu Hwal Hdel E.
  assert (find_live (has_wallet wallet) (pg_tables (uw_db w)) = None) as Hnone.
  { destruct (find_live _ _) as [v|] eqn:Ev; [|done]. apply find_live_Some in Ev as (j & Hj & Hl & Hv).
    unfold has_wallet in Hv. go_bool. assert (i <> j) as Hne by congruence.
    pose proof (Huq _ _ _ _ Hu Hj Hne) as Hc. unfold clashes in Hc. rewrite bool_decide_eq_true_2 in Hc by congruence. done. }
  refine (wp_run _ w (λ r w', (forall a, r <> Ok a) /\ users_of w' = users_of w) _ _ _ E).
  unfold service_Create. apply wp_ptry, wp_find_wallet; [by rewrite Hnone|]. intros e w1 Hw1.
  destruct (decide _); [apply wp_fail; by rewrite Hw1|]. apply wp_pbind, wp_act, wp_of_run. intros r0 w0 [= <- <-].
  apply wp_pbind, wp_act, wp_of_run. intros r2 w2 E2. cbn [perform_user] in E2.
  assert (pg_tables (uw_db w2) = pg_tables (uw_db w)) as Hw2.
  { rewrite <-Hw1. by destruct (uw_uuids w1); injection E2 as <- <-. }
  destruct r2 as [id|e2|]; [|by rewrite Hw2..]. apply wp_ptry, wp_of_run. intros r3 w3 (s & Eq & ->)%run_db.
  cbn [run_query] in Eq.
  refine (wp_run _ _ (λ r s, match r with Ok a => wp (run perform_user _) (set_udb s w2) _ | Err e => _ | Panic => _ end) _ _ _ Eq).
  unfold pg_Create, or_conflict. apply wp_try, wp_pg_insert.
  - intros w4 Hc. exfalso. unfold insert_check in Hc. rewrite Hw2 in Hc. destruct (out_of_int4 _ || _); [done|].
    destruct (_ || existsb _ _) eqn:Ex; [done|]. apply orb_false_iff in Ex as [_ Ex].
    pose proof (no_conflict _ _ _ _ Ex Hu) as Hcl. unfold clashes, new_user in Hcl. cbn in Hcl.
    by rewrite bool_decide_eq_true_2 in Hcl.
  - intros c w4 Hw4. apply wp_fail. destruct (decide _).
    + apply wp_pwrap, wp_find_wallet; cbn [uw_db set_udb wrap_err].
      * intros v w5 Hv. rewrite Hw4, Hw2, Hnone in Hv. done.
      * intros e5 w5 Hw5. split; [done|]. by rewrite Hw5, Hw4, Hw2.
    + apply wp_fail. split; [done|]. cbn. by rewrite Hw4, Hw2.
Qed.
End runs.

(** ** The parts of a score *)
Section score.
Context {FL : GoFloatConv}.
Definition parts (score : Z) : Z :=
  let b := breakdown score in mb_Streaks b + mb_Completions b + mb_Volume b + mb_Recency b.
Definition part_bounds (score : Z) : bool :=
  let b := breakdown score in
  (score - 3 <=? parts score) && (parts score <=? score) &&
  (0 <=? mb_Streaks b) && (mb_Streaks b <=? 350) && (0 <=? mb_Completions b) && (mb_Completions b <=? 300) &&
  (0 <=? mb_Volume b) && (mb_Volume b <=? 200) && (0 <=? mb_Recency b) && (mb_Recency b <=? 150).
Lemma part_bounds_all : forallb part_bounds (seqZ 0 1001) = true.
Proof. vm_compute. reflexivity. Qed.
(** The four parts of a score, computed in floating point and truncated, are within
    their caps and together miss at most three points of it, for every score from 0 to
    1000; the parts of 1000 are the caps. *)
Theorem score_parts score : 0 <= score <= 1000 ->
  let b := breakdown score in
  score - 3 <= mb_Streaks b + mb_Completions b + mb_Volume b + mb_Recency b <= score /\
  0 <= mb_Streaks b <= 350 /\ 0 <= mb_Completions b <= 300 /\ 0 <= mb_Volume b <= 200 /\ 0 <= mb_Recency b <= 150.
Proof.
  intros Hs b. assert (part_bounds score = true) as Hb.
  { pose proof part_bounds_all as Ha. rewrite forallb_forall in Ha. apply Ha, list_elem_of_In, elem_of_seqZ. lia. }
  unfold part_bounds, parts in Hb. fold b in Hb. go_bool. lia.
Qed.
End score.

(** ** Concrete runs *)
#[local] Instance demo_hash : HashLib := {| sha256_hex s := ("#" ++ s)%string |}.
#[local] Instance demo_match : TextMatch := {| ilike _ _ := false |}.
#[local] Instance demo_fconv : GoFloatConv := {| f64_to_int64_out _ := 0 |}.
Definition ada : User := set_prefs (Some ["inapp"%string]) false false 1440 5 (set_MoiScore 300 5 (new_user 7 "GADA" 5)).
Definition demo_world (u : User) : uworld :=
  {| uw_now := 100; uw_db := connection {| ut_users := {[7%N := u]}; ut_counter := Some 0 |};
     uw_uuids := [9%N]; uw_circles _ := Ok [] |}.
Lemma demo_row u i v : ut_users (pg_tables (uw_db (demo_world u))) !! i = Some v -> i = 7%N /\ v = u.
Proof. change (({[7%N := u]} : gmap N User) !! i = Some v -> i = 7%N /\ v = u). by intros [<- <-]%lookup_singleton_Some. Qed.
Lemma demo_table : table_ok (pg_tables (uw_db (demo_world ada))).
Proof.
  split; [split|].
  - by intros i u [-> ->]%demo_row.
  - by intros i j u v [-> ->]%demo_row [-> ->]%demo_row.
  - intros i u [-> ->]%demo_row. split_and!; [|done|by left]. exists ["inapp"%string]. split; [done|].
    intros ch ->%list_elem_of_singleton. by left.
Qed.
Definition rename : UpdateProfileInput :=
  {| up_DisplayName := Some "Ada"%string; up_Email := None; up_Phone := None; up_CountryCode := None;
     up_PreferredLanguage := None; up_SessionTTL := None |}.
(** A profile update reads the row, the indexer lowers the score, the update writes the
    row it read. *)
Definition overlap : list (turn (W := uworld) (L := call)) :=
  [Start (KUpdateProfile (unary 7) rename); Start (KScore 7 250); Run 0; Run 0; Run 1; Run 0].
Definition after_overlap : uworld * pool (E := userE) (L := call) := schedule perform_user serve overlap (demo_world ada, []).

(** Both calls succeed, and the penalty is gone. *)
Theorem score_update_lost : exists c,
  reachable perform_user serve tick (demo_world ada) c /\
  c.2 = [(KUpdateProfile (unary 7) rename, Done (Ok tt)); (KScore 7 250, Done (Ok tt))] /\
  u_MoiScore <$> (ut_users (pg_tables (uw_db c.1)) !! 7%N) = Some 300 /\
  u_DisplayName <$> (ut_users (pg_tables (uw_db c.1)) !! 7%N) = Some (Some "Ada"%string).
Proof.
  exists after_overlap. split; [|by vm_compute]. by apply schedule_steps_closed.
Qed.

Lemma users_in_order_witness : table_ok (pg_tables (uw_db after_overlap.1)).
Proof.
  refine (proj2 (users_in_order (demo_world ada) after_overlap demo_table _) _); [|by repeat constructor].
  apply (schedule_steps_closed perform_user serve tick overlap (demo_world ada, [])). reflexivity.
Defined.
Lemma deleted_then_restored_witness : let w1 := (run perform_user (repo_Delete 7) (demo_world ada)).2 in
  by_id 7 (pg_tables (uw_db w1)) = None.
Proof.
  exact (proj1 (deleted_then_restored 7 (demo_world ada) _ (run perform_user (repo_Restore 7)
    (run perform_user (repo_Delete 7) (demo_world ada)).2).2 demo_table eq_refl eq_refl)).
Defined.
Definition gone : User := set_DeletedAt (Some 50) 50 ada.
Lemma gone_table : table_ok (pg_tables (uw_db (demo_world gone))).
Proof.
  pose proof demo_table as [_ Hs]. split; [split|].
  - by intros i u [-> ->]%demo_row.
  - by intros i j u v [-> ->]%demo_row [-> ->]%demo_row.
  - intros i u [-> ->]%demo_row. exact (Hs 7%N ada eq_refl).
Qed.
Lemma deleted_wallet_refused_witness : forall a, (run perform_user (service_Create "GADA") (demo_world gone)).1 <> Ok a.
Proof.
  exact (proj1 (deleted_wallet_refused "GADA" 7 gone (demo_world gone) _ _ gone_table eq_refl eq_refl ltac:(discriminate)
    (surjective_pairing (run perform_user (service_Create "GADA") (demo_world gone))))).
Defined.
Lemma score_parts_witness : let b := breakdown 777 in mb_Recency b <= 150.
Proof. cbv zeta. destruct (score_parts 777) as (_ & _ & _ & _ & H); [done|exact (proj2 H)]. Defined.
End userruns.
