(* ===== verification/Accounts.v ===== *)
(** Accounts: the codes sent by e-mail (src/internal/domain/verification), the second
    factor (src/internal/domain/totp), passwords (src/internal/domain/auth/password) and
    the handlers that register a user, change an e-mail or a password and enrol an
    authenticator (src/internal/api/handler).  They work on the users, on Redis and on the
    sessions at once; a request is a program over all three. *)
From S2P Require Export User SessionProps.
From stdpp Require Import options.
From Stdlib Require Import Ascii.
#[local] Set Default Proof Using "Type*".
Open Scope Z_scope.
Local Open Scope go_scope.

(** Functions of libraries, and of the tables of Unicode. *)
Class AccountLib := {
  b64_encode : string -> string;                      (** base64.StdEncoding *)
  b64_decode : string -> option string;
  argon2_IDKey : string -> string -> string;          (** of a password and a salt, 32 bytes *)
  ToLower : string -> string;
  ToUpper : string -> string;
  EqualFold : string -> string -> bool;
  RuneCount : string -> Z;
  binding_email : string -> bool;                     (** the validator [email] *)
  ParseAddress : string -> option string;             (** [mail.ParseAddress], the address *)
  derive_wallet_seed : string -> option string;       (** [DeriveWalletSeed] of the wallets *)
  totp_QR : string -> option string;                  (** [ProvisioningQR] of a URI *)
  totp_ValidateCustom : string -> string -> time -> bool;  (** of a code, a secret and a time *)
}.

Module accounts.
Import redis session sessionprops.

(** ** Actions *)
Record attemptState := { at_failures : Z; at_lockedUntil : time }.
(** The critical sections of the lock of the second factor; an answer is the time left. *)
Inductive lockQ : Type -> Type :=
  | CheckAccount (accountID : string) : lockQ (option duration)
  | RecordFailure (accountID : string) : lockQ (option duration)
  | ResetAccount (accountID : string) : lockQ unit.
Inductive accE : Type -> Type :=
  | Users {X : Type} (e : user.userE X) : accE X
  | Sess {X : Type} (e : sessE X) : accE X
  | Lock {X : Type} (q : lockQ X) : accE X
  | NumericCode (email : string) (length : nat) : accE string   (** drawn for an e-mail *)
  | Mail (email code : string) : accE unit
  | CreateWallet (userID seed : string) : accE unit
  | TOTPKey (account : string) : accE (string * string)         (** a secret and its URI *)
  | Draw (n : Z) : accE Z.                                      (** [rand.Int] below [n] *)
Abbreviation io := (prog accE) (only parsing).
Definition users {A} (p : prog user.userE A) : io A := plift (@Users) p.
Definition sess_ {A} (p : prog sessE A) : io A := plift (@Sess) p.
Definition rcmd {X} (c : cmd X) : io X := act (Sess (Redis (Cmd c))).
Definition time_Now : io time := act (Sess (Redis Now)).

(** ** Passwords *)
Definition dollar : ascii := "$".
Fixpoint trim_pad (s : string) : string :=
  match s with
  | EmptyString => EmptyString
  | String c r => let r' := trim_pad r in if decide (c = "="%char /\ r' = EmptyString) then EmptyString else String c r'
  end.
Section passwords.
Context `{AccountLib}.
Definition base64Encode (data : string) : string := trim_pad (b64_encode data).
Definition base64Decode (s : string) : option string :=
  let padded := match (String.length s mod 4)%nat with 2%nat => s ++ "==" | 3%nat => s ++ "=" | _ => s end%string in
  b64_decode padded.
Definition encode_hash (salt password : string) : string :=
  ("$argon2id$v=19$m=65536,t=3,p=4$" ++ base64Encode salt ++ String dollar (base64Encode (argon2_IDKey password salt)))%string.
Definition HashPassword (password : string) : io string :=
  let* salt := pwrap "generating salt: %w" (act (Sess (Redis Rand))) in pret (encode_hash salt password).
Definition VerifyPassword (password encodedHash : string) : bool :=
  let parts := str_split dollar encodedHash in
  if negb (length parts =? 6)%nat || negb (bool_decide (parts !! 1%nat = Some "argon2id"%string)) then false
  else match parts !! 4%nat, parts !! 5%nat with
       | Some p4, Some p5 =>
           match base64Decode p4, base64Decode p5 with
           | Some salt, Some expected => bool_decide (argon2_IDKey password salt = expected)
           | _, _ => false
           end
       | _, _ => false
       end.
End passwords.

(** ** Codes by e-mail *)
Record PendingRegistration := {
  pr_PasswordHash : string; pr_WalletAddr : string; pr_Email : string; pr_DisplayName : string; pr_Language : string;
}.
Record emailChangeState := { ec_CurrentEmail : string; ec_NewEmail : string; ec_OldVerified : bool }.
Class AccountJSON := {
  pending_Marshal : PendingRegistration -> string;
  pending_Unmarshal : string -> option PendingRegistration;
  change_Marshal : emailChangeState -> string;
  change_Unmarshal : string -> option emailChangeState;
}.
Definition minute : duration := 60 * second.
Definition pendingRegistrationTTL : duration := 15 * minute.
Definition otpTTL : duration := 5 * minute.
Definition resendTTL : duration := 60 * second.
Definition maxAttempts : Z := 5.
Definition recoveryTTL : duration := 15 * minute.
Definition resendKey (email : string) : string := "otp:resend:" ++ email.
Definition otpKey (email : string) : string := "otp:code:" ++ email.
Definition recoveryKey (email : string) : string := "recovery:code:" ++ email.
Definition pendingKey (email : string) : string := "pending:register:" ++ email.
Definition colon : ascii := ":".

Section verification.
Context `{user.HashLib, AccountJSON}.
Variables (mailer : bool).     (** whether a sender of e-mails is attached *)
Definition otpValue (hashedCode : string) (attempts : Z) : string := hashedCode ++ String colon (fmt_d attempts).
Definition deliver (format email code : string) : io unit :=
  if mailer then pwrap format (act (Mail email code)) else pret tt.
Definition SendOTP (email : string) : io unit :=
  let* exists_ := pwrap "checking resend rate limit: %w" (rcmd (EXISTS (resendKey email))) in
  do* pguard (0 <? exists_) (Errorf "please wait before requesting another code") in
  let* code := pwrap "generating OTP code: %w" (act (NumericCode email 6)) in
  do* pwrap "storing OTP: %w" (rcmd (SET (otpKey email) (otpValue (user.sha256_hex code) 0) otpTTL)) in
  do* pwrap "storing resend limit: %w" (rcmd (SET (resendKey email) "1" resendTTL)) in
  deliver "sending OTP email: %w" email code.
(** The code is deleted and the call refused. *)
Definition clear_and (clearing key : string) (err : error) : io bool :=
  do* pwrap clearing (rcmd (DEL [key])) in pfail err.
Definition VerifyOTP (email code : string) : io bool :=
  let* found := pwrap "reading OTP: %w" (rcmd (GET (otpKey email))) in
  match found with
  | None => pfail (Errorf "OTP code expired or not found")
  | Some stored =>
      match str_cut colon stored with
      | None => clear_and "clearing malformed OTP: %w" (otpKey email) (Errorf "invalid OTP format")
      | Some (hash, counter) =>
          match ParseInt counter with
          | inr _ => clear_and "invalid OTP attempt counter (also failed to clear it: %w)" (otpKey email) (Errorf "invalid OTP attempt counter")
          | inl attempts =>
              if attempts <? 0 then
                clear_and "invalid OTP attempt counter (also failed to clear it: %w)" (otpKey email) (Errorf "invalid OTP attempt counter")
              else if maxAttempts <=? attempts then
                clear_and "clearing exhausted OTP: %w" (otpKey email) (Errorf "too many incorrect attempts. request a new code")
              else if decide (user.sha256_hex code = hash) then
                do* pwrap "clearing verified OTP: %w" (rcmd (DEL [otpKey email])) in pret true
              else
                do* pwrap "updating OTP attempts: %w" (rcmd (SET (otpKey email) (otpValue hash (wrap64 (attempts + 1))) otpTTL)) in
                pret false
          end
      end
  end.
Definition SendRecoveryCode (email : string) : io unit :=
  let* code := act (NumericCode email 8) in
  do* pwrap "storing recovery code: %w" (rcmd (SET (recoveryKey email) (user.sha256_hex code) recoveryTTL)) in
  deliver "sending recovery code email: %w" email code.
Definition VerifyRecoveryCode (email code : string) : io bool :=
  let* found := pwrap "reading recovery code: %w" (rcmd (GET (recoveryKey email))) in
  match found with
  | None => pfail (Errorf "recovery code expired or not found")
  | Some stored =>
      if decide (user.sha256_hex code = stored) then
        do* pwrap "clearing recovery code: %w" (rcmd (DEL [recoveryKey email])) in pret true
      else pret false
  end.
Definition StorePendingRegistration (email : string) (data : PendingRegistration) : io unit :=
  rcmd (SET (pendingKey email) (pending_Marshal data) pendingRegistrationTTL).
Definition GetPendingRegistration (email : string) : io (option PendingRegistration) :=
  let* found := pwrap "reading pending registration: %w" (rcmd (GET (pendingKey email))) in
  match found with
  | None => pret None
  | Some data => match pending_Unmarshal data with
                 | Some pr => pret (Some pr)
                 | None => pfail (Wrapf "unmarshaling pending registration: %w" (External "json"))
                 end
  end.
Definition DeletePendingRegistration (email : string) : io unit := rcmd (DEL [pendingKey email]).
End verification.

(** ** The second factor *)
Definition maxFailures : Z := 5.
Definition initialLockout : duration := 30 * second.
Definition state_of (id : string) (m : gmap string attemptState) : attemptState :=
  default {| at_failures := 0; at_lockedUntil := 0 |} (m !! id).
Definition lockout_delay (failures : Z) : duration :=
  let exponent := failures - maxFailures in
  let exponent := if 6 <? exponent then 6 else exponent in
  initialLockout * Z.shiftl 1 exponent.
(** [Some d]: locked for [d]. *)
Definition run_lock {X} (now : time) (q : lockQ X) (m : gmap string attemptState) : X * gmap string attemptState :=
  match q in lockQ X return X * gmap string attemptState with
  | CheckAccount id =>
      let st := state_of id m in
      if time_After (at_lockedUntil st) now then (Some (time_Sub (at_lockedUntil st) now), m)
      else if time_IsZero (at_lockedUntil st) then (None, m)
      else (None, <[id := {| at_failures := at_failures st; at_lockedUntil := 0 |}]> m)
  | RecordFailure id =>
      let st := state_of id m in
      let failures := wrap64 (at_failures st + 1) in
      if maxFailures <=? failures then
        let delay := lockout_delay failures in
        (Some delay, <[id := {| at_failures := failures; at_lockedUntil := time_Add now delay |}]> m)
      else (None, <[id := {| at_failures := failures; at_lockedUntil := at_lockedUntil st |}]> m)
  | ResetAccount id => (tt, delete id m)
  end.
Inductive totp_answer := Valid | InvalidCode | Locked (retryAfter : duration).
Definition charset : string := "ABCDEFGHJKLMNPQRSTUVWXYZ23456789".
Definition BackupCodeCount : nat := 10.
Record BackupCode := { bk_Plain : string; bk_Hash : string }.
(** [strings.NewReplacer] that removes spaces, dashes and tabs. *)
Definition strip_separators (s : string) : string :=
  String.string_of_list_ascii (filter (λ c, c ∉ [" "; "-"; "009"]%char) (String.list_ascii_of_string s)).

Section totp.
Context `{user.HashLib, AccountLib}.
Definition ValidateCodeAt (secret code : string) (at_ : time) : bool := totp_ValidateCustom (str_TrimSpace code) secret at_.
Definition record_failure (id : string) : io totp_answer :=
  let* r := act (Lock (RecordFailure id)) in
  pret (match r with Some d => Locked d | None => InvalidCode end).
Definition ValidateAccountCode (id secret code : string) : io totp_answer :=
  let* locked := act (Lock (CheckAccount id)) in
  match locked with
  | Some d => pret (Locked d)
  | None =>
      let* now := time_Now in
      if ValidateCodeAt secret code now then do* act (Lock (ResetAccount id)) in pret Valid
      else record_failure id
  end.
Fixpoint draw_plain (positions : list nat) : io string :=
  match positions with
  | [] => pret ""%string
  | j :: positions =>
      let* c := (if decide (j = 4 \/ j = 9)%nat then pret "-"%char
                 else let* n := pwrap "generating backup code: %w" (act (Draw (Z.of_nat (String.length charset)))) in
                      match String.get (Z.to_nat n) charset with Some c => pret c | None => Done Panic end) in
      let* rest := draw_plain positions in
      pret (String c rest)
  end.
Definition hashBackupCode (code : string) : string := user.sha256_hex code.
Fixpoint draw_codes (k : nat) : io (list BackupCode) :=
  match k with
  | O => pret []
  | S k =>
      let* code := draw_plain (seq 0 14) in
      let* rest := draw_codes k in
      pret ({| bk_Plain := code; bk_Hash := hashBackupCode code |} :: rest)
  end.
Definition GenerateBackupCodes : io (list BackupCode) := draw_codes BackupCodeCount.
Definition NormalizeBackupCode (code : string) : string :=
  let raw := ToUpper (strip_separators (str_TrimSpace code)) in
  if negb (String.length raw =? 12)%nat then ToUpper (str_TrimSpace code)
  else (String.substring 0 4 raw ++ "-" ++ String.substring 4 4 raw ++ "-" ++ String.substring 8 4 raw)%string.
(** The first stored hash that matches is removed. *)
Fixpoint remove_first (want : string) (hashed : list string) : option (list string) :=
  match hashed with
  | [] => None
  | h :: hs => if decide (h = want) then Some hs else match remove_first want hs with Some r => Some (h :: r) | None => None end
  end.
Definition ValidateBackupCode (plainCode : string) (hashedCodes : list string) : option (list string) :=
  remove_first (hashBackupCode (NormalizeBackupCode plainCode)) hashedCodes.
Definition HashBackupCodes (codes : list BackupCode) : list string := bk_Hash <$> codes.
End totp.

(** ** The handlers *)
Inductive body :=
  | BMessage (message : string) | BTokens (p : TokenPair) | BEnrollment (secret uri qr : string)
  | BCodes (codes : list string) | BVerified (method : string) (remaining : Z) | BDisabled | BEmail (email : string)
  | BUser (u : user.User).
Inductive reply := Refused (status : Z) (message : string) | Answered (status : Z) (b : body).
Definition nonempty (s : string) : bool := negb (bool_decide (s = ""%string)).
(** [x, err := m()], whose error ends the request with an answer. *)
Definition or_refuse {A} (m : io A) (refusal : error -> reply) (k : A -> io reply) : io reply :=
  ptry m (λ r, match r with inl a => k a | inr err => pret (refusal err) end).
Definition sessionTTLFromUser (u : user.User) : duration :=
  let ttl := user.u_SessionTTLMinutes u in
  let ttl := if ttl <? 60 then 240 else ttl in wrap64 (ttl * minute).

Section handlers.
Context `{UUIDLib, SessionLib, user.HashLib, AccountLib, AccountJSON}.
Variables (mailer wallets : bool) (refreshTTL : duration).

(** *** registration_handler.go *)
Definition emailWalletAddress (email : string) : string := "EMAIL:" ++ String.substring 0 32 (user.sha256_hex email).
Definition Register (email password : string) : io reply :=
  if negb (nonempty email && binding_email email && nonempty password && (8 <=? RuneCount password)) then pret (Refused 400 "binding")
  else
    let walletAddr := emailWalletAddress email in
    ptry (users (user.db (user.FindByWalletAddress walletAddr))) (λ existing,
      match existing with
      | inl _ => pret (Refused 409 "account already exists")
      | inr err =>
          if decide (err <> apperrors_ErrNotFound) then pret (Refused 500 "failed to check existing account")
          else
            or_refuse (HashPassword password) (λ _, Refused 500 "failed to process password") (λ passwordHash,
              let pending := {| pr_PasswordHash := passwordHash; pr_WalletAddr := walletAddr; pr_Email := email;
                                pr_DisplayName := ""; pr_Language := "" |} in
              or_refuse (StorePendingRegistration email pending) (λ _, Refused 500 "failed to store pending registration") (λ _,
                or_refuse (SendOTP mailer email) (λ _, Refused 500 "failed to send verification code") (λ _,
                  pret (Answered 201 (BMessage "verification code sent to your email")))))
      end).
Definition registered_user (id : uuid) (email : string) (pending : PendingRegistration) (now : time) : user.User :=
  {| user.u_ID := id; user.u_WalletAddress := pr_WalletAddr pending; user.u_Email := Some (user.HashEmail email);
     user.u_Phone := None; user.u_DisplayName := if nonempty (pr_DisplayName pending) then Some (pr_DisplayName pending) else None;
     user.u_AvatarIpfsHash := None; user.u_CountryCode := None; user.u_PreferredLanguage := str_TrimSpace (pr_Language pending);
     user.u_MoiScore := 0; user.u_Role := user.RoleUser; user.u_SessionTTLMinutes := 0;
     user.u_PasswordHash := if nonempty (pr_PasswordHash pending) then Some (pr_PasswordHash pending) else None;
     user.u_TOTPSecret := None; user.u_TOTPEnabled := false; user.u_BackupCodes := None; user.u_EmailVerified := true;
     user.u_PasskeyCredentialID := None; user.u_NotificationChannels := None; user.u_NotificationsMuted := false;
     user.u_DigestEnabled := false; user.u_DigestIntervalMinutes := 0; user.u_PushToken := None;
     user.u_CreatedAt := now; user.u_UpdatedAt := now; user.u_DeletedAt := None |}.
Definition verified_or (email code : string) (refusal : reply) (k : io reply) : io reply :=
  ptry (VerifyOTP email code) (λ v, match v with inl true => k | _ => pret refusal end).
Definition RegisterVerify (email code deviceInfo : string) : io reply :=
  if negb (nonempty email && binding_email email && nonempty code) then pret (Refused 400 "binding")
  else verified_or email code (Refused 400 "invalid or expired verification code")
    (ptry (GetPendingRegistration email) (λ pending,
      match pending with
      | inr _ | inl None => pret (Refused 400 "registration session expired; please register again")
      | inl (Some pending) =>
          let* now := time_Now in
          let* id := users (act user.NewUUID) in
          let u := registered_user id email pending now in
          ptry (users (user.db (user.Create u))) (λ created,
            match created with
            | inr err => pret (if decide (err = apperrors_ErrConflict) then Refused 409 "account already exists"
                               else Refused 500 "failed to create account")
            | inl _ =>
                do* match (if wallets then derive_wallet_seed email else None) with
                    | Some seed => pignore (act (CreateWallet (uuid_String (user.u_ID u)) seed))
                    | None => pret tt
                    end in
                do* pignore (DeletePendingRegistration email) in
                or_refuse (sess_ (Create refreshTTL (user.u_ID u) (user.Role_String (user.u_Role u)) (sessionTTLFromUser u) deviceInfo))
                  (λ _, Refused 500 "failed to create session") (λ pair, pret (Answered 201 (BTokens pair)))
            end)
      end)).

(** *** email_change_handler.go *)
Definition emailChangeTTL : duration := 15 * minute.
Definition emailChangeKey (userID : string) : string := "email-change:" ++ userID.
Definition lower_trim (s : string) : string := ToLower (str_TrimSpace s).
Definition RequestEmailChange (userID newEmail : string) : io reply :=
  if negb (nonempty newEmail) then pret (Refused 400 "newEmail is required")
  else
    let newEmail := lower_trim newEmail in
    if decide (ParseAddress newEmail <> Some newEmail) then pret (Refused 400 "invalid email address")
    else ptry (users (user.GetByID userID)) (λ r,
      match r with
      | inr _ => pret (Refused 400 "an existing verified email is required")
      | inl u =>
          let email := default ""%string (user.u_Email u) in
          if negb (nonempty (str_TrimSpace email)) then pret (Refused 400 "an existing verified email is required")
          else
            let current := lower_trim email in
            if decide (current = newEmail) then pret (Refused 400 "new email must differ from current email")
            else or_refuse (users (user.IsEmailTaken newEmail)) (λ _, Refused 500 "failed to validate email") (λ taken,
              if taken : bool then pret (Refused 409 "email is already in use")
              else
                let state := {| ec_CurrentEmail := current; ec_NewEmail := newEmail; ec_OldVerified := false |} in
                or_refuse (rcmd (SET (emailChangeKey userID) (change_Marshal state) emailChangeTTL))
                  (λ _, Refused 500 "failed to start email change") (λ _,
                  ptry (SendOTP mailer current) (λ sent,
                    match sent with
                    | inr _ => do* pignore (rcmd (DEL [emailChangeKey userID])) in pret (Refused 400 "sending code")
                    | inl _ => pret (Answered 200 (BMessage "verification code sent to current email"))
                    end)))
      end).
Definition loadState (userID : string) (k : emailChangeState -> io reply) : io reply :=
  ptry (rcmd (GET (emailChangeKey userID))) (λ r,
    match r with
    | inl (Some data) => match change_Unmarshal data with
                         | Some state => k state
                         | None => pret (Refused 500 "invalid email change state")
                         end
    | _ => pret (Refused 400 "email change request expired or not found")
    end).
Definition bindEmailCode (code : string) (k : string -> io reply) : io reply :=
  if nonempty (str_TrimSpace code) then k (str_TrimSpace code) else pret (Refused 400 "code is required").
Definition VerifyCurrentEmail (userID code : string) : io reply :=
  loadState userID (λ state, bindEmailCode code (λ code,
    verified_or (ec_CurrentEmail state) code (Refused 400 "invalid or expired current-email code")
      (let state := {| ec_CurrentEmail := ec_CurrentEmail state; ec_NewEmail := ec_NewEmail state; ec_OldVerified := true |} in
       or_refuse (rcmd (SET (emailChangeKey userID) (change_Marshal state) emailChangeTTL))
         (λ _, Refused 500 "failed to continue email change") (λ _,
         or_refuse (SendOTP mailer (ec_NewEmail state)) (λ _, Refused 400 "sending code") (λ _,
           pret (Answered 200 (BMessage "verification code sent to new email"))))))).
Definition VerifyNewEmail (userID code : string) : io reply :=
  loadState userID (λ state,
    if negb (ec_OldVerified state) then pret (Refused 400 "current email must be verified first")
    else bindEmailCode code (λ code,
      verified_or (ec_NewEmail state) code (Refused 400 "invalid or expired new-email code")
        (ptry (users (user.GetByID userID)) (λ r,
          match r with
          | inl u =>
              match user.u_Email u with
              | Some e =>
                  if EqualFold (str_TrimSpace e) (ec_CurrentEmail state) then
                    or_refuse (users (user.db (user.Update (user.set_Email (Some (ec_NewEmail state)) true u))))
                      (λ _, Refused 500 "failed to update email") (λ _,
                      do* pignore (rcmd (DEL [emailChangeKey userID])) in
                      pret (Answered 200 (BEmail (ec_NewEmail state))))
                  else pret (Refused 409 "current email changed; restart the flow")
              | None => pret (Refused 409 "current email changed; restart the flow")
              end
          | inr _ => pret (Refused 409 "current email changed; restart the flow")
          end)))).

(** *** session_handler.go: [ChangePassword] *)
Definition ChangePassword (userID oldPassword newPassword : string) (bearer : option string) : io reply :=
  if negb (nonempty userID) then pret (Refused 401 "authentication required")
  else if negb (nonempty oldPassword && nonempty newPassword && (8 <=? RuneCount newPassword)) then pret (Refused 400 "binding")
  else or_refuse (users (user.GetByID userID)) (λ _, Refused 401 "user not found") (λ u,
    let old := default ""%string (user.u_PasswordHash u) in
    if nonempty old && negb (VerifyPassword oldPassword old) then pret (Refused 400 "incorrect existing password")
    else or_refuse (HashPassword newPassword) (λ _, Refused 500 "failed to hash new password") (λ newHash,
      or_refuse (users (user.db (user.Update (user.set_PasswordHash (Some newHash) u)))) (λ _, Refused 500 "failed to update password") (λ _,
        let currentHash := match bearer with Some token => user.sha256_hex token | None => ""%string end in
        do* pignore (sess_ (RevokeAll refreshTTL userID currentHash)) in
        pret (Answered 200 (BMessage "password changed and other sessions revoked"))))).

(** *** totp_enrollment_handler.go *)
Definition currentUser (userID : string) (k : user.User -> io reply) : io reply :=
  if negb (nonempty userID) then pret (Refused 401 "authentication required")
  else or_refuse (users (user.GetByID userID)) (λ _, Refused 401 "user not found") k.
Definition accountLabel (u : user.User) : string :=
  match user.u_Email u with
  | Some e => if nonempty e then e else if nonempty (user.u_WalletAddress u) then user.u_WalletAddress u else uuid_String (user.u_ID u)
  | None => if nonempty (user.u_WalletAddress u) then user.u_WalletAddress u else uuid_String (user.u_ID u)
  end.
(** [writeTOTPFailure]: the seconds of a lock are rounded up. *)
Definition writeTOTPFailure (code : string) (a : totp_answer) : reply :=
  match a with
  | Locked d => Refused 429 "totp_account_locked"
  | _ => Refused 400 code
  end.
Definition retry_after (d : duration) : Z := Z.quot (d + second - 1) second.
Definition pending_secret (u : user.User) : string := default ""%string (user.u_TOTPSecret u).
Definition EnrollTOTP (userID : string) : io reply :=
  currentUser userID (λ u,
    if user.u_TOTPEnabled u then pret (Refused 409 "TOTP is already enabled; disable it before enrolling again")
    else or_refuse (act (TOTPKey (accountLabel u))) (λ _, Refused 500 "failed to generate TOTP secret") (λ key,
      match totp_QR key.2 with
      | None => pret (Refused 500 "failed to render provisioning QR code")
      | Some qr =>
          or_refuse (users (user.db (user.Update (user.set_TOTP (Some key.1) false None u))))
            (λ _, Refused 500 "failed to save TOTP enrollment") (λ _, pret (Answered 200 (BEnrollment key.1 key.2 qr)))
      end)).
Definition EnableTOTP (userID code : string) : io reply :=
  if negb (nonempty code) then pret (Refused 400 "code is required")
  else currentUser userID (λ u,
    if user.u_TOTPEnabled u then pret (Refused 409 "TOTP is already enabled")
    else if negb (nonempty (pending_secret u)) then pret (Refused 400 "no pending enrollment; call /auth/totp/enroll first")
    else
      let* a := ValidateAccountCode (uuid_String (user.u_ID u)) (pending_secret u) code in
      match a with
      | Valid =>
          or_refuse GenerateBackupCodes (λ _, Refused 500 "failed to generate recovery codes") (λ codes,
            or_refuse (users (user.db (user.Update (user.set_TOTP (user.u_TOTPSecret u) true (Some (HashBackupCodes codes)) u))))
              (λ _, Refused 500 "failed to enable TOTP") (λ _, pret (Answered 200 (BCodes (bk_Plain <$> codes)))))
      | a => pret (writeTOTPFailure "invalid_totp_code" a)
      end).
Definition totp_on (u : user.User) : bool := user.u_TOTPEnabled u && bool_decide (user.u_TOTPSecret u <> None).
(** [challenge]: the user, and the method that succeeded. *)
Definition challenge (userID code recoveryCode : string) (k : user.User -> string -> io reply) : io reply :=
  if negb (nonempty code) && negb (nonempty recoveryCode) then pret (Refused 400 "code or recoveryCode is required")
  else currentUser userID (λ u,
    let id := uuid_String (user.u_ID u) in
    if negb (totp_on u) then pret (Refused 400 "TOTP is not enabled")
    else if nonempty code then
      let* a := ValidateAccountCode id (pending_secret u) code in
      match a with Valid => k u "totp"%string | a => pret (writeTOTPFailure "invalid_totp_code" a) end
    else
      let* locked := act (Lock (CheckAccount id)) in
      match locked with
      | Some d => pret (writeTOTPFailure "invalid_recovery_code" (Locked d))
      | None =>
          match ValidateBackupCode recoveryCode (default [] (user.u_BackupCodes u)) with
          | None => let* a := record_failure id in pret (writeTOTPFailure "invalid_recovery_code" a)
          | Some remaining =>
              do* act (Lock (ResetAccount id)) in
              k (user.set_TOTP (user.u_TOTPSecret u) (user.u_TOTPEnabled u) (Some remaining) u) "recovery"%string
          end
      end).
Definition VerifyTOTP (userID code recoveryCode : string) : io reply :=
  challenge userID code recoveryCode (λ u method,
    let answer := Answered 200 (BVerified method (Z.of_nat (length (default [] (user.u_BackupCodes u))))) in
    if decide (method = "recovery"%string)
    then or_refuse (users (user.db (user.Update u))) (λ _, Refused 500 "failed to record recovery code use") (λ _, pret answer)
    else pret answer).
Definition DisableTOTP (userID code recoveryCode : string) : io reply :=
  challenge userID code recoveryCode (λ u _,
    or_refuse (users (user.db (user.Update (user.set_TOTP None false None u)))) (λ _, Refused 500 "failed to disable TOTP") (λ _,
      pret (Answered 200 BDisabled))).
Definition RegenerateTOTPRecoveryCodes (userID code : string) : io reply :=
  if negb (nonempty code) then pret (Refused 400 "code is required")
  else currentUser userID (λ u,
    if negb (totp_on u) then pret (Refused 400 "TOTP is not enabled")
    else
      let* a := ValidateAccountCode (uuid_String (user.u_ID u)) (pending_secret u) code in
      match a with
      | Valid =>
          or_refuse GenerateBackupCodes (λ _, Refused 500 "failed to generate recovery codes") (λ codes,
            or_refuse (users (user.db (user.Update (user.set_TOTP (user.u_TOTPSecret u) (user.u_TOTPEnabled u) (Some (HashBackupCodes codes)) u))))
              (λ _, Refused 500 "failed to save recovery codes") (λ _, pret (Answered 200 (BCodes (bk_Plain <$> codes)))))
      | a => pret (writeTOTPFailure "invalid_totp_code" a)
      end).

(** *** user_handler.go: [UpdateProfile] *)
Definition handler_UpdateProfile (userID : string) (up : user.UpdateProfileInput) : io reply :=
  if negb (nonempty userID) then pret (Refused 401 "unauthorized")
  else if bool_decide (user.up_Email up <> None) then pret (Refused 400 "use the verified email-change flow")
  else or_refuse (users (user.UpdateProfile userID up))
    (λ err, if errors_Is err user.ErrUserNotFound then Refused 404 "user not found" else Refused 400 "update failed")
    (λ u, pret (Answered 200 (BUser u))).
End handlers.

(** ** The world *)
Record aworld := {
  aw_users : user.uworld;
  aw_sess : sworld;
  aw_lock : gmap string attemptState;
  aw_digits : list (list Z + error);         (** the next random digits *)
  aw_codes : list (string * string);         (** the codes drawn, with the e-mail they are for *)
  aw_mails : list (string * string);         (** the e-mails sent *)
  aw_mailer : list (option error);           (** what the next e-mails meet *)
  aw_wallets : list string;
  aw_keys : list ((string * string) + error);
}.
Definition set_aw_users (u : user.uworld) (w : aworld) : aworld :=
  {| aw_users := u; aw_sess := aw_sess w; aw_lock := aw_lock w; aw_digits := aw_digits w; aw_codes := aw_codes w;
     aw_mails := aw_mails w; aw_mailer := aw_mailer w; aw_wallets := aw_wallets w; aw_keys := aw_keys w |}.
Definition set_aw_sess (s : sworld) (w : aworld) : aworld :=
  {| aw_users := aw_users w; aw_sess := s; aw_lock := aw_lock w; aw_digits := aw_digits w; aw_codes := aw_codes w;
     aw_mails := aw_mails w; aw_mailer := aw_mailer w; aw_wallets := aw_wallets w; aw_keys := aw_keys w |}.
Definition set_aw_lock (l : gmap string attemptState) (w : aworld) : aworld :=
  {| aw_users := aw_users w; aw_sess := aw_sess w; aw_lock := l; aw_digits := aw_digits w; aw_codes := aw_codes w;
     aw_mails := aw_mails w; aw_mailer := aw_mailer w; aw_wallets := aw_wallets w; aw_keys := aw_keys w |}.
Definition set_aw_draws (ds : list (list Z + error)) (codes : list (string * string)) (w : aworld) : aworld :=
  {| aw_users := aw_users w; aw_sess := aw_sess w; aw_lock := aw_lock w; aw_digits := ds; aw_codes := codes;
     aw_mails := aw_mails w; aw_mailer := aw_mailer w; aw_wallets := aw_wallets w; aw_keys := aw_keys w |}.
Definition set_aw_out (mails : list (string * string)) (mailer : list (option error)) (wallets : list string)
    (keys : list ((string * string) + error)) (w : aworld) : aworld :=
  {| aw_users := aw_users w; aw_sess := aw_sess w; aw_lock := aw_lock w; aw_digits := aw_digits w; aw_codes := aw_codes w;
     aw_mails := mails; aw_mailer := mailer; aw_wallets := wallets; aw_keys := keys |}.
(** [generateNumericCode]: one character for each digit drawn; [rand.Int] fails when no
    randomness is left. *)
Fixpoint code_of (digits : list Z) : string :=
  match digits with [] => EmptyString | d :: ds => (fmt_d d ++ code_of ds)%string end.
Definition digits_ok (length_ : nat) (ds : list Z) : bool :=
  (length ds =? length_)%nat && forallb (λ d, (0 <=? d) && (d <? 10)) ds.
Definition perform_acc `{user.HashLib, TextMatch} (X : Type) (e : accE X) : M aworld X :=
  match e in accE X return M aworld X with
  | Users e => λ w, let '(r, u) := user.perform_user _ e (aw_users w) in (r, set_aw_users u w)
  | Sess e => λ w, let '(r, s) := perform_sess _ e (aw_sess w) in (r, set_aw_sess s w)
  | Lock q => λ w, let '(x, l) := run_lock (rw_now (sw_redis (aw_sess w))) q (aw_lock w) in (Ok x, set_aw_lock l w)
  | NumericCode email n => λ w,
      match aw_digits w with
      | inl ds :: rest =>
          if digits_ok n ds then (Ok (code_of ds), set_aw_draws rest ((email, code_of ds) :: aw_codes w) w)
          else (Err (Wrapf "generating random digit: %w" (External "entropy")), set_aw_draws rest (aw_codes w) w)
      | inr err :: rest => (Err (Wrapf "generating random digit: %w" err), set_aw_draws rest (aw_codes w) w)
      | [] => (Err (Wrapf "generating random digit: %w" (External "entropy")), w)
      end
  | Mail email code => λ w,
      match aw_mailer w with
      | Some err :: rest => (Err err, set_aw_out (aw_mails w) rest (aw_wallets w) (aw_keys w) w)
      | rest => (Ok tt, set_aw_out ((email, code) :: aw_mails w) (tail rest) (aw_wallets w) (aw_keys w) w)
      end
  | CreateWallet userID _ => λ w, (Ok tt, set_aw_out (aw_mails w) (aw_mailer w) (userID :: aw_wallets w) (aw_keys w) w)
  | TOTPKey _ => λ w,
      match aw_keys w with
      | inl k :: rest => (Ok k, set_aw_out (aw_mails w) (aw_mailer w) (aw_wallets w) rest w)
      | inr err :: rest => (Err (Wrapf "generating TOTP secret: %w" err), set_aw_out (aw_mails w) (aw_mailer w) (aw_wallets w) rest w)
      | [] => (Err (Wrapf "generating TOTP secret: %w" (External "entropy")), w)
      end
  | Draw n => λ w,
      match aw_digits w with
      | inl [d] :: rest => if (0 <=? d) && (d <? n) then (Ok d, set_aw_draws rest (aw_codes w) w)
                           else (Err (External "entropy"), set_aw_draws rest (aw_codes w) w)
      | inr err :: rest => (Err err, set_aw_draws rest (aw_codes w) w)
      | _ => (Err (External "entropy"), w)
      end
  end.
End accounts.
