(* ===== verification/AccountProps.v ===== *)
(** What registration guarantees: an account stands on a code that was drawn for its
    e-mail and that a request for that e-mail presented, however the requests of the
    account handlers overlap and whatever fails. *)
From S2P Require Export Accounts UserProps.
From stdpp Require Import options.
From Stdlib Require Import Ascii.
#[local] Set Default Proof Using "Type*".
Open Scope Z_scope.
Local Open Scope go_scope.

(** Hexadecimal digits are ASCII and have no colon.  What is marshalled is read back,
    a text as it was when it is ASCII: the encoder replaces what is not UTF-8. *)
Definition ascii_text (s : string) : bool := forallb (λ c, code c <? 128) (String.list_ascii_of_string s).
Definition json_text (s t : string) : Prop := ascii_text s = true -> t = s.
Class HashLaws `{user.HashLib} : Prop := {
  sha256_hex_text s : has_byte ":" (user.sha256_hex s) = false;
  sha256_hex_ascii s : ascii_text (user.sha256_hex s) = true;
}.
Class AccountJSONLaws `{accounts.AccountJSON} : Prop := {
  pending_round p : exists q, accounts.pending_Unmarshal (accounts.pending_Marshal p) = Some q /\
    json_text (accounts.pr_PasswordHash p) (accounts.pr_PasswordHash q) /\
    json_text (accounts.pr_WalletAddr p) (accounts.pr_WalletAddr q) /\
    json_text (accounts.pr_Email p) (accounts.pr_Email q) /\
    json_text (accounts.pr_DisplayName p) (accounts.pr_DisplayName q) /\
    json_text (accounts.pr_Language p) (accounts.pr_Language q);
}.
Lemma ascii_substring n m s : ascii_text s = true -> ascii_text (String.substring n m s) = true.
Proof.
  revert n m. induction s as [|c s IH]; intros n m Hs; [by destruct n, m|].
  unfold ascii_text in Hs |- *. cbn [String.list_ascii_of_string forallb] in Hs.
  apply andb_true_iff in Hs as [Hc Hs]. destruct n as [|n]; [destruct m as [|m]; [done|]|by apply IH].
  cbn [String.substring String.list_ascii_of_string forallb]. rewrite Hc. by apply IH.
Qed.

Module accountprops.
Import redis session sessionprops accounts.

Section accounts.
Context {UL : UUIDLib} {SL : SessionLib} {HL : user.HashLib} {AL : AccountLib} {AJ : AccountJSON} {TM : TextMatch}.
Context {HLaws : HashLaws} {JLaws : AccountJSONLaws}.
Variables (mailer wallets : bool) (refreshTTL : duration).

(** ** Requests *)
Inductive call :=
  | KRegister (email password : string) | KRegisterVerify (email code device : string)
  | KRequestEmailChange (userID newEmail : string) | KVerifyCurrentEmail (userID code : string)
  | KVerifyNewEmail (userID code : string) | KChangePassword (userID old new : string) (bearer : option string)
  | KEnroll (userID : string) | KEnable (userID code : string) | KVerifyTOTP (userID code recovery : string)
  | KDisable (userID code recovery : string) | KRegenerate (userID code : string)
  | KUpdateProfile (userID : string) (up : user.UpdateProfileInput)
  | KRecovery (email code : string).
Definition serve (k : call) : io unit :=
  match k with
  | KRegister e p => pignore (Register mailer e p)
  | KRegisterVerify e c d => pignore (RegisterVerify wallets refreshTTL e c d)
  | KRequestEmailChange u e => pignore (RequestEmailChange mailer u e)
  | KVerifyCurrentEmail u c => pignore (VerifyCurrentEmail mailer u c)
  | KVerifyNewEmail u c => pignore (VerifyNewEmail u c)
  | KChangePassword u o n b => pignore (ChangePassword refreshTTL u o n b)
  | KEnroll u => pignore (EnrollTOTP u)
  | KEnable u c => pignore (EnableTOTP u c)
  | KVerifyTOTP u c r => pignore (VerifyTOTP u c r)
  | KDisable u c r => pignore (DisableTOTP u c r)
  | KRegenerate u c => pignore (RegenerateTOTPRecoveryCodes u c)
  | KUpdateProfile u up => pignore (handler_UpdateProfile u up)
  | KRecovery e c => do* pignore (SendRecoveryCode mailer e) in pignore (VerifyRecoveryCode e c)
  end.

(** ** What a thread knows: codes that were drawn *)
Record stage := { st_call : call; st_codes : list (string * string) }.
Definition grows (s s' : stage) : Prop := st_call s' = st_call s /\ forall x, x ∈ st_codes s -> x ∈ st_codes s'.
#[local] Instance grows_preorder : PreOrder grows.
Proof. split; [by intros s; split|]. intros a b c [E1 H1] [E2 H2]. split; [congruence|auto]. Qed.

(** The value of a code's key, and of a pending registration's. *)
Definition otp_ok (codes : list (string * string)) (e v : string) : Prop :=
  exists code n, v = otpValue (user.sha256_hex code) n /\ (e, code) ∈ codes.
Definition pending_ok (e v : string) : Prop :=
  exists p, v = pending_Marshal p /\ pr_WalletAddr p = emailWalletAddress e.
Definition value_ok (codes : list (string * string)) (k v : string) : Prop :=
  (forall e, k = otpKey e -> otp_ok codes e v) /\ (forall e, k = pendingKey e -> pending_ok e v).
Definition other_key (k : string) : Prop := forall e, k <> otpKey e /\ k <> pendingKey e.
Definition cmd_ok {X} (codes : list (string * string)) (c : cmd X) : Prop :=
  match c with
  | SET k v _ => value_ok codes k v
  | DEL _ => True
  | c => Forall other_key (writes c)
  end.
Lemma other_value codes k v : other_key k -> value_ok codes k v.
Proof. intros Hk. split; intros e ->; by destruct (Hk e). Qed.
Lemma otp_ok_mono l l' e v : otp_ok l e v -> (forall x, x ∈ l -> x ∈ l') -> otp_ok l' e v.
Proof. intros (c & n & -> & Hc) Hl. exists c, n. auto. Qed.
Lemma value_ok_mono l l' k v : value_ok l k v -> (forall x, x ∈ l -> x ∈ l') -> value_ok l' k v.
Proof. intros [Ho Hp] Hl. split; [|done]. intros e He. eapply otp_ok_mono; eauto. Qed.

(** A new account: the request that made it presented a code drawn for its e-mail. *)
Definition earned (s : stage) (u : user.User) : Prop :=
  exists e code presented device, st_call s = KRegisterVerify e presented device /\ (e, code) ∈ st_codes s /\
    user.sha256_hex presented = user.sha256_hex code /\ user.u_WalletAddress u = emailWalletAddress e.
Lemma earned_grows s s' u v : earned s u -> grows s s' -> user.u_WalletAddress v = user.u_WalletAddress u -> earned s' v.
Proof.
  intros (e & c & p & d & Hk & Hc & Hh & Hw) [E Hg] Hv. exists e, c, p, d. split; [congruence|]. split; [auto|]. by rewrite Hv.
Qed.

Definition pre (X : Type) (e : accE X) (s : stage) : Prop :=
  match e with
  | Users (user.Query (user.Create u)) => earned s u
  | Sess (Redis (Cmd c)) => cmd_ok (st_codes s) c
  | Sess (Redis (MULTI cs)) => Forall (λ a, match a with Any c => cmd_ok (st_codes s) c end) cs
  | _ => True
  end.
Definition post_cmd {X} (c : cmd X) (s : stage) : result X -> stage -> Prop :=
  match c in cmd X return result X -> stage -> Prop with
  | GET k => λ r s', match r with Ok (Some v) => grows s s' /\ value_ok (st_codes s') k v | _ => s' = s end
  | _ => λ _ s', s' = s
  end.
Definition post_sess {X} (e : sessE X) (s : stage) : result X -> stage -> Prop :=
  match e in sessE X return result X -> stage -> Prop with
  | Redis e => match e in redisE X return result X -> stage -> Prop with
               | Cmd c => post_cmd c s
               | _ => λ _ s', s' = s
               end
  | _ => λ _ s', s' = s
  end.
Definition post (X : Type) (e : accE X) (s : stage) : result X -> stage -> Prop :=
  match e in accE X return result X -> stage -> Prop with
  | NumericCode email _ => λ r s', s' = match r with
      | Ok code => {| st_call := st_call s; st_codes := (email, code) :: st_codes s |} | _ => s end
  | Sess e => post_sess e s
  | _ => λ _ s', s' = s
  end.
Abbreviation safely s p Q := (staged pre post s p Q).

(** ** The invariant of the world *)
Abbreviation keys_of w := (rw_keys (sw_redis (aw_sess w))) (only parsing).
Abbreviation rows_of w := (user.ut_users (pg_tables (user.uw_db (aw_users w)))) (only parsing).
Definition entry_ok (codes : list (string * string)) (k : string) (en : entry) : Prop :=
  (forall e, k = otpKey e -> exists v, e_val en = RString v /\ otp_ok codes e v) /\
  (forall e, k = pendingKey e -> exists v, e_val en = RString v /\ pending_ok e v).
Definition keys_ok (codes : list (string * string)) (ks : gmap string entry) : Prop :=
  forall k en, ks !! k = Some en -> entry_ok codes k en.
Definition Inv (old : gmap uuid user.User) (w : aworld) (ss : list stage) : Prop :=
  keys_ok (aw_codes w) (keys_of w) /\
  (forall s x, s ∈ ss -> x ∈ st_codes s -> x ∈ aw_codes w) /\
  (forall id u, rows_of w !! id = Some u -> old !! id = None -> exists s, s ∈ ss /\ earned s u).

(** *** Commands *)
Lemma keys_ok_mono l l' ks : keys_ok l ks -> (forall x, x ∈ l -> x ∈ l') -> keys_ok l' ks.
Proof.
  intros Hk Hl k en Hen. destruct (Hk k en Hen) as [Ho Hp]. split; [|done]. intros e He.
  destruct (Ho e He) as (v & Hv & Hok). exists v. split; [done|]. by eapply otp_ok_mono.
Qed.
Lemma value_entry codes k v exp : value_ok codes k v -> entry_ok codes k {| e_val := RString v; e_exp := exp |}.
Proof. intros [Ho Hp]. split; intros e He; exists v; auto. Qed.
Lemma exec_keys {X} codes now (c : cmd X) ks : cmd_ok codes c -> keys_ok codes ks -> keys_ok codes (exec now c ks).2.
Proof.
  intros Hc Hks. assert (Forall other_key (writes c) -> keys_ok codes (exec now c ks).2) as Hframe.
  { intros Hw k en Hen. split; intros e He; (assert (k ∉ writes c) as Hn;
      [intros Hin; rewrite Forall_forall in Hw; destruct (Hw _ Hin e); done|]; rewrite exec_frame in Hen by done;
      destruct (Hks k en Hen); auto). }
  destruct c; try (by apply Hframe).
  - intros k' en. cbn. unfold set_string. rewrite lookup_insert_Some. intros [[<- <-]|[_ Hen]]; [|by apply Hks].
    by apply value_entry.
  - intros k' en. cbn. rewrite foldr_delete_lookup. destruct (decide _); [done|]. apply Hks.
Qed.
Lemma exec_all_keys codes now cs ks : Forall (λ a, match a with Any c => cmd_ok codes c end) cs -> keys_ok codes ks ->
  keys_ok codes (exec_all now cs ks).2.
Proof.
  intros Hcs. revert ks. induction Hcs as [|[X c] cs Hc Hcs IH]; intros ks Hks; [done|]. cbn.
  pose proof (exec_keys codes now c ks Hc Hks) as H1. destruct (exec now c ks) as [r ks1]. specialize (IH ks1 H1).
  by destruct (exec_all now cs ks1).
Qed.
Lemma on_server_keys {X} codes (f : time -> gmap string entry -> result X * gmap string entry) w r w' :
  on_server f w = (r, w') -> keys_ok codes (rw_keys w) -> (forall now ks, keys_ok codes ks -> keys_ok codes (f now ks).2) ->
  keys_ok codes (rw_keys w').
Proof. intros (_ & _ & [[-> _]|[-> _]])%on_server_spec Hk Hf; auto. Qed.
Lemma get_value codes w k r w' : redis.perform _ (Cmd (GET k)) w = (r, w') -> keys_ok codes (rw_keys w) ->
  match r with Ok (Some v) => value_ok codes k v | _ => True end.
Proof.
  intros E Hk. assert (forall now, match (exec now (GET k) (rw_keys w)).1 with Ok (Some v) => value_ok codes k v | _ => True end) as Hex.
  { intros now. cbn. unfold view. destruct (rw_keys w !! k) as [en|] eqn:Een; [|done]. destruct (alive now en); [|done].
    destruct (Hk k en Een) as [Ho Hp]. destruct (e_val en) as [v|m|m] eqn:Ev; [|done..]. split; intros e He.
    - destruct (Ho e He) as (v' & [= <-] & Hok). done.
    - destruct (Hp e He) as (v' & [= <-] & Hok). done. }
  apply on_server_spec in E as (_ & _ & [[_ (e & ->)]|[_ [->|(e & ->)]]]); [done| |done]. apply Hex.
Qed.

(** *** Rows *)
Lemma query_rows {X} (q : user.dbQ X) now (s : PgState user.utables) r s' : user.run_query now q s = (r, s') ->
  forall id u, user.ut_users (pg_tables s') !! id = Some u ->
    (exists v, user.ut_users (pg_tables s) !! id = Some v /\ user.u_WalletAddress u = user.u_WalletAddress v) \/
    (match q with user.Create v => user.u_WalletAddress u = user.u_WalletAddress v | _ => False end).
Proof.
  intros [->|He]%userprops.query_effect id u Hu; [left; by exists u|].
  assert (forall f k, (forall v, user.u_WalletAddress (f v) = user.u_WalletAddress v) ->
    user.ut_users (pg_tables s') = alter f k (user.ut_users (pg_tables s)) ->
    exists v, user.ut_users (pg_tables s) !! id = Some v /\ user.u_WalletAddress u = user.u_WalletAddress v) as Halter.
  { intros f k Hf Ht. rewrite Ht in Hu. apply alter_some in Hu as (v & Hv & [->| ->]); exists v; auto. }
  destruct q; try done.
  - destruct He as [_ He]. rewrite He, lookup_insert_Some in Hu. destruct Hu as [[_ <-]|[_ Hu]]; [|left; by exists u].
    right. by destruct u0.
  - destruct He as [_ He]. left. eapply Halter; [|exact He]. intros v. by destruct u0, v.
  - left. eapply Halter; [|exact He]. by intros [].
  - left. eapply Halter; [|exact He]. by intros [].
  - left. eapply Halter; [|exact He]. by intros [].
Qed.

(** *** Every action keeps it *)
Lemma account_step old w w' ss i s s' : Inv old w ss -> ss !! i = Some s -> grows s s' ->
  (forall x, x ∈ st_codes s' -> x ∈ aw_codes w') -> (forall x, x ∈ aw_codes w -> x ∈ aw_codes w') ->
  keys_ok (aw_codes w') (keys_of w') ->
  (forall id u, rows_of w' !! id = Some u ->
     (exists v, rows_of w !! id = Some v /\ user.u_WalletAddress u = user.u_WalletAddress v) \/ earned s' u) ->
  Inv old w' (<[i := s']> ss).
Proof.
  intros (_ & Hc & Hr) Hi Hg Hs' Hw Hk Hrows. assert (i < length ss)%nat as Hlt by (by eapply lookup_lt_Some).
  assert (s' ∈ <[i := s']> ss) as Hin.
  { apply list_elem_of_lookup. exists i. by apply list_lookup_insert_eq. }
  split; [done|]. split.
  - intros t x Ht Hx. apply list_elem_of_lookup in Ht as (k & Hl). rewrite list_lookup_insert in Hl.
    case_decide; [injection Hl as <-; by apply Hs'|]. apply Hw. eapply Hc; [|exact Hx]. apply list_elem_of_lookup. by exists k.
  - intros id u Hu Hold. destruct (Hrows id u Hu) as [(v & Hv & Heq)|He]; [|by exists s'].
    destruct (Hr id v Hv Hold) as (t & Ht & He). apply list_elem_of_lookup in Ht as (k & Hl).
    destruct (decide (k = i)) as [->|Hne].
    + exists s'. split; [done|]. assert (t = s) as -> by congruence. by eapply earned_grows.
    + exists t. split; [|by eapply earned_grows]. apply list_elem_of_lookup. exists k. by rewrite list_lookup_insert_ne.
Qed.
Lemma Inv_same old w w' ss i s : Inv old w ss -> ss !! i = Some s -> aw_codes w' = aw_codes w ->
  keys_ok (aw_codes w) (keys_of w') -> rows_of w' = rows_of w -> Inv old w' (<[i := s]> ss).
Proof.
  intros HI Hi Hc Hk Hr. pose proof HI as (_ & Hcs & _). eapply account_step; [exact HI|exact Hi|reflexivity|..].
  - intros x Hx. rewrite Hc. eapply Hcs; [|exact Hx]. apply list_elem_of_lookup. by exists i.
  - by rewrite Hc.
  - by rewrite Hc.
  - intros id u Hu. left. exists u. by rewrite <-Hr.
Qed.

Lemma perform_rows X (e : user.userE X) w r w' : user.perform_user X e w = (r, w') ->
  forall id u, user.ut_users (pg_tables (user.uw_db w')) !! id = Some u ->
    (exists v, user.ut_users (pg_tables (user.uw_db w)) !! id = Some v /\ user.u_WalletAddress u = user.u_WalletAddress v) \/
    (match e with user.Query (user.Create v) => user.u_WalletAddress u = user.u_WalletAddress v | _ => False end).
Proof.
  intros E id u Hu. destruct e as [Y q| | |c]; cbn in E.
  - destruct (user.run_query _ q _) as [r1 s1] eqn:Eq. injection E as <- <-. cbn in Hu.
    destruct (query_rows q _ _ _ _ Eq id u Hu) as [?|Hq]; [by left|right]. by destruct q.
  - injection E as <- <-. left. by exists u.
  - destruct (user.uw_uuids w); injection E as <- <-; left; by exists u.
  - injection E as <- <-. left. by exists u.
Qed.

Lemma perform_acc_keeps old X (e : accE X) w r w' ss i s :
  perform_acc X e w = (r, w') -> Inv old w ss -> ss !! i = Some s -> pre X e s ->
  exists s', post X e s r s' /\ Inv old w' (<[i := s']> ss).
Proof.
  intros E HI Hi Hpre. pose proof HI as (Hk & Hcs & _).
  assert (forall x, x ∈ st_codes s -> x ∈ aw_codes w) as Hs.
  { intros x. apply Hcs, list_elem_of_lookup. by exists i. }
  assert (keys_ok (aw_codes w) (keys_of w') -> aw_codes w' = aw_codes w -> rows_of w' = rows_of w -> Inv old w' (<[i := s]> ss))
    as Hsame by (intros; by eapply Inv_same).
  destruct e as [Y e|Y e|Y q|email n|email code|u sd|a|n]; cbn [perform_acc] in E.
  - exists s. destruct (user.perform_user Y e (aw_users w)) as [r1 u1] eqn:Eu. injection E as <- <-. split; [done|].
    eapply account_step; [exact HI|exact Hi|reflexivity|done|done|done|]. intros id u Hu. cbn in Hu.
    destruct (perform_rows Y e _ _ _ Eu id u Hu) as [?|Hq]; [by left|right].
    destruct e as [Z q| | |c]; try done. destruct q; try done. eapply earned_grows; [exact Hpre|reflexivity|done].
  - destruct (perform_sess Y e (aw_sess w)) as [r1 s1] eqn:Es. injection E as <- <-.
    destruct e as [Z e|uid wal ro ttl]; cbn [perform_sess] in Es.
    + destruct (redis.perform Z e (sw_redis (aw_sess w))) as [r2 rw] eqn:Er. injection Es as <- <-.
      destruct e as [T c|cs| |]; cbn [post post_sess].
      * assert (keys_ok (aw_codes w) (rw_keys rw)) as Hk'.
        { eapply on_server_keys; [exact Er|exact Hk|]. intros now ks. apply exec_keys. cbn in Hpre.
          destruct c; try done. by eapply value_ok_mono. }
        assert (exists s', post_cmd c s r2 s' /\ grows s s' /\ forall x, x ∈ st_codes s' -> x ∈ aw_codes w) as (s' & Hp & Hg & Hs').
        { destruct c; try (by exists s). cbn [post_cmd].
          pose proof (get_value _ _ _ _ _ Er Hk) as Hv. destruct r2 as [[v|]|er|]; try (by exists s).
          exists {| st_call := st_call s; st_codes := aw_codes w |}. split_and!; [split; [done|exact Hs]|exact Hv|split; [done|exact Hs]|done]. }
        exists s'. split; [done|]. eapply account_step; [exact HI|exact Hi|done|done|done|done|].
        intros id u Hu. left. by exists u.
      * exists s. split; [done|]. apply Hsame; [|done..]. cbn. eapply on_server_keys; [exact Er|exact Hk|]. intros now ks.
        apply exec_all_keys. cbn in Hpre. eapply Forall_impl; [exact Hpre|]. intros [T c] Hc. destruct c; try done.
        by eapply value_ok_mono.
      * exists s. split; [done|]. apply Hsame; [|done..]. injection Er as <- <-. exact Hk.
      * exists s. split; [done|]. apply Hsame; [|done..]. cbn in Er. destruct (rw_rand _) as [|x xs]; injection Er as <- <-; exact Hk.
    + exists s. split; [done|]. apply Hsame; [|done..]. cbn.
      destruct (sw_tokens (aw_sess w)) as [|[t|er] ts]; injection Es as <- <-; exact Hk.
  - exists s. destruct (run_lock _ q (aw_lock w)) as [x l]. injection E as <- <-. split; [done|]. by apply Hsame.
  - destruct (aw_digits w) as [|[ds|er] rest].
    + injection E as <- <-. exists s. split; [done|]. by apply Hsame.
    + destruct (digits_ok n ds); injection E as <- <-; [|exists s; split; [done|]; by apply Hsame].
      exists {| st_call := st_call s; st_codes := (email, code_of ds) :: st_codes s |}. split; [done|].
      eapply account_step; [exact HI|exact Hi|split; [done|by right]|..]; cbn.
      * intros x. rewrite !elem_of_cons. intros [?|?]; auto.
      * by right.
      * eapply keys_ok_mono; [exact Hk|]. by right.
      * intros id u Hu. left. by exists u.
    + injection E as <- <-. exists s. split; [done|]. by apply Hsame.
  - exists s. split; [done|]. destruct (aw_mailer w) as [|[er|] rest]; injection E as <- <-; by apply Hsame.
  - exists s. split; [done|]. injection E as <- <-; by apply Hsame.
  - exists s. split; [done|]. destruct (aw_keys w) as [|[k|er] rest]; injection E as <- <-; by apply Hsame.
  - exists s. split; [done|]. destruct (aw_digits w) as [|[[|d [|d' ds]]|er] rest]; try (injection E as <- <-; by apply Hsame).
    destruct (_ && _); injection E as <- <-; by apply Hsame.
Qed.

(** ** The programs *)
Ltac plain := apply staged_plain; [done|by intros|].
Definition plain_user (X : Type) (e : user.userE X) : Prop :=
  match e with user.Query (user.Create _) => False | _ => True end.
Definition anything (X : Type) (e : user.userE X) (r : result X) : Prop := True.
Lemma users_plain {A} s (p : prog user.userE A) : safe plain_user anything p (λ _, True) ->
  safely s (users p) (λ s' _, s' = s).
Proof.
  intros Hp. eapply staged_mono; [eapply (staged_plift pre post (@Users) plain_user anything); [| |exact Hp]|].
  - intros X e He. destruct e as [Y q| | |]; try done. by destruct q.
  - intros X e r s' _ ->. done.
  - by intros s' r [-> _].
Qed.
Lemma lookup_plain format (q : user.dbQ user.User) : plain_user _ (user.Query q) ->
  safe plain_user anything (user.or_missing_user format (user.db q)) (λ _, True).
Proof. intros Hq. apply safe_ptry, safe_act; [done|]. intros [u|e|] _; [done| |done]. by destruct (decide _). Qed.
Lemma parse_plain {A} id (k : uuid -> prog user.userE A) : (forall u, safe plain_user anything (k u) (λ _, True)) ->
  safe plain_user anything (pbind (user.parseUUID id) k) (λ _, True).
Proof. intros Hk. apply safe_pbind. unfold user.parseUUID. destruct (uuid_Parse id); cbn; auto. Qed.
Lemma GetByID_safely s id : safely s (users (user.GetByID id)) (λ s' _, s' = s).
Proof. apply users_plain, parse_plain. intros u. by apply lookup_plain. Qed.
Lemma IsEmailTaken_safely s e : safely s (users (user.IsEmailTaken e)) (λ s' _, s' = s).
Proof. apply users_plain, safe_ptry, safe_act; [done|]. intros [u|er|] _; [done| |done]. by destruct (decide _). Qed.
Lemma UpdateProfile_safely s id up : safely s (users (user.UpdateProfile id up)) (λ s' _, s' = s).
Proof.
  apply users_plain, parse_plain. intros u. apply safe_pbind_any; [by apply lookup_plain| |done..]. intros v.
  apply safe_pbind_any; [by apply safe_act| |done..]. intros now.
  apply safe_pbind_any; [by apply safe_pwrap, safe_act|done..].
Qed.
Lemma users_safely {X} s (q : user.dbQ X) : plain_user _ (user.Query q) -> safely s (users (user.db q)) (λ s' _, s' = s).
Proof. intros Hq. by apply users_plain, safe_act. Qed.

(** *** Keys *)
Ltac other := intros e; split; unfold otpKey, pendingKey; cbn; discriminate.
Lemma session_other h : other_key (session_key h). Proof. other. Qed.
Lemma csrf_other h : other_key (csrf_key h). Proof. other. Qed.
Lemma sessions_other u : other_key (userSessionsKey u). Proof. other. Qed.
Lemma change_other u : other_key (emailChangeKey u). Proof. other. Qed.
Lemma resend_other u : other_key (resendKey u). Proof. other. Qed.
Lemma recovery_other u : other_key (recoveryKey u). Proof. other. Qed.
Create HintDb keys.
#[local] Hint Resolve session_other csrf_other sessions_other change_other resend_other recovery_other other_value : keys.
Lemma otp_not_pending a b : otpKey a <> pendingKey b.
Proof. unfold otpKey, pendingKey. cbn. discriminate. Qed.
Lemma app_inj_l (p a b : string) : (p ++ a)%string = (p ++ b)%string -> a = b.
Proof. induction p as [|c p IH]; [done|]. cbn. intros [= H]. auto. Qed.
Lemma otp_value codes e v : otp_ok codes e v -> value_ok codes (otpKey e) v.
Proof. intros Ho. split; intros e' He; [by apply app_inj_l in He as <-|by apply otp_not_pending in He]. Qed.
Lemma pending_value codes e v : pending_ok e v -> value_ok codes (pendingKey e) v.
Proof. intros Hp. split; intros e' He; [by apply eq_sym, otp_not_pending in He|by apply app_inj_l in He as <-]. Qed.

(** *** Commands of the sessions *)
Definition plain_sess (X : Type) (e : sessE X) : Prop :=
  match e with
  | Redis (Cmd (GET _)) => False
  | Redis (Cmd c) => cmd_ok [] c
  | Redis (MULTI cs) => Forall (λ a, match a with Any c => cmd_ok [] c end) cs
  | _ => True
  end.
Definition any_sess (X : Type) (e : sessE X) (r : result X) : Prop := True.
Lemma cmd_ok_mono {X} l l' (c : cmd X) : cmd_ok l c -> (forall x, x ∈ l -> x ∈ l') -> cmd_ok l' c.
Proof. intros Hc Hl. destruct c; try done. by eapply value_ok_mono. Qed.
Lemma sess_plain {A} s (p : prog sessE A) : safe plain_sess any_sess p (λ _, True) -> safely s (sess_ p) (λ s' _, s' = s).
Proof.
  intros Hp. eapply staged_mono; [eapply (staged_plift pre post (@Sess) plain_sess any_sess); [| |exact Hp]|].
  - intros X e He. destruct e as [Z e|]; [|done]. destruct e as [T c|cs| |]; [| |done..]; cbn in *.
    + destruct c; try done; by eapply cmd_ok_mono; [|intros x ?%not_elem_of_nil].
    + eapply Forall_impl; [exact He|]. intros [T c] Hc. by eapply cmd_ok_mono; [|intros x ?%not_elem_of_nil].
  - intros X e r s' He Hpost. destruct e as [Z e|]; [|by split]. destruct e as [T c|cs| |]; [|by split..].
    destruct c; by split.
  - by intros s' r [-> _].
Qed.
Lemma Create_safely s uid role ttl dev : safely s (sess_ (Create refreshTTL uid role ttl dev)) (λ s' _, s' = s).
Proof.
  apply sess_plain. unfold Create. apply safe_pbind_any; [by apply safe_pwrap, safe_act| |done..]. intros access.
  apply safe_pbind_any; [by apply safe_pwrap, safe_act| |done..]. intros refresh.
  apply safe_pbind_any; [by apply safe_pwrap, safe_act| |done..]. intros csrf.
  apply safe_pbind_any; [by apply safe_act| |done..]. intros now. apply safe_ptry, safe_act.
  - repeat (constructor; [cbn; first [apply other_value; auto with keys|repeat constructor; auto with keys]|]). constructor.
  - intros [u|er|] _; [done| |done]. apply safe_pbind_any; [by apply safe_pignore, safe_act| |done..]. intros _.
    apply safe_pbind_any; [apply safe_pignore, safe_act; [|done]|done..]. repeat constructor; auto with keys.
Qed.
Lemma RevokeAll_safely s uid h : safely s (sess_ (RevokeAll refreshTTL uid h)) (λ s' _, s' = s).
Proof.
  apply sess_plain. unfold RevokeAll. apply safe_pbind_any; [by apply safe_pwrap, safe_act; [constructor|]| |done..].
  intros hashes. apply safe_pbind_any; [| |done..].
  { induction hashes as [|x hs IH]; cbn [revoke_loop]; [done|]. destruct (decide _); [done|].
    apply safe_pbind_any; [by apply safe_pignore, safe_act|by intros|done..]. }
  intros _. apply safe_pbind_any; [by apply safe_pignore, safe_act| |done..]. intros _. destruct (decide _); [done|].
  apply safe_pbind_any; [apply safe_pignore, safe_act; [|done]| |done..]; [repeat constructor; auto with keys|]. intros _.
  apply safe_pignore, safe_act; [|done]. repeat constructor; auto with keys.
Qed.

(** ** The requests *)
(** A program that may run at every stage. *)
Definition ok {A} (p : io A) : Prop := forall s, safely s p (λ _ _, True).
Lemma ok_plain {A} (p : io A) : (forall s, safely s p (λ s' _, s' = s)) -> ok p.
Proof. intros Hp s. eapply staged_mono; [apply Hp|done]. Qed.
Lemma ok_done {A} (r : result A) : ok (Done r).
Proof. by intros s. Qed.
Lemma ok_bind {A B} (p : io A) (k : A -> io B) : ok p -> (forall a, ok (k a)) -> ok (pbind p k).
Proof. intros Hp Hk s. apply staged_bind. eapply staged_mono; [apply Hp|]. intros s' [a|e|] _; [by apply Hk|done..]. Qed.
Lemma ok_try {A B} (p : io A) (k : A + error -> io B) : ok p -> (forall r, ok (k r)) -> ok (ptry p k).
Proof. intros Hp Hk s. apply staged_try. eapply staged_mono; [apply Hp|]. intros s' [a|e|] _; [by apply Hk..|done]. Qed.
Lemma ok_wrap {A} f (p : io A) : ok p -> ok (pwrap f p).
Proof. intros Hp s. apply staged_wrap. eapply staged_mono; [apply Hp|done]. Qed.
Lemma ok_ignore {A} (p : io A) : ok p -> ok (pignore p).
Proof. intros Hp. by apply ok_try. Qed.
Lemma ok_refuse {A} (p : io A) f (k : A -> io reply) : ok p -> (forall a, ok (k a)) -> ok (or_refuse p f k).
Proof. intros Hp Hk. apply ok_try; [done|]. by intros []. Qed.
Lemma ok_act {X} (e : accE X) : (forall s, pre X e s) -> ok (act e).
Proof. intros He s. by apply staged_act. Qed.
Lemma ok_set k v ttl : (forall codes, value_ok codes k v) -> ok (rcmd (SET k v ttl)).
Proof. intros Hv. apply ok_act. intros s. apply Hv. Qed.
Lemma ok_del l : ok (rcmd (DEL l)).
Proof. by apply ok_act. Qed.
Lemma ok_get k : ok (rcmd (GET k)).
Proof. apply ok_act. intros s. constructor. Qed.
Lemma ok_guard b e : ok (pguard b e).
Proof. by destruct b. Qed.
Create HintDb ok.
#[local] Hint Resolve ok_done ok_del ok_get ok_guard : ok.

Lemma code_safely s email n : safely s (act (NumericCode email n)) (λ s' r, grows s s' /\
  match r with Ok code => (email, code) ∈ st_codes s' | _ => True end).
Proof.
  apply staged_act; [done|]. intros [c|e|] s' ->; cbn; [|by split..].
  split; [split; [done|by right]|by left].
Qed.
Lemma deliver_ok f email code : ok (deliver mailer f email code).
Proof. unfold deliver. destruct mailer; [|done]. by apply ok_wrap, ok_act. Qed.
Lemma SendOTP_ok email : ok (SendOTP mailer email).
Proof.
  apply ok_bind; [apply ok_wrap, ok_act; repeat constructor|]. intros n. apply ok_bind; [auto with ok|]. intros _.
  intros s. apply staged_bind, staged_wrap. eapply staged_mono; [apply code_safely|]. intros s1 [code|e|] [_ Hc]; [|done..].
  cbn [wrap_err]. apply staged_bind, staged_wrap, staged_act.
  - apply otp_value. exists code, 0. done.
  - intros r s2 ->. destruct r; cbn [wrap_err]; [|done..].
    refine (ok_bind _ _ _ _ s1); [|intros; apply deliver_ok]. apply ok_wrap, ok_set. intros codes. apply other_value.
    auto with keys.
Qed.
Lemma Recovery_ok email code : ok (do* pignore (SendRecoveryCode mailer email) in pignore (VerifyRecoveryCode email code)).
Proof.
  apply ok_bind; [apply ok_ignore|intros _; apply ok_ignore].
  - apply ok_bind; [by apply ok_act|]. intros c. apply ok_bind; [|intros; apply deliver_ok]. apply ok_wrap, ok_set.
    intros codes. apply other_value. auto with keys.
  - apply ok_bind; [apply ok_wrap; auto with ok|]. intros [v|]; [|done]. destruct (decide _); [|done].
    apply ok_bind; [apply ok_wrap; auto with ok|done].
Qed.
Lemma otp_cut h n : has_byte ":" h = false -> str_cut colon (otpValue h n) = Some (h, fmt_d n).
Proof. intros Hh. by apply str_cut_app. Qed.
Lemma clear_safely f k e s (Q : stage -> result bool -> Prop) : (forall r, match r with Ok _ => True | _ => Q s r end) ->
  safely s (clear_and f k e) Q.
Proof.
  intros HQ. apply staged_bind, staged_wrap, staged_act; [done|]. intros r s' ->.
  destruct r as [u|er|]; cbn; [exact (HQ (Err e))|exact (HQ (Err (Wrapf f er)))|exact (HQ Panic)].
Qed.
(** A code that is accepted has the hash of one drawn for the e-mail. *)
Lemma VerifyOTP_safely s email code : safely s (VerifyOTP email code) (λ s' r, grows s s' /\
  match r with
  | Ok true => exists drawn, (email, drawn) ∈ st_codes s' /\ user.sha256_hex code = user.sha256_hex drawn
  | _ => True
  end).
Proof.
  unfold VerifyOTP. apply staged_bind, staged_wrap, staged_act; [constructor|].
  intros [[v|]|e|] s1; cbn [post post_sess post_cmd wrap_err]; [|by intros ->..].
  intros [Hg [Ho _]]. destruct (Ho email eq_refl) as (drawn & n & -> & Hd). rewrite otp_cut by apply sha256_hex_text.
  destruct (ParseInt (fmt_d n)) as [attempts|]; [|apply clear_safely; by intros []].
  destruct (attempts <? 0); [apply clear_safely; by intros []|].
  destruct (maxAttempts <=? attempts); [apply clear_safely; by intros []|].
  destruct (decide _) as [Eh|_].
  - apply staged_bind, staged_wrap, staged_act; [done|]. intros r s' ->. destruct r; cbn; [|done..].
    split; [done|]. by exists drawn.
  - apply staged_bind, staged_wrap, staged_act.
    + apply otp_value. exists drawn, (wrap64 (attempts + 1)). done.
    + intros r s' ->. by destruct r.
Qed.
Lemma VerifyOTP_ok email code : ok (VerifyOTP email code).
Proof. intros s. eapply staged_mono; [apply VerifyOTP_safely|done]. Qed.
Lemma verified_ok email code f k : ok k -> ok (verified_or email code f k).
Proof. intros Hk. apply ok_try; [apply VerifyOTP_ok|]. by intros [[]|]. Qed.

Lemma wallet_ascii e : ascii_text (emailWalletAddress e) = true.
Proof.
  unfold emailWalletAddress. change (ascii_text (String.substring 0 32 (user.sha256_hex e)) = true).
  apply ascii_substring, sha256_hex_ascii.
Qed.
Lemma RegisterVerify_ok email code device s : st_call s = KRegisterVerify email code device ->
  safely s (RegisterVerify wallets refreshTTL email code device) (λ _ _, True).
Proof.
  intros Hcall. unfold RegisterVerify. destruct (negb _); [done|]. apply staged_try.
  eapply staged_mono; [apply VerifyOTP_safely|]. intros s1 [[|]|e|] [[Hc1 Hg1] Hv]; [|done..].
  destruct Hv as (drawn & Hd & Hh). apply staged_try. unfold GetPendingRegistration.
  apply staged_bind, staged_wrap, staged_act; [constructor|].
  intros [[v|]|e|] s2; cbn [post post_sess post_cmd wrap_err]; [|by intros ->..].
  intros [[Hc2 Hg2] [_ Hp]]. destruct (Hp email eq_refl) as (p & -> & Hw). destruct (pending_round p) as (p' & -> & _ & Hw' & _).
  assert (pr_WalletAddr p' = emailWalletAddress email) as Hwallet by (rewrite <-Hw; apply Hw'; rewrite Hw; apply wallet_ascii).
  cbn [staged pret]. apply staged_bind. plain. intros [now|e|]; [|done..].
  apply staged_bind. eapply staged_mono; [by apply users_plain, safe_act|]. intros s3 [id|e|] ->; [|done..].
  apply staged_try. cbn [users plift user.db act staged]. split.
  { exists email, drawn, code, device. split; [congruence|]. split; [auto|]. by split. }
  intros r s3 ->. destruct r as [u|e|]; cbn [plift]; [|by destruct (decide _)|done].
  refine (ok_bind _ _ _ _ s2); [|intros _].
  { destruct (if wallets then _ else _); [by apply ok_ignore, ok_act|done]. }
  apply ok_bind; [apply ok_ignore; unfold DeletePendingRegistration; auto with ok|]. intros _.
  apply ok_refuse; [apply ok_plain; intros; apply Create_safely|done].
Qed.

(** *** The others, by their shape *)
Ltac ok_step :=
  lazymatch goal with
  | |- ok (pbind _ _) => apply ok_bind; [|intros ?]
  | |- ok (ptry _ _) => apply ok_try; [|intros ?]
  | |- ok (or_refuse _ _ _) => apply ok_refuse; [|intros ?]
  | |- ok (pwrap _ _) => apply ok_wrap
  | |- ok (pignore _) => apply ok_ignore
  | |- ok (Done _) => apply ok_done
  | |- ok (pret _) => apply ok_done
  | |- ok (pfail _) => apply ok_done
  | |- ok (pguard _ _) => apply ok_guard
  | |- ok (rcmd (GET _)) => apply ok_get
  | |- ok (rcmd (DEL _)) => apply ok_del
  | |- ok (rcmd (SET _ _ _)) => apply ok_set; intros; apply other_value; auto with keys
  | |- ok (act _) => apply ok_act; intros; exact I
  | |- ok (users (user.GetByID _)) => apply ok_plain; intros; apply GetByID_safely
  | |- ok (users (user.IsEmailTaken _)) => apply ok_plain; intros; apply IsEmailTaken_safely
  | |- ok (users (user.UpdateProfile _ _)) => apply ok_plain; intros; apply UpdateProfile_safely
  | |- ok (users (user.db _)) => apply ok_plain; intros; by apply users_safely
  | |- ok (sess_ (RevokeAll _ _ _)) => apply ok_plain; intros; apply RevokeAll_safely
  | |- ok (SendOTP _ _) => apply SendOTP_ok
  | |- ok (verified_or _ _ _ _) => apply verified_ok
  | |- ok (match ?x with _ => _ end) => destruct x
  end.
Ltac oks := repeat (ok_step; cbv beta zeta).
Lemma HashPassword_ok p : ok (HashPassword p).
Proof. unfold HashPassword. oks. Qed.
Lemma Register_ok email password : ok (Register mailer email password).
Proof.
  unfold Register. destruct (negb _); [apply ok_done|]. cbv zeta. apply ok_try; [oks|]. intros [u|e]; [apply ok_done|].
  destruct (decide _); [apply ok_done|]. apply ok_refuse; [apply HashPassword_ok|]. intros hash.
  apply ok_refuse; [|intros _; oks]. apply ok_set. intros codes. apply pending_value. by eexists.
Qed.
Lemma loadState_ok u k : (forall st, ok (k st)) -> ok (loadState u k).
Proof. intros Hk. unfold loadState. apply ok_try; [apply ok_get|]. intros [[d|]|e]; [destruct (change_Unmarshal d); [apply Hk|]|..]; oks. Qed.
Lemma currentUser_ok u k : (forall v, ok (k v)) -> ok (currentUser u k).
Proof. intros Hk. unfold currentUser. destruct (negb _); [apply ok_done|]. apply ok_refuse; [oks|done]. Qed.
Lemma ValidateAccountCode_ok id secret code : ok (ValidateAccountCode id secret code).
Proof. unfold ValidateAccountCode, record_failure, time_Now. oks. Qed.
Lemma GenerateBackupCodes_ok : ok GenerateBackupCodes.
Proof.
  assert (forall l, ok (draw_plain l)) as Hp by (induction l as [|j l IH]; cbn [draw_plain]; oks; exact IH).
  unfold GenerateBackupCodes. generalize BackupCodeCount. intros k. induction k as [|k IH]; cbn [draw_codes]; [apply ok_done|].
  apply ok_bind; [apply Hp|]. intros c. by apply ok_bind.
Qed.
Lemma challenge_ok u c r k : (forall v m, ok (k v m)) -> ok (challenge u c r k).
Proof.
  intros Hk. unfold challenge. destruct (_ && _); [apply ok_done|]. apply currentUser_ok. intros v. cbv zeta.
  destruct (negb _); [apply ok_done|]. destruct (nonempty c).
  - apply ok_bind; [apply ValidateAccountCode_ok|]. intros []; [apply Hk|apply ok_done..].
  - unfold record_failure. oks; apply Hk.
Qed.
Lemma requests_staged k : safely {| st_call := k; st_codes := [] |} (serve k) (λ _ _, True).
Proof.
  destruct k as [e p|e c d|u e|u c|u c|u o n b|u|u c|u c r|u c r|u c|u up|e c]; cbn [serve].
  2: { apply staged_ignore. eapply staged_mono; [by apply RegisterVerify_ok|]. by intros s []. }
  all: match goal with |- safely ?s ?p _ => assert (ok p) as Hok; [|exact (Hok s)] end; try apply ok_ignore.
  - apply Register_ok.
  - unfold RequestEmailChange. oks.
  - apply loadState_ok. intros st. unfold bindEmailCode. oks.
  - apply loadState_ok. intros st. unfold bindEmailCode. oks.
  - unfold ChangePassword. destruct (negb _); [apply ok_done|]. destruct (negb _); [apply ok_done|].
    apply ok_refuse; [oks|]. intros v. cbv zeta. destruct (_ && _); [apply ok_done|].
    apply ok_refuse; [apply HashPassword_ok|]. intros h. oks.
  - apply currentUser_ok. intros v. oks.
  - unfold EnableTOTP. destruct (negb _); [apply ok_done|]. apply currentUser_ok. intros v. destruct (user.u_TOTPEnabled v); [apply ok_done|].
    destruct (negb _); [apply ok_done|]. apply ok_bind; [apply ValidateAccountCode_ok|]. intros []; [|apply ok_done..].
    apply ok_refuse; [apply GenerateBackupCodes_ok|]. intros codes. oks.
  - apply challenge_ok. intros v m. cbv zeta. oks.
  - apply challenge_ok. intros v m. oks.
  - unfold RegenerateTOTPRecoveryCodes. destruct (negb _); [apply ok_done|]. apply currentUser_ok. intros v.
    destruct (negb _); [apply ok_done|]. apply ok_bind; [apply ValidateAccountCode_ok|]. intros []; [|apply ok_done..].
    apply ok_refuse; [apply GenerateBackupCodes_ok|]. intros codes. oks.
  - unfold handler_UpdateProfile. oks.
  - apply Recovery_ok.
Qed.

Lemma post_call X (e : accE X) s r s' : post X e s r s' -> st_call s' = st_call s.
Proof.
  destruct e as [Y e|Y e|Y q|email n|em cd|us sd|a|n]; cbn; try (by intros ->).
  - destruct e as [Z e|]; cbn; [|by intros ->]. destruct e as [T cm|cs| |]; cbn; try (by intros ->).
    destruct cm; cbn; try (by intros ->). destruct r as [[v|]|er|]; [by intros [[? _] _]|by intros ->..].
  - intros ->. by destruct r.
Qed.

(** The environment: clocks move, and the other services change neither the codes, nor the
    keys of codes and registrations but to remove them, nor the wallets of the rows. *)
Definition outside (w w' : aworld) : Prop :=
  aw_codes w' = aw_codes w /\
  (forall k en, keys_of w' !! k = Some en -> other_key k \/ keys_of w !! k = Some en) /\
  (forall id u, rows_of w' !! id = Some u ->
     exists v, rows_of w !! id = Some v /\ user.u_WalletAddress u = user.u_WalletAddress v).
Lemma other_entry codes k en : other_key k -> entry_ok codes k en.
Proof. intros Ho. split; intros e ->; by destruct (Ho e). Qed.
Lemma outside_keeps old w w' ss : outside w w' -> Inv old w ss -> Inv old w' ss.
Proof.
  intros (E1 & E2 & E3) (H1 & H2 & H3). split; [|split].
  - intros k en Hen. rewrite E1. destruct (E2 k en Hen) as [Ho|He]; [by apply other_entry|by apply H1].
  - intros s x. rewrite E1. apply H2.
  - intros id u Hu Hold. destruct (E3 id u Hu) as (v & Hv & Hw). destruct (H3 id v Hv Hold) as (s & Hs & He).
    exists s. split; [done|]. by eapply earned_grows.
Qed.

(** C14: However the requests of the account handlers overlap, whatever the network, the
    database and the mail do: an account that is not among the old ones belongs to the
    wallet of an e-mail for which a code was drawn, and a request to verify that e-mail
    presented a code of the same hash. *)
Theorem registered_by_code w c id u :
  (forall k en, keys_of w !! k = Some en -> other_key k) ->
  reachable perform_acc serve outside w c ->
  rows_of c.1 !! id = Some u -> rows_of w !! id = None ->
  exists email code presented device, KRegisterVerify email presented device ∈ c.2.*1 /\
    (email, code) ∈ aw_codes c.1 /\ user.sha256_hex presented = user.sha256_hex code /\
    user.u_WalletAddress u = emailWalletAddress email.
Proof.
  intros Hk Hr Hu Hold.
  destruct (pool_staged_tagged pre post perform_acc (Inv (rows_of w)) (perform_acc_keeps (rows_of w)) serve outside
    (λ k, {| st_call := k; st_codes := [] |})) with (tag := λ s k, st_call s = k) (w := w) (c := c) as (ss & (_ & Hc & Hrows) & Hss).
  - by apply outside_keeps.
  - apply requests_staged.
  - intros w1 ss k (H1 & H2 & H3). split; [done|]. split.
    + intros s x [Hs| ->%list_elem_of_singleton]%elem_of_app Hx; [by eapply H2|by apply not_elem_of_nil in Hx].
    + intros i v Hi Hi'. destruct (H3 i v Hi Hi') as (s & Hs & He). exists s. split; [by apply elem_of_app; left|done].
  - done.
  - intros X e s r s' k Hp <-. by eapply post_call.
  - split; [|split].
    + intros k en Hen. by apply other_entry, (Hk k en).
    + by intros s x ?%not_elem_of_nil.
    + congruence.
  - exact Hr.
  - destruct (Hrows id u Hu Hold) as (s & Hs & e & code & p & d & Hcall & Hcode & Hh & Hw). exists e, code, p, d.
    split; [|split; [by eapply Hc|done]]. apply list_elem_of_lookup in Hs as (i & Hi).
    destruct (Forall2_lookup_l _ _ _ _ _ Hss Hi) as (lp & Hlp & _ & Ht). apply list_elem_of_fmap. exists lp.
    split; [congruence|]. apply list_elem_of_lookup. by exists i.
Qed.
End accounts.
End accountprops.
