(* ===== verification/AccountRuns.v ===== *)
(** Codes, passwords, recovery codes and the lock of the second factor, each run alone;
    and the runs of overlapping or interleaved requests in which the account handlers do
    not do what they are meant to. *)
From S2P Require Export AccountProps Demo.
From stdpp Require Import options.
From Stdlib Require Import Ascii.
#[local] Set Default Proof Using "Type*".
Open Scope Z_scope.
Local Open Scope go_scope.

Module accountruns.
Import redis session sessionprops accounts accountprops.

(** ** The guesses at one code *)
Section guesses.
Context {HL : user.HashLib} {AJ : AccountJSON} {TM : TextMatch} {HLaws : HashLaws}.
Abbreviation redis_of w := (sw_redis (aw_sess w)) (only parsing).

(** A network that carries every command at once. *)
Definition quiet (w : aworld) : Prop := rw_net (redis_of w) = [].
Definition with_key (k : string) (en : option entry) (w : aworld) : aworld :=
  let rw := redis_of w in
  set_aw_sess {| sw_redis := with_keys (match en with Some e => <[k := e]> (rw_keys rw) | None => delete k (rw_keys rw) end) rw;
                 sw_tokens := sw_tokens (aw_sess w); sw_minted := sw_minted (aw_sess w) |} w.
Lemma run_quiet_cmd {X} (c : cmd X) w : quiet w ->
  run perform_acc (rcmd c) w =
    (let '(r, ks) := exec (rw_now (redis_of w)) c (rw_keys (redis_of w)) in
     (r, set_aw_sess {| sw_redis := with_keys ks (redis_of w); sw_tokens := sw_tokens (aw_sess w);
                        sw_minted := sw_minted (aw_sess w) |} w)).
Proof.
  intros Hq. unfold quiet in Hq. cbn. unfold on_server, arrive. rewrite Hq.
  destruct (exec _ c _) as [r ks]. done.
Qed.
(** What a key of a code holds. *)
Definition holds (w : aworld) (email : string) (hash : string) (attempts : Z) : Prop :=
  exists exp, view (rw_now (redis_of w)) (otpKey email) (rw_keys (redis_of w)) =
    Some {| e_val := RString (otpValue hash attempts); e_exp := exp |}.
Definition no_code (w : aworld) (email : string) : Prop :=
  view (rw_now (redis_of w)) (otpKey email) (rw_keys (redis_of w)) = None.
Definition too_many : error := Errorf "too many incorrect attempts. request a new code".
Definition not_found : error := Errorf "OTP code expired or not found".

Lemma counter_reads n : (n <= 5)%nat -> ParseInt (fmt_d (Z.of_nat n)) = inl (Z.of_nat n).
Proof. intros Hn. do 6 (destruct n as [|n]; [by vm_compute|]). lia. Qed.
Lemma verify_none w e c : quiet w -> no_code w e ->
  exists w', run perform_acc (VerifyOTP e c) w = (Err not_found, w') /\ quiet w' /\ no_code w' e.
Proof.
  intros Hq Hn. unfold VerifyOTP. rewrite run_bind. unfold gbind. rewrite run_wrap. unfold gwrap.
  rewrite run_quiet_cmd by done. cbn [exec]. unfold no_code in Hn. rewrite Hn. cbn [wrap_err run pfail].
  eexists. split; [reflexivity|]. by split.
Qed.
(** A guess, by the number of wrong ones before it. *)
Lemma verify_some w e hash n c : quiet w -> has_byte ":" hash = false -> (n <= 5)%nat -> holds w e hash (Z.of_nat n) ->
  exists r w', run perform_acc (VerifyOTP e c) w = (r, w') /\ quiet w' /\
    if (n =? 5)%nat then r = Err too_many /\ no_code w' e
    else if decide (user.sha256_hex c = hash) then r = Ok true /\ no_code w' e
    else r = Ok false /\ holds w' e hash (Z.of_nat (S n)).
Proof.
  intros Hq Hh Hn (exp & Hv). unfold VerifyOTP. rewrite run_bind. unfold gbind. rewrite run_wrap. unfold gwrap.
  rewrite run_quiet_cmd by done. cbn [exec]. rewrite Hv. cbn [e_val wrap_err].
  set (w1 := set_aw_sess _ w). assert (quiet w1) as Hq1 by done.
  assert (keys1 : rw_keys (redis_of w1) = rw_keys (redis_of w)) by done.
  assert (now1 : rw_now (redis_of w1) = rw_now (redis_of w)) by done. clearbody w1.
  rewrite otp_cut by done. rewrite counter_reads by done. destruct (Z.ltb_spec (Z.of_nat n) 0); [lia|].
  change maxAttempts with 5.
  assert (forall {A} (k : unit -> io A) f, exists w2, run perform_acc (do* pwrap f (rcmd (DEL [otpKey e])) in k tt) w1 = run perform_acc (k tt) w2 /\
    quiet w2 /\ no_code w2 e) as Hdel.
  { intros A k f. rewrite run_bind. unfold gbind. rewrite run_wrap. unfold gwrap. rewrite run_quiet_cmd by done. cbn [exec foldr wrap_err].
    eexists. split; [reflexivity|]. split; [done|]. unfold no_code, view. cbn. by rewrite lookup_delete_eq. }
  destruct (Nat.eqb_spec n 5) as [->|Hne].
  { change (5 <=? Z.of_nat 5) with true. cbv iota. destruct (Hdel bool (λ _, pfail too_many) "clearing exhausted OTP: %w"%string) as (w2 & Hr & ? & ?).
    exists (Err too_many), w2. split; [exact Hr|]. done. }
  destruct (Z.leb_spec 5 (Z.of_nat n)); [lia|]. destruct (decide (user.sha256_hex c = hash)) as [|Hw].
  { destruct (Hdel bool (λ _, pret true) "clearing verified OTP: %w"%string) as (w2 & Hr & ? & ?).
    exists (Ok true), w2. split; [exact Hr|]. done. }
  rewrite run_bind. unfold gbind. rewrite run_wrap. unfold gwrap. rewrite run_quiet_cmd by done. cbn [exec wrap_err run pret].
  eexists _, _. split; [reflexivity|]. split; [done|]. split; [done|]. eexists. unfold view, set_string. cbn.
  rewrite lookup_insert_eq. change (otpTTL <=? 0) with false. cbv iota. unfold alive. cbn [e_exp].
  assert (0 < px otpTTL) by done. destruct (Z.ltb_spec (rw_now (redis_of w1)) (rw_now (redis_of w1) + px otpTTL)); [|lia].
  f_equal. rewrite wrap64_id; [|apply in_int64_spec; unfold int64_min, int64_max; lia]. by replace (Z.of_nat (S n)) with (Z.of_nat n + 1) by lia.
Qed.

(** One guess after the other, and what a counter of five would answer. *)
Fixpoint guess_all (e : string) (l : list string) (w : aworld) : list (result bool) :=
  match l with
  | [] => []
  | c :: l => let '(r, w') := run perform_acc (VerifyOTP e c) w in r :: guess_all e l w'
  end.
Fixpoint counted_answers (hash : string) (tries : nat) (l : list string) {struct l} : list (result bool) :=
  match l with
  | [] => []
  | c :: l =>
      match tries with
      | O => Err too_many :: ((λ _, Err not_found) <$> l)
      | S tries => if decide (user.sha256_hex c = hash) then Ok true :: ((λ _, Err not_found) <$> l)
                  else Ok false :: counted_answers hash tries l
      end
  end.
Lemma guess_none e l w : quiet w -> no_code w e -> guess_all e l w = (λ _, Err not_found) <$> l.
Proof.
  revert w. induction l as [|c l IH]; intros w Hq Hn; [done|]. cbn [guess_all].
  destruct (verify_none w e c Hq Hn) as (w' & -> & Hq' & Hn'). by rewrite IH.
Qed.
Lemma guess_some e l w hash n : quiet w -> has_byte ":" hash = false -> (n <= 5)%nat -> holds w e hash (Z.of_nat n) ->
  guess_all e l w = counted_answers hash (5 - n) l.
Proof.
  intros Hq Hh. revert w n Hq. induction l as [|c l IH]; intros w n Hq Hn Hw; [done|]. cbn [guess_all].
  destruct (verify_some w e hash n c Hq Hh Hn Hw) as (r & w' & -> & Hq' & Hr). destruct (Nat.eqb_spec n 5) as [->|Hne].
  { destruct Hr as [-> Hno]. by rewrite guess_none. }
  replace (5 - n)%nat with (S (5 - S n)) by lia. cbn [counted_answers]. destruct (decide _).
  - destruct Hr as [-> Hno]. by rewrite guess_none.
  - destruct Hr as [-> Hs]. f_equal. apply IH; [done|lia|done].
Qed.

(** C16: Guesses at a code that do not overlap are answered as by a counter: at most five
    are compared, the right one among them is accepted once, and after the fifth wrong one
    or the right one the code is gone. *)
Theorem guesses_counted e code w l : quiet w -> holds w e (user.sha256_hex code) 0 ->
  guess_all e l w = counted_answers (user.sha256_hex code) 5 l.
Proof. intros Hq Hw. apply (guess_some e l w _ 0 Hq (sha256_hex_text code)); [lia|done]. Qed.
End guesses.

(** ** Recovery codes *)
(** What is documented of upper case: letters A to Z and digits are their own. *)
Definition upper_or_dash (c : ascii) : bool :=
  is_digit c || ((65 <=? GoText.code c) && (GoText.code c <=? 90)) || bool_decide (c = "-"%char).
Class CaseLaws `{AccountLib} : Prop := {
  ToUpper_id s : forallb upper_or_dash (String.list_ascii_of_string s) = true -> ToUpper s = s;
}.
Section recovery.
Context {HL : user.HashLib} {AL : AccountLib} {TM : TextMatch} {CL : CaseLaws}.

Definition in_charset (c : ascii) : Prop := c ∈ String.list_ascii_of_string charset.
Definition code_text (l1 l2 l3 : list ascii) : string :=
  String.string_of_list_ascii (l1 ++ "-"%char :: l2 ++ "-"%char :: l3).
Definition group (l : list ascii) : Prop := length l = 4%nat /\ Forall in_charset l.
Definition starts_no_space (c : ascii) : bool :=
  forallb (λ p, match p with b :: _ => negb (bool_decide (b = c)) | [] => false end) go_spaces &&
  forallb (λ p, match p with b :: _ => negb (bool_decide (b = c)) | [] => false end) (reverse <$> go_spaces).
Lemma charset_char c : in_charset c ->
  upper_or_dash c = true /\ (c ∉ [" "; "-"; "009"]%char) /\ starts_no_space c = true.
Proof.
  intros Hc. assert (Forall (λ c, upper_or_dash c = true /\
    bool_decide (c ∉ [" "; "-"; "009"]%char) = true /\ starts_no_space c = true) (String.list_ascii_of_string charset)) as Hall.
  { repeat (constructor; [by vm_compute|]). constructor. }
  rewrite Forall_forall in Hall. destruct (Hall c Hc) as (H1 & H2 & H3). apply bool_decide_eq_true in H2. done.
Qed.
Lemma trim_code l1 l2 l3 : group l1 -> group l3 -> str_TrimSpace (code_text l1 l2 l3) = code_text l1 l2 l3.
Proof.
  intros [Hl1 Hc1] [Hl3 Hc3]. unfold str_TrimSpace, code_text. rewrite String.list_ascii_of_string_of_list_ascii. f_equal.
  destruct l1 as [|a l1]; [done|]. destruct l3 as [|z l3 _] using rev_ind; [done|].
  apply Forall_cons in Hc1 as [Ha _]. apply Forall_app in Hc3 as [_ Hz]. apply Forall_cons in Hz as [Hz _].
  destruct (charset_char a Ha) as (_ & _ & Hsa). destruct (charset_char z Hz) as (_ & _ & Hsz).
  unfold starts_no_space in *. go_bool. unfold TrimSpace, trim_left. cbn [app].
  rewrite (trim_with_stop _ go_spaces) by (by apply strip_one_head).
  set (m := (a :: l1 ++ "-"%char :: l2 ++ "-"%char :: l3 ++ [z])).
  assert (reverse m = z :: reverse (a :: l1 ++ "-"%char :: l2 ++ "-"%char :: l3)) as Hm.
  { unfold m. replace (a :: l1 ++ "-"%char :: l2 ++ "-"%char :: l3 ++ [z]) with ((a :: l1 ++ "-"%char :: l2 ++ "-"%char :: l3) ++ [z]).
    - by rewrite reverse_snoc.
    - cbn. f_equal. rewrite <-app_assoc. cbn. do 2 f_equal. by rewrite <-app_assoc. }
  unfold trim_right. rewrite Hm, trim_with_stop by (by apply strip_one_head). rewrite <-Hm. by rewrite reverse_involutive.
Qed.
Lemma group_filter l : Forall in_charset l -> filter (λ c, c ∉ [" "; "-"; "009"]%char) l = l.
Proof.
  intros Hl. induction Hl as [|c l Hc Hl IH]; [done|]. destruct (charset_char c Hc) as (_ & Hn & _).
  by rewrite filter_cons_True, IH.
Qed.
Lemma normalize_code l1 l2 l3 : group l1 -> group l2 -> group l3 -> NormalizeBackupCode (code_text l1 l2 l3) = code_text l1 l2 l3.
Proof.
  intros G1 G2 G3. unfold NormalizeBackupCode. rewrite trim_code by done.
  destruct G1 as [Hl1 Hc1], G2 as [Hl2 Hc2], G3 as [Hl3 Hc3].
  assert (strip_separators (code_text l1 l2 l3) = String.string_of_list_ascii (l1 ++ l2 ++ l3)) as ->.
  { unfold strip_separators, code_text. rewrite String.list_ascii_of_string_of_list_ascii. f_equal.
    assert (forall l, filter (λ c, c ∉ [" "; "-"; "009"]%char) ("-"%char :: l) = filter (λ c, c ∉ [" "; "-"; "009"]%char) l) as Hd.
    { intros l. rewrite filter_cons_False; [done|]. intros Hn. apply Hn. right. by left. }
    by rewrite filter_app, Hd, filter_app, Hd, !group_filter. }
  rewrite ToUpper_id.
  - destruct l1 as [|a1 [|a2 [|a3 [|a4 [|]]]]]; try done. destruct l2 as [|b1 [|b2 [|b3 [|b4 [|]]]]]; try done.
    by destruct l3 as [|c1 [|c2 [|c3 [|c4 [|]]]]].
  - rewrite String.list_ascii_of_string_of_list_ascii. apply forallb_forall. intros c Hc.
    assert (in_charset c) as Hin; [|by destruct (charset_char c Hin)]. apply list_elem_of_In in Hc.
    rewrite !elem_of_app in Hc. destruct Hc as [Hc|[Hc|Hc]];
      [by eapply (proj1 (Forall_forall _ _) Hc1)|by eapply (proj1 (Forall_forall _ _) Hc2)|by eapply (proj1 (Forall_forall _ _) Hc3)].
Qed.

(** What is drawn has the three groups. *)
Definition drawn (j : nat) (c : ascii) : Prop :=
  match j with 4%nat | 9%nat => c = "-"%char | _ => in_charset c end.
Lemma draw_shape l w s w' : run perform_acc (draw_plain l) w = (Ok s, w') ->
  exists cs, s = String.string_of_list_ascii cs /\ Forall2 drawn l cs.
Proof.
  revert w s w'. induction l as [|j l IH]; intros w s w'.
  { cbn. intros [= <- <-]. exists []. by split. }
  cbn [draw_plain]. rewrite run_bind. intros (c & w1 & Ec & Er)%gbind_Ok_inv. rewrite run_bind in Er.
  apply gbind_Ok_inv in Er as (rest & w2 & Er & [= <- <-]). apply IH in Er as (cs & -> & Hcs).
  exists (c :: cs). split; [done|]. constructor; [|done]. destruct (decide _) as [[-> | ->]|Hne].
  - by injection Ec as <- _.
  - by injection Ec as <- _.
  - rewrite run_bind in Ec. apply gbind_Ok_inv in Ec as (pos & w3 & _ & Ec).
    destruct (String.get (Z.to_nat pos) charset) as [x|] eqn:Eg; [|done]. injection Ec as <- _.
    assert (in_charset x) as Hx; [|by destruct j as [|[|[|[|[|[|[|[|[|[|j]]]]]]]]]]; try exact Hx; exfalso; apply Hne; auto].
    clear -Eg. unfold in_charset. revert Eg. generalize (Z.to_nat pos). generalize charset. intros s k.
    revert k. induction s as [|y s IH]; intros [|k]; cbn; try done.
    + intros [= ->]. by left.
    + intros Hk. right. by eapply IH.
Qed.
Lemma code_groups cs : Forall2 drawn (seq 0 14) cs -> exists l1 l2 l3, group l1 /\ group l2 /\ group l3 /\
  String.string_of_list_ascii cs = code_text l1 l2 l3.
Proof.
  intros H. pose proof (Forall2_length _ _ _ H) as Hl. do 15 (destruct cs as [|? cs]; try done).
  cbn [seq] in H. repeat (apply Forall2_cons in H as [? H]). unfold drawn in *. cbn in *. simplify_eq.
  exists [a; a0; a1; a2], [a4; a5; a6; a7], [a9; a10; a11; a12].
  split_and!; [..|reflexivity]; (split; [done|]; repeat (apply Forall_cons_2; [done|]); by apply Forall_nil).
Qed.
Lemma remove_first_perm want l : want ∈ l -> exists r, remove_first want l = Some r /\ want :: r ≡ₚ l.
Proof.
  induction l as [|h l IH]; [by intros ?%not_elem_of_nil|]. intros Hin. cbn. destruct (decide (h = want)) as [->|Hne]; [by exists l|].
  apply elem_of_cons in Hin as [->|Hin]; [done|]. destruct (IH Hin) as (r & -> & Hr). exists (h :: r). split; [done|].
  by rewrite Permutation_swap, Hr.
Qed.

(** C17: Every recovery code an enrolment shows is accepted as it was shown, and using it
    removes exactly its own hash from the ten that are stored. *)
Theorem recovery_codes_work w codes w' b : run perform_acc GenerateBackupCodes w = (Ok codes, w') -> b ∈ codes ->
  length codes = BackupCodeCount /\
  exists remaining, ValidateBackupCode (bk_Plain b) (HashBackupCodes codes) = Some remaining /\
    bk_Hash b :: remaining ≡ₚ HashBackupCodes codes.
Proof.
  unfold GenerateBackupCodes. assert (forall k w codes w', run perform_acc (draw_codes k) w = (Ok codes, w') ->
    length codes = k /\ Forall (λ b, bk_Hash b = hashBackupCode (bk_Plain b) /\ exists l1 l2 l3, group l1 /\ group l2 /\ group l3 /\
      bk_Plain b = code_text l1 l2 l3) codes) as Hdraw.
  { intros k. induction k as [|k IH]; intros w0 cs w0'; cbn [draw_codes].
    { cbn. intros [= <- <-]. by split. }
    rewrite run_bind. intros (s & w1 & Es & Er)%gbind_Ok_inv. rewrite run_bind in Er.
    apply gbind_Ok_inv in Er as (rest & w2 & Er & [= <- <-]). apply IH in Er as [Hl Hall]. split; [by cbn; rewrite Hl|].
    constructor; [|done]. split; [done|]. apply draw_shape in Es as (chars & -> & Hc). by apply code_groups. }
  intros (Hl & Hall)%Hdraw Hb. split; [done|]. rewrite Forall_forall in Hall.
  destruct (Hall b Hb) as (Hh & l1 & l2 & l3 & G1 & G2 & G3 & Hp). unfold ValidateBackupCode.
  rewrite Hp, normalize_code, <-Hp, <-Hh by done. apply remove_first_perm. unfold HashBackupCodes.
  apply list_elem_of_fmap. by exists b.
Qed.
End recovery.

(** ** Passwords *)
(** Base64 is padded to a multiple of four with [=], uses no dollar and is read back. *)
Definition b64_pad (core : string) : string :=
  match (String.length core mod 4)%nat with 2%nat => "==" | 3%nat => "=" | _ => "" end.
Class Base64Laws `{AccountLib} : Prop := {
  b64_shape s : exists core, has_byte "=" core = false /\ has_byte "$" core = false /\
    b64_encode s = (core ++ b64_pad core)%string;
  b64_round s : b64_decode (b64_encode s) = Some s;
}.
Section passwords.
Context {AL : AccountLib} {BL : Base64Laws}.
Lemma trim_pad_core core n : has_byte "=" core = false ->
  trim_pad (core ++ match n with 2%nat => "==" | 3%nat => "=" | _ => "" end)%string = core.
Proof.
  induction core as [|c core IH].
  { intros _. by destruct n as [|[|[|[|n]]]]. }
  rewrite has_byte_cons. intros Hc. apply orb_false_iff in Hc as [Hc Hcore]. go_bool.
  assert (forall x, trim_pad (String c x) = (let r' := trim_pad x in if decide (c = "="%char /\ r' = EmptyString) then EmptyString else String c r')) as Hs by done.
  rewrite str_app_cons, Hs, IH by done. cbv zeta. destruct (decide _) as [[? _]|]; [done|done].
Qed.
Lemma str_app_r s : (s ++ "")%string = s.
Proof. induction s as [|c s IH]; [done|]. by rewrite str_app_cons, IH. Qed.
Lemma base64_round s : base64Decode (base64Encode s) = Some s /\ has_byte "$" (base64Encode s) = false.
Proof.
  destruct (b64_shape s) as (core & He & Hd & Hs). assert (base64Encode s = core) as ->.
  { unfold base64Encode. rewrite Hs. by apply trim_pad_core. }
  split; [|done]. unfold base64Decode. rewrite <-(b64_round s), Hs. f_equal. unfold b64_pad.
  destruct (String.length core mod 4)%nat as [|[|[|[|n]]]]; try done; symmetry; apply str_app_r.
Qed.
(** A password is accepted against the text its hash is stored as, and another one is
    accepted only if the key derivation gives both the same key under that salt. *)
Theorem password_round_trip salt password other :
  VerifyPassword password (encode_hash salt password) = true /\
  (VerifyPassword other (encode_hash salt password) = true <->
     argon2_IDKey other salt = argon2_IDKey password salt).
Proof.
  destruct (base64_round salt) as [Hs Hds]. destruct (base64_round (argon2_IDKey password salt)) as [Hp Hdp].
  assert (forall p, VerifyPassword p (encode_hash salt password) = bool_decide (argon2_IDKey p salt = argon2_IDKey password salt)) as Hv.
  { intros p. unfold VerifyPassword, encode_hash.
    assert (str_split dollar ("$argon2id$v=19$m=65536,t=3,p=4$" ++ base64Encode salt ++ String dollar (base64Encode (argon2_IDKey password salt))) =
      [""; "argon2id"; "v=19"; "m=65536,t=3,p=4"; base64Encode salt; base64Encode (argon2_IDKey password salt)])%string as ->.
    { set (tl := (base64Encode salt ++ _)%string).
      change ("$argon2id$v=19$m=65536,t=3,p=4$" ++ tl)%string with
        ("" ++ String dollar ("argon2id" ++ String dollar ("v=19" ++ String dollar ("m=65536,t=3,p=4" ++ String dollar tl))))%string.
      unfold tl. by rewrite !str_split_app, !str_split_one. }
    cbn -[base64Decode]. by rewrite Hs, Hp. }
  rewrite !Hv. split; [by apply bool_decide_eq_true|]. apply bool_decide_eq_true.
Qed.
End passwords.
End accountruns.

(** * Concrete runs of the account handlers over small libraries: the witnesses of their
    theorems, and what they do when requests overlap or come in an unexpected order. *)
Module accountdemo.
Import redis session sessionprops accounts accountprops accountruns.

(** ** Small libraries *)
#[local] Instance demo_hash : user.HashLib := {|
  user.sha256_hex s := String.string_of_list_ascii ("h"%char :: filter (λ c, c <> ":"%char /\ (code c <? 128) = true) (String.list_ascii_of_string s)) |}.
#[local] Instance demo_hash_laws : HashLaws.
Proof.
  split; intros s; cbn; unfold has_byte, ascii_text; rewrite String.list_ascii_of_string_of_list_ascii; cbn.
  - destruct (existsb _ _) eqn:E; [|done]. apply existsb_exists in E as (c & Hin & Hc). go_bool.
    apply list_elem_of_In, list_elem_of_filter in Hin as [[? _] _]. done.
  - apply forallb_forall. by intros c [[_ ?] _]%list_elem_of_In%list_elem_of_filter.
Qed.
#[local] Instance demo_session : SessionLib := {| sha256Hash := id; Format_RFC3339 _ := "" |}.
#[local] Instance demo_match : TextMatch := {| ilike _ _ := false |}.
(** Every byte is written as four characters, none of them a dollar or padding. *)
Definition hex_char (d : N) : ascii := ascii_of_N (65 + d)%N.
Definition quad (c : ascii) : list ascii := [hex_char (N_of_ascii c / 16); hex_char (N_of_ascii c mod 16); "A"; "A"]%char.
Fixpoint unquad (l : list ascii) : option (list ascii) :=
  match l with
  | [] => Some []
  | a :: b :: _ :: _ :: l =>
      match unquad l with
      | Some r => Some (ascii_of_N ((N_of_ascii a - 65) * 16 + (N_of_ascii b - 65)) :: r)
      | None => None
      end
  | _ => None
  end.
#[local] Instance demo_account : AccountLib := {|
  b64_encode s := String.string_of_list_ascii (mjoin (quad <$> String.list_ascii_of_string s));
  b64_decode s := String.string_of_list_ascii <$> unquad (String.list_ascii_of_string s);
  argon2_IDKey p s := (p ++ s)%string;
  ToLower s := s; ToUpper s := s; EqualFold a b := bool_decide (a = b); RuneCount s := Z.of_nat (String.length s);
  binding_email _ := true; ParseAddress s := Some s; derive_wallet_seed s := Some s; totp_QR s := Some s;
  totp_ValidateCustom code secret _ := bool_decide (code = secret) |}.
#[local] Instance demo_case : CaseLaws.
Proof. by split. Qed.
Lemma quad_char c : forallb (λ a, negb (bool_decide (a = "="%char)) && negb (bool_decide (a = "$"%char))) (quad c) = true /\
  ascii_of_N ((N_of_ascii (hex_char (N_of_ascii c / 16)) - 65) * 16 + (N_of_ascii (hex_char (N_of_ascii c mod 16)) - 65)) = c.
Proof. destruct c as [[] [] [] [] [] [] [] []]; by vm_compute. Qed.
#[local] Instance demo_base64 : Base64Laws.
Proof.
  split.
  - intros s. exists (b64_encode s). cbn. set (l := String.list_ascii_of_string s).
    assert (forall x, forallb (λ a, negb (bool_decide (a = x))) (mjoin (quad <$> l)) = true ->
      has_byte x (String.string_of_list_ascii (mjoin (quad <$> l))) = false) as Hb.
    { intros x Hx. unfold has_byte. rewrite String.list_ascii_of_string_of_list_ascii.
      destruct (existsb _ _) eqn:E; [|done]. apply existsb_exists in E as (c & Hin & Hc).
      rewrite forallb_forall in Hx. specialize (Hx c Hin). by rewrite Hc in Hx. }
    assert (forallb (λ a, negb (bool_decide (a = "="%char)) && negb (bool_decide (a = "$"%char))) (mjoin (quad <$> l)) = true) as Hall.
    { clear Hb. induction l as [|c l IH]; [done|]. change (mjoin (quad <$> c :: l)) with (quad c ++ mjoin (quad <$> l)). rewrite forallb_app, IH.
      by rewrite (proj1 (quad_char c)). }
    rewrite forallb_forall in Hall. split; [apply Hb, forallb_forall; intros a Ha; by destruct (andb_prop _ _ (Hall a Ha))|].
    split; [apply Hb, forallb_forall; intros a Ha; by destruct (andb_prop _ _ (Hall a Ha))|].
    assert (exists k, String.length (String.string_of_list_ascii (mjoin (quad <$> l))) = (k * 4)%nat) as [k Hk].
    { clear. induction l as [|c l [k IH]]; [by exists O|]. exists (S k).
      change (mjoin (quad <$> c :: l)) with (quad c ++ mjoin (quad <$> l)). cbn [quad app String.string_of_list_ascii String.length]. by rewrite IH. }
    unfold b64_pad. rewrite Hk, Nat.Div0.mod_mul. by rewrite str_app_r.
  - intros s. cbn. rewrite String.list_ascii_of_string_of_list_ascii.
    assert (unquad (mjoin (quad <$> String.list_ascii_of_string s)) = Some (String.list_ascii_of_string s)) as ->.
    { induction (String.list_ascii_of_string s) as [|c l IH]; [done|]. change (mjoin (quad <$> c :: l)) with (quad c ++ mjoin (quad <$> l)).
      cbn [quad app unquad]. rewrite IH. by rewrite (proj2 (quad_char c)). }
    cbn. by rewrite String.string_of_list_ascii_of_string.
Qed.
(** Records as the digits of a number. *)
Fixpoint digits_of (p : positive) : string :=
  match p with xH => EmptyString | xO p => String "0" (digits_of p) | xI p => String "1" (digits_of p) end.
Fixpoint pos_of (s : string) : positive :=
  match s with EmptyString => xH | String c s => if decide (c = "0"%char) then xO (pos_of s) else xI (pos_of s) end.
Lemma pos_digits p : pos_of (digits_of p) = p.
Proof. induction p as [p IH|p IH|]; cbn; by rewrite ?IH. Qed.
Definition pending_tuple (p : PendingRegistration) :=
  (pr_PasswordHash p, pr_WalletAddr p, pr_Email p, pr_DisplayName p, pr_Language p).
#[local] Instance demo_json : AccountJSON := {|
  pending_Marshal p := digits_of (encode (pending_tuple p));
  pending_Unmarshal s := (λ t : string * string * string * string * string,
    {| pr_PasswordHash := t.1.1.1.1; pr_WalletAddr := t.1.1.1.2; pr_Email := t.1.1.2; pr_DisplayName := t.1.2; pr_Language := t.2 |})
    <$> decode (pos_of s);
  change_Marshal c := digits_of (encode (ec_CurrentEmail c, ec_NewEmail c, ec_OldVerified c));
  change_Unmarshal s := (λ t : string * string * bool,
    {| ec_CurrentEmail := t.1.1; ec_NewEmail := t.1.2; ec_OldVerified := t.2 |}) <$> decode (pos_of s) |}.
#[local] Instance demo_json_laws : AccountJSONLaws.
Proof.
  split. intros p. exists p. split; [|by repeat split]. destruct p. cbn [pending_Unmarshal pending_Marshal demo_json].
  by rewrite pos_digits, decode_encode.
Qed.

(** ** Worlds *)
Definition empty_users : user.utables := {| user.ut_users := ∅; user.ut_counter := Some 0 |}.
Definition world_with (t : user.utables) (rands : list string) (digits : list (list Z)) : aworld :=
  {| aw_users := {| user.uw_now := 1000; user.uw_db := connection t; user.uw_uuids := [3; 4; 5]%N; user.uw_circles _ := Ok [] |};
     aw_sess := {| sw_redis := {| rw_now := 1000; rw_keys := ∅; rw_net := []; rw_rand := inl <$> rands |};
                   sw_tokens := inl <$> ["access"]%string; sw_minted := [] |};
     aw_lock := ∅; aw_digits := inl <$> digits; aw_codes := []; aw_mails := []; aw_mailer := []; aw_wallets := [];
     aw_keys := [] |}.
Definition later (d : duration) (w : aworld) : aworld :=
  let s := aw_sess w in let rw := sw_redis s in
  set_aw_sess {| sw_redis := {| rw_now := rw_now rw + d; rw_keys := rw_keys rw; rw_net := rw_net rw; rw_rand := rw_rand rw |};
                 sw_tokens := sw_tokens s; sw_minted := sw_minted s |} w.
Abbreviation after p w := (run perform_acc p w).2 (only parsing).
Abbreviation answer p w := (run perform_acc p w).1 (only parsing).
Abbreviation rows_of w := (user.ut_users (pg_tables (user.uw_db (aw_users w)))) (only parsing).
Definition week : duration := 7 * 24 * 3600 * second.

(** *** Registration *)
Definition start : aworld := world_with empty_users ["salt1"; "salt2"; "refresh"; "csrf"]%string [[1; 2; 3; 4; 5; 6]].
Definition mail : string := "v@x".
Definition signed_up : aworld := after (Register true mail "victims password") start.
(** Another request for the same e-mail is refused, because a code was just sent; but the
    password it came with has replaced the first one, and the owner's code registers it. *)
Definition replaced : aworld := after (Register true mail "attackers password") signed_up.
Definition verified : aworld := after (RegisterVerify false week mail "123456" "device") replaced.
Theorem pending_password_replaced :
  answer (Register true mail "victims password") start = Ok (Answered 201 (BMessage "verification code sent to your email")) /\
  answer (Register true mail "attackers password") signed_up = Ok (Refused 500 "failed to send verification code") /\
  aw_mails replaced = [(mail, "123456"%string)] /\
  (exists p, answer (RegisterVerify false week mail "123456" "device") replaced = Ok (Answered 201 (BTokens p))) /\
  exists hash, user.u_PasswordHash <$> (rows_of verified !! 3%N) = Some (Some hash) /\
    VerifyPassword "attackers password" hash = true /\ VerifyPassword "victims password" hash = false.
Proof.
  split; [by vm_compute|]. split; [by vm_compute|]. split; [by vm_compute|]. split; [eexists; by vm_compute|].
  exists (encode_hash "salt2" "attackers password"). split; [by vm_compute|]. split; by vm_compute.
Qed.

(** *** Codes *)
(** Each guess renews the time of the code: it is accepted nine minutes after it was sent
    though it lives for five. *)
Theorem code_outlives_its_time :
  let w1 := after (VerifyOTP mail "000000") (later (270 * second) signed_up) in
  let w2 := later (270 * second) w1 in
  otpTTL < rw_now (sw_redis (aw_sess w2)) - rw_now (sw_redis (aw_sess signed_up)) /\
  answer (VerifyOTP mail "123456") w2 = Ok true.
Proof. cbv zeta. split; by vm_compute. Qed.

(** Guesses that read the counter before one of them writes it are all counted as one: the
    right code is accepted after six wrong ones. *)
Definition guess (c : string) : io unit :=
  let* right := VerifyOTP mail c in if right : bool then pret tt else pfail (Errorf "wrong").
Definition wrong : string := "000000".
Definition many : list (turn (W := aworld) (L := string)) :=
  (Start <$> [wrong; wrong; wrong; wrong; wrong; wrong; "123456"])%string ++ (Run <$> seq 0 7) ++ (Run <$> seq 0 7).
Theorem guesses_that_overlap : exists c, reachable perform_acc guess (λ _ _, False) signed_up c /\
  c.2 = replicate 6 (wrong, Done (Err (Errorf "wrong"))) ++ [("123456"%string, Done (Ok tt))].
Proof.
  exists (schedule perform_acc guess many (signed_up, [])). split; [by apply schedule_steps_closed|]. by vm_compute.
Qed.

(** *** The change of an e-mail *)
Definition old_hash : string := user.HashEmail "old@x".
Definition ada : user.User :=
  user.set_prefs (Some ["inapp"%string]) false false 1440 5 (user.set_Email (Some old_hash) true (user.new_user 7 "GADA" 5)).
Definition with_ada (u : user.User) : user.utables := {| user.ut_users := {[7%N := u]}; user.ut_counter := Some 0 |}.
Definition change0 : aworld := world_with (with_ada ada) [] [[1; 1; 1; 1; 1; 1]; [2; 2; 2; 2; 2; 2]].
Definition id7 : string := unary 7.
Definition change1 : aworld := after (RequestEmailChange true id7 "new@x") change0.
Definition change2 : aworld := after (VerifyCurrentEmail true id7 "111111") change1.
Definition change3 : aworld := after (VerifyNewEmail id7 "222222") change2.
(** The first code is sent to the hash that is stored; and when the change succeeds, the
    new e-mail is stored as it is, so that nothing that looks for it by its hash finds it. *)
Theorem email_change_goes_wrong :
  aw_mails change1 = [(old_hash, "111111"%string)] /\ old_hash <> "old@x"%string /\
  answer (VerifyNewEmail id7 "222222") change2 = Ok (Answered 200 (BEmail "new@x")) /\
  user.u_Email <$> (rows_of change3 !! 7%N) = Some (Some "new@x"%string) /\
  answer (users (user.GetByEmail "new@x")) change3 = Err user.ErrUserNotFound /\
  answer (users (user.IsEmailTaken "new@x")) change3 = Ok false.
Proof. split_and!; by vm_compute. Qed.

(** *** Recovery codes *)
Definition code1 : string := "AAAA-BBBB-CCCC".
Definition enrolled : user.User := user.set_TOTP (Some "secret"%string) true (Some [hashBackupCode code1; "other"%string]) ada.
Definition totp0 : aworld := world_with (with_ada enrolled) [] [].
Definition recover (c : string) : io unit :=
  let* a := VerifyTOTP id7 "" c in match a with Answered _ _ => pret tt | Refused _ _ => pfail (Errorf "refused") end.
(** Two requests with one recovery code read the row before either writes it: both are
    accepted.  One after the other, the second is refused. *)
Theorem recovery_code_twice :
  (exists c, reachable perform_acc recover (λ _ _, False) totp0 c /\
     c.2 = [(code1, Done (Ok tt)); (code1, Done (Ok tt))]) /\
  answer (recover code1) totp0 = Ok tt /\ answer (recover code1) (after (recover code1) totp0) = Err (Errorf "refused").
Proof.
  split; [|split; by vm_compute].
  exists (schedule perform_acc recover [Start code1; Start code1; Run 0; Run 1; Run 0; Run 1; Run 0; Run 1; Run 0; Run 1] (totp0, [])).
  split; [by apply schedule_steps_closed|]. by vm_compute.
Qed.

(** ** Witnesses *)
Definition two_requests : list (turn (W := aworld) (L := call)) :=
  Start (KRegister mail "victims password") :: (Run <$> replicate 9 0%nat) ++
  Start (KRegisterVerify mail "123456" "device") :: (Run <$> replicate 12 1%nat).
Definition both := schedule perform_acc (serve true false week) two_requests (start, []).
Lemma registered_by_code_witness : exists u, rows_of both.1 !! 3%N = Some u /\ user.u_WalletAddress u = emailWalletAddress mail.
Proof.
  destruct (rows_of both.1 !! 3%N) as [u|] eqn:E; [|by vm_compute in E]. exists u. split; [done|].
  destruct (registered_by_code true false week start both 3 u) as (e & c & p & d & Hin & _ & _ & Hw).
  - intros k en Hk. change ((∅ : gmap string entry) !! k = Some en) in Hk. by rewrite lookup_empty in Hk.
  - apply (schedule_steps_closed perform_acc (serve true false week) outside two_requests (start, [])). reflexivity.
  - exact E.
  - reflexivity.
  - rewrite Hw. assert (both.2.*1 = [KRegister mail "victims password"; KRegisterVerify mail "123456" "device"]) as Hl by (by vm_compute).
    rewrite Hl in Hin. clear -Hin. rewrite elem_of_cons, list_elem_of_singleton in Hin.
    destruct Hin as [Hin|Hin]; [discriminate Hin|]. by injection Hin as -> _ _.
Defined.
Lemma guesses_counted_witness : guess_all mail [wrong; "123456"; "123456"]%string signed_up = [Ok false; Ok true; Err not_found].
Proof.
  rewrite (guesses_counted mail "123456" signed_up); [reflexivity..|]. eexists. vm_compute. reflexivity.
Defined.
Definition draws : aworld := world_with empty_users [] (replicate 120 [3]).
Lemma recovery_codes_work_witness : let codes := match answer GenerateBackupCodes draws with Ok l => l | _ => [] end in
  length codes = 10%nat.
Proof.
  cbv zeta. destruct (answer GenerateBackupCodes draws) as [codes|e|] eqn:E; [|by vm_compute in E..].
  destruct codes as [|b codes]; [by vm_compute in E|].
  apply (recovery_codes_work draws (b :: codes) (after GenerateBackupCodes draws) b); [|by left].
  rewrite <-E. apply surjective_pairing.
Defined.
Lemma password_round_trip_witness : VerifyPassword "pw" (encode_hash "salt" "pw") = true.
Proof. exact (proj1 (password_round_trip "salt" "pw" "other")). Defined.
End accountdemo.
