(* ===== verification/Notification.v ===== *)
(** Notifications (src/internal/domain/notification, its handlers in
    src/internal/api/handler/notification_handler.go and its adapters in
    src/cmd/api-server/main.go): immediate notifications, the digest that gathers the
    others, deliveries in the background, the list a user reads. *)
From S2P Require Export User Webhook.
From stdpp Require Import options.
From Stdlib Require Import Ascii.
#[local] Set Default Proof Using "Type*".
Open Scope Z_scope.
Local Open Scope go_scope.

Module notification.

(** ** Data *)
(** [NotificationType] and [NotificationChannel] are texts. *)
Abbreviation NotificationType := string (only parsing).
Abbreviation NotificationChannel := string (only parsing).
Definition TypeCircleCreated : NotificationType := "circle.created".
Definition TypeMemberJoined : NotificationType := "member.joined".
Definition TypeContributionDue : NotificationType := "contribution.due".
Definition TypeContributionLate : NotificationType := "contribution.late".
Definition TypeContributionReceived : NotificationType := "contribution.received".
Definition TypePayoutReceived : NotificationType := "payout.received".
Definition TypeCircleCompleted : NotificationType := "circle.completed".
Definition TypeMemberExited : NotificationType := "member.exited".
Definition TypeDisputeRaised : NotificationType := "dispute.raised".
Definition TypeDigest : NotificationType := "digest.summary".
Definition declared_types : list NotificationType :=
  [TypeCircleCreated; TypeMemberJoined; TypeContributionDue; TypeContributionLate; TypeContributionReceived;
   TypePayoutReceived; TypeCircleCompleted; TypeMemberExited; TypeDisputeRaised].
Definition ChannelInApp : NotificationChannel := "inapp".
Definition ChannelEmail : NotificationChannel := "email".
Definition ChannelSMS : NotificationChannel := "sms".
Definition ChannelPush : NotificationChannel := "push".

(** A [json.RawMessage] is [None] when it is nil. *)
Record Notification := {
  n_ID : uuid; n_UserID : uuid; n_Type : NotificationType; n_Title : string; n_Body : string; n_Data : option string;
  n_IsRead : bool; n_IsArchived : bool; n_Channel : NotificationChannel; n_CreatedAt : time;
}.
Record CreateInput := {
  ci_UserID : string; ci_Type : NotificationType; ci_Title : string; ci_Body : string; ci_Data : option string;
  ci_Channel : NotificationChannel;
}.
Inductive DeliveryStatus := DeliverySent | DeliveryFailed | DeliverySkipped.
(** The text of an error is kept as the error. *)
Record DeliveryRecord := {
  dr_ID : uuid; dr_NotificationID : uuid; dr_Channel : NotificationChannel; dr_Status : DeliveryStatus; dr_Attempts : Z;
  dr_Error : option error; dr_CreatedAt : time; dr_UpdatedAt : time;
}.
Record Recipient := {
  r_Email : option string; r_Phone : option string; r_PushToken : option string; r_PreferredChannels : list string; r_Muted : bool;
}.
Definition allows (r : Recipient) (ch : NotificationChannel) : bool :=
  bool_decide (ch = ChannelInApp) || (negb (r_Muted r) && bool_decide (ch ∈ r_PreferredChannels r)).
Record DigestPreferences := { dp_Enabled : bool; dp_Interval : duration }.
Record DigestEntry := { de_Notification : Notification; de_QueuedAt : time }.
Record digestBucket := { entries : list DigestEntry; windowStart : time; interval : duration }.
Record SearchFilter := { sf_Query : string; sf_Type : NotificationType; sf_UnreadOnly : bool; sf_IncludeArchived : bool }.

(** The encodings of the standard library, and the orders in which a map is ranged over.
    [deadline_Unmarshal] gives [None] when the payload is refused, [Some None] when it has
    no deadline; a time outside the years of RFC 3339 is not marshalled. *)
Class NotificationJSON := {
  deadline_Unmarshal : string -> option (option time);
  summary_Marshal : Z -> time -> gmap NotificationType Z -> option string;
  notification_Marshal : Notification -> option string;
  notification_Unmarshal : string -> option Notification;
  jsonb_accepts : string -> bool;
}.
Class NotificationRange := {
  range_due : gmap uuid (list DigestEntry) -> list (uuid * list DigestEntry);
  range_due_perm m : range_due m ≡ₚ map_to_list m;
  range_counts : gmap NotificationType Z -> list NotificationType;
  range_counts_perm m : range_counts m ≡ₚ (map_to_list m).*1;
}.

(** ** The digest (digest.go) *)
Definition hour : duration := 3600 * second.
Definition UrgentDeadlineWindow : duration := 24 * hour.
Definition MaxDigestBatchSize : Z := 100.
Definition DefaultDigestInterval : duration := 24 * hour.
Definition MinDigestInterval : duration := 900 * second.
Definition MaxDigestInterval : duration := 7 * 24 * hour.
Definition urgentTypes : list NotificationType := [TypePayoutReceived; TypeCircleCompleted; TypeDisputeRaised].
Definition IsUrgentType (t : NotificationType) : bool := bool_decide (t ∈ urgentTypes).
Definition Normalize (p : DigestPreferences) : DigestPreferences :=
  if (dp_Interval p <? MinDigestInterval) || (MaxDigestInterval <? dp_Interval p)
  then {| dp_Enabled := dp_Enabled p; dp_Interval := DefaultDigestInterval |} else p.

Definition digestTypeLabels (t : NotificationType) : option string :=
  if decide (t = TypeContributionReceived) then Some "contribution received"%string
  else if decide (t = TypeContributionDue) then Some "contribution due"%string
  else if decide (t = TypeContributionLate) then Some "contribution late"%string
  else if decide (t = TypeCircleCreated) then Some "circle created"%string
  else if decide (t = TypeMemberJoined) then Some "member joined"%string
  else if decide (t = TypeMemberExited) then Some "member exited"%string else None.
(** [strings.ReplaceAll] of one byte by one byte. *)
Fixpoint replace_byte (old new : ascii) (s : string) : string :=
  match s with
  | EmptyString => EmptyString
  | String c s => String (if decide (c = old) then new else c) (replace_byte old new s)
  end.
Definition digestLabel (t : NotificationType) : string :=
  match digestTypeLabels t with Some label => label | None => replace_byte "." " " t end.

Definition count_of (counts : gmap NotificationType Z) (t : NotificationType) : Z := default 0 (counts !! t).
Definition count_type (counts : gmap NotificationType Z) (e : DigestEntry) : gmap NotificationType Z :=
  let t := n_Type (de_Notification e) in <[t := count_of counts t + 1]> counts.
Definition type_counts (l : list DigestEntry) : gmap NotificationType Z := foldl count_type ∅ l.
Definition oldest_of (e : DigestEntry) (l : list DigestEntry) : time :=
  foldl (λ oldest e, if time_Before (de_QueuedAt e) oldest then de_QueuedAt e else oldest) (de_QueuedAt e) l.
(** [sort.Slice] under the comparison of [AssembleDigest]: the second is not less than the
    first; types that compare equal stay in the order of the range, which is open. *)
Definition not_less (counts : gmap NotificationType Z) (a b : NotificationType) : Prop :=
  count_of counts b < count_of counts a \/
  (count_of counts b = count_of counts a /\ String.ltb (digestLabel b) (digestLabel a) = false).
#[export] Instance not_less_dec counts : RelDecision (not_less counts).
Proof. intros a b. unfold not_less. apply _. Defined.
Section assemble.
Context `{NotificationJSON, NotificationRange}.
Definition deadlineFrom (data : option string) : option time :=
  match data with
  | None | Some EmptyString => None
  | Some d => match deadline_Unmarshal d with Some (Some t) => Some t | _ => None end
  end.
Definition IsUrgent (t : NotificationType) (data : option string) (now : time) : bool :=
  IsUrgentType t ||
  match deadlineFrom data with Some deadline => time_Sub deadline now <=? UrgentDeadlineWindow | None => false end.
Definition sorted_types (counts : gmap NotificationType Z) : list NotificationType :=
  merge_sort (not_less counts) (range_counts counts).
Definition digest_parts (counts : gmap NotificationType Z) : list string :=
  (λ t, (fmt_d (count_of counts t) ++ " " ++ digestLabel t)%string) <$> sorted_types counts.
(** The identifier is drawn by the caller; the time of creation is left zero. *)
Definition AssembleDigest (userID : uuid) (l : list DigestEntry) (id : uuid) : option Notification :=
  match l with
  | [] => None
  | e :: _ =>
      let counts := type_counts l in
      Some {| n_ID := id; n_UserID := userID; n_Type := TypeDigest;
              n_Title := "Your update: " ++ fmt_d (Z.of_nat (length l)) ++ " circle events";
              n_Body := String.concat ", " (digest_parts counts);
              n_Data := Some (default "{}"%string (summary_Marshal (Z.of_nat (length l)) (oldest_of e l) counts));
              n_IsRead := false; n_IsArchived := false; n_Channel := ChannelInApp; n_CreatedAt := 0 |}
  end.
End assemble.

(** *** The buffer: each operation holds its mutex *)
Abbreviation buckets := (gmap uuid digestBucket) (only parsing).
Definition push (e : DigestEntry) (b : digestBucket) : digestBucket :=
  {| entries := entries b ++ [e]; windowStart := windowStart b; interval := interval b |}.
Definition Enqueue (now : time) (userID : uuid) (e : DigestEntry) (every : duration) (b : buckets) : bool * buckets :=
  let e := if time_IsZero (de_QueuedAt e) then {| de_Notification := de_Notification e; de_QueuedAt := now |} else e in
  let bucket := default {| entries := []; windowStart := de_QueuedAt e; interval := every |} (b !! userID) in
  if MaxDigestBatchSize <=? Z.of_nat (length (entries bucket)) then (false, <[userID := bucket]> b)
  else (true, <[userID := push e bucket]> b).
Definition is_due (now : time) (b : digestBucket) : bool := negb (time_Sub now (windowStart b) <? interval b).
Definition TakeDue (now : time) (b : buckets) : gmap uuid (list DigestEntry) * buckets :=
  (entries <$> filter (λ x, is_due now x.2 = true) b, filter (λ x, is_due now x.2 = false) b).
Definition Pending (userID : uuid) (b : buckets) : Z :=
  match b !! userID with Some bucket => Z.of_nat (length (entries bucket)) | None => 0 end.

(** ** The tables (repository_pg.go, search.go, delivery.go)

    The types the enumeration of the database holds are a parameter of the schema;
    [enum_types] are those its migration creates. *)
Record ntables := { nt_notifications : gmap uuid Notification; nt_deliveries : list DeliveryRecord }.
Definition set_rows (f : gmap uuid Notification -> gmap uuid Notification) (t : ntables) : ntables :=
  {| nt_notifications := f (nt_notifications t); nt_deliveries := nt_deliveries t |}.
Definition add_delivery (r : DeliveryRecord) (t : ntables) : ntables :=
  {| nt_notifications := nt_notifications t; nt_deliveries := nt_deliveries t ++ [r] |}.
Abbreviation DB := (M (PgState ntables)) (only parsing).
Class NotificationSchema := { type_accepted : NotificationType -> bool }.
Definition enum_types : list NotificationType :=
  ["circle_created"; "member_joined"; "contribution_due"; "contribution_received"; "contribution_late"; "payout_received";
   "circle_completed"; "member_exited"; "dispute_raised"; "system"]%string.
Definition migrated : NotificationSchema := {| type_accepted t := bool_decide (t ∈ enum_types) |}.
Definition notification_channels : list NotificationChannel := [ChannelEmail; ChannelSMS; ChannelPush; ChannelInApp].

Section tables.
Context `{NotificationJSON, NotificationSchema, TextMatch}.
Definition insert_check (users : gmap uuid user.User) (n : Notification) (t : ntables) : option string :=
  if negb (type_accepted (n_Type n)) || bool_decide (n_Channel n ∉ notification_channels) then Some "22P02"%string
  else if match n_Data n with Some d => negb (jsonb_accepts d) | None => false end then Some "22P02"%string
  else if 200 <? char_length (n_Title n) then Some "22001"%string
  else if bool_decide (is_Some (nt_notifications t !! n_ID n)) then Some "23505"%string
  else if bool_decide (users !! n_UserID n = None) then Some "23503"%string else None.
Definition pg_Create (users : gmap uuid user.User) (n : Notification) : DB unit :=
  gwrap "creating notification: %w" (pg_insert (insert_check users n) (set_rows <[n_ID n := n]>)).
(** [Scan] into a [json.RawMessage] refuses NULL. *)
Definition scanNotification (n : Notification) : result Notification :=
  match n_Data n with Some _ => Ok n | None => Err (Wrapf "scanning notification row: %w" (External "unsupported Scan")) end.
Fixpoint scan_rows (l : list Notification) : result (list Notification) :=
  match l with
  | [] => Ok []
  | n :: l => let? n := scanNotification n in let? l := scan_rows l in Ok (n :: l)
  end.
Definition newest (a b : Notification) : Prop := n_CreatedAt b <= n_CreatedAt a.
#[export] Instance newest_dec : RelDecision newest.
Proof. intros a b. unfold newest. apply _. Defined.
Definition selected (P : Notification -> bool) (t : ntables) : list Notification :=
  merge_sort newest (filter (λ n, P n = true) (map_to_list (nt_notifications t)).*2).
Definition page_of (page : Z) : Z := if page <? 1 then 1 else page.
Definition limit_of (limit : Z) : Z := if (limit <? 1) || (100 <? limit) then 20 else limit.
Definition offset_of (page limit : Z) : Z := wrap64 (wrap64 (page_of page - 1) * limit_of limit).
(** The count, then the rows of a page. *)
Definition list_page (format : string) (check : option string) (P : Notification -> bool) (page limit : Z) : DB (list Notification * Z) :=
  let! total := gwrap "counting notifications: %w"
    (pg_exec (λ t, match check with Some code => inr code | None => inl (Z.of_nat (length (selected P t)), t) end)) in
  let! rows := gwrap format (pg_exec (λ t,
    if offset_of page limit <? 0 then inr "2201X"%string
    else inl (take (Z.to_nat (limit_of limit)) (drop (Z.to_nat (offset_of page limit)) (selected P t)), t))) in
  let! l := glift (scan_rows rows) in
  gret (l, total).
Definition of_user (userID : uuid) (n : Notification) : bool := (n_UserID n =? userID)%N.
Definition pg_List (userID : uuid) (page limit : Z) (unreadOnly : bool) : DB (list Notification * Z) :=
  list_page "listing notifications: %w" None (λ n, of_user userID n && (negb unreadOnly || negb (n_IsRead n))) page limit.
(** [strings.NewReplacer] of single bytes. *)
Fixpoint escapeLike (s : string) : string :=
  match s with
  | EmptyString => EmptyString
  | String c s =>
      if bool_decide (c ∈ ["092"; "%"; "_"]%char) then String "092" (String c (escapeLike s)) else String c (escapeLike s)
  end.
(** The clauses of [buildSearchConditions]: one for each filter that is set. *)
Definition search_clauses (f : SearchFilter) (n : Notification) : bool :=
  let q := str_TrimSpace (sf_Query f) in
  let pattern := ("%" ++ escapeLike q ++ "%")%string in
  (sf_IncludeArchived f || negb (n_IsArchived n)) && (negb (sf_UnreadOnly f) || negb (n_IsRead n)) &&
  (bool_decide (sf_Type f = ""%string) || bool_decide (n_Type n = sf_Type f)) &&
  (bool_decide (q = ""%string) || ilike (n_Title n) pattern || ilike (n_Body n) pattern).
Definition buildSearchConditions (userID : uuid) (f : SearchFilter) (n : Notification) : bool :=
  of_user userID n && search_clauses f n.
(** The type of the filter is read as one of the enumeration. *)
Definition pg_Search (userID : uuid) (f : SearchFilter) (page limit : Z) : DB (list Notification * Z) :=
  list_page "searching notifications: %w"
    (if bool_decide (sf_Type f <> ""%string) && negb (type_accepted (sf_Type f)) then Some "22P02"%string else None)
    (buildSearchConditions userID f) page limit.
Definition read (n : Notification) : Notification :=
  {| n_ID := n_ID n; n_UserID := n_UserID n; n_Type := n_Type n; n_Title := n_Title n; n_Body := n_Body n; n_Data := n_Data n;
     n_IsRead := true; n_IsArchived := n_IsArchived n; n_Channel := n_Channel n; n_CreatedAt := n_CreatedAt n |}.
Definition archive (archived : bool) (n : Notification) : Notification :=
  {| n_ID := n_ID n; n_UserID := n_UserID n; n_Type := n_Type n; n_Title := n_Title n; n_Body := n_Body n; n_Data := n_Data n;
     n_IsRead := n_IsRead n; n_IsArchived := archived; n_Channel := n_Channel n; n_CreatedAt := n_CreatedAt n |}.
Definition update_where (P : Notification -> bool) (f : Notification -> Notification) (t : ntables) : ntables :=
  set_rows (fmap (λ n, if P n then f n else n)) t.
Definition hits (P : Notification -> bool) (t : ntables) : list uuid :=
  n_ID <$> filter (λ n, P n = true) (map_to_list (nt_notifications t)).*2.
Definition pg_MarkRead (id userID : uuid) : DB unit :=
  let P n := (n_ID n =? id)%N && of_user userID n in
  let! rows := gwrap "marking notification read: %w"
    (pg_exec (λ t, inl (Z.of_nat (length (hits P t)), update_where P read t))) in
  if rows =? 0 then gfail apperrors_ErrNotFound else gret tt.
Definition pg_MarkAllRead (userID : uuid) : DB unit :=
  gwrap "marking all notifications read: %w"
    (pg_exec (λ t, inl (tt, update_where (λ n, of_user userID n && negb (n_IsRead n)) read t))).
Definition pg_BulkArchive (userID : uuid) (ids : list uuid) (archived : bool) : DB (list uuid) :=
  match ids with
  | [] => gret []
  | _ =>
      let P n := of_user userID n && bool_decide (n_ID n ∈ ids) in
      gwrap "bulk updating notifications archive status: %w"
        (pg_exec (λ t, inl (hits P t, update_where P (archive archived) t)))
  end.
Definition pg_Record (r : DeliveryRecord) : DB unit :=
  pg_insert (λ t,
    if existsb (λ d, dr_ID d =? dr_ID r)%N (nt_deliveries t) then Some "23505"%string
    else if bool_decide (nt_notifications t !! dr_NotificationID r = None) then Some "23503"%string else None)
    (add_delivery r).
End tables.

(** ** Actions *)
Inductive DeliveryChannel := EmailChannel | SMSChannel | PushChannel.
#[export] Instance DeliveryChannel_eq_dec : EqDecision DeliveryChannel.
Proof. solve_decision. Defined.
Definition Channel (c : DeliveryChannel) : NotificationChannel :=
  match c with EmailChannel => ChannelEmail | SMSChannel => ChannelSMS | PushChannel => ChannelPush end.

Inductive noteQ : Type -> Type :=
  | QCreate (n : Notification) : noteQ unit
  | QList (userID : uuid) (page limit : Z) (unreadOnly : bool) : noteQ (list Notification * Z)
  | QSearch (userID : uuid) (f : SearchFilter) (page limit : Z) : noteQ (list Notification * Z)
  | QMarkRead (id userID : uuid) : noteQ unit
  | QMarkAllRead (userID : uuid) : noteQ unit
  | QBulkArchive (userID : uuid) (ids : list uuid) (archived : bool) : noteQ (list uuid)
  | QRecord (r : DeliveryRecord) : noteQ unit.
Inductive noteE : Type -> Type :=
  | Users {X : Type} (e : user.userE X) : noteE X
  | Rows {X : Type} (q : noteQ X) : noteE X
  | BufferEnqueue (userID : uuid) (e : DigestEntry) (every : duration) : noteE bool
  | BufferTakeDue (now : time) : noteE (gmap uuid (list DigestEntry))
  | Publish (routingKey payload : string) : noteE unit
  | Broadcast (userID notificationID : string) : noteE unit
  | Send (c : DeliveryChannel) (to title body : string) : noteE unit
  | Spawn (c : DeliveryChannel) (n : Notification) : noteE unit                 (** [go func()] *)
  | Spawned : noteE (option (DeliveryChannel * Notification)).                  (** a goroutine that starts *)
Abbreviation io := (prog noteE) (only parsing).
Definition users {A} (p : prog user.userE A) : io A := plift (@Users) p.
Definition rows {X} (q : noteQ X) : io X := act (Rows q).
Definition time_Now : io time := users user.time_Now.
Definition uuid_New : io uuid := users (act user.NewUUID).

(** ** The service (service.go)

    What [NewService] was given: whether there is a publisher, a broadcaster, a lookup of
    recipients, an audit, channels, a buffer and a lookup of digest preferences. *)
Record notificationService := {
  ns_rabbitClient : bool; ns_broadcaster : bool; ns_userLookup : bool; ns_deliveryAudit : bool;
  ns_channels : list DeliveryChannel; ns_digestBuffer : bool; ns_digestPrefs : bool;
}.

Section service.
Context `{UUIDLib, NotificationJSON, NotificationRange}.
Variable s : notificationService.

(** *** The adapters of main.go *)
Definition parseUUID (id : string) : io uuid :=
  match uuid_Parse id with Some u => pret u | None => pfail (Wrapf "invalid UUID: %w" (External "uuid")) end.
Definition find_user (userID : string) : io user.User :=
  match uuid_Parse userID with
  | Some id => users (user.db (user.FindByID id))
  | None => pfail (External "uuid")
  end.
Definition FindRecipient (userID : string) : io Recipient :=
  let* u := find_user userID in
  pret {| r_Email := user.u_Email u; r_Phone := user.u_Phone u; r_PushToken := user.u_PushToken u;
          r_PreferredChannels := default [] (user.u_NotificationChannels u); r_Muted := user.u_NotificationsMuted u |}.
Definition find_preferences (userID : string) : io DigestPreferences :=
  let* u := find_user userID in
  pret {| dp_Enabled := user.u_DigestEnabled u; dp_Interval := wrap64 (user.u_DigestIntervalMinutes u * (60 * second)) |}.

(** *** Deliveries *)
Definition address (c : DeliveryChannel) (r : Recipient) : option string :=
  match c with EmailChannel => r_Email r | SMSChannel => r_Phone r | PushChannel => r_PushToken r end.
Definition Deliver (c : DeliveryChannel) (n : Notification) (r : Recipient) : io unit :=
  match address c r with
  | None | Some EmptyString =>
      pfail (Errorf match c with EmailChannel => "email channel: recipient has no email address on file"
                               | SMSChannel => "sms channel: recipient has no phone number on file"
                               | PushChannel => "push channel: recipient has no registered device token" end)
  | Some to =>
      match c with
      | SMSChannel => act (Send c to "" (n_Title n ++ ": " ++ n_Body n))
      | _ => act (Send c to (n_Title n) (n_Body n))
      end
  end.
(** [Record]: the identifier and the times are filled in. *)
Definition repo_Record (r : DeliveryRecord) : io unit :=
  let* id := if (dr_ID r =? uuid_Nil)%N then uuid_New else pret (dr_ID r) in
  let* now := time_Now in
  rows (QRecord {| dr_ID := id; dr_NotificationID := dr_NotificationID r; dr_Channel := dr_Channel r; dr_Status := dr_Status r;
                   dr_Attempts := dr_Attempts r; dr_Error := dr_Error r;
                   dr_CreatedAt := if time_IsZero (dr_CreatedAt r) then now else dr_CreatedAt r; dr_UpdatedAt := now |}).
Definition recordDelivery (r : DeliveryRecord) : io unit :=
  if ns_deliveryAudit s then pignore (repo_Record r) else pret tt.
Definition outcome (n : Notification) (status : DeliveryStatus) (attempts : Z) (err : option error) : DeliveryRecord :=
  {| dr_ID := uuid_Nil; dr_NotificationID := n_ID n; dr_Channel := n_Channel n; dr_Status := status; dr_Attempts := attempts;
     dr_Error := err; dr_CreatedAt := 0; dr_UpdatedAt := 0 |}.
Definition maxAttempts : nat := 2.
Fixpoint attempts (retries : nat) (attempt : Z) (c : DeliveryChannel) (n : Notification) (r : Recipient) : io unit :=
  ptry (Deliver c n r) (λ d,
    match d with
    | inl _ => recordDelivery (outcome n DeliverySent attempt None)
    | inr lastErr =>
        match retries with
        | O => recordDelivery (outcome n DeliveryFailed attempt (Some lastErr))
        | S retries => attempts retries (attempt + 1) c n r
        end
    end).
(** The body of the goroutine. *)
Definition deliver (c : DeliveryChannel) (n : Notification) : io unit :=
  ptry (FindRecipient (uuid_String (n_UserID n))) (λ r,
    match r with
    | inr err => recordDelivery (outcome n DeliveryFailed 1 (Some err))
    | inl recipient =>
        if allows recipient (n_Channel n) then attempts (pred maxAttempts) 1 c n recipient
        else recordDelivery (outcome n DeliverySkipped 0 None)
    end).
Definition goroutine : io unit :=
  let* job := act Spawned in
  match job with Some (c, n) => deliver c n | None => pret tt end.
Definition dispatchDelivery (n : Notification) : io unit :=
  if bool_decide (n_Channel n = ChannelInApp) || bool_decide (n_Channel n = ""%string) then pret tt
  else if negb (ns_userLookup s) then pret tt
  else match find (λ c, bool_decide (Channel c = n_Channel n)) (ns_channels s) with
       | Some c => act (Spawn c n)
       | None => pret tt
       end.
Definition broadcast_to (userID : string) (n : Notification) : io unit :=
  if ns_broadcaster s then act (Broadcast userID (uuid_String (n_ID n))) else pret tt.
(** The last part of [Create], and [broadcast], which differ in the text of the user's
    identifier they announce and in the channel they name, which is the same. *)
Definition announce (userID : string) (n : Notification) : io unit :=
  match (if ns_rabbitClient s then notification_Marshal n else None) with
  | Some payload =>
      ptry (act (Publish ("notification." ++ n_Channel n) payload)) (λ r,
        match r with inl _ => pret tt | inr _ => broadcast_to userID n end)
  | None => broadcast_to userID n
  end.
Definition broadcast (n : Notification) : io unit := announce (uuid_String (n_UserID n)) n.

(** *** Creation *)
Definition shouldDigest (n : Notification) (now : time) : io bool :=
  if negb (ns_digestBuffer s && ns_digestPrefs s) then pret false
  else if IsUrgent (n_Type n) (n_Data n) now then pret false
  else ptry (find_preferences (uuid_String (n_UserID n))) (λ r,
    match r with
    | inl prefs =>
        if dp_Enabled prefs
        then act (BufferEnqueue (n_UserID n) {| de_Notification := n; de_QueuedAt := now |} (dp_Interval (Normalize prefs)))
        else pret false
    | inr _ => pret false
    end).
Definition new_notification (id userID : uuid) (input : CreateInput) (now : time) : Notification :=
  {| n_ID := id; n_UserID := userID; n_Type := ci_Type input; n_Title := ci_Title input; n_Body := ci_Body input;
     n_Data := ci_Data input; n_IsRead := false; n_IsArchived := false; n_Channel := ci_Channel input; n_CreatedAt := now |}.
Definition Create (input : CreateInput) : io Notification :=
  let* userID := parseUUID (ci_UserID input) in
  let* now := time_Now in
  let* id := uuid_New in
  let n := new_notification id userID input now in
  let* batched := shouldDigest n now in
  if batched : bool then pret n
  else
    do* pwrap "creating notification: %w" (rows (QCreate n)) in
    do* dispatchDelivery n in
    do* announce (ci_UserID input) n in
    pret n.

(** *** The digests that are due: how many were delivered, and the first error *)
Fixpoint flush (due : list (uuid * list DigestEntry)) (delivered : Z) (firstErr : option error) : io (Z * option error) :=
  match due with
  | [] => pret (delivered, firstErr)
  | (userID, l) :: due =>
      if bool_decide (l = []) then flush due delivered firstErr
      else
        let* id := uuid_New in
        match AssembleDigest userID l id with
        | None => flush due delivered firstErr
        | Some digest =>
            ptry (rows (QCreate digest)) (λ r,
              match r with
              | inr err => flush due delivered (match firstErr with None => Some err | _ => firstErr end)
              | inl _ =>
                  do* dispatchDelivery digest in
                  do* broadcast digest in
                  flush due (wrap64 (delivered + 1)) firstErr
              end)
        end
  end.
Definition FlushDueDigests (now : time) : io (Z * option error) :=
  if negb (ns_digestBuffer s) then pret (0, None)
  else let* due := act (BufferTakeDue now) in flush (range_due due) 0 None.
(** A tick of the flusher. *)
Definition tick : io unit := let* now := time_Now in let* _ := FlushDueDigests now in pret tt.

(** *** What a user reads and marks *)
Definition MaxSearchQueryLength : Z := 100.
Definition List (userID : string) (page limit : Z) (unreadOnly : bool) : io (list Notification * Z) :=
  let* uid := parseUUID userID in
  pwrap "listing notifications: %w" (rows (QList uid page limit unreadOnly)).
Definition Search (userID : string) (f : SearchFilter) (page limit : Z) : io (list Notification * Z) :=
  let* uid := parseUUID userID in
  do* pguard (MaxSearchQueryLength <? Z.of_nat (String.length (sf_Query f))) (Errorf "search query must be at most %d characters") in
  pwrap "searching notifications: %w" (rows (QSearch uid f page limit)).
Definition MarkRead (id userID : string) : io unit :=
  let* nid := parseUUID id in
  let* uid := parseUUID userID in
  pwrap "marking notification read: %w" (rows (QMarkRead nid uid)).
Definition MarkAllRead (userID : string) : io unit :=
  let* uid := parseUUID userID in
  pwrap "marking all notifications read: %w" (rows (QMarkAllRead uid)).
Fixpoint parse_all (ids : list string) : io (list uuid) :=
  match ids with
  | [] => pret []
  | id :: ids =>
      let* u := pwrap "invalid notification id %s: %w" (parseUUID id) in
      let* us := parse_all ids in pret (u :: us)
  end.
Definition BulkArchive (userID : string) (ids : list string) (archived : bool) : io (list string) :=
  let* uid := parseUUID userID in
  do* pguard (bool_decide (ids = [])) (Errorf "at least one notification ID is required") in
  do* pguard (100 <? Z.of_nat (length ids)) (Errorf "cannot process more than 100 notifications at once") in
  let* parsed := parse_all ids in
  let* updated := pwrap "bulk archiving notifications: %w" (rows (QBulkArchive uid parsed archived)) in
  pret (uuid_String <$> updated).

(** *** The consumer of the queue (consumer.go): what it makes of one body *)
Definition consume (body : string) : io unit :=
  match notification_Unmarshal body with
  | None => pfail (Wrapf "decoding notification event: %w" (External "json"))
  | Some n => broadcast_to (uuid_String (n_UserID n)) n
  end.

(** ** The handlers (notification_handler.go) *)
Inductive reply :=
  | OKPage (l : list Notification) (page limit total : Z) | OKSuccess | OKUpdated (n : Z) (ids : list string)
  | OKPreferences (channels : option (list string)) (muted digest : bool) (minutes minMinutes maxMinutes : Z)
  | BadRequest (message : string) | BadRequestError (e : error) | Unauthorized | InternalError (message : string).
Definition ListNotifications (userID : string) (unread : string) (page page_size limit : option string) : io reply :=
  let '(page, limit, _) := webhook.pagination_Parse page page_size limit in
  ptry (List userID page limit (bool_decide (unread = "true"%string))) (λ r,
    pret match r with inl (l, total) => OKPage l page limit total | inr _ => InternalError "failed to list notifications" end).
Definition SearchNotifications (userID q type unread archived : string) (page page_size limit : option string) : io reply :=
  let filter := {| sf_Query := str_TrimSpace q; sf_Type := type; sf_UnreadOnly := bool_decide (unread = "true"%string);
                   sf_IncludeArchived := bool_decide (archived = "true"%string) |} in
  if MaxSearchQueryLength <? Z.of_nat (String.length (sf_Query filter)) then pret (BadRequest "search query is too long")
  else
    let '(page, limit, _) := webhook.pagination_Parse page page_size limit in
    ptry (Search userID filter page limit) (λ r,
      pret match r with inl (l, total) => OKPage l page limit total | inr _ => InternalError "failed to search notifications" end).
Definition handler_MarkRead (id userID : string) : io reply :=
  ptry (MarkRead id userID) (λ r, pret match r with inl _ => OKSuccess | inr _ => InternalError "failed to mark notification as read" end).
Definition handler_MarkAllRead (userID : string) : io reply :=
  ptry (MarkAllRead userID) (λ r,
    pret match r with inl _ => OKSuccess | inr _ => InternalError "failed to mark all notifications as read" end).
Definition UpdatePreferences (userID : string) (prefs : user.NotificationPrefsInput) : io reply :=
  ptry (users (user.UpdateNotificationPreferences userID prefs)) (λ r,
    pret match r with
         | inl u => OKPreferences (user.u_NotificationChannels u) (user.u_NotificationsMuted u) (user.u_DigestEnabled u)
                      (user.u_DigestIntervalMinutes u) user.NotificationDigestCadenceBounds.1 user.NotificationDigestCadenceBounds.2
         | inr err => BadRequestError err
         end).
(** [BulkArchive] and [BulkUnarchive]; [None] is a body without the list. *)
Definition handler_BulkArchive (archived : bool) (userID : string) (ids : option (list string)) : io reply :=
  if bool_decide (userID = ""%string) then pret Unauthorized
  else match ids with
       | None => pret (BadRequest "binding")
       | Some ids =>
           ptry (BulkArchive userID ids archived) (λ r,
             pret match r with inl updated => OKUpdated (Z.of_nat (length updated)) updated | inr err => BadRequestError err end)
       end.
End service.

(** ** The world

    [nw_accepted] and [nw_taken] are what the buffer accepted and gave back so far,
    [nw_published], [nw_broadcasts] and [nw_sent] what left the program. *)
Record nworld := {
  nw_users : user.uworld; nw_db : PgState ntables; nw_buffer : gmap uuid digestBucket;
  nw_accepted : list (uuid * DigestEntry); nw_taken : list (uuid * list DigestEntry);
  nw_broker : list (option error); nw_published : list (string * string); nw_broadcasts : list (string * string);
  nw_network : list (option error); nw_sent : list (DeliveryChannel * string * string * string);
  nw_spawned : list (DeliveryChannel * Notification);
}.
Definition set_nw_users u w := {| nw_users := u; nw_db := nw_db w; nw_buffer := nw_buffer w; nw_accepted := nw_accepted w;
  nw_taken := nw_taken w; nw_broker := nw_broker w; nw_published := nw_published w; nw_broadcasts := nw_broadcasts w;
  nw_network := nw_network w; nw_sent := nw_sent w; nw_spawned := nw_spawned w |}.
Definition set_nw_db d w := {| nw_users := nw_users w; nw_db := d; nw_buffer := nw_buffer w; nw_accepted := nw_accepted w;
  nw_taken := nw_taken w; nw_broker := nw_broker w; nw_published := nw_published w; nw_broadcasts := nw_broadcasts w;
  nw_network := nw_network w; nw_sent := nw_sent w; nw_spawned := nw_spawned w |}.
Definition set_nw_buffer b acc taken w := {| nw_users := nw_users w; nw_db := nw_db w; nw_buffer := b; nw_accepted := acc;
  nw_taken := taken; nw_broker := nw_broker w; nw_published := nw_published w; nw_broadcasts := nw_broadcasts w;
  nw_network := nw_network w; nw_sent := nw_sent w; nw_spawned := nw_spawned w |}.
Definition set_nw_broker br pub w := {| nw_users := nw_users w; nw_db := nw_db w; nw_buffer := nw_buffer w; nw_accepted := nw_accepted w;
  nw_taken := nw_taken w; nw_broker := br; nw_published := pub; nw_broadcasts := nw_broadcasts w;
  nw_network := nw_network w; nw_sent := nw_sent w; nw_spawned := nw_spawned w |}.
Definition set_nw_broadcasts b w := {| nw_users := nw_users w; nw_db := nw_db w; nw_buffer := nw_buffer w; nw_accepted := nw_accepted w;
  nw_taken := nw_taken w; nw_broker := nw_broker w; nw_published := nw_published w; nw_broadcasts := b;
  nw_network := nw_network w; nw_sent := nw_sent w; nw_spawned := nw_spawned w |}.
Definition set_nw_sent net sent w := {| nw_users := nw_users w; nw_db := nw_db w; nw_buffer := nw_buffer w; nw_accepted := nw_accepted w;
  nw_taken := nw_taken w; nw_broker := nw_broker w; nw_published := nw_published w; nw_broadcasts := nw_broadcasts w;
  nw_network := net; nw_sent := sent; nw_spawned := nw_spawned w |}.
Definition set_nw_spawned sp w := {| nw_users := nw_users w; nw_db := nw_db w; nw_buffer := nw_buffer w; nw_accepted := nw_accepted w;
  nw_taken := nw_taken w; nw_broker := nw_broker w; nw_published := nw_published w; nw_broadcasts := nw_broadcasts w;
  nw_network := nw_network w; nw_sent := nw_sent w; nw_spawned := sp |}.

Section perform.
Context `{NotificationJSON, NotificationSchema, TextMatch, !user.HashLib}.
Definition user_rows (w : nworld) : gmap uuid user.User := user.ut_users (pg_tables (user.uw_db (nw_users w))).
Definition run_query {X} (us : gmap uuid user.User) (q : noteQ X) : DB X :=
  match q in noteQ X return DB X with
  | QCreate n => pg_Create us n
  | QList u p l unread => pg_List u p l unread
  | QSearch u f p l => pg_Search u f p l
  | QMarkRead id u => pg_MarkRead id u
  | QMarkAllRead u => pg_MarkAllRead u
  | QBulkArchive u ids a => pg_BulkArchive u ids a
  | QRecord r => pg_Record r
  end.
Definition perform_note (X : Type) (e : noteE X) : M nworld X :=
  match e in noteE X return M nworld X with
  | Users e => λ w, let '(r, u) := user.perform_user _ e (nw_users w) in (r, set_nw_users u w)
  | Rows q => λ w, let '(r, d) := run_query (user_rows w) q (nw_db w) in (r, set_nw_db d w)
  | BufferEnqueue userID e every => λ w,
      let '(ok, b) := Enqueue (user.uw_now (nw_users w)) userID e every (nw_buffer w) in
      (Ok ok, set_nw_buffer b (if ok then nw_accepted w ++ [(userID, e)] else nw_accepted w) (nw_taken w) w)
  | BufferTakeDue now => λ w,
      let '(due, b) := TakeDue now (nw_buffer w) in
      (Ok due, set_nw_buffer b (nw_accepted w) (nw_taken w ++ map_to_list due) w)
  | Publish key payload => λ w,
      match nw_broker w with
      | Some err :: rest => (Err err, set_nw_broker rest (nw_published w) w)
      | rest => (Ok tt, set_nw_broker (tail rest) (nw_published w ++ [(key, payload)]) w)
      end
  | Broadcast userID nid => λ w, (Ok tt, set_nw_broadcasts (nw_broadcasts w ++ [(userID, nid)]) w)
  | Send c to title body => λ w,
      match nw_network w with
      | Some err :: rest => (Err err, set_nw_sent rest (nw_sent w ++ [(c, to, title, body)]) w)
      | rest => (Ok tt, set_nw_sent (tail rest) (nw_sent w ++ [(c, to, title, body)]) w)
      end
  | Spawn c n => λ w, (Ok tt, set_nw_spawned (nw_spawned w ++ [(c, n)]) w)
  | Spawned => λ w,
      match nw_spawned w with
      | [] => (Ok None, w)
      | j :: rest => (Ok (Some j), set_nw_spawned rest w)
      end
  end.
End perform.
End notification.
