(* ===== verification/NotificationProps.v ===== *)
(** What the notifications guarantee: the outcome of a creation and of a delivery, what
    becomes of a buffered notification, the counts and the order of a digest; and what no
    run of the program does over the tables as they are migrated. *)
From S2P Require Export Notification UserProps.
From stdpp Require Import options.
From Stdlib Require Import Ascii.
#[local] Set Default Proof Using "Type*".
#[local] Set Warnings "-clear-no-such-hyp".
Open Scope Z_scope.
Local Open Scope go_scope.

Module notificationprops.
Import userprops notification.

(** ** Digests *)
Definition type_of (e : DigestEntry) : NotificationType := n_Type (de_Notification e).
Definition occurrences (t : NotificationType) (l : list DigestEntry) : Z := Z.of_nat (length (filter (λ e, type_of e = t) l)).
Lemma count_type_same c e : count_of (count_type c e) (type_of e) = count_of c (type_of e) + 1.
Proof. unfold count_of at 1, count_type. by rewrite lookup_insert_eq. Qed.
Lemma count_type_other c e t : type_of e <> t -> count_of (count_type c e) t = count_of c t.
Proof. intros Ht. unfold count_of at 1, count_type. by rewrite lookup_insert_ne. Qed.
Lemma counts_from c l t : count_of (foldl count_type c l) t = count_of c t + occurrences t l.
Proof.
  revert c. induction l as [|e l IH]; intros c; cbn [foldl]; [unfold occurrences; cbn; lia|]. rewrite IH. unfold occurrences.
  rewrite filter_cons. case_decide as Ht; [subst t; rewrite count_type_same; cbn [length]; lia|by rewrite count_type_other].
Qed.
Lemma type_counts_exact l t : count_of (type_counts l) t = occurrences t l.
Proof. unfold type_counts. rewrite counts_from. unfold count_of. by rewrite lookup_empty. Qed.
Lemma counted_from c l t : is_Some (foldl count_type c l !! t) <-> is_Some (c !! t) \/ t ∈ type_of <$> l.
Proof.
  revert c. induction l as [|e l IH]; intros c; cbn [foldl fmap list_fmap]; [set_solver|].
  rewrite IH, elem_of_cons. unfold count_type at 1. fold (type_of e). destruct (decide (type_of e = t)) as [<-|Hne].
  - rewrite lookup_insert_eq. naive_solver.
  - rewrite lookup_insert_ne by done. naive_solver.
Qed.
Lemma type_counted l t : is_Some (type_counts l !! t) <-> t ∈ type_of <$> l.
Proof. unfold type_counts. rewrite counted_from, lookup_empty. split; [intros [[? ?]|?]; done|by right]. Qed.

Fixpoint total (counts : gmap NotificationType Z) (ts : list NotificationType) : Z :=
  match ts with [] => 0 | t :: ts => count_of counts t + total counts ts end.
Lemma total_perm c ts ts' : ts ≡ₚ ts' -> total c ts = total c ts'.
Proof. induction 1; cbn [total]; lia. Qed.
Lemma total_count_type c e ts : NoDup ts -> total (count_type c e) ts = total c ts + (if decide (type_of e ∈ ts) then 1 else 0).
Proof.
  induction 1 as [|t ts Hn Hd IH]; cbn [total]; [by destruct (decide _) as [Hin%not_elem_of_nil|]|]. rewrite IH.
  destruct (decide (type_of e = t)) as [<-|Hne].
  - rewrite count_type_same, (decide_False (P := type_of e ∈ ts)), decide_True by (done || by left). lia.
  - rewrite count_type_other by done. rewrite (decide_ext (type_of e ∈ ts) (type_of e ∈ t :: ts)); [lia|]. rewrite elem_of_cons. naive_solver.
Qed.
Lemma total_counts c l ts : NoDup ts -> (forall e, e ∈ l -> type_of e ∈ ts) -> total (foldl count_type c l) ts = total c ts + Z.of_nat (length l).
Proof.
  intros Hd. revert c. induction l as [|e l IH]; intros c Hin; cbn [foldl length]; [lia|].
  rewrite IH by (intros; apply Hin; by right). rewrite total_count_type, decide_True by (done || (apply Hin; by left)). lia.
Qed.

Lemma not_less_total c : Total (not_less c).
Proof.
  intros a b. unfold not_less. destruct (Z.lt_trichotomy (count_of c b) (count_of c a)) as [H|[H|H]]; [by left; left| |by right; left].
  destruct (String.ltb (digestLabel b) (digestLabel a)) eqn:Eb; [|left; by right]. right; right. split; [done|].
  destruct (String.ltb (digestLabel a) (digestLabel b)) eqn:Ea; [|done]. exfalso. unfold String.ltb in *.
  rewrite String.compare_antisym in Ea. by destruct (String.compare (digestLabel b) (digestLabel a)).
Qed.
Lemma oldest_from x l : let o := foldl (λ oldest e, if time_Before (de_QueuedAt e) oldest then de_QueuedAt e else oldest) x l in
  o <= x /\ (forall e, e ∈ l -> o <= de_QueuedAt e) /\ (o = x \/ exists e, e ∈ l /\ o = de_QueuedAt e).
Proof.
  revert x. induction l as [|e l IH]; intros x; cbn [foldl]; [split; [lia|]; split; [by intros ? ?%not_elem_of_nil|by left]|].
  set (x' := if time_Before _ _ then _ else _). destruct (IH x') as (H1 & H2 & H3).
  assert (x' <= x /\ x' <= de_QueuedAt e /\ (x' = x \/ x' = de_QueuedAt e)) as (Hx & He & Hor).
  { unfold x', time_Before. destruct (Z.ltb_spec (de_QueuedAt e) x); split_and!; try lia; auto. }
  split; [lia|]. split.
  - intros e' [->|Hin]%elem_of_cons; [lia|by apply H2].
  - destruct H3 as [H3|(e' & Hin & H3)]; [|right; exists e'; split; [by right|done]].
    rewrite H3. destruct Hor as [->| ->]; [by left|right; exists e; split; [by left|done]].
Qed.

Section digest.
Context {NJ : NotificationJSON} {NR : NotificationRange}.
(** A digest counts every notification it stands for once: the types in its body are
    those of the notifications, each with the number of its notifications, the larger
    numbers first, and together they are all of them; the start of its window is the time
    at which the first of them was queued. *)
Theorem digest_counts userID l id d : AssembleDigest userID l id = Some d ->
  exists types oldest,
    types = sorted_types (type_counts l) /\ NoDup types /\ (forall t, t ∈ types <-> t ∈ type_of <$> l) /\
    StronglySorted (λ a b, occurrences b l <= occurrences a l) types /\
    total (type_counts l) types = Z.of_nat (length l) /\
    n_Body d = String.concat ", " ((λ t, (fmt_d (occurrences t l) ++ " " ++ digestLabel t)%string) <$> types) /\
    (forall e, e ∈ l -> oldest <= de_QueuedAt e) /\ oldest ∈ de_QueuedAt <$> l /\
    n_Data d = Some (default "{}"%string (summary_Marshal (Z.of_nat (length l)) oldest (type_counts l))).
Proof.
  destruct l as [|e l]; [done|]. set (L := e :: l). intros [= <-]. exists (sorted_types (type_counts L)), (oldest_of e L).
  split; [done|]. pose proof (merge_sort_Permutation (not_less (type_counts L)) (range_counts (type_counts L))) as Hp.
  fold (sorted_types (type_counts L)) in Hp. rewrite (range_counts_perm (type_counts L)) in Hp.
  assert (NoDup (sorted_types (type_counts L))) as Hd by (rewrite Hp; apply NoDup_fst_map_to_list).
  assert (forall t, t ∈ sorted_types (type_counts L) <-> t ∈ type_of <$> L) as Hin.
  { intros t. rewrite Hp, <-type_counted, list_elem_of_fmap. split.
    - intros ((t' & c) & -> & Hc%elem_of_map_to_list). by exists c.
    - intros [c Hc]. exists (t, c). split; [done|]. by apply elem_of_map_to_list. }
  split; [done|]. split; [done|]. split.
  { pose proof (not_less_total (type_counts L)) as Ht. pose proof (Sorted_merge_sort (not_less (type_counts L)) (range_counts (type_counts L))) as Hs.
    fold (sorted_types (type_counts L)) in Hs. clear Hp Hd Hin.
    assert (Sorted (λ a b, occurrences b L <= occurrences a L) (sorted_types (type_counts L))) as Hs'.
    { induction Hs as [|x xs Hs IH Hx]; constructor; [done|]. destruct Hx as [|y ys Hx]; constructor. unfold not_less in Hx.
      rewrite !type_counts_exact in Hx. lia. }
    apply Sorted_StronglySorted; [intros a b c; lia|done]. }
  split.
  { unfold type_counts at 1. rewrite total_counts; [|done|].
    - assert (forall ts, total ∅ ts = 0) as ->; [|done]. intros ts. induction ts as [|t ts IH]; [done|]. cbn [total]. rewrite IH.
      unfold count_of. by rewrite lookup_empty.
    - intros e' He. apply Hin, list_elem_of_fmap. by exists e'. }
  split.
  { cbn [n_Body]. unfold digest_parts. f_equal. apply list_fmap_ext. intros i t _. by rewrite type_counts_exact. }
  destruct (oldest_from (de_QueuedAt e) L) as (Ho & Hall & Hex). fold (oldest_of e L) in *. split; [done|]. split; [|done].
  destruct Hex as [->|(e' & He & ->)]; [by left|]. apply list_elem_of_fmap. by exists e'.
Qed.
End digest.

(** ** Runs *)
Section runs.
Context {UL : UUIDLib} {HL : user.HashLib} {TM : TextMatch} {NJ : NotificationJSON} {NR : NotificationRange} {NS : NotificationSchema}.
Abbreviation run := (Threads.run perform_note).
Definition rows_of (w : nworld) : gmap uuid Notification := nt_notifications (pg_tables (nw_db w)).
Definition user_tables (w : nworld) : user.utables := pg_tables (user.uw_db (nw_users w)).
Definition announced (w : nworld) : nat := length (nw_published w) + length (nw_broadcasts w).

Lemma run_users {A} (p : prog user.userE A) w :
  run (users p) w = let '(r, u) := Threads.run user.perform_user p (nw_users w) in (r, set_nw_users u w).
Proof.
  unfold users. revert w. induction p as [r|X e k IH]; intros w; [by destruct w|]. cbn.
  destruct (user.perform_user X e (nw_users w)) as [r u]. rewrite IH. cbn. by destruct (Threads.run _ _ u).
Qed.
(** What only the calls to the users change: their database connection. *)
Definition aside (w w' : nworld) : Prop :=
  exists u, w' = set_nw_users u w /\ pg_tables (user.uw_db u) = user_tables w /\ user.uw_now u = user.uw_now (nw_users w).
#[local] Instance aside_preorder : PreOrder aside.
Proof.
  split; [intros w; exists (nw_users w); by destruct w|]. intros w1 w2 w3 (u & -> & H1 & H2) (v & -> & H3 & H4). exists v.
  split; [done|]. unfold user_tables in *. cbn in *. split; congruence.
Qed.
Lemma wp_note_now w (Q : result time -> nworld -> Prop) : Q (Ok (user.uw_now (nw_users w))) w -> wp (run time_Now) w Q.
Proof. intros HQ. apply wp_of_run. unfold time_Now. intros r w'. rewrite run_users. cbn. intros [= <- <-]. by destruct w. Qed.
Lemma wp_uuid w (Q : result uuid -> nworld -> Prop) :
  (forall id w', aside w w' -> Q (Ok id) w') -> (user.uw_uuids (nw_users w) = [] -> Q Panic w) -> wp (run uuid_New) w Q.
Proof.
  intros Hok Hp. apply wp_of_run. intros r w'. unfold uuid_New. rewrite run_users. cbn.
  destruct (user.uw_uuids (nw_users w)) eqn:E; intros [= <- <-]; [|apply Hok; by eexists].
  replace (set_nw_users (nw_users w) w) with w by (by destruct w). by apply Hp.
Qed.
Lemma wp_find_user id w (Q : result user.User -> nworld -> Prop) :
  (forall u w', aside w w' -> (exists uid, uuid_Parse id = Some uid /\ user.by_id uid (user_tables w) = Some u) -> Q (Ok u) w') ->
  (forall e w', aside w w' -> Q (Err e) w') -> wp (run (find_user id)) w Q.
Proof.
  intros Hok He. apply wp_of_run. intros r w'. unfold find_user. destruct (uuid_Parse id) as [uid|] eqn:Eu.
  2: { cbn. intros [= <- <-]. by apply He. }
  rewrite run_users. cbn. destruct (user.pg_FindByID uid (user.uw_db (nw_users w))) as [r1 s1] eqn:E. intros [= <- <-].
  assert (aside w (set_nw_users (user.set_udb s1 (nw_users w)) w)) as Ha.
  { eexists. split; [done|]. apply scan_ok in E as [E _]. by split. }
  destruct r1 as [u|e|]; [|by apply He|].
  - apply Hok; [done|]. exists uid. split; [done|]. by apply scan_ok in E as [_ E].
  - exfalso. revert E. unfold user.pg_FindByID, user.scanUser, gtry, pg_row, gbind, pg_select. destruct (pg_exec _ _) as [r s] eqn:Ee.
    apply pg_exec_cases in Ee as [(a & t & _ & -> & _)|[(c & _ & -> & _)|(c & _ & -> & _)]]; [destruct a|..];
      cbv [gret gfail]; repeat case_match; by intros.
Qed.

(** *** Announcements *)
Variable s : notificationService.
Definition told (w w' : nworld) : Prop :=
  exists br pub bc, w' = set_nw_broadcasts bc (set_nw_broker br pub w) /\ announced w' = S (announced w).
Lemma wp_announce userID n w (Q : result unit -> nworld -> Prop) : ns_broadcaster s = true ->
  (forall w', told w w' -> Q (Ok tt) w') -> wp (run (announce s userID n)) w Q.
Proof.
  intros Hb HQ. unfold announce, broadcast_to. rewrite Hb. destruct (if ns_rabbitClient s then _ else _) as [payload|].
  - apply wp_ptry, wp_act, wp_of_run. intros r w' E. cbn in E. destruct (nw_broker w) as [|[err|] rest] eqn:Ebr; injection E as <- <-.
    + apply wp_of_run. intros r w' [= <- <-]. apply HQ. do 3 eexists. split; [reflexivity|]. unfold announced. cbn. rewrite length_app. cbn. lia.
    + apply wp_act, wp_of_run. intros r w' [= <- <-]. apply HQ. do 3 eexists. split; [done|]. unfold announced. cbn. rewrite length_app. cbn. lia.
    + apply wp_of_run. intros r w' [= <- <-]. apply HQ. do 3 eexists. split; [reflexivity|]. unfold announced. cbn. rewrite length_app. cbn. lia.
  - apply wp_act, wp_of_run. intros r w' [= <- <-]. apply HQ. exists (nw_broker w), (nw_published w). eexists. split; [reflexivity|].
    unfold announced. cbn. rewrite length_app. cbn. lia.
Qed.

(** *** Creation *)
(** The delivery a notification starts. *)
Definition job (n : Notification) : list (DeliveryChannel * Notification) :=
  if bool_decide (n_Channel n = ChannelInApp) || bool_decide (n_Channel n = ""%string) || negb (ns_userLookup s) then []
  else match find (λ c, bool_decide (Channel c = n_Channel n)) (ns_channels s) with Some c => [(c, n)] | None => [] end.
Lemma wp_dispatch n w (Q : result unit -> nworld -> Prop) :
  Q (Ok tt) (set_nw_spawned (nw_spawned w ++ job n) w) -> wp (run (dispatchDelivery s n)) w Q.
Proof.
  assert (set_nw_spawned (nw_spawned w ++ []) w = w) as Hw by (rewrite app_nil_r; by destruct w).
  assert (Q (Ok tt) (set_nw_spawned (nw_spawned w ++ []) w) -> wp (run (pret tt)) w Q) as Hnone.
  { rewrite Hw. intros HQ. apply wp_of_run. by intros r w' [= <- <-]. }
  unfold dispatchDelivery, job. destruct (bool_decide (n_Channel n = ChannelInApp) || bool_decide (n_Channel n = ""%string)); cbn [orb]; [exact Hnone|].
  destruct (negb _); [exact Hnone|]. destruct (find _ _); [|exact Hnone].
  intros HQ. apply wp_act, wp_of_run. by intros r w' [= <- <-].
Qed.
Lemma wp_create_row n w (Q : result unit -> nworld -> Prop) :
  (forall w', w' = set_nw_db (nw_db w') w -> insert_check (user_rows w) n (pg_tables (nw_db w)) = None ->
     pg_tables (nw_db w') = set_rows <[n_ID n := n]> (pg_tables (nw_db w)) -> Q (Ok tt) w') ->
  (forall e w', w' = set_nw_db (nw_db w') w -> pg_tables (nw_db w') = pg_tables (nw_db w) -> Q (Err e) w') ->
  wp (run (rows (QCreate n))) w Q.
Proof.
  intros Hok He. apply wp_act, wp_of_run. intros r w' E. cbn in E.
  destruct (pg_Create (user_rows w) n (nw_db w)) as [r1 d] eqn:Ed. injection E as <- <-.
  refine (wp_run (pg_Create (user_rows w) n) (nw_db w) (λ r d, Q r (set_nw_db d w)) _ _ _ Ed). unfold pg_Create.
  apply wp_wrap, wp_pg_insert; cbn.
  - intros d' Hc Hd. by apply Hok.
  - intros code d' Hd. by apply He.
Qed.

Lemma insert_fresh us n t : insert_check us n t = None -> nt_notifications t !! n_ID n = None.
Proof.
  unfold insert_check. destruct (_ || _); [done|]. destruct (match n_Data n with Some _ => _ | None => _ end); [done|].
  destruct (_ <? _); [done|]. case_bool_decide as Hn; [done|]. intros _. by apply eq_None_not_Some.
Qed.
Lemma enqueue_refused now uid e every b b' : Enqueue now uid e every b = (false, b') -> b' = b.
Proof.
  unfold Enqueue. set (e' := if time_IsZero _ then _ else _). destruct (b !! uid) as [k|] eqn:E; cbn [default].
  - change (from_option id _ (Some k)) with k. destruct (_ <=? _); [|done]. intros [= <-]. by apply insert_id.
  - cbn. done.
Qed.
Lemma enqueue_accepted now uid e every b b' : Enqueue now uid e every b = (true, b') -> Pending uid b < MaxDigestBatchSize.
Proof.
  unfold Enqueue, Pending. set (e' := if time_IsZero _ then _ else _). destruct (b !! uid) as [k|] eqn:E; [|done].
  change (from_option id _ (Some k)) with k. destruct (Z.leb_spec MaxDigestBatchSize (Z.of_nat (length (entries k)))); [done|lia].
Qed.
(** What the decision to hold a notification leaves. *)
Definition held (n : Notification) (now : time) (w w' : nworld) : Prop :=
  exists w1 b, aside w w1 /\ w' = set_nw_buffer b (nw_accepted w ++ [(n_UserID n, {| de_Notification := n; de_QueuedAt := now |})]) (nw_taken w) w1 /\
    Pending (n_UserID n) (nw_buffer w) < MaxDigestBatchSize /\ IsUrgent (n_Type n) (n_Data n) now = false /\
    exists u uid, uuid_Parse (uuid_String (n_UserID n)) = Some uid /\ user.by_id uid (user_tables w) = Some u /\ user.u_DigestEnabled u = true.
Lemma wp_should n now w (Q : result bool -> nworld -> Prop) :
  (forall w', held n now w w' -> Q (Ok true) w') -> (forall w', aside w w' -> Q (Ok false) w') ->
  wp (run (shouldDigest s n now)) w Q.
Proof.
  intros Ht Hf. unfold shouldDigest.
  assert (Q (Ok false) w) as Hsame by (apply Hf; reflexivity).
  destruct (negb _); [exact Hsame|]. destruct (IsUrgent _ _ _) eqn:Eu; [exact Hsame|].
  apply wp_ptry. unfold find_preferences. apply wp_pbind, wp_find_user; [|intros e w' Ha; by apply Hf].
  intros u w1 Ha (uid & Hp & Hu). cbn [pbind pret dp_Enabled]. destruct (user.u_DigestEnabled u) eqn:Ed; [|by apply Hf].
  apply wp_act, wp_of_run. intros r w2 E. cbn [perform_note] in E.
  match type of E with context [Enqueue ?a ?b ?c ?d ?e] => destruct (Enqueue a b c d e) as [[] b'] eqn:Eq end; injection E as <- <-.
  - apply Ht. exists w1, b'. split; [done|]. destruct Ha as (v & -> & _). cbn in *. split; [done|]. split; [by eapply enqueue_accepted|].
    split; [done|]. by exists u, uid.
  - apply enqueue_refused in Eq as ->. apply Hf. etrans; [exact Ha|]. exists (nw_users w1). by destruct w1.
Qed.

(** C28: Whatever the faults: a creation that fails has stored, held, started and announced
    nothing.  One that succeeds did exactly one of two things.  It held the notification
    for a digest, which needs a user with digests, a notification that is not urgent and a
    buffer with room; or it stored the notification as a new row, announced it once and
    started the one delivery its channel asks for. *)
Theorem creation_outcome input w r w' : ns_broadcaster s = true -> run (Create s input) w = (r, w') ->
  let now := user.uw_now (nw_users w) in
  match r with
  | Ok n =>
      exists uid, uuid_Parse (ci_UserID input) = Some uid /\ n = new_notification (n_ID n) uid input now /\ nw_taken w' = nw_taken w /\
      ((rows_of w' = rows_of w /\ announced w' = announced w /\ nw_spawned w' = nw_spawned w /\
        nw_accepted w' = nw_accepted w ++ [(uid, {| de_Notification := n; de_QueuedAt := now |})] /\
        Pending uid (nw_buffer w) < MaxDigestBatchSize /\ IsUrgent (n_Type n) (n_Data n) now = false /\
        exists u i, uuid_Parse (uuid_String uid) = Some i /\ user.by_id i (user_tables w) = Some u /\ user.u_DigestEnabled u = true) \/
       (rows_of w !! n_ID n = None /\ rows_of w' = <[n_ID n := n]> (rows_of w) /\ announced w' = S (announced w) /\
        nw_spawned w' = nw_spawned w ++ job n /\ nw_accepted w' = nw_accepted w /\ nw_buffer w' = nw_buffer w))
  | Err _ => rows_of w' = rows_of w /\ announced w' = announced w /\ nw_spawned w' = nw_spawned w /\
             nw_accepted w' = nw_accepted w /\ nw_buffer w' = nw_buffer w
  | Panic => user.uw_uuids (nw_users w) = []
  end.
Proof.
  intros Hb E now. refine (wp_run _ _ (λ r w', match r with Ok n => _ | Err _ => _ | Panic => _ end) _ _ _ E). clear E r w'.
  unfold Create, parseUUID. destruct (uuid_Parse (ci_UserID input)) as [uid|]; [|by apply wp_of_run; intros r w' [= <- <-]].
  apply wp_pbind, wp_of_run. intros r w' [= <- <-]. apply wp_pbind, wp_note_now, wp_pbind, wp_uuid; [|done].
  intros id w1 Ha1. set (n := new_notification id uid input now). apply wp_pbind. fold now. fold n. apply wp_should.
  - intros w2 (w3 & b & Ha3 & -> & Hroom & Hurg & Hu). cbn. exists uid. do 2 (split; [done|]).
    destruct Ha1 as (v1 & -> & Hv1 & Hn1), Ha3 as (v3 & -> & _). cbn in *. split; [done|]. left. split_and!; try done.
    destruct Hu as (u & i & Hi & Hu & Hd). exists u, i. split; [done|]. by rewrite <-Hv1.
  - intros w2 Ha2. apply wp_pbind, wp_pwrap, wp_create_row; cbn [wrap_err].
    + intros w3 Hw3 Hc Hrows. apply wp_pbind, wp_dispatch, wp_pbind, wp_announce; [done|]. intros w4 (br & pub & bc & -> & Hann). cbn.
      exists uid. do 2 (split; [done|]). destruct Ha1 as (v1 & -> & _), Ha2 as (v2 & -> & _). cbn in *. rewrite Hw3 in *. cbn in *.
      split; [done|]. right. unfold rows_of, announced in *. cbn in *. rewrite Hrows. split; [|by split_and!].
      by apply insert_fresh in Hc.
    + intros e w3 Hw3 Hrows. destruct Ha1 as (v1 & -> & _), Ha2 as (v2 & -> & _). cbn in *. rewrite Hw3 in *. cbn in *.
      unfold rows_of, announced. cbn. by rewrite Hrows.
Qed.

(** *** Deliveries *)
Definition deliveries (w : nworld) : list DeliveryRecord := nt_deliveries (pg_tables (nw_db w)).
Definition same_outcome (d rec : DeliveryRecord) : Prop :=
  dr_NotificationID d = dr_NotificationID rec /\ dr_Channel d = dr_Channel rec /\ dr_Status d = dr_Status rec /\
  dr_Attempts d = dr_Attempts rec /\ dr_Error d = dr_Error rec.
(** At most one row, of this outcome, after these messages. *)
Definition audited (rec : DeliveryRecord) (w w' : nworld) : Prop :=
  rows_of w' = rows_of w /\ nw_sent w' = nw_sent w /\
  (deliveries w' = deliveries w \/ exists d, deliveries w' = deliveries w ++ [d] /\ same_outcome d rec).
Lemma wp_audit rec w (Q : result unit -> nworld -> Prop) :
  (forall r w', audited rec w w' -> Q r w') -> wp (run (recordDelivery s rec)) w Q.
Proof.
  intros HQ. assert (forall w', aside w w' -> audited rec w w') as Haside.
  { intros w' (u & -> & _). split; [done|]. split; [done|]. by left. }
  unfold recordDelivery. destruct (ns_deliveryAudit s); [|apply wp_of_run; intros r w' [= <- <-]; apply HQ, Haside; reflexivity].
  unfold pignore. apply wp_ptry. unfold repo_Record.
  assert (forall id w1, aside w w1 -> wp (run (let* now := time_Now in rows (QRecord
    {| dr_ID := id; dr_NotificationID := dr_NotificationID rec; dr_Channel := dr_Channel rec; dr_Status := dr_Status rec;
       dr_Attempts := dr_Attempts rec; dr_Error := dr_Error rec;
       dr_CreatedAt := if time_IsZero (dr_CreatedAt rec) then now else dr_CreatedAt rec; dr_UpdatedAt := now |}))) w1
    (λ r w', audited rec w w' /\ r <> Panic)) as Hq.
  { intros id w1 Ha. apply wp_pbind, wp_note_now, wp_act, wp_of_run. intros r w' E. cbn [perform_note run_query] in E.
    match type of E with context [pg_Record ?d _] => set (d0 := d) in E end.
    destruct (pg_Record d0 (nw_db w1)) as [r1 db] eqn:Ed. injection E as <- <-. destruct Ha as (u & -> & _). cbn in Ed.
    refine (wp_run _ _ (λ r db, audited rec w (set_nw_db db (set_nw_users u w)) /\ r <> Panic) _ _ _ Ed). unfold pg_Record.
    apply wp_pg_insert; unfold audited, rows_of, deliveries; cbn.
    - intros db' _ ->. split; [|done]. cbn. do 2 (split; [done|]). right. by exists d0.
    - intros code db' ->. split; [|done]. do 2 (split; [done|]). by left. }
  assert (forall (r : result unit) w', audited rec w w' /\ r <> Panic ->
    match r with Ok a => wp (run (pret tt)) w' Q | Err e => wp (run (pret tt)) w' Q | Panic => Q Panic w' end) as Hend.
  { intros [a|e|] w' [Ha Hp]; [..|done]; apply wp_of_run; intros r2 w2 [= <- <-]; by apply HQ. }
  apply wp_pbind. destruct (dr_ID rec =? uuid_Nil)%N.
  - apply wp_uuid; [|intros _; apply HQ, Haside; reflexivity]. intros id w1 Ha. eapply wp_mono; [by apply Hq|exact Hend].
  - apply wp_of_run. intros r w' [= <- <-]. eapply wp_mono; [apply Hq; reflexivity|exact Hend].
Qed.

Definition message (c : DeliveryChannel) (n : Notification) (to : string) : DeliveryChannel * string * string * string :=
  match c with SMSChannel => (c, to, ""%string, (n_Title n ++ ": " ++ n_Body n)%string) | _ => (c, to, n_Title n, n_Body n) end.
(** The outcome of a delivery that sent [k] times the message to [to]. *)
Definition status_of (n : Notification) (k : nat) (d : DeliveryRecord) : Prop :=
  dr_NotificationID d = n_ID n /\ dr_Channel d = n_Channel n /\
  match dr_Status d with
  | DeliverySent => dr_Attempts d = Z.of_nat k /\ (0 < k)%nat /\ dr_Error d = None
  | DeliverySkipped => k = 0%nat /\ dr_Attempts d = 0 /\ dr_Error d = None
  | DeliveryFailed => dr_Error d <> None
  end.
Definition reachable_by (c : DeliveryChannel) (r : Recipient) : option string :=
  match address c r with Some EmptyString => None | a => a end.
Definition attempted (c : DeliveryChannel) (n : Notification) (r : Recipient) (k0 retries : nat) (w w' : nworld) : Prop :=
  exists k to, nw_sent w' = nw_sent w ++ replicate k (message c n to) /\ (k <= S retries)%nat /\
    (k = 0%nat \/ reachable_by c r = Some to) /\ rows_of w' = rows_of w /\
    (deliveries w' = deliveries w \/ exists d, deliveries w' = deliveries w ++ [d] /\ status_of n (k0 + k) d).
Lemma wp_deliver c n r w (Q : result unit -> nworld -> Prop) :
  match reachable_by c r with
  | Some to => forall res w', nw_sent w' = nw_sent w ++ [message c n to] -> rows_of w' = rows_of w ->
                 deliveries w' = deliveries w -> res <> Panic -> Q res w'
  | None => forall e, Q (Err e) w
  end -> wp (run (Deliver c n r)) w Q.
Proof.
  unfold Deliver, reachable_by. destruct (address c r) as [to|]; [|by intros Hn; apply wp_of_run; intros ? ? [= <- <-]].
  destruct to as [|a to]; [by intros Hn; apply wp_of_run; intros ? ? [= <- <-]|]. set (t := String a to) in *. intros Hs.
  assert (forall title body, (c, t, title, body) = message c n t -> wp (run (act (Send c t title body))) w Q) as Hsend.
  { intros title body Hm. apply wp_act, wp_of_run. intros res w' E. cbn in E. rewrite Hm in E.
    destruct (nw_network w) as [|[err|] rest]; injection E as <- <-; by apply Hs. }
  by destruct c; apply Hsend.
Qed.
Lemma audited_attempt c n r k0 retries k to rec w w1 w2 : audited rec w1 w2 ->
  nw_sent w1 = nw_sent w ++ replicate k (message c n to) -> rows_of w1 = rows_of w -> deliveries w1 = deliveries w ->
  (k <= S retries)%nat -> (k = 0%nat \/ reachable_by c r = Some to) -> status_of n (k0 + k) rec ->
  attempted c n r k0 retries w w2.
Proof.
  intros (Hr & Hs & Hd) Hs1 Hr1 Hd1 Hk Hto Hst. exists k, to. rewrite Hs, Hr. do 4 (split; [done|]). rewrite <-Hd1.
  destruct Hd as [Hd|(d & Hd & H1 & H2 & H3 & H4 & H5)]; [by left|]. right. exists d. split; [done|].
  unfold status_of in *. by rewrite H1, H2, H3, H4, H5.
Qed.
Lemma wp_unreachable c n r retries a w (Q : result unit -> nworld -> Prop) : reachable_by c r = None ->
  (forall res w' rec, audited rec w w' -> status_of n 0 rec -> Q res w') -> wp (run (attempts s retries a c n r)) w Q.
Proof.
  intros Hr. revert a. induction retries as [|retries IH]; intros a HQ; cbn [attempts]; apply wp_ptry, wp_deliver; rewrite Hr; intros e.
  - apply wp_audit. intros res w' Ha. by eapply HQ.
  - by apply IH.
Qed.
Lemma wp_reachable c n r to retries k0 w (Q : result unit -> nworld -> Prop) : reachable_by c r = Some to ->
  (forall res w', attempted c n r k0 retries w w' -> Q res w') ->
  wp (run (attempts s retries (Z.of_nat (S k0)) c n r)) w Q.
Proof.
  intros Hto. revert k0 w Q. induction retries as [|retries IH]; intros k0 w Q HQ; cbn [attempts]; apply wp_ptry, wp_deliver;
    rewrite Hto; intros res w1 Hs Hr Hd Hp; destruct res as [[]|e|]; try done.
  4: { replace (Z.of_nat (S k0) + 1) with (Z.of_nat (S (S k0))) by lia. apply IH. intros res w2 (k & to' & Hs2 & Hk & Hto' & Hr2 & Hd2).
    apply HQ. exists (S k), to. rewrite Hs2, Hs, Hr2, Hr, Hd in *. split.
    { rewrite <-app_assoc. f_equal. destruct Hto' as [->|Hto']; [done|]. by simplify_eq. }
    split; [lia|]. split; [by right|]. split; [done|]. by replace (k0 + S k)%nat with (S k0 + k)%nat by lia. }
  all: apply wp_audit; intros r2 w2 Ha; apply HQ; eapply (audited_attempt _ _ _ _ _ 1); [exact Ha|exact Hs|exact Hr|exact Hd|lia|by right|].
  all: do 2 (split; [done|]); cbn; first [done|split_and!; [lia|lia|done]].
Qed.
(** What a delivery of [n] leaves, over the rows of users of [w]. *)
Definition asked_for (n : Notification) (w : nworld) : Prop :=
  n_Channel n = ChannelInApp \/ exists u i, uuid_Parse (uuid_String (n_UserID n)) = Some i /\ user.by_id i (user_tables w) = Some u /\
    user.u_NotificationsMuted u = false /\ n_Channel n ∈ default [] (user.u_NotificationChannels u).
Definition delivered (c : DeliveryChannel) (n : Notification) (w w' : nworld) : Prop :=
  exists k to, (k <= maxAttempts)%nat /\ nw_sent w' = nw_sent w ++ replicate k (message c n to) /\ rows_of w' = rows_of w /\
    (deliveries w' = deliveries w \/ exists d, deliveries w' = deliveries w ++ [d] /\ status_of n k d) /\
    (k = 0%nat \/ asked_for n w).
Lemma nothing_sent c n rec w w1 w2 : aside w w1 -> audited rec w1 w2 -> status_of n 0 rec -> delivered c n w w2.
Proof.
  intros (v & -> & _) (Hr & Hs & Hd) Hst. exists 0%nat, ""%string. split; [unfold maxAttempts; lia|]. rewrite Hs, Hr, app_nil_r.
  do 2 (split; [done|]). split; [|by left]. destruct Hd as [Hd|(d & Hd & H1 & H2 & H3 & H4 & H5)]; [by left|]. right. exists d.
  split; [done|]. unfold status_of in *. by rewrite H1, H2, H3, H4, H5.
Qed.
(** A delivery sends its message at most twice, each time the same one to the address
    of the user, and only to a user who is found, is not muted and asked for the channel;
    it writes at most one row, which says how often the message was sent until it was
    taken, that it never was taken, or that the user did not ask for it. *)
Theorem delivery_outcome c n r w w' : run (deliver s c n) w = (r, w') ->
  exists k to, (k <= maxAttempts)%nat /\ nw_sent w' = nw_sent w ++ replicate k (message c n to) /\ rows_of w' = rows_of w /\
    (deliveries w' = deliveries w \/ exists d, deliveries w' = deliveries w ++ [d] /\ status_of n k d) /\
    (k = 0%nat \/ asked_for n w).
Proof.
  intros E. refine (wp_run _ _ (λ _ w', delivered c n w w') _ _ _ E). clear E r w'.
  unfold deliver. apply wp_ptry. unfold FindRecipient. apply wp_pbind, wp_find_user.
  2: { intros e w1 Ha. apply wp_audit. intros r w2 Hau. by eapply nothing_sent. }
  intros u w1 Ha (i & Hi & Hu). apply wp_of_run. intros r w2 [= <- <-]. set (rcp := {| r_Email := _ |}).
  destruct (allows rcp (n_Channel n)) eqn:Eal.
  2: { apply wp_audit. intros r w2 Hau. by eapply nothing_sent. }
  destruct (reachable_by c rcp) as [to|] eqn:Eto; [|apply wp_unreachable; [done|]; intros r w2 rec Hau Hst; by eapply nothing_sent].
  apply (wp_reachable c n rcp to _ 0); [done|]. intros r w2 (k & to' & Hs & Hk & _ & Hr & Hd). destruct Ha as (v & -> & _).
  exists k, to'. do 4 (split; [done|]). right. unfold allows in Eal. apply orb_true_iff in Eal as [Eal%bool_decide_eq_true|Eal]; [by left|right].
  apply andb_true_iff in Eal as [Hm%negb_true_iff Hin%bool_decide_eq_true]. by exists u, i.
Qed.

(** *** The flush *)
Definition store (m : gmap uuid Notification) (d : Notification) : gmap uuid Notification := <[n_ID d := d]> m.
Definition due_of (now : time) (w : nworld) : gmap uuid (list DigestEntry) := (TakeDue now (nw_buffer w)).1.
(** Of the batches that are due some are stored, as one digest each, and the others are lost. *)
Definition flushed (due : list (uuid * list DigestEntry)) (delivered : Z) (firstErr : option error) (w : nworld)
    (r : result (Z * option error)) (w' : nworld) : Prop :=
  match r with
  | Ok (k, e) => exists stored lost digests,
      stored ++ lost ≡ₚ filter (λ x, x.2 <> []) due /\
      Forall2 (λ x d, AssembleDigest x.1 x.2 (n_ID d) = Some d) stored digests /\
      rows_of w' = foldl store (rows_of w) digests /\ size (rows_of w') = (size (rows_of w) + length stored)%nat /\
      announced w' = (announced w + length stored)%nat /\ nw_spawned w' = nw_spawned w /\ nw_buffer w' = nw_buffer w /\
      (delivered + Z.of_nat (length due) <= int64_max -> 0 <= delivered -> k = delivered + Z.of_nat (length stored)) /\
      (e = None <-> firstErr = None /\ lost = [])
  | Err _ => False
  | Panic => True
  end.
Lemma wp_flush due delivered firstErr w (Q : result (Z * option error) -> nworld -> Prop) : ns_broadcaster s = true ->
  (forall r w', flushed due delivered firstErr w r w' -> Q r w') -> wp (run (flush s due delivered firstErr)) w Q.
Proof.
  intros Hb. revert delivered firstErr w Q. induction due as [|[uid l] due IH]; intros delivered firstErr w Q HQ; cbn [flush].
  { apply wp_of_run. intros r w' [= <- <-]. apply HQ. exists [], [], []. cbn. split_and!; try done; try lia. naive_solver. }
  destruct (bool_decide (l = [])) eqn:El; go_bool.
  { subst l. apply IH. intros [[k e]|e|] w' Hf; apply HQ; [|done..]. cbn [flushed] in *. destruct Hf as (st & lo & ds & Hp & H).
    exists st, lo, ds. rewrite filter_cons_False by (by intros []). split; [done|]. destruct H as (H1 & H2 & H3 & H4 & H5 & H6 & H7 & H8).
    split_and!; try done. intros Hk Hd. apply H7; [cbn [length] in Hk; lia|done]. }
  apply wp_pbind, wp_uuid; [|intros _; by apply HQ]. intros id w1 (v & -> & _).
  destruct (AssembleDigest uid l id) as [d|] eqn:Ed; [|by destruct l]. assert (n_ID d = id /\ n_Channel d = ChannelInApp) as [Hid Hch].
  { destruct l; [done|]. by injection Ed as <-. }
  apply wp_ptry, wp_create_row.
  - intros w2 Hw2 Hc Hrows. apply wp_pbind, wp_dispatch, wp_pbind. unfold broadcast. apply wp_announce; [done|].
    intros w3 (br & pub & bc & -> & Hann). apply IH. intros [[k e]|e|] w' Hf; apply HQ; [|done..]. cbn [flushed] in *.
    destruct Hf as (st & lo & ds & Hp & H1 & H2 & H3 & H4 & H5 & H6 & H7 & H8). rewrite Hw2 in *. apply insert_fresh in Hc.
    assert (job d = []) as Hj by (unfold job; by rewrite bool_decide_eq_true_2 by done).
    unfold rows_of, announced in *. cbn in Hc, Hrows, Hann, H2, H3, H4, H5, H6. rewrite Hrows in H2, H3. cbn in H2, H3. rewrite Hj, app_nil_r in H5.
    exists ((uid, l) :: st), lo, (d :: ds). rewrite filter_cons_True by done. cbn [app length foldl].
    rewrite map_size_insert_None in H3 by done. split_and!; try done; try lia.
    + by rewrite Hp.
    + constructor; [|done]. cbn. by rewrite Hid.
    + intros Hk Hd. cbn [length] in Hk. rewrite H7; unfold wrap64; [rewrite Z.mod_small|rewrite Z.mod_small..]; unfold int64_max in *; lia.
  - intros err w2 Hw2 Hrows. apply IH. intros [[k e]|e|] w' Hf; apply HQ; [|done..]. cbn [flushed] in *.
    destruct Hf as (st & lo & ds & Hp & H1 & H2 & H3 & H4 & H5 & H6 & H7 & H8). rewrite Hw2 in *.
    unfold rows_of, announced in *. cbn in Hrows, H2, H3, H4, H5, H6. rewrite Hrows in H2, H3.
    exists st, ((uid, l) :: lo), ds. rewrite filter_cons_True by done. split_and!; try done.
    + by rewrite <-Permutation_middle, Hp.
    + intros Hk Hd. apply H7; [cbn [length] in Hk; lia|done].
    + rewrite H8. destruct firstErr; naive_solver.
Qed.
(** A flush takes exactly the batches whose cadence is over from the buffer.  Each of
    them either becomes one new row, the digest of its notifications, announced once; or is
    lost, which the error of the flush tells.  The number returned is that of the rows. *)
Theorem flush_accounts now k e w w' : ns_broadcaster s = true -> ns_digestBuffer s = true ->
  Z.of_nat (size (nw_buffer w)) <= int64_max -> run (FlushDueDigests s now) w = (Ok (k, e), w') ->
  nw_buffer w' = filter (λ x, is_due now x.2 = false) (nw_buffer w) /\
  exists stored lost digests,
    stored ++ lost ≡ₚ filter (λ x, x.2 <> []) (map_to_list (entries <$> filter (λ x, is_due now x.2 = true) (nw_buffer w))) /\
    Forall2 (λ x d, AssembleDigest x.1 x.2 (n_ID d) = Some d) stored digests /\
    rows_of w' = foldl store (rows_of w) digests /\ size (rows_of w') = (size (rows_of w) + length stored)%nat /\
    announced w' = (announced w + length stored)%nat /\ nw_spawned w' = nw_spawned w /\
    k = Z.of_nat (length stored) /\ (e = None <-> lost = []).
Proof.
  intros Hb Hbuf Hsz E. refine (wp_run _ _ (λ r w', match r with Ok (k, e) => _ | _ => True end) _ _ _ E). clear E k e w'.
  unfold FlushDueDigests. rewrite Hbuf. cbn [negb]. apply wp_pbind, wp_act, wp_of_run. intros r w1 E. cbn in E. injection E as <- <-.
  set (due := entries <$> _). apply wp_flush; [done|]. intros [[k e]|e|] w' Hf; [|done..].
  destruct Hf as (st & lo & ds & Hp & H1 & H2 & H3 & H4 & H5 & H6 & H7 & H8). rewrite H6. split; [done|]. exists st, lo, ds.
  unfold rows_of, announced in *. cbn in H2, H3, H4, H5. rewrite (range_due_perm due) in Hp. split_and!; try done.
  - rewrite H7; [lia| |done]. rewrite (Permutation_length (range_due_perm due)), length_map_to_list. unfold due. rewrite map_size_fmap.
    pose proof (map_size_filter (λ x : uuid * digestBucket, is_due now x.2 = true) (nw_buffer w)). lia.
  - rewrite H8. naive_solver.
Qed.
End runs.
End notificationprops.
