(* ===== verification/NotificationRuns.v ===== *)
(** What the requests and the goroutines of the notifications do together, in any order:
    the buffer gives back what it accepted, once; and nothing the program sends is stored
    over the tables as they are migrated.  Runs that meet the theorems of this component. *)
From S2P Require Export NotificationProps Demo.
From stdpp Require Import options.
From Stdlib Require Import Ascii.
#[local] Set Default Proof Using "Type*".
Open Scope Z_scope.
Local Open Scope go_scope.

Module notificationruns.
Import userprops notification notificationprops.

(** ** Requests, ticks and goroutines *)
Inductive call :=
  | KCreate (input : CreateInput) | KTick | KGoroutine | KConsume (body : string)
  | KList (userID unread : string) (page size limit : option string)
  | KSearch (userID q type unread archived : string) (page size limit : option string)
  | KMarkRead (id userID : string) | KMarkAllRead (userID : string)
  | KPreferences (userID : string) (prefs : user.NotificationPrefsInput)
  | KBulkArchive (archived : bool) (userID : string) (ids : option (list string)).
Section pools.
Context {UL : UUIDLib} {HL : user.HashLib} {TM : TextMatch} {NJ : NotificationJSON} {NR : NotificationRange}.
Variable s : notificationService.
Definition serve (k : call) : io unit :=
  match k with
  | KCreate input => pignore (Create s input)
  | KTick => tick s
  | KGoroutine => goroutine s
  | KConsume body => consume s body
  | KList u unread p z l => pignore (ListNotifications u unread p z l)
  | KSearch u q t unread archived p z l => pignore (SearchNotifications u q t unread archived p z l)
  | KMarkRead id u => pignore (handler_MarkRead id u)
  | KMarkAllRead u => pignore (handler_MarkAllRead u)
  | KPreferences u prefs => pignore (UpdatePreferences u prefs)
  | KBulkArchive a u ids => pignore (handler_BulkArchive a u ids)
  end.
(** The environment: the clock, the users and their connection, the faults of the
    tables, the broker and the network; the rows and the buffer are the program's. *)
Definition outside (w w' : nworld) : Prop :=
  pg_tables (nw_db w') = pg_tables (nw_db w) /\ nw_buffer w' = nw_buffer w /\ nw_accepted w' = nw_accepted w /\
  nw_taken w' = nw_taken w.

(** ** The buffer *)
Section buffer.
Context {NS : NotificationSchema}.
Definition for_user {A} (uid : uuid) (l : list (uuid * A)) : list A := (filter (λ x, x.1 = uid) l).*2.
Definition pending (uid : uuid) (b : gmap uuid digestBucket) : list DigestEntry := default [] (entries <$> b !! uid).
#[local] Arguments for_user : simpl never.
#[local] Arguments pending : simpl never.
Definition batch_size {A} (l : list A) : Prop := (1 <= length l)%nat /\ Z.of_nat (length l) <= MaxDigestBatchSize.
Definition buffer_ok (w : nworld) : Prop :=
  (forall uid, de_Notification <$> for_user uid (nw_accepted w) =
     de_Notification <$> (concat (for_user uid (nw_taken w)) ++ pending uid (nw_buffer w))) /\
  (forall uid l, (uid, l) ∈ nw_taken w -> batch_size l) /\
  (forall uid b, nw_buffer w !! uid = Some b -> batch_size (entries b)).
Lemma for_user_app {A} uid (l l' : list (uuid * A)) : for_user uid (l ++ l') = for_user uid l ++ for_user uid l'.
Proof. unfold for_user. by rewrite filter_app, fmap_app. Qed.
Lemma for_user_map {A} uid (m : gmap uuid A) : for_user uid (map_to_list m) = option_list (m !! uid).
Proof.
  assert (forall l : list (uuid * A), uid ∉ l.*1 -> for_user uid l = []) as Hnone.
  { intros l. induction l as [|[u a] l IH]; [done|]. rewrite fmap_cons. intros [Hne Hn]%not_elem_of_cons. unfold for_user in *.
    rewrite filter_cons_False by (cbn in *; congruence). by apply IH. }
  destruct (m !! uid) as [a|] eqn:E.
  - assert (for_user uid (map_to_list m) ≡ₚ [a]) as Hp; [|by apply Permutation_singleton_r in Hp].
    pose proof (map_to_list_delete m uid a E) as Hp. unfold for_user. rewrite <-Hp, filter_cons_True by done. cbn.
    fold (for_user uid (map_to_list (delete uid m))). rewrite Hnone; [done|].
    intros ([u b] & -> & Hb%elem_of_map_to_list)%list_elem_of_fmap. cbn in Hb. by rewrite lookup_delete_eq in Hb.
  - apply Hnone. intros ([u b] & -> & Hb%elem_of_map_to_list)%list_elem_of_fmap. cbn in E. congruence.
Qed.

Lemma enqueue_keeps w uid e every b ok : buffer_ok w -> Enqueue (user.uw_now (nw_users w)) uid e every (nw_buffer w) = (ok, b) ->
  buffer_ok (set_nw_buffer b (if ok then nw_accepted w ++ [(uid, e)] else nw_accepted w) (nw_taken w) w).
Proof.
  intros (H1 & H2 & H3) E. destruct ok.
  2: { apply enqueue_refused in E as ->. by destruct w. }
  pose proof (enqueue_accepted _ _ _ _ _ _ E) as Hroom. unfold Enqueue in E. set (e' := if time_IsZero _ then _ else _) in E.
  assert (de_Notification e' = de_Notification e) as He by (unfold e'; by destruct (time_IsZero _)).
  clearbody e'.
  set (k := default _ _) in E. destruct (_ <=? _); [done|]. injection E as <-.
  assert (entries k = pending uid (nw_buffer w)) as Hk by (unfold k, pending; by destruct (nw_buffer w !! uid)).
  assert (Z.of_nat (length (pending uid (nw_buffer w))) < MaxDigestBatchSize) as Hlt.
  { unfold Pending, pending in *. by destruct (nw_buffer w !! uid). }
  split; [|split]; cbn.
  - intros u. rewrite for_user_app. destruct (decide (uid = u)) as [<-|Hne].
    + unfold pending. rewrite lookup_insert_eq. cbn [fmap option_fmap option_map default push entries]. rewrite Hk.
      assert (for_user uid [(uid, e)] = [e]) as -> by (unfold for_user; by rewrite filter_cons_True by done).
      rewrite !fmap_app in *. rewrite H1, !fmap_app, <-app_assoc. cbn. rewrite fmap_app. cbn. by rewrite He.
    + unfold pending. rewrite lookup_insert_ne by done. fold (pending u (nw_buffer w)).
      assert (for_user u [(uid, e)] = []) as -> by (unfold for_user; by rewrite filter_cons_False by done). by rewrite app_nil_r.
  - done.
  - intros u b. rewrite lookup_insert_Some. intros [[<- <-]|[_ Hb]]; [|by eapply H3]. cbn. rewrite Hk. unfold batch_size.
    rewrite length_app. cbn. split; lia.
Qed.
Lemma take_keeps now w : buffer_ok w -> let '(due, b) := TakeDue now (nw_buffer w) in
  buffer_ok (set_nw_buffer b (nw_accepted w) (nw_taken w ++ map_to_list due) w).
Proof.
  intros (H1 & H2 & H3). cbn. split; [|split]; cbn.
  - intros u. rewrite H1, for_user_app, for_user_map, concat_app. f_equal. rewrite <-app_assoc. f_equal. unfold pending.
    rewrite lookup_fmap, !map_lookup_filter. destruct (nw_buffer w !! u) as [b|]; [|done]. cbn.
    repeat case_guard; cbn in *; try congruence; rewrite ?app_nil_r; try done. by destruct (is_due now b).
  - intros u l [Hl|Hl]%elem_of_app; [by eapply H2|]. apply elem_of_map_to_list in Hl. rewrite lookup_fmap, fmap_Some in Hl.
    destruct Hl as (b & [Hb _]%map_lookup_filter_Some & ->). by eapply H3.
  - intros u b [Hb _]%map_lookup_filter_Some. by eapply H3.
Qed.

(** C27: However requests, ticks and goroutines overlap and whatever fails: the notifications
    of a user that the buffer accepted are those of the batches it gave back, in their
    order, followed by those it still holds; none is in two batches, none is missing; and
    no batch is empty or longer than the bound. *)
Theorem buffered_once w c : nw_buffer w = ∅ -> nw_accepted w = [] -> nw_taken w = [] ->
  reachable perform_note serve outside w c ->
  forall uid, de_Notification <$> for_user uid (nw_accepted c.1) =
    de_Notification <$> (concat (for_user uid (nw_taken c.1)) ++ pending uid (nw_buffer c.1)) /\
    Forall batch_size (for_user uid (nw_taken c.1)).
Proof.
  intros Hb Ha Ht Hr. assert (buffer_ok c.1) as (H1 & H2 & _).
  { eapply (pool_safe (λ _ _, True) (λ _ _ _, True) perform_note buffer_ok) with (start := serve) (allowed := λ _, True); [..|exact Hr|by apply Forall_true].
    - intros X e w1 r w2 E H1 _. split; [|done]. destruct e; cbn in E.
      + destruct (user.perform_user _ _ _). by injection E as _ <-.
      + destruct (run_query _ _ _). by injection E as _ <-.
      + destruct (Enqueue _ _ _ _ _) as [ok b] eqn:Eq. injection E as _ <-. by eapply enqueue_keeps.
      + injection E as _ <-. by apply (take_keeps now).
      + destruct (nw_broker w1) as [|[err|] rest]; by injection E as _ <-.
      + by injection E as _ <-.
      + destruct (nw_network w1) as [|[err|] rest]; by injection E as _ <-.
      + by injection E as _ <-.
      + destruct (nw_spawned w1); by injection E as _ <-.
    - intros w1 w2 (_ & E1 & E2 & E3). unfold buffer_ok. by rewrite E1, E2, E3.
    - intros k _. apply any_safe.
    - unfold buffer_ok. rewrite Hb, Ha, Ht. split; [done|]. split; [by intros ?? ?%not_elem_of_nil|done]. }
  intros uid. split; [apply H1|]. apply Forall_forall. intros l ([u l'] & -> & [Hu Hin]%list_elem_of_filter)%list_elem_of_fmap.
  by eapply H2.
Qed.
End buffer.

(** ** What the tables refuse *)
Section migrated.
#[local] Existing Instance migrated.
Definition known_type (t : NotificationType) : Prop := t ∈ TypeDigest :: declared_types.
Definition pre (X : Type) (e : noteE X) : Prop :=
  match e with Rows (QCreate n) => known_type (n_Type n) | _ => True end.
Definition no_rows (w : nworld) : Prop := nt_notifications (pg_tables (nw_db w)) = ∅.
Lemma known_refused us n t : known_type (n_Type n) -> insert_check us n t = Some "22P02"%string.
Proof.
  intros Ht. unfold insert_check, type_accepted, migrated. rewrite bool_decide_eq_false_2; [done|]. revert Ht.
  assert (forallb (λ t, negb (bool_decide (t ∈ enum_types))) (TypeDigest :: declared_types) = true) as Hall by (by vm_compute).
  intros Ht. rewrite forallb_forall in Hall. apply list_elem_of_In, Hall in Ht. by apply negb_true_iff, bool_decide_eq_false in Ht.
Qed.
Lemma update_none P f t : nt_notifications t = ∅ -> nt_notifications (update_where P f t) = ∅.
Proof. unfold update_where, set_rows. cbn. intros ->. by rewrite fmap_empty. Qed.
Lemma query_stores_none X us (q : noteQ X) d r d' : run_query us q d = (r, d') ->
  nt_notifications (pg_tables d) = ∅ -> pre X (Rows q) -> nt_notifications (pg_tables d') = ∅.
Proof.
  intros E H0 Hpre. refine (wp_run (run_query us q) d (λ _ d', nt_notifications (pg_tables d') = ∅) _ _ _ E). clear E r d'.
  assert (forall format check P page limit, wp (list_page format check P page limit) d (λ _ d', nt_notifications (pg_tables d') = ∅)) as Hlist.
  { intros format check P page limit. unfold list_page. apply wp_bind, wp_wrap, wp_pg_exec; cbn; [|by intros code w' ->].
    intros total t w' Hq Hw. assert (pg_tables w' = pg_tables d) as Ed by (destruct check; [done|by injection Hq as _ <-]).
    apply wp_bind, wp_wrap, wp_pg_exec; cbn; [|by intros code w2 ->; rewrite Ed].
    intros l t2 w2 Hq2 Hw2. assert (pg_tables w2 = pg_tables d) as Ed2 by (destruct (_ <? 0); [done|injection Hq2 as _ <-; congruence]).
    apply wp_of_run. intros r w3 E3. assert (w3 = w2) as ->; [|by rewrite Ed2]. revert E3. unfold gbind, glift, gret.
    by destruct (scan_rows l); intros [= _ <-]. }
  destruct q; cbn [run_query]; try apply Hlist.
  - unfold pg_Create. apply wp_wrap, wp_pg_insert; cbn; [|by intros code w' ->]. intros w' Hc _.
    by rewrite known_refused in Hc.
  - unfold pg_MarkRead. apply wp_bind, wp_wrap, wp_pg_exec; cbn; [|by intros code w' ->]. intros k t w' [= <- <-] Hw.
    destruct (_ =? 0); [apply wp_fail|apply wp_ret]; rewrite Hw; by apply update_none.
  - unfold pg_MarkAllRead. apply wp_wrap, wp_pg_exec; cbn; [|by intros code w' ->]. intros k t w' [= <- <-] ->. by apply update_none.
  - unfold pg_BulkArchive. destruct ids; [by apply wp_ret|]. apply wp_wrap, wp_pg_exec; cbn; [|by intros code w' ->].
    intros k t w' [= <- <-] ->. by apply update_none.
  - unfold pg_Record. apply wp_pg_insert; [|by intros code w' ->]. by intros w' _ ->.
Qed.
Abbreviation safely p := (safe pre (λ _ _ _, True) p (λ _, True)).
Lemma accounts_safely {A} (p : prog user.userE A) : safely (users p).
Proof. unfold users. induction p as [r|X e k IH]; [done|]. by split. Qed.
Lemma bind_safely {A B} (p : io A) (k : A -> io B) : safely p -> (forall a, safely (k a)) -> safely (pbind p k).
Proof. intros Hp Hk. by apply safe_pbind_any. Qed.
Lemma try_safely {A B} (p : io A) (k : A + error -> io B) : safely p -> (forall r, safely (k r)) -> safely (ptry p k).
Proof. intros Hp Hk. apply safe_ptry. eapply safe_mono; [exact Hp|]. by intros [a|e|] _. Qed.
Lemma wrap_safely {A} f (p : io A) : safely p -> safely (pwrap f p).
Proof. intros Hp. by apply safe_pwrap. Qed.
#[local] Ltac typed := repeat (cbv zeta; lazymatch goal with
  | |- safe _ _ (pbind _ _) _ => apply bind_safely; [|intros ?]
  | |- safe _ _ (ptry _ _) _ => apply try_safely; [|intros ?]
  | |- safe _ _ (pwrap _ _) _ => apply wrap_safely
  | |- safe _ _ (pignore _) _ => apply try_safely; [|intros ?]
  | |- safe _ _ (users _) _ => apply accounts_safely
  | |- safe _ _ (rows _) _ => by split
  | |- safe _ _ (act _) _ => by split
  | |- safe _ _ (pret _) _ => exact I
  | |- safe _ _ (pfail _) _ => exact I
  | |- safe _ _ (pguard ?b _) _ => by destruct b
  | |- safe _ _ time_Now _ => apply accounts_safely
  | |- safe _ _ uuid_New _ => apply accounts_safely
  | |- safe _ _ (match ?x with _ => _ end) _ => destruct x
  end).
Lemma ids_safely id : safely (parseUUID id).
Proof. unfold parseUUID. typed. Qed.
Lemma record_safely r : safely (recordDelivery s r).
Proof. unfold recordDelivery, repo_Record. typed. Qed.
Lemma find_safely id : safely (find_user id).
Proof. unfold find_user. typed. Qed.
Lemma deliver_safely c n : safely (deliver s c n).
Proof.
  unfold deliver, FindRecipient. typed; [apply find_safely| |apply record_safely..].
  generalize 1 as k. induction (pred maxAttempts) as [|m IH]; intros k; cbn [attempts]; unfold Deliver; typed; try apply record_safely.
  all: apply IH.
Qed.
Lemma announce_safely u n : safely (announce s u n).
Proof. unfold announce, broadcast_to. typed. Qed.
Lemma dispatch_safely n : safely (dispatchDelivery s n).
Proof. unfold dispatchDelivery. typed. Qed.
Lemma create_safely input : ci_Type input ∈ declared_types -> safely (Create s input).
Proof.
  intros Ht. unfold Create, shouldDigest, find_preferences. typed; try apply ids_safely; try apply find_safely.
  - split; [|done]. cbn. by right.
  - apply dispatch_safely.
  - apply announce_safely.
Qed.
Lemma flush_safely due k e : safely (flush s due k e).
Proof.
  revert k e. induction due as [|[u l] due IH]; intros k e; cbn [flush]; [done|]. destruct (bool_decide _); [apply IH|].
  apply bind_safely; [apply accounts_safely|intros id]. destruct (AssembleDigest u l id) as [d|] eqn:Ed; [|apply IH].
  apply try_safely.
  - split; [|done]. destruct l; [done|]. injection Ed as <-. by left.
  - intros [[]|err]; [|apply IH]. typed; [apply dispatch_safely|unfold broadcast; apply announce_safely|apply IH].
Qed.
Lemma requests_safely k : match k with KCreate input => ci_Type input ∈ declared_types | _ => True end -> safely (serve k).
Proof.
  destruct k; cbn [serve]; intros Hk.
  - apply safe_pignore. by apply create_safely.
  - unfold tick, FlushDueDigests. typed. apply flush_safely.
  - unfold goroutine. typed. apply deliver_safely.
  - unfold consume, broadcast_to. typed.
  - unfold ListNotifications, List. destruct (webhook.pagination_Parse _ _ _) as [[p' l'] o']. typed. apply ids_safely.
  - unfold SearchNotifications, Search. destruct (webhook.pagination_Parse _ _ _) as [[p' l'] o']. typed. apply ids_safely.
  - unfold handler_MarkRead, MarkRead. typed; apply ids_safely.
  - unfold handler_MarkAllRead, MarkAllRead. typed; apply ids_safely.
  - unfold UpdatePreferences. typed.
  - unfold handler_BulkArchive, BulkArchive. typed; try apply ids_safely.
    match goal with |- safe _ _ (parse_all ?l) _ => induction l; cbn [parse_all]; typed; [apply ids_safely|done] end.
Qed.

(** Over the enumeration of types the migration makes, however requests, ticks and
    goroutines overlap, no notification is ever stored: none of a type the package declares
    and no digest. *)
Theorem declared_never_stored w c : no_rows w ->
  reachable (@perform_note _ migrated _ _) serve outside w c ->
  (forall input, KCreate input ∈ c.2.*1 -> ci_Type input ∈ declared_types) -> no_rows c.1.
Proof.
  intros Hw Hr Hl. eapply (pool_safe pre (λ _ _ _, True) perform_note no_rows); [..|exact Hr|].
  - intros X e w1 r w2 E H1 Hpre. split; [|done]. unfold no_rows in *. destruct e; cbn in E.
    + destruct (user.perform_user _ _ _). by injection E as _ <-.
    + destruct (run_query _ _ _) as [r1 d] eqn:Eq. injection E as _ <-. by eapply query_stores_none.
    + destruct (Enqueue _ _ _ _ _) as [ok b] eqn:Eq. by injection E as _ <-.
    + by injection E as _ <-.
    + destruct (nw_broker w1) as [|[err|] rest]; by injection E as _ <-.
    + by injection E as _ <-.
    + destruct (nw_network w1) as [|[err|] rest]; by injection E as _ <-.
    + by injection E as _ <-.
    + destruct (nw_spawned w1); by injection E as _ <-.
  - intros w1 w2 (E1 & _). unfold no_rows. by rewrite E1.
  - exact requests_safely.
  - done.
  - apply Forall_forall. intros k Hk. destruct k; try done. by apply Hl.
Qed.
End migrated.
End pools.

(** ** Pages *)
Section pages.
Context {NJ : NotificationJSON} {NS : NotificationSchema} {TM : TextMatch}.
Lemma scan_all l : Forall (λ n, is_Some (n_Data n)) l -> scan_rows l = Ok l.
Proof. induction 1 as [|n l [d Hd] _ IH]; [done|]. cbn. unfold scanNotification. rewrite Hd. cbn. by rewrite IH. Qed.
Lemma take_pages {A} (l : list A) n k : concat ((λ p, take n (drop (p * n) l)) <$> seq 0 k) = take (k * n) l.
Proof.
  induction k as [|k IH]; [done|]. rewrite seq_S, fmap_app, concat_app, IH. cbn. rewrite app_nil_r.
  replace (n + k * n)%nat with (k * n + n)%nat by lia. apply take_take_drop.
Qed.
Definition wanted (userID : uuid) (unreadOnly : bool) (n : Notification) : bool := of_user userID n && (negb unreadOnly || negb (n_IsRead n)).
Definition page (t : ntables) (userID : uuid) (limit : Z) (unreadOnly : bool) (p : nat) : list Notification :=
  match (pg_List userID (Z.of_nat p) limit unreadOnly (connection t)).1 with Ok (l, _) => l | _ => [] end.
Lemma page_is t userID limit unreadOnly p : 1 <= limit <= 100 -> Z.of_nat (S p) * limit <= int64_max ->
  Forall (λ n, is_Some (n_Data n)) (selected (wanted userID unreadOnly) t) ->
  page t userID limit unreadOnly (S p) = take (Z.to_nat limit) (drop (p * Z.to_nat limit) (selected (wanted userID unreadOnly) t)).
Proof.
  intros Hl Hk Hd. unfold page, pg_List. fold (wanted userID unreadOnly).
  assert (limit_of limit = limit) as Hlim.
  { unfold limit_of. destruct (Z.ltb_spec limit 1), (Z.ltb_spec 100 limit); try lia; done. }
  assert (offset_of (Z.of_nat (S p)) limit = Z.of_nat p * limit) as Hoff.
  { unfold offset_of, page_of. rewrite Hlim. destruct (Z.ltb_spec (Z.of_nat (S p)) 1); [lia|].
    rewrite (wrap64_id (Z.of_nat (S p) - 1)) by (apply in_int64_spec; unfold int64_min, int64_max in *; nia).
    rewrite wrap64_id by (apply in_int64_spec; unfold int64_min, int64_max in *; nia). lia. }
  unfold list_page. cbn -[selected take drop offset_of limit_of]. rewrite Hoff, Hlim.
  destruct (Z.ltb_spec (Z.of_nat p * limit) 0); [nia|]. cbn -[selected take drop].
  rewrite Z2Nat.inj_mul, Nat2Z.id by lia. unfold gbind, glift. rewrite scan_all; [done|].
  by apply Forall_take, Forall_drop.
Qed.
(** The pages of a list, read one after the other over tables that do not change, are
    the list, newest first: no notification is missing and none comes twice. *)
Theorem pages_cover t userID limit unreadOnly (k : nat) : 1 <= limit <= 100 -> Z.of_nat (S k) * limit <= int64_max ->
  Forall (λ n, is_Some (n_Data n)) (selected (wanted userID unreadOnly) t) ->
  Z.of_nat (length (selected (wanted userID unreadOnly) t)) <= Z.of_nat k * limit ->
  concat (page t userID limit unreadOnly <$> seq 1 k) = selected (wanted userID unreadOnly) t.
Proof.
  intros Hl Hk Hd Hlen. transitivity (take (k * Z.to_nat limit) (selected (wanted userID unreadOnly) t)); [|apply take_ge; lia].
  rewrite <-take_pages, <-fmap_S_seq, <-list_fmap_compose. f_equal. apply list_fmap_ext. intros i p [-> Hp]%lookup_seq.
  apply page_is; [done| |done]. nia.
Qed.
End pages.

(** ** Concrete runs *)
#[local] Instance demo_json : NotificationJSON := {|
  deadline_Unmarshal _ := None; summary_Marshal n _ _ := Some (fmt_d n); notification_Marshal _ := Some "n"%string;
  notification_Unmarshal _ := None; jsonb_accepts _ := true |}.
#[local] Instance demo_range : NotificationRange.
Proof.
  refine {| range_due := map_to_list; range_counts m := (map_to_list m).*1 |}; done.
Defined.
#[local] Instance demo_hash : user.HashLib := {| user.sha256_hex s := ("#" ++ s)%string |}.
#[local] Instance demo_match : TextMatch := {| ilike _ _ := false |}.
(** A schema that holds every type. *)
Definition any_type : NotificationSchema := {| type_accepted _ := true |}.
Definition service : notificationService :=
  {| ns_rabbitClient := false; ns_broadcaster := true; ns_userLookup := true; ns_deliveryAudit := true;
     ns_channels := [EmailChannel; SMSChannel]; ns_digestBuffer := true; ns_digestPrefs := true |}.
(** A user with digests, who also asked for e-mails. *)
Definition ada (minutes : Z) : user.User :=
  user.set_prefs (Some ["inapp"; "email"]%string) false true minutes 5
    (user.set_Email (Some (user.HashEmail "ada@x")) true (user.new_user 7 "GADA" 5)).
Definition users_with (u : user.User) (now : time) : user.uworld :=
  {| user.uw_now := now; user.uw_db := connection {| user.ut_users := {[7%N := u]}; user.ut_counter := None |};
     user.uw_uuids := [20; 21; 22; 23]%N; user.uw_circles _ := Ok [] |}.
Definition start (u : user.User) (t : ntables) : nworld :=
  {| nw_users := users_with u (1000 * second); nw_db := connection t; nw_buffer := ∅; nw_accepted := []; nw_taken := []; nw_broker := [];
     nw_published := []; nw_broadcasts := []; nw_network := []; nw_sent := []; nw_spawned := [] |}.
Definition none : ntables := {| nt_notifications := ∅; nt_deliveries := [] |}.
Definition input (type channel : string) (data : option string) : CreateInput :=
  {| ci_UserID := unary 7; ci_Type := type; ci_Title := "title"; ci_Body := "body"; ci_Data := data; ci_Channel := channel |}.
Definition answer {A} (S : NotificationSchema) (p : io A) (w : nworld) : result A := (Threads.run (@perform_note _ S _ _) p w).1.
Definition after {A} (S : NotificationSchema) (p : io A) (w : nworld) : nworld := (Threads.run (@perform_note _ S _ _) p w).2.
Definition day : duration := 24 * hour.

(** A notification that was held is answered as created; a day later the flush takes it
    from the buffer, the table refuses the type of the digest, and nothing is left of it. *)
Definition held_one : nworld := after migrated (Create service (input TypeMemberJoined ChannelInApp None)) (start (ada 1440) none).
Definition a_day_later : nworld := after migrated (FlushDueDigests service (1000 * second + day)) held_one.
Theorem flush_loses_batch :
  is_ok (answer migrated (Create service (input TypeMemberJoined ChannelInApp None)) (start (ada 1440) none)) = true /\
  length (nw_accepted held_one) = 1%nat /\ Pending 7 (nw_buffer held_one) = 1 /\
  answer migrated (FlushDueDigests service (1000 * second + day)) held_one =
    Ok (0, Some (Wrapf "creating notification: %w" (External "22P02"))) /\
  Pending 7 (nw_buffer a_day_later) = 0 /\ rows_of a_day_later = ∅ /\ announced a_day_later = 0%nat.
Proof. split_and!; by vm_compute. Qed.
(** Were the type accepted, the digest would be dated in the year one: the last of the
    list, which has the newest first. *)
Theorem digest_without_date :
  (λ n, (n_Type n, n_CreatedAt n)) <$> (map_to_list (rows_of (after any_type (FlushDueDigests service (1000 * second + day)) held_one))).*2 =
    [(TypeDigest, 0)].
Proof. by vm_compute. Qed.
(** A payout is announced at once, or refused by the table and lost. *)
Theorem payout_refused : answer migrated (Create service (input TypePayoutReceived ChannelInApp (Some "{}"%string))) (start (ada 1440) none) =
  Err (Wrapf "creating notification: %w" (Wrapf "creating notification: %w" (External "22P02"))).
Proof. by vm_compute. Qed.
(** The cadence of a bucket is that of its first notification: a user who goes from a
    week to a quarter of an hour still waits for the week. *)
Definition weekly : nworld := after any_type (Create service (input TypeMemberJoined ChannelInApp None)) (start (ada 10080) none).
Definition changed : nworld := set_nw_users {| user.uw_now := 2000 * second; user.uw_db := user.uw_db (users_with (ada 15) 0);
  user.uw_uuids := [24; 25]%N; user.uw_circles _ := Ok [] |} weekly.
Theorem cadence_kept :
  let w := after any_type (Create service (input TypeMemberJoined ChannelInApp None)) changed in
  Pending 7 (nw_buffer w) = 2 /\ answer any_type (FlushDueDigests service (2000 * second + day)) w = Ok (0, None).
Proof. cbv zeta. split; by vm_compute. Qed.
(** An e-mail is sent to what the table holds: the hash of the address. *)
Definition mailed : nworld := after any_type (goroutine service)
  (after any_type (Create service (input TypePayoutReceived ChannelEmail (Some "{}"%string))) (start (ada 1440) none)).
Theorem mail_to_a_hash : nw_sent mailed = [(EmailChannel, user.HashEmail "ada@x", "title", "body")]%string /\
  dr_Status <$> deliveries mailed = [DeliverySent].
Proof. split; by vm_compute. Qed.
(** A notification without data cannot be listed: one is enough for every page that holds
    it to fail.  And a search for a type the package declares is refused by the table. *)
Definition plain_user : user.User := user.set_prefs (Some ["inapp"%string]) false false 1440 5 (user.new_user 7 "GADA" 5).
Definition with_row : nworld := after migrated (Create service (input "system" ChannelInApp None)) (start plain_user none).
Theorem lists_that_fail :
  size (rows_of with_row) = 1%nat /\
  answer migrated (ListNotifications (unary 7) "" None None None) with_row = Ok (InternalError "failed to list notifications") /\
  answer migrated (SearchNotifications (unary 7) "" TypePayoutReceived "" "" None None None) with_row =
    Ok (InternalError "failed to search notifications").
Proof. split_and!; by vm_compute. Qed.

(** ** Witnesses *)
Definition order : list (turn (W := nworld) (L := call)) :=
  [Start (KCreate (input TypeMemberJoined ChannelInApp None)); Start (KCreate (input TypeContributionDue ChannelInApp None));
   Run 0; Run 1; Run 0; Run 1; Run 1; Run 0; Run 0; Run 1].
Definition both := schedule (@perform_note _ any_type _ _) (serve service) order (start (ada 1440) none, []).
Lemma buffered_once_witness : de_Notification <$> for_user 7 (nw_accepted both.1) =
  de_Notification <$> (concat (for_user 7 (nw_taken both.1)) ++ pending 7 (nw_buffer both.1)).
Proof.
  apply (buffered_once service (NS := any_type) (start (ada 1440) none) both); [reflexivity..|].
  apply (schedule_steps_closed (@perform_note _ any_type _ _) (serve service) outside order (start (ada 1440) none, [])). reflexivity.
Defined.
Lemma flush_accounts_witness : nw_buffer (after any_type (FlushDueDigests service (1000 * second + day)) held_one) =
  filter (λ x, is_due (1000 * second + day) x.2 = false) (nw_buffer held_one).
Proof.
  apply (flush_accounts (NS := any_type) service (1000 * second + day) 1 None held_one); [reflexivity|reflexivity|by vm_compute|].
  vm_compute. reflexivity.
Defined.
Lemma creation_outcome_witness : rows_of (after migrated (Create service (input TypePayoutReceived ChannelInApp None)) (start (ada 1440) none)) = ∅.
Proof.
  apply (creation_outcome (NS := migrated) service (input TypePayoutReceived ChannelInApp None) (start (ada 1440) none)
    (Err (Wrapf "creating notification: %w" (Wrapf "creating notification: %w" (External "22P02"))))); [reflexivity|]. vm_compute. reflexivity.
Defined.
Definition to_mail : Notification := new_notification 20 7 (input TypePayoutReceived ChannelEmail None) 0.
Lemma delivery_outcome_witness : rows_of (after any_type (deliver service EmailChannel to_mail) (start (ada 1440) none)) = ∅.
Proof.
  destruct (delivery_outcome (NS := any_type) service EmailChannel to_mail (Ok tt) (start (ada 1440) none)
    (after any_type (deliver service EmailChannel to_mail) (start (ada 1440) none))) as (k & to & _ & _ & H & _);
    [vm_compute; reflexivity|exact H].
Defined.
End notificationruns.
