(* ===== verification/Hub.v ===== *)
(** Live connections (src/internal/websocket, with the upgrade handler of
    src/internal/api/handler/ws_handler.go): the hub and its rooms, the pumps of a
    connection, the broadcaster and the bridge between the instances of the server. *)
From S2P Require Export Threads GoStrings GoFloat.
From stdpp Require Import options.
From Stdlib Require Import Ascii.
#[local] Set Default Proof Using "Type*".
Open Scope Z_scope.
Local Open Scope go_scope.

Module hub.

(** ** Data *)
(** The values an event carries, as JSON has them. *)
Inductive jvalue := JString (s : string) | JInt (n : Z) | JFloat (f : float64).
Abbreviation object := (list (string * jvalue)) (only parsing).
Record Message := { m_Type : string; m_Payload : object }.
(** A [*Client] is known by its identifier, which [NewClient] draws. *)
Record Client := { cl_ID : string; cl_UserID : string }.
#[export] Instance Client_eq_dec : EqDecision Client.
Proof. solve_decision. Defined.
(** What a peer gets. *)
Inductive frame :=
  | Text (data : string) | Ping | CloseEmpty | CloseGoingAway (delay : duration) | CloseCode (code : Z) (reason : string).
(** The state of a connection: the buffer of its channel and all it ever accepted, the
    frames written, whether [closeOnce] has run, whether the socket is closed, whether its
    write pump runs, its missed pings, its hint of a delay and the bucket of its
    subscriptions. *)
Record conn := {
  cn_Send : list string; cn_accepted : list string; cn_frames : list frame; cn_closing : bool; cn_socketClosed : bool; cn_pumping : bool;
  cn_missedPings : Z; cn_reconnectAfter : duration; cn_tokens : float64; cn_last : time;
}.
Definition set_Send q acc fr (c : conn) := {| cn_Send := q; cn_accepted := acc; cn_frames := fr; cn_closing := cn_closing c;
  cn_socketClosed := cn_socketClosed c; cn_pumping := cn_pumping c; cn_missedPings := cn_missedPings c;
  cn_reconnectAfter := cn_reconnectAfter c; cn_tokens := cn_tokens c; cn_last := cn_last c |}.
Definition set_closed closing socket pumping (c : conn) := {| cn_Send := cn_Send c; cn_accepted := cn_accepted c; cn_frames := cn_frames c;
  cn_closing := closing; cn_socketClosed := socket; cn_pumping := pumping; cn_missedPings := cn_missedPings c;
  cn_reconnectAfter := cn_reconnectAfter c; cn_tokens := cn_tokens c; cn_last := cn_last c |}.
Definition set_pings n (c : conn) := {| cn_Send := cn_Send c; cn_accepted := cn_accepted c; cn_frames := cn_frames c; cn_closing := cn_closing c;
  cn_socketClosed := cn_socketClosed c; cn_pumping := cn_pumping c; cn_missedPings := n; cn_reconnectAfter := cn_reconnectAfter c;
  cn_tokens := cn_tokens c; cn_last := cn_last c |}.
Definition set_reconnect d (c : conn) := {| cn_Send := cn_Send c; cn_accepted := cn_accepted c; cn_frames := cn_frames c; cn_closing := cn_closing c;
  cn_socketClosed := cn_socketClosed c; cn_pumping := cn_pumping c; cn_missedPings := cn_missedPings c; cn_reconnectAfter := d;
  cn_tokens := cn_tokens c; cn_last := cn_last c |}.
Definition set_bucket tokens last (c : conn) := {| cn_Send := cn_Send c; cn_accepted := cn_accepted c; cn_frames := cn_frames c;
  cn_closing := cn_closing c; cn_socketClosed := cn_socketClosed c; cn_pumping := cn_pumping c; cn_missedPings := cn_missedPings c;
  cn_reconnectAfter := cn_reconnectAfter c; cn_tokens := tokens; cn_last := last |}.
Definition new_conn : conn := {| cn_Send := []; cn_accepted := []; cn_frames := []; cn_closing := false; cn_socketClosed := false;
  cn_pumping := true; cn_missedPings := 0; cn_reconnectAfter := 0; cn_tokens := f64_zero; cn_last := 0 |}.
Definition sendBufferSize : nat := 256.
Definition maxMissedPings : Z := 2.

(** ** The hub (hub.go): each of these holds its mutex *)
Record Hub := {
  h_clients : gmap string Client; h_userClients : gmap string (gmap string Client); h_rooms : gmap string (gmap string Client);
  h_closed : bool;
}.
Definition NewHub : Hub := {| h_clients := ∅; h_userClients := ∅; h_rooms := ∅; h_closed := false |}.
(** Deletes from an inner map, and the inner map when it is empty. *)
Definition drop_from (id : string) (m : gmap string (gmap string Client)) (k : string) : gmap string (gmap string Client) :=
  match m !! k with
  | Some inner => if decide (delete id inner = ∅) then delete k m else <[k := delete id inner]> m
  | None => m
  end.
(** The part of [Register] under the lock: whether the client was let in. *)
Definition Register (c : Client) (h : Hub) : bool * Hub :=
  if h_closed h then (false, h)
  else match h_clients h !! cl_ID c with
       | Some _ => (true, h)
       | None =>
           (true, {| h_clients := <[cl_ID c := c]> (h_clients h);
                     h_userClients := <[cl_UserID c := <[cl_ID c := c]> (default ∅ (h_userClients h !! cl_UserID c))]> (h_userClients h);
                     h_rooms := h_rooms h; h_closed := h_closed h |})
       end.
Definition Unregister (c : Client) (h : Hub) : Hub :=
  {| h_clients := delete (cl_ID c) (h_clients h); h_userClients := drop_from (cl_ID c) (h_userClients h) (cl_UserID c);
     h_rooms := omap (λ room, if decide (delete (cl_ID c) room = ∅) then None else Some (delete (cl_ID c) room)) (h_rooms h);
     h_closed := h_closed h |}.
(** [auth] is what the authorizer answers, when there is one. *)
Definition JoinRoom (auth : option (string -> string -> bool + error)) (circleID clientID : string) (h : Hub) : bool * Hub :=
  let allowed :=
    match auth with
    | None => true
    | Some can =>
        match h_clients h !! clientID with
        | None => false
        | Some client => match can circleID (cl_UserID client) with inl true => true | _ => false end
        end
    end in
  if negb allowed then (false, h)
  else
    let room := default ∅ (h_rooms h !! circleID) in
    (true, {| h_clients := h_clients h; h_userClients := h_userClients h;
              h_rooms := <[circleID := match h_clients h !! clientID with Some c => <[clientID := c]> room | None => room end]> (h_rooms h);
              h_closed := h_closed h |}).
Definition LeaveRoom (circleID clientID : string) (h : Hub) : Hub :=
  {| h_clients := h_clients h; h_userClients := h_userClients h; h_rooms := drop_from clientID (h_rooms h) circleID; h_closed := h_closed h |}.
(** The orders in which the maps are ranged over are open. *)
Class HubRange := {
  range_clients : gmap string Client -> list Client;
  range_clients_perm m : range_clients m ≡ₚ (map_to_list m).*2;
  range_rooms : gmap string (gmap string Client) -> list (string * gmap string Client);
  range_rooms_perm m : range_rooms m ≡ₚ map_to_list m;
}.
Section ranges.
Context `{HubRange}.
Definition subscriptions (h : Hub) : list (string * Client) :=
  mjoin ((λ x, (λ c, (x.1, c)) <$> range_clients x.2) <$> range_rooms (h_rooms h)).
(** The connections of a room a broadcast picks: one of each user. *)
Definition group_of (c : Client) : string := if decide (cl_UserID c = ""%string) then "client:" ++ cl_ID c else cl_UserID c.
Fixpoint one_per_group (seen : list string) (l : list Client) : list Client :=
  match l with
  | [] => []
  | c :: l => if decide (group_of c ∈ seen) then one_per_group seen l else c :: one_per_group (group_of c :: seen) l
  end.
Definition room_targets (circleID : string) (h : Hub) : option (list Client) :=
  one_per_group [] ∘ range_clients <$> h_rooms h !! circleID.
Definition least (best : option Client) (c : Client) : option Client :=
  match best with None => Some c | Some b => if String.ltb (cl_ID c) (cl_ID b) then Some c else best end.
Definition user_target (userID : string) (h : Hub) : option Client :=
  foldl least None (range_clients (default ∅ (h_userClients h !! userID))).
End ranges.
Definition Stats (h : Hub) : Z * Z := (Z.of_nat (size (h_clients h)), Z.of_nat (size (h_rooms h))).
Definition ClientCount (h : Hub) : Z := Z.of_nat (size (h_clients h)).
Definition UserClientCount (userID : string) (h : Hub) : Z := Z.of_nat (size (default ∅ (h_userClients h !! userID))).
Definition RoomCount (h : Hub) : Z := Z.of_nat (size (h_rooms h)).
Definition close_hub (h : Hub) : Hub :=
  {| h_clients := h_clients h; h_userClients := h_userClients h; h_rooms := h_rooms h; h_closed := true |}.

(** ** Connections (client.go): each of these is one step on a connection *)
(** A send that does not wait: whether there was room. *)
Definition offer (data : string) (c : conn) : bool * conn :=
  if (length (cn_Send c) <? sendBufferSize)%nat then (true, set_Send (cn_Send c ++ [data]) (cn_accepted c ++ [data]) (cn_frames c) c)
  else (false, c).
Definition Close (c : conn) : conn := if cn_closing c then c else set_closed true (cn_socketClosed c) (cn_pumping c) c.
Definition Disconnect (c : conn) : conn := if cn_closing c then c else set_closed true true (cn_pumping c) c.
Definition write (f : frame) (c : conn) : conn :=
  if cn_socketClosed c then c else set_Send (cn_Send c) (cn_accepted c) (cn_frames c ++ [f]) c.
Definition Kick (code : Z) (reason : string) (c : conn) : conn :=
  if cn_closing c then c else set_closed true true (cn_pumping c) (write (CloseCode code reason) c).
Definition stop_pump (c : conn) : conn := set_closed (cn_closing c) true false c.
(** What the write pump may find ready; [drawn] is the delay it draws when it has none. *)
Inductive ready := ReadyClosing (drawn : duration) | ReadyMessage | ReadyTick.
Definition WritePump (r : ready) (c : conn) : conn :=
  if negb (cn_pumping c) then c
  else match r with
  | ReadyClosing drawn =>
      if cn_closing c then stop_pump (write (CloseGoingAway (if cn_reconnectAfter c <=? 0 then drawn else cn_reconnectAfter c)) c) else c
  | ReadyMessage =>
      match cn_Send c with
      | [] => c
      | msg :: rest =>
          let c' := set_Send rest (cn_accepted c) (cn_frames c) c in
          if cn_socketClosed c then stop_pump c' else write (Text msg) c'
      end
  | ReadyTick =>
      if maxMissedPings <=? cn_missedPings c then stop_pump c
      else let c' := set_pings (cn_missedPings c + 1) c in if cn_socketClosed c then stop_pump c' else write Ping c'
  end.

(** *** backoff.go *)
Definition reconnectMinDelay : duration := second.
Definition reconnectTargetRate : Z := 500.
Definition reconnectMaxSpread : duration := 60 * second.
Definition reconnectSpread (clients : Z) : duration :=
  let spread := wrap64 (clients * second) ÷ reconnectTargetRate in
  if spread <? reconnectMinDelay then reconnectMinDelay
  else if reconnectMaxSpread <? spread then reconnectMaxSpread else spread.
Definition subscribeBurst : Z := 20.
Definition subscribeRefill : float64 := f64_of_Z 10.
(** [Seconds] of a duration. *)
Definition Seconds (d : duration) : float64 := f64_add (f64_of_Z (d ÷ second)) (f64_div (f64_of_Z (Z.rem d second)) (f64_of_Z 1000000000)).
Definition allow (now : time) (burst : Z) (refill : float64) (c : conn) : bool * conn :=
  let tokens :=
    if time_IsZero (cn_last c) then f64_of_Z burst
    else let t := f64_add (cn_tokens c) (f64_mul (Seconds (time_Sub now (cn_last c))) refill) in
         if f64_gt t (f64_of_Z burst) then f64_of_Z burst else t in
  if f64_lt tokens (f64_of_Z 1) then (false, set_bucket tokens now c)
  else (true, set_bucket (f64_sub tokens (f64_of_Z 1)) now c).
Definition shutdownReason : string := "server shutting down".
Definition shutdownCloseReason (delay : duration) : string := shutdownReason ++ "; reconnect_after_ms=" ++ fmt_d (delay ÷ 1000000).

(** *** The limiter of the bridge (redis_bridge.go) *)
Definition limits := gmap string (list time).
Definition limiter_Allow (maxRate : Z) (window : duration) (now : time) (key : string) (l : limits) : bool * limits :=
  if bool_decide (key = ""%string) || (maxRate <=? 0) then (true, l)
  else
    let cutoff := time_Add now (- window) in
    let recent := filter (λ t, time_After t cutoff = true) (default [] (l !! key)) in
    if maxRate <=? Z.of_nat (length recent) then (false, <[key := recent]> l)
    else (true, <[key := recent ++ [now]]> l).

(** ** Actions *)
Inductive hubE : Type -> Type :=
  | OnHub {X : Type} (f : Hub -> X * Hub) : hubE X
  | Join (circleID clientID : string) : hubE bool
  | CanSubscribe (circleID userID : string) : hubE bool
  | HasAuthorizer : hubE bool
  | OnConn {X : Type} (id : string) (f : conn -> X * conn) : hubE X
  | Limit (key : string) : hubE bool
  | Now : hubE time
  | Rand (n : Z) : hubE Z                                   (** below [n] *)
  | Open (id : string) : hubE unit                          (** a connection is made *)
  | RedisPublish (data : string) : hubE unit
  | Push (data : string) : hubE unit                        (** to the queue of the bridge *)
  | Pop : hubE (option string).
Abbreviation io := (prog hubE) (only parsing).
Definition on_hub {X} (f : Hub -> X * Hub) : io X := act (OnHub f).
Definition see {X} (f : Hub -> X) : io X := on_hub (λ h, (f h, h)).
Definition on_conn {X} (id : string) (f : conn -> X * conn) : io X := act (OnConn id f).
Definition change (id : string) (f : conn -> conn) : io unit := on_conn id (λ c, (tt, f c)).

(** The text of an event and of what a client sends: the encodings of the standard library.
    [client_Unmarshal] gives the fields of an object that are texts. *)
Class HubJSON := {
  msg_Marshal : Message -> option string;
  msg_Unmarshal : string -> option (string * option object);
  client_Unmarshal : string -> option (string -> string);
  error_Marshal : string -> string;
}.

(** The answer to a ping: an object whose type is [pong]. *)
Definition pong : string :=
  let quoted s : string := (String "034" s ++ String "034" "")%string in
  ("{" ++ quoted "type" ++ ":" ++ quoted "pong" ++ "}")%string.
Section programs.
Context `{HubRange, HubJSON}.
(** The texts of [time.Time] in an event; whether the broadcaster has a client of Redis;
    and the numbers of the limiter of the bridge. *)
Context (time_text : time -> string) (rdb : bool).

(** *** client.go *)
Definition sendError (c : Client) (message : string) : io unit := pignore (on_conn (cl_ID c) (offer (error_Marshal message))).
Definition handleMessage (c : Client) (data : string) : io unit :=
  match client_Unmarshal data with
  | None => pret tt
  | Some field =>
      let circleID := field "circleId"%string in
      if decide (field "type" = "ping")%string then pignore (on_conn (cl_ID c) (offer pong))
      else if decide (field "type" = "subscribe")%string then
        if decide (circleID = ""%string) then pret tt
        else
          let* now := act Now in
          let* allowed := on_conn (cl_ID c) (allow now subscribeBurst subscribeRefill) in
          if negb allowed then sendError c "rate limited: too many subscribe requests"
          else
            let* joined := act (Join circleID (cl_ID c)) in
            if joined : bool then pret tt else sendError c "forbidden: not a circle member"
      else if decide (field "type" = "unsubscribe")%string then
        if decide (circleID = ""%string) then pret tt else on_hub (λ h, (tt, LeaveRoom circleID (cl_ID c) h))
      else pret tt
  end.
Definition close_socket (c : conn) : conn := set_closed (cn_closing c) true (cn_pumping c) c.
(** A turn of [ReadPump]: a message, a pong, or the error that ends it. *)
Inductive incoming := Received (data : string) | Pong | ReadError.
Definition ReadPump (c : Client) (i : incoming) : io unit :=
  match i with
  | Received data => do* change (cl_ID c) (set_pings 0) in handleMessage c data
  | Pong => change (cl_ID c) (set_pings 0)
  | ReadError => do* on_hub (λ h, (tt, Unregister c h)) in change (cl_ID c) close_socket
  end.
(** [HandleWebSocket]; [id] is what [NewClient] draws, and the pumps run from then on. *)
Definition register (c : Client) : io unit :=
  let* ok := on_hub (Register c) in if ok : bool then pret tt else change (cl_ID c) Close.
Definition HandleWebSocket (id userID : string) : io unit :=
  if decide (userID = ""%string) then pfail (Errorf "authentication required")
  else
    do* act (Open id) in
    register {| cl_ID := id; cl_UserID := userID |}.

(** *** hub.go *)
Fixpoint evict (dropped : list Client) : io unit :=
  match dropped with
  | [] => pret tt
  | c :: dropped =>
      do* on_hub (λ h, (tt, Unregister c h)) in
      do* change (cl_ID c) Disconnect in
      evict dropped
  end.
Fixpoint send_all (data : string) (l dropped : list Client) : io unit :=
  match l with
  | [] => evict dropped
  | c :: l =>
      let* ok := on_conn (cl_ID c) (offer data) in
      send_all data l (if ok : bool then dropped else dropped ++ [c])
  end.
Definition Broadcast (circleID : string) (msg : Message) : io unit :=
  let* targets := see (room_targets circleID) in
  match targets, msg_Marshal msg with
  | Some l, Some data => send_all data l []
  | _, _ => pret tt
  end.
Definition BroadcastToUser (userID : string) (msg : Message) : io unit :=
  match msg_Marshal msg with
  | None => pret tt
  | Some data =>
      let* target := see (user_target userID) in
      match target with Some c => send_all data [c] [] | None => pret tt end
  end.
Fixpoint audit (subs : list (string * Client)) : io unit :=
  match subs with
  | [] => pret tt
  | (circleID, c) :: subs =>
      ptry (act (CanSubscribe circleID (cl_UserID c))) (λ r,
        match r with
        | inl true => audit subs
        | _ =>
            do* on_hub (λ h, (tt, LeaveRoom circleID (cl_ID c) h)) in
            do* sendError c "circle membership lapsed; unsubscribed from room" in
            audit subs
        end)
  end.
Definition AuditRoomMemberships : io unit :=
  let* auth := act HasAuthorizer in
  if auth : bool then let* subs := see subscriptions in audit subs else pret tt.
Fixpoint ask_to_close (spread : duration) (l : list Client) : io unit :=
  match l with
  | [] => pret tt
  | c :: l =>
      let* drawn := act (Rand spread) in
      do* change (cl_ID c) (set_reconnect (reconnectMinDelay + drawn)) in
      do* change (cl_ID c) Close in
      ask_to_close spread l
  end.
Fixpoint force (l : list Client) : io unit :=
  match l with
  | [] => pret tt
  | c :: l =>
      do* change (cl_ID c) close_socket in
      do* on_hub (λ h, (tt, Unregister c h)) in
      force l
  end.
Definition deadline_exceeded : error := External "context deadline exceeded".
(** [polls] is how often the ticker ticks before the context is over. *)
Fixpoint wait (polls : nat) : io unit :=
  let* n := see ClientCount in
  if 0 <? n then
    match polls with
    | S polls => wait polls
    | O =>
        let* remaining := see (λ h, range_clients (h_clients h)) in
        do* force remaining in
        pfail deadline_exceeded
    end
  else pret tt.
Definition Shutdown (polls : nat) : io unit :=
  let* clients := on_hub (λ h, (range_clients (h_clients h), close_hub h)) in
  do* ask_to_close (reconnectSpread (Z.of_nat (length clients))) clients in
  wait polls.

(** *** broadcaster.go *)
Definition publish (room : string) (msg : Message) : io unit :=
  match msg_Marshal msg with
  | None => pret tt
  | Some data =>
      do* (if decide (room = ""%string) then pret tt else Broadcast room msg) in
      if rdb then pignore (act (RedisPublish data)) else pret tt
  end.
Definition publishToUser (userID : string) (msg : Message) : io unit :=
  match msg_Marshal msg with
  | None => pret tt
  | Some data =>
      do* BroadcastToUser userID msg in
      if rdb then pignore (act (RedisPublish data)) else pret tt
  end.
Inductive event :=
  | CircleCreated (circleID organizerID : string) | CircleStatusChanged (circleID status : string)
  | MemberJoined (circleID userID : string) | MemberLeft (circleID userID : string)
  | ContributionRecorded (circleID userID : string) (roundNumber : Z) (amount : float64)
  | PayoutExecuted (circleID recipientID : string) (roundNumber : Z) (amount : float64)
  | MemberPenalized (circleID userID : string) (roundNumber : Z) (penaltyAmount : float64)
  | CommunityJoined (communityID userID : string) | UserUpdated (userID : string)
  | NotificationCreated (userID notificationID : string) | ChatMessageDelivered (recipientID : string) (msg : object).
Definition message_of (e : event) (now : time) : Message :=
  let stamp : string * jvalue := ("timestamp"%string, JString (time_text now)) in
  let mk type payload := {| m_Type := type; m_Payload := payload |} in
  match e with
  | CircleCreated c o => mk "circle.created" [("circleId", JString c); ("organizerId", JString o); stamp]
  | CircleStatusChanged c s => mk "circle.status_changed" [("circleId", JString c); ("status", JString s); stamp]
  | MemberJoined c u => mk "member.joined" [("circleId", JString c); ("userId", JString u); stamp]
  | MemberLeft c u => mk "member.left" [("circleId", JString c); ("userId", JString u); stamp]
  | ContributionRecorded c u n a =>
      mk "contribution.recorded" [("circleId", JString c); ("userId", JString u); ("roundNumber", JInt n); ("amount", JFloat a); stamp]
  | PayoutExecuted c r n a =>
      mk "payout.executed" [("circleId", JString c); ("recipientId", JString r); ("roundNumber", JInt n); ("amount", JFloat a); stamp]
  | MemberPenalized c u n a =>
      mk "member.penalized" [("circleId", JString c); ("userId", JString u); ("roundNumber", JInt n); ("penaltyAmount", JFloat a); stamp]
  | CommunityJoined c u => mk "community.joined" [("communityId", JString c); ("userId", JString u); stamp]
  | UserUpdated u => mk "user.updated" [("userId", JString u); stamp]
  | NotificationCreated u n => mk "notification.new" [("userId", JString u); ("notificationId", JString n); stamp]
  | ChatMessageDelivered _ msg => mk "chat.message" msg
  end%string.
Definition emit (e : event) : io unit :=
  let* now := act Now in
  let msg := message_of e now in
  match e with
  | CircleCreated c _ | CircleStatusChanged c _ | MemberJoined c _ | MemberLeft c _ | ContributionRecorded c _ _ _
  | PayoutExecuted c _ _ _ | MemberPenalized c _ _ _ | CommunityJoined c _ => publish c msg
  | UserUpdated u | NotificationCreated u _ | ChatMessageDelivered u _ => publishToUser u msg
  end.

(** *** redis_bridge.go *)
Definition queueSize : nat := 1024.
Definition bridge_maxRate : Z := 100.
Definition bridge_window : duration := second.
Record pay := { p_CircleID : string; p_CommunityID : string; p_UserID : string; p_Status : string; p_RoundNumber : Z; p_Amount : float64; p_Timestamp : string }.
Definition text_field (k : string) (o : object) : option string :=
  match list_find (λ x : string * jvalue, x.1 = k) o with Some (_, (_, JString s)) => Some s | Some _ => None | None => Some ""%string end.
Definition int_field (k : string) (o : object) : option Z :=
  match list_find (λ x : string * jvalue, x.1 = k) o with Some (_, (_, JInt n)) => Some n | Some _ => None | None => Some 0 end.
Definition float_field (k : string) (o : object) : option float64 :=
  match list_find (λ x : string * jvalue, x.1 = k) o with
  | Some (_, (_, JFloat f)) => Some f | Some (_, (_, JInt n)) => Some (f64_of_Z n) | Some _ => None | None => Some f64_zero
  end.
Definition pay_of (o : object) : option pay :=
  match text_field "circleId" o, text_field "communityId" o, text_field "userId" o, text_field "status" o,
        int_field "roundNumber" o, float_field "amount" o, text_field "timestamp" o with
  | Some c, Some m, Some u, Some s, Some n, Some a, Some t =>
      Some {| p_CircleID := c; p_CommunityID := m; p_UserID := u; p_Status := s; p_RoundNumber := n; p_Amount := a; p_Timestamp := t |}
  | _, _, _, _, _, _, _ => None
  end.
Definition relayed (type : string) (p : pay) : Message :=
  {| m_Type := type;
     m_Payload := [("circleId", JString (p_CircleID p)); ("communityId", JString (p_CommunityID p)); ("userId", JString (p_UserID p));
                   ("status", JString (p_Status p)); ("roundNumber", JInt (p_RoundNumber p)); ("amount", JFloat (p_Amount p));
                   ("timestamp", JString (p_Timestamp p))]%string |}.
Definition first_of (l : list string) : string := default ""%string (head (filter (λ s, s <> ""%string) l)).
Definition bridge_handleMessage (data : string) : io unit :=
  match msg_Unmarshal data with
  | Some (type, Some payload) =>
      match pay_of payload with
      | None => pret tt
      | Some p =>
          let* ok := act (Limit (first_of [p_UserID p; p_CircleID p; p_CommunityID p])) in
          if negb ok then pret tt
          else
            let msg := relayed type p in
            if bool_decide (type = "user.updated" \/ type = "notification.new")%string then
              if decide (p_UserID p = ""%string) then pret tt else BroadcastToUser (p_UserID p) msg
            else
              let room := first_of [p_CircleID p; p_CommunityID p] in
              if decide (room = ""%string) then pret tt else Broadcast room msg
      end
  | _ => pret tt
  end.
(** A turn of [consume] and one of [processQueue]. *)
Definition consume (data : string) : io unit := act (Push data).
Definition processQueue : io unit :=
  let* data := act Pop in
  match data with Some data => bridge_handleMessage data | None => pret tt end.
End programs.

(** ** The world

    [hw_granted] are the subscriptions the authorizer said yes to. *)
Record hworld := {
  hw_hub : Hub; hw_conns : gmap string conn; hw_now : time; hw_auth : option (string -> string -> bool + error);
  hw_granted : list (string * string); hw_rands : list Z; hw_limits : limits; hw_published : list string;
  hw_queue : list string;
}.
Definition set_hub h w := {| hw_hub := h; hw_conns := hw_conns w; hw_now := hw_now w; hw_auth := hw_auth w; hw_granted := hw_granted w;
  hw_rands := hw_rands w; hw_limits := hw_limits w; hw_published := hw_published w; hw_queue := hw_queue w |}.
Definition set_conns c w := {| hw_hub := hw_hub w; hw_conns := c; hw_now := hw_now w; hw_auth := hw_auth w; hw_granted := hw_granted w;
  hw_rands := hw_rands w; hw_limits := hw_limits w; hw_published := hw_published w; hw_queue := hw_queue w |}.
Definition set_granted g w := {| hw_hub := hw_hub w; hw_conns := hw_conns w; hw_now := hw_now w; hw_auth := hw_auth w; hw_granted := g;
  hw_rands := hw_rands w; hw_limits := hw_limits w; hw_published := hw_published w; hw_queue := hw_queue w |}.
Definition set_draws r w := {| hw_hub := hw_hub w; hw_conns := hw_conns w; hw_now := hw_now w; hw_auth := hw_auth w; hw_granted := hw_granted w;
  hw_rands := r; hw_limits := hw_limits w; hw_published := hw_published w; hw_queue := hw_queue w |}.
Definition set_bridge l p q w := {| hw_hub := hw_hub w; hw_conns := hw_conns w; hw_now := hw_now w; hw_auth := hw_auth w; hw_granted := hw_granted w;
  hw_rands := hw_rands w; hw_limits := l; hw_published := p; hw_queue := q |}.
Definition answer_of (auth : option (string -> string -> bool + error)) (circleID userID : string) : bool + error :=
  match auth with Some can => can circleID userID | None => inr (External "no authorizer") end.
Definition perform_hub (X : Type) (e : hubE X) : M hworld X :=
  match e in hubE X return M hworld X with
  | OnHub f => λ w, let '(x, h) := f (hw_hub w) in (Ok x, set_hub h w)
  | Join circleID clientID => λ w,
      let '(ok, h) := JoinRoom (hw_auth w) circleID clientID (hw_hub w) in
      (Ok ok, set_hub h (set_granted
        (match h_clients (hw_hub w) !! clientID with
         | Some c => if decide (answer_of (hw_auth w) circleID (cl_UserID c) = inl true) then (circleID, cl_UserID c) :: hw_granted w else hw_granted w
         | None => hw_granted w
         end) w))
  | CanSubscribe circleID userID => λ w,
      (match answer_of (hw_auth w) circleID userID with inl b => Ok b | inr err => Err err end, w)
  | HasAuthorizer => λ w, (Ok (bool_decide (is_Some (hw_auth w))), w)
  | OnConn id f => λ w,
      match hw_conns w !! id with
      | Some c => let '(x, c') := f c in (Ok x, set_conns (<[id := c']> (hw_conns w)) w)
      | None => (Panic, w)
      end
  | Limit key => λ w,
      let '(ok, l) := limiter_Allow bridge_maxRate bridge_window (hw_now w) key (hw_limits w) in
      (Ok ok, set_bridge l (hw_published w) (hw_queue w) w)
  | Now => λ w, (Ok (hw_now w), w)
  | Rand n => λ w,
      match hw_rands w with
      | r :: rest => (Ok (r mod n), set_draws rest w)
      | [] => (Ok 0, w)
      end
  | Open id => λ w, (Ok tt, set_conns (<[id := new_conn]> (hw_conns w)) w)
  | RedisPublish data => λ w, (Ok tt, set_bridge (hw_limits w) (hw_published w ++ [data]) (hw_queue w) w)
  | Push data => λ w,
      (Ok tt, if (length (hw_queue w) <? queueSize)%nat then set_bridge (hw_limits w) (hw_published w) (hw_queue w ++ [data]) w else w)
  | Pop => λ w,
      match hw_queue w with
      | [] => (Ok None, w)
      | d :: rest => (Ok (Some d), set_bridge (hw_limits w) (hw_published w) rest w)
      end
  end.
End hub.
