(* ===== verification/HubProps.v ===== *)
(** What the hub guarantees: its indexes agree, a room holds connections that were let in,
    a shutdown leaves none, a broadcast reaches each user once, a connection gets its
    messages in their order; and the runs in which an event is doubled, cut or lost. *)
From S2P Require Export Hub.
From stdpp Require Import options.
From Stdlib Require Import Ascii.
#[local] Set Default Proof Using "Type*".
#[local] Set Warnings "-clear-no-such-hyp".
Open Scope Z_scope.
Local Open Scope go_scope.

Module hubprops.
Import hub.

(** ** The hub *)
Definition indexed (h : Hub) (u id : string) : option Client := h_userClients h !! u ≫= λ m, m !! id.
Definition in_room (h : Hub) (r id : string) : option Client := h_rooms h !! r ≫= λ m, m !! id.
(** What an operation may do to the rooms: only take connections out. *)
Definition shrinks (h h' : Hub) : Prop := forall r id c, in_room h' r id = Some c -> in_room h r id = Some c.

Lemma drop_from_spec id m k j i : drop_from id m k !! j ≫= (λ x, x !! i) =
  (if decide (j = k /\ i = id) then None else m !! j ≫= λ x, x !! i).
Proof.
  unfold drop_from. destruct (m !! k) as [inner|] eqn:E.
  - case_decide as Hd.
    + destruct (decide (j = k)) as [->|Hne].
      * rewrite lookup_delete_eq. cbn. case_decide as Hi; [done|]. rewrite E. cbn.
        destruct (inner !! i) eqn:Ei; [|done]. assert (delete id inner !! i = Some c) as H; [|by rewrite Hd, lookup_empty in H].
        rewrite lookup_delete_ne; naive_solver.
      * rewrite lookup_delete_ne by done. rewrite decide_False by naive_solver. done.
    + destruct (decide (j = k)) as [->|Hne].
      * rewrite lookup_insert_eq. cbn. rewrite E. cbn. case_decide as Hi.
        { destruct Hi as [_ ->]. apply lookup_delete_eq. }
        apply lookup_delete_ne. naive_solver.
      * rewrite lookup_insert_ne by done. rewrite decide_False by naive_solver. done.
  - case_decide as Hi; [|done]. destruct Hi as [-> ->]. by rewrite E.
Qed.
Lemma drop_from_nonempty id m k : (forall u x, m !! u = Some x -> x <> ∅) -> forall u x, drop_from id m k !! u = Some x -> x <> ∅.
Proof.
  intros Hm u x. unfold drop_from. destruct (m !! k) as [inner|]; [|apply Hm]. case_decide as Hd.
  - intros [_ H]%lookup_delete_Some. by eapply Hm.
  - rewrite lookup_insert_Some. intros [[_ <-]|[_ H]]; [done|by eapply Hm].
Qed.

Lemma unregister_rooms c h r id d : in_room (Unregister c h) r id = Some d <-> in_room h r id = Some d /\ id <> cl_ID c.
Proof.
  unfold in_room, Unregister. cbn. rewrite lookup_omap. destruct (h_rooms h !! r) as [m|]; cbn; [|naive_solver].
  case_decide as He; cbn.
  - split; [done|]. intros [Hd Hne]. assert (delete (cl_ID c) m !! id = Some d) as H by (by rewrite lookup_delete_ne).
    by rewrite He, lookup_empty in H.
  - rewrite lookup_delete_Some. naive_solver.
Qed.
Lemma shrinks_refl h : shrinks h h.
Proof. by intros ???. Qed.
Lemma shrinks_rooms h h' : h_rooms h' = h_rooms h -> shrinks h h'.
Proof. unfold shrinks, in_room. by intros ->. Qed.
Section order.
(** Identifiers are drawn at random: each is that of one connection, of one user. *)
Variable owner : string -> string.
Definition ours (c : Client) : Prop := owner (cl_ID c) = cl_UserID c.
(** The index of users is the inverse of the clients, without empty entries; rooms hold
    registered clients, and none is empty when [tidy]. *)
Definition hub_ok (tidy : bool) (h : Hub) : Prop :=
  (forall id c, h_clients h !! id = Some c -> cl_ID c = id /\ ours c) /\
  (forall u id c, indexed h u id = Some c <-> h_clients h !! id = Some c /\ cl_UserID c = u) /\
  (forall u m, h_userClients h !! u = Some m -> m <> ∅) /\
  (forall r id c, in_room h r id = Some c -> h_clients h !! id = Some c) /\
  (tidy = true -> forall r m, h_rooms h !! r = Some m -> m <> ∅).
Lemma register_ok tidy c h : ours c -> hub_ok tidy h -> hub_ok tidy (Register c h).2 /\ shrinks h (Register c h).2.
Proof.
  intros Hc Hok. pose proof Hok as (H1 & H2 & H3 & H4 & H5). unfold Register.
  destruct (h_closed h); [split; [done|apply shrinks_refl]|].
  destruct (h_clients h !! cl_ID c) as [c'|] eqn:E; [split; [done|apply shrinks_refl]|]. cbn. split; [|by apply shrinks_rooms]. split_and!; cbn; try done.
  - intros id d. rewrite lookup_insert_Some. intros [[<- <-]|[_ Hd]]; [done|by apply H1].
  - intros u id d. unfold indexed in *. cbn. destruct (decide (cl_UserID c = u)) as [<-|Hu].
    + rewrite lookup_insert_eq. cbn. rewrite !lookup_insert_Some. split.
      * intros [[<- <-]|[Hne Hd]]; [by split; [left|]|]. destruct (h_userClients h !! cl_UserID c) as [m|] eqn:Em.
        { specialize (H2 (cl_UserID c) id d). rewrite Em in H2. cbn in *. apply H2 in Hd as [Hd ?]. split; [by right|done]. }
        cbn in Hd. by rewrite lookup_empty in Hd.
      * intros [[[<- <-]|[Hne Hd]] Hu]; [by left|right]. split; [done|]. specialize (H2 (cl_UserID c) id d).
        destruct (h_userClients h !! cl_UserID c) as [m|]; cbn in *; [by apply H2|]. by destruct (proj2 H2 (conj Hd Hu)).
    + rewrite lookup_insert_ne by done. rewrite H2, lookup_insert_Some. split; [|naive_solver].
      intros [Hd Hu']. split; [|done]. right. split; [|done]. intros <-. congruence.
  - intros u m. rewrite lookup_insert_Some. intros [[_ <-]|[_ Hm]]; [apply insert_non_empty|by eapply H3].
  - intros r id d Hd. rewrite lookup_insert_ne; [by eapply H4|]. intros <-. apply H4 in Hd. congruence.
Qed.
Lemma unregister_ok tidy c h : ours c -> hub_ok tidy h -> hub_ok tidy (Unregister c h) /\ shrinks h (Unregister c h).
Proof.
  intros Hc (H1 & H2 & H3 & H4 & H5). split; [|by intros r id d [H _]%unregister_rooms]. split_and!.
  - intros id d. cbn. intros [_ Hd]%lookup_delete_Some. by apply H1.
  - intros u id d. unfold indexed. cbn. rewrite drop_from_spec, lookup_delete_Some. case_decide as Hd.
    + destruct Hd as [-> ->]. naive_solver.
    + fold (indexed h u id). rewrite H2. split; [|naive_solver]. intros [Hcl Hu]. split; [|done]. split; [|done].
      intros <-. apply Hd. split; [|done]. destruct (H1 _ _ Hcl) as [Hi Ho]. unfold ours in *. rewrite Hi in Ho. congruence.
  - cbn. by apply drop_from_nonempty.
  - intros r id d [Hd Hne]%unregister_rooms. cbn. rewrite lookup_delete_ne by congruence. by eapply H4.
  - intros Ht r m. cbn. rewrite lookup_omap. destruct (h_rooms h !! r) as [m'|]; [|done]. cbn. case_decide; [done|]. by intros [= <-].
Qed.
Lemma leave_ok tidy r id h : hub_ok tidy h -> hub_ok tidy (LeaveRoom r id h) /\ shrinks h (LeaveRoom r id h).
Proof.
  intros (H1 & H2 & H3 & H4 & H5).
  assert (shrinks h (LeaveRoom r id h)) as Hs.
  { intros r' id' c. unfold in_room. cbn. rewrite drop_from_spec. by case_decide. }
  split; [|done]. split_and!; cbn; try done.
  - intros r' id' c H. by eapply H4, Hs.
  - intros Ht. by apply drop_from_nonempty, H5.
Qed.
Lemma close_ok tidy h : hub_ok tidy h -> hub_ok tidy (close_hub h) /\ shrinks h (close_hub h).
Proof. intros Hok. split; [exact Hok|by apply shrinks_rooms]. Qed.
Lemma join_ok auth r id h ok h' : hub_ok (bool_decide (is_Some auth)) h -> JoinRoom auth r id h = (ok, h') ->
  hub_ok (bool_decide (is_Some auth)) h' /\
  (forall r' id' c, in_room h' r' id' = Some c -> in_room h r' id' = Some c \/
     (r' = r /\ id' = id /\ h_clients h !! id = Some c /\ (is_Some auth -> answer_of auth r (cl_UserID c) = inl true))).
Proof.
  intros Hok E. pose proof Hok as (H1 & H2 & H3 & H4 & H5). unfold JoinRoom in E.
  destruct (negb _) eqn:En; injection E as <- <-; [by split; [|intros; left]|].
  assert (forall c, h_clients h !! id = Some c -> is_Some auth -> answer_of auth r (cl_UserID c) = inl true) as Hyes.
  { intros c Hc [can ->]. rewrite Hc in En. cbn. by destruct (can r (cl_UserID c)) as [[|]|]. }
  assert (forall r' id' c, in_room {| h_clients := h_clients h; h_userClients := h_userClients h;
    h_rooms := <[r := match h_clients h !! id with Some c => <[id := c]> (default ∅ (h_rooms h !! r)) | None => default ∅ (h_rooms h !! r) end]> (h_rooms h);
    h_closed := h_closed h |} r' id' = Some c -> in_room h r' id' = Some c \/ (r' = r /\ id' = id /\ h_clients h !! id = Some c)) as Hin.
  { intros r' id' c. unfold in_room. cbn. destruct (decide (r = r')) as [<-|Hne]; [|rewrite lookup_insert_ne by done; by left].
    rewrite lookup_insert_eq. cbn. assert (default ∅ (h_rooms h !! r) !! id' = Some c -> h_rooms h !! r ≫= (λ m, m !! id') = Some c) as Hd.
    { by destruct (h_rooms h !! r); cbn; [|rewrite lookup_empty]. }
    destruct (h_clients h !! id) as [d|]; [|by left; apply Hd]. rewrite lookup_insert_Some. intros [[<- <-]|[_ H]]; [by right|left; by apply Hd]. }
  split; [split_and!; cbn; try done|].
  - intros r' id' c [H|(-> & -> & H)]%Hin; [by eapply H4|done].
  - intros Ht r' m. rewrite lookup_insert_Some. intros [[<- <-]|[_ Hm]]; [|by eapply H5].
    case_bool_decide as Ha; [|done]. destruct auth as [can|]; [|by destruct Ha]. destruct (h_clients h !! id); [apply insert_non_empty|done].
  - intros r' id' c [H|(-> & -> & H)]%Hin; [by left|right]. auto.
Qed.

(** ** Connections *)
Definition texts (l : list frame) : list string := omap (λ f, match f with Text d => Some d | _ => None end) l.
(** What was accepted is what was written, what the closing socket lost and what waits;
    nothing is lost while the pump runs. *)
Definition conn_ok (c : conn) : Prop :=
  (length (cn_Send c) <= sendBufferSize)%nat /\
  exists lost, cn_accepted c = texts (cn_frames c) ++ lost ++ cn_Send c /\ (cn_pumping c = true -> lost = []).
Lemma offer_ok d c : conn_ok c -> conn_ok (offer d c).2.
Proof.
  intros Hok. pose proof Hok as (Hl & lost & Ha & Hp). unfold offer. destruct (Nat.ltb_spec (length (cn_Send c)) sendBufferSize); [|done].
  split; cbn; [rewrite length_app; cbn; lia|]. exists lost. by rewrite Ha, <-!app_assoc.
Qed.
Lemma set_closed_ok a b p c : conn_ok c -> (p = true -> cn_pumping c = true) -> conn_ok (set_closed a b p c).
Proof. intros (Hl & lost & Ha & Hp) Hpump. split; [done|]. exists lost. naive_solver. Qed.
Lemma stop_ok c : conn_ok c -> conn_ok (stop_pump c).
Proof. intros H. by apply set_closed_ok. Qed.
Lemma write_ok f c : conn_ok c -> (forall d, f <> Text d) -> conn_ok (write f c).
Proof.
  intros Hok Hf. pose proof Hok as (Hl & lost & Ha & Hp). unfold write. destruct (cn_socketClosed c); [done|]. split; [done|].
  exists lost. cbn. split; [|done]. unfold texts. rewrite omap_app. destruct f; cbn; rewrite ?app_nil_r; try done. by destruct (Hf data).
Qed.
Lemma pump_ok r c : conn_ok c -> conn_ok (WritePump r c).
Proof.
  intros Hok. unfold WritePump. destruct (cn_pumping c) eqn:Ep; [|done]. cbn. destruct r.
  - destruct (cn_closing c); [|done]. by apply stop_ok, write_ok.
  - destruct Hok as (Hl & lost & Ha & Hp). rewrite Hp in Ha by done. destruct (cn_Send c) as [|m rest] eqn:Es.
    { split; [by rewrite Es; cbn; lia|]. exists []. by rewrite Ha, Es. }
    cbn in Hl. destruct (cn_socketClosed c) eqn:Eso.
    + split; cbn; [lia|]. exists [m]. by rewrite Ha.
    + unfold write. cbn. rewrite Eso. split; cbn; [lia|]. exists []. split; [|done]. unfold texts. rewrite omap_app. cbn.
      by rewrite Ha, <-app_assoc.
  - assert (conn_ok (set_pings (cn_missedPings c + 1) c)) as Hok' by exact Hok.
    destruct (_ <=? _); [by apply stop_ok|]. destruct (cn_socketClosed c); [by apply stop_ok|by apply write_ok].
Qed.
Lemma allow_ok now b r c : conn_ok c -> conn_ok (allow now b r c).2.
Proof. intros Hok. unfold allow. by destruct (f64_lt _ _). Qed.

(** ** Requests *)
Section pool.
Context {HR : HubRange} {HJ : HubJSON} (time_text : time -> string) (rdb : bool).
Inductive call :=
  | KConnect (id userID : string) | KRead (c : Client) (i : incoming) | KWrite (id : string) (r : ready) | KEmit (e : event)
  | KAudit | KShutdown (polls : nat) | KConsume (data : string) | KProcess.
Definition serve (k : call) : io unit :=
  match k with
  | KConnect id u => HandleWebSocket id u
  | KRead c i => ReadPump c i
  | KWrite id r => change id (WritePump r)
  | KEmit e => emit time_text rdb e
  | KAudit => AuditRoomMemberships
  | KShutdown polls => Shutdown polls
  | KConsume data => consume data
  | KProcess => processQueue
  end.
(** A connection comes with an identifier of its own, and is read as itself. *)
Definition allowed (k : call) : Prop :=
  match k with KConnect id u => owner id = u | KRead c _ => ours c | _ => True end.
(** The environment: the clock, the draws, what the authorizer answers. *)
Definition outside (w w' : hworld) : Prop :=
  hw_hub w' = hw_hub w /\ hw_conns w' = hw_conns w /\ hw_granted w' = hw_granted w /\ (is_Some (hw_auth w') <-> is_Some (hw_auth w)).
Definition pre (X : Type) (e : hubE X) : Prop :=
  match e with
  | OnHub f => forall tidy h, hub_ok tidy h -> hub_ok tidy (f h).2 /\ shrinks h (f h).2
  | OnConn _ f => forall c, conn_ok c -> conn_ok (f c).2
  | _ => True
  end.
Definition post (X : Type) (e : hubE X) (r : result X) : Prop :=
  match e in hubE X return result X -> Prop with
  | OnHub f => λ r, exists tidy h, hub_ok tidy h /\ r = Ok (f h).1
  | _ => λ _, True
  end r.
Definition wired (w : hworld) : bool := bool_decide (is_Some (hw_auth w)).
Definition Inv (w : hworld) : Prop :=
  hub_ok (wired w) (hw_hub w) /\
  (wired w = true -> forall r id c, in_room (hw_hub w) r id = Some c -> (r, cl_UserID c) ∈ hw_granted w) /\
  (forall id c, hw_conns w !! id = Some c -> conn_ok c).
Lemma perform_inv X (e : hubE X) w r w' : perform_hub X e w = (r, w') -> Inv w -> pre X e -> Inv w' /\ post X e r.
Proof.
  intros E Hinv Hpre. pose proof Hinv as (Hh & Hg & Hc). destruct e; cbn in E.
  - destruct (f (hw_hub w)) as [x h] eqn:Ef. injection E as <- <-. cbn in Hpre.
    destruct (Hpre _ _ Hh) as [H1 H2]. rewrite Ef in H1, H2. split; [|exists (wired w), (hw_hub w); by rewrite Ef].
    split; [done|]. split; [|done]. intros Hw r id c Hr. by eapply Hg, H2.
  - destruct (JoinRoom _ _ _ _) as [ok h] eqn:Ej. injection E as <- <-. destruct (join_ok _ _ _ _ _ _ Hh Ej) as [H1 H2].
    split; [|done]. split; [done|]. split; [|done]. intros Hw r id c Hr.
    cbn. apply H2 in Hr as [Hr|(-> & -> & -> & Hyes)].
    + apply (Hg Hw) in Hr. destruct (h_clients _ !! _); [case_decide; [by right|done]|done].
    + rewrite decide_True by (apply Hyes; unfold wired in Hw; by apply bool_decide_eq_true_1 in Hw). by left.
  - injection E as _ <-. by split.
  - injection E as _ <-. by split.
  - destruct (hw_conns w !! id) as [c|] eqn:Ec; [|by injection E as <- <-]. destruct (f c) as [x c'] eqn:Ef. injection E as <- <-.
    split; [|done]. split; [done|]. split; [done|]. intros i d. cbn. rewrite lookup_insert_Some. intros [[<- <-]|[_ Hd]]; [|by eapply Hc].
    specialize (Hpre c (Hc _ _ Ec)). by rewrite Ef in Hpre.
  - destruct (limiter_Allow _ _ _ _ _). by injection E as _ <-.
  - injection E as _ <-. by split.
  - destruct (hw_rands w); by injection E as _ <-.
  - injection E as _ <-. split; [|done]. split; [done|]. split; [done|]. intros i d. cbn. rewrite lookup_insert_Some.
    intros [[<- <-]|[_ Hd]]; [|by eapply Hc]. split; [cbn; lia|]. by exists [].
  - injection E as _ <-. by split.
  - injection E as _ <-. split; [|done]. destruct (length (hw_queue w) <=? 1023)%nat; exact Hinv.
  - destruct (hw_queue w); by injection E as _ <-.
Qed.
Lemma outside_inv w w' : outside w w' -> Inv w -> Inv w'.
Proof.
  intros (E1 & E2 & E3 & E4) (Hh & Hg & Hc). assert (wired w' = wired w) as Ew by (unfold wired; by apply bool_decide_ext).
  unfold Inv. by rewrite E1, E2, E3, Ew.
Qed.

Abbreviation safely p := (safe pre post p (λ _, True)).
Lemma bind_safe {A B} (p : io A) (k : A -> io B) : safely p -> (forall a, safely (k a)) -> safely (pbind p k).
Proof. intros Hp Hk. by apply safe_pbind_any. Qed.
Lemma quiet_safe {X} (f : Hub -> X) : safe pre post (see f) (λ r, exists tidy h, hub_ok tidy h /\ r = Ok (f h)).
Proof. apply safe_act; [intros tidy h Hh; split; [done|apply shrinks_refl]|]. intros r (t & h & Hh & ->). by exists t, h. Qed.
Lemma see_safe {X B} (f : Hub -> X) (k : X -> io B) : (forall tidy h, hub_ok tidy h -> safely (k (f h))) -> safely (pbind (see f) k).
Proof. intros Hk. apply safe_pbind. eapply safe_mono; [apply quiet_safe|]. intros r (t & h & Hh & ->). by eapply Hk. Qed.
Lemma hub_safe {X} (f : Hub -> X * Hub) : (forall tidy h, hub_ok tidy h -> hub_ok tidy (f h).2 /\ shrinks h (f h).2) -> safely (on_hub f).
Proof. by split. Qed.
Lemma conn_safe {X} id (f : conn -> X * conn) : (forall c, conn_ok c -> conn_ok (f c).2) -> safely (on_conn id f).
Proof. by split. Qed.
Lemma change_safe id f : (forall c, conn_ok c -> conn_ok (f c)) -> safely (change id f).
Proof. intros Hf. by apply conn_safe. Qed.
Lemma close_safe id : safely (change id Close).
Proof. apply change_safe. intros c Hc. unfold Close. destruct (cn_closing c); [done|by apply set_closed_ok]. Qed.
Lemma disconnect_safe id : safely (change id Disconnect).
Proof. apply change_safe. intros c Hc. unfold Disconnect. destruct (cn_closing c); [done|by apply set_closed_ok]. Qed.
Lemma socket_safe id : safely (change id close_socket).
Proof. apply change_safe. intros c Hc. by apply set_closed_ok. Qed.
Lemma offer_safe id d : safely (on_conn id (offer d)).
Proof. apply conn_safe. by intros c; apply offer_ok. Qed.
Lemma error_safe c m : safely (sendError c m).
Proof. apply safe_pignore, offer_safe. Qed.
Lemma unregister_safe c : ours c -> safely (on_hub (λ h, (tt, Unregister c h))).
Proof. intros Hc. apply hub_safe. intros tidy h Hh. by apply unregister_ok. Qed.
Lemma leave_safe r id : safely (on_hub (λ h, (tt, LeaveRoom r id h))).
Proof. apply hub_safe. intros tidy h Hh. by apply leave_ok. Qed.
#[local] Hint Resolve bind_safe close_safe disconnect_safe socket_safe offer_safe error_safe unregister_safe leave_safe : core.

Lemma handle_safe c d : safely (handleMessage c d).
Proof.
  unfold handleMessage. destruct (client_Unmarshal d) as [field|]; [|done]. cbv zeta.
  destruct (decide _); [by auto using safe_pignore|]. destruct (decide _) as [_|_].
  2: { destruct (decide _); [destruct (decide _); [done|auto]|done]. }
  destruct (decide _); [done|].
  apply bind_safe; [by split|intros now]. apply bind_safe; [apply conn_safe; intros; by apply allow_ok|intros [|]]; cbn [negb]; [|auto].
  apply bind_safe; [by split|intros [|]]; [done|auto].
Qed.
Lemma read_safe c i : ours c -> safely (ReadPump c i).
Proof.
  intros Hc. destruct i; cbn [ReadPump].
  - apply bind_safe; [by apply change_safe|]. intros _. apply handle_safe.
  - by apply change_safe.
  - auto.
Qed.
Lemma connect_safe id u : owner id = u -> safely (HandleWebSocket id u).
Proof.
  intros Ho. unfold HandleWebSocket. destruct (decide _); [done|]. apply bind_safe; [by split|intros _]. unfold register.
  apply bind_safe; [apply hub_safe; intros; by apply register_ok|]. intros [|]; [done|auto].
Qed.
Lemma evict_safe l : Forall ours l -> safely (evict l).
Proof. induction 1 as [|c l Hc _ IH]; cbn [evict]; [done|auto]. Qed.
Lemma send_safe data l dropped : Forall ours l -> Forall ours dropped -> safely (send_all data l dropped).
Proof.
  intros Hl. revert dropped. induction Hl as [|c l Hc _ IH]; intros dropped Hd; cbn [send_all]; [by apply evict_safe|].
  apply bind_safe; [auto|]. intros [|]; apply IH; [done|]. apply Forall_app_2; [done|by constructor].
Qed.
(** The connections a range of the hub gives. *)
Lemma ranged m c : c ∈ range_clients m -> exists id, m !! id = Some c.
Proof. rewrite range_clients_perm, list_elem_of_fmap. intros ([id d] & -> & H%elem_of_map_to_list). by exists id. Qed.
Lemma client_ours tidy h id c : hub_ok tidy h -> h_clients h !! id = Some c -> ours c.
Proof. intros (H1 & _) Hc. by apply H1 in Hc as [_ ?]. Qed.
Lemma member_ours tidy h r m c : hub_ok tidy h -> h_rooms h !! r = Some m -> c ∈ range_clients m -> ours c.
Proof.
  intros Hh Hr (id & Hid)%ranged. pose proof Hh as (_ & _ & _ & H4 & _). eapply client_ours; [done|]. apply (H4 r). unfold in_room. by rewrite Hr.
Qed.
Lemma one_per_group_in seen l c : c ∈ one_per_group seen l -> c ∈ l.
Proof. revert seen. induction l as [|d l IH]; intros seen; [done|]. cbn. case_decide; rewrite !elem_of_cons; naive_solver. Qed.
Lemma broadcast_safe r msg : safely (Broadcast r msg).
Proof.
  unfold Broadcast. apply see_safe. intros tidy h Hh. unfold room_targets. destruct (h_rooms h !! r) as [m|] eqn:Em; cbn; [|done].
  destruct (msg_Marshal msg); [|done]. apply send_safe; [|done]. apply Forall_forall. intros c Hc%one_per_group_in. by eapply member_ours.
Qed.
Lemma least_in l best c : foldl least best l = Some c -> best = Some c \/ c ∈ l.
Proof.
  revert best. induction l as [|d l IH]; intros best; [by left|]. cbn. intros [H|H]%IH; [|right; by right].
  unfold least in H. destruct best as [b|]; [|injection H as ->; right; by left].
  destruct (String.ltb _ _); injection H as ->; [right; by left|by left].
Qed.
Lemma to_user_safe u msg : safely (BroadcastToUser u msg).
Proof.
  unfold BroadcastToUser. destruct (msg_Marshal msg); [|done]. apply see_safe. intros tidy h Hh.
  destruct (user_target u h) as [c|] eqn:Eu; [|done]. apply send_safe; [|done]. constructor; [|done]. unfold user_target in Eu.
  apply least_in in Eu as [?|(id & Hid)%ranged]; [done|]. pose proof Hh as (_ & H2 & _). eapply client_ours; [done|].
  apply (H2 u id c). unfold indexed. destruct (h_userClients h !! u); [done|]. cbn in Hid. by rewrite lookup_empty in Hid.
Qed.
Lemma audit_safe l : safely (audit l).
Proof.
  induction l as [|[r c] l IH]; cbn [audit]; [done|]. apply safe_ptry, safe_act; [done|].
  intros [[|]|e|] _; try done; auto.
Qed.
Lemma force_safe l : Forall ours l -> safely (force l).
Proof. induction 1 as [|c l Hc _ IH]; cbn [force]; [done|auto]. Qed.
Lemma ask_safe d l : safely (ask_to_close d l).
Proof.
  induction l as [|c l IH]; cbn [ask_to_close]; [done|]. apply bind_safe; [by split|intros drawn].
  apply bind_safe; [by apply change_safe|auto].
Qed.
Lemma wait_safe polls : safely (wait polls).
Proof.
  induction polls as [|polls IH]; cbn [wait]; apply see_safe; intros tidy h Hh; destruct (0 <? _); try done.
  apply see_safe. intros t2 h2 Hh2. apply bind_safe; [|done]. apply force_safe, Forall_forall. intros c (id & Hid)%ranged. by eapply client_ours.
Qed.
Lemma publish_safe r msg : safely (publish rdb r msg).
Proof.
  unfold publish. destruct (msg_Marshal msg); [|done]. apply bind_safe; [destruct (decide _); [done|apply broadcast_safe]|].
  intros _. destruct rdb; [|done]. apply safe_pignore. by split.
Qed.
Lemma publish_user_safe u msg : safely (publishToUser rdb u msg).
Proof.
  unfold publishToUser. destruct (msg_Marshal msg); [|done]. apply bind_safe; [apply to_user_safe|].
  intros _. destruct rdb; [|done]. apply safe_pignore. by split.
Qed.
Lemma bridge_safe d : safely (bridge_handleMessage d).
Proof.
  unfold bridge_handleMessage. destruct (msg_Unmarshal d) as [[t [o|]]|]; [|done..]. destruct (pay_of o) as [p|]; [|done].
  apply bind_safe; [by split|intros [|]]; cbn [negb]; [|done]. cbv zeta.
  destruct (bool_decide _); (destruct (decide _); [done|]); [apply to_user_safe|apply broadcast_safe].
Qed.
Lemma serve_safe k : allowed k -> safely (serve k).
Proof.
  destruct k; cbn [serve allowed]; intros Hk.
  - by apply connect_safe.
  - by apply read_safe.
  - apply change_safe. intros c Hc. by apply pump_ok.
  - unfold emit. apply bind_safe; [by split|intros now]. destruct e; first [apply publish_safe|apply publish_user_safe].
  - unfold AuditRoomMemberships. apply bind_safe; [by split|intros [|]]; [|done]. apply see_safe. intros. apply audit_safe.
  - unfold Shutdown. apply bind_safe; [|intros l; apply bind_safe; [apply ask_safe|intros _; apply wait_safe]].
    apply hub_safe. intros tidy h Hh. by apply close_ok.
  - by split.
  - unfold processQueue. apply bind_safe; [by split|]. intros [d|]; [apply bridge_safe|done].
Qed.
Lemma reachable_inv w c : Inv w -> reachable perform_hub serve outside w c -> Forall allowed c.2.*1 -> Inv c.1.
Proof.
  intros Hw Hr Hl. refine (proj1 (pool_safe pre post perform_hub Inv perform_inv serve outside allowed outside_inv serve_safe w c Hw Hr Hl)).
Qed.

Lemma start_inv w : hw_hub w = NewHub -> hw_conns w = ∅ -> Inv w.
Proof.
  intros Hh Hc. unfold Inv. rewrite Hh, Hc. assert (forall r id, in_room NewHub r id = None) as Hr.
  { intros r id. unfold in_room. cbn. by rewrite lookup_empty. }
  split; [split_and!|split]; cbn.
  - intros id c. by rewrite lookup_empty.
  - intros u id c. unfold indexed. cbn. rewrite !lookup_empty. cbn. naive_solver.
  - intros u m. by rewrite lookup_empty.
  - intros r id c. by rewrite Hr.
  - intros _ r m. by rewrite lookup_empty.
  - intros _ r id c. by rewrite Hr.
  - intros id c. by rewrite lookup_empty.
Qed.
Lemma perform_auth X (e : hubE X) w r w' : perform_hub X e w = (r, w') -> hw_auth w' = hw_auth w.
Proof.
  destruct e; cbn; intros E.
  - destruct (f (hw_hub w)). by injection E as _ <-.
  - destruct (JoinRoom _ _ _ _). by injection E as _ <-.
  - by injection E as _ <-.
  - by injection E as _ <-.
  - destruct (hw_conns w !! id); [destruct (f c)|]; by injection E as _ <-.
  - destruct (limiter_Allow _ _ _ _ _). by injection E as _ <-.
  - by injection E as _ <-.
  - destruct (hw_rands w); by injection E as _ <-.
  - by injection E as _ <-.
  - by injection E as _ <-.
  - injection E as _ <-. by destruct (_ <=? _)%nat.
  - destruct (hw_queue w); by injection E as _ <-.
Qed.
(** However requests, pumps, events, audits and a shutdown overlap: the index of users is
    the inverse of the map of clients, with no empty entry, and a room holds registered
    connections only. *)
Theorem hub_indexes w c : hw_hub w = NewHub -> hw_conns w = ∅ -> reachable perform_hub serve outside w c -> Forall allowed c.2.*1 ->
  (forall u id d, indexed (hw_hub c.1) u id = Some d <-> h_clients (hw_hub c.1) !! id = Some d /\ cl_UserID d = u) /\
  (forall u m, h_userClients (hw_hub c.1) !! u = Some m -> m <> ∅) /\
  (forall r id d, in_room (hw_hub c.1) r id = Some d -> h_clients (hw_hub c.1) !! id = Some d).
Proof.
  intros Hh Hc Hr Hl. pose proof (start_inv w Hh Hc) as Hw.
  destruct (reachable_inv w c Hw Hr Hl) as ((_ & H2 & H3 & H4 & _) & _). by split_and!.
Qed.
(** C18: With an authorizer, a connection is in the room of a circle only after the
    authorizer granted it to the connection's user, and no room is empty. *)
Theorem rooms_granted w c : hw_hub w = NewHub -> hw_conns w = ∅ -> is_Some (hw_auth w) ->
  reachable perform_hub serve outside w c -> Forall allowed c.2.*1 ->
  (forall r id d, in_room (hw_hub c.1) r id = Some d -> (r, cl_UserID d) ∈ hw_granted c.1) /\
  (forall r m, h_rooms (hw_hub c.1) !! r = Some m -> m <> ∅).
Proof.
  intros Hh Hc Ha Hr Hl. pose proof (start_inv w Hh Hc) as Hw.
  assert (wired c.1 = true) as Hwired.
  { apply (reachable_ind perform_hub serve outside (λ c, wired c.1 = true) w c); [by apply bool_decide_eq_true_2| |done].
    intros c1 c2 H1 Hstep. destruct Hstep as [w1 ps i l X e k r w' Hi E1|w1 ps l|w1 w' ps (_ & _ & _ & He)]; cbn in *; [|done|].
    - unfold wired in *. by rewrite (perform_auth _ _ _ _ _ E1).
    - unfold wired in *. by rewrite (bool_decide_ext _ _ He). }
  destruct (reachable_inv w c Hw Hr Hl) as ((_ & _ & _ & _ & H5) & H6 & _). split; [by apply H6|by apply H5].
Qed.
(** What is written to a connection is the beginning of what its buffer accepted, in that
    order, and the buffer never holds more than its size. *)
Theorem connection_fifo w c id d : hw_hub w = NewHub -> hw_conns w = ∅ ->
  reachable perform_hub serve outside w c -> Forall allowed c.2.*1 -> hw_conns c.1 !! id = Some d ->
  texts (cn_frames d) `prefix_of` cn_accepted d /\ (length (cn_Send d) <= sendBufferSize)%nat.
Proof.
  intros Hh Hc Hr Hl Hd. pose proof (start_inv w Hh Hc) as Hw.
  destruct (reachable_inv w c Hw Hr Hl) as (_ & _ & H). destruct (H _ _ Hd) as (Hlen & lost & -> & _). split; [|done].
  by eexists.
Qed.
End pool.
End order.

(** ** The shutdown *)
Section shutdown.
Context {HR : HubRange} {HJ : HubJSON} (time_text : time -> string) (rdb : bool).
(** What a thread knows: nothing, or that the hub is closed and who is left at most. *)
Definition stage := option (list string).
Definition holds (s : stage) (h : Hub) : Prop :=
  match s with Some l => h_closed h = true /\ forall id, is_Some (h_clients h !! id) -> id ∈ l | None => True end.
Definition know (h : Hub) : stage := if h_closed h then Some (map_to_list (h_clients h)).*1 else None.
Definition keyed (h : Hub) : Prop := forall id c, h_clients h !! id = Some c -> cl_ID c = id.
(** What every operation keeps: the keys, and once closed a hub takes nobody in. *)
Definition closing (f : Hub -> Hub) : Prop := forall h,
  (keyed h -> keyed (f h)) /\
  (h_closed h = true -> h_closed (f h) = true /\ forall id, is_Some (h_clients (f h) !! id) -> is_Some (h_clients h !! id)).
Definition pre_s (X : Type) (e : hubE X) (s : stage) : Prop :=
  match e with OnHub f => closing (λ h, (f h).2) | _ => True end.
Definition post_s (X : Type) (e : hubE X) (s : stage) (r : result X) (s' : stage) : Prop :=
  match e in hubE X return result X -> Prop with
  | OnHub f => λ r, exists h, keyed h /\ holds s h /\ r = Ok (f h).1 /\ s' = know (f h).2
  | OnConn _ _ | Rand _ => λ r, s' = s /\ forall e, r <> Err e
  | _ => λ _, s' = s
  end r.
Definition Inv_s (w : hworld) (ss : list stage) : Prop := keyed (hw_hub w) /\ forall i s, ss !! i = Some s -> holds s (hw_hub w).
Lemma know_holds h : holds (know h) h.
Proof.
  unfold know. destruct (h_closed h) eqn:E; [|done]. split; [done|]. intros id [c Hc]. apply list_elem_of_fmap. exists (id, c).
  split; [done|]. by apply elem_of_map_to_list.
Qed.
Lemma holds_step f s h : closing f -> holds s h -> holds s (f h).
Proof. intros Hf. destruct s as [l|]; [|done]. intros [Hc Hl]. destruct (Hf h) as [_ Hk]. destruct (Hk Hc) as [Hc' Hin]. split; [done|]. auto. Qed.
Lemma join_closing auth r id h : h_clients (JoinRoom auth r id h).2 = h_clients h /\ h_closed (JoinRoom auth r id h).2 = h_closed h.
Proof. unfold JoinRoom. by destruct (negb _). Qed.
Lemma perform_s X (e : hubE X) w r w' ss i s : perform_hub X e w = (r, w') -> Inv_s w ss -> ss !! i = Some s -> pre_s X e s ->
  exists s', post_s X e s r s' /\ Inv_s w' (<[i := s']> ss).
Proof.
  intros E [Hk Hss] Hi Hpre.
  assert (forall w1, hw_hub w1 = hw_hub w -> Inv_s w1 (<[i := s]> ss)) as Hsame.
  { intros w1 Hw1. rewrite list_insert_id by done. split; rewrite Hw1; [done|exact Hss]. }
  destruct e; cbn in E.
  - destruct (f (hw_hub w)) as [x h] eqn:Ef. injection E as <- <-. cbn in Hpre. pose proof (Hpre (hw_hub w)) as [Hk' _]. rewrite Ef in Hk'.
    exists (know h). split; [exists (hw_hub w); rewrite Ef; split_and!; try done; by eapply Hss|]. split; [by apply Hk'|].
    intros j s'. rewrite list_lookup_insert_Some. intros [(<- & <- & _)|[_ Hj]]; [apply know_holds|]. cbn.
    pose proof (holds_step (λ h, (f h).2) _ _ Hpre (Hss _ _ Hj)) as H. cbn in H. by rewrite Ef in H.
  - exists s. split; [done|]. pose proof (join_closing (hw_auth w) circleID clientID (hw_hub w)) as [H1 H2].
    destruct (JoinRoom _ _ _ _) as [ok h]. injection E as _ <-. cbn in H1, H2. rewrite list_insert_id by done.
    split; cbn; [unfold keyed; by rewrite H1|]. intros j s' Hj. apply Hss in Hj. unfold holds in *. by rewrite H1, H2.
  - exists s. injection E as _ <-. by split; [|apply Hsame].
  - exists s. injection E as _ <-. by split; [|apply Hsame].
  - exists s. destruct (hw_conns w !! id); [destruct (f c)|]; injection E as <- <-; (split; [by split|by apply Hsame]).
  - exists s. split; [done|]. apply Hsame. destruct (limiter_Allow _ _ _ _ _). by injection E as _ <-.
  - exists s. injection E as _ <-. by split; [|apply Hsame].
  - exists s. destruct (hw_rands w); injection E as <- <-; (split; [by split|by apply Hsame]).
  - exists s. injection E as _ <-. by split; [|apply Hsame].
  - exists s. injection E as _ <-. by split; [|apply Hsame].
  - exists s. split; [done|]. apply Hsame. injection E as _ <-. by destruct (_ <=? _)%nat.
  - exists s. split; [done|]. apply Hsame. destruct (hw_queue w); by injection E as _ <-.
Qed.

Lemma same_closing {X} (f : Hub -> X) : closing (λ h, ((f h, h)).2).
Proof. by intros h. Qed.
Lemma unregister_closing c : closing (Unregister c).
Proof.
  intros h. split.
  - intros Hk id d. cbn. intros [_ H]%lookup_delete_Some. by apply Hk.
  - intros Hc. split; [done|]. intros id [d H]. cbn in H. apply lookup_delete_Some in H as [_ H]. by exists d.
Qed.
Lemma register_closing c : closing (λ h, (Register c h).2).
Proof.
  intros h. unfold Register. destruct (h_closed h) eqn:E; [done|]. destruct (h_clients h !! cl_ID c); [done|]. cbn. split; [|done].
  intros Hk id d. cbn. rewrite lookup_insert_Some. intros [[<- <-]|[_ H]]; [done|by apply Hk].
Qed.
Abbreviation typed s p := (staged pre_s post_s s p (λ _ _, True)).
Lemma bind_typed {A B} s (p : io A) (k : A -> io B) : typed s p -> (forall s' a, typed s' (k a)) -> typed s (pbind p k).
Proof. intros Hp Hk. apply staged_bind. eapply staged_mono; [exact Hp|]. intros s' [a|e|] _; [apply Hk|done..]. Qed.
Lemma try_typed {A B} s (p : io A) (k : A + error -> io B) : typed s p -> (forall s' a, typed s' (k a)) -> typed s (ptry p k).
Proof. intros Hp Hk. apply staged_try. eapply staged_mono; [exact Hp|]. intros s' [a|e|] _; [apply Hk..|done]. Qed.
Lemma hub_typed {X} s (f : Hub -> X * Hub) : closing (λ h, (f h).2) -> typed s (on_hub f).
Proof. by split. Qed.
Lemma plain_typed {X} s (e : hubE X) : pre_s X e s -> typed s (act e).
Proof. by split. Qed.
#[local] Ltac steps := repeat (cbv zeta; lazymatch goal with
  | |- staged _ _ _ (pbind _ _) _ => apply bind_typed; [|intros ? ?]
  | |- staged _ _ _ (ptry _ _) _ => apply try_typed; [|intros ? ?]
  | |- staged _ _ _ (pignore _) _ => apply try_typed; [|intros ? ?]
  | |- staged _ _ _ (see _) _ => apply hub_typed, same_closing
  | |- staged _ _ _ (change _ _) _ => by apply plain_typed
  | |- staged _ _ _ (on_conn _ _) _ => by apply plain_typed
  | |- staged _ _ _ (sendError _ _) _ => unfold sendError
  | |- staged _ _ _ (act _) _ => by apply plain_typed
  | |- staged _ _ _ (pret _) _ => exact I
  | |- staged _ _ _ (pfail _) _ => exact I
  | |- staged _ _ _ (on_hub (λ h, (tt, Unregister _ h))) _ => apply hub_typed, unregister_closing
  | |- staged _ _ _ (on_hub (Register _)) _ => apply hub_typed, register_closing
  | |- staged _ _ _ (on_hub _) _ => by apply hub_typed
  | |- staged _ _ _ (match ?x with _ => _ end) _ => destruct x
  end).
Lemma evict_typed s l : typed s (evict l).
Proof. revert s. induction l as [|c l IH]; intros s; cbn [evict]; steps. apply IH. Qed.
Lemma send_typed s d l dropped : typed s (send_all d l dropped).
Proof. revert s dropped. induction l as [|c l IH]; intros s dropped; cbn [send_all]; [apply evict_typed|]. steps; apply IH. Qed.
Lemma broadcast_typed s r m : typed s (Broadcast r m).
Proof. unfold Broadcast. steps. apply send_typed. Qed.
Lemma to_user_typed s u m : typed s (BroadcastToUser u m).
Proof. unfold BroadcastToUser. steps. apply send_typed. Qed.
Lemma audit_typed s l : typed s (audit l).
Proof. revert s. induction l as [|[r c] l IH]; intros s; cbn [audit]; steps; apply IH. Qed.
Lemma emit_typed s e : typed s (emit time_text rdb e).
Proof.
  unfold emit, publish, publishToUser. apply bind_typed; [by apply plain_typed|intros s' now]. cbv zeta.
  destruct e; destruct (msg_Marshal _); try done; (apply bind_typed; [|intros s2 []; steps]);
    try (destruct (decide _); [done|]); first [apply broadcast_typed|apply to_user_typed].
Qed.
Lemma other_typed s k : match k with KShutdown _ => False | _ => True end -> typed s (serve time_text rdb k).
Proof.
  destruct k; cbn [serve]; intros Hk; try done.
  - unfold HandleWebSocket, register. steps.
  - unfold ReadPump, handleMessage. destruct i; steps.
  - apply emit_typed.
  - unfold AuditRoomMemberships. steps. apply audit_typed.
  - unfold processQueue, bridge_handleMessage. steps; first [apply to_user_typed|apply broadcast_typed].
Qed.
(** What the thread of a shutdown knows at its end. *)
Definition nobody (s : stage) : Prop := exists l, s = Some l /\ forall id, id ∉ l.
Definition ending (k : call) (s : stage) (r : result unit) : Prop :=
  match k with KShutdown _ => r <> Panic -> nobody s | _ => True end.
Definition left_none (s : stage) (r : result unit) : Prop := match r with Ok _ => nobody s | Err _ => False | Panic => True end.
Lemma know_closed s h : holds s h -> s <> None -> know h = Some (map_to_list (h_clients h)).*1.
Proof. intros Hs Hn. unfold know. destruct s as [l|]; [|done]. by destruct Hs as [-> _]. Qed.
Lemma ids_in (m : gmap string Client) id : id ∈ (map_to_list m).*1 <-> is_Some (m !! id).
Proof.
  rewrite list_elem_of_fmap. split.
  - intros ([i c] & -> & H%elem_of_map_to_list). by exists c.
  - intros [c Hc]. exists (id, c). split; [done|]. by apply elem_of_map_to_list.
Qed.
Lemma force_ends l s0 : (forall id, id ∈ s0 -> id ∈ cl_ID <$> l) -> staged pre_s post_s (Some s0) (force l) left_none.
Proof.
  revert s0. induction l as [|c l IH]; intros s0 Hs; cbn [force].
  { exists s0. split; [done|]. by intros id Hid%Hs%not_elem_of_nil. }
  apply staged_bind, staged_act; [done|]. intros r s1 [-> Hr]. destruct r as [[]|e|]; [|by destruct (Hr e)|done].
  apply staged_bind, staged_act; [apply unregister_closing|]. intros r s1 (h & Hk & [Hc Hh] & -> & ->). cbn [fst snd].
  unfold know. cbn [Unregister h_closed h_clients]. rewrite Hc. apply IH. intros id [d [Hne Hd]%lookup_delete_Some]%ids_in.
  assert (id ∈ cl_ID <$> c :: l) as Hin by (by apply Hs, Hh; exists d). apply elem_of_cons in Hin as [->|Hin]; [done|exact Hin].
Qed.
Lemma wait_ends polls s : s <> None -> staged pre_s post_s s (wait polls) (λ s r, r <> Panic -> nobody s).
Proof.
  revert s. induction polls as [|polls IH]; intros s Hn; cbn [wait]; apply staged_bind, staged_act; try apply same_closing;
    intros r s1 (h & Hk & Hs & -> & ->); cbn [fst snd]; rewrite (know_closed s h Hs Hn);
    destruct (Z.ltb_spec 0 (ClientCount h)) as [Hlt|Hge].
  2, 4: intros _; eexists; split; [done|]; intros id [c Hc]%ids_in; unfold ClientCount in Hge;
    assert (h_clients h = ∅) as He by (apply map_size_empty_inv; lia); by rewrite He, lookup_empty in Hc.
  2: by apply IH.
  apply staged_bind, staged_act; [apply same_closing|]. intros r s2 (h2 & Hk2 & Hs2 & -> & ->). cbn [fst snd].
  rewrite (know_closed _ h2 Hs2) by done. apply staged_bind. eapply staged_mono; [apply force_ends|].
  - intros id [c Hc]%ids_in. apply list_elem_of_fmap. exists c. split; [by rewrite (Hk2 _ _ Hc)|].
    rewrite range_clients_perm. apply list_elem_of_fmap. exists (id, c). split; [done|]. by apply elem_of_map_to_list.
  - intros s3 [[]|e|] H; [by intros _|by destruct H|by intros []].
Qed.
Lemma ask_ends d l s (Q : stage -> result unit -> Prop) : Q s (Ok tt) -> Q s Panic -> staged pre_s post_s s (ask_to_close d l) Q.
Proof.
  intros H1 H2. induction l as [|c l IH]; cbn [ask_to_close]; [done|].
  apply staged_bind, staged_act; [done|]. intros r s1 [-> Hr]. destruct r as [x|e|]; [|by destruct (Hr e)|done].
  do 2 (apply staged_bind, staged_act; [done|]; intros r s1 [-> Hr']; destruct r as [[]|e|]; [|by destruct (Hr' e)|done]; clear Hr').
  exact IH.
Qed.
Lemma shutdown_ends polls : staged pre_s post_s None (Shutdown polls) (λ s r, r <> Panic -> nobody s).
Proof.
  unfold Shutdown. apply staged_bind, staged_act; [done|]. intros r s1 (h & Hk & _ & -> & ->). cbn [fst snd].
  apply staged_bind, ask_ends; [|done]. by apply wait_ends.
Qed.

(** C19: However requests, pumps, events, audits and other shutdowns overlap: from the moment
    a shutdown has returned, in time or not, the hub is closed and has no client, no
    connection that came in the meantime included. *)
Theorem shutdown_leaves_none w c i polls r : hw_hub w = NewHub ->
  reachable perform_hub (serve time_text rdb) outside w c -> c.2 !! i = Some (KShutdown polls, Done r) -> r <> Panic ->
  h_closed (hw_hub c.1) = true /\ h_clients (hw_hub c.1) = ∅.
Proof.
  intros Hh Hr Hi Hp.
  destruct (pool_staged_ends pre_s post_s perform_hub Inv_s perform_s (serve time_text rdb) outside (λ _, None)) with
    (ending := ending) (tag := λ (_ : stage) (_ : call), True) (w := w) (c := c) as (ss & [_ HI] & Hss); try done.
  - intros w1 w2 ss (E & _) [H1 H2]. split; by rewrite E.
  - intros w1 ss l [H1 H2]. split; [done|]. intros j s. rewrite lookup_snoc_Some. intros [[_ H]|[_ <-]]; [by eapply H2|done].
  - intros k. assert (match k with KShutdown _ => False | _ => True end \/ exists p, k = KShutdown p) as [Hk|[p ->]] by (destruct k; eauto).
    + eapply staged_mono; [by apply other_typed|]. by destruct k.
    + apply shutdown_ends.
  - split; [|done]. rewrite Hh. intros id d. cbn. by rewrite lookup_empty.
  - destruct (Forall2_lookup_r _ _ _ _ _ Hss Hi) as (s & Hs & Hend & _). cbn in Hend. destruct (Hend Hp) as (l & -> & Hl).
    destruct (HI _ _ Hs) as [Hc Hin]. split; [done|]. apply map_empty. intros id. apply eq_None_not_Some. intros H. by eapply Hl, Hin.
Qed.
End shutdown.

(** ** Who gets a message *)
Section targets.
Context {HR : HubRange}.
Lemma one_per_group_spec seen l :
  NoDup (group_of <$> one_per_group seen l) /\
  (forall d, d ∈ one_per_group seen l -> group_of d ∉ seen) /\
  (forall c, c ∈ l -> group_of c ∈ seen \/ exists d, d ∈ one_per_group seen l /\ group_of d = group_of c).
Proof.
  revert seen. induction l as [|c l IH]; intros seen; cbn [one_per_group].
  { split_and!; [constructor|by intros d ?%not_elem_of_nil|by intros d ?%not_elem_of_nil]. }
  case_decide as Hc.
  - destruct (IH seen) as (H1 & H2 & H3). split_and!; [done..|]. intros d [->|Hd]%elem_of_cons; [by left|by apply H3].
  - destruct (IH (group_of c :: seen)) as (H1 & H2 & H3). split_and!.
    + rewrite fmap_cons. constructor; [|done]. intros (d & Hd & Hin)%list_elem_of_fmap. apply (H2 d Hin). rewrite <-Hd. by left.
    + intros d [->|Hd]%elem_of_cons; [done|]. intros Hs. apply (H2 d Hd). by right.
    + intros d [->|Hd]%elem_of_cons; [right; exists c; split; [by left|done]|].
      destruct (H3 d Hd) as [[->|Hs]%elem_of_cons|(d' & Hd' & E)]; [right; exists c; by split; [left|]|by left|right; exists d'; by split; [right|]].
Qed.
(** A broadcast goes to connections of its room, one of each user that has one there. *)
Theorem room_targets_spec r h l : room_targets r h = Some l ->
  NoDup (group_of <$> l) /\ (forall d, d ∈ l -> exists id, in_room h r id = Some d) /\
  (forall id c, in_room h r id = Some c -> exists d, d ∈ l /\ group_of d = group_of c).
Proof.
  unfold room_targets, in_room. destruct (h_rooms h !! r) as [m|]; [|done]. cbn. intros [= <-].
  destruct (one_per_group_spec [] (range_clients m)) as (H1 & _ & H3). split_and!; [done| |].
  - intros d Hd%one_per_group_in. by apply ranged.
  - intros id c Hc. destruct (H3 c) as [Hn|H]; [|by apply not_elem_of_nil in Hn|done].
    rewrite range_clients_perm. apply list_elem_of_fmap. exists (id, c). split; [done|]. by apply elem_of_map_to_list.
Qed.
End targets.
(** The delay a shutdown hints at is between a second and a minute more. *)
Theorem spread_bounds n : reconnectMinDelay <= reconnectSpread n <= reconnectMaxSpread.
Proof.
  unfold reconnectSpread, reconnectMaxSpread, reconnectMinDelay, second.
  destruct (Z.ltb_spec (wrap64 (n * 1000000000) ÷ reconnectTargetRate) 1000000000); [lia|].
  destruct (Z.ltb_spec (60 * 1000000000) (wrap64 (n * 1000000000) ÷ reconnectTargetRate)); lia.
Qed.

(** ** Runs

    Maps are ranged over in the order of their lists; the events of the runs are the ones
    the codec knows. *)
#[local] Instance listed : HubRange := {
  range_clients m := (map_to_list m).*2; range_clients_perm m := reflexivity _;
  range_rooms m := map_to_list m; range_rooms_perm m := reflexivity _;
}.
Definition show_value (v : jvalue) : string := match v with JString s => s | JInt n => fmt_d n | JFloat _ => "0.0" end.
Definition show (m : Message) : string := foldl (λ s x, s ++ ";" ++ x.1 ++ ":" ++ show_value x.2)%string (m_Type m) (m_Payload m).
Definition created : event := CircleCreated "c1" "ada".
Definition announced : event := NotificationCreated "ada" "n1".
Definition chatted : event := ChatMessageDelivered "ada" [("senderId", JString "bob"); ("recipientId", JString "ada")]%string.
Definition known : list Message := (λ e, message_of fmt_d e 1) <$> [created; announced; chatted].
#[local] Instance codec : HubJSON := {
  msg_Marshal m := Some (show m);
  msg_Unmarshal d := (λ m, (m_Type m, Some (m_Payload m))) ∘ snd <$> list_find (λ m, show m = d) known;
  client_Unmarshal d := Some (λ k, if decide (k = "type")%string then "subscribe" else if decide (k = "circleId")%string then d else "")%string;
  error_Marshal s := s;
}.
Definition fresh (auth : option (string -> string -> bool + error)) : hworld :=
  {| hw_hub := NewHub; hw_conns := ∅; hw_now := 1; hw_auth := auth; hw_granted := []; hw_rands := []; hw_limits := ∅;
     hw_published := []; hw_queue := [] |}.
(** Only ada is a member of a circle. *)
Definition members : option (string -> string -> bool + error) := Some (λ _ u, inl (bool_decide (u = "ada"%string))).
Definition owners (id : string) : string := if decide (id = "3"%string) then "bob" else "ada".
Definition call_turns (n i : nat) (k : call) : list (turn (W := hworld) (L := call)) := Start k :: replicate n (Run i).
Definition ada1 : Client := {| cl_ID := "1"; cl_UserID := "ada" |}.
Definition ada2 : Client := {| cl_ID := "2"; cl_UserID := "ada" |}.
Definition bob : Client := {| cl_ID := "3"; cl_UserID := "bob" |}.
Definition enter (c : Client) (i : nat) : list (turn (W := hworld) (L := call)) :=
  call_turns 2 i (KConnect (cl_ID c) (cl_UserID c)) ++ call_turns 5 (S i) (KRead c (Received "c1")).
Definition joined : list (turn (W := hworld) (L := call)) := enter ada1 0 ++ enter ada2 2 ++ enter bob 4.
Abbreviation play rdb turns w := (schedule perform_hub (serve fmt_d rdb) turns (w, [])) (only parsing).
Definition received (id : string) (w : hworld) : list string := default [] (cn_accepted <$> hw_conns w !! id).
(** With the authorizer bob is refused; as the server is wired he is in the room. *)
Theorem room_open_to_all :
  received "3" (play false joined (fresh members)).1 = ["forbidden: not a circle member"]%string /\
  in_room (hw_hub (play false joined (fresh members)).1) "c1" "3" = None /\
  in_room (hw_hub (play false joined (fresh None)).1) "c1" "3" = Some bob.
Proof. split_and!; by vm_compute. Qed.
(** An event goes to one of ada's two connections, and with Redis it comes back through
    the bridge: twice to that connection, the second time without its fields. *)
Definition relay : list (turn (W := hworld) (L := call)) :=
  joined ++ call_turns 8 6 (KEmit created) ++ call_turns 1 7 (KConsume (show (message_of fmt_d created 1))) ++ call_turns 8 8 KProcess.
Theorem relayed_twice :
  let w := (play true relay (fresh members)).1 in
  hw_published w = ["circle.created;circleId:c1;organizerId:ada;timestamp:1"]%string /\
  received "2" w ++ received "1" w = ["circle.created;circleId:c1;organizerId:ada;timestamp:1";
    "circle.created;circleId:c1;communityId:;userId:;status:;roundNumber:0;amount:0.0;timestamp:1"]%string /\
  (received "1" w = [] \/ received "2" w = []).
Proof. split_and!; [by vm_compute..|]. vm_compute. by (left + right). Qed.
(** A chat message that came from another instance reaches nobody. *)
Definition chat_relay : list (turn (W := hworld) (L := call)) :=
  joined ++ call_turns 1 6 (KConsume (show (message_of fmt_d chatted 1))) ++ call_turns 8 7 KProcess.
Theorem chat_not_relayed :
  let w := (play true chat_relay (fresh members)).1 in
  received "1" w = [] /\ received "2" w = [] /\ hw_queue w = [].
Proof. split_and!; by vm_compute. Qed.
(** An authorizer that fails during an audit takes the members out of their rooms. *)
Definition broken : option (string -> string -> bool + error) := Some (λ _ _, inr (External "connection refused")).
Definition audited : hworld * pool (E := hubE) (L := call) :=
  let '(w, ps) := play false joined (fresh members) in
  schedule perform_hub (serve fmt_d false) (call_turns 12 6 KAudit)
    ({| hw_hub := hw_hub w; hw_conns := hw_conns w; hw_now := hw_now w; hw_auth := broken; hw_granted := hw_granted w; hw_rands := [];
        hw_limits := ∅; hw_published := []; hw_queue := [] |}, ps).
Theorem audit_on_error : in_room (hw_hub (play false joined (fresh members)).1) "c1" "1" = Some ada1 /\ h_rooms (hw_hub audited.1) = ∅.
Proof. split; by vm_compute. Qed.
(** Without an authorizer a connection that has left makes a room that stays, empty. *)
Definition ghost_room : list (turn (W := hworld) (L := call)) :=
  call_turns 2 0 (KConnect "1" "ada") ++ [Start (KRead ada1 (Received "c1")); Run 1; Run 1; Run 1] ++ call_turns 2 2 (KRead ada1 ReadError) ++ [Run 1].
Theorem room_of_nobody : Stats (hw_hub (play false ghost_room (fresh None)).1) = (0, 1) /\ Stats (hw_hub (play false ghost_room (fresh members)).1) = (0, 0).
Proof. split; by vm_compute. Qed.

(** ** Witnesses *)
Lemma reach turns w : existsb is_env turns = false -> reachable perform_hub (serve fmt_d false) outside w (play false turns w).
Proof. apply (schedule_steps_closed perform_hub (serve fmt_d false) outside turns (w, [])). Qed.
Definition at_work : hworld * pool (E := hubE) (L := call) := play false joined (fresh members).
Lemma hub_indexes_witness : indexed (hw_hub at_work.1) "bob" "3" = Some bob.
Proof.
  destruct (hub_indexes owners fmt_d false (fresh members) at_work) as (H & _); [reflexivity|reflexivity|by apply (reach joined)|..].
  - vm_compute. by repeat constructor.
  - apply H. by vm_compute.
Defined.
Lemma rooms_granted_witness : ("c1", "ada")%string ∈ hw_granted at_work.1.
Proof.
  destruct (rooms_granted owners fmt_d false (fresh members) at_work) as (H & _);
    [reflexivity|reflexivity|by eexists|by apply (reach joined)|..].
  - vm_compute. by repeat constructor.
  - apply (H "c1"%string "1"%string ada1). by vm_compute.
Defined.
Definition refused : conn := default new_conn (hw_conns at_work.1 !! "3"%string).
Lemma connection_fifo_witness : texts (cn_frames refused) `prefix_of` cn_accepted refused /\ cn_accepted refused <> [].
Proof.
  split; [|by vm_compute].
  apply (connection_fifo owners fmt_d false (fresh members) at_work "3"); [reflexivity|reflexivity|by apply (reach joined)|..].
  - vm_compute. by repeat constructor.
  - by vm_compute.
Defined.
(** The context of the shutdown is over before anyone has left; a connection comes late. *)
Definition down : list (turn (W := hworld) (L := call)) := joined ++ call_turns 18 6 (KShutdown 0) ++ call_turns 3 7 (KConnect "4" "ada").
Definition stopped : hworld * pool (E := hubE) (L := call) := play false down (fresh members).
Lemma shutdown_leaves_none_witness : h_clients (hw_hub at_work.1) <> ∅ /\ h_clients (hw_hub stopped.1) = ∅ /\
  cn_closing <$> (hw_conns stopped.1 !! "4"%string) = Some true.
Proof.
  split_and!; [by vm_compute| |by vm_compute].
  apply (shutdown_leaves_none fmt_d false (fresh members) stopped 6 0 (Err deadline_exceeded));
    [reflexivity|by apply (reach down)|by vm_compute|done].
Defined.
Definition targets_now : list Client := default [] (room_targets "c1" (hw_hub at_work.1)).
Lemma room_targets_witness : exists d, d ∈ targets_now /\ group_of d = "ada"%string.
Proof.
  destruct (room_targets_spec "c1" (hw_hub at_work.1) targets_now) as (_ & _ & H); [by vm_compute|].
  apply (H "1"%string ada1). by vm_compute.
Defined.
End hubprops.
