(* ===== verification/Chat.v ===== *)
(** Encrypted chat (src/internal/domain/chat, with chat_handler.go of
    src/internal/api/handler): the keys of users and their bundles, conversations and
    messages over transactions that lock and wait, and the handshake. *)
From S2P Require Export Threads GoStrings Webhook.
From stdpp Require Import options.
From Stdlib Require Import Ascii.
#[local] Set Default Proof Using "Type*".
Open Scope Z_scope.
Local Open Scope go_scope.

Module chat.

(** ** Data (model.go) *)
Record Conversation := { c_ID : string; c_UserAID : string; c_UserBID : string; c_CreatedAt : time }.
Definition OtherParticipant (c : Conversation) (userID : string) : string :=
  if decide (c_UserAID c = userID) then c_UserBID c else c_UserAID c.
Definition HasParticipant (c : Conversation) (userID : string) : bool :=
  bool_decide (c_UserAID c = userID \/ c_UserBID c = userID).
Record Message := {
  m_ID : string; m_ConversationID : string; m_SenderID : string; m_Sequence : Z; m_Ciphertext : string; m_Nonce : string;
  m_EphemeralKey : option string; m_OneTimePreKeyID : option Z; m_CreatedAt : time;
}.
Definition set_sequence (n : Z) (m : Message) : Message :=
  {| m_ID := m_ID m; m_ConversationID := m_ConversationID m; m_SenderID := m_SenderID m; m_Sequence := n; m_Ciphertext := m_Ciphertext m;
     m_Nonce := m_Nonce m; m_EphemeralKey := m_EphemeralKey m; m_OneTimePreKeyID := m_OneTimePreKeyID m; m_CreatedAt := m_CreatedAt m |}.
(** x3dh.go *)
Record PreKeyBundle := {
  b_UserID : string; b_IdentityKey : string; b_SignedPreKey : string; b_SignedPreKeyID : Z; b_Signature : string;
  b_OneTimePreKey : string; b_OneTimePreKeyID : Z;
}.

(** ** The tables (migrations 029 and 041)

    Rows are in the order of their insertion.  Users, conversations and messages are not
    deleted here. *)
Record conv_row := { r_id : uuid; r_user_a : uuid; r_user_b : uuid; r_created_at : time }.
Record msg_row := {
  r_msg : uuid; r_conversation : uuid; r_sender : uuid; r_sequence : Z; r_ciphertext : string; r_nonce : string;
  r_ephemeral_key : option string; r_one_time_prekey_id : option Z; r_at : time;
}.
Record signed_row := { r_key_id : Z; r_signed_prekey_pub : string; r_signature : string; r_signed_at : time }.
Record chatdb := {
  cd_users : gset uuid;
  cd_identity : gmap uuid string;
  cd_signed : gmap uuid (list signed_row);
  cd_onetime : gmap (uuid * Z) (string * bool);   (** the key and whether it is used *)
  cd_convs : list conv_row;
  cd_msgs : list msg_row;
}.
(** What a statement leaves to be done when its transaction commits. *)
Inductive write :=
  | WIdentity (u : uuid) (pub : string) | WSigned (u : uuid) (r : signed_row) | WOneTime (u : uuid) (key : Z) (pub : string)
  | WUsed (u : uuid) (key : Z) | WConv (r : conv_row) | WMessage (m : msg_row).
(** [ON CONFLICT (user_id, key_id) DO UPDATE SET signed_prekey_pub, signature]. *)
Fixpoint upsert_signed (r : signed_row) (l : list signed_row) : list signed_row :=
  match l with
  | [] => [r]
  | r' :: l =>
      if decide (r_key_id r' = r_key_id r)
      then {| r_key_id := r_key_id r; r_signed_prekey_pub := r_signed_prekey_pub r; r_signature := r_signature r; r_signed_at := r_signed_at r' |} :: l
      else r' :: upsert_signed r l
  end.
Definition apply_write (t : chatdb) (wr : write) : chatdb :=
  let mk i s o c m := {| cd_users := cd_users t; cd_identity := i; cd_signed := s; cd_onetime := o; cd_convs := c; cd_msgs := m |} in
  let keep o := mk (cd_identity t) (cd_signed t) o (cd_convs t) (cd_msgs t) in
  match wr with
  | WIdentity u pub => mk (<[u := pub]> (cd_identity t)) (cd_signed t) (cd_onetime t) (cd_convs t) (cd_msgs t)
  | WSigned u r => mk (cd_identity t) (<[u := upsert_signed r (default [] (cd_signed t !! u))]> (cd_signed t)) (cd_onetime t) (cd_convs t) (cd_msgs t)
  | WOneTime u key pub => keep (match cd_onetime t !! (u, key) with Some _ => cd_onetime t | None => <[(u, key) := (pub, false)]> (cd_onetime t) end)
  | WUsed u key => keep (alter (λ x, (x.1, true)) (u, key) (cd_onetime t))
  | WConv r => mk (cd_identity t) (cd_signed t) (cd_onetime t) (cd_convs t ++ [r]) (cd_msgs t)
  | WMessage m => mk (cd_identity t) (cd_signed t) (cd_onetime t) (cd_convs t) (cd_msgs t ++ [m])
  end.
(** A transaction under way: the conversations it locked, what it wrote, and whether one
    of its statements failed. *)
Record tx := { tx_locks : list uuid; tx_writes : list write; tx_failed : bool }.
Definition view (x : tx) (t : chatdb) : chatdb := foldl apply_write t (tx_writes x).

(** ** Statements *)
Inductive stmt : Type -> Type :=
  | FindConv (a b : uuid) : stmt (option conv_row)
  | GetConv (id : uuid) : stmt (option conv_row)
  | ConvsOf (u : uuid) : stmt (list conv_row)
  | InsertConv (a b : uuid) : stmt unit
  | PutIdentity (u : uuid) (pub : string) : stmt unit
  | PutSigned (u : uuid) (key : Z) (pub signature : string) : stmt unit
  | IdentityOf (u : uuid) : stmt (option string)
  | SignedOf (u : uuid) : stmt (option signed_row)
  | CountUnused (u : uuid) : stmt Z
  | InsertOneTime (u : uuid) (key : Z) (pub : string) : stmt unit
  | ClaimOneTime (u : uuid) : stmt (option (Z * string))
  | LockConv (id : uuid) : stmt unit
  | NextSequence (conv : uuid) : stmt Z
  | InsertMessage (m : msg_row) : stmt unit
  | MessagesOf (conv : uuid) (before limit : Z) : stmt (list msg_row).

(** What a statement meets: rows with what it writes, an error, or a lock of another
    transaction, for which it waits. *)
Inductive outcome (A : Type) := Rows (a : A) (ws : list write) | Fails (code : string) | Waits.
Arguments Rows {A} a ws.
Arguments Fails {A} code.
Arguments Waits {A}.
Definition newest_first {A} (at_ : A -> time) (x y : A) : Prop := at_ y <= at_ x.
#[export] Instance newest_first_dec {A} (at_ : A -> time) x y : Decision (newest_first at_ x y).
Proof. unfold newest_first. apply _. Defined.
Definition unused_of (u : uuid) (taken : list (uuid * Z)) (t : chatdb) : list (Z * string) :=
  omap (λ x : (uuid * Z) * (string * bool),
    if decide (x.1.1 = u /\ x.2.2 = false /\ x.1 ∉ taken) then Some (x.1.2, x.2.1) else None) (map_to_list (cd_onetime t)).
Definition lower_id (best : option (Z * string)) (x : Z * string) : option (Z * string) :=
  match best with Some b => if x.1 <? b.1 then Some x else best | None => Some x end.
Definition taken_by (others : list tx) : list (uuid * Z) :=
  omap (λ wr, match wr with WUsed u k => Some (u, k) | _ => None end) (mjoin (tx_writes <$> others)).
Definition pending_key (u : uuid) (key : Z) (wr : write) : bool :=
  match wr with WOneTime u' key' _ => bool_decide (u' = u /\ key' = key) | _ => false end.
Definition pending_msg (m : msg_row) (wr : write) : bool :=
  match wr with
  | WMessage m' => bool_decide (r_msg m' = r_msg m \/ (r_conversation m' = r_conversation m /\ r_sequence m' = r_sequence m))
  | _ => false
  end.
Definition in_other (p : write -> bool) (others : list tx) : bool := existsb (λ x, existsb p (tx_writes x)) others.
Definition locked (id : uuid) (others : list tx) : bool := existsb (λ x, bool_decide (id ∈ tx_locks x)) others.
Definition conv_of (id : uuid) (t : chatdb) : option conv_row := snd <$> list_find (λ r, r_id r = id) (cd_convs t).
Definition in_int4 (n : Z) : bool := (- 2 ^ 31 <=? n) && (n <? 2 ^ 31).
Definition messages_in (conv : uuid) (t : chatdb) : list msg_row := filter (λ m, r_conversation m = conv) (cd_msgs t).
Definition max_sequence (l : list msg_row) : Z := foldr (λ m n, Z.max (r_sequence m) n) 0 l.
(** [t] is what the statement sees, [others] the other transactions under way, [now] and
    [id] what the columns of a new row default to. *)
Definition exec {A} (q : stmt A) (now : time) (id : uuid) (others : list tx) (t : chatdb) : outcome A :=
  match q in stmt A return outcome A with
  | FindConv a b => Rows (snd <$> list_find (λ r, r_user_a r = a /\ r_user_b r = b) (cd_convs t)) []
  | GetConv c => Rows (conv_of c t) []
  | ConvsOf u => Rows (merge_sort (newest_first r_created_at) (filter (λ r, r_user_a r = u \/ r_user_b r = u) (cd_convs t))) []
  | InsertConv a b =>
      if decide (a = b) then Fails "23514"
      else if decide (Exists (λ r, r_user_a r = a /\ r_user_b r = b) (cd_convs t)) then Rows tt []
      else if decide (a ∉ cd_users t \/ b ∉ cd_users t) then Fails "23503"
      else if decide (Exists (λ r, r_id r = id) (cd_convs t)) then Fails "23505"
      else Rows tt [WConv {| r_id := id; r_user_a := a; r_user_b := b; r_created_at := now |}]
  | PutIdentity u pub => if decide (u ∉ cd_users t) then Fails "23503" else Rows tt [WIdentity u pub]
  | PutSigned u key pub signature =>
      if negb (in_int4 key) then Fails "22003"
      else if decide (u ∉ cd_users t) then Fails "23503"
      else Rows tt [WSigned u {| r_key_id := key; r_signed_prekey_pub := pub; r_signature := signature; r_signed_at := now |}]
  | IdentityOf u => Rows (cd_identity t !! u) []
  | SignedOf u => Rows (head (merge_sort (newest_first r_signed_at) (default [] (cd_signed t !! u)))) []
  | CountUnused u => Rows (Z.of_nat (length (unused_of u [] t))) []
  | InsertOneTime u key pub =>
      if negb (in_int4 key) then Fails "22003"
      else match cd_onetime t !! (u, key) with
      | Some _ => Rows tt []
      | None =>
          if in_other (pending_key u key) others then Waits
          else if decide (u ∉ cd_users t) then Fails "23503"
          else Rows tt [WOneTime u key pub]
      end
  | ClaimOneTime u =>
      match foldl lower_id None (unused_of u (taken_by others) t) with
      | Some (key, pub) => Rows (Some (key, pub)) [WUsed u key]
      | None => Rows None []
      end
  | LockConv c => match conv_of c t with Some _ => if locked c others then Waits else Rows tt [] | None => Rows tt [] end
  | NextSequence c => Rows (max_sequence (messages_in c t) + 1) []
  | InsertMessage m =>
      if decide (Exists (λ x, 64 < char_length x) (option_list (r_ephemeral_key m))) then Fails "22001"
      else if decide (Exists (λ n, in_int4 n = false) (option_list (r_one_time_prekey_id m))) then Fails "22003"
      else if locked (r_conversation m) others || in_other (pending_msg m) others then Waits
      else if existsb (λ x, pending_msg m (WMessage x)) (cd_msgs t) then Fails "23505"
      else if decide (conv_of (r_conversation m) t = None \/ r_sender m ∉ cd_users t) then Fails "23503"
      else Rows tt [WMessage m]
  | MessagesOf c before limit =>
      let l := filter (λ m, before <= 0 \/ r_sequence m < before) (messages_in c t) in
      Rows (take (Z.to_nat limit) (merge_sort (newest_first r_sequence) l)) []
  end.

(** ** Actions *)
(** What a handler answers. *)
Inductive answer :=
  | Published | BundleIs (b : PreKeyBundle) | Created (c : Conversation) | Conversations (l : list Conversation)
  | Sent (m : Message) | Messages (l : list Message)
  | BadRequest (e : error) | NotFound (message : string) | Forbidden (message : string) | InternalError (message : string).
Inductive chatE : Type -> Type :=
  | Alone {A : Type} (q : stmt A) : chatE (option A)             (** a statement with a transaction of its own *)
  | Begin : chatE nat
  | Within {A : Type} (n : nat) (q : stmt A) : chatE (option A)  (** [None]: it waits for a lock *)
  | Commit (n : nat) : chatE unit
  | Rollback (n : nat) : chatE unit
  | Now : chatE time
  | NewID : chatE uuid
  | Deliver (recipientID : string) (m : Message) : chatE unit    (** to the broadcaster *)
  | Respond (a : answer) : chatE unit.
Abbreviation io := (prog chatE) (only parsing).

Section programs.
Context {UL : UUIDLib}.
(** How often a statement that waits is tried before its context is over, and whether the
    service has a broadcaster. *)
Context (patience : nat) (broadcaster : bool).
Definition context_canceled_error : error := External "context canceled".
Fixpoint await {A} (n : nat) (e : chatE (option A)) : io A :=
  let* r := act e in
  match r, n with
  | Some a, _ => pret a
  | None, S n => await n e
  | None, O => pfail context_canceled_error
  end.
Definition stmt_run {A} (q : stmt A) : io A := await patience (Alone q).
Definition tx_run {A} (n : nat) (q : stmt A) : io A := await patience (Within n q).
(** A text bound to a column of type UUID. *)
Definition column {A} (s : string) (k : uuid -> io A) : io A :=
  match uuid_Parse s with Some u => k u | None => pfail (External "22P02") end.
(** [GetContext]: a statement that gives one row. *)
Definition one_row {A} (p : io (option A)) : io A :=
  let* r := p in match r with Some a => pret a | None => pfail (Sentinel "sql: no rows in result set") end.
Definition ErrNoRows : error := Sentinel "sql: no rows in result set".
(** [defer tx.Rollback()] *)
Definition defer_rollback {A} (n : nat) (body : io A) : io A :=
  ptry body (λ r, do* pignore (act (Rollback n)) in match r with inl a => pret a | inr e => pfail e end).
Definition or_not_found {A} (format : string) (p : io A) : io A :=
  ptry p (λ r,
    match r with
    | inl a => pret a
    | inr e => if errors_Is e ErrNoRows then pfail apperrors_ErrNotFound else pfail (Wrapf format e)
    end).

(** *** key_repository_pg.go *)
Record OneTimePreKeyInput := { oi_KeyID : Z; oi_PubKey : string }.
Definition UpsertIdentityKey (userID identityKeyPub : string) : io unit :=
  pwrap "upserting identity key: %w" (column userID (λ u, stmt_run (PutIdentity u identityKeyPub))).
Definition UpsertSignedPreKey (userID : string) (keyID : Z) (signedPreKeyPub signature : string) : io unit :=
  pwrap "upserting signed prekey: %w" (column userID (λ u, stmt_run (PutSigned u keyID signedPreKeyPub signature))).
Fixpoint insert_keys (n : nat) (userID : string) (keys : list OneTimePreKeyInput) : io unit :=
  match keys with
  | [] => pret tt
  | k :: keys =>
      do* pwrap "inserting one-time prekey %d: %w" (column userID (λ u, tx_run n (InsertOneTime u (oi_KeyID k) (oi_PubKey k)))) in
      insert_keys n userID keys
  end.
Definition AddOneTimePreKeys (userID : string) (keys : list OneTimePreKeyInput) : io unit :=
  match keys with
  | [] => pret tt
  | _ =>
      let* n := pwrap "beginning one-time prekey transaction: %w" (act Begin) in
      defer_rollback n (do* insert_keys n userID keys in act (Commit n))
  end.
Definition CountUnusedOneTimePreKeys (userID : string) : io Z :=
  pwrap "counting unused one-time prekeys: %w" (column userID (λ u, stmt_run (CountUnused u))).
Definition claim (userID : string) (n : nat) (bundle : PreKeyBundle) : io PreKeyBundle :=
  let* opk := pwrap "claiming one-time prekey: %w" (column userID (λ u, tx_run n (ClaimOneTime u))) in
  do* pwrap "committing one-time prekey claim: %w" (act (Commit n)) in
  pret match opk with
       | Some (key, pub) =>
           {| b_UserID := b_UserID bundle; b_IdentityKey := b_IdentityKey bundle; b_SignedPreKey := b_SignedPreKey bundle;
              b_SignedPreKeyID := b_SignedPreKeyID bundle; b_Signature := b_Signature bundle; b_OneTimePreKey := pub; b_OneTimePreKeyID := key |}
       | None => bundle
       end.
Definition repo_GetBundle (userID : string) : io PreKeyBundle :=
  let* identityKeyPub := or_not_found "getting identity key: %w" (column userID (λ u, one_row (stmt_run (IdentityOf u)))) in
  let* signedPreKey := or_not_found "getting signed prekey: %w" (column userID (λ u, one_row (stmt_run (SignedOf u)))) in
  let bundle := {| b_UserID := userID; b_IdentityKey := identityKeyPub; b_SignedPreKey := r_signed_prekey_pub signedPreKey;
                   b_SignedPreKeyID := r_key_id signedPreKey; b_Signature := r_signature signedPreKey;
                   b_OneTimePreKey := ""; b_OneTimePreKeyID := 0 |} in
  let* n := pwrap "beginning one-time prekey claim transaction: %w" (act Begin) in
  defer_rollback n (claim userID n bundle).

(** *** repository_pg.go *)
Definition scan_conv (r : conv_row) : Conversation :=
  {| c_ID := uuid_String (r_id r); c_UserAID := uuid_String (r_user_a r); c_UserBID := uuid_String (r_user_b r); c_CreatedAt := r_created_at r |}.
Definition scan_msg (r : msg_row) : Message :=
  {| m_ID := uuid_String (r_msg r); m_ConversationID := uuid_String (r_conversation r); m_SenderID := uuid_String (r_sender r);
     m_Sequence := r_sequence r; m_Ciphertext := r_ciphertext r; m_Nonce := r_nonce r; m_EphemeralKey := r_ephemeral_key r;
     m_OneTimePreKeyID := r_one_time_prekey_id r; m_CreatedAt := r_at r |}.
Definition orderPair (x y : string) : string * string := if String.ltb x y then (x, y) else (y, x).
Definition GetOrCreateConversation (userA userB : string) : io Conversation :=
  let '(a, b) := orderPair userA userB in
  let find := column a (λ ua, column b (λ ub, one_row (stmt_run (FindConv ua ub)))) in
  ptry find (λ r,
    match r with
    | inl conv => pret (scan_conv conv)
    | inr e =>
        if negb (errors_Is e ErrNoRows) then pfail (Wrapf "looking up conversation: %w" e)
        else
          do* pwrap "creating conversation: %w" (column a (λ ua, column b (λ ub, stmt_run (InsertConv ua ub)))) in
          let* conv := pwrap "reloading conversation after create: %w" find in
          pret (scan_conv conv)
    end).
Definition GetConversation (id : string) : io Conversation :=
  let* r := or_not_found "getting conversation: %w" (column id (λ c, one_row (stmt_run (GetConv c)))) in pret (scan_conv r).
Definition repo_ListConversations (userID : string) : io (list Conversation) :=
  let* l := pwrap "listing conversations: %w" (column userID (λ u, stmt_run (ConvsOf u))) in pret (scan_conv <$> l).
Definition CreateMessage (msg : Message) : io Message :=
  let* n := pwrap "beginning message transaction: %w" (act Begin) in
  defer_rollback n (
    do* pwrap "locking conversation: %w" (column (m_ConversationID msg) (λ c, tx_run n (LockConv c))) in
    let* nextSeq := pwrap "computing next sequence: %w" (column (m_ConversationID msg) (λ c, tx_run n (NextSequence c))) in
    do* pwrap "creating message: %w"
      (column (m_ID msg) (λ id, column (m_ConversationID msg) (λ c, column (m_SenderID msg) (λ u,
        tx_run n (InsertMessage {| r_msg := id; r_conversation := c; r_sender := u; r_sequence := nextSeq; r_ciphertext := m_Ciphertext msg;
          r_nonce := m_Nonce msg; r_ephemeral_key := m_EphemeralKey msg; r_one_time_prekey_id := m_OneTimePreKeyID msg; r_at := m_CreatedAt msg |}))))) in
    do* pwrap "committing message: %w" (act (Commit n)) in
    pret (set_sequence nextSeq msg)).
Definition repo_ListMessages (conversationID : string) (beforeSequence limit : Z) : io (list Message) :=
  let limit := if (limit <=? 0) || (200 <? limit) then 50 else limit in
  let* l := pwrap "listing messages: %w" (column conversationID (λ c, stmt_run (MessagesOf c beforeSequence limit))) in
  pret (scan_msg <$> l).

(** *** service.go *)
Record PublishKeysInput := {
  pi_IdentityKeyPub : string; pi_SignedPreKeyID : Z; pi_SignedPreKeyPub : string; pi_Signature : string;
  pi_OneTimePreKeys : list OneTimePreKeyInput;
}.
Record SendMessageInput := { si_Ciphertext : string; si_Nonce : string; si_EphemeralKey : string; si_OneTimePreKeyID : option Z }.
Definition PublishKeys (userID : string) (input : PublishKeysInput) : io unit :=
  if decide (pi_IdentityKeyPub input = ""%string) then pfail (Errorf "identityKeyPub is required")
  else if decide (pi_SignedPreKeyPub input = ""%string \/ pi_Signature input = ""%string)
  then pfail (Errorf "signedPreKeyPub and signature are required")
  else
    do* UpsertIdentityKey userID (pi_IdentityKeyPub input) in
    do* UpsertSignedPreKey userID (pi_SignedPreKeyID input) (pi_SignedPreKeyPub input) (pi_Signature input) in
    AddOneTimePreKeys userID (pi_OneTimePreKeys input).
Definition GetBundle (targetUserID : string) : io PreKeyBundle := repo_GetBundle targetUserID.
Definition CreateConversation (userID otherUserID : string) : io Conversation :=
  if decide (userID = otherUserID) then pfail (Errorf "cannot start a conversation with yourself")
  else GetOrCreateConversation userID otherUserID.
Definition ListConversations (userID : string) : io (list Conversation) := repo_ListConversations userID.
Definition SendMessage (userID conversationID : string) (input : SendMessageInput) : io Message :=
  if decide (si_Ciphertext input = ""%string \/ si_Nonce input = ""%string) then pfail (Errorf "ciphertext and nonce are required")
  else
    let* conv := GetConversation conversationID in
    if negb (HasParticipant conv userID) then pfail apperrors_ErrForbidden
    else
      let* id := act NewID in
      let* now := act Now in
      let* msg := CreateMessage {| m_ID := uuid_String id; m_ConversationID := conversationID; m_SenderID := userID; m_Sequence := 0;
        m_Ciphertext := si_Ciphertext input; m_Nonce := si_Nonce input;
        m_EphemeralKey := if decide (si_EphemeralKey input = ""%string) then None else Some (si_EphemeralKey input);
        m_OneTimePreKeyID := si_OneTimePreKeyID input; m_CreatedAt := now |} in
      do* (if broadcaster then pignore (act (Deliver (OtherParticipant conv userID) msg)) else pret tt) in
      pret msg.
Definition ListMessages (userID conversationID : string) (beforeSequence limit : Z) : io (list Message) :=
  let* conv := GetConversation conversationID in
  if negb (HasParticipant conv userID) then pfail apperrors_ErrForbidden
  else repo_ListMessages conversationID beforeSequence limit.

(** *** chat_handler.go: [None] is a body that does not bind *)
Definition answered (p : io answer) : io unit := let* a := p in act (Respond a).
Definition binds (l : list string) : bool := forallb (λ s, negb (bool_decide (s = ""%string))) l.
Definition invalid_body : error := External "binding".
Definition handler_PublishKeys (userID : string) (req : option PublishKeysInput) : io unit :=
  answered match req with
  | Some input =>
      if negb (binds [pi_IdentityKeyPub input; pi_SignedPreKeyPub input; pi_Signature input]) || (pi_SignedPreKeyID input =? 0)
      then pret (BadRequest invalid_body)
      else ptry (PublishKeys userID input) (λ r, pret match r with inl _ => Published | inr e => BadRequest e end)
  | None => pret (BadRequest invalid_body)
  end.
Definition handler_GetBundle (userId : string) : io unit :=
  answered (ptry (GetBundle userId) (λ r, pret
    match r with
    | inl bundle => BundleIs bundle
    | inr e => if errors_Is e apperrors_ErrNotFound then NotFound "user has not published chat keys" else InternalError "failed to get key bundle"
    end)).
Definition handler_CreateConversation (userID : string) (req : option string) : io unit :=
  answered match req with
  | Some other =>
      if negb (binds [other]) then pret (BadRequest (Errorf "userId is required"))
      else ptry (CreateConversation userID other) (λ r, pret match r with inl conv => Created conv | inr e => BadRequest e end)
  | None => pret (BadRequest (Errorf "userId is required"))
  end.
Definition handler_ListConversations (userID : string) : io unit :=
  answered (ptry (ListConversations userID) (λ r, pret
    match r with inl l => Conversations l | inr _ => InternalError "failed to list conversations" end)).
Definition refusal (e : error) (otherwise : answer) : answer :=
  if errors_Is e apperrors_ErrForbidden then Forbidden "not a participant in this conversation"
  else if errors_Is e apperrors_ErrNotFound then NotFound "conversation not found"
  else otherwise.
Definition handler_SendMessage (userID id : string) (req : option SendMessageInput) : io unit :=
  answered match req with
  | Some input =>
      if negb (binds [si_Ciphertext input; si_Nonce input]) then pret (BadRequest (Errorf "ciphertext and nonce are required"))
      else ptry (SendMessage userID id input) (λ r, pret match r with inl msg => Sent msg | inr e => refusal e (BadRequest e) end)
  | None => pret (BadRequest (Errorf "ciphertext and nonce are required"))
  end.
(** [strconv.ParseInt] with its error ignored: out of range it gives the nearest value. *)
Definition parse_before (raw : string) : Z :=
  match ParseInt raw with
  | inl n => n
  | inr e => if decide (e = External "strconv.ErrRange") then (if String.prefix "-" raw then - 2 ^ 63 else 2 ^ 63 - 1) else 0
  end.
Definition handler_ListMessages (userID id : string) (before limit : string) : io unit :=
  let before := if decide (before = ""%string) then 0 else parse_before before in
  let limit := if decide (limit = ""%string) then 50 else match ParseInt limit with inl l => l | inr _ => 50 end in
  answered (ptry (ListMessages userID id before limit) (λ r, pret
    match r with inl l => Messages l | inr e => refusal e (InternalError "failed to list messages") end)).
End programs.

(** ** The world *)
(** What goes wrong: a statement is refused, or its answer is lost; a commit whose answer
    is lost has taken place. *)
Inductive fault := Refused (code : string) | AnswerLost.
Record cworld := {
  cw_db : chatdb; cw_txs : gmap nat tx; cw_next : nat; cw_now : time; cw_ids : list uuid; cw_faults : list (option fault);
  cw_delivered : list (string * Message); cw_answers : list answer;
}.
Definition set_db (t : chatdb) (txs : gmap nat tx) (next : nat) (w : cworld) : cworld :=
  {| cw_db := t; cw_txs := txs; cw_next := next; cw_now := cw_now w; cw_ids := cw_ids w; cw_faults := cw_faults w;
     cw_delivered := cw_delivered w; cw_answers := cw_answers w |}.
Definition set_draws (ids : list uuid) (faults : list (option fault)) (w : cworld) : cworld :=
  {| cw_db := cw_db w; cw_txs := cw_txs w; cw_next := cw_next w; cw_now := cw_now w; cw_ids := ids; cw_faults := faults;
     cw_delivered := cw_delivered w; cw_answers := cw_answers w |}.
Definition add_output (d : list (string * Message)) (a : list answer) (w : cworld) : cworld :=
  {| cw_db := cw_db w; cw_txs := cw_txs w; cw_next := cw_next w; cw_now := cw_now w; cw_ids := cw_ids w; cw_faults := cw_faults w;
     cw_delivered := cw_delivered w ++ d; cw_answers := cw_answers w ++ a |}.
Definition next_fault (w : cworld) : option fault * cworld := (default None (head (cw_faults w)), set_draws (cw_ids w) (tail (cw_faults w)) w).
Definition next_id (w : cworld) : uuid := default 0%N (head (cw_ids w)).
Definition others_of (n : option nat) (w : cworld) : list tx :=
  (map_to_list match n with Some n => delete n (cw_txs w) | None => cw_txs w end).*2.
Definition lost_error : error := External "08006".
Definition write_to (q_locks : list uuid) (ws : list write) (x : tx) : tx :=
  {| tx_locks := q_locks ++ tx_locks x; tx_writes := tx_writes x ++ ws; tx_failed := tx_failed x |}.
Definition fail_tx (x : tx) : tx := {| tx_locks := tx_locks x; tx_writes := tx_writes x; tx_failed := true |}.
(** The row locks a statement takes. *)
Definition locks_of {A} (q : stmt A) (t : chatdb) : list uuid :=
  match q with LockConv c => if conv_of c t is Some _ then [c] else [] | _ => [] end.
Definition perform_chat (X : Type) (e : chatE X) : M cworld X :=
  match e in chatE X return M cworld X with
  | Alone q => λ w0,
      let '(f, w) := next_fault w0 in
      match f with
      | Some (Refused code) => (Err (External code), w)
      | _ =>
          match exec q (cw_now w) (next_id w) (others_of None w) (cw_db w) with
          | Rows a ws =>
              let w' := set_db (foldl apply_write (cw_db w) ws) (cw_txs w) (cw_next w) (set_draws (tail (cw_ids w)) (cw_faults w) w) in
              (if f is Some AnswerLost then Err lost_error else Ok (Some a), w')
          | Fails code => (Err (External code), w)
          | Waits => (Ok None, w)
          end
      end
  | Begin => λ w0,
      let '(f, w) := next_fault w0 in
      match f with
      | Some (Refused code) => (Err (External code), w)
      | Some AnswerLost => (Err lost_error, w)
      | None => (Ok (cw_next w), set_db (cw_db w) (<[cw_next w := {| tx_locks := []; tx_writes := []; tx_failed := false |}]> (cw_txs w)) (S (cw_next w)) w)
      end
  | Within n q => λ w0,
      let '(f, w) := next_fault w0 in
      match cw_txs w !! n with
      | None => (Err (Sentinel "sql: transaction has already been committed or rolled back"), w)
      | Some x =>
          let failed code := (Err (External code), set_db (cw_db w) (<[n := fail_tx x]> (cw_txs w)) (cw_next w) w) in
          if tx_failed x then failed "25P02"%string
          else match f with
          | Some (Refused code) => failed code
          | Some AnswerLost => failed "08006"%string
          | None =>
              match exec q (cw_now w) (next_id w) (others_of (Some n) w) (view x (cw_db w)) with
              | Rows a ws => (Ok (Some a), set_db (cw_db w) (<[n := write_to (locks_of q (cw_db w)) ws x]> (cw_txs w)) (cw_next w) w)
              | Fails code => failed code
              | Waits => (Ok None, w)
              end
          end
      end
  | Commit n => λ w0,
      let '(f, w) := next_fault w0 in
      match cw_txs w !! n with
      | None => (Err (Sentinel "sql: transaction has already been committed or rolled back"), w)
      | Some x =>
          let ended t := set_db t (delete n (cw_txs w)) (cw_next w) w in
          if tx_failed x then (Err (External "25P02"), ended (cw_db w))
          else match f with
          | Some (Refused code) => (Err (External code), ended (cw_db w))
          | Some AnswerLost => (Err lost_error, ended (view x (cw_db w)))
          | None => (Ok tt, ended (view x (cw_db w)))
          end
      end
  | Rollback n => λ w, (Ok tt, set_db (cw_db w) (delete n (cw_txs w)) (cw_next w) w)
  | Now => λ w, (Ok (cw_now w), w)
  | NewID => λ w, (Ok (next_id w), set_draws (tail (cw_ids w)) (cw_faults w) w)
  | Deliver r m => λ w, (Ok tt, add_output [(r, m)] [] w)
  | Respond a => λ w, (Ok tt, add_output [] [a] w)
  end.

(** ** The handshake (x3dh.go) *)
Record KeyPair {priv pub : Type} := { PrivateKey : priv; PublicKey : pub }.
Arguments KeyPair priv pub : clear implicits.
(** crypto/ecdh, crypto/ed25519 and golang.org/x/crypto/hkdf. *)
Class X25519Lib := {
  private : Type; public : Type;
  public_of : private -> public;
  NewPrivateKey : string -> option private;
  NewPublicKey : string -> option public;
  Bytes : public -> string;
  ECDH : private -> public -> option string;
  hkdf_sha256 : string -> string -> Z -> string;              (** secret, info, length *)
  edprivate : Type; edpublic : Type;
  ed_Sign : edprivate -> string -> string;
  ed_Verify : edpublic -> string -> string -> bool;
}.
Section handshake.
Context `{X25519Lib} `{webhook.HMAC}.
Import webhook.
Abbreviation X3DHKeyPair := (KeyPair private public).
Record X3DHSession := { SharedMasterKey : string; EphemeralPubKey : string; OneTimePreKeyID : Z }.
(** The draw is what [GenerateKey] makes. *)
Definition GenerateKeyPair (drawn : private + error) : result X3DHKeyPair :=
  match drawn with
  | inl priv => Ok {| PrivateKey := priv; PublicKey := public_of priv |}
  | inr e => Err (Wrapf "generate X25519 key: %w" e)
  end.
Definition KeyPairFromHex (privHex : string) : result X3DHKeyPair :=
  match hex_DecodeString privHex with
  | None => Err (Wrapf "invalid private key hex: %w" (External "hex"))
  | Some b =>
      match NewPrivateKey b with
      | None => Err (Wrapf "invalid private key bytes: %w" (External "ecdh"))
      | Some priv => Ok {| PrivateKey := priv; PublicKey := public_of priv |}
      end
  end.
Definition decode_key (what_hex what : string) (s : string) : result public :=
  match hex_DecodeString s with
  | None => Err (Wrapf what_hex (External "hex"))
  | Some b => match NewPublicKey b with Some k => Ok k | None => Err (Wrapf what (External "ecdh")) end
  end.
Definition dh (format : string) (priv : private) (pub : public) : result string :=
  match ECDH priv pub with Some s => Ok s | None => Err (Wrapf format (External "ecdh")) end.
Definition deriveHKDF (secret info : string) (length : Z) : string := hkdf_sha256 secret info length.
Definition protocol_info : string := "Moistello-X3DH-Protocol-Info".
Definition InitiateHandshake (aliceIK aliceEK : X3DHKeyPair) (bobBundle : option PreKeyBundle) : result X3DHSession :=
  match bobBundle with
  | None => Err (Errorf "bob prekey bundle is nil")
  | Some bundle =>
      let? bobIK := decode_key "invalid bob identity key hex: %w" "invalid bob identity key: %w" (b_IdentityKey bundle) in
      let? bobSPK := decode_key "invalid bob signed prekey hex: %w" "invalid bob signed prekey: %w" (b_SignedPreKey bundle) in
      let? dh1 := dh "DH1 failed: %w" (PrivateKey aliceIK) bobSPK in
      let? dh2 := dh "DH2 failed: %w" (PrivateKey aliceEK) bobIK in
      let? dh3 := dh "DH3 failed: %w" (PrivateKey aliceEK) bobSPK in
      let dh4 :=
        if decide (b_OneTimePreKey bundle = ""%string) then ""%string
        else match hex_DecodeString (b_OneTimePreKey bundle) with
        | Some b => match NewPublicKey b with Some bobOPK => default ""%string (ECDH (PrivateKey aliceEK) bobOPK) | None => ""%string end
        | None => ""%string
        end in
      Ok {| SharedMasterKey := deriveHKDF (dh1 ++ dh2 ++ dh3 ++ dh4) protocol_info 32;
            EphemeralPubKey := hex_EncodeToString (Bytes (PublicKey aliceEK)); OneTimePreKeyID := b_OneTimePreKeyID bundle |}
  end.
Definition RespondToHandshake (bobIK bobSPK : X3DHKeyPair) (bobOPK : option X3DHKeyPair) (aliceIKHex aliceEKHex : string) : result X3DHSession :=
  let? aliceIK := decode_key "invalid alice identity key hex: %w" "invalid alice identity key: %w" aliceIKHex in
  let? aliceEK := decode_key "invalid alice ephemeral key hex: %w" "invalid alice ephemeral key: %w" aliceEKHex in
  let? dh1 := dh "DH1 failed: %w" (PrivateKey bobSPK) aliceIK in
  let? dh2 := dh "DH2 failed: %w" (PrivateKey bobIK) aliceEK in
  let? dh3 := dh "DH3 failed: %w" (PrivateKey bobSPK) aliceEK in
  let? dh4 := match bobOPK with Some opk => dh "DH4 failed: %w" (PrivateKey opk) aliceEK | None => Ok ""%string end in
  Ok {| SharedMasterKey := deriveHKDF (dh1 ++ dh2 ++ dh3 ++ dh4) protocol_info 32; EphemeralPubKey := aliceEKHex; OneTimePreKeyID := 0 |}.
Definition DeriveMessageKey (s : X3DHSession) (sequence : Z) : string := hmac_sha256 (SharedMasterKey s) ("msg-key-seq-" ++ fmt_d sequence).
Definition SignPreKey (key : edprivate) (prekeyPub : string) : string := hex_EncodeToString (ed_Sign key prekeyPub).
Definition VerifyPreKeySignature (key : edpublic) (prekeyPub sigHex : string) : bool :=
  match hex_DecodeString sigHex with Some sig => ed_Verify key prekeyPub sig | None => false end.
End handshake.
End chat.
