(* ===== verification/ChatProps.v ===== *)
(** What the chat guarantees however requests overlap: a one-time prekey is handed out
    once, the messages of a conversation are numbered without gaps and written by its
    participants, and both sides of a handshake agree; and the runs that go wrong. *)
From S2P Require Export Chat.
From S2P Require Import WebhookProps Demo.
From stdpp Require Import options.
From Stdlib Require Import Ascii.
#[local] Set Default Proof Using "Type*".
#[local] Set Warnings "-clear-no-such-hyp".
Open Scope Z_scope.
Local Open Scope go_scope.

Module chatprops.
Import chat.

(** ** Tables in order *)
Definition gapless (l : list msg_row) : Prop := r_sequence <$> l = Z.of_nat <$> seq 1 (length l).
Definition participant (t : chatdb) (m : msg_row) : Prop :=
  exists r, conv_of (r_conversation m) t = Some r /\ (r_sender m = r_user_a r \/ r_sender m = r_user_b r).
Definition db_ok (t : chatdb) : Prop := (forall c, gapless (messages_in c t)) /\ (forall m, m ∈ cd_msgs t -> participant t m).
(** What a transaction under way may have written. *)
Inductive shape (t : chatdb) (lk : list uuid) : list write -> Prop :=
  | shape_keys ws : Forall (λ wr, exists u k pub, wr = WOneTime u k pub) ws -> shape t lk ws
  | shape_msg m : r_conversation m ∈ lk -> participant t m ->
      r_sequence m = Z.of_nat (length (messages_in (r_conversation m) t)) + 1 -> shape t lk [WMessage m]
  | shape_used u k pub : cd_onetime t !! (u, k) = Some (pub, false) -> shape t lk [WUsed u k].
(** How the tables move when the locks [lk] are held and the keys [us] claimed. *)
Definition evolves (lk : list uuid) (us : list (uuid * Z)) (t t' : chatdb) : Prop :=
  (forall c r, conv_of c t = Some r -> conv_of c t' = Some r) /\
  (forall c, c ∉ lk -> messages_in c t' = messages_in c t) /\
  (forall key v, key ∉ us -> cd_onetime t !! key = Some v -> cd_onetime t' !! key = Some v) /\
  (forall key pub, cd_onetime t !! key = Some (pub, true) -> cd_onetime t' !! key = Some (pub, true)) /\
  (forall m, m ∈ cd_msgs t -> m ∈ cd_msgs t') /\ db_ok t'.
Definition claims (ws : list write) : list (uuid * Z) := omap (λ wr, match wr with WUsed u k => Some (u, k) | _ => None end) ws.

Lemma gapless_app l m : gapless l -> r_sequence m = Z.of_nat (length l) + 1 -> gapless (l ++ [m]).
Proof.
  unfold gapless. intros Hl Hm. rewrite fmap_app, Hl, List.length_app, seq_app, fmap_app. f_equal. cbn. f_equal. lia.
Qed.
Lemma gapless_max l : gapless l -> max_sequence l = Z.of_nat (length l).
Proof.
  induction l as [|m l IH] using rev_ind; [done|]. unfold gapless. rewrite fmap_app, List.length_app, seq_app, fmap_app. cbn.
  intros [Hl Hm]%app_inj_2; [|done]. injection Hm as Hm. unfold max_sequence. rewrite foldr_app. cbn.
  assert (forall n l, 0 <= n -> foldr (λ m n, Z.max (r_sequence m) n) n l = Z.max n (max_sequence l)) as Hf.
  { clear. intros n l Hn. induction l as [|m l IH]; cbn; [lia|]. unfold max_sequence in *. rewrite IH. lia. }
  rewrite Hf by lia. rewrite (IH Hl). lia.
Qed.
Lemma participant_moves t t' m : (forall c r, conv_of c t = Some r -> conv_of c t' = Some r) -> participant t m -> participant t' m.
Proof. intros H (r & Hr & Hs). exists r. auto. Qed.
Lemma conv_of_id c t r : conv_of c t = Some r -> r_id r = c.
Proof. unfold conv_of. destruct (list_find _ _) as [[i r']|] eqn:E; [|done]. cbn. intros [= <-]. by apply list_find_Some in E as (_ & ? & _). Qed.
Lemma messages_snoc c t m t' : cd_msgs t' = cd_msgs t ++ [m] ->
  messages_in c t' = if decide (r_conversation m = c) then messages_in c t ++ [m] else messages_in c t.
Proof.
  intros E. unfold messages_in. rewrite E, filter_app, filter_cons, filter_nil. case_decide; by rewrite ?app_nil_r.
Qed.
Lemma evolves_refl lk us t : db_ok t -> evolves lk us t t.
Proof. done. Qed.
Lemma evolves_keys lk us t ws : db_ok t -> Forall (λ wr, exists u k pub, wr = WOneTime u k pub) ws -> evolves lk us t (foldl apply_write t ws).
Proof.
  intros Hok Hws. revert t Hok. induction Hws as [|wr ws (u & k & pub & ->) _ IH]; intros t Hok; cbn [foldl]; [by apply evolves_refl|].
  assert (evolves lk us t (apply_write t (WOneTime u k pub))) as (H1 & H2 & H3 & H4 & H5 & H6).
  { split_and!; cbn; try done.
    - intros key v _ Hv. destruct (cd_onetime t !! (u, k)) eqn:E; [done|]. rewrite lookup_insert_ne; [done|]. congruence.
    - intros key v Hv. destruct (cd_onetime t !! (u, k)) eqn:E; [done|]. rewrite lookup_insert_ne; [done|]. congruence. }
  destruct (IH _ H6) as (G1 & G2 & G3 & G4 & G5 & G6). split_and!; auto.
Qed.
Lemma evolves_shape lk t ws : db_ok t -> shape t lk ws -> evolves lk (claims ws) t (foldl apply_write t ws).
Proof.
  intros Hok [ws' Hws|m Hm Hp Hs|u k pub Hu].
  - by apply evolves_keys.
  - cbn [foldl]. destruct Hok as [H1 H2]. split_and!; try done.
    + intros c Hc. rewrite (messages_snoc c t m) by done. rewrite decide_False; [done|]. by intros <-.
    + intros m' Hm'. cbn. apply elem_of_app. by left.
    + split.
      { intros c. rewrite (messages_snoc c t m) by done. case_decide as Hc; [|done]. subst c. by apply gapless_app. }
      intros m'. cbn. intros [Hm'|Hm']%elem_of_app; [by apply H2|]. by apply list_elem_of_singleton in Hm' as ->.
  - cbn [foldl]. split_and!; cbn; try exact Hok; try done.
    + intros key v Hk Hv. rewrite lookup_alter_ne; [done|]. intros <-. apply Hk. by left.
    + intros key pub' Hv. destruct (decide (key = (u, k))) as [->|Hne]; [congruence|]. by rewrite lookup_alter_ne.
Qed.
Lemma shape_frame lk us t t' lk' ws : evolves lk us t t' -> shape t lk' ws -> (forall c, c ∈ lk' -> c ∉ lk) ->
  (forall key, key ∈ claims ws -> key ∉ us) -> shape t' lk' ws.
Proof.
  intros (H1 & H2 & H3 & _) [ws' Hws|m Hm Hp Hs|u k pub Hu] Hlk Hus; [by constructor| |].
  - apply shape_msg; [done|by eapply participant_moves|]. rewrite H2; auto.
  - eapply shape_used, H3; [|done]. apply Hus. by left.
Qed.

(** ** Stages *)
Definition key_of (x : uuid * Z * string) : uuid * Z := x.1.
(** The conversations a thread has read, its transaction and what it did there, the
    prekey it was given and the message it stored. *)
Inductive phase := Clean | Keys | Dirty.
Record stage := {
  s_rows : list conv_row; s_tx : option nat; s_live : bool; s_phase : phase; s_lock : option uuid; s_next : option Z;
  s_claim : option (uuid * Z * string); s_msg : option msg_row; s_key : option (uuid * Z * string); s_sent : option msg_row;
}.
Definition idle : stage := {| s_rows := []; s_tx := None; s_live := false; s_phase := Dirty; s_lock := None; s_next := None; s_claim := None;
  s_msg := None; s_key := None; s_sent := None |}.
Definition in_tx (live : bool) (ph : phase) lock next claim msg (s : stage) : stage :=
  {| s_rows := s_rows s; s_tx := s_tx s; s_live := live; s_phase := ph; s_lock := lock; s_next := next; s_claim := claim; s_msg := msg;
     s_key := s_key s; s_sent := s_sent s |}.
Definition void (live : bool) : stage -> stage := in_tx live Dirty None None None None.
Definition add_row (r : conv_row) (s : stage) : stage :=
  {| s_rows := r :: s_rows s; s_tx := s_tx s; s_live := s_live s; s_phase := s_phase s; s_lock := s_lock s; s_next := s_next s;
     s_claim := s_claim s; s_msg := s_msg s; s_key := s_key s; s_sent := s_sent s |}.
Definition begun (n : nat) (s : stage) : stage :=
  {| s_rows := s_rows s; s_tx := Some n; s_live := true; s_phase := Clean; s_lock := None; s_next := None; s_claim := None; s_msg := None;
     s_key := s_key s; s_sent := s_sent s |}.
Definition gained key sent (s : stage) : stage :=
  {| s_rows := s_rows s; s_tx := s_tx s; s_live := s_live s; s_phase := s_phase s; s_lock := s_lock s; s_next := s_next s;
     s_claim := s_claim s; s_msg := s_msg s; s_key := key; s_sent := sent |}.
Definition committed (s : stage) : stage := void false (gained (s_claim s) (s_msg s) s).
Definition after {A} (q : stmt A) (a : A) (s : stage) : stage :=
  let live := s_live s in
  match q in stmt A return A -> stage with
  | ClaimOneTime u => λ a,
      match a with
      | Some (k, pub) => in_tx live Dirty (s_lock s) (s_next s) (Some (u, k, pub)) (s_msg s) s
      | None => s
      end
  | LockConv c => λ _, in_tx live (s_phase s) (Some c) None (s_claim s) (s_msg s) s
  | NextSequence _ => λ n, in_tx live (s_phase s) (s_lock s) (Some n) (s_claim s) (s_msg s) s
  | InsertMessage m => λ _, in_tx live Dirty (s_lock s) None (s_claim s) (Some m) s
  | InsertOneTime _ _ _ => λ _, in_tx live Keys None None None None s
  | _ => λ _, s
  end a.
(** Statements that have a transaction of their own here. *)
Definition alone {A} (q : stmt A) : bool :=
  match q with
  | FindConv _ _ | GetConv _ | ConvsOf _ | InsertConv _ _ | PutIdentity _ _ | PutSigned _ _ _ _ | IdentityOf _ | SignedOf _ | CountUnused _
  | MessagesOf _ _ _ => true
  | _ => false
  end.
Section inv.
Context {UL : UUIDLib} {ULaws : UUIDLaws}.
(** A message as its row has it, and who gets it. *)
Definition stored (m : Message) (r : msg_row) : Prop :=
  uuid_Parse (m_ID m) = Some (r_msg r) /\ uuid_Parse (m_ConversationID m) = Some (r_conversation r) /\ uuid_Parse (m_SenderID m) = Some (r_sender r) /\
  m_Sequence m = r_sequence r /\ m_Ciphertext m = r_ciphertext r /\ m_Nonce m = r_nonce r.
Definition sides (r : conv_row) (sender recipient : string) : Prop :=
  (sender = uuid_String (r_user_a r) /\ recipient = uuid_String (r_user_b r)) \/
  (sender = uuid_String (r_user_b r) /\ recipient = uuid_String (r_user_a r)).
Definition handed_key (a : answer) : option (uuid * Z) :=
  match a with
  | BundleIs b => if decide (b_OneTimePreKey b = ""%string) then None else (λ u, (u, b_OneTimePreKeyID b)) <$> uuid_Parse (b_UserID b)
  | _ => None
  end.
Definition handed (l : list answer) : list (uuid * Z) := omap handed_key l.
#[local] Arguments handed : simpl never.
Definition may_deliver (s : stage) (recipient : string) (m : Message) : Prop :=
  exists row r, s_sent s = Some row /\ stored m row /\ r ∈ s_rows s /\ r_id r = r_conversation row /\ sides r (m_SenderID m) recipient.
Definition pre (X : Type) (e : chatE X) (s : stage) : Prop :=
  match e with
  | @Alone A q => alone q = true /\ match q with GetConv _ => s_tx s = None | _ => True end
  | Begin => s_tx s = None
  | @Within A n q => s_tx s = Some n /\ s_live s = true /\
      match q with
      | ClaimOneTime _ => s_phase s = Clean
      | LockConv _ => s_phase s = Clean
      | NextSequence c => s_phase s = Clean /\ s_lock s = Some c /\ exists r, r ∈ s_rows s /\ r_id r = c
      | InsertMessage m => s_phase s = Clean /\ s_lock s = Some (r_conversation m) /\ s_next s = Some (r_sequence m) /\
          exists r, r ∈ s_rows s /\ r_id r = r_conversation m /\ (r_sender m = r_user_a r \/ r_sender m = r_user_b r)
      | InsertOneTime _ _ _ => s_phase s <> Dirty
      | _ => False
      end
  | Commit n => s_tx s = Some n /\ s_live s = true
  | Rollback n => s_tx s = Some n
  | Deliver r m => may_deliver s r m
  | Respond a => match handed_key a with Some key => key_of <$> s_key s = Some key | None => True end
  | Now | NewID => True
  end.
Definition post (X : Type) (e : chatE X) (s : stage) (r : result X) (s' : stage) : Prop :=
  match e in chatE X return result X -> Prop with
  | Alone q => λ r, r <> Panic /\
      match q in stmt A return result (option A) -> Prop with
      | GetConv c => λ r, match r with Ok (Some (Some row)) => s' = add_row row s /\ r_id row = c | _ => s' = s end
      | _ => λ _, s' = s
      end r
  | Begin => λ r, match r with Ok n => s' = begun n s | Err _ => s' = s | Panic => False end
  | Within n q => λ r, match r with Ok (Some a) => s' = after q a s | Ok None => s' = s | Err _ => s' = void true s | Panic => False end
  | Commit n => λ r, match r with Ok _ => s' = committed s | Err _ => s' = void false s | Panic => False end
  | Rollback n => λ r, r = Ok tt /\ s' = void false s
  | Respond _ => λ r, r = Ok tt /\ s' = gained None (s_sent s) s
  | Deliver _ _ => λ r, r = Ok tt /\ s' = s
  | Now => λ r, r <> Panic /\ (forall e, r <> Err e) /\ s' = s
  | NewID => λ r, r <> Panic /\ (forall e, r <> Err e) /\ s' = s
  end r.

(** ** The invariant *)
Definition tx_knows (t : chatdb) (x : tx) (s : stage) : Prop :=
  match s_phase s with
  | Clean => tx_writes x = []
  | Keys => Forall (λ wr, exists u k pub, wr = WOneTime u k pub) (tx_writes x)
  | Dirty => True
  end /\
  (forall r, r ∈ s_rows s -> s_lock s = Some (r_id r) -> r_id r ∈ tx_locks x) /\
  (forall v, s_next s = Some v -> exists c, s_lock s = Some c /\ c ∈ tx_locks x /\ v = Z.of_nat (length (messages_in c t)) + 1) /\
  (forall u k pub, s_claim s = Some (u, k, pub) -> tx_writes x = [WUsed u k] /\ cd_onetime t !! (u, k) = Some (pub, false)) /\
  (forall m, s_msg s = Some m -> tx_writes x = [WMessage m]).
Definition stage_ok (w : cworld) (s : stage) : Prop :=
  (forall r, r ∈ s_rows s -> conv_of (r_id r) (cw_db w) = Some r) /\
  (forall n, s_tx s = Some n -> (n < cw_next w)%nat /\
     if s_live s then exists x, cw_txs w !! n = Some x /\ tx_knows (cw_db w) x s else cw_txs w !! n = None) /\
  (forall u k pub, s_key s = Some (u, k, pub) -> cd_onetime (cw_db w) !! (u, k) = Some (pub, true) /\ (u, k) ∉ handed (cw_answers w)) /\
  (forall m, s_sent s = Some m -> m ∈ cd_msgs (cw_db w)).
Definition txs_ok (t : chatdb) (txs : gmap nat tx) (next : nat) : Prop :=
  (forall n x, txs !! n = Some x -> (n < next)%nat /\ shape t (tx_locks x) (tx_writes x)) /\
  (forall n n' x x' c, txs !! n = Some x -> txs !! n' = Some x' -> c ∈ tx_locks x -> c ∈ tx_locks x' -> n = n') /\
  (forall n n' x x' key, txs !! n = Some x -> txs !! n' = Some x' -> key ∈ claims (tx_writes x) -> key ∈ claims (tx_writes x') -> n = n').
Definition delivered_ok (t : chatdb) (l : list (string * Message)) : Prop := forall recipient m, (recipient, m) ∈ l ->
  exists row r, row ∈ cd_msgs t /\ stored m row /\ conv_of (r_conversation row) t = Some r /\ sides r (m_SenderID m) recipient.
Definition world_ok (w : cworld) : Prop :=
  db_ok (cw_db w) /\ txs_ok (cw_db w) (cw_txs w) (cw_next w) /\ NoDup (handed (cw_answers w)) /\
  (forall key, key ∈ handed (cw_answers w) -> exists pub, cd_onetime (cw_db w) !! key = Some (pub, true)) /\
  delivered_ok (cw_db w) (cw_delivered w).
Definition Inv (w : cworld) (ss : list stage) : Prop :=
  world_ok w /\ (forall i s, ss !! i = Some s -> stage_ok w s) /\
  (forall i j s s' n, ss !! i = Some s -> ss !! j = Some s' -> s_tx s = Some n -> s_tx s' = Some n -> i = j) /\
  (forall i j s s' key, ss !! i = Some s -> ss !! j = Some s' -> key_of <$> s_key s = Some key -> key_of <$> s_key s' = Some key -> i = j).

(** What the step of one thread leaves of what the others know. *)
Definition spares (mine : option nat) (w w' : cworld) : Prop :=
  (exists lk us, evolves lk us (cw_db w) (cw_db w') /\
     forall n x, mine <> Some n -> cw_txs w !! n = Some x ->
       cw_txs w' !! n = Some x /\ (forall c, c ∈ tx_locks x -> c ∉ lk) /\ (forall key, key ∈ claims (tx_writes x) -> key ∉ us)) /\
  (cw_next w <= cw_next w')%nat /\
  (forall n, (n < cw_next w)%nat -> mine <> Some n -> cw_txs w !! n = None -> cw_txs w' !! n = None).
Lemma stage_frame mine w w' s : stage_ok w s -> spares mine w w' -> (forall n, s_tx s = Some n -> mine <> Some n) ->
  (forall key, key_of <$> s_key s = Some key -> key ∉ handed (cw_answers w) -> key ∉ handed (cw_answers w')) -> stage_ok w' s.
Proof.
  intros (H1 & H2 & H3 & H4) ((lk & us & (E1 & E2 & E3 & E4 & E5 & E6) & Htx) & Hn & Hnone) Hmine Hkey. split_and!.
  - intros r Hr. by apply E1, H1.
  - intros n Hs. destruct (H2 n Hs) as [Hlt Hx]. split; [lia|]. destruct (s_live s); [|by apply Hnone; auto].
    destruct Hx as (x & Hx & K1 & K2 & K3 & K4 & K5). destruct (Htx n x (Hmine n Hs) Hx) as (Hx' & Hlk & Hus). exists x. split; [done|].
    split_and!; try done.
    + intros v Hv. destruct (K3 v Hv) as (c & Hc & Hin & ->). exists c. split_and!; try done. rewrite E2; auto.
    + intros u k pub Hc. destruct (K4 u k pub Hc) as [Hw Hpub]. split; [done|]. apply E3; [|done]. apply Hus. rewrite Hw. by left.
  - intros u k pub Hk. destruct (H3 u k pub Hk) as [Hu Hh]. split; [by apply E4|]. apply Hkey; [by rewrite Hk|done].
  - intros m Hm. by apply E5, H4.
Qed.
Lemma inv_step w w' ss i s s' : Inv w ss -> ss !! i = Some s -> spares (s_tx s') w w' -> world_ok w' -> stage_ok w' s' ->
  (s_tx s' = s_tx s \/ s_tx s' = Some (cw_next w)) ->
  (forall key, key_of <$> s_key s' = Some key -> key_of <$> s_key s = Some key \/ exists pub, cd_onetime (cw_db w) !! key = Some (pub, false)) ->
  (forall key, key ∈ handed (cw_answers w') -> key ∈ handed (cw_answers w) \/ key_of <$> s_key s = Some key) ->
  Inv w' (<[i := s']> ss).
Proof.
  intros (Hw & Hss & Htx & Hkey) Hi Hsp Hw' Hs' Hmine Hk Ha.
  assert (forall j sj n, i <> j -> ss !! j = Some sj -> s_tx sj = Some n -> s_tx s' <> Some n) as Htx'.
  { intros j sj n Hij Hj Hn Hn'. destruct Hmine as [E|E]; rewrite E in Hn'; [by eapply Hij, Htx|].
    injection Hn' as <-. destruct (Hss _ _ Hj) as (_ & H & _). destruct (H _ Hn). lia. }
  assert (forall j sj key, i <> j -> ss !! j = Some sj -> key_of <$> s_key sj = Some key -> key_of <$> s_key s' <> Some key) as Hkey'.
  { intros j sj key Hij Hj Hk1 Hk2. destruct (Hk _ Hk2) as [H|[pub H]]; [by eapply Hij, Hkey|].
    destruct (s_key sj) as [[[u k] pub']|] eqn:E; [|done]. injection Hk1 as <-. destruct (Hss _ _ Hj) as (_ & _ & H3 & _).
    destruct (H3 _ _ _ E) as [H4 _]. cbn in H. congruence. }
  split; [done|]. split; [|split].
  - intros j sj. rewrite list_lookup_insert_Some. intros [(<- & <- & _)|[Hij Hj]]; [done|].
    eapply stage_frame; [by eapply Hss|done|by intros n Hn; eapply Htx'|].
    intros key Hk1 Hn [H|H]%Ha; [done|]. by eapply Hij, Hkey.
  - intros j j' sj sj' n. rewrite !list_lookup_insert_Some.
    intros [(<- & <- & _)|[Hij Hj]] [(<- & <- & _)|[Hij' Hj']] H1 H2; [done| | |by eapply Htx].
    + by destruct (Htx' _ _ _ Hij' Hj' H2).
    + by destruct (Htx' _ _ _ Hij Hj H1).
  - intros j j' sj sj' key. rewrite !list_lookup_insert_Some.
    intros [(<- & <- & _)|[Hij Hj]] [(<- & <- & _)|[Hij' Hj']] H1 H2; [done| | |by eapply Hkey].
    + by destruct (Hkey' _ _ _ Hij' Hj' H2).
    + by destruct (Hkey' _ _ _ Hij Hj H1).
Qed.
Lemma world_evolves lk us w t txs next : world_ok w -> evolves lk us (cw_db w) t -> txs_ok t txs next -> world_ok (set_db t txs next w).
Proof.
  intros (H1 & H2 & H3 & H4 & H5) (E1 & E2 & E3 & E4 & E5 & E6) Ht. split_and!; cbn; try done.
  - intros key Hk. destruct (H4 key Hk) as [pub Hp]. exists pub. by apply E4.
  - intros recipient m Hm. destruct (H5 _ _ Hm) as (row & r & Hrow & Hst & Hc & Hs). exists row, r. auto.
Qed.

(** *** Statements *)
Lemma others_in n w x : x ∈ others_of (Some n) w <-> exists n', n' <> n /\ cw_txs w !! n' = Some x.
Proof.
  unfold others_of. rewrite list_elem_of_fmap. split.
  - intros ([n' y] & -> & H%elem_of_map_to_list). apply lookup_delete_Some in H as [Hne H]. exists n'. by split; [|].
  - intros (n' & Hne & H). exists (n', x). split; [done|]. apply elem_of_map_to_list. by rewrite lookup_delete_ne.
Qed.
Lemma unlocked c l x : locked c l = false -> x ∈ l -> c ∉ tx_locks x.
Proof.
  unfold locked. intros Hl Hx Hc. assert (existsb (λ x, bool_decide (c ∈ tx_locks x)) l = true) as H; [|congruence].
  apply existsb_exists. exists x. split; [by apply list_elem_of_In|by apply bool_decide_eq_true_2].
Qed.
Lemma taken_in key l : key ∈ taken_by l <-> exists x, x ∈ l /\ key ∈ claims (tx_writes x).
Proof.
  unfold taken_by, claims. rewrite list_elem_of_omap. setoid_rewrite list_elem_of_omap. split.
  - intros (wr & Hwr & Hk). apply list_elem_of_join in Hwr as (ws & Hws & Hin). apply list_elem_of_fmap in Hin as (x & -> & Hx). eauto.
  - intros (x & Hx & wr & Hwr & Hk). exists wr. split; [|done]. apply list_elem_of_join. exists (tx_writes x). split; [done|].
    apply list_elem_of_fmap. by exists x.
Qed.
Lemma lower_in l best x : foldl lower_id best l = Some x -> best = Some x \/ x ∈ l.
Proof.
  revert best. induction l as [|y l IH]; intros best; cbn; [by left|]. intros [H|H]%IH; [|right; by right].
  destruct best as [b|]; cbn in H; [destruct (y.1 <? b.1)|]; injection H as <-; [right; by left|by left|right; by left].
Qed.
Lemma claimed u l t k pub : foldl lower_id None (unused_of u l t) = Some (k, pub) ->
  cd_onetime t !! (u, k) = Some (pub, false) /\ (u, k) ∉ l.
Proof.
  intros [H|H]%lower_in; [done|]. unfold unused_of in H. apply list_elem_of_omap in H as ([[u' k'] [pub' used]] & Hin & H).
  case_decide as Hd; [|done]. cbn in *. destruct Hd as (-> & -> & Hn). injection H as -> ->. split; [|done]. by apply elem_of_map_to_list.
Qed.
Lemma alone_evolves {A} (q : stmt A) now id others t a ws : alone q = true -> db_ok t -> exec q now id others t = Rows a ws ->
  evolves [] [] t (foldl apply_write t ws).
Proof.
  intros Hq Hok E. destruct q; try done; cbn in E; repeat case_decide; try (destruct (negb _)); try (destruct (conv_of _ _));
    simplify_eq; try (by apply evolves_refl).
  2, 3: cbn [foldl]; split_and!; cbn; try done; exact Hok.
  cbn [foldl]. pose proof Hok as [Hg Hp].
  assert (forall d x, conv_of d t = Some x ->
    conv_of d (apply_write t (WConv {| r_id := id; r_user_a := a0; r_user_b := b; r_created_at := now |})) = Some x) as Hc.
  { intros d x. unfold conv_of. cbn. destruct (list_find _ (cd_convs t)) as [[j y]|] eqn:Ef; [|done]. cbn. intros [= <-].
    by rewrite (list_find_app_l _ _ _ _ _ Ef). }
  split_and!; try done. split; [done|]. intros m Hm. by eapply participant_moves, Hp.
Qed.
Lemma txs_evolves lk us t t' txs next : txs_ok t txs next -> evolves lk us t t' ->
  (forall n x, txs !! n = Some x -> (forall c, c ∈ tx_locks x -> c ∉ lk) /\ (forall key, key ∈ claims (tx_writes x) -> key ∉ us)) ->
  txs_ok t' txs next.
Proof.
  intros (H1 & H2 & H3) He Hx. split_and!; [|done..]. intros n x Hn. destruct (H1 n x Hn) as [Hlt Hs]. split; [done|].
  destruct (Hx n x Hn) as [Hl Hu]. by eapply shape_frame.
Qed.
Lemma spares_any m w w' : spares None w w' -> spares m w w'.
Proof.
  intros ((lk & us & He & Hx) & Hn & Hnone). split; [|split; [done|]].
  - exists lk, us. split; [done|]. intros n x _ Hx'. by apply Hx.
  - intros n Hlt _. by apply Hnone.
Qed.
(** A step that leaves the transactions alone. *)
Lemma calm t w ss : Inv w ss -> evolves [] [] (cw_db w) t -> Inv (set_db t (cw_txs w) (cw_next w) w) ss.
Proof.
  intros (Hw & Hss & Hd) He.
  assert (spares None w (set_db t (cw_txs w) (cw_next w) w)) as Hsp.
  { split; [|split; [done|by intros n _ _]]. exists [], []. split; [done|]. intros n x _ Hx. split_and!; [done|intros c _; apply not_elem_of_nil|intros k _; apply not_elem_of_nil]. }
  split; [|split; [|exact Hd]].
  - eapply world_evolves; [done..|]. destruct Hw as (_ & Ht & _). eapply txs_evolves; [done..|].
    intros n x _. split; intros ? _; apply not_elem_of_nil.
  - intros i s Hi. eapply stage_frame; [by eapply Hss|done|done|done].
Qed.
Lemma know_row w ss i s r : Inv w ss -> ss !! i = Some s -> s_tx s = None -> conv_of (r_id r) (cw_db w) = Some r ->
  Inv w (<[i := add_row r s]> ss).
Proof.
  intros HI Hi Hn Hr. pose proof HI as (Hw & Hss & _). destruct (Hss _ _ Hi) as (H1 & H2 & H3 & H4).
  eapply inv_step; [done..| |done| |by left|by left|by left].
  - apply spares_any. split; [|split; [done|by intros n _ _]]. exists [], []. destruct Hw as (Hdb & _). split; [by apply evolves_refl|].
    intros n x _ Hx. split_and!; [done|intros c _; apply not_elem_of_nil|intros k _; apply not_elem_of_nil].
  - split_and!; cbn; try done; [|by rewrite Hn]. intros r' [->|Hr']%elem_of_cons; [done|by apply H1].
Qed.
Lemma step_alone {A} (q : stmt A) w0 r w' ss i s : perform_chat _ (Alone q) w0 = (r, w') -> Inv w0 ss -> ss !! i = Some s -> pre _ (Alone q) s ->
  exists s', post _ (Alone q) s r s' /\ Inv w' (<[i := s']> ss).
Proof.
  cbn [perform_chat pre]. unfold next_fault. intros E HI Hi [Hq Hget]. set (w := set_draws (cw_ids w0) (tail (cw_faults w0)) w0) in *.
  assert (Inv w ss) as HIw by exact HI. clearbody w.
  assert (forall (Hr : r <> Panic) (Hv : Inv w' ss), match q in stmt A return result (option A) -> Prop with
    | GetConv c => λ r, match r with Ok (Some (Some _)) => False | _ => True end | _ => λ _, True end r ->
    exists s', post _ (Alone q) s r s' /\ Inv w' (<[i := s']> ss)) as Hsame.
  { intros Hr Hv Hno. exists s. rewrite list_insert_id by done. split; [|done]. split; [done|]. destruct q; try done.
    destruct r as [[[row|]|]|e|]; done. }
  assert (forall a ws f, exec q (cw_now w) (next_id w) (others_of None w) (cw_db w) = Rows a ws ->
    r = (if f : bool then Err lost_error else Ok (Some a)) ->
    w' = set_db (foldl apply_write (cw_db w) ws) (cw_txs w) (cw_next w) (set_draws (tail (cw_ids w)) (cw_faults w) w) ->
    exists s', post _ (Alone q) s r s' /\ Inv w' (<[i := s']> ss)) as Hrows.
  { intros a ws f Ex -> ->.
    assert (Inv (set_db (foldl apply_write (cw_db w) ws) (cw_txs w) (cw_next w) (set_draws (tail (cw_ids w)) (cw_faults w) w)) ss) as Hv.
    { apply (calm _ (set_draws (tail (cw_ids w)) (cw_faults w) w)); [exact HIw|]. eapply alone_evolves; [done| |done]. by destruct HIw as ((? & _) & _). }
    destruct f; [apply Hsame; [done|done|by destruct q]|]. destruct q; try (by apply Hsame).
    cbn in Ex. injection Ex as <- <-. destruct (conv_of id (cw_db w)) as [row|] eqn:Ec; [|by apply Hsame].
    exists (add_row row s). split; [by split; [|split; [|eapply conv_of_id]]|]. apply know_row; [done|done|by apply Hget|].
    cbn. by rewrite (conv_of_id _ _ _ Ec). }
  destruct (default None (head (cw_faults w0))) as [[code|]|].
  - injection E as <- <-. apply Hsame; [done|done|by destruct q].
  - destruct (exec q _ _ _ _) as [a ws|code|] eqn:Ex; injection E as <- <-.
    + by apply (Hrows a ws true).
    + apply Hsame; [done|done|by destruct q].
    + apply Hsame; [done|done|by destruct q].
  - destruct (exec q _ _ _ _) as [a ws|code|] eqn:Ex; injection E as <- <-.
    + by apply (Hrows a ws false).
    + apply Hsame; [done|done|by destruct q].
    + apply Hsame; [done|done|by destruct q].
Qed.
(** *** Transactions *)
Definition same_thread (s s' : stage) : Prop :=
  s_rows s' = s_rows s /\ s_tx s' = s_tx s /\ s_key s' = s_key s /\ s_sent s' = s_sent s /\ s_live s' = true.
Lemma replace_tx w ss i s s' n x x' : Inv w ss -> ss !! i = Some s -> s_tx s = Some n -> cw_txs w !! n = Some x ->
  shape (cw_db w) (tx_locks x') (tx_writes x') ->
  (forall c, c ∈ tx_locks x' -> c ∈ tx_locks x \/ forall n' y, n' <> n -> cw_txs w !! n' = Some y -> c ∉ tx_locks y) ->
  (forall key, key ∈ claims (tx_writes x') -> key ∈ claims (tx_writes x) \/
     forall n' y, n' <> n -> cw_txs w !! n' = Some y -> key ∉ claims (tx_writes y)) ->
  same_thread s s' -> tx_knows (cw_db w) x' s' -> Inv (set_db (cw_db w) (<[n := x']> (cw_txs w)) (cw_next w) w) (<[i := s']> ss).
Proof.
  intros HI Hi Hn Hx Hsh Hlk Hcl (R1 & R2 & R3 & R4 & R5) Hk. pose proof HI as (Hw & Hss & _). pose proof Hw as (Hdb & (T1 & T2 & T3) & _).
  destruct (Hss _ _ Hi) as (S1 & S2 & S3 & S4). destruct (T1 _ _ Hx) as [Hlt _].
  assert (forall n' y, n' <> n -> cw_txs w !! n' = Some y ->
    (forall c, c ∈ tx_locks x' -> c ∉ tx_locks y) /\ (forall key, key ∈ claims (tx_writes x') -> key ∉ claims (tx_writes y))) as Hsep.
  { intros n' y Hne Hy. split.
    - intros c Hc Hc'. destruct (Hlk _ Hc) as [H|H]; [by eapply Hne, T2|by eapply H].
    - intros c Hc Hc'. destruct (Hcl _ Hc) as [H|H]; [by eapply Hne, T3|by eapply H]. }
  eapply inv_step; [done|done| | | |by left|..].
  - split; [|split; [done|]]; cbn.
    + exists [], []. split; [by apply evolves_refl|]. rewrite R2, Hn. intros n' y Hne Hy. rewrite lookup_insert_ne by congruence.
      split_and!; [done|intros c _; apply not_elem_of_nil|intros c _; apply not_elem_of_nil].
    + rewrite R2, Hn. intros n' _ Hne Hy. by rewrite lookup_insert_ne by congruence.
  - eapply world_evolves; [done|by apply (evolves_refl [] [])|]. split_and!.
    + intros n' y. rewrite lookup_insert_Some. intros [[<- <-]|[_ Hy]]; [done|by apply T1].
    + intros n1 n2 y1 y2 c. rewrite !lookup_insert_Some.
      intros [[<- <-]|[Hn1 Hy1]] [[<- <-]|[Hn2 Hy2]] Hc1 Hc2; [done| | |by eapply T2].
      * destruct (Hsep n2 y2) as [H _]; [done..|]. by destruct (H c).
      * destruct (Hsep n1 y1) as [H _]; [done..|]. by destruct (H c).
    + intros n1 n2 y1 y2 c. rewrite !lookup_insert_Some.
      intros [[<- <-]|[Hn1 Hy1]] [[<- <-]|[Hn2 Hy2]] Hc1 Hc2; [done| | |by eapply T3].
      * destruct (Hsep n2 y2) as [_ H]; [done..|]. by destruct (H c).
      * destruct (Hsep n1 y1) as [_ H]; [done..|]. by destruct (H c).
  - unfold stage_ok. rewrite R1, R2, R3, R4, R5. split_and!; cbn; try done. intros n' Hn'. assert (n' = n) as -> by congruence.
    split; [done|]. exists x'. by rewrite lookup_insert_eq.
  - rewrite R3. by left.
  - by left.
Qed.
Lemma void_same s : same_thread s (void true s).
Proof. done. Qed.
Lemma void_knows t x s : tx_knows t x (void true s).
Proof. by split_and!. Qed.
Lemma failed_tx w ss i s n x : Inv w ss -> ss !! i = Some s -> s_tx s = Some n -> cw_txs w !! n = Some x ->
  Inv (set_db (cw_db w) (<[n := fail_tx x]> (cw_txs w)) (cw_next w) w) (<[i := void true s]> ss).
Proof.
  intros HI Hi Hn Hx. eapply replace_tx; [done|done|done|done| |by left|by left|done|apply void_knows]. pose proof HI as ((_ & (T1 & _) & _) & _).
  by apply (T1 _ _ Hx).
Qed.
Lemma after_same {A} (q : stmt A) a s : s_live s = true -> same_thread s (after q a s).
Proof. intros Hl. destruct q; try done. by destruct a as [[k pub]|]. Qed.
Lemma view_clean x t : tx_writes x = [] -> view x t = t.
Proof. unfold view. by intros ->. Qed.
Lemma write_none x : write_to [] [] x = x.
Proof. destruct x. unfold write_to. cbn. by rewrite app_nil_r. Qed.
Lemma claims_keys ws : Forall (λ wr, exists u k pub, wr = WOneTime u k pub) ws -> claims ws = [].
Proof. induction 1 as [|wr ws (u & k & pub & ->) _ IH]; [done|exact IH]. Qed.
Lemma claims_app ws ws' : claims (ws ++ ws') = claims ws ++ claims ws'.
Proof. apply omap_app. Qed.
(** *** What a statement of a transaction that was carried out leaves *)
Section ran.
Context (w : cworld) (ss : list stage) (i : nat) (s : stage) (n : nat) (x : tx).
Hypotheses (HI : Inv w ss) (Hi : ss !! i = Some s) (Hn : s_tx s = Some n) (Hlive : s_live s = true) (Hx : cw_txs w !! n = Some x).
Abbreviation left_by locks ws := (set_db (cw_db w) (<[n := write_to locks ws x]> (cw_txs w)) (cw_next w) w).
Lemma knows_mine : tx_knows (cw_db w) x s.
Proof.
  pose proof HI as (_ & Hss & _). destruct (Hss _ _ Hi) as (_ & S2 & _). destruct (S2 _ Hn) as [_ Hk]. rewrite Hlive in Hk.
  destruct Hk as (x0 & Hx0 & Hk). by assert (x0 = x) as -> by congruence.
Qed.
Lemma clean_mine : s_phase s = Clean -> tx_writes x = [].
Proof. intros Hp. destruct knows_mine as [K _]. by rewrite Hp in K. Qed.
Lemma not_other n' y : n' <> n -> cw_txs w !! n' = Some y -> y ∈ others_of (Some n) w.
Proof. intros Hne Hy. apply others_in. eauto. Qed.
Lemma row_known r : r ∈ s_rows s -> conv_of (r_id r) (cw_db w) = Some r.
Proof. pose proof HI as (_ & Hss & _). destruct (Hss _ _ Hi) as (S1 & _). apply S1. Qed.
(** A statement that reads. *)
Lemma ran_read s' : same_thread s s' -> tx_knows (cw_db w) x s' -> Inv (left_by [] []) (<[i := s']> ss).
Proof.
  intros Hs Hk. rewrite write_none. pose proof HI as ((_ & (T1 & _) & _) & _). destruct (T1 _ _ Hx) as [_ Hsh].
  by eapply replace_tx; [done..|by left|by left|done|].
Qed.
Lemma ran_key ws : s_phase s <> Dirty -> Forall (λ wr, exists u k pub, wr = WOneTime u k pub) ws ->
  Inv (left_by [] ws) (<[i := in_tx (s_live s) Keys None None None None s]> ss).
Proof.
  intros Hq Hws. destruct knows_mine as (K1 & _).
  assert (Forall (λ wr, exists u k pub, wr = WOneTime u k pub) (tx_writes x)) as Hkeys by (destruct (s_phase s); [by rewrite K1|done|done]).
  eapply replace_tx; [done..| |by left| |done|].
  - apply shape_keys. by apply Forall_app_2.
  - cbn. intros key0. rewrite claims_app, (claims_keys _ Hkeys), (claims_keys _ Hws). by intros Hk%not_elem_of_nil.
  - split_and!; try done. cbn. by apply Forall_app_2.
Qed.
Lemma ran_claim u k pub : s_phase s = Clean -> cd_onetime (cw_db w) !! (u, k) = Some (pub, false) -> (u, k) ∉ taken_by (others_of (Some n) w) ->
  Inv (left_by [] [WUsed u k]) (<[i := in_tx (s_live s) Dirty (s_lock s) (s_next s) (Some (u, k, pub)) (s_msg s) s]> ss).
Proof.
  intros Hq Hfree Hnot. destruct knows_mine as (_ & K2 & K3 & K4 & K5). pose proof (clean_mine Hq) as K1.
  eapply replace_tx; [done..| |by left| |done|]; cbn; rewrite ?K1.
  - by eapply shape_used.
  - intros key [->|Hin]%elem_of_cons; [|by apply not_elem_of_nil in Hin]. right. intros n' y Hne Hy Hc. apply Hnot, taken_in. eauto using not_other.
  - split_and!; cbn; try done.
    + intros u' k' pub' [= <- <- <-]. by rewrite K1.
    + intros m Hm. apply K5 in Hm. congruence.
Qed.
Lemma ran_lock c : s_phase s = Clean -> (forall r, conv_of c (cw_db w) = Some r -> locked c (others_of (Some n) w) = false) ->
  Inv (left_by (locks_of (LockConv c) (cw_db w)) []) (<[i := in_tx (s_live s) (s_phase s) (Some c) None (s_claim s) (s_msg s) s]> ss).
Proof.
  intros Hq Hfree. destruct knows_mine as (_ & K2 & K3 & K4 & K5). pose proof (clean_mine Hq) as K1. cbn [locks_of].
  eapply replace_tx; [done..| | |cbn; rewrite app_nil_r; by left|done|]; cbn.
  - rewrite K1. apply shape_keys. constructor.
  - intros c' [Hc|Hc]%elem_of_app; [|by left]. right. intros n' y Hne Hy. destruct (conv_of c (cw_db w)) as [r|]; [|by apply not_elem_of_nil in Hc].
    apply list_elem_of_singleton in Hc as ->. eapply unlocked; [by eapply Hfree|by eapply not_other].
  - unfold tx_knows; cbn; rewrite Hq, app_nil_r. split_and!; try done. intros r Hr [= ->]. rewrite (row_known _ Hr). by left.
Qed.
Lemma ran_message m r : s_phase s = Clean -> s_next s = Some (r_sequence m) -> s_lock s = Some (r_conversation m) ->
  r ∈ s_rows s -> r_id r = r_conversation m -> (r_sender m = r_user_a r \/ r_sender m = r_user_b r) ->
  Inv (left_by [] [WMessage m]) (<[i := in_tx (s_live s) Dirty (s_lock s) None (s_claim s) (Some m) s]> ss).
Proof.
  intros Hq Hv Hl Hr Hid Hsender. destruct knows_mine as (_ & K2 & K3 & K4 & K5). pose proof (clean_mine Hq) as K1.
  destruct (K3 _ Hv) as (c & Hc & Hin & Hseq). assert (c = r_conversation m) as -> by congruence.
  eapply replace_tx; [done..| |by left| |done|]; cbn; rewrite ?K1.
  - apply shape_msg; [done| |done]. exists r. split; [|done]. rewrite <-Hid. by apply row_known.
  - intros key Hk. by apply not_elem_of_nil in Hk.
  - split_and!; cbn; rewrite ?K1; try done.
    + intros u k pub Hcl. apply K4 in Hcl as [Hcl _]. congruence.
    + by intros m' [= <-].
Qed.
Lemma ran_tx {A} (q : stmt A) a ws : pre _ (Within n q) s ->
  exec q (cw_now w) (next_id w) (others_of (Some n) w) (view x (cw_db w)) = Rows a ws ->
  Inv (left_by (locks_of q (cw_db w)) ws) (<[i := after q a s]> ss).
Proof.
  intros (_ & _ & Hq) Ex. destruct q; try done; cbn [exec] in Ex; cbn [locks_of after].
  - apply ran_key; [done|]. destruct (negb _); [done|]. destruct (cd_onetime _ !! _); [injection Ex as _ <-; constructor|].
    destruct (in_other _ _); [done|]. case_decide; [done|]. injection Ex as _ <-. constructor; [by do 3 eexists|constructor].
  - rewrite (view_clean x) in Ex by (by apply clean_mine). destruct (foldl lower_id None _) as [[k pub]|] eqn:Ef; injection Ex as <- <-.
    + apply claimed in Ef as [Hfree Hnot]. by apply ran_claim.
    + apply ran_read; [done|exact knows_mine].
  - rewrite (view_clean x) in Ex by (by apply clean_mine).
    assert (ws = [] /\ forall r, conv_of id (cw_db w) = Some r -> locked id (others_of (Some n) w) = false) as [-> Hfree].
    { destruct (conv_of id (cw_db w)); [destruct (locked _ _); [done|]|]; by injection Ex as _ <-. }
    by apply ran_lock.
  - destruct Hq as (Hq & Hl & r & Hr & Hid). pose proof (clean_mine Hq) as K1. rewrite (view_clean x) in Ex by done. injection Ex as <- <-.
    apply ran_read; [done|]. destruct knows_mine as (_ & K2 & _ & K4 & K5). unfold tx_knows; cbn; rewrite Hq. split_and!; try done.
    intros v [= <-]. exists conv. split; [done|]. split; [rewrite <-Hid; apply K2; [done|by rewrite Hid]|].
    rewrite gapless_max; [done|]. pose proof HI as (([Hg _] & _) & _). apply Hg.
  - destruct Hq as (Hq & Hl & Hv & r & Hr & Hid & Hsender). assert (ws = [WMessage m]) as ->; [|by eapply ran_message].
    do 2 (case_decide; [done|]). destruct (_ || _); [done|]. destruct (existsb _ _); [done|]. case_decide; [done|]. by injection Ex as _ <-.
Qed.
End ran.
Lemma end_tx lk us t w ss i s s' n : Inv w ss -> ss !! i = Some s -> s_tx s = Some n -> evolves lk us (cw_db w) t ->
  (forall n' y, n' <> n -> cw_txs w !! n' = Some y ->
     (forall c, c ∈ tx_locks y -> c ∉ lk) /\ (forall key, key ∈ claims (tx_writes y) -> key ∉ us)) ->
  s_rows s' = s_rows s -> s_tx s' = Some n -> s_live s' = false ->
  (forall u k pub, s_key s' = Some (u, k, pub) -> cd_onetime t !! (u, k) = Some (pub, true) /\ (u, k) ∉ handed (cw_answers w)) ->
  (forall m, s_sent s' = Some m -> m ∈ cd_msgs t) ->
  (forall key, key_of <$> s_key s' = Some key -> key_of <$> s_key s = Some key \/ exists pub, cd_onetime (cw_db w) !! key = Some (pub, false)) ->
  Inv (set_db t (delete n (cw_txs w)) (cw_next w) w) (<[i := s']> ss).
Proof.
  intros HI Hi Hn He Hx R1 R2 R3 Hkey Hsent Hown. pose proof HI as (Hw & Hss & _). pose proof Hw as (Hdb & (T1 & T2 & T3) & _).
  destruct (Hss _ _ Hi) as (S1 & S2 & S3 & S4). destruct (S2 _ Hn) as [Hlt _].
  eapply inv_step; [done|done| | | |left; congruence|done|by left].
  - split; [|split; [done|]]; cbn.
    + exists lk, us. split; [done|]. rewrite R2. intros n' y Hne Hy. assert (n' <> n) as Hne' by congruence.
      rewrite lookup_delete_ne by done. split; [done|]. by eapply Hx.
    + intros n' _ _ Hy. apply lookup_delete_None. by right.
  - eapply world_evolves; [done..|]. split_and!.
    + intros n' y [Hne Hy]%lookup_delete_Some. destruct (T1 _ _ Hy) as [Hlt' Hsh]. split; [done|].
      destruct (Hx n' y) as [H1 H2]; [done..|]. by eapply shape_frame.
    + intros n1 n2 y1 y2 c [_ H1]%lookup_delete_Some [_ H2]%lookup_delete_Some. by eapply T2.
    + intros n1 n2 y1 y2 c [_ H1]%lookup_delete_Some [_ H2]%lookup_delete_Some. by eapply T3.
  - unfold stage_ok. rewrite R1, R2, R3. destruct He as (E1 & _). split_and!; cbn; try done.
    + intros r Hr. by apply E1, S1.
    + intros n' [= <-]. split; [done|]. apply lookup_delete_eq.
Qed.
(** Rolled back, or refused. *)
Lemma drop_tx w ss i s n : Inv w ss -> ss !! i = Some s -> s_tx s = Some n ->
  Inv (set_db (cw_db w) (delete n (cw_txs w)) (cw_next w) w) (<[i := void false s]> ss).
Proof.
  intros HI Hi Hn. pose proof HI as ((Hdb & _) & Hss & _). destruct (Hss _ _ Hi) as (S1 & S2 & S3 & S4).
  eapply (end_tx [] []); try done; [|by left]. intros n' y _ _. split; intros c _; apply not_elem_of_nil.
Qed.
(** Committed, its answer got or lost. *)
Lemma commit_tx w ss i s n x (lost : bool) : Inv w ss -> ss !! i = Some s -> s_tx s = Some n -> s_live s = true -> cw_txs w !! n = Some x ->
  Inv (set_db (view x (cw_db w)) (delete n (cw_txs w)) (cw_next w) w) (<[i := if lost then void false s else committed s]> ss).
Proof.
  intros HI Hi Hn Hlive Hx. pose proof HI as ((Hdb & (T1 & T2 & T3) & Hh & Hu & _) & Hss & _). destruct (Hss _ _ Hi) as (S1 & S2 & S3 & S4).
  destruct (S2 _ Hn) as [_ Hk]. rewrite Hlive in Hk. destruct Hk as (x0 & Hx0 & K1 & K2 & K3 & K4 & K5).
  assert (x0 = x) as -> by congruence. destruct (T1 _ _ Hx) as [_ Hsh]. pose proof (evolves_shape _ _ _ Hdb Hsh) as He.
  pose proof He as (E1 & E2 & E3 & E4 & E5 & E6).
  eapply end_tx; [done..| | | | | | |].
  - intros n' y Hne Hy. split; intros c Hc Hc'; [by eapply Hne, T2|by eapply Hne, T3].
  - by destruct lost.
  - by destruct lost.
  - by destruct lost.
  - destruct lost; cbn.
    + intros u k pub Hkey. destruct (S3 _ _ _ Hkey) as [H1 H2]. split; [by apply E4|done].
    + intros u k pub Hcl. destruct (K4 _ _ _ Hcl) as [Hws Hfree]. split.
      * unfold view. rewrite Hws. cbn. by rewrite lookup_alter_eq, Hfree.
      * intros Hin. destruct (Hu _ Hin) as [pub' Hp]. congruence.
  - destruct lost; cbn; [by intros m Hm; apply E5, S4|]. intros m Hm. unfold view. rewrite (K5 _ Hm). cbn. apply elem_of_app. right. by left.
  - destruct lost; cbn; [by left|]. intros key Hkey. right. destruct (s_claim s) as [[[u k] pub]|] eqn:Ec; [|done]. injection Hkey as <-.
    exists pub. by apply (K4 _ _ _ eq_refl).
Qed.
Lemma step_within {A} n (q : stmt A) w0 r w' ss i s : perform_chat _ (Within n q) w0 = (r, w') -> Inv w0 ss -> ss !! i = Some s ->
  pre _ (Within n q) s -> exists s', post _ (Within n q) s r s' /\ Inv w' (<[i := s']> ss).
Proof.
  cbn [perform_chat]. unfold next_fault. intros E HI Hi Hp. set (w := set_draws (cw_ids w0) (tail (cw_faults w0)) w0) in *.
  assert (Inv w ss) as HIw by exact HI. clearbody w. pose proof Hp as (Hn & Hlive & _). pose proof HIw as (_ & Hss & _).
  destruct (Hss _ _ Hi) as (_ & S2 & _). destruct (S2 _ Hn) as [_ Hk]. rewrite Hlive in Hk. destruct Hk as (x & Hx & _). rewrite Hx in E.
  assert (forall code, (r, w') = (Err (External code), set_db (cw_db w) (<[n := fail_tx x]> (cw_txs w)) (cw_next w) w) ->
    exists s', post _ (Within n q) s r s' /\ Inv w' (<[i := s']> ss)) as Hfail.
  { intros code [= -> ->]. exists (void true s). split; [done|]. by apply failed_tx. }
  destruct (tx_failed x); [by eapply Hfail|].
  destruct (default None (head (cw_faults w0))) as [[code|]|]; [by eapply Hfail|by eapply Hfail|].
  destruct (exec q _ _ _ _) as [a ws|code|] eqn:Ex; [|by eapply Hfail|].
  - injection E as <- <-. exists (after q a s). split; [done|]. by eapply ran_tx.
  - injection E as <- <-. exists s. split; [done|]. by rewrite list_insert_id.
Qed.
Lemma step_commit n w0 r w' ss i s : perform_chat _ (Commit n) w0 = (r, w') -> Inv w0 ss -> ss !! i = Some s -> pre _ (Commit n) s ->
  exists s', post _ (Commit n) s r s' /\ Inv w' (<[i := s']> ss).
Proof.
  cbn [perform_chat]. unfold next_fault. intros E HI Hi (Hn & Hlive). set (w := set_draws (cw_ids w0) (tail (cw_faults w0)) w0) in *.
  assert (Inv w ss) as HIw by exact HI. clearbody w. pose proof HIw as (_ & Hss & _).
  destruct (Hss _ _ Hi) as (_ & S2 & _). destruct (S2 _ Hn) as [_ Hk]. rewrite Hlive in Hk. destruct Hk as (x & Hx & _). rewrite Hx in E.
  destruct (tx_failed x); [injection E as <- <-; exists (void false s); split; [done|]; by apply drop_tx|].
  destruct (default None (head (cw_faults w0))) as [[code|]|]; injection E as <- <-.
  - exists (void false s). split; [done|]. by apply drop_tx.
  - exists (void false s). split; [done|]. by apply (commit_tx w ss i s n x true).
  - exists (committed s). split; [done|]. by apply (commit_tx w ss i s n x false).
Qed.
Lemma step_begin w0 r w' ss i s : perform_chat _ Begin w0 = (r, w') -> Inv w0 ss -> ss !! i = Some s -> s_tx s = None ->
  exists s', post _ Begin s r s' /\ Inv w' (<[i := s']> ss).
Proof.
  cbn [perform_chat]. unfold next_fault. intros E HI Hi Hn. set (w := set_draws (cw_ids w0) (tail (cw_faults w0)) w0) in *.
  assert (Inv w ss) as HIw by exact HI. clearbody w. clear HI. pose proof HIw as (Hw & Hss & _).
  destruct (default None (head (cw_faults w0))) as [[code|]|]; injection E as <- <-.
  1, 2: exists s; split; [done|]; by rewrite list_insert_id.
  exists (begun (cw_next w) s). split; [done|]. pose proof Hw as (Hdb & (T1 & T2 & T3) & _). destruct (Hss _ _ Hi) as (S1 & S2 & S3 & S4).
  assert (forall n y, cw_txs w !! n = Some y -> n <> cw_next w) as Hlt by (intros n y Hy; destruct (T1 _ _ Hy); lia).
  eapply inv_step; [done|done| | | |by right|by left|by left].
  - split; [|split; [cbn; lia|]]; cbn.
    + exists [], []. split; [by apply evolves_refl|]. intros n' y Hne Hy. rewrite lookup_insert_ne by congruence.
      split_and!; [done|intros c _; apply not_elem_of_nil|intros c _; apply not_elem_of_nil].
    + intros n' Hlt' _ Hy. rewrite lookup_insert_ne; [done|lia].
  - eapply world_evolves; [done|by apply (evolves_refl [] [])|]. split_and!.
    + intros n y. rewrite lookup_insert_Some. intros [[<- <-]|[_ Hy]]; [split; [lia|by apply shape_keys]|].
      destruct (T1 _ _ Hy). split; [lia|done].
    + intros n1 n2 y1 y2 c. rewrite !lookup_insert_Some.
      intros [[<- <-]|[_ H1]] [[<- <-]|[_ H2]] Hc1 Hc2; [done|by apply not_elem_of_nil in Hc1|by apply not_elem_of_nil in Hc2|by eapply T2].
    + intros n1 n2 y1 y2 c. rewrite !lookup_insert_Some.
      intros [[<- <-]|[_ H1]] [[<- <-]|[_ H2]] Hc1 Hc2; [done|by apply not_elem_of_nil in Hc1|by apply not_elem_of_nil in Hc2|by eapply T3].
  - split_and!; cbn; try done. intros n [= <-]. split; [lia|]. eexists. rewrite lookup_insert_eq. split; [done|]. by split_and!.
Qed.
Lemma step_deliver recipient m w ss i s : Inv w ss -> ss !! i = Some s -> may_deliver s recipient m -> Inv (add_output [(recipient, m)] [] w) ss.
Proof.
  intros HI Hi (row & r & Hrow & Hst & Hr & Hid & Hs). pose proof HI as ((H1 & H2 & H3 & H4 & H5) & Hss & Hd).
  destruct (Hss _ _ Hi) as (S1 & _ & _ & S4). split; [|split; [|exact Hd]].
  - split_and!; cbn; rewrite ?app_nil_r; try done. intros recipient' m' [Hin|Hin]%elem_of_app; [by apply H5|].
    apply list_elem_of_singleton in Hin as [= -> ->]. exists row, r. split_and!; [by apply S4|done| |done]. rewrite <-Hid. by apply S1.
  - intros j sj Hj. destruct (Hss _ _ Hj) as (J1 & J2 & J3 & J4). split_and!; cbn; rewrite ?app_nil_r; done.
Qed.
Lemma step_respond a w ss i s : Inv w ss -> ss !! i = Some s -> pre _ (Respond a) s ->
  Inv (add_output [] [a] w) (<[i := gained None (s_sent s) s]> ss).
Proof.
  intros HI Hi Hp. pose proof HI as (Hw & Hss & _). pose proof Hw as (Hdb & H2 & H3 & H4 & H5). destruct (Hss _ _ Hi) as (S1 & S2 & S3 & S4).
  assert (forall key, handed_key a = Some key -> key_of <$> s_key s = Some key) as Hkey by (intros key Hk; cbn in Hp; by rewrite Hk in Hp).
  assert (handed (cw_answers w ++ [a]) = handed (cw_answers w) ++ option_list (handed_key a)) as Hh.
  { unfold handed. rewrite omap_app. cbn. by destruct (handed_key a). }
  assert (forall key, handed_key a = Some key -> (exists pub, cd_onetime (cw_db w) !! key = Some (pub, true)) /\ key ∉ handed (cw_answers w)) as Hown.
  { intros key Hk. specialize (Hkey _ Hk). destruct (s_key s) as [[[u k] pub]|] eqn:E; [|done]. injection Hkey as <-.
    destruct (S3 _ _ _ eq_refl) as [Hu Hn]. split; [by exists pub|done]. }
  eapply inv_step; [done|done| | | |by left|done|].
  - apply spares_any. split; [|split; [done|by intros n _ _]]. exists [], []. split; [by apply evolves_refl|].
    intros n x _ Hx. split_and!; [done|intros c _; apply not_elem_of_nil|intros c _; apply not_elem_of_nil].
  - split_and!; cbn; rewrite ?app_nil_r; try done.
    + rewrite Hh. apply NoDup_app. split_and!; [done| |destruct (handed_key a); [apply NoDup_singleton|constructor]].
      intros key Hin Hin'. destruct (handed_key a) as [key'|] eqn:Ek; [|by apply not_elem_of_nil in Hin'].
      apply list_elem_of_singleton in Hin' as ->. by destruct (Hown _ eq_refl).
    + intros key. rewrite Hh. intros [Hin|Hin]%elem_of_app; [by apply H4|]. destruct (handed_key a) as [key'|]; [|by apply not_elem_of_nil in Hin].
      apply list_elem_of_singleton in Hin as ->. by destruct (Hown _ eq_refl).
  - split_and!; cbn; done.
  - intros key. cbn. rewrite Hh. intros [Hin|Hin]%elem_of_app; [by left|]. right. destruct (handed_key a) as [key'|]; [|by apply not_elem_of_nil in Hin].
    apply list_elem_of_singleton in Hin as ->. by apply Hkey.
Qed.
Lemma chat_keeps X (e : chatE X) w r w' ss i s : perform_chat X e w = (r, w') -> Inv w ss -> ss !! i = Some s -> pre X e s ->
  exists s', post X e s r s' /\ Inv w' (<[i := s']> ss).
Proof.
  intros E HI Hi Hp. destruct e.
  - by eapply step_alone.
  - by eapply step_begin.
  - by eapply step_within.
  - by eapply step_commit.
  - cbn in E. injection E as <- <-. exists (void false s). split; [done|]. by apply drop_tx.
  - cbn in E. injection E as <- <-. exists s. split; [done|]. by rewrite list_insert_id.
  - cbn in E. injection E as <- <-. exists s. split; [done|]. rewrite list_insert_id by done. exact HI.
  - cbn in E. injection E as <- <-. exists s. split; [done|]. rewrite list_insert_id by done. by eapply step_deliver.
  - cbn in E. injection E as <- <-. exists (gained None (s_sent s) s). split; [done|]. by apply step_respond.
Qed.

(** ** Requests *)
Inductive call :=
  | KPublish (userID : string) (req : option PublishKeysInput) | KBundle (userId : string) | KCreate (userID : string) (req : option string)
  | KConversations (userID : string) | KSend (userID id : string) (req : option SendMessageInput)
  | KMessages (userID id before limit : string).
(** A request with the patience of its context. *)
Definition serve (broadcaster : bool) (k : nat * call) : io unit :=
  match k.2 with
  | KPublish u req => handler_PublishKeys k.1 u req
  | KBundle u => handler_GetBundle k.1 u
  | KCreate u req => handler_CreateConversation k.1 u req
  | KConversations u => handler_ListConversations k.1 u
  | KSend u id req => handler_SendMessage k.1 broadcaster u id req
  | KMessages u id before limit => handler_ListMessages k.1 u id before limit
  end.
(** The environment: the clock, the draws, the faults, and the users, who are not deleted. *)
Definition outside (w w' : cworld) : Prop :=
  cd_convs (cw_db w') = cd_convs (cw_db w) /\ cd_msgs (cw_db w') = cd_msgs (cw_db w) /\ cd_onetime (cw_db w') = cd_onetime (cw_db w) /\
  cw_txs w' = cw_txs w /\ cw_next w' = cw_next w /\ cw_delivered w' = cw_delivered w /\ cw_answers w' = cw_answers w.
Abbreviation staged_as s p Q := (staged pre post s p Q).
Definition quiet {A} (s : stage) (p : io A) : Prop := staged_as s p (λ s' _, s' = s).
Lemma await_staged {A} n (e : chatE (option A)) s (Q : stage -> result A -> Prop) : pre _ e s ->
  (forall r s', post _ e s r s' -> match r with Ok (Some a) => Q s' (Ok a) | Ok None => s' = s | Err er => Q s' (Err er) | Panic => Q s' Panic end) ->
  Q s (Err context_canceled_error) -> staged_as s (await n e) Q.
Proof.
  intros Hpre Hpost Hover. induction n as [|n IH]; cbn [await]; apply staged_bind, staged_act; try done; intros r s' Hr;
    specialize (Hpost _ _ Hr); destruct r as [[a|]|er|]; try done; by rewrite Hpost.
Qed.
Lemma bind_quiet {A B} s (p : io A) (k : A -> io B) (Q : stage -> result B -> Prop) : quiet s p -> (forall a, staged_as s (k a) Q) ->
  (forall e, Q s (Err e)) -> Q s Panic -> staged_as s (pbind p k) Q.
Proof. intros Hp Hk He HP. apply staged_bind. eapply staged_mono; [exact Hp|]. by intros s' [a|e|] ->. Qed.
Lemma try_quiet {A B} s (p : io A) (k : A + error -> io B) (Q : stage -> result B -> Prop) : quiet s p -> (forall a, staged_as s (k a) Q) ->
  Q s Panic -> staged_as s (ptry p k) Q.
Proof. intros Hp Hk HP. apply staged_try. eapply staged_mono; [exact Hp|]. by intros s' [a|e|] ->. Qed.
Lemma wrap_quiet {A} s f (p : io A) : quiet s p -> quiet s (pwrap f p).
Proof. intros Hp. by apply staged_wrap. Qed.
Lemma column_staged {A} s t (k : uuid -> io A) (Q : stage -> result A -> Prop) : (forall u, uuid_Parse t = Some u -> staged_as s (k u) Q) ->
  (forall e, Q s (Err e)) -> staged_as s (column t k) Q.
Proof. intros Hk He. unfold column. destruct (uuid_Parse t) as [u|]; [by apply Hk|apply He]. Qed.
Lemma column_quiet {A} s t (k : uuid -> io A) : (forall u, quiet s (k u)) -> quiet s (column t k).
Proof. intros Hk. apply column_staged; [intros u _; apply Hk|done]. Qed.
Definition reads_conv {A} (q : stmt A) : bool := match q with GetConv _ => true | _ => false end.
Lemma run_quiet {A} n (q : stmt A) s : alone q = true -> reads_conv q = false -> quiet s (stmt_run n q).
Proof.
  intros Hq Hr. apply await_staged; [split; [done|by destruct q]| |done]. intros r s' [Hp Hs].
  assert (s' = s) as -> by (destruct q; done). by destruct r as [[a|]|e|].
Qed.
Lemma one_quiet {A} s (p : io (option A)) : quiet s p -> quiet s (one_row p).
Proof. intros Hp. apply bind_quiet; [done| |done|done]. by intros [a|]. Qed.
Lemma or_quiet {A} s f (p : io A) : quiet s p -> quiet s (or_not_found f p).
Proof. intros Hp. apply try_quiet; [done| |done]. intros [a|e]; [done|]. by destruct (errors_Is _ _). Qed.
Lemma bind_both {A B} s (p : io A) (k : A -> io B) : quiet s p -> (forall a, quiet s (k a)) -> quiet s (pbind p k).
Proof. intros Hp Hk. by apply bind_quiet. Qed.
#[local] Ltac quietly := repeat lazymatch goal with
  | |- forall _, _ => intros ?
  | |- quiet _ (pbind _ _) => apply bind_both
  | |- quiet _ (pwrap _ _) => apply wrap_quiet
  | |- quiet _ (column _ _) => apply column_quiet
  | |- quiet _ (one_row _) => apply one_quiet
  | |- quiet _ (or_not_found _ _) => apply or_quiet
  | |- quiet _ (stmt_run _ _) => by apply run_quiet
  | |- quiet _ (pret _) => done
  | |- quiet _ (pfail _) => done
  | |- quiet _ (if ?b then _ else _) => destruct b
  end.
Lemma conversation_quiet n a b s : quiet s (GetOrCreateConversation n a b).
Proof.
  unfold GetOrCreateConversation. destruct (orderPair a b) as [x y]. apply try_quiet; [quietly| |done].
  intros [conv|e]; [done|]. change (quiet s (if negb (errors_Is e ErrNoRows) then pfail (Wrapf "looking up conversation: %w" e) else
    (do* pwrap "creating conversation: %w" (column x (λ ua, column y (λ ub, stmt_run n (InsertConv ua ub)))) in
     let* conv := pwrap "reloading conversation after create: %w" (column x (λ ua, column y (λ ub, one_row (stmt_run n (FindConv ua ub))))) in
     pret (scan_conv conv)))). quietly.
Qed.
Lemma get_conversation n id s : s_tx s = None -> staged_as s (GetConversation n id) (λ s' r,
  match r with Ok c => exists row, s' = add_row row s /\ c = scan_conv row /\ uuid_Parse id = Some (r_id row) | _ => True end).
Proof.
  intros Hn. unfold GetConversation. apply staged_bind. unfold or_not_found. apply staged_try.
  apply (staged_mono _ _ _ _ (λ s' r, match r with Ok row => s' = add_row row s /\ uuid_Parse id = Some (r_id row) | Err _ => True | Panic => False end)).
  - apply column_staged; [|done]. intros c Hc. unfold one_row. apply staged_bind.
    apply (staged_mono _ _ _ _ (λ s' r, match r with Ok (Some row) => s' = add_row row s /\ r_id row = c | Panic => False | _ => True end)).
    + apply await_staged; [done| |done]. intros r s' [Hp Hs]. by destruct r as [[[row|]|]|e|].
    + intros s' [[row|]|e|]; [|done..]. intros [-> Hid]. split; [done|]. by rewrite Hid.
  - intros s' [row|e|]; [|by destruct (errors_Is _ _)|done]. intros [-> Hid]. by exists row.
Qed.
Lemma deferred {A} n (body : io A) s (Q : stage -> result A -> Prop) :
  staged_as s body (λ s' r, s_tx s' = Some n /\ match r with Panic => Q s' Panic | _ => Q (void false s') r end) ->
  staged_as s (defer_rollback n body) Q.
Proof.
  intros Hb. apply staged_try. eapply staged_mono; [exact Hb|]. intros s' [a|e|] [Hn HQ]; [..|done];
    apply staged_bind, staged_ignore, staged_act; try done; by intros r s2 [-> ->].
Qed.
Lemma begin_staged {A} f s (k : nat -> io A) (Q : stage -> result A -> Prop) : s_tx s = None -> (forall n, staged_as (begun n s) (k n) Q) ->
  (forall e, Q s (Err e)) -> staged_as s (let* n := pwrap f (act Begin) in k n) Q.
Proof.
  intros Hn Hk He. apply staged_bind, staged_wrap, staged_act; [done|]. intros [n|e|] s' Hp; cbn in Hp; [subst s'; apply Hk|subst s'; apply He|done].
Qed.
Lemma keys_staged n p u keys s : s_tx s = Some n -> s_live s = true -> s_phase s <> Dirty ->
  staged_as s (insert_keys p n u keys) (λ s' r, s_tx s' = Some n /\ match r with Ok _ => s_live s' = true | _ => True end).
Proof.
  revert s. induction keys as [|k keys IH]; intros s Hn Hl Hp; cbn [insert_keys]; [done|].
  apply staged_bind, staged_wrap, column_staged; [|by intros e; cbn]. intros uid _.
  apply await_staged; [done| |by cbn]. intros [[[]|]|e|] s' Hs; cbn in Hs; [subst s'|done|subst s'|done].
  - apply IH; done.
  - done.
Qed.
Lemma add_keys_staged p u keys s : s_tx s = None -> staged_as s (AddOneTimePreKeys p u keys) (λ _ _, True).
Proof.
  intros Hn. unfold AddOneTimePreKeys. destruct keys as [|k keys]; [done|]. apply begin_staged; [done| |done]. intros n. apply deferred.
  apply staged_bind. eapply staged_mono; [by apply keys_staged|]. intros s' [[]|e|] [Htx Hl]; [|by split..].
  apply staged_act; [done|]. intros [[]|e|] s2 Hs; cbn in Hs; subst; try done; by split.
Qed.
(** A bundle with a one-time prekey belongs to the thread that has it. *)
Definition bundled (s : stage) (b : PreKeyBundle) : Prop :=
  b_OneTimePreKey b = ""%string \/ exists u k pub, s_key s = Some (u, k, pub) /\ uuid_Parse (b_UserID b) = Some u /\ b_OneTimePreKeyID b = k.
Lemma claim_staged p n u b s : s_tx s = Some n -> s_live s = true -> s_phase s = Clean -> b_UserID b = u -> b_OneTimePreKey b = ""%string ->
  staged_as s (claim p u n b) (λ s' r, s_tx s' = Some n /\ match r with Ok b => bundled (void false s') b | _ => True end).
Proof.
  intros Hn Hl Hp Hu Hb. unfold claim.
  assert (forall (opk : option (Z * string)) s', s_tx s' = Some n -> s_live s' = true ->
    (forall k pub, opk = Some (k, pub) -> exists uid, s_claim s' = Some (uid, k, pub) /\ uuid_Parse u = Some uid) ->
    staged_as s' (do* pwrap "committing one-time prekey claim: %w" (act (Commit n)) in
      pret match opk with
       | Some (key, pub) =>
           {| b_UserID := b_UserID b; b_IdentityKey := b_IdentityKey b; b_SignedPreKey := b_SignedPreKey b;
              b_SignedPreKeyID := b_SignedPreKeyID b; b_Signature := b_Signature b; b_OneTimePreKey := pub; b_OneTimePreKeyID := key |}
       | None => b
       end) (λ s' r, s_tx s' = Some n /\ match r with Ok b => bundled (void false s') b | _ => True end)) as Hend.
  { intros opk s' Hn' Hl' Hopk. apply staged_bind, staged_wrap, staged_act; [done|]. intros [[]|e|] s2 Hs; cbn in Hs; subst; [|by split|done].
    split; [done|]. destruct opk as [[k pub]|]; [|by left]. destruct (Hopk _ _ eq_refl) as (uid & Hc & Hpu). right. by exists uid, k, pub. }
  apply staged_bind, staged_wrap, column_staged; [|by intros e]. intros uid Huid. apply await_staged; [done| |by cbn].
  intros [[[[k pub]|]|]|e|] s' Hs; cbn in Hs; subst; try done.
  - apply Hend; [done..|]. intros k' pub' [= <- <-]. by exists uid.
  - by apply Hend.
Qed.
Lemma bundle_staged p u s : s_tx s = None -> staged_as s (repo_GetBundle p u) (λ s' r, match r with Ok b => bundled s' b | _ => True end).
Proof.
  intros Hn. unfold repo_GetBundle. apply bind_quiet; [quietly| |done|done]. intros ik.
  apply bind_quiet; [quietly| |done|done]. intros spk. cbv zeta. apply begin_staged; [done| |done]. intros n. apply deferred.
  eapply staged_mono; [by apply claim_staged|]. by intros s' [b|e|] [Htx H].
Qed.
Lemma create_staged p msg s r u : s_tx s = None -> r ∈ s_rows s -> uuid_Parse (m_ConversationID msg) = Some (r_id r) ->
  uuid_Parse (m_SenderID msg) = Some u -> (u = r_user_a r \/ u = r_user_b r) ->
  staged_as s (CreateMessage p msg) (λ s' res, match res with
    | Ok m => exists row, s_sent s' = Some row /\ stored m row /\ s_rows s' = s_rows s /\ r_conversation row = r_id r /\ m_SenderID m = m_SenderID msg
    | _ => True end).
Proof.
  intros Hn Hr Hc Hu Hside. unfold CreateMessage. apply begin_staged; [done| |done]. intros n. apply deferred.
  apply staged_bind, staged_wrap, column_staged; [|done]. intros c Hc'. assert (c = r_id r) as -> by congruence.
  apply await_staged; [done| |done]. intros [[[]|]|e|] s1 Hs; cbn in Hs; subst; try done.
  apply staged_bind, staged_wrap, column_staged; [|done]. intros c Hc2. assert (c = r_id r) as -> by congruence.
  apply await_staged; [split_and!; try done; by exists r| |done]. intros [[seq|]|e|] s1 Hs; cbn in Hs; subst; try done.
  apply staged_bind, staged_wrap, column_staged; [|done]. intros id Hid. apply column_staged; [|done]. intros c Hc3.
  assert (c = r_id r) as -> by congruence. apply column_staged; [|done]. intros u' Hu'. assert (u' = u) as -> by congruence.
  apply await_staged; [split_and!; try done; by exists r| |done]. intros [[[]|]|e|] s1 Hs; cbn in Hs; subst; try done.
  apply staged_bind, staged_wrap, staged_act; [done|]. intros [[]|e|] s1 Hs; cbn in Hs; subst; try done.
  split; [done|]. eexists. split; [done|]. by split_and!.
Qed.
Lemma send_staged p bc userID id input s : s_tx s = None -> staged_as s (SendMessage p bc userID id input) (λ _ _, True).
Proof.
  intros Hn. unfold SendMessage. case_decide; [done|]. apply staged_bind. eapply staged_mono; [by apply get_conversation|].
  intros s1 [c|e|]; [|done..]. intros (row & -> & -> & Hid). destruct (HasParticipant _ _) eqn:Ep; [|done]. cbn [negb].
  apply bool_decide_eq_true_1 in Ep. cbn [scan_conv c_UserAID c_UserBID] in Ep.
  apply staged_bind, staged_act; [done|]. intros [mid|e|] s1 (Hp1 & Hp2 & ->); [|by destruct (Hp2 e)|done].
  apply staged_bind, staged_act; [done|]. intros [now|e|] s1 (Hp3 & Hp4 & ->); [|by destruct (Hp4 e)|done]. cbv zeta.
  assert (exists u, uuid_Parse userID = Some u /\ (u = r_user_a row \/ u = r_user_b row)) as (u & Hu & Hside).
  { destruct Ep as [<-|<-]; rewrite uuid_Parse_String; eauto. }
  apply staged_bind. eapply staged_mono; [eapply (create_staged p _ _ row u); [done|by left|done|done|done]|].
  intros s1 [m|e|]; [|done..]. intros (r & Hsent & Hst & Hrows & Hconv & Hsender). apply staged_bind.
  destruct bc; [|done]. apply staged_ignore, staged_act; [|by intros r' s2 [-> ->]].
  exists r, row. rewrite Hrows. split_and!; [done|done|by left|done|]. rewrite Hsender. cbn [m_SenderID]. unfold OtherParticipant, sides. cbn [scan_conv c_UserAID c_UserBID].
  destruct (decide (uuid_String (r_user_a row) = userID)) as [Ha|Ha]; [by left|]. right. destruct Ep as [Hx|Hx]; [done|by split].
Qed.
Lemma answered_staged (q : io answer) s (P : stage -> answer -> Prop) : staged_as s q (λ s' r, match r with Ok a => P s' a | _ => True end) ->
  (forall s' a, P s' a -> pre _ (Respond a) s') -> staged_as s (answered q) (λ _ _, True).
Proof.
  intros Hq HP. apply staged_bind. eapply staged_mono; [exact Hq|]. intros s' [a|e|] H; [|done..]. apply staged_act; [by apply HP|done].
Qed.
(** An answer that is not a bundle. *)
Lemma plain_answer (q : io answer) s : staged_as s q (λ _ r, match r with Ok (BundleIs _) => False | _ => True end) -> staged_as s (answered q) (λ _ _, True).
Proof.
  intros Hq. apply (answered_staged q s (λ _ a, match a with BundleIs _ => False | _ => True end)); [|by intros s' []].
  eapply staged_mono; [exact Hq|]. by intros s' [[]|e|].
Qed.
Lemma chat_serves bc k : staged_as idle (serve bc k) (λ _ _, True).
Proof.
  destruct k as [p k]. unfold serve. destruct k; cbn [fst snd].
  - apply plain_answer. destruct req as [input|]; [|done]. destruct (_ || _); [done|]. apply staged_try.
    apply (staged_mono _ _ _ _ (λ _ _, True)); [|by intros s' [a|e|]]. unfold PublishKeys. case_decide; [done|]. case_decide; [done|].
    apply bind_quiet; [unfold UpsertIdentityKey; quietly| |done|done]. intros [].
    apply bind_quiet; [unfold UpsertSignedPreKey; quietly| |done|done]. intros []. by apply add_keys_staged.
  - apply (answered_staged _ _ (λ s' a, match a with BundleIs b => bundled s' b | _ => True end)).
    + apply staged_try. eapply staged_mono; [by apply bundle_staged|]. intros s' [b|e|]; [done| |done]. cbn. by destruct (errors_Is _ _).
    + intros s' [] H; try done. cbn. case_decide; [done|]. destruct H as [H|(u & k & pub & Hk & Hu & <-)]; [done|]. by rewrite Hu, Hk.
  - apply plain_answer. destruct req as [other|]; [|done]. destruct (negb _); [done|]. apply try_quiet; [|by intros [a|e]|done].
    unfold CreateConversation. case_decide; [done|apply conversation_quiet].
  - apply plain_answer. apply try_quiet; [|by intros [a|e]|done]. unfold ListConversations, repo_ListConversations. quietly.
  - apply plain_answer. destruct req as [input|]; [|done]. destruct (negb _); [done|]. apply staged_try.
    eapply staged_mono; [by apply send_staged|]. intros s' [a|e|] _; [done| |done]. unfold refusal. cbn. destruct (errors_Is e apperrors_ErrForbidden); [done|]. by destruct (errors_Is e apperrors_ErrNotFound).
  - apply plain_answer. apply staged_try. apply (staged_mono _ _ _ _ (λ _ _, True)).
    + unfold ListMessages. apply staged_bind. eapply staged_mono; [by apply get_conversation|]. intros s' [c|e|]; [|done..]. intros (row & -> & -> & _).
      destruct (negb _); [done|]. apply (staged_mono _ _ _ _ (λ s' _, s' = add_row row idle)); [|done].
      change (quiet (add_row row idle) (repo_ListMessages p id (if decide (before = ""%string) then 0 else parse_before before)
        (if decide (limit = ""%string) then 50 else match ParseInt limit with inl l => l | inr _ => 50 end))). unfold repo_ListMessages. quietly.
    + intros s' [a|e|] _; [done| |done]. unfold refusal. cbn. destruct (errors_Is e apperrors_ErrForbidden); [done|]. by destruct (errors_Is e apperrors_ErrNotFound).
Qed.

(** ** What holds of every run *)
Definition started (w : cworld) : Prop := cd_msgs (cw_db w) = [] /\ cw_txs w = ∅ /\ cw_answers w = [] /\ cw_delivered w = [].
Lemma started_inv w : started w -> Inv w [].
Proof.
  intros (H1 & H2 & H3 & H4). split; [|by split_and!; intros; rewrite lookup_nil in *].
  split_and!; try (rewrite H2; split_and!; intros *; by rewrite ?lookup_empty).
  - split; [intros c; unfold messages_in; by rewrite H1|rewrite H1; by intros m ?%not_elem_of_nil].
  - rewrite H3. constructor.
  - rewrite H3. by intros key ?%not_elem_of_nil.
  - rewrite H4. by intros r m ?%not_elem_of_nil.
Qed.
Lemma chat_outside w w' ss : outside w w' -> Inv w ss -> Inv w' ss.
Proof.
  intros (E1 & E2 & E3 & E4 & E5 & E6 & E7) (Hw & Hss & Hd).
  assert (spares None w w') as Hsp.
  { destruct Hw as ((Hg & Hp) & _). split; [|split; [lia|by rewrite E4]]. exists [], []. split.
    - unfold evolves, db_ok, messages_in, participant, conv_of in *. rewrite E1, E2, E3. by split_and!.
    - rewrite E4. intros n x _ Hx. split_and!; [done|intros c _; apply not_elem_of_nil|intros c _; apply not_elem_of_nil]. }
  split; [|split; [|exact Hd]].
  - pose proof Hsp as ((lk & us & He & _) & _). destruct Hw as (H1 & H2 & H3 & H4 & H5). pose proof He as (_ & _ & _ & _ & _ & Hdb).
    split_and!; rewrite ?E3, ?E4, ?E5, ?E6, ?E7; try done.
    + destruct H2 as (T1 & T2 & T3). split_and!; try done. intros n x Hx. destruct (T1 n x Hx) as [Hlt Hs]. split; [done|].
      destruct Hs as [ws Hws|m Hm Hp Hs|u k pub Hu]; [by constructor| |by eapply shape_used; rewrite E3].
      apply shape_msg; [done| |unfold messages_in; by rewrite E2]. unfold participant, conv_of in *. by rewrite E1.
    + intros recipient m Hm. destruct (H5 _ _ Hm) as (row & r & Hrow & Hst & Hc & Hs). exists row, r. rewrite E2. unfold conv_of in *. by rewrite E1.
  - intros i s Hi. eapply stage_frame; [by eapply Hss|exact Hsp|done|]. by rewrite E7.
Qed.
Lemma reachable_chat bc w c : started w -> reachable perform_chat (serve bc) outside w c -> exists ss, Inv c.1 ss.
Proof.
  intros Hw Hr. destruct (pool_staged pre post perform_chat Inv chat_keeps (serve bc) outside (λ _, idle) chat_outside (chat_serves bc)) with (w := w) (c := c)
    as (ss & HI & _); [|by apply started_inv|done|by exists ss].
  intros w1 ss l (Hw1 & Hss & Htx & Hkey).
  assert (forall i s, (ss ++ [idle]) !! i = Some s -> ss !! i = Some s \/ s = idle) as Hsn.
  { intros i s [H|[_ H]]%lookup_app_Some; [by left|]. apply list_lookup_singleton_Some in H as [_ <-]. by right. }
  split; [done|]. split; [|split].
  - intros i s [H| ->]%Hsn; [by eapply Hss|]. split_and!; cbn; try done. by intros r ?%not_elem_of_nil.
  - intros i j s s' n [Hi| ->]%Hsn [Hj| ->]%Hsn H1 H2; try done. by eapply Htx.
  - intros i j s s' n [Hi| ->]%Hsn [Hj| ->]%Hsn H1 H2; try done. by eapply Hkey.
Qed.
(** C20: However requests overlap, whatever fails and whichever answers are lost: no one-time
    prekey is handed out twice, and the ones that were handed out are marked as used. *)
Theorem prekeys_handed_once bc w c : started w -> reachable perform_chat (serve bc) outside w c ->
  NoDup (handed (cw_answers c.1)) /\
  (forall key, key ∈ handed (cw_answers c.1) -> exists pub, cd_onetime (cw_db c.1) !! key = Some (pub, true)).
Proof. intros Hw Hr. destruct (reachable_chat bc w c Hw Hr) as (ss & (_ & _ & H3 & H4 & _) & _). by split. Qed.
(** C21: The messages of a conversation are numbered 1, 2, 3, ... in the order of their
    commits, each by one of its participants; and the broadcaster is given stored
    messages only, with their numbers, for the other participant. *)
Theorem messages_numbered bc w c : started w -> reachable perform_chat (serve bc) outside w c ->
  (forall conv, r_sequence <$> messages_in conv (cw_db c.1) = Z.of_nat <$> seq 1 (length (messages_in conv (cw_db c.1)))) /\
  (forall m, m ∈ cd_msgs (cw_db c.1) -> participant (cw_db c.1) m) /\ delivered_ok (cw_db c.1) (cw_delivered c.1).
Proof. intros Hw Hr. destruct (reachable_chat bc w c Hw Hr) as (ss & ([H1 H2] & _ & _ & _ & H5) & _). by split_and!. Qed.

(** ** Pages *)
Lemma gapless_take l n : gapless l -> gapless (take n l).
Proof.
  unfold gapless. intros Hl. rewrite fmap_take, Hl, <-fmap_take, length_take. f_equal.
  destruct (Nat.le_gt_cases n (length l)); [rewrite take_seq by lia; f_equal; lia|rewrite take_ge by (rewrite length_seq; lia); f_equal; lia].
Qed.
Lemma gapless_lookup l i m : gapless l -> l !! i = Some m -> r_sequence m = Z.of_nat (S i).
Proof.
  unfold gapless. intros Hl Hi. assert ((r_sequence <$> l) !! i = Some (r_sequence m)) as H by (by rewrite list_lookup_fmap, Hi).
  rewrite Hl, list_lookup_fmap in H. apply lookup_lt_Some in Hi. rewrite lookup_seq_lt in H by done. injection H as <-. lia.
Qed.
Lemma filter_prefix {A} (P : A -> Prop) `{!forall x, Decision (P x)} (l : list A) k : (forall i x, l !! i = Some x -> P x <-> (i < k)%nat) ->
  filter P l = take k l.
Proof.
  revert k. induction l as [|x l IH]; intros k Hl; [by rewrite take_nil|]. rewrite filter_cons. pose proof (Hl 0%nat x eq_refl) as H0.
  destruct k as [|k].
  - rewrite decide_False by (intros Hp; apply H0 in Hp; lia). rewrite (IH 0%nat); [done|]. intros i y Hy. pose proof (Hl (S i) y Hy) as HS. split; [intros Hpy; apply HS in Hpy; lia|lia].
  - rewrite decide_True by (apply H0; lia). cbn. f_equal. apply IH. intros i y Hy. pose proof (Hl (S i) y Hy) as HS. split; intros Hq; [apply HS in Hq; lia|apply HS; lia].
Qed.
Lemma newest_reverse l : gapless l -> merge_sort (newest_first r_sequence) l = reverse l.
Proof.
  intros Hl. assert (forall x y, x ∈ l -> y ∈ l -> r_sequence x = r_sequence y -> x = y) as Hinj.
  { intros x y [i Hi]%list_elem_of_lookup [j Hj]%list_elem_of_lookup E. rewrite (gapless_lookup _ _ _ Hl Hi), (gapless_lookup _ _ _ Hl Hj) in E.
    assert (i = j) as -> by lia. congruence. }
  assert (Transitive (newest_first r_sequence)) by (intros x y z; unfold newest_first; lia).
  assert (Total (newest_first r_sequence)) by (intros x y; unfold newest_first; lia).
  apply (StronglySorted_unique_strong (newest_first r_sequence)).
  - intros x y Hx Hy H1 H2. apply Hinj; [by rewrite merge_sort_Permutation in Hx|by rewrite reverse_Permutation in Hy|]. unfold newest_first in *. lia.
  - by apply StronglySorted_merge_sort.
  - clear -Hl. induction l as [|m l IH] using rev_ind; [constructor|]. rewrite reverse_snoc. constructor.
    + apply IH. pose proof (gapless_take _ (length l) Hl) as H. by rewrite take_app_length in H.
    + rewrite Forall_reverse. apply Forall_forall. intros x [i Hi]%list_elem_of_lookup. unfold newest_first.
      assert ((l ++ [m]) !! i = Some x) as Hi' by (by apply lookup_app_l_Some).
      assert ((l ++ [m]) !! length l = Some m) as Hm by (by apply list_lookup_middle).
      rewrite (gapless_lookup _ _ _ Hl Hi'), (gapless_lookup _ _ _ Hl Hm). apply lookup_lt_Some in Hi. lia.
  - by rewrite merge_sort_Permutation, reverse_Permutation.
Qed.
(** A page of a conversation in order: the last messages before the number asked for, the
    newest first; none is skipped and none comes twice from one page to the next. *)
Theorem page_newest_first now id others t conv before limit : gapless (messages_in conv t) ->
  exec (MessagesOf conv before limit) now id others t =
    Rows (take (Z.to_nat limit) (reverse (if decide (before <= 0) then messages_in conv t else take (Z.to_nat (before - 1)) (messages_in conv t)))) [].
Proof.
  intros Hg. cbn [exec]. cbv zeta. f_equal. f_equal.
  rewrite (filter_prefix _ _ (if decide (before <= 0) then length (messages_in conv t) else Z.to_nat (before - 1))).
  - case_decide; [rewrite firstn_all; by apply newest_reverse|]. by apply newest_reverse, gapless_take.
  - intros i m Hi. rewrite (gapless_lookup _ _ _ Hg Hi). apply lookup_lt_Some in Hi. case_decide; lia.
Qed.

(** ** One conversation for each pair *)
Section pairs.
Definition ordered (r : conv_row) : Prop := r_user_a r <> r_user_b r /\ String.ltb (uuid_String (r_user_b r)) (uuid_String (r_user_a r)) = false.
Definition pairs_ok (l : list conv_row) : Prop := Forall ordered l /\
  (forall i j r r', l !! i = Some r -> l !! j = Some r' -> r_user_a r = r_user_a r' -> r_user_b r = r_user_b r' -> i = j).
Definition no_conv (wr : write) : Prop := match wr with WConv _ => False | _ => True end.
Definition pairs_inv (w : cworld) : Prop := pairs_ok (cd_convs (cw_db w)) /\ map_Forall (λ _ x, Forall no_conv (tx_writes x)) (cw_txs w).
Definition pre_p (X : Type) (e : chatE X) : Prop :=
  match e with
  | @Alone A q => match q with InsertConv a b => String.ltb (uuid_String b) (uuid_String a) = false | _ => True end
  | @Within A n q => match q with InsertConv _ _ => False | _ => True end
  | _ => True
  end.
Abbreviation safely p := (safe pre_p (λ _ _ _, True) p (λ _, True)).
Lemma apply_no_conv ws t : Forall no_conv ws -> cd_convs (foldl apply_write t ws) = cd_convs t.
Proof. intros Hws. revert t. induction Hws as [|wr ws Hw _ IH]; intros t; [done|]. cbn [foldl]. rewrite IH. by destruct wr. Qed.
Lemma exec_pairs {A} (q : stmt A) now id others t a ws : exec q now id others t = Rows a ws ->
  Forall no_conv ws \/ exists x y, ws = [WConv {| r_id := id; r_user_a := x; r_user_b := y; r_created_at := now |}] /\ x <> y /\
    (forall r, r ∈ cd_convs t -> ~ (r_user_a r = x /\ r_user_b r = y)) /\ match q with InsertConv a b => a = x /\ b = y | _ => False end.
Proof.
  intros E. destruct q; cbn in E; repeat first [case_decide|case_match]; simplify_eq; try done; try (left; by repeat constructor).
  right. do 2 eexists. split_and!; try done. intros r Hr Hab. match goal with H : ~ Exists (λ r, r_user_a r = _ /\ _) _ |- _ => apply H end. apply Exists_exists. by exists r.
Qed.
Lemma pairs_snoc l r : pairs_ok l -> ordered r -> (forall r', r' ∈ l -> ~ (r_user_a r' = r_user_a r /\ r_user_b r' = r_user_b r)) -> pairs_ok (l ++ [r]).
Proof.
  intros [Hf Hu] Hr Hn. split; [by apply Forall_app_2; [|constructor]|]. intros i j x y. rewrite !lookup_app_Some.
  intros [Hi|[Hi Hx]] [Hj|[Hj Hy]] Ha Hb; try apply list_lookup_singleton_Some in Hx as [Hi' <-]; try apply list_lookup_singleton_Some in Hy as [Hj' <-].
  - by eapply Hu.
  - destruct (Hn x); [by eapply list_elem_of_lookup_2|done].
  - destruct (Hn y); [by eapply list_elem_of_lookup_2|done].
  - lia.
Qed.
Lemma pairs_keeps X (e : chatE X) w0 r w' : perform_chat X e w0 = (r, w') -> pairs_inv w0 -> pre_p X e -> pairs_inv w' /\ True.
Proof.
  intros E HI0 Hp. split; [|done]. assert (HI : pairs_inv (set_draws (cw_ids w0) (tail (cw_faults w0)) w0)) by exact HI0.
  destruct e; cbn [perform_chat] in E; unfold next_fault in E; try (injection E as <- <-; exact HI0);
    try set (w := set_draws (cw_ids w0) (tail (cw_faults w0)) w0) in *.
  - assert (forall a ws, exec q (cw_now w) (next_id w) (others_of None w) (cw_db w) = Rows a ws ->
      pairs_inv (set_db (foldl apply_write (cw_db w) ws) (cw_txs w) (cw_next w) (set_draws (tail (cw_ids w)) (cw_faults w) w))) as Hrows.
    { intros a ws Ex. destruct HI as [H1 H2]. split; [|exact H2]. cbn. apply exec_pairs in Ex as [Hws|(x & y & -> & Hne & Hn & Hq)]; [by rewrite apply_no_conv|].
      cbn. destruct q; try done. destruct Hq as [-> ->]. apply pairs_snoc; [done|by split|]. intros r' Hr'. by apply Hn. }
    destruct (default None _) as [[code|]|]; [by injection E as <- <-|..]; destruct (exec q _ _ _ _) as [a ws|code|] eqn:Ex;
      injection E as <- <-; first [by eapply Hrows|exact HI].
  - destruct (default None _) as [[code|]|]; injection E as <- <-; [exact HI..|]. destruct HI as [H1 H2]. split; [done|]. cbn.
    apply map_Forall_insert_2; [by cbn|done].
  - destruct (cw_txs w !! n) as [x|] eqn:Hx; [|by injection E as <- <-]. destruct HI as [H1 H2]. pose proof (H2 _ _ Hx) as Hxw. cbn in Hxw.
    assert (pairs_inv (set_db (cw_db w) (<[n := fail_tx x]> (cw_txs w)) (cw_next w) w)) as Hfail by (split; [done|]; by apply map_Forall_insert_2).
    destruct (tx_failed x); [by injection E as <- <-|]. destruct (default None _) as [[code|]|]; [by injection E as <- <-..|].
    destruct (exec q _ _ _ _) as [a ws|code|] eqn:Ex; injection E as <- <-; [|done|by split].
    split; [done|]. apply map_Forall_insert_2; [|done]. cbn. apply Forall_app_2; [done|].
    apply exec_pairs in Ex as [Hws|(y & z & -> & _ & _ & Hq)]; [done|]. by destruct q.
  - destruct (cw_txs w !! n) as [x|] eqn:Hx; [|by injection E as <- <-]. destruct HI as [H1 H2]. pose proof (H2 _ _ Hx) as Hxw. cbn in Hxw.
    assert (forall t, cd_convs t = cd_convs (cw_db w) -> pairs_inv (set_db t (delete n (cw_txs w)) (cw_next w) w)) as Hend.
    { intros t Ht. split; cbn; [by rewrite Ht|by apply map_Forall_delete]. }
    destruct (tx_failed x); [injection E as <- <-; by apply Hend|].
    destruct (default None _) as [[code|]|]; injection E as <- <-; apply Hend; try done; by apply apply_no_conv.
  - injection E as <- <-. destruct HI0 as [H1 H2]. split; [done|]. cbn. by apply map_Forall_delete.
Qed.
Lemma bind_safe_p {A B} (p : io A) (k : A -> io B) : safely p -> (forall a, safely (k a)) -> safely (pbind p k).
Proof. intros Hp Hk. by apply safe_pbind_any. Qed.
Lemma try_safe_p {A B} (p : io A) (k : A + error -> io B) : safely p -> (forall a, safely (k a)) -> safely (ptry p k).
Proof. intros Hp Hk. apply safe_ptry. eapply safe_mono; [exact Hp|]. by intros [a|e|] _. Qed.
Lemma await_safe_p {A} n (e : chatE (option A)) : pre_p _ e -> safely (await n e).
Proof. intros He. induction n as [|n IH]; cbn [await]; (apply bind_safe_p; [by split|]); by intros [a|]. Qed.
Lemma column_safe_p {A} t (k : uuid -> io A) : (forall u, uuid_Parse t = Some u -> safely (k u)) -> safely (column t k).
Proof. intros Hk. unfold column. destruct (uuid_Parse t) as [u|]; [by apply Hk|done]. Qed.
Lemma wrap_safe_p {A} f (p : io A) : safely p -> safely (pwrap f p).
Proof. intros Hp. apply safe_pwrap. eapply safe_mono; [exact Hp|done]. Qed.
#[local] Ltac typed := repeat (cbv zeta; lazymatch goal with
  | |- forall _, _ => intros ?
  | |- safe _ _ (pbind _ _) _ => apply bind_safe_p
  | |- safe _ _ (ptry _ _) _ => apply try_safe_p
  | |- safe _ _ (pignore _) _ => apply safe_pignore
  | |- safe _ _ (pwrap _ _) _ => apply wrap_safe_p
  | |- safe _ _ (column _ _) _ => apply column_safe_p
  | |- safe _ _ (one_row _) _ => unfold one_row
  | |- safe _ _ (or_not_found _ _) _ => unfold or_not_found
  | |- safe _ _ (defer_rollback _ _) _ => unfold defer_rollback
  | |- safe _ _ (answered _) _ => unfold answered
  | |- safe _ _ (stmt_run _ _) _ => apply await_safe_p
  | |- safe _ _ (tx_run _ _ _) _ => by apply await_safe_p
  | |- safe _ _ (act _) _ => by split
  | |- safe _ _ (pret _) _ => exact I
  | |- safe _ _ (pfail _) _ => exact I
  | |- safe _ _ (match ?x with _ => _ end) _ => destruct x
  end).
Lemma insert_keys_safe p n u keys : safely (insert_keys p n u keys).
Proof. induction keys as [|k keys IH]; cbn [insert_keys]; typed. exact IH. Qed.
Definition canonical (t : string) : Prop := exists u, t = uuid_String u.
Lemma create_safe p a b : canonical a -> canonical b -> safely (GetOrCreateConversation p a b).
Proof.
  intros [ua ->] [ub ->]. unfold GetOrCreateConversation, orderPair. destruct (String.ltb _ _) eqn:El; typed; try done;
    repeat match goal with H : uuid_Parse (uuid_String _) = Some _ |- _ => rewrite uuid_Parse_String in H; injection H as <- end; cbn [pre_p]; [|done].
  unfold String.ltb in *. rewrite String.compare_antisym. by destruct (String.compare _ _).
Qed.
Definition canonical_call (k : nat * call) : Prop := match k.2 with KCreate u (Some o) => canonical u /\ canonical o | _ => True end.
Lemma serve_pairs bc k : canonical_call k -> safely (serve bc k).
Proof.
  destruct k as [p k]. unfold serve, canonical_call. destruct k; cbn [fst snd]; intros Hk.
  - unfold handler_PublishKeys, PublishKeys, UpsertIdentityKey, UpsertSignedPreKey, AddOneTimePreKeys. typed; try done. apply insert_keys_safe.
  - unfold handler_GetBundle, GetBundle, repo_GetBundle, claim. by typed.
  - unfold handler_CreateConversation. typed. unfold CreateConversation. typed. apply create_safe; apply Hk.
  - unfold handler_ListConversations, ListConversations, repo_ListConversations. by typed.
  - unfold handler_SendMessage, SendMessage, GetConversation, CreateMessage. by typed.
  - unfold handler_ListMessages, ListMessages, GetConversation, repo_ListMessages. by typed.
Qed.
(** Two users have at most one conversation, whichever of them asks for it and however
    often at once, as long as identifiers are given as the database prints them. *)
Theorem one_conversation_per_pair bc w c r r' : cd_convs (cw_db w) = [] -> cw_txs w = ∅ ->
  reachable perform_chat (serve bc) outside w c -> Forall canonical_call c.2.*1 ->
  r ∈ cd_convs (cw_db c.1) -> r' ∈ cd_convs (cw_db c.1) ->
  (r_user_a r = r_user_a r' /\ r_user_b r = r_user_b r') \/ (r_user_a r = r_user_b r' /\ r_user_b r = r_user_a r') -> r = r'.
Proof.
  intros Hc Ht Hr Hl Hin Hin' Hpair.
  assert (pairs_inv w) as Hw.
  { split; [rewrite Hc; split; [constructor|by intros i j x y; rewrite lookup_nil]|rewrite Ht; apply map_Forall_empty]. }
  destruct (pool_safe pre_p (λ _ _ _, True) perform_chat pairs_inv pairs_keeps (serve bc) outside canonical_call) with (w := w) (c := c)
    as [[[Hord Hu] _] _]; try done.
  { intros w1 w2 (E1 & _ & _ & E4 & _) [H1 H2]. split; [by rewrite E1|by rewrite E4]. }
  { apply serve_pairs. }
  rewrite Forall_forall in Hord. destruct (Hord _ Hin) as [_ H1], (Hord _ Hin') as [Hne H2].
  apply list_elem_of_lookup in Hin as [i Hi]. apply list_elem_of_lookup in Hin' as [j Hj].
  destruct Hpair as [[Ha Hb]|[Ha Hb]]; [assert (i = j) as -> by (by eapply Hu); congruence|].
  exfalso. rewrite Ha, Hb in H1. apply Hne. unfold String.ltb in *. rewrite String.compare_antisym in H1.
  destruct (String.compare _ _) eqn:E in H1; try done.
  - apply String.compare_eq_iff in E. apply (f_equal uuid_Parse) in E. rewrite !uuid_Parse_String in E. by injection E.
  - rewrite E in H2. done.
Qed.
End pairs.
End inv.

(** ** The handshake *)
(** What the curve is documented to give: Diffie-Hellman commutes and does not fail on
    the public key of a private one, and a key is read back from its bytes. *)
Class X25519Laws `{X25519Lib} : Prop := {
  ECDH_comm a b : ECDH a (public_of b) = ECDH b (public_of a);
  ECDH_honest a b : is_Some (ECDH a (public_of b));
  NewPublicKey_Bytes k : NewPublicKey (Bytes k) = Some k;
}.
Section handshake.
Context `{X25519Laws} `{webhook.HMAC}.
Import webhook webhookprops.
Definition pair_of (priv : private) : KeyPair private public := {| PrivateKey := priv; PublicKey := public_of priv |}.
Definition key_text (priv : private) : string := hex_EncodeToString (Bytes (public_of priv)).
(** The bundle of a user who publishes these keys. *)
Definition bundle_of (userID signature : string) (ik spk : private) (spkID : Z) (opk : option (private * Z)) : PreKeyBundle :=
  {| b_UserID := userID; b_IdentityKey := key_text ik; b_SignedPreKey := key_text spk; b_SignedPreKeyID := spkID; b_Signature := signature;
     b_OneTimePreKey := match opk with Some (k, _) => key_text k | None => "" end; b_OneTimePreKeyID := match opk with Some (_, n) => n | None => 0 end |}.
Lemma decode_text f g k : decode_key f g (key_text k) = Ok (public_of k).
Proof. unfold decode_key, key_text. by rewrite hex_roundtrip, NewPublicKey_Bytes. Qed.
(** C22: Both sides of a handshake derive the same keys: whoever takes the bundle a user
    published, and the user, who is told the other's keys and which one-time prekey it
    took, get one master key, hence one key for each message. *)
Theorem handshake_agrees userID signature ik spk spkID opk aik aek :
  (forall k n, opk = Some (k, n) -> Bytes (public_of k) <> ""%string) ->
  exists s s', InitiateHandshake (pair_of aik) (pair_of aek) (Some (bundle_of userID signature ik spk spkID opk)) = Ok s /\
    RespondToHandshake (pair_of ik) (pair_of spk) (pair_of ∘ fst <$> opk) (key_text aik) (EphemeralPubKey s) = Ok s' /\
    SharedMasterKey s = SharedMasterKey s' /\ (forall n, DeriveMessageKey s n = DeriveMessageKey s' n) /\
    OneTimePreKeyID s = match opk with Some (_, n) => n | None => 0 end.
Proof.
  intros Hopk. unfold InitiateHandshake, RespondToHandshake. cbn [bundle_of b_IdentityKey b_SignedPreKey b_OneTimePreKey b_OneTimePreKeyID].
  rewrite !decode_text. cbn [result_bind pair_of PrivateKey PublicKey]. unfold dh.
  destruct (ECDH_honest aik spk) as [d1 E1], (ECDH_honest aek ik) as [d2 E2], (ECDH_honest aek spk) as [d3 E3].
  rewrite E1, E2, E3. cbn [result_bind].
  assert (exists d4,
    match pair_of ∘ fst <$> opk with Some opk => match ECDH (PrivateKey opk) (public_of aek) with Some s => Ok s | None => Err (Wrapf "DH4 failed: %w" (External "ecdh")) end | None => Ok ""%string end = Ok d4 /\
    (if decide (match opk with Some (k, _) => key_text k | None => "" end = "")%string then ""%string
     else match hex_DecodeString match opk with Some (k, _) => key_text k | None => "" end with
          | Some b => match NewPublicKey b with Some bobOPK => default ""%string (ECDH aek bobOPK) | None => ""%string end
          | None => ""%string end) = d4) as (d4 & R4 & I4).
  { destruct opk as [[k n]|]; cbn; [|by eexists]. destruct (ECDH_honest aek k) as [d4 E4]. rewrite (ECDH_comm k), E4. exists d4.
    split; [done|]. rewrite decide_False; [unfold key_text; by rewrite hex_roundtrip, NewPublicKey_Bytes, E4|].
    intros Hk. apply (Hopk k n eq_refl). unfold key_text in Hk. by destruct (Bytes (public_of k)). }
  rewrite I4. eexists _, _. split; [reflexivity|]. cbn [EphemeralPubKey].
  fold (key_text aek). rewrite !decode_text. cbn [result_bind]. rewrite (ECDH_comm spk), (ECDH_comm ik), (ECDH_comm spk aek), E1, E2, E3. cbn [result_bind].
  rewrite R4. cbn [result_bind]. split; [reflexivity|]. by split_and!.
Qed.
End handshake.

(** ** Runs *)
Definition users3 : chatdb :=
  {| cd_users := {[1%N; 2%N; 3%N]}; cd_identity := ∅; cd_signed := ∅; cd_onetime := ∅; cd_convs := []; cd_msgs := [] |}.
Definition world0 : cworld := {| cw_db := users3; cw_txs := ∅; cw_next := 0; cw_now := 100; cw_ids := N.of_nat <$> seq 10 30; cw_faults := [];
  cw_delivered := []; cw_answers := [] |}.
Abbreviation turns := (list (turn (W := cworld) (L := nat * call))).
Abbreviation play chs w := (schedule perform_chat (serve true) chs (w, [])) (only parsing).
Definition whole (i : nat) (k : call) : turns := Start (3, k)%nat :: replicate 20 (Run i).
Definition later (t : time) (w : cworld) : cworld := {| cw_db := cw_db w; cw_txs := cw_txs w; cw_next := cw_next w; cw_now := t; cw_ids := cw_ids w;
  cw_faults := cw_faults w; cw_delivered := cw_delivered w; cw_answers := cw_answers w |}.
Definition keys (ik spk : string) (id : Z) (opks : list OneTimePreKeyInput) : option PublishKeysInput :=
  Some {| pi_IdentityKeyPub := ik; pi_SignedPreKeyID := id; pi_SignedPreKeyPub := spk; pi_Signature := "any"; pi_OneTimePreKeys := opks |}.
Definition opk (id : Z) (pub : string) : OneTimePreKeyInput := {| oi_KeyID := id; oi_PubKey := pub |}.
Definition bundle (ik spk : string) (id : Z) (o : string) (oid : Z) : answer :=
  BundleIs {| b_UserID := "x"; b_IdentityKey := ik; b_SignedPreKey := spk; b_SignedPreKeyID := id; b_Signature := "any"; b_OneTimePreKey := o; b_OneTimePreKeyID := oid |}.
(** The other user's identifier in capitals is the same user for the database, and sorts
    before one's own: the pair gets a second conversation, the other way round. *)
Theorem two_conversations :
  (λ r, (r_user_a r, r_user_b r)) <$> cd_convs (cw_db (play (whole 0 (KCreate "xx" (Some "AAA")) ++ whole 1 (KCreate "xx" (Some "xxx"))) world0).1)
    = [(3, 2); (2, 3)]%N.
Proof. by vm_compute. Qed.
(** A bundle taken while its user publishes: the old identity key with the new prekey,
    whose signature is the new identity's. *)
Theorem torn_bundle :
  cw_answers (play (whole 0 (KPublish "x" (keys "ik1" "spk1" 1 [])) ++ [Start (3, KBundle "x")%nat; Run 1] ++
    whole 2 (KPublish "x" (keys "ik2" "spk2" 1 [])) ++ replicate 20 (Run 1)) world0).1
  = [Published; Published; bundle "ik1" "spk2" 1 "" 0].
Proof. by vm_compute. Qed.
(** A prekey published again under its number keeps its age: it is not the current one. *)
Definition rotated : cworld := (play (whole 0 (KPublish "x" (keys "ik" "spk2" 2 []))) (later 200 (play (whole 0 (KPublish "x" (keys "ik" "spk1" 1 []))) world0).1)).1.
Theorem rotation_back_ignored :
  cw_answers (play (whole 0 (KPublish "x" (keys "ik" "spk3" 1 [])) ++ whole 1 (KBundle "x")) (later 300 rotated)).1
  = [Published; Published; Published; bundle "ik" "spk2" 2 "" 0].
Proof. by vm_compute. Qed.
(** A one-time prekey under a number that was used is accepted and not stored. *)
Theorem refill_ignored :
  cw_answers (play (whole 0 (KPublish "x" (keys "ik" "spk" 1 [opk 1 "old"])) ++ whole 1 (KBundle "x") ++
    whole 2 (KPublish "x" (keys "ik" "spk" 1 [opk 1 "new"])) ++ whole 3 (KBundle "x")) world0).1
  = [Published; bundle "ik" "spk" 1 "old" 1; Published; bundle "ik" "spk" 1 "" 0].
Proof. by vm_compute. Qed.
#[local] Instance toy_curve : X25519Lib := {
  private := uuid; public := uuid; public_of k := k; NewPrivateKey := uuid_Parse; NewPublicKey := uuid_Parse; Bytes := uuid_String;
  ECDH a b := Some (fmt_d (Z.of_N (a * b))); hkdf_sha256 secret _ _ := secret;
  edprivate := unit; edpublic := unit; ed_Sign _ m := m; ed_Verify _ m s := bool_decide (m = s);
}.
#[local] Instance toy_laws : X25519Laws.
Proof. split; [intros a b; cbn; by rewrite N.mul_comm|by eexists|intros k; exact (uuid_Parse_String k)]. Qed.
#[local] Instance toy_hmac : webhook.HMAC := {| webhook.hmac_sha256 k m := (k ++ m)%string; webhook.sha256_Sum256 s := s |}.
(** A one-time prekey that does not decode is taken, named to the other side and left
    out of the key: the two sides differ. *)
Definition garbled : PreKeyBundle :=
  {| b_UserID := "x"; b_IdentityKey := key_text 3%N; b_SignedPreKey := key_text 5%N; b_SignedPreKeyID := 1; b_Signature := "any";
     b_OneTimePreKey := "zz"; b_OneTimePreKeyID := 7 |}.
Theorem garbled_prekey_splits :
  (result_map SharedMasterKey (InitiateHandshake (pair_of 11%N) (pair_of 13%N) (Some garbled)),
   result_map OneTimePreKeyID (InitiateHandshake (pair_of 11%N) (pair_of 13%N) (Some garbled)),
   result_map SharedMasterKey (RespondToHandshake (pair_of 3%N) (pair_of 5%N) (Some (pair_of 7%N)) (key_text 11%N) (key_text 13%N)))
  = (Ok "553965", Ok 7, Ok "55396591")%string.
Proof. by vm_compute. Qed.

(** ** Witnesses *)
Lemma reach_chat chs w : existsb is_env chs = false -> reachable perform_chat (serve true) outside w (play chs w).
Proof. apply (schedule_steps_closed perform_chat (serve true) outside chs (w, [])). Qed.
(** Two requests for a bundle at once. *)
Definition two_bundles : turns := whole 0 (KPublish "x" (keys "ik" "spk" 1 [opk 1 "a"; opk 2 "b"])) ++
  [Start (3, KBundle "x")%nat; Start (3, KBundle "x")%nat] ++ concat (replicate 20 [Run 1; Run 2]).
Definition bundled2 : cworld * pool (E := chatE) (L := nat * call) := play two_bundles world0.
Lemma prekeys_handed_once_witness : NoDup (handed (cw_answers bundled2.1)) /\ handed (cw_answers bundled2.1) = [(1%N, 1); (1%N, 2)].
Proof.
  split; [|by vm_compute]. apply (prekeys_handed_once true world0 bundled2); [by split_and!|by apply (reach_chat two_bundles world0)].
Defined.
(** Both sides write at once: one waits for the other's lock. *)
Definition text : option SendMessageInput := Some {| si_Ciphertext := "c"; si_Nonce := "n"; si_EphemeralKey := ""; si_OneTimePreKeyID := None |}.
Definition two_messages : turns := whole 0 (KCreate "xx" (Some "xxx")) ++
  [Start (9, KSend "xx" (unary 11) text)%nat; Start (9, KSend "xxx" (unary 11) text)%nat] ++ concat (replicate 20 [Run 1; Run 2]).
Definition written : cworld * pool (E := chatE) (L := nat * call) := play two_messages world0.
Lemma messages_numbered_witness : r_sequence <$> messages_in 11 (cw_db written.1) = [1; 2].
Proof.
  destruct (messages_numbered true world0 written) as (H & _); [by split_and!|by apply (reach_chat two_messages world0)|].
  rewrite (H 11%N). by vm_compute.
Defined.
Definition asked_twice : turns := [Start (3, KCreate "xx" (Some "xxx"))%nat; Start (3, KCreate "xxx" (Some "xx"))%nat] ++ concat (replicate 20 [Run 0; Run 1]).
Definition opened : cworld * pool (E := chatE) (L := nat * call) := play asked_twice world0.
Definition opened_row : conv_row := {| r_id := 12; r_user_a := 2; r_user_b := 3; r_created_at := 100 |}.
Definition last_row : conv_row := default opened_row (last (cd_convs (cw_db opened.1))).
Lemma one_conversation_per_pair_witness : opened_row = last_row.
Proof.
  apply (one_conversation_per_pair true world0 opened opened_row last_row); [reflexivity|reflexivity|by apply (reach_chat asked_twice world0)|..].
  - vm_compute. repeat constructor; by (eexists 2%N + eexists 3%N).
  - vm_compute. by left.
  - vm_compute. by left.
  - by left.
Defined.
Lemma page_newest_first_witness : exec (MessagesOf 11 2 50) 0 0%N [] (cw_db written.1) = Rows (take 1 (messages_in 11 (cw_db written.1))) [].
Proof. rewrite (page_newest_first 0 0%N [] (cw_db written.1) 11%N 2 50); by vm_compute. Defined.
Definition toy_key (n : N) : private := n.
Lemma handshake_agrees_witness : exists s,
  InitiateHandshake (pair_of (toy_key 11)) (pair_of (toy_key 13)) (Some (bundle_of "x" "any" (toy_key 3) (toy_key 5) 1 (Some (toy_key 7, 4)))) = Ok s /\ OneTimePreKeyID s = 4.
Proof.
  destruct (handshake_agrees "x" "any" (toy_key 3) (toy_key 5) 1 (Some (toy_key 7, 4)) (toy_key 11) (toy_key 13)) as (s & s' & H & _ & _ & _ & Hid);
    [by intros k n [= <- <-]|].
  exists s. split; [exact H|exact Hid].
Defined.
End chatprops.
